(* ===== verification/_CoqProject ===== *)
-Q . S2P
Prelude.v
Rmap.v
Descrip.v
Share.v
Flock.v
Clist.v
Callout.v
Proc.v
Prot.v
Synch.v
Signal.v
Kill.v
Sigcalls.v
Disp.v
Deliver.v
Resource.v
Time.v
Msglog.v
Fork.v
Exit.v
Wait.v
Leave.v
Ring.v
Bio.v
Cache.v
Store.v
Ufs.v
Alloc.v
Bmap.v
Rwip.v
Fileio.v
Isave.v
Trunc.v
Itrunc.v
Itable.v
Icache.v
Inodes.v
