(* ===== verification/Prelude.v ===== *)
(** * Verification of the RetroBSD kernel

    RetroBSD is 2.11BSD for the PIC32 microcontroller.  This library models
    the machine independent core of its kernel (src/sys/kernel, with the
    headers of src/sys/include and parts of src/sys/pic32) and proves that the
    parts do what they promise each other.  This file is the prelude: the
    outcomes of kernel code, machine integers, record fields, flag words,
    arrays, a state monad with its weakest preconditions, and the tactics and
    hints the other files share.

    ** How code is modelled

    A routine is a function from the state it works on to an [outcome]: [Done]
    with a result and the new state, [Panic], [Wild] (an access outside the
    object that was given) or [Spin] (a loop has used up its bound).  [K S A]
    is the monad of such functions, and [wp m Q s] says that [m], run from [s],
    is [Done] with a result and a state that satisfy [Q]; it is false of the
    other three, so that every theorem stated with it is one of total
    correctness: no panic, no stray access, and the loops end.  Statements
    about routines that may sleep for ever, or stop, say what holds when they
    return ([wlp], [yields]), or take the sequence of sleeps as given
    ([dozes], [arrives], [naps]).  Pointers into
    tables are indices, [None] is NULL, [int] and [long] are integers wrapped
    by [s32] and [u32] where the code can overflow.  Code that is not modelled,
    hardware, and what other processes do while one sleeps are operations of
    type classes ([FileOps], [VnOpen], [Layout], [Machine], [ForkOps],
    [WaitOps], [DirOps], [LogOps], [Disks], [Naps], [Chardevs],
    [TableOps]); theorems name what they need of them ([Volumes], [GoodDisks],
    [Alone], [NamesOnly]) and have witnesses with instances.

    ** The parts

    Memory and queues
    - Rmap: resource maps, kernel/subr_rmap.c ([malloc], [mfree], [malloc3]),
      and the declaration of the swap map.
    - Clist: character lists, kernel/tty_subr.c.
    - Ring: circular doubly linked queues, as the cache uses them.

    Time and processes
    - Callout: the clock interrupt and the callout table, kernel/kern_clock.c.
    - Proc: the process table, the user area and user memory
      (include/proc.h, include/user.h, kernel/kern_proc.c, pic32/machdep.c);
      the state of the files that follow.
    - Prot: identities, kernel/kern_prot.c and kern_prot2.c.
    - Synch: sleep queues, run queue and priorities, kernel/kern_synch.c.
    - Signal, Kill: posting of signals, kernel/kern_sig.c.
    - Sigcalls, Disp, Deliver: the signal calls, dispositions, delivery and
      the frame of a handler, kernel/kern_sig.c, kern_sig2.c, kern_exec.c,
      pic32/signal.c.
    - Resource: priorities, limits and usage, kernel/kern_resource.c.
    - Time: the time of day and interval timers, kernel/kern_time.c.
    - Msglog: the message log, kernel/subr_log.c.
    - Fork: process creation, kernel/kern_fork.c.
    - Exit: exit and wait, kernel/kern_exit.c, and the three lists of the
      process table over the life of its entries.  Wait has the theorems on
      [wait4], Leave [exit] as a whole, on processes and files.

    Open files
    - Descrip: descriptors and the file table, kernel/kern_descrip.c.
    - Share: what fork and exit do with the descriptors, kernel/kern_fork.c
      and kern_exit.c.
    - Flock: advisory locks and [open], kernel/sys_inode.c, ufs_syscalls.c.

    Blocks and files
    - Bio: the buffer cache, kernel/ufs_bio.c, with [rdstrategy] and
      [read_mbr] of kernel/rdisk.c.  Cache has its invariant, Store what its
      callers may rely on.
    - Ufs: super block, free list and block map, kernel/ufs_alloc.c and
      ufs_bmap.c.  Alloc and Bmap have the theorems.
    - Rwip: [rwip], [rdwri], [ino_rw] (kernel/sys_inode.c), [uiomove]
      (kernel/kern_subr.c), [iupdat] and [itrunc] (kernel/ufs_inode.c).
      Fileio has the theorems on reading and writing, Isave and Itrunc those
      on [iupdat] and [itrunc], with the lemmas of Trunc about trees that are
      taken apart.
    - Itable: the table of inodes, kernel/ufs_inode.c.  Icache has its
      invariant, Inodes what its callers may rely on.

    ** What is shown

    Refinement: the cache is an array of blocks, from boot and whatever it
    keeps in memory ([cache_refines_disk]); the free list, spread over the
    super block and free blocks, is a stack ([alloc_refines_stack]); the trees
    of indirect blocks are the map a reference definition by division names
    ([bmap_correct]); on top of the three, a file is an array of bytes that
    grows ([rwip_write_correct], [rwip_read_correct]) and an open file a
    stream ([ino_rw_correct]); [itrunc] cuts a file off at any byte and gives
    back exactly the blocks it lost ([itrunc_correct]); the table of inodes,
    with hash chains and a free list, is a cache that writes back
    ([inodes_write_back]).  Each layer is proved
    against the statement about the one below and not its code.  A character
    list is a queue of bytes ([clist_refines_fifo]), and the message log is one
    that says what it loses ([log_is_queue]); [psignal] implements a table of
    effects written from what signals are for ([psignal_correct]); clock
    interrupts work off an agenda of deadlines ([interrupts_correct]); the process table with its lists and hash chains is,
    over any history of creation, exit and wait, a machine of three lists
    ([lifecycle_refines]).

    Invariants and safety: queues, counts and lists stay intact in every
    operation; locks exclude each other under any interference
    ([ino_lock_safe]); no sequence of calls gives an unprivileged process an
    identity it could not have ([no_way_up]); caught, ignored and blocked sets
    match the handlers ([signal_bookkeeping]); stop and continue are never
    pending together.

    Functional behaviour, errors included: resource maps, callouts,
    descriptors, [open], identities, [kill], [setpriority], [issignal],
    [wakeup], [swtch], [exit], [wait4].  Round trips: [malloc] and [mfree],
    [sendsig] and [sigreturn], writing and reading a file, setting and reading
    the clock and the timers, the references of a child that is created and
    exits.  Liveness and termination: callouts come
    when due, [bflush] leaves everything on the disk, exit leaves nobody asleep
    where its parent waits and the parent then gets the record, the searches
    for process ids and signals end.

    Defects: theorems whose names say so ([swapmap_overrun],
    [open_devfd_error_lost], [updatepri_forgets], [newpid_duplicate],
    [read_failure_hidden], [read_mbr_breaks_list], [wait_group_misses_zombie],
    [adjtime_steps], [log_full_lost])
    prove that the code does not do what it means to, from a reachable state
    or a concrete input.

    ** Bounds

    Loops over a table are bounded by its size: hash and free lists by the
    number of buffers, sleep and run queues by the number of processes.  A
    [wakeup] that has woken a process starts over, at most once for each, so
    (n + 1)^2 steps are enough; [psignal] calls itself for the parent once.
    Loops over signals have 32 rounds, the search for a process id 4 n + 4,
    [pop_block] the length of the list in the super block.  [getblk] and what
    calls it take a bound of at least [NBUF] + 2, one round for each delayed
    write that may be in the way.  [uiomove] has one round for each byte and
    part, [rwip] one for each byte, more than it needs as each round moves at
    least one; [indirtrunc] goes down by the level it is given.  [wait4],
    [logread] and [iget] take a bound on how often they sleep (and cross to
    another file system); the copy of a message into
    the log needs at most three rounds, out of it one for each byte and wrap.  That these suffice is part of the
    theorems.

    ** Not modelled

    Path lookup, mounting and the other calls of kernel/ufs_*.c, the
    allocation of inode numbers, pipes, exec, swapping, terminals above the character
    lists, [select] and [ioctl], tracing, [sysctl], and the drivers of
    pic32.  Interrupt priorities ([spl]) are not
    represented: a routine runs alone between its sleeps, as the kernel, which
    does not preempt itself, has it; what interrupts change is in [Callout].
    User programs, the C library and the tools (src/src, src/tools) are not
    part of the kernel.  Next would come [ialloc], which needs [iget], and path lookup. *)
From stdpp Require Import base tactics list option strings numbers gmap.
Open Scope Z_scope.

(** ** Outcomes of kernel code

    A piece of kernel code either finishes with a value, calls [panic],
    touches memory outside the object it was given ([Wild]: a null pointer
    or an index out of range, which C leaves undefined), or is still inside
    a loop when the bound given to the loop is used up ([Spin]).  Theorems
    about results always state [Done], so they also rule out the last two. *)
Inductive outcome (A : Type) : Type :=
| Done (x : A)
| Panic (msg : string)
| Wild
| Spin.
Arguments Done {A} _.
Arguments Panic {A} _.
Arguments Wild {A}.
Arguments Spin {A}.

#[global] Instance outcome_ret : MRet outcome := λ A x, Done x.
#[global] Instance outcome_bind : MBind outcome := λ A B k m,
  match m with
  | Done x => k x
  | Panic s => Panic s
  | Wild => Wild
  | Spin => Spin
  end.

Lemma bind_Done {A B} (x : A) (k : A → outcome B) : (Done x ≫= k) = k x.
Proof. reflexivity. Qed.

Lemma bind_Done_inv {A B} (m : outcome A) (k : A → outcome B) y :
  (m ≫= k) = Done y → ∃ x, m = Done x ∧ k x = Done y.
Proof. destruct m; simpl; intros H; try discriminate; eauto. Qed.

(** [case_outcome] splits a hypothesis [m ≫= k = Done y] into the run of [m]
    and the run of [k]. *)
Ltac case_outcome :=
  repeat match goal with
  | H : (_ ≫= _) = Done _ |- _ =>
      let x := fresh "x" in let Hm := fresh "Hm" in
      apply bind_Done_inv in H as (x & Hm & H)
  | H : Done _ = Done _ |- _ => injection H as H
  end.

(** ** Machine integers of the PIC32 (32-bit MIPS) *)
Definition u32 (z : Z) : Z := z mod 2^32.
Definition s32 (z : Z) : Z := (z + 2^31) mod 2^32 - 2^31.
Definition u16 (z : Z) : Z := z mod 2^16.
Definition s16 (z : Z) : Z := (z + 2^15) mod 2^16 - 2^15.
Definition u8 (z : Z) : Z := z mod 2^8.
Definition s8 (z : Z) : Z := (z + 2^7) mod 2^8 - 2^7.

Lemma u32_id z : 0 ≤ z < 2^32 → u32 z = z.
Proof. apply Z.mod_small. Qed.
Lemma u32_range z : 0 ≤ u32 z < 2^32.
Proof. apply Z.mod_pos_bound. lia. Qed.
Lemma s32_id z : - 2^31 ≤ z < 2^31 → s32 z = z.
Proof. unfold s32. intros. rewrite Z.mod_small; lia. Qed.
Lemma s16_id z : - 2^15 ≤ z < 2^15 → s16 z = z.
Proof. unfold s16. intros. rewrite Z.mod_small; lia. Qed.
Lemma s8_id z : - 2^7 ≤ z < 2^7 → s8 z = z.
Proof. unfold s8. intros. rewrite Z.mod_small; lia. Qed.
Lemma u8_range z : 0 ≤ u8 z < 256.
Proof. apply Z.mod_pos_bound. lia. Qed.
Lemma u8_id z : 0 ≤ z < 256 → u8 z = z.
Proof. apply Z.mod_small. Qed.

(** ** Record fields

    [x <| f := v |>] is the record [x] with its field [f] changed.  A record
    type joins by an instance of [Eta], the record rebuilt from its fields;
    the update of one field is computed from it.  [fields] evaluates the
    fields of updated records and leaves the updates themselves folded. *)
Class Eta (R : Type) : Type := eta_of : R → R.
Class Field {R E : Type} (get : R → E) : Type := field_map : (E → E) → R → R.
Arguments field_map {R E} get {Field} g r : simpl never.

Ltac derive_field R get :=
  let e := constr:(_ : Eta R) in
  let e := lazymatch e with (?c : _) => c | ?c => c end in
  let b := eval cbv delta [e] in e in
  lazymatch eval pattern get in b with
  | ?F _ => let u := eval cbv beta in (λ g, F (λ r, g (get r))) in exact u
  end.
#[export] Hint Extern 1 (@Field ?R ?E ?get) => derive_field R get : typeclass_instances.

Declare Scope field_scope.
Notation "x <| f := v |>" := (field_map f (λ _, v) x)
  (at level 8, left associativity, v at level 99, format "x <| f  :=  v |>") : field_scope.
Notation "x <| f ::= g |>" := (field_map f g x)
  (at level 8, left associativity, g at level 99, format "x <| f  ::=  g |>") : field_scope.
Open Scope field_scope.

Ltac fields_step g h f r t :=
  first [constr_eq g h; change t with (f (h r)) | change t with (g r)].
Ltac fields :=
  repeat match goal with
  | |- context [?g ?t] =>
      lazymatch t with @field_map _ _ ?h _ ?f ?r => fields_step g h f r (g t); cbv beta end
  end.
Ltac fields_in H :=
  repeat match type of H with
  | context [?g ?t] =>
      lazymatch t with @field_map _ _ ?h _ ?f ?r =>
        first [constr_eq g h; change (g t) with (f (h r)) in H | change (g t) with (g r) in H]; cbv beta in H end
  end.

(** ** Flag words: [x & ~m] and the test [x & m] *)
Definition bic (x m : Z) : Z := Z.land x (Z.lnot m).
Definition has (x m : Z) : bool := negb (Z.land x m =? 0).

Lemma has_lor x m k : has (Z.lor x m) k = has x k || has m k.
Proof.
  unfold has. rewrite Z.land_lor_distr_l.
  destruct (Z.eqb_spec (Z.land x k) 0) as [->|Hx], (Z.eqb_spec (Z.land m k) 0) as [->|Hm]; simpl;
    rewrite ?Z.lor_0_l, ?Z.lor_0_r; destruct (Z.eqb_spec (Z.lor (Z.land x k) (Z.land m k)) 0) as [E|E];
    try done; try (by apply Z.eqb_neq in Hx as ->); try (by apply Z.eqb_neq in Hm as ->).
  all: apply Z.lor_eq_0_iff in E; tauto.
Qed.
Lemma has_bic_other x m k : Z.land m k = 0 → has (bic x m) k = has x k.
Proof.
  intros E. unfold has, bic. rewrite <- Z.land_assoc. do 3 f_equal. apply Z.bits_inj'. intros n Hn.
  apply (f_equal (λ z, Z.testbit z n)) in E. rewrite Z.land_spec, Z.bits_0 in E.
  rewrite Z.land_spec, Z.lnot_spec by lia. by destruct (Z.testbit m n), (Z.testbit k n).
Qed.
Lemma has_bic_same x m k : Z.land (Z.lnot m) k = 0 → has (bic x m) k = false.
Proof. intros E. unfold has, bic. by rewrite <- Z.land_assoc, E, Z.land_0_r. Qed.

Lemma has_bit x k : 0 ≤ k → has x (2^k) = Z.testbit x k.
Proof.
  intros Hk. unfold has. destruct (Z.testbit x k) eqn:E.
  - apply negb_true_iff, Z.eqb_neq. intros E0. apply (f_equal (λ z, Z.testbit z k)) in E0.
    rewrite Z.land_spec, E, Z.pow2_bits_true, Z.bits_0 in E0 by lia. done.
  - apply negb_false_iff, Z.eqb_eq. apply Z.bits_inj'. intros n Hn.
    rewrite Z.land_spec, Z.bits_0, Z.pow2_bits_eqb by lia.
    destruct (Z.eqb_spec k n) as [->|]; [by rewrite E|by rewrite andb_false_r].
Qed.
Lemma has_land x y k : 0 ≤ k → has (Z.land x y) (2^k) = has x (2^k) && has y (2^k).
Proof. intros. rewrite !has_bit by done. apply Z.land_spec. Qed.

(** [flag_simpl] evaluates the tests of constant flags on flag words built by
    setting and clearing constant flags. *)
Ltac flag_simpl :=
  repeat match goal with
  | |- context [has (bic ?x ?m) ?k] =>
      first [rewrite (has_bic_other x m k) by reflexivity
            |rewrite (has_bic_same x m k) by reflexivity]
  | |- context [has (Z.lor ?x ?m) ?k] => rewrite (has_lor x m k)
  | |- context [has ?m ?k] =>
      let b := eval vm_compute in (has m k) in
      match b with true => idtac | false => idtac end; change (has m k) with b
  end;
  rewrite ?orb_false_r, ?orb_true_r, ?andb_true_r, ?andb_false_r.

(** ** Arrays

    A C array is a list; reading or writing outside it is [Wild]. *)
Definition rd {A} (a : list A) (i : nat) : outcome A :=
  match a !! i with Some x => Done x | None => Wild end.
Definition wr {A} (a : list A) (i : nat) (x : A) : outcome (list A) :=
  if decide (i < length a)%nat then Done (<[i := x]> a) else Wild.

Lemma rd_Done {A} (a : list A) i x : a !! i = Some x → rd a i = Done x.
Proof. unfold rd. by intros ->. Qed.
Lemma rd_Done_inv {A} (a : list A) i x : rd a i = Done x → a !! i = Some x.
Proof. unfold rd. destruct (a !! i); naive_solver. Qed.
Lemma wr_Done {A} (a : list A) i x : (i < length a)%nat → wr a i x = Done (<[i := x]> a).
Proof. unfold wr. intros. by rewrite decide_True. Qed.

(** The two array accesses that structured proofs meet: at the seam of an
    append. *)
Lemma rd_middle {A} (l r : list A) x n :
  n = length l → rd (l ++ x :: r) n = Done x.
Proof. intros ->. apply rd_Done. by apply list_lookup_middle. Qed.
Lemma wr_middle {A} (l r : list A) x y n :
  n = length l → wr (l ++ x :: r) n y = Done (l ++ y :: r).
Proof.
  intros ->. rewrite wr_Done; [|rewrite length_app; simpl; lia].
  f_equal. rewrite insert_app_r_alt by lia. by rewrite Nat.sub_diag.
Qed.
Lemma rd_middle_S {A} (l r : list A) x : rd (l ++ x :: r) (S (length l)) = rd r 0.
Proof.
  unfold rd. rewrite lookup_app_r by lia.
  by replace (S (length l) - length l)%nat with 1%nat by lia.
Qed.

Lemma rd_mid {A} (l r : list A) x : rd (l ++ x :: r) (length l) = Done x.
Proof. by apply rd_middle. Qed.
Lemma wr_mid {A} (l r : list A) x y : wr (l ++ x :: r) (length l) y = Done (l ++ y :: r).
Proof. by apply wr_middle. Qed.
Lemma rd_hd {A} (l : list A) x : rd (x :: l) 0 = Done x.
Proof. reflexivity. Qed.

(** Indices computed as C integers: a negative one is outside the array. *)
Definition rdz {A} (a : list A) (i : Z) : outcome A :=
  if 0 <=? i then rd a (Z.to_nat i) else Wild.
Definition wrz {A} (a : list A) (i : Z) (x : A) : outcome (list A) :=
  if 0 <=? i then wr a (Z.to_nat i) x else Wild.

(** ** Counting

    [count p l] is the number of entries of the table [l] that satisfy [p]. *)
Definition count {A} (p : A → bool) (l : list A) : Z := Z.of_nat (length (filter (λ x, p x = true) l)).

Lemma count_range {A} (p : A → bool) l : 0 ≤ count p l ≤ Z.of_nat (length l).
Proof. unfold count. pose proof (length_filter (λ x, p x = true) l). lia. Qed.

Lemma count_insert {A} (p : A → bool) l i x y :
  l !! i = Some y → count p (<[i := x]> l) = count p l + Z.b2z (p x) - Z.b2z (p y).
Proof.
  unfold count. intros Hi. rewrite (insert_take_drop _ i x) by (by eapply lookup_lt_Some).
  rewrite <- (take_drop_middle l i y Hi) at 3.
  rewrite !list.filter_app, !filter_cons, !length_app.
  destruct (p x), (p y); simpl; repeat case_decide; try done; simpl; lia.
Qed.

(** Two different entries that satisfy [p] are counted twice. *)
Lemma count_two {A} (p : A → bool) l i j x y :
  l !! i = Some x → l !! j = Some y → i ≠ j → Z.b2z (p x) + Z.b2z (p y) ≤ count p l.
Proof.
  intros Hi Hj Hne. unfold count. rewrite <- (take_drop_middle l i x Hi).
  rewrite list.filter_app, filter_cons, length_app.
  assert (p y = true → 1 ≤ Z.of_nat (length (filter (λ x, p x = true) (take i l)))
                        + Z.of_nat (length (filter (λ x, p x = true) (drop (S i) l)))).
  { intros Hy. destruct (decide (j < i)%nat).
    - assert (E : y ∈ filter (λ x, p x = true) (take i l)).
      { apply list_elem_of_filter. split; [done|]. apply list_elem_of_lookup. exists j.
        by rewrite lookup_take_lt. }
      destruct (filter _ (take i l)); [by apply not_elem_of_nil in E|]. simpl. lia.
    - assert (E : y ∈ filter (λ x, p x = true) (drop (S i) l)).
      { apply list_elem_of_filter. split; [done|]. apply list_elem_of_lookup. exists (j - S i)%nat.
        rewrite lookup_drop. by replace (S i + (j - S i))%nat with j by lia. }
      destruct (filter _ (drop (S i) l)); [by apply not_elem_of_nil in E|]. simpl. lia. }
  destruct (p x), (p y); simpl; repeat case_decide; try done; simpl; lia.
Qed.
Lemma count_one {A} (p : A → bool) l i x : l !! i = Some x → Z.b2z (p x) ≤ count p l.
Proof.
  intros Hi. pose proof (count_insert p l i x x Hi). unfold count.
  destruct (p x) eqn:E; simpl; [|lia].
  assert (El : x ∈ filter (λ x, p x = true) l).
  { apply list_elem_of_filter. split; [done|]. apply list_elem_of_lookup. by exists i. }
  destruct (filter _ l); [by apply not_elem_of_nil in El|]. simpl. lia.
Qed.

Lemma filter_none {A} (P : A → Prop) `{∀ x, Decision (P x)} l : Forall (λ x, ¬ P x) l → filter P l = [].
Proof. induction 1 as [|x l Hx _ IH]; [done|]. by rewrite filter_cons, decide_False. Qed.
Lemma filter_every {A} (P : A → Prop) `{∀ x, Decision (P x)} l : Forall P l → filter P l = l.
Proof. induction 1 as [|x l Hx _ IH]; [done|]. rewrite filter_cons, decide_True by done. by rewrite IH. Qed.

Lemma list_lookup_middle_ne {A} (l r : list A) x y n :
  n ≠ length l → (l ++ x :: r) !! n = (l ++ y :: r) !! n.
Proof.
  intros Hn. destruct (decide (n < length l)%nat).
  - by rewrite !lookup_app_l by done.
  - rewrite !lookup_app_r by lia. by destruct (n - length l)%nat eqn:E; [lia|].
Qed.

(** Distinct indices below [n] are at most [n]. *)
Lemma NoDup_lt_length (l : list nat) n : NoDup l → Forall (λ i, i < n)%nat l → (length l ≤ n)%nat.
Proof.
  intros Hl Hb. rewrite <- (length_seq n 0). apply submseteq_length, NoDup_submseteq; [done|].
  intros i Hi. rewrite Forall_forall in Hb. apply elem_of_seq. specialize (Hb i Hi). lia.
Qed.

(** ** Linked lists in a table

    The kernel links the entries of its tables by pointers.  A pointer to an
    entry is its index, NULL is [None]; [lseg nxt mem p l q]: following the
    link [nxt] from [p] passes through exactly the entries [l] and arrives
    at [q]. *)
Section Lseg.
Context {A : Type} (nxt : A → option nat).

Fixpoint lseg (mem : list A) (p : option nat) (l : list nat) (q : option nat) : Prop :=
  match l with
  | [] => p = q
  | i :: l => p = Some i ∧ ∃ x, mem !! i = Some x ∧ lseg mem (nxt x) l q
  end.

Lemma lseg_app mem p l1 l2 q :
  lseg mem p (l1 ++ l2) q ↔ ∃ r, lseg mem p l1 r ∧ lseg mem r l2 q.
Proof.
  revert p. induction l1 as [|i l1 IH]; intros p; simpl.
  - split; [by eauto|by intros (r & -> & ?)].
  - split.
    + intros (-> & x & Hx & (r & H1 & H2)%IH). eauto 10.
    + intros (r & (-> & x & Hx & H1) & H2). split; [done|]. exists x. split; [done|]. apply IH. eauto.
Qed.

Lemma lseg_insert mem p l q i x : i ∉ l → lseg mem p l q → lseg (<[i := x]> mem) p l q.
Proof.
  revert p. induction l as [|j l IH]; intros p Hi; simpl; [done|].
  intros (-> & y & Hy & Hl). split; [done|]. exists y. split; [|apply IH; set_solver].
  rewrite list_lookup_insert_ne; [done|]. set_solver.
Qed.

(** An update that keeps the link. *)
Lemma lseg_update mem p l q i x y :
  mem !! i = Some y → nxt x = nxt y → lseg mem p l q → lseg (<[i := x]> mem) p l q.
Proof.
  intros Hi Hn. revert p. induction l as [|j l IH]; intros p; simpl; [done|].
  intros (-> & z & Hz & Hl). split; [done|]. destruct (decide (i = j)) as [->|Hne].
  - exists x. rewrite list_lookup_insert_eq by (by eapply lookup_lt_Some). split; [done|].
    rewrite Hn. simplify_eq. by apply IH.
  - exists z. rewrite list_lookup_insert_ne by done. auto.
Qed.

Lemma lseg_lookup mem p l q i : lseg mem p l q → i ∈ l → ∃ x, mem !! i = Some x.
Proof.
  revert p. induction l as [|j l IH]; intros p; simpl; [set_solver|].
  intros (-> & x & Hx & Hl) [->|Hi]%elem_of_cons; eauto.
Qed.

(** Redirecting the last entry of a segment. *)
Lemma lseg_redirect mem p l i q x r :
  lseg mem p (l ++ [i]) q → i ∉ l → nxt x = r → lseg (<[i := x]> mem) p (l ++ [i]) r.
Proof.
  intros (r0 & H1 & (-> & y & Hy & _))%lseg_app Hi Hx. apply lseg_app. exists (Some i). split.
  - by apply lseg_insert.
  - split; [done|]. exists x. rewrite list_lookup_insert_eq by (by eapply lookup_lt_Some). by split.
Qed.

(** A segment determines its entries. *)
Lemma lseg_fun mem l1 : ∀ p l2, lseg mem p l1 None → lseg mem p l2 None → l1 = l2.
Proof.
  induction l1 as [|i l1 IH]; intros p [|j l2]; simpl; intros H1 H2; try done.
  - destruct H2 as [? _]. congruence.
  - destruct H1 as [? _]. congruence.
  - destruct H1 as (-> & x & Hx & H1), H2 as ([= <-] & y & Hy & H2). simplify_eq. f_equal. eauto.
Qed.
(** Only the links matter. *)
Lemma lseg_links mem mem' p l q :
  (∀ i, i ∈ l → nxt <$> mem' !! i = nxt <$> mem !! i) → lseg mem p l q → lseg mem' p l q.
Proof.
  revert p. induction l as [|j l IH]; intros p He; simpl; [done|].
  intros (-> & x & Hx & Hl). split; [done|]. pose proof (He j ltac:(set_solver)) as Hj.
  rewrite Hx in Hj. destruct (mem' !! j) as [y|] eqn:Hy; simplify_eq/=. exists y. split; [done|].
  rewrite Hj. apply IH; [|done]. intros i Hi. apply He. set_solver.
Qed.
Lemma lseg_head mem (l : list nat) p : lseg mem p l None → p = head l.
Proof. destruct l as [|j l]; simpl; [done|by intros [-> _]]. Qed.
Lemma lseg_lt mem p l q : lseg mem p l q → Forall (λ i, i < length mem)%nat l.
Proof. intros H. apply Forall_forall. intros i Hi. destruct (lseg_lookup _ _ _ _ _ H Hi). by eapply lookup_lt_Some. Qed.
End Lseg.

(** ** Kernel code with state

    [K S A] is kernel code over the state [S] that returns an [A]. *)
Definition K (S A : Type) : Type := S → outcome (A * S).

#[global] Instance K_ret S : MRet (K S) := λ A x s, Done (x, s).
#[global] Instance K_bind S : MBind (K S) := λ A B k m s,
  match m s with
  | Done (x, s') => k x s'
  | Panic msg => Panic msg
  | Wild => Wild
  | Spin => Spin
  end.

Definition gets {S A} (f : S → A) : K S A := λ s, Done (f s, s).
Definition modify {S} (f : S → S) : K S unit := λ s, Done (tt, f s).
Definition lift {S A} (o : outcome A) : K S A := λ s,
  match o with
  | Done x => Done (x, s)
  | Panic msg => Panic msg
  | Wild => Wild
  | Spin => Spin
  end.
Definition panic {S A} (msg : string) : K S A := λ _, Panic msg.

(** [wp m Q s]: started in [s], the code [m] finishes (no panic, no wild
    access, no loop left running) and its value and final state satisfy
    [Q]. *)
Definition wp {S A} (m : K S A) (Q : A → S → Prop) (s : S) : Prop :=
  match m s with Done (x, s') => Q x s' | _ => False end.

Section Wp.
Context {S A B : Type}.
Implicit Types (s : S).

Lemma wp_ret (x : A) Q s : Q x s → wp (mret x) Q s.
Proof. done. Qed.
Lemma wp_bind (m : K S A) (k : A → K S B) Q s :
  wp m (λ x, wp (k x) Q) s → wp (m ≫= k) Q s.
Proof. unfold wp, mbind, K_bind. by destruct (m s) as [[x s']| | |]. Qed.
Lemma wp_unbind (m : K S A) (k : A → K S B) Q s : wp (m ≫= k) Q s → wp m (λ x, wp (k x) Q) s.
Proof. unfold wp, mbind, K_bind. by destruct (m s) as [[x s']| | |]. Qed.
Lemma wp_assoc (m1 m2 : K S unit) (k : K S A) Q s : wp (m1;; m2) (λ _, wp k Q) s → wp (m1;; m2;; k) Q s.
Proof.
  unfold wp, mbind, K_bind. destruct (m1 s) as [[? ?]| | |]; try done. by destruct (m2 _) as [[? ?]| | |].
Qed.
Lemma wp_gets (f : S → A) Q s : Q (f s) s → wp (gets f) Q s.
Proof. done. Qed.
Lemma wp_modify (f : S → S) (Q : unit → S → Prop) s : Q tt (f s) → wp (modify f) Q s.
Proof. done. Qed.
Lemma wp_lift (o : outcome A) x Q s : o = Done x → Q x s → wp (lift o) Q s.
Proof. by intros ->. Qed.
Lemma wp_mono (m : K S A) (Q Q' : A → S → Prop) s :
  wp m Q s → (∀ x s', Q x s' → Q' x s') → wp m Q' s.
Proof. unfold wp. destruct (m s) as [[x s']| | |]; auto. Qed.
Lemma wp_run (m : K S A) Q s : wp m Q s ↔ ∃ x s', m s = Done (x, s') ∧ Q x s'.
Proof.
  unfold wp. destruct (m s) as [[x s']| | |]; split; try done; try (by intros (? & ? & [=] & _)).
  - intros H. by exists x, s'.
  - by intros (? & ? & [= <- <-] & H).
Qed.
Lemma wp_conj (m : K S A) Q Q' s : wp m Q s → wp m Q' s → wp m (λ x s', Q x s' ∧ Q' x s') s.
Proof. unfold wp. destruct (m s) as [[x s']| | |]; auto. Qed.
End Wp.

(** [wlp]: like [wp], but the code may still be inside a loop when the bound
    given to it is used up. *)
Definition wlp {S A} (m : K S A) (Q : A → S → Prop) (s : S) : Prop :=
  match m s with Done (x, s') => Q x s' | Spin => True | _ => False end.

Lemma wp_wlp {S A} (m : K S A) Q s : wp m Q s → wlp m Q s.
Proof. unfold wp, wlp. by destruct (m s) as [[x s']| | |]. Qed.
Lemma wlp_bind {S A B} (m : K S A) (k : A → K S B) Q s :
  wlp m (λ x, wlp (k x) Q) s → wlp (m ≫= k) Q s.
Proof. unfold wlp, mbind, K_bind. by destruct (m s) as [[x s']| | |]. Qed.
Lemma wlp_mono {S A} (m : K S A) (Q Q' : A → S → Prop) s :
  wlp m Q s → (∀ x s', Q x s' → Q' x s') → wlp m Q' s.
Proof. unfold wlp. destruct (m s) as [[x s']| | |]; auto. Qed.

(** One step of symbolic execution; [wp_go] runs to the next branch or call. *)
Ltac wp_step :=
  lazymatch goal with
  | |- wp (_ ≫= _) _ _ => apply wp_bind
  | |- wp (mret _) _ _ => apply wp_ret
  | |- wp (gets _) _ _ => apply wp_gets
  | |- wp (modify _) _ _ => apply wp_modify
  end.
Ltac wp_go := repeat (wp_step; cbv beta).

(** ** Stretches of memory *)

(** [l] with the bytes from [on] on replaced by [new]; [bcopy] into memory,
    which it may not leave. *)
Definition splice (l : list Z) (on : nat) (new : list Z) : list Z := take on l ++ new ++ drop (on + length new) l.
Definition peek (l : list Z) (on n : Z) : outcome (list Z) :=
  if (0 <=? on) && (on + n <=? Z.of_nat (length l)) then Done (take (Z.to_nat n) (drop (Z.to_nat on) l)) else Wild.
Definition poke (l : list Z) (on : Z) (new : list Z) : outcome (list Z) :=
  if (0 <=? on) && (on + Z.of_nat (length new) <=? Z.of_nat (length l)) then Done (splice l (Z.to_nat on) new) else Wild.
Lemma splice_length l on new : (on + length new ≤ length l)%nat → length (splice l on new) = length l.
Proof. intros Hl. unfold splice. rewrite !length_app, length_take, length_drop. lia. Qed.
(** A byte of a spliced list. *)
Lemma splice_lookup l on new i : (on + length new ≤ length l)%nat →
  splice l on new !! i = if decide (on ≤ i < on + length new)%nat then new !! (i - on)%nat else l !! i.
Proof.
  intros Hl. unfold splice. destruct (decide (i < on)%nat) as [H1|H1].
  - rewrite decide_False by lia. rewrite lookup_app_l by (rewrite length_take; lia). by apply lookup_take_lt.
  - rewrite lookup_app_r by (rewrite length_take; lia). rewrite length_take, Nat.min_l by lia.
    destruct (decide (i < on + length new)%nat) as [H2|H2].
    + rewrite decide_True by lia. by rewrite lookup_app_l by lia.
    + rewrite decide_False by lia. rewrite lookup_app_r by lia. rewrite lookup_drop. f_equal. lia.
Qed.
Lemma splice_splice m on l1 l2 : (on + length l1 + length l2 ≤ length m)%nat → splice (splice m on l1) (on + length l1) l2 = splice m on (l1 ++ l2).
Proof.
  intros Hl. apply list_eq. intros i. rewrite !splice_lookup by (rewrite ?splice_length, ?length_app; lia). rewrite length_app.
  destruct (decide (on + length l1 ≤ i < on + length l1 + length l2)%nat).
  - rewrite decide_True by lia. rewrite lookup_app_r by lia. f_equal. lia.
  - destruct (decide (on ≤ i < on + length l1)%nat); [rewrite decide_True by lia; by rewrite lookup_app_l by lia|]. by rewrite decide_False by lia.
Qed.
(** What was written, and what lies beside it. *)
Lemma splice_in l on new n : (on + length new ≤ length l)%nat → n = length new → take n (drop on (splice l on new)) = new.
Proof.
  intros Hl ->. apply list_eq. intros i. destruct (decide (i < length new)%nat).
  - rewrite lookup_take_lt, lookup_drop by lia. rewrite splice_lookup by done. rewrite decide_True by lia. f_equal. lia.
  - rewrite lookup_take_ge by lia. by rewrite lookup_ge_None_2 by lia.
Qed.
Lemma splice_out l on new a n : (on + length new ≤ length l)%nat → (a + n ≤ on ∨ on + length new ≤ a ∨ n = 0)%nat →
  take n (drop a (splice l on new)) = take n (drop a l).
Proof.
  intros Hl Hd. apply list_eq. intros i. destruct (decide (i < n)%nat).
  - rewrite !lookup_take_lt, !lookup_drop by done. rewrite splice_lookup by done. by rewrite decide_False by lia.
  - by rewrite !lookup_take_ge by lia.
Qed.
Lemma splice_nil m on : splice m on [] = m.
Proof. unfold splice. simpl. rewrite Nat.add_0_r. apply take_drop. Qed.

Create HintDb kern discriminated.
#[export] Hint Resolve u32_range u8_range : kern.
