(* ===== verification/Rmap.v ===== *)
(** * Resource maps (sys/kernel/subr_rmap.c, sys/include/map.h)

    The map is the C array itself: a list of [mapent] slots whose used part
    ends at the first slot of size 0.  Pointers into the array are indices,
    so every read or write outside the array is visible as [Wild]. *)
From stdpp Require Import base tactics list option strings numbers.
From S2P Require Import Prelude.
Open Scope Z_scope.

(** ** Data *)
Record mapent := MapEnt {
  m_size : Z;    (* size of this segment of the map *)
  m_addr : Z     (* resource-space addr of start of segment *)
}.

Record map := Map {
  m_map : list mapent;   (* the array of slots *)
  m_limit : nat;         (* index of the slot [m_limit] points to *)
  m_name : string
}.

Definition set_m_map (mp : map) (a : list mapent) : map :=
  {| m_map := a; m_limit := m_limit mp; m_name := m_name mp |}.

(** ** Operations *)

(** [*ep = *++bp; if (!bp->m_size) break; ++ep] *)
Fixpoint copy_down (fuel : nat) (a : list mapent) (ep bp : nat) : outcome (list mapent) :=
  match fuel with
  | O => Spin
  | S fuel =>
      e ← rd a (S bp);
      a ← wr a ep e;
      if m_size e =? 0 then Done a else copy_down fuel a (S ep) (S bp)
  end.

Fixpoint malloc_scan (fuel : nat) (a : list mapent) (bp : nat) (size : Z)
    : outcome (Z * list mapent) :=
  match fuel with
  | O => Spin
  | S fuel =>
      e ← rd a bp;
      if m_size e =? 0 then Done (0, a)
      else if size <=? m_size e then
        let addr := m_addr e in
        let left := u32 (m_size e - size) in
        if negb (left =? 0) then
          a ← wr a bp (MapEnt left (u32 (m_addr e + size)));
          Done (addr, a)
        else
          a ← wr a bp (MapEnt left (m_addr e));
          a ← copy_down fuel a bp bp;
          Done (addr, a)
      else malloc_scan fuel a (S bp) size
  end.

Definition malloc (mp : map) (size : Z) : outcome (Z * map) :=
  if size =? 0 then Panic "malloc: size = 0"
  else
    '(addr, a) ← malloc_scan (S (length (m_map mp))) (m_map mp) 0 size;
    Done (addr, set_m_map mp a).

(** [while (bp->m_size && bp->m_addr <= addr) ++bp;] *)
Fixpoint mfree_seek (fuel : nat) (a : list mapent) (bp : nat) (addr : Z) : outcome nat :=
  match fuel with
  | O => Spin
  | S fuel =>
      e ← rd a bp;
      if negb (m_size e =? 0) && (m_addr e <=? addr) then mfree_seek fuel a (S bp) addr
      else Done bp
  end.

(** [for (start = bp; bp->m_size; ++bp);] *)
Fixpoint find_end (fuel : nat) (a : list mapent) (bp : nat) : outcome nat :=
  match fuel with
  | O => Spin
  | S fuel =>
      e ← rd a bp;
      if negb (m_size e =? 0) then find_end fuel a (S bp) else Done bp
  end.

(** [for (ep = bp - 1; ep >= start; *bp-- = *ep--);] where [n] is the number
    of slots from [start] up to [ep]. *)
Fixpoint copy_up (n : nat) (a : list mapent) (start : nat) : outcome (list mapent) :=
  match n with
  | O => Done a
  | S n =>
      e ← rd a (start + n)%nat;
      a ← wr a (start + S n)%nat e;
      copy_up n a start
  end.

(** What [mfree] prints: nothing, or the overflow warning with what was lost. *)
Inductive notice := Silent | Overflow (name : string) (size addr : Z).

Definition mfree (mp : map) (size addr : Z) : outcome (notice * map) :=
  if size =? 0 then Done (Silent, mp)
  else if addr =? 0 then Panic "mfree: addr = 0"
  else
    let a := m_map mp in
    let fuel := S (length a) in
    bp ← mfree_seek fuel a 0 addr;
    b ← rd a bp;
    joined ←
      match bp with
      | O => Done None
      | S ep =>
          e ← rd a ep;
          if addr <=? u32 (m_addr e + m_size e) then
            let e1 := MapEnt (u32 (m_size e + size)) (m_addr e) in
            if negb (m_size b =? 0) && (m_addr b <=? u32 (addr + size)) then
              a ← wr a ep (MapEnt (u32 (m_size e1 + m_size b)) (m_addr e1));
              a ← copy_down fuel a (S ep) bp;
              Done (Some a)
            else
              a ← wr a ep e1;
              Done (Some a)
          else Done None
      end;
    match joined with
    | Some a => Done (Silent, set_m_map mp a)
    | None =>
        if negb (m_size b =? 0) && (m_addr b <=? u32 (addr + size)) then
          a ← wr a bp (MapEnt (u32 (m_size b + size)) addr);
          Done (Silent, set_m_map mp a)
        else
          let start := bp in
          bp ← find_end fuel a bp;
          let bp := S bp in
          if (m_limit mp <? bp)%nat then
            Done (Overflow (m_name mp) size addr, mp)
          else
            a ← copy_up (bp - start) a start;
            a ← wr a start (MapEnt size addr);
            Done (Silent, set_m_map mp a)
    end.

(** The locals of [malloc3] while it scans the map. *)
Record m3 := M3 {
  m3_map : list mapent;
  madd : list (option nat);   (* the slot each segment was found in *)
  remap : option nat;         (* first slot that was emptied *)
  found : nat
}.

(** The inner [for (next = 0; next < 3; ++next)], with [n] iterations left;
    the boolean says that [goto resolve] was taken. *)
Fixpoint malloc3_inner (n : nat) (sizes : list Z) (bp : nat) (s : m3) : outcome (bool * m3) :=
  match n with
  | O => Done (false, s)
  | S n' =>
      let next := (3 - n)%nat in
      slot ← rd (madd s) next;
      size ← rd sizes next;
      b ← rd (m3_map s) bp;
      match slot with
      | Some _ => malloc3_inner n' sizes bp s
      | None =>
          if size <=? m_size b then
            madd' ← wr (madd s) next (Some bp);
            let left := u32 (m_size b - size) in
            a ← wr (m3_map s) bp (MapEnt left (m_addr b));
            let s' := M3 a madd'
              (if (left =? 0) && negb (bool_decide (is_Some (remap s))) then Some bp else remap s)
              (S (found s)) in
            if (found s' =? 3)%nat then Done (true, s')
            else malloc3_inner n' sizes bp s'
          else malloc3_inner n' sizes bp s
      end
  end.

Fixpoint malloc3_scan (fuel : nat) (sizes : list Z) (bp : nat) (s : m3) : outcome (bool * m3) :=
  match fuel with
  | O => Spin
  | S fuel =>
      b ← rd (m3_map s) bp;
      if m_size b =? 0 then Done (false, s)
      else
        '(resolved, s) ← malloc3_inner 3 sizes bp s;
        if resolved : bool then Done (true, s) else malloc3_scan fuel sizes (S bp) s
  end.

(** [if (madd[next]) madd[next]->m_size += sizes[next]] for each [next]. *)
Fixpoint malloc3_restore (n : nat) (sizes : list Z) (mad : list (option nat))
    (a : list mapent) : outcome (list mapent) :=
  match n with
  | O => Done a
  | S n' =>
      let next := (3 - n)%nat in
      slot ← rd mad next;
      size ← rd sizes next;
      match slot with
      | None => malloc3_restore n' sizes mad a
      | Some bp =>
          b ← rd a bp;
          a ← wr a bp (MapEnt (u32 (m_size b + size)) (m_addr b));
          malloc3_restore n' sizes mad a
      end
  end.

(** [bp = madd[next]; a[next] = bp->m_addr; bp->m_addr += sizes[next]] *)
Fixpoint malloc3_resolve (n : nat) (sizes : list Z) (mad : list (option nat))
    (a : list mapent) : outcome (list Z * list mapent) :=
  match n with
  | O => Done ([], a)
  | S n' =>
      let next := (3 - n)%nat in
      slot ← rd mad next;
      size ← rd sizes next;
      match slot with
      | None => Wild
      | Some bp =>
          b ← rd a bp;
          a ← wr a bp (MapEnt (m_size b) (u32 (m_addr b + size)));
          '(addrs, a) ← malloc3_resolve n' sizes mad a;
          Done (m_addr b :: addrs, a)
      end
  end.

(** [for (bp = remap + 1;; ++bp) if (bp->m_size || !bp->m_addr)
    { *remap++ = *bp; if (!bp->m_addr) break; }] *)
Fixpoint malloc3_squeeze (fuel : nat) (a : list mapent) (rm bp : nat) : outcome (list mapent) :=
  match fuel with
  | O => Spin
  | S fuel =>
      b ← rd a bp;
      if negb (m_size b =? 0) || (m_addr b =? 0) then
        a ← wr a rm b;
        if m_addr b =? 0 then Done a else malloc3_squeeze fuel a (S rm) (S bp)
      else malloc3_squeeze fuel a rm (S bp)
  end.

(** [None] is the return value 0; [Some a] fills the caller's array [a] and
    returns [a[2]]. *)
Definition malloc3 (mp : map) (d_size s_size u_size : Z) : outcome (option (list Z) * map) :=
  let sizes := [d_size; s_size; u_size] in
  let fuel := S (length (m_map mp)) in
  '(resolved, s) ← malloc3_scan fuel sizes 0 (M3 (m_map mp) [None; None; None] None 0);
  if resolved : bool then
    '(addrs, a) ← malloc3_resolve 3 sizes (madd s) (m3_map s);
    a ← match remap s with
        | None => Done a
        | Some rm => malloc3_squeeze fuel a rm (S rm)
        end;
    Done (Some addrs, set_m_map mp a)
  else
    a ← malloc3_restore 3 sizes (madd s) (m3_map s);
    Done (None, set_m_map mp a).

(** ** Specification

    The segments of a map, the set of free units they describe, and the
    invariant: sizes are positive, addresses increase, and two neighbouring
    segments never touch. *)
Definition terminator : mapent := MapEnt 0 0.

Definition holds (a segs : list mapent) : Prop := ∃ rest, a = segs ++ terminator :: rest.

Definition units (segs : list mapent) (x : Z) : Prop :=
  Exists (λ e, m_addr e ≤ x < m_addr e + m_size e) segs.

Fixpoint apart (lo : Z) (segs : list mapent) : Prop :=
  match segs with
  | [] => True
  | e :: r => lo < m_addr e ∧ 0 < m_size e ∧ m_addr e + m_size e < 2^32 ∧
              apart (m_addr e + m_size e) r
  end.

Definition wf_map (mp : map) (segs : list mapent) : Prop :=
  holds (m_map mp) segs ∧ apart 0 segs ∧ (m_limit mp < length (m_map mp))%nat ∧
  (length segs ≤ m_limit mp)%nat.

(** *** Lemmas on segment lists *)

(** Where a list of segments starting after [lo] ends. *)
Fixpoint top (lo : Z) (segs : list mapent) : Z :=
  match segs with [] => lo | e :: r => top (m_addr e + m_size e) r end.

Lemma apart_app lo l r : apart lo (l ++ r) ↔ apart lo l ∧ apart (top lo l) r.
Proof. revert lo. induction l as [|e l IH]; simpl; intros lo; [tauto|]. rewrite IH. tauto. Qed.
Lemma top_app lo l r : top lo (l ++ r) = top (top lo l) r.
Proof. revert lo. induction l; simpl; auto. Qed.
Lemma apart_weaken lo lo' l : lo' ≤ lo → apart lo l → apart lo' l.
Proof. destruct l; simpl; intuition lia. Qed.
Lemma apart_top lo l : apart lo l → lo ≤ top lo l.
Proof. revert lo. induction l as [|e l IH]; simpl; intros lo; [lia|]. intros (?&?&?&H%IH). lia. Qed.
Lemma apart_top_lt lo l : 0 ≤ lo < 2^32 → apart lo l → top lo l < 2^32.
Proof. revert lo. induction l as [|e l IH]; simpl; intros lo; [lia|]. intros ? (?&?&?&H). apply IH; [lia|done]. Qed.

Lemma units_nil x : units [] x ↔ False.
Proof. unfold units. by rewrite Exists_nil. Qed.
Lemma units_cons e l x : units (e :: l) x ↔ (m_addr e ≤ x < m_addr e + m_size e) ∨ units l x.
Proof. unfold units. by rewrite Exists_cons. Qed.
Lemma units_app l r x : units (l ++ r) x ↔ units l x ∨ units r x.
Proof. unfold units. by rewrite Exists_app. Qed.
Lemma units_above lo l x : apart lo l → units l x → lo < x.
Proof.
  revert lo. induction l as [|e l IH]; intros lo Ha; rewrite ?units_nil, ?units_cons; [done|].
  simpl in Ha. destruct Ha as (?&?&?&Ha). intros [?|Hu]; [lia|]. specialize (IH _ Ha Hu). lia.
Qed.
Lemma units_below lo l x : apart lo l → units l x → x < top lo l.
Proof.
  revert lo. induction l as [|e l IH]; intros lo Ha; rewrite ?units_nil, ?units_cons; [done|].
  simpl in Ha. destruct Ha as (?&?&?&Ha). intros [?|Hu]; simpl; [|eauto].
  apply apart_top in Ha. lia.
Qed.

(** A free set has only one well-formed map: both lists start at the least
    free unit and the first gap is in the same place. *)
Lemma apart_canonical lo l1 l2 :
  apart lo l1 → apart lo l2 → (∀ x, units l1 x ↔ units l2 x) → l1 = l2.
Proof.
  revert lo l2. induction l1 as [|e1 l1 IH]; intros lo [|e2 l2] H1 H2 Hu.
  - done.
  - simpl in H2. destruct (Hu (m_addr e2)) as [_ H]. rewrite units_nil, units_cons in H.
    exfalso. apply H. left. lia.
  - simpl in H1. destruct (Hu (m_addr e1)) as [H _]. rewrite units_nil, units_cons in H.
    exfalso. apply H. left. lia.
  - simpl in H1, H2. destruct H1 as (?&?&?&H1), H2 as (?&?&?&H2).
    assert (Hmem : ∀ x, (m_addr e1 ≤ x < m_addr e1 + m_size e1 ∨ units l1 x) ↔
                        (m_addr e2 ≤ x < m_addr e2 + m_size e2 ∨ units l2 x)).
    { intros x. rewrite <- !units_cons. apply Hu. }
    assert (Hb1 : ∀ x, units l1 x → m_addr e1 + m_size e1 < x) by (intros; by eapply units_above).
    assert (Hb2 : ∀ x, units l2 x → m_addr e2 + m_size e2 < x) by (intros; by eapply units_above).
    assert (m_addr e1 = m_addr e2) as Ea.
    { destruct (proj1 (Hmem (m_addr e1)) ltac:(left; lia)) as [|Hx%Hb2];
        destruct (proj2 (Hmem (m_addr e2)) ltac:(left; lia)) as [|Hy%Hb1]; lia. }
    assert (m_size e1 = m_size e2) as Es.
    { destruct (Z.lt_trichotomy (m_size e1) (m_size e2)) as [Hlt|[|Hlt]]; [|done|].
      - destruct (proj2 (Hmem (m_addr e1 + m_size e1)) ltac:(left; lia)) as [|Hx%Hb1]; lia.
      - destruct (proj1 (Hmem (m_addr e2 + m_size e2)) ltac:(left; lia)) as [|Hx%Hb2]; lia. }
    destruct e1 as [s1 a1], e2 as [s2 a2]; simpl in *; subst. f_equal.
    eapply IH; [done..|]. intros x. specialize (Hmem x).
    split; intros Hx.
    + apply Hb1 in Hx as Hx'. destruct (proj1 Hmem (or_intror Hx)); [lia|done].
    + apply Hb2 in Hx as Hx'. destruct (proj2 Hmem (or_intror Hx)); [lia|done].
Qed.

(** *** Lemmas on the loops *)
Lemma copy_down_ok fuel pre x suf rest :
  Forall (λ e, 0 < m_size e) suf → (length suf < fuel)%nat →
  copy_down fuel (pre ++ x :: suf ++ terminator :: rest) (length pre) (length pre) =
    Done (pre ++ suf ++ terminator :: terminator :: rest).
Proof.
  revert pre x fuel. induction suf as [|y suf IH]; intros pre x [|fuel] Hpos Hf;
    simpl in Hf; try lia; cbn [copy_down app]; rewrite rd_middle_S; simpl.
  - rewrite wr_middle by done. done.
  - apply Forall_cons_iff in Hpos as [Hy Hpos].
    rewrite wr_middle by done. simpl.
    rewrite (proj2 (Z.eqb_neq _ _)) by lia.
    replace (pre ++ y :: y :: suf ++ terminator :: rest)
      with ((pre ++ [y]) ++ y :: suf ++ terminator :: rest) by (by rewrite <- app_assoc).
    replace (S (length pre)) with (length (pre ++ [y])) by (rewrite length_app; simpl; lia).
    rewrite IH by (done || lia). by rewrite <- app_assoc.
Qed.

(** The first segment that is large enough loses its first [size] units. *)
Fixpoint first_fit (segs : list mapent) (size : Z) : option (Z * list mapent) :=
  match segs with
  | [] => None
  | e :: r =>
      if size <=? m_size e then
        Some (m_addr e,
              if m_size e =? size then r
              else MapEnt (m_size e - size) (m_addr e + size) :: r)
      else
        match first_fit r size with
        | Some (addr, r') => Some (addr, e :: r')
        | None => None
        end
  end.

Lemma apart_pos lo l : apart lo l → Forall (λ e, 0 < m_size e) l.
Proof. revert lo. induction l as [|e l IH]; simpl; intros lo; constructor; [lia|]. apply (IH (m_addr e + m_size e)). tauto. Qed.

Lemma malloc_scan_ok fuel lo pre suf rest size :
  0 ≤ lo → apart lo suf → 0 < size → (length suf < fuel)%nat →
  ∃ a', malloc_scan fuel (pre ++ suf ++ terminator :: rest) (length pre) size =
    Done (from_option fst 0 (first_fit suf size), a') ∧
  length a' = (length pre + length suf + S (length rest))%nat ∧
  holds a' (pre ++ from_option snd suf (first_fit suf size)).
Proof.
  revert lo pre fuel. induction suf as [|e suf IH]; intros lo pre [|fuel] Hlo Ha Hs Hf;
    simpl in Hf; try lia.
  - simpl. rewrite rd_middle by done. simpl. eexists. split; [done|].
    rewrite !length_app, app_nil_r. simpl. split; [lia|]. by exists rest.
  - simpl in Ha. destruct Ha as (?&?&?&Ha).
    cbn [malloc_scan app]. rewrite rd_middle by done. cbn [mbind outcome_bind].
    rewrite (proj2 (Z.eqb_neq _ 0)) by lia. cbn [first_fit].
    destruct (Z.leb_spec size (m_size e)) as [Hfit|Hfit].
    + rewrite u32_id by lia. cbn [from_option].
      destruct (Z.eqb_spec (m_size e - size) 0) as [Heq|Hne]; cbn [negb].
      * rewrite wr_middle by done. cbn [mbind outcome_bind].
        rewrite copy_down_ok by (eauto using apart_pos || lia). cbn [mbind outcome_bind].
        rewrite (proj2 (Z.eqb_eq _ _)) by lia. eexists. split; [done|].
        rewrite !length_app. simpl. split; [lia|].
        exists (terminator :: rest). by rewrite <- app_assoc.
      * rewrite wr_middle by done. cbn [mbind outcome_bind].
        rewrite u32_id by lia. rewrite (proj2 (Z.eqb_neq _ _)) by lia.
        eexists. split; [done|]. rewrite !length_app; simpl; rewrite !length_app. simpl.
        split; [lia|]. exists rest. by rewrite <- app_assoc.
    + destruct (IH (m_addr e + m_size e) (pre ++ [e]) fuel) as (a' & E & El & Eh); [lia|done|lia|lia|].
      rewrite length_app, Nat.add_1_r, <- app_assoc in E. cbn [app] in E. rewrite E.
      eexists. split; [by destruct (first_fit suf size) as [[]|]|].
      rewrite length_app in El. simpl in El |- *. split; [lia|].
      destruct (first_fit suf size) as [[]|]; simpl in *; rewrite <- app_assoc in Eh; done.
Qed.

Definition hole (addr size x : Z) : Prop := addr ≤ x < addr + size.

Lemma first_fit_None lo segs size :
  apart lo segs → first_fit segs size = None ↔ Forall (λ e, m_size e < size) segs.
Proof.
  revert lo. induction segs as [|e r IH]; simpl; intros lo Ha; [done|].
  destruct Ha as (?&?&?&Ha). rewrite Forall_cons_iff, <- (IH _ Ha).
  destruct (Z.leb_spec size (m_size e)); [split; [done|lia]|].
  destruct (first_fit r size) as [[]|]; naive_solver lia.
Qed.

Lemma first_fit_Some lo segs size addr segs' :
  0 ≤ lo → apart lo segs → 0 < size → first_fit segs size = Some (addr, segs') →
  lo < addr ∧ apart lo segs' ∧ (length segs' ≤ length segs)%nat ∧
  (∀ x, hole addr size x → units segs x) ∧
  (∀ x, units segs' x ↔ units segs x ∧ ¬ hole addr size x).
Proof.
  unfold hole. revert lo segs'.
  induction segs as [|e r IH]; simpl; intros lo segs' Hlo Ha Hs; [done|].
  destruct Ha as (?&?&?&Ha).
  assert (Habove : ∀ x, units r x → m_addr e + m_size e < x) by (intros; by eapply units_above).
  destruct (Z.leb_spec size (m_size e)) as [Hfit|Hfit].
  - intros [= <- <-]. destruct (Z.eqb_spec (m_size e) size) as [Heq|Hne].
    + split_and!; [done|eapply apart_weaken; [|done]; lia|lia|..].
      * intros x ?. rewrite units_cons. lia.
      * intros x. rewrite units_cons. split; [|tauto || (intros [[|] ?]; [lia|done])].
        intros Hu. split; [by right|]. apply Habove in Hu. lia.
    + split_and!; simpl; [done|split_and!; try done; try lia|lia|..].
      * by replace (m_addr e + size + (m_size e - size)) with (m_addr e + m_size e) by lia.
      * intros x ?. rewrite units_cons. lia.
      * intros x. rewrite !units_cons. simpl. split.
        -- intros [|Hu]; [lia|]. split; [by right|]. apply Habove in Hu. lia.
        -- intros [[|] ?]; [left; lia|by right].
  - destruct (first_fit r size) as [[a r']|]; [|done]. intros [= <- <-].
    destruct (IH (m_addr e + m_size e) r') as (?&?&?&Hin&Hout); [lia|done..|].
    split_and!; simpl; [lia|by split_and!|lia|..].
    + intros x Hx. rewrite units_cons. right. by apply Hin.
    + intros x. rewrite !units_cons, Hout. split; [|tauto].
      intros [|]; [|tauto]. split; [tauto|]. lia.
Qed.

Lemma first_fit_where segs size addr segs' :
  first_fit segs size = Some (addr, segs') →
  ∃ pre e suf, segs = pre ++ e :: suf ∧ m_addr e = addr ∧ size ≤ m_size e ∧
    Forall (λ e, m_size e < size) pre.
Proof.
  revert segs'. induction segs as [|e segs IH]; intros segs'; simpl; [done|].
  destruct (Z.leb_spec size (m_size e)) as [Hfit|Hsmall].
  - intros [= <- _]. exists [], e, segs. by repeat constructor.
  - destruct (first_fit segs size) as [[a r]|]; [|done]. intros [= -> _].
    destruct (IH r eq_refl) as (pre & e' & suf & -> & ? & ? & ?).
    exists (e :: pre), e', suf. by repeat constructor.
Qed.

(** If no slot was given up, the unit after the range is still free. *)
Lemma first_fit_rest lo segs size addr segs' :
  0 < size → apart lo segs → first_fit segs size = Some (addr, segs') →
  length segs' = length segs →
  units segs (addr + size).
Proof.
  intros Hs. revert lo segs'. induction segs as [|e segs IH]; simpl; intros lo segs' Ha; [done|].
  rewrite units_cons. destruct (Z.leb_spec size (m_size e)).
  - intros [= <- <-] Hlen. destruct (Z.eqb_spec (m_size e) size); simpl in Hlen; lia.
  - destruct (first_fit segs size) as [[a r]|]; [|done]. intros [= -> <-] Hlen.
    right. eapply IH; [apply Ha|done|simpl in Hlen; lia].
Qed.

(** The shape of [malloc]'s result on a well-formed map. *)
Lemma malloc_run mp segs size :
  wf_map mp segs → 0 < size →
  ∃ a', malloc mp size = Done (from_option fst 0 (first_fit segs size), set_m_map mp a') ∧
    wf_map (set_m_map mp a') (from_option snd segs (first_fit segs size)).
Proof.
  intros ((rest & Ea) & Hap & Hlim & Hroom) Hs. unfold malloc.
  rewrite (proj2 (Z.eqb_neq _ _)) by lia.
  destruct (malloc_scan_ok (S (length (m_map mp))) 0 [] segs rest size) as (a' & E & El & Eh);
    [lia|done..|rewrite Ea, length_app; simpl; lia|].
  cbn [app length] in E, El, Eh. rewrite <- Ea in E. rewrite E. simpl. exists a'. split; [done|].
  assert (length a' = length (m_map mp)) as El' by (rewrite El, Ea, length_app; simpl; lia).
  split_and!; simpl; [done| |lia|].
  - destruct (first_fit segs size) as [[addr segs']|] eqn:Ef; [|done].
    by destruct (first_fit_Some 0 segs size addr segs') as (?&?&?).
  - destruct (first_fit segs size) as [[addr segs']|] eqn:Ef; [|done].
    destruct (first_fit_Some 0 segs size addr segs') as (?&?&?&?); simpl; done || lia.
Qed.

(** [mfree] splits the segments at the returned address. *)
Lemma mfree_seek_ok fuel pre suf rest addr lo :
  apart lo suf → (length suf < fuel)%nat →
  ∃ l r, suf = l ++ r ∧
    mfree_seek fuel (pre ++ suf ++ terminator :: rest) (length pre) addr =
      Done (length pre + length l)%nat ∧
    Forall (λ e, m_addr e ≤ addr) l ∧ match r with [] => True | e :: _ => addr < m_addr e end.
Proof.
  revert pre fuel lo. induction suf as [|e suf IH]; intros pre [|fuel] lo Ha Hf; simpl in Hf; try lia.
  - exists [], []. cbn [mfree_seek app]. rewrite rd_middle by done. simpl.
    rewrite Nat.add_0_r. by repeat constructor.
  - simpl in Ha. destruct Ha as (?&?&?&Ha).
    cbn [mfree_seek app]. rewrite rd_middle by done. cbn [mbind outcome_bind].
    rewrite (proj2 (Z.eqb_neq _ _)) by lia. cbn [negb andb].
    destruct (Z.leb_spec (m_addr e) addr).
    + destruct (IH (pre ++ [e]) fuel _ Ha) as (l & r & -> & E & Hl & Hr); [lia|].
      exists (e :: l), r. split; [done|]. rewrite length_app, <- !app_assoc in E.
      simpl in E |- *. rewrite <- !app_assoc, Nat.add_1_r in *. rewrite E.
      split; [f_equal; lia|]. by split; [constructor|].
    + exists [], (e :: suf). simpl. rewrite Nat.add_0_r. by repeat constructor.
Qed.

Lemma find_end_ok fuel pre suf rest :
  Forall (λ e, 0 < m_size e) suf → (length suf < fuel)%nat →
  find_end fuel (pre ++ suf ++ terminator :: rest) (length pre) = Done (length pre + length suf)%nat.
Proof.
  revert pre fuel. induction suf as [|e suf IH]; intros pre [|fuel] Hpos Hf; simpl in Hf; try lia;
    cbn [find_end app]; rewrite rd_middle by done; simpl.
  - by rewrite Nat.add_0_r.
  - apply Forall_cons_iff in Hpos as [He Hpos]. rewrite (proj2 (Z.eqb_neq _ _)) by lia. simpl.
    specialize (IH (pre ++ [e]) fuel Hpos ltac:(lia)).
    rewrite length_app, <- app_assoc, Nat.add_1_r in IH. cbn [app] in IH. rewrite IH. f_equal. lia.
Qed.

Lemma copy_up_ok pre mid y rest :
  copy_up (length mid) (pre ++ mid ++ y :: rest) (length pre) =
    Done (pre ++ default y (head mid) :: mid ++ rest).
Proof.
  revert y rest. induction mid as [|z mid IH] using rev_ind; intros y rest; [done|].
  rewrite length_app, Nat.add_1_r. cbn [copy_up].
  replace (pre ++ (mid ++ [z]) ++ y :: rest) with ((pre ++ mid) ++ z :: y :: rest)
    by (by rewrite <- !app_assoc).
  rewrite rd_middle by (by rewrite length_app). cbn [mbind outcome_bind].
  replace ((pre ++ mid) ++ z :: y :: rest) with ((pre ++ mid ++ [z]) ++ y :: rest)
    by (by rewrite <- !app_assoc).
  rewrite wr_middle by (rewrite !length_app; simpl; lia). cbn [mbind outcome_bind].
  replace ((pre ++ mid ++ [z]) ++ z :: rest) with (pre ++ mid ++ z :: z :: rest)
    by (by rewrite <- !app_assoc).
  rewrite IH. do 2 f_equal. rewrite <- app_assoc. by destruct mid.
Qed.

(** What is known once [mfree] has found the place of the returned range:
    it lies between the segments [l] and [r] without touching their units. *)
Section Between.
Context (l r : list mapent) (size addr : Z).
Hypothesis (Hwf : apart 0 (l ++ r)) (Hsize : 0 < size) (Haddr : 0 < addr)
  (Htop : addr + size < 2^32) (Hfree : ∀ x, hole addr size x → ¬ units (l ++ r) x)
  (Hl : Forall (λ e, m_addr e ≤ addr) l)
  (Hr : match r with [] => True | e :: _ => addr < m_addr e end).
Lemma between_left : top 0 l ≤ addr.
Proof.
  destruct l as [|e l' _] using rev_ind; [simpl; lia|].
  rewrite top_app. simpl. apply Forall_app in Hl as [_ [He _]%Forall_cons_iff].
  simpl in He. apply Z.le_ngt. intros Hgt. apply (Hfree addr); [unfold hole; lia|].
  rewrite !units_app, units_cons. left. right. left. lia.
Qed.
Lemma between_right : match r with [] => True | e :: _ => addr + size ≤ m_addr e end.
Proof.
  destruct r as [|e r']; [done|]. apply apart_app in Hwf as [_ He]. simpl in He.
  apply Z.le_ngt. intros Hgt. apply (Hfree (m_addr e)); [unfold hole; lia|].
  rewrite units_app, units_cons. right. left. lia.
Qed.
End Between.

(** The effect of a successful [mfree] on the segments. *)
Definition returned (segs segs' : list mapent) (size addr : Z) : Prop :=
  apart 0 segs' ∧ (∀ x, units segs' x ↔ units segs x ∨ hole addr size x).

Lemma returned_join_both l e b r size addr :
  apart 0 ((l ++ [e]) ++ b :: r) → 0 < size →
  m_addr e + m_size e = addr → addr + size = m_addr b →
  returned ((l ++ [e]) ++ b :: r) (l ++ MapEnt (m_size e + size + m_size b) (m_addr e) :: r) size addr.
Proof.
  intros Hw Hs H1 H2. apply apart_app in Hw as [Hl Hb]. apply apart_app in Hl as [Hl He].
  rewrite top_app in Hb. simpl in He, Hb. split.
  - apply apart_app. split; [done|]. simpl. split_and!; try lia.
    replace (m_addr e + (m_size e + size + m_size b)) with (m_addr b + m_size b) by lia. tauto.
  - intros x. unfold hole. rewrite !units_app, !units_cons, units_nil. simpl.
    split; [|intros [[[?|[?|[]]]|[?|?]]|?]; try tauto; right; left; lia].
    intros [?|[?|?]]; try tauto.
    destruct (decide (x < addr)); [left; left; right; left; lia|].
    destruct (decide (x < addr + size)); [right; lia|left; right; left; lia].
Qed.

Lemma returned_join_left l e r size addr :
  apart 0 ((l ++ [e]) ++ r) → 0 < size → addr + size < 2^32 →
  m_addr e + m_size e = addr →
  match r with [] => True | b :: _ => addr + size < m_addr b end →
  returned ((l ++ [e]) ++ r) (l ++ MapEnt (m_size e + size) (m_addr e) :: r) size addr.
Proof.
  intros Hw Hs Ht H1 H2. apply apart_app in Hw as [Hl Hb]. apply apart_app in Hl as [Hl He].
  rewrite top_app in Hb. simpl in He, Hb. split.
  - apply apart_app. split; [done|]. simpl. split_and!; try lia.
    destruct r as [|b r]; [done|]. simpl in Hb |- *. split_and!; try lia; tauto.
  - intros x. unfold hole. rewrite !units_app, !units_cons, units_nil. simpl.
    split; [|intros [[[?|[?|[]]]|?]|?]; try tauto; right; left; lia].
    intros [?|[?|?]]; try tauto.
    destruct (decide (x < addr)); [left; left; right; left; lia|right; lia].
Qed.

Lemma returned_join_right l b r size addr :
  apart 0 (l ++ b :: r) → 0 < size → top 0 l < addr → addr + size = m_addr b →
  returned (l ++ b :: r) (l ++ MapEnt (m_size b + size) addr :: r) size addr.
Proof.
  intros Hw Hs H1 H2. apply apart_app in Hw as [Hl Hb]. simpl in Hb. split.
  - apply apart_app. split; [done|]. simpl. split_and!; try lia.
    replace (addr + (m_size b + size)) with (m_addr b + m_size b) by lia. tauto.
  - intros x. unfold hole. rewrite !units_app, !units_cons. simpl.
    split; [|intros [[?|[?|?]]|?]; try tauto; right; left; lia].
    intros [?|[?|?]]; try tauto.
    destruct (decide (x < addr + size)); [right; lia|left; right; left; lia].
Qed.

Lemma returned_new l r size addr :
  apart 0 (l ++ r) → 0 < size → addr + size < 2^32 → top 0 l < addr →
  match r with [] => True | b :: _ => addr + size < m_addr b end →
  returned (l ++ r) (l ++ MapEnt size addr :: r) size addr.
Proof.
  intros Hw Hs Ht H1 H2. apply apart_app in Hw as [Hl Hb]. split.
  - apply apart_app. split; [done|]. simpl. split_and!; try lia.
    destruct r as [|b r]; [done|]. simpl in Hb |- *. split_and!; try lia; tauto.
  - intros x. unfold hole. rewrite !units_app, !units_cons. simpl. tauto.
Qed.

(** The result of [mfree] on a well-formed map: the range is merged into the
    segments, or, when it touches no segment and every slot is in use, it is
    dropped with a warning. *)
Definition mfree_result (mp : map) (segs : list mapent) (size addr : Z) : Prop :=
  (∃ mp' segs', mfree mp size addr = Done (Silent, mp') ∧
     m_limit mp' = m_limit mp ∧ m_name mp' = m_name mp ∧
     length (m_map mp') = length (m_map mp) ∧
     wf_map mp' segs' ∧ returned segs segs' size addr) ∨
  (mfree mp size addr = Done (Overflow (m_name mp) size addr, mp) ∧
     length segs = m_limit mp ∧ ¬ units segs (addr - 1) ∧ ¬ units segs (addr + size)).

Lemma mfree_result_intro mp segs segs' size addr a' :
  mfree mp size addr = Done (Silent, set_m_map mp a') →
  holds a' segs' → returned segs segs' size addr → length a' = length (m_map mp) →
  (length segs' ≤ m_limit mp < length (m_map mp))%nat →
  mfree_result mp segs size addr.
Proof.
  intros E Hh [Hap Hu] Hlen Hroom. left. exists (set_m_map mp a'), segs'.
  split_and!; try done. split_and!; simpl; try done; lia.
Qed.

(** [nonzero] discharges the tests for 0 that lead into the interesting code. *)
Ltac nonzero := rewrite (proj2 (Z.eqb_neq _ 0)) by (simpl; lia); cbn [negb andb].

(** The four ways through [mfree], by what the range touches. *)
Lemma mfree_run_both mp l e b r rest size addr :
  m_map mp = l ++ e :: b :: r ++ terminator :: rest →
  mfree_seek (S (length (m_map mp))) (m_map mp) 0 addr = Done (S (length l)) →
  apart 0 (l ++ e :: b :: r) → 0 < size → 0 < addr →
  m_addr e + m_size e = addr → addr + size = m_addr b →
  mfree mp size addr = Done (Silent, set_m_map mp
    (l ++ MapEnt (m_size e + size + m_size b) (m_addr e) :: r ++ terminator :: terminator :: rest)).
Proof.
  intros Em Hseek Hwf Hs Ha H1 H2. assert (Hpos := apart_pos _ _ Hwf).
  apply apart_app in Hwf as [Hl He]. simpl in He. apply apart_top in Hl.
  rewrite Forall_app, !Forall_cons_iff in Hpos.
  unfold mfree. rewrite Hseek. do 2 nonzero. cbn [mbind outcome_bind].
  rewrite Em, rd_middle_S, rd_hd. cbn [mbind outcome_bind].
  rewrite rd_mid. cbn [mbind outcome_bind m_size m_addr].
  rewrite !u32_id by lia. rewrite (proj2 (Z.leb_le addr _)) by lia. nonzero.
  rewrite (proj2 (Z.leb_le (m_addr b) _)) by lia.
  rewrite wr_mid. cbn [mbind outcome_bind].
  match goal with |- context [copy_down ?f (l ++ ?x :: _) _ _] =>
    pose proof (copy_down_ok f (l ++ [x]) b r rest ltac:(tauto)) as Hc end.
  rewrite (length_app _ [_]), Nat.add_1_r, <- !app_assoc in Hc. cbn [app] in Hc.
  rewrite Hc; [cbn [mbind outcome_bind]; by rewrite (u32_id (m_size e + size)), u32_id by lia|].
  rewrite !length_app. simpl. rewrite !length_app. simpl. lia.
Qed.

Lemma mfree_run_left mp l e r rest size addr :
  m_map mp = l ++ e :: r ++ terminator :: rest →
  mfree_seek (S (length (m_map mp))) (m_map mp) 0 addr = Done (S (length l)) →
  apart 0 (l ++ e :: r) → 0 < size → 0 < addr → addr + size < 2^32 →
  m_addr e + m_size e = addr →
  match r with [] => True | b :: _ => addr + size < m_addr b end →
  mfree mp size addr = Done (Silent, set_m_map mp
    (l ++ MapEnt (m_size e + size) (m_addr e) :: r ++ terminator :: rest)).
Proof.
  intros Em Hseek Hwf Hs Ha Ht H1 H2.
  apply apart_app in Hwf as [Hl He]. simpl in He. apply apart_top in Hl.
  unfold mfree. rewrite Hseek. do 2 nonzero. cbn [mbind outcome_bind].
  assert (Hb : rd (m_map mp) (S (length l)) = Done (default terminator (head r))).
  { rewrite Em, rd_middle_S. by destruct r. }
  rewrite Hb, Em. cbn [mbind outcome_bind]. rewrite rd_mid. cbn [mbind outcome_bind m_size m_addr].
  rewrite (u32_id (m_addr e + m_size e)), (u32_id (addr + size)), (u32_id (m_size e + size)) by lia.
  rewrite (proj2 (Z.leb_le addr _)) by lia.
  assert (Hc : negb (m_size (default terminator (head r)) =? 0) &&
    (m_addr (default terminator (head r)) <=? addr + size) = false).
  { destruct r as [|b r]; simpl in *; [done|]. nonzero. apply Z.leb_gt. lia. }
  rewrite Hc, wr_mid. done.
Qed.

(** When nothing on the left touches the range, [mfree] reaches its second
    half. *)
Lemma mfree_run_unjoined mp l r rest size addr :
  m_map mp = (l ++ r) ++ terminator :: rest →
  mfree_seek (S (length (m_map mp))) (m_map mp) 0 addr = Done (length l) →
  apart 0 (l ++ r) → 0 < size → 0 < addr → addr + size < 2^32 → top 0 l < addr →
  mfree mp size addr =
    if negb (m_size (default terminator (head r)) =? 0) &&
       (m_addr (default terminator (head r)) <=? addr + size) then
      a ← wr (m_map mp) (length l)
            (MapEnt (u32 (m_size (default terminator (head r)) + size)) addr);
      Done (Silent, set_m_map mp a)
    else if (m_limit mp <? S (length (l ++ r)))%nat then
      Done (Overflow (m_name mp) size addr, mp)
    else
      a ← copy_up (S (length r)) (m_map mp) (length l);
      a ← wr a (length l) (MapEnt size addr);
      Done (Silent, set_m_map mp a).
Proof.
  intros Em Hseek Hwf Hs Ha Ht Htop. assert (Hpos := apart_pos _ _ Hwf).
  assert (Hb : rd (m_map mp) (length l) = Done (default terminator (head r))).
  { rewrite Em, <- app_assoc. destruct r; apply rd_mid. }
  assert (Hend : find_end (S (length (m_map mp))) (m_map mp) (length l) =
    Done (length l + length r)%nat).
  { rewrite Em, <- app_assoc. apply Forall_app in Hpos as [_ Hpos]. apply find_end_ok; [done|].
    rewrite !length_app. simpl. lia. }
  unfold mfree. rewrite Hseek. do 2 nonzero. cbn [mbind outcome_bind]. rewrite Hb.
  cbn [mbind outcome_bind]. rewrite Hend, (u32_id (addr + size)) by lia.
  destruct l as [|e l _] using rev_ind; [done|].
  rewrite length_app, Nat.add_1_r, <- !app_assoc in *. cbn [app] in *.
  apply apart_app in Hwf as [Hl He]. simpl in He. apply apart_top in Hl.
  rewrite top_app in Htop. simpl in Htop.
  rewrite Em at 1. rewrite rd_mid. cbn [mbind outcome_bind].
  rewrite (u32_id (m_addr e + m_size e)), (proj2 (Z.leb_gt addr _)) by lia. cbn [mbind outcome_bind].
  rewrite length_app. cbn [length].
  replace (S (S (length l) + length r) - S (length l))%nat with (S (length r)) by lia.
  by replace (S (length l) + length r)%nat with (length l + S (length r))%nat by lia.
Qed.

(** The range either ends where the next segment starts or short of it. *)
Lemma right_cases (r : list mapent) (t : Z) :
  match r with [] => True | e :: _ => t ≤ m_addr e end →
  (∃ b r', r = b :: r' ∧ t = m_addr b) ∨ match r with [] => True | e :: _ => t < m_addr e end.
Proof.
  destruct r as [|b r]; [by right|]. intros H.
  destruct (decide (t = m_addr b)); [left; eauto|right; lia].
Qed.

(** Nothing is free in the gap between [l] and [r]. *)
Lemma gap_free l r x :
  apart 0 (l ++ r) → top 0 l ≤ x → match r with [] => True | b :: _ => x < m_addr b end →
  ¬ units (l ++ r) x.
Proof.
  intros [Hl Hr]%apart_app Hx Hb. rewrite units_app. intros [Hu|Hu].
  - apply (units_below 0) in Hu; [lia|done].
  - destruct r as [|b r]; [by rewrite units_nil in Hu|]. simpl in Hr.
    rewrite units_cons in Hu. destruct Hu as [?|Hu]; [lia|].
    apply (units_above (m_addr b + m_size b)) in Hu; [lia|tauto].
Qed.

Section MfreeResult.
Context (mp : map) (l r rest : list mapent) (size addr : Z).
Hypothesis (Em : m_map mp = (l ++ r) ++ terminator :: rest) (Hwf : apart 0 (l ++ r))
  (Hroom : (length (l ++ r) ≤ m_limit mp < length (m_map mp))%nat)
  (Hs : 0 < size) (Ha : 0 < addr) (Ht : addr + size < 2^32)
  (Hseek : mfree_seek (S (length (m_map mp))) (m_map mp) 0 addr = Done (length l))
  (HR : match r with [] => True | e :: _ => addr + size ≤ m_addr e end).
Lemma mfree_result_joined : top 0 l = addr → mfree_result mp (l ++ r) size addr.
Proof.
  intros Htop. destruct (exists_last (l := l)) as (l' & e & El); [intros Hnil; rewrite Hnil in Htop; simpl in Htop; lia|].
  assert (He : m_addr e + m_size e = addr) by (rewrite El, top_app in Htop; done).
  assert (Hn : length l = S (length l')) by (rewrite El, length_app; simpl; lia).
  rewrite Hn in Hseek.
  destruct (right_cases _ _ HR) as [(b & r' & Er & Eb)|HR'].
  - assert (Em' : m_map mp = l' ++ e :: b :: r' ++ terminator :: rest)
      by (by rewrite Em, El, Er, <- !app_assoc).
    eapply mfree_result_intro with
      (segs' := l' ++ MapEnt (m_size e + size + m_size b) (m_addr e) :: r').
    + eapply mfree_run_both; eauto. rewrite Er, El, <- app_assoc in Hwf. done.
    + exists (terminator :: rest). by rewrite <- app_assoc.
    + rewrite Er, El. apply returned_join_both; [by rewrite <- El, <- Er|done..].
    + rewrite Em', !length_app; simpl; rewrite !length_app; simpl; lia.
    + rewrite Er, !length_app, Hn in Hroom. rewrite !length_app. simpl in *. lia.
  - assert (Em' : m_map mp = l' ++ e :: r ++ terminator :: rest)
      by (by rewrite Em, El, <- !app_assoc).
    eapply mfree_result_intro with (segs' := l' ++ MapEnt (m_size e + size) (m_addr e) :: r).
    + eapply mfree_run_left; eauto. rewrite El, <- app_assoc in Hwf. done.
    + exists rest. by rewrite <- app_assoc.
    + rewrite El. apply returned_join_left; [by rewrite <- El|done..].
    + rewrite Em', !length_app; simpl; rewrite !length_app; simpl; lia.
    + rewrite !length_app, Hn in Hroom. rewrite !length_app. simpl in *. lia.
Qed.
Lemma mfree_result_unjoined : top 0 l < addr → mfree_result mp (l ++ r) size addr.
Proof.
  intros Htop. pose proof (mfree_run_unjoined mp l r rest size addr Em Hseek Hwf Hs Ha Ht Htop) as E.
  pose proof (proj1 (apart_app _ _ _) Hwf) as [Hl Hr].
  destruct (right_cases _ _ HR) as [(b & r' & Er & Eb)|HR'].
  - rewrite Er in *. simpl in Hr, E. rewrite (proj2 (Z.eqb_neq _ 0)), (proj2 (Z.leb_le _ _)) in E by lia.
    rewrite Em, <- app_assoc in E. cbn [negb andb app] in E. rewrite wr_mid in E.
    rewrite u32_id in E by lia.
    eapply mfree_result_intro with (segs' := l ++ MapEnt (m_size b + size) addr :: r');
      [exact E| |by apply returned_join_right|..].
    + exists rest. by rewrite <- app_assoc.
    + rewrite Em, !length_app; simpl; rewrite !length_app; simpl; lia.
    + rewrite !length_app in Hroom |- *. simpl in *. lia.
  - replace (negb (m_size (default terminator (head r)) =? 0) &&
     (m_addr (default terminator (head r)) <=? addr + size)) with false in E.
    2:{ destruct r as [|b r']; simpl in *; [done|]. nonzero. symmetry. apply Z.leb_gt. lia. }
    destruct (Nat.ltb_spec (m_limit mp) (S (length (l ++ r)))) as [Hfull|Hslot].
    + right. split_and!; [done|lia|..].
      * apply gap_free; [done|lia|]. destruct r; [done|]. lia.
      * apply gap_free; [done|lia|]. destruct r; [done|]. lia.
    + assert (exists y rest', rest = y :: rest') as (y & rest' & Erest).
      { destruct rest as [|y rest']; [|eauto]. rewrite Em, (length_app _ [_]) in Hroom. simpl in Hroom. lia. }
      assert (Em' : m_map mp = l ++ (r ++ [terminator]) ++ y :: rest')
        by (by rewrite Em, Erest, <- !app_assoc).
      rewrite Em' in E.
      replace (S (length r)) with (length (r ++ [terminator])) in E
        by (rewrite length_app; simpl; lia).
      rewrite copy_up_ok in E. cbn [mbind outcome_bind] in E. rewrite wr_mid in E.
      eapply mfree_result_intro with (segs' := l ++ MapEnt size addr :: r);
        [exact E| |by apply returned_new|..].
      * exists rest'. by rewrite <- !app_assoc.
      * rewrite Em', !length_app; simpl; rewrite !length_app; simpl; lia.
      * rewrite !length_app in Hroom, Hslot |- *. simpl in *. lia.
Qed.
End MfreeResult.

Lemma mfree_run mp segs size addr :
  wf_map mp segs → 0 < size → 0 < addr → addr + size < 2^32 →
  (∀ x, hole addr size x → ¬ units segs x) → mfree_result mp segs size addr.
Proof.
  intros ((rest & Em) & Hwf & Hlim & Hroom) Hs Ha Ht Hfree.
  destruct (mfree_seek_ok (S (length (m_map mp))) [] segs rest addr 0)
    as (l & r & -> & Hseek & Hl & Hr); [done|rewrite Em, length_app; simpl; lia|].
  cbn [app length] in Hseek. rewrite <- Em in Hseek. cbn [Nat.add] in Hseek.
  pose proof (between_left l r size addr Hwf Hs Ha Hfree Hl) as HL.
  pose proof (between_right l r size addr Hwf Hfree Hr) as HR.
  destruct (decide (top 0 l = addr)).
  - by eapply mfree_result_joined.
  - eapply mfree_result_unjoined; eauto. lia.
Qed.

(** *** [malloc3]

    While it works, the used part of the array is the old map with [f i]
    units taken off the size of slot [i] and [g i] added to its address. *)
Section Malloc3.
Context (segs rest : list mapent).
Hypothesis (Hwf : apart 0 segs).
Definition arr (f g : nat → Z) : list mapent :=
  imap (λ i e, MapEnt (m_size e - f i) (m_addr e + g i)) segs ++ terminator :: rest.
Lemma length_arr f g : length (arr f g) = length (segs ++ terminator :: rest).
Proof. unfold arr. by rewrite !length_app, length_imap. Qed.
Lemma arr_ext f f' g g' :
  (∀ i, (i < length segs)%nat → f i = f' i ∧ g i = g' i) → arr f g = arr f' g'.
Proof.
  intros H. unfold arr. f_equal. apply list_eq. intros i. rewrite !list_lookup_imap.
  destruct (segs !! i) as [e|] eqn:E; [|done]. simpl.
  destruct (H i) as [-> ->]; [by eapply lookup_lt_Some|done].
Qed.
Lemma arr_0 : arr (λ _, 0) (λ _, 0) = segs ++ terminator :: rest.
Proof.
  unfold arr. f_equal. apply list_eq. intros i. rewrite list_lookup_imap.
  destruct (segs !! i) as [[s a]|]; simpl; [|done]. do 2 f_equal; lia.
Qed.
Lemma arr_rd f g i e :
  segs !! i = Some e → rd (arr f g) i = Done (MapEnt (m_size e - f i) (m_addr e + g i)).
Proof.
  intros E. apply rd_Done. unfold arr.
  rewrite lookup_app_l by (rewrite length_imap; by eapply lookup_lt_Some).
  by rewrite list_lookup_imap, E.
Qed.
Lemma arr_rd_end f g : rd (arr f g) (length segs) = Done terminator.
Proof.
  unfold arr. replace (length segs) with
    (length (imap (λ i e, MapEnt (m_size e - f i) (m_addr e + g i)) segs)) by apply length_imap.
  apply rd_mid.
Qed.
Lemma arr_wr f g f' g' i e x :
  segs !! i = Some e → x = MapEnt (m_size e - f' i) (m_addr e + g' i) →
  (∀ j, j ≠ i → f' j = f j ∧ g' j = g j) →
  wr (arr f g) i x = Done (arr f' g').
Proof.
  intros E -> Hj. pose proof (lookup_lt_Some _ _ _ E) as Hi.
  rewrite wr_Done by (rewrite length_arr, length_app; simpl; lia). f_equal. unfold arr.
  rewrite insert_app_l by (by rewrite length_imap). f_equal. apply list_eq. intros j.
  destruct (decide (j = i)) as [->|Hne].
  - rewrite list_lookup_insert_eq by (by rewrite length_imap). by rewrite list_lookup_imap, E.
  - rewrite list_lookup_insert_ne by done. rewrite !list_lookup_imap.
    destruct (Hj j Hne) as [-> ->]. done.
Qed.
(** The units taken from slot [i] by the segments placed so far. *)
Fixpoint load (mad : list (option nat)) (sizes : list Z) (i : nat) : Z :=
  match mad, sizes with
  | m :: mad, s :: sizes => (if decide (m = Some i) then s else 0) + load mad sizes i
  | _, _ => 0
  end.
Lemma load_insert mad sizes next bp size i :
  mad !! next = Some None → sizes !! next = Some size →
  load (<[next := Some bp]> mad) sizes i =
    load mad sizes i + (if decide (i = bp) then size else 0).
Proof.
  revert mad sizes. induction next as [|next IH]; intros [|m mad] [|s sizes] Hm Hs; simpl in *;
    try done; simplify_eq.
  - repeat case_decide; simplify_eq; lia.
  - rewrite IH by done. lia.
Qed.
Lemma load_nonneg mad sizes i : Forall (λ s, 0 ≤ s) sizes → 0 ≤ load mad sizes i.
Proof.
  intros H. revert mad. induction H as [|s sizes ? ? IH]; intros [|m mad]; simpl; try lia.
  specialize (IH mad). case_decide; lia.
Qed.
End Malloc3.

Fixpoint placed (mad : list (option nat)) : nat :=
  match mad with [] => 0 | None :: mad => placed mad | Some _ :: mad => S (placed mad) end.

Lemma placed_insert mad next bp :
  mad !! next = Some None → placed (<[next := Some bp]> mad) = S (placed mad).
Proof.
  revert next. induction mad as [|[i|] mad IH]; intros [|next] H; simpl in *; simplify_eq; auto.
Qed.

Lemma apart_bounds lo segs i e :
  0 ≤ lo → apart lo segs → segs !! i = Some e →
  lo < m_addr e ∧ 0 < m_size e ∧ m_addr e + m_size e < 2^32.
Proof.
  revert lo i. induction segs as [|e' r IH]; intros lo i Hlo Ha E; [done|].
  destruct Ha as (?&?&?&Ha). destruct i as [|i]; simpl in E; simplify_eq; [lia|].
  assert (0 ≤ m_addr e' + m_size e') as Hlo' by lia. destruct (IH _ i Hlo' Ha E) as (?&?&?). lia.
Qed.

(** What [malloc3] is to find room for, and the search: each free segment in
    turn takes of the requests that are left, in their order, those that still
    fit; [unserved] are the requests for which no segment had room. *)
Fixpoint serve (room : Z) (want : list Z) : list Z :=
  match want with
  | [] => []
  | z :: want => if z <=? room then serve (room - z) want else z :: serve room want
  end.
Definition unserved (segs : list mapent) (want : list Z) : list Z := foldl (λ want e, serve (m_size e) want) want segs.

(** The requests with no slot yet. *)
Fixpoint pend (mad : list (option nat)) (sizes : list Z) : list Z :=
  match mad, sizes with
  | None :: mad, z :: sizes => z :: pend mad sizes
  | Some _ :: mad, _ :: sizes => pend mad sizes
  | _, _ => []
  end.
Lemma pend_app m1 m2 s1 s2 : length m1 = length s1 → pend (m1 ++ m2) (s1 ++ s2) = pend m1 s1 ++ pend m2 s2.
Proof. revert s1. induction m1 as [|[i|] m1 IH]; intros [|z s1] E; simpl in *; try done; [apply IH; lia|]. f_equal. apply IH. lia. Qed.
Lemma pend_split k mad sizes slot sz : length mad = length sizes → mad !! k = Some slot → sizes !! k = Some sz →
  pend (take (S k) mad) (take (S k) sizes) = pend (take k mad) (take k sizes) ++ (if slot is None then [sz] else []) ∧
  pend (drop k mad) (drop k sizes) = (if slot is None then [sz] else []) ++ pend (drop (S k) mad) (drop (S k) sizes).
Proof.
  intros El Hm Hs. rewrite (take_S_r _ _ _ Hm), (take_S_r _ _ _ Hs), pend_app by (rewrite !length_take; lia).
  rewrite (drop_S _ _ _ Hm), (drop_S _ _ _ Hs). by destruct slot.
Qed.
Lemma pend_placed mad sizes : length mad = length sizes → (placed mad + length (pend mad sizes) = length mad)%nat.
Proof. revert sizes. induction mad as [|[i|] mad IH]; intros [|z sizes] E; simpl in *; try done; specialize (IH sizes); lia. Qed.
Lemma pend_none mad sizes k : length mad = length sizes → pend mad sizes = [] → pend (take k mad) (take k sizes) = [] ∧ pend (drop k mad) (drop k sizes) = [].
Proof.
  intros El E. rewrite <- (take_drop k mad), <- (take_drop k sizes) in E. rewrite pend_app in E by (rewrite !length_take; lia). by apply app_nil in E.
Qed.
Lemma unserved_nil segs : unserved segs [] = [].
Proof. by induction segs. Qed.

Section Malloc3Scan.
Context (segs rest : list mapent) (sizes : list Z).
Hypothesis (Hwf : apart 0 segs) (Hsizes : Forall (λ s, 0 ≤ s) sizes) (Hlen : length sizes = 3%nat).
Record m3_inv (bp : nat) (s : m3) : Prop := {
  inv_map : m3_map s = arr segs rest (load (madd s) sizes) (λ _, 0);
  inv_len : length (madd s) = 3%nat;
  inv_load : ∀ i e, segs !! i = Some e → load (madd s) sizes i ≤ m_size e;
  inv_slot : ∀ n i, madd s !! n = Some (Some i) → (i < bp)%nat ∧ (i < length segs)%nat;
  inv_found : found s = placed (madd s);
  inv_remap :
    match remap s with
    | None => ∀ i e, segs !! i = Some e → load (madd s) sizes i < m_size e
    | Some r => (r < bp)%nat ∧
        (∃ e, segs !! r = Some e ∧ load (madd s) sizes r = m_size e) ∧
        (∀ i e, (i < r)%nat → segs !! i = Some e → load (madd s) sizes i < m_size e)
    end
}.
Lemma seg_bounds i e : segs !! i = Some e → 0 < m_addr e ∧ 0 < m_size e ∧ m_addr e + m_size e < 2^32.
Proof. by apply (apart_bounds 0). Qed.
(** One placement: segment [next] of size [sz] goes to slot [bp]. *)
Lemma m3_inv_place bp s next sz e :
  m3_inv (S bp) s → madd s !! next = Some None → sizes !! next = Some sz →
  segs !! bp = Some e → sz ≤ m_size e - load (madd s) sizes bp →
  m3_inv (S bp)
    (M3 (arr segs rest (load (<[next := Some bp]> (madd s)) sizes) (λ _, 0))
        (<[next := Some bp]> (madd s))
        (if (m_size e - load (madd s) sizes bp - sz =? 0) &&
            negb (bool_decide (is_Some (remap s))) then Some bp else remap s)
        (S (found s))).
Proof.
  intros [Im Il Io Is If Ir] Hn Hsz He Hfit.
  pose proof (λ i, load_insert (madd s) sizes next bp sz i Hn Hsz) as HL.
  assert (0 ≤ sz) by (by eapply (Forall_lookup_1 _ sizes)).
  split; simpl.
  - done.
  - by rewrite length_insert.
  - intros i e' E. rewrite HL. case_decide; [subst i; simplify_eq; lia|].
    rewrite Z.add_0_r. by apply Io.
  - intros n i. destruct (decide (n = next)) as [->|Hne].
    + rewrite list_lookup_insert_eq by (by eapply lookup_lt_Some).
      intros [= <-]. split; [lia|by eapply lookup_lt_Some].
    + rewrite list_lookup_insert_ne by done. apply Is.
  - rewrite placed_insert by done. by rewrite If.
  - destruct (remap s) as [r|].
    + rewrite bool_decide_true, andb_false_r by eauto. destruct Ir as (Hr & (er & Er & Hz) & Hlt).
      split_and!; [done| |].
      * exists er. split; [done|]. rewrite HL. case_decide; [|lia]. subst r. simplify_eq. lia.
      * intros i e' Hi E. rewrite HL. case_decide; [subst i; lia|]. rewrite Z.add_0_r. eauto.
    + rewrite bool_decide_false, andb_true_r by (intros [? [=]]).
      destruct (Z.eqb_spec (m_size e - load (madd s) sizes bp - sz) 0) as [Hz|Hz].
      * split_and!; [lia| |].
        -- exists e. split; [done|]. rewrite HL, decide_True by done. lia.
        -- intros i e' Hi E. rewrite HL, decide_False, Z.add_0_r by lia. eauto.
      * intros i e' E. rewrite HL. case_decide; [subst i; simplify_eq; lia|]. rewrite Z.add_0_r. eauto.
Qed.
Lemma malloc3_inner_ok n bp s e :
  m3_inv (S bp) s → segs !! bp = Some e → (n ≤ 3)%nat → (found s < 3)%nat →
  ∃ b s', malloc3_inner n sizes bp s = Done (b, s') ∧ m3_inv (S bp) s' ∧
    (if b : bool then found s' = 3%nat else (found s' < 3)%nat) ∧
    pend (madd s') sizes = pend (take (3 - n) (madd s)) (take (3 - n) sizes) ++
      serve (m_size e - load (madd s) sizes bp) (pend (drop (3 - n) (madd s)) (drop (3 - n) sizes)).
Proof.
  revert s. induction n as [|n IH]; intros s Hinv He Hn Hf.
  { exists false, s. pose proof (inv_len _ _ Hinv). rewrite !take_ge, !drop_ge by lia. simpl. by rewrite app_nil_r. }
  cbn [malloc3_inner].
  assert (is_Some (madd s !! (3 - S n)%nat)) as [slot Hslot].
  { apply lookup_lt_is_Some. rewrite (inv_len _ _ Hinv). lia. }
  assert (is_Some (sizes !! (3 - S n)%nat)) as [sz Hsz].
  { apply lookup_lt_is_Some. rewrite Hlen. lia. }
  rewrite (rd_Done _ _ _ Hslot), (rd_Done _ _ _ Hsz), (inv_map _ _ Hinv). cbn [mbind outcome_bind].
  rewrite (arr_rd _ _ _ _ _ _ He). cbn [mbind outcome_bind m_size m_addr].
  assert (Hlm : length (madd s) = length sizes) by (rewrite Hlen; apply Hinv).
  destruct (pend_split _ _ _ _ _ Hlm Hslot Hsz) as [P1 P2]. assert (Ek : S (3 - S n) = (3 - n)%nat) by lia. rewrite Ek in P1, P2.
  destruct slot as [i|].
  { destruct (IH s) as (b & s' & E & Hi & Hb & Hp); [done..|lia|done|]. exists b, s'. rewrite P1, app_nil_r in Hp. rewrite P2. by split_and!. }
  destruct (Z.leb_spec sz (m_size e - load (madd s) sizes bp)) as [Hfit|Hfit].
  2:{ destruct (IH s) as (b & s' & E & Hi & Hb & Hp); [done..|lia|done|]. exists b, s'. rewrite P1, <- app_assoc in Hp. rewrite P2. simpl.
      rewrite (proj2 (Z.leb_gt _ _)) by lia. by split_and!. }
  assert (Hk : (3 - S n < length (madd s))%nat) by (by eapply lookup_lt_Some).
  destruct (pend_split (3 - S n) (<[(3 - S n)%nat := Some bp]> (madd s)) sizes (Some bp) sz) as [P3 P4];
    [by rewrite length_insert|by apply list_lookup_insert_eq|done|]. rewrite Ek in P3, P4. rewrite (take_insert_ge _ (3 - S n) (3 - S n)), app_nil_r in P3 by lia.
  assert (P5 : drop (3 - n) (<[(3 - S n)%nat := Some bp]> (madd s)) = drop (3 - n) (madd s)) by (apply drop_insert_lt; lia).
  rewrite P2. cbn [app serve]. rewrite (proj2 (Z.leb_le _ _)) by lia.
  rewrite (wr_Done (madd s)) by (by eapply lookup_lt_Some). cbn [mbind outcome_bind].
  assert (0 ≤ sz) by (by eapply (Forall_lookup_1 _ sizes)).
  destruct (seg_bounds _ _ He) as (?&?&?). pose proof (load_nonneg (madd s) sizes bp Hsizes).
  rewrite u32_id by lia.
  erewrite (arr_wr _ _ _ _ (load (<[(3 - S n)%nat := Some bp]> (madd s)) sizes) (λ _, 0)); [|exact He|..].
  2: by rewrite (load_insert _ _ _ _ sz), decide_True, Z.sub_add_distr by done.
  2: intros j Hj; by rewrite (load_insert _ _ _ _ sz), decide_False, Z.add_0_r by done.
  cbn [mbind outcome_bind found].
  pose proof (m3_inv_place bp s _ sz e Hinv Hslot Hsz He Hfit) as Hinv'.
  assert (HP : m_size e - load (<[(3 - S n)%nat := Some bp]> (madd s)) sizes bp = m_size e - load (madd s) sizes bp - sz).
  { rewrite (load_insert _ _ _ _ sz), decide_True by done. lia. }
  destruct (Nat.eqb_spec (S (found s)) 3) as [Hthree|Hthree].
  - eexists true, _. split; [done|]. split; [done|]. split; [done|]. cbn [madd].
    assert (Hnil : pend (<[(3 - S n)%nat := Some bp]> (madd s)) sizes = []).
    { pose proof (pend_placed (<[(3 - S n)%nat := Some bp]> (madd s)) sizes) as Hpp. rewrite length_insert in Hpp. specialize (Hpp Hlm).
      pose proof (inv_found _ _ Hinv') as Hf'. cbn [found madd] in Hf'. rewrite Hthree in Hf'. pose proof (inv_len _ _ Hinv) as Hl3. rewrite Hl3 in Hpp. apply length_zero_iff_nil. lia. }
    destruct (pend_none _ sizes (3 - n) ltac:(by rewrite length_insert) Hnil) as [N1 N2]. rewrite P3 in N1. rewrite P5 in N2. by rewrite Hnil, N1, N2.
  - destruct (IH _ Hinv' He) as (b & s' & E & Hi & Hb & Hp); [lia|simpl; lia|]. exists b, s'. cbn [madd] in Hp. rewrite P3, P5, HP in Hp. by split_and!.
Qed.
Lemma m3_inv_weaken bp s : m3_inv bp s → m3_inv (S bp) s.
Proof.
  intros [Im Il Io Is If Ir]. split; try done.
  - intros n i H. destruct (Is n i H). lia.
  - destruct (remap s); [|done]. destruct Ir as (?&?&?). split_and!; [lia|done..].
Qed.
Lemma malloc3_scan_ok fuel bp s :
  m3_inv bp s → (bp ≤ length segs)%nat → (length segs - bp < fuel)%nat → (found s < 3)%nat →
  ∃ b bp' s', malloc3_scan fuel sizes bp s = Done (b, s') ∧ m3_inv bp' s' ∧
    (if b : bool then found s' = 3%nat else (found s' < 3)%nat) ∧ pend (madd s') sizes = unserved (drop bp segs) (pend (madd s) sizes).
Proof.
  revert bp s. induction fuel as [|fuel IH]; intros bp s Hinv Hbp Hfuel Hf; [lia|].
  cbn [malloc3_scan]. destruct (decide (bp = length segs)) as [->|Hne].
  - rewrite (inv_map _ _ Hinv), arr_rd_end. simpl. exists false, (length segs), s. by rewrite drop_all.
  - destruct (lookup_lt_is_Some_2 segs bp) as [e He]; [lia|].
    rewrite (inv_map _ _ Hinv), (arr_rd _ _ _ _ _ _ He). cbn [mbind outcome_bind m_size].
    assert (Hl : load (madd s) sizes bp = 0).
    { clear - Hinv. pose proof (inv_slot _ _ Hinv) as Hs. clear Hinv.
      generalize dependent (madd s). intros mad Hs. clear s. revert sizes.
      induction mad as [|m mad IHm]; intros [|sz szs]; simpl; try done.
      rewrite decide_False; [|intros ->; destruct (Hs 0%nat bp eq_refl); lia].
      rewrite IHm; [lia|]. intros n i H. by apply (Hs (S n)). }
    destruct (seg_bounds _ _ He) as (?&?&?).
    rewrite (proj2 (Z.eqb_neq _ 0)) by lia.
    destruct (malloc3_inner_ok 3 bp s e) as (b & s' & E & Hinv' & Hb & Hp); [by apply m3_inv_weaken|done|lia|done|..]; rewrite E; cbn [mbind outcome_bind].
    rewrite (drop_S _ _ _ He). cbn [unserved foldl]. simpl in Hp. rewrite !drop_0, Hl, Z.sub_0_r in Hp. fold (unserved (drop (S bp) segs)). rewrite <- Hp.
    destruct b.
    + exists true, (S bp), s'. split_and!; [done|done|done|]. assert (Hnil : pend (madd s') sizes = []).
      { pose proof (pend_placed (madd s') sizes) as Hpp. rewrite Hlen, (inv_len _ _ Hinv') in Hpp. specialize (Hpp eq_refl).
        rewrite (inv_found _ _ Hinv') in Hb. apply length_zero_iff_nil. lia. }
      rewrite Hnil. symmetry. apply unserved_nil.
    + apply IH; [done|lia|lia|done].
Qed.
End Malloc3Scan.

Lemma load_drop mad sizes k i :
  Forall (λ s, 0 ≤ s) sizes → load (drop k mad) (drop k sizes) i ≤ load mad sizes i.
Proof.
  intros Hz. revert mad k. induction Hz as [|z sizes Hz Hzs IH]; intros [|m mad] [|k]; simpl; try lia.
  - destruct (drop k mad); simpl; lia.
  - specialize (IH mad k). case_decide; lia.
Qed.

Lemma malloc3_restore_ok segs rest sizes mad n :
  apart 0 segs → Forall (λ s, 0 ≤ s) sizes → length sizes = 3%nat → length mad = 3%nat →
  (∀ k i, mad !! k = Some (Some i) → (i < length segs)%nat) →
  (∀ i e, segs !! i = Some e → load mad sizes i ≤ m_size e) → (n ≤ 3)%nat →
  malloc3_restore n sizes mad
    (arr segs rest (load (drop (3 - n) mad) (drop (3 - n) sizes)) (λ _, 0)) =
    Done (segs ++ terminator :: rest).
Proof.
  intros Hwf Hsz Ls Lm Hslot Hload. induction n as [|n IH]; intros Hn.
  - cbn [malloc3_restore]. rewrite !drop_ge by lia. f_equal. apply arr_0.
  - cbn [malloc3_restore].
    destruct (lookup_lt_is_Some_2 mad (3 - S n)) as [m Em]; [lia|].
    destruct (lookup_lt_is_Some_2 sizes (3 - S n)) as [s Es]; [lia|].
    rewrite (rd_Done _ _ _ Em), (rd_Done _ _ _ Es). cbn [mbind outcome_bind].
    rewrite (drop_S _ _ _ Em), (drop_S _ _ _ Es).
    replace (S (3 - S n)) with (3 - n)%nat by lia. specialize (IH ltac:(lia)).
    assert (0 ≤ s) by (by eapply (Forall_lookup_1 _ sizes)).
    destruct m as [i|].
    + destruct (lookup_lt_is_Some_2 segs i) as [e He]; [by eapply Hslot|].
      rewrite (arr_rd _ _ _ _ _ _ He). cbn [mbind outcome_bind m_size m_addr load].
      rewrite decide_True by done.
      set (f := load (drop (3 - n) mad) (drop (3 - n) sizes)) in *.
      assert (0 ≤ f i ≤ m_size e) as Hf.
      { split; [apply load_nonneg; by apply Forall_drop|]. etrans; [|by apply Hload].
        by apply load_drop. }
      destruct (apart_bounds 0 segs i e) as (?&?&?); [lia|done..|].
      erewrite (arr_wr _ _ _ _ f (λ _, 0)); [|exact He|..]; [exact IH|f_equal|].
      * rewrite u32_id; lia.
      * intros j Hj. rewrite decide_False by congruence. split; [lia|done].
    + erewrite arr_ext; [exact IH|]. intros i Hi. cbn [load]. rewrite decide_False by done. split; [lia|done].
Qed.

Lemma malloc3_resolve_ok segs rest f i0 i1 i2 e0 e1 e2 s0 s1 s2 :
  segs !! i0 = Some e0 → segs !! i1 = Some e1 → segs !! i2 = Some e2 →
  apart 0 segs → 0 ≤ s0 → 0 ≤ s1 → 0 ≤ s2 →
  (∀ i e, segs !! i = Some e → load [Some i0; Some i1; Some i2] [s0; s1; s2] i ≤ m_size e) →
  malloc3_resolve 3 [s0; s1; s2] [Some i0; Some i1; Some i2] (arr segs rest f (λ _, 0)) =
  Done ([m_addr e0; m_addr e1 + load [Some i0] [s0] i1;
         m_addr e2 + load [Some i0; Some i1] [s0; s1] i2],
        arr segs rest f (load [Some i0; Some i1; Some i2] [s0; s1; s2])).
Proof.
  intros E0 E1 E2 Hwf H0 H1 H2 Hload.
  destruct (apart_bounds 0 segs i0 e0) as (?&?&?); [lia|done..|].
  destruct (apart_bounds 0 segs i1 e1) as (?&?&?); [lia|done..|].
  destruct (apart_bounds 0 segs i2 e2) as (?&?&?); [lia|done..|].
  pose proof (Hload _ _ E0) as L0. pose proof (Hload _ _ E1) as L1. pose proof (Hload _ _ E2) as L2.
  cbn [load] in L0, L1, L2. rewrite decide_True in L0 by done.
  rewrite (decide_True _ _ (P := Some i1 = Some i1)) in L1 by done.
  rewrite (decide_True _ _ (P := Some i2 = Some i2)) in L2 by done.
  cbn [malloc3_resolve Nat.sub rd lookup list_lookup mbind outcome_bind].
  rewrite (arr_rd _ _ _ _ _ _ E0). cbn [mbind outcome_bind m_size m_addr].
  erewrite (arr_wr _ _ _ _ f (load [Some i0] [s0])); [|exact E0|f_equal|]; cbn [mbind outcome_bind].
  2:{ cbn [load]. rewrite decide_True, u32_id by (done || (repeat case_decide; lia)). lia. }
  2:{ intros j Hj. cbn [load]. rewrite decide_False by congruence. done. }
  rewrite (arr_rd _ _ _ _ _ _ E1). cbn [mbind outcome_bind m_size m_addr].
  erewrite (arr_wr _ _ _ _ f (load [Some i0; Some i1] [s0; s1])); [|exact E1|f_equal|]; cbn [mbind outcome_bind].
  2:{ cbn [load]. rewrite (decide_True (P := Some i1 = Some i1)), u32_id by (done || (repeat case_decide; lia)). lia. }
  2:{ intros j Hj. cbn [load]. rewrite (decide_False (P := Some i1 = Some j)) by congruence. split; [done|lia]. }
  rewrite (arr_rd _ _ _ _ _ _ E2). cbn [mbind outcome_bind m_size m_addr].
  erewrite (arr_wr _ _ _ _ f (load [Some i0; Some i1; Some i2] [s0; s1; s2])); [|exact E2|f_equal|];
    cbn [mbind outcome_bind].
  - rewrite Z.add_0_r. done.
  - cbn [load]. rewrite (decide_True (P := Some i2 = Some i2)), u32_id by (done || (repeat case_decide; lia)). lia.
  - intros j Hj. cbn [load]. rewrite (decide_False (P := Some i2 = Some j)) by congruence. split; [done|lia].
Qed.

(** Dropping the emptied slots: [mid] are the slots already given up. *)
Lemma malloc3_squeeze_ok fuel pre mid suf rest :
  mid ≠ [] → Forall (λ e, m_addr e ≠ 0) suf → (length suf < fuel)%nat →
  ∃ rest', malloc3_squeeze fuel (pre ++ mid ++ suf ++ terminator :: rest)
      (length pre) (length (pre ++ mid)) =
    Done (pre ++ filter (λ e, m_size e ≠ 0) suf ++ terminator :: rest') ∧
    length (pre ++ filter (λ e, m_size e ≠ 0) suf ++ terminator :: rest') =
    length (pre ++ mid ++ suf ++ terminator :: rest).
Proof.
  revert pre mid fuel. induction suf as [|e suf IH]; intros pre mid [|fuel] Hmid Hsuf Hf;
    simpl in Hf; try lia; destruct mid as [|x mid]; try done; cbn [malloc3_squeeze].
  - rewrite (app_assoc pre), app_nil_l, rd_mid. cbn [mbind outcome_bind terminator m_size m_addr Z.eqb negb orb].
    rewrite <- app_assoc. cbn [app]. rewrite wr_mid. cbn [mbind outcome_bind].
    exists (mid ++ terminator :: rest). split; [done|]. rewrite !length_app. simpl. rewrite !length_app. simpl. lia.
  - apply Forall_cons_iff in Hsuf as [He Hsuf].
    rewrite (app_assoc pre). cbn [app]. rewrite rd_mid. cbn [mbind outcome_bind].
    rewrite filter_cons. destruct (Z.eqb_spec (m_size e) 0) as [Hz|Hz]; cbn [negb orb].
    + rewrite (proj2 (Z.eqb_neq _ _)) by done. rewrite decide_False by tauto.
      destruct (IH pre ((x :: mid) ++ [e]) fuel) as (rest' & E & El); [done..|lia|].
      exists rest'. split; [|rewrite El, <- !app_assoc; done].
      rewrite <- E, <- !app_assoc. cbn [app]. f_equal. rewrite !length_app. simpl. rewrite length_app. simpl. lia.
    + rewrite decide_True by done. rewrite <- app_assoc. cbn [app]. rewrite wr_mid. cbn [mbind outcome_bind].
      rewrite (proj2 (Z.eqb_neq _ _)) by done.
      destruct (IH (pre ++ [e]) (mid ++ [e]) fuel) as (rest' & E & El); [by destruct mid|done|lia|].
      exists rest'. rewrite <- !app_assoc in E, El. cbn [app] in E, El.
      rewrite <- !app_assoc in E. cbn [app] in *.
      replace (S (length pre)) with (length (pre ++ [e])) by (rewrite length_app; simpl; lia).
      replace (S (length (pre ++ x :: mid))) with (length (pre ++ e :: mid ++ [e])).
      2:{ rewrite !length_app. simpl. rewrite length_app. simpl. lia. }
      rewrite E. split; [done|]. rewrite El. rewrite !length_app. simpl. rewrite !length_app. simpl. lia.
Qed.

(** The map after [f i] units were cut from the front of segment [i]. *)
Definition carved (f : nat → Z) (segs : list mapent) : list mapent :=
  imap (λ i e, MapEnt (m_size e - f i) (m_addr e + f i)) segs.

Definition cut_ok (f : nat → Z) (segs : list mapent) : Prop :=
  ∀ i e, segs !! i = Some e → 0 ≤ f i ≤ m_size e.

Lemma cut_ok_cons f e segs : cut_ok f (e :: segs) → 0 ≤ f 0%nat ≤ m_size e ∧ cut_ok (f ∘ S) segs.
Proof. intros H. split; [by apply (H 0%nat)|]. intros i e' E. by apply (H (S i)). Qed.

Lemma carved_apart f lo segs :
  0 ≤ lo → apart lo segs → cut_ok f segs → apart lo (filter (λ e, m_size e ≠ 0) (carved f segs)).
Proof.
  revert f lo. induction segs as [|e segs IH]; intros f lo Hlo Ha Hc; [done|].
  apply cut_ok_cons in Hc as [H0 Hc]. destruct Ha as (?&?&?&Ha).
  unfold carved. cbn [imap]. rewrite filter_cons. cbn [m_size].
  specialize (IH (f ∘ S) (m_addr e + m_size e) ltac:(lia) Ha Hc).
  case_decide.
  - cbn [apart m_addr m_size]. split_and!; try lia.
    by replace (m_addr e + f 0%nat + (m_size e - f 0%nat)) with (m_addr e + m_size e) by lia.
  - eapply apart_weaken; [|exact IH]. lia.
Qed.

Lemma carved_units f segs x :
  cut_ok f segs →
  units (filter (λ e, m_size e ≠ 0) (carved f segs)) x ↔
  ∃ i e, segs !! i = Some e ∧ m_addr e + f i ≤ x < m_addr e + m_size e.
Proof.
  revert f. induction segs as [|e segs IH]; intros f Hc.
  - rewrite units_nil. split; [done|]. by intros (i & e & [=] & _).
  - apply cut_ok_cons in Hc as [H0 Hc]. unfold carved. cbn [imap]. rewrite filter_cons. cbn [m_size].
    transitivity (m_addr e + f 0%nat ≤ x < m_addr e + m_size e ∨
      units (filter (λ e, m_size e ≠ 0) (carved (f ∘ S) segs)) x).
    + case_decide; [rewrite units_cons; simpl; unfold carved|].
      * split; intros [?|?]; [left; lia|by right|left; lia|by right].
      * split; [by right|]. intros [?|?]; [lia|done].
    + rewrite (IH _ Hc). split.
      * intros [?|(i & e' & ? & ?)]; [by exists 0%nat, e|by exists (S i), e'].
      * intros ([|i] & e' & E & ?); simpl in E; simplify_eq; [by left|right; by exists i, e'].
Qed.

Lemma units_lookup segs x :
  units segs x ↔ ∃ i e, segs !! i = Some e ∧ m_addr e ≤ x < m_addr e + m_size e.
Proof.
  unfold units. rewrite Exists_exists. split.
  - intros (e & Hin & ?). apply list_elem_of_In, list_elem_of_lookup in Hin as [i Hi]. eauto.
  - intros (i & e & Hi & ?). exists e. split; [|done]. apply list_elem_of_In, list_elem_of_lookup. eauto.
Qed.

(** Segments do not overlap. *)
Lemma apart_unique lo segs i j e e' x :
  apart lo segs → segs !! i = Some e → segs !! j = Some e' →
  m_addr e ≤ x < m_addr e + m_size e → m_addr e' ≤ x < m_addr e' + m_size e' → i = j.
Proof.
  revert lo i j. induction segs as [|a segs IH]; intros lo i j Ha Hi Hj Hx Hx'; [done|].
  destruct Ha as (?&?&?&Ha). destruct i as [|i], j as [|j]; simpl in *; simplify_eq; try done.
  - assert (units segs x) as Hu by (rewrite units_lookup; eauto).
    apply (units_above _ _ _ Ha) in Hu. lia.
  - assert (units segs x) as Hu by (rewrite units_lookup; eauto).
    apply (units_above _ _ _ Ha) in Hu. lia.
  - f_equal. eauto.
Qed.

(** The effect of a successful [malloc3]: three disjoint free ranges are
    handed out and nothing else changes hands. *)
Definition granted (segs segs' : list mapent) (a0 a1 a2 s0 s1 s2 : Z) : Prop :=
  (∀ x, hole a0 s0 x ∨ hole a1 s1 x ∨ hole a2 s2 x → units segs x) ∧
  (∀ x, ¬ (hole a0 s0 x ∧ hole a1 s1 x)) ∧ (∀ x, ¬ (hole a0 s0 x ∧ hole a2 s2 x)) ∧
  (∀ x, ¬ (hole a1 s1 x ∧ hole a2 s2 x)) ∧
  (∀ x, units segs' x ↔
     units segs x ∧ ¬ hole a0 s0 x ∧ ¬ hole a1 s1 x ∧ ¬ hole a2 s2 x).

Section Granted.
Context (segs : list mapent) (i0 i1 i2 : nat) (e0 e1 e2 : mapent) (s0 s1 s2 : Z).
Hypothesis (Hwf : apart 0 segs) (E0 : segs !! i0 = Some e0) (E1 : segs !! i1 = Some e1)
  (E2 : segs !! i2 = Some e2) (H0 : 0 ≤ s0) (H1 : 0 ≤ s1) (H2 : 0 ≤ s2)
  (Hload : ∀ i e, segs !! i = Some e →
     load [Some i0; Some i1; Some i2] [s0; s1; s2] i ≤ m_size e).
Let a0 := m_addr e0.
Let a1 := m_addr e1 + load [Some i0] [s0] i1.
Let a2 := m_addr e2 + load [Some i0; Some i1] [s0; s1] i2.
(** Inside one segment the three ranges lie end to end at its start. *)
Lemma granted_in i e x :
  segs !! i = Some e → m_addr e ≤ x < m_addr e + m_size e →
  x < m_addr e + load [Some i0; Some i1; Some i2] [s0; s1; s2] i ↔
  hole a0 s0 x ∨ hole a1 s1 x ∨ hole a2 s2 x.
Proof.
  intros E Hx. pose proof (Hload _ _ E0) as L0. pose proof (Hload _ _ E1) as L1.
  pose proof (Hload _ _ E2) as L2. pose proof (Hload _ _ E) as L.
  assert (U : ∀ j e', segs !! j = Some e' → Some j ≠ Some i →
    x < m_addr e' ∨ m_addr e' + m_size e' ≤ x).
  { intros j e' Ej Hj. destruct (decide (m_addr e' ≤ x < m_addr e' + m_size e')); [|lia].
    destruct Hj. f_equal. by eapply apart_unique. }
  pose proof (U _ _ E0) as U0. pose proof (U _ _ E1) as U1. pose proof (U _ _ E2) as U2. clear U.
  unfold hole, a0, a1, a2. cbn [load] in *.
  repeat case_decide;
    repeat match goal with H : ?P → _, H' : ?P |- _ => specialize (H H') end;
    simplify_eq; lia.
Qed.
Let cuts := load [Some i0; Some i1; Some i2] [s0; s1; s2].
Lemma cuts_ok : cut_ok cuts segs.
Proof.
  intros i e E. split; [|by apply Hload]. apply load_nonneg. by repeat constructor.
Qed.
(** Each range lies inside the segment it was taken from. *)
Lemma granted_inside :
  m_addr e0 ≤ a0 ∧ a0 + s0 ≤ m_addr e0 + m_size e0 ∧
  m_addr e1 ≤ a1 ∧ a1 + s1 ≤ m_addr e1 + m_size e1 ∧
  m_addr e2 ≤ a2 ∧ a2 + s2 ≤ m_addr e2 + m_size e2.
Proof.
  pose proof (Hload _ _ E0) as L0. pose proof (Hload _ _ E1) as L1. pose proof (Hload _ _ E2) as L2.
  unfold a0, a1, a2. cbn [load] in *. repeat case_decide; simplify_eq; lia.
Qed.
Lemma granted_ok :
  granted segs (filter (λ e, m_size e ≠ 0) (carved cuts segs)) a0 a1 a2 s0 s1 s2.
Proof.
  pose proof granted_inside as (?&?&?&?&?&?).
  assert (Hin : ∀ x, hole a0 s0 x ∨ hole a1 s1 x ∨ hole a2 s2 x → units segs x).
  { unfold hole. intros x Hx. apply units_lookup.
    destruct Hx as [?|[?|?]]; [exists i0, e0|exists i1, e1|exists i2, e2]; (split; [done|lia]). }
  assert (D : ∀ x i e j e', segs !! i = Some e → segs !! j = Some e' →
    m_addr e ≤ x < m_addr e + m_size e → m_addr e' ≤ x < m_addr e' + m_size e' → i = j)
    by (intros; by eapply apart_unique).
  split; [done|]. unfold hole in *. split_and!.
  - intros x [Hx Hy]. assert (i0 = i1) as Heq by (eapply (D x); [done..|lia|lia]).
    unfold a0, a1 in *. cbn [load] in *. rewrite decide_True in * by congruence. simplify_eq. lia.
  - intros x [Hx Hy]. assert (i0 = i2) as Heq by (eapply (D x); [done..|lia|lia]).
    unfold a0, a2 in *. cbn [load] in *. rewrite (decide_True (P := Some i0 = Some i2)) in * by congruence.
    simplify_eq. case_decide; lia.
  - intros x [Hx Hy]. assert (i1 = i2) as Heq by (eapply (D x); [done..|lia|lia]).
    unfold a1, a2 in *. cbn [load] in *. subst i2. rewrite (decide_True (P := Some i1 = Some i1)) in * by done.
    simplify_eq. lia.
  - intros x. rewrite (carved_units _ _ _ cuts_ok). split.
    + intros (i & e & E & Hx). pose proof (cuts_ok _ _ E).
      assert (Hxe : m_addr e ≤ x < m_addr e + m_size e) by lia.
      pose proof (granted_in _ _ _ E Hxe) as Hg. unfold hole in Hg. fold cuts in Hg.
      split; [apply units_lookup; eauto|]. clear -Hg Hx. destruct Hg as [_ Hg].
      split_and!; intros ?; (assert (x < m_addr e + cuts i) by auto); lia.
    + rewrite units_lookup. intros ((i & e & E & Hxe) & Hn). exists i, e. split; [done|].
      split; [|lia]. apply Z.le_ngt. intros Hlt.
      apply (proj1 (granted_in _ _ _ E Hxe)) in Hlt. unfold hole in Hlt. tauto.
Qed.
End Granted.

Lemma filter_all (l : list mapent) :
  (∀ i e, l !! i = Some e → m_size e ≠ 0) → filter (λ e, m_size e ≠ 0) l = l.
Proof.
  induction l as [|e l IH]; intros H; [done|]. rewrite filter_cons, decide_True by (by apply (H 0%nat)).
  f_equal. apply IH. intros i e' E. by apply (H (S i)).
Qed.

(** The last step of [malloc3]: slots that became empty disappear. *)
Lemma malloc3_squeezed segs rest f rm :
  apart 0 segs → cut_ok f segs →
  match rm with
  | None => ∀ i e, segs !! i = Some e → f i < m_size e
  | Some r => (∃ e, segs !! r = Some e ∧ f r = m_size e) ∧
              (∀ i e, (i < r)%nat → segs !! i = Some e → f i < m_size e)
  end →
  ∃ a, match rm with
       | None => Done (arr segs rest f f)
       | Some r => malloc3_squeeze (S (length (segs ++ terminator :: rest))) (arr segs rest f f) r (S r)
       end = Done a ∧
       holds a (filter (λ e, m_size e ≠ 0) (carved f segs)) ∧
       length a = length (segs ++ terminator :: rest).
Proof.
  intros Hwf Hcut Hrm. change (arr segs rest f f) with (carved f segs ++ terminator :: rest).
  assert (Hc : ∀ i e', carved f segs !! i = Some e' →
    ∃ e, segs !! i = Some e ∧ e' = MapEnt (m_size e - f i) (m_addr e + f i)).
  { unfold carved. intros i e'. rewrite list_lookup_imap.
    destruct (segs !! i) as [e|]; [intros [= <-]; eauto|done]. }
  assert (Hlen : length (carved f segs) = length segs) by apply length_imap.
  destruct rm as [r|].
  - destruct Hrm as [(e & Er & Hz) Hlt]. pose proof (lookup_lt_Some _ _ _ Er) as Hr.
    destruct (lookup_lt_is_Some_2 (carved f segs) r) as [x Ex]; [lia|].
    assert (Hs : carved f segs = take r (carved f segs) ++ [x] ++ drop (S r) (carved f segs))
      by (symmetry; by apply take_drop_middle).
    destruct (malloc3_squeeze_ok (S (length (segs ++ terminator :: rest)))
      (take r (carved f segs)) [x] (drop (S r) (carved f segs)) rest) as (rest' & E & El); [done|..].
    { apply Forall_lookup. intros i e' Hi. rewrite lookup_drop in Hi.
      destruct (Hc _ _ Hi) as (e1 & E1 & ->). cbn [m_addr]. pose proof (Hcut _ _ E1).
      destruct (apart_bounds 0 segs _ _ ltac:(lia) Hwf E1). lia. }
    { rewrite length_drop, Hlen, length_app. lia. }
    assert (Hf : filter (λ e, m_size e ≠ 0) (carved f segs) =
      take r (carved f segs) ++ filter (λ e, m_size e ≠ 0) (drop (S r) (carved f segs))).
    { rewrite Hs at 1. rewrite !list.filter_app. destruct (Hc _ _ Ex) as (e1 & E1 & ->). simplify_eq.
      rewrite (filter_all (take _ _)).
      - f_equal. rewrite filter_cons, decide_False by (simpl; lia). done.
      - intros i e' Hi. apply lookup_take_Some in Hi as [Hi Hir]. destruct (Hc _ _ Hi) as (e2 & E2 & ->).
        simpl. pose proof (Hlt i e2 Hir E2). lia. }
    rewrite (length_app (take _ _) [_]), length_take, Hlen, Nat.min_l, Nat.add_1_r in E by lia.
    eexists. split.
    + rewrite Hs at 1. rewrite <- !app_assoc. exact E.
    + rewrite Hf. split; [exists rest'; by rewrite <- app_assoc|]. rewrite El.
      rewrite (app_assoc [x]), app_assoc, <- Hs, !length_app, Hlen. done.
  - eexists. split; [done|]. rewrite filter_all.
    + split; [by exists rest|]. rewrite !length_app, Hlen. done.
    + intros i e' Hi. destruct (Hc _ _ Hi) as (e & E & ->). simpl. specialize (Hrm _ _ E). lia.
Qed.

Lemma m3_inv_start segs rest sizes :
  apart 0 segs → length sizes = 3%nat →
  m3_inv segs rest sizes 0 (M3 (segs ++ terminator :: rest) [None; None; None] None 0).
Proof.
  intros Hwf Hlen. destruct sizes as [|s0 [|s1 [|s2 [|]]]]; try done.
  assert (Hl : ∀ i, load [None; None; None] [s0; s1; s2] i = 0) by (intros; reflexivity).
  split; cbn [m3_map madd remap found]; try done.
  - rewrite <- (arr_0 segs rest). apply arr_ext. intros i _. by rewrite Hl.
  - intros i e E. rewrite Hl. destruct (apart_bounds 0 segs i e) as (?&?&?); done || lia.
  - intros [|[|[|n]]] i; simpl; discriminate.
  - intros i e E. rewrite Hl. destruct (apart_bounds 0 segs i e) as (?&?&?); done || lia.
Qed.

Lemma malloc3_run mp segs s0 s1 s2 :
  wf_map mp segs → 0 ≤ s0 → 0 ≤ s1 → 0 ≤ s2 →
  (∃ a0 a1 a2 mp' segs', malloc3 mp s0 s1 s2 = Done (Some [a0; a1; a2], mp') ∧
     wf_map mp' segs' ∧ 0 < a2 ∧ granted segs segs' a0 a1 a2 s0 s1 s2 ∧ unserved segs [s0; s1; s2] = []) ∨
  (malloc3 mp s0 s1 s2 = Done (None, mp) ∧ unserved segs [s0; s1; s2] ≠ []).
Proof.
  intros ((rest & Em) & Hwf & Hlim & Hroom) H0 H1 H2. unfold malloc3. rewrite Em.
  set (sizes := [s0; s1; s2]).
  assert (Hsz : Forall (λ s, 0 ≤ s) sizes) by (by repeat constructor).
  destruct (malloc3_scan_ok segs rest sizes Hwf Hsz eq_refl (S (length (segs ++ terminator :: rest))) 0
    (M3 (segs ++ terminator :: rest) [None; None; None] None 0)) as (b & bp & s & E & Hinv & Hb & Hp);
    [by apply m3_inv_start|lia|rewrite length_app; lia|simpl; lia|].
  rewrite E. cbn [mbind outcome_bind]. change (pend (madd s) sizes = unserved segs sizes) in Hp.
  pose proof (pend_placed (madd s) sizes) as Hpp. rewrite (inv_len _ _ _ _ _ Hinv) in Hpp. specialize (Hpp eq_refl). rewrite Hp in Hpp.
  destruct Hinv as [Im Il Io Is If Ir].
  destruct b.
  - left. rewrite If in Hb. assert (Hu : unserved segs sizes = []) by (apply length_zero_iff_nil; lia).
    destruct (madd s) as [|[i0|] [|[i1|] [|[i2|] [|]]]]; try done; simpl in Hb; try lia.
    destruct (lookup_lt_is_Some_2 segs i0) as [e0 E0]; [by eapply (Is 0%nat)|].
    destruct (lookup_lt_is_Some_2 segs i1) as [e1 E1]; [by eapply (Is 1%nat)|].
    destruct (lookup_lt_is_Some_2 segs i2) as [e2 E2]; [by eapply (Is 2%nat)|].
    rewrite Im. unfold sizes in *. erewrite malloc3_resolve_ok by done. cbn [mbind outcome_bind].
    destruct (malloc3_squeezed segs rest (load [Some i0; Some i1; Some i2] [s0; s1; s2]) (remap s))
      as (a & Ea & Hh & Hlen'); [done|by apply cuts_ok| |].
    { destruct (remap s); [tauto|done]. }
    rewrite Ea. cbn [mbind outcome_bind]. do 5 eexists. split; [done|]. split_and!.
    + split_and!; simpl; [exact Hh|apply carved_apart; [lia|done|by apply cuts_ok]|congruence|].
      etrans; [apply length_filter|]. unfold carved. by rewrite length_imap.
    + destruct (apart_bounds 0 segs i2 e2) as (?&?&?); [lia|done..|].
      pose proof (load_nonneg [Some i0; Some i1] [s0; s1] i2 ltac:(by repeat constructor)). lia.
    + by apply granted_ok.
    + done.
  - right. split; [|intros Hu; rewrite Hu in Hpp; simpl in Hpp; lia]. rewrite Im. pose proof (malloc3_restore_ok segs rest sizes (madd s) 3) as Hr.
    cbn [Nat.sub] in Hr. rewrite !drop_0 in Hr. rewrite Hr; [|done|done|done|done| |done|lia].
    + cbn [mbind outcome_bind]. unfold set_m_map. rewrite <- Em. by destruct mp.
    + intros k i Hk. by apply (Is k i).
Qed.

(** ** Properties *)

(** C26. [malloc] on a well-formed map returns the base of a range of [size]
    free units taken from the first segment that is large enough, leaves a
    well-formed map whose free units are exactly the old ones less that
    range, and returns 0 with the map unchanged exactly when every segment
    is too small; it never reads outside the array and always terminates. *)
Theorem malloc_correct mp segs size :
  wf_map mp segs → 0 < size →
  ∃ addr mp' segs', malloc mp size = Done (addr, mp') ∧ wf_map mp' segs' ∧
    ((addr = 0 ∧ segs' = segs ∧ Forall (λ e, m_size e < size) segs) ∨
     (0 < addr ∧ (∀ x, hole addr size x → units segs x) ∧
      (∀ x, units segs' x ↔ units segs x ∧ ¬ hole addr size x) ∧
      ∃ pre e suf, segs = pre ++ e :: suf ∧ m_addr e = addr ∧ size ≤ m_size e ∧
        Forall (λ e, m_size e < size) pre)).
Proof.
  intros Hwf Hs. destruct (malloc_run mp segs size Hwf Hs) as (a' & E & Hwf').
  do 3 eexists. split; [exact E|]. split; [exact Hwf'|]. destruct Hwf as (_ & Hap & _).
  destruct (first_fit segs size) as [[addr segs']|] eqn:Ef; simpl.
  - right. destruct (first_fit_Some 0 segs size addr segs') as (?&?&?&?&?); [lia|done..|].
    split_and!; try done. by eapply first_fit_where.
  - left. split_and!; try done. by eapply first_fit_None.
Qed.

(** C27. Returning a range that overlaps no free unit adds exactly that range
    to the free units and keeps the map well formed (so it is merged with
    the neighbours it touches); only a range that touches no segment can be
    dropped, and only when every slot is in use, in which case the warning
    names it and the map is unchanged. *)
Theorem mfree_correct mp segs size addr :
  wf_map mp segs → 0 < size → 0 < addr → addr + size < 2^32 →
  (∀ x, hole addr size x → ¬ units segs x) →
  (∃ mp' segs', mfree mp size addr = Done (Silent, mp') ∧ wf_map mp' segs' ∧
     m_limit mp' = m_limit mp ∧ length (m_map mp') = length (m_map mp) ∧
     (∀ x, units segs' x ↔ units segs x ∨ hole addr size x)) ∨
  (mfree mp size addr = Done (Overflow (m_name mp) size addr, mp) ∧
     length segs = m_limit mp ∧ ¬ units segs (addr - 1) ∧ ¬ units segs (addr + size)).
Proof.
  intros Hwf Hs Ha Ht Hfree.
  destruct (mfree_run mp segs size addr Hwf Hs Ha Ht Hfree)
    as [(mp' & segs' & E & ? & ? & ? & ? & ? & ?)|?]; [left|by right].
  exists mp', segs'. by split_and!.
Qed.

(** Freeing what [malloc] just handed out restores the segment list it
    started from, entry for entry, without a warning. *)
Theorem malloc_mfree_roundtrip mp segs size addr mp' :
  wf_map mp segs → 0 < size → malloc mp size = Done (addr, mp') → addr ≠ 0 →
  ∃ mp'', mfree mp' size addr = Done (Silent, mp'') ∧ wf_map mp'' segs.
Proof.
  intros Hwf Hs Hm Ha. destruct (malloc_run mp segs size Hwf Hs) as (a' & E & Hwf').
  rewrite E in Hm. injection Hm as Haddr <-. destruct Hwf as (Hh & Hap & Hl & Hroom).
  destruct (first_fit segs size) as [[addr' segs1]|] eqn:Ef; simpl in *; subst; [|done].
  destruct (first_fit_Some 0 segs size addr segs1) as (? & Hap1 & Hlen & Hin & Hout); [lia|done..|].
  assert (Hlast : addr + size < 2^32).
  { pose proof (Hin (addr + size - 1) ltac:(unfold hole; lia)) as Hu.
    apply (units_below 0) in Hu; [|done]. pose proof (apart_top_lt 0 segs ltac:(lia) Hap). lia. }
  destruct (mfree_run (set_m_map mp a') segs1 size addr)
    as [(mp'' & segs2 & E2 & El & ? & ? & Hwf2 & Hap2 & Hu)|(E2 & Hfull & Hn1 & Hn2)];
    [done|lia|lia|done|by intros x Hx [_ Hn]%Hout| |].
  - exists mp''. split; [done|]. enough (segs2 = segs) as -> by done.
    eapply (apart_canonical 0); [done..|]. intros x. rewrite Hu, Hout.
    destruct (decide (addr ≤ x < addr + size)); unfold hole in *; [|tauto].
    split; [intros _; by apply Hin|by right].
  - exfalso. simpl in Hfull. assert (Hsame : length segs1 = length segs) by lia.
    apply Hn2. rewrite Hout. unfold hole. split; [|lia].
    by eapply (first_fit_rest 0).
Qed.

(** C28. [malloc3] either hands out three pairwise disjoint ranges of the
    requested sizes, all of them free before, leaving exactly the other free
    units in a well-formed map and returning a non-zero address, or fails
    and leaves the map as it was, down to the unused slots.  It fails exactly
    when the search through the free segments, each taking of the requests
    left those that still fit it, leaves a request [unserved].  The sizes are
    not negative; requests of size 0, which [init] makes, are covered. *)
Theorem malloc3_correct mp segs s0 s1 s2 :
  wf_map mp segs → 0 ≤ s0 → 0 ≤ s1 → 0 ≤ s2 →
  (∃ a0 a1 a2 mp' segs', malloc3 mp s0 s1 s2 = Done (Some [a0; a1; a2], mp') ∧
     wf_map mp' segs' ∧ 0 < a2 ∧ granted segs segs' a0 a1 a2 s0 s1 s2 ∧ unserved segs [s0; s1; s2] = []) ∨
  (malloc3 mp s0 s1 s2 = Done (None, mp) ∧ unserved segs [s0; s1; s2] ≠ []).
Proof. apply malloc3_run. Qed.

(** The swap map as the kernel declares it (sys/pic32/machdep.c): an array of
    [SMAPSIZ] slots whose [m_limit] is [&swapent[SMAPSIZ]]. *)
Definition SMAPSIZ : nat := 10.
Definition swapent : list mapent := replicate SMAPSIZ terminator.
Definition swapmap : map := Map swapent SMAPSIZ "swapmap".

(** A history of calls on one map. *)
Inductive map_call := Malloc (size : Z) | Mfree (size addr : Z).

Fixpoint replay (mp : map) (calls : list map_call) : outcome (list Z * map) :=
  match calls with
  | [] => Done ([], mp)
  | Malloc size :: calls =>
      '(addr, mp) ← malloc mp size;
      '(addrs, mp) ← replay mp calls;
      Done (addr :: addrs, mp)
  | Mfree size addr :: calls =>
      '(_, mp) ← mfree mp size addr;
      replay mp calls
  end.

(** Boot gives 100 units at address 1; then eighteen one-unit ranges are
    allocated, and every other one of them is returned. *)
Definition swap_boot : list map_call := Mfree 100 1 :: replicate 18 (Malloc 1).
Definition swap_returns (n : nat) : list map_call :=
  (λ k, Mfree 1 (2 * Z.of_nat k + 1)) <$> seq 0 n.

(** [m_limit] is documented as the address of the last slot, and with
    such a limit [mfree] stays inside the array; the swap map's limit
    is one slot further.  From boot, a history that only returns ranges it
    was given, each of them once, fills nine slots, and the next return
    writes past the end of [swapent]. *)
Theorem swapmap_overrun :
  (∃ mp, replay swapmap (swap_boot ++ swap_returns 8) =
     Done ((λ k, Z.of_nat k + 1) <$> seq 0 18, mp)) ∧
  replay swapmap (swap_boot ++ swap_returns 9) = Wild.
Proof. split; [eexists; vm_compute; reflexivity|vm_compute; reflexivity]. Qed.

(** *** Witnesses *)
Definition sample_segs : list mapent := [MapEnt 4 10; MapEnt 8 20].
Definition sample_map : map := Map (sample_segs ++ replicate 4 terminator) 5 "sample".

Lemma sample_wf : wf_map sample_map sample_segs.
Proof.
  split; [by exists (replicate 3 terminator)|]. split; [simpl; lia|]. simpl. lia.
Defined.

Lemma malloc_correct_witness : ∃ mp', malloc sample_map 6 = Done (20, mp') ∧
  ∃ segs', wf_map mp' segs' ∧ ∀ x, units segs' x ↔ units sample_segs x ∧ ¬ hole 20 6 x.
Proof.
  destruct (malloc_correct sample_map sample_segs 6 sample_wf ltac:(lia))
    as (addr & mp' & segs' & E & Hwf & H).
  assert (Haddr : addr = 20) by (vm_compute in E; congruence). subst addr.
  exists mp'. split; [done|]. exists segs'. split; [done|].
  destruct H as [(? & _)|(_ & _ & H & _)]; [lia|exact H].
Defined.

Lemma mfree_correct_witness : ∃ mp', mfree sample_map 6 14 = Done (Silent, mp') ∧
  ∃ segs', wf_map mp' segs' ∧ ∀ x, units segs' x ↔ units sample_segs x ∨ hole 14 6 x.
Proof.
  destruct (mfree_correct sample_map sample_segs 6 14 sample_wf ltac:(lia) ltac:(lia) ltac:(lia))
    as [(mp' & segs' & E & Hwf & _ & _ & H)|(E & _)].
  - intros x Hx Hu. unfold units, sample_segs in Hu. rewrite !Exists_cons, Exists_nil in Hu.
    unfold hole in Hx. simpl in Hu. lia.
  - exists mp'. split; [done|]. by exists segs'.
  - exfalso. vm_compute in E. congruence.
Defined.

Lemma malloc_mfree_roundtrip_witness :
  ∃ mp' mp'', malloc sample_map 4 = Done (10, mp') ∧
    mfree mp' 4 10 = Done (Silent, mp'') ∧ wf_map mp'' sample_segs.
Proof.
  destruct (malloc sample_map 4) as [[addr mp']|s| |] eqn:E; try (vm_compute in E; discriminate).
  assert (addr = 10) as -> by (vm_compute in E; congruence).
  destruct (malloc_mfree_roundtrip sample_map sample_segs 4 10 mp' sample_wf ltac:(lia) E ltac:(lia))
    as (mp'' & ? & ?).
  exists mp', mp''. done.
Defined.

Lemma malloc3_correct_witness :
  (∃ mp' segs', malloc3 sample_map 5 0 4 = Done (Some [20; 10; 10], mp') ∧
    granted sample_segs segs' 20 10 10 5 0 4) ∧
  malloc3 sample_map 5 5 3 = Done (None, sample_map).
Proof.
  split.
  2:{ destruct (malloc3_correct sample_map sample_segs 5 5 3 sample_wf ltac:(lia) ltac:(lia) ltac:(lia))
        as [(a0 & a1 & a2 & mp' & segs' & _ & _ & _ & _ & H)|[E _]]; [vm_compute in H; congruence|exact E]. }
  destruct (malloc3_correct sample_map sample_segs 5 0 4 sample_wf ltac:(lia) ltac:(lia) ltac:(lia))
    as [(a0 & a1 & a2 & mp' & segs' & E & _ & _ & H & _)|[E _]]; [|vm_compute in E; congruence].
  assert (a0 = 20 ∧ a1 = 10 ∧ a2 = 10) as (-> & -> & ->) by (vm_compute in E; split_and!; congruence).
  by exists mp', segs'.
Defined.
