(* ===== verification/Descrip.v ===== *)
(** * File descriptors (sys/kernel/kern_descrip.c, sys/include/file.h)

    The descriptor table of the running process, the system file table, and
    the advisory-lock fields of the inodes (sys/kernel/sys_inode.c) that
    closing a file touches.  A [struct file *] is an index into the file
    table, [None] is NULL.  What lies behind [Fops] (inode and pipe
    drivers) is the interface [FileOps] over an abstract world. *)
From stdpp Require Import base tactics list option strings numbers.
From S2P Require Import Prelude.
Open Scope Z_scope.

(** ** Constants *)
Definition NOFILE : Z := 30.
Definition UF_EXCLOSE : Z := 1.
Definition EBADF : Z := 9.
Definition EACCES : Z := 13.
Definition ENODEV : Z := 19.
Definition EINVAL : Z := 22.
Definition ENFILE : Z := 23.
Definition EMFILE : Z := 24.
Definition ESRCH : Z := 3.
Definition EOPNOTSUPP : Z := 45.
Definition DTYPE_INODE : Z := 1.
Definition DTYPE_PIPE : Z := 3.
Definition FREAD : Z := 1.
Definition FWRITE : Z := 2.
Definition FNONBLOCK : Z := 4.
Definition FAPPEND : Z := 8.
Definition FSHLOCK : Z := 16.
Definition FEXLOCK : Z := 32.
Definition FASYNC : Z := 64.
Definition FFSYNC : Z := 128.
Definition FCNTLFLAGS : Z := Z.lor (Z.lor FAPPEND FASYNC) (Z.lor FFSYNC FNONBLOCK).
Definition FFLAGS (oflags : Z) : Z := oflags + 1.
Definition OFLAGS (fflags : Z) : Z := fflags - 1.
Definition ISHLOCK : Z := 128.
Definition IEXLOCK : Z := 256.
Definition ILWAIT : Z := 512.
Definition FIONBIO : Z := 0x80046660.
Definition FIOASYNC : Z := 0x8004665f.
Definition TIOCGPGRP : Z := 0x40047477.
Definition TIOCSPGRP : Z := 0x80047476.

Definition F_DUPFD : Z := 0.
Definition F_GETFD : Z := 1.
Definition F_SETFD : Z := 2.
Definition F_GETFL : Z := 3.
Definition F_SETFL : Z := 4.
Definition F_GETOWN : Z := 5.
Definition F_SETOWN : Z := 6.

(** ** State *)
Record file := File {
  f_flag : Z;
  f_type : Z;
  f_count : Z;             (* reference count, u_int *)
  f_data : option nat;     (* the inode, as an index into the inode table *)
  f_offset : Z
}.

(** The descriptor part of [struct user], with the system call results. *)
Record user := User {
  u_ofile : list (option nat);   (* NOFILE slots *)
  u_pofile : list Z;             (* per-process flags of open files, char *)
  u_lastfile : Z;                (* high-water mark of u_ofile *)
  u_rval : Z;
  u_error : Z;
  u_dupfd : Z
}.

(** The advisory-lock fields of [struct inode]. *)
Record ilock := ILock {
  i_flag : Z;
  i_shlockc : Z;   (* u_short *)
  i_exlockc : Z    (* u_short *)
}.

(** What the file table needs from inodes, pipes and devices: the close and
    ioctl entries of [Fops], [pfind] reduced to the process group it is used
    for, and the wakeup of lock waiters.  [ioctl] gives the error and the
    value left in the caller's data word. *)
Class FileOps (W : Type) := {
  fo_close : file → W → Z * W;
  fo_ioctl : file → Z → Z → W → Z * Z * W;
  pgrp_of_pid : Z → W → option Z;
  wakeup_shlockc : nat → W → W
}.

Record fstate (W : Type) := FState {
  s_u : user;
  s_file : list file;         (* NFILE slots *)
  s_lastf : option nat;       (* [lastf] *)
  s_inode : list ilock;
  s_world : W
}.
Arguments FState {W} _ _ _ _ _.
Arguments s_u {W} _.
Arguments s_file {W} _.
Arguments s_lastf {W} _.
Arguments s_inode {W} _.
Arguments s_world {W} _.

Section Descrip.
Context {W : Type} `{FileOps W}.
Notation M := (K (fstate W)).

Definition set_u (f : user → user) (s : fstate W) : fstate W :=
  FState (f (s_u s)) (s_file s) (s_lastf s) (s_inode s) (s_world s).
Definition set_file (l : list file) (s : fstate W) : fstate W :=
  FState (s_u s) l (s_lastf s) (s_inode s) (s_world s).
Definition set_lastf (l : option nat) (s : fstate W) : fstate W :=
  FState (s_u s) (s_file s) l (s_inode s) (s_world s).
Definition set_inode (l : list ilock) (s : fstate W) : fstate W :=
  FState (s_u s) (s_file s) (s_lastf s) l (s_world s).
Definition set_world (w : W) (s : fstate W) : fstate W :=
  FState (s_u s) (s_file s) (s_lastf s) (s_inode s) w.

Definition with_ofile (l : list (option nat)) (u : user) : user :=
  User l (u_pofile u) (u_lastfile u) (u_rval u) (u_error u) (u_dupfd u).
Definition with_pofile (l : list Z) (u : user) : user :=
  User (u_ofile u) l (u_lastfile u) (u_rval u) (u_error u) (u_dupfd u).
Definition with_lastfile (i : Z) (u : user) : user :=
  User (u_ofile u) (u_pofile u) i (u_rval u) (u_error u) (u_dupfd u).
Definition with_rval (v : Z) (u : user) : user :=
  User (u_ofile u) (u_pofile u) (u_lastfile u) v (u_error u) (u_dupfd u).
Definition with_error (e : Z) (u : user) : user :=
  User (u_ofile u) (u_pofile u) (u_lastfile u) (u_rval u) e (u_dupfd u).
Definition with_dupfd (d : Z) (u : user) : user :=
  User (u_ofile u) (u_pofile u) (u_lastfile u) (u_rval u) (u_error u) d.

Definition error (e : Z) : M unit := modify (set_u (with_error e)).
Definition rval (v : Z) : M unit := modify (set_u (with_rval v)).

(** [u.u_ofile[i]], [u.u_ofile[i] = fp] and the same for [u_pofile]; the file
    table entry behind a pointer. *)
Definition ofile (i : Z) : M (option nat) := l ← gets (u_ofile ∘ s_u); lift (rdz l i).
Definition put_ofile (i : Z) (fp : option nat) : M unit :=
  l ← gets (u_ofile ∘ s_u); l ← lift (wrz l i fp); modify (set_u (with_ofile l)).
Definition pofile (i : Z) : M Z := l ← gets (u_pofile ∘ s_u); lift (rdz l i).
Definition put_pofile (i : Z) (c : Z) : M unit :=
  l ← gets (u_pofile ∘ s_u); l ← lift (wrz l i (s8 c)); modify (set_u (with_pofile l)).
Definition deref (fp : nat) : M file := l ← gets s_file; lift (rd l fp).
Definition put_file (fp : nat) (f : file) : M unit :=
  l ← gets s_file; l ← lift (wr l fp f); modify (set_file l).

Definition with_flag (fl : Z) (f : file) : file :=
  File fl (f_type f) (f_count f) (f_data f) (f_offset f).
Definition with_count (c : Z) (f : file) : file :=
  File (f_flag f) (f_type f) c (f_data f) (f_offset f).
Definition with_data (d : option nat) (f : file) : file :=
  File (f_flag f) (f_type f) (f_count f) d (f_offset f).

(** ** Operations *)

Fixpoint ufalloc_from (n : nat) (i : Z) : M Z :=
  match n with
  | O => error EMFILE;; mret (-1)
  | S n =>
      slot ← ofile i;
      match slot with
      | None =>
          rval i;;
          put_pofile i 0;;
          last ← gets (u_lastfile ∘ s_u);
          (if last <? i then modify (set_u (with_lastfile i)) else mret tt);;
          mret i
      | Some _ => ufalloc_from n (i + 1)
      end
  end.

Definition ufalloc (i : Z) : M Z := ufalloc_from (Z.to_nat (NOFILE - i)) i.

Definition getdtablesize : M unit := rval NOFILE.

Definition dupit (fd : Z) (fp : nat) (flags : Z) : M unit :=
  put_ofile fd (Some fp);;
  put_pofile fd flags;;
  f ← deref fp;
  put_file fp (with_count (u32 (f_count f + 1)) f);;
  last ← gets (u_lastfile ∘ s_u);
  if last <? fd then modify (set_u (with_lastfile fd)) else mret tt.

(** [(unsigned)f >= NOFILE || (fp = u.u_ofile[f]) == NULL] *)
Definition getf (f : Z) : M (option nat) :=
  if NOFILE <=? u32 f then error EBADF;; mret None
  else
    fp ← ofile f;
    match fp with
    | None => error EBADF;; mret None
    | Some fp => mret (Some fp)
    end.

(** The two halves of [ino_unlock]; [flags] is [ip->i_flag] on entry. *)
Definition unlock_shared (fp ip : nat) (flags : Z) : M unit :=
  il ← gets s_inode;
  i ← lift (rd il ip);
  let c := u16 (i_shlockc i - 1) in
  il ← lift (wr il ip (ILock (if c =? 0 then bic (i_flag i) ISHLOCK else i_flag i) c (i_exlockc i)));
  modify (set_inode il);;
  (if (c =? 0) && has flags ILWAIT
   then modify (λ s, set_world (wakeup_shlockc ip (s_world s)) s) else mret tt);;
  f ← deref fp;
  put_file fp (with_flag (bic (f_flag f) FSHLOCK) f).

Definition unlock_exclusive (fp ip : nat) (flags : Z) : M unit :=
  il ← gets s_inode;
  i ← lift (rd il ip);
  let c := u16 (i_exlockc i - 1) in
  il ← lift (wr il ip (ILock (if c =? 0 then bic (i_flag i) (Z.lor IEXLOCK ILWAIT) else i_flag i)
                             (i_shlockc i) c));
  modify (set_inode il);;
  (if (c =? 0) && has flags ILWAIT
   then modify (λ s, set_world (wakeup_shlockc ip (s_world s)) s) else mret tt);;
  f ← deref fp;
  put_file fp (with_flag (bic (f_flag f) FEXLOCK) f).

Definition ino_unlock (fp : nat) (kind : Z) : M unit :=
  f ← deref fp;
  let kind := Z.land kind (f_flag f) in
  match f_data f with
  | None => mret tt
  | Some ip =>
      if kind =? 0 then mret tt
      else
        il ← gets s_inode;
        i ← lift (rd il ip);
        (if has kind FSHLOCK then unlock_shared fp ip (i_flag i) else mret tt);;
        (if has kind FEXLOCK then unlock_exclusive fp ip (i_flag i) else mret tt)
  end.

Definition closef (fp : option nat) : M Z :=
  match fp with
  | None => mret 0
  | Some fp =>
      f ← deref fp;
      if 1 <? f_count f then
        put_file fp (with_count (u32 (f_count f - 1)) f);;
        mret 0
      else
        (if has (f_flag f) (Z.lor FSHLOCK FEXLOCK) && (f_type f =? DTYPE_INODE)
         then ino_unlock fp (Z.lor FSHLOCK FEXLOCK) else mret tt);;
        f ← deref fp;
        (* [vn_closefile], the close routine of an inode, forgets the inode first *)
        (if f_type f =? DTYPE_INODE then put_file fp (with_data None f) else mret tt);;
        w ← gets s_world;
        let '(err, w) := fo_close f w in
        modify (set_world w);;
        f ← deref fp;
        put_file fp (with_count 0 f);;
        mret err
  end.

(** [dup2 (i, j)] with its arguments from [u.u_arg]; the [return] inside
    [GETF] is the [None] branch. *)
Definition dup2 (i j : Z) : M unit :=
  fp ← getf i;
  match fp with
  | None => mret tt
  | Some fp =>
      if (j <? 0) || (NOFILE <=? j) then error EBADF
      else
        rval j;;
        if i =? j then mret tt
        else
          old ← ofile j;
          match old with Some _ => closef old;; mret tt | None => mret tt end;;
          flags ← pofile i;
          dupit j fp (bic flags UF_EXCLOSE)
  end.

(** [dup (i)]; the second argument word is what [dup2] finds in [u.u_arg]
    when the kludge for large descriptors is taken. *)
Definition dup (i j : Z) : M unit :=
  if negb (bic i 63 =? 0) then dup2 (Z.land i 63) j
  else
    fp ← getf i;
    match fp with
    | None => mret tt
    | Some fp =>
        j ← ufalloc 0;
        if j <? 0 then mret tt
        else
          flags ← pofile i;
          dupit j fp (bic flags UF_EXCLOSE)
    end.

Definition fioctl (fp : nat) (cmd value : Z) : M (Z * Z) :=
  f ← deref fp;
  w ← gets s_world;
  let '(err, v, w) := fo_ioctl f cmd value w in
  modify (set_world w);;
  mret (err, v).

Definition fset (fp : nat) (bit value : Z) : M Z :=
  f ← deref fp;
  put_file fp (with_flag (if negb (value =? 0) then Z.lor (f_flag f) bit else bic (f_flag f) bit) f);;
  '(err, _) ← fioctl fp (if bit =? FNONBLOCK then FIONBIO else FIOASYNC) value;
  mret err.

(** The value starts as the caller's word [*valuep], here [u.u_rval]. *)
Definition fgetown (fp : nat) : M Z :=
  v ← gets (u_rval ∘ s_u);
  '(err, v) ← fioctl fp TIOCGPGRP v;
  rval (s32 (- v));;
  mret err.

Definition fsetown (fp : nat) (value : Z) : M Z :=
  if 0 <? value then
    w ← gets s_world;
    match pgrp_of_pid value w with
    | None => mret ESRCH
    | Some pgrp => '(err, _) ← fioctl fp TIOCSPGRP pgrp; mret err
    end
  else
    '(err, _) ← fioctl fp TIOCSPGRP (s32 (- value)); mret err.

Definition fcntl (fdes cmd arg : Z) : M unit :=
  fp ← getf fdes;
  match fp with
  | None => mret tt
  | Some fp =>
      if cmd =? F_DUPFD then
        if (arg <? 0) || (NOFILE <=? arg) then error EINVAL
        else
          i ← ufalloc arg;
          if i <? 0 then mret tt
          else pop ← pofile fdes; dupit i fp (bic pop UF_EXCLOSE)
      else if cmd =? F_GETFD then
        pop ← pofile fdes; rval (Z.land pop 1)
      else if cmd =? F_SETFD then
        pop ← pofile fdes; put_pofile fdes (Z.lor (bic pop 1) (Z.land arg 1))
      else if cmd =? F_GETFL then
        f ← deref fp; rval (OFLAGS (f_flag f))
      else if cmd =? F_SETFL then
        f ← deref fp;
        put_file fp (with_flag (bic (f_flag f) FCNTLFLAGS) f);;
        f ← deref fp;
        put_file fp (with_flag (Z.lor (f_flag f) (Z.land (FFLAGS arg) FCNTLFLAGS)) f);;
        f ← deref fp;
        e ← fset fp FNONBLOCK (Z.land (f_flag f) FNONBLOCK);
        error e;;
        if negb (e =? 0) then mret tt
        else
          f ← deref fp;
          e ← fset fp FASYNC (Z.land (f_flag f) FASYNC);
          error e;;
          if negb (e =? 0) then fset fp FNONBLOCK 0;; mret tt else mret tt
      else if cmd =? F_GETOWN then
        e ← fgetown fp; error e
      else if cmd =? F_SETOWN then
        e ← fsetown fp arg; error e
      else error EINVAL
  end.

(** [while (u.u_lastfile >= 0 && u.u_ofile[u.u_lastfile] == NULL) u.u_lastfile--;] *)
Fixpoint lower_lastfile (fuel : nat) : M unit :=
  match fuel with
  | O => lift Spin
  | S fuel =>
      last ← gets (u_lastfile ∘ s_u);
      if last <? 0 then mret tt
      else
        slot ← ofile last;
        match slot with
        | None => modify (set_u (with_lastfile (last - 1)));; lower_lastfile fuel
        | Some _ => mret tt
        end
  end.

Definition close (i : Z) : M unit :=
  fp ← getf i;
  match fp with
  | None => mret tt
  | Some fp =>
      put_ofile i None;;
      lower_lastfile (S (Z.to_nat NOFILE));;
      e ← closef (Some fp);
      error e
  end.

(** [for (fp = lo; fp < hi; fp++) if (fp->f_count == 0) goto slot;] over [n] entries *)
Fixpoint find_slot (n fp : nat) : M (option nat) :=
  match n with
  | O => mret None
  | S n =>
      f ← deref fp;
      if f_count f =? 0 then mret (Some fp) else find_slot n (S fp)
  end.

Definition falloc : M (option nat) :=
  i ← ufalloc 0;
  if i <? 0 then mret None
  else
    last ← gets s_lastf;
    let lo := match last with None => 0%nat | Some l => l end in
    modify (set_lastf (Some lo));;
    nfile ← gets (length ∘ s_file);
    first ← find_slot (nfile - lo) lo;
    slot ← match first with Some fp => mret (Some fp) | None => find_slot lo 0 end;
    match slot with
    | None => error ENFILE;; mret None
    | Some fp =>
        put_ofile i (Some fp);;
        f ← deref fp;
        put_file fp (File (f_flag f) (f_type f) 1 None 0);;
        modify (set_lastf (Some (S fp)));;
        mret (Some fp)
    end.

(** [minor(dev)] is [dev & 0377]. *)
Definition fdopen (dev : Z) : M Z :=
  modify (set_u (with_dupfd (Z.land dev 255)));; mret ENODEV.

Definition dupfdopen (indx dfd mode err : Z) : M Z :=
  fp ← ofile indx;
  if NOFILE <=? dfd then mret EBADF
  else
    wfp ← ofile dfd;
    match wfp with
    | None => mret EBADF
    | Some wfp =>
        if decide (fp = Some wfp) then mret EBADF
        else if err =? ENODEV then
          f ← deref wfp;
          if negb (Z.lor (Z.land mode (Z.lor FREAD FWRITE)) (f_flag f) =? f_flag f) then mret EACCES
          else
            put_ofile indx (Some wfp);;
            pop ← pofile dfd;
            put_pofile indx pop;;
            f ← deref wfp;
            put_file wfp (with_count (u32 (f_count f + 1)) f);;
            last ← gets (u_lastfile ∘ s_u);
            (if last <? indx then modify (set_u (with_lastfile indx)) else mret tt);;
            mret 0
        else mret err
    end.

(** ** The reference-count invariant

    [refs fp l] counts the descriptors of the running process that point to
    [fp].  [inv o] says that every count in the file table is that number
    plus [o fp], the references held elsewhere: by the other processes and,
    in the middle of an operation, by the operation itself. *)
Definition refs (fp : nat) (l : list (option nat)) : Z := count (λ x, bool_decide (x = Some fp)) l.

Record inv (o : nat → Z) (s : fstate W) : Prop := Inv {
  inv_no : length (u_ofile (s_u s)) = Z.to_nat NOFILE;
  inv_np : length (u_pofile (s_u s)) = Z.to_nat NOFILE;
  inv_ptr : ∀ i fp, u_ofile (s_u s) !! i = Some (Some fp) → (fp < length (s_file s))%nat;
  inv_cnt : ∀ fp f, s_file s !! fp = Some f → f_count f = refs fp (u_ofile (s_u s)) + o fp;
  inv_rng : ∀ fp f, s_file s !! fp = Some f → 0 ≤ f_count f ∧ o fp < 2^32 - 64;
  inv_dat : ∀ fp f ip, s_file s !! fp = Some f → f_data f = Some ip → (ip < length (s_inode s))%nat;
  inv_hw : -1 ≤ u_lastfile (s_u s) < NOFILE ∧
    ∀ i fp, u_ofile (s_u s) !! i = Some (Some fp) → Z.of_nat i ≤ u_lastfile (s_u s);
  inv_lastf : ∀ l, s_lastf s = Some l → (l ≤ length (s_file s))%nat
}.

(** [o] with [d] more references to the file behind [x]. *)
Definition shift (o : nat → Z) (x : option nat) (d : Z) (fp : nat) : Z :=
  o fp + (if decide (x = Some fp) then d else 0).

Lemma inv_ext o o' s : (∀ fp, o fp = o' fp) → inv o s → inv o' s.
Proof.
  intros E [H1 H2 H3 H4 H5 H6 H7 H8]. split; try done.
  - intros fp f Hf. rewrite <- E. eauto.
  - intros fp f Hf. rewrite <- E. eauto.
Qed.

Lemma refs_le fp l : 0 ≤ refs fp l ≤ Z.of_nat (length l).
Proof. apply count_range. Qed.

Lemma refs_insert fp l i x y :
  l !! i = Some y →
  refs fp (<[i := x]> l) =
    refs fp l + (if decide (x = Some fp) then 1 else 0) - (if decide (y = Some fp) then 1 else 0).
Proof.
  intros Hi. unfold refs. rewrite (count_insert _ l i x y Hi). unfold bool_decide. by repeat case_decide.
Qed.

Lemma refs_pos fp l i : l !! i = Some (Some fp) → 1 ≤ refs fp l.
Proof.
  intros Hi. pose proof (count_one (λ x, bool_decide (x = Some fp)) l i _ Hi) as E. cbv beta in E.
  by rewrite bool_decide_true in E.
Qed.

(** *** Accessors *)
Lemma wp_ofile i (Q : option nat → fstate W → Prop) s x :
  0 ≤ i → u_ofile (s_u s) !! Z.to_nat i = Some x → Q x s → wp (ofile i) Q s.
Proof.
  intros Hi E HQ. unfold ofile. wp_go. eapply wp_lift; [|done]. unfold rdz.
  rewrite (proj2 (Z.leb_le _ _)) by lia. by apply rd_Done.
Qed.

Lemma wp_pofile i (Q : Z → fstate W → Prop) s :
  0 ≤ i < NOFILE → length (u_pofile (s_u s)) = Z.to_nat NOFILE → (∀ x, Q x s) → wp (pofile i) Q s.
Proof.
  intros Hi E HQ. unfold pofile. wp_go.
  destruct (lookup_lt_is_Some_2 (u_pofile (s_u s)) (Z.to_nat i)) as [x Ex]; [lia|].
  apply (wp_lift _ x); [|done]. unfold rdz. rewrite (proj2 (Z.leb_le _ _)) by lia. by apply rd_Done.
Qed.

Lemma wp_put_ofile i fp (Q : unit → fstate W → Prop) s :
  0 ≤ i < NOFILE → length (u_ofile (s_u s)) = Z.to_nat NOFILE →
  Q tt (set_u (with_ofile (<[Z.to_nat i := fp]> (u_ofile (s_u s)))) s) → wp (put_ofile i fp) Q s.
Proof.
  intros Hi E HQ. unfold put_ofile. wp_go. eapply wp_lift; [|wp_go; exact HQ].
  unfold wrz. rewrite (proj2 (Z.leb_le _ _)) by lia. apply wr_Done. simpl. lia.
Qed.

Lemma wp_put_pofile i c (Q : unit → fstate W → Prop) s :
  0 ≤ i < NOFILE → length (u_pofile (s_u s)) = Z.to_nat NOFILE →
  Q tt (set_u (with_pofile (<[Z.to_nat i := s8 c]> (u_pofile (s_u s)))) s) → wp (put_pofile i c) Q s.
Proof.
  intros Hi E HQ. unfold put_pofile. wp_go. eapply wp_lift; [|wp_go; exact HQ].
  unfold wrz. rewrite (proj2 (Z.leb_le _ _)) by lia. apply wr_Done. simpl. lia.
Qed.

Lemma wp_deref fp f (Q : file → fstate W → Prop) s :
  s_file s !! fp = Some f → Q f s → wp (deref fp) Q s.
Proof. intros E HQ. unfold deref. wp_go. eapply wp_lift; [by apply rd_Done|done]. Qed.

Lemma wp_put_file fp f (Q : unit → fstate W → Prop) s :
  (fp < length (s_file s))%nat → Q tt (set_file (<[fp := f]> (s_file s)) s) → wp (put_file fp f) Q s.
Proof. intros E HQ. unfold put_file. wp_go. eapply wp_lift; [by apply wr_Done|done]. Qed.

(** *** How the invariant moves under the elementary updates *)

(** Rewriting a file entry: the change of its count is a change of [o]. *)
Lemma inv_put_file o s fp f f' :
  inv o s → s_file s !! fp = Some f → 0 ≤ f_count f' →
  o fp + (f_count f' - f_count f) < 2^32 - 64 →
  (∀ ip, f_data f' = Some ip → (ip < length (s_inode s))%nat) →
  inv (shift o (Some fp) (f_count f' - f_count f)) (set_file (<[fp := f']> (s_file s)) s).
Proof.
  intros [H1 H2 H3 H4 H5 H6 H7 H8] Hf Hc Ho Hd. pose proof (lookup_lt_Some _ _ _ Hf).
  split; simpl; try done; rewrite ?length_insert; try done.
  - intros fp' f1. unfold shift. destruct (decide (fp = fp')) as [<-|Hne].
    + rewrite list_lookup_insert_eq by done. intros [= <-]. rewrite decide_True by done.
      specialize (H4 _ _ Hf). lia.
    + rewrite list_lookup_insert_ne by done. rewrite decide_False by congruence. intros E.
      rewrite Z.add_0_r. eauto.
  - intros fp' f1. unfold shift. destruct (decide (fp = fp')) as [<-|Hne].
    + rewrite list_lookup_insert_eq by done. intros [= <-]. rewrite decide_True by done. lia.
    + rewrite list_lookup_insert_ne by done. rewrite decide_False by congruence. intros E.
      rewrite Z.add_0_r. eauto.
  - intros fp' f1 ip. destruct (decide (fp = fp')) as [<-|Hne].
    + rewrite list_lookup_insert_eq by done. intros [= <-]. auto.
    + rewrite list_lookup_insert_ne by done. eauto.
Qed.

(** Storing into a descriptor slot moves references between the table and [o]. *)
Lemma inv_put_ofile o s i x y last :
  inv o s → u_ofile (s_u s) !! i = Some y → (∀ fp, x = Some fp → (fp < length (s_file s))%nat) →
  (∀ fp, y = Some fp → o fp + 1 < 2^32 - 64) → u_lastfile (s_u s) ≤ last < NOFILE →
  (∀ fp, x = Some fp → Z.of_nat i ≤ last) →
  inv (shift (shift o x (-1)) y 1)
    (set_u (with_lastfile last) (set_u (with_ofile (<[i := x]> (u_ofile (s_u s)))) s)).
Proof.
  intros [H1 H2 H3 H4 H5 H6 [H7 H7'] H8] Hi Hx Hy Hl Hlx. pose proof (lookup_lt_Some _ _ _ Hi) as Hlt.
  split; simpl; rewrite ?length_insert; try done.
  - intros j fp. rewrite list_lookup_insert. case_decide; [intros [= ->]; auto|eauto].
  - intros fp f Hf. rewrite (refs_insert fp _ i x y Hi). unfold shift.
    rewrite (H4 _ _ Hf). repeat case_decide; lia.
  - intros fp f Hf. destruct (H5 _ _ Hf). split; [done|]. unfold shift.
    repeat case_decide; try lia. all: specialize (Hy fp ltac:(done)); lia.
  - split; [lia|]. intros j fp. rewrite list_lookup_insert. case_decide.
    + intros [= ->]. destruct_and?. subst. eauto.
    + intros E. specialize (H7' _ _ E). lia.
Qed.

Lemma inv_set_pofile o s l :
  inv o s → length l = Z.to_nat NOFILE → inv o (set_u (with_pofile l) s).
Proof. intros [H1 H2 H3 H4 H5 H6 H7 H8] Hl. by split. Qed.
Lemma inv_set_error o s e : inv o s → inv o (set_u (with_error e) s).
Proof. intros [H1 H2 H3 H4 H5 H6 H7 H8]. by split. Qed.
Lemma inv_set_rval o s e : inv o s → inv o (set_u (with_rval e) s).
Proof. intros [H1 H2 H3 H4 H5 H6 H7 H8]. by split. Qed.
Lemma inv_set_world o s w : inv o s → inv o (set_world w s).
Proof. intros [H1 H2 H3 H4 H5 H6 H7 H8]. by split. Qed.
Lemma inv_set_inode o s l : inv o s → length l = length (s_inode s) → inv o (set_inode l s).
Proof. intros [H1 H2 H3 H4 H5 H6 H7 H8] E. split; try done. simpl. by rewrite E. Qed.

(** *** Specifications of the operations *)

(** A change of an entry that keeps its count and data. *)
Lemma inv_put_flag o s fp f fl :
  inv o s → s_file s !! fp = Some f → inv o (set_file (<[fp := with_flag fl f]> (s_file s)) s).
Proof.
  intros Hinv Hf. destruct (inv_rng _ _ Hinv _ _ Hf).
  eapply inv_ext; [|eapply (inv_put_file o s fp f); simpl; eauto; [lia|]].
  - intros fp'. unfold shift. simpl. case_decide; lia.
  - eauto using inv_dat.
Qed.

(** What dropping a lock leaves alone: everything but the lock fields. *)
Definition unlocked (o : nat → Z) (fp : nat) (f : file) (s s' : fstate W) : Prop :=
  inv o s' ∧ s_u s' = s_u s ∧ length (s_file s') = length (s_file s) ∧
  length (s_inode s') = length (s_inode s) ∧ s_lastf s' = s_lastf s ∧
  ∃ fl, s_file s' !! fp = Some (with_flag fl f).

Lemma unlocked_refl o fp f s : inv o s → s_file s !! fp = Some f → unlocked o fp f s s.
Proof. intros. split_and!; try done. exists (f_flag f). by destruct f. Qed.

Lemma unlocked_step o fp f s s' ip i w fl :
  unlocked o fp f s s' → (ip < length (s_inode s))%nat →
  unlocked o fp f s (set_file (<[fp := with_flag fl f]> (s_file s'))
    (set_world w (set_inode (<[ip := i]> (s_inode s')) s'))).
Proof.
  intros (Hinv & Hu & Hl & Hi & Hla & fl' & Hf) Hip.
  set (s1 := set_world w (set_inode (<[ip := i]> (s_inode s')) s')).
  split_and!; simpl; rewrite ?length_insert; try done.
  - apply (inv_put_flag o s1 fp (with_flag fl' f) fl); [|done].
    apply inv_set_world, inv_set_inode; [done|]. by rewrite length_insert.
  - exists fl. apply list_lookup_insert_eq. by eapply lookup_lt_Some.
Qed.

Lemma set_world_id s : set_world (s_world s) s = s.
Proof. by destruct s. Qed.

Ltac unlock_half :=
  match goal with
  | Hun : unlocked _ ?fp _ _ ?s', Hip : (?ip < length (s_inode _))%nat |- _ =>
    let Hlen := fresh in let Hf := fresh in let i := fresh "i" in let Hi := fresh in
    pose proof Hun as (_ & _ & _ & Hlen & _ & ? & Hf);
    destruct (lookup_lt_is_Some_2 (s_inode s') ip ltac:(lia)) as [i Hi];
    wp_go; apply (wp_lift _ i); [by apply rd_Done|];
    wp_go; eapply wp_lift; [apply wr_Done; lia|];
    wp_go; case_match; wp_go; (eapply wp_deref; [exact Hf|]); cbv beta;
    (apply wp_put_file; [by eapply lookup_lt_Some|]);
    [|rewrite <- (set_world_id (set_inode _ _))]; simpl;
    exact (unlocked_step _ _ _ _ _ _ _ _ _ Hun Hip)
  end.

Lemma wp_unlock_shared o fp f s s' ip flags :
  unlocked o fp f s s' → (ip < length (s_inode s))%nat →
  wp (unlock_shared fp ip flags) (λ _, unlocked o fp f s) s'.
Proof. intros Hun Hip. unfold unlock_shared. unlock_half. Qed.

Lemma wp_unlock_exclusive o fp f s s' ip flags :
  unlocked o fp f s s' → (ip < length (s_inode s))%nat →
  wp (unlock_exclusive fp ip flags) (λ _, unlocked o fp f s) s'.
Proof. intros Hun Hip. unfold unlock_exclusive. unlock_half. Qed.

Lemma wp_ino_unlock o s fp kind f :
  inv o s → s_file s !! fp = Some f → wp (ino_unlock fp kind) (λ _, unlocked o fp f s) s.
Proof.
  intros Hinv Hf. unfold ino_unlock. apply wp_bind, (wp_deref _ f); [done|].
  pose proof (unlocked_refl _ _ _ _ Hinv Hf) as Hun.
  destruct (f_data f) as [ip|] eqn:Ed; [|by apply wp_ret].
  case_match; [by apply wp_ret|].
  pose proof (inv_dat _ _ Hinv _ _ _ Hf Ed) as Hip.
  destruct (lookup_lt_is_Some_2 (s_inode s) ip Hip) as [i Hi].
  wp_go. apply (wp_lift _ i); [by apply rd_Done|]. wp_go.
  apply (wp_mono _ (λ _, unlocked o fp f s)).
  - case_match; [by apply wp_unlock_shared|by apply wp_ret].
  - intros _ s' Hun'. case_match; [by apply wp_unlock_exclusive|by apply wp_ret].
Qed.

(** [s'] differs from [s] in no descriptor. *)
Definition same_fds (s s' : fstate W) : Prop :=
  u_ofile (s_u s') = u_ofile (s_u s) ∧ u_pofile (s_u s') = u_pofile (s_u s) ∧
  u_lastfile (s_u s') = u_lastfile (s_u s).

(** Dropping one reference.  The driver's close routine runs exactly when the
    reference was the last one. *)
Lemma wp_closef o s fp f :
  inv o s → s_file s !! fp = Some f → 1 ≤ f_count f →
  wp (closef (Some fp)) (λ e s',
    inv (shift o (Some fp) (-1)) s' ∧ s_u s' = s_u s ∧ length (s_file s') = length (s_file s) ∧
    if 1 <? f_count f
    then s_world s' = s_world s ∧ e = 0
    else ∃ fl w, fo_close (with_flag fl f) w = (e, s_world s')) s.
Proof.
  intros Hinv Hf Hc. pose proof (lookup_lt_Some _ _ _ Hf) as Hlt.
  destruct (inv_rng _ _ Hinv _ _ Hf) as [_ Ho].
  pose proof (inv_cnt _ _ Hinv _ _ Hf) as Ec.
  pose proof (refs_le fp (u_ofile (s_u s))) as Hr. rewrite (inv_no _ _ Hinv) in Hr.
  unfold closef. apply wp_bind, (wp_deref _ f); [done|]. destruct (1 <? f_count f) eqn:E1.
  - apply Z.ltb_lt in E1. wp_go. apply wp_put_file; [done|]. wp_go. split_and!; try done; [|simpl; by rewrite length_insert].
    rewrite u32_id by (unfold NOFILE in Hr; lia).
    eapply inv_ext; [|apply (inv_put_file o s fp f); simpl; try done; try lia; eauto using inv_dat].
    intros fp'. unfold shift. simpl. case_decide; lia.
  - apply Z.ltb_ge in E1. wp_go.
    eapply (wp_mono _ (λ _, unlocked o fp f s)).
    { case_match; [by apply wp_ino_unlock|]. by apply wp_ret, unlocked_refl. }
    intros _ s' (Hinv' & Hu & Hl & Hi & Hla & fl & Hf'). wp_go.
    apply (wp_deref _ _ _ _ Hf'). wp_go.
    apply (wp_mono _ (λ _ s1, inv o s1 ∧ s_u s1 = s_u s ∧ length (s_file s1) = length (s_file s) ∧ s_world s1 = s_world s' ∧
      ∃ d, s_file s1 !! fp = Some (with_data d (with_flag fl f)) ∧ ∀ ip, d = Some ip → (ip < length (s_inode s1))%nat)).
    { destruct (f_type (with_flag fl f) =? DTYPE_INODE).
      - apply wp_put_file; [lia|]. split_and!; [|done|simpl; by rewrite length_insert|done|].
        + eapply inv_ext; [|apply (inv_put_file o s' fp _ (with_data None (with_flag fl f)) Hinv' Hf'); simpl; done || lia].
          intros fp'. unfold shift. simpl. case_decide; lia.
        + exists None. split; [|done]. apply list_lookup_insert_eq. lia.
      - wp_go. split_and!; try done. exists (f_data f). split; [by destruct f|]. intros ip Hip. rewrite Hi. by eapply inv_dat. }
    intros _ s1 (Hinv1 & Hu1 & Hl1 & Hw1 & d & Hf1 & Hd1). wp_go. rewrite Hw1.
    destruct (fo_close _ _) as [e w] eqn:Ew. wp_go. eapply wp_deref; [done|]. wp_go. apply wp_put_file; [simpl; lia|]. wp_go.
    split_and!; [|done|simpl; by rewrite length_insert|by eauto].
    assert (Hs1 : inv o (set_world w s1)) by by apply inv_set_world.
    eapply inv_ext; [|eapply (inv_put_file o (set_world w s1) fp _ _ Hs1 Hf1); simpl; try done; try lia].
    intros fp'. unfold shift. simpl. case_decide; lia.
Qed.

(** The file behind descriptor [i], if there is one. *)
Definition slot (l : list (option nat)) (i : Z) : option nat :=
  if (0 <=? i) && (i <? NOFILE) then mjoin (l !! Z.to_nat i) else None.

(** The lowest free descriptor not below [i]. *)
Fixpoint lowest_free (l : list (option nat)) (i : Z) (n : nat) : option Z :=
  match n with
  | O => None
  | S n => match slot l i with None => Some i | Some _ => lowest_free l (i + 1) n end
  end.
Definition free_fd (s : fstate W) (i : Z) : option Z :=
  lowest_free (u_ofile (s_u s)) i (Z.to_nat (NOFILE - i)).

Lemma lowest_free_Some l n i j :
  lowest_free l i n = Some j →
  i ≤ j < i + Z.of_nat n ∧ slot l j = None ∧ ∀ k, i ≤ k < j → slot l k ≠ None.
Proof.
  revert i. induction n as [|n IH]; intros i; [done|]. simpl. destruct (slot l i) eqn:E.
  - intros (H1 & H2 & H3)%IH. split_and!; [lia|lia|done|]. intros k Hk.
    destruct (decide (k = i)) as [->|]; [congruence|]. apply H3. lia.
  - intros [= <-]. split_and!; [lia|lia|done|lia].
Qed.

Lemma lookup_ofile o s i :
  inv o s → 0 ≤ i < NOFILE → u_ofile (s_u s) !! Z.to_nat i = Some (slot (u_ofile (s_u s)) i).
Proof.
  intros Hinv Hi. pose proof (inv_no _ _ Hinv) as E.
  destruct (lookup_lt_is_Some_2 (u_ofile (s_u s)) (Z.to_nat i)) as [x Hx]; [rewrite E; lia|].
  unfold slot. rewrite (proj2 (Z.leb_le _ _)), (proj2 (Z.ltb_lt _ _)) by lia. simpl. by rewrite Hx.
Qed.

Lemma slot_Some l i fp : slot l i = Some fp → 0 ≤ i < NOFILE ∧ l !! Z.to_nat i = Some (Some fp).
Proof.
  unfold slot. destruct (0 <=? i) eqn:E1, (i <? NOFILE) eqn:E2; simpl; try done.
  destruct (l !! Z.to_nat i); simpl; intros; simplify_eq. split; [lia|done].
Qed.

Lemma wp_ofile_inv o s i (Q : option nat → fstate W → Prop) :
  inv o s → 0 ≤ i < NOFILE → Q (slot (u_ofile (s_u s)) i) s → wp (ofile i) Q s.
Proof. intros Hinv Hi HQ. eapply wp_ofile; [lia|by eapply lookup_ofile|done]. Qed.

Lemma inv_raise_lastfile o s last :
  inv o s → u_lastfile (s_u s) ≤ last < NOFILE → inv o (set_u (with_lastfile last) s).
Proof.
  intros [H1 H2 H3 H4 H5 H6 [H7 H7'] H8] Hl. split; try done. simpl. split; [lia|].
  intros i fp E. specialize (H7' _ _ E). lia.
Qed.

(** [if (i > u.u_lastfile) u.u_lastfile = i;] *)
Lemma wp_raise i (Q : unit → fstate W → Prop) s :
  Q tt (set_u (with_lastfile (Z.max (u_lastfile (s_u s)) i)) s) →
  wp (last ← gets (u_lastfile ∘ s_u);
      if last <? i then modify (set_u (with_lastfile i)) else mret tt) Q s.
Proof.
  intros HQ. wp_go. unfold compose. destruct (Z.ltb_spec (u_lastfile (s_u s)) i); wp_go.
  - by rewrite Z.max_r in HQ by lia.
  - rewrite Z.max_l in HQ by lia. by destruct s as [[] ? ? ? ?].
Qed.

(** What [ufalloc] leaves when it has found [j]. *)
Definition ufalloc_post (j : Z) (s : fstate W) : fstate W :=
  set_u (with_lastfile (Z.max (u_lastfile (s_u s)) j))
    (set_u (with_pofile (<[Z.to_nat j := 0]> (u_pofile (s_u s)))) (set_u (with_rval j) s)).

Lemma wp_ufalloc o s i (Q : Z → fstate W → Prop) :
  inv o s → 0 ≤ i →
  match free_fd s i with
  | None => Q (-1) (set_u (with_error EMFILE) s)
  | Some j => Q j (ufalloc_post j s)
  end → wp (ufalloc i) Q s.
Proof.
  intros Hinv. unfold ufalloc, free_fd. remember (Z.to_nat (NOFILE - i)) as n eqn:En.
  revert i En. induction n as [|n IH]; intros i En Hi HQ; simpl in *; [by wp_go|].
  assert (i < NOFILE) by lia. apply wp_bind. eapply wp_ofile_inv; [done|done|].
  destruct (slot _ i) eqn:E.
  - apply IH; [lia|lia|done].
  - unfold rval. wp_go. apply wp_put_pofile; [done|apply (inv_np _ _ Hinv)|]. wp_go. unfold compose.
    match goal with |- context [if ?b then _ else _] => destruct b eqn:Eb end; wp_go; simpl in Eb.
    + unfold ufalloc_post in HQ. by rewrite Z.max_r in HQ by lia.
    + unfold ufalloc_post in HQ. rewrite Z.max_l in HQ by lia. by destruct s as [[] ? ? ? ?].
Qed.

Lemma free_fd_Some s i j :
  free_fd s i = Some j → 0 ≤ i →
  i ≤ j < NOFILE ∧ slot (u_ofile (s_u s)) j = None ∧
  ∀ k, i ≤ k < j → slot (u_ofile (s_u s)) k ≠ None.
Proof. intros (H1 & H2 & H3)%lowest_free_Some Hi. split_and!; [lia|lia|done|done]. Qed.

Lemma inv_ufalloc o s j : inv o s → 0 ≤ j < NOFILE → inv o (ufalloc_post j s).
Proof.
  intros Hinv Hj. pose proof (inv_hw _ _ Hinv) as [Hh _]. unfold ufalloc_post.
  apply inv_raise_lastfile; [|simpl; lia]. apply inv_set_pofile; [by apply inv_set_rval|].
  rewrite length_insert. apply (inv_np _ _ Hinv).
Qed.

(** What [dupit] leaves: [fd] names the file [fp], with one more reference. *)
Definition dupit_post (fd : Z) (fp : nat) (f : file) (flags : Z) (s : fstate W) : fstate W :=
  set_file (<[fp := with_count (f_count f + 1) f]> (s_file s))
    (set_u (with_pofile (<[Z.to_nat fd := s8 flags]> (u_pofile (s_u s))))
      (set_u (with_lastfile (Z.max (u_lastfile (s_u s)) fd))
        (set_u (with_ofile (<[Z.to_nat fd := Some fp]> (u_ofile (s_u s)))) s))).

Lemma count_bound o s fp f : inv o s → s_file s !! fp = Some f → 0 ≤ f_count f < 2^32 - 1.
Proof.
  intros Hinv Hf. destruct (inv_rng _ _ Hinv _ _ Hf) as [H0 H1].
  pose proof (inv_cnt _ _ Hinv _ _ Hf). pose proof (refs_le fp (u_ofile (s_u s))) as Hr.
  rewrite (inv_no _ _ Hinv) in Hr. unfold NOFILE in Hr. lia.
Qed.

Lemma wp_dupit o s fd fp f flags (Q : unit → fstate W → Prop) :
  inv o s → 0 ≤ fd < NOFILE → s_file s !! fp = Some f →
  Q tt (dupit_post fd fp f flags s) → wp (dupit fd fp flags) Q s.
Proof.
  intros Hinv Hfd Hf HQ. pose proof (count_bound _ _ _ _ Hinv Hf).
  unfold dupit. apply wp_bind, wp_put_ofile; [done|apply (inv_no _ _ Hinv)|].
  apply wp_bind, wp_put_pofile; [done|apply (inv_np _ _ Hinv)|].
  apply wp_bind, (wp_deref _ f); [done|].
  apply wp_bind, wp_put_file; [by eapply lookup_lt_Some|]. rewrite u32_id by lia.
  by apply wp_raise.
Qed.

(** A duplicate keeps the accounting balanced: the reference it displaces is
    left to the caller. *)
Lemma inv_dupit o s fd fp f flags y :
  inv o s → 0 ≤ fd < NOFILE → s_file s !! fp = Some f → slot (u_ofile (s_u s)) fd = y →
  (∀ fp', y = Some fp' → o fp' + 1 < 2^32 - 64) →
  inv (shift o y 1) (dupit_post fd fp f flags s).
Proof.
  intros Hinv Hfd Hf Hy Ho. pose proof (inv_hw _ _ Hinv) as [Hh _].
  pose proof (lookup_lt_Some _ _ _ Hf) as Hlt.
  pose proof (count_bound _ _ _ _ Hinv Hf) as Hc. destruct (inv_rng _ _ Hinv _ _ Hf) as [_ Hof].
  pose proof (inv_put_ofile o s (Z.to_nat fd) (Some fp) y (Z.max (u_lastfile (s_u s)) fd) Hinv) as H1.
  rewrite <- Hy in H1. specialize (H1 (lookup_ofile _ _ _ Hinv Hfd)). rewrite Hy in H1.
  ospecialize* H1; [by intros ? [= <-]|done|lia|intros; lia|].
  unfold dupit_post. set (s1 := set_u (with_lastfile _) _) in *.
  pose proof (inv_set_pofile _ s1 (<[Z.to_nat fd := s8 flags]> (u_pofile (s_u s))) H1) as H2.
  ospecialize* H2; [rewrite length_insert; apply (inv_np _ _ Hinv)|].
  set (s2 := set_u (with_pofile _) s1) in *.
  eapply inv_ext; [|apply (inv_put_file _ s2 fp f (with_count (f_count f + 1) f) H2 Hf); simpl].
  - intros fp'. unfold shift. simpl. repeat case_decide; simplify_eq; lia.
  - lia.
  - unfold shift. rewrite (decide_True _ _ (eq_refl (Some fp))).
    case_decide; [pose proof (Ho fp ltac:(done))|]; lia.
  - eauto using inv_dat.
Qed.

Definition int32 (i : Z) : Prop := -2^31 ≤ i < 2^31.

Lemma wp_getf o s i (Q : option nat → fstate W → Prop) :
  inv o s → int32 i →
  match slot (u_ofile (s_u s)) i with
  | None => Q None (set_u (with_error EBADF) s)
  | Some fp => Q (Some fp) s
  end → wp (getf i) Q s.
Proof.
  intros Hinv Hi HQ. unfold int32 in Hi. unfold getf, error. destruct (Z.leb_spec NOFILE (u32 i)).
  - wp_go. unfold slot in HQ. rewrite (proj2 (andb_false_iff _ _)) in HQ; [done|].
    destruct (Z.leb_spec 0 i); [right|by left].
    rewrite u32_id in H0 by (unfold NOFILE in H0; lia). by apply Z.ltb_ge.
  - assert (0 ≤ i < NOFILE).
    { unfold NOFILE in *. unfold u32 in H0.
      destruct (decide (0 ≤ i)); [rewrite Z.mod_small in H0; lia|].
      rewrite <- (Z_mod_plus_full i 1), Z.mod_small in H0; lia. }
    wp_go. eapply wp_ofile_inv; [done|done|]. destruct (slot _ i); by wp_go.
Qed.

Lemma slot_file o s i fp :
  inv o s → slot (u_ofile (s_u s)) i = Some fp →
  ∃ f, s_file s !! fp = Some f ∧ (0 ≤ o fp → 1 ≤ f_count f).
Proof.
  intros Hinv [_ Hl]%slot_Some.
  destruct (lookup_lt_is_Some_2 (s_file s) fp) as [f Hf]; [by eapply inv_ptr|].
  exists f. split; [done|]. rewrite (inv_cnt _ _ Hinv _ _ Hf). pose proof (refs_pos _ _ _ Hl). lia.
Qed.

(** The state after the descriptor [k] has been made a duplicate of the open
    descriptor [i]: only slot [k] changes, and its close-on-exec flag is off. *)
Definition duplicated (i k : Z) (s s' : fstate W) : Prop :=
  ∃ fp, slot (u_ofile (s_u s)) i = Some fp ∧
  u_ofile (s_u s') = <[Z.to_nat k := Some fp]> (u_ofile (s_u s)) ∧
  (∃ c, u_pofile (s_u s) !! Z.to_nat i = Some c ∧
        u_pofile (s_u s') !! Z.to_nat k = Some (s8 (bic c UF_EXCLOSE))) ∧
  u_rval (s_u s') = k ∧ u_error (s_u s') = u_error (s_u s).

(** A call that fails with [e] touches no descriptor. *)
Definition failed (e : Z) (s s' : fstate W) : Prop := same_fds s s' ∧ u_error (s_u s') = e.

Lemma wp_pofile_at i (Q : Z → fstate W → Prop) s c :
  0 ≤ i → u_pofile (s_u s) !! Z.to_nat i = Some c → Q c s → wp (pofile i) Q s.
Proof.
  intros Hi E HQ. unfold pofile. wp_go. apply (wp_lift _ c); [|done]. unfold rdz.
  rewrite (proj2 (Z.leb_le _ _)) by lia. by apply rd_Done.
Qed.

Lemma inv_shift_None o s d : inv (shift o None d) s → inv o s.
Proof. apply inv_ext. intros fp. unfold shift. rewrite decide_False by done. lia. Qed.

(** Allocating the lowest free descriptor from [lo] on and making it a
    duplicate of [i]: the common part of [dup] and [fcntl (F_DUPFD)]. *)
Lemma wp_dup_from o s i lo fp :
  inv o s → 0 ≤ lo → slot (u_ofile (s_u s)) i = Some fp →
  wp (j ← ufalloc lo;
      if j <? 0 then mret tt
      else flags ← pofile i; dupit j fp (bic flags UF_EXCLOSE))
    (λ _ s', inv o s' ∧
      match free_fd s lo with
      | None => failed EMFILE s s'
      | Some k => duplicated i k s s'
      end) s.
Proof.
  intros Hinv Hlo Hs. destruct (slot_file _ _ _ _ Hinv Hs) as (f & Hf & _).
  pose proof (slot_Some _ _ _ Hs) as [Hi _].
  apply wp_bind. eapply wp_ufalloc; [done|done|].
  destruct (free_fd s lo) as [k|] eqn:Ek.
  2: { simpl. wp_go. split; [by apply inv_set_error|done]. }
  destruct (free_fd_Some _ _ _ Ek Hlo) as (Hk & Hkn & _).
  rewrite (proj2 (Z.ltb_ge _ _)) by lia.
  destruct (lookup_lt_is_Some_2 (u_pofile (s_u s)) (Z.to_nat i)) as [c Hc].
  { rewrite (inv_np _ _ Hinv). lia. }
  assert (Hne : Z.to_nat k ≠ Z.to_nat i) by (intros E; replace k with i in Hkn by lia; congruence).
  assert (Hinv' : inv o (ufalloc_post k s)) by (apply inv_ufalloc; [done|lia]).
  apply wp_bind, (wp_pofile_at _ _ _ c); [lia| |].
  { simpl. by rewrite list_lookup_insert_ne. }
  eapply wp_dupit; [done|lia|done|]. split.
  - apply (inv_shift_None o _ 1). eapply inv_dupit; try done; lia.
  - exists fp. split_and!; [done|done| |done|done]. exists c. split; [done|]. simpl.
    rewrite list_lookup_insert_eq; [done|]. rewrite length_insert, (inv_np _ _ Hinv). lia.
Qed.

(** The loop that lowers the high-water mark stops at an open descriptor or
    at -1. *)
Definition top_fd (s : fstate W) : Prop :=
  u_lastfile (s_u s) = -1 ∨ slot (u_ofile (s_u s)) (u_lastfile (s_u s)) ≠ None.

Lemma inv_lower_lastfile o s :
  inv o s → 0 ≤ u_lastfile (s_u s) → slot (u_ofile (s_u s)) (u_lastfile (s_u s)) = None →
  inv o (set_u (with_lastfile (u_lastfile (s_u s) - 1)) s).
Proof.
  intros Hinv Hl Hs. pose proof (lookup_ofile o s (u_lastfile (s_u s)) Hinv) as Hk.
  destruct Hinv as [H1 H2 H3 H4 H5 H6 [H7 H7'] H8]. specialize (Hk ltac:(lia)). rewrite Hs in Hk.
  split; try done. simpl. split; [lia|]. intros i fp E. pose proof (H7' _ _ E).
  assert (Z.of_nat i ≠ u_lastfile (s_u s)); [|lia].
  intros E'. rewrite <- E', Nat2Z.id, E in Hk. done.
Qed.

Lemma wp_lower_lastfile o fuel s :
  inv o s → u_lastfile (s_u s) + 1 < Z.of_nat fuel →
  wp (lower_lastfile fuel) (λ _ s', inv o s' ∧ top_fd s' ∧
    ∃ l, s' = set_u (with_lastfile l) s) s.
Proof.
  revert s. induction fuel as [|fuel IH]; intros s Hinv Hf.
  { pose proof (inv_hw _ _ Hinv). lia. }
  pose proof (inv_hw _ _ Hinv) as [Hb _].
  simpl. wp_go. unfold compose at 1. destruct (Z.ltb_spec (u_lastfile (s_u s)) 0) as [Hlt|Hge].
  - wp_go. split_and!; [done|left; lia|]. exists (u_lastfile (s_u s)). by destruct s as [[] ? ? ? ?].
  - wp_go. eapply wp_ofile_inv; [done|unfold compose; lia|]. simpl. destruct (slot _ _) eqn:E.
    + wp_go. split_and!; [done|right; congruence|].
      exists (u_lastfile (s_u s)). by destruct s as [[] ? ? ? ?].
    + wp_go. eapply wp_mono; [apply IH; [by apply inv_lower_lastfile|simpl; lia]|].
      intros _ s' (Hi & Ht & l & ->). split_and!; [done|done|]. exists l. by destruct s as [[] ? ? ? ?].
Qed.

Lemma inv_shift_cancel o s x d : inv (shift (shift o x d) x (- d)) s → inv o s.
Proof. apply inv_ext. intros fp. unfold shift. case_decide; lia. Qed.

Lemma with_lastfile_id s : set_u (with_lastfile (u_lastfile (s_u s))) s = s.
Proof. by destruct s as [[] ? ? ? ?]. Qed.

(** Clearing a slot hands its reference to the caller. *)
Lemma inv_clear_slot o s i fp :
  inv o s → slot (u_ofile (s_u s)) i = Some fp → o fp + 1 < 2^32 - 64 →
  inv (shift o (Some fp) 1) (set_u (with_ofile (<[Z.to_nat i := None]> (u_ofile (s_u s)))) s).
Proof.
  intros Hinv Hs Ho. destruct (slot_Some _ _ _ Hs) as [Hi Hl]. pose proof (inv_hw _ _ Hinv) as [Hh _].
  rewrite <- (with_lastfile_id (set_u (with_ofile _) s)).
  eapply inv_ext; [|eapply (inv_put_ofile o s (Z.to_nat i) None (Some fp)); try done; [|simpl; lia]].
  - intros fp'. unfold shift. simpl. repeat case_decide; simplify_eq; lia.
  - by intros ? [= <-].
Qed.

(** [fset] with the flag's own bit of the current flags changes nothing. *)
Definition fset_flag (fl bit value : Z) : Z :=
  if negb (value =? 0) then Z.lor fl bit else bic fl bit.

Lemma fset_flag_own fl k : 0 ≤ k → fset_flag fl (2^k) (Z.land fl (2^k)) = fl.
Proof.
  intros Hk. unfold fset_flag, bic. apply Z.bits_inj'. intros n Hn.
  assert (Hb : ∀ b, Z.testbit (2^k) b = (k =? b)) by (intros b; by rewrite Z.pow2_bits_eqb).
  destruct (Z.eqb_spec (Z.land fl (2^k)) 0) as [E|E]; simpl.
  - rewrite Z.land_spec, Z.lnot_spec, Hb by lia. apply (f_equal (λ z, Z.testbit z n)) in E.
    rewrite Z.land_spec, Hb, Z.bits_0 in E. by destruct (k =? n), (Z.testbit fl n).
  - rewrite Z.lor_spec, Hb. destruct (Z.eqb_spec k n) as [->|]; [|by rewrite orb_false_r].
    rewrite orb_true_r. destruct (Z.testbit fl n) eqn:Eb; [done|]. destruct E.
    apply Z.bits_inj'. intros m Hm. rewrite Z.land_spec, Hb, Z.bits_0.
    destruct (Z.eqb_spec n m) as [->|]; by rewrite ?Eb, ?andb_false_r.
Qed.

Lemma wp_fset o s fp f bit value :
  inv o s → s_file s !! fp = Some f →
  wp (fset fp bit value) (λ _ s', inv o s' ∧ s_u s' = s_u s ∧
    s_file s' !! fp = Some (with_flag (fset_flag (f_flag f) bit value) f)) s.
Proof.
  intros Hinv Hf. pose proof (lookup_lt_Some _ _ _ Hf) as Hlt. unfold fset, fioctl.
  apply wp_bind, (wp_deref _ f); [done|]. apply wp_bind, wp_put_file; [done|].
  wp_go. eapply wp_deref; [by apply list_lookup_insert_eq|]. wp_go.
  destruct (fo_ioctl _ _ _ _) as [[e v] w]. wp_go. split_and!; [|done|].
  - by apply inv_set_world, inv_put_flag.
  - by apply list_lookup_insert_eq.
Qed.

Lemma wp_fioctl o s fp f cmd v :
  inv o s → s_file s !! fp = Some f →
  wp (fioctl fp cmd v) (λ _ s', inv o s' ∧ s_u s' = s_u s) s.
Proof.
  intros Hinv Hf. unfold fioctl. apply wp_bind, (wp_deref _ f); [done|]. wp_go.
  destruct (fo_ioctl _ _ _ _) as [[e v'] w]. wp_go. split; [by apply inv_set_world|done].
Qed.

Lemma inv_set_lastf o s l : inv o s → (l ≤ length (s_file s))%nat → inv o (set_lastf (Some l) s).
Proof. intros [H1 H2 H3 H4 H5 H6 H7 H8] E. split; try done. simpl. by intros ? [= <-]. Qed.

(** Storing into a free slot below the high-water mark. *)
Lemma inv_fill_slot o s k fp :
  inv o s → slot (u_ofile (s_u s)) k = None → 0 ≤ k ≤ u_lastfile (s_u s) →
  (fp < length (s_file s))%nat →
  inv (shift o (Some fp) (-1)) (set_u (with_ofile (<[Z.to_nat k := Some fp]> (u_ofile (s_u s)))) s).
Proof.
  intros Hinv Hs Hk Hfp. pose proof (inv_hw _ _ Hinv) as [Hh _].
  rewrite <- (with_lastfile_id (set_u (with_ofile _) s)).
  pose proof (lookup_ofile o s k Hinv ltac:(lia)) as Hl. rewrite Hs in Hl.
  eapply inv_ext; [|eapply (inv_put_ofile o s (Z.to_nat k) (Some fp) None); try done; simpl; try lia].
  - intros fp'. unfold shift. simpl. repeat case_decide; simplify_eq; lia.
  - by intros ? [= <-].
Qed.

(** The scan of the file table for an entry without references. *)
Lemma wp_find_slot s n fp :
  (fp + n ≤ length (s_file s))%nat →
  wp (find_slot n fp) (λ r s', s' = s ∧
    match r with
    | Some x => (fp ≤ x < fp + n)%nat ∧ ∃ f, s_file s !! x = Some f ∧ f_count f = 0
    | None => ∀ x f, (fp ≤ x < fp + n)%nat → s_file s !! x = Some f → f_count f ≠ 0
    end) s.
Proof.
  revert fp. induction n as [|n IH]; intros fp Hn; simpl.
  { wp_go. split; [done|]. intros. lia. }
  destruct (lookup_lt_is_Some_2 (s_file s) fp) as [f Hf]; [lia|].
  apply wp_bind, (wp_deref _ f); [done|]. destruct (Z.eqb_spec (f_count f) 0) as [E|E].
  - wp_go. split; [done|]. split; [lia|]. by exists f.
  - eapply wp_mono; [apply IH; lia|]. intros r s' [-> Hr]. split; [done|]. destruct r as [x|].
    + destruct Hr as [? ?]. split; [lia|done].
    + intros x f' Hx Hf'. destruct (decide (x = fp)) as [->|]; [by simplify_eq|]. eapply Hr; [|done]. lia.
Qed.

(** ** The system calls *)
Section Calls.
Context (o : nat → Z) (others : ∀ fp, 0 ≤ o fp < 2^32 - 65).
Context (s : fstate W) (Hinv : inv o s).

(** dup hands out the lowest free descriptor as a duplicate of an open
    one, fails with EBADF or EMFILE without touching a descriptor, and keeps
    every reference count and the high-water mark right. *)
Theorem dup_correct (i j : Z) (Hi : 0 ≤ i < 64) :
  wp (dup i j) (λ _ s', inv o s' ∧
    match slot (u_ofile (s_u s)) i with
    | None => failed EBADF s s'
    | Some _ =>
        match free_fd s 0 with
        | None => failed EMFILE s s'
        | Some k => duplicated i k s s'
        end
    end) s.
Proof.
  unfold dup. replace (bic i 63 =? 0) with true.
  2: { symmetry. apply Z.eqb_eq. unfold bic. rewrite <- Z.ldiff_land.
       change 63 with (Z.ones 6). apply Z.ldiff_ones_r_low; [lia|].
       destruct (decide (i = 0)) as [->|]; [done|]. apply Z.log2_lt_pow2; lia. }
  cbn [negb]. apply wp_bind. eapply wp_getf; [done|unfold int32; lia|].
  destruct (slot _ i) as [fp|] eqn:Es.
  - eapply wp_mono; [apply (wp_dup_from o s i 0 fp); done|]. done.
  - wp_go. split; [by apply inv_set_error|done].
Qed.

(** dup2 makes exactly the descriptor asked for a duplicate, after closing
    the file it named before; it never hands out a descriptor out of range,
    and keeps the reference counts right even when source and target name
    the same file. *)
Theorem dup2_correct (i j : Z) (Hi : int32 i) :
  wp (dup2 i j) (λ _ s', inv o s' ∧
    match slot (u_ofile (s_u s)) i with
    | None => failed EBADF s s'
    | Some _ =>
        if (j <? 0) || (NOFILE <=? j) then failed EBADF s s'
        else if i =? j then same_fds s s' ∧ u_rval (s_u s') = j
        else duplicated i j s s'
    end) s.
Proof.
  unfold dup2, error, rval. apply wp_bind. eapply wp_getf; [done|done|].
  destruct (slot _ i) as [fp|] eqn:Es; [|wp_go; split; [by apply inv_set_error|done]].
  destruct (j <? 0) eqn:Ej0; [wp_go; split; [by apply inv_set_error|done]|].
  destruct (NOFILE <=? j) eqn:Ej1; [wp_go; split; [by apply inv_set_error|done]|]. simpl.
  wp_go. destruct (Z.eqb_spec i j) as [|Hne]; [wp_go; split; [by apply inv_set_rval|done]|].
  assert (Hj : 0 ≤ j < NOFILE) by lia.
  set (s1 := set_u (with_rval j) s). assert (Hinv1 : inv o s1) by by apply inv_set_rval.
  wp_go. eapply wp_ofile_inv; [done|done|]. wp_go. set (y := slot (u_ofile (s_u s1)) j).
  eapply (wp_mono _ (λ _ s2, inv (shift o y (-1)) s2 ∧ s_u s2 = s_u s1)).
  { destruct y as [old|] eqn:Ey.
    - destruct (slot_file _ _ _ _ Hinv1 Ey) as (f & Hf & Hc). apply wp_bind.
      eapply wp_mono; [eapply wp_closef; [done|done|apply Hc, others]|].
      intros e s2 (H1 & H2 & _). by wp_go.
    - wp_go. split; [|done]. eapply inv_ext; [|done]. intros. unfold shift. rewrite decide_False by done. lia. }
  intros _ s2 [Hinv2 Hu2]. assert (Es2 : slot (u_ofile (s_u s2)) i = Some fp) by (by rewrite Hu2).
  destruct (slot_file _ _ _ _ Hinv2 Es2) as (f & Hf & _). destruct (slot_Some _ _ _ Es) as [Hi' _].
  destruct (lookup_lt_is_Some_2 (u_pofile (s_u s)) (Z.to_nat i)) as [c Hc].
  { rewrite (inv_np _ _ Hinv). lia. }
  wp_go. apply (wp_pofile_at _ _ _ c); [lia|by rewrite Hu2|].
  eapply wp_dupit; [done|done|done|]. split.
  - apply (inv_shift_cancel o _ y (-1)). eapply inv_dupit; try done; [by rewrite Hu2|].
    intros fp' ->. unfold shift. rewrite decide_True by done. pose proof (others fp'). lia.
  - exists fp. simpl. rewrite Hu2. simpl. split_and!; try done. exists c. split; [done|].
    rewrite list_lookup_insert_eq; [done|]. rewrite (inv_np _ _ Hinv). lia.
Qed.

(** C33. close empties the slot, leaves the high-water mark on the highest
    open descriptor, keeps every reference count right, and runs the
    driver's close routine exactly when the last reference goes, whose
    result becomes the error of the call. *)
Theorem close_correct (i : Z) (Hi : int32 i) :
  wp (close i) (λ _ s', inv o s' ∧
    match slot (u_ofile (s_u s)) i with
    | None => failed EBADF s s'
    | Some fp =>
        u_ofile (s_u s') = <[Z.to_nat i := None]> (u_ofile (s_u s)) ∧ top_fd s' ∧
        ∃ f, s_file s !! fp = Some f ∧
          if 1 <? f_count f
          then s_world s' = s_world s ∧ u_error (s_u s') = 0
          else ∃ fl w, fo_close (with_flag fl f) w = (u_error (s_u s'), s_world s')
    end) s.
Proof.
  unfold close, error. apply wp_bind. eapply wp_getf; [done|done|].
  destruct (slot _ i) as [fp|] eqn:Es; [|wp_go; split; [by apply inv_set_error|done]].
  destruct (slot_Some _ _ _ Es) as [Hi' _]. destruct (slot_file _ _ _ _ Hinv Es) as (f & Hf & Hc).
  specialize (Hc (proj1 (others fp))). pose proof (others fp).
  apply wp_bind, wp_put_ofile; [done|apply (inv_no _ _ Hinv)|].
  pose proof (inv_clear_slot _ _ _ _ Hinv Es ltac:(lia)) as Hinv1.
  apply wp_bind. eapply wp_mono; [eapply wp_lower_lastfile; [done|]|].
  { pose proof (inv_hw _ _ Hinv) as [Hh _]. simpl. unfold NOFILE in *. lia. }
  intros _ s2 (Hinv2 & Htop & l & ->). wp_go.
  eapply wp_mono; [eapply wp_closef; [done|done|done]|].
  intros e s3 (Hinv3 & Hu3 & _ & Hw). wp_go. split_and!.
  - apply inv_set_error. by apply (inv_shift_cancel o s3 (Some fp) 1).
  - simpl. by rewrite Hu3.
  - revert Htop. unfold top_fd. simpl. by rewrite Hu3.
  - exists f. by split.
Qed.

(** What each command of fcntl does to an open descriptor [fdes] that names
    the entry [f] of the file table. *)
Definition fcntl_post (fdes cmd arg : Z) (fp : nat) (f : file) (c : Z) (s' : fstate W) : Prop :=
  if cmd =? F_DUPFD then
    if (arg <? 0) || (NOFILE <=? arg) then failed EINVAL s s'
    else match free_fd s arg with
         | None => failed EMFILE s s'
         | Some k => duplicated fdes k s s'
         end
  else if cmd =? F_GETFD then same_fds s s' ∧ u_rval (s_u s') = Z.land c 1
  else if cmd =? F_SETFD then
    u_ofile (s_u s') = u_ofile (s_u s) ∧
    u_pofile (s_u s') = <[Z.to_nat fdes := s8 (Z.lor (bic c 1) (Z.land arg 1))]> (u_pofile (s_u s))
  else if cmd =? F_GETFL then same_fds s s' ∧ u_rval (s_u s') = OFLAGS (f_flag f)
  else if cmd =? F_SETFL then
    same_fds s s' ∧
    (u_error (s_u s') = 0 →
     s_file s' !! fp = Some (with_flag (Z.lor (bic (f_flag f) FCNTLFLAGS)
                                              (Z.land (FFLAGS arg) FCNTLFLAGS)) f))
  else if (cmd =? F_GETOWN) || (cmd =? F_SETOWN) then same_fds s s'
  else failed EINVAL s s'.

Lemma wp_setfl fp f arg :
  s_file s !! fp = Some f →
  wp (f ← deref fp;
      put_file fp (with_flag (bic (f_flag f) FCNTLFLAGS) f);;
      f ← deref fp;
      put_file fp (with_flag (Z.lor (f_flag f) (Z.land (FFLAGS arg) FCNTLFLAGS)) f);;
      f ← deref fp;
      e ← fset fp FNONBLOCK (Z.land (f_flag f) FNONBLOCK);
      error e;;
      if negb (e =? 0) then mret tt
      else
        f ← deref fp;
        e ← fset fp FASYNC (Z.land (f_flag f) FASYNC);
        error e;;
        if negb (e =? 0) then fset fp FNONBLOCK 0;; mret tt else mret tt)
    (λ _ s', inv o s' ∧ same_fds s s' ∧
      (u_error (s_u s') = 0 →
       s_file s' !! fp = Some (with_flag (Z.lor (bic (f_flag f) FCNTLFLAGS)
                                                (Z.land (FFLAGS arg) FCNTLFLAGS)) f))) s.
Proof.
  intros Hf. pose proof (lookup_lt_Some _ _ _ Hf) as Hlt. unfold error.
  apply wp_bind, (wp_deref _ f); [done|]. apply wp_bind, wp_put_file; [done|].
  apply wp_bind. eapply wp_deref; [by apply list_lookup_insert_eq|].
  apply wp_bind, wp_put_file; [simpl; by rewrite length_insert|].
  simpl. rewrite list_insert_insert_eq. set (fl := Z.lor _ _).
  change (with_flag fl _) with (with_flag fl f).
  set (s1 := set_file _ _). assert (Hinv1 : inv o s1) by (by apply (inv_put_flag o s)).
  assert (Hf1 : s_file s1 !! fp = Some (with_flag fl f)) by by apply list_lookup_insert_eq.
  apply wp_bind. eapply wp_deref; [done|]. simpl. apply wp_bind.
  eapply wp_mono; [by eapply wp_fset|]. intros e s2 (Hinv2 & Hu2 & Hf2). simpl in Hf2.
  change FNONBLOCK with (2^2) in Hf2. rewrite fset_flag_own in Hf2 by lia. change (with_flag fl _) with (with_flag fl f) in Hf2.
  wp_go. destruct (Z.eqb_spec e 0) as [->|He]; simpl; wp_go.
  2: { split_and!; [by apply inv_set_error|simpl; unfold same_fds; simpl; by rewrite Hu2|done]. }
  eapply wp_deref; [done|]. wp_go.
  eapply wp_mono; [eapply wp_fset; [by apply inv_set_error|done]|]. intros e s3 (Hinv3 & Hu3 & Hf3). simpl in Hf3.
  change FASYNC with (2^6) in Hf3. rewrite fset_flag_own in Hf3 by lia. change (with_flag fl _) with (with_flag fl f) in Hf3.
  wp_go. destruct (Z.eqb_spec e 0) as [->|He]; simpl; wp_go.
  - split_and!; [by apply inv_set_error|unfold same_fds; simpl; rewrite Hu3; simpl; by rewrite Hu2|done].
  - eapply wp_mono; [eapply wp_fset; [by apply inv_set_error|done]|]. intros e' s4 (Hinv4 & Hu4 & _).
    wp_go. split_and!; [done|unfold same_fds; rewrite Hu4; simpl; rewrite Hu3; simpl; by rewrite Hu2|].
    rewrite Hu4. simpl. done.
Qed.

Lemma wp_fgetown fp f :
  s_file s !! fp = Some f → wp (e ← fgetown fp; error e) (λ _ s', inv o s' ∧ same_fds s s') s.
Proof.
  intros Hf. unfold fgetown, error, rval. wp_go. eapply wp_mono; [by eapply wp_fioctl|].
  intros [e v] s' [Hinv' Hu]. wp_go. split; [by apply inv_set_error, inv_set_rval|].
  unfold same_fds. simpl. by rewrite Hu.
Qed.

Lemma wp_fsetown fp f value :
  s_file s !! fp = Some f → wp (e ← fsetown fp value; error e) (λ _ s', inv o s' ∧ same_fds s s') s.
Proof.
  intros Hf. unfold fsetown, error.
  assert (Hio : ∀ v, wp ('(err, _) ← fioctl fp TIOCSPGRP v; mret err)
                        (λ _ s', inv o s' ∧ s_u s' = s_u s) s).
  { intros v. apply wp_bind. eapply wp_mono; [by eapply wp_fioctl|]. intros [e v'] s' ?. by wp_go. }
  apply wp_bind, (wp_mono _ (λ _ s', inv o s' ∧ s_u s' = s_u s)).
  - case_match; [|done]. wp_go. by case_match; [|wp_go].
  - intros e s' [? Hu]. wp_go. split; [by apply inv_set_error|]. unfold same_fds. simpl. by rewrite Hu.
Qed.

(** Every command of fcntl: what it does to the descriptor table and the
    file flags, which error it gives, and that it keeps the reference counts
    right.  F_SETFL that reports success has replaced exactly the settable
    flag bits. *)
Theorem fcntl_correct (fdes cmd arg : Z) (Hi : int32 fdes) :
  wp (fcntl fdes cmd arg) (λ _ s', inv o s' ∧
    match slot (u_ofile (s_u s)) fdes with
    | None => failed EBADF s s'
    | Some fp => ∃ f c, s_file s !! fp = Some f ∧ u_pofile (s_u s) !! Z.to_nat fdes = Some c ∧
                        fcntl_post fdes cmd arg fp f c s'
    end) s.
Proof.
  unfold fcntl. apply wp_bind. eapply wp_getf; [done|done|].
  destruct (slot _ fdes) as [fp|] eqn:Es; [|wp_go; split; [by apply inv_set_error|done]].
  destruct (slot_Some _ _ _ Es) as [Hi' _]. destruct (slot_file _ _ _ _ Hinv Es) as (f & Hf & _).
  destruct (lookup_lt_is_Some_2 (u_pofile (s_u s)) (Z.to_nat fdes)) as [c Hc].
  { rewrite (inv_np _ _ Hinv). lia. }
  eapply (wp_mono _ (λ _ s', inv o s' ∧ fcntl_post fdes cmd arg fp f c s')).
  2: { intros _ s' [? ?]. split; [done|]. exists f, c. done. }
  unfold fcntl_post.
  destruct (cmd =? F_DUPFD).
  { case_match; [unfold error; wp_go; split; [by apply inv_set_error|done]|].
    apply orb_false_iff in H0 as [? ?].
    by apply (wp_dup_from o s fdes arg fp Hinv ltac:(lia) Es). }
  destruct (cmd =? F_GETFD).
  { apply wp_bind, (wp_pofile_at _ _ _ c); [lia|done|]. unfold rval. wp_go.
    split; [by apply inv_set_rval|done]. }
  destruct (cmd =? F_SETFD).
  { apply wp_bind, (wp_pofile_at _ _ _ c); [lia|done|].
    apply wp_put_pofile; [done|apply (inv_np _ _ Hinv)|].
    split; [|done]. apply inv_set_pofile; [done|]. rewrite length_insert. apply (inv_np _ _ Hinv). }
  destruct (cmd =? F_GETFL).
  { apply wp_bind, (wp_deref _ f); [done|]. unfold rval. wp_go. split; [by apply inv_set_rval|done]. }
  destruct (cmd =? F_SETFL); [by apply wp_setfl|].
  destruct (cmd =? F_GETOWN); [by eapply wp_fgetown|].
  destruct (cmd =? F_SETOWN); [by eapply wp_fsetown|].
  unfold error. wp_go. split; [by apply inv_set_error|done].
Qed.

(** What [falloc] promises. *)
Definition falloc_post (r : option nat) (s' : fstate W) : Prop :=
  s_world s' = s_world s ∧ s_inode s' = s_inode s ∧
  match free_fd s 0, r with
    | None, None => failed EMFILE s s'
    | None, Some _ => False
    | Some k, Some fp =>
        (∃ f, s_file s !! fp = Some f ∧ f_count f = 0 ∧
              s_file s' = <[fp := File (f_flag f) (f_type f) 1 None 0]> (s_file s)) ∧
        u_ofile (s_u s') = <[Z.to_nat k := Some fp]> (u_ofile (s_u s)) ∧
        u_rval (s_u s') = k ∧ u_error (s_u s') = u_error (s_u s)
    | Some _, None =>
        (∀ x f, s_file s !! x = Some f → f_count f ≠ 0) ∧
        u_ofile (s_u s') = u_ofile (s_u s) ∧ u_error (s_u s') = ENFILE
    end.

Lemma wp_falloc : wp falloc (λ r s', inv o s' ∧ falloc_post r s') s.
Proof.
  unfold falloc_post, falloc, error. apply wp_bind. eapply wp_ufalloc; [done|done|].
  destruct (free_fd s 0) as [k|] eqn:Ek.
  2: { simpl. wp_go. split; [by apply inv_set_error|done]. }
  destruct (free_fd_Some _ _ _ Ek ltac:(done)) as (Hk & Hkn & _).
  rewrite (proj2 (Z.ltb_ge _ _)) by lia. wp_go. simpl.
  set (lo := match s_lastf s with None => 0%nat | Some l => l end).
  assert (Hlo : (lo ≤ length (s_file s))%nat).
  { unfold lo. destruct (s_lastf s) eqn:E; [by eapply inv_lastf|lia]. }
  set (s1 := set_lastf (Some lo) (ufalloc_post k s)).
  assert (Hinv1 : inv o s1) by (apply inv_set_lastf; [apply inv_ufalloc; [done|lia]|done]).
  unfold compose. eapply wp_mono; [apply wp_find_slot; simpl; lia|]. intros first s' [-> Hfirst]. wp_go.
  set (R := λ (r : option nat) (s' : fstate W), s' = s1 ∧ match r with
    | Some x => ∃ f, s_file s !! x = Some f ∧ f_count f = 0
    | None => ∀ x f, s_file s !! x = Some f → f_count f ≠ 0 end).
  eapply (wp_mono _ R).
  { destruct first as [fp|].
    - wp_go. split; [done|]. apply Hfirst.
    - eapply wp_mono; [apply wp_find_slot; simpl; lia|]. intros second s' [-> Hsnd]. split; [done|].
      destruct second as [fp|]; [apply Hsnd|]. intros x f Hf. pose proof (lookup_lt_Some _ _ _ Hf).
      destruct (decide (x < lo)%nat); [eapply Hsnd|eapply Hfirst]; try done; simpl; lia. }
  intros r s' [-> Hr]. destruct r as [fp|].
  2: { wp_go. split; [by apply inv_set_error|done]. }
  destruct Hr as (f & Hf & Hc). pose proof (lookup_lt_Some _ _ _ Hf) as Hlt.
  assert (Hof : o fp < 2^32 - 64) by apply (inv_rng _ _ Hinv _ _ Hf).
  apply wp_bind, wp_put_ofile; [lia|apply (inv_no _ _ Hinv1)|].
  apply wp_bind, (wp_deref _ f); [done|]. apply wp_bind, wp_put_file; [done|]. wp_go.
  split; [|by eauto 12]. apply inv_set_lastf; [|simpl; rewrite length_insert; lia].
  pose proof (inv_fill_slot o s1 k fp Hinv1 Hkn ltac:(simpl; lia) Hlt) as Hinv2.
  set (s2 := set_u (with_ofile _) s1) in *.
  eapply inv_ext; [|eapply (inv_put_file _ s2 fp f _ Hinv2 Hf); simpl; try done; try lia].
  - intros fp'. unfold shift. simpl. repeat case_decide; simplify_eq; lia.
  - unfold shift. rewrite decide_True by done. lia.
Qed.

(** falloc takes a file table entry that nobody references and names it
    by the lowest free descriptor; it fails only when the table of the
    process (EMFILE) or the file table (ENFILE) is full, whatever the
    position of the rotating search pointer. *)
Theorem falloc_correct : wp falloc (λ r s', inv o s' ∧ falloc_post r s') s.
Proof. apply wp_falloc. Qed.
End Calls.
End Descrip.

(** ** A small system, to run the operations on *)
Definition demo_ops : FileOps (list Z) := {|
  fo_close f w := (0, f_flag f :: w);
  fo_ioctl f cmd v w := (0, v, w);
  pgrp_of_pid p w := if p =? 1 then Some 1 else None;
  wakeup_shlockc ip w := w
|}.

(** Descriptors 0 and 1 name entry 0, an inode file; entry 1 is free. *)
Definition demo : fstate (list Z) :=
  FState (User ([Some 0; Some 0]%nat ++ replicate 28 None) (replicate 30 0) 1 0 0 0)
    [File 3 DTYPE_INODE 2 (Some 0%nat) 0; File 0 0 0 None 0] (Some 1%nat) [ILock 0 0 0] [].

Lemma demo_inv : inv (λ _, 0) demo.
Proof.
  assert (Hl : ∀ i fp, u_ofile (s_u demo) !! i = Some (Some fp) → (i < 2)%nat ∧ fp = 0%nat).
  { intros [|[|i]] fp; simpl; try (intros [= <-]; lia). intros E.
    by apply (lookup_replicate_1 28) in E as [? _]. }
  split; try done.
  - intros i fp E. destruct (Hl i fp E) as [_ ->]. simpl. lia.
  - intros [|[|fp]] f; simpl; try intros [= <-]; done.
  - intros [|[|fp]] f; simpl; try intros [= <-]; done.
  - intros [|[|fp]] f ip; simpl; try (intros [= <-]; simpl; intros [= <-]; lia); done.
  - split; [done|]. intros i fp E. destruct (Hl i fp E) as [Hi _]. simpl. lia.
  - simpl. intros l [= <-]. lia.
Qed.

Section Witnesses.
#[local] Existing Instance demo_ops.

Lemma dup_correct_witness : wp (dup 1 0) (λ _ s', inv (λ _, 0) s' ∧ duplicated 1 2 demo s') demo.
Proof. apply (dup_correct (λ _, 0) demo demo_inv 1 0). lia. Defined.

Lemma dup2_correct_witness : wp (dup2 0 1) (λ _ s', inv (λ _, 0) s' ∧ duplicated 0 1 demo s') demo.
Proof. apply (dup2_correct (λ _, 0) ltac:(intros; lia) demo demo_inv 0 1). unfold int32. lia. Defined.

Lemma close_correct_witness : wp (close 0) (λ _ s', inv (λ _, 0) s' ∧ u_error (s_u s') = 0) demo.
Proof.
  eapply wp_mono; [apply (close_correct (λ _, 0) ltac:(intros; lia) demo demo_inv 0); unfold int32; lia|].
  simpl. intros _ s' (H1 & _ & _ & f & [= <-] & _ & H2). by split.
Defined.

Lemma fcntl_correct_witness :
  wp (fcntl 1 F_DUPFD 5) (λ _ s', inv (λ _, 0) s' ∧ duplicated 1 5 demo s') demo.
Proof.
  eapply wp_mono; [apply (fcntl_correct (λ _, 0) demo demo_inv 1 F_DUPFD 5); unfold int32; lia|].
  simpl. intros _ s' (H1 & f & c & _ & _ & H2). by split.
Defined.

Lemma falloc_correct_witness :
  wp falloc (λ r s', inv (λ _, 0) s' ∧ falloc_post demo r s') demo.
Proof. apply (falloc_correct (λ _, 0) demo demo_inv). Defined.
End Witnesses.
