(* ===== verification/Share.v ===== *)
(** * Descriptors over fork and exit

    The loops of [newproc] (kernel/kern_fork.c) and [exit]
    (kernel/kern_exit.c) over the descriptors of the process, on the state of
    Descrip. *)
From stdpp Require Import base tactics list option numbers gmap.
From S2P Require Import Prelude Descrip.
Open Scope Z_scope.

Section Share.
Context {W : Type} `{FileOps W}.
Notation M := (K (fstate W)).
Implicit Types (s : fstate W) (o : nat → Z).

(** The child has the descriptors too: one more reference for each. *)
Definition share_fd (i : Z) : M unit :=
  fp ← ofile i;
  match fp with
  | None => mret tt
  | Some fp => f ← deref fp; put_file fp (with_count (u32 (f_count f + 1)) f)
  end.
Fixpoint share_from (fuel : nat) (i : Z) : M unit :=
  last ← gets (u_lastfile ∘ s_u);
  if i <=? last then match fuel with O => lift Spin | S fuel => share_fd i;; share_from fuel (i + 1) end
  else mret tt.
Definition share_fds : M unit := share_from (Z.to_nat NOFILE) 0.

(** [f = u.u_ofile[i]; u.u_ofile[i] = NULL; u.u_pofile[i] = 0; closef(f);] *)
Definition drop_fd (i : Z) : M unit :=
  f ← ofile i;
  put_ofile i None;;
  put_pofile i 0;;
  closef f;;
  mret tt.
Fixpoint exit_from (fuel : nat) (i : Z) : M unit :=
  last ← gets (u_lastfile ∘ s_u);
  if i <=? last then match fuel with O => lift Spin | S fuel => drop_fd i;; exit_from fuel (i + 1) end
  else mret tt.
Definition exit_fds : M unit := exit_from (Z.to_nat NOFILE) 0.

(** ** Sharing *)
Lemma refs_app fp l1 l2 : refs fp (l1 ++ l2) = refs fp l1 + refs fp l2.
Proof. unfold refs, count. rewrite list.filter_app, length_app. lia. Qed.
Lemma refs_one fp x : refs fp [x] = if decide (x = Some fp) then 1 else 0.
Proof. unfold refs, count. rewrite filter_cons. destruct (decide (x = Some fp)) as [E|E]; [rewrite decide_True|rewrite decide_False]; rewrite ?bool_decide_eq_true; done. Qed.
Lemma refs_none fp l : (∀ x, x ∈ l → x ≠ Some fp) → refs fp l = 0.
Proof.
  induction l as [|x l IH]; intros Hl; [done|]. change (x :: l) with ([x] ++ l). rewrite refs_app, IH by set_solver.
  rewrite refs_one, decide_False by (apply Hl; set_solver). done.
Qed.
(** No descriptor is above the high-water mark. *)
Lemma refs_below o s fp i : inv o s → u_lastfile (s_u s) < i → refs fp (u_ofile (s_u s)) = refs fp (take (Z.to_nat i) (u_ofile (s_u s))).
Proof.
  intros Hinv Hi. rewrite <- (take_drop (Z.to_nat i) (u_ofile (s_u s))) at 1. rewrite refs_app, (refs_none fp (drop _ _)); [lia|].
  intros x (j & Hj)%list_elem_of_lookup ->. rewrite lookup_drop in Hj. pose proof (inv_hw _ _ Hinv) as [_ Hh]. specialize (Hh _ _ Hj). lia.
Qed.

(** The others' references after [l] has been shared. *)
Definition plus_refs o (l : list (option nat)) (fp : nat) : Z := o fp + refs fp l.

Lemma wp_share_fd o s i x :
  inv o s → 0 ≤ i < NOFILE → u_ofile (s_u s) !! Z.to_nat i = Some x → (∀ fp, o fp < 2^32 - 65) →
  wp (share_fd i) (λ _ s', inv (plus_refs o [x]) s' ∧ s_u s' = s_u s ∧ s_world s' = s_world s ∧ length (s_file s') = length (s_file s)) s.
Proof.
  intros Hinv Hi Hx Ho. unfold share_fd. apply wp_bind. eapply wp_ofile; [lia|done|]. destruct x as [fp|].
  - destruct (lookup_lt_is_Some_2 (s_file s) fp) as [f Hf]; [by eapply inv_ptr|]. apply wp_bind, (wp_deref _ f); [done|].
    apply wp_put_file; [by eapply lookup_lt_Some|]. pose proof (inv_rng _ _ Hinv _ _ Hf) as [R1 R2]. pose proof (inv_cnt _ _ Hinv _ _ Hf) as Ec.
    pose proof (refs_le fp (u_ofile (s_u s))) as Hr. rewrite (inv_no _ _ Hinv) in Hr. specialize (Ho fp).
    rewrite u32_id by (unfold NOFILE in Hr; lia). split_and!; try done; [|simpl; by rewrite length_insert].
    eapply inv_ext; [|apply (inv_put_file o s fp f); simpl; try done; try lia; eauto using inv_dat].
    intros fp'. unfold shift, plus_refs. rewrite refs_one. simpl. case_decide; lia.
  - apply wp_ret. split_and!; try done. eapply inv_ext; [|done]. intros fp. unfold plus_refs. rewrite refs_one, decide_False by done. lia.
Qed.

Lemma wp_share_from o s fuel : ∀ i, inv o s → 0 ≤ i → (∀ fp, o fp < 2^32 - 128) → (NOFILE - i ≤ Z.of_nat fuel) → ∀ s1,
  inv (plus_refs o (take (Z.to_nat i) (u_ofile (s_u s)))) s1 → s_u s1 = s_u s → s_world s1 = s_world s → length (s_file s1) = length (s_file s) →
  wp (share_from fuel i) (λ _ s', inv (plus_refs o (u_ofile (s_u s))) s' ∧ s_u s' = s_u s ∧ s_world s' = s_world s ∧ length (s_file s') = length (s_file s)) s1.
Proof.
  induction fuel as [|fuel IH]; intros i Hinv Hi Ho Hf s1 Hinv1 Eu Ew Ei; pose proof (inv_hw _ _ Hinv) as [[_ Hlast] _]; cbn [share_from];
    apply wp_bind, wp_gets; simpl; rewrite Eu; destruct (Z.leb_spec i (u_lastfile (s_u s))) as [Hle|Hgt]; try lia.
  1, 3: apply wp_ret; split_and!; try done; (eapply inv_ext; [|exact Hinv1]); intros fp; unfold plus_refs; by rewrite (refs_below o s fp i).
  destruct (lookup_lt_is_Some_2 (u_ofile (s_u s)) (Z.to_nat i)) as [x Hx]; [rewrite (inv_no _ _ Hinv); lia|].
  assert (HR : ∀ fp, 0 ≤ refs fp (take (Z.to_nat i) (u_ofile (s_u s))) ≤ 30).
  { intros fp. pose proof (refs_le fp (take (Z.to_nat i) (u_ofile (s_u s)))) as Hr. rewrite length_take, (inv_no _ _ Hinv) in Hr. unfold NOFILE in Hr. lia. }
  apply wp_bind. eapply wp_mono; [apply (wp_share_fd _ s1 i x Hinv1); [lia|by rewrite Eu|]|].
  { intros fp. unfold plus_refs. specialize (Ho fp). specialize (HR fp). lia. }
  intros [] s2 (Hinv2 & Eu2 & Ew2 & Ei2). apply (IH (i + 1)); [done|lia|done|lia| |congruence|congruence|congruence].
  eapply inv_ext; [|exact Hinv2]. intros fp. unfold plus_refs. replace (Z.to_nat (i + 1)) with (S (Z.to_nat i)) by lia.
  rewrite (take_S_r _ _ _ Hx), refs_app. lia.
Qed.

(** ** Closing *)
Lemma wp_drop_fd o s i x :
  inv o s → 0 ≤ i < NOFILE → u_ofile (s_u s) !! Z.to_nat i = Some x → (∀ fp, 0 ≤ o fp < 2^32 - 65) →
  wp (drop_fd i) (λ _ s', inv o s' ∧
    s_u s' = with_pofile (<[Z.to_nat i := 0]> (u_pofile (s_u s))) (with_ofile (<[Z.to_nat i := None]> (u_ofile (s_u s))) (s_u s)) ∧
    length (s_file s') = length (s_file s) ∧ ((∀ fp, x = Some fp → 1 ≤ o fp) → s_world s' = s_world s)) s.
Proof.
  intros Hinv Hi Hx Ho. unfold drop_fd. apply wp_bind. eapply wp_ofile; [lia|done|].
  apply wp_bind, wp_put_ofile; [done|apply (inv_no _ _ Hinv)|]. set (s1 := set_u _ s).
  apply wp_bind, wp_put_pofile; [done|apply (inv_np _ _ Hinv)|]. change (s8 0) with 0. set (s2 := set_u _ s1). apply wp_bind.
  assert (Hlp : ∀ o', inv o' s1 → inv o' s2) by (intros o' Hinv'; apply inv_set_pofile; [done|]; rewrite length_insert; apply (inv_np _ _ Hinv)).
  destruct x as [fp|].
  - assert (Hs : slot (u_ofile (s_u s)) i = Some fp).
    { unfold slot. rewrite (proj2 (Z.leb_le 0 i)), (proj2 (Z.ltb_lt i NOFILE)) by lia. simpl. by rewrite Hx. }
    destruct (Ho fp) as [O1 O2]. pose proof (Hlp _ (inv_clear_slot o s i fp Hinv Hs ltac:(lia))) as Hinv2.
    destruct (slot_file _ _ _ _ Hinv Hs) as (f & Hf & _). pose proof (inv_cnt _ _ Hinv2 fp f Hf) as Ec.
    pose proof (refs_le fp (u_ofile (s_u s2))) as Hr. unfold shift in Ec. rewrite decide_True in Ec by done.
    eapply wp_mono; [eapply wp_closef; [exact Hinv2|exact Hf|lia]|]. intros e s3 (Hinv3 & Eu3 & El3 & Hw). apply wp_ret. split_and!.
    + by apply (inv_shift_cancel o s3 (Some fp) 1).
    + by rewrite Eu3.
    + done.
    + intros Hone. specialize (Hone fp eq_refl). rewrite (proj2 (Z.ltb_lt 1 (f_count f))) in Hw by lia. apply Hw.
  - simpl. apply wp_ret, wp_ret. split_and!; [|done|done|done]. apply Hlp. unfold s1. rewrite list_insert_id by done. by destruct s as [[] ? ? ? ?].
Qed.

(** [s1] is [s] with the descriptors below [i] closed. *)
Record closed_below o s (i : Z) s1 : Prop := ClosedBelow {
  cb_inv : inv o s1;
  cb_last : u_lastfile (s_u s1) = u_lastfile (s_u s);
  cb_ofile j : (j < Z.to_nat NOFILE)%nat → u_ofile (s_u s1) !! j = if decide (Z.of_nat j < i) then Some None else u_ofile (s_u s) !! j;
  cb_pofile j : (j < Z.to_nat NOFILE)%nat → u_pofile (s_u s1) !! j = if decide (Z.of_nat j < i) then Some 0 else u_pofile (s_u s) !! j;
  cb_len : length (s_file s1) = length (s_file s);
  cb_world : (∀ j fp, u_ofile (s_u s) !! j = Some (Some fp) → 1 ≤ o fp) → s_world s1 = s_world s }.

Lemma closed_step o s i s1 : closed_below o s i s1 → inv o s → (∀ fp, 0 ≤ o fp < 2^32 - 65) → 0 ≤ i < NOFILE →
  wp (drop_fd i) (λ _ s', closed_below o s (i + 1) s') s1.
Proof.
  intros [C1 C2 C3 C4 CL C5] Hinv Ho Hi. destruct (lookup_lt_is_Some_2 (u_ofile (s_u s)) (Z.to_nat i)) as [x Hx]; [rewrite (inv_no _ _ Hinv); lia|].
  assert (Hx1 : u_ofile (s_u s1) !! Z.to_nat i = Some x) by (rewrite C3, decide_False by lia; done).
  eapply wp_mono; [by apply (wp_drop_fd o s1 i x)|]. intros [] s2 (D1 & D2 & DL & D3).
  split; [done|by rewrite D2| | |by rewrite DL|].
  - intros j Hj. rewrite D2. simpl. destruct (decide (j = Z.to_nat i)) as [->|Hne].
    + rewrite list_lookup_insert_eq by (rewrite (inv_no _ _ C1); lia). by rewrite decide_True by lia.
    + rewrite list_lookup_insert_ne, C3 by done. repeat case_decide; try done; lia.
  - intros j Hj. rewrite D2. simpl. destruct (decide (j = Z.to_nat i)) as [->|Hne].
    + rewrite list_lookup_insert_eq by (rewrite (inv_np _ _ C1); lia). by rewrite decide_True by lia.
    + rewrite list_lookup_insert_ne, C4 by done. repeat case_decide; try done; lia.
  - intros Hone. rewrite D3; [by apply C5|]. intros fp ->. by eapply Hone.
Qed.

Lemma wp_exit_from o s fuel : ∀ i s1, closed_below o s i s1 → inv o s → (∀ fp, 0 ≤ o fp < 2^32 - 65) → 0 ≤ i → NOFILE - i ≤ Z.of_nat fuel →
  wp (exit_from fuel i) (λ _ s', ∃ j, u_lastfile (s_u s) < j ∧ closed_below o s j s') s1.
Proof.
  induction fuel as [|fuel IH]; intros i s1 HC Hinv Ho Hi Hf; pose proof (inv_hw _ _ Hinv) as [[_ Hlast] _]; cbn [exit_from];
    apply wp_bind, wp_gets; simpl; rewrite (cb_last _ _ _ _ HC); destruct (Z.leb_spec i (u_lastfile (s_u s))) as [Hle|Hgt]; try lia.
  1, 3: apply wp_ret; by exists i.
  apply wp_bind. eapply wp_mono; [apply (closed_step o s i s1); [done|done|done|lia]|]. intros [] s2 HC2. apply IH; [done|done|done|lia|lia].
Qed.
Lemma wp_exit_fds o s : inv o s → (∀ fp, 0 ≤ o fp < 2^32 - 65) →
  wp exit_fds (λ _ s', inv o s' ∧ (∀ j x, u_ofile (s_u s') !! j = Some x → x = None) ∧
    (∀ j, Z.of_nat j ≤ u_lastfile (s_u s) → u_pofile (s_u s') !! j = Some 0) ∧
    length (s_file s') = length (s_file s) ∧
    ((∀ j fp, u_ofile (s_u s) !! j = Some (Some fp) → 1 ≤ o fp) → s_world s' = s_world s)) s.
Proof.
  intros Hinv Ho. pose proof (inv_hw _ _ Hinv) as [[_ Hlast] Hh]. eapply wp_mono; [apply (wp_exit_from o s); [|done|done|done|done]|].
  { split; [done|done|intros j Hj; by rewrite decide_False by lia..|done|done]. }
  intros [] s' (j & Hj & [C1 C2 C3 C4 CL C5]). split_and!; [done| | |done|done].
  - intros k x Hk. pose proof (lookup_lt_Some _ _ _ Hk) as Hlt. rewrite (inv_no _ _ C1) in Hlt. rewrite C3 in Hk by done.
    case_decide; [by injection Hk|]. destruct x as [fp|]; [|done]. specialize (Hh _ _ Hk). lia.
  - intros k Hk. rewrite C4 by lia. by rewrite decide_True by lia.
Qed.

(** ** Theorems *)

(** exit closes every descriptor of the process: no slot names a file any
    more, the flags are cleared, and the count of every file is what the other
    processes hold; a driver's close routine runs only for files that nobody
    else holds. *)
Theorem exit_fds_correct o s : inv o s → (∀ fp, 0 ≤ o fp < 2^32 - 65) →
  wp exit_fds (λ _ s', inv o s' ∧ (∀ j x, u_ofile (s_u s') !! j = Some x → x = None) ∧
    (∀ j, Z.of_nat j ≤ u_lastfile (s_u s) → u_pofile (s_u s') !! j = Some 0) ∧
    length (s_file s') = length (s_file s) ∧
    ((∀ j fp, u_ofile (s_u s) !! j = Some (Some fp) → 1 ≤ o fp) → s_world s' = s_world s)) s.
Proof. apply wp_exit_fds. Qed.

(** C38. A child that exits gives back what fork gave it: after fork has
    counted the child's references and the child, with the descriptors it
    inherited, has closed them, every file has the count it had, and no close
    routine of a driver has run. *)
Theorem fork_exit_files o s : inv o s → (∀ fp, 0 ≤ o fp < 2^32 - 128) →
  wp (share_fds;; exit_fds) (λ _ s', s_world s' = s_world s ∧
    ∀ fp f, s_file s !! fp = Some f → ∃ f', s_file s' !! fp = Some f' ∧ f_count f' = f_count f) s.
Proof.
  intros Hinv Ho. assert (HR : ∀ fp, 0 ≤ refs fp (u_ofile (s_u s)) ≤ 30).
  { intros fp. pose proof (refs_le fp (u_ofile (s_u s))) as Hr. by rewrite (inv_no _ _ Hinv) in Hr. }
  apply wp_bind. eapply wp_mono; [apply (wp_share_from o s _ 0 Hinv); [done|intros fp; apply Ho|done| |done|done|done]|].
  { eapply inv_ext; [|exact Hinv]. intros fp. unfold plus_refs. rewrite take_0. change (refs fp []) with 0. lia. }
  intros [] s1 (Hinv1 & Eu1 & Ew1 & El1).
  eapply wp_mono; [apply (wp_exit_fds _ s1 Hinv1)|].
  { intros fp. unfold plus_refs. specialize (Ho fp). specialize (HR fp). lia. }
  intros [] s2 (Hinv2 & Hnone & _ & El2 & Hw). split.
  - rewrite <- Ew1. apply Hw. rewrite Eu1. intros j fp Hj. unfold plus_refs. pose proof (refs_pos _ _ _ Hj). specialize (Ho fp). lia.
  - intros fp f Hf. destruct (lookup_lt_is_Some_2 (s_file s2) fp) as [f' Hf']; [rewrite El2, El1; by eapply lookup_lt_Some|].
    exists f'. split; [done|]. rewrite (inv_cnt _ _ Hinv2 _ _ Hf'), (inv_cnt _ _ Hinv _ _ Hf). unfold plus_refs.
    rewrite (refs_none fp (u_ofile (s_u s2))); [lia|]. intros x (j & Hj)%list_elem_of_lookup. by rewrite (Hnone j x Hj).
Qed.
End Share.

(** ** Examples *)
Section Witnesses.
#[local] Existing Instance demo_ops.
Lemma exit_fds_correct_witness :
  wp exit_fds (λ _ s', inv (λ _, 0) s' ∧ ∀ j x, u_ofile (s_u s') !! j = Some x → x = None) demo.
Proof.
  eapply wp_mono; [apply (exit_fds_correct (λ _, 0) demo demo_inv); intros; lia|]. intros [] s' (H1 & H2 & _). by split.
Defined.
Lemma fork_exit_files_witness :
  wp (share_fds;; exit_fds) (λ _ s', s_world s' = [] ∧ f_count <$> s_file s' !! 0%nat = Some 2) demo.
Proof.
  pose proof (fork_exit_files (λ _, 0) demo demo_inv ltac:(intros; lia)) as HW. eapply wp_mono; [exact HW|]. intros [] s' (H1 & H2). split; [done|].
  destruct (H2 0%nat _ eq_refl) as (f' & -> & E). simpl. by rewrite E.
Defined.
End Witnesses.
