(* ===== verification/Flock.v ===== *)
(** * Advisory locks and open (sys/kernel/sys_inode.c, kern_descrip.c, ufs_syscalls.c)

    [ino_lock], the system calls [flock] and [open] (with [copen]) over the
    state of Descrip.  Sleeping is the operation [tsleep] of a section: the
    other processes run there, so nothing is known of the locks afterwards
    but that the invariant holds.  The path lookup of [vn_open] is the
    interface [VnOpen]. *)
From stdpp Require Import base tactics list option strings numbers.
From S2P Require Import Prelude Descrip.
Open Scope Z_scope.

Definition LOCK_SH : Z := 1.
Definition LOCK_EX : Z := 2.
Definition LOCK_NB : Z := 4.
Definition LOCK_UN : Z := 8.
Definition PLOCK : Z := 35.
Definition PCATCH : Z := 256.
Definition EWOULDBLOCK : Z := 35.
Definition ENXIO : Z := 6.
Definition O_SHLOCK : Z := 16.
Definition O_EXLOCK : Z := 32.
Definition FMASK : Z :=
  Z.lor (Z.lor (Z.lor FREAD FWRITE) (Z.lor FAPPEND FASYNC)) (Z.lor FFSYNC FNONBLOCK).

(** What [vn_open] reports: the inode, an error, or that the file was the
    descriptor device, whose open routine [fdopen] then ran. *)
Inductive vn_result :=
| VnInode (ip : nat)
| VnError (e : Z)
| VnFdopen (dev : Z).

Class VnOpen (W : Type) := vn_open : Z → Z → W → vn_result * W.

Section Flock.
Context {W : Type} `{FileOps W} `{VnOpen W}.
Notation M := (K (fstate W)).

(** [tsleep] on the lock count of an inode, with a priority: the error. *)
Context (tsleep : nat → Z → M Z).

Definition inode (ip : nat) : M ilock := l ← gets s_inode; lift (rd l ip).
Definition put_inode (ip : nat) (i : ilock) : M unit :=
  l ← gets s_inode; l ← lift (wr l ip i); modify (set_inode l).

(** [ip->i_flag |= ILWAIT; error = tsleep(...)] *)
Definition lock_wait (ip : nat) (pri : Z) : M Z :=
  i ← inode ip;
  put_inode ip (ILock (Z.lor (i_flag i) ILWAIT) (i_shlockc i) (i_exlockc i));;
  tsleep ip pri.

(** The end of [ino_lock], where the lock is granted. *)
Definition lock_grant (fp ip : nat) (cmd : Z) : M unit :=
  (if has cmd LOCK_EX then
     i ← inode ip;
     put_inode ip (ILock (Z.lor (i_flag i) IEXLOCK) (i_shlockc i) (u16 (i_exlockc i + 1)));;
     f ← deref fp;
     put_file fp (with_flag (Z.lor (f_flag f) FEXLOCK) f)
   else mret tt);;
  let cmd := if has cmd LOCK_EX then bic cmd LOCK_SH else cmd in
  f ← deref fp;
  if has cmd LOCK_SH && negb (has (f_flag f) FSHLOCK) then
    i ← inode ip;
    put_inode ip (ILock (Z.lor (i_flag i) ISHLOCK) (u16 (i_shlockc i + 1)) (i_exlockc i));;
    put_file fp (with_flag (Z.lor (f_flag f) FSHLOCK) f)
  else mret tt.

(** The loop of [ino_lock]: [continue] of the inner loop and [goto again]
    both come back to the test of [IEXLOCK].  [fuel] bounds the number of
    times that test is made. *)
Fixpoint ino_lock_again (fuel : nat) (fp ip : nat) (cmd priority : Z) : M Z :=
  match fuel with
  | O => lift Spin
  | S fuel =>
      f ← deref fp;
      i ← inode ip;
      if has (i_flag i) IEXLOCK then
        if has (f_flag f) FEXLOCK then
          ino_unlock fp FEXLOCK;; ino_lock_again fuel fp ip cmd priority
        else if has cmd LOCK_NB then mret EWOULDBLOCK
        else
          e ← lock_wait ip (Z.lor priority PCATCH);
          if negb (e =? 0) then mret e else ino_lock_again fuel fp ip cmd priority
      else if has cmd LOCK_EX && has (i_flag i) ISHLOCK then
        if has (f_flag f) FSHLOCK then
          ino_unlock fp FSHLOCK;; ino_lock_again fuel fp ip cmd priority
        else if has cmd LOCK_NB then mret EWOULDBLOCK
        else
          e ← lock_wait ip (Z.lor PLOCK PCATCH);
          if negb (e =? 0) then mret e else ino_lock_again fuel fp ip cmd priority
      else
        lock_grant fp ip cmd;; mret 0
  end.

Definition ino_lock (fuel fp : nat) (cmd : Z) : M Z :=
  f ← deref fp;
  match f_data f with
  | None => lift Wild
  | Some ip =>
      ino_lock_again fuel fp ip cmd (if has cmd LOCK_EX then PLOCK else PLOCK + 4)
  end.

Definition flock (fuel : nat) (fd how : Z) : M unit :=
  fp ← getf fd;
  match fp with
  | None => mret tt
  | Some fp =>
      f ← deref fp;
      if negb (f_type f =? DTYPE_INODE) then error EOPNOTSUPP
      else if has how LOCK_UN then ino_unlock fp (Z.lor FSHLOCK FEXLOCK)
      else if Z.land how (Z.lor LOCK_SH LOCK_EX) =? 0 then mret tt
      else
        let how := if has how LOCK_EX then bic how LOCK_SH else how in
        if has (f_flag f) FEXLOCK && has how LOCK_EX then mret tt
        else if has (f_flag f) FSHLOCK && has how LOCK_SH then mret tt
        else e ← ino_lock fuel fp how; error e
  end.

(** [vn_open] followed by the open routine of the descriptor device, when it
    is reached: the error and the inode. *)
Definition vn_open_fd (flags cmode : Z) : M (Z + nat) :=
  w ← gets s_world;
  let '(r, w) := vn_open flags cmode w in
  modify (set_world w);;
  match r with
  | VnInode ip => mret (inr ip)
  | VnError e => mret (inl e)
  | VnFdopen dev => e ← fdopen dev; mret (inl e)
  end.

(** The part of [copen] after a failed [vn_open].  Note the assignment in its
    condition: what is stored in [error] is the truth value of
    [dupfdopen (...) == 0]. *)
Definition copen_failed (fp : nat) (indx flags err : Z) : M Z :=
  f ← deref fp;
  put_file fp (with_count 0 f);;
  dupfd ← gets (u_dupfd ∘ s_u);
  if ((err =? ENODEV) || (err =? ENXIO)) && (0 <=? dupfd) then
    r ← dupfdopen indx dupfd flags err;
    let err := Z.b2z (r =? 0) in
    if negb (err =? 0) then rval indx;; mret 0
    else put_ofile indx None;; mret err
  else put_ofile indx None;; mret err.

Definition copen (fuel : nat) (mode cmode : Z) : M Z :=
  fp ← falloc;
  match fp with
  | None => gets (u_error ∘ s_u)
  | Some fp =>
      let flags := FFLAGS mode in
      f ← deref fp;
      put_file fp (File (Z.land flags FMASK) DTYPE_INODE (f_count f) (f_data f) (f_offset f));;
      indx ← gets (u_rval ∘ s_u);
      modify (set_u (with_dupfd (- indx - 1)));;
      r ← vn_open_fd flags (Z.land cmode (bic 0x7fff 0x200));
      match r with
      | inl err => copen_failed fp indx flags err
      | inr ip =>
          modify (set_u (with_dupfd 0));;
          f ← deref fp;
          put_file fp (File (f_flag f) (f_type f) (f_count f) (Some ip) (f_offset f));;
          if has flags (Z.lor O_EXLOCK O_SHLOCK) then
            let type := if has flags O_EXLOCK then LOCK_EX else LOCK_SH in
            let type := if has flags FNONBLOCK then Z.lor type LOCK_NB else type in
            e ← ino_lock fuel fp type;
            (if negb (e =? 0) then closef (Some fp);; put_ofile indx None else mret tt);;
            mret e
          else mret 0
      end
  end.

(** [open ()]: [u.u_error = copen (...)] *)
Definition open (fuel : nat) (mode cmode : Z) : M unit :=
  e ← copen fuel mode cmode; error e.

(** ** The lock invariant *)
Definition holds (bit : Z) (ip : nat) (f : file) : bool :=
  bool_decide (f_data f = Some ip) && has (f_flag f) bit.
Definition holders (bit : Z) (ip : nat) (l : list file) : Z := count (holds bit ip) l.

(** The lock fields of an inode that [ns] files lock shared and [nx] files
    lock exclusively: the counts and the flags agree, and an exclusive lock
    is the only lock. *)
Record lock_ok (ns nx : Z) (i : ilock) : Prop := LockOk {
  ok_sh : i_shlockc i = ns;
  ok_ex : i_exlockc i = nx;
  ok_shf : has (i_flag i) ISHLOCK = (0 <? ns);
  ok_exf : has (i_flag i) IEXLOCK = (0 <? nx);
  ok_one : nx ≤ 1;
  ok_excl : 0 < nx → ns = 0
}.

Definition lock_inv (s : fstate W) : Prop :=
  Z.of_nat (length (s_file s)) < 2^16 - 1 ∧
  ∀ ip i, s_inode s !! ip = Some i →
    lock_ok (holders FSHLOCK ip (s_file s)) (holders FEXLOCK ip (s_file s)) i.

Lemma holders_range bit ip s : lock_inv s → 0 ≤ holders bit ip (s_file s) < 2^16 - 1.
Proof. intros [Hl _]. pose proof (count_range (holds bit ip) (s_file s)). unfold holders. lia. Qed.

Lemma holders_insert bit ip l fp f f' :
  l !! fp = Some f →
  holders bit ip (<[fp := f']> l) = holders bit ip l + Z.b2z (holds bit ip f') - Z.b2z (holds bit ip f).
Proof. apply count_insert. Qed.

Lemma holds_own bit ip f : f_data f = Some ip → holds bit ip f = has (f_flag f) bit.
Proof. intros E. unfold holds. by rewrite bool_decide_true. Qed.

(** Changing the flags of one file and the fields of its inode together. *)
Lemma lock_inv_update s fp f ip fl i' :
  lock_inv s → s_file s !! fp = Some f → f_data f = Some ip →
  lock_ok (holders FSHLOCK ip (s_file s) + Z.b2z (has fl FSHLOCK) - Z.b2z (has (f_flag f) FSHLOCK))
          (holders FEXLOCK ip (s_file s) + Z.b2z (has fl FEXLOCK) - Z.b2z (has (f_flag f) FEXLOCK)) i' →
  lock_inv (set_file (<[fp := with_flag fl f]> (s_file s)) (set_inode (<[ip := i']> (s_inode s)) s)).
Proof.
  intros [Hl Hinv] Hf Hd Hok. split; simpl; [by rewrite length_insert|]. intros ip1 i1.
  rewrite !(holders_insert _ _ _ _ _ _ Hf). rewrite list_lookup_insert. case_decide as Hc.
  - destruct Hc as [<- _]. intros [= <-]. by rewrite !holds_own by done.
  - intros Hi1. destruct (decide (ip = ip1)) as [->|Hne].
    { destruct Hc. split; [done|]. by eapply lookup_lt_Some. }
    unfold holds. simpl. rewrite Hd, bool_decide_false by congruence. simpl.
    rewrite !Z.add_0_r, !Z.sub_0_r. by apply Hinv.
Qed.

Lemma lock_inv_world s w : lock_inv s → lock_inv (set_world w s).
Proof. done. Qed.
Lemma lock_inv_u s g : lock_inv s → lock_inv (set_u g s).
Proof. done. Qed.

Lemma wp_inode ip i (Q : ilock → fstate W → Prop) s :
  s_inode s !! ip = Some i → Q i s → wp (inode ip) Q s.
Proof. intros E HQ. unfold inode. wp_go. eapply wp_lift; [by apply rd_Done|done]. Qed.
Lemma wp_put_inode ip i (Q : unit → fstate W → Prop) s :
  (ip < length (s_inode s))%nat → Q tt (set_inode (<[ip := i]> (s_inode s)) s) → wp (put_inode ip i) Q s.
Proof. intros E HQ. unfold put_inode. wp_go. eapply wp_lift; [by apply wr_Done|done]. Qed.

(** What an operation on the lock of [fp] leaves: the flags of [fp] are [fl],
    and nothing else of the file table has changed. *)
Definition relocked (fp : nat) (f : file) (fl : Z) (s s' : fstate W) : Prop :=
  lock_inv s' ∧ s_file s' = <[fp := with_flag fl f]> (s_file s) ∧
  length (s_inode s') = length (s_inode s) ∧ s_u s' = s_u s ∧ s_lastf s' = s_lastf s.

Lemma holder_pos bit ip (s : fstate W) fp f :
  s_file s !! fp = Some f → f_data f = Some ip → has (f_flag f) bit = true →
  1 ≤ holders bit ip (s_file s).
Proof.
  intros Hf Hd Hb. pose proof (count_one (holds bit ip) _ _ _ Hf) as E.
  rewrite holds_own, Hb in E by done. done.
Qed.

Lemma u16_id z : 0 ≤ z < 2^16 → u16 z = z.
Proof. apply Z.mod_small. Qed.

Lemma with_flag_id f : with_flag (f_flag f) f = f.
Proof. by destruct f. Qed.

Lemma relocked_refl s fp f : lock_inv s → s_file s !! fp = Some f → relocked fp f (f_flag f) s s.
Proof. intros Hl Hf. split_and!; try done. rewrite with_flag_id. by rewrite list_insert_id. Qed.

Lemma relocked_trans s s1 s2 fp f fl fl' :
  relocked fp f fl s s1 → relocked fp (with_flag fl f) fl' s1 s2 → relocked fp f fl' s s2.
Proof.
  intros (_ & F1 & L1 & U1 & A1) (I2 & F2 & L2 & U2 & A2).
  split_and!; [done| |congruence|congruence|congruence].
  rewrite F2, F1, list_insert_insert_eq. done.
Qed.

Lemma relocked_file s s' fp f fl :
  relocked fp f fl s s' → (fp < length (s_file s))%nat → s_file s' !! fp = Some (with_flag fl f).
Proof. intros (_ & -> & _) Hlt. by apply list_lookup_insert_eq. Qed.

(** Dropping the shared lock that [fp] holds. *)
Lemma wp_unlock_shared_held s fp f ip flags :
  lock_inv s → s_file s !! fp = Some f → f_data f = Some ip → (ip < length (s_inode s))%nat →
  has (f_flag f) FSHLOCK = true →
  wp (unlock_shared fp ip flags) (λ _, relocked fp f (bic (f_flag f) FSHLOCK) s) s.
Proof.
  intros Hl Hf Hd Hip Hb. destruct (lookup_lt_is_Some_2 _ _ Hip) as [i Hi].
  pose proof (holder_pos _ _ _ _ _ Hf Hd Hb) as Hpos.
  pose proof (holders_range FSHLOCK ip _ Hl) as Hr.
  destruct (proj2 Hl _ _ Hi) as [Esh Eex Fsh Fex Hone Hexcl].
  unfold unlock_shared. wp_go. apply (wp_lift _ i); [by apply rd_Done|]. wp_go.
  eapply wp_lift; [by apply wr_Done|]. wp_go. rewrite u16_id, Esh by lia.
  set (i' := ILock _ _ _). set (ns := holders FSHLOCK ip (s_file s)) in *.
  assert (Hok : lock_inv (set_file (<[fp := with_flag (bic (f_flag f) FSHLOCK) f]> (s_file s))
                            (set_inode (<[ip := i']> (s_inode s)) s))).
  { apply lock_inv_update; try done. fold ns. flag_simpl. rewrite Hb.
    split; simpl; try lia.
    - destruct (Z.eqb_spec (ns - 1) 0); flag_simpl; rewrite ?Fsh; lia.
    - destruct (Z.eqb_spec (ns - 1) 0); flag_simpl; rewrite ?Fex; f_equal; lia. }
  case_match; wp_go; (eapply wp_deref; [done|]); wp_go; (apply wp_put_file; [by eapply lookup_lt_Some|]);
    (split_and!; [exact Hok|done|simpl; by rewrite length_insert|done|done]).
Qed.

Lemma wp_unlock_exclusive_held s fp f ip flags :
  lock_inv s → s_file s !! fp = Some f → f_data f = Some ip → (ip < length (s_inode s))%nat →
  has (f_flag f) FEXLOCK = true →
  wp (unlock_exclusive fp ip flags) (λ _, relocked fp f (bic (f_flag f) FEXLOCK) s) s.
Proof.
  intros Hl Hf Hd Hip Hb. destruct (lookup_lt_is_Some_2 _ _ Hip) as [i Hi].
  pose proof (holder_pos _ _ _ _ _ Hf Hd Hb) as Hpos.
  destruct (proj2 Hl _ _ Hi) as [Esh Eex Fsh Fex Hone Hexcl].
  unfold unlock_exclusive. wp_go. apply (wp_lift _ i); [by apply rd_Done|]. wp_go.
  eapply wp_lift; [by apply wr_Done|]. wp_go. rewrite u16_id, Eex by lia.
  set (i' := ILock _ _ _). set (nx := holders FEXLOCK ip (s_file s)) in *.
  assert (Hok : lock_inv (set_file (<[fp := with_flag (bic (f_flag f) FEXLOCK) f]> (s_file s))
                            (set_inode (<[ip := i']> (s_inode s)) s))).
  { apply lock_inv_update; try done. fold nx. flag_simpl. rewrite Hb.
    split; simpl; try lia.
    - destruct (Z.eqb_spec (nx - 1) 0); flag_simpl; rewrite ?Fsh; f_equal; lia.
    - destruct (Z.eqb_spec (nx - 1) 0); flag_simpl; rewrite ?Fex; lia. }
  case_match; wp_go; (eapply wp_deref; [done|]); wp_go; (apply wp_put_file; [by eapply lookup_lt_Some|]);
    (split_and!; [exact Hok|done|simpl; by rewrite length_insert|done|done]).
Qed.

(** [ino_unlock] drops exactly the locks it is asked to drop. *)
Lemma wp_ino_unlock_held s fp f ip kind :
  lock_inv s → s_file s !! fp = Some f → f_data f = Some ip → (ip < length (s_inode s))%nat →
  wp (ino_unlock fp kind) (λ _ s', ∃ fl, relocked fp f fl s s' ∧
    has fl FSHLOCK = has (f_flag f) FSHLOCK && negb (has kind FSHLOCK) ∧
    has fl FEXLOCK = has (f_flag f) FEXLOCK && negb (has kind FEXLOCK)) s.
Proof.
  intros Hl Hf Hd Hip. destruct (lookup_lt_is_Some_2 _ _ Hip) as [i Hi].
  pose proof (lookup_lt_Some _ _ _ Hf) as Hlt.
  pose proof (relocked_refl _ _ _ Hl Hf) as Hrefl.
  unfold ino_unlock. apply wp_bind, (wp_deref _ f); [done|]. rewrite Hd.
  pose proof (has_land kind (f_flag f) 4 ltac:(done)) as Hs.
  pose proof (has_land kind (f_flag f) 5 ltac:(done)) as He.
  change (2^4) with FSHLOCK in Hs. change (2^5) with FEXLOCK in He.
  set (kd := Z.land kind (f_flag f)) in *. destruct (Z.eqb_spec kd 0) as [E0|_].
  { wp_go. exists (f_flag f). split; [done|]. rewrite E0 in Hs, He. cbn in Hs, He.
    destruct (has kind FSHLOCK), (has kind FEXLOCK); simpl in *; by rewrite <- ?Hs, <- ?He, ?andb_true_r. }
  wp_go. apply (wp_lift _ i); [by apply rd_Done|]. wp_go. rewrite Hs, He.
  set (fl1 := if has kind FSHLOCK && has (f_flag f) FSHLOCK then bic (f_flag f) FSHLOCK else f_flag f).
  assert (E1 : has fl1 FSHLOCK = has (f_flag f) FSHLOCK && negb (has kind FSHLOCK)).
  { unfold fl1. destruct (has kind FSHLOCK), (has (f_flag f) FSHLOCK) eqn:E; simpl; flag_simpl; done. }
  assert (E2 : has fl1 FEXLOCK = has (f_flag f) FEXLOCK).
  { unfold fl1. case_match; flag_simpl; done. }
  apply (wp_mono _ (λ _, relocked fp f fl1 s)).
  { unfold fl1. destruct (has kind FSHLOCK && _) eqn:E; [|by wp_go]. apply andb_true_iff in E as [_ E].
    by eapply wp_unlock_shared_held. }
  intros _ s1 H1. pose proof (relocked_file _ _ _ _ _ H1 Hlt) as Hf1.
  destruct (has kind FEXLOCK && has (f_flag f) FEXLOCK) eqn:E.
  - apply andb_true_iff in E as [Ek Ef].
    eapply wp_mono; [eapply (wp_unlock_exclusive_held _ _ _ ip); try done; simpl; try congruence|].
    + apply H1.
    + destruct H1 as (_ & _ & -> & _). done.
    + intros u2 s2 H2. exists (bic fl1 FEXLOCK). split; [by eapply relocked_trans|].
      flag_simpl. rewrite E1, Ek. simpl. by rewrite andb_false_r.
  - wp_go. exists fl1. split_and!; [done|done|]. rewrite E2.
    by destruct (has kind FEXLOCK), (has (f_flag f) FEXLOCK).
Qed.

(** Granting the lock, when nothing stands in its way. *)
Lemma wp_lock_grant s fp f ip cmd :
  lock_inv s → s_file s !! fp = Some f → f_data f = Some ip → (ip < length (s_inode s))%nat →
  has cmd LOCK_EX || has cmd LOCK_SH = true →
  holders FEXLOCK ip (s_file s) = 0 → (has cmd LOCK_EX = true → holders FSHLOCK ip (s_file s) = 0) →
  wp (lock_grant fp ip cmd) (λ _ s', s_world s' = s_world s ∧ ∃ fl, relocked fp f fl s s' ∧
    has fl FSHLOCK = negb (has cmd LOCK_EX) ∧ has fl FEXLOCK = has cmd LOCK_EX) s.
Proof.
  intros Hl Hf Hd Hip Hcmd Hx Hs. destruct (lookup_lt_is_Some_2 _ _ Hip) as [i Hi].
  pose proof (lookup_lt_Some _ _ _ Hf) as Hlt.
  assert (Efx : has (f_flag f) FEXLOCK = false).
  { destruct (has (f_flag f) FEXLOCK) eqn:E; [|done]. pose proof (holder_pos _ _ _ _ _ Hf Hd E). lia. }
  pose proof (proj2 Hl _ _ Hi) as [Esh Eex Fsh Fex Hone Hexcl].
  pose proof (holders_range FSHLOCK ip _ Hl) as Hr.
  unfold lock_grant. destruct (has cmd LOCK_EX) eqn:Ec.
  - specialize (Hs eq_refl).
    assert (Efs : has (f_flag f) FSHLOCK = false).
    { destruct (has (f_flag f) FSHLOCK) eqn:E; [|done]. pose proof (holder_pos _ _ _ _ _ Hf Hd E). lia. }
    wp_go. apply (wp_inode _ i); [done|]. wp_go. apply wp_put_inode; [done|]. wp_go.
    apply (wp_deref _ f); [done|]. wp_go. apply wp_put_file; [done|]. wp_go.
    eapply wp_deref; [by apply list_lookup_insert_eq|]. flag_simpl. wp_go.
    split; [done|]. exists (Z.lor (f_flag f) FEXLOCK). flag_simpl. split; [|done].
    split_and!; [|done|simpl; by rewrite length_insert|done|done].
    apply (lock_inv_update s fp f ip); try done. flag_simpl. rewrite Efx, Efs, Hs, Hx, Eex, Hx.
    split; simpl; try done; try (rewrite ?Esh; lia); flag_simpl; [by rewrite Fsh, Hs|done].
  - simpl in Hcmd. wp_go. apply (wp_deref _ f); [done|]. rewrite Hcmd. simpl.
    destruct (has (f_flag f) FSHLOCK) eqn:Efs; simpl.
    { wp_go. split; [done|]. exists (f_flag f). split; [by apply relocked_refl|done]. }
    wp_go. apply (wp_inode _ i); [done|]. wp_go. apply wp_put_inode; [done|]. wp_go.
    apply wp_put_file; [done|]. split; [done|]. exists (Z.lor (f_flag f) FSHLOCK). flag_simpl. split; [|done].
    split_and!; [|done|simpl; by rewrite length_insert|done|done].
    apply (lock_inv_update s fp f ip); try done. flag_simpl. rewrite Efx, Efs, Hx, Esh, u16_id by lia.
    split; simpl; try done; try (rewrite ?Eex; lia); flag_simpl; [lia|by rewrite Fex, Hx].
Qed.

(** Whether another file holds a lock that excludes the one asked for. *)
Definition conflict (s : fstate W) (f : file) (ip : nat) (cmd : Z) : bool :=
  (0 <? holders FEXLOCK ip (s_file s) - Z.b2z (has (f_flag f) FEXLOCK)) ||
  (has cmd LOCK_EX && (0 <? holders FSHLOCK ip (s_file s) - Z.b2z (has (f_flag f) FSHLOCK))).

Lemma conflict_relocked s s' fp f fl ip cmd :
  s_file s !! fp = Some f → f_data f = Some ip → relocked fp f fl s s' →
  conflict s' (with_flag fl f) ip cmd = conflict s f ip cmd.
Proof.
  intros Hf Hd (_ & E & _). unfold conflict. rewrite E, !(holders_insert _ _ _ _ _ _ Hf).
  rewrite !holds_own by done. simpl. f_equal; [f_equal; lia|]. do 2 f_equal. lia.
Qed.

(** The result of [ino_lock] on [fp] when it does not sleep. *)
Definition lock_result (s : fstate W) (fp : nat) (f : file) (ip : nat) (cmd e : Z) (s' : fstate W) : Prop :=
  ∃ fl, relocked fp f fl s s' ∧
  if conflict s f ip cmd then e = EWOULDBLOCK
  else e = 0 ∧ has fl FSHLOCK = negb (has cmd LOCK_EX) ∧ has fl FEXLOCK = has cmd LOCK_EX.

Lemma lock_result_trans s s1 fp f fl ip cmd e s' :
  s_file s !! fp = Some f → f_data f = Some ip → relocked fp f fl s s1 →
  lock_result s1 fp (with_flag fl f) ip cmd e s' → lock_result s fp f ip cmd e s'.
Proof.
  intros Hf Hd H1 (fl2 & H2 & Hr). exists fl2. split; [by eapply relocked_trans|].
  by erewrite (conflict_relocked s s1) in Hr.
Qed.

Section Immediate.
Context (fp ip : nat) (cmd pri : Z) (Hcmd : has cmd LOCK_EX || has cmd LOCK_SH = true).

(** One turn of the loop for a file with no lock in its own way. *)
Lemma wp_again_clear s f fuel :
  lock_inv s → s_file s !! fp = Some f → f_data f = Some ip → (ip < length (s_inode s))%nat →
  has cmd LOCK_NB || negb (conflict s f ip cmd) = true →
  has (f_flag f) FEXLOCK = false → (has cmd LOCK_EX = true → has (f_flag f) FSHLOCK = false) →
  wp (ino_lock_again (S fuel) fp ip cmd pri) (λ e s', lock_result s fp f ip cmd e s' ∧ s_world s' = s_world s ∧
    (conflict s f ip cmd = true → s' = s)) s.
Proof.
  intros Hl Hf Hd Hip Hnb Hx Hs. destruct (lookup_lt_is_Some_2 _ _ Hip) as [i Hi].
  pose proof (proj2 Hl _ _ Hi) as [Esh Eex Fsh Fex Hone Hexcl].
  pose proof (relocked_refl _ _ _ Hl Hf) as Hrefl.
  pose proof (holders_range FSHLOCK ip _ Hl) as Hrs. pose proof (holders_range FEXLOCK ip _ Hl) as Hrx.
  assert (Ec : conflict s f ip cmd = has (i_flag i) IEXLOCK || (has cmd LOCK_EX && has (i_flag i) ISHLOCK)).
  { unfold conflict. rewrite Hx, Fsh, Fex. simpl. f_equal; [f_equal; lia|].
    destruct (has cmd LOCK_EX); [|done]. rewrite Hs by done. simpl. f_equal. lia. }
  unfold lock_result. rewrite Ec in *. simpl.
  apply wp_bind, (wp_deref _ f); [done|]. apply wp_bind, (wp_inode _ i); [done|]. rewrite Hx.
  destruct (has (i_flag i) IEXLOCK) eqn:E1; simpl in *.
  { rewrite orb_false_r in Hnb. rewrite Hnb. wp_go. split; [|done]. by exists (f_flag f). }
  destruct (has cmd LOCK_EX) eqn:E2; simpl in *.
  - rewrite Hs by done. destruct (has (i_flag i) ISHLOCK) eqn:E3; simpl in *.
    + rewrite orb_false_r in Hnb. rewrite Hnb. wp_go. split; [|done]. by exists (f_flag f).
    + wp_go. eapply wp_mono; [eapply wp_lock_grant; try done; rewrite ?E2; [done|lia|lia]|].
      rewrite E2. intros _ s' (? & fl & ? & ? & ?). wp_go. split; [|done]. by exists fl.
  - wp_go. eapply wp_mono; [eapply wp_lock_grant; try done; rewrite ?E2; [done|lia|done]|].
    rewrite E2. intros _ s' (? & fl & ? & ? & ?). wp_go. split; [|done]. by exists fl.
Qed.

Lemma wp_ino_lock_again s f fuel :
  lock_inv s → s_file s !! fp = Some f → f_data f = Some ip → (ip < length (s_inode s))%nat →
  has cmd LOCK_NB || negb (conflict s f ip cmd) = true → (2 ≤ fuel)%nat →
  wp (ino_lock_again fuel fp ip cmd pri) (lock_result s fp f ip cmd) s.
Proof.
  intros Hl Hf Hd Hip Hnb Hfuel. destruct fuel as [|fuel]; [lia|].
  destruct (lookup_lt_is_Some_2 _ _ Hip) as [i Hi].
  pose proof (proj2 Hl _ _ Hi) as [Esh Eex Fsh Fex Hone Hexcl].
  pose proof (lookup_lt_Some _ _ _ Hf) as Hlt.
  (* releasing an own lock first, then one clear turn *)
  assert (Hrel : ∀ s1 fl, relocked fp f fl s s1 →
     has fl FEXLOCK = false → (has cmd LOCK_EX = true → has fl FSHLOCK = false) →
     wp (ino_lock_again fuel fp ip cmd pri) (lock_result s fp f ip cmd) s1).
  { intros s1 fl H1 Hx Hs. destruct fuel as [|fuel]; [lia|]. eapply wp_mono.
    - apply (wp_again_clear s1 (with_flag fl f)); try done.
      + apply H1. + by eapply relocked_file. + destruct H1 as (_ & _ & -> & _). done.
      + by erewrite (conflict_relocked s s1).
    - intros e s2 [H2 _]. revert H2. by apply lock_result_trans. }
  destruct (has (f_flag f) FEXLOCK) eqn:Efx.
  - pose proof (holder_pos _ _ _ _ _ Hf Hd Efx) as Hpx.
    assert (Efs : has (f_flag f) FSHLOCK = false).
    { destruct (has (f_flag f) FSHLOCK) eqn:E; [|done]. pose proof (holder_pos _ _ _ _ _ Hf Hd E). lia. }
    cbn [ino_lock_again]. apply wp_bind, (wp_deref _ f); [done|]. apply wp_bind, (wp_inode _ i); [done|].
    rewrite Fex, Efx, (proj2 (Z.ltb_lt _ _)) by lia.
    apply wp_bind. eapply wp_mono; [eapply (wp_ino_unlock_held s fp f ip); done|].
    intros [] s1 (fl & H1 & H2 & H3). eapply Hrel; try done.
    + by rewrite H3, Efx. + by rewrite H2, Efs.
  - destruct (has cmd LOCK_EX && has (f_flag f) FSHLOCK) eqn:E.
    2: { eapply wp_mono; [apply (wp_again_clear s f); try done; intros E2; by rewrite E2 in E|]. by intros e s2 [H2 _]. }
    apply andb_true_iff in E as [E2 Efs]. pose proof (holder_pos _ _ _ _ _ Hf Hd Efs) as Hps.
    cbn [ino_lock_again]. apply wp_bind, (wp_deref _ f); [done|]. apply wp_bind, (wp_inode _ i); [done|].
    rewrite Fex, E2, Fsh, Efs. destruct (Z.ltb_spec 0 (holders FEXLOCK ip (s_file s))) as [Hq|Hq]; [lia|].
    destruct (Z.ltb_spec 0 (holders FSHLOCK ip (s_file s))) as [Hq'|Hq']; [|lia]. simpl.
    apply wp_bind. eapply wp_mono; [eapply (wp_ino_unlock_held s fp f ip); done|].
    intros [] s1 (fl & H1 & H2 & H3). eapply Hrel; try done.
    + by rewrite H3, Efx. + by rewrite H2, Efs.
Qed.
End Immediate.

(** No file but [fp] has a lock on [ip] that excludes the one [cmd] asks for. *)
Definition excludes (s : fstate W) (fp ip : nat) (cmd : Z) : Prop :=
  ∀ fp' f', fp' ≠ fp → s_file s !! fp' = Some f' → f_data f' = Some ip →
    has (f_flag f') FEXLOCK = false ∧ (has cmd LOCK_EX = true → has (f_flag f') FSHLOCK = false).

Lemma lock_excludes s fp f ip cmd :
  lock_inv s → s_file s !! fp = Some f → f_data f = Some ip → (ip < length (s_inode s))%nat →
  has (f_flag f) FSHLOCK = negb (has cmd LOCK_EX) → has (f_flag f) FEXLOCK = has cmd LOCK_EX →
  excludes s fp ip cmd.
Proof.
  intros Hl Hf Hd Hip Es Ex fp' f' Hne Hf' Hd'. destruct (lookup_lt_is_Some_2 _ _ Hip) as [i Hi].
  pose proof (proj2 Hl _ _ Hi) as [_ _ _ _ Hone Hexcl].
  pose proof (count_two (holds FEXLOCK ip) _ _ _ _ _ Hf Hf' ltac:(done)) as H2.
  rewrite !holds_own, Ex in H2 by done. unfold holders in *.
  destruct (has cmd LOCK_EX) eqn:Ec; simpl in *.
  - assert (Hx : has (f_flag f') FEXLOCK = false) by (destruct (has (f_flag f') FEXLOCK); [simpl in H2; lia|done]).
    split; [done|]. intros _. destruct (has (f_flag f') FSHLOCK) eqn:E; [|done].
    pose proof (holder_pos _ _ _ _ _ Hf' Hd' E). unfold holders in *. rewrite Hx in H2. simpl in H2. lia.
  - split; [|done]. pose proof (holder_pos _ _ _ _ _ Hf Hd Es). unfold holders in *.
    destruct (has (f_flag f') FEXLOCK); [simpl in H2; lia|done].
Qed.

(** A file with no lock of its own, and the tables around one. *)
Definition clean (f : file) : Prop := has (f_flag f) FSHLOCK = false ∧ has (f_flag f) FEXLOCK = false.

Lemma holders_put ip l fp f f' : l !! fp = Some f → clean f → clean f' →
  holders FSHLOCK ip (<[fp := f']> l) = holders FSHLOCK ip l ∧ holders FEXLOCK ip (<[fp := f']> l) = holders FEXLOCK ip l.
Proof.
  intros Hf [A1 A2] [B1 B2]. rewrite !(holders_insert _ _ _ _ _ _ Hf). unfold holds. rewrite A1, A2, B1, B2, !andb_false_r. simpl. lia.
Qed.
Lemma lock_inv_put s s' fp f f' :
  lock_inv s → s_file s !! fp = Some f → clean f → clean f' →
  s_file s' = <[fp := f']> (s_file s) → s_inode s' = s_inode s → lock_inv s'.
Proof.
  intros [Hl Hi] Hf Hc Hc' E1 E2. split; [by rewrite E1, length_insert|]. intros ip i. rewrite E1, E2.
  destruct (holders_put ip _ _ _ _ Hf Hc Hc') as [-> ->]. apply Hi.
Qed.

(** Some file holds a lock on [ip] that excludes a new one, shared or, with
    [ex], exclusive. *)
Definition taken (l : list file) (ip : nat) (ex : bool) : bool :=
  (0 <? holders FEXLOCK ip l) || (ex && (0 <? holders FSHLOCK ip l)).

Lemma wp_ino_lock_fresh fp ip cmd s f fuel :
  has cmd LOCK_EX || has cmd LOCK_SH = true →
  lock_inv s → s_file s !! fp = Some f → f_data f = Some ip → (ip < length (s_inode s))%nat → clean f →
  has cmd LOCK_NB || negb (taken (s_file s) ip (has cmd LOCK_EX)) = true →
  wp (ino_lock (S fuel) fp cmd) (λ e s', s_world s' = s_world s ∧
    if taken (s_file s) ip (has cmd LOCK_EX) then e = EWOULDBLOCK ∧ s' = s
    else e = 0 ∧ ∃ fl, relocked fp f fl s s' ∧ has fl FSHLOCK = negb (has cmd LOCK_EX) ∧ has fl FEXLOCK = has cmd LOCK_EX ∧
      excludes s' fp ip cmd) s.
Proof.
  intros Hcmd Hl Hf Hd Hip [C1 C2] Hnb. unfold ino_lock. apply wp_bind, (wp_deref _ f); [done|]. rewrite Hd.
  assert (Ec : conflict s f ip cmd = taken (s_file s) ip (has cmd LOCK_EX)).
  { unfold conflict, taken. rewrite C1, C2. simpl. by rewrite !Z.sub_0_r. }
  eapply wp_mono; [apply (wp_again_clear fp ip cmd _ Hcmd s f); try done; by rewrite Ec|].
  intros e s' ((fl & Hre & He) & Hw & Hs). rewrite Ec in *. split; [done|]. destruct (taken _ _ _); [by split; [|apply Hs]|].
  destruct He as (-> & E1 & E2). split; [done|]. exists fl. split_and!; try done.
  eapply (lock_excludes s' fp (with_flag fl f)); [apply Hre| |done| |done|done].
  - eapply relocked_file; [done|by eapply lookup_lt_Some].
  - destruct Hre as (_ & _ & -> & _). done.
Qed.

(** *** Opening *)
Lemma inv_put_same o (s : fstate W) fp f f' :
  inv o s → s_file s !! fp = Some f → f_count f' = f_count f →
  (∀ ip, f_data f' = Some ip → (ip < length (s_inode s))%nat) →
  inv o (set_file (<[fp := f']> (s_file s)) s).
Proof.
  intros Hinv Hf Hc Hd. destruct (inv_rng _ _ Hinv _ _ Hf).
  eapply inv_ext; [|eapply (inv_put_file o s fp f); eauto; lia].
  intros fp'. unfold shift. case_decide; lia.
Qed.

Lemma inv_set_dupfd o (s : fstate W) d : inv o s → inv o (set_u (with_dupfd d) s).
Proof. intros [H1 H2 H3 H4 H5 H6 H7 H8]. by split. Qed.

Lemma inv_relocked o s s' fp f fl : inv o s → s_file s !! fp = Some f → relocked fp f fl s s' → inv o s'.
Proof.
  intros Hinv Hf (_ & F & L & U & A). pose proof (inv_put_same o s fp f (with_flag fl f) Hinv Hf eq_refl (λ ip, inv_dat _ _ Hinv _ _ ip Hf)) as Hi.
  destruct Hi as [H1 H2 H3 H4 H5 H6 H7 H8]. simpl in *. split; rewrite ?F, ?L, ?U, ?A; done.
Qed.

(** Whether [mode] asks for no more than the descriptor grants. *)
Definition mode_subset (mode : Z) (f : file) : bool :=
  Z.lor (Z.land mode (Z.lor FREAD FWRITE)) (f_flag f) =? f_flag f.

Lemma wp_dupfdopen o s indx dfd mode fp (Q : Z → fstate W → Prop) :
  inv o s → 0 ≤ indx < NOFILE → 0 ≤ dfd → slot (u_ofile (s_u s)) indx = Some fp →
  match slot (u_ofile (s_u s)) dfd with
  | None => Q EBADF s
  | Some wfp =>
      if decide (fp = wfp) then Q EBADF s
      else ∀ f, s_file s !! wfp = Some f →
        if mode_subset mode f
        then ∀ pop, Q 0 (dupit_post indx wfp f pop s)
        else Q EACCES s
  end →
  wp (dupfdopen indx dfd mode ENODEV) Q s.
Proof.
  intros Hinv Hi Hd Hfp HQ. unfold dupfdopen. apply wp_bind.
  eapply wp_ofile_inv; [done|done|]. rewrite Hfp.
  destruct (Z.leb_spec NOFILE dfd) as [Hge|Hlt].
  { unfold slot in HQ. rewrite (proj2 (Z.ltb_ge _ _)), andb_false_r in HQ by lia. by wp_go. }
  apply wp_bind. eapply wp_ofile_inv; [done|lia|].
  destruct (slot _ dfd) as [wfp|] eqn:Es; [|by wp_go].
  destruct (slot_file _ _ _ _ Hinv Es) as (f & Hf & _).
  destruct (decide (Some fp = Some wfp)) as [[= <-]|Hne].
  { rewrite decide_True in HQ by done. by wp_go. }
  rewrite decide_False in HQ by congruence. specialize (HQ f Hf). simpl.
  apply wp_bind, (wp_deref _ f); [done|]. unfold mode_subset in HQ.
  destruct (Z.lor _ _ =? _); simpl; [|by wp_go].
  apply wp_bind, wp_put_ofile; [done|apply (inv_no _ _ Hinv)|].
  apply wp_bind, wp_pofile; [lia|apply (inv_np _ _ Hinv)|]. intros pop.
  apply wp_bind, wp_put_pofile; [done|apply (inv_np _ _ Hinv)|].
  apply wp_bind, (wp_deref _ f); [done|].
  apply wp_bind, wp_put_file; [by eapply lookup_lt_Some|].
  pose proof (count_bound _ _ _ _ Hinv Hf). rewrite u32_id by lia.
  specialize (HQ pop). unfold dupit_post in HQ. wp_go. unfold compose. simpl.
  destruct (Z.ltb_spec (u_lastfile (s_u s)) indx); wp_go.
  - by rewrite Z.max_r in HQ by lia.
  - rewrite Z.max_l in HQ by lia. by destruct s as [[] ? ? ? ?].
Qed.

Section Open.
Context (o : nat → Z) (others : ∀ fp, 0 ≤ o fp < 2^32 - 65).
Context (s : fstate W) (Hinv : inv o s) (k : Z) (Hk : free_fd s 0 = Some k).

(** Where [copen] stands when [vn_open] has failed: [fp] is allocated, and
    only descriptor [k] names it. *)
Record opening (fp : nat) (f : file) (s1 : fstate W) : Prop := Opening {
  op_inv : inv o s1;
  op_file : s_file s1 !! fp = Some f;
  op_count : f_count f = 1;
  op_free : ∃ f0, s_file s !! fp = Some f0 ∧ f_count f0 = 0;
  op_rest : ∀ x, x ≠ fp → s_file s1 !! x = s_file s !! x;
  op_tab : u_ofile (s_u s1) = <[Z.to_nat k := Some fp]> (u_ofile (s_u s))
}.

Lemma slot_insert l i j x :
  length l = Z.to_nat NOFILE → 0 ≤ i < NOFILE →
  slot (<[Z.to_nat i := x]> l) j = if decide (i = j) then x else slot l j.
Proof.
  intros Hl Hi. unfold slot. case_decide as E.
  - subst j. rewrite (proj2 (Z.leb_le _ _)), (proj2 (Z.ltb_lt _ _)) by lia. simpl.
    rewrite list_lookup_insert_eq; [done|lia].
  - destruct (Z.leb_spec 0 j); [|done]. destruct (Z.ltb_spec j NOFILE); [|done]. simpl.
    rewrite list_lookup_insert_ne; [done|lia].
Qed.

Lemma k_range : 0 ≤ k < NOFILE ∧ slot (u_ofile (s_u s)) k = None.
Proof. destruct (free_fd_Some _ _ _ Hk) as (? & ? & _); [done|]. split; [lia|done]. Qed.

Lemma restore_slot fp : <[Z.to_nat k := None]> (<[Z.to_nat k := Some fp]> (u_ofile (s_u s))) = u_ofile (s_u s).
Proof.
  destruct k_range as [Hr Hs]. rewrite list_insert_insert_eq. apply list_insert_id.
  by rewrite (lookup_ofile o s k Hinv Hr), Hs.
Qed.

(** Giving the entry and the descriptor back. *)
Lemma inv_discard fp f s1 :
  opening fp f s1 →
  let s2 := set_file (<[fp := with_count 0 f]> (s_file s1)) s1 in
  inv (shift o (Some fp) (-1)) s2 ∧
  inv o (set_u (with_ofile (<[Z.to_nat k := None]> (u_ofile (s_u s2)))) s2).
Proof.
  intros [Hi Hf Hc _ _ Htab] s2. destruct k_range as [Hr _]. pose proof (others fp) as Ho.
  assert (H1 : inv (shift o (Some fp) (-1)) s2).
  { eapply inv_ext; [|eapply (inv_put_file o s1 fp f _ Hi Hf); simpl; try lia].
    - intros fp'. unfold shift. simpl. case_decide; lia.
    - eauto using inv_dat. }
  split; [done|]. apply (inv_shift_cancel o _ (Some fp) (-1)).
  eapply inv_ext; [|apply (inv_clear_slot _ s2 k fp H1)].
  - done.
  - simpl. rewrite Htab. rewrite slot_insert; [by rewrite decide_True|apply (inv_no _ _ Hinv)|done].
  - unfold shift. rewrite decide_True by done. lia.
Qed.

(** An error other than the descriptor device's is reported as it is, and
    leaves no trace in the tables. *)
Lemma wp_copen_error fp f s1 flags e :
  opening fp f s1 → u_dupfd (s_u s1) < 0 →
  wp (copen_failed fp k flags e) (λ r s', r = e ∧ inv o s' ∧ s_world s' = s_world s1 ∧
    u_rval (s_u s') = u_rval (s_u s1) ∧ u_ofile (s_u s') = u_ofile (s_u s)) s1.
Proof.
  intros Hop Hd. destruct (inv_discard _ _ _ Hop) as [H1 H2]. destruct k_range as [Hr _].
  pose proof Hop as [Hi Hf Hc _ _ Htab].
  unfold copen_failed. apply wp_bind, (wp_deref _ f); [done|].
  apply wp_bind, wp_put_file; [by eapply lookup_lt_Some|]. wp_go. unfold compose. simpl.
  destruct (Z.leb_spec 0 (u_dupfd (s_u s1))); [lia|]. rewrite andb_false_r. wp_go.
  apply wp_put_ofile; [done|apply (inv_no _ _ H1)|]. wp_go. split_and!; try done.
  simpl. rewrite Htab. apply restore_slot.
Qed.

(** The descriptor device: the duplicate is made when the descriptor is open
    with the access asked for; in every other case the result is 0 and the
    new descriptor is left empty. *)
Definition devfd_dup (dfd flags : Z) : option nat :=
  wfp ← slot (u_ofile (s_u s)) dfd;
  f ← s_file s !! wfp;
  if mode_subset flags f then Some wfp else None.

Definition devfd_post (s1 : fstate W) (d : option nat) (r : Z) (s' : fstate W) : Prop :=
  r = 0 ∧ inv o s' ∧ s_world s' = s_world s1 ∧
  (u_rval (s_u s') = k ∨ u_rval (s_u s') = u_rval (s_u s1)) ∧
  u_ofile (s_u s') = match d with
                     | Some wfp => <[Z.to_nat k := Some wfp]> (u_ofile (s_u s))
                     | None => u_ofile (s_u s)
                     end.

(** When [dupfdopen] has failed, whatever its error. *)
Lemma wp_devfd_refused fp f s1 r :
  opening fp f s1 → r ≠ 0 →
  wp (let err := Z.b2z (r =? 0) in
      if negb (err =? 0) then rval k;; mret 0 else put_ofile k None;; mret err)
    (devfd_post s1 None) (set_file (<[fp := with_count 0 f]> (s_file s1)) s1).
Proof.
  intros Hop Hne. destruct (inv_discard _ _ _ Hop) as [H1 H2]. destruct k_range as [Hr Hkn].
  apply Z.eqb_neq in Hne as ->. cbn [Z.b2z Z.eqb negb]. wp_go.
  apply wp_put_ofile; [done|apply (inv_no _ _ H1)|]. wp_go. split_and!; try done; [by right|].
  simpl. rewrite (op_tab _ _ _ Hop). apply restore_slot.
Qed.

Lemma wp_copen_devfd fp f s1 flags dfd :
  opening fp f s1 → u_dupfd (s_u s1) = dfd → 0 ≤ dfd →
  wp (copen_failed fp k flags ENODEV) (devfd_post s1 (devfd_dup dfd flags)) s1.
Proof.
  intros Hop Hd Hd0. destruct (inv_discard _ _ _ Hop) as [H1 H2]. destruct k_range as [Hr Hkn].
  pose proof Hop as [Hi Hf Hc (f0 & Hf0 & Hc0) Hrest Htab].
  set (s2 := set_file (<[fp := with_count 0 f]> (s_file s1)) s1) in *.
  assert (Hs2 : slot (u_ofile (s_u s2)) k = Some fp).
  { simpl. rewrite Htab, slot_insert; [by rewrite decide_True|apply (inv_no _ _ Hinv)|done]. }
  pose proof (wp_devfd_refused fp f s1) as Hbad. fold s2 in Hbad.
  unfold copen_failed. apply wp_bind, (wp_deref _ f); [done|].
  apply wp_bind, wp_put_file; [by eapply lookup_lt_Some|]. wp_go. fold s2. unfold compose.
  change (u_dupfd (s_u s2)) with (u_dupfd (s_u s1)).
  rewrite Hd, (proj2 (Z.leb_le _ _) Hd0). cbn [orb andb Z.eqb]. apply wp_bind.
  eapply wp_dupfdopen; [exact H1|done|done|exact Hs2|]. unfold devfd_dup. cbn [s_u s2 set_file].
  rewrite Htab, slot_insert; [|apply (inv_no _ _ Hinv)|done]. case_decide as Ek.
  { rewrite <- Ek, Hkn, decide_True by done. by apply Hbad. }
  destruct (slot _ dfd) as [wfp|] eqn:Es; [|by apply Hbad].
  destruct (slot_file _ _ _ _ Hinv Es) as (f' & Hf' & Hge).
  specialize (Hge (proj1 (others wfp))).
  assert (Hne : fp ≠ wfp) by (intros <-; simplify_eq; lia).
  rewrite decide_False by done. cbn [mbind option_bind]. rewrite Hf'. cbn [mbind option_bind].
  assert (Hf2 : s_file s2 !! wfp = Some f').
  { simpl. rewrite list_lookup_insert_ne by done. by rewrite Hrest. }
  rewrite Hf2. intros ? [= <-]. destruct (mode_subset flags f'); [|by apply Hbad].
  intros pop. unfold rval. wp_go. split_and!; [done| |done|by left|].
  - apply inv_set_rval, (inv_shift_cancel o _ (Some fp) (-1)). apply inv_dupit; try done.
    intros ? [= <-]. unfold shift. rewrite decide_True by done. pose proof (others fp). lia.
  - simpl. by rewrite Htab, list_insert_insert_eq.
Qed.

Context (Hfile : ∃ x f, s_file s !! x = Some f ∧ f_count f = 0).
Context (fuel : nat) (mode cmode : Z) (w : W) (r : vn_result).
Context (Hvn : vn_open (FFLAGS mode) (Z.land cmode (bic 0x7fff 0x200)) (s_world s) = (r, w)).

(** Whether [open] asks for a lock, and for which. *)
Definition wants_lock (flags : Z) : bool := has flags (Z.lor O_EXLOCK O_SHLOCK).
Definition refused (flags : Z) (ip : nat) : bool := wants_lock flags && taken (s_file s) ip (has flags O_EXLOCK).

(** The ways [open] goes on after the path lookup: the inode is opened and
    locked as asked, or it is locked by somebody else and closed again; the
    lookup failed; the descriptor device. *)
Definition open_post (s' : fstate W) : Prop :=
  u_rval (s_u s') = k ∧
  match r with
  | VnInode ip =>
      let f := File (Z.land (FFLAGS mode) FMASK) DTYPE_INODE 1 (Some ip) 0 in
      lock_inv s' ∧
      if refused (FFLAGS mode) ip then
        u_error (s_u s') = EWOULDBLOCK ∧ u_ofile (s_u s') = u_ofile (s_u s) ∧ s_world s' = (fo_close f w).2
      else
        u_error (s_u s') = 0 ∧ s_world s' = w ∧
        ∃ fp fl, u_ofile (s_u s') = <[Z.to_nat k := Some fp]> (u_ofile (s_u s)) ∧ s_file s' !! fp = Some (with_flag fl f) ∧
          if wants_lock (FFLAGS mode) then
            has fl FEXLOCK = has (FFLAGS mode) O_EXLOCK ∧ has fl FSHLOCK = negb (has (FFLAGS mode) O_EXLOCK) ∧
            excludes s' fp ip (if has (FFLAGS mode) O_EXLOCK then LOCK_EX else LOCK_SH)
          else fl = f_flag f
  | VnError e => u_error (s_u s') = e ∧ u_ofile (s_u s') = u_ofile (s_u s) ∧ s_world s' = w
  | VnFdopen dev =>
      u_error (s_u s') = 0 ∧ s_world s' = w ∧
      u_ofile (s_u s') = match devfd_dup (Z.land dev 255) (FFLAGS mode) with
                         | Some wfp => <[Z.to_nat k := Some wfp]> (u_ofile (s_u s))
                         | None => u_ofile (s_u s)
                         end
  end.

(** A lock that is asked for can be decided without waiting. *)
Definition at_once : Prop :=
  wants_lock (FFLAGS mode) = true → (1 ≤ fuel)%nat ∧
  ∀ ip, r = VnInode ip → has (FFLAGS mode) FNONBLOCK || negb (taken (s_file s) ip (has (FFLAGS mode) O_EXLOCK)) = true.

(** The last reference to a file without locks. *)
Lemma wp_closef_clean fp f s1 (Q : Z → fstate W → Prop) :
  s_file s1 !! fp = Some f → f_count f = 1 → f_type f = DTYPE_INODE → has (f_flag f) (Z.lor FSHLOCK FEXLOCK) = false →
  (let '(e, w) := fo_close f (s_world s1) in Q e (set_file (<[fp := with_count 0 (with_data None f)]> (s_file s1)) (set_world w s1))) →
  wp (closef (Some fp)) Q s1.
Proof.
  intros Hf Hc Ht Hcl HQ. pose proof (lookup_lt_Some _ _ _ Hf) as Hlt. unfold closef. apply wp_bind, (wp_deref _ f); [done|]. rewrite Hc, Hcl. simpl. wp_go.
  apply (wp_deref _ f); [done|]. wp_go. rewrite Ht. simpl. apply wp_put_file; [done|]. wp_go. simpl.
  destruct (fo_close f (s_world s1)) as [e w']. wp_go. eapply wp_deref; [simpl; by apply list_lookup_insert_eq|]. wp_go.
  apply wp_put_file; [simpl; by rewrite length_insert|]. wp_go. simpl. unfold set_file, set_world in *. simpl in *.
  by rewrite list_insert_insert_eq.
Qed.

(** [copen] once the inode is there: [fp], which descriptor [k] names, is an
    entry without locks. *)
Lemma wp_copen_inode fp f s3 ip :
  opening fp f s3 → f_data f = Some ip → f_type f = DTYPE_INODE → f_offset f = 0 → f_flag f = Z.land (FFLAGS mode) FMASK →
  lock_inv s3 → (ip < length (s_inode s3))%nat → s_world s3 = w → u_rval (s_u s3) = k → r = VnInode ip →
  (∀ ex, taken (s_file s3) ip ex = taken (s_file s) ip ex) → at_once →
  wp (if has (FFLAGS mode) (Z.lor O_EXLOCK O_SHLOCK) then
        let type := if has (FFLAGS mode) O_EXLOCK then LOCK_EX else LOCK_SH in
        let type := if has (FFLAGS mode) FNONBLOCK then Z.lor type LOCK_NB else type in
        e ← ino_lock fuel fp type;
        (if negb (e =? 0) then closef (Some fp);; put_ofile k None else mret tt);;
        mret e
      else mret 0) (λ e s', inv o s' ∧ open_post (set_u (with_error e) s')) s3.
Proof.
  intros Hop Hd Ht Ho Hfl Hl Hip Hw Hrv Hrip Htk Hat. pose proof Hop as [Hi Hf Hc _ _ Htab]. destruct k_range as [Hr _].
  assert (Ef : f = File (Z.land (FFLAGS mode) FMASK) DTYPE_INODE 1 (Some ip) 0) by (destruct f; simpl in *; congruence).
  assert (Hm : has (f_flag f) (Z.lor FSHLOCK FEXLOCK) = false).
  { rewrite Hfl. unfold has. rewrite <- Z.land_assoc. by rewrite Z.land_0_r. }
  assert (Hcl : clean f).
  { rewrite Ef. split; unfold has; simpl; rewrite <- Z.land_assoc; by rewrite Z.land_0_r. }
  unfold open_post. rewrite Hrip. fold (wants_lock (FFLAGS mode)). unfold refused. destruct (wants_lock (FFLAGS mode)) eqn:El; simpl.
  2:{ wp_go. split; [done|]. split_and!; try done. exists fp, (f_flag f). rewrite <- Ef, with_flag_id. by split_and!. }
  destruct (Hat El) as [Hfu Hnb]. specialize (Hnb ip Hrip). destruct fuel as [|fuel']; [lia|].
  set (ty := if has (FFLAGS mode) FNONBLOCK then _ else _).
  assert (T1 : has ty LOCK_EX = has (FFLAGS mode) O_EXLOCK) by (unfold ty; by destruct (has (FFLAGS mode) FNONBLOCK), (has (FFLAGS mode) O_EXLOCK)).
  assert (T2 : has ty LOCK_NB = has (FFLAGS mode) FNONBLOCK) by (unfold ty; by destruct (has (FFLAGS mode) FNONBLOCK), (has (FFLAGS mode) O_EXLOCK)).
  assert (T3 : has ty LOCK_EX || has ty LOCK_SH = true) by (unfold ty; by destruct (has (FFLAGS mode) FNONBLOCK), (has (FFLAGS mode) O_EXLOCK)).
  clearbody ty. apply wp_bind. eapply wp_mono; [apply (wp_ino_lock_fresh fp ip ty s3 f fuel'); try done; by rewrite T1, T2, Htk|].
  rewrite T1, Htk. intros e s4 [Hw4 H4]. destruct (taken (s_file s) ip (has (FFLAGS mode) O_EXLOCK)).
  - destruct H4 as [-> ->]. change (negb (EWOULDBLOCK =? 0)) with true. cbn iota. apply wp_bind, wp_bind.
    eapply wp_closef_clean; [done..|]. rewrite Hw, <- Ef. destruct (fo_close f w) as [e w']. cbn [snd].
    apply wp_put_ofile; [done|apply (inv_no _ _ Hi)|]. wp_go.
    assert (Hop' : opening fp (with_data None f) (set_file (<[fp := with_data None f]> (s_file s3)) (set_world w' s3))).
    { destruct Hop as [Oi Of Oc Ofr Ore Ota]. split; simpl; try done.
      - by apply (inv_put_same o (set_world w' s3) fp f); [apply inv_set_world|..].
      - apply list_lookup_insert_eq. by eapply lookup_lt_Some.
      - intros x Hx. rewrite list_lookup_insert_ne by done. by apply Ore. }
    destruct (inv_discard _ _ _ Hop') as [_ Hinv']. simpl in Hinv'. unfold set_file, set_world in Hinv'. simpl in Hinv'.
    rewrite list_insert_insert_eq in Hinv'. split; [exact Hinv'|]. simpl. split_and!; try done.
    + eapply (lock_inv_put s3 _ fp f (with_count 0 (with_data None f))); try done.
    + rewrite Htab. apply restore_slot.
  - destruct H4 as (-> & fl & Hre & E1 & E2 & Hex). change (negb (0 =? 0)) with false. cbn iota. apply wp_bind, wp_ret, wp_ret. pose proof Hre as (Hl4 & F4 & L4 & U4 & A4). split.
    + by eapply (inv_relocked o s3 s4 fp f fl).
    + simpl. split_and!; [congruence|done|done|congruence|]. exists fp, fl. rewrite U4, <- Ef. split_and!; try done.
      * eapply relocked_file; [done|by eapply lookup_lt_Some].
      * intros x f' Hx Hf' Hd'. destruct (Hex x f' Hx Hf' Hd') as [X1 X2]. split; [done|]. rewrite T1 in X2. intros Hle. apply X2.
        by destruct (has (FFLAGS mode) O_EXLOCK).
Qed.

Lemma wp_open :
  lock_inv s → (∀ x f, s_file s !! x = Some f → f_count f = 0 → clean f) → at_once →
  (∀ ip, r = VnInode ip → (ip < length (s_inode s))%nat) →
  wp (open fuel mode cmode) (λ _ s', inv o s' ∧ open_post s') s.
Proof.
  intros Hl Hcl Hat Hip. unfold open, copen, error. apply wp_bind, wp_bind.
  eapply wp_mono; [by apply (wp_falloc o)|]. unfold falloc_post. rewrite Hk.
  intros [fp|] s1 [Hinv1 (Hw1 & Hino1 & Hpost)].
  2: { destruct Hpost as (Hall & _). destruct Hfile as (x & f & Hx & Hc). by destruct (Hall x f). }
  destruct Hpost as ((f0 & Hf0 & Hc0 & Efile) & Etab & Erv & Eerr).
  pose proof (lookup_lt_Some _ _ _ Hf0) as Hlt. destruct k_range as [Hr _].
  assert (Hf1 : s_file s1 !! fp = Some (File (f_flag f0) (f_type f0) 1 None 0)).
  { rewrite Efile. by apply list_lookup_insert_eq. }
  apply wp_bind. eapply wp_deref; [done|]. apply wp_bind, wp_put_file; [by eapply lookup_lt_Some|].
  set (f2 := File _ _ _ _ _). set (s2 := set_file _ s1).
  assert (Hinv2 : inv o s2) by (eapply inv_put_same; done).
  assert (Hf2 : s_file s2 !! fp = Some f2) by (apply list_lookup_insert_eq; by eapply lookup_lt_Some).
  unfold vn_open_fd. wp_go. unfold compose. simpl. rewrite Hw1, Hvn, Erv. wp_go.
  assert (Hop : ∀ d, opening fp f2 (set_u (with_dupfd d) (set_world w s2))).
  { intros d. split; try done; [by apply inv_set_dupfd, inv_set_world|by eauto|].
    intros x Hx. simpl. rewrite list_lookup_insert_ne, Efile by done. by rewrite list_lookup_insert_ne. }
  destruct r as [ip|e|dev] eqn:Er; wp_go.
  - apply (wp_deref _ f2); [done|]. wp_go. apply wp_put_file; [simpl; by eapply lookup_lt_Some|].
    set (f3 := File _ _ _ _ _). set (s3 := set_file _ _). pose proof (Hip ip eq_refl) as Hip'. rewrite <- Hino1 in Hip'.
    assert (Ef3 : s_file s3 = <[fp := f3]> (s_file s)) by (simpl; by rewrite Efile, !list_insert_insert_eq).
    assert (Hc3 : clean f3) by (split; unfold has; simpl; rewrite <- Z.land_assoc; by rewrite Z.land_0_r).
    eapply wp_mono; [apply (wp_copen_inode fp f3 s3 ip)|]; try done.
    + destruct (Hop 0) as [Oi Of Oc Ofr Ore Ota]. split; try done.
      * apply (inv_put_same o (set_u (with_dupfd 0) (set_world w s2)) fp f2); try done. intros ? [= <-]. done.
      * rewrite Ef3. by apply list_lookup_insert_eq.
      * intros x Hx. rewrite Ef3. by apply list_lookup_insert_ne.
    + eapply (lock_inv_put s s3 fp f0 f3); try done. by eapply Hcl.
    + intros ex. unfold taken. rewrite Ef3. destruct (holders_put ip (s_file s) fp f0 f3 Hf0 ltac:(by eapply Hcl) Hc3) as [-> ->]. done.
    + intros e s' [Hi' Hpost]. wp_go. split; [by apply inv_set_error|done].
  - eapply wp_mono; [apply (wp_copen_error fp f2); [apply Hop|simpl; lia]|].
    intros e' s' (-> & Hi' & Hw' & Hrv' & Ht'). wp_go. unfold open_post. rewrite Er. split_and!; try done; [by apply inv_set_error|].
    simpl. by rewrite Hrv'.
  - unfold fdopen. wp_go. eapply wp_mono; [apply (wp_copen_devfd fp f2 _ _ (Z.land dev 255)); [apply Hop|done|]|].
    { apply Z.land_nonneg. by right. }
    intros e' s' (-> & Hi' & Hw' & Hrv' & Ht'). wp_go. unfold open_post. rewrite Er. split_and!; try done; [by apply inv_set_error|].
    simpl. destruct Hrv' as [?| ->]; done.
Qed.

(** Opening /dev/fd/N when descriptor N is not open, or is not open with
    the access asked for, reports success: [copen] stores the result of the
    comparison [dupfdopen (...) == 0] as the error, so the error of
    [dupfdopen] is lost, and the descriptor returned to the caller is
    closed. *)
Theorem open_devfd_error_lost (dev : Z) :
  lock_inv s → (∀ x f, s_file s !! x = Some f → f_count f = 0 → clean f) →
  has (FFLAGS mode) (Z.lor O_EXLOCK O_SHLOCK) = false →
  r = VnFdopen dev → devfd_dup (Z.land dev 255) (FFLAGS mode) = None →
  wp (open fuel mode cmode) (λ _ s',
    u_error (s_u s') = 0 ∧ u_rval (s_u s') = k ∧ slot (u_ofile (s_u s')) k = None) s.
Proof.
  intros Hl Hcl Hnolock Hr Hd. eapply wp_mono; [apply wp_open; [done|done| |by rewrite Hr]|].
  { intros E. unfold wants_lock in E. congruence. }
  unfold open_post. rewrite Hr, Hd. intros _ s' (_ & Hv & He & _ & Ht).
  split_and!; [done|done|]. rewrite Ht. apply k_range.
Qed.
End Open.

(** No descriptor, or no entry of the file table, is left. *)
Lemma wp_open_full o s fuel mode cmode :
  inv o s → free_fd s 0 = None ∨ (∀ x f, s_file s !! x = Some f → f_count f ≠ 0) →
  wp (open fuel mode cmode) (λ _ s', inv o s' ∧ s_world s' = s_world s ∧ u_ofile (s_u s') = u_ofile (s_u s) ∧
    u_error (s_u s') = if free_fd s 0 is None then EMFILE else ENFILE) s.
Proof.
  intros Hinv Hfull. unfold open, copen, error. apply wp_bind, wp_bind. eapply wp_mono; [by apply (wp_falloc o)|].
  unfold falloc_post. intros fp s1 (Hinv1 & Hw1 & _ & Hpost). destruct (free_fd s 0) as [k|], fp as [fp|].
  - destruct Hpost as ((f & Hf & Hc & _) & _). destruct Hfull as [[=]|Hfull]. by destruct (Hfull _ _ Hf).
  - destruct Hpost as (_ & E1 & E2). wp_go. split_and!; [by apply inv_set_error|done|done|done].
  - done.
  - destruct Hpost as ((E1 & _) & E2). wp_go. split_and!; [by apply inv_set_error|done|done|done].
Qed.

(** The outcome of [open] when [vn_open] answers [r] and leaves the world [w]. *)
Definition open_result (s : fstate W) (mode : Z) (w : W) (r : vn_result) (s' : fstate W) : Prop :=
  match free_fd s 0 with
  | Some k =>
      if decide (Exists (λ f, f_count f = 0) (s_file s)) then open_post s k mode w r s'
      else u_error (s_u s') = ENFILE ∧ u_ofile (s_u s') = u_ofile (s_u s) ∧ s_world s' = s_world s
  | None => u_error (s_u s') = EMFILE ∧ u_ofile (s_u s') = u_ofile (s_u s) ∧ s_world s' = s_world s
  end.


(** ** Locking *)

Section Locking.
Context (fp ip : nat) (cmd : Z) (Hcmd : has cmd LOCK_EX || has cmd LOCK_SH = true).
Context (s : fstate W) (f : file) (Hl : lock_inv s).
Context (Hf : s_file s !! fp = Some f) (Hd : f_data f = Some ip) (Hip : (ip < length (s_inode s))%nat).

Lemma wp_ino_lock fuel :
  has cmd LOCK_NB || negb (conflict s f ip cmd) = true → (2 ≤ fuel)%nat →
  wp (ino_lock fuel fp cmd) (lock_result s fp f ip cmd) s.
Proof.
  intros Hnb Hfuel. unfold ino_lock. apply wp_bind, (wp_deref _ f); [done|]. rewrite Hd.
  by apply wp_ino_lock_again.
Qed.

(** A lock that does not have to wait is decided at once: with LOCK_NB, or
    when no other file is in the way, [ino_lock] returns without sleeping.
    It refuses exactly when another file holds a conflicting lock; otherwise
    the file ends up holding exactly the kind of lock it asked for (an
    upgrade or downgrade replaces the lock it had), no other file of the
    inode holds a conflicting one, and the counts in the inode are right. *)
Theorem ino_lock_immediate (fuel : nat) :
  has cmd LOCK_NB || negb (conflict s f ip cmd) = true → (2 ≤ fuel)%nat →
  wp (ino_lock fuel fp cmd) (λ e s', lock_inv s' ∧
    if conflict s f ip cmd then e = EWOULDBLOCK
    else e = 0 ∧ excludes s' fp ip cmd ∧
      ∃ fl, s_file s' = <[fp := with_flag fl f]> (s_file s) ∧
        has fl FSHLOCK = negb (has cmd LOCK_EX) ∧ has fl FEXLOCK = has cmd LOCK_EX) s.
Proof.
  intros Hnb Hfuel. eapply wp_mono; [by apply wp_ino_lock|].
  intros e s' (fl & Hre & He). pose proof Hre as (Hl' & Ef & Ei & _). split; [done|].
  case_match; [done|]. destruct He as (-> & Es & Ex). split_and!; [done| |by exists fl].
  apply (lock_excludes s' fp (with_flag fl f)); try done; [|by rewrite Ei].
  eapply relocked_file; [done|]. by eapply lookup_lt_Some.
Qed.

(** What the rest of the system may do while a process sleeps for a lock:
    anything that keeps the lock invariant, except taking away the file the
    sleeper works on (it holds a reference to it). *)
Context (tsleep_ok : ∀ pri (s1 : fstate W) f1,
  lock_inv s1 → s_file s1 !! fp = Some f1 → f_data f1 = Some ip → (ip < length (s_inode s1))%nat →
  wlp (tsleep ip pri) (λ _ s2, lock_inv s2 ∧ (ip < length (s_inode s2))%nat ∧
    ∃ f2, s_file s2 !! fp = Some f2 ∧ f_data f2 = Some ip) s1).

Lemma wlp_lock_wait pri s1 f1 :
  lock_inv s1 → s_file s1 !! fp = Some f1 → f_data f1 = Some ip → (ip < length (s_inode s1))%nat →
  wlp (lock_wait ip pri) (λ _ s2, lock_inv s2 ∧ (ip < length (s_inode s2))%nat ∧
    ∃ f2, s_file s2 !! fp = Some f2 ∧ f_data f2 = Some ip) s1.
Proof.
  intros Hl1 Hf1 Hd1 Hip1. destruct (lookup_lt_is_Some_2 _ _ Hip1) as [i Hi].
  unfold lock_wait. apply wlp_bind, wp_wlp, (wp_inode _ i); [done|].
  apply wlp_bind, wp_wlp, wp_put_inode; [done|].
  apply (tsleep_ok pri _ f1); simpl; try done; [|by rewrite length_insert].
  destruct (proj2 Hl1 _ _ Hi) as [Esh Eex Fsh Fex Hone Hexcl]. split; [apply Hl1|]. intros ip' i'. simpl.
  rewrite list_lookup_insert. case_decide as E; [|apply Hl1]. destruct E as [<- _]. intros [= <-].
  split; simpl; try done; by flag_simpl.
Qed.

(** What [ino_lock] promises when it returns [e]. *)
Definition locked_post (e : Z) (s' : fstate W) : Prop :=
  lock_inv s' ∧
  (e = 0 → excludes s' fp ip cmd ∧
    ∃ f', s_file s' !! fp = Some f' ∧ f_data f' = Some ip ∧
      has (f_flag f') FSHLOCK = negb (has cmd LOCK_EX) ∧
      has (f_flag f') FEXLOCK = has cmd LOCK_EX).

Lemma wlp_ino_lock_again fuel pri s1 f1 :
  lock_inv s1 → s_file s1 !! fp = Some f1 → f_data f1 = Some ip → (ip < length (s_inode s1))%nat →
  wlp (ino_lock_again fuel fp ip cmd pri) locked_post s1.
Proof.
  revert s1 f1. induction fuel as [|fuel IH]; intros s1 f1 Hl1 Hf1 Hd1 Hip1; [done|].
  destruct (lookup_lt_is_Some_2 _ _ Hip1) as [i Hi]. pose proof (lookup_lt_Some _ _ _ Hf1) as Hlt.
  pose proof (proj2 Hl1 _ _ Hi) as [Esh Eex Fsh Fex Hone Hexcl].
  pose proof (holders_range FSHLOCK ip _ Hl1) as Hrs. pose proof (holders_range FEXLOCK ip _ Hl1) as Hrx.
  assert (Hback : ∀ s2 fl, relocked fp f1 fl s1 s2 →
    wlp (ino_lock_again fuel fp ip cmd pri) locked_post s2).
  { intros s2 fl Hre. pose proof (relocked_file _ _ _ _ _ Hre Hlt) as Hf2.
    destruct Hre as (Hl2 & _ & Ei & _). apply (IH s2 (with_flag fl f1)); try done. by rewrite Ei. }
  assert (Hwait : ∀ p, wlp (e ← lock_wait ip p; if negb (e =? 0) then mret e
                            else ino_lock_again fuel fp ip cmd pri) locked_post s1).
  { intros p. apply wlp_bind. eapply wlp_mono; [by eapply wlp_lock_wait|].
    intros e s2 (Hl2 & Hip2 & f2 & Hf2 & Hd2). destruct (Z.eqb_spec e 0) as [|He]; simpl.
    - by apply (IH s2 f2).
    - by apply wp_wlp, wp_ret. }
  assert (Hun : ∀ kind, wlp (ino_unlock fp kind;; ino_lock_again fuel fp ip cmd pri) locked_post s1).
  { intros kind. apply wlp_bind, wp_wlp. eapply wp_mono; [by apply (wp_ino_unlock_held s1 fp f1 ip)|].
    intros [] s2 (fl & Hre & _). by apply (Hback s2 fl). }
  cbn [ino_lock_again]. apply wlp_bind, wp_wlp, (wp_deref _ f1); [done|].
  apply wlp_bind, wp_wlp, (wp_inode _ i); [done|].
  rewrite Fex, Fsh. destruct (Z.ltb_spec 0 (holders FEXLOCK ip (s_file s1))) as [Hx|Hx].
  { destruct (has (f_flag f1) FEXLOCK); [apply Hun|].
    destruct (has cmd LOCK_NB); [by apply wp_wlp, wp_ret|apply Hwait]. }
  destruct (has cmd LOCK_EX && (0 <? holders FSHLOCK ip (s_file s1))) eqn:Eb.
  { destruct (has (f_flag f1) FSHLOCK); [apply Hun|].
    destruct (has cmd LOCK_NB); [by apply wp_wlp, wp_ret|apply Hwait]. }
  apply wp_wlp, wp_bind. eapply wp_mono; [eapply wp_lock_grant; try done; [lia|]|].
  { intros Ec. rewrite Ec in Eb. simpl in Eb. lia. }
  intros [] s2 (_ & fl & Hre & Es & Ex). pose proof (relocked_file _ _ _ _ _ Hre Hlt) as Hf2.
  destruct Hre as (Hl2 & _ & Ei & _). wp_go. split; [done|]. intros _. split; [|by eauto].
  eapply lock_excludes; try done. by rewrite Ei.
Qed.

(** C31. Locking with waiting, under any behaviour of the other processes that
    keeps the invariant: whenever [ino_lock] returns, the counts in every
    inode are right, and if it reports success the caller holds exactly the
    lock it asked for and no other file of the inode a conflicting one.  It
    neither panics nor reads outside a table, however often it has to wait. *)
Theorem ino_lock_safe (fuel : nat) :
  wlp (ino_lock fuel fp cmd) locked_post s.
Proof.
  unfold ino_lock. apply wlp_bind, wp_wlp, (wp_deref _ f); [done|]. rewrite Hd.
  by apply (wlp_ino_lock_again fuel _ s f).
Qed.
End Locking.

(** The effect of [flock] on an open descriptor for the entry [f]. *)
Definition flock_post (s : fstate W) (how : Z) (fp : nat) (f : file) (ip : nat) (s' : fstate W) : Prop :=
  if negb (f_type f =? DTYPE_INODE) then u_error (s_u s') = EOPNOTSUPP ∧ s_file s' = s_file s
  else ∃ fl, s_file s' = <[fp := with_flag fl f]> (s_file s) ∧
    if has how LOCK_UN then has fl FSHLOCK = false ∧ has fl FEXLOCK = false
    else if Z.land how (Z.lor LOCK_SH LOCK_EX) =? 0 then s' = s
    else if conflict s f ip how then u_error (s_u s') = EWOULDBLOCK
    else has fl FSHLOCK = negb (has how LOCK_EX) ∧ has fl FEXLOCK = has how LOCK_EX.

Lemma no_lock_bits how :
  Z.land how (Z.lor LOCK_SH LOCK_EX) ≠ 0 → has how LOCK_EX || has how LOCK_SH = true.
Proof.
  intros Hne. destruct (has how LOCK_EX) eqn:E1, (has how LOCK_SH) eqn:E2; try done. destruct Hne.
  unfold has in *. apply negb_false_iff, Z.eqb_eq in E1, E2. by rewrite Z.land_lor_distr_r, E1, E2.
Qed.

(** A file that has already got the lock it asks for. *)
Lemma held_already s fp f ip how :
  lock_inv s → s_file s !! fp = Some f → f_data f = Some ip → (ip < length (s_inode s))%nat →
  has (f_flag f) (if has how LOCK_EX then FEXLOCK else FSHLOCK) = true →
  conflict s f ip how = false ∧
  has (f_flag f) FSHLOCK = negb (has how LOCK_EX) ∧ has (f_flag f) FEXLOCK = has how LOCK_EX.
Proof.
  intros Hl Hf Hd Hip Hb. destruct (lookup_lt_is_Some_2 _ _ Hip) as [i Hi].
  pose proof (proj2 Hl _ _ Hi) as [_ _ _ _ Hone Hexcl].
  pose proof (holder_pos _ _ _ _ _ Hf Hd Hb) as Hp.
  pose proof (holders_range FSHLOCK ip _ Hl) as Hrs. pose proof (holders_range FEXLOCK ip _ Hl) as Hrx.
  assert (Hother : has (f_flag f) (if has how LOCK_EX then FSHLOCK else FEXLOCK) = false).
  { destruct (has (f_flag f) (if has how LOCK_EX then FSHLOCK else FEXLOCK)) eqn:E; [|done].
    pose proof (holder_pos _ _ _ _ _ Hf Hd E). destruct (has how LOCK_EX); lia. }
  unfold conflict. destruct (has how LOCK_EX); rewrite Hb, Hother; (split; [simpl|done]);
    rewrite ?orb_false_iff, ?Z.ltb_ge; lia.
Qed.

(** flock on a descriptor: descriptors that are not files are refused,
    LOCK_UN drops whatever lock the file has, and a request that need not
    wait is granted or refused exactly as the other files' locks demand; the
    lock counts of every inode stay right. *)
Theorem flock_correct (o : nat → Z) (s : fstate W) (fuel : nat) (fd how : Z) (fp ip : nat) (f : file) :
  inv o s → lock_inv s → int32 fd → slot (u_ofile (s_u s)) fd = Some fp →
  s_file s !! fp = Some f → f_data f = Some ip →
  has how LOCK_NB || negb (conflict s f ip how) = true → (2 ≤ fuel)%nat →
  wp (flock fuel fd how) (λ _ s', lock_inv s' ∧ flock_post s how fp f ip s') s.
Proof.
  intros Hinv Hl Hfd Hs Hf Hd Hnb Hfuel. pose proof (inv_dat _ _ Hinv _ _ _ Hf Hd) as Hip.
  unfold flock, error. apply wp_bind. eapply wp_getf; [done|done|]. rewrite Hs.
  apply wp_bind, (wp_deref _ f); [done|]. unfold flock_post.
  destruct (f_type f =? DTYPE_INODE); cbn [negb]; [|by wp_go].
  destruct (has how LOCK_UN).
  { eapply wp_mono; [by apply (wp_ino_unlock_held s fp f ip)|].
    intros [] s' (fl & (Hl' & Ef & _) & E1 & E2). split; [done|]. exists fl. split; [done|].
    rewrite E1, E2. flag_simpl. simpl. by rewrite ?andb_false_r. }
  assert (Hid : s_file s = <[fp := with_flag (f_flag f) f]> (s_file s)).
  { rewrite with_flag_id. by rewrite list_insert_id. }
  destruct (Z.eqb_spec (Z.land how (Z.lor LOCK_SH LOCK_EX)) 0) as [|Hne]; [wp_go; by eauto|].
  pose proof (no_lock_bits _ Hne) as Hcmd.
  set (h := if has how LOCK_EX then bic how LOCK_SH else how).
  assert (Ehe : has h LOCK_EX = has how LOCK_EX) by (unfold h; case_match; by flag_simpl).
  assert (Ehs : has h LOCK_SH = negb (has how LOCK_EX) && has how LOCK_SH).
  { unfold h. destruct (has how LOCK_EX); by flag_simpl. }
  assert (Ehn : has h LOCK_NB = has how LOCK_NB) by (unfold h; case_match; by flag_simpl).
  assert (Eco : conflict s f ip h = conflict s f ip how) by (unfold conflict; by rewrite Ehe).
  pose proof (held_already s fp f ip how Hl Hf Hd Hip) as Hheld.
  rewrite Ehe, Ehs. destruct (has (f_flag f) FEXLOCK && has how LOCK_EX) eqn:E1.
  { apply andb_true_iff in E1 as [E1 E1']. rewrite E1' in Hheld. destruct (Hheld E1) as (Hc & Hf1 & Hf2).
    wp_go. rewrite Hc, E1'. split; [done|]. by exists (f_flag f). }
  destruct (has (f_flag f) FSHLOCK && _) eqn:E2.
  { apply andb_true_iff in E2 as [E2 [E2'%negb_true_iff _]%andb_true_iff]. rewrite E2' in Hheld.
    destruct (Hheld E2) as (Hc & Hf1 & Hf2). wp_go. rewrite Hc, E2'. split; [done|]. by exists (f_flag f). }
  apply wp_bind. eapply wp_mono; [apply (wp_ino_lock fp ip h) with (f := f); try done|].
  - rewrite Ehe, Ehs. by destruct (has how LOCK_EX).
  - by rewrite Ehn, Eco.
  - intros e s' (fl & (Hl' & Ef & _) & He). wp_go. split; [done|]. exists fl. split; [done|].
    rewrite Eco, Ehe in He. case_match; [done|]. apply He.
Qed.
End Flock.

(** ** Runs of the operations on the small system *)
Section Witnesses.
#[local] Existing Instance demo_ops.

Definition demo_vn (r : vn_result) : VnOpen (list Z) := λ _ _ w, (r, w).
Definition demo_sleep (ip : nat) (pri : Z) : K (fstate (list Z)) Z := mret 0.

Lemma demo_lock_inv : lock_inv demo.
Proof. split; [done|]. intros [|ip] i; simpl; intros [= <-]. by split. Qed.

Lemma demo_free : ∃ x f, s_file demo !! x = Some f ∧ f_count f = 0.
Proof. by exists 1%nat, (File 0 0 0 None 0). Qed.

Lemma demo_clean x f : s_file demo !! x = Some f → f_count f = 0 → clean f.
Proof. destruct x as [|[|x]]; simpl; intros [= <-]; [done|]. by split. Qed.


Lemma open_devfd_error_lost_witness :
  wp (@open _ demo_ops (demo_vn (VnFdopen 7)) demo_sleep 2 0 0)
    (λ _ s', u_error (s_u s') = 0 ∧ u_rval (s_u s') = 2 ∧ slot (u_ofile (s_u s')) 2 = None) demo.
Proof.
  exact (@open_devfd_error_lost _ demo_ops (demo_vn (VnFdopen 7)) demo_sleep (λ _, 0)
    ltac:(intros; lia) demo demo_inv 2 eq_refl demo_free 2 0 0 [] (VnFdopen 7) eq_refl 7
    demo_lock_inv demo_clean eq_refl eq_refl eq_refl).
Defined.

Lemma ino_lock_immediate_witness :
  wp (ino_lock demo_sleep 2 0 LOCK_EX) (λ e s', lock_inv s' ∧ e = 0) demo.
Proof.
  eapply wp_mono; [apply (ino_lock_immediate demo_sleep 0 0 LOCK_EX eq_refl demo
    (File 3 DTYPE_INODE 2 (Some 0%nat) 0) demo_lock_inv eq_refl eq_refl ltac:(simpl; lia) 2 eq_refl); lia|].
  simpl. by intros e s' (? & ? & _).
Defined.

Lemma ino_lock_safe_witness :
  wlp (ino_lock demo_sleep 3 0 LOCK_SH) (locked_post 0 0 LOCK_SH) demo.
Proof.
  apply (ino_lock_safe demo_sleep 0 0 LOCK_SH eq_refl demo
    (File 3 DTYPE_INODE 2 (Some 0%nat) 0) demo_lock_inv eq_refl eq_refl ltac:(simpl; lia)).
  intros pri s1 f1 H1 H2 H3 H4. split_and!; [done|done|by exists f1].
Defined.

Lemma flock_correct_witness :
  wp (flock demo_sleep 2 1 LOCK_SH)
    (λ _ s', lock_inv s' ∧ flock_post demo LOCK_SH 0 (File 3 DTYPE_INODE 2 (Some 0%nat) 0) 0 s') demo.
Proof.
  apply (flock_correct demo_sleep (λ _, 0) demo 2 1 LOCK_SH 0 0); try done.
  - apply demo_inv.
  - apply demo_lock_inv.
Defined.
End Witnesses.
