(* ===== verification/Clist.v ===== *)
(** * Character lists (sys/kernel/tty_subr.c, sys/include/clist.h)

    The terminal driver's byte queues: chains of 32-byte blocks, a link of 4
    bytes and 28 characters each, cut from a common free list.  Pointers are
    addresses; a block lives at a multiple of 32, so the block of a character
    pointer is found by masking, as the code does.  Characters are stored as
    values 0..255.  Processor priority (spltty, splx) makes each routine
    atomic and is not represented. *)
From stdpp Require Import base tactics list option strings numbers gmap fin_maps.
From S2P Require Import Prelude.
Open Scope Z_scope.

Definition CBLOCK : Z := 32.
Definition CBSIZE : Z := 28.
Definition CROUND : Z := 31.

Record cblock := Cblock { c_next : Z; c_info : list Z }.

Record clist := Clist { c_cc : Z; c_cf : Z; c_cl : Z }.

(** The pool: the blocks by address, the free list, and who waits for it. *)
Record cstate := CState {
  blocks : gmap Z cblock;
  cfreelist : Z;
  cfreecount : Z;
  cwaiting : Z;
  wakeups : Z     (* wakeup (&cwaiting) calls so far *)
}.

Notation M := (K cstate).

Definition set_blocks (m : gmap Z cblock) (s : cstate) : cstate :=
  CState m (cfreelist s) (cfreecount s) (cwaiting s) (wakeups s).
Definition set_cfree (p n : Z) (s : cstate) : cstate :=
  CState (blocks s) p n (cwaiting s) (wakeups s).
Definition woken (s : cstate) : cstate :=
  CState (blocks s) (cfreelist s) (cfreecount s) 0 (wakeups s + 1).

(** ** Memory *)
Definition block (b : Z) : M cblock :=
  m ← gets blocks; lift (match m !! b with Some k => Done k | None => Wild end).
Definition put_block (b : Z) (k : cblock) : M unit :=
  block b;; modify (λ s, set_blocks (<[b := k]> (blocks s)) s).

(** [bp->c_next] and [bp->c_next = p] *)
Definition next (b : Z) : M Z := k ← block b; mret (c_next k).
Definition put_next (b p : Z) : M unit := k ← block b; put_block b (Cblock p (c_info k)).

(** [bcopy] from and to the characters at [p], which must lie in one block. *)
Definition load (p : Z) (n : nat) : M (list Z) :=
  k ← block (bic p CROUND);
  let off := Z.land p CROUND - 4 in
  if (0 <=? off) && (off + Z.of_nat n <=? CBSIZE)
  then mret (take n (drop (Z.to_nat off) (c_info k))) else lift Wild.
Definition store (p : Z) (cs : list Z) : M unit :=
  let b := bic p CROUND in
  k ← block b;
  let off := Z.land p CROUND - 4 in
  if (0 <=? off) && (off + Z.of_nat (length cs) <=? CBSIZE)
  then put_block b (Cblock (c_next k) (take (Z.to_nat off) (c_info k) ++ cs ++
                                        drop (Z.to_nat off + length cs) (c_info k)))
  else lift Wild.
Definition load1 (p : Z) : M Z :=
  l ← load p 1; lift (match l with [c] => Done c | _ => Wild end).

(** ** Free list *)
Definition free_block (bp : Z) : M unit :=
  fl ← gets cfreelist; n ← gets cfreecount;
  put_next bp fl;;
  modify (set_cfree bp (n + CBSIZE)).
Definition wake_waiting : M unit :=
  w ← gets cwaiting; if negb (w =? 0) then modify woken else mret tt.
Definition release (bp : Z) : M unit := free_block bp;; wake_waiting.

(** [cfreelist = bp->c_next; cfreecount -= CBSIZE; bp->c_next = NULL] *)
Definition take_block (bp : Z) : M unit :=
  nx ← next bp; n ← gets cfreecount;
  modify (set_cfree nx (n - CBSIZE));;
  put_next bp 0.

(** ** Operations *)
Definition getc (p : clist) : M (Z * clist) :=
  if c_cc p <=? 0 then mret (-1, Clist 0 0 0)
  else
    c ← load1 (c_cf p);
    let cf := c_cf p + 1 in
    let cc := c_cc p - 1 in
    if cc <=? 0 then
      release (bic (cf - 1) CROUND);;
      mret (Z.land c 255, Clist cc 0 0)
    else if Z.land cf CROUND =? 0 then
      nx ← next (cf - CBLOCK);
      release (cf - CBLOCK);;
      mret (Z.land c 255, Clist cc (nx + 4) (c_cl p))
    else mret (Z.land c 255, Clist cc cf (c_cl p)).

(** The loop of [q_to_b]; [acc] is what has been copied to the buffer. *)
Fixpoint q_to_b_loop (fuel : nat) (q : clist) (cc : Z) (acc : list Z) : M (list Z * clist) :=
  match fuel with
  | O => lift Spin
  | S fuel =>
      if cc =? 0 then mret (acc, q)
      else
        let nc := Z.min (Z.min (CBLOCK - Z.land (c_cf q) CROUND) cc) (c_cc q) in
        l ← load (c_cf q) (Z.to_nat nc);
        let cf := c_cf q + nc in
        let qcc := c_cc q - nc in
        let cc := cc - nc in
        if qcc <=? 0 then
          release (bic (cf - 1) CROUND);;
          mret (acc ++ l, Clist qcc 0 0)
        else if Z.land cf CROUND =? 0 then
          nx ← next (cf - CBLOCK);
          release (cf - CBLOCK);;
          q_to_b_loop fuel (Clist qcc (nx + 4) (c_cl q)) cc (acc ++ l)
        else q_to_b_loop fuel (Clist qcc cf (c_cl q)) cc (acc ++ l)
  end.

Definition q_to_b (fuel : nat) (q : clist) (cc : Z) : M (list Z * clist) :=
  if cc <=? 0 then mret ([], q)
  else if c_cc q <=? 0 then mret ([], Clist 0 0 0)
  else q_to_b_loop fuel q cc [].

(** The scan of [ndqb] for a character with a bit of [flag]; [char] is
    signed, so the test is made on the sign-extended value. *)
Fixpoint ndqb_scan (l : list Z) (flag : Z) (n : Z) : Z :=
  match l with
  | [] => n
  | c :: l => if has (s8 c) flag then n else ndqb_scan l flag (n + 1)
  end.

Definition ndqb (q : clist) (flag : Z) : M Z :=
  if c_cc q <=? 0 then mret (- c_cc q)
  else
    let cc := bic (c_cf q + CBSIZE) CROUND - c_cf q in
    let cc := if c_cc q <? cc then c_cc q else cc in
    if negb (flag =? 0) then
      l ← load (c_cf q) (Z.to_nat cc);
      mret (ndqb_scan l flag 0)
    else mret cc.

Fixpoint ndflush_loop (fuel : nat) (q : clist) (cc : Z) : M clist :=
  match fuel with
  | O => lift Spin
  | S fuel =>
      if negb ((0 <? cc) && negb (c_cc q =? 0)) then mret q
      else
        let bp := bic (c_cf q) CROUND in
        let end_ := if bp =? bic (c_cl q - 1) CROUND then c_cl q else bp + CBLOCK in
        let rem := end_ - c_cf q in
        if rem <=? cc then
          nx ← next bp;
          release bp;;
          ndflush_loop fuel (Clist (c_cc q - rem) (nx + 4) (c_cl q)) (cc - rem)
        else
          let q := Clist (c_cc q - cc) (c_cf q + cc) (c_cl q) in
          (if c_cc q <=? 0 then release bp else mret tt);;
          mret q
  end.

Definition ndflush (fuel : nat) (q : clist) (cc : Z) : M clist :=
  if c_cc q <=? 0 then mret q
  else
    q ← ndflush_loop fuel q cc;
    if c_cc q <=? 0 then mret (Clist 0 0 0) else mret q.

Definition putc (c : Z) (p : clist) : M (Z * clist) :=
  if (c_cl p =? 0) || (c_cc p <? 0) then
    bp ← gets cfreelist;
    if bp =? 0 then mret (-1, p)
    else
      take_block bp;;
      store (bp + 4) [u8 c];;
      mret (0, Clist (c_cc p + 1) (bp + 4) (bp + 4 + 1))
  else if Z.land (c_cl p) CROUND =? 0 then
    fl ← gets cfreelist;
    put_next (c_cl p - CBLOCK) fl;;
    if fl =? 0 then mret (-1, p)
    else
      take_block fl;;
      store (fl + 4) [u8 c];;
      mret (0, Clist (c_cc p + 1) (c_cf p) (fl + 4 + 1))
  else
    store (c_cl p) [u8 c];;
    mret (0, Clist (c_cc p + 1) (c_cf p) (c_cl p + 1)).

(** The loop of [b_to_q]: what is left of the buffer and the tail pointer. *)
Fixpoint b_to_q_loop (fuel : nat) (cs : list Z) (cq : Z) : M (list Z * Z) :=
  match fuel with
  | O => lift Spin
  | S fuel =>
      match cs with
      | [] => mret ([], cq)
      | _ =>
          r ← (if Z.land cq CROUND =? 0 then
                 fl ← gets cfreelist;
                 put_next (cq - CBLOCK) fl;;
                 if fl =? 0 then mret None else take_block fl;; mret (Some (fl + 4))
               else mret (Some cq));
          match r with
          | None => mret (cs, cq)
          | Some cq =>
              let nc := Z.to_nat (Z.min (Z.of_nat (length cs)) (CBLOCK - Z.land cq CROUND)) in
              store cq (map u8 (take nc cs));;
              b_to_q_loop fuel (drop nc cs) (cq + Z.of_nat nc)
          end
      end
  end.

(** [b_to_q (cp, cc, q)] with the [cc] bytes at [cp] as a list: the number of
    bytes not transferred. *)
Definition b_to_q (fuel : nat) (cs : list Z) (q : clist) : M (Z * clist) :=
  if (length cs =? 0)%nat then mret (0, q)
  else
    start ← (if (c_cl q =? 0) || (c_cc q <? 0) then
               bp ← gets cfreelist;
               if bp =? 0 then mret None else take_block bp;; mret (Some (bp + 4, bp + 4))
             else mret (Some (c_cf q, c_cl q)));
    match start with
    | None => mret (Z.of_nat (length cs), q)
    | Some (cf, cq) =>
        '(rest, cq) ← b_to_q_loop fuel cs cq;
        mret (Z.of_nat (length rest),
              Clist (c_cc q + (Z.of_nat (length cs) - Z.of_nat (length rest))) cf cq)
    end.

Definition nextc (p : clist) (cp : Z) : M Z :=
  if negb (c_cc p =? 0) && negb (cp + 1 =? c_cl p) then
    let cp := cp + 1 in
    if Z.land cp CROUND =? 0 then nx ← next (cp - CBLOCK); mret (nx + 4) else mret cp
  else mret 0.

(** [while (bp->c_next != cl) bp = bp->c_next;] *)
Fixpoint find_prev (fuel : nat) (bp cl : Z) : M Z :=
  match fuel with
  | O => lift Spin
  | S fuel => nx ← next bp; if nx =? cl then mret bp else find_prev fuel nx cl
  end.

(** The character is returned as a signed [char]. *)
Definition unputc (fuel : nat) (p : clist) : M (Z * clist) :=
  if c_cc p <=? 0 then mret (-1, p)
  else
    let cl := c_cl p - 1 in
    c ← load1 cl;
    let cc := c_cc p - 1 in
    if cc <=? 0 then
      free_block (bic cl CROUND);;
      mret (s8 c, Clist cc 0 0)
    else if Z.land cl CROUND =? 4 then
      let cl := bic cl CROUND in
      obp ← find_prev fuel (bic (c_cf p) CROUND) cl;
      bp ← next obp;
      free_block bp;;
      put_next obp 0;;
      mret (s8 c, Clist cc (c_cf p) (obp + CBLOCK))
    else mret (s8 c, Clist cc (c_cf p) cl).

(** The transfer loop of [catq], through a buffer of [CBSIZE * 4] bytes. *)
Fixpoint catq_loop (fuel : nat) (from to : clist) : M (clist * clist) :=
  match fuel with
  | O => lift Spin
  | S fuel =>
      if 0 <? c_cc from then
        '(bbuf, from) ← q_to_b 6 from (CBSIZE * 4);
        '(_, to) ← b_to_q 6 bbuf to;
        catq_loop fuel from to
      else mret (from, to)
  end.

Definition catq (fuel : nat) (from to : clist) : M (clist * clist) :=
  if c_cc to =? 0 then mret (Clist 0 0 0, from)
  else catq_loop fuel from to.

(** [cinit]: every block that fits is put on the free list.  [base] is the
    address of [cfree], [NCLIST] its length; a block starts out with the
    contents [info] of the memory. *)
Definition NCLIST : Z := 32.

Fixpoint cinit_loop (fuel : nat) (base cp : Z) : M unit :=
  match fuel with
  | O => lift Spin
  | S fuel =>
      if cp <=? base + CBLOCK * (NCLIST - 1)
      then free_block cp;; cinit_loop fuel base (cp + CBLOCK)
      else mret tt
  end.
Definition cinit (fuel : nat) (base : Z) : M unit :=
  cinit_loop fuel base (bic (base + CROUND) CROUND).

(** ** Addresses *)
Definition aligned (b : Z) : Prop := 0 < b ∧ b mod 32 = 0.

Lemma land_CROUND p : Z.land p CROUND = p mod 32.
Proof. apply (Z.land_ones p 5). lia. Qed.
Lemma bic_CROUND p : bic p CROUND = p - p mod 32.
Proof.
  unfold bic. rewrite <- Z.ldiff_land. change CROUND with (Z.ones 5). rewrite Z.ldiff_ones_r by lia.
  rewrite Z.shiftl_mul_pow2, Z.shiftr_div_pow2 by lia. change (2^5) with 32.
  pose proof (Z.div_mod p 32). lia.
Qed.

Lemma off_mod b p : aligned b → b ≤ p < b + 32 → p mod 32 = p - b.
Proof. intros [_ Hb] Hp. rewrite <- (Z.mod_small (p - b) 32) by lia. rewrite Zminus_mod, Hb, Z.sub_0_r. by rewrite Z.mod_mod by lia. Qed.
Lemma end_mod b : aligned b → (b + 32) mod 32 = 0.
Proof. intros [_ Hb]. rewrite <- Z.add_mod_idemp_l, Hb by lia. done. Qed.

Lemma bic_in b p : aligned b → b ≤ p < b + 32 → bic p CROUND = b.
Proof. intros Ha Hp. rewrite bic_CROUND, (off_mod b) by done. lia. Qed.
Lemma land_in b p : aligned b → b ≤ p < b + 32 → Z.land p CROUND = p - b.
Proof. intros Ha Hp. by rewrite land_CROUND, (off_mod b). Qed.
Lemma land_end b p : aligned b → p = b + 32 → Z.land p CROUND = 0.
Proof. intros Ha ->. by rewrite land_CROUND, end_mod. Qed.

(** ** Representation

    [chain m p bs]: the blocks [bs] are linked from [p] on. *)
Definition is_block (m : gmap Z cblock) (b : Z) (k : cblock) : Prop :=
  m !! b = Some k ∧ aligned b ∧ length (c_info k) = 28%nat ∧ Forall (λ c, 0 ≤ c < 256) (c_info k).

Inductive chain (m : gmap Z cblock) : Z → list Z → Prop :=
| chain_nil : chain m 0 []
| chain_cons b k bs : is_block m b k → chain m (c_next k) bs → chain m b (b :: bs).

(** [qseg m cl cf bs l]: the characters [l] run from [cf] through the blocks
    [bs] to [cl]; there is at least one. *)
Inductive qseg (m : gmap Z cblock) (cl : Z) : Z → list Z → list Z → Prop :=
| qseg_last b k cf :
    is_block m b k → c_next k = 0 → b + 4 ≤ cf → cf < cl ≤ b + 32 →
    qseg m cl cf [b] (take (Z.to_nat (cl - cf)) (drop (Z.to_nat (cf - b - 4)) (c_info k)))
| qseg_cons b k cf b' bs l :
    is_block m b k → c_next k = b' → b + 4 ≤ cf < b + 32 → qseg m cl (b' + 4) (b' :: bs) l →
    qseg m cl cf (b :: b' :: bs) (drop (Z.to_nat (cf - b - 4)) (c_info k) ++ l).

(** A queue [q] that holds the characters [l] in the blocks [bs]. *)
Definition queue (m : gmap Z cblock) (q : clist) (bs l : list Z) : Prop :=
  c_cc q = Z.of_nat (length l) ∧
  ((l = [] ∧ bs = [] ∧ c_cf q = 0 ∧ c_cl q = 0) ∨ qseg m (c_cl q) (c_cf q) bs l).

(** The free list is the chain [fs], and its count is right. *)
Record pool (s : cstate) (fs : list Z) : Prop := Pool {
  pool_chain : chain (blocks s) (cfreelist s) fs;
  pool_count : cfreecount s = CBSIZE * Z.of_nat (length fs)
}.

(** [m'] is [m] except at the blocks [bs]. *)
Definition frame (bs : list Z) (m m' : gmap Z cblock) : Prop := ∀ b, b ∉ bs → m' !! b = m !! b.

Lemma is_block_frame bs m m' b k : frame bs m m' → b ∉ bs → is_block m b k → is_block m' b k.
Proof. intros Hf Hb (H1 & H2). split; [by rewrite Hf|done]. Qed.

Lemma chain_frame bs m m' p l : frame bs m m' → l ## bs → chain m p l → chain m' p l.
Proof.
  intros Hf Hd Hc. induction Hc as [|b k l Hk Hc IH]; [constructor|].
  econstructor; [eapply is_block_frame; [done| |done]; set_solver|apply IH; set_solver].
Qed.

Lemma qseg_frame bs m m' cl cf l d : frame bs m m' → l ## bs → qseg m cl cf l d → qseg m' cl cf l d.
Proof.
  intros Hf Hd Hq. induction Hq as [b k cf Hk Hn H1 H2|b k cf b' l d Hk Hn H1 Hq IH].
  - econstructor; try done. eapply is_block_frame; [done| |done]; set_solver.
  - econstructor; try done; [eapply is_block_frame; [done| |done]; set_solver|apply IH; set_solver].
Qed.

Lemma queue_frame bs m m' q l d : frame bs m m' → l ## bs → queue m q l d → queue m' q l d.
Proof. intros Hf Hd [H1 [H2|H2]]; (split; [done|]); [by left|right; by eapply qseg_frame]. Qed.

Lemma chain_nonneg m p l : chain m p l → l = [] ↔ p = 0.
Proof. intros Hc. destruct Hc as [|b k l Hk Hc]; [done|]. destruct Hk as (_ & [Hp _] & _). split; [done|lia]. Qed.

Lemma chain_inv m p b bs :
  chain m p (b :: bs) → p = b ∧ ∃ k, is_block m b k ∧ chain m (c_next k) bs.
Proof. inversion 1; subst. eauto. Qed.

(** ** Elementary operations *)
Lemma wp_block b k (Q : cblock → cstate → Prop) s :
  blocks s !! b = Some k → Q k s → wp (block b) Q s.
Proof. intros E HQ. unfold block. wp_go. by rewrite E. Qed.
Lemma wp_next b k (Q : Z → cstate → Prop) s :
  blocks s !! b = Some k → Q (c_next k) s → wp (next b) Q s.
Proof. intros E HQ. unfold next. apply wp_bind, (wp_block _ k); [done|]. by wp_go. Qed.
Lemma wp_put_next b k p (Q : unit → cstate → Prop) s :
  blocks s !! b = Some k → Q tt (set_blocks (<[b := Cblock p (c_info k)]> (blocks s)) s) →
  wp (put_next b p) Q s.
Proof.
  intros E HQ. unfold put_next, put_block. apply wp_bind, (wp_block _ k); [done|].
  apply wp_bind, (wp_block _ k); [done|]. by wp_go.
Qed.

Lemma frame_insert b k m bs : b ∈ bs → frame bs m (<[b := k]> m).
Proof. intros Hb b' Hb'. rewrite lookup_insert_ne; [done|]. by intros ->. Qed.
Lemma frame_refl bs m : frame bs m m.
Proof. done. Qed.
Lemma frame_trans bs m1 m2 m3 : frame bs m1 m2 → frame bs m2 m3 → frame bs m1 m3.
Proof. intros H1 H2 b Hb. rewrite H2, H1; done. Qed.
Lemma frame_mono bs bs' m m' : bs ⊆ bs' → frame bs m m' → frame bs' m m'.
Proof. intros Hs Hf b Hb. apply Hf. set_solver. Qed.

(** Putting a block that is not on the free list back on it. *)
Lemma wp_free_block s fs b k (Q : unit → cstate → Prop) :
  pool s fs → is_block (blocks s) b k → b ∉ fs →
  (∀ s', pool s' (b :: fs) → frame [b] (blocks s) (blocks s') → cwaiting s' = cwaiting s →
         wakeups s' = wakeups s → Q tt s') →
  wp (free_block b) Q s.
Proof.
  intros [Hc Hn] Hk Hb HQ. unfold free_block. wp_go. destruct Hk as (Hm & Hal & Hlen & Hch).
  apply (wp_put_next _ k); [done|]. wp_go. apply HQ; try done; simpl.
  - split; simpl; [|rewrite Hn; unfold CBSIZE; lia].
    apply (chain_cons _ b (Cblock (cfreelist s) (c_info k))).
    + split; [by apply lookup_insert_eq|done].
    + simpl. eapply chain_frame; [apply (frame_insert b _ _ [b]); set_solver|set_solver|done].
  - apply frame_insert. set_solver.
Qed.

Lemma wp_release s fs b k (Q : unit → cstate → Prop) :
  pool s fs → is_block (blocks s) b k → b ∉ fs →
  (∀ s', pool s' (b :: fs) → frame [b] (blocks s) (blocks s') → cwaiting s' = 0 →
         wakeups s' = wakeups s + (if cwaiting s =? 0 then 0 else 1) → Q tt s') →
  wp (release b) Q s.
Proof.
  intros Hp Hk Hb HQ. unfold release. apply wp_bind. eapply wp_free_block; [done|done|done|].
  intros s' Hp' Hf Hw Hwk. unfold wake_waiting. wp_go. rewrite Hw.
  destruct (Z.eqb_spec (cwaiting s) 0); simpl; wp_go; apply HQ; try done; simpl.
  - congruence.
  - lia.
  - by destruct Hp'.
  - by rewrite Hwk.
Qed.

Lemma wp_take_block s fs b (Q : unit → cstate → Prop) :
  pool s (b :: fs) → b ∉ fs →
  (∀ s' k, pool s' fs → is_block (blocks s') b k → c_next k = 0 → frame [b] (blocks s) (blocks s') →
           cwaiting s' = cwaiting s → wakeups s' = wakeups s → Q tt s') →
  wp (take_block b) Q s.
Proof.
  intros [Hc Hn] Hb HQ. destruct (chain_inv _ _ _ _ Hc) as (Eb & k & Hk & Hc').
  pose proof Hk as (Hm & Hal & Hlen & Hch). unfold take_block. apply wp_bind, (wp_next _ k); [done|]. wp_go.
  apply (wp_put_next _ k); [done|]. apply (HQ _ (Cblock 0 (c_info k))); simpl; try done.
  - split; simpl; [|rewrite Hn; unfold CBSIZE; simpl length; lia].
    eapply chain_frame; [apply (frame_insert b _ _ [b]); set_solver|set_solver|done].
  - split; [by apply lookup_insert_eq|done].
  - apply frame_insert. set_solver.
Qed.

Lemma wp_load s b k p n (Q : list Z → cstate → Prop) :
  is_block (blocks s) b k → b + 4 ≤ p < b + 32 → p + Z.of_nat n ≤ b + 32 →
  Q (take n (drop (Z.to_nat (p - b - 4)) (c_info k))) s → wp (load p n) Q s.
Proof.
  intros (Hm & Hal & Hlen & _) Hp Hn HQ. unfold load.
  rewrite (bic_in b), (land_in b) by (try done; lia). apply wp_bind, (wp_block _ k); [done|].
  unfold CBSIZE. destruct (Z.leb_spec 0 (p - b - 4)); [|lia].
  destruct (Z.leb_spec (p - b - 4 + Z.of_nat n) 28); [|lia]. by wp_go.
Qed.

Lemma wp_load1 s b k p c (Q : Z → cstate → Prop) :
  is_block (blocks s) b k → b + 4 ≤ p < b + 32 →
  c_info k !! Z.to_nat (p - b - 4) = Some c → Q c s → wp (load1 p) Q s.
Proof.
  intros Hk Hp Hc HQ. unfold load1. apply wp_bind. eapply wp_load; [done|done|lia|].
  rewrite (drop_S _ c _ Hc). by apply (wp_lift _ c).
Qed.

(** The characters of a block after [cs] is stored at index [i]. *)
Definition splice (i : nat) (cs info : list Z) : list Z :=
  take i info ++ cs ++ drop (i + length cs) info.

Lemma wp_store s b k p cs (Q : unit → cstate → Prop) :
  is_block (blocks s) b k → b + 4 ≤ p < b + 32 → p + Z.of_nat (length cs) ≤ b + 32 →
  Forall (λ c, 0 ≤ c < 256) cs →
  let k' := Cblock (c_next k) (splice (Z.to_nat (p - b - 4)) cs (c_info k)) in
  (is_block (<[b := k']> (blocks s)) b k' → Q tt (set_blocks (<[b := k']> (blocks s)) s)) →
  wp (store p cs) Q s.
Proof.
  intros (Hm & Hal & Hlen & Hch) Hp Hn Hcs k' HQ. unfold store.
  rewrite (bic_in b), (land_in b) by (try done; lia). apply wp_bind, (wp_block _ k); [done|].
  unfold CBSIZE. destruct (Z.leb_spec 0 (p - b - 4)); [|lia].
  destruct (Z.leb_spec (p - b - 4 + Z.of_nat (length cs)) 28); [|lia]. simpl. unfold put_block.
  apply wp_bind, (wp_block _ k); [done|]. wp_go. apply HQ. split_and!; [by apply lookup_insert_eq|done| |].
  - simpl. unfold splice. rewrite !length_app, length_take, length_drop. lia.
  - simpl. unfold splice. rewrite !Forall_app. split_and!; [by apply Forall_take|done|by apply Forall_drop].
Qed.

(** ** The front of a queue *)
Lemma qseg_length m cl cf bs l :
  qseg m cl cf bs l → ∃ b bs', bs = b :: bs' ∧ b + 4 ≤ cf < b + 32 ∧
    Z.of_nat (length l) + (cf - b - 4) ≤ 28 * Z.of_nat (length bs) ∧
    28 * Z.of_nat (length bs') < Z.of_nat (length l) + (cf - b - 4) ∧ (0 < length l)%nat.
Proof.
  intros Hq. induction Hq as [b k cf (Hm & Hal & Hlen & _) Hn H1 H2|b k cf b' bs l (Hm & Hal & Hlen & _) Hn H1 Hq IH].
  - exists b, []. rewrite length_take, length_drop. split_and!; try done; simpl; lia.
  - destruct IH as (b0 & bs0 & [= <- <-] & ? & ? & ? & ?). exists b, (b' :: bs).
    rewrite length_app, length_drop. cbn [length] in *. split_and!; try done; lia.
Qed.

(** The first [n] characters, as far as they lie in the first block. *)
Lemma qseg_head m cl cf bs l :
  qseg m cl cf bs l → ∃ b bs' k, bs = b :: bs' ∧ is_block m b k ∧ b + 4 ≤ cf < b + 32 ∧
    ∀ n, cf + Z.of_nat n ≤ b + 32 → (n ≤ length l)%nat →
      take n (drop (Z.to_nat (cf - b - 4)) (c_info k)) = take n l.
Proof.
  intros Hq. destruct Hq as [b k cf Hk Hn H1 H2|b k cf b' bs l Hk Hn H1 Hq];
    pose proof Hk as (_ & _ & Hlen & _).
  - exists b, [], k. split_and!; try done; try lia. intros n Hn1 Hn2. rewrite length_take, length_drop in Hn2.
    by rewrite take_take, Nat.min_l by lia.
  - exists b, (b' :: bs), k. split_and!; try done; try lia. intros n Hn1 _.
    rewrite take_app_le; [done|]. rewrite length_drop. lia.
Qed.

(** Moving the front on by [n], within the first block or to its end. *)
Lemma qseg_advance m cl cf b bs k l n :
  qseg m cl cf (b :: bs) l → is_block m b k → 0 < n → cf + n ≤ b + 32 → n < Z.of_nat (length l) →
  if cf + n <? b + 32 then qseg m cl (cf + n) (b :: bs) (drop (Z.to_nat n) l)
  else ∃ b' bs', bs = b' :: bs' ∧ c_next k = b' ∧ qseg m cl (b' + 4) bs (drop (Z.to_nat n) l).
Proof.
  intros Hq Hk Hn0 Hn1 Hn2. destruct Hk as (Hm & Hal & Hlen & Hch).
  inversion Hq as [b0 k0 cf0 Hk0 Hnx H1 H2|b0 k0 cf0 b' bs' l0 Hk0 Hnx H1 Hq0]; subst;
    pose proof Hk0 as (Hm0 & _); assert (k0 = k) as -> by congruence.
  - rewrite length_take, length_drop in Hn2. destruct (Z.ltb_spec (cf + n) (b + 32)); [|lia].
    replace (Z.to_nat (cl - cf)) with (Z.to_nat n + Z.to_nat (cl - (cf + n)))%nat by lia.
    rewrite <- take_drop_commute, drop_drop.
    replace (Z.to_nat (cf - b - 4) + Z.to_nat n)%nat with (Z.to_nat (cf + n - b - 4)) by lia.
    econstructor; try done; lia.
  - destruct (Z.ltb_spec (cf + n) (b + 32)).
    + rewrite drop_app_le by (rewrite length_drop; lia). rewrite drop_drop.
      replace (Z.to_nat (cf - b - 4) + Z.to_nat n)%nat with (Z.to_nat (cf + n - b - 4)) by lia.
      econstructor; try done. lia.
    + exists (c_next k), bs'. split_and!; try done. rewrite drop_app_ge by (rewrite length_drop; lia).
      rewrite length_drop, Hlen. replace (Z.to_nat n - (28 - Z.to_nat (cf - b - 4)))%nat with 0%nat by lia. done.
Qed.

(** Using up the queue empties its last block. *)
Lemma qseg_finish m cl cf b bs l :
  qseg m cl cf (b :: bs) l → cf + Z.of_nat (length l) ≤ b + 32 → bs = [].
Proof.
  intros Hq Hl. destruct (qseg_length _ _ _ _ _ Hq) as (b0 & bs0 & [= <- <-] & H1 & H2 & H3 & H4).
  destruct bs; [done|]. simpl in *. lia.
Qed.

(** ** Ownership

    [owns s fs bs q l]: [fs] is the free list and the queue [q] holds the
    characters [l] in the blocks [bs], which are not free. *)
Record owns (s : cstate) (fs bs : list Z) (q : clist) (l : list Z) : Prop := Owns {
  owns_pool : pool s fs;
  owns_queue : queue (blocks s) q bs l;
  owns_nodup : NoDup (fs ++ bs)
}.

(** The blocks of [fs] and [bs] have been redistributed, no other block has
    been touched. *)
Record moved (s : cstate) (fs bs : list Z) (s' : cstate) (fs' bs' : list Z) : Prop := Moved {
  moved_perm : fs' ++ bs' ≡ₚ fs ++ bs;
  moved_frame : frame (fs ++ bs) (blocks s) (blocks s')
}.

Lemma moved_refl s fs bs : moved s fs bs s fs bs.
Proof. done. Qed.
Lemma moved_trans s fs bs s1 fs1 bs1 s2 fs2 bs2 :
  moved s fs bs s1 fs1 bs1 → moved s1 fs1 bs1 s2 fs2 bs2 → moved s fs bs s2 fs2 bs2.
Proof.
  intros [P1 F1] [P2 F2]. split; [by rewrite P2|]. eapply frame_trans; [done|].
  eapply frame_mono; [|done]. intros b. by rewrite P1.
Qed.
Lemma moved_nodup s fs bs s' fs' bs' : moved s fs bs s' fs' bs' → NoDup (fs ++ bs) → NoDup (fs' ++ bs').
Proof. intros [P _]. by rewrite P. Qed.

(** Where the first character lies in its block. *)
Definition head_off (q : clist) : Z := c_cf q mod 32 - 4.

(** [q'] is [q] without its first [n] characters. *)
Definition advanced (s : cstate) (fs bs : list Z) (q : clist) (l : list Z) (n : Z)
    (q' : clist) (s' : cstate) : Prop :=
  ∃ fs' bs', owns s' fs' bs' q' (drop (Z.to_nat n) l) ∧ moved s fs bs s' fs' bs' ∧
    (n < Z.of_nat (length l) → head_off q' = (head_off q + n) mod 28).

Lemma NoDup_tail (fs bs : list Z) b : NoDup (fs ++ b :: bs) → b ∉ fs ∧ b ∉ bs ∧ bs ## fs.
Proof. intros Hn. apply NoDup_app in Hn as (_ & H1 & H2). apply NoDup_cons in H2 as [H2 _]. set_solver. Qed.

Section Front.
Context (s : cstate) (fs bs : list Z) (q : clist) (l : list Z) (n : Z).
Context (Ho : owns s fs bs q l) (Hn0 : 0 < n) (Hnl : n ≤ Z.of_nat (length l)).
Context (Hfit : n ≤ 32 - Z.land (c_cf q) CROUND).

Lemma front_seg :
  ∃ b bs' k, bs = b :: bs' ∧ is_block (blocks s) b k ∧ b + 4 ≤ c_cf q < b + 32 ∧ c_cf q + n ≤ b + 32 ∧
    qseg (blocks s) (c_cl q) (c_cf q) bs l ∧ aligned b ∧ head_off q = c_cf q - b - 4 ∧
    take (Z.to_nat n) (drop (Z.to_nat (c_cf q - b - 4)) (c_info k)) = take (Z.to_nat n) l.
Proof.
  destruct Ho as [_ [Hcc [(-> & _)|Hq]] _]; [simpl in Hnl; lia|].
  destruct (qseg_head _ _ _ _ _ Hq) as (b & bs' & k & E & Hk & Hcf & Hd).
  pose proof Hk as (_ & Hal & _). rewrite (land_in b) in Hfit by (try done; lia).
  exists b, bs', k. unfold head_off. rewrite (off_mod b) by (try done; lia). split_and!; try done; try lia.
  apply Hd; lia.
Qed.

Lemma wp_front_load (Q : list Z → cstate → Prop) :
  Q (take (Z.to_nat n) l) s → wp (load (c_cf q) (Z.to_nat n)) Q s.
Proof.
  intros HQ. destruct front_seg as (b & bs' & k & -> & Hk & Hcf & Hn & _ & _ & _ & Ed).
  eapply wp_load; [done|done|lia|]. by rewrite Ed.
Qed.

(** The queue is used up: its last block goes back. *)
Lemma wp_front_done (Q : unit → cstate → Prop) :
  n = Z.of_nat (length l) →
  (∀ s', advanced s fs bs q l n (Clist (c_cc q - n) 0 0) s' → Q tt s') →
  wp (release (bic (c_cf q + n - 1) CROUND)) Q s.
Proof.
  intros En HQ. destruct front_seg as (b & bs' & k & -> & Hk & Hcf & Hn & Hq & Hal & _ & _).
  rewrite (qseg_finish _ _ _ _ _ _ Hq) in * by lia. rewrite (bic_in b) by (try done; lia).
  destruct Ho as [Hp [Hcc _] Hnd]. destruct (NoDup_tail _ _ _ Hnd) as (Hb & _).
  eapply wp_release; [done|done|done|]. intros s' Hp' Hf _ _. apply HQ.
  exists (b :: fs), []. rewrite drop_ge by lia. split_and!; [split| |lia].
  - done.
  - split; simpl; [lia|by left].
  - rewrite app_nil_r. constructor; [done|]. by apply NoDup_app in Hnd as (? & _).
  - split; [rewrite app_nil_r; by rewrite Permutation_app_comm|].
    eapply frame_mono; [|done]. set_solver.
Qed.

(** The first block is used up, and there is a second. *)
Lemma wp_front_next (A : Type) (f : Z → M A) (Q : A → cstate → Prop) :
  n < Z.of_nat (length l) → Z.land (c_cf q + n) CROUND = 0 →
  (∀ s' nx, advanced s fs bs q l n (Clist (c_cc q - n) (nx + 4) (c_cl q)) s' → wp (f nx) Q s') →
  wp (nx ← next (c_cf q + n - CBLOCK); release (c_cf q + n - CBLOCK);; f nx) Q s.
Proof.
  intros En El HQ. destruct front_seg as (b & bs' & k & -> & Hk & Hcf & Hn & Hq & Hal & Hoff & _).
  pose proof (qseg_advance _ _ _ _ _ _ _ n Hq Hk Hn0 Hn En) as Ha.
  destruct (Z.ltb_spec (c_cf q + n) (b + 32)); [rewrite (land_in b) in El by (try done; lia); lia|].
  destruct Ha as (b' & bs'' & -> & Enx & Hq'). unfold CBLOCK.
  replace (c_cf q + n - 32) with b by lia. destruct Ho as [Hp [Hcc _] Hnd].
  destruct (NoDup_tail _ _ _ Hnd) as (Hb & Hb' & Hdis).
  apply wp_bind, (wp_next _ k); [apply Hk|]. apply wp_bind.
  eapply wp_release; [done|done|done|]. intros s' Hp' Hf _ _. apply HQ. rewrite Enx.
  assert (Hal' : aligned b').
  { destruct (qseg_head _ _ _ _ _ Hq') as (b0 & ? & ? & [= <- <-] & (_ & ? & _) & _). done. }
  exists (b :: fs), (b' :: bs''). split_and!; [split| |].
  - done.
  - split; simpl; [rewrite length_drop; lia|]. right. eapply qseg_frame; [done| |done]. set_solver.
  - apply NoDup_app in Hnd as (H1 & H2 & H3). apply NoDup_cons in H3 as [H3 H4].
    apply NoDup_app. split_and!; [by constructor| |done]. set_solver.
  - split; [simpl; by rewrite Permutation_middle|]. eapply frame_mono; [|done]. set_solver.
  - intros _. rewrite Hoff. unfold head_off. simpl. rewrite (off_mod b') by (try done; lia).
    replace (c_cf q - b - 4 + n) with (1 * 28) by lia. rewrite Z.mod_mul by lia. lia.
Qed.

(** The front moves on within its block. *)
Lemma front_stay :
  n < Z.of_nat (length l) → Z.land (c_cf q + n) CROUND ≠ 0 →
  advanced s fs bs q l n (Clist (c_cc q - n) (c_cf q + n) (c_cl q)) s.
Proof.
  intros En El. destruct front_seg as (b & bs' & k & -> & Hk & Hcf & Hn & Hq & Hal & Hoff & _).
  pose proof (qseg_advance _ _ _ _ _ _ _ n Hq Hk Hn0 Hn En) as Ha.
  destruct (Z.ltb_spec (c_cf q + n) (b + 32)).
  2: { destruct El. apply (land_end b); [done|lia]. }
  destruct Ho as [Hp [Hcc _] Hnd]. exists fs, (b :: bs'). split_and!; [split; try done| |].
  - split; simpl; [rewrite length_drop; lia|by right].
  - apply moved_refl.
  - intros _. rewrite Hoff. unfold head_off. simpl. rewrite (off_mod b) by (try done; lia).
    rewrite Z.mod_small; lia.
Qed.
End Front.

Lemma qseg_chars m cl cf bs l : qseg m cl cf bs l → Forall (λ c, 0 ≤ c < 256) l.
Proof.
  intros Hq. induction Hq as [b k cf (_ & _ & _ & H) | b k cf b' bs l (_ & _ & _ & H) Hn H1 Hq IH].
  - by apply Forall_take, Forall_drop.
  - apply Forall_app. split; [by apply Forall_drop|done].
Qed.

Lemma owns_cc s fs bs q l : owns s fs bs q l → c_cc q = Z.of_nat (length l).
Proof. by intros [_ [? _] _]. Qed.

Lemma owns_nil s fs bs q : owns s fs bs q [] → bs = [] ∧ q = Clist 0 0 0.
Proof.
  intros [_ [Hc [(_ & -> & H1 & H2)|Hq]] _]; [by destruct q; simpl in *; subst|].
  apply qseg_length in Hq as (? & ? & ? & ? & ? & ? & ?). simpl in *. lia.
Qed.

Lemma owns_cons_seg s fs bs q l :
  owns s fs bs q l → l ≠ [] → qseg (blocks s) (c_cl q) (c_cf q) bs l.
Proof. intros [_ [_ [(-> & _)|Hq]] _] Hl; done. Qed.

Lemma owns_land s fs bs q l : owns s fs bs q l → l ≠ [] → 4 ≤ Z.land (c_cf q) CROUND < 32.
Proof.
  intros Ho Hl. destruct (qseg_head _ _ _ _ _ (owns_cons_seg _ _ _ _ _ Ho Hl)) as (b & bs' & k & _ & Hk & Hcf & _).
  rewrite (land_in b) by (try apply Hk; lia). lia.
Qed.

Lemma land_255 c : 0 ≤ c < 256 → Z.land c 255 = c.
Proof. intros Hc. change 255 with (Z.ones 8). rewrite Z.land_ones by lia. by rewrite Z.mod_small. Qed.

Lemma wp_getc s fs bs q l :
  owns s fs bs q l →
  wp (getc q) (λ '(c, q') s', advanced s fs bs q l 1 q' s' ∧
    c = match l with [] => -1 | c :: _ => c end) s.
Proof.
  intros Ho. pose proof (owns_cc _ _ _ _ _ Ho) as Hcc. unfold getc. destruct l as [|c l].
  { destruct (owns_nil _ _ _ _ Ho) as [-> ->]. simpl. wp_go. split; [|done].
    exists fs, []. split_and!; [done|apply moved_refl|done]. }
  pose proof (owns_land _ _ _ _ _ Ho ltac:(done)) as Hland.
  pose proof (qseg_chars _ _ _ _ _ (owns_cons_seg _ _ _ _ _ Ho ltac:(done))) as [Hc _]%Forall_cons.
  assert (H1 : 1 ≤ Z.of_nat (length (c :: l))) by (simpl; lia).
  assert (H2 : 1 ≤ 32 - Z.land (c_cf q) CROUND) by lia.
  rewrite Hcc. destruct (Z.leb_spec (Z.of_nat (length (c :: l))) 0); [lia|].
  unfold load1. apply wp_bind, wp_bind.
  apply (wp_front_load s fs bs q (c :: l) 1 Ho ltac:(lia) H1 H2).
  apply (wp_lift _ c); [done|]. rewrite land_255 by done. rewrite <- Hcc.
  destruct (Z.leb_spec (c_cc q - 1) 0).
  { apply wp_bind. apply (wp_front_done s fs bs q (c :: l) 1 Ho ltac:(lia) H1 H2); [lia|].
    intros s' Ha. by wp_go. }
  destruct (Z.eqb_spec (Z.land (c_cf q + 1) CROUND) 0) as [El|El].
  { apply (wp_front_next s fs bs q (c :: l) 1 Ho ltac:(lia) H1 H2); [lia|done|]. intros s' nx Ha. by wp_go. }
  wp_go. split; [|done]. apply (front_stay s fs bs q (c :: l) 1 Ho ltac:(lia) H1 H2); [lia|done].
Qed.

Lemma advanced_trans s fs bs q l n1 n2 s1 fs1 bs1 q1 q2 s2 :
  0 ≤ n1 → 0 ≤ n2 → owns s1 fs1 bs1 q1 (drop (Z.to_nat n1) l) → moved s fs bs s1 fs1 bs1 →
  (n1 < Z.of_nat (length l) → head_off q1 = (head_off q + n1) mod 28) →
  advanced s1 fs1 bs1 q1 (drop (Z.to_nat n1) l) n2 q2 s2 → advanced s fs bs q l (n1 + n2) q2 s2.
Proof.
  intros Hn1 Hn2 Ho1 Hm1 Hh1 (fs2 & bs2 & Ho2 & Hm2 & Hh2).
  rewrite drop_drop, <- Z2Nat.inj_add in Ho2 by lia.
  exists fs2, bs2. split_and!; [done|by eapply moved_trans|].
  intros Hlt. rewrite length_drop in Hh2. rewrite Hh2, Hh1 by lia.
  rewrite Z.add_mod_idemp_l by lia. f_equal. lia.
Qed.

Lemma wp_q_to_b_loop fuel : ∀ s fs bs q l cc acc,
  owns s fs bs q l → l ≠ [] → 0 ≤ cc → (0 < fuel)%nat →
  (0 < cc → head_off q + cc ≤ 28 * (Z.of_nat fuel - 1)) →
  wp (q_to_b_loop fuel q cc acc) (λ '(r, q') s',
    r = acc ++ take (Z.to_nat cc) l ∧
    advanced s fs bs q l (Z.min cc (Z.of_nat (length l))) q' s') s.
Proof.
  induction fuel as [|fuel IH]; intros s fs bs q l cc acc Ho Hl Hcc Hf0 Hf; [lia|].
  pose proof (owns_land _ _ _ _ _ Ho Hl) as Hland. pose proof (owns_cc _ _ _ _ _ Ho) as Elen.
  assert (0 < Z.of_nat (length l)) by (destruct l; [done|simpl; lia]).
  cbn [q_to_b_loop]. destruct (Z.eqb_spec cc 0) as [->|Hne].
  { wp_go. split; [by rewrite app_nil_r|]. rewrite Z.min_l by lia.
    exists fs, bs. split_and!; [done|apply moved_refl|]. intros _. rewrite Z.add_0_r.
    unfold head_off. rewrite land_CROUND in Hland. symmetry. apply Z.mod_small. lia. }
  remember (Z.min (Z.min (CBLOCK - Z.land (c_cf q) CROUND) cc) (c_cc q)) as nc eqn:Enc.
  unfold CBLOCK in Enc. rewrite Elen in Enc.
  specialize (Hf ltac:(lia)). assert (Hoff : head_off q = Z.land (c_cf q) CROUND - 4) by by rewrite land_CROUND.
  assert (H0 : 0 < nc) by lia. assert (H1 : nc ≤ Z.of_nat (length l)) by lia.
  assert (H2 : nc ≤ 32 - Z.land (c_cf q) CROUND) by lia.
  apply wp_bind, (wp_front_load s fs bs q l nc Ho H0 H1 H2).
  (* going round the loop *)
  assert (Hloop : ∀ s1 q1, nc < Z.of_nat (length l) → advanced s fs bs q l nc q1 s1 →
    wp (q_to_b_loop fuel q1 (cc - nc) (acc ++ take (Z.to_nat nc) l)) (λ '(r, q') s',
      r = acc ++ take (Z.to_nat cc) l ∧
      advanced s fs bs q l (Z.min cc (Z.of_nat (length l))) q' s') s1).
  { intros s1 q1 Hlt Ha. pose proof Ha as (fs1 & bs1 & Ho1 & Hm1 & Hh1). pose proof (Hh1 Hlt) as Hh1'.
    eapply wp_mono; [apply (IH s1 fs1 bs1 q1 (drop (Z.to_nat nc) l) (cc - nc)); try done|].
    - intros E. apply (f_equal length) in E. rewrite length_drop in E. simpl in E. lia.
    - lia.
    - lia.
    - intros Hc'. rewrite Hh1'. replace (head_off q + nc) with (1 * 28) by lia. rewrite Z.mod_mul; lia.
    - intros [r q'] s' [-> Ha']. split.
      + rewrite <- app_assoc, take_take_drop. do 2 f_equal. lia.
      + rewrite length_drop in Ha'.
        replace (Z.min cc (Z.of_nat (length l))) with
          (nc + Z.min (cc - nc) (Z.of_nat (length l - Z.to_nat nc))) by lia.
        eapply advanced_trans; try done; lia. }
  destruct (Z.leb_spec (c_cc q - nc) 0).
  { apply wp_bind. apply (wp_front_done s fs bs q l nc Ho H0 H1 H2); [lia|].
    intros s' Ha. wp_go. replace nc with (Z.of_nat (length l)) in * by lia. split.
    - by rewrite !take_ge by lia.
    - by rewrite Z.min_r by lia. }
  destruct (Z.eqb_spec (Z.land (c_cf q + nc) CROUND) 0) as [El|El].
  { apply (wp_front_next s fs bs q l nc Ho H0 H1 H2); [lia|done|]. intros s' nx Ha. apply Hloop; [lia|done]. }
  apply Hloop; [lia|]. apply (front_stay s fs bs q l nc Ho H0 H1 H2); [lia|done].
Qed.

Lemma wp_q_to_b s fs bs q l cc fuel :
  owns s fs bs q l → 27 + cc ≤ 28 * (Z.of_nat fuel - 1) →
  wp (q_to_b fuel q cc) (λ '(r, q') s', r = take (Z.to_nat cc) l ∧
    ∃ n, n = Z.max 0 (Z.min cc (Z.of_nat (length l))) ∧ advanced s fs bs q l n q' s') s.
Proof.
  intros Ho Hf. pose proof (owns_cc _ _ _ _ _ Ho) as Elen. unfold q_to_b.
  assert (Hid : l = [] ∨ l ≠ [] → advanced s fs bs q l 0 q s).
  { intros Hl. exists fs, bs. split_and!; [done|apply moved_refl|]. intros Hlt. rewrite Z.add_0_r.
    assert (l ≠ []) as Hne by (intros ->; simpl in Hlt; lia).
    pose proof (owns_land _ _ _ _ _ Ho Hne) as Hland. rewrite land_CROUND in Hland.
    unfold head_off. symmetry. apply Z.mod_small. lia. }
  destruct (Z.leb_spec cc 0).
  { wp_go. replace (Z.to_nat cc) with 0%nat by lia. split; [done|]. exists 0. split; [lia|].
    apply Hid. destruct l; auto. }
  rewrite Elen. destruct (Z.leb_spec (Z.of_nat (length l)) 0).
  { destruct l; [|simpl in *; lia]. wp_go. rewrite take_nil. split; [done|]. exists 0. split; [simpl; lia|].
    destruct (owns_nil _ _ _ _ Ho) as [_ <-]. auto. }
  assert (l ≠ []) as Hne by (intros ->; simpl in *; lia).
  pose proof (owns_land _ _ _ _ _ Ho Hne) as Hland. rewrite land_CROUND in Hland.
  eapply wp_mono; [apply (wp_q_to_b_loop fuel s fs bs q l cc []); try done; unfold head_off; lia|].
  intros [r q'] s' [-> Ha]. split; [done|]. eexists. split; [|done]. lia.
Qed.

(** ** The back of a queue *)
Lemma qseg_last_block m cl cf bs l :
  qseg m cl cf bs l →
  ∃ bs0 b k, bs = bs0 ++ [b] ∧ is_block m b k ∧ c_next k = 0 ∧ b + 4 < cl ≤ b + 32.
Proof.
  intros Hq. induction Hq as [b k cf Hk Hn H1 H2|b k cf b' bs l Hk Hn H1 Hq (bs0 & b1 & k1 & E & ?)].
  - exists [], b, k. split_and!; try done; lia.
  - exists (b :: bs0), b1, k1. rewrite E. done.
Qed.

Lemma splice_take a n (info cs : list Z) :
  (a ≤ n)%nat → (n ≤ length info)%nat →
  take (n - a + length cs) (drop a (splice n cs info)) = take (n - a) (drop a info) ++ cs.
Proof.
  intros Ha Hn. unfold splice. rewrite drop_app_le by (rewrite length_take; lia).
  rewrite take_app_ge by (rewrite length_drop, length_take; lia).
  rewrite length_drop, length_take. replace (n - a + length cs - (n `min` length info - a))%nat with (length cs) by lia.
  rewrite take_app_length. f_equal. rewrite take_drop_commute. do 2 f_equal. lia.
Qed.

(** Inversion of a segment by its first block. *)
Lemma qseg_inv_one m cl cf b l :
  qseg m cl cf [b] l → ∃ k, is_block m b k ∧ c_next k = 0 ∧ b + 4 ≤ cf ∧ cf < cl ≤ b + 32 ∧
    l = take (Z.to_nat (cl - cf)) (drop (Z.to_nat (cf - b - 4)) (c_info k)).
Proof. inversion 1; subst; eauto 10. Qed.
Lemma qseg_inv_more m cl cf b b' bs l :
  qseg m cl cf (b :: b' :: bs) l → ∃ k l', is_block m b k ∧ c_next k = b' ∧ b + 4 ≤ cf < b + 32 ∧
    qseg m cl (b' + 4) (b' :: bs) l' ∧ l = drop (Z.to_nat (cf - b - 4)) (c_info k) ++ l'.
Proof. inversion 1; subst; eauto 10. Qed.

(** Storing [cs] behind the last character, within its block. *)
Lemma qseg_append m cl bs b k cs : ∀ cf l,
  qseg m cl cf (bs ++ [b]) l → b ∉ bs → is_block m b k → cs ≠ [] →
  let k' := Cblock (c_next k) (splice (Z.to_nat (cl - b - 4)) cs (c_info k)) in
  cl + Z.of_nat (length cs) ≤ b + 32 → is_block (<[b := k']> m) b k' →
  qseg (<[b := k']> m) (cl + Z.of_nat (length cs)) cf (bs ++ [b]) (l ++ cs).
Proof.
  induction bs as [|b0 bs IH]; intros cf l Hq Hb Hk Hcs k' Hfit Hk'.
  - destruct (qseg_inv_one _ _ _ _ _ Hq) as (k0 & Hk0 & Hnx & H1 & H2 & ->).
    assert (k0 = k) as -> by (destruct Hk, Hk0; congruence). destruct Hk as (_ & _ & Hlen & _).
    assert (0 < length cs)%nat by (destruct cs; [done|simpl; lia]).
    pose proof (splice_take (Z.to_nat (cf - b - 4)) (Z.to_nat (cl - b - 4)) (c_info k) cs ltac:(lia) ltac:(lia)) as E.
    replace (Z.to_nat (cl - b - 4) - Z.to_nat (cf - b - 4))%nat with (Z.to_nat (cl - cf)) in E by lia.
    rewrite <- E. replace (Z.to_nat (cl - cf) + length cs)%nat
      with (Z.to_nat (cl + Z.of_nat (length cs) - cf)) by lia.
    apply (qseg_last _ _ b k'); try done; lia.
  - assert (∃ b' bs', bs ++ [b] = b' :: bs') as (b' & bs' & E) by (destruct bs; simpl; eauto).
    simpl in Hq |- *. rewrite E in *.
    destruct (qseg_inv_more _ _ _ _ _ _ _ Hq) as (k0 & l' & Hk0 & Hnx & H1 & Hq' & ->).
    rewrite <- app_assoc. apply qseg_cons; try done.
    + eapply is_block_frame; [apply (frame_insert b _ _ [b]); set_solver|set_solver|done].
    + apply IH; try done. set_solver.
Qed.

(** Linking a segment in a new block behind a full last block. *)
Lemma qseg_link m cl bs b k b2 cl2 l2 : ∀ cf l,
  qseg m cl cf (bs ++ [b]) l → b ∉ bs → is_block m b k → cl = b + 32 →
  b2 ∉ bs ++ [b] →
  ∀ m', frame [b; b2] m m' → is_block m' b (Cblock b2 (c_info k)) → qseg m' cl2 (b2 + 4) [b2] l2 →
  qseg m' cl2 cf (bs ++ [b; b2]) (l ++ l2).
Proof.
  induction bs as [|b0 bs IH]; intros cf l Hq Hb Hk Hcl Hb2 m' Hf Hk' Hq2.
  - destruct (qseg_inv_one _ _ _ _ _ Hq) as (k0 & Hk0 & Hnx & H1 & H2 & ->).
    assert (k0 = k) as -> by (destruct Hk, Hk0; congruence). destruct Hk as (_ & _ & Hlen & _).
    rewrite take_ge by (rewrite length_drop; lia).
    apply (qseg_cons _ _ _ (Cblock b2 (c_info k))); try done. lia.
  - assert (∃ b' bs', bs ++ [b] = b' :: bs' ∧ bs ++ [b; b2] = b' :: bs' ++ [b2]) as (b' & bs' & E & E2).
    { destruct bs as [|b1 bs]; simpl; [by eexists _, []|]. eexists _, _. split; [done|]. by rewrite <- app_assoc. }
    simpl in Hq |- *. rewrite E in Hq. rewrite E2.
    destruct (qseg_inv_more _ _ _ _ _ _ _ Hq) as (k0 & l' & Hk0 & Hnx & H1 & Hq' & ->).
    rewrite <- app_assoc. apply qseg_cons; try done.
    + eapply is_block_frame; [done| |done]. simpl in Hb2. set_solver.
    + rewrite <- E2. rewrite <- E in Hq'. apply IH; try done; set_solver.
Qed.

(** [room]: [cq] points at a free character of the last block, and storing
    there continues the queue that starts at [cf] with the characters [l]. *)
Record room (s : cstate) (fs bs : list Z) (cf cq : Z) (l : list Z) : Prop := Room {
  room_pool : pool s fs;
  room_nodup : NoDup (fs ++ bs);
  room_spot : ∃ b k, b ∈ bs ∧ is_block (blocks s) b k ∧ b + 4 ≤ cq < b + 32 ∧
    ∀ cs, cs ≠ [] → cq + Z.of_nat (length cs) ≤ b + 32 →
      let k' := Cblock (c_next k) (splice (Z.to_nat (cq - b - 4)) cs (c_info k)) in
      is_block (<[b := k']> (blocks s)) b k' →
      qseg (<[b := k']> (blocks s)) (cq + Z.of_nat (length cs)) cf bs (l ++ cs)
}.

Lemma NoDup_app_notin (fs bs : list Z) b : NoDup (fs ++ bs) → b ∈ bs → b ∉ fs.
Proof. intros (_ & H & _)%NoDup_app Hb Hf. by apply (H b). Qed.

Lemma pool_frame s s' fs bs :
  pool s fs → frame bs (blocks s) (blocks s') → fs ## bs → cfreelist s' = cfreelist s →
  cfreecount s' = cfreecount s → pool s' fs.
Proof. intros [H1 H2] Hf Hd E1 E2. split; [rewrite E1; by eapply chain_frame|by rewrite E2]. Qed.

Lemma NoDup_app_disj (fs bs : list Z) : NoDup (fs ++ bs) → fs ## bs.
Proof. intros (_ & H & _)%NoDup_app. set_solver. Qed.

Lemma wp_store_room s fs bs cf cq l cs (Q : unit → cstate → Prop) :
  room s fs bs cf cq l → cs ≠ [] → Forall (λ c, 0 ≤ c < 256) cs →
  Z.of_nat (length cs) ≤ 32 - Z.land cq CROUND →
  (∀ s', pool s' fs → qseg (blocks s') (cq + Z.of_nat (length cs)) cf bs (l ++ cs) →
         frame bs (blocks s) (blocks s') → Q tt s') →
  wp (store cq cs) Q s.
Proof.
  intros [Hp Hnd (b & k & Hb & Hk & Hcq & Hst)] Hne Hcs Hfit HQ. pose proof Hk as (_ & Hal & _).
  rewrite (land_in b) in Hfit by (try done; lia). eapply wp_store; [done|done|lia|done|].
  intros Hk'. apply HQ; simpl.
  - eapply pool_frame; [done|apply (frame_insert b _ _ bs); done|by apply NoDup_app_disj|done|done].
  - apply Hst; try done. lia.
  - by apply frame_insert.
Qed.

(** The three places a character can go: behind the last one, *)
Lemma room_tail s fs bs cf cl l :
  pool s fs → NoDup (fs ++ bs) → qseg (blocks s) cl cf bs l → Z.land cl CROUND ≠ 0 → room s fs bs cf cl l.
Proof.
  intros Hp Hnd Hq Hl. split; [done|done|].
  destruct (qseg_last_block _ _ _ _ _ Hq) as (bs0 & b & k & -> & Hk & Hnx & Hcl).
  pose proof Hk as (_ & Hal & _).
  assert (cl ≠ b + 32) by (intros E; destruct Hl; by apply (land_end b)).
  exists b, k. split_and!; [set_solver|done|lia|lia|]. intros cs Hcs Hfit k' Hk'.
  apply qseg_append; try done. apply NoDup_app in Hnd as (_ & _ & Hnd). apply NoDup_app in Hnd. set_solver.
Qed.

Lemma qseg_fresh m b k cs :
  is_block m b (Cblock (c_next k) (splice (Z.to_nat (b + 4 - b - 4)) cs (c_info k))) → c_next k = 0 →
  cs ≠ [] → b + 4 + Z.of_nat (length cs) ≤ b + 32 → qseg m (b + 4 + Z.of_nat (length cs)) (b + 4) [b] cs.
Proof.
  replace (b + 4 - b - 4) with 0 by lia. change (splice (Z.to_nat 0) cs (c_info k)) with (cs ++ drop (length cs) (c_info k)).
  intros Hk Hnx Hcs Hfit. assert (0 < length cs)%nat by (destruct cs; [done|simpl; lia]).
  pose proof (qseg_last m (b + 4 + Z.of_nat (length cs)) b _ (b + 4) Hk Hnx ltac:(lia) ltac:(lia)) as Hq.
  revert Hq. replace (b + 4 - b - 4) with 0 by lia.
  replace (Z.to_nat (b + 4 + Z.of_nat (length cs) - (b + 4))) with (length cs) by lia.
  change (Z.to_nat 0) with 0%nat. rewrite drop_0. cbn [c_info]. by rewrite take_app_length.
Qed.

(** in the first block of an empty queue, *)
Lemma wp_room_first s fs b (Q : unit → cstate → Prop) :
  pool s (b :: fs) → NoDup (b :: fs) →
  (∀ s', room s' fs [b] (b + 4) (b + 4) [] → moved s (b :: fs) [] s' fs [b] → Q tt s') →
  wp (take_block b) Q s.
Proof.
  intros Hp [Hb Hnd]%NoDup_cons HQ. eapply wp_take_block; [done|done|].
  intros s' k Hp' Hk Hnx Hf _ _. pose proof Hk as (Hm & Hal & Hlen & Hch). apply HQ.
  - split; [done| |].
    + apply NoDup_app. split_and!; [done|set_solver|apply NoDup_singleton].
    + exists b, k. split_and!; [set_solver|done|lia|lia|]. intros cs Hcs Hfit k' Hk'. simpl.
      by apply (qseg_fresh _ _ k).
  - split; [rewrite app_nil_r; by rewrite Permutation_app_comm|].
    eapply frame_mono; [|done]. set_solver.
Qed.

(** or in a new block linked behind a full one. *)
Lemma wp_room_next s b2 fs bs cf cl l (Q : unit → cstate → Prop) :
  pool s (b2 :: fs) → NoDup ((b2 :: fs) ++ bs) → qseg (blocks s) cl cf bs l → Z.land cl CROUND = 0 →
  (∀ s', room s' fs (bs ++ [b2]) cf (b2 + 4) l → moved s (b2 :: fs) bs s' fs (bs ++ [b2]) → Q tt s') →
  wp (put_next (cl - CBLOCK) b2;; take_block b2) Q s.
Proof.
  intros Hp Hnd Hq Hl HQ.
  destruct (qseg_last_block _ _ _ _ _ Hq) as (bs0 & b & k & -> & Hk & Hnx & Hcl).
  pose proof Hk as (Hm & Hal & Hlen & Hch).
  assert (cl = b + 32) as ->.
  { destruct (decide (cl = b + 32)); [done|]. rewrite (land_in b) in Hl by (try done; lia). lia. }
  unfold CBLOCK. replace (b + 32 - 32) with b by lia.
  assert (Hsep : b ∉ b2 :: fs ∧ b ∉ bs0 ∧ b2 ∉ bs0 ++ [b] ∧ b2 ∉ fs ∧ NoDup fs ∧ NoDup (bs0 ++ [b]) ∧ fs ## bs0 ++ [b]).
  { apply NoDup_app in Hnd as (N1 & N2 & N3). apply NoDup_cons in N1 as [N1 N1'].
    pose proof N3 as (_ & N4 & _)%NoDup_app. split_and!; try done; set_solver. }
  destruct Hsep as (S1 & S2 & S3 & S4 & S5 & S6 & S7).
  apply wp_bind, (wp_put_next _ k); [done|]. set (s1 := set_blocks _ s).
  assert (Hf1 : frame [b] (blocks s) (blocks s1)) by (apply frame_insert; set_solver).
  assert (Hp1 : pool s1 (b2 :: fs)).
  { eapply pool_frame; [done|done|set_solver|done|done]. }
  eapply wp_take_block; [done|done|]. intros s2 k2 Hp2 Hk2 Hnx2 Hf2 _ _.
  pose proof Hk2 as (Hm2 & Hal2 & Hlen2 & Hch2).
  assert (Hb' : is_block (blocks s2) b (Cblock b2 (c_info k))).
  { split_and!; [|done|done|done]. rewrite Hf2 by set_solver. simpl. by apply lookup_insert_eq. }
  assert (Hf12 : frame [b; b2] (blocks s) (blocks s2)).
  { eapply frame_trans; [|eapply (frame_mono [b2]); [|done]; set_solver]. eapply frame_mono; [|done]. set_solver. }
  apply HQ.
  - split; [done| |].
    { apply NoDup_app. split_and!; [done|set_solver|].
      apply NoDup_app. split_and!; [done|set_solver|apply NoDup_singleton]. }
    exists b2, k2. split_and!; [set_solver|done|lia|lia|]. intros cs Hcs Hfit k' Hk'.
    rewrite <- app_assoc. simpl.
    apply (qseg_link (blocks s) (b + 32) bs0 b k); try done.
    + eapply frame_trans; [done|]. apply frame_insert. set_solver.
    + eapply is_block_frame; [apply (frame_insert b2 _ _ [b2]); set_solver|set_solver|done].
    + by apply (qseg_fresh _ _ k2).
  - split; [|eapply frame_mono; [|done]; set_solver]. simpl. by rewrite app_assoc, <- Permutation_cons_append.
Qed.

(** ** How much a queue can take: the rest of its last block and every free
    block. *)
Definition tail_room (cl : Z) : Z := if cl =? 0 then 0 else (- cl) mod 32.
Definition capacity (fs : list Z) (q : clist) : Z := tail_room (c_cl q) + CBSIZE * Z.of_nat (length fs).

Lemma tail_room_end cl : Z.land cl CROUND = 0 → tail_room cl = 0.
Proof. unfold tail_room. rewrite land_CROUND. intros E. case_match; [done|]. apply Z.mod_opp_l_z; lia. Qed.
Lemma tail_room_in cl : Z.land cl CROUND ≠ 0 → tail_room cl = 32 - Z.land cl CROUND.
Proof.
  unfold tail_room. rewrite land_CROUND. intros E. destruct (Z.eqb_spec cl 0) as [->|]; [done|].
  apply Z.mod_opp_l_nz; lia.
Qed.

Lemma pool_free s fs : pool s fs → cfreelist s = match fs with [] => 0 | b :: _ => b end.
Proof. intros [Hc _]. by inversion Hc. Qed.
Lemma pool_head_pos s b fs : pool s (b :: fs) → 0 < b.
Proof. intros [(_ & k & (_ & [? _] & _) & _)%chain_inv _]. done. Qed.

(** The link of the last block is already NULL, so storing NULL there again
    changes nothing. *)
Lemma wp_put_next_null s cl cf bs l (Q : unit → cstate → Prop) :
  qseg (blocks s) cl cf bs l → Z.land cl CROUND = 0 → Q tt s → wp (put_next (cl - CBLOCK) 0) Q s.
Proof.
  intros Hq Hl HQ. destruct (qseg_last_block _ _ _ _ _ Hq) as (bs0 & b & k & _ & Hk & Hnx & Hcl).
  pose proof Hk as (Hm & Hal & _). assert (cl = b + 32) as ->.
  { destruct (decide (cl = b + 32)); [done|]. rewrite (land_in b) in Hl by (try done; lia). lia. }
  unfold CBLOCK. replace (b + 32 - 32) with b by lia. apply (wp_put_next _ k); [done|].
  rewrite <- Hnx, insert_id; [by destruct s|]. by destruct k.
Qed.

(** [q'] is [q] with [cs] behind it. *)
Definition extended (s : cstate) (fs bs : list Z) (l cs : list Z) (q' : clist) (s' : cstate) : Prop :=
  ∃ fs' bs', owns s' fs' bs' q' (l ++ cs) ∧ moved s fs bs s' fs' bs'.

Lemma qseg_pos m cl cf bs l : qseg m cl cf bs l → 0 < cl.
Proof. intros (bs0 & b & k & _ & (_ & [? _] & _) & _ & ?)%qseg_last_block. lia. Qed.

Lemma frame_moved s s' fs bs : frame bs (blocks s) (blocks s') → moved s fs bs s' fs bs.
Proof. intros Hf. split; [done|]. eapply frame_mono; [|done]. set_solver. Qed.

Lemma wp_putc s fs bs q l c :
  owns s fs bs q l →
  wp (putc c q) (λ '(r, q') s',
    if 0 <? capacity fs q then r = 0 ∧ extended s fs bs l [u8 c] q' s'
    else r = -1 ∧ q' = q ∧ s' = s) s.
Proof.
  intros Ho. pose proof (owns_cc _ _ _ _ _ Ho) as Hcc. pose proof Ho as [Hp [_ Hq] Hnd].
  pose proof (pool_free _ _ Hp) as Hfree. pose proof (u8_range c) as Hc.
  assert (Hch : Forall (λ c, 0 ≤ c < 256) [u8 c]) by by apply Forall_singleton.
  unfold putc, capacity. destruct Hq as [(-> & -> & Hcf & Hcl)|Hq].
  - rewrite Hcl. simpl orb. apply wp_bind, wp_gets. rewrite Hfree. destruct fs as [|b fs].
    { simpl. by wp_go. }
    pose proof (pool_head_pos _ _ _ Hp). destruct (Z.eqb_spec b 0); [lia|].
    replace (0 <? _) with true by (symmetry; apply Z.ltb_lt; unfold tail_room, CBSIZE; simpl; lia).
    apply wp_bind. rewrite app_nil_r in Hnd. eapply wp_room_first; [done|done|].
    intros s1 Hr Hm1. apply wp_bind. eapply wp_store_room; [done|done|done| |].
    { rewrite (land_in b); [simpl; lia| |lia]. destruct (chain_inv _ _ _ _ (pool_chain _ _ Hp)) as (_ & k & (_ & ? & _) & _). done. }
    intros s2 Hp2 Hq2 Hf2. wp_go. split; [done|]. exists fs, [b]. split.
    + split; [done| |apply (room_nodup _ _ _ _ _ _ Hr)]. split; [simpl; rewrite Hcc; simpl; lia|]. by right.
    + eapply moved_trans; [done|by apply frame_moved].
  - pose proof (qseg_pos _ _ _ _ _ Hq). rewrite Hcc.
    destruct (Z.eqb_spec (c_cl q) 0); [lia|]. destruct (Z.ltb_spec (Z.of_nat (length l)) 0); [lia|]. simpl orb.
    destruct (Z.eqb_spec (Z.land (c_cl q) CROUND) 0) as [El|El].
    + rewrite tail_room_end by done. apply wp_bind, wp_gets. rewrite Hfree. destruct fs as [|b fs].
      { apply wp_bind. eapply wp_put_next_null; [done|done|]. simpl. by wp_go. }
      pose proof (pool_head_pos _ _ _ Hp).
      replace (0 <? _) with true by (symmetry; apply Z.ltb_lt; unfold CBSIZE; simpl; lia).
      pose proof (wp_room_next s b fs bs (c_cf q) (c_cl q) l) as Hnext.
      eapply (wp_mono _ (λ '(r, q') s', r = 0 ∧ extended s (b :: fs) bs l [u8 c] q' s')); [|by intros [? ?] ?].
      destruct (Z.eqb_spec b 0); [lia|].
      apply wp_assoc, Hnext; try done. intros s1 Hr Hm1. apply wp_bind. eapply wp_store_room; [done|done|done| |].
      { rewrite (land_in b); [simpl; lia| |lia]. destruct (chain_inv _ _ _ _ (pool_chain _ _ Hp)) as (_ & k & (_ & ? & _) & _). done. }
      intros s2 Hp2 Hq2 Hf2. wp_go. split; [done|]. exists fs, (bs ++ [b]). split.
      * split; [done| |apply (room_nodup _ _ _ _ _ _ Hr)].
        split; [simpl; rewrite length_app; simpl; lia|]. by right.
      * eapply moved_trans; [done|by apply frame_moved].
    + pose proof (owns_nodup _ _ _ _ _ Ho) as Hnd'.
      assert (Hland : 0 ≤ Z.land (c_cl q) CROUND < 32) by (rewrite land_CROUND; apply Z.mod_pos_bound; lia).
      replace (0 <? _) with true by (symmetry; apply Z.ltb_lt; rewrite tail_room_in by done; unfold CBSIZE; lia).
      apply wp_bind. eapply wp_store_room; [by apply room_tail|done|done|simpl; lia|].
      intros s2 Hp2 Hq2 Hf2. wp_go. split; [done|]. exists fs, bs. split.
      * split; [done| |done]. split; [simpl; rewrite length_app; simpl; lia|]. by right.
      * by apply frame_moved.
Qed.

Lemma tail_room_nonneg cl : 0 ≤ tail_room cl.
Proof. unfold tail_room. case_match; [done|]. apply Z.mod_pos_bound. lia. Qed.

Lemma room_land s fs bs cf cq l : room s fs bs cf cq l → 4 ≤ Z.land cq CROUND < 32.
Proof. intros [_ _ (b & k & _ & (_ & Hal & _) & Hcq & _)]. rewrite (land_in b) by (try done; lia). lia. Qed.

(** After storing up to the end of the block, nothing is left of it. *)
Lemma tail_room_full cq : 4 ≤ Z.land cq CROUND < 32 → tail_room (cq + (32 - Z.land cq CROUND)) = 0.
Proof.
  intros Hl. apply tail_room_end. rewrite !land_CROUND in *.
  replace (cq + (32 - cq mod 32)) with (32 * (cq / 32 + 1)) by (pose proof (Z.div_mod cq 32); lia).
  rewrite Z.mul_comm. by apply Z.mod_mul.
Qed.

Lemma map_u8_chars cs : Forall (λ c, 0 ≤ c < 256) (map u8 cs).
Proof. apply Forall_map, Forall_true. intros c. apply u8_range. Qed.

(** Enough turns of the loop for [cs] from the tail pointer [cq] on. *)
Definition turns (cq : Z) (cs : list Z) (fuel : nat) : Prop :=
  (0 < fuel)%nat ∧
  (cs ≠ [] → Z.of_nat (length cs) ≤
     tail_room cq + 28 * (Z.of_nat fuel - if tail_room cq =? 0 then 1 else 2)).

(** What [b_to_q_loop] promises for [cs], from a queue [l] with tail [cq]. *)
Definition filled (s : cstate) (fs bs : list Z) (cf cq : Z) (l cs rest : list Z) (cq' : Z) (s' : cstate) : Prop :=
  let n := Z.to_nat (Z.min (Z.of_nat (length cs)) (tail_room cq + 28 * Z.of_nat (length fs))) in
  ∃ fs' bs', rest = drop n cs ∧ pool s' fs' ∧ NoDup (fs' ++ bs') ∧
    qseg (blocks s') cq' cf bs' (l ++ map u8 (take n cs)) ∧ moved s fs bs s' fs' bs'.

(** One chunk, then the rest of the loop. *)
Lemma wp_b_to_q_chunk fuel s fs bs cf cq l cs s1 fs1 bs1 cq1 :
  (∀ s fs bs cf cq l cs, pool s fs → NoDup (fs ++ bs) → qseg (blocks s) cq cf bs l → turns cq cs fuel →
     wp (b_to_q_loop fuel cs cq) (λ '(rest, cq'), filled s fs bs cf cq l cs rest cq') s) →
  cs ≠ [] → room s1 fs1 bs1 cf cq1 l → moved s fs bs s1 fs1 bs1 →
  tail_room cq1 + 28 * Z.of_nat (length fs1) = tail_room cq + 28 * Z.of_nat (length fs) →
  turns cq1 cs (S fuel) →
  wp (let nc := Z.to_nat (Z.min (Z.of_nat (length cs)) (CBLOCK - Z.land cq1 CROUND)) in
      store cq1 (map u8 (take nc cs));;
      b_to_q_loop fuel (drop nc cs) (cq1 + Z.of_nat nc)) (λ '(rest, cq'), filled s fs bs cf cq l cs rest cq') s1.
Proof.
  intros IH Hcs Hr Hm Hcap [_ Hturn]. specialize (Hturn Hcs). pose proof (room_land _ _ _ _ _ _ Hr) as Hland.
  rewrite (tail_room_in cq1) in Hcap, Hturn by lia.
  assert (0 < length cs)%nat by (destruct cs; [done|simpl; lia]).
  remember (Z.min (Z.of_nat (length cs)) (CBLOCK - Z.land cq1 CROUND)) as nc eqn:Enc. unfold CBLOCK in Enc.
  cbv zeta. assert (Elen : length (map u8 (take (Z.to_nat nc) cs)) = Z.to_nat nc) by (rewrite length_map, length_take; lia).
  apply wp_bind. eapply wp_store_room; [done| |apply map_u8_chars|rewrite Elen; lia|].
  { intros E. rewrite E in Elen. simpl in Elen. lia. }
  intros s2 Hp2 Hq2 Hf2. rewrite Elen in Hq2. rewrite Z2Nat.id in Hq2 |- * by lia.
  assert (Htr : drop (Z.to_nat nc) cs ≠ [] → tail_room (cq1 + nc) = 0).
  { intros Hne. destruct (decide (nc = 32 - Z.land cq1 CROUND)) as [->|]; [by apply tail_room_full|].
    destruct Hne. apply drop_ge. lia. }
  eapply wp_mono; [apply (IH s2 fs1 bs1 cf _ (l ++ map u8 (take (Z.to_nat nc) cs)) (drop (Z.to_nat nc) cs)); try done|].
  - apply (room_nodup _ _ _ _ _ _ Hr).
  - destruct (Z.eqb_spec (32 - Z.land cq1 CROUND) 0); [lia|]. split; [lia|]. intros Hne.
    rewrite (Htr Hne). simpl. rewrite length_drop. lia.
  - intros [rest cq'] s' (fs' & bs' & -> & Hp' & Hnd' & Hq' & Hm'). unfold filled.
    rewrite length_drop in *.
    set (n := Z.to_nat (Z.min (Z.of_nat (length cs)) (tail_room cq + 28 * Z.of_nat (length fs)))) in *.
    set (n' := Z.to_nat (Z.min _ _)) in *.
    assert (En : n = (Z.to_nat nc + n')%nat).
    { unfold n, n'. pose proof (tail_room_nonneg (cq1 + nc)).
      destruct (decide (length cs ≤ Z.to_nat nc)%nat); [lia|].
      rewrite Htr; [lia|]. intros E. apply (f_equal length) in E. rewrite length_drop in E. simpl in E. lia. }
    exists fs', bs'. split_and!; [by rewrite drop_drop, En|done|done| |].
    + rewrite <- app_assoc, <- map_app, take_take_drop in Hq'. by rewrite En.
    + eapply moved_trans; [done|]. eapply moved_trans; [by apply frame_moved|done].
Qed.

Lemma wp_b_to_q_loop fuel : ∀ s fs bs cf cq l cs,
  pool s fs → NoDup (fs ++ bs) →
  (qseg (blocks s) cq cf bs l ∨ (cs ≠ [] ∧ room s fs bs cf cq l)) → turns cq cs fuel →
  wp (b_to_q_loop fuel cs cq) (λ '(rest, cq'), filled s fs bs cf cq l cs rest cq') s.
Proof.
  induction fuel as [|fuel IH]; intros s fs bs cf cq l cs Hp Hnd Hst Hturn; [destruct Hturn; lia|].
  destruct (decide (cs = [])) as [->|Hcs].
  { destruct Hst as [Hq|[? _]]; [|done]. simpl. wp_go. exists fs, bs. pose proof (tail_room_nonneg cq).
    replace (Z.to_nat _) with 0%nat by (simpl; lia). rewrite app_nil_r. split_and!; done. }
  assert (IH' : ∀ s fs bs cf cq l cs, pool s fs → NoDup (fs ++ bs) → qseg (blocks s) cq cf bs l → turns cq cs fuel →
     wp (b_to_q_loop fuel cs cq) (λ '(rest, cq'), filled s fs bs cf cq l cs rest cq') s) by eauto.
  destruct cs as [|c cs']; [done|]. cbn [b_to_q_loop]. set (cs := c :: cs') in *. apply wp_bind.
  destruct (Z.eqb_spec (Z.land cq CROUND) 0) as [El|El].
  - destruct Hst as [Hq|[_ Hr]]; [|pose proof (room_land _ _ _ _ _ _ Hr); lia].
    apply wp_bind, wp_gets. rewrite (pool_free _ _ Hp). destruct fs as [|b fs].
    { apply wp_bind. eapply wp_put_next_null; [done|done|]. simpl. wp_go. exists [], bs.
      rewrite tail_room_end by done. replace (Z.to_nat _) with 0%nat by (simpl length; lia).
      simpl. rewrite app_nil_r. split_and!; try done. }
    pose proof (pool_head_pos _ _ _ Hp). destruct (Z.eqb_spec b 0); [lia|].
    apply wp_assoc. eapply wp_room_next; [done|done|done|done|]. intros s1 Hr Hm. apply wp_ret.
    assert (Z.land (b + 4) CROUND = 4) as E4.
    { rewrite (land_in b); [lia| |lia]. destruct (chain_inv _ _ _ _ (pool_chain _ _ Hp)) as (_ & k & (_ & ? & _) & _). done. }
    eapply wp_b_to_q_chunk; try done.
    + rewrite (tail_room_end cq), (tail_room_in (b + 4)) by lia. simpl length. lia.
    + destruct Hturn as [_ Ht]. rewrite (tail_room_end cq) in Ht by done. simpl in Ht. split; [lia|]. intros _.
      rewrite (tail_room_in (b + 4)) by lia. rewrite E4. simpl. specialize (Ht Hcs). simpl in Ht. lia.
  - apply wp_ret. eapply wp_b_to_q_chunk; try done.
    destruct Hst as [Hq|[_ Hr]]; [by apply room_tail|done].
Qed.

Lemma extended_nil s fs bs q l : owns s fs bs q l → extended s fs bs l [] q s.
Proof. intros Ho. exists fs, bs. rewrite app_nil_r. split; [done|apply moved_refl]. Qed.

Lemma wp_b_to_q s fs bs q l cs fuel :
  owns s fs bs q l → Z.of_nat (length cs) ≤ 28 * (Z.of_nat fuel - 2) →
  wp (b_to_q fuel cs q) (λ '(r, q') s',
    let n := Z.min (Z.of_nat (length cs)) (capacity fs q) in
    r = Z.of_nat (length cs) - n ∧ extended s fs bs l (map u8 (take (Z.to_nat n) cs)) q' s') s.
Proof.
  intros Ho Hfuel. pose proof (owns_cc _ _ _ _ _ Ho) as Hcc. pose proof Ho as [Hp [_ Hq] Hnd].
  pose proof (tail_room_nonneg (c_cl q)) as Htr0.
  unfold b_to_q. destruct (Nat.eqb_spec (length cs) 0) as [E0|E0].
  { destruct cs; [|done]. wp_go. unfold capacity, CBSIZE. rewrite Z.min_l by (simpl; lia). simpl.
    split; [done|]. by eapply extended_nil. }
  assert (Hcs : cs ≠ []) by (intros ->; done).
  assert (Hturn : ∀ cq, turns cq cs fuel).
  { intros cq. split; [lia|]. intros _. pose proof (tail_room_nonneg cq). case_match; lia. }
  (* the loop, once it has somewhere to start *)
  assert (Hgo : ∀ s1 fs1 bs1 cf cq, moved s fs bs s1 fs1 bs1 → pool s1 fs1 → NoDup (fs1 ++ bs1) →
    (qseg (blocks s1) cq cf bs1 l ∨ (cs ≠ [] ∧ room s1 fs1 bs1 cf cq l)) →
    tail_room cq + 28 * Z.of_nat (length fs1) = capacity fs q →
    wp ('(rest, cq) ← b_to_q_loop fuel cs cq;
        mret (Z.of_nat (length rest),
              Clist (c_cc q + (Z.of_nat (length cs) - Z.of_nat (length rest))) cf cq))
      (λ '(r, q') s', let n := Z.min (Z.of_nat (length cs)) (capacity fs q) in
        r = Z.of_nat (length cs) - n ∧ extended s fs bs l (map u8 (take (Z.to_nat n) cs)) q' s') s1).
  { intros s1 fs1 bs1 cf cq Hm Hp1 Hnd1 Hst Hcap. apply wp_bind.
    eapply wp_mono; [by apply (wp_b_to_q_loop fuel s1 fs1 bs1 cf cq l cs)|].
    intros [rest cq'] s' (fs' & bs' & -> & Hp' & Hnd' & Hq' & Hm'). rewrite Hcap in *. wp_go.
    assert (0 ≤ capacity fs q) by (unfold capacity, CBSIZE; lia).
    rewrite length_drop. split; [lia|]. exists fs', bs'. split; [|by eapply moved_trans].
    split; [done| |done]. split; [|by right]. simpl. rewrite length_app, length_map, length_take. lia. }
  destruct Hq as [(-> & -> & Hcf & Hcl)|Hq].
  - rewrite Hcl. simpl orb. apply wp_bind, wp_bind, wp_gets. rewrite (pool_free _ _ Hp). destruct fs as [|b fs].
    { simpl. wp_go. unfold capacity, tail_room. rewrite Hcl. simpl. rewrite Z.min_r by lia. split; [lia|].
      by eapply extended_nil. }
    pose proof (pool_head_pos _ _ _ Hp). destruct (Z.eqb_spec b 0); [lia|]. rewrite app_nil_r in Hnd.
    apply wp_bind. eapply wp_room_first; [done|done|]. intros s1 Hr Hm. wp_step. cbv beta.
    pose proof (room_land _ _ _ _ _ _ Hr).
    apply (Hgo s1 fs [b]); [done|apply Hr|apply Hr|by right|].
    assert (Z.land (b + 4) CROUND = 4) as E4.
    { rewrite (land_in b); [lia| |lia]. destruct (chain_inv _ _ _ _ (pool_chain _ _ Hp)) as (_ & k & (_ & ? & _) & _). done. }
    rewrite tail_room_in by lia. unfold capacity, tail_room, CBSIZE. rewrite Hcl, E4. simpl length. simpl. lia.
  - pose proof (qseg_pos _ _ _ _ _ Hq). destruct (Z.eqb_spec (c_cl q) 0); [lia|].
    rewrite Hcc. destruct (Z.ltb_spec (Z.of_nat (length l)) 0); [lia|]. simpl orb. apply wp_bind, wp_ret.
    rewrite <- Hcc. apply (Hgo s fs bs); try done. by left.
Qed.

(** ** Two queues on one pool *)
Record owns2 (s : cstate) (fs bf : list Z) (from : clist) (lf bt : list Z) (to : clist) (lt : list Z) : Prop := Owns2 {
  o2_pool : pool s fs;
  o2_from : queue (blocks s) from bf lf;
  o2_to : queue (blocks s) to bt lt;
  o2_nodup : NoDup (fs ++ bf ++ bt)
}.

Lemma owns2_left s fs bf from lf bt to lt : owns2 s fs bf from lf bt to lt → owns s fs bf from lf.
Proof. intros [H1 H2 H3 H4]. split; [done|done|]. rewrite app_assoc in H4. by apply NoDup_app in H4 as (? & _). Qed.
Lemma owns2_swap s fs bf from lf bt to lt :
  owns2 s fs bf from lf bt to lt → owns2 s fs bt to lt bf from lf.
Proof. intros [H1 H2 H3 H4]. split; try done. by rewrite (Permutation_app_comm bt bf). Qed.

(** An operation on one queue leaves the other alone. *)
Lemma owns2_step s fs bf from lf bt to lt s' fs' bf' from' lf' :
  owns2 s fs bf from lf bt to lt → owns s' fs' bf' from' lf' → moved s fs bf s' fs' bf' →
  owns2 s' fs' bf' from' lf' bt to lt.
Proof.
  intros [H1 H2 H3 H4] [G1 G2 G3] [Hperm Hf]. split; [done|done| |].
  - eapply queue_frame; [done| |done]. rewrite app_assoc in H4. apply NoDup_app_disj in H4. set_solver.
  - by rewrite app_assoc, Hperm, <- app_assoc.
Qed.

Lemma owns_off s fs bs q l :
  owns s fs bs q l → l ≠ [] →
  ∃ b, 0 ≤ head_off q < 28 ∧ aligned b ∧ c_cf q = b + 4 + head_off q ∧
    Z.of_nat (length l) + head_off q ≤ 28 * Z.of_nat (length bs) ∧
    28 * (Z.of_nat (length bs) - 1) < Z.of_nat (length l) + head_off q.
Proof.
  intros Ho Hl. pose proof (owns_cons_seg _ _ _ _ _ Ho Hl) as Hq.
  destruct (qseg_head _ _ _ _ _ Hq) as (b & bs' & k & -> & (_ & Hal & _) & Hcf & _).
  destruct (qseg_length _ _ _ _ _ Hq) as (b0 & bs0 & [= <- <-] & ? & ? & ? & ?).
  exists b. unfold head_off. rewrite (off_mod b) by (try done; lia). simpl length in *. split_and!; try done; lia.
Qed.

(** Taking characters off a queue frees enough blocks to hold them. *)
Lemma advanced_frees s fs bs q l n q' s' fs' bs' :
  owns s fs bs q l → owns s' fs' bs' q' (drop (Z.to_nat n) l) → moved s fs bs s' fs' bs' →
  (n < Z.of_nat (length l) → head_off q' = (head_off q + n) mod 28) →
  (n = Z.of_nat (length l) ∨ n = 112 ∧ 112 < Z.of_nat (length l)) →
  n ≤ 28 * Z.of_nat (length fs').
Proof.
  intros Ho Ho' [Hperm _] Hh Hn. apply Permutation_length in Hperm. rewrite !length_app in Hperm.
  destruct (decide (l = [])) as [->|Hl]; [simpl in Hn; lia|].
  destruct (owns_off _ _ _ _ _ Ho Hl) as (_ & H1 & _ & _ & H2 & H3).
  destruct Hn as [Hn|[-> Hlt]].
  - rewrite drop_ge in Ho' by lia. destruct (owns_nil _ _ _ _ Ho') as [-> _]. simpl in Hperm. lia.
  - destruct (owns_off _ _ _ _ _ Ho') as (_ & H4 & _ & _ & H5 & H6).
    { intros E. apply (f_equal length) in E. rewrite length_drop in E. simpl in E. lia. }
    rewrite length_drop in H5, H6. rewrite (Hh Hlt) in H5, H6.
    replace (head_off q + 112) with (head_off q + 4 * 28) in H5, H6 by lia.
    rewrite Z.mod_add, Z.mod_small in H5, H6 by lia. lia.
Qed.

Lemma map_u8_id cs : Forall (λ c, 0 ≤ c < 256) cs → map u8 cs = cs.
Proof. induction 1 as [|c cs Hc _ IH]; [done|]. simpl. by rewrite u8_id, IH. Qed.

Lemma wp_catq_loop fuel : ∀ s fs bf from lf bt to lt,
  owns2 s fs bf from lf bt to lt → Z.of_nat (length lf) ≤ 112 * (Z.of_nat fuel - 1) → (0 < fuel)%nat →
  wp (catq_loop fuel from to) (λ '(from', to') s', ∃ fs' bt',
    owns2 s' fs' [] from' [] bt' to' (lt ++ lf) ∧ fs' ++ bt' ≡ₚ fs ++ bf ++ bt ∧
    frame (fs ++ bf ++ bt) (blocks s) (blocks s')) s.
Proof.
  induction fuel as [|fuel IH]; intros s fs bf from lf bt to lt Ho Hfuel Hf0; [lia|].
  pose proof (owns2_left _ _ _ _ _ _ _ _ Ho) as Hof. pose proof (owns_cc _ _ _ _ _ Hof) as Hcc.
  cbn [catq_loop]. rewrite Hcc. destruct (Z.ltb_spec 0 (Z.of_nat (length lf))).
  2: { destruct lf; [|simpl in *; lia]. destruct (owns_nil _ _ _ _ Hof) as [-> ->]. wp_go.
       exists fs, bt. rewrite app_nil_r. by split_and!. }
  assert (Hne : lf ≠ []) by (intros ->; simpl in *; lia).
  apply wp_bind. eapply wp_mono; [apply (wp_q_to_b s fs bf from lf); [done|unfold CBSIZE; lia]|].
  intros [bbuf from1] s1 (-> & n & En & fs1 & bf1 & Ho1 & Hm1 & Hh1).
  change (Z.to_nat (CBSIZE * 4)) with (Z.to_nat 112). change (CBSIZE * 4) with 112 in En.
  assert (Eb : take (Z.to_nat 112) lf = take (Z.to_nat n) lf).
  { destruct (decide (n = 112)) as [->|]; [done|]. rewrite !take_ge by lia. done. }
  rewrite Eb. assert (Elen : length (take (Z.to_nat n) lf) = Z.to_nat n) by (rewrite length_take; lia).
  pose proof (owns2_swap _ _ _ _ _ _ _ _ (owns2_step _ _ _ _ _ _ _ _ _ _ _ _ _ Ho Ho1 Hm1)) as Ho1'.
  pose proof (advanced_frees _ _ _ _ _ _ _ _ _ _ Hof Ho1 Hm1 Hh1 ltac:(lia)) as Hcap.
  apply wp_bind. eapply wp_mono; [apply (wp_b_to_q s1 fs1 bt to lt (take (Z.to_nat n) lf) 6);
    [by eapply owns2_left|rewrite Elen; lia]|].
  intros [r to1] s2 [_ (fs2 & bt2 & Ho2 & Hm2)]. pose proof (tail_room_nonneg (c_cl to)).
  rewrite Elen, Z.min_l in Ho2 by (unfold capacity, CBSIZE; lia).
  rewrite take_ge in Ho2 by (rewrite Elen; lia).
  rewrite map_u8_id in Ho2 by (apply Forall_take; by eapply qseg_chars, owns_cons_seg).
  pose proof (owns2_swap _ _ _ _ _ _ _ _ (owns2_step _ _ _ _ _ _ _ _ _ _ _ _ _ Ho1' Ho2 Hm2)) as Ho2'.
  eapply wp_mono; [apply (IH _ _ _ _ _ _ _ _ Ho2'); rewrite ?length_drop; lia|].
  intros [from3 to3] s3 (fs3 & bt3 & Ho3 & P3 & F3). exists fs3, bt3.
  rewrite <- app_assoc, take_drop in Ho3.
  assert (P : fs2 ++ bf1 ++ bt2 ≡ₚ fs ++ bf ++ bt).
  { rewrite (Permutation_app_comm bf1), app_assoc, (moved_perm _ _ _ _ _ _ Hm2), <- app_assoc,
      (Permutation_app_comm bt), app_assoc, (moved_perm _ _ _ _ _ _ Hm1), <- app_assoc. done. }
  split_and!; [done|by rewrite P3|]. destruct Hm1 as [P1 F1], Hm2 as [P2 F2].
  assert (P1' : ∀ b, b ∈ fs1 → b ∈ fs ++ bf) by (intros b Hb; rewrite <- P1; set_solver).
  eapply frame_trans; [eapply frame_mono; [|exact F1]; set_solver|].
  eapply frame_trans; [eapply frame_mono; [|exact F2]; set_solver|].
  eapply frame_mono; [|exact F3]. intros b. by rewrite P.
Qed.

(** ** Taking the last character back *)
Lemma qseg_back m cl bs b k : ∀ cf l,
  qseg m cl cf (bs ++ [b]) l → is_block m b k →
  ∃ l0 c, l = l0 ++ [c] ∧ c_info k !! Z.to_nat (cl - 1 - b - 4) = Some c ∧
    ((match bs with [] => cf | _ => b + 4 end) < cl - 1 → qseg m (cl - 1) cf (bs ++ [b]) l0).
Proof.
  induction bs as [|b0 bs IH]; intros cf l Hq Hk.
  - destruct (qseg_inv_one _ _ _ _ _ Hq) as (k0 & Hk0 & Hnx & H1 & H2 & ->).
    assert (k0 = k) as -> by (destruct Hk, Hk0; congruence). pose proof Hk as (_ & _ & Hlen & _).
    destruct (lookup_lt_is_Some_2 (c_info k) (Z.to_nat (cl - 1 - b - 4))) as [c Hc]; [lia|].
    exists (take (Z.to_nat (cl - 1 - cf)) (drop (Z.to_nat (cf - b - 4)) (c_info k))), c. split_and!; [|done|].
    + replace (Z.to_nat (cl - cf)) with (S (Z.to_nat (cl - 1 - cf))) by lia. apply take_S_r.
      rewrite lookup_drop. rewrite <- Hc. f_equal. lia.
    + intros Hlt. apply (qseg_last _ _ b k); try done; lia.
  - assert (∃ b' bs', bs ++ [b] = b' :: bs' ∧ (bs = [] → b' = b)) as (b' & bs' & E & Eb).
    { destruct bs as [|b1 bs]; simpl; eexists _, _; (split; [done|]); [done|discriminate]. }
    simpl in Hq |- *. rewrite E in *.
    destruct (qseg_inv_more _ _ _ _ _ _ _ Hq) as (k0 & l' & Hk0 & Hnx & H1 & Hq' & ->).
    destruct (IH (b' + 4) l' Hq' Hk) as (l0 & c & -> & Hc & Hq0).
    exists (drop (Z.to_nat (cf - b0 - 4)) (c_info k0) ++ l0), c. rewrite <- app_assoc. split_and!; [done|done|].
    intros Hlt. apply qseg_cons; try done. apply Hq0. destruct bs; [|done]. by rewrite Eb.
Qed.

(** The blocks of a queue of two or more, cut before the last one. *)
Lemma qseg_unlink m m' cl bs b1 b k1 c : ∀ cf l0,
  qseg m cl cf (bs ++ [b1; b]) (l0 ++ [c]) → cl = b + 5 → is_block m b1 k1 → NoDup (bs ++ [b1; b]) →
  frame [b1; b] m m' → is_block m' b1 (Cblock 0 (c_info k1)) →
  qseg m' (b1 + 32) cf (bs ++ [b1]) l0.
Proof.
  induction bs as [|b0 bs IH]; intros cf l0 Hq Hcl Hk Hnd Hf Hk'.
  - destruct (qseg_inv_more _ _ _ _ _ _ _ Hq) as (k0 & l' & Hk0 & Hnx & H1 & Hq' & El).
    assert (k0 = k1) as -> by (destruct Hk, Hk0; congruence).
    destruct (qseg_length _ _ _ _ _ Hq') as (b0 & bs0 & [= <- <-] & ? & Hlen' & ? & ?).
    destruct (qseg_inv_one _ _ _ _ _ Hq') as (k2 & Hk2 & _ & _ & _ & El').
    pose proof Hk2 as (_ & _ & Hl2 & _).
    assert (length l' = 1%nat) as E1 by (rewrite El', length_take, length_drop; lia).
    destruct l' as [|c' [|]]; try done. apply app_inj_tail in El as [-> ->].
    pose proof (qseg_last m' (b1 + 32) b1 _ cf Hk' eq_refl ltac:(lia) ltac:(lia)) as Hq2. simpl in Hq2.
    rewrite take_ge in Hq2; [done|]. destruct Hk as (_ & _ & Hlen & _). rewrite length_drop. lia.
  - assert (∃ b' bs', bs ++ [b1; b] = b' :: bs' ++ [b] ∧ bs ++ [b1] = b' :: bs') as (b' & bs' & E & E2).
    { destruct bs as [|b2 bs]; simpl; [by eexists _, []|]. exists b2, (bs ++ [b1]). by rewrite <- app_assoc. }
    simpl in Hq |- *. rewrite E in Hq. rewrite E2.
    destruct (qseg_inv_more _ _ _ _ _ _ _ Hq) as (k0 & l' & Hk0 & Hnx & H1 & Hq' & El).
    assert (∃ l1, l' = l1 ++ [c] ∧ l0 = drop (Z.to_nat (cf - b0 - 4)) (c_info k0) ++ l1) as (l1 & -> & ->).
    { destruct (qseg_length _ _ _ _ _ Hq') as (_ & _ & _ & _ & _ & _ & Hpos).
      destruct l' as [|x l' _] using rev_ind; [simpl in Hpos; lia|]. rewrite app_assoc in El.
      apply app_inj_tail in El as [-> ->]. eauto. }
    simpl in Hnd. apply NoDup_cons in Hnd as [Hb0 Hnd]. apply qseg_cons; try done.
    + eapply is_block_frame; [done| |done]. set_solver.
    + rewrite <- E2. rewrite <- E in Hq'. by apply IH.
Qed.

(** The walk from the first block to the last but one. *)
Lemma wp_find_prev fuel : ∀ s cl cf bs b1 b l h,
  qseg (blocks s) cl cf (bs ++ [b1; b]) l → NoDup (bs ++ [b1; b]) →
  head (bs ++ [b1; b]) = Some h → (length bs < fuel)%nat →
  wp (find_prev fuel h b) (λ r s', r = b1 ∧ s' = s) s.
Proof.
  induction fuel as [|fuel IH]; intros s cl cf bs b1 b l h Hq Hnd Hh Hf; [lia|].
  cbn [find_prev]. destruct bs as [|b0 bs].
  - simpl in Hh. injection Hh as <-.
    destruct (qseg_inv_more _ _ _ _ _ _ _ Hq) as (k0 & l' & Hk0 & Hnx & _).
    apply wp_bind, (wp_next _ k0); [apply Hk0|]. rewrite Hnx, Z.eqb_refl. by wp_go.
  - simpl in Hh. injection Hh as <-.
    assert (∃ b' bs', bs ++ [b1; b] = b' :: bs' ∧ b' ≠ b) as (b' & bs' & E & Hne).
    { simpl in Hnd. apply NoDup_cons in Hnd as [_ Hnd]. apply NoDup_app in Hnd as (_ & Hd & Hnd).
      destruct bs as [|b2 bs]; simpl.
      - exists b1, [b]. split; [done|]. intros ->. apply NoDup_cons in Hnd as [Hnd _]. set_solver.
      - eexists _, _. split; [done|]. intros ->. apply (Hd b); set_solver. }
    simpl in Hq, Hnd. rewrite E in Hq.
    destruct (qseg_inv_more _ _ _ _ _ _ _ Hq) as (k0 & l' & Hk0 & Hnx & _ & Hq' & _).
    apply wp_bind, (wp_next _ k0); [apply Hk0|]. rewrite Hnx. apply Z.eqb_neq in Hne as ->.
    rewrite <- E in Hq'. apply NoDup_cons in Hnd as [_ Hnd]. simpl in Hf.
    eapply IH; [done|done|by rewrite E|lia].
Qed.

(** A single character sits in a single block. *)
Lemma qseg_one m cl cf bs c : qseg m cl cf bs [c] → ∃ b, bs = [b].
Proof.
  intros Hq. destruct bs as [|b [|b' bs]]; [by inversion Hq|by eauto|].
  destruct (qseg_inv_more _ _ _ _ _ _ _ Hq) as (k & l' & (_ & _ & Hlen & _) & _ & Hcf & Hq' & El).
  apply (f_equal length) in El. rewrite length_app, length_drop in El.
  destruct (qseg_length _ _ _ _ _ Hq') as (? & ? & _ & _ & _ & _ & ?). simpl in El. lia.
Qed.

(** A single block holds exactly the characters between the two pointers. *)
Lemma qseg_one_length m cl cf b l : qseg m cl cf [b] l → Z.of_nat (length l) = cl - cf.
Proof.
  intros (k & (_ & _ & Hlen & _) & _ & H1 & H2 & ->)%qseg_inv_one. rewrite length_take, length_drop. lia.
Qed.

(** The last block but one is linked to the last. *)
Lemma qseg_prev m cl bs b1 b : ∀ cf l,
  qseg m cl cf (bs ++ [b1; b]) l → ∃ k1, is_block m b1 k1 ∧ c_next k1 = b.
Proof.
  induction bs as [|b0 bs IH]; intros cf l Hq.
  - destruct (qseg_inv_more _ _ _ _ _ _ _ Hq) as (k0 & ? & ? & ? & _). eauto.
  - assert (∃ b' bs', bs ++ [b1; b] = b' :: bs') as (b' & bs' & E) by (destruct bs; simpl; eauto).
    simpl in Hq. rewrite E in *. destruct (qseg_inv_more _ _ _ _ _ _ _ Hq) as (? & ? & _ & _ & _ & Hq' & _). eauto.
Qed.

(** [q'] is [q] cut down to the characters [l0]. *)
Definition retracted (s : cstate) (fs bs l0 : list Z) (q' : clist) (s' : cstate) : Prop :=
  ∃ fs' bs', owns s' fs' bs' q' l0 ∧ moved s fs bs s' fs' bs'.

Lemma wp_unput_only s fs b q c (Q : unit → cstate → Prop) :
  owns s fs [b] q [c] →
  (∀ s', retracted s fs [b] [] (Clist 0 0 0) s' → Q tt s') → wp (free_block b) Q s.
Proof.
  intros Ho HQ. pose proof Ho as [Hp _ Hnd]. destruct (NoDup_tail _ _ _ Hnd) as (Hb & _).
  destruct (qseg_inv_one _ _ _ _ _ (owns_cons_seg _ _ _ _ _ Ho ltac:(done))) as (k & Hk & _).
  eapply wp_free_block; [done|done|done|]. intros s' Hp' Hf _ _. apply HQ. exists (b :: fs), []. split.
  - split; [done|split; [done|by left]|]. rewrite app_nil_r. constructor; [done|].
    by apply NoDup_app in Hnd as (? & _).
  - split; [rewrite app_nil_r; by rewrite Permutation_app_comm|]. eapply frame_mono; [|done]. set_solver.
Qed.

Lemma wp_unput_unlink (A : Type) s fs bs0 b1 b q l0 c (f : M A) (Q : A → cstate → Prop) :
  owns s fs (bs0 ++ [b1; b]) q (l0 ++ [c]) → c_cl q = b + 5 →
  (∀ s', retracted s fs (bs0 ++ [b1; b]) l0 (Clist (c_cc q - 1) (c_cf q) (b1 + 32)) s' → wp f Q s') →
  wp (bp ← next b1; free_block bp;; put_next b1 0;; f) Q s.
Proof.
  intros Ho Hcl HQ. pose proof (owns_cc _ _ _ _ _ Ho) as Hcc. pose proof Ho as [Hp _ Hnd].
  rewrite length_app in Hcc. simpl in Hcc.
  pose proof (owns_cons_seg _ _ _ _ _ Ho ltac:(by intros [_ ?]%app_nil)) as Hq.
  destruct (qseg_prev _ _ _ _ _ _ _ Hq) as (k1 & Hk1 & Hnx1).
  destruct (qseg_last_block _ _ _ _ _ Hq) as (bx & b' & k & Eb & Hk & _).
  assert (b' = b) as ->.
  { change [b1; b] with ([b1] ++ [b]) in Eb. rewrite app_assoc in Eb. by apply app_inj_tail in Eb as [_ ->]. }
  assert (Hndq : NoDup (bs0 ++ [b1; b])) by by apply NoDup_app in Hnd as (_ & _ & ?).
  assert (Hb : b ∉ fs) by (eapply NoDup_app_notin; [done|set_solver]).
  assert (Hb1 : b1 ∉ b :: fs).
  { assert (b1 ∉ fs) by (eapply NoDup_app_notin; [done|set_solver]).
    apply NoDup_app in Hndq as (_ & _ & Hd). apply NoDup_cons in Hd as [Hd _]. set_solver. }
  apply wp_bind, (wp_next _ k1); [apply Hk1|]. rewrite Hnx1. apply wp_bind.
  eapply wp_free_block; [done|done|done|]. intros s1 Hp1 Hf1 _ _. pose proof Hk1 as (Hm1 & Hal1 & Hlen1 & Hch1).
  apply wp_bind, (wp_put_next _ k1); [rewrite Hf1; [done|set_solver]|]. apply HQ. set (s2 := set_blocks _ s1).
  assert (Hf2 : frame [b1; b] (blocks s) (blocks s2)).
  { eapply frame_trans; [eapply frame_mono; [|exact Hf1]; set_solver|]. apply frame_insert. set_solver. }
  assert (E : (b :: fs) ++ bs0 ++ [b1] ≡ₚ fs ++ bs0 ++ [b1; b]).
  { simpl. rewrite (Permutation_cons_append (fs ++ bs0 ++ [b1])). by rewrite <- !app_assoc. }
  exists (b :: fs), (bs0 ++ [b1]). split.
  - split; [| |by rewrite E].
    + eapply (pool_frame s1 s2); [done|apply (frame_insert b1 _ _ [b1]); set_solver|set_solver|done|done].
    + split; [simpl; lia|]. right. simpl. eapply qseg_unlink; [done|done|done|done|done|].
      split_and!; [by apply lookup_insert_eq|done|done|done].
  - split; [done|]. eapply frame_mono; [|exact Hf2]. set_solver.
Qed.

Lemma wp_unputc s fs bs q l fuel :
  owns s fs bs q l → (length bs ≤ fuel)%nat →
  wp (unputc fuel q) (λ '(r, q') s',
    (l = [] ∧ r = -1 ∧ q' = q ∧ s' = s) ∨
    (∃ l0 c, l = l0 ++ [c] ∧ r = s8 c ∧ retracted s fs bs l0 q' s')) s.
Proof.
  intros Ho Hfuel. pose proof (owns_cc _ _ _ _ _ Ho) as Hcc. unfold unputc.
  destruct (decide (l = [])) as [->|Hl]; [rewrite Hcc; simpl; wp_go; by left|].
  pose proof (owns_cons_seg _ _ _ _ _ Ho Hl) as Hq. pose proof Ho as [Hp _ Hnd].
  destruct (qseg_last_block _ _ _ _ _ Hq) as (bs0 & b & k & -> & Hk & Hnx & Hcl).
  destruct (qseg_back _ _ _ _ _ _ _ Hq Hk) as (l0 & c & -> & Hc & Hback).
  pose proof Hk as (_ & Hal & _). rewrite length_app in Hcc. simpl in Hcc.
  destruct (Z.leb_spec (c_cc q) 0); [lia|]. apply wp_bind. eapply wp_load1; [done|lia|done|].
  destruct (Z.leb_spec (c_cc q - 1) 0).
  { assert (l0 = []) as -> by (destruct l0; [done|simpl in *; lia]).
    destruct (qseg_one _ _ _ _ _ Hq) as (b' & E). assert (bs0 = []) as -> by (destruct bs0 as [|? [|]]; done).
    rewrite (bic_in b) by (try done; lia). apply wp_bind. eapply wp_unput_only; [done|].
    intros s' Hr. wp_go. right. exists [], c. replace (c_cc q - 1) with 0 by lia. by split_and!. }
  rewrite (land_in b) by (try done; lia). destruct (Z.eqb_spec (c_cl q - 1 - b) 4) as [E4|E4].
  - destruct bs0 as [|b1 bs0 _] using rev_ind.
    { apply qseg_one_length in Hq as E. rewrite length_app in E. simpl in E.
      destruct (qseg_inv_one _ _ _ _ _ Hq) as (? & _ & _ & ? & _). lia. }
    rewrite <- app_assoc in *. simpl app in *. rewrite (bic_in b (c_cl q - 1)) by (try done; lia).
    destruct (qseg_head _ _ _ _ _ Hq) as (bh & bs' & kh & Eh & (_ & Halh & _) & Hcf & _).
    rewrite (bic_in bh (c_cf q)) by (try done; lia). apply wp_bind.
    eapply wp_mono; [eapply wp_find_prev; [done| |by rewrite Eh|]|].
    + by apply NoDup_app in Hnd as (_ & _ & ?).
    + rewrite length_app in Hfuel. simpl in Hfuel. lia.
    + intros ? ? [-> ->]. eapply wp_unput_unlink; [done|lia|]. intros s' Hr. wp_go. right.
      exists l0, c. by split_and!.
  - wp_go. right. exists l0, c. split_and!; [done|done|]. exists fs, (bs0 ++ [b]). split; [|apply moved_refl].
    split; [done| |done]. split; [simpl; lia|]. right. apply Hback. destruct bs0 as [|b0 bs0]; [|lia].
    apply qseg_one_length in Hq. rewrite length_app in Hq. simpl in Hq. lia.
Qed.

(** ** Flushing *)

(** The two ends of a queue lie in the same block only if it has one. *)
Lemma qseg_ends m cl cf b bs l :
  qseg m cl cf (b :: bs) l → NoDup (b :: bs) → aligned b →
  if b =? bic (cl - 1) CROUND then bs = [] else bs ≠ [].
Proof.
  intros Hq Hnd Hal. destruct (qseg_last_block _ _ _ _ _ Hq) as (bs0 & b1 & k1 & E & (_ & Hal1 & _) & _ & Hcl).
  rewrite (bic_in b1) by (try done; lia). destruct bs0 as [|b0 bs0]; simpl in E; injection E as -> ->.
  - by rewrite Z.eqb_refl.
  - apply NoDup_cons in Hnd as [Hn _]. destruct (Z.eqb_spec b0 b1) as [->|]; [set_solver|]. by destruct bs0.
Qed.

(** The loop of [ndflush] may leave a dangling front pointer behind an empty
    count; [ndflush] then clears it. *)
Definition flushed (s : cstate) (fs bs l : list Z) (q' : clist) (s' : cstate) : Prop :=
  c_cc q' = Z.of_nat (length l) ∧
  ∃ fs' bs', moved s fs bs s' fs' bs' ∧ pool s' fs' ∧
    (l = [] ∧ bs' = [] ∨ queue (blocks s') q' bs' l).

Lemma flushed_trans s fs bs s1 fs1 bs1 l q' s' :
  moved s fs bs s1 fs1 bs1 → flushed s1 fs1 bs1 l q' s' → flushed s fs bs l q' s'.
Proof. intros Hm (Hc & fs' & bs' & Hm' & ?). split; [done|]. exists fs', bs'. split; [by eapply moved_trans|done]. Qed.

Lemma wp_ndflush_loop fuel : ∀ s fs bs q l cc,
  owns s fs bs q l → (0 < fuel)%nat →
  (l ≠ [] → Z.of_nat (length l) + head_off q ≤ 28 * (Z.of_nat fuel - 1)) →
  wp (ndflush_loop fuel q cc) (λ q', flushed s fs bs (drop (Z.to_nat cc) l) q') s.
Proof.
  induction fuel as [|fuel IH]; intros s fs bs q l cc Ho Hf0 Hfuel; [lia|].
  pose proof (owns_cc _ _ _ _ _ Ho) as Hcc. pose proof Ho as [Hp Hqu Hnd].
  cbn [ndflush_loop]. destruct (Z.ltb_spec 0 cc) as [Hc0|Hc0].
  2: { simpl. wp_go. replace (Z.to_nat cc) with 0%nat by lia. split; [done|]. exists fs, bs. by eauto using moved_refl. }
  destruct (decide (l = [])) as [->|Hl].
  { rewrite Hcc. simpl. wp_go. rewrite drop_nil. split; [done|]. exists fs, bs. by eauto using moved_refl. }
  assert (Hlen : 0 < Z.of_nat (length l)) by (destruct l; [done|simpl; lia]).
  rewrite Hcc. destruct (Z.eqb_spec (Z.of_nat (length l)) 0); [lia|]. rewrite <- Hcc. simpl.
  pose proof (owns_cons_seg _ _ _ _ _ Ho Hl) as Hq.
  destruct (qseg_head _ _ _ _ _ Hq) as (b & bs' & k & -> & Hk & Hcf & _). pose proof Hk as (_ & Hal & _).
  pose proof (qseg_ends _ _ _ _ _ _ Hq ltac:(by apply NoDup_app in Hnd as (_ & _ & ?)) Hal) as Hends.
  destruct (qseg_length _ _ _ _ _ Hq) as (b0 & bs0 & [= <- <-] & _ & _ & Hmore & _).
  rewrite (bic_in b (c_cf q)) by (try done; lia).
  remember ((if b =? bic (c_cl q - 1) CROUND then c_cl q else b + CBLOCK) - c_cf q) as rem eqn:Erem.
  assert (Hrem : 0 < rem ≤ Z.of_nat (length l) ∧ c_cf q + rem ≤ b + 32 ∧ (rem = Z.of_nat (length l) ↔ bs' = []) ∧
                 (bs' ≠ [] → rem = b + 32 - c_cf q)).
  { destruct (b =? bic (c_cl q - 1) CROUND).
    - subst bs'. apply qseg_one_length in Hq as E. destruct (qseg_inv_one _ _ _ _ _ Hq) as (? & _ & _ & _ & ? & _).
      split_and!; try done; try lia. split; [done|lia].
    - unfold CBLOCK in Erem. destruct bs' as [|b' bs']; [done|]. simpl in Hmore. split_and!; try done; try lia.
      split; [lia|done]. }
  destruct Hrem as (Hr1 & Hr2 & Hr3 & Hr4). specialize (Hfuel Hl).
  assert (Hoff : head_off q = c_cf q - b - 4) by (unfold head_off; rewrite (off_mod b) by (try done; lia); done).
  assert (Hfit : rem ≤ 32 - Z.land (c_cf q) CROUND) by (rewrite (land_in b) by (try done; lia); lia).
  destruct (Z.leb_spec rem cc) as [Hge|Hlt].
  - destruct (decide (bs' = [])) as [Eb|Eb].
    + (* the last block goes, and the loop ends *)
      rewrite Eb in *. destruct (NoDup_tail _ _ _ Hnd) as (Hb & _).
      apply wp_bind, (wp_next _ k); [apply Hk|]. apply wp_bind. eapply wp_release; [done|done|done|].
      intros s1 Hp1 Hf1 _ _. pose proof (proj2 Hr3 eq_refl) as Er.
      destruct fuel as [|fuel]; [lia|]. simpl. replace (c_cc q - rem) with 0 by lia. simpl.
      rewrite andb_false_r. wp_go. rewrite drop_ge by lia. split; [done|]. exists (b :: fs), []. split_and!; [|done|by left].
      split; [rewrite app_nil_r; by rewrite Permutation_app_comm|]. eapply frame_mono; [|done]. set_solver.
    + assert (Hrl : rem < Z.of_nat (length l)) by (destruct (decide (rem = Z.of_nat (length l))); [tauto|lia]).
      replace b with (c_cf q + rem - CBLOCK) by (rewrite (Hr4 Eb); unfold CBLOCK; lia).
      eapply (wp_front_next s fs (c_cf q + rem - CBLOCK :: bs') q l rem); try done; try lia.
      * replace (c_cf q + rem - CBLOCK) with b by (rewrite (Hr4 Eb); unfold CBLOCK; lia). done.
      * rewrite (Hr4 Eb). apply (land_end b); [done|lia].
      * intros s1 nx (fs1 & bs1 & Ho1 & Hm1 & Hh1).
        replace (c_cf q + rem - CBLOCK) with b in * by (rewrite (Hr4 Eb); unfold CBLOCK; lia).
        eapply wp_mono; [apply (IH s1 fs1 bs1 _ (drop (Z.to_nat rem) l) (cc - rem)); [done|lia|]|].
        -- intros _. rewrite length_drop, (Hh1 Hrl). replace (head_off q + rem) with (1 * 28) by (rewrite (Hr4 Eb); lia).
           rewrite Z.mod_mul by lia. rewrite (Hr4 Eb) in *. lia.
        -- intros q' s'. rewrite drop_drop, <- Z2Nat.inj_add by lia. replace (rem + (cc - rem)) with cc by lia.
           by apply flushed_trans.
  - destruct (Z.leb_spec (c_cc q - cc) 0); [lia|]. wp_go.
    destruct (front_stay s fs (b :: bs') q l cc Ho Hc0 ltac:(lia) ltac:(lia) ltac:(lia)) as (fs1 & bs1 & [Hp1 Hq1 _] & Hm1 & _).
    { rewrite (land_in b) by (try done; lia). lia. }
    split; [simpl; rewrite length_drop; lia|]. exists fs1, bs1. by eauto.
Qed.

Lemma wp_ndflush s fs bs q l cc fuel :
  owns s fs bs q l → (length bs < fuel)%nat →
  wp (ndflush fuel q cc) (λ q' s', retracted s fs bs (drop (Z.to_nat cc) l) q' s') s.
Proof.
  intros Ho Hfuel. pose proof (owns_cc _ _ _ _ _ Ho) as Hcc. unfold ndflush.
  destruct (decide (l = [])) as [->|Hl].
  { rewrite Hcc. simpl. wp_go. rewrite drop_nil. exists fs, bs. by eauto using moved_refl. }
  destruct (Z.leb_spec (c_cc q) 0); [destruct l; [done|simpl in *; lia]|].
  destruct (owns_off _ _ _ _ _ Ho Hl) as (b & H1 & _ & _ & H2 & _).
  apply wp_bind. eapply wp_mono; [apply (wp_ndflush_loop fuel s fs bs q l cc); [done|lia|intros; lia]|].
  intros q' s' (Hc' & fs' & bs' & Hm & Hp' & Hq').
  pose proof (moved_nodup _ _ _ _ _ _ Hm (owns_nodup _ _ _ _ _ Ho)) as Hnd'.
  destruct (Z.leb_spec (c_cc q') 0); wp_go; exists fs', bs'; (split; [|done]); (split; [done| |done]).
  - assert (E : drop (Z.to_nat cc) l = []) by (apply length_zero_iff_nil; lia). rewrite E in *.
    split; [done|]. destruct Hq' as [[_ ->]|Hq']; [by left|].
    destruct Hq' as [_ [(_ & -> & _)|Hq']]; [by left|]. apply qseg_length in Hq' as (? & ? & ? & ? & ? & ? & ?).
    simpl in *. lia.
  - destruct Hq' as [[E _]|Hq']; [rewrite E in Hc'; simpl in Hc'; lia|done].
Qed.

(** The characters that follow the first one in its block. *)
Definition contig (q : clist) : Z := Z.min (c_cc q) (28 - head_off q).

Lemma ndqb_scan_find l flag : ∀ n,
  ndqb_scan l flag n = n + match list_find (λ c, has (s8 c) flag = true) l with
                           | Some (i, _) => Z.of_nat i
                           | None => Z.of_nat (length l)
                           end.
Proof.
  induction l as [|c l IH]; intros n; simpl; [lia|].
  destruct (has (s8 c) flag) eqn:E; [rewrite decide_True by done; simpl; lia|].
  rewrite decide_False by congruence. rewrite IH. destruct (list_find _ l) as [[i x]|]; simpl; lia.
Qed.

Lemma wp_ndqb s fs bs q l flag :
  owns s fs bs q l →
  wp (ndqb q flag) (λ r s', s' = s ∧
    r = if c_cc q =? 0 then 0 else if flag =? 0 then contig q
        else match list_find (λ c, has (s8 c) flag = true) (take (Z.to_nat (contig q)) l) with
             | Some (i, _) => Z.of_nat i
             | None => contig q
             end) s.
Proof.
  intros Ho. pose proof (owns_cc _ _ _ _ _ Ho) as Hcc. unfold ndqb.
  destruct (decide (l = [])) as [->|Hl]; [rewrite Hcc; simpl; by wp_go|].
  assert (Hlen : 0 < Z.of_nat (length l)) by (destruct l; [done|simpl; lia]).
  destruct (Z.leb_spec (c_cc q) 0); [lia|]. destruct (Z.eqb_spec (c_cc q) 0); [lia|].
  destruct (owns_off _ _ _ _ _ Ho Hl) as (b & H1 & Hal & Hcf & _).
  assert (E : (if c_cc q <? bic (c_cf q + CBSIZE) CROUND - c_cf q then c_cc q
               else bic (c_cf q + CBSIZE) CROUND - c_cf q) = contig q).
  { unfold contig, CBSIZE. rewrite (bic_in (b + 32)); [|split; [destruct Hal; lia|by apply end_mod]|lia].
    destruct (Z.ltb_spec (c_cc q) (b + 32 - c_cf q)); lia. }
  rewrite E. destruct (Z.eqb_spec flag 0) as [|Hf]; simpl; [by wp_go|].
  assert (0 < contig q) by (unfold contig; lia). apply wp_bind.
  eapply (wp_front_load s fs bs q l (contig q)); try done; [unfold contig; lia| |].
  - rewrite (land_in b); [unfold contig; lia|done|lia].
  - wp_go. split; [done|]. rewrite ndqb_scan_find, length_take.
    destruct (list_find _ _) as [[i x]|]; [lia|]. unfold contig. lia.
Qed.

(** Walking a queue: [p] points at the first character of [c :: l]. *)
Lemma wp_nextc s q p bs c l :
  c_cc q ≠ 0 → NoDup bs → qseg (blocks s) (c_cl q) p bs (c :: l) →
  wp (nextc q p) (λ r s', s' = s ∧
    if decide (l = []) then r = 0 else ∃ bs', qseg (blocks s) (c_cl q) r bs' l ∧ NoDup bs') s.
Proof.
  intros Hcc Hnd Hq. unfold nextc. apply Z.eqb_neq in Hcc as ->. simpl.
  destruct (qseg_head _ _ _ _ _ Hq) as (b & bs' & k & -> & Hk & Hcf & _). pose proof Hk as (Hm & Hal & _).
  destruct (decide (l = [])) as [->|Hl].
  - destruct (qseg_one _ _ _ _ _ Hq) as (b' & [= <- ->]). apply qseg_one_length in Hq. simpl in Hq.
    destruct (Z.eqb_spec (p + 1) (c_cl q)); [|lia]. by wp_go.
  - assert (0 < length l)%nat by (destruct l; [done|simpl; lia]).
    pose proof (qseg_advance _ _ _ _ _ _ _ 1 Hq Hk ltac:(lia) ltac:(lia) ltac:(simpl; lia)) as Ha.
    pose proof (qseg_ends _ _ _ _ _ _ Hq Hnd Hal) as Hends.
    assert (p + 1 ≠ c_cl q).
    { intros E. rewrite (bic_in b), Z.eqb_refl in Hends by (try done; lia). subst bs'.
      apply qseg_one_length in Hq. simpl in Hq. lia. }
    destruct (Z.eqb_spec (p + 1) (c_cl q)); [done|]. simpl.
    destruct (Z.ltb_spec (p + 1) (b + 32)).
    + rewrite (land_in b) by (try done; lia). destruct (Z.eqb_spec (p + 1 - b) 0); [lia|]. wp_go. eauto.
    + destruct Ha as (b' & bs'' & -> & Hnx & Hq'). rewrite (land_end b) by (try done; lia). simpl.
      replace (p + 1 - CBLOCK) with b by (unfold CBLOCK; lia).
      apply wp_bind, (wp_next _ k); [done|]. wp_go. split; [done|]. rewrite Hnx. exists (b' :: bs'').
      split; [done|]. by apply NoDup_cons in Hnd as [_ ?].
Qed.

(** ** The refinement *)
Module Fifo.
Inductive op :=
| Getc | Putc (c : Z) | Unputc | Q_to_b (cc : Z) | B_to_q (cs : list Z) | Ndflush (cc : Z) | Ndqb (flag : Z).

Inductive result := RInt (z : Z) | RBytes (l : list Z) | RNone.

(** The abstract queue: a list of bytes.  [cap] is how many more bytes fit,
    [run] how many lie together at the front. *)
Definition spec (cap run : Z) (o : op) (l : list Z) : result * list Z :=
  match o with
  | Getc => (RInt (match l with [] => -1 | c :: _ => c end), tail l)
  | Putc c => if 0 <? cap then (RInt 0, l ++ [u8 c]) else (RInt (-1), l)
  | Unputc => (RInt (match last l with None => -1 | Some c => s8 c end), removelast l)
  | Q_to_b cc => (RBytes (take (Z.to_nat cc) l), drop (Z.to_nat cc) l)
  | B_to_q cs => let n := Z.min (Z.of_nat (length cs)) cap in
      (RInt (Z.of_nat (length cs) - n), l ++ map u8 (take (Z.to_nat n) cs))
  | Ndflush cc => (RNone, drop (Z.to_nat cc) l)
  | Ndqb flag =>
      (RInt (match l with [] => 0 | _ =>
         if flag =? 0 then run
         else match list_find (λ c, has (s8 c) flag = true) (take (Z.to_nat run) l) with
              | Some (i, _) => Z.of_nat i | None => run end end), l)
  end.

Definition run_op (fuel : nat) (o : op) (q : clist) : M (result * clist) :=
  match o with
  | Getc => '(c, q) ← getc q; mret (RInt c, q)
  | Putc c => '(r, q) ← putc c q; mret (RInt r, q)
  | Unputc => '(c, q) ← unputc fuel q; mret (RInt c, q)
  | Q_to_b cc => '(l, q) ← q_to_b fuel q cc; mret (RBytes l, q)
  | B_to_q cs => '(r, q) ← b_to_q fuel cs q; mret (RInt r, q)
  | Ndflush cc => q ← ndflush fuel q cc; mret (RNone, q)
  | Ndqb flag => n ← ndqb q flag; mret (RInt n, q)
  end.

(** How many turns of the loops are enough. *)
Definition enough (nblocks : nat) (o : op) : nat :=
  match o with
  | Q_to_b cc => Z.to_nat (cc / 28) + 3
  | B_to_q cs => length cs + 2
  | _ => S nblocks
  end.
End Fifo.

(** C24. Every operation on a character list behaves as on a list of bytes:
    the result and the new contents are those of the byte list, bytes are
    refused only when the last block and the free list are full, and blocks
    only move between the queue and the free list (no block is lost, none is
    shared, no block of another queue is touched).  No operation reads or
    writes outside a block, and every loop ends. *)
Theorem clist_refines_fifo (s : cstate) (fs bs : list Z) (q : clist) (l : list Z) (fuel : nat) (o : Fifo.op) :
  owns s fs bs q l → (Fifo.enough (length fs + length bs) o ≤ fuel)%nat →
  wp (Fifo.run_op fuel o q) (λ '(r, q') s',
    let '(r', l') := Fifo.spec (capacity fs q) (contig q) o l in
    r = r' ∧ ∃ fs' bs', owns s' fs' bs' q' l' ∧ moved s fs bs s' fs' bs') s.
Proof.
  intros Ho Hfuel. destruct o; cbn [Fifo.run_op Fifo.spec Fifo.enough] in *; apply wp_bind.
  - eapply wp_mono; [by apply wp_getc|]. intros [c q'] s' ((fs' & bs' & Ho' & Hm & _) & ->). wp_go.
    split; [by destruct l|]. exists fs', bs'. split; [|done]. by destruct l.
  - eapply wp_mono; [by apply wp_putc|]. intros [r q'] s' Hr. wp_go. destruct (0 <? capacity fs q).
    + by destruct Hr as [-> ?].
    + destruct Hr as (-> & -> & ->). split; [done|]. exists fs, bs. by split.
  - eapply wp_mono; [eapply wp_unputc; [done|lia]|].
    intros [r q'] s' [(-> & -> & -> & ->)|(l0 & c & -> & -> & Hr)]; wp_go.
    + split; [done|]. exists fs, bs. by split.
    + rewrite last_snoc, removelast_last. done.
  - eapply wp_mono; [eapply (wp_q_to_b _ _ _ _ _ cc fuel Ho)|].
    { pose proof (Z.div_mod cc 28). pose proof (Z.mod_pos_bound cc 28).
      destruct (decide (0 ≤ cc)); [pose proof (Z.div_pos cc 28); lia|lia]. }
    intros [r q'] s' (-> & n & -> & fs' & bs' & Ho' & Hm & _). wp_go. split; [done|]. exists fs', bs'. split; [|done].
    destruct (decide (cc ≤ Z.of_nat (length l))).
    + by replace (Z.to_nat cc) with (Z.to_nat (Z.max 0 (Z.min cc (Z.of_nat (length l))))) by lia.
    + rewrite drop_ge in Ho' by lia. by rewrite drop_ge by lia.
  - eapply wp_mono; [eapply (wp_b_to_q _ _ _ _ _ cs fuel Ho); lia|].
    intros [r q'] s' [-> Hr]. wp_go. done.
  - eapply wp_mono; [eapply (wp_ndflush _ _ _ _ _ cc fuel Ho); lia|]. intros q' s' Hr. wp_go. done.
  - eapply wp_mono; [eapply (wp_ndqb _ _ _ _ _ flag Ho)|]. intros r s' [-> ->]. wp_go. split.
    + f_equal. rewrite (owns_cc _ _ _ _ _ Ho). by destruct l.
    + exists fs, bs. by split.
Qed.

(** catq moves all of [from] behind [to], whatever the state of the free
    list: the blocks it empties on one side are always enough for the other,
    so the ignored result of b_to_q never hides a lost byte. *)
Theorem catq_correct (s : cstate) (fs bf : list Z) (from : clist) (lf bt : list Z) (to : clist) (lt : list Z) (fuel : nat) :
  owns2 s fs bf from lf bt to lt → (length lf < fuel)%nat →
  wp (catq fuel from to) (λ '(from', to') s', ∃ fs' bt',
    owns2 s' fs' [] from' [] bt' to' (lt ++ lf) ∧ fs' ++ bt' ≡ₚ fs ++ bf ++ bt ∧
    frame (fs ++ bf ++ bt) (blocks s) (blocks s')) s.
Proof.
  intros Ho Hfuel. unfold catq.
  rewrite (owns_cc _ _ _ _ _ (owns2_left _ _ _ _ _ _ _ _ (owns2_swap _ _ _ _ _ _ _ _ Ho))).
  destruct (Z.eqb_spec (Z.of_nat (length lt)) 0); [|apply wp_catq_loop; [done|lia|lia]].
  destruct lt; [|simpl in *; lia].
  destruct (owns_nil _ _ _ _ (owns2_left _ _ _ _ _ _ _ _ (owns2_swap _ _ _ _ _ _ _ _ Ho))) as [-> ->].
  wp_go. exists fs, bf. destruct Ho as [H1 H2 H3 H4]. rewrite app_nil_r in *. by split_and!.
Qed.

(** Reading a queue with [nextc], the way the terminal driver does. *)
Fixpoint walk (n : nat) (q : clist) (p : Z) : M (list Z) :=
  match n with
  | O => lift Spin
  | S n =>
      if p =? 0 then mret []
      else c ← load1 p; p ← nextc q p; l ← walk n q p; mret (c :: l)
  end.

Lemma wp_walk_chars n : ∀ s q p bs l,
  c_cc q ≠ 0 → NoDup bs → qseg (blocks s) (c_cl q) p bs l → (length l < n)%nat →
  wp (walk n q p) (λ r s', r = l ∧ s' = s) s.
Proof.
  induction n as [|n IH]; intros s q p bs l Hcc Hnd Hq Hn; [lia|]. cbn [walk].
  destruct (qseg_head _ _ _ _ _ Hq) as (b & bs' & k & -> & Hk & Hcf & Hd). pose proof Hk as (_ & [Hb _] & _).
  destruct (Z.eqb_spec p 0); [lia|]. destruct l as [|c l].
  { apply qseg_length in Hq as (? & ? & ? & ? & ? & ? & ?). simpl in *. lia. }
  specialize (Hd 1%nat ltac:(lia) ltac:(simpl; lia)). simpl in Hd.
  apply wp_bind. eapply (wp_load1 _ b k p c); [done|done| |].
  { rewrite <- (Nat.add_0_r (Z.to_nat _)), <- lookup_drop.
    destruct (drop (Z.to_nat (p - b - 4)) (c_info k)); simpl in *; congruence. }
  apply wp_bind. eapply wp_mono; [by apply (wp_nextc s q p (b :: bs') c l)|].
  intros r s' [-> Hr]. apply wp_bind. case_decide as El.
  - subst. destruct n as [|n]; [simpl in Hn; lia|]. simpl. by wp_go.
  - destruct Hr as (bs2 & Hq2 & Hnd2). eapply wp_mono; [apply (IH s q r bs2 l); try done; simpl in Hn; lia|].
    intros ? ? [-> ->]. by wp_go.
Qed.

(** nextc visits the characters of a queue in order, one at a time, and
    returns NULL after the last one: started at the front pointer it yields
    exactly the contents, and changes nothing. *)
Lemma nextc_walk (s : cstate) (fs bs : list Z) (q : clist) (l : list Z) (n : nat) :
  owns s fs bs q l → (length l < n)%nat → wp (walk n q (c_cf q)) (λ r s', r = l ∧ s' = s) s.
Proof.
  intros Ho Hn. pose proof (owns_cc _ _ _ _ _ Ho) as Hcc. destruct (decide (l = [])) as [->|Hl].
  - destruct (owns_nil _ _ _ _ Ho) as [_ ->]. destruct n; [lia|]. simpl. by wp_go.
  - assert (0 < length l)%nat by (destruct l; [done|simpl; lia]).
    apply (wp_walk_chars n s q (c_cf q) bs); try done; [lia| |by eapply owns_cons_seg].
    by apply owns_nodup, NoDup_app in Ho as (_ & _ & ?).
Qed.

(** The blocks [cinit] finds in the array at [base]. *)
Fixpoint blocks_from (cp : Z) (n : nat) : list Z :=
  match n with O => [] | S n => cp :: blocks_from (cp + 32) n end.

Lemma blocks_from_ge cp n b : b ∈ blocks_from cp n → cp ≤ b.
Proof. revert cp. induction n as [|n IH]; intros cp; simpl; [set_solver|]. intros [->|Hb%IH]%elem_of_cons; lia. Qed.

Lemma blocks_from_nth cp n b : b ∈ blocks_from cp n → ∃ i, (i < n)%nat ∧ b = cp + 32 * Z.of_nat i.
Proof.
  revert cp. induction n as [|n IH]; intros cp; simpl; [set_solver|].
  intros [->|(i & ? & ->)%IH]%elem_of_cons; [exists 0%nat|exists (S i)]; lia.
Qed.
Lemma length_blocks_from cp n : length (blocks_from cp n) = n.
Proof. revert cp. induction n; simpl; auto. Qed.

Lemma wp_cinit_loop base n : ∀ s fs cp fuel,
  pool s fs → NoDup fs → (∀ b, b ∈ fs → b < cp) → (∀ b, b ∈ blocks_from cp n → ∃ k, is_block (blocks s) b k) →
  cp + 32 * (Z.of_nat n - 1) ≤ base + 992 < cp + 32 * Z.of_nat n → (n < fuel)%nat →
  wp (cinit_loop fuel base cp) (λ _ s', ∃ fs', pool s' fs' ∧ NoDup fs' ∧ fs' ≡ₚ fs ++ blocks_from cp n) s.
Proof.
  induction n as [|n IH]; intros s fs cp fuel Hp Hnd Hlt Hbl Hlim Hfuel; (destruct fuel as [|fuel]; [lia|]);
    cbn [cinit_loop]; unfold CBLOCK, NCLIST; change (32 * (32 - 1)) with 992.
  - destruct (Z.leb_spec cp (base + 992)); [lia|]. wp_go. exists fs. simpl. by rewrite app_nil_r.
  - destruct (Z.leb_spec cp (base + 992)); [|lia].
    destruct (Hbl cp) as [k Hk]; [simpl; set_solver|].
    assert (cp ∉ fs) by (intros Hin%Hlt; lia).
    apply wp_bind. eapply wp_free_block; [done|done|done|]. intros s1 Hp1 Hf1 _ _.
    eapply wp_mono; [apply (IH s1 (cp :: fs)); try done; try lia; [by constructor| |]|].
    + intros b [->|Hb]%elem_of_cons; [lia|]. specialize (Hlt b Hb). lia.
    + intros b Hb. destruct (Hbl b) as [kb Hkb]; [simpl; set_solver|]. exists kb.
      eapply is_block_frame; [done| |done]. apply blocks_from_ge in Hb. set_solver by lia.
    + intros _ s' (fs' & ? & ? & Hperm). exists fs'. split_and!; [done|done|]. rewrite Hperm. simpl. by rewrite Permutation_middle.
Qed.

(** At boot cinit builds a free list of every aligned block that fits in the
    array, and of nothing past its end: NCLIST blocks when the array is
    aligned, one less otherwise, with the count right. *)
Lemma cinit_correct (s : cstate) (base : Z) (fuel : nat) :
  0 < base → cfreelist s = 0 → cfreecount s = 0 → (32 < fuel)%nat →
  (∀ b, aligned b → base ≤ b → b + 32 ≤ base + 32 * NCLIST → ∃ k, is_block (blocks s) b k) →
  wp (cinit fuel base) (λ _ s', ∃ fs, pool s' fs ∧ NoDup fs ∧
    Z.of_nat (length fs) = (if base mod 32 =? 0 then NCLIST else NCLIST - 1) ∧
    ∀ b, b ∈ fs → aligned b ∧ base ≤ b ∧ b + 32 ≤ base + 32 * NCLIST) s.
Proof.
  intros Hb Hfl Hfc Hfuel Hblk. unfold cinit. rewrite bic_CROUND. unfold CROUND.
  set (cp := base + 31 - (base + 31) mod 32). set (n := if base mod 32 =? 0 then 32%nat else 31%nat).
  pose proof (Z.mod_pos_bound base 32 ltac:(lia)) as Hm. pose proof (Z.div_mod base 32 ltac:(lia)) as Hdm.
  assert (Hcp : cp mod 32 = 0 ∧ cp = base + (if base mod 32 =? 0 then 0 else 32 - base mod 32)).
  { unfold cp. destruct (Z.eqb_spec (base mod 32) 0) as [E|E].
    - replace ((base + 31) mod 32) with 31; [split; [by replace (base + 31 - 31) with base by lia|lia]|].
      rewrite <- Z.add_mod_idemp_l, E by lia. done.
    - assert (E2 : (base + 31) mod 32 = base mod 32 - 1).
      { symmetry. apply (Z.mod_unique _ _ (base / 32 + 1)); lia. }
      rewrite E2. split; [|lia]. replace (base + 31 - (base mod 32 - 1)) with ((base / 32 + 1) * 32) by lia.
      apply Z.mod_mul. lia. }
  destruct Hcp as [Hcp0 Hcp]. clearbody cp.
  assert (Hcb : base ≤ cp < base + 32) by (rewrite Hcp; destruct (Z.eqb_spec (base mod 32) 0); lia).
  assert (Hfrom : ∀ b, b ∈ blocks_from cp n → aligned b ∧ base ≤ b ∧ b + 32 ≤ base + 32 * NCLIST).
  { intros b Hin. assert (∃ i, (i < n)%nat ∧ b = cp + 32 * Z.of_nat i) as (i & Hi & ->).
    { by apply blocks_from_nth. }
    unfold NCLIST. split_and!; try lia.
    - split; [lia|]. rewrite Z.mul_comm, Z.mod_add by lia. done.
    - unfold n in Hi. destruct (Z.eqb_spec (base mod 32) 0); lia. }
  eapply wp_mono; [eapply (wp_cinit_loop base n s [] cp)|].
  - split; [rewrite Hfl; constructor|done].
  - constructor.
  - set_solver.
  - intros b Hin. destruct (Hfrom b Hin) as (? & ? & ?). by apply Hblk.
  - unfold n. destruct (Z.eqb_spec (base mod 32) 0); lia.
  - unfold n. destruct (base mod 32 =? 0); lia.
  - intros _ s' (fs & Hp & Hnd & Hperm). exists fs. split_and!; [done|done| |].
    + rewrite (Permutation_length Hperm). simpl. rewrite length_blocks_from. unfold n, NCLIST. by destruct (base mod 32 =? 0).
    + intros b Hin. apply Hfrom. by rewrite Hperm in Hin.
Qed.

(** ** A pool of three blocks: one free, two queues holding AB and C *)
Definition demo_pool : cstate :=
  CState {[ 32 := Cblock 0 (replicate 28 0);
            64 := Cblock 0 (65 :: 66 :: replicate 26 0);
            96 := Cblock 0 (67 :: replicate 27 0) ]} 32 28 0 0.
Definition demo_from : clist := Clist 2 68 70.
Definition demo_to : clist := Clist 1 100 101.

Lemma demo_owns2 : owns2 demo_pool [32] [64] demo_from [65; 66] [96] demo_to [67].
Proof.
  assert (Hb : ∀ b k, blocks demo_pool !! b = Some k → 0 < b → b mod 32 = 0 → length (c_info k) = 28%nat →
    forallb (λ c, (0 <=? c) && (c <? 256)) (c_info k) = true → is_block (blocks demo_pool) b k).
  { intros b k H1 H2 H3 H4 H5. split_and!; [done|done|done|]. apply Forall_forall. intros c Hc%list_elem_of_In.
    apply (proj1 (forallb_forall _ _) H5) in Hc. lia. }
  split.
  - split; [|done]. apply (chain_cons _ 32 (Cblock 0 (replicate 28 0))); [by apply Hb|]. constructor.
  - split; [done|]. right. apply (qseg_last _ 70 64 (Cblock 0 (65 :: 66 :: replicate 26 0)) 68); [by apply Hb|done|lia|lia].
  - split; [done|]. right. apply (qseg_last _ 101 96 (Cblock 0 (67 :: replicate 27 0)) 100); [by apply Hb|done|lia|lia].
  - refine (bool_decide_unpack _ _); vm_compute; exact I.
Qed.

Lemma clist_refines_fifo_witness :
  wp (Fifo.run_op 5 (Fifo.B_to_q [68; 69; 70]) demo_from) (λ '(r, _) _, r = Fifo.RInt 0) demo_pool.
Proof.
  eapply wp_mono; [apply (clist_refines_fifo demo_pool [32] [64] demo_from [65; 66] 5 (Fifo.B_to_q [68; 69; 70])
    (owns2_left _ _ _ _ _ _ _ _ demo_owns2)); simpl; lia|].
  intros [r q'] s' [-> _]. reflexivity.
Defined.

Lemma catq_correct_witness :
  wp (catq 3 demo_from demo_to) (λ '(from', to') s', ∃ fs' bt', owns2 s' fs' [] from' [] bt' to' [67; 65; 66]) demo_pool.
Proof.
  eapply wp_mono; [apply (catq_correct demo_pool [32] [64] demo_from [65; 66] [96] demo_to [67] 3 demo_owns2); simpl; lia|].
  intros [from' to'] s' (fs' & bt' & Ho & _). exists fs', bt'. exact Ho.
Defined.

Lemma nextc_walk_witness : wp (walk 3 demo_from 68) (λ r s', r = [65; 66] ∧ s' = demo_pool) demo_pool.
Proof.
  apply (nextc_walk demo_pool [32] [64] demo_from [65; 66] 3 (owns2_left _ _ _ _ _ _ _ _ demo_owns2)). simpl. lia.
Defined.

(** Memory before [cinit]: the array of 32 blocks at address 32. *)
Definition raw_pool : cstate :=
  CState (list_to_map ((λ i, (32 + 32 * Z.of_nat i, Cblock 0 (replicate 28 0))) <$> seq 0 32)) 0 0 0 0.

Lemma cinit_correct_witness :
  wp (cinit 33 32) (λ _ s', ∃ fs, pool s' fs ∧ Z.of_nat (length fs) = 32) raw_pool.
Proof.
  eapply wp_mono; [apply (cinit_correct raw_pool 32 33); try done; try lia|].
  - unfold NCLIST. intros b [Hb Hmod] H1 H2. exists (Cblock 0 (replicate 28 0)).
    split_and!; [|done|done|apply Forall_replicate; lia].
    assert (∃ i, (i < 32)%nat ∧ b = 32 + 32 * Z.of_nat i) as (i & Hi & ->).
    { exists (Z.to_nat (b / 32 - 1)). pose proof (Z.div_mod b 32). split; lia. }
    do 32 (destruct i as [|i]; [reflexivity|]). lia.
  - intros _ s' (fs & Hp & _ & Hl & _). by exists fs.
Defined.
