(* ===== verification/Callout.v ===== *)
(** * The clock and its callouts (sys/kernel/kern_clock.c, sys/include/callout.h)

    The table of callouts, linked through [c_next] into the queue [calltodo]
    (times relative to the entry before) and the free list [callfree]; the
    clock interrupt [hardclock] with the accounting it does for the running
    process; [softclock], which calls what is due.  The interrupted context
    is given by two of its bits: user mode, and base priority.  What a
    callout calls is the parameter [call].  The counters of the tick are
    written with their 32-bit wrap-around; the sums and differences that
    [timeout] and [untimeout] form lie between 0 and the deadlines. *)
From stdpp Require Import base tactics list option strings numbers gmap.
From S2P Require Import Prelude.
Open Scope Z_scope.

Definition NCALL : nat := 18.
Definition HZ : Z := 200.
Definition NZERO : Z := 0.
Definition SIGXCPU : Z := 24.
Definition SIGVTALRM : Z := 26.
Definition SIGPROF : Z := 27.
Definition CP_USER : nat := 0.
Definition CP_NICE : nat := 1.
Definition CP_SYS : nat := 2.
Definition CP_IDLE : nat := 3.

Record callout := Callout {
  c_time : Z;
  c_arg : Z;
  c_func : Z;
  c_next : option nat
}.

(** What the clock keeps for the running process: fields of [u] and of its
    [struct proc]. *)
Record acct := Acct {
  ru_utime : Z; ru_stime : Z;
  vt_value : Z; vt_interval : Z;      (* u_timer[ITIMER_VIRTUAL - 1] *)
  pt_value : Z; pt_interval : Z;      (* u_timer[ITIMER_PROF - 1] *)
  rlim_cur : Z; rlim_max : Z;         (* u_rlimit[RLIMIT_CPU] *)
  pr_scale : Z;
  p_cpu : Z; p_nice : Z; p_uid : Z
}.

Inductive event :=
| EvCall (f a : Z)      (* a callout's function is called *)
| EvSignal (sig : Z)    (* psignal (u.u_procp, sig) *)
| EvSetpri              (* setpri (u.u_procp) *)
| EvAddupc (pc : Z).    (* addupc (pc, &u.u_prof, 1) *)

Record clock := Clock {
  tab : list callout;
  calltodo : option nat;     (* calltodo.c_next *)
  callfree : option nat;
  acc : acct;
  cp_time : list Z;
  lbolt : Z; tv_sec : Z; adjdelta : Z;
  noproc : bool;
  events : list event        (* newest last *)
}.

Notation M := (K clock).

Definition set_tab (l : list callout) (s : clock) : clock :=
  Clock l (calltodo s) (callfree s) (acc s) (cp_time s) (lbolt s) (tv_sec s) (adjdelta s) (noproc s) (events s).
Definition set_calltodo (p : option nat) (s : clock) : clock :=
  Clock (tab s) p (callfree s) (acc s) (cp_time s) (lbolt s) (tv_sec s) (adjdelta s) (noproc s) (events s).
Definition set_callfree (p : option nat) (s : clock) : clock :=
  Clock (tab s) (calltodo s) p (acc s) (cp_time s) (lbolt s) (tv_sec s) (adjdelta s) (noproc s) (events s).
Definition set_acc (a : acct) (s : clock) : clock :=
  Clock (tab s) (calltodo s) (callfree s) a (cp_time s) (lbolt s) (tv_sec s) (adjdelta s) (noproc s) (events s).
Definition set_cp_time (l : list Z) (s : clock) : clock :=
  Clock (tab s) (calltodo s) (callfree s) (acc s) l (lbolt s) (tv_sec s) (adjdelta s) (noproc s) (events s).
Definition set_time (lb sec adj : Z) (s : clock) : clock :=
  Clock (tab s) (calltodo s) (callfree s) (acc s) (cp_time s) lb sec adj (noproc s) (events s).
Definition log (e : event) (s : clock) : clock :=
  Clock (tab s) (calltodo s) (callfree s) (acc s) (cp_time s) (lbolt s) (tv_sec s) (adjdelta s) (noproc s)
        (events s ++ [e]).

Definition with_next (p : option nat) (c : callout) : callout := Callout (c_time c) (c_arg c) (c_func c) p.
Definition with_time (t : Z) (c : callout) : callout := Callout t (c_arg c) (c_func c) (c_next c).

Definition at_ (i : nat) : M callout := l ← gets tab; lift (rd l i).
Definition put (i : nat) (c : callout) : M unit := l ← gets tab; l ← lift (wr l i c); modify (set_tab l).

(** [p1->c_next] and [p1->c_next = q], where [p1] is [&calltodo] or an entry *)
Definition next_of (p1 : option nat) : M (option nat) :=
  match p1 with None => gets calltodo | Some i => c ← at_ i; mret (c_next c) end.
Definition put_next (p1 q : option nat) : M unit :=
  match p1 with None => modify (set_calltodo q) | Some i => c ← at_ i; put i (with_next q c) end.

(** ** Operations on the queue *)

(** [for (p1 = &calltodo; (p2 = p1->c_next) && p2->c_time < t; p1 = p2)
       if (p2->c_time > 0) t -= p2->c_time;] *)
Fixpoint timeout_seek (fuel : nat) (p1 : option nat) (t : Z) : M (option nat * option nat * Z) :=
  match fuel with
  | O => lift Spin
  | S fuel =>
      p2 ← next_of p1;
      match p2 with
      | None => mret (p1, None, t)
      | Some j =>
          c ← at_ j;
          if c_time c <? t
          then timeout_seek fuel (Some j) (if 0 <? c_time c then t - c_time c else t)
          else mret (p1, Some j, t)
      end
  end.

Definition timeout (fuel : nat) (fun_ arg t : Z) : M unit :=
  let t := if t <=? 0 then 1 else t in
  pnew ← gets callfree;
  match pnew with
  | None => panic "timeout table overflow"
  | Some n =>
      c ← at_ n;
      modify (set_callfree (c_next c));;
      put n (Callout (c_time c) arg fun_ (c_next c));;
      '(p1, p2, t) ← timeout_seek fuel None t;
      put_next p1 (Some n);;
      c ← at_ n;
      put n (Callout t (c_arg c) (c_func c) p2);;
      match p2 with
      | None => mret tt
      | Some j => c ← at_ j; put j (with_time (c_time c - t) c)
      end
  end.

Fixpoint untimeout_seek (fuel : nat) (fun_ arg : Z) (p1 : option nat) : M unit :=
  match fuel with
  | O => lift Spin
  | S fuel =>
      p2 ← next_of p1;
      match p2 with
      | None => mret tt
      | Some j =>
          c ← at_ j;
          if (c_func c =? fun_) && (c_arg c =? arg) then
            match c_next c with
            | Some k =>
                if 0 <? c_time c then d ← at_ k; put k (with_time (c_time d + c_time c) d) else mret tt
            | None => mret tt
            end;;
            c ← at_ j;
            put_next p1 (c_next c);;
            fr ← gets callfree;
            c ← at_ j;
            put j (with_next fr c);;
            modify (set_callfree (Some j))
          else untimeout_seek fuel fun_ arg (Some j)
      end
  end.
Definition untimeout (fuel : nat) (fun_ arg : Z) : M unit := untimeout_seek fuel fun_ arg None.

(** The loop of [hardclock] over the queue; the result is [needsoft]. *)
Fixpoint clock_loop (fuel : nat) (p1 : option nat) (needsoft : bool) : M bool :=
  match fuel with
  | O => lift Spin
  | S fuel =>
      match p1 with
      | None => mret needsoft
      | Some i =>
          c ← at_ i;
          let t := s32 (c_time c - 1) in
          put i (with_time t c);;
          if 0 <? t then mret needsoft
          else if t =? 0 then mret true
          else clock_loop fuel (c_next c) true
      end
  end.

Definition coutinit : M unit :=
  modify (λ s, set_callfree (Some 0%nat)
    (set_tab (imap (λ i c, if (S i <? NCALL)%nat then with_next (Some (S i)) c else c) (tab s)) s)).

(** ** hzto

    [long] is 32 bits: the products wrap.  [tv_sec] and [tv_usec] of the time
    asked for, then of the present. *)
Definition hzto (sec usec now_sec now_usec : Z) : Z :=
  let d := s32 (sec - now_sec) in
  if d <=? Z.quot 0x7fffffff 1000 - 1000 then
    Z.quot (s32 (s32 (d * 1000) + Z.quot (s32 (usec - now_usec)) 1000)) (Z.quot 1000 HZ)
  else if d <=? Z.quot 0x7fffffff HZ then s32 (d * HZ)
  else 0x7fffffff.

(** ** The interrupt *)
Section Interrupt.
Context (call : Z → Z → M unit).

Fixpoint softclock_loop (fuel : nat) : M unit :=
  match fuel with
  | O => lift Spin
  | S fuel =>
      p1 ← gets calltodo;
      match p1 with
      | None => mret tt
      | Some i =>
          c ← at_ i;
          if 0 <? c_time c then mret tt
          else
            modify (set_calltodo (c_next c));;
            fr ← gets callfree;
            put i (with_next fr c);;
            modify (set_callfree (Some i));;
            modify (log (EvCall (c_func c) (c_arg c)));;
            call (c_func c) (c_arg c);;
            softclock_loop fuel
      end
  end.

Definition with_nice (n : Z) (a : acct) : acct :=
  Acct (ru_utime a) (ru_stime a) (vt_value a) (vt_interval a) (pt_value a) (pt_interval a)
       (rlim_cur a) (rlim_max a) (pr_scale a) (p_cpu a) n (p_uid a).

Definition softclock (fuel : nat) (pc : Z) (usermode : bool) : M unit :=
  softclock_loop fuel;;
  if usermode then
    a ← gets acc;
    (if negb (pr_scale a =? 0) then modify (log (EvAddupc pc)) else mret tt);;
    if negb (p_uid a =? 0) && (p_nice a =? NZERO) && (10 * 60 * HZ <? ru_utime a)
    then modify (set_acc (with_nice (NZERO + 4) a));; modify (log EvSetpri)
    else mret tt
  else mret tt.

Definition with_utime (n : Z) (a : acct) : acct :=
  Acct n (ru_stime a) (vt_value a) (vt_interval a) (pt_value a) (pt_interval a)
       (rlim_cur a) (rlim_max a) (pr_scale a) (p_cpu a) (p_nice a) (p_uid a).
Definition with_stime (n : Z) (a : acct) : acct :=
  Acct (ru_utime a) n (vt_value a) (vt_interval a) (pt_value a) (pt_interval a)
       (rlim_cur a) (rlim_max a) (pr_scale a) (p_cpu a) (p_nice a) (p_uid a).
Definition with_vt (n : Z) (a : acct) : acct :=
  Acct (ru_utime a) (ru_stime a) n (vt_interval a) (pt_value a) (pt_interval a)
       (rlim_cur a) (rlim_max a) (pr_scale a) (p_cpu a) (p_nice a) (p_uid a).
Definition with_pt (n : Z) (a : acct) : acct :=
  Acct (ru_utime a) (ru_stime a) (vt_value a) (vt_interval a) n (pt_interval a)
       (rlim_cur a) (rlim_max a) (pr_scale a) (p_cpu a) (p_nice a) (p_uid a).
Definition with_rlim (n : Z) (a : acct) : acct :=
  Acct (ru_utime a) (ru_stime a) (vt_value a) (vt_interval a) (pt_value a) (pt_interval a)
       n (rlim_max a) (pr_scale a) (p_cpu a) (p_nice a) (p_uid a).
Definition with_cpu (n : Z) (a : acct) : acct :=
  Acct (ru_utime a) (ru_stime a) (vt_value a) (vt_interval a) (pt_value a) (pt_interval a)
       (rlim_cur a) (rlim_max a) (pr_scale a) n (p_nice a) (p_uid a).

(** The virtual timer: [if (it_value && !--it_value) { psignal; reload }] *)
Definition itimer_virtual : M unit :=
  a ← gets acc;
  if vt_value a =? 0 then mret tt
  else
    modify (set_acc (with_vt (s32 (vt_value a - 1)) a));;
    if s32 (vt_value a - 1) =? 0
    then modify (log (EvSignal SIGVTALRM));; modify (λ s, set_acc (with_vt (vt_interval (acc s)) (acc s)) s)
    else mret tt.
Definition itimer_prof : M unit :=
  a ← gets acc;
  if pt_value a =? 0 then mret tt
  else
    modify (set_acc (with_pt (s32 (pt_value a - 1)) a));;
    if s32 (pt_value a - 1) =? 0
    then modify (log (EvSignal SIGPROF));; modify (λ s, set_acc (with_pt (pt_interval (acc s)) (acc s)) s)
    else mret tt.

(** Charging the running process for the tick; [p_cpu] is a [char] that the
    test keeps from wrapping round to 0. *)
Definition charge_process : M unit :=
  a ← gets acc;
  modify (set_acc (with_cpu (let n := s8 (p_cpu a + 1) in if n =? 0 then s8 (n - 1) else n) a));;
  a ← gets acc;
  (if rlim_cur a <? s32 (ru_utime a + ru_stime a + 1) then
     modify (log (EvSignal SIGXCPU));;
     if rlim_cur a <? rlim_max a then modify (set_acc (with_rlim (s32 (rlim_cur a + 5 * HZ)) a)) else mret tt
   else mret tt);;
  itimer_prof.

Definition gatherstats (usermode basepri : bool) : M unit :=
  a ← gets acc; np ← gets noproc; t ← gets cp_time;
  let cpstate :=
    if usermode then (if NZERO <? p_nice a then CP_NICE else CP_USER)
    else if np && basepri then CP_IDLE else CP_SYS in
  n ← lift (rd t cpstate);
  t ← lift (wr t cpstate (s32 (n + 1)));
  modify (set_cp_time t).

(** The time of day: a pending adjustment makes the second one tick shorter
    or longer. *)
Definition advance_time : M unit :=
  modify (λ s,
    let lb := if 0 <? adjdelta s then lbolt s + 1 else if adjdelta s <? 0 then lbolt s - 1 else lbolt s in
    let adj := if 0 <? adjdelta s then adjdelta s - 1 else if adjdelta s <? 0 then adjdelta s + 1 else 0 in
    let lb := lb + 1 in
    if HZ <=? lb then set_time (lb - HZ) (s32 (tv_sec s + 1)) adj s else set_time lb (tv_sec s) adj s).

Definition hardclock (fuel : nat) (pc : Z) (usermode basepri : bool) : M unit :=
  p1 ← gets calltodo;
  needsoft ← clock_loop fuel p1 false;
  needsoft ← (if usermode then
      a ← gets acc;
      modify (set_acc (with_utime (s32 (ru_utime a + 1)) a));;
      itimer_virtual;;
      mret (needsoft || negb (pr_scale a =? 0))
    else
      a ← gets acc; np ← gets noproc;
      (if negb np then modify (set_acc (with_stime (s32 (ru_stime a + 1)) a)) else mret tt);;
      mret needsoft);
  np ← gets noproc;
  (if negb np then charge_process else mret tt);;
  gatherstats usermode basepri;;
  advance_time;;
  if needsoft && basepri then softclock fuel pc usermode else mret tt.
End Interrupt.

(** ** The queue as a list of deltas *)
Notation entry := (Z * Z * Z)%type.   (* function, argument, time *)

Definition val (c : callout) : entry := (c_func c, c_arg c, c_time c).
Definition vals (mem : list callout) (i : nat) : option entry := val <$> mem !! i.

(** [queue s todo xs free]: [calltodo] passes through the entries [todo] with
    the contents [xs], [callfree] through [free]. *)
Record queue (s : clock) (todo : list nat) (xs : list entry) (free : list nat) : Prop := Queue {
  q_todo : lseg c_next (tab s) (calltodo s) todo None;
  q_vals : Forall2 (λ i x, vals (tab s) i = Some x) todo xs;
  q_free : lseg c_next (tab s) (callfree s) free None;
  q_nodup : NoDup (todo ++ free)
}.

Fixpoint ins (x : Z * Z) (t : Z) (l : list entry) : list entry :=
  match l with
  | [] => [(x, t)]
  | (y, t') :: l =>
      if t' <? t then (y, t') :: ins x (if 0 <? t' then t - t' else t) l
      else (x, t) :: (y, t' - t) :: l
  end.
Definition push (d : Z) (l : list entry) : list entry :=
  match l with [] => [] | (y, t) :: l => (y, t + d) :: l end.
Fixpoint rm (x : Z * Z) (l : list entry) : list entry :=
  match l with
  | [] => []
  | (y, t) :: l => if decide (y = x) then (if 0 <? t then push t l else l) else (y, t) :: rm x l
  end.
Fixpoint tick (l : list entry) : list entry :=
  match l with
  | [] => []
  | (y, t) :: l => (y, t - 1) :: (if 0 <=? t - 1 then l else tick l)
  end.

(** *** Elementary steps *)
Lemma wp_entry i c (Q : callout → clock → Prop) s : tab s !! i = Some c → Q c s → wp (at_ i) Q s.
Proof. intros E HQ. unfold at_. wp_go. eapply wp_lift; [by apply rd_Done|done]. Qed.
Lemma wp_put_entry i c (Q : unit → clock → Prop) s :
  (i < length (tab s))%nat → Q tt (set_tab (<[i := c]> (tab s)) s) → wp (put i c) Q s.
Proof. intros E HQ. unfold put. wp_go. eapply wp_lift; [by apply wr_Done|done]. Qed.

(** Changing one entry changes its own contents only. *)
Lemma vals_insert mem i j c :
  (i < length mem)%nat → vals (<[i := c]> mem) j = if decide (i = j) then Some (val c) else vals mem j.
Proof.
  intros Hi. unfold vals. case_decide as E; [subst; by rewrite list_lookup_insert_eq|by rewrite list_lookup_insert_ne].
Qed.
Lemma Forall2_vals_insert mem i c l xs :
  (i < length mem)%nat → i ∉ l → Forall2 (λ i x, vals mem i = Some x) l xs →
  Forall2 (λ k x, vals (<[i := c]> mem) k = Some x) l xs.
Proof.
  intros Hi Hn Hf. induction Hf as [|j x l xs Hj Hf IH]; constructor; [|apply IH; set_solver].
  rewrite vals_insert, decide_False by (done || set_solver). done.
Qed.
(** Changing the link of an entry changes no contents. *)
Lemma Forall2_vals_relink mem i c c' l xs :
  mem !! i = Some c → val c' = val c → Forall2 (λ i x, vals mem i = Some x) l xs →
  Forall2 (λ k x, vals (<[i := c']> mem) k = Some x) l xs.
Proof.
  intros Hi Hv Hf. eapply Forall2_impl; [done|]. intros j x Hj. simpl in *.
  rewrite vals_insert by (by eapply lookup_lt_Some). case_decide; [|done]. subst.
  rewrite Hv. unfold vals in Hj. by rewrite Hi in Hj.
Qed.

(** The pointer [p1] of the loops stands on the last entry of [pre]. *)
Definition cur (p1 : option nat) (pre : list nat) : Prop := p1 = last pre.

Lemma wp_next_of s p1 pre rest (Q : option nat → clock → Prop) :
  lseg c_next (tab s) (calltodo s) (pre ++ rest) None → cur p1 pre → Q (head rest) s → wp (next_of p1) Q s.
Proof.
  intros Hl -> HQ. unfold next_of. destruct pre as [|i pre _] using rev_ind.
  - simpl. wp_go. destruct rest as [|j rest]; simpl in *; [by rewrite Hl|]. by destruct Hl as [-> _].
  - rewrite last_snoc. rewrite <- app_assoc in Hl. apply lseg_app in Hl as (r & _ & (-> & c & Hc & Hr)).
    apply wp_bind, (wp_entry _ c); [done|]. wp_go. destruct rest as [|j rest]; simpl in Hr.
    + by rewrite Hr.
    + by destruct Hr as [-> _].
Qed.

(** What an operation on the queue leaves alone. *)
Record rest_same (s s' : clock) : Prop := RestSame {
  rs_acc : acc s' = acc s;
  rs_cp : cp_time s' = cp_time s;
  rs_time : (lbolt s', tv_sec s', adjdelta s', noproc s') = (lbolt s, tv_sec s, adjdelta s, noproc s);
  rs_events : events s' = events s
}.

Lemma rest_same_trans s1 s2 s3 : rest_same s1 s2 → rest_same s2 s3 → rest_same s1 s3.
Proof. intros [? ? ? ?] [? ? ? ?]. split; congruence. Qed.

(** Redirecting the queue behind [pre]. *)
Lemma wp_relink_next s p1 pre q0 q (Q : unit → clock → Prop) :
  lseg c_next (tab s) (calltodo s) pre q0 → cur p1 pre → NoDup pre →
  (∀ s', lseg c_next (tab s') (calltodo s') pre q → length (tab s') = length (tab s) →
     (∀ i, vals (tab s') i = vals (tab s) i) → (∀ i, i ∉ pre → tab s' !! i = tab s !! i) →
     callfree s' = callfree s → rest_same s s' → Q tt s') →
  wp (put_next p1 q) Q s.
Proof.
  intros Hl -> Hnd HQ. unfold put_next. destruct pre as [|i pre _] using rev_ind.
  - simpl. wp_go. by apply HQ.
  - rewrite last_snoc. pose proof Hl as (r & _ & (-> & c & Hc & _))%lseg_app.
    pose proof (lookup_lt_Some _ _ _ Hc) as Hlt.
    apply wp_bind, (wp_entry _ c); [done|]. apply wp_put_entry; [done|]. apply HQ; simpl; try done.
    + eapply lseg_redirect; [done| |done]. apply NoDup_app in Hnd as (_ & Hnd & _). set_solver.
    + by rewrite length_insert.
    + intros j. rewrite vals_insert by done. case_decide; [|done]. subst. unfold vals. by rewrite Hc.
    + intros j Hj. rewrite list_lookup_insert_ne; [done|]. set_solver.
Qed.

Lemma vals_lookup mem i x : vals mem i = Some x → ∃ c, mem !! i = Some c ∧ val c = x.
Proof. unfold vals. destruct (mem !! i) as [c|]; simpl; intros [= <-]. eauto. Qed.

(** Where [timeout] stops: [t'] is what is left of the delay there. *)
Lemma wp_timeout_seek x fuel : ∀ s pre rest xs p1 t,
  lseg c_next (tab s) (calltodo s) (pre ++ rest) None → cur p1 pre →
  Forall2 (λ i x, vals (tab s) i = Some x) rest xs → (length rest < fuel)%nat →
  wp (timeout_seek fuel p1 t) (λ '(p1', p2, t') s', s' = s ∧ ∃ r1 r2 x1 x2,
    rest = r1 ++ r2 ∧ xs = x1 ++ x2 ∧ length r1 = length x1 ∧ cur p1' (pre ++ r1) ∧ p2 = head r2 ∧
    ins x t xs = x1 ++ (x, t') :: push (- t') x2) s.
Proof.
  induction fuel as [|fuel IH]; intros s pre rest xs p1 t Hl Hcur Hv Hf; [lia|].
  cbn [timeout_seek]. apply wp_bind. eapply wp_next_of; [done|done|].
  destruct Hv as [|j [[f a] t0] rest xs Hj Hv]; cbn [head hd_error].
  { wp_go. split; [done|]. exists [], [], [], []. rewrite !app_nil_r. by split_and!. }
  destruct (vals_lookup _ _ _ Hj) as (c & Hc & [= Ef Ea Et]).
  apply wp_bind, (wp_entry _ c); [done|]. rewrite Et. cbn [ins]. destruct (t0 <? t) eqn:E.
  - eapply wp_mono; [apply (IH s (pre ++ [j]) rest xs)|].
    + by rewrite <- app_assoc.
    + unfold cur. by rewrite last_snoc.
    + done.
    + simpl in Hf. lia.
    + intros [[p1' p2] t'] s' (-> & r1 & r2 & x1 & x2 & -> & -> & Hlen & Hc' & -> & ->).
      split; [done|]. exists (j :: r1), r2, ((f, a, t0) :: x1), x2. rewrite <- app_assoc in Hc'. simpl in *.
      split_and!; try done. by f_equal.
  - wp_go. split; [done|]. exists [], (j :: rest), [], ((f, a, t0) :: xs). rewrite !app_nil_r.
    split_and!; done.
Qed.

Lemma Forall2_vals_ext mem mem' l xs :
  (∀ i, i ∈ l → vals mem' i = vals mem i) →
  Forall2 (λ i x, vals mem i = Some x) l xs → Forall2 (λ i x, vals mem' i = Some x) l xs.
Proof.
  intros He Hf. induction Hf as [|j x l xs Hj Hf IH]; constructor; [rewrite He; [done|set_solver]|].
  apply IH. intros i Hi. apply He. set_solver.
Qed.
Lemma lseg_ext mem mem' p l q :
  (∀ i, i ∈ l → mem' !! i = mem !! i) → lseg c_next mem p l q → lseg c_next mem' p l q.
Proof.
  revert p. induction l as [|j l IH]; intros p He; simpl; [done|].
  intros (-> & x & Hx & Hl). split; [done|]. exists x. split; [rewrite He; [done|set_solver]|].
  apply IH; [|done]. intros i Hi. apply He. set_solver.
Qed.


Lemma vals_insert_ne mem i j c : i ≠ j → vals (<[i := c]> mem) j = vals mem j.
Proof. intros Hne. unfold vals. by rewrite list_lookup_insert_ne. Qed.

(** Linking the entry [n] in behind [r1], with the delay [t] taken off the
    entry that follows. *)
Lemma wp_link s p1 r1 r2 x1 x2 n c f a t free :
  lseg c_next (tab s) (calltodo s) (r1 ++ r2) None → cur p1 r1 →
  Forall2 (λ i x, vals (tab s) i = Some x) (r1 ++ r2) (x1 ++ x2) → length r1 = length x1 →
  tab s !! n = Some c → c_arg c = a → c_func c = f →
  lseg c_next (tab s) (callfree s) free None → NoDup ((r1 ++ n :: r2) ++ free) →
  wp (put_next p1 (Some n);;
      c ← at_ n;
      put n (Callout t (c_arg c) (c_func c) (head r2));;
      match head r2 with
      | None => mret tt
      | Some j => c ← at_ j; put j (with_time (c_time c - t) c)
      end)
    (λ _ s', queue s' (r1 ++ n :: r2) (x1 ++ (f, a, t) :: push (- t) x2) free ∧ rest_same s s') s.
Proof.
  intros Hl Hcur Hv Hlen Hn <- <- Hfree Hnd.
  assert (Hsep : NoDup r1 ∧ n ∉ r1 ∧ n ∉ r2 ∧ NoDup r2 ∧ r1 ## r2 ∧ n ∉ free ∧ r1 ## free ∧ r2 ## free).
  { apply NoDup_app in Hnd as (Hnd & Hd & _). apply NoDup_app in Hnd as (H1 & H2 & H3).
    apply NoDup_cons in H3 as [H3 H4]. split_and!; try done; set_solver. }
  destruct Hsep as (S1 & S2 & S3 & S4 & S5 & S6 & S7 & S8).
  pose proof Hl as (q0 & Hl1 & Hl2)%lseg_app. pose proof (lseg_head _ _ _ _ Hl2) as ->.
  apply Forall2_app_inv in Hv as [Hv1 Hv2]; [|done].
  apply wp_bind. eapply wp_relink_next; [done|done|done|]. intros s1 Hl1' Hlen1 Hvals1 Htab1 Hfr1 Hrs1.
  assert (Hn1 : tab s1 !! n = Some c) by by rewrite Htab1.
  apply wp_bind, (wp_entry _ c); [done|]. pose proof (lookup_lt_Some _ _ _ Hn1) as Hlt.
  apply wp_bind, wp_put_entry; [done|]. set (c' := Callout t (c_arg c) (c_func c) (head r2)).
  set (s2 := set_tab _ s1).
  assert (Hq1 : lseg c_next (tab s2) (calltodo s2) (r1 ++ [n]) (head r2)).
  { apply lseg_app. exists (Some n). split; [by apply lseg_insert|]. split; [done|]. exists c'. split; [|done].
    by apply list_lookup_insert_eq. }
  assert (Hq2 : lseg c_next (tab s2) (head r2) r2 None).
  { apply lseg_insert; [done|]. eapply lseg_ext; [|done]. intros i Hi. apply Htab1. set_solver. }
  assert (Hq3 : lseg c_next (tab s2) (callfree s2) free None).
  { apply lseg_insert; [done|]. simpl. rewrite Hfr1. eapply lseg_ext; [|done]. intros i Hi. apply Htab1. set_solver. }
  assert (Hv1' : Forall2 (λ i x, vals (tab s2) i = Some x) (r1 ++ [n]) (x1 ++ [(c_func c, c_arg c, t)])).
  { apply Forall2_app; [|constructor; [|constructor]; simpl; by rewrite vals_insert, decide_True].
    eapply Forall2_vals_ext; [|done]. intros i Hi. simpl. rewrite vals_insert_ne, Hvals1; [done|]. set_solver. }
  assert (Hv2' : Forall2 (λ i x, vals (tab s2) i = Some x) r2 x2).
  { eapply Forall2_vals_ext; [|done]. intros i Hi. simpl. rewrite vals_insert_ne, Hvals1; [done|]. set_solver. }
  assert (Hrs2 : rest_same s s2) by (eapply rest_same_trans; [done|by split]).
  clear Hv2. replace (r1 ++ n :: r2) with ((r1 ++ [n]) ++ r2) in * by (by rewrite <- app_assoc).
  replace (x1 ++ (c_func c, c_arg c, t) :: push (- t) x2) with
    ((x1 ++ [(c_func c, c_arg c, t)]) ++ push (- t) x2) by (by rewrite <- app_assoc).
  clearbody s2. destruct r2 as [|j r2], x2 as [|[[f' a'] t'] x2]; try (by inversion Hv2'); cbn [head hd_error] in *.
  - wp_go. simpl push. rewrite !app_nil_r in *. split; [|done]. by split.
  - apply Forall2_cons in Hv2' as [Hj Hv2']. destruct (vals_lookup _ _ _ Hj) as (d & Hd & [= Ef Ea Et]).
    apply wp_bind, (wp_entry _ d); [done|]. apply wp_put_entry; [by eapply lookup_lt_Some|].
    split; [|eapply rest_same_trans; [done|by split]]. split; [| | |done].
    + apply lseg_app. exists (Some j). split; (eapply lseg_update; [done|done|done]).
    + apply Forall2_app; [|constructor].
      * eapply Forall2_vals_ext; [|done]. intros i Hi. simpl. rewrite vals_insert_ne; [done|]. set_solver.
      * simpl. rewrite vals_insert, decide_True by (done || by eapply lookup_lt_Some). unfold val. simpl. do 2 f_equal; lia || congruence.
      * eapply Forall2_vals_ext; [|done]. intros i Hi. simpl. rewrite vals_insert_ne; [done|].
        apply NoDup_cons in S4 as [S4 _]. set_solver.
    + eapply lseg_update; [done|done|done].
Qed.

Lemma wp_timeout s todo xs n free fuel f a t :
  queue s todo xs (n :: free) → (length todo < fuel)%nat →
  wp (timeout fuel f a t) (λ _ s', rest_same s s' ∧ ∃ todo',
    queue s' todo' (ins (f, a) (Z.max 1 t) xs) free ∧ todo' ≡ₚ n :: todo) s.
Proof.
  intros [Hl Hv Hf Hnd] Hfuel. unfold timeout.
  replace (if t <=? 0 then 1 else t) with (Z.max 1 t) by (destruct (Z.leb_spec t 0); lia).
  destruct Hf as (Ecf & c & Hc & Hf). wp_go. rewrite Ecf.
  assert (Hsep : n ∉ todo ∧ n ∉ free ∧ NoDup todo ∧ NoDup free ∧ todo ## free).
  { apply NoDup_app in Hnd as (H1 & H2 & H3). apply NoDup_cons in H3 as [H3 H4]. split_and!; try done; set_solver. }
  destruct Hsep as (S1 & S2 & S3 & S4 & S5). pose proof (lookup_lt_Some _ _ _ Hc) as Hlt.
  apply wp_bind, (wp_entry _ c); [done|]. wp_go. apply wp_put_entry; [done|]. wp_go.
  set (s1 := set_tab _ _).
  assert (Hl1 : lseg c_next (tab s1) (calltodo s1) todo None) by (by apply lseg_insert).
  assert (Hf1 : lseg c_next (tab s1) (callfree s1) free None) by (by apply lseg_insert).
  assert (Hv1 : Forall2 (λ i x, vals (tab s1) i = Some x) todo xs).
  { eapply Forall2_vals_ext; [|done]. intros i Hi. simpl. rewrite vals_insert_ne; [done|]. set_solver. }
  eapply wp_mono; [apply (wp_timeout_seek (f, a) fuel s1 [] todo xs None); done|].
  intros [[p1 p2] t'] s' (-> & r1 & r2 & x1 & x2 & -> & -> & Hlen & Hcur & -> & ->).
  eapply wp_mono; [eapply (wp_link s1 p1 r1 r2 x1 x2 n _ f a t' free); try done|].
  - by apply list_lookup_insert_eq.
  - done.
  - done.
  - assert (E : (r1 ++ n :: r2) ++ free ≡ₚ (r1 ++ r2) ++ n :: free) by (by rewrite <- !Permutation_middle).
    by rewrite E.
  - intros _ s' [Hq Hrs]. split; [eapply rest_same_trans; [|done]; by split|].
    exists (r1 ++ n :: r2). split; [done|]. by rewrite <- Permutation_middle.
Qed.

(** Unlinking the entry [j] behind [pre]: its delay goes to the entry that
    follows. *)
Lemma wp_unlink s p1 pre xp j r y t xr free c :
  lseg c_next (tab s) (calltodo s) (pre ++ j :: r) None → cur p1 pre →
  Forall2 (λ i x, vals (tab s) i = Some x) pre xp →
  Forall2 (λ i x, vals (tab s) i = Some x) r xr →
  tab s !! j = Some c → val c = (y, t) →
  lseg c_next (tab s) (callfree s) free None → NoDup ((pre ++ j :: r) ++ free) →
  wp (match c_next c with
      | Some k => if 0 <? c_time c then d ← at_ k; put k (with_time (c_time d + c_time c) d) else mret tt
      | None => mret tt
      end;;
      c ← at_ j;
      put_next p1 (c_next c);;
      fr ← gets callfree;
      c ← at_ j;
      put j (with_next fr c);;
      modify (set_callfree (Some j)))
    (λ _ s', rest_same s s' ∧
      queue s' (pre ++ r) (xp ++ (if 0 <? t then push t xr else xr)) (j :: free)) s.
Proof.
  intros Hl Hcur Hvp Hvr Hj Hvj Hfree Hnd.
  assert (Ht : c_time c = t) by (unfold val in Hvj; congruence). rewrite Ht.
  assert (Hsep : NoDup pre ∧ j ∉ pre ∧ j ∉ r ∧ NoDup r ∧ pre ## r ∧ j ∉ free ∧ pre ## free ∧ r ## free ∧ NoDup free).
  { apply NoDup_app in Hnd as (Hnd & Hd & Hnf). apply NoDup_app in Hnd as (H1 & H2 & H3).
    apply NoDup_cons in H3 as [H3 H4]. split_and!; try done; set_solver. }
  destruct Hsep as (S1 & S2 & S3 & S4 & S5 & S6 & S7 & S8 & S9).
  pose proof Hl as (q0 & Hl1 & (-> & c0 & Hc0 & Hl2))%lseg_app. simplify_eq.
  pose proof (lseg_head _ _ _ _ Hl2) as Hnx.
  (* the delay of [j] is handed on *)
  set (xr' := if 0 <? c_time c then push (c_time c) xr else xr).
  apply wp_bind.
  apply (wp_mono _ (λ _ s1, rest_same s s1 ∧ callfree s1 = callfree s ∧ calltodo s1 = calltodo s ∧
    (∀ i, i ∉ r → tab s1 !! i = tab s !! i) ∧ lseg c_next (tab s1) (c_next c) r None ∧
    Forall2 (λ i x, vals (tab s1) i = Some x) r xr')).
  { unfold xr'. rewrite Hnx. destruct r as [|k r], xr as [|[y' t'] xr]; try (by inversion Hvr); cbn [head hd_error].
    - wp_go. simpl push. rewrite Hnx in Hl2. simpl in Hl2. split_and!; try done. by case_match.
    - destruct (0 <? c_time c); [|wp_go; rewrite Hnx in Hl2; by split_and!].
      apply Forall2_cons in Hvr as [Hk Hvr]. destruct (vals_lookup _ _ _ Hk) as (d & Hd & Hdv).
      pose proof (lookup_lt_Some _ _ _ Hd).
      apply wp_bind, (wp_entry _ d); [done|]. apply wp_put_entry; [done|]. split_and!; try done; simpl.
      + intros i Hi. rewrite list_lookup_insert_ne; [done|]. set_solver.
      + rewrite Hnx in Hl2. change (lseg c_next (<[k:=with_time (c_time d + c_time c) d]> (tab s)) (Some k) (k :: r) None).
        by eapply lseg_update.
      + apply NoDup_cons in S4 as [S4 _]. constructor.
        * rewrite vals_insert, decide_True by done. unfold val in *. simpl. congruence.
        * eapply Forall2_vals_ext; [|done]. intros i Hi. rewrite vals_insert_ne; [done|]. set_solver. }
  intros [] s1 (Hrs1 & Hfr1 & Htd1 & Htab1 & Hl2' & Hvr').
  apply wp_bind, (wp_entry _ c); [by rewrite Htab1|]. apply wp_bind.
  eapply (wp_relink_next s1 p1 pre (Some j)); [|done|done|].
  { rewrite Htd1. eapply lseg_ext; [|done]. intros i Hi. apply Htab1. set_solver. }
  intros s2 Hp2 Hlen2 Hvals2 Htab2 Hfr2 Hrs2. wp_go.
  assert (Hj2 : tab s2 !! j = Some c) by (rewrite Htab2, Htab1; done).
  apply (wp_entry _ c); [done|]. wp_go. pose proof (lookup_lt_Some _ _ _ Hj2).
  apply wp_put_entry; [done|]. wp_go. split; [eapply rest_same_trans; [done|]; eapply rest_same_trans; [done|by split]|].
  assert (Hlt2 : ∀ i, i ∉ j :: pre → (<[j:=with_next (callfree s2) c]> (tab s2)) !! i = tab s1 !! i).
  { intros i Hi. rewrite list_lookup_insert_ne by set_solver. apply Htab2. set_solver. }
  split; simpl.
  - apply lseg_app. exists (head r). rewrite Hnx in *. split; [by apply lseg_insert|].
    eapply lseg_ext; [|done]. intros i Hi. apply Hlt2. set_solver.
  - apply Forall2_app.
    + eapply Forall2_vals_ext; [|done]. intros i Hi. rewrite vals_insert_ne by set_solver. rewrite Hvals2.
      unfold vals. rewrite Htab1 by set_solver. done.
    + eapply Forall2_vals_ext; [|done]. intros i Hi. rewrite vals_insert_ne by set_solver. by rewrite Hvals2.
  - split; [done|]. exists (with_next (callfree s2) c). split; [by apply list_lookup_insert_eq|]. simpl.
    eapply lseg_ext; [intros i Hi; rewrite Hlt2 by set_solver; apply Htab1; set_solver|]. by rewrite Hfr2, Hfr1.
  - assert (E : (pre ++ r) ++ j :: free ≡ₚ (pre ++ j :: r) ++ free) by (by rewrite <- !Permutation_middle). by rewrite E.
Qed.

Lemma wp_untimeout_seek f a fuel : ∀ s pre xp rest xs free p1,
  queue s (pre ++ rest) (xp ++ xs) free → length pre = length xp → cur p1 pre → (length rest < fuel)%nat →
  wp (untimeout_seek fuel f a p1) (λ _ s', rest_same s s' ∧ ∃ todo' free',
    queue s' todo' (xp ++ rm (f, a) xs) free' ∧ todo' ++ free' ≡ₚ (pre ++ rest) ++ free) s.
Proof.
  induction fuel as [|fuel IH]; intros s pre xp rest xs free p1 Hq Hlen Hcur Hf; [lia|].
  pose proof Hq as [Hl Hv Hfr Hnd]. apply Forall2_app_inv in Hv as [Hvp Hv]; [|done].
  cbn [untimeout_seek]. apply wp_bind. eapply wp_next_of; [done|done|].
  destruct rest as [|j rest], xs as [|[[f' a'] t'] xs]; try (by inversion Hv); cbn [head hd_error].
  { wp_go. split; [done|]. exists (pre ++ []), free. by split. }
  apply Forall2_cons in Hv as [Hj Hv]. destruct (vals_lookup _ _ _ Hj) as (c & Hc & Hcv).
  pose proof Hcv as [= Ef Ea Et].
  apply wp_bind, (wp_entry _ c); [done|]. rewrite Ef, Ea. cbn [rm].
  destruct ((f' =? f) && (a' =? a)) eqn:E.
  - apply andb_true_iff in E as [<-%Z.eqb_eq <-%Z.eqb_eq]. rewrite decide_True by done.
    eapply wp_mono; [by eapply wp_unlink|]. intros _ s' [Hrs Hq']. split; [done|].
    exists (pre ++ rest), (j :: free). split; [done|]. by rewrite <- !Permutation_middle.
  - rewrite decide_False by (intros [= -> ->]; rewrite !Z.eqb_refl in E; done).
    eapply wp_mono; [apply (IH s (pre ++ [j]) (xp ++ [(f', a', t')]) rest xs free)|].
    + by rewrite <- !app_assoc.
    + rewrite !length_app. simpl. lia.
    + unfold cur. by rewrite last_snoc.
    + simpl in Hf. lia.
    + intros _ s' [Hrs (todo' & free' & Hq' & Hp)]. split; [done|]. exists todo', free'.
      rewrite <- app_assoc in Hq'. rewrite <- (app_assoc pre) in Hp. by split.
Qed.

(** The tick decrements the due entries and the first one that is not. *)
Definition head_due (xs : list entry) : bool := match xs with [] => false | (_, t) :: _ => t <=? 1 end.

Lemma wp_clock_loop fuel : ∀ s pre xp rest xs free ns,
  queue s (pre ++ rest) (xp ++ xs) free → length pre = length xp → (length rest < fuel)%nat →
  Forall (λ x, -2^31 < x.2 < 2^31) xs →
  wp (clock_loop fuel (head rest) ns) (λ b s', rest_same s s' ∧
    queue s' (pre ++ rest) (xp ++ tick xs) free ∧ b = ns || head_due xs) s.
Proof.
  induction fuel as [|fuel IH]; intros s pre xp rest xs free ns Hq Hlen Hf Hb; [lia|].
  pose proof Hq as [Hl Hv Hfr Hnd]. apply Forall2_app_inv in Hv as [Hvp Hv]; [|done].
  destruct rest as [|j rest], xs as [|[y t] xs]; try (by inversion Hv); cbn [head hd_error clock_loop].
  { wp_go. rewrite orb_false_r. by split_and!. }
  apply Forall_cons in Hb as [Hbt Hb]. cbn [snd] in Hbt.
  apply Forall2_cons in Hv as [Hj Hv]. destruct (vals_lookup _ _ _ Hj) as (c & Hc & Hcv).
  assert (Ht : c_time c = t) by (unfold val in Hcv; congruence).
  pose proof (lookup_lt_Some _ _ _ Hc) as Hlt.
  apply wp_bind, (wp_entry _ c); [done|]. apply wp_bind, wp_put_entry; [done|]. rewrite Ht, s32_id by lia. set (s1 := set_tab _ s).
  assert (Hrs1 : rest_same s s1) by by split.
  assert (Hnx : c_next c = head rest).
  { apply lseg_app in Hl as (q0 & _ & (_ & c0 & Hc0 & Hl)). simplify_eq. by eapply lseg_head. }
  assert (Hq1 : queue s1 (pre ++ j :: rest) (xp ++ (y, t - 1) :: xs) free).
  { assert (j ∉ pre ∧ j ∉ rest) as [S1 S2].
    { apply NoDup_app in Hnd as (Hnd & _). apply NoDup_app in Hnd as (_ & H1 & H2).
      apply NoDup_cons in H2 as [H2 _]. split; [|done]. intros Hin. apply (H1 j Hin). set_solver. }
    split; [by eapply lseg_update| |by eapply lseg_update|done]. simpl.
    apply Forall2_app; [|constructor].
    - eapply Forall2_vals_ext; [|done]. intros i Hi. rewrite vals_insert_ne; [done|]. set_solver.
    - rewrite vals_insert, decide_True by done. unfold val in *. simpl. congruence.
    - eapply Forall2_vals_ext; [|done]. intros i Hi. rewrite vals_insert_ne; [done|]. set_solver. }
  cbn [tick head_due]. destruct (Z.ltb_spec 0 (t - 1)).
  { wp_go. replace (0 <=? t - 1) with true by lia. replace (t <=? 1) with false by lia.
    rewrite orb_false_r. by split_and!. }
  replace (t <=? 1) with true by lia. rewrite orb_true_r.
  destruct (Z.eqb_spec (t - 1) 0).
  { wp_go. replace (0 <=? t - 1) with true by lia. by split_and!. }
  replace (0 <=? t - 1) with false by lia. rewrite Hnx.
  eapply wp_mono; [apply (IH s1 (pre ++ [j]) (xp ++ [(y, t - 1)]) rest xs free true)|].
  - by rewrite <- !app_assoc.
  - rewrite !length_app. simpl. lia.
  - simpl in Hf. lia.
  - done.
  - intros b s' (Hrs & Hq' & ->). rewrite <- !app_assoc in Hq'. split_and!; try done. by eapply rest_same_trans.
Qed.

(** ** Deltas and deadlines

    The queue in the order of the deadlines; the deadline of an entry counts
    from now, and is not positive when the entry is due. *)
Fixpoint dl (acc : Z) (l : list entry) : list entry :=
  match l with
  | [] => []
  | (y, t) :: l =>
      let acc' := acc + Z.max 0 t in
      (y, if acc' =? 0 then t else acc') :: dl acc' l
  end.
Definition deadlines (l : list entry) : list entry := dl 0 l.

(** Behind a positive delta there is no negative one. *)
Fixpoint wf (pos : bool) (l : list entry) : Prop :=
  match l with
  | [] => True
  | (_, t) :: l => (pos = true → 0 ≤ t) ∧ wf (pos || (0 <? t)) l
  end.

(** The operations on deadlines. *)
Fixpoint insert_at (x : Z * Z) (d : Z) (l : list entry) : list entry :=
  match l with
  | [] => [(x, d)]
  | (y, e) :: l => if e <? d then (y, e) :: insert_at x d l else (x, d) :: (y, e) :: l
  end.
Fixpoint remove1 (x : Z * Z) (l : list entry) : list entry :=
  match l with [] => [] | (y, e) :: l => if decide (y = x) then l else (y, e) :: remove1 x l end.
Definition shift (n : Z) (l : list entry) : list entry := (λ '(y, e), (y, e - n)) <$> l.

Lemma wf_mono l : wf true l → wf false l.
Proof. destruct l as [|[y t] l]; simpl; [done|]. intros [H1 H2]. split; [done|]. destruct (0 <? t); [done|].
  revert H2. clear. induction l as [|[y t'] l IH]; simpl; [done|]. intros [H1 H2]. split; [done|].
  destruct (0 <? t'); [done|]. auto. Qed.

Lemma dl_ins x l : ∀ acc t, 0 ≤ acc → 1 ≤ t → wf (0 <? acc) l → dl acc (ins x t l) = insert_at x (acc + t) (dl acc l).
Proof.
  induction l as [|[y t'] l IH]; intros acc t Ha Ht Hw; simpl.
  - rewrite Z.max_r by lia. destruct (Z.eqb_spec (acc + t) 0); [lia|done].
  - destruct Hw as [H1 H2]. destruct (Z.ltb_spec t' t); simpl.
    + rewrite IH; [|lia|case_match; lia|].
      * replace (acc + Z.max 0 t' + (if 0 <? t' then t - t' else t)) with (acc + t) by (destruct (Z.ltb_spec 0 t'); lia).
        replace ((if acc + Z.max 0 t' =? 0 then t' else acc + Z.max 0 t') <? acc + t) with true; [done|].
        symmetry. apply Z.ltb_lt. destruct (Z.eqb_spec (acc + Z.max 0 t') 0); lia.
      * replace (0 <? acc + Z.max 0 t') with ((0 <? acc) || (0 <? t')); [done|].
        destruct (Z.ltb_spec 0 acc), (Z.ltb_spec 0 t'), (Z.ltb_spec 0 (acc + Z.max 0 t')); lia || done.
    + replace (acc + Z.max 0 t + Z.max 0 (t' - t)) with (acc + Z.max 0 t') by lia.
      destruct (Z.eqb_spec (acc + Z.max 0 t) 0); [lia|]. destruct (Z.eqb_spec (acc + Z.max 0 t') 0); [lia|].
      replace (acc + Z.max 0 t' <? acc + t) with false by (symmetry; apply Z.ltb_ge; lia).
      by replace (acc + Z.max 0 t) with (acc + t) by lia.
Qed.

Lemma dl_rm x l : ∀ acc, 0 ≤ acc → wf (0 <? acc) l → dl acc (rm x l) = remove1 x (dl acc l).
Proof.
  induction l as [|[y t] l IH]; intros acc Ha Hw; simpl; [done|]. destruct Hw as [H1 H2].
  case_decide; [|simpl; f_equal; apply IH; [lia|]].
  - destruct (Z.ltb_spec 0 t).
    + destruct l as [|[y' t'] l]; simpl; [done|]. destruct H2 as [H2 _]. rewrite orb_true_r in H2. specialize (H2 eq_refl).
      replace (acc + Z.max 0 (t' + t)) with (acc + Z.max 0 t + Z.max 0 t') by lia.
      destruct (Z.eqb_spec (acc + Z.max 0 t + Z.max 0 t') 0); [lia|done].
    + by replace (acc + Z.max 0 t) with acc by lia.
  - replace (0 <? acc + Z.max 0 t) with ((0 <? acc) || (0 <? t)); [done|].
    destruct (Z.ltb_spec 0 acc), (Z.ltb_spec 0 t), (Z.ltb_spec 0 (acc + Z.max 0 t)); lia || done.
Qed.

Lemma dl_shift l : ∀ acc, 1 ≤ acc → wf true l → dl (acc - 1) l = shift 1 (dl acc l).
Proof.
  induction l as [|[y t] l IH]; intros acc Ha Hw; simpl; [done|]. destruct Hw as [H1 H2]. specialize (H1 eq_refl).
  replace (acc - 1 + Z.max 0 t) with (acc + Z.max 0 t - 1) by lia.
  rewrite <- IH by (done || lia). destruct (Z.eqb_spec (acc + Z.max 0 t) 0); [lia|].
  do 2 f_equal. destruct (Z.eqb_spec (acc + Z.max 0 t - 1) 0); lia.
Qed.

Lemma dl_tick l : wf false l → dl 0 (tick l) = shift 1 (dl 0 l).
Proof.
  induction l as [|[y t] l IH]; intros Hw; [done|]. destruct Hw as [_ H2]. simpl in H2.
  cbn [tick dl]. rewrite !Z.add_0_l. destruct (Z.ltb_spec 0 t).
  - replace (0 <=? t - 1) with true by lia. rewrite (Z.max_r 0 (t - 1)), (Z.max_r 0 t) by lia.
    rewrite dl_shift by (done || lia). destruct (Z.eqb_spec t 0); [lia|].
    cbn. do 2 f_equal. by destruct (Z.eqb_spec (t - 1) 0).
  - replace (0 <=? t - 1) with false by lia. rewrite !Z.max_l by lia. rewrite IH by done. done.
Qed.

Lemma dl_pos l : ∀ acc, 0 < acc → wf true l → Forall (λ x, 0 < x.2) (dl acc l).
Proof.
  induction l as [|[y t] l IH]; intros acc Ha Hw; simpl; [done|]. destruct Hw as [H1 H2].
  constructor; simpl; [destruct (Z.eqb_spec (acc + Z.max 0 t) 0); lia|]. apply IH; [lia|done].
Qed.

Lemma wf_ins x l : ∀ pos t, 1 ≤ t → wf pos l → wf pos (ins x t l).
Proof.
  induction l as [|[y t'] l IH]; intros pos t Ht Hw; simpl; [split; [lia|done]|]. destruct Hw as [H1 H2].
  destruct (Z.ltb_spec t' t); simpl.
  - split; [done|]. apply IH; [|done]. destruct (Z.ltb_spec 0 t'); lia.
  - replace (0 <? t) with true by lia. rewrite orb_true_r. split_and!; [lia|lia|]. simpl.
    by replace (0 <? t') with true in H2 by lia; rewrite orb_true_r in H2.
Qed.
Lemma wf_weak l : ∀ pos, wf pos l → wf false l.
Proof. intros [] Hw; [by apply wf_mono|done]. Qed.
Lemma wf_push l t : wf true l → wf false (push t l) ∧ (0 ≤ t → wf true (push t l)).
Proof.
  destruct l as [|[y t'] l]; simpl; [done|]. intros [H1 H2]. specialize (H1 eq_refl). split.
  - split; [done|]. destruct (0 <? t' + t); [done|by apply wf_mono].
  - intros Ht. split; [lia|done].
Qed.
Lemma wf_rm x l : ∀ pos, wf pos l → wf pos (rm x l).
Proof.
  induction l as [|[y t] l IH]; intros pos Hw; simpl; [done|]. destruct Hw as [H1 H2].
  case_decide; [|simpl; split; [done|by apply IH]].
  destruct (Z.ltb_spec 0 t).
  - rewrite orb_true_r in H2. destruct (wf_push l t H2) as [H3 H4]. destruct pos; [apply H4; lia|done].
  - rewrite orb_false_r in H2. done.
Qed.
Lemma wf_tick l : wf false l → wf false (tick l).
Proof.
  induction l as [|[y t] l IH]; intros Hw; simpl; [done|]. destruct Hw as [_ H2]. simpl in H2. split; [done|].
  destruct (Z.ltb_spec 0 t).
  - replace (0 <=? t - 1) with true by lia. destruct (0 <? t - 1); [done|by apply wf_mono].
  - replace (0 <=? t - 1) with false by lia. replace (0 <? t - 1) with false by lia. by apply IH.
Qed.
(** The deadlines are in order: for every bound the entries within it come
    first. *)
Lemma dl_ge l : ∀ acc, 0 < acc → wf true l → Forall (λ x, acc ≤ x.2) (dl acc l).
Proof.
  induction l as [|[y t] l IH]; intros acc Ha Hw; cbn [dl]; [done|]. destruct Hw as [H1 H2].
  constructor; [destruct (Z.eqb_spec (acc + Z.max 0 t) 0); cbn; lia|].
  eapply Forall_impl; [apply (IH (acc + Z.max 0 t)); [lia|done]|]. cbn. intros. lia.
Qed.
Lemma dl_ordered a l : ∀ acc, 0 ≤ acc → 0 ≤ a → wf (0 <? acc) l →
  filter (λ x, x.2 ≤ a) (dl acc l) ++ filter (λ x, a < x.2) (dl acc l) = dl acc l.
Proof.
  induction l as [|[y t] l IH]; intros acc Ha Ha0 Hw; [done|]. cbn [dl]. destruct Hw as [H1 H2].
  set (e := if acc + Z.max 0 t =? 0 then t else acc + Z.max 0 t).
  assert (Hw' : wf (0 <? acc + Z.max 0 t) l).
  { replace (0 <? acc + Z.max 0 t) with ((0 <? acc) || (0 <? t)); [done|].
    destruct (Z.ltb_spec 0 acc), (Z.ltb_spec 0 t), (Z.ltb_spec 0 (acc + Z.max 0 t)); lia || done. }
  rewrite !filter_cons. destruct (decide (e ≤ a)).
  - rewrite decide_True, decide_False by (cbn; lia). simpl. f_equal. apply IH; [lia|lia|done].
  - rewrite decide_False, decide_True by (cbn; lia).
    assert (He : e = acc + Z.max 0 t ∧ 0 < acc + Z.max 0 t) by (unfold e in *; destruct (Z.eqb_spec (acc + Z.max 0 t) 0); lia).
    replace (0 <? acc + Z.max 0 t) with true in Hw' by lia.
    assert (Hf : Forall (λ x, a < x.2) (dl (acc + Z.max 0 t) l)).
    { eapply Forall_impl; [apply dl_ge; [lia|done]|]. cbn. intros. lia. }
    rewrite filter_none by (eapply Forall_impl; [done|]; cbn; intros; lia).
    rewrite filter_every by done. done.
Qed.

Lemma shift_cons n y e D : shift n ((y, e) :: D) = (y, e - n) :: shift n D.
Proof. done. Qed.

(** ** The interrupt as a whole *)
Definition is_call (e : event) : bool := match e with EvCall _ _ => true | _ => false end.
Definition called (s : clock) : list event := filter (λ e, is_call e = true) (events s).

(** The accounting touches neither the queue nor the time of day, and makes
    no calls. *)
Record accounting (s s' : clock) : Prop := Accounting {
  a_queue : (tab s', calltodo s', callfree s') = (tab s, calltodo s, callfree s);
  a_called : called s' = called s;
  a_time : (lbolt s', tv_sec s', adjdelta s', noproc s') = (lbolt s, tv_sec s, adjdelta s, noproc s);
  a_cp : length (cp_time s') = length (cp_time s)
}.

Lemma accounting_refl s : accounting s s.
Proof. by split. Qed.
Lemma accounting_trans s1 s2 s3 : accounting s1 s2 → accounting s2 s3 → accounting s1 s3.
Proof. intros [? ? ? ?] [? ? ? ?]. split; congruence. Qed.
Lemma accounting_log e s : is_call e = false → accounting s (log e s).
Proof.
  intros He. split; try done. unfold called. simpl. rewrite list.filter_app, filter_cons, decide_False by congruence.
  by rewrite filter_nil, app_nil_r.
Qed.
Lemma accounting_acc a s : accounting s (set_acc a s).
Proof. by split. Qed.
Lemma accounting_queue s s' todo xs free : accounting s s' → queue s todo xs free → queue s' todo xs free.
Proof. intros [Hq _ _ _] [H1 H2 H3 H4]. injection Hq as E1 E2 E3. split; rewrite ?E1, ?E2, ?E3; done. Qed.

#[local] Hint Resolve accounting_refl accounting_acc accounting_log : kern.

Lemma wp_itimer_virtual s : wp itimer_virtual (λ _ s', accounting s s') s.
Proof.
  unfold itimer_virtual. wp_go. destruct (_ =? 0); [wp_go; apply accounting_refl|]. wp_go.
  destruct (s32 _ =? 0); wp_go; [|apply accounting_acc].
  eapply accounting_trans; [apply accounting_acc|]. eapply accounting_trans; [by apply (accounting_log (EvSignal SIGVTALRM))|].
  apply accounting_acc.
Qed.
Lemma wp_itimer_prof s : wp itimer_prof (λ _ s', accounting s s') s.
Proof.
  unfold itimer_prof. wp_go. destruct (_ =? 0); [wp_go; apply accounting_refl|]. wp_go.
  destruct (s32 _ =? 0); wp_go; [|apply accounting_acc].
  eapply accounting_trans; [apply accounting_acc|]. eapply accounting_trans; [by apply (accounting_log (EvSignal SIGPROF))|].
  apply accounting_acc.
Qed.
Lemma wp_charge_process s : wp charge_process (λ _ s', accounting s s') s.
Proof.
  unfold charge_process. wp_go. set (s1 := set_acc _ s).
  apply (wp_mono _ (λ _ s2, accounting s1 s2)).
  - destruct (rlim_cur _ <? _); wp_go; [|apply accounting_refl].
    destruct (rlim_cur _ <? _); wp_go; [|by apply accounting_log].
    eapply accounting_trans; [by apply (accounting_log (EvSignal SIGXCPU))|apply accounting_acc].
  - intros [] s2 H2. eapply wp_mono; [apply wp_itimer_prof|]. intros [] s3 H3.
    eapply accounting_trans; [|done]. eapply accounting_trans; [apply accounting_acc|done].
Qed.
Lemma wp_gatherstats s um bp : length (cp_time s) = 4%nat → wp (gatherstats um bp) (λ _ s', accounting s s') s.
Proof.
  intros Hl. unfold gatherstats. wp_go. set (st := if um then _ else _).
  assert (Hst : (st < length (cp_time s))%nat).
  { rewrite Hl. unfold st, CP_NICE, CP_USER, CP_IDLE, CP_SYS. repeat case_match; lia. }
  destruct (lookup_lt_is_Some_2 _ _ Hst) as [n Hn].
  apply (wp_lift _ n); [by apply rd_Done|]. wp_go. eapply wp_lift; [by apply wr_Done|]. wp_go.
  split; try done. simpl. by rewrite length_insert.
Qed.

(** The total of ticks since the epoch. *)
Definition ticks_total (s : clock) : Z := tv_sec s * HZ + lbolt s.

(** ** Calling what is due

    What a called function asks of the queue, on deadlines. *)
Inductive request := Arm (f a t : Z) | Disarm (f a : Z).
Definition amend1 (D : list entry) (r : request) : list entry :=
  match r with Arm f a t => insert_at (f, a) (Z.max 1 t) D | Disarm f a => remove1 (f, a) D end.
Definition amend (rs : list request) (D : list entry) : list entry := foldl amend1 D rs.
(** The delay is an [int]. *)
Definition fits (r : request) : Prop := match r with Arm _ _ t => t < 2^31 | Disarm _ _ => True end.

Definition calls (xs : list entry) : list event := (λ '(f, a, _), EvCall f a) <$> xs.

Section Agenda.
Context (may : Z → Z → list request → Prop).

(** [serves D log D']: the calls that are due are made one after the other,
    first deadline first, each changing the agenda as it may. *)
Inductive serves : list entry → list event → list entry → Prop :=
| serves_end D : (∀ x, head D = Some x → 0 < x.2) → serves D [] D
| serves_call f a e D rs log D' :
    e ≤ 0 → may f a rs → serves (amend rs D) log D' → serves ((f, a, e) :: D) (EvCall f a :: log) D'.

(** A run of clock interrupts, each at some program counter, in user mode or
    not, at base priority or not: every one brings all deadlines nearer, one
    at base priority serves what is due. *)
Inductive runs : list (Z * bool * bool) → list entry → list event → list entry → Prop :=
| runs_end D : runs [] D [] D
| runs_high pc um l D log D' : runs l (shift 1 D) log D' → runs ((pc, um, false) :: l) D log D'
| runs_base pc um l D log1 D1 log2 D2 :
    serves (shift 1 D) log1 D1 → runs l D1 log2 D2 → runs ((pc, um, true) :: l) D (log1 ++ log2) D2.
End Agenda.

(** In the order of the deadlines. *)
Definition sorted (D : list entry) : Prop :=
  ∀ a, 0 ≤ a → filter (λ x, x.2 ≤ a) D ++ filter (λ x, a < x.2) D = D.

Lemma Forall_amend (P : Z → Prop) rs : ∀ D, (∀ t, 1 ≤ t < 2^31 → P t) → Forall fits rs →
  Forall (λ x, P x.2) D → Forall (λ x, P x.2) (amend rs D).
Proof.
  intros D HP Hf. revert D. induction Hf as [|r rs Hr _ IH]; intros D HD; [done|]. apply IH. destruct r as [f a t|f a]; simpl in *.
  - induction HD as [|[y e] D He HD IHD]; simpl; [constructor; [|done]; cbn; apply HP; lia|].
    destruct (e <? _); constructor; try done. { cbn. apply HP. lia. } by constructor.
  - induction HD as [|[y e] D He HD IHD]; simpl; [done|]. case_decide; [done|by constructor].
Qed.
(** The number of calls that are due. *)
Definition backlog (D : list entry) : nat := length (filter (λ x, x.2 ≤ 0) D).
Lemma backlog_cons y e D : backlog ((y, e) :: D) = ((if decide (e ≤ 0)%Z then 1 else 0) + backlog D)%nat.
Proof. unfold backlog. rewrite filter_cons. cbn [snd]. by case_decide. Qed.
Lemma backlog_amend rs : ∀ D, (backlog (amend rs D) ≤ backlog D)%nat.
Proof.
  induction rs as [|r rs IH]; intros D; [done|]. etrans; [apply IH|]. clear IH. destruct r as [f a t|f a].
  - induction D as [|[y e] D IHD]; cbn [amend1 insert_at] in *; [by rewrite backlog_cons, decide_False by lia|].
    destruct (Z.ltb_spec e (Z.max 1 t)); rewrite !backlog_cons; [lia|]. rewrite decide_False by lia. lia.
  - induction D as [|[y e] D IHD]; cbn [amend1 remove1] in *; [done|]. case_decide; rewrite !backlog_cons; lia.
Qed.

Lemma deadlines_cons y t xs : t ≤ 0 → deadlines ((y, t) :: xs) = (y, t) :: deadlines xs.
Proof. intros Ht. unfold deadlines. cbn [dl]. by rewrite Z.max_l by lia. Qed.
Lemma deadlines_head y t xs : ∃ e D, deadlines ((y, t) :: xs) = (y, e) :: D ∧ (0 < e ↔ 0 < t).
Proof.
  unfold deadlines. cbn [dl]. do 2 eexists. split; [done|]. rewrite Z.add_0_l. destruct (Z.eqb_spec (Z.max 0 t) 0); lia.
Qed.
Lemma backlog_deadlines xs : (backlog (deadlines xs) ≤ length xs)%nat.
Proof.
  unfold backlog. etrans; [apply length_filter|]. unfold deadlines. generalize 0. induction xs as [|[y t] xs IH]; intros z; [done|].
  cbn [dl length]. specialize (IH (z + Z.max 0 t)). lia.
Qed.

(** The deltas are within the bounds of the deadlines. *)
Lemma dl_within xs : ∀ z, 0 ≤ z → wf (0 <? z) xs → Forall (λ x, -2^31 < x.2 < 2^31) (dl z xs) → Forall (λ x, -2^31 < x.2 < 2^31) xs.
Proof.
  induction xs as [|[y t] xs IH]; intros z Hz Hw Hd; [done|]. cbn [dl] in Hd. destruct Hw as [H1 H2].
  apply Forall_cons in Hd as [Hd Hds]. cbn [snd] in Hd. constructor.
  - cbn. destruct (Z.ltb_spec 0 z); [specialize (H1 eq_refl)|]; destruct (Z.eqb_spec (z + Z.max 0 t) 0); lia.
  - apply (IH (z + Z.max 0 t)); [lia| |done]. replace (0 <? z + Z.max 0 t) with ((0 <? z) || (0 <? t)); [done|].
    destruct (Z.ltb_spec 0 z), (Z.ltb_spec 0 t), (Z.ltb_spec 0 (z + Z.max 0 t)); lia || done.
Qed.

(** What a called function may do to the clock: requests of the queue, and
    nothing else.  Its own entry is free again when it is called. *)
Record obeys (call : Z → Z → M unit) (may : Z → Z → list request → Prop) (fuel : nat) : Prop := Obeys {
  ob_fits : ∀ f a rs, may f a rs → Forall fits rs;
  ob_call : ∀ f a s todo xs free,
    queue s todo xs free → wf false xs → free ≠ [] → (length todo + length free < fuel)%nat →
    wp (call f a) (λ _ s', rest_same s s' ∧ ∃ rs todo' xs' free', may f a rs ∧
      queue s' todo' xs' free' ∧ todo' ++ free' ≡ₚ todo ++ free ∧ wf false xs' ∧ deadlines xs' = amend rs (deadlines xs)) s }.

Section Soft.
Context (call : Z → Z → M unit) (may : Z → Z → list request → Prop) (N : nat) (Hcall : obeys call may N).

(** The fields of the clock other than the queue and the log. *)
Definition time_same (s s' : clock) : Prop :=
  acc s' = acc s ∧ cp_time s' = cp_time s ∧
  (lbolt s', tv_sec s', adjdelta s', noproc s') = (lbolt s, tv_sec s, adjdelta s, noproc s).

Lemma perm_length_app {A} (l1 l2 k1 k2 : list A) : l1 ++ l2 ≡ₚ k1 ++ k2 → (length l1 + length l2 = length k1 + length k2)%nat.
Proof. intros H%Permutation_length. by rewrite !length_app in H. Qed.

Lemma wp_softclock_loop fuel : ∀ s todo xs free,
  queue s todo xs free → wf false xs → (length todo + length free < N)%nat → (backlog (deadlines xs) < fuel)%nat →
  wp (softclock_loop call fuel) (λ _ s', time_same s s' ∧ ∃ todo' xs' free' evs, queue s' todo' xs' free' ∧
    todo' ++ free' ≡ₚ todo ++ free ∧ wf false xs' ∧
    serves may (deadlines xs) evs (deadlines xs') ∧ events s' = events s ++ evs) s.
Proof.
  induction fuel as [|fuel IH]; intros s todo xs free Hq Hw HN Hf; [lia|].
  pose proof Hq as [Hl Hv Hfr Hnd]. cbn [softclock_loop]. apply wp_bind, wp_gets. rewrite (lseg_head _ _ _ _ Hl).
  destruct todo as [|j todo], xs as [|[[f a] t] xs]; try (by inversion Hv); cbn [head hd_error].
  { wp_go. split; [done|]. exists [], [], free, []. rewrite app_nil_r. split_and!; try done. by constructor. }
  apply Forall2_cons in Hv as [Hj Hv]. destruct (vals_lookup _ _ _ Hj) as (c & Hc & Hcv).
  pose proof Hcv as [= Ef Ea Et]. pose proof (lookup_lt_Some _ _ _ Hc) as Hlt.
  apply wp_bind, (wp_entry _ c); [done|]. rewrite Et. destruct (Z.ltb_spec 0 t).
  { wp_go. split; [done|]. exists (j :: todo), ((f, a, t) :: xs), free, []. rewrite app_nil_r. split_and!; try done. constructor.
    destruct (deadlines_head (f, a) t xs) as (e & D & -> & He). intros x [= <-]. cbn. lia. }
  wp_go. apply wp_put_entry; [done|]. wp_go. rewrite Ef, Ea. simpl in Hnd.
  apply NoDup_cons in Hnd as [Hjn Hnd]. set (s1 := log _ _).
  assert (Hq1 : queue s1 todo xs (j :: free)).
  { destruct Hl as (_ & c0 & Hc0 & Hl). simplify_eq. split; simpl.
    - apply lseg_insert; [set_solver|done].
    - eapply Forall2_vals_ext; [|done]. intros i Hi. rewrite vals_insert_ne; [done|]. set_solver.
    - split; [done|]. eexists. split; [by apply list_lookup_insert_eq|]. apply lseg_insert; [set_solver|done].
    - assert (E : todo ++ j :: free ≡ₚ j :: todo ++ free) by (by rewrite <- Permutation_middle).
      rewrite E. by constructor. }
  rewrite deadlines_cons in * by lia. rewrite backlog_cons, decide_True in Hf by lia.
  assert (Hw1 : wf false xs) by (destruct Hw as [_ Hw]; simpl in Hw; by replace (0 <? t) with false in Hw by lia).
  eapply wp_mono; [apply (ob_call _ _ _ Hcall f a s1 todo xs (j :: free)); [done|done|done|simpl in *; lia]|].
  intros _ s2 ([Ha2 Hc2 Ht2 He2] & rs & todo2 & xs2 & free2 & Hm & Hq2 & Hp2 & Hw2 & Hd2).
  pose proof (backlog_amend rs (deadlines xs)) as Hb. rewrite <- Hd2 in Hb. pose proof (perm_length_app _ _ _ _ Hp2) as Hl2. simpl in Hl2.
  eapply wp_mono; [apply (IH s2 todo2 xs2 free2 Hq2 Hw2); [simpl in *; lia|lia]|].
  intros _ s3 ((Ha3 & Hc3 & Ht3) & todo' & xs' & free' & evs & Hq3 & Hp3 & Hw3 & Hs3 & He3). split.
  { simpl in *. split_and!; congruence. }
  exists todo', xs', free', (EvCall f a :: evs). split_and!; [done| |done| |].
  - rewrite Hp3, Hp2. by rewrite <- Permutation_middle.
  - econstructor; [lia|done|]. by rewrite <- Hd2.
  - rewrite He3, He2. simpl. by rewrite <- app_assoc.
Qed.

Record clock_ok (s : clock) (todo : list nat) (xs : list entry) (free : list nat) : Prop := ClockOk {
  ok_queue : queue s todo xs free;
  ok_wf : wf false xs;
  ok_cp : length (cp_time s) = 4%nat;
  ok_lbolt : 0 ≤ lbolt s < HZ
}.

Lemma serves_calls D evs D' : serves may D evs D' → Forall (λ e, is_call e = true) evs.
Proof. induction 1; [done|]. by constructor. Qed.

(** The state after the softclock of a tick, if it is taken. *)
Definition served (s : clock) (todo : list nat) (D : list entry) (free : list nat) (s' : clock) : Prop :=
  ∃ todo' xs' free' evs, queue s' todo' xs' free' ∧ todo' ++ free' ≡ₚ todo ++ free ∧ wf false xs' ∧
    serves may D evs (deadlines xs') ∧ called s' = called s ++ evs ∧ length (cp_time s') = length (cp_time s) ∧
    (lbolt s', tv_sec s', adjdelta s') = (lbolt s, tv_sec s, adjdelta s).

Lemma wp_softclock s fuel pc um todo xs free :
  queue s todo xs free → wf false xs → (length todo + length free < N)%nat → (length todo < fuel)%nat →
  wp (softclock call fuel pc um) (λ _ s', served s todo (deadlines xs) free s') s.
Proof.
  intros Hq Hw HN Hf. assert (Hlen : length xs = length todo) by (symmetry; by eapply Forall2_length, q_vals).
  pose proof (backlog_deadlines xs). unfold softclock. apply wp_bind.
  eapply wp_mono; [apply (wp_softclock_loop fuel s todo xs free); [done..|lia]|].
  intros [] s1 ((_ & Hc1 & Ht1) & todo' & xs' & free' & evs & Hq1 & Hp1 & Hw1 & Hs1 & He1).
  assert (Hend : ∀ s2, accounting s1 s2 → served s todo (deadlines xs) free s2).
  { intros s2 Ha. exists todo', xs', free', evs. pose proof Ha as [_ Hcd Htm Hcp].
    split_and!; [by eapply accounting_queue|done|done|done| |congruence|congruence].
    rewrite Hcd. unfold called. rewrite He1, list.filter_app. f_equal. apply filter_every. by eapply serves_calls. }
  destruct um; [|wp_go; apply Hend, accounting_refl]. wp_go.
  apply (wp_mono _ (λ _ s2, accounting s1 s2)).
  - case_match; wp_go; [by apply accounting_log|apply accounting_refl].
  - intros [] s2 H2. case_match; wp_go; [|by apply Hend]. apply Hend.
    eapply accounting_trans; [done|]. eapply accounting_trans; [apply accounting_acc|by apply accounting_log].
Qed.

(** The time of day moves on by a tick and what a pending adjustment adds. *)
Lemma wp_advance_time s (Q : unit → clock → Prop) :
  0 ≤ lbolt s < HZ → -2^31 ≤ tv_sec s < 2^31 - 1 →
  (∀ s', (tab s', calltodo s', callfree s', cp_time s', events s') = (tab s, calltodo s, callfree s, cp_time s, events s) →
     0 ≤ lbolt s' < HZ → tv_sec s ≤ tv_sec s' ≤ tv_sec s + 1 → adjdelta s' = adjdelta s - Z.sgn (adjdelta s) →
     ticks_total s' = ticks_total s + 1 + Z.sgn (adjdelta s) → Q tt s') →
  wp advance_time Q s.
Proof.
  intros Hl Ht HQ. unfold advance_time. wp_go. rewrite s32_id by lia. unfold ticks_total, HZ in *.
  set (lb := if 0 <? adjdelta s then _ else _). set (adj := if 0 <? adjdelta s then _ else _).
  assert (Hlb : lb = lbolt s + Z.sgn (adjdelta s)) by (unfold lb; destruct (Z.ltb_spec 0 (adjdelta s)), (Z.ltb_spec (adjdelta s) 0); lia).
  assert (Hadj : adj = adjdelta s - Z.sgn (adjdelta s)) by (unfold adj; destruct (Z.ltb_spec 0 (adjdelta s)), (Z.ltb_spec (adjdelta s) 0); lia).
  clearbody lb adj. destruct (Z.leb_spec 200 (lb + 1)); apply HQ; simpl; done || lia.
Qed.

Lemma queue_same s s' todo xs free :
  (tab s', calltodo s', callfree s') = (tab s, calltodo s, callfree s) → queue s todo xs free → queue s' todo xs free.
Proof. intros [= E1 E2 E3] [A1 A2 A3 A4]. split; rewrite ?E1, ?E2, ?E3; done. Qed.

(** One interrupt, on the deadlines. *)
Definition turn (bp : bool) (D : list entry) (evs : list event) (D' : list entry) : Prop :=
  if bp then serves may (shift 1 D) evs D' else evs = [] ∧ D' = shift 1 D.

Lemma wp_hardclock s fuel pc um bp todo xs free :
  clock_ok s todo xs free → (length todo + length free < N)%nat → (length todo < fuel)%nat →
  Forall (λ x, -2^31 < x.2 < 2^31) (deadlines xs) → -2^31 ≤ tv_sec s < 2^31 - 1 →
  wp (hardclock call fuel pc um bp) (λ _ s', ∃ todo' xs' free' evs, clock_ok s' todo' xs' free' ∧
    todo' ++ free' ≡ₚ todo ++ free ∧ turn bp (deadlines xs) evs (deadlines xs') ∧ called s' = called s ++ evs ∧
    ticks_total s' = ticks_total s + 1 + Z.sgn (adjdelta s) ∧ adjdelta s' = adjdelta s - Z.sgn (adjdelta s) ∧
    tv_sec s ≤ tv_sec s' ≤ tv_sec s + 1) s.
Proof.
  intros [Hq Hw Hcp Hlb] HN Hf Hb Htv. unfold hardclock. apply wp_bind, wp_gets, wp_bind.
  rewrite (lseg_head _ _ _ _ (q_todo _ _ _ _ Hq)).
  eapply wp_mono; [apply (wp_clock_loop fuel s [] [] todo xs free false); [done..|by apply (dl_within xs 0)]|].
  intros ns s1 (Hrs1 & Hq1 & ->). simpl in Hq1. apply wp_bind.
  apply (wp_mono _ (λ b s2, accounting s1 s2 ∧ (head_due xs = true → b = true))).
  { destruct um; wp_go.
    - eapply wp_mono; [apply wp_itimer_virtual|]. intros [] s2 H2. wp_go. split.
      + eapply accounting_trans; [apply accounting_acc|done].
      + intros ->. done.
    - destruct (negb _); wp_go; (split; [|by intros ->]); [apply accounting_acc|apply accounting_refl]. }
  intros b s2 [Ha2 Hns]. apply wp_bind, wp_gets, wp_bind.
  apply (wp_mono _ (λ _ s3, accounting s1 s3)).
  { destruct (negb _); [|by wp_go]. eapply wp_mono; [apply wp_charge_process|]. intros [] s3 H3. by eapply accounting_trans. }
  intros [] s3 Ha3. apply wp_bind. destruct Hrs1 as [Rs1 Rs2 Rs3 Rs4].
  eapply wp_mono; [apply wp_gatherstats; rewrite (a_cp _ _ Ha3); congruence|].
  intros [] s4 Ha4. pose proof (accounting_trans _ _ _ Ha3 Ha4) as Ha. clear Ha2 Ha3 Ha4.
  pose proof (accounting_queue _ _ _ _ _ Ha Hq1) as Hq4.
  pose proof Ha as [_ Hcd Htm Hcp4]. rewrite Rs3 in Htm. injection Htm as E1 E2 E3 E4.
  assert (Hcd4 : called s4 = called s) by (rewrite Hcd; unfold called; by rewrite Rs4).
  apply wp_bind, wp_advance_time; [lia..|]. intros s5 Hs5 Hlb5 Htv5 Hadj5 Htt5. injection Hs5 as F1 F2 F3 F4 F5.
  assert (Hq5 : queue s5 todo (tick xs) free) by (eapply queue_same; [|done]; congruence).
  assert (Hcd5 : called s5 = called s) by (unfold called in *; by rewrite F5).
  assert (Hcp5 : length (cp_time s5) = 4%nat) by congruence.
  assert (Htt : ticks_total s4 = ticks_total s) by (unfold ticks_total; by rewrite E1, E2).
  rewrite E3, Htt in *. rewrite E2 in Htv5. clear F1 F2 F3 F4 F5 Hq4 Hq1 Ha Hcd Hcp4 Hcd4.
  pose proof (wf_tick _ Hw) as Hw'. pose proof (dl_tick _ Hw) as Hd. fold (deadlines (tick xs)) (deadlines xs) in Hd.
  assert (Hstay : ∀ evs, turn bp (deadlines xs) evs (deadlines (tick xs)) → called s5 = called s ++ evs →
    ∃ todo' xs' free' evs, clock_ok s5 todo' xs' free' ∧ todo' ++ free' ≡ₚ todo ++ free ∧ turn bp (deadlines xs) evs (deadlines xs') ∧
    called s5 = called s ++ evs ∧ ticks_total s5 = ticks_total s + 1 + Z.sgn (adjdelta s) ∧ adjdelta s5 = adjdelta s - Z.sgn (adjdelta s) ∧
    tv_sec s ≤ tv_sec s5 ≤ tv_sec s + 1).
  { intros evs Hturn Hev. exists todo, (tick xs), free, evs. split_and!; done || lia. }
  destruct bp; [|rewrite andb_false_r; wp_go; apply (Hstay []); [by split|by rewrite app_nil_r]]. rewrite andb_true_r. destruct b.
  - eapply wp_mono; [apply (wp_softclock s5 fuel pc um todo (tick xs) free); done|].
    intros [] s6 (todo' & xs' & free' & evs & Hq6 & Hp6 & Hw6 & Hs6 & Hc6 & Hcp6 & Ht6). injection Ht6 as T1 T2 T3.
    exists todo', xs', free', evs. split_and!; [|done| | | | |lia|lia].
    + split; [done|done|congruence|lia].
    + unfold turn. by rewrite <- Hd.
    + congruence.
    + unfold ticks_total in *. congruence.
    + congruence.
  - wp_go. apply (Hstay []); [|by rewrite app_nil_r]. unfold turn. rewrite <- Hd. constructor.
    destruct xs as [|[y t] xs]; [done|]. destruct (head_due ((y, t) :: xs)) eqn:Eh; [by discriminate (Hns eq_refl)|]. cbn [head_due] in Eh.
    cbn [tick]. destruct (deadlines_head y (t - 1) (if 0 <=? t - 1 then xs else tick xs)) as (e & D & -> & He). intros x [= <-]. cbn. lia.
Qed.
End Soft.

(** *** Consequences on the agenda *)
Section AgendaFacts.
Context (may : Z → Z → list request → Prop).

Lemma Forall_serves (P : Z → Prop) D evs D' : (∀ f a rs, may f a rs → Forall fits rs) → (∀ t, 1 ≤ t < 2^31 → P t) →
  serves may D evs D' → Forall (λ x, P x.2) D → Forall (λ x, P x.2) D'.
Proof.
  intros Hm HP. induction 1 as [|f a e D rs evs D' He Hrs _ IH]; [done|]. intros [_ HD]%Forall_cons. apply IH.
  apply Forall_amend; [done|by eapply Hm|done].
Qed.
Lemma Forall_shift (P : Z → Prop) n D : Forall (λ x, P x.2) (shift n D) ↔ Forall (λ x, P (x.2 - n)) D.
Proof. unfold shift. rewrite Forall_fmap. apply Forall_iff. by intros [y e]. Qed.
Lemma turn_bounds bp D evs D' k : (∀ f a rs, may f a rs → Forall fits rs) → k ≤ 0 → turn may bp D evs D' →
  Forall (λ x, k < x.2 - 1 < 2^31) D → Forall (λ x, k < x.2 < 2^31) D'.
Proof.
  intros Hm Hk Ht HD. apply (Forall_shift (λ z, k < z < 2^31)) in HD. destruct bp; [|by destruct Ht as [_ ->]].
  apply (Forall_serves (λ z, k < z < 2^31) (shift 1 D) evs); [done|lia|done|done].
Qed.

(** After an interrupt at base priority nothing is due. *)
Lemma serves_pos D evs D' : serves may D evs D' → ∀ x, head D' = Some x → 0 < x.2.
Proof. by induction 1. Qed.
Lemma runs_base_end l D evs D' : runs may l D evs D' → snd <$> last l = Some true → ∀ x, head D' = Some x → 0 < x.2.
Proof.
  induction 1 as [|pc um l D evs D' Hr IH|pc um l D ev1 D1 ev2 D2 Hs Hr IH]; [done| |].
  - destruct l; [done|]. by rewrite last_cons_cons.
  - destruct l; [|by rewrite last_cons_cons]. intros _. inversion Hr; subst. by eapply serves_pos.
Qed.
Lemma deadlines_pos xs : wf false xs → (∀ x, head (deadlines xs) = Some x → 0 < x.2) → Forall (λ x, 0 < x.2) (deadlines xs).
Proof.
  destruct xs as [|[y t] xs]; [constructor|]. intros [_ Hw] Hh. destruct (deadlines_head y t xs) as (e & D & E & He).
  rewrite E in Hh. specialize (Hh _ eq_refl). cbn in Hh. simpl in Hw. replace (0 <? t) with true in Hw by lia.
  unfold deadlines in *. cbn [dl] in *. constructor; [injection E as -> _; done|]. apply dl_pos; [lia|done].
Qed.

(** When no call touches the queue. *)
Lemma shift_shift a b D : shift a (shift b D) = shift (a + b) D.
Proof. unfold shift. rewrite <- list_fmap_compose. apply list_fmap_ext. intros i [y e] _. cbn. f_equal. lia. Qed.
Lemma calls_shift n D : calls (shift n D) = calls D.
Proof. unfold calls, shift. rewrite <- list_fmap_compose. apply list_fmap_ext. by intros i [[f a] e] _. Qed.
Lemma filter_shift_le k n D : filter (λ x, x.2 ≤ k) (shift n D) = shift n (filter (λ x, x.2 ≤ k + n) D).
Proof.
  induction D as [|[y e] D IH]; [done|]. rewrite shift_cons, !filter_cons. cbn [snd]. destruct (decide (e ≤ k + n)).
  - rewrite decide_True by lia. by rewrite shift_cons, IH.
  - by rewrite decide_False by lia.
Qed.
Lemma filter_shift_lt k n D : filter (λ x, k < x.2) (shift n D) = shift n (filter (λ x, k + n < x.2) D).
Proof.
  induction D as [|[y e] D IH]; [done|]. rewrite shift_cons, !filter_cons. cbn [snd]. destruct (decide (k + n < e)).
  - rewrite decide_True by lia. by rewrite shift_cons, IH.
  - by rewrite decide_False by lia.
Qed.

Context (Hidle : ∀ f a rs, may f a rs → rs = []).

Lemma serves_idle D evs D' : serves may D evs D' → sorted D → evs = calls (filter (λ x, x.2 ≤ 0) D) ∧ D' = filter (λ x, 0 < x.2) D.
Proof.
  induction 1 as [D Hh|f a e D rs evs D' He Hrs _ IH]; intros Hs.
  - specialize (Hs 0 ltac:(lia)). destruct (filter (λ x, x.2 ≤ 0) D) as [|x X] eqn:E; [by simpl in Hs|].
    assert (Hx : x ∈ filter (λ x, x.2 ≤ 0) D) by (rewrite E; apply list_elem_of_here).
    apply list_elem_of_filter in Hx as [Hx _]. rewrite <- Hs in Hh. specialize (Hh x eq_refl). lia.
  - apply Hidle in Hrs as ->. destruct IH as [-> ->].
    { intros z Hz. specialize (Hs z Hz). rewrite !filter_cons in Hs. cbn [snd] in Hs. rewrite decide_True, decide_False in Hs by lia.
      by injection Hs. }
    rewrite !filter_cons. cbn [snd]. by rewrite decide_True, decide_False by lia.
Qed.

(** The last interrupt of a run at base priority. *)
Fixpoint reached (l : list (Z * bool * bool)) : option Z :=
  match l with
  | [] => None
  | (_, _, bp) :: l => match reached l with Some k => Some (k + 1) | None => if bp : bool then Some 1 else None end
  end.
Lemma reached_pos l k : reached l = Some k → 1 ≤ k.
Proof.
  revert k. induction l as [|[[pc um] bp] l IH]; intros k; simpl; [done|]. destruct (reached l) as [j|].
  - intros [= <-]. specialize (IH j eq_refl). lia.
  - destruct bp; [|done]. intros [= <-]. lia.
Qed.
Lemma sorted_shift D : sorted D → sorted (shift 1 D).
Proof.
  intros Hs a Ha. rewrite filter_shift_le, filter_shift_lt. unfold shift. rewrite <- fmap_app. f_equal.
  etrans; [|apply (Hs (a + 1)); lia]. f_equal; apply list_filter_iff; intros [y e]; cbn; lia.
Qed.
Lemma sorted_filter D : sorted D → sorted (filter (λ x, 0 < x.2) D).
Proof.
  intros Hs a Ha. rewrite <- (Hs a Ha) at 3. rewrite !list_filter_filter, list.filter_app, !list_filter_filter.
  f_equal; apply list_filter_iff; intros [y e]; cbn; tauto.
Qed.
Lemma runs_idle l D evs D' : runs may l D evs D' → sorted D →
  match reached l with
  | None => evs = [] ∧ D' = shift (Z.of_nat (length l)) D
  | Some k => evs = calls (filter (λ x, x.2 ≤ k) D) ∧ D' = shift (Z.of_nat (length l)) (filter (λ x, k < x.2) D)
  end.
Proof.
  induction 1 as [D|pc um l D evs D' _ IH|pc um l D ev1 D1 ev2 D2 Hv _ IH]; intros Hs; cbn [reached length].
  - split; [done|]. unfold shift. rewrite <- (list_fmap_id D) at 1. apply list_fmap_ext. intros i [y e] _. cbn. by rewrite Z.sub_0_r.
  - specialize (IH (sorted_shift _ Hs)). rewrite Nat2Z.inj_succ, <- Z.add_1_r.
    destruct (reached l) as [k|] eqn:E; destruct IH as [-> ->]; [|by rewrite shift_shift].
    rewrite filter_shift_le, filter_shift_lt, calls_shift, shift_shift.
    split; do 2 f_equal; apply list_filter_iff; intros [y e]; cbn; lia.
  - destruct (serves_idle _ _ _ Hv (sorted_shift _ Hs)) as [-> ->]. specialize (IH (sorted_filter _ (sorted_shift _ Hs))).
    rewrite Nat2Z.inj_succ, <- Z.add_1_r. rewrite filter_shift_le, filter_shift_lt, calls_shift in *.
    destruct (reached l) as [k|] eqn:E; destruct IH as [-> ->].
    + pose proof (reached_pos _ _ E) as Hk.
      rewrite filter_shift_le, filter_shift_lt, calls_shift, shift_shift, !list_filter_filter. split.
      * rewrite <- (Hs 1 ltac:(lia)) at 3. rewrite list.filter_app, !list_filter_filter. unfold calls. rewrite <- fmap_app. do 2 f_equal;
          apply list_filter_iff; intros [y e]; cbn; lia.
      * do 2 f_equal. apply list_filter_iff. intros [y e]; cbn; lia.
    + rewrite app_nil_r, shift_shift. split; do 2 f_equal; apply list_filter_iff; intros [y e]; cbn; lia.
Qed.
End AgendaFacts.

(** ** Theorems *)

(** timeout enters the call with its delay as deadline (at least one tick),
    in front of the calls with the same or a later deadline, and moves no
    other deadline; it panics exactly when no callout is free. *)
Theorem timeout_correct (s : clock) (todo : list nat) (xs : list entry) (free : list nat)
    (fuel : nat) (f a t : Z) :
  queue s todo xs free → wf false xs → (length todo < fuel)%nat →
  match free with
  | [] => timeout fuel f a t s = Panic "timeout table overflow"
  | n :: free' =>
      wp (timeout fuel f a t) (λ _ s', rest_same s s' ∧ ∃ todo' xs',
        queue s' todo' xs' free' ∧ todo' ≡ₚ n :: todo ∧ wf false xs' ∧
        deadlines xs' = insert_at (f, a) (Z.max 1 t) (deadlines xs)) s
  end.
Proof.
  intros Hq Hw Hf. destruct free as [|n free].
  - destruct Hq as [_ _ Hfr _]. unfold timeout. simpl. unfold mbind, K_bind, gets. simpl in Hfr. by rewrite Hfr.
  - eapply wp_mono; [by apply wp_timeout|]. intros _ s' (Hrs & todo' & Hq' & Hp). split; [done|].
    exists todo', (ins (f, a) (Z.max 1 t) xs). split_and!; [done|done|apply wf_ins; [lia|done]|].
    unfold deadlines. by rewrite dl_ins by (done || lia).
Qed.

(** untimeout removes the first entry with that function and argument and
    moves no other deadline; when there is none it changes nothing. *)
Theorem untimeout_correct (s : clock) (todo : list nat) (xs : list entry) (free : list nat)
    (fuel : nat) (f a : Z) :
  queue s todo xs free → wf false xs → (length todo < fuel)%nat →
  wp (untimeout fuel f a) (λ _ s', rest_same s s' ∧ ∃ todo' xs' free',
    queue s' todo' xs' free' ∧ todo' ++ free' ≡ₚ todo ++ free ∧ wf false xs' ∧
    deadlines xs' = remove1 (f, a) (deadlines xs)) s.
Proof.
  intros Hq Hw Hf. eapply wp_mono; [apply (wp_untimeout_seek f a fuel s [] [] todo xs free None); done|].
  intros _ s' (Hrs & todo' & free' & Hq' & Hp). split; [done|].
  exists todo', (rm (f, a) xs), free'. split_and!; [done|done|by apply wf_rm|]. by apply dl_rm.
Qed.

(** A run of clock interrupts: program counter, user mode, base priority. *)
Fixpoint interrupts (call : Z → Z → M unit) (fuel : nat) (l : list (Z * bool * bool)) : M unit :=
  match l with
  | [] => mret tt
  | (pc, um, bp) :: l => hardclock call fuel pc um bp;; interrupts call fuel l
  end.

(** What [n] ticks work off of the adjustment [adj]. *)
Definition corrected (n adj : Z) : Z := Z.max (- n) (Z.min n adj).

Lemma wp_interrupts call may fuel (Hcall : obeys call may fuel) l : ∀ s todo xs free,
  clock_ok s todo xs free → (length todo + length free < fuel)%nat →
  Forall (λ x, Z.of_nat (length l) - 2^31 < x.2 < 2^31) (deadlines xs) →
  0 ≤ tv_sec s → tv_sec s + Z.of_nat (length l) < 2^31 →
  wp (interrupts call fuel l) (λ _ s', ∃ todo' xs' free' evs, clock_ok s' todo' xs' free' ∧
    todo' ++ free' ≡ₚ todo ++ free ∧ runs may l (deadlines xs) evs (deadlines xs') ∧ called s' = called s ++ evs ∧
    ticks_total s' = ticks_total s + Z.of_nat (length l) + corrected (Z.of_nat (length l)) (adjdelta s) ∧
    adjdelta s' = adjdelta s - corrected (Z.of_nat (length l)) (adjdelta s)) s.
Proof.
  unfold corrected. induction l as [|[[pc um] bp] l IH]; intros s todo xs free Hok Hf Hb Hlo Hhi.
  { wp_go. exists todo, xs, free, []. rewrite app_nil_r. simpl. split_and!; try done; try lia. constructor. }
  cbn [interrupts]. apply wp_bind. cbn [length] in *. rewrite Nat2Z.inj_succ in *.
  eapply wp_mono; [apply (wp_hardclock call may fuel Hcall s fuel pc um bp todo xs free); [done|lia|lia| |lia]|].
  { eapply Forall_impl; [done|]. cbn. intros. lia. }
  intros [] s1 (todo1 & xs1 & free1 & ev1 & Hok1 & Hp1 & Ht1 & Hc1 & Htt1 & Hadj1 & Htv1).
  pose proof (perm_length_app _ _ _ _ Hp1) as Hlen.
  eapply wp_mono; [apply (IH s1 todo1 xs1 free1 Hok1); [lia| |lia|lia]|].
  { eapply turn_bounds; [by intros; eapply ob_fits| |done|]; [lia|]. eapply Forall_impl; [done|]. cbn. intros. lia. }
  intros [] s2 (todo2 & xs2 & free2 & ev2 & Hok2 & Hp2 & Hr2 & Hc2 & Htt2 & Hadj2).
  exists todo2, xs2, free2, (ev1 ++ ev2). split_and!; [done|by rewrite Hp2| | |lia|lia].
  - destruct bp; [by econstructor|]. destruct Ht1 as [-> Ht1]. constructor. by rewrite <- Ht1.
  - rewrite Hc2, Hc1. by rewrite app_assoc.
Qed.

(** C23. Over any run of clock interrupts, at base priority or not, with or
    without an adjustment of the time pending, the calls made are those of the
    agenda of deadlines: every interrupt brings each deadline one tick nearer,
    and an interrupt at base priority makes the calls that are due, first
    deadline first, each of which may arm and disarm calls in its turn (as
    [schedcpu] arms itself) and is not made again in the same interrupt; an
    interrupt at base priority leaves nothing due.  When the called functions
    leave the queue alone, the calls made up to the last interrupt at base
    priority, the [k]-th, are exactly those with a deadline of at most [k], in
    the order of their deadlines, and the others keep theirs.  The time of day
    advances by one tick per interrupt and by what the interrupts work off of
    the adjustment.  What a callout calls touches the clock only through
    timeout and untimeout and never overflows the table ([obeys]); delays and
    times fit a 32-bit word throughout the run. *)
Theorem interrupts_correct (call : Z → Z → M unit) (may : Z → Z → list request → Prop) (fuel : nat) (l : list (Z * bool * bool)) :
  obeys call may fuel → ∀ s todo xs free,
  clock_ok s todo xs free → (length todo + length free < fuel)%nat →
  Forall (λ x, Z.of_nat (length l) - 2^31 < x.2 < 2^31) (deadlines xs) →
  0 ≤ tv_sec s → tv_sec s + Z.of_nat (length l) < 2^31 →
  wp (interrupts call fuel l) (λ _ s', ∃ todo' xs' free' evs, clock_ok s' todo' xs' free' ∧
    todo' ++ free' ≡ₚ todo ++ free ∧
    runs may l (deadlines xs) evs (deadlines xs') ∧ called s' = called s ++ evs ∧
    (snd <$> last l = Some true → Forall (λ x, 0 < x.2) (deadlines xs')) ∧
    ((∀ f a rs, may f a rs → rs = []) →
      match reached l with
      | None => evs = [] ∧ deadlines xs' = shift (Z.of_nat (length l)) (deadlines xs)
      | Some k => evs = calls (filter (λ x, x.2 ≤ k) (deadlines xs)) ∧
          deadlines xs' = shift (Z.of_nat (length l)) (filter (λ x, k < x.2) (deadlines xs))
      end) ∧
    ticks_total s' = ticks_total s + Z.of_nat (length l) + corrected (Z.of_nat (length l)) (adjdelta s) ∧
    adjdelta s' = adjdelta s - corrected (Z.of_nat (length l)) (adjdelta s)) s.
Proof.
  intros Hcall s todo xs free Hok Hf Hb Hlo Hhi. eapply wp_mono; [by eapply wp_interrupts|].
  intros [] s' (todo' & xs' & free' & evs & Hok' & Hp & Hr & Hc & Ht & Ha). exists todo', xs', free', evs. split_and!; try done.
  - intros Hl. apply deadlines_pos; [apply Hok'|]. by eapply runs_base_end.
  - intros Hm. eapply runs_idle; [done|done|]. intros a Ha0. apply dl_ordered; [lia|done|apply Hok].
Qed.

(** hzto is exact for any time from about 24 days in the past to 24 days
    ahead: the milliseconds to go, in ticks of 5 ms; for times further ahead
    it is the number of whole seconds in ticks, up to the largest int. *)
Lemma hzto_correct (sec usec now_sec now_usec : Z) :
  0 ≤ usec < 1000000 → 0 ≤ now_usec < 1000000 → - 2146483 ≤ sec - now_sec < 2^31 →
  hzto sec usec now_sec now_usec =
    (if sec - now_sec <=? 2146483
     then Z.quot ((sec - now_sec) * 1000 + Z.quot (usec - now_usec) 1000) 5
     else Z.min ((sec - now_sec) * 200) (2^31 - 1)).
Proof.
  intros Hu Hn Hd. unfold hzto, HZ. rewrite (s32_id (sec - now_sec)) by lia.
  change (Z.quot 0x7fffffff 1000 - 1000) with 2146483. change (Z.quot 1000 200) with 5. change (Z.quot 0x7fffffff 200) with 10737418.
  assert (Hqb : - 1000 ≤ Z.quot (usec - now_usec) 1000 ≤ 1000) by (Z.to_euclidean_division_equations; lia).
  destruct (Z.leb_spec (sec - now_sec) 2146483).
  - rewrite (s32_id (usec - now_usec)), (s32_id ((sec - now_sec) * 1000)), s32_id by lia. done.
  - destruct (Z.leb_spec (sec - now_sec) 10737418).
    + rewrite s32_id by lia. lia.
    + change 0x7fffffff with (2^31 - 1). lia.
Qed.

(** At boot coutinit links every entry of the callout table, in order,
    into the free list. *)
Lemma coutinit_correct (s : clock) (c : callout) :
  length (tab s) = NCALL → calltodo s = None → last (tab s) = Some c → c_next c = None →
  wp coutinit (λ _ s', queue s' [] [] (seq 0 NCALL) ∧ rest_same s s') s.
Proof.
  intros Hlen Htodo Hlast Hnx. unfold coutinit. wp_go. split; [|by split]. set (s' := set_callfree _ _).
  assert (Hl : ∀ n k, (k + n = 17)%nat → lseg c_next (tab s') (Some k) (seq k (S n)) None).
  { induction n as [|n IH]; intros k Hk; cbn [seq]; (split; [done|]).
    - exists c. split; [|done]. simpl. rewrite list_lookup_imap. rewrite last_lookup, Hlen in Hlast.
      simpl in Hlast. replace k with 17%nat by lia. by rewrite Hlast.
    - destruct (lookup_lt_is_Some_2 (tab s) k) as [d Hd]; [rewrite Hlen; unfold NCALL; lia|].
      exists (with_next (Some (S k)) d). split; [|apply IH; lia]. simpl. rewrite list_lookup_imap, Hd. simpl.
      replace (S k <? NCALL)%nat with true by (symmetry; apply Nat.ltb_lt; unfold NCALL; lia). done. }
  split; [done|constructor|by apply (Hl 17%nat 0%nat)|]. apply NoDup_seq.
Qed.

(** ** Runs *)
Definition acct0 : acct := Acct 0 0 0 0 0 0 1000000 1000000 0 0 0 1.
Definition boot : clock :=
  Clock (replicate NCALL (Callout 0 0 0 None)) None None acct0 [0; 0; 0; 0] 0 0 0 false [].
(** Every callout arms itself again for two ticks later, as [schedcpu] does
    for a second. *)
Definition again (f a : Z) : M unit := timeout 3 f a 2.
Definition rearm (f a : Z) (rs : list request) : Prop := rs = [Arm f a 2].
Lemma again_obeys : obeys again rearm 3.
Proof.
  split; [intros f a rs ->; by repeat constructor|]. intros f a s todo xs [|n free] Hq Hw Hfr Hf; [done|].
  eapply wp_mono; [apply (wp_timeout s todo xs n free 3 f a 2 Hq); simpl in Hf; lia|].
  intros _ s' (Hrs & todo' & Hq' & Hp). split; [done|]. exists [Arm f a 2], todo', (ins (f, a) (Z.max 1 2) xs), free.
  split_and!; [done|done|rewrite Hp; by rewrite <- Permutation_middle|by apply wf_ins|].
  unfold deadlines. by rewrite dl_ins by (done || lia).
Qed.

Lemma coutinit_correct_witness : wp coutinit (λ _ s', queue s' [] [] (seq 0 NCALL) ∧ rest_same boot s') boot.
Proof. apply (coutinit_correct boot (Callout 0 0 0 None)); reflexivity. Defined.

(** One callout, to be made in three ticks. *)
Definition demo_clock : clock :=
  Clock [Callout 3 7 9 None; Callout 0 0 0 None] (Some 0%nat) (Some 1%nat) acct0 [0; 0; 0; 0] 0 0 0 false [].

Lemma demo_queue : queue demo_clock [0%nat] [(9, 7, 3)] [1%nat].
Proof.
  split; simpl; [by eauto|by repeat constructor|by eauto|]. refine (bool_decide_unpack _ _). vm_compute. exact I.
Qed.

Lemma timeout_correct_witness :
  wp (timeout 2 5 6 1) (λ _ s', ∃ todo' xs', queue s' todo' xs' [] ∧ deadlines xs' = [(5, 6, 1); (9, 7, 3)]) demo_clock.
Proof.
  eapply wp_mono; [apply (timeout_correct demo_clock [0%nat] [(9, 7, 3)] [1%nat] 2 5 6 1 demo_queue); [by split|simpl; lia]|].
  intros _ s' (_ & todo' & xs' & Hq & _ & _ & Hd). exists todo', xs'. by split.
Defined.

Lemma untimeout_correct_witness :
  wp (untimeout 2 9 7) (λ _ s', ∃ todo' xs' free', queue s' todo' xs' free' ∧ deadlines xs' = []) demo_clock.
Proof.
  eapply wp_mono; [apply (untimeout_correct demo_clock [0%nat] [(9, 7, 3)] [1%nat] 2 9 7 demo_queue); [by split|simpl; lia]|].
  intros _ s' (_ & todo' & xs' & free' & Hq & _ & _ & Hd). exists todo', xs', free'. by split.
Defined.

(** Six ticks, two of them at high priority, with the time to be put back by
    two ticks. *)
Definition demo_run : list (Z * bool * bool) :=
  [(0, true, true); (0, false, false); (0, true, false); (0, true, true); (0, true, true); (0, true, true)].
Definition demo_slow : clock := set_time 0 0 (-2) demo_clock.
Lemma demo_slow_ok : clock_ok demo_slow [0%nat] [(9, 7, 3)] [1%nat].
Proof. split; [apply (queue_same demo_clock); [done|apply demo_queue]|by split|done|done]. Qed.

Lemma demo_called :
  match interrupts again 3 demo_run demo_slow with Done (_, s') => called s' = [EvCall 9 7; EvCall 9 7] | _ => False end.
Proof. vm_compute. reflexivity. Qed.

Lemma interrupts_correct_witness : ∃ s' todo' xs' free',
  interrupts again 3 demo_run demo_slow = Done (tt, s') ∧ clock_ok s' todo' xs' free' ∧ Forall (λ x, 0 < x.2) (deadlines xs') ∧
  called s' = [EvCall 9 7; EvCall 9 7] ∧ ticks_total s' = 4 ∧ adjdelta s' = 0.
Proof.
  assert (H1 : Forall (λ x, Z.of_nat (length demo_run) - 2^31 < x.2 < 2^31) (deadlines [(9, 7, 3)])).
  { repeat constructor; vm_compute; reflexivity. }
  assert (H := interrupts_correct again rearm 3 demo_run again_obeys demo_slow [0%nat] [(9, 7, 3)] [1%nat]
    demo_slow_ok ltac:(simpl; lia) H1 ltac:(vm_compute; congruence) ltac:(vm_compute; reflexivity)).
  destruct (proj1 (wp_run (interrupts again 3 demo_run) _ demo_slow) H)
    as ([] & s' & E & todo' & xs' & free' & evs & Hok & _ & _ & _ & Hpos & _ & Ht & Ha).
  assert (Hc := demo_called). rewrite E in Hc.
  exists s', todo', xs', free'. split_and!; [exact E|exact Hok|apply Hpos; reflexivity|exact Hc|rewrite Ht|rewrite Ha]; vm_compute; reflexivity.
Defined.

Lemma hzto_correct_witness : hzto 12 500000 10 0 = 500.
Proof. rewrite (hzto_correct 12 500000 10 0); [reflexivity|lia|lia|lia]. Defined.
