(* ===== verification/Proc.v ===== *)
(** * The process table and the user area

    [struct proc], the part of [struct user] that identification, signals,
    scheduling and resource limits use, the lists that thread the process
    table (include/proc.h, include/user.h), the memory of the current user
    program as [copyin] and [copyout] see it (pic32/machdep.c), and the
    lookups of kernel/kern_proc.c.  The files on protection, scheduling,
    signals and process creation work on this state. *)
From stdpp Require Import base tactics list option strings numbers gmap.
From S2P Require Import Prelude.
Open Scope Z_scope.

(** ** Data *)
Definition NPROC : nat := 10.
Definition PIDHSZ : Z := 16.
Definition SQSIZE : nat := 16.
Definition NGROUPS : nat := 16.
Definition NOGROUP : Z := 65535.

Definition EPERM : Z := 1.
Definition ESRCH : Z := 3.
Definition EINTR : Z := 4.
Definition ECHILD : Z := 10.
Definition EAGAIN : Z := 11.
Definition ENOMEM : Z := 12.
Definition EACCES : Z := 13.
Definition EFAULT : Z := 14.
Definition EINVAL : Z := 22.
Definition EROFS : Z := 30.

(** Values of [p_stat]; a slot on the free list has 0. *)
Definition SSLEEP : Z := 1.
Definition SWAIT : Z := 2.
Definition SRUN : Z := 3.
Definition SIDL : Z := 4.
Definition SZOMB : Z := 5.
Definition SSTOP : Z := 6.

(** Bits of [p_flag]. *)
Definition SLOAD : Z := 0x0001.
Definition SSYS : Z := 0x0002.
Definition SLOCK : Z := 0x0004.
Definition SSWAP : Z := 0x0008.
Definition P_TRACED : Z := 0x0010.
Definition P_WAITED : Z := 0x0020.
Definition P_SINTR : Z := 0x0080.
Definition SVFORK : Z := 0x0100.
Definition SVFPRNT : Z := 0x0200.
Definition SVFDONE : Z := 0x0400.
Definition P_TIMEOUT : Z := 0x1000.
Definition P_NOCLDSTOP : Z := 0x2000.

Record k_itimerval := Itimer { it_interval : Z; it_value : Z }.

Record k_rusage := Rusage {
  ru_utime : Z; ru_stime : Z; ru_nswap : Z; ru_inblock : Z; ru_oublock : Z;
  ru_msgsnd : Z; ru_msgrcv : Z; ru_nsignals : Z; ru_nvcsw : Z; ru_nivcsw : Z }.

(** [p_prev] is the address of the pointer that points at the entry: the head
    of a list or the [p_nxt] of another entry. *)
Inductive pref := AllProc | ZombProc | NxtOf (i : nat).

(** [struct proc].  The members from [p_pri] to [p_realtimer] share their
    memory with [p_xstat] and [p_ru], the exit record of a zombie. *)
Record proc := Proc {
  p_nxt : option nat;
  p_prev : option pref;
  p_pptr : option nat;
  p_flag : Z;
  p_uid : Z;
  p_pid : Z;
  p_ppid : Z;
  p_sig : Z;
  p_stat : Z;
  p_pri : Z;
  p_cpu : Z;
  p_time : Z;
  p_nice : Z;
  p_slptime : Z;
  p_ptracesig : Z;
  p_hash : option nat;
  p_sigmask : Z;
  p_sigignore : Z;
  p_sigcatch : Z;
  p_pgrp : Z;
  p_link : option nat;
  p_addr : Z;
  p_daddr : Z;
  p_saddr : Z;
  p_dsize : Z;
  p_ssize : Z;
  p_wchan : Z;
  p_realtimer : k_itimerval;
  p_xstat : Z;
  p_ru : k_rusage }.

#[global] Instance eta_proc : Eta proc := λ p,
  Proc (p_nxt p) (p_prev p) (p_pptr p) (p_flag p) (p_uid p) (p_pid p) (p_ppid p) (p_sig p) (p_stat p)
    (p_pri p) (p_cpu p) (p_time p) (p_nice p) (p_slptime p) (p_ptracesig p) (p_hash p)
    (p_sigmask p) (p_sigignore p) (p_sigcatch p) (p_pgrp p) (p_link p) (p_addr p) (p_daddr p)
    (p_saddr p) (p_dsize p) (p_ssize p) (p_wchan p) (p_realtimer p) (p_xstat p) (p_ru p).

Record sigaltstack := SigStk { ss_base : Z; ss_size : Z; ss_flags : Z }.
Record rlimit := Rlimit { rlim_cur : Z; rlim_max : Z }.

#[global] Instance eta_sigaltstack : Eta sigaltstack := λ k, SigStk (ss_base k) (ss_size k) (ss_flags k).
#[global] Instance eta_k_rusage : Eta k_rusage := λ r,
  Rusage (ru_utime r) (ru_stime r) (ru_nswap r) (ru_inblock r) (ru_oublock r) (ru_msgsnd r)
    (ru_msgrcv r) (ru_nsignals r) (ru_nvcsw r) (ru_nivcsw r).
#[global] Instance eta_k_itimerval : Eta k_itimerval := λ t, Itimer (it_interval t) (it_value t).

(** [struct user]: the members that the modelled routines use. *)
Record user := User {
  u_procp : nat;
  u_rval : Z;
  u_error : Z;
  u_uid : Z;
  u_svuid : Z;
  u_ruid : Z;
  u_svgid : Z;
  u_rgid : Z;
  u_groups : list Z;
  u_signal : list Z;
  u_sigmask : list Z;
  u_sigonstack : Z;
  u_sigintr : Z;
  u_oldmask : Z;
  u_psflags : Z;
  u_sigstk : sigaltstack;
  u_sigtramp : Z;
  u_ru : k_rusage;
  u_cru : k_rusage;
  u_rlimit : list rlimit;
  u_frame : list Z;
  u_code : Z;
  u_dsize : Z;
  u_ssize : Z;
  u_start : Z }.

#[global] Instance eta_user : Eta user := λ v,
  User (u_procp v) (u_rval v) (u_error v) (u_uid v) (u_svuid v) (u_ruid v) (u_svgid v) (u_rgid v)
    (u_groups v) (u_signal v) (u_sigmask v) (u_sigonstack v) (u_sigintr v) (u_oldmask v) (u_psflags v)
    (u_sigstk v) (u_sigtramp v) (u_ru v) (u_cru v) (u_rlimit v)
    (u_frame v) (u_code v) (u_dsize v) (u_ssize v) (u_start v).

(** The kernel's data on processes.  [u] is the user area of the current
    process; [u_saved] holds those of the others, in core or on the swap
    device ([None]: the device cannot be read).  [umem] is the memory of the
    current program, by word address. *)
Record kern := Kern {
  procs : list proc;
  allproc : option nat;
  zombproc : option nat;
  freeproc : option nat;
  pidhash : list (option nat);
  slpque : list (option nat);
  qs : option nat;
  runrun : Z;
  curpri : Z;
  noproc : Z;
  runin : Z;
  runout : Z;
  mpid : Z;
  pidchecked : Z;
  u : user;
  u_saved : list (option user);
  umem : gmap Z Z;
  time_sec : Z }.

#[global] Instance eta_kern : Eta kern := λ s,
  Kern (procs s) (allproc s) (zombproc s) (freeproc s) (pidhash s) (slpque s) (qs s) (runrun s)
    (curpri s) (noproc s) (runin s) (runout s) (mpid s) (pidchecked s) (u s) (u_saved s) (umem s)
    (time_sec s).

(** The addresses the linker gives to the objects that serve as sleep
    channels. *)
Class Layout := {
  proc_addr : nat → Z;
  lbolt_addr : Z;
  runin_addr : Z;
  runout_addr : Z;
  u_addr : Z;
  u_signal_addr : Z }.

Notation M := (K kern).

Definition at_ (i : nat) : M proc := s ← gets procs; lift (rd s i).
Definition put (i : nat) (p : proc) : M unit :=
  l ← gets procs; l ← lift (wr l i p); modify (λ s, s<|procs := l|>).
(** [p->f = ...] *)
Definition setp (i : nat) (f : proc → proc) : M unit := p ← at_ i; put i (f p).
Definition setu (f : user → user) : M unit := modify (λ s, s<|u ::= f|>).
Definition set_error (e : Z) : M unit := setu (λ v, v<|u_error := e|>).
Definition set_rval (x : Z) : M unit := setu (λ v, v<|u_rval := x|>).
Definition curproc : M nat := gets (λ s, u_procp (u s)).

(** ** User memory *)
Definition USER_FLASH_START : Z := 0x9d000000 + 192 * 1024.
Definition USER_FLASH_END : Z := 0x9d000000 + 512 * 1024.
Definition USER_DATA_START : Z := 0x7f000000 + 32 * 1024.
Definition USER_DATA_END : Z := 0x7f000000 + 128 * 1024.

Definition baduaddr (addr : Z) : bool :=
  if (USER_FLASH_START <=? addr) && (addr <? USER_FLASH_END) then false
  else if (USER_DATA_START <=? addr) && (addr <? USER_DATA_END) then false
  else true.

Definition load_words (m : gmap Z Z) (a : Z) (n : nat) : list Z :=
  map (λ k, default 0 (m !! (a + 4 * Z.of_nat k))) (seq 0 n).
Fixpoint store_words (m : gmap Z Z) (a : Z) (ws : list Z) : gmap Z Z :=
  match ws with
  | [] => m
  | w :: ws => store_words (<[a := w]> m) (a + 4) ws
  end.

(** [copyin] of [n] words; an error leaves the destination alone. *)
Definition copyin (from : Z) (n : nat) : M (Z + list Z) :=
  if baduaddr from || baduaddr (u32 (from + 4 * Z.of_nat n - 1)) then mret (inl EFAULT)
  else m ← gets umem; mret (inr (load_words m from n)).
Definition copyout (ws : list Z) (to : Z) : M Z :=
  if baduaddr to || baduaddr (u32 (to + 4 * Z.of_nat (length ws) - 1)) then mret EFAULT
  else modify (λ s, s<|umem ::= λ m, store_words m to ws|>);; mret 0.

(** ** Walking a list of processes

    [for (p = head; p; p = p->p_nxt) body]; [a] is what the body computes. *)
Fixpoint walk {A} (fuel : nat) (p : option nat) (a : A) (body : A → nat → M A) : M A :=
  match p with
  | None => mret a
  | Some i =>
      match fuel with
      | O => lift Spin
      | S fuel => a ← body a i; q ← at_ i; walk fuel (p_nxt q) a body
      end
  end.
Definition for_procs {A} (head : kern → option nat) (a : A) (body : A → nat → M A) : M A :=
  n ← gets (λ s, length (procs s)); p ← gets head; walk n p a body.

(** ** kern_proc.c *)
Fixpoint inferior_loop (fuel : nat) (p : option nat) : M bool :=
  match fuel with
  | O => lift Spin
  | S fuel =>
      c ← curproc;
      match p with
      | None => lift Wild
      | Some i =>
          if (i =? c)%nat then mret true
          else q ← at_ i; if p_ppid q =? 0 then mret false else inferior_loop fuel (p_pptr q)
      end
  end.
Definition inferior (p : nat) : M bool :=
  n ← gets (λ s, length (procs s)); inferior_loop n (Some p).

Definition PIDHASH (pid : Z) : Z := Z.land pid (PIDHSZ - 1).

Fixpoint pfind_loop (fuel : nat) (p : option nat) (pid : Z) : M (option nat) :=
  match p with
  | None => mret None
  | Some i =>
      match fuel with
      | O => lift Spin
      | S fuel => q ← at_ i; if p_pid q =? pid then mret (Some i) else pfind_loop fuel (p_hash q) pid
      end
  end.
Definition pfind (pid : Z) : M (option nat) :=
  h ← gets pidhash; p ← lift (rdz h (PIDHASH pid));
  n ← gets (λ s, length (procs s)); pfind_loop n p pid.

(** [for (p = proc+NPROC; --p > proc; freeproc = p) p->p_nxt = freeproc;] *)
Fixpoint pqinit_loop (p : nat) : M unit :=
  match p with
  | O | S O => mret tt
  | S i =>
      f ← gets freeproc;
      setp i (λ q, q<|p_nxt := f|>);;
      modify (λ s, s<|freeproc := Some i|>);;
      pqinit_loop i
  end.
Definition pqinit : M unit :=
  modify (λ s, s<|freeproc := None|>);;
  pqinit_loop NPROC;;
  modify (λ s, s<|allproc := Some 0%nat|>);;
  setp 0 (λ q, q<|p_nxt := None|>);;
  setp 0 (λ q, q<|p_prev := Some AllProc|>);;
  modify (λ s, s<|zombproc := None|>).

(** ** Access lemmas *)
Section Access.
Implicit Types (s : kern) (i : nat) (p : proc).

Lemma wp_at i p Q s : procs s !! i = Some p → Q p s → wp (at_ i) Q s.
Proof. intros Hi HQ. unfold at_. wp_go. eapply wp_lift; [by apply rd_Done|done]. Qed.
Lemma wp_put i p p0 Q s :
  procs s !! i = Some p0 → Q tt (s<|procs := <[i := p]> (procs s)|>) → wp (put i p) Q s.
Proof.
  intros Hi HQ. unfold put. wp_go. eapply wp_lift; [apply wr_Done; by eapply lookup_lt_Some|]. by wp_go.
Qed.
Lemma wp_setp i f p Q s :
  procs s !! i = Some p → Q tt (s<|procs := <[i := f p]> (procs s)|>) → wp (setp i f) Q s.
Proof. intros Hi HQ. unfold setp. wp_go. eapply wp_at; [done|]. by eapply wp_put. Qed.

(** The links of the lists [allproc], [zombproc] and [freeproc]. *)
Definition nxts s : list (option nat) := p_nxt <$> procs s.

Lemma nxts_put s i p p0 :
  procs s !! i = Some p0 → p_nxt p = p_nxt p0 → nxts (s<|procs := <[i := p]> (procs s)|>) = nxts s.
Proof.
  intros Hi Hn. unfold nxts. fields. rewrite list_fmap_insert, Hn. apply list_insert_id.
  by rewrite list_lookup_fmap, Hi.
Qed.
Lemma nxts_lseg s s' h l q : nxts s' = nxts s → lseg p_nxt (procs s) h l q → lseg p_nxt (procs s') h l q.
Proof. intros E. apply lseg_links. intros i _. unfold nxts in E. by rewrite <- !list_lookup_fmap, E. Qed.
Lemma nxts_length s s' : nxts s' = nxts s → length (procs s') = length (procs s).
Proof. intros E. unfold nxts in E. apply (f_equal length) in E. by rewrite !length_fmap in E. Qed.

(** The rule for the loops over a list of processes: [I done a] holds after
    the entries [done]. *)
Lemma wp_walk {A} (I : list nat → A → kern → Prop) (body : A → nat → M A) rest : ∀ s fuel (p : option nat) l a done,
  l = done ++ rest → lseg p_nxt (procs s) p rest None → (length rest ≤ fuel)%nat → I done a s →
  (∀ done i rest a s', l = done ++ i :: rest → nxts s' = nxts s → I done a s' →
     wp (body a i) (λ a' s'', nxts s'' = nxts s' ∧ I (done ++ [i]) a' s'') s') →
  wp (walk fuel p a body) (λ a' s', nxts s' = nxts s ∧ I l a' s') s.
Proof.
  induction rest as [|i rest IH]; intros s fuel p l a done Hl Hp Hf HI Hb.
  - simpl in Hp. subst. rewrite app_nil_r. by destruct fuel.
  - destruct Hp as (-> & x & Hx & Hp). destruct fuel as [|fuel]; simpl in Hf; [lia|]. cbn [walk].
    wp_go. eapply wp_mono; [by eapply Hb|]. intros a' s' [Hn HI'].
    apply wp_bind.
    pose proof (f_equal (.!! i) Hn) as Hi. unfold nxts in Hi. rewrite !list_lookup_fmap, Hx in Hi.
    destruct (procs s' !! i) as [x'|] eqn:Hx'; simplify_eq/=. eapply wp_at; [done|].
    eapply wp_mono.
    + eapply (IH s' fuel _ (done ++ i :: rest) a' (done ++ [i])); [by rewrite <- app_assoc| |lia|done|].
      * rewrite Hi. by eapply nxts_lseg.
      * intros d j r a0 s0 Hd Hn0. eapply Hb; [exact Hd|by rewrite Hn0].
    + simpl. intros a0 s0 [? ?]. split; [by rewrite <- Hn|done].
Qed.

Lemma wp_for_procs {A} (head : kern → option nat) (I : list nat → A → kern → Prop) (body : A → nat → M A) s l a :
  lseg p_nxt (procs s) (head s) l None → NoDup l → I [] a s →
  (∀ done i rest a s', l = done ++ i :: rest → nxts s' = nxts s → I done a s' →
     wp (body a i) (λ a' s'', nxts s'' = nxts s' ∧ I (done ++ [i]) a' s'') s') →
  wp (for_procs head a body) (λ a' s', nxts s' = nxts s ∧ I l a' s') s.
Proof.
  intros Hl Hnd HI Hb. unfold for_procs. wp_go. eapply (wp_walk I body l s _ _ l a []); [done|done| |done|done].
  apply NoDup_lt_length; [done|]. by eapply lseg_lt.
Qed.
End Access.

(** ** Well-formed process tables *)

(** Every entry of the list [l] knows the pointer that points at it; [r] is
    the one that points at the first. *)
Fixpoint back (mem : list proc) (r : pref) (l : list nat) : Prop :=
  match l with
  | [] => True
  | i :: l => (∃ p, mem !! i = Some p ∧ p_prev p = Some r) ∧ back mem (NxtOf i) l
  end.

(** The hash chains hold exactly the processes [all], each in the chain of its
    process id. *)
Definition hash_ok (s : kern) (all : list nat) : Prop :=
  ∀ h : nat, (h < 16)%nat → ∃ hd c, pidhash s !! h = Some hd ∧ lseg p_hash (procs s) hd c None ∧ NoDup c ∧
    ∀ i, i ∈ c ↔ i ∈ all ∧ ∃ p, procs s !! i = Some p ∧ PIDHASH (p_pid p) = Z.of_nat h.

(** The three lists of the process table: the live processes [all], the
    zombies [zomb] and the unused entries [free]. *)
Record table_ok (s : kern) (all zomb free : list nat) : Prop := TableOk {
  t_all : lseg p_nxt (procs s) (allproc s) all None;
  t_zomb : lseg p_nxt (procs s) (zombproc s) zomb None;
  t_free : lseg p_nxt (procs s) (freeproc s) free None;
  t_nodup : NoDup (all ++ zomb ++ free);
  t_back_all : back (procs s) AllProc all;
  t_back_zomb : back (procs s) ZombProc zomb;
  t_hash : hash_ok s all }.

(** No two live processes have the same process id. *)
Definition pids_distinct (s : kern) (all : list nat) : Prop :=
  ∀ i j x y, i ∈ all → j ∈ all → procs s !! i = Some x → procs s !! j = Some y → p_pid x = p_pid y → i = j.

Lemma PIDHASH_range pid : 0 ≤ PIDHASH pid < 16.
Proof.
  unfold PIDHASH, PIDHSZ. change (16 - 1) with (Z.ones 4). rewrite Z.land_ones by lia.
  apply Z.mod_pos_bound. lia.
Qed.

Lemma wp_pfind_loop pid s c : ∀ p fuel,
  lseg p_hash (procs s) p c None → (length c ≤ fuel)%nat →
  wp (pfind_loop fuel p pid) (λ r s', s' = s ∧
    match r with
    | Some i => i ∈ c ∧ ∃ q, procs s !! i = Some q ∧ p_pid q = pid
    | None => ∀ i q, i ∈ c → procs s !! i = Some q → p_pid q ≠ pid
    end) s.
Proof.
  induction c as [|i c IH]; intros p fuel Hp Hf.
  - simpl in Hp. subst p. destruct fuel; (split; [done|]; set_solver).
  - destruct Hp as (-> & x & Hx & Hp). destruct fuel as [|fuel]; simpl in Hf; [lia|]. cbn [pfind_loop].
    wp_go. eapply wp_at; [done|]. destruct (Z.eqb_spec (p_pid x) pid) as [E|E].
    + wp_go. split; [done|]. split; [set_solver|eauto].
    + eapply wp_mono; [apply IH; [done|lia]|]. intros [j|] s' [-> H]; (split; [done|]).
      * destruct H. split; [set_solver|done].
      * intros k q [->|Hk]%elem_of_cons Hq; [by simplify_eq|eauto].
Qed.

(** [pfind] finds the live process with a process id, or none has it. *)
Lemma wp_pfind s all pid :
  hash_ok s all →
  wp (pfind pid) (λ r s', s' = s ∧
    match r with
    | Some i => i ∈ all ∧ ∃ q, procs s !! i = Some q ∧ p_pid q = pid
    | None => ∀ i q, i ∈ all → procs s !! i = Some q → p_pid q ≠ pid
    end) s.
Proof.
  intros Hh. pose proof (PIDHASH_range pid) as Hr.
  destruct (Hh (Z.to_nat (PIDHASH pid)) ltac:(lia)) as (hd & c & Hhd & Hc & Hnd & Hin).
  unfold pfind. wp_go. apply (wp_lift _ hd).
  { unfold rdz. rewrite (proj2 (Z.leb_le 0 _)) by lia. by apply rd_Done. }
  wp_go. eapply wp_mono; [apply (wp_pfind_loop pid s c); [done|]|].
  { apply NoDup_lt_length; [done|]. by eapply lseg_lt. }
  intros [i|] s' [-> H]; (split; [done|]).
  - destruct H as [Hi H]. apply Hin in Hi as [Hi _]. done.
  - intros i q Hi Hq E. eapply H; [|done|done]. apply Hin. split; [done|]. exists q. split; [done|].
    rewrite E. lia.
Qed.

(** [desc s c i]: the chain of parents of [i] leads to [c]. *)
Inductive desc (s : kern) (c : nat) : nat → Prop :=
| desc_self : desc s c c
| desc_parent i j p : procs s !! i = Some p → p_ppid p ≠ 0 → p_pptr p = Some j → desc s c j → desc s c i.

(** [rooted s n i]: the parents of [i] end, after at most [n] steps, at a
    process whose parent id is 0. *)
Fixpoint rooted (s : kern) (n : nat) (i : nat) : Prop :=
  ∃ p, procs s !! i = Some p ∧
    (p_ppid p = 0 ∨ match n with O => False | S n => ∃ j, p_pptr p = Some j ∧ rooted s n j end).

Lemma wp_inferior_loop s n : ∀ i fuel,
  rooted s n i → (n < fuel)%nat →
  wp (inferior_loop fuel (Some i)) (λ r s', s' = s ∧ (r = true ↔ desc s (u_procp (u s)) i)) s.
Proof.
  induction n as [|n IH]; intros i fuel (p & Hp & Hr) Hf; (destruct fuel as [|fuel]; [lia|]);
    cbn [inferior_loop]; unfold curproc; wp_go.
  all: destruct (Nat.eqb_spec i (u_procp (u s))) as [->|Hne]; [wp_go; split; [done|]; split; [constructor|done]|].
  all: wp_go; eapply wp_at; [done|]; destruct (Z.eqb_spec (p_ppid p) 0) as [E|E].
  1,3: wp_go; split; [done|]; split; [done|]; intros Hd; inversion Hd; by simplify_eq.
  - destruct Hr; done.
  - destruct Hr as [?|(j & Hj & Hr)]; [done|]. rewrite Hj.
    eapply wp_mono; [apply IH; [done|lia]|]. intros r s' [-> H]. split; [done|]. rewrite H. split; intros Hd.
    + by econstructor.
    + inversion Hd; simplify_eq; done.
Qed.
Lemma wp_inferior s i n :
  rooted s n i → (n < length (procs s))%nat →
  wp (inferior i) (λ r s', s' = s ∧ (r = true ↔ desc s (u_procp (u s)) i)) s.
Proof. intros. unfold inferior. wp_go. by eapply wp_inferior_loop. Qed.

(** ** A small process table for examples

    Slot 0 is the swapper, slot 1 init and slot 2 a shell, child of init;
    the other slots are unused. *)
Definition no_usage : k_rusage := Rusage 0 0 0 0 0 0 0 0 0 0.
Definition slot (nxt : option nat) (prev : option pref) (pptr : option nat) (flag uid pid ppid stat : Z) : proc :=
  Proc nxt prev pptr flag uid pid ppid 0 stat 0 0 0 0 0 0 None 0 0 0 0 None 0 0 0 0 0 0 (Itimer 0 0) 0 no_usage.
Definition ex_procs : list proc :=
  slot None (Some (NxtOf 1)) None (Z.lor SLOAD SSYS) 0 0 0 SSLEEP ::
  slot (Some 0%nat) (Some (NxtOf 2)) (Some 0%nat) 0 0 1 0 SSLEEP ::
  slot (Some 1%nat) (Some AllProc) (Some 1%nat) SLOAD 100 2 1 SRUN ::
  map (λ i, slot (if (i <? 9)%nat then Some (S i) else None) None None 0 0 0 0 0) (seq 3 7).
Definition ex_user (uid : Z) : user :=
  User 2 0 0 uid uid uid 10 10 (10 :: replicate 15 NOGROUP) (replicate 32 0) (replicate 32 0) 0 0 0 0
    (SigStk 0 0 0) 0 no_usage no_usage (replicate 6 (Rlimit (2^31 - 1) (2^31 - 1)))
    (replicate 33 0) 0 0 0 0.
Definition ex_kern (uid : Z) : kern :=
  Kern ex_procs (Some 2%nat) None (Some 3%nat) (Some 0%nat :: Some 1%nat :: Some 2%nat :: replicate 13 None)
    (replicate 16 None) None 0 0 0 0 0 2 30000 (ex_user uid) (replicate 10 None) ∅ 0.

Lemma ex_hash uid : hash_ok (ex_kern uid) [2%nat; 1%nat; 0%nat].
Proof.
  intros h Hh.
  assert (HI : ∀ i, i ∈ [2%nat; 1%nat; 0%nat] ↔ i = 2%nat ∨ i = 1%nat ∨ i = 0%nat) by set_solver.
  do 3 (destruct h as [|h]; [eexists _, [_]; split_and!;
    [reflexivity|simpl; split; [done|]; by eexists|apply NoDup_singleton|];
    intros i; rewrite list_elem_of_singleton, HI; split;
    [intros ->; split; [auto|by eexists]
    |intros ([-> | [-> | ->]] & p & [= <-] & Hp); by vm_compute in Hp]|]).
  exists None, []. split_and!; [|done|constructor|].
  - change (replicate 13 (@None nat) !! h = Some None). apply lookup_replicate. split; [done|lia].
  - intros i. split; [by intros ?%not_elem_of_nil|]. rewrite HI.
    intros ([-> | [-> | ->]] & p & [= <-] & Hp); 
      (change (PIDHASH _) with 2 in Hp || change (PIDHASH _) with 1 in Hp || change (PIDHASH _) with 0 in Hp); lia.
Qed.
