(* ===== verification/Prot.v ===== *)
(** * User and group identities

    The system calls of kernel/kern_prot.c and kernel/kern_prot2.c and
    [suser] of kernel/ufs_fio.c, over the state of [Proc].  A system call is
    given its arguments; results and errors go to [u_rval] and [u_error]. *)
From stdpp Require Import base tactics list option strings numbers gmap.
From S2P Require Import Prelude Proc.
Open Scope Z_scope.

Definition suser : M bool :=
  e ← gets (λ s, u_uid (u s));
  if e =? 0 then mret true else set_error EPERM;; mret false.

(** ** kern_prot.c *)
Definition getpid : M unit := c ← curproc; p ← at_ c; set_rval (p_pid p).
Definition getppid : M unit := c ← curproc; p ← at_ c; set_rval (p_ppid p).
Definition getuid : M unit := x ← gets (λ s, u_ruid (u s)); set_rval (s32 x).
Definition geteuid : M unit := x ← gets (λ s, u_uid (u s)); set_rval (s32 x).
Definition getgid : M unit := x ← gets (λ s, u_rgid (u s)); set_rval (s32 x).
Definition getegid : M unit := g ← gets (λ s, u_groups (u s)); x ← lift (rd g 0); set_rval (s32 x).

(** [if (uap->pid == 0) uap->pid = u.u_procp->p_pid;] *)
Definition own_pid (pid : Z) : M Z :=
  if pid =? 0 then c ← curproc; p ← at_ c; mret (p_pid p) else mret pid.

Definition getpgrp (pid : Z) : M unit :=
  pid ← own_pid pid;
  p ← pfind pid;
  match p with
  | None => set_error ESRCH
  | Some p => q ← at_ p; set_rval (p_pgrp q)
  end.

(** [for (gp = &u.u_groups[NGROUPS]; gp > u.u_groups; gp--) if (gp[-1] != NOGROUP) break;]
    from [gp = &u_groups[n]]. *)
Fixpoint groups_end (g : list Z) (n : nat) : outcome nat :=
  match n with
  | O => Done O
  | S m => x ← rd g m; if negb (x =? NOGROUP) then Done (S m) else groups_end g m
  end.

Definition getgroups (gidsetsize gidset : Z) : M unit :=
  g ← gets (λ s, u_groups (u s));
  n ← lift (groups_end g NGROUPS);
  if gidsetsize <? Z.of_nat n then set_error EINVAL
  else
    e ← copyout (take n g) gidset;
    set_error e;;
    if negb (e =? 0) then mret tt else set_rval (Z.of_nat n).

Definition setpgrp (pid pgrp : Z) : M unit :=
  pid ← own_pid pid;
  p ← pfind pid;
  match p with
  | None => set_error ESRCH
  | Some p =>
      q ← at_ p;
      e ← gets (λ s, u_uid (u s));
      ok ← (if negb (u32 (p_uid q) =? e) && negb (e =? 0) then inferior p else mret true);
      if negb ok then set_error EPERM
      else setp p (λ q, q<|p_pgrp := s16 pgrp|>)
  end.

Definition setgroups (gidsetsize gidset : Z) : M unit :=
  ok ← suser;
  if negb ok then mret tt
  else if Z.of_nat NGROUPS <? gidsetsize then set_error EINVAL
  else
    let n := Z.to_nat gidsetsize in
    r ← copyin gidset n;
    match r with
    | inl e => set_error e
    | inr ws =>
        set_error 0;;
        setu (λ v, v<|u_groups := ws ++ drop n (u_groups v)|>);;
        setu (λ v, v<|u_groups := take n (u_groups v) ++ replicate (NGROUPS - n) NOGROUP|>)
    end.

(** The loop of [groupmember] over the entries that are left. *)
Fixpoint member_loop (g : list Z) (gid : Z) : bool :=
  match g with
  | [] => false
  | x :: g => if x =? NOGROUP then false else if x =? gid then true else member_loop g gid
  end.
Definition groupmember (gid : Z) : M bool :=
  g ← gets (λ s, u_groups (u s)); mret (member_loop (take NGROUPS g) gid).

(** ** kern_prot2.c *)
Definition setuid (uid : Z) : M unit :=
  r ← gets (λ s, u_ruid (u s));
  ok ← (if negb (uid =? r) then suser else mret true);
  if negb ok then mret tt
  else
    c ← curproc;
    setp c (λ p, p<|p_uid := s16 uid|>);;
    setu (λ v, v<|u_uid := uid|>);;
    setu (λ v, v<|u_ruid := uid|>);;
    setu (λ v, v<|u_svuid := uid|>);;
    set_error 0.

Definition seteuid (euid : Z) : M unit :=
  r ← gets (λ s, u_ruid (u s));
  sv ← gets (λ s, u_svuid (u s));
  ok ← (if negb (euid =? r) && negb (euid =? sv) then suser else mret true);
  if negb ok then mret tt
  else setu (λ v, v<|u_uid := euid|>);; set_error 0.

(** [u.u_groups[0] = gid] *)
Definition set_egid (gid : Z) : M unit :=
  g ← gets (λ s, u_groups (u s)); g ← lift (wr g 0 gid); setu (λ v, v<|u_groups := g|>).

Definition setgid (gid : Z) : M unit :=
  r ← gets (λ s, u_rgid (u s));
  ok ← (if negb (gid =? r) then suser else mret true);
  if negb ok then mret tt
  else
    set_egid gid;;
    setu (λ v, v<|u_rgid := gid|>);;
    setu (λ v, v<|u_svgid := gid|>);;
    set_error 0.

Definition setegid (egid : Z) : M unit :=
  r ← gets (λ s, u_rgid (u s));
  sv ← gets (λ s, u_svgid (u s));
  ok ← (if negb (egid =? r) && negb (egid =? sv) then suser else mret true);
  if negb ok then mret tt
  else set_egid egid;; set_error 0.

(** ** Sequences of calls *)
Inductive idcall :=
| Getpid | Getppid | Getuid | Geteuid | Getgid | Getegid
| Getpgrp (pid : Z) | Getgroups (size gidset : Z)
| Setpgrp (pid pgrp : Z) | Setgroups (size gidset : Z)
| Setuid (uid : Z) | Seteuid (euid : Z) | Setgid (gid : Z) | Setegid (egid : Z).

Definition docall (c : idcall) : M unit :=
  match c with
  | Getpid => getpid | Getppid => getppid | Getuid => getuid | Geteuid => geteuid
  | Getgid => getgid | Getegid => getegid
  | Getpgrp pid => getpgrp pid | Getgroups n a => getgroups n a
  | Setpgrp pid pgrp => setpgrp pid pgrp | Setgroups n a => setgroups n a
  | Setuid x => setuid x | Seteuid x => seteuid x | Setgid x => setgid x | Setegid x => setegid x
  end.
Fixpoint docalls (cs : list idcall) : M unit :=
  match cs with [] => mret tt | c :: cs => docall c;; docalls cs end.

(** What the calls rely on: sound hash chains, parent chains that end, a full
    array of groups. *)
Record prot_env (s : kern) (all : list nat) : Prop := ProtEnv {
  e_hash : hash_ok s all;
  e_rooted : ∀ i, i ∈ all → ∃ n, (n < length (procs s))%nat ∧ rooted s n i;
  e_all : ∀ i, i ∈ all → ∃ p, procs s !! i = Some p;
  e_cur : ∃ p, procs s !! u_procp (u s) = Some p;
  e_groups : length (u_groups (u s)) = NGROUPS }.

(** None of the three user identities is the super-user's. *)
Definition unprivileged (v : user) : Prop := u_uid v ≠ 0 ∧ u_ruid v ≠ 0 ∧ u_svuid v ≠ 0.

(** [v'] holds no identity that [v] could not assume. *)
Record ids_within (v v' : user) : Prop := IdsWithin {
  w_ruid : u_ruid v' = u_ruid v;
  w_svuid : u_svuid v' ∈ [u_svuid v; u_ruid v];
  w_uid : u_uid v' ∈ [u_uid v; u_ruid v; u_svuid v];
  w_rgid : u_rgid v' = u_rgid v;
  w_svgid : u_svgid v' ∈ [u_svgid v; u_rgid v];
  w_egid : ∀ g, head (u_groups v') = Some g → head (u_groups v) = Some g ∨ g ∈ [u_rgid v; u_svgid v];
  w_groups : tail (u_groups v') = tail (u_groups v);
  w_len : length (u_groups v') = length (u_groups v);
  w_procp : u_procp v' = u_procp v }.

(** Between two states only group names of processes and the identity [p_uid]
    of the process [c] differ, the latter set to [r]. *)
Definition procs_within (c : nat) (r : Z) (l l' : list proc) : Prop :=
  length l' = length l ∧ ∀ i p, l !! i = Some p → ∃ k g,
    l' !! i = Some (p<|p_uid := k|><|p_pgrp := g|>) ∧ (k = p_uid p ∨ i = c ∧ k = s16 r).

(** Whom an unprivileged process may put into another group: the processes of
    a user it can act as, itself and its descendants. *)
Definition sways (s : kern) (i : nat) (p : proc) : Prop :=
  u32 (p_uid p) ∈ [u_uid (u s); u_ruid (u s); u_svuid (u s)] ∨ desc s (u_procp (u s)) i.

Record within (s s' : kern) : Prop := Within {
  w_pgrp : ∀ i p p', procs s !! i = Some p → procs s' !! i = Some p' → p_pgrp p' ≠ p_pgrp p → sways s i p;
  w_procs : procs_within (u_procp (u s)) (u_ruid (u s)) (procs s) (procs s');
  w_hash : pidhash s' = pidhash s;
  w_ids : ids_within (u s) (u s') }.

Ltac pick :=
  repeat match goal with
  | H : _ ∈ _ :: _ |- _ => apply elem_of_cons in H as [H|H]
  | H : _ ∈ [] |- _ => by apply elem_of_nil in H
  end; rewrite ?elem_of_cons; intuition congruence.

Lemma ids_within_refl v : ids_within v v.
Proof. split; try done; try apply list_elem_of_here. auto. Qed.
Lemma ids_within_trans v1 v2 v3 : ids_within v1 v2 → ids_within v2 v3 → ids_within v1 v3.
Proof.
  intros [A1 A2 A3 A4 A5 A6 A7 A8 A9] [B1 B2 B3 B4 B5 B6 B7 B8 B9].
  split; [congruence| | |congruence| | |congruence|congruence|congruence].
  - clear A3 A5 B3 B5. pick.
  - clear A5 B2 B5. pick.
  - clear A2 A3 B2 B3. pick.
  - intros g Hg. destruct (B6 g Hg) as [H|H]; [by apply A6|right]. clear A2 A3 B2 B3 B5. pick.
Qed.

Lemma procs_within_refl c r l : procs_within c r l l.
Proof. split; [done|]. intros i p Hp. exists (p_uid p), (p_pgrp p). split; [|by left]. rewrite Hp. by destruct p. Qed.
Lemma procs_within_trans c r l1 l2 l3 :
  procs_within c r l1 l2 → procs_within c r l2 l3 → procs_within c r l1 l3.
Proof.
  intros [L1 H1] [L2 H2]. split; [congruence|]. intros i p Hp. destruct (H1 i p Hp) as (k & g & Hi & Hk).
  destruct (H2 _ _ Hi) as (k' & g' & Hi' & Hk'). exists k', g'. split; [by rewrite Hi'|].
  destruct Hk' as [->|]; [done|by right].
Qed.


(** The tables stay sound. *)
Lemma procs_within_lseg c r l l' p q es : procs_within c r l l' → lseg p_hash l p es q → lseg p_hash l' p es q.
Proof.
  intros [L H]. apply lseg_links. intros i _. destruct (l !! i) as [x|] eqn:E.
  - destruct (H i x E) as (k & g & -> & _). done.
  - apply lookup_ge_None in E. rewrite <- L in E. by apply lookup_ge_None in E as ->.
Qed.
Lemma procs_within_rooted s s' c r n : ∀ i,
  procs_within c r (procs s) (procs s') → rooted s n i → rooted s' n i.
Proof.
  induction n as [|n IH]; intros i HW (p & Hp & Hr); pose proof (proj2 HW i p Hp) as (k & g & Hi & _);
    eexists; (split; [done|]); (destruct Hr as [Hr|Hr]; [by left|right]); [done|].
  destruct Hr as (j & Hj & Hr). exists j. split; [done|]. by apply IH.
Qed.
Lemma procs_within_inv c r l l' i p' :
  procs_within c r l l' → l' !! i = Some p' → ∃ p k g, l !! i = Some p ∧ p' = p<|p_uid := k|><|p_pgrp := g|>.
Proof.
  intros [L H] Hi. destruct (l !! i) as [p|] eqn:E.
  - destruct (H i p E) as (k & g & E' & _). rewrite E' in Hi. injection Hi as <-. eauto.
  - apply lookup_ge_None in E. rewrite <- L in E. apply lookup_ge_None in E. congruence.
Qed.

Lemma procs_within_desc s s' c r a i : procs_within c r (procs s) (procs s') → desc s' a i → desc s a i.
Proof.
  intros HP. induction 1 as [|i j p' Hp Hn Hpp _ IH]; [constructor|].
  destruct (procs_within_inv _ _ _ _ _ _ HP Hp) as (p & k & g & Hp0 & ->). by eapply desc_parent.
Qed.

(** A process swayed after some calls was swayed before them. *)
Lemma sways_within s s' i p p' :
  procs_within (u_procp (u s)) (u_ruid (u s)) (procs s) (procs s') → ids_within (u s) (u s') →
  procs s !! i = Some p → procs s' !! i = Some p' → sways s' i p' → sways s i p.
Proof.
  intros HP HI Hp Hp' H. destruct (proj2 HP i p Hp) as (k & g & E & Hk). rewrite E in Hp'. injection Hp' as <-.
  destruct Hk as [->|[-> _]]; [|right; constructor]. destruct H as [H|H].
  - left. fields_in H. destruct HI as [A1 A2 A3 _ _ _ _ _ _]. clear - H A1 A2 A3. pick.
  - right. rewrite (w_procp _ _ HI) in H. by eapply procs_within_desc.
Qed.

Lemma within_same s s' : procs s' = procs s → pidhash s' = pidhash s → ids_within (u s) (u s') → within s s'.
Proof. intros E1 E2 E3. split; [|rewrite E1; apply procs_within_refl|done|done]. rewrite E1. congruence. Qed.
Lemma within_refl s : within s s.
Proof. apply within_same; [done|done|apply ids_within_refl]. Qed.
Lemma within_trans s1 s2 s3 : within s1 s2 → within s2 s3 → within s1 s3.
Proof.
  intros [A0 A1 A2 A3] [B0 B1 B2 B3]. split; [| |congruence|by eapply ids_within_trans].
  - intros i p p3 Hp Hp3 Hne. destruct (proj2 A1 i p Hp) as (k & g & Hp2 & _).
    destruct (decide (g = p_pgrp p)) as [->|Hg]; [|by eapply A0].
    eapply (sways_within s1 s2); [done..|]. by eapply B0.
  - rewrite (w_procp _ _ A3), (w_ruid _ _ A3) in B1. by eapply procs_within_trans.
Qed.

Lemma prot_env_same s s' c r all :
  prot_env s all → procs_within c r (procs s) (procs s') → pidhash s' = pidhash s →
  u_procp (u s') = u_procp (u s) → length (u_groups (u s')) = length (u_groups (u s)) → prot_env s' all.
Proof.
  intros [Hh Hr Ha Hc Hg] HP Hhash Hproc Hlen. split.
  - intros h Hlt. destruct (Hh h Hlt) as (hd & ch & Hhd & Hseg & Hnd & Hin). exists hd, ch.
    rewrite Hhash. repeat split_and; [done|by eapply procs_within_lseg|done|].
    intros i. rewrite Hin. split; intros (Hia & p & Hp & Hpid); (split; [done|]).
    + destruct (proj2 HP i p Hp) as (k & g & Hp' & _). eauto.
    + destruct (procs_within_inv _ _ _ _ _ _ HP Hp) as (q & k & g & Hq & ->). eauto.
  - intros i Hi'. destruct (Hr i Hi') as (n & Hn & Hroot). exists n. rewrite (proj1 HP).
    split; [done|]. by eapply procs_within_rooted.
  - intros i Hi'. destruct (Ha i Hi') as [p Hp]. destruct (proj2 HP i p Hp) as (k & g & Hp' & _). eauto.
  - destruct Hc as [p Hp]. rewrite Hproc. destruct (proj2 HP _ p Hp) as (k & g & Hp' & _). eauto.
  - congruence.
Qed.
Lemma prot_env_within s s' all : prot_env s all → within s s' → prot_env s' all.
Proof. intros Hs [_ HP Hhash Hi]. eapply prot_env_same; [done|done|done|apply Hi|apply Hi]. Qed.
Lemma unprivileged_within s s' : unprivileged (u s) → within s s' → unprivileged (u s').
Proof.
  intros (H1 & H2 & H3) [_ _ _ Hi]. pose proof (w_ruid _ _ Hi). pose proof (w_svuid _ _ Hi) as E2.
  pose proof (w_uid _ _ Hi) as E3. unfold unprivileged. pick.
Qed.

(** ** What each call does *)
Section Calls.
Implicit Types (s : kern) (v : user).

Lemma wp_setu f (Q : unit → kern → Prop) s : Q tt (s<|u ::= f|>) → wp (setu f) Q s.
Proof. done. Qed.
Lemma wp_suser (Q : bool → kern → Prop) s :
  (u_uid (u s) = 0 → Q true s) →
  (u_uid (u s) ≠ 0 → Q false (s<|u ::= λ v, v<|u_error := EPERM|>|>)) → wp suser Q s.
Proof. intros H1 H2. unfold suser. wp_go. destruct (Z.eqb_spec (u_uid (u s)) 0); wp_go; auto. by apply wp_setu, H2. Qed.

Lemma within_u s f : ids_within (u s) (f (u s)) → within s (s<|u ::= f|>).
Proof. intros H. by apply within_same. Qed.
Lemma procs_within_put l c r i p k g :
  l !! i = Some p → k = p_uid p ∨ i = c ∧ k = s16 r →
  procs_within c r l (<[i := p<|p_uid := k|><|p_pgrp := g|>]> l).
Proof.
  intros Hi Hk. split; [by rewrite length_insert|]. intros j q Hj. destruct (decide (i = j)) as [->|Hne].
  - simplify_eq. exists k, g. rewrite list_lookup_insert_eq by (by eapply lookup_lt_Some). done.
  - rewrite list_lookup_insert_ne by done. exists (p_uid q), (p_pgrp q). split; [|by left].
    rewrite Hj. by destruct q.
Qed.
Lemma within_put s c p k g :
  procs s !! c = Some p → k = p_uid p ∨ c = u_procp (u s) ∧ k = s16 (u_ruid (u s)) → g = p_pgrp p ∨ sways s c p →
  within s (s<|procs := <[c := p<|p_uid := k|><|p_pgrp := g|>]> (procs s)|>).
Proof.
  intros Hc Hk Hg. split; fields; [|by apply procs_within_put|done|apply ids_within_refl]. intros i q q' Hq Hq' Hne.
  destruct (decide (c = i)) as [<-|?]; [|rewrite list_lookup_insert_ne in Hq' by done; congruence].
  rewrite list_lookup_insert_eq in Hq' by (by eapply lookup_lt_Some). simplify_eq. fields_in Hne. by destruct Hg.
Qed.

(** The result and error words are no identities. *)
Lemma within_error s e : within s (s<|u ::= λ v, v<|u_error := e|>|>).
Proof. apply within_u. split; fields; auto; apply list_elem_of_here. Qed.
Lemma within_rval s x : within s (s<|u ::= λ v, v<|u_rval := x|>|>).
Proof. apply within_u. split; fields; auto; apply list_elem_of_here. Qed.
Lemma within_umem s f : within s (s<|umem ::= f|>).
Proof. apply within_same; [done|done|apply ids_within_refl]. Qed.

Lemma wp_own_pid s all pid (Q : Z → kern → Prop) : prot_env s all → (∀ x, Q x s) → wp (own_pid pid) Q s.
Proof.
  intros Hs HQ. unfold own_pid. destruct (pid =? 0); [|by apply wp_ret].
  unfold curproc. wp_go. destruct (e_cur _ _ Hs) as [p Hp]. eapply wp_at; [done|]. by wp_go.
Qed.

Lemma within_getpgrp s all pid : prot_env s all → wp (getpgrp pid) (λ _ s', within s s') s.
Proof.
  intros Hs. unfold getpgrp. wp_go. eapply wp_own_pid; [done|]. intros x. wp_go.
  eapply wp_mono; [eapply wp_pfind, e_hash; done|]. intros [i|] s' [-> H].
  - destruct H as (_ & q & Hq & _). wp_go. eapply wp_at; [done|]. apply wp_setu, within_rval.
  - apply wp_setu, within_error.
Qed.
Lemma within_setpgrp s all pid pgrp :
  prot_env s all → unprivileged (u s) → wp (setpgrp pid pgrp) (λ _ s', within s s') s.
Proof.
  intros Hs (Hu & _). unfold setpgrp. wp_go. eapply wp_own_pid; [done|]. intros x. wp_go.
  eapply wp_mono; [eapply wp_pfind, e_hash; done|]. intros [i|] s' [-> H]; [|apply wp_setu, within_error].
  destruct H as (Hi & q & Hq & _). wp_go. eapply wp_at; [done|]. wp_go.
  assert (HR : ∀ b : bool, (b = true → sways s i q) →
    wp (if negb b then set_error EPERM else setp i (λ q, q<|p_pgrp := s16 pgrp|>)) (λ _ s', within s s') s).
  { intros [] Hb; simpl; [|apply wp_setu, within_error]. eapply wp_setp; [done|].
    replace (q<|p_pgrp := s16 pgrp|>) with (q<|p_uid := p_uid q|><|p_pgrp := s16 pgrp|>) by (by destruct q).
    apply within_put; [done|by left|right; by apply Hb]. }
  rewrite (proj2 (Z.eqb_neq (u_uid (u s)) 0)), andb_true_r by done.
  destruct (Z.eqb_spec (u32 (p_uid q)) (u_uid (u s))) as [E|E]; simpl.
  { apply wp_ret, HR. intros _. left. rewrite E. apply list_elem_of_here. }
  destruct (e_rooted _ _ Hs i Hi) as (n & Hn & Hroot).
  eapply wp_mono; [eapply wp_inferior; done|]. intros b s' [-> Hb]. apply HR. intros ->. right. by apply Hb.
Qed.

Lemma within_getgroups s all n a : prot_env s all → wp (getgroups n a) (λ _ s', within s s') s.
Proof.
  intros Hs. pose proof (e_groups _ _ Hs) as Hg. unfold getgroups. wp_go.
  assert (HG : ∀ g k, (k ≤ length g)%nat → ∃ m, groups_end g k = Done m).
  { intros g k. induction k as [|k IH]; intros Hk; simpl; [eauto|].
    destruct (lookup_lt_is_Some_2 g k) as [x Hx]; [lia|]. rewrite (rd_Done _ _ _ Hx). simpl.
    destruct (negb _); [eauto|]. apply IH. lia. }
  destruct (HG (u_groups (u s)) NGROUPS) as [m Hm]; [by rewrite Hg|]. eapply wp_lift; [done|].
  destruct (n <? Z.of_nat m); [apply wp_setu, within_error|]. unfold copyout. wp_go.
  destruct (_ || _); wp_go; apply wp_setu; simpl; wp_go; [apply within_error|]. apply wp_setu.
  eapply within_trans; [|apply within_rval]. eapply within_trans; [|apply within_error].
  apply within_umem.
Qed.

(** The state a refused call leaves. *)
Definition refused s : kern := s<|u ::= λ v, v<|u_error := EPERM|>|>.

Lemma suser_spec s : suser s = if decide (u_uid (u s) = 0) then Done (true, s) else Done (false, refused s).
Proof.
  unfold suser, mbind, K_bind, gets. destruct (Z.eqb_spec (u_uid (u s)) 0); case_decide; done.
Qed.

Lemma setuid_spec s uid p :
  procs s !! u_procp (u s) = Some p →
  wp (setuid uid) (λ _ s', s' =
    if decide (uid = u_ruid (u s) ∨ u_uid (u s) = 0) then
      s<|procs := <[u_procp (u s) := p<|p_uid := s16 uid|>]> (procs s)|>
       <|u ::= λ v, v<|u_uid := uid|><|u_ruid := uid|><|u_svuid := uid|><|u_error := 0|>|>
    else refused s) s.
Proof.
  intros Hp. unfold setuid. wp_go. unfold wp, mbind, K_bind.
  destruct (Z.eqb_spec uid (u_ruid (u s))) as [E|E]; [|rewrite suser_spec; destruct (decide (u_uid (u s) = 0))].
  3: by rewrite decide_False by tauto.
  all: rewrite decide_True by tauto; simpl; unfold setp, at_, put, mbind, K_bind; simpl.
  all: rewrite (rd_Done _ _ _ Hp); simpl; rewrite wr_Done by (by eapply lookup_lt_Some); reflexivity.
Qed.
Lemma seteuid_spec s euid :
  wp (seteuid euid) (λ _ s', s' =
    if decide (euid = u_ruid (u s) ∨ euid = u_svuid (u s) ∨ u_uid (u s) = 0) then
      s<|u ::= λ v, v<|u_uid := euid|><|u_error := 0|>|>
    else refused s) s.
Proof.
  unfold seteuid. wp_go. unfold wp, mbind, K_bind.
  destruct (Z.eqb_spec euid (u_ruid (u s))), (Z.eqb_spec euid (u_svuid (u s))); simpl;
    try (by rewrite decide_True by tauto).
  rewrite suser_spec. destruct (decide (u_uid (u s) = 0)); [by rewrite decide_True by tauto|].
  by rewrite decide_False by tauto.
Qed.
Lemma set_egid_spec s g : length (u_groups (u s)) = NGROUPS →
  set_egid g s = Done (tt, s<|u ::= λ v, v<|u_groups := g :: tail (u_groups v)|>|>).
Proof.
  intros Hl. unfold set_egid, mbind, K_bind. simpl. rewrite wr_Done by (rewrite Hl; unfold NGROUPS; lia).
  destruct (u_groups (u s)) as [|g0 gs] eqn:E; [done|]. unfold setu, modify. simpl. do 2 f_equal.
  unfold field_map. simpl. by rewrite E.
Qed.
Lemma setgid_spec s gid : length (u_groups (u s)) = NGROUPS →
  wp (setgid gid) (λ _ s', s' =
    if decide (gid = u_rgid (u s) ∨ u_uid (u s) = 0) then
      s<|u ::= λ v, v<|u_groups := gid :: tail (u_groups v)|><|u_rgid := gid|><|u_svgid := gid|><|u_error := 0|>|>
    else refused s) s.
Proof.
  intros Hl. unfold setgid. wp_go. unfold wp, mbind, K_bind.
  destruct (Z.eqb_spec gid (u_rgid (u s))); simpl.
  - rewrite set_egid_spec by done. by rewrite decide_True by tauto.
  - rewrite suser_spec. destruct (decide (u_uid (u s) = 0)); simpl.
    + rewrite set_egid_spec by done. by rewrite decide_True by tauto.
    + by rewrite decide_False by tauto.
Qed.
Lemma setegid_spec s egid : length (u_groups (u s)) = NGROUPS →
  wp (setegid egid) (λ _ s', s' =
    if decide (egid = u_rgid (u s) ∨ egid = u_svgid (u s) ∨ u_uid (u s) = 0) then
      s<|u ::= λ v, v<|u_groups := egid :: tail (u_groups v)|><|u_error := 0|>|>
    else refused s) s.
Proof.
  intros Hl. unfold setegid. wp_go. unfold wp, mbind, K_bind.
  destruct (Z.eqb_spec egid (u_rgid (u s))), (Z.eqb_spec egid (u_svgid (u s))); simpl;
    try (rewrite set_egid_spec by done; by rewrite decide_True by tauto).
  rewrite suser_spec. destruct (decide (u_uid (u s) = 0)); simpl; [|by rewrite decide_False by tauto].
  rewrite set_egid_spec by done. by rewrite decide_True by tauto.
Qed.
End Calls.

(** ** No way up *)
Section NoWayUp.
Implicit Types (s : kern).

(** Without privilege the calls that set an identity only choose among those
    the process has. *)
Lemma within_setuid s p uid :
  procs s !! u_procp (u s) = Some p → unprivileged (u s) → wp (setuid uid) (λ _ s', within s s') s.
Proof.
  intros Hp (Hu & _). eapply wp_mono; [by apply setuid_spec|]. intros _ s' ->. case_decide as E; [|apply within_error].
  destruct E as [->|?]; [|done].
  eapply within_trans; [apply (within_put s _ p (s16 (u_ruid (u s))) (p_pgrp p) Hp); [by right|by left]|].
  eapply within_u. split; fields; auto; pick.
Qed.
Lemma within_seteuid s euid : unprivileged (u s) → wp (seteuid euid) (λ _ s', within s s') s.
Proof.
  intros (Hu & _). eapply wp_mono; [by apply seteuid_spec|]. intros _ s' ->. case_decide as E; [|apply within_error].
  apply within_u. split; fields; auto; pick.
Qed.
Lemma within_egid s g f :
  length (u_groups (u s)) = NGROUPS → g ∈ [u_rgid (u s); u_svgid (u s)] →
  f (u s) ∈ [(u s)<|u_groups := g :: tail (u_groups (u s))|>;
             (u s)<|u_groups := g :: tail (u_groups (u s))|><|u_svgid := u_rgid (u s)|>] →
  within s (s<|u ::= f|>).
Proof.
  intros Hl Hg Hf. apply within_u. destruct (u_groups (u s)) as [|g0 gs] eqn:E; [done|].
  apply elem_of_cons in Hf as [->|[->|Hf%elem_of_nil]%elem_of_cons]; [| |done].
  all: split; fields; rewrite ?E; simpl; auto; try pick; intros g' [= <-]; by right.
Qed.
Lemma within_setgid s gid :
  length (u_groups (u s)) = NGROUPS → unprivileged (u s) → wp (setgid gid) (λ _ s', within s s') s.
Proof.
  intros Hl (Hu & _). eapply wp_mono; [by apply setgid_spec|]. intros _ s' ->. case_decide as E; [|apply within_error].
  destruct E as [->|?]; [|done].
  change (within s ((s<|u ::= λ v, v<|u_groups := u_rgid (u s) :: tail (u_groups v)|><|u_svgid := u_rgid (u s)|>|>)
    <|u ::= λ v, v<|u_error := 0|>|>)).
  eapply within_trans; [|apply within_error]. eapply (within_egid _ (u_rgid (u s))); [done|pick|pick].
Qed.
Lemma within_setegid s egid :
  length (u_groups (u s)) = NGROUPS → unprivileged (u s) → wp (setegid egid) (λ _ s', within s s') s.
Proof.
  intros Hl (Hu & _). eapply wp_mono; [by apply setegid_spec|]. intros _ s' ->. case_decide as E; [|apply within_error].
  change (within s ((s<|u ::= λ v, v<|u_groups := egid :: tail (u_groups v)|>|>)<|u ::= λ v, v<|u_error := 0|>|>)).
  eapply within_trans; [|apply within_error]. eapply (within_egid _ egid); [done|pick|pick].
Qed.
Lemma within_setgroups s n a : unprivileged (u s) → wp (setgroups n a) (λ _ s', within s s') s.
Proof.
  intros (Hu & _). unfold setgroups. wp_go. apply wp_suser; [done|]. intros _. apply within_error.
Qed.

Lemma wp_docall s all c : prot_env s all → unprivileged (u s) → wp (docall c) (λ _ s', within s s') s.
Proof.
  intros Hs Hu. destruct (e_cur _ _ Hs) as [p Hp]. pose proof (e_groups _ _ Hs) as Hg.
  destruct c; simpl; eauto using within_getpgrp, within_getgroups, within_setpgrp, within_setgroups,
    within_setuid, within_seteuid, within_setgid, within_setegid.
  1,2: unfold getpid, getppid, curproc; wp_go; eapply wp_at; [done|]; apply wp_setu, within_rval.
  1-3: apply wp_setu, within_rval.
  unfold getegid. wp_go. destruct (u_groups (u s)) as [|g gs]; [done|]. eapply wp_lift; [done|].
  apply wp_setu, within_rval.
Qed.
End NoWayUp.

Lemma wp_docalls all cs : ∀ s,
  prot_env s all → unprivileged (u s) → wp (docalls cs) (λ _ s', within s s' ∧ unprivileged (u s')) s.
Proof.
  induction cs as [|c cs IH]; intros s Hs Hu; simpl.
  - wp_go. split; [apply within_refl|done].
  - apply wp_bind. eapply wp_mono; [by eapply wp_docall|]. intros [] s1 H1.
    eapply wp_mono; [apply IH; [by eapply prot_env_within|by eapply unprivileged_within]|].
    intros [] s2 [H2 Hu2]. split; [by eapply within_trans|done].
Qed.

(** ** Groups *)
Section Groups.
Implicit Types (s : kern).

Lemma store_words_below m ws : ∀ a x, x < a → store_words m a ws !! x = m !! x.
Proof.
  revert m. induction ws as [|w ws IH]; intros m a x Hx; simpl; [done|].
  rewrite IH by lia. by rewrite lookup_insert_ne by lia.
Qed.
Lemma load_words_S m a n : load_words m a (S n) = default 0 (m !! a) :: load_words m (a + 4) n.
Proof.
  unfold load_words. simpl. f_equal; [by rewrite Z.add_0_r|]. rewrite <- seq_shift, map_map.
  apply map_ext. intros k. do 2 f_equal. lia.
Qed.
Lemma load_store m ws : ∀ a, load_words (store_words m a ws) a (length ws) = ws.
Proof.
  revert m. induction ws as [|w ws IH]; intros m a; [done|]. cbn [length store_words].
  rewrite load_words_S, IH. f_equal. rewrite store_words_below by lia. by rewrite lookup_insert_eq.
Qed.
Lemma load_words_length m a n : length (load_words m a n) = n.
Proof. unfold load_words. by rewrite length_map, length_seq. Qed.

Definition padded (gs : list Z) : list Z := gs ++ replicate (NGROUPS - length gs) NOGROUP.

Lemma groups_end_padded gs k :
  Forall (λ g, g ≠ NOGROUP) gs →
  groups_end (gs ++ replicate k NOGROUP) (length gs + k) = Done (length gs).
Proof.
  intros Hgs. induction k as [|k IH].
  - rewrite Nat.add_0_r, app_nil_r. destruct gs as [|g gs _] using rev_ind; [done|].
    rewrite length_app, Nat.add_1_r. simpl. rewrite rd_mid. simpl.
    apply Forall_app in Hgs as [_ Hg]. apply Forall_cons in Hg as [Hg _].
    by apply Z.eqb_neq in Hg as ->.
  - rewrite Nat.add_succ_r. cbn [groups_end].
    assert (E : (gs ++ replicate (S k) NOGROUP) !! (length gs + k)%nat = Some NOGROUP).
    { rewrite lookup_app_r by lia. apply lookup_replicate. split; [done|lia]. }
    rewrite (rd_Done _ _ _ E). simpl. rewrite <- IH.
    assert (HE : ∀ n g g' , (∀ j, (j < n)%nat → g !! j = g' !! j) → groups_end g n = groups_end g' n).
    { intros n. induction n as [|n IHn]; intros g g' Hj; [done|]. simpl. unfold rd. rewrite (Hj n) by lia.
      destruct (g' !! n); [|done]. simpl. destruct (negb _); [done|]. apply IHn. intros j Hlt. apply Hj. lia. }
    apply HE. intros j Hj. change (NOGROUP :: replicate k NOGROUP) with (replicate (S k) NOGROUP).
    replace (S k) with (k + 1)%nat by lia. rewrite replicate_add, app_assoc. rewrite lookup_app_l; [done|].
    rewrite length_app, length_replicate. lia.
Qed.
Lemma member_padded gs k g :
  Forall (λ g, g ≠ NOGROUP) gs → member_loop (gs ++ replicate k NOGROUP) g = bool_decide (g ∈ gs).
Proof.
  induction 1 as [|x gs Hx _ IH].
  - rewrite bool_decide_false by set_solver. by destruct k.
  - cbn [app member_loop]. apply Z.eqb_neq in Hx as ->. destruct (Z.eqb_spec x g) as [->|Hne].
    + by rewrite bool_decide_true by set_solver.
    + rewrite IH. apply bool_decide_ext. set_solver.
Qed.

Lemma wp_setgroups s a gs :
  u_uid (u s) = 0 → (length gs ≤ NGROUPS)%nat → load_words (umem s) a (length gs) = gs →
  baduaddr a = false → baduaddr (u32 (a + 4 * Z.of_nat (length gs) - 1)) = false →
  wp (setgroups (Z.of_nat (length gs)) a) (λ _ s', s' = s<|u ::= λ v, v<|u_error := 0|><|u_groups := padded gs|>|>) s.
Proof.
  intros Hu Hn Hld Hb1 Hb2. unfold setgroups. wp_go. apply wp_suser; [intros _|done].
  simpl. rewrite (proj2 (Z.ltb_ge _ _)) by lia. rewrite Nat2Z.id. unfold copyin. rewrite Hb1, Hb2. simpl. wp_go.
  rewrite Hld. wp_go. apply wp_setu. wp_go. apply wp_setu. apply wp_setu. unfold padded.
  unfold field_map. simpl. do 2 f_equal. by rewrite take_app_length.
Qed.
End Groups.

(** The example state satisfies what the calls rely on. *)
Lemma ex_prot_env uid : prot_env (ex_kern uid) [2%nat; 1%nat; 0%nat].
Proof.
  split.
  - apply ex_hash.
  - intros i Hi. exists 2%nat. split; [simpl; lia|].
    apply elem_of_cons in Hi as [->|[->|[->|Hi%elem_of_nil]%elem_of_cons]%elem_of_cons]; [..|done].
    + eexists. split; [reflexivity|]. right. exists 1%nat. split; [done|]. eexists. split; [reflexivity|by left].
    + eexists. split; [reflexivity|by left].
    + eexists. split; [reflexivity|by left].
  - intros i Hi.
    apply elem_of_cons in Hi as [->|[->|[->|Hi%elem_of_nil]%elem_of_cons]%elem_of_cons]; by eauto.
  - by eexists.
  - reflexivity.
Qed.

(** ** Theorems *)

(** C29. A process without privilege gains none by any sequence of the
    identity calls: its real, effective and saved users and groups and its
    supplementary groups stay among those it had, no other process is touched
    but for the name of its group, and that only if it is a descendant or
    belongs to a user the caller can act as; no call panics or runs astray.
    The process table's hash chains and parent links are assumed sound. *)
Theorem no_way_up (s : kern) (all : list nat) (cs : list idcall) :
  prot_env s all → unprivileged (u s) →
  wp (docalls cs) (λ _ s', within s s' ∧ unprivileged (u s')) s.
Proof. apply wp_docalls. Qed.

(** The effect of the four calls that set identities, in each case: the
    new identities when they are allowed, else EPERM and nothing changed.
    Once a super-user process has called setuid with another user, no
    sequence of calls makes it anything but that user. *)
Theorem set_ids_correct (s : kern) (all : list nat) (cs : list idcall) (x : Z) (p : proc) :
  prot_env s all → procs s !! u_procp (u s) = Some p →
  wp (setuid x) (λ _ s', s' =
    if decide (x = u_ruid (u s) ∨ u_uid (u s) = 0) then
      s<|procs := <[u_procp (u s) := p<|p_uid := s16 x|>]> (procs s)|>
       <|u ::= λ v, v<|u_uid := x|><|u_ruid := x|><|u_svuid := x|><|u_error := 0|>|>
    else refused s) s ∧
  wp (seteuid x) (λ _ s', s' =
    if decide (x = u_ruid (u s) ∨ x = u_svuid (u s) ∨ u_uid (u s) = 0) then
      s<|u ::= λ v, v<|u_uid := x|><|u_error := 0|>|>
    else refused s) s ∧
  wp (setgid x) (λ _ s', s' =
    if decide (x = u_rgid (u s) ∨ u_uid (u s) = 0) then
      s<|u ::= λ v, v<|u_groups := x :: tail (u_groups v)|><|u_rgid := x|><|u_svgid := x|><|u_error := 0|>|>
    else refused s) s ∧
  wp (setegid x) (λ _ s', s' =
    if decide (x = u_rgid (u s) ∨ x = u_svgid (u s) ∨ u_uid (u s) = 0) then
      s<|u ::= λ v, v<|u_groups := x :: tail (u_groups v)|><|u_error := 0|>|>
    else refused s) s ∧
  (u_uid (u s) = 0 → x ≠ 0 →
   wp (setuid x;; docalls cs) (λ _ s', u_uid (u s') = x ∧ u_ruid (u s') = x ∧ u_svuid (u s') = x) s).
Proof.
  intros Hs Hp. pose proof (e_groups _ _ Hs) as Hg.
  split_and!; [by apply setuid_spec|apply seteuid_spec|by apply setgid_spec|by apply setegid_spec|].
  intros Hu Hx. apply wp_bind. eapply wp_mono; [by apply setuid_spec|]. intros [] s1 ->.
  rewrite decide_True by tauto.
  eapply wp_mono; [apply (wp_docalls all)|].
  - eapply (prot_env_same s _ (u_procp (u s)) x all Hs); fields; [|done|done|done].
    apply (procs_within_put _ _ _ _ p (s16 x) (p_pgrp p) Hp). by right.
  - unfold unprivileged. fields. done.
  - intros [] s2 [[_ _ _ W] _]. pose proof (w_ruid _ _ W) as E1. pose proof (w_svuid _ _ W) as E2.
    pose proof (w_uid _ _ W) as E3. fields_in E1. fields_in E2. fields_in E3. split_and!; pick.
Qed.

Lemma no_way_up_witness :
  prot_env (ex_kern 100) [2%nat; 1%nat; 0%nat] ∧ unprivileged (u (ex_kern 100)) ∧
  wp (docalls [Setuid 0; Seteuid 0; Setpgrp 0 2; Setgid 0; Setuid 100])
    (λ _ s', within (ex_kern 100) s' ∧ unprivileged (u s')) (ex_kern 100).
Proof.
  assert (H : unprivileged (u (ex_kern 100))) by (unfold unprivileged; simpl; lia).
  split; [apply ex_prot_env|]. split; [exact H|].
  apply (no_way_up (ex_kern 100) [2%nat; 1%nat; 0%nat]); [apply ex_prot_env|exact H].
Defined.

Lemma set_ids_correct_witness :
  wp (setuid 100;; docalls [Seteuid 0; Setuid 0])
    (λ _ s', u_uid (u s') = 100 ∧ u_ruid (u s') = 100 ∧ u_svuid (u s') = 100) (ex_kern 0).
Proof.
  refine (proj2 (proj2 (proj2 (proj2 (set_ids_correct (ex_kern 0) [2%nat; 1%nat; 0%nat]
    [Seteuid 0; Setuid 0] 100 _ (ex_prot_env 0) _)))) _ _); [reflexivity|reflexivity|lia].
Defined.

(** The groups the super-user installs are the ones that are then in
    force: getgroups returns exactly them, and groupmember accepts exactly
    them. *)
Theorem setgroups_roundtrip (s : kern) (a b m : Z) (gs : list Z) (g : Z) :
  u_uid (u s) = 0 → (length gs ≤ NGROUPS)%nat → Forall (λ g, g ≠ NOGROUP) gs →
  load_words (umem s) a (length gs) = gs →
  baduaddr a = false → baduaddr (u32 (a + 4 * Z.of_nat (length gs) - 1)) = false →
  baduaddr b = false → baduaddr (u32 (b + 4 * Z.of_nat (length gs) - 1)) = false →
  Z.of_nat (length gs) ≤ m →
  wp (setgroups (Z.of_nat (length gs)) a;; getgroups m b;; groupmember g)
    (λ r s', r = bool_decide (g ∈ gs) ∧ u_error (u s') = 0 ∧ u_rval (u s') = Z.of_nat (length gs) ∧
             load_words (umem s') b (length gs) = gs) s.
Proof.
  intros Hu Hn Hng Hld Ha1 Ha2 Hb1 Hb2 Hm. apply wp_bind. eapply wp_mono; [by apply wp_setgroups|]. intros [] s1 ->.
  unfold getgroups. wp_go. fields.
  apply (wp_lift _ (length gs)).
  { unfold padded. replace NGROUPS with (length gs + (NGROUPS - length gs))%nat at 2 by lia.
    by apply groups_end_padded. }
  rewrite (proj2 (Z.ltb_ge m _)) by lia. unfold padded, copyout. rewrite take_app_length, Hb1, Hb2. simpl. wp_go.
  apply wp_setu. simpl. wp_go. apply wp_setu. unfold groupmember. wp_go. fields.
  split_and!; [|done|done|apply load_store].
  rewrite take_ge by (rewrite length_app, length_replicate; lia). by apply member_padded.
Qed.

Lemma setgroups_roundtrip_witness :
  wp (setgroups 2 0x7f008000;; getgroups 16 0x7f009000;; groupmember 7)
    (λ r s', r = true ∧ u_error (u s') = 0 ∧ u_rval (u s') = 2 ∧ load_words (umem s') 0x7f009000 2 = [5; 7])
    ((ex_kern 0)<|umem := {[ 0x7f008000 := 5; 0x7f008004 := 7 ]}|>).
Proof.
  refine (setgroups_roundtrip ((ex_kern 0)<|umem := {[ 0x7f008000 := 5; 0x7f008004 := 7 ]}|>)
    0x7f008000 0x7f009000 16 [5; 7] 7 _ _ _ _ _ _ _ _ _); try reflexivity.
  - simpl. unfold NGROUPS. lia.
  - repeat constructor; done.
  - simpl. lia.
Defined.
