(* ===== verification/Synch.v ===== *)
(** * Sleep queues, the run queue and priorities

    kernel/kern_synch.c: [wakeup], [unsleep], [setrun], [setpri],
    [updatepri], [setrq], [remrq], [endtsleep] and the choice [swtch] makes.
    Processes that wait for an event hang, by [p_link], on one of the sleep
    queues [slpque]; runnable processes in core hang on [qs]. *)
From stdpp Require Import base tactics list option strings numbers gmap.
From S2P Require Import Prelude Proc.
Open Scope Z_scope.

Definition PUSER : Z := 50.
Definition PZERO : Z := 25.
Definition NZERO : Z := 0.

Definition HASH (x : Z) : nat := Z.to_nat (Z.land (Z.shiftr x 5) (Z.of_nat SQSIZE - 1)).

Definition incr_runrun : M unit := modify (λ s, s<|runrun ::= λ r, s32 (r + 1)|>).

Section Synch.
Context `{Layout}.

(** ** Priorities *)
Definition setpri (pp : nat) : M Z :=
  q ← at_ pp;
  let p := Z.land (p_cpu q) 255 / 16 in
  let p := p + (PUSER + p_nice q) in
  let p := if 127 <? p then 127 else p in
  c ← gets curpri;
  (if p <? c then incr_runrun else mret tt);;
  setp pp (λ q, q<|p_pri := s8 p|>);;
  mret p.

(** [while (a && --p->p_slptime) a = (SCHMAG * a);] with SCHMAG defined as
    [8/10], so that the new value is [(8/10 * a)]. *)
Fixpoint updatepri_loop (fuel : nat) (p : nat) (a : Z) : M Z :=
  match fuel with
  | O => lift Spin
  | S fuel =>
      if a =? 0 then mret a
      else
        setp p (λ q, q<|p_slptime ::= λ t, s8 (t - 1)|>);;
        q ← at_ p;
        if p_slptime q =? 0 then mret a
        else updatepri_loop fuel p (8 `quot` 10 * a)
  end.
Definition updatepri (p : nat) : M unit :=
  q ← at_ p;
  let a := Z.land (p_cpu q) 255 in
  setp p (λ q, q<|p_slptime ::= λ t, s8 (t - 1)|>);;
  a ← updatepri_loop 256 p a;
  let a := if a <? 0 then 0 else a in
  let a := if 255 <? a then 255 else a in
  setp p (λ q, q<|p_cpu := s8 a|>);;
  setpri p;; mret tt.

(** ** Queues

    The places a pointer into a sleep queue can point to: the head of the
    queue [h], or the [p_link] of a process. *)
Inductive lref := QHead (h : nat) | QLink (i : nat).

Definition load_ref (q : lref) : M (option nat) :=
  match q with
  | QHead h => l ← gets slpque; lift (rd l h)
  | QLink i => p ← at_ i; mret (p_link p)
  end.
Definition store_ref (q : lref) (x : option nat) : M unit :=
  match q with
  | QHead h => l ← gets slpque; l ← lift (wr l h x); modify (λ s, s<|slpque := l|>)
  | QLink i => setp i (λ p, p<|p_link := x|>)
  end.

(** [while ( *hp != p) hp = &( *hp)->p_link; *hp = p->p_link;] *)
Fixpoint unsleep_loop (fuel : nat) (hp : lref) (p : nat) : M unit :=
  match fuel with
  | O => lift Spin
  | S fuel =>
      x ← load_ref hp;
      match x with
      | None => lift Wild
      | Some i => if (i =? p)%nat then q ← at_ p; store_ref hp (p_link q) else unsleep_loop fuel (QLink i) p
      end
  end.
Definition unsleep (p : nat) : M unit :=
  q ← at_ p;
  if negb (p_wchan q =? 0) then
    n ← gets (λ s, length (procs s));
    unsleep_loop n (QHead (HASH (p_wchan q))) p;;
    setp p (λ q, q<|p_wchan := 0|>)
  else mret tt.

Definition setrq (p : nat) : M unit :=
  q ← gets qs;
  setp p (λ x, x<|p_link := q|>);;
  modify (λ s, s<|qs := Some p|>).

Fixpoint remrq_loop (fuel : nat) (q : option nat) (p : nat) : M unit :=
  match q with
  | None => panic "remrq"
  | Some i =>
      match fuel with
      | O => lift Spin
      | S fuel =>
          x ← at_ i;
          if decide (p_link x = Some p) then y ← at_ p; setp i (λ x, x<|p_link := p_link y|>)
          else remrq_loop fuel (p_link x) p
      end
  end.
Definition remrq (p : nat) : M unit :=
  q ← gets qs;
  if decide (q = Some p) then x ← at_ p; modify (λ s, s<|qs := p_link x|>)
  else n ← gets (λ s, length (procs s)); remrq_loop n q p.

(** ** Waking up *)

(** [if (runout != 0) { runout = 0; wakeup(&runout); }] *)
Definition wake_swapper (nested : M unit) : M unit :=
  r ← gets runout;
  if negb (r =? 0) then modify (λ s, s<|runout := 0|>);; nested else mret tt.

(** The expansion of [setrun] in [wakeup]. *)
Definition wakeup_run (nested : M unit) (p : nat) : M unit :=
  x ← at_ p;
  (if 1 <? p_slptime x then updatepri p else mret tt);;
  setp p (λ x, x<|p_slptime := 0|>);;
  setp p (λ x, x<|p_stat := SRUN|>);;
  x ← at_ p;
  (if has (p_flag x) SLOAD then setrq p else mret tt);;
  incr_runrun;;
  x ← at_ p;
  if negb (has (p_flag x) SLOAD) then wake_swapper nested else mret tt.

(** The loop of [wakeup]: [q] is the pointer into the queue [h]. *)
Fixpoint wakeup_loop (fuel : nat) (nested : M unit) (chan : Z) (h : nat) (q : lref) : M unit :=
  match fuel with
  | O => lift Spin
  | S fuel =>
      r ← load_ref q;
      match r with
      | None => mret tt
      | Some p =>
          x ← at_ p;
          if negb (p_stat x =? SSLEEP) && negb (p_stat x =? SSTOP) then panic "wakeup"
          else if p_wchan x =? chan then
            setp p (λ x, x<|p_wchan := 0|>);;
            x ← at_ p;
            store_ref q (p_link x);;
            x ← at_ p;
            if p_stat x =? SSLEEP then
              wakeup_run nested p;;
              wakeup_loop fuel nested chan h (QHead h)
            else
              setp p (λ x, x<|p_slptime := 0|>);;
              wakeup_loop fuel nested chan h q
          else wakeup_loop fuel nested chan h (QLink p)
      end
  end.

(** [wakeup] calls itself for the swapper's channel; [depth] bounds that
    recursion. *)
Fixpoint wakeup_rec (depth : nat) (chan : Z) : M unit :=
  match depth with
  | O => lift Spin
  | S depth =>
      n ← gets (λ s, length (procs s));
      wakeup_loop (S n * S n) (wakeup_rec depth runout_addr) chan (HASH chan) (QHead (HASH chan))
  end.
Definition wakeup (chan : Z) : M unit := wakeup_rec 2 chan.

(** [setrun] after its switch: the process, off every queue, is made
    runnable. *)
Definition setrun_tail (p : nat) : M unit :=
  q ← at_ p;
  (if 1 <? p_slptime q then updatepri p else mret tt);;
  setp p (λ q, q<|p_stat := SRUN|>);;
  q ← at_ p;
  (if has (p_flag q) SLOAD then setrq p else mret tt);;
  q ← at_ p;
  c ← gets curpri;
  (if p_pri q <? c then incr_runrun else mret tt);;
  q ← at_ p;
  if negb (has (p_flag q) SLOAD) then wake_swapper (wakeup runout_addr) else mret tt.

Definition setrun (p : nat) : M unit :=
  q ← at_ p;
  (if (p_stat q =? SSTOP) || (p_stat q =? SSLEEP) then unsleep p
   else if p_stat q =? SIDL then mret tt
   else panic "setrun");;
  setrun_tail p.

Definition endtsleep (p : nat) : M unit :=
  q ← at_ p;
  if negb (p_wchan q =? 0) then
    (if p_stat q =? SSLEEP then setrun p else unsleep p);;
    setp p (λ q, q<|p_flag ::= λ f, Z.lor f P_TIMEOUT|>)
  else mret tt.

(** ** Choosing the next process

    The search loop of [swtch]: [pp], [pq] are the best process so far and
    its predecessor, [q] the predecessor of [p], [n] the best priority. *)
Fixpoint swtch_scan (fuel : nat) (p pp pq q : option nat) (n : Z) : M (option nat * option nat * Z) :=
  match p with
  | None => mret (pp, pq, n)
  | Some i =>
      match fuel with
      | O => lift Spin
      | S fuel =>
          x ← at_ i;
          if has (p_flag x) SLOAD && (p_pri x <? n)
          then swtch_scan fuel (p_link x) (Some i) q (Some i) (p_pri x)
          else swtch_scan fuel (p_link x) pp pq (Some i) n
      end
  end.

(** From [loop:] to the [longjmp]: the process that is resumed and whether
    its registers are in the swap save area, or [None] if the processor
    idles. *)
Definition swtch_pick : M (option (nat * bool)) :=
  modify (λ s, s<|noproc := 0|>);;
  modify (λ s, s<|runrun := 0|>);;
  k ← gets (λ s, length (procs s));
  h ← gets qs;
  '(pp, pq, n) ← swtch_scan k h None None None 128;
  match pp with
  | None => mret None
  | Some p =>
      x ← at_ p;
      match pq with
      | Some j => setp j (λ y, y<|p_link := p_link x|>)
      | None => modify (λ s, s<|qs := p_link x|>)
      end;;
      modify (λ s, s<|curpri := n|>);;
      x ← at_ p;
      setp p (λ y, y<|p_flag ::= λ f, bic f SSWAP|>);;
      mret (Some (p, has (p_flag x) SSWAP))
  end.
End Synch.

(** ** Priorities: what the routines compute *)
Definition pri_of (cpu nice : Z) : Z :=
  let p := Z.land cpu 255 / 16 + (PUSER + nice) in if 127 <? p then 127 else p.
Definition bump (b : bool) (r : Z) : Z := if b then s32 (r + 1) else r.

(** The processor usage [updatepri] leaves: the old one after two seconds of
    sleep, nothing after more. *)
Definition usage_after (p : proc) : Z :=
  let a := Z.land (p_cpu p) 255 in if p_slptime p =? 2 then a else 0.
Definition updated (p : proc) : proc :=
  p<|p_slptime := if Z.land (p_cpu p) 255 =? 0 then p_slptime p - 1 else p_slptime p - 2|>
   <|p_cpu := s8 (usage_after p)|><|p_pri := s8 (pri_of (s8 (usage_after p)) (p_nice p))|>.

Section Pri.
Context `{Layout}.
Implicit Types (s : kern).

Lemma procs_put_id s i p : procs s !! i = Some p → s<|procs := <[i := p]> (procs s)|> = s.
Proof. intros Hp. rewrite list_insert_id by done. by destruct s. Qed.

Lemma wp_setpri s i p (Q : Z → kern → Prop) :
  procs s !! i = Some p →
  Q (pri_of (p_cpu p) (p_nice p))
    (s<|procs := <[i := p<|p_pri := s8 (pri_of (p_cpu p) (p_nice p))|>]> (procs s)|>
      <|runrun ::= bump (pri_of (p_cpu p) (p_nice p) <? curpri s)|>) →
  wp (setpri i) Q s.
Proof.
  intros Hp HQ. unfold setpri. wp_go. eapply wp_at; [done|]. fold (pri_of (p_cpu p) (p_nice p)) in *. wp_go.
  unfold bump in HQ. destruct (_ <? curpri s); unfold incr_runrun; wp_go; (eapply wp_setp; [done|]); by wp_go.
Qed.

Lemma land_byte z : 0 ≤ Z.land z 255 < 256.
Proof. change 255 with (Z.ones 8). rewrite Z.land_ones by lia. apply Z.mod_pos_bound. lia. Qed.

Lemma wp_updatepri_loop s i p (Q : Z → kern → Prop) a n :
  procs s !! i = Some p → 0 ≤ a < 256 → 1 ≤ p_slptime p ≤ 126 →
  Q (if p_slptime p =? 1 then a else 0)
    (s<|procs := <[i := p<|p_slptime := if a =? 0 then p_slptime p else p_slptime p - 1|>]> (procs s)|>) →
  wp (updatepri_loop (S (S n)) i a) Q s.
Proof.
  intros Hp Ha Hs HQ. cbn [updatepri_loop].
  destruct (Z.eqb_spec a 0) as [->|Hne].
  - wp_go. replace (if _ =? 1 then 0 else 0) with 0 in HQ by (by destruct (_ =? 1)).
    change (0 =? 0) with true in HQ. cbv iota in HQ.
    assert (E : p<|p_slptime := p_slptime p|> = p) by (by destruct p).
    by rewrite E, procs_put_id in HQ.
  - assert (E8 : s8 (p_slptime p - 1) = p_slptime p - 1) by (apply s8_id; lia).
    wp_go. eapply wp_setp; [done|]. wp_go.
    eapply wp_at; [fields; apply list_lookup_insert_eq; by eapply lookup_lt_Some|].
    change (p_slptime (p<|p_slptime ::= λ t, s8 (t - 1)|>)) with (s8 (p_slptime p - 1)).
    assert (Ep : p<|p_slptime ::= λ t, s8 (t - 1)|> = p<|p_slptime := p_slptime p - 1|>)
      by (unfold field_map; by rewrite E8).
    rewrite Ep, E8. clear Ep E8. destruct (decide (p_slptime p = 1)) as [E|E].
    + rewrite (proj2 (Z.eqb_eq (p_slptime p - 1) 0)) by lia. wp_go.
      by rewrite (proj2 (Z.eqb_eq (p_slptime p) 1)) in HQ by lia.
    + rewrite (proj2 (Z.eqb_neq (p_slptime p - 1) 0)) by lia.
      change (8 `quot` 10 * a) with 0. cbn [updatepri_loop].
      change (0 =? 0) with true. cbv iota. wp_go.
      by rewrite (proj2 (Z.eqb_neq (p_slptime p) 1)) in HQ by lia.
Qed.

Lemma wp_updatepri s i p (Q : unit → kern → Prop) :
  procs s !! i = Some p → 1 < p_slptime p ≤ 127 →
  Q tt (s<|procs := <[i := updated p]> (procs s)|>
         <|runrun ::= bump (pri_of (s8 (usage_after p)) (p_nice p) <? curpri s)|>) →
  wp (updatepri i) Q s.
Proof.
  intros Hp Hs HQ. assert (Hlt : (i < length (procs s))%nat) by (by eapply lookup_lt_Some).
  pose proof (land_byte (p_cpu p)) as Hb.
  unfold updatepri. wp_go. eapply wp_at; [done|]. wp_go. eapply wp_setp; [done|]. wp_go.
  change 256%nat with (S (S 254)). eapply wp_updatepri_loop; [fields; by apply list_lookup_insert_eq|done|fields; rewrite s8_id by lia; lia|].
  assert (E8 : s8 (p_slptime p - 1) = p_slptime p - 1) by (apply s8_id; lia).
  fields. rewrite list_insert_insert_eq, !E8. wp_go.
  eapply wp_setp; [fields; by apply list_lookup_insert_eq|]. wp_go. fields. rewrite list_insert_insert_eq.
  eapply wp_setpri; [fields; by apply list_lookup_insert_eq|]. wp_go. fields. rewrite list_insert_insert_eq.
  assert (E : (if p_slptime p - 1 =? 1 then Z.land (p_cpu p) 255 else 0) = usage_after p).
  { unfold usage_after. destruct (Z.eqb_spec (p_slptime p - 1) 1), (Z.eqb_spec (p_slptime p) 2); lia. }
  rewrite E. assert (0 ≤ usage_after p < 256) by (unfold usage_after; destruct (_ =? 2); lia).
  rewrite !(proj2 (Z.ltb_ge (usage_after p) 0)), !(proj2 (Z.ltb_ge 255 (usage_after p))) by lia.
  replace (p_slptime p - 1 - 1) with (p_slptime p - 2) by lia. exact HQ.
Qed.
End Pri.

(** ** The queues

    [links] are the pointers that make the queues, [info] is the rest of the
    process table.  Routines that work on the queues change the one and leave
    the other alone. *)
Definition links (s : kern) : list (option nat) := p_link <$> procs s.
Definition nolink (p : proc) : proc := p<|p_link := None|>.
Definition info (s : kern) : list proc := nolink <$> procs s.

(** The run queue is [rq] and the sleep queues are [sq], without sharing. *)
Record lists_ok (s : kern) (rq : list nat) (sq : list (list nat)) : Prop := ListsOk {
  l_run : lseg id (links s) (qs s) rq None;
  l_slp : Forall2 (λ hd l, lseg id (links s) hd l None) (slpque s) sq;
  l_nodup : NoDup (rq ++ concat sq) }.

(** A process that waits for an event. *)
Definition queued (p : proc) : bool :=
  ((p_stat p =? SSLEEP) || (p_stat p =? SSTOP)) && negb (p_wchan p =? 0).

(** An entry of the table that no process has, or only its exit record. *)
Definition dead (p : proc) : bool := (p_stat p =? 0) || (p_stat p =? SZOMB).

(** Who is on which queue: runnable processes in core on the run queue,
    exactly the waiting processes on the sleep queue of their channel. *)
Record members_ok (ps : list proc) (rq : list nat) (sq : list (list nat)) : Prop := MembersOk {
  m_run : ∀ i, i ∈ rq → ∃ p, ps !! i = Some p ∧ p_stat p = SRUN ∧ has (p_flag p) SLOAD = true;
  m_slp : ∀ h l i, sq !! h = Some l →
    i ∈ l ↔ ∃ p, ps !! i = Some p ∧ queued p = true ∧ HASH (p_wchan p) = h;
  m_len : length sq = SQSIZE;
  m_time : ∀ i p, ps !! i = Some p → dead p = false → 0 ≤ p_slptime p ≤ 127 }.

Definition queues_ok (s : kern) (rq : list nat) (sq : list (list nat)) : Prop :=
  lists_ok s rq sq ∧ members_ok (info s) rq sq.

(** The pointer that reaches the end of [pre] in the queue [h]. *)
Definition qref (h : nat) (pre : list nat) : lref :=
  match last pre with None => QHead h | Some j => QLink j end.

Section Queues.
Implicit Types (s : kern) (rq : list nat) (sq : list (list nat)).

Lemma links_put s l i p : links (s<|procs := <[i := p]> l|>) = <[i := p_link p]> (p_link <$> l).
Proof. unfold links. fields. apply list_fmap_insert. Qed.
Lemma info_put s l i p : info (s<|procs := <[i := p]> l|>) = <[i := nolink p]> (nolink <$> l).
Proof. unfold info. fields. apply list_fmap_insert. Qed.
Lemma links_lookup s i p : procs s !! i = Some p → links s !! i = Some (p_link p).
Proof. intros Hi. unfold links. by rewrite list_lookup_fmap, Hi. Qed.
Lemma info_lookup s i p : procs s !! i = Some p → info s !! i = Some (nolink p).
Proof. intros Hi. unfold info. by rewrite list_lookup_fmap, Hi. Qed.
Lemma links_put_same s i p p0 :
  procs s !! i = Some p0 → p_link p = p_link p0 → links (s<|procs := <[i := p]> (procs s)|>) = links s.
Proof.
  intros Hi Hl. rewrite links_put, Hl. apply list_insert_id. by apply links_lookup.
Qed.
Lemma info_put_same s i p p0 :
  procs s !! i = Some p0 → nolink p = nolink p0 → info (s<|procs := <[i := p]> (procs s)|>) = info s.
Proof.
  intros Hi Hl. rewrite info_put, Hl. apply list_insert_id. by apply info_lookup.
Qed.
Lemma links_length s : length (links s) = length (procs s).
Proof. apply length_fmap. Qed.
Lemma info_length s : length (info s) = length (procs s).
Proof. apply length_fmap. Qed.
Lemma info_lookup_inv s i p : info s !! i = Some p → ∃ q, procs s !! i = Some q ∧ p = nolink q.
Proof. unfold info. rewrite list_lookup_fmap. destruct (procs s !! i); naive_solver. Qed.

Lemma lists_ok_same s s' rq sq :
  links s' = links s → qs s' = qs s → slpque s' = slpque s → lists_ok s rq sq → lists_ok s' rq sq.
Proof. intros E1 E2 E3 [? ? ?]. by split; rewrite ?E1, ?E2, ?E3. Qed.

(** Changing one link leaves the queues the process is not on. *)
Lemma lseg_link_ne (L L' : list (option nat)) p l q j :
  (∀ i, i ≠ j → L' !! i = L !! i) → j ∉ l → lseg id L p l q → lseg id L' p l q.
Proof. intros HL Hj. apply lseg_links. intros i Hi. rewrite HL; [done|]. intros ->. done. Qed.

Lemma slp_link_ne (L L' : list (option nat)) hs ls j :
  (∀ i, i ≠ j → L' !! i = L !! i) → j ∉ concat ls →
  Forall2 (λ hd l, lseg id L hd l None) hs ls → Forall2 (λ hd l, lseg id L' hd l None) hs ls.
Proof.
  intros HL Hj. induction 1 as [|hd l hs ls Hl _ IH]; [constructor|]. simpl in Hj.
  apply not_elem_of_app in Hj as [Hj1 Hj2]. constructor; [by eapply lseg_link_ne|auto].
Qed.

Lemma concat_middle {A} (sa sb : list (list A)) l : concat (sa ++ l :: sb) = concat sa ++ l ++ concat sb.
Proof. by rewrite concat_app. Qed.

Lemma NoDup_pick (a b pre post c : list nat) j i :
  NoDup (a ++ b ++ ((pre ++ [j]) ++ i :: post) ++ c) →
  j ∉ a ∧ j ∉ b ∧ j ∉ c ∧ j ∉ pre ∧ j ∉ post ∧ j ≠ i.
Proof.
  assert (E : a ++ b ++ ((pre ++ [j]) ++ i :: post) ++ c ≡ₚ j :: (a ++ b ++ pre ++ i :: post ++ c)).
  { rewrite <- !app_assoc. simpl. rewrite !app_assoc. symmetry. apply Permutation_middle. }
  rewrite E, NoDup_cons, !not_elem_of_app, not_elem_of_cons, not_elem_of_app. tauto.
Qed.

(** A pointer into a queue reads the next entry. *)
Lemma load_qref s rq sa sb pre rest (Q : option nat → kern → Prop) :
  lists_ok s rq (sa ++ (pre ++ rest) :: sb) → Q (head rest) s → wp (load_ref (qref (length sa) pre)) Q s.
Proof.
  intros [_ Hs _] HQ. apply Forall2_app_inv_r in Hs as (ha & hb & Ha & Hb & Hh).
  apply Forall2_cons_inv_r in Hb as (hd & hb' & Hl & Hb & ->).
  pose proof (Forall2_length _ _ _ Ha) as Hlen.
  apply lseg_app in Hl as (r & Hl & Hr). pose proof (lseg_head _ _ _ _ Hr) as Er.
  destruct pre as [|j pre _] using rev_ind.
  - simpl in Hl. subst hd. unfold qref. simpl. wp_go. rewrite Hh. eapply wp_lift; [by apply rd_middle|].
    by rewrite Er.
  - unfold qref. rewrite last_snoc. simpl. apply lseg_app in Hl as (r' & _ & (-> & y & Hy & Hn)).
    unfold links in Hy. rewrite list_lookup_fmap in Hy. apply fmap_Some in Hy as (p & Hp & ->).
    wp_go. eapply wp_at; [done|]. wp_go. simpl in Hn. unfold id in Hn. by rewrite Hn, Er.
Qed.

(** Storing the successor of an entry through the pointer to it takes the
    entry off its queue. *)
Lemma store_qref s rq sa sb pre i post (Q : unit → kern → Prop) :
  lists_ok s rq (sa ++ (pre ++ i :: post) :: sb) →
  (∀ s', lists_ok s' rq (sa ++ (pre ++ post) :: sb) → info s' = info s →
         s' = s<|procs := procs s'|><|slpque := slpque s'|> → procs s' !! i = procs s !! i → Q tt s') →
  wp (store_ref (qref (length sa) pre) (head post)) Q s.
Proof.
  intros [Hrun Hs Hnd] HQ. apply Forall2_app_inv_r in Hs as (ha & hb & Ha & Hb & Hh).
  apply Forall2_cons_inv_r in Hb as (hd & hb' & Hl & Hb & ->).
  pose proof (Forall2_length _ _ _ Ha) as Hlen.
  apply lseg_app in Hl as (r & Hpre & Hr). destruct Hr as (-> & y & Hy & Hpost). unfold id in Hpost.
  pose proof (lseg_head _ _ _ _ Hpost) as ->.
  assert (Hnd' : NoDup (rq ++ concat (sa ++ (pre ++ post) :: sb))).
  { rewrite concat_middle in *. eapply sublist_NoDup; [done|].
    apply sublist_app; [done|]. apply sublist_app; [done|]. apply sublist_app; [|done].
    apply sublist_app; [done|]. by apply sublist_cons. }
  destruct pre as [|j pre _] using rev_ind.
  - simpl in *. unfold qref. simpl. wp_go. rewrite Hh.
    eapply wp_lift; [by apply wr_middle|]. wp_go. apply HQ.
    + split; fields; [done| |done]. apply Forall2_app; [done|]. by constructor.
    + done.
    + unfold field_map. simpl. done.
    + done.
  - unfold qref. rewrite last_snoc. simpl.
    apply lseg_app in Hpre as (r' & Hp1 & (-> & z & Hz & Hn)).
    pose proof Hz as Hz'. unfold links in Hz'. rewrite list_lookup_fmap in Hz'.
    apply fmap_Some in Hz' as (p & Hp & ->). eapply wp_setp; [done|].
    rewrite concat_middle in Hnd.
    assert (Hj : j ∉ rq ∧ j ∉ concat sa ∧ j ∉ concat sb ∧ j ∉ pre ∧ j ∉ post ∧ j ≠ i).
    { by apply NoDup_pick in Hnd. }
    destruct Hj as (Hj1 & Hj2 & Hj3 & Hj4 & Hj5 & Hj6).
    assert (HL : ∀ k, k ≠ j → links (s<|procs := <[j := p<|p_link := head post|>]> (procs s)|>) !! k = links s !! k).
    { intros k Hk. rewrite links_put. by rewrite list_lookup_insert_ne. }
    apply HQ.
    + split; [by eapply lseg_link_ne| |done]. fields. rewrite Hh. apply Forall2_app; [|constructor].
      * by eapply slp_link_ne.
      * apply lseg_app. exists (head post). split; [|eapply lseg_link_ne; done].
        rewrite links_put. change (p_link (p<|p_link := head post|>)) with (head post).
        eapply lseg_redirect; [|done|done]. apply lseg_app. exists (Some j). split; [done|].
        split; [done|]. eauto.
      * by eapply slp_link_ne.
    + by eapply info_put_same.
    + unfold field_map. simpl. done.
    + fields. by rewrite list_lookup_insert_ne.
Qed.
End Queues.

(** ** The effect of waking processes *)

(** What happens to a waiting process that is woken: a sleeper becomes
    runnable, a stopped process just waits no more. *)
Definition woken (p : proc) : proc :=
  let q := p<|p_wchan := 0|> in
  if p_stat p =? SSLEEP
  then (if 1 <? p_slptime p then updated q else q)<|p_slptime := 0|><|p_stat := SRUN|>
  else q<|p_slptime := 0|>.

Definition bumps (k r : Z) : Z := if k =? 0 then r else s32 (r + k).

(** From [s] to [s'] the waiting processes [W], and no others, were woken. *)
Record woke (s s' : kern) (rq rq' : list nat) (sq sq' : list (list nat)) (W : list nat) : Prop := Woke {
  wk_len : length (info s') = length (info s);
  wk_info : ∀ i p, info s !! i = Some p → info s' !! i = Some (if decide (i ∈ W) then woken p else p);
  wk_wait : ∀ i, i ∈ W → ∃ p, info s !! i = Some p ∧ queued p = true;
  wk_nodup : NoDup W;
  wk_q : queues_ok s' rq' sq';
  wk_rq : ∃ new, rq' = new ++ rq ∧
    ∀ i, i ∈ new ↔ i ∈ W ∧ ∃ p, info s !! i = Some p ∧ p_stat p = SSLEEP ∧ has (p_flag p) SLOAD = true;
  wk_run : ∃ k, runrun s' = bumps k (runrun s) ∧ 0 ≤ k ≤ 2 * Z.of_nat (length W) ∧
    ∀ i p, i ∈ W → info s !! i = Some p → p_stat p = SSLEEP → 1 ≤ k;
  wk_frame : s' = s<|procs := procs s'|><|slpque := slpque s'|><|qs := qs s'|><|runrun := runrun s'|><|runout := runout s'|> }.

Section Woken.
Implicit Types (s : kern) (rq : list nat) (sq : list (list nat)).

Lemma s32_s32 a b : s32 (s32 a + b) = s32 (a + b).
Proof.
  unfold s32. f_equal. replace ((a + 2^31) mod 2^32 - 2^31 + b + 2^31) with ((a + 2^31) mod 2^32 + b) by lia.
  rewrite Z.add_mod_idemp_l by lia. f_equal. lia.
Qed.
Lemma bumps_bumps j k r : 0 ≤ j → 0 ≤ k → bumps j (bumps k r) = bumps (k + j) r.
Proof.
  intros. unfold bumps. destruct (Z.eqb_spec j 0) as [->|], (Z.eqb_spec k 0) as [->|].
  - done.
  - rewrite Z.add_0_r. by rewrite (proj2 (Z.eqb_neq k 0)).
  - by rewrite Z.add_0_l, (proj2 (Z.eqb_neq j 0)).
  - rewrite s32_s32, (proj2 (Z.eqb_neq (k + j) 0)) by lia. f_equal. lia.
Qed.
Lemma bumps_changes k r : 0 < k < 2^32 → - 2^31 ≤ r < 2^31 → bumps k r ≠ r.
Proof.
  intros Hk Hr. unfold bumps. rewrite (proj2 (Z.eqb_neq k 0)) by lia. unfold s32.
  destruct (decide (r + k + 2^31 < 2^32)).
  - rewrite Z.mod_small by lia. lia.
  - rewrite <- (Z.mod_add _ (-1)) by lia. rewrite Z.mod_small by lia. lia.
Qed.
Lemma bump_bumps b r : bump b r = bumps (Z.b2z b) r.
Proof. by destruct b. Qed.

Lemma woken_not_queued p : queued (woken p) = false.
Proof.
  unfold woken, queued. apply andb_false_iff. right.
  destruct (_ =? SSLEEP); [destruct (1 <? _)|]; reflexivity.
Qed.
Lemma nolink_woken p : nolink (woken p) = woken (nolink p).
Proof.
  unfold woken. change (p_stat (nolink p)) with (p_stat p). change (p_slptime (nolink p)) with (p_slptime p).
  destruct (_ =? SSLEEP); [destruct (1 <? _)|]; reflexivity.
Qed.
Lemma woken_slptime p : p_slptime (woken p) = 0.
Proof. unfold woken. by destruct (_ =? SSLEEP); [destruct (1 <? _)|]. Qed.
Lemma woken_flag p : p_flag (woken p) = p_flag p.
Proof. unfold woken. by destruct (_ =? SSLEEP); [destruct (1 <? _)|]. Qed.

Lemma woke_refl s rq sq : queues_ok s rq sq → woke s s rq rq sq sq [].
Proof.
  intros Hq. split; [done|done|by intros i ?%not_elem_of_nil|constructor|done| | |by destruct s].
  - exists []. split; [done|]. intros i. split; [by intros ?%not_elem_of_nil|by intros [?%not_elem_of_nil _]].
  - exists 0. split; [done|]. split; [simpl; lia|]. intros i p ?%not_elem_of_nil. done.
Qed.

Lemma woke_trans s1 s2 s3 rq1 rq2 rq3 sq1 sq2 sq3 W1 W2 :
  woke s1 s2 rq1 rq2 sq1 sq2 W1 → woke s2 s3 rq2 rq3 sq2 sq3 W2 →
  woke s1 s3 rq1 rq3 sq1 sq3 (W1 ++ W2) ∧
  ∀ i p, i ∈ W2 → info s1 !! i = Some p → i ∉ W1 ∧ info s2 !! i = Some p.
Proof.
  intros [A1 A2 A3 AN A4 (n1 & A5 & A5') (k1 & A6 & A7 & A8) A9]
    [B1 B2 B3 BN B4 (n2 & B5 & B5') (k2 & B6 & B7 & B8) B9].
  assert (HD : ∀ i p, i ∈ W2 → info s1 !! i = Some p → i ∉ W1 ∧ info s2 !! i = Some p).
  { intros i p Hi Hp. pose proof (A2 i p Hp) as H2. destruct (B3 i Hi) as (q & Hq & Hqq).
    rewrite H2 in Hq. injection Hq as <-. case_decide as E; [by rewrite woken_not_queued in Hqq|done]. }
  split; [|done]. split.
  - congruence.
  - intros i p Hp. rewrite (B2 i _ (A2 i p Hp)).
    destruct (decide (i ∈ W1)), (decide (i ∈ W2)), (decide (i ∈ W1 ++ W2)); try done; exfalso; set_solver.
  - intros i [Hi|Hi]%elem_of_app; [by apply A3|]. destruct (B3 i Hi) as (q & Hq & Hqq).
    destruct (lookup_lt_is_Some_2 (info s1) i) as [p Hp].
    { rewrite <- A1. by eapply lookup_lt_Some. }
    destruct (HD i p Hi Hp) as [_ E]. simplify_eq. eauto.
  - apply NoDup_app. split_and!; [done| |done]. intros i Hi1 Hi2. destruct (A3 i Hi1) as (p & Hp & _).
    by destruct (HD i p Hi2 Hp).
  - done.
  - exists (n2 ++ n1). split; [by rewrite B5, A5, app_assoc|]. intros i. rewrite !elem_of_app, A5', B5'. split.
    + intros [(Hi & p & Hp & Hx)|(Hi & p & Hp & Hx)]; [|by eauto].
      destruct (lookup_lt_is_Some_2 (info s1) i) as [q Hq].
      { rewrite <- A1. by eapply lookup_lt_Some. }
      destruct (HD i q Hi Hq) as [_ E]. simplify_eq. eauto.
    + intros ([Hi|Hi] & p & Hp & Hx); [by eauto|]. destruct (HD i p Hi Hp) as [_ E]. eauto.
  - exists (k1 + k2). split; [rewrite B6, A6; apply bumps_bumps; lia|]. rewrite length_app. split; [lia|].
    intros i p [Hi|Hi]%elem_of_app Hp Hs; [specialize (A8 i p Hi Hp Hs); lia|].
    destruct (HD i p Hi Hp) as [_ E]. specialize (B8 i p Hi E Hs). lia.
  - rewrite B9, A9. reflexivity.
Qed.
End Woken.

Definition ran (p : proc) : proc :=
  (if 1 <? p_slptime p then updated p else p)<|p_slptime := 0|><|p_stat := SRUN|>.

Section WakeOne.
Context `{Layout}.
Implicit Types (s : kern) (rq : list nat) (sq : list (list nat)) (p x : proc).

(** [s'] is [s] but for the process table, the queues and the flags of the
    scheduler. *)
Definition framed s s' : Prop :=
  s' = s<|procs := procs s'|><|slpque := slpque s'|><|qs := qs s'|><|runrun := runrun s'|><|runout := runout s'|>.

Lemma framed_refl s : framed s s.
Proof. unfold framed. by destruct s. Qed.
Lemma framed_trans s1 s2 s3 : framed s1 s2 → framed s2 s3 → framed s1 s3.
Proof. unfold framed. intros E1 E2. rewrite E2, E1. reflexivity. Qed.

Lemma wp_setrq s rq sq i x (Q : unit → kern → Prop) :
  lists_ok s rq sq → procs s !! i = Some x → i ∉ rq ++ concat sq →
  (∀ s', lists_ok s' (i :: rq) sq → info s' = info s → (∃ y, procs s' !! i = Some y ∧ nolink y = nolink x) →
         s' = s<|procs := procs s'|><|qs := qs s'|> → Q tt s') →
  wp (setrq i) Q s.
Proof.
  intros [Hr Hs Hn] Hx Hi HQ. unfold setrq. wp_go. eapply wp_setp; [done|]. wp_go.
  assert (Hlt : (i < length (links s))%nat) by (rewrite links_length; by eapply lookup_lt_Some).
  assert (HL : ∀ k, k ≠ i → links (s<|procs := <[i := x<|p_link := qs s|>]> (procs s)|>) !! k = links s !! k).
  { intros k Hk. rewrite links_put. by rewrite list_lookup_insert_ne. }
  apply not_elem_of_app in Hi as [Hi1 Hi2]. apply HQ.
  - split.
    + split; [done|]. exists (qs s). split.
      * change (links (s<|procs := <[i := x<|p_link := qs s|>]> (procs s)|>) !! i = Some (qs s)).
        rewrite links_put. by apply list_lookup_insert_eq.
      * by eapply lseg_link_ne.
    + eapply slp_link_ne; done.
    + constructor; [|done]. by apply not_elem_of_app.
  - by eapply (info_put_same s).
  - exists (x<|p_link := qs s|>). split; [|done]. fields. apply list_lookup_insert_eq.
    by rewrite links_length in Hlt.
  - reflexivity.
Qed.

Lemma nolink_ran x : nolink (ran x) = ran (nolink x).
Proof. unfold ran. change (p_slptime (nolink x)) with (p_slptime x). destruct (1 <? _); reflexivity. Qed.

(** The expansion of [setrun]: the process becomes runnable. *)
Lemma wp_wakeup_run nested s rq sq i x (Q : unit → kern → Prop) :
  lists_ok s rq sq → procs s !! i = Some x → i ∉ rq ++ concat sq → 0 ≤ p_slptime x ≤ 127 →
  (∀ s' k, lists_ok s' (if has (p_flag x) SLOAD then i :: rq else rq) sq →
     info s' = <[i := nolink (ran x)]> (info s) → runrun s' = bumps k (runrun s) → 1 ≤ k ≤ 2 →
     runout s' = runout s → framed s s' →
     if has (p_flag x) SLOAD then Q tt s' else wp (wake_swapper nested) Q s') →
  wp (wakeup_run nested i) Q s.
Proof.
  intros Hl Hx Hi Ht HQ. assert (Hlt : (i < length (procs s))%nat) by (by eapply lookup_lt_Some).
  unfold wakeup_run. wp_go. eapply wp_at; [done|].
  set (K1 := λ r, s<|procs := <[i := ran x]> (procs s)|><|runrun := r|>).
  assert (HK : ∀ r, lists_ok (K1 r) rq sq).
  { intros r. apply (lists_ok_same s); [|done|done|done]. apply (links_put_same s _ _ x Hx).
    unfold ran. by destruct (1 <? _). }
  assert (HI : ∀ r, info (K1 r) = <[i := nolink (ran x)]> (info s)) by (intros r; apply (info_put s)).
  assert (HP : ∀ r, procs (K1 r) !! i = Some (ran x)) by (intros r; by apply list_lookup_insert_eq).
  (* the state before the process is queued *)
  assert (HS : ∀ k, 0 ≤ k ≤ 1 →
    wp (x ← at_ i; (if has (p_flag x) SLOAD then setrq i else mret tt);; incr_runrun;;
        x ← at_ i; if negb (has (p_flag x) SLOAD) then wake_swapper nested else mret tt) Q (K1 (bumps k (runrun s)))).
  { intros k Hk. wp_go. eapply wp_at; [apply HP|].
    assert (Ef : p_flag (ran x) = p_flag x) by (unfold ran; by destruct (1 <? _)). rewrite Ef.
    assert (Eb : s32 (bumps k (runrun s) + 1) = bumps (k + 1) (runrun s))
      by (rewrite <- bumps_bumps by lia; reflexivity).
    destruct (has (p_flag x) SLOAD) eqn:EL; try rewrite EL in HQ; simpl in HQ.
    - wp_go. eapply wp_setrq; [apply HK|apply HP|done|].
      intros s' Hl' Hi' (y & Hy & Ey) Es'. unfold incr_runrun. wp_go. eapply wp_at; [done|].
      assert (Ef' : p_flag y = p_flag x) by (change (p_flag (nolink y) = p_flag x); by rewrite Ey).
      rewrite Ef', EL. simpl. wp_go. apply (HQ _ (k + 1)).
      + apply (lists_ok_same s'); [done|done|done|exact Hl'].
      + etransitivity; [|apply HI]. exact Hi'.
      + rewrite <- Eb. fields. rewrite Es'. reflexivity.
      + lia.
      + rewrite Es'. reflexivity.
      + unfold framed. rewrite Es'. reflexivity.
    - unfold incr_runrun. wp_go. eapply wp_at; [apply HP|]. rewrite Ef, EL. simpl. apply (HQ _ (k + 1)).
      + apply (lists_ok_same (K1 (bumps k (runrun s)))); [done|done|done|apply HK].
      + apply HI.
      + rewrite <- Eb. reflexivity.
      + lia.
      + reflexivity.
      + unfold framed. reflexivity. }
  destruct (1 <? p_slptime x) eqn:Et.
  - wp_go. eapply wp_updatepri; [done|apply Z.ltb_lt in Et; lia|]. wp_go.
    eapply wp_setp; [fields; by apply list_lookup_insert_eq|]. wp_go. fields. rewrite list_insert_insert_eq.
    eapply wp_setp; [fields; by apply list_lookup_insert_eq|]. fields. rewrite list_insert_insert_eq.
    set (b := pri_of (s8 (usage_after x)) (p_nice x) <? curpri s).
    assert (HS' : wp _ _ _) by (apply (HS (Z.b2z b)); destruct b; simpl; lia).
    rewrite <- bump_bumps in HS'. unfold K1, ran in HS'. rewrite Et in HS'. exact HS'.
  - wp_go. eapply wp_setp; [done|]. wp_go. fields.
    eapply wp_setp; [fields; by apply list_lookup_insert_eq|]. fields. rewrite list_insert_insert_eq.
    assert (HS' : wp _ _ _) by (apply (HS 0); lia).
    unfold K1, ran in HS'. rewrite Et in HS'. by destruct s.
Qed.
End WakeOne.

(** ** The loop of [wakeup] *)

(** A sleeper on [chan] is not in core, and the swapper waits to be told. *)
Definition calls_swapper (s : kern) (chan : Z) : Prop :=
  runout s ≠ 0 ∧ ∃ i p, info s !! i = Some p ∧ queued p = true ∧ p_wchan p = chan ∧
    p_stat p = SSLEEP ∧ has (p_flag p) SLOAD = false.

Section WakeLoop.
Context `{Layout}.
Implicit Types (s : kern) (rq : list nat) (sq : list (list nat)) (p x : proc).

(** [wakeup chan] woke [W]: all who wait for [chan] and, when the swapper is
    called, all who wait for its channel; nobody else. *)
Record wake_spec (chan : Z) (s s' : kern) (W : list nat) : Prop := WakeSpec {
  ws_all : ∀ i p, info s !! i = Some p → queued p = true → p_wchan p = chan → i ∈ W;
  ws_only : ∀ i p, i ∈ W → info s !! i = Some p →
    p_wchan p = chan ∨ calls_swapper s chan ∧ p_wchan p = runout_addr;
  ws_called : calls_swapper s chan → runout s' = 0 ∧
    ∀ i p, info s !! i = Some p → queued p = true → p_wchan p = runout_addr → i ∈ W;
  ws_quiet : ¬ calls_swapper s chan → runout s' = runout s }.

Lemma NoDup_middle_notin (a b pre post c : list nat) i :
  NoDup (a ++ b ++ (pre ++ i :: post) ++ c) → i ∉ a ++ b ++ (pre ++ post) ++ c.
Proof.
  intros Hnd. assert (E : a ++ b ++ (pre ++ i :: post) ++ c ≡ₚ i :: (a ++ b ++ (pre ++ post) ++ c)).
  { rewrite <- !app_assoc. simpl. rewrite !(app_assoc a), !(app_assoc (a ++ b)). symmetry. apply Permutation_middle. }
  rewrite E in Hnd. by apply NoDup_cons in Hnd as [? _].
Qed.

Lemma queued_nolink p : queued (nolink p) = queued p.
Proof. reflexivity. Qed.

Lemma queued_wchan p : queued p = true → p_wchan p ≠ 0.
Proof. unfold queued. intros [_ H0]%andb_true_iff. by apply negb_true_iff, Z.eqb_neq in H0. Qed.

Lemma members_wake ps rq sa pre i post sb x :
  members_ok ps rq (sa ++ (pre ++ i :: post) :: sb) →
  NoDup (rq ++ concat (sa ++ (pre ++ i :: post) :: sb)) → ps !! i = Some x →
  members_ok (<[i := woken x]> ps)
    (if (p_stat x =? SSLEEP) && has (p_flag x) SLOAD then i :: rq else rq) (sa ++ (pre ++ post) :: sb).
Proof.
  intros [Hr Hs Hl Ht] Hnd Hx. assert (Hlt : (i < length ps)%nat) by (by eapply lookup_lt_Some).
  rewrite concat_middle in Hnd.
  apply NoDup_middle_notin in Hnd. rewrite !not_elem_of_app in Hnd.
  destruct Hnd as (Hi1 & Hi2 & [Hi3 Hi4] & Hi5).
  destruct (Hs (length sa) (pre ++ i :: post) i) as [HA HB]; [by apply list_lookup_middle|].
  destruct HA as (x' & Hx' & Hq & Hh); [set_solver|]. simplify_eq.
  split.
  - assert (HR : ∀ j, j ∈ rq → ∃ p, <[i := woken x]> ps !! j = Some p ∧ p_stat p = SRUN ∧ has (p_flag p) SLOAD = true).
    { intros j Hj. destruct (decide (i = j)) as [->|Hne]; [done|]. rewrite list_lookup_insert_ne by done. auto. }
    destruct (p_stat x =? SSLEEP) eqn:Es, (has (p_flag x) SLOAD) eqn:Ef; simpl; try exact HR.
    intros j [->|Hj]%elem_of_cons; [|by apply HR]. exists (woken x). rewrite list_lookup_insert_eq by done.
    split; [done|]. rewrite woken_flag. split; [|done]. unfold woken. by rewrite Es.
  - intros h l j Hl'. destruct (decide (i = j)) as [<-|Hne].
    + split.
      * intros Hj. destruct (decide (h = length sa)) as [->|Hh'].
        { rewrite list_lookup_middle in Hl' by done. set_solver. }
        assert (Hl2 : (sa ++ (pre ++ i :: post) :: sb) !! h = Some l).
        { by rewrite <- (list_lookup_middle_ne sa sb (pre ++ post) (pre ++ i :: post) h). }
        destruct (proj1 (Hs h l i Hl2) Hj) as (y & Hy & _ & Hh2). simplify_eq.
      * intros (y & Hy & Hy2 & _). rewrite list_lookup_insert_eq in Hy by done. simplify_eq.
        by rewrite woken_not_queued in Hy2.
    + rewrite list_lookup_insert_ne by done. destruct (decide (h = length sa)) as [->|Hh'].
      * rewrite list_lookup_middle in Hl' by done. simplify_eq. rewrite <- (Hs (length sa) (pre ++ i :: post) j)
          by (by apply list_lookup_middle). set_solver.
      * apply Hs. by rewrite <- (list_lookup_middle_ne sa sb (pre ++ post) (pre ++ i :: post) h).
  - rewrite length_app in *. simpl in *. done.
  - intros j p Hj Hdd. destruct (decide (i = j)) as [<-|Hne].
    + rewrite list_lookup_insert_eq in Hj by done. simplify_eq. rewrite woken_slptime. lia.
    + rewrite list_lookup_insert_ne in Hj by done. by eapply Ht.
Qed.

(** Taking an entry off its queue. *)
Lemma wp_unhook {A} s rq sa pre i post sb x (k : proc → M A) (Q : A → kern → Prop) :
  lists_ok s rq (sa ++ (pre ++ i :: post) :: sb) → procs s !! i = Some x →
  (∀ s1, lists_ok s1 rq (sa ++ (pre ++ post) :: sb) →
     info s1 = <[i := nolink (x<|p_wchan := 0|>)]> (info s) → procs s1 !! i = Some (x<|p_wchan := 0|>) →
     runrun s1 = runrun s → runout s1 = runout s → framed s s1 → wp (k (x<|p_wchan := 0|>)) Q s1) →
  wp (setp i (λ x, x<|p_wchan := 0|>);; x ← at_ i; store_ref (qref (length sa) pre) (p_link x);; x ← at_ i; k x) Q s.
Proof.
  intros Hl Hx HQ. assert (Hlt : (i < length (procs s))%nat) by (by eapply lookup_lt_Some).
  apply wp_bind. eapply wp_setp; [done|]. apply wp_bind.
  eapply wp_at; [fields; by apply list_lookup_insert_eq|]. fields.
  set (s0 := s<|procs := <[i := x<|p_wchan := 0|>]> (procs s)|>).
  assert (Hl0 : lists_ok s0 rq (sa ++ (pre ++ i :: post) :: sb)).
  { apply (lists_ok_same s); [by apply (links_put_same s _ _ x)|done|done|done]. }
  assert (Eh : p_link x = head post).
  { destruct Hl as [_ Hs _]. apply Forall2_app_inv_r in Hs as (ha & hb & _ & Hb & _).
    apply Forall2_cons_inv_r in Hb as (hd & hb' & Hl & _).
    apply lseg_app in Hl as (r & _ & (-> & y & Hy & Hp)). rewrite (links_lookup _ _ _ Hx) in Hy. simplify_eq.
    by apply lseg_head in Hp. }
  rewrite Eh. apply wp_bind. eapply store_qref; [exact Hl0|]. intros s1 Hl1 Hi1 E1 Hp1.
  apply wp_bind. eapply wp_at; [rewrite Hp1; unfold s0; fields; by apply list_lookup_insert_eq|].
  apply HQ; [done|rewrite Hi1; apply info_put| | | |].
  - rewrite Hp1. unfold s0. fields. by apply list_lookup_insert_eq.
  - rewrite E1. reflexivity.
  - rewrite E1. reflexivity.
  - unfold framed. rewrite E1. reflexivity.
Qed.

Lemma woken_sleeper x : p_stat x = SSLEEP → ran (x<|p_wchan := 0|>) = woken x.
Proof. intros E. unfold ran, woken. rewrite E. reflexivity. Qed.

(** One waiting process is woken, up to the call of the swapper. *)
Lemma woke_one s s' rq rq' sa pre i post sb x k :
  queues_ok s rq (sa ++ (pre ++ i :: post) :: sb) → procs s !! i = Some x →
  lists_ok s' rq' (sa ++ (pre ++ post) :: sb) → info s' = <[i := nolink (woken x)]> (info s) →
  rq' = (if (p_stat x =? SSLEEP) && has (p_flag x) SLOAD then i :: rq else rq) →
  runrun s' = bumps k (runrun s) → 0 ≤ k ≤ 2 → (p_stat x = SSLEEP → 1 ≤ k) → framed s s' →
  woke s s' rq rq' (sa ++ (pre ++ i :: post) :: sb) (sa ++ (pre ++ post) :: sb) [i].
Proof.
  intros [Hl Hm] Hx Hl' Hi' Erq Er Hk Hk1 Hf. pose proof (info_lookup _ _ _ Hx) as Hix.
  assert (Hlt : (i < length (info s))%nat) by (by eapply lookup_lt_Some).
  split.
  - by rewrite Hi', length_insert.
  - intros j p Hj. rewrite Hi'. destruct (decide (i = j)) as [<-|Hne].
    + rewrite list_lookup_insert_eq by done. rewrite decide_True by set_solver. simplify_eq. by rewrite nolink_woken.
    + rewrite list_lookup_insert_ne by done. by rewrite decide_False by set_solver.
  - intros j ->%list_elem_of_singleton. destruct (m_slp _ _ _ Hm (length sa) (pre ++ i :: post) i) as [HA _];
      [by apply list_lookup_middle|]. destruct HA as (y & Hy & Hq & _); [set_solver|]. eauto.
  - apply NoDup_singleton.
  - split; [done|]. rewrite Hi', nolink_woken, Erq.
    change (p_stat x) with (p_stat (nolink x)). change (p_flag x) with (p_flag (nolink x)).
    apply members_wake; [done|apply Hl|done].
  - exists (if (p_stat x =? SSLEEP) && has (p_flag x) SLOAD then [i] else []). split.
    + rewrite Erq. by destruct (_ && _).
    + intros j. rewrite list_elem_of_singleton. destruct (Z.eqb_spec (p_stat x) SSLEEP) as [Es|Es],
        (has (p_flag x) SLOAD) eqn:Ef; simpl; rewrite ?list_elem_of_singleton, ?elem_of_nil.
      * split; [intros ->; split; [done|]; by eauto|by intros [? _]].
      * split; [done|]. intros (-> & p & Hp & _ & Hp2). simplify_eq.
        change (has (p_flag x) SLOAD = true) in Hp2. congruence.
      * split; [done|]. intros (-> & p & Hp & Hp1 & _). by simplify_eq.
      * split; [done|]. intros (-> & p & Hp & Hp1 & _). by simplify_eq.
  - exists k. split; [done|]. split; [simpl; lia|]. intros j p ->%list_elem_of_singleton Hp Hs. simplify_eq. auto.
  - done.
Qed.

Lemma woke_keep s s' rq rq' sq sq' W i p :
  woke s s' rq rq' sq sq' W → info s !! i = Some p → i ∉ W → info s' !! i = Some p.
Proof. intros Hw Hi HW. rewrite (wk_info _ _ _ _ _ _ _ Hw _ _ Hi). by rewrite decide_False. Qed.
Lemma woke_back s s' rq rq' sq sq' W i p :
  woke s s' rq rq' sq sq' W → info s' !! i = Some p → queued p = true → info s !! i = Some p ∧ i ∉ W.
Proof.
  intros Hw Hi Hq. destruct (lookup_lt_is_Some_2 (info s) i) as [q Hq'].
  { rewrite <- (wk_len _ _ _ _ _ _ _ Hw). by eapply lookup_lt_Some. }
  rewrite (wk_info _ _ _ _ _ _ _ Hw _ _ Hq') in Hi. case_decide; simplify_eq; [by rewrite woken_not_queued in Hq|done].
Qed.

Lemma woke_shrinks s s' rq rq' sq sq' W i h l l' :
  queues_ok s rq sq → woke s s' rq rq' sq sq' W → i ∈ W → i ∈ l →
  sq !! h = Some l → sq' !! h = Some l' → (length l' < length l)%nat.
Proof.
  intros [Hl Hm] Hw Hi Hil Hsq Hsq'. destruct (wk_q _ _ _ _ _ _ _ Hw) as [Hl' Hm'].
  assert (HN : ∀ s0 rq0 sq0 l0, lists_ok s0 rq0 sq0 → sq0 !! h = Some l0 → NoDup l0).
  { intros s0 rq0 sq0 l0 [_ _ Hnd] Hl0. apply NoDup_app in Hnd as (_ & _ & Hnd).
    rewrite <- (take_drop_middle _ _ _ Hl0), concat_middle in Hnd.
    apply NoDup_app in Hnd as (_ & _ & Hnd). by apply NoDup_app in Hnd as (? & _). }
  assert (HS : ∀ j, j ∈ l' → j ∈ l ∧ j ∉ W).
  { intros j Hj. apply (m_slp _ _ _ Hm' _ _ _ Hsq') in Hj as (p & Hp & Hq & Hh).
    destruct (woke_back _ _ _ _ _ _ _ _ _ Hw Hp Hq) as [Hp0 Hj]. split; [|done].
    apply (m_slp _ _ _ Hm _ _ _ Hsq). eauto. }
  assert (HSub : (i :: l') ⊆+ l).
  { apply NoDup_submseteq.
    - constructor; [|by eapply HN]. intros Hj. by destruct (HS i Hj).
    - intros j [->|Hj]%elem_of_cons; [done|]. by apply HS. }
  apply submseteq_length in HSub. simpl in HSub. lia.
Qed.

(** Nobody on the queue waits for [chan] any more. *)
Lemma wake_spec_end chan s rq sa l sb :
  queues_ok s rq (sa ++ l :: sb) → length sa = HASH chan →
  (∀ j p, j ∈ l → info s !! j = Some p → p_wchan p ≠ chan) → wake_spec chan s s [].
Proof.
  intros [_ Hm] Hh Hno.
  assert (HA : ∀ i p, info s !! i = Some p → queued p = true → p_wchan p = chan → False).
  { intros i p Hp Hq Hc. apply (Hno i p); [|done|done].
    apply (m_slp _ _ _ Hm (length sa)); [by apply list_lookup_middle|]. exists p. by rewrite Hc. }
  assert (HC : ¬ calls_swapper s chan) by (intros (_ & i & p & Hp & Hq & Hc & _); by eapply HA).
  split; [intros i p Hp Hq Hc; exfalso; by eapply HA|by intros i p ?%not_elem_of_nil|done|done].
Qed.

Section Step.
Context (chan : Z) (s s1 : kern) (rq rq1 : list nat) (sq sq1 : list (list nat)) (i : nat) (x : proc).
Hypothesis Hw : woke s s1 rq rq1 sq sq1 [i].
Hypothesis Hx : info s !! i = Some x.
Hypothesis Hc : p_wchan x = chan.
Hypothesis Hro : runout s1 = runout s.

Lemma woke_other j p : j ≠ i → info s !! j = Some p ↔ info s1 !! j = Some p.
Proof.
  intros Hj. split.
  - intros Hp. eapply woke_keep; [done|done|]. by rewrite list_elem_of_singleton.
  - intros Hp. destruct (lookup_lt_is_Some_2 (info s) j) as [q Hq].
    { rewrite <- (wk_len _ _ _ _ _ _ _ Hw). by eapply lookup_lt_Some. }
    rewrite (woke_keep _ _ _ _ _ _ _ _ _ Hw Hq) in Hp; [by simplify_eq|]. by rewrite list_elem_of_singleton.
Qed.

(** The process was in core, or the swapper does not wait. *)
Lemma wake_spec_step s2 rq2 sq2 W :
  ¬ (p_stat x = SSLEEP ∧ has (p_flag x) SLOAD = false ∧ runout s ≠ 0) →
  woke s1 s2 rq1 rq2 sq1 sq2 W → wake_spec chan s1 s2 W → wake_spec chan s s2 (i :: W).
Proof.
  intros Hn Hw2 [S1 S2 S3 S4].
  assert (HC : calls_swapper s chan ↔ calls_swapper s1 chan).
  { unfold calls_swapper. rewrite Hro. split; intros (Hr & j & p & Hp & Hq & Hj & Hs & Hf).
    - split; [done|]. destruct (decide (j = i)) as [->|Hne]; [simplify_eq; tauto|].
      exists j, p. by rewrite <- woke_other.
    - split; [done|]. destruct (woke_back _ _ _ _ _ _ _ _ _ Hw Hp Hq) as [Hp0 _]. by exists j, p. }
  split.
  - intros j p Hp Hq Hj. destruct (decide (j = i)) as [->|Hne]; [apply list_elem_of_here|].
    apply list_elem_of_further. eapply S1; [by apply woke_other|done|done].
  - intros j p [->|Hj]%elem_of_cons Hp; [simplify_eq; by left|]. rewrite HC.
    destruct (woke_trans _ _ _ _ _ _ _ _ _ _ _ Hw Hw2) as [_ HD]. destruct (HD j p Hj Hp) as [_ Hp1]. eauto.
  - rewrite HC. intros HC1. destruct (S3 HC1) as [? S3']. split; [done|]. intros j p Hp Hq Hj.
    destruct (decide (j = i)) as [->|Hne]; [apply list_elem_of_here|].
    apply list_elem_of_further. eapply S3'; [by apply woke_other|done|done].
  - rewrite HC, <- Hro. done.
Qed.

(** The swapper was called for the process. *)
Lemma wake_spec_called s2 s3 rq2 rq3 sq2 sq3 W2 W3 :
  p_stat x = SSLEEP → has (p_flag x) SLOAD = false → runout s ≠ 0 → queued x = true →
  woke (s1<|runout := 0|>) s2 rq1 rq2 sq1 sq2 W2 → wake_spec runout_addr (s1<|runout := 0|>) s2 W2 →
  woke s2 s3 rq2 rq3 sq2 sq3 W3 → wake_spec chan s2 s3 W3 → wake_spec chan s s3 (i :: W2 ++ W3).
Proof.
  intros Hs Hf Hr Hq Hw2 [S1 S2 _ S4] Hw3 [T1 T2 _ T4].
  assert (HC : calls_swapper s chan) by (split; [done|]; by exists i, x).
  assert (E2 : runout s2 = 0) by (apply S4; by intros [? _]).
  assert (E3 : runout s3 = 0) by (rewrite T4; [done|]; by intros [? _]).
  assert (HI : ∀ j p, j ≠ i → info s !! j = Some p → info (s1<|runout := 0|>) !! j = Some p).
  { intros j p Hj Hp. by apply woke_other. }
  split.
  - intros j p Hp Hqp Hj. destruct (decide (j = i)) as [->|Hne]; [apply list_elem_of_here|].
    apply list_elem_of_further, elem_of_app. destruct (decide (j ∈ W2)) as [|Hn]; [by left|right].
    eapply T1; [|done|done]. eapply woke_keep; [exact Hw2|by apply HI|done].
  - intros j p [->|[Hj|Hj]%elem_of_app]%elem_of_cons Hp; [simplify_eq; by left|right|left].
    + split; [done|]. destruct (wk_wait _ _ _ _ _ _ _ Hw2 j Hj) as (q & Hq1 & Hq2).
      destruct (woke_back _ _ _ _ _ _ _ _ _ Hw Hq1 Hq2) as [Hp0 _]. simplify_eq.
      destruct (S2 j p Hj Hq1) as [?|[[? _] _]]; done.
    + destruct (wk_wait _ _ _ _ _ _ _ Hw3 j Hj) as (q & Hq1 & Hq2).
      destruct (woke_back _ _ _ _ _ _ _ _ _ Hw2 Hq1 Hq2) as [Hp1 _].
      destruct (woke_back _ _ _ _ _ _ _ _ _ Hw Hp1 Hq2) as [Hp0 _]. simplify_eq.
      destruct (T2 j p Hj Hq1) as [?|[[? _] _]]; done.
  - intros _. split; [done|]. intros j p Hp Hqp Hj.
    destruct (decide (j = i)) as [->|Hne]; [apply list_elem_of_here|].
    apply list_elem_of_further, elem_of_app. left. eapply S1; [by apply HI|done|done].
  - done.
Qed.
End Step.

Definition wakes (chan : Z) s rq sq : unit → kern → Prop := λ _ s',
  ∃ W rq' sq', woke s s' rq rq' sq sq' W ∧ wake_spec chan s s' W.

(** Room for the rest of the loop: every restart has a shorter queue. *)
Definition room (n : nat) (l rest : list nat) : nat := length l * S n + length rest.

Lemma room_restart n (l l' : list nat) : (length l' < length l)%nat → (length l ≤ n)%nat → (room n l' l' < length l * S n)%nat.
Proof. unfold room. nia. Qed.

Lemma framed_length s s' rq rq' sq sq' W : woke s s' rq rq' sq sq' W → length (procs s') = length (procs s).
Proof. intros Hw. pose proof (wk_len _ _ _ _ _ _ _ Hw) as E. by rewrite !info_length in E. Qed.

Lemma queue_length s rq sq h l : queues_ok s rq sq → sq !! h = Some l → (length l ≤ length (procs s))%nat.
Proof.
  intros [[_ Hs Hnd] _] Hl. apply NoDup_lt_length.
  - apply NoDup_app in Hnd as (_ & _ & Hnd). rewrite <- (take_drop_middle _ _ _ Hl), concat_middle in Hnd.
    apply NoDup_app in Hnd as (_ & _ & Hnd). by apply NoDup_app in Hnd as (? & _).
  - destruct (Forall2_lookup_r _ _ _ _ _ Hs Hl) as (hd & _ & Hseg). apply lseg_lt in Hseg.
    by rewrite links_length in Hseg.
Qed.

Lemma queue_split s rq sq h : queues_ok s rq sq → (h < SQSIZE)%nat →
  ∃ sa l sb, sq = sa ++ l :: sb ∧ length sa = h.
Proof.
  intros [_ Hm] Hh. destruct (lookup_lt_is_Some_2 sq h) as [l Hl]; [by rewrite (m_len _ _ _ Hm)|].
  exists (take h sq), l, (drop (S h) sq). split; [by rewrite take_drop_middle|].
  rewrite length_take, (m_len _ _ _ Hm). lia.
Qed.

Lemma HASH_lt c : (HASH c < SQSIZE)%nat.
Proof.
  unfold HASH. change (Z.of_nat SQSIZE - 1) with (Z.ones 4). rewrite Z.land_ones by lia.
  pose proof (Z.mod_pos_bound (Z.shiftr c 5) (2^4)). unfold SQSIZE. lia.
Qed.

Section Loop.
Context (nested : M unit) (chan : Z).

(** What the loop needs of the nested call, should it be made. *)
Definition nested_ok s : Prop :=
  runout s ≠ 0 → ∀ s1 rq sq, queues_ok s1 rq sq → runout s1 = 0 → wp nested (wakes runout_addr s1 rq sq) s1.

Definition loop_ok (fuel : nat) : Prop := ∀ s rq sa pre rest sb,
  queues_ok s rq (sa ++ (pre ++ rest) :: sb) → length sa = HASH chan →
  (∀ j p, j ∈ pre → info s !! j = Some p → p_wchan p ≠ chan) → nested_ok s →
  (room (length (procs s)) (pre ++ rest) rest < fuel)%nat →
  wp (wakeup_loop fuel nested chan (length sa) (qref (length sa) pre)) (wakes chan s rq (sa ++ (pre ++ rest) :: sb)) s.

Section Entry.
Context (fuel : nat) (IH : loop_ok fuel).
Context (s : kern) (rq : list nat) (sa sb : list (list nat)) (pre rest : list nat) (i : nat) (x : proc).
Notation sq := (sa ++ (pre ++ i :: rest) :: sb).
Hypothesis Hq : queues_ok s rq sq.
Hypothesis Hsa : length sa = HASH chan.
Hypothesis Hpre : ∀ j p, j ∈ pre → info s !! j = Some p → p_wchan p ≠ chan.
Hypothesis Hnest : nested_ok s.
Hypothesis Hroom : (room (length (procs s)) (pre ++ i :: rest) (i :: rest) < S fuel)%nat.
Hypothesis Hx : procs s !! i = Some x.
Hypothesis Hc : p_wchan x = chan.

(** Going on from the head of the queue after processes were woken. *)
Lemma loop_restart s2 rq2 sq2 W :
  woke s s2 rq rq2 sq sq2 W → i ∈ W → (runout s2 ≠ 0 → runout s ≠ 0) →
  wp (wakeup_loop fuel nested chan (length sa) (QHead (length sa))) (wakes chan s2 rq2 sq2) s2.
Proof.
  intros Hw Hi Hr. rewrite Hsa.
  destruct (queue_split s2 rq2 sq2 (HASH chan)) as (sa2 & l2 & sb2 & E2 & El);
    [by apply (wk_q _ _ _ _ _ _ _ Hw)|apply HASH_lt|].
  rewrite <- El. subst sq2. apply (IH s2 rq2 sa2 [] l2 sb2).
  - by apply (wk_q _ _ _ _ _ _ _ Hw).
  - done.
  - by intros j p ?%not_elem_of_nil.
  - intros Hr2. by apply Hnest, Hr.
  - rewrite (framed_length _ _ _ _ _ _ _ Hw). simpl.
    assert (Hlt : (length l2 < length (pre ++ i :: rest))%nat).
    { eapply (woke_shrinks _ _ _ _ _ _ _ i (length sa)); [done|done|done|set_solver|by apply list_lookup_middle|].
      rewrite Hsa, <- El. by apply list_lookup_middle. }
    assert (Hle : (length (pre ++ i :: rest) ≤ length (procs s))%nat).
    { eapply queue_length; [done|]. by apply (list_lookup_middle sa). }
    pose proof (room_restart _ _ _ Hlt Hle). unfold room in *. simpl in *. lia.
Qed.

Lemma loop_wake_sleeper :
  p_stat x = SSLEEP →
  wp (setp i (λ x, x<|p_wchan := 0|>);; x ← at_ i; store_ref (qref (length sa) pre) (p_link x);; x ← at_ i;
      if p_stat x =? SSLEEP then
        wakeup_run nested i;; wakeup_loop fuel nested chan (length sa) (QHead (length sa))
      else setp i (λ x, x<|p_slptime := 0|>);; wakeup_loop fuel nested chan (length sa) (qref (length sa) pre))
    (wakes chan s rq sq) s.
Proof.
  intros Hs. destruct Hq as [Hl Hm]. apply (wp_unhook s rq sa pre i rest sb x); [done|done|].
  intros s1 Hl1 Hi1 Hp1 Er1 Eo1 Hf1. change (p_stat (x<|p_wchan := 0|>)) with (p_stat x). rewrite Hs.
  change (SSLEEP =? SSLEEP) with true. cbv iota. apply wp_bind.
  pose proof (info_lookup _ _ _ Hx) as Hix.
  apply (wp_wakeup_run _ s1 rq _ i _ _ Hl1 Hp1).
  { intros Hi. destruct Hl as [_ _ Hnd]. rewrite concat_middle in Hnd. rewrite concat_middle in Hi.
    apply (NoDup_middle_notin rq (concat sa) pre rest (concat sb) i Hnd Hi). }
  { apply (m_time _ _ _ Hm i _ Hix). unfold dead. change (p_stat (nolink x)) with (p_stat x). by rewrite Hs. }
  intros s2 k Hl2 Hi2 Er2 Hk Eo2 Hf2.
  assert (Hw : woke s s2 rq (if has (p_flag x) SLOAD then i :: rq else rq) sq (sa ++ (pre ++ rest) :: sb) [i]).
  { eapply (woke_one _ _ _ _ _ _ _ _ _ x k); [done|done|exact Hl2| | |by rewrite Er2, Er1|lia|lia|by eapply framed_trans].
    - rewrite Hi2, Hi1, list_insert_insert_eq. by rewrite woken_sleeper.
    - by rewrite Hs. }
  change (p_flag (x<|p_wchan := 0|>)) with (p_flag x).
  assert (HD : ∀ s3 rq3 sq3 W3, woke s2 s3 (if has (p_flag x) SLOAD then i :: rq else rq) rq3 (sa ++ (pre ++ rest) :: sb) sq3 W3 →
    wake_spec chan s2 s3 W3 → ¬ (has (p_flag x) SLOAD = false ∧ runout s ≠ 0) → wakes chan s rq sq tt s3).
  { intros s3 rq3 sq3 W3 Hw3 Hs3 Hno. exists ([i] ++ W3), rq3, sq3. split; [by eapply woke_trans|].
    eapply (wake_spec_step chan s s2); [done|done|done|congruence|tauto|done|done]. }
  destruct (has (p_flag x) SLOAD) eqn:Ef.
  - eapply wp_mono; [eapply loop_restart; [done|set_solver|by rewrite Eo2, Eo1]|].
    intros [] s3 (W3 & rq3 & sq3 & Hw3 & Hs3). eapply HD; [done|done|]. by intros [? _].
  - unfold wake_swapper. wp_go. rewrite Eo2, Eo1. destruct (Z.eqb_spec (runout s) 0) as [E0|E0]; simpl.
    + wp_go. eapply wp_mono; [eapply loop_restart; [done|set_solver|by rewrite Eo2, Eo1]|].
      intros [] s3 (W3 & rq3 & sq3 & Hw3 & Hs3). eapply HD; [done|done|]. by intros [_ ?].
    + wp_go. assert (Hq2 : queues_ok (s2<|runout := 0|>) rq (sa ++ (pre ++ rest) :: sb)).
      { destruct (wk_q _ _ _ _ _ _ _ Hw) as [A B]. split; [|exact B]. by apply (lists_ok_same s2). }
      eapply wp_mono; [apply (Hnest E0); [exact Hq2|done]|].
      intros [] s3 (W3 & rq3 & sq3 & Hw3 & Hs3).
      assert (Hw2 : woke s (s2<|runout := 0|>) rq rq sq (sa ++ (pre ++ rest) :: sb) [i]).
      { destruct Hw as [A1 A2 A3 AN A4 A5 A6 A7]. split; [done|done|done|done|done|done|done|].
        transitivity (s2<|runout := 0|>); [done|]. rewrite A7. reflexivity. }
      destruct (woke_trans _ _ _ _ _ _ _ _ _ _ _ Hw2 Hw3) as [Hw23 _].
      assert (E3 : runout s3 = 0) by (apply (ws_quiet _ _ _ _ Hs3); by intros [? _]).
      eapply wp_mono; [eapply loop_restart; [exact Hw23|set_solver|by rewrite E3]|].
      intros [] s4 (W4 & rq4 & sq4 & Hw4 & Hs4).
      exists (([i] ++ W3) ++ W4), rq4, sq4. split; [by eapply woke_trans|]. rewrite <- app_assoc.
      apply (wake_spec_called chan s s2 _ _ _ _ i _ Hw Hix Hc s3 s4 rq3 rq4 sq3 sq4 W3 W4 Hs Ef E0); try done.
      destruct (wk_wait _ _ _ _ _ _ _ Hw i) as (y & Hy & Hyq); [set_solver|].
      by simplify_eq.
Qed.

Lemma loop_wake_stopped :
  p_stat x = SSTOP →
  wp (setp i (λ x, x<|p_wchan := 0|>);; x ← at_ i; store_ref (qref (length sa) pre) (p_link x);; x ← at_ i;
      if p_stat x =? SSLEEP then
        wakeup_run nested i;; wakeup_loop fuel nested chan (length sa) (QHead (length sa))
      else setp i (λ x, x<|p_slptime := 0|>);; wakeup_loop fuel nested chan (length sa) (qref (length sa) pre))
    (wakes chan s rq sq) s.
Proof.
  intros Hs. pose proof Hq as [Hl Hm]. apply (wp_unhook s rq sa pre i rest sb x); [done|done|].
  intros s1 Hl1 Hi1 Hp1 Er1 Eo1 Hf1. change (p_stat (x<|p_wchan := 0|>)) with (p_stat x). rewrite Hs.
  change (SSTOP =? SSLEEP) with false. cbv iota. apply wp_bind. eapply wp_setp; [done|].
  set (s2 := s1<|procs := _|>).
  assert (Hl2 : lists_ok s2 rq (sa ++ (pre ++ rest) :: sb)).
  { apply (lists_ok_same s1); [by apply (links_put_same s1 _ _ _ Hp1)|done|done|done]. }
  pose proof (info_lookup _ _ _ Hx) as Hix.
  assert (Hw : woke s s2 rq rq sq (sa ++ (pre ++ rest) :: sb) [i]).
  { apply (woke_one _ _ _ _ _ _ _ _ _ x 0); [done|done|exact Hl2| |by rewrite Hs|exact Er1|lia|by rewrite Hs| ].
    - unfold s2. rewrite info_put. change (nolink <$> procs s1) with (info s1).
      rewrite Hi1, list_insert_insert_eq. unfold woken. rewrite Hs. reflexivity.
    - eapply framed_trans; [done|]. unfold framed, s2. by destruct s1. }
  eapply wp_mono; [apply IH|].
  - by apply (wk_q _ _ _ _ _ _ _ Hw).
  - done.
  - intros j p Hj Hp. destruct (lookup_lt_is_Some_2 (info s) j) as [q Hq'].
    { rewrite <- (wk_len _ _ _ _ _ _ _ Hw). by eapply lookup_lt_Some. }
    rewrite (woke_keep _ _ _ _ _ _ _ _ _ Hw Hq') in Hp; [simplify_eq; by eapply Hpre|].
    intros ->%list_elem_of_singleton. destruct Hl as [_ _ Hnd]. rewrite concat_middle in Hnd.
    apply NoDup_middle_notin in Hnd. rewrite !not_elem_of_app in Hnd. tauto.
  - intros Hr. apply Hnest. by rewrite <- Eo1.
  - rewrite (framed_length _ _ _ _ _ _ _ Hw). unfold room in *. rewrite length_app in *. simpl in *. lia.
  - intros [] s3 (W3 & rq3 & sq3 & Hw3 & Hs3). exists ([i] ++ W3), rq3, sq3. split; [by eapply woke_trans|].
    eapply (wake_spec_step chan s s2); [done|done|done|exact Eo1| |done|done].
    change (p_stat (nolink x)) with (p_stat x). rewrite Hs. by intros [? _].
Qed.
End Entry.

(** [wakeup] itself, given enough room. *)
Lemma wp_wakeup_loop fuel : loop_ok fuel.
Proof.
  induction fuel as [|fuel IH]; intros s rq sa pre rest sb Hq Hsa Hpre Hnest Hroom; [lia|].
  cbn [wakeup_loop]. apply wp_bind. eapply load_qref; [apply Hq|].
  destruct rest as [|i rest]; cbn [head].
  - wp_go. exists [], rq, (sa ++ (pre ++ []) :: sb). split; [by apply woke_refl|].
    eapply wake_spec_end; [done|done|]. by rewrite app_nil_r.
  - pose proof Hq as [_ Hm]. destruct (m_slp _ _ _ Hm (length sa) (pre ++ i :: rest) i) as [HA _];
      [by apply list_lookup_middle|]. destruct HA as (y & Hy & Hqy & _); [set_solver|].
    apply info_lookup_inv in Hy as (x & Hx & ->). change (queued x = true) in Hqy.
    apply wp_bind. eapply wp_at; [done|].
    assert (Hst : p_stat x = SSLEEP ∨ p_stat x = SSTOP).
    { unfold queued in Hqy. apply andb_true_iff in Hqy as [Hs _]. apply orb_true_iff in Hs.
      rewrite !Z.eqb_eq in Hs. done. }
    replace (negb (p_stat x =? SSLEEP) && negb (p_stat x =? SSTOP)) with false
      by (destruct Hst as [-> | ->]; reflexivity).
    destruct (Z.eqb_spec (p_wchan x) chan) as [Hc|Hc].
    + destruct Hst as [Hst|Hst]; [by eapply loop_wake_sleeper|by eapply loop_wake_stopped].
    + assert (Eq : QLink i = qref (length sa) (pre ++ [i])) by (unfold qref; by rewrite last_snoc).
      rewrite Eq. replace (pre ++ i :: rest) with ((pre ++ [i]) ++ rest) in * by (by rewrite <- app_assoc).
      apply IH; [done|done| |done|].
      * intros j p [Hj|Hj%list_elem_of_singleton]%elem_of_app Hp; [by eapply Hpre|]. subst j.
        rewrite (info_lookup _ _ _ Hx) in Hp. by simplify_eq.
      * unfold room in *. simpl in *. lia.
Qed.
End Loop.

Lemma wp_wakeup_rec depth : ∀ chan s rq sq,
  queues_ok s rq sq → runout s = 0 ∨ (1 ≤ depth)%nat → wp (wakeup_rec (S depth) chan) (wakes chan s rq sq) s.
Proof.
  induction depth as [|depth IH]; intros chan s rq sq Hq Hd; cbn [wakeup_rec]; wp_go.
  all: destruct (queue_split s rq sq (HASH chan) Hq (HASH_lt chan)) as (sa & l & sb & -> & El).
  all: rewrite <- El; apply (wp_wakeup_loop _ chan _ s rq sa [] l sb); [done|done|by intros j p ?%not_elem_of_nil| |].
  - intros Hr. destruct Hd; [done|lia].
  - simpl. assert (length l ≤ length (procs s))%nat by (eapply queue_length; [done|by apply (list_lookup_middle sa)]).
    unfold room. nia.
  - intros Hr s1 rq1 sq1 Hq1 Hr1. apply IH; [done|by left].
  - simpl. assert (length l ≤ length (procs s))%nat by (eapply queue_length; [done|by apply (list_lookup_middle sa)]).
    unfold room. nia.
Qed.
Lemma wp_wakeup chan s rq sq : queues_ok s rq sq → wp (wakeup chan) (wakes chan s rq sq) s.
Proof. intros Hq. apply wp_wakeup_rec; [done|right; lia]. Qed.
End WakeLoop.

(** ** [unsleep] and [setrun] *)

(** A process that [setrun] makes runnable. *)
Definition running (p : proc) : proc :=
  let q := p<|p_wchan := 0|> in (if 1 <? p_slptime p then updated q else q)<|p_stat := SRUN|>.

Section Setrun.
Context `{Layout}.
Implicit Types (s : kern) (rq : list nat) (sq : list (list nat)) (p x : proc).

(** The process is found wherever it is in the queue, and the links close
    behind it. *)
Lemma wp_unsleep_loop s rq sa sb post i x (Q : unit → kern → Prop) todo : ∀ fuel pre,
  lists_ok s rq (sa ++ ((pre ++ todo) ++ i :: post) :: sb) → procs s !! i = Some x → i ∉ todo →
  (length todo < fuel)%nat →
  (∀ s', lists_ok s' rq (sa ++ ((pre ++ todo) ++ post) :: sb) → info s' = info s →
         s' = s<|procs := procs s'|><|slpque := slpque s'|> → procs s' !! i = procs s !! i → Q tt s') →
  wp (unsleep_loop fuel (qref (length sa) pre) i) Q s.
Proof.
  induction todo as [|j todo IH]; intros fuel pre Hl Hx Hi Hf HQ; (destruct fuel as [|fuel]; [simpl in Hf; lia|]).
  - rewrite app_nil_r in *. cbn [unsleep_loop]. apply wp_bind. eapply load_qref; [exact Hl|]. cbn [head].
    rewrite Nat.eqb_refl. apply wp_bind. eapply wp_at; [done|].
    assert (Eh : p_link x = head post).
    { destruct Hl as [_ Hs _]. apply Forall2_app_inv_r in Hs as (ha & hb & _ & Hb & _).
      apply Forall2_cons_inv_r in Hb as (hd & hb' & Hl & _).
      apply lseg_app in Hl as (r & _ & (-> & y & Hy & Hp)). rewrite (links_lookup _ _ _ Hx) in Hy. simplify_eq.
      by apply lseg_head in Hp. }
    rewrite Eh. by eapply store_qref.
  - cbn [unsleep_loop]. apply wp_bind. rewrite <- app_assoc in Hl. eapply load_qref; [exact Hl|]. cbn [head app].
    apply not_elem_of_cons in Hi as [Hne Hi]. rewrite (proj2 (Nat.eqb_neq j i)) by done.
    assert (Eq : QLink j = qref (length sa) (pre ++ [j])) by (unfold qref; by rewrite last_snoc).
    assert (El : (pre ++ [j]) ++ todo = pre ++ j :: todo) by (by rewrite <- app_assoc).
    rewrite Eq. apply IH; [by rewrite El, <- app_assoc|done|done|simpl in Hf; lia|]. by rewrite El.
Qed.

(** Who waits for nothing is on no queue. *)
Lemma members_unwait ps rq sa pre i post sb x :
  members_ok ps rq (sa ++ (pre ++ i :: post) :: sb) →
  NoDup (rq ++ concat (sa ++ (pre ++ i :: post) :: sb)) → ps !! i = Some x → p_stat x ≠ SRUN →
  members_ok (<[i := x<|p_wchan := 0|>]> ps) rq (sa ++ (pre ++ post) :: sb).
Proof.
  intros Hm Hnd Hx Hst. pose proof (members_wake _ _ _ _ _ _ _ _ Hm Hnd Hx) as [Hr Hs Hl Ht].
  assert (Hlt : (i < length ps)%nat) by (by eapply lookup_lt_Some).
  assert (HE : ∀ j, j ≠ i → <[i := x<|p_wchan := 0|>]> ps !! j = <[i := woken x]> ps !! j).
  { intros j Hj. by rewrite !list_lookup_insert_ne by done. }
  assert (HN : queued (x<|p_wchan := 0|>) = false) by (unfold queued; simpl; by rewrite andb_false_r).
  split; [| |done|].
  - intros j Hj. destruct (decide (j = i)) as [->|Hne].
    + destruct (m_run _ _ _ Hm i Hj) as (y & Hy & ? & _). by simplify_eq.
    + rewrite HE by done. apply Hr. destruct (_ && _); set_solver.
  - intros h l j Hl'. destruct (decide (j = i)) as [->|Hne]; [|rewrite HE by done; by apply Hs].
    rewrite (Hs h l i Hl'). split; intros (p & Hp & Hq & _); rewrite list_lookup_insert_eq in Hp by done; simplify_eq.
    + by rewrite woken_not_queued in Hq.
    + by rewrite HN in Hq.
  - intros j p Hj Hdd. destruct (decide (j = i)) as [->|Hne]; [|rewrite HE in Hj by done; by eapply Ht].
    rewrite list_lookup_insert_eq in Hj by done. simplify_eq. by apply (m_time _ _ _ Hm i x Hx).
Qed.

Lemma wp_unsleep s rq sq i x (Q : unit → kern → Prop) :
  queues_ok s rq sq → procs s !! i = Some x → p_stat x = SSLEEP ∨ p_stat x = SSTOP ∨ p_wchan x = 0 →
  (∀ s' sq', queues_ok s' rq sq' → info s' = <[i := nolink (x<|p_wchan := 0|>)]> (info s) →
     procs s' !! i = Some (x<|p_wchan := 0|>) → runrun s' = runrun s → runout s' = runout s → framed s s' → Q tt s') →
  wp (unsleep i) Q s.
Proof.
  intros Hq Hx Hst HQ. pose proof Hq as [Hl Hm]. pose proof (info_lookup _ _ _ Hx) as Hix.
  unfold unsleep. wp_go. eapply wp_at; [done|].
  destruct (Z.eqb_spec (p_wchan x) 0) as [E|E]; cbn [negb].
  - wp_go. assert (Ex : x<|p_wchan := 0|> = x) by (rewrite <- E; by destruct x).
    eapply HQ; [done| |by rewrite Ex|done|done|apply framed_refl]. rewrite Ex. symmetry. by apply list_insert_id.
  - assert (Hqx : queued x = true).
    { unfold queued. apply Z.eqb_neq in E. rewrite E. destruct Hst as [-> |[-> |Hz]]; [done|done|by rewrite Hz in E]. }
    wp_go. destruct (queue_split s rq sq (HASH (p_wchan x)) Hq (HASH_lt _)) as (sa & l & sb & -> & El).
    assert (Hil : i ∈ l).
    { apply (m_slp _ _ _ Hm (length sa)); [by apply list_lookup_middle|]. by exists (nolink x). }
    assert (Hll : (length l ≤ length (procs s))%nat) by (eapply queue_length; [done|by apply (list_lookup_middle sa)]).
    apply list_elem_of_split in Hil as (pre & post & ->). rewrite <- El. change (QHead (length sa)) with (qref (length sa) []).
    assert (Hnd := l_nodup _ _ _ Hl). pose proof Hnd as Hni. rewrite concat_middle in Hni.
    apply NoDup_middle_notin in Hni. rewrite !not_elem_of_app in Hni.
    eapply (wp_unsleep_loop s rq sa sb post i x _ pre _ []); [done|done|tauto|rewrite length_app in Hll; simpl in Hll; lia|].
    intros s' Hl' Hi' Es' Hp'. rewrite Hx in Hp'. eapply wp_setp; [done|].
    assert (HI : info (s'<|procs := <[i := x<|p_wchan := 0|>]> (procs s')|>) = <[i := nolink (x<|p_wchan := 0|>)]> (info s)).
    { rewrite info_put. change (nolink <$> procs s') with (info s'). by rewrite Hi'. }
    eapply (HQ _ (sa ++ (pre ++ post) :: sb)).
    + split; [apply (lists_ok_same s'); [by apply (links_put_same s' _ _ x)|done|done|exact Hl']|]. rewrite HI.
      eapply (members_unwait _ _ _ _ _ _ _ (nolink x)); [done|done|done|].
      change (p_stat x ≠ SRUN). unfold SRUN. destruct Hst as [-> |[-> |?]]; [done|done|done].
    + done.
    + fields. apply list_lookup_insert_eq. by eapply lookup_lt_Some.
    + rewrite Es'. reflexivity.
    + rewrite Es'. reflexivity.
    + unfold framed. rewrite Es'. reflexivity.
Qed.
Lemma members_run ps rq sq i y y' :
  members_ok ps rq sq → ps !! i = Some y → queued y = false → p_stat y ≠ SRUN →
  p_stat y' = SRUN → p_flag y' = p_flag y → 0 ≤ p_slptime y' ≤ 127 →
  members_ok (<[i := y']> ps) (if has (p_flag y) SLOAD then i :: rq else rq) sq.
Proof.
  intros [Hr Hs Hl Ht] Hy Hq Hst Hst' Hf Ht'. assert (Hlt : (i < length ps)%nat) by (by eapply lookup_lt_Some).
  assert (HN : queued y' = false) by (unfold queued; rewrite Hst'; done).
  split; [| |done|].
  - assert (HR : ∀ j, j ∈ rq → ∃ p, <[i := y']> ps !! j = Some p ∧ p_stat p = SRUN ∧ has (p_flag p) SLOAD = true).
    { intros j Hj. destruct (decide (i = j)) as [<-|Hne]; [|rewrite list_lookup_insert_ne by done; auto].
      destruct (Hr i Hj) as (p & Hp & ? & _). by simplify_eq. }
    destruct (has (p_flag y) SLOAD) eqn:Ef; [|done]. intros j [->|Hj]%elem_of_cons; [|by apply HR].
    exists y'. rewrite list_lookup_insert_eq by done. by rewrite Hf.
  - intros h l j Hl'. rewrite (Hs h l j Hl'). destruct (decide (i = j)) as [<-|Hne].
    + rewrite list_lookup_insert_eq by done. split; intros (p & Hp & Hqp & _); simplify_eq; congruence.
    + by rewrite list_lookup_insert_ne.
  - intros j p Hj. destruct (decide (i = j)) as [<-|Hne].
    + rewrite list_lookup_insert_eq in Hj by done. by simplify_eq.
    + rewrite list_lookup_insert_ne in Hj by done. by eapply Ht.
Qed.

(** A process that is neither runnable nor waiting for an event is on no
    queue. *)
Lemma not_listed s rq sq i y :
  queues_ok s rq sq → info s !! i = Some y → queued y = false → p_stat y ≠ SRUN → i ∉ rq ++ concat sq.
Proof.
  intros [_ Hm] Hy Hq Hst. apply not_elem_of_app. split.
  - intros Hi. destruct (m_run _ _ _ Hm i Hi) as (p & Hp & ? & _). by simplify_eq.
  - intros (l & Hl & Hi)%list_elem_of_In%in_concat.
    apply list_elem_of_In, list_elem_of_lookup in Hl as [h Hl]. apply list_elem_of_In in Hi.
    apply (m_slp _ _ _ Hm _ _ _ Hl) in Hi as (p & Hp & Hqp & _). congruence.
Qed.

Lemma running_facts x :
  0 ≤ p_slptime x ≤ 127 →
  p_stat (running x) = SRUN ∧ p_flag (running x) = p_flag x ∧ p_wchan (running x) = 0 ∧
  0 ≤ p_slptime (running x) ≤ 127.
Proof.
  intros Ht. unfold running. destruct (1 <? p_slptime x) eqn:E; split_and!; try done; try (simpl; lia).
  all: simpl; destruct (_ =? 0); apply Z.ltb_lt in E; lia.
Qed.

(** The state in which the swapper is, or is not, called. *)
Definition started s s' rq rq' sq' i x : Prop :=
  queues_ok s' rq' sq' ∧ rq' = (if has (p_flag x) SLOAD then i :: rq else rq) ∧
  info s' = <[i := nolink (running x)]> (info s) ∧
  (∃ k, runrun s' = bumps k (runrun s) ∧ 0 ≤ k ≤ 2) ∧ runout s' = runout s ∧ framed s s'.

Lemma wp_setrun_tail s rq sq i x (Q : unit → kern → Prop) :
  queues_ok s rq sq → procs s !! i = Some x → p_wchan x = 0 → p_stat x ≠ SRUN → dead x = false →
  (∀ s' rq' sq', started s s' rq rq' sq' i x →
     wp (if negb (has (p_flag x) SLOAD) then wake_swapper (wakeup runout_addr) else mret tt) Q s') →
  wp (setrun_tail i) Q s.
Proof.
  intros Hq Hx Hw Hst Hdd HQ. pose proof Hq as [Hl Hm]. pose proof (info_lookup _ _ _ Hx) as Hix.
  assert (Hlt : (i < length (procs s))%nat) by (by eapply lookup_lt_Some).
  assert (Ht : 0 ≤ p_slptime x ≤ 127) by (by apply (m_time _ _ _ Hm i _ Hix)).
  destruct (running_facts x Ht) as (R1 & R2 & R3 & R4).
  assert (Ex : x<|p_wchan := 0|> = x) by (rewrite <- Hw; by destruct x).
  assert (Hqx : queued (nolink x) = false).
  { unfold queued. change (p_wchan (nolink x)) with (p_wchan x). rewrite Hw. by rewrite andb_false_r. }
  pose proof (not_listed _ _ _ _ _ Hq Hix Hqx Hst) as Hni.
  set (K1 := λ r, s<|procs := <[i := running x]> (procs s)|><|runrun := r|>).
  assert (HK : ∀ r, lists_ok (K1 r) rq sq).
  { intros r. apply (lists_ok_same s); [|done|done|done]. apply (links_put_same s _ _ x Hx).
    unfold running. by destruct (1 <? _). }
  assert (HI : ∀ r, info (K1 r) = <[i := nolink (running x)]> (info s)) by (intros r; apply (info_put s)).
  assert (HP : ∀ r, procs (K1 r) !! i = Some (running x)) by (intros r; by apply list_lookup_insert_eq).
  assert (HM : members_ok (<[i := nolink (running x)]> (info s)) (if has (p_flag x) SLOAD then i :: rq else rq) sq).
  { apply (members_run _ _ _ _ (nolink x)); done. }
  (* the state once the process is on its queue *)
  assert (HE : ∀ s1 k y, lists_ok s1 (if has (p_flag x) SLOAD then i :: rq else rq) sq →
    info s1 = <[i := nolink (running x)]> (info s) → runrun s1 = bumps k (runrun s) → 0 ≤ k ≤ 1 →
    runout s1 = runout s → framed s s1 → procs s1 !! i = Some y → p_flag y = p_flag x →
    wp (q ← at_ i; c ← gets curpri; (if p_pri q <? c then incr_runrun else mret tt);; q ← at_ i;
        if negb (has (p_flag q) SLOAD) then wake_swapper (wakeup runout_addr) else mret tt) Q s1).
  { intros s1 k y Hl1 Hi1 Er1 Hk Eo1 Hf1 Hy Ey. wp_go. eapply wp_at; [done|]. wp_go.
    destruct (p_pri y <? curpri s1); unfold incr_runrun; wp_go; (eapply wp_at; [exact Hy|]); rewrite Ey.
    - eapply HQ. split_and!; [split; [apply (lists_ok_same s1); [done|done|done|exact Hl1]|]|reflexivity|exact Hi1| |done|].
      + change (members_ok (info s1) (if has (p_flag x) SLOAD then i :: rq else rq) sq). by rewrite Hi1.
      + exists (k + 1). split; [|lia]. fields. rewrite Er1. rewrite <- bumps_bumps by lia. reflexivity.
      + eapply framed_trans; [done|]. unfold framed. by destruct s1.
    - eapply HQ. split_and!; [split; [exact Hl1|by rewrite Hi1]|reflexivity|done| |done|done].
      exists k. split; [done|lia]. }
  assert (HS : ∀ k, 0 ≤ k ≤ 1 →
    wp (q ← at_ i; (if has (p_flag q) SLOAD then setrq i else mret tt);; q ← at_ i; c ← gets curpri;
        (if p_pri q <? c then incr_runrun else mret tt);; q ← at_ i;
        if negb (has (p_flag q) SLOAD) then wake_swapper (wakeup runout_addr) else mret tt) Q (K1 (bumps k (runrun s)))).
  { intros k Hk. apply wp_bind. eapply wp_at; [apply HP|]. rewrite R2. apply wp_bind.
    destruct (has (p_flag x) SLOAD) eqn:EL.
    - eapply wp_setrq; [apply HK|apply HP|done|]. intros s' Hl' Hi' (y & Hy & Ey) Es'.
      eapply (HE s' k y); [done|by rewrite Hi'; apply HI|rewrite Es'; reflexivity|done|rewrite Es'; reflexivity| |done|].
      + unfold framed. rewrite Es'. reflexivity.
      + change (p_flag (nolink y) = p_flag x). by rewrite Ey.
    - apply wp_ret. eapply (HE _ k); [apply HK|apply HI|reflexivity|done|reflexivity|unfold framed; reflexivity|apply HP|done]. }
  unfold setrun_tail. apply wp_bind. eapply wp_at; [done|]. apply wp_bind.
  destruct (1 <? p_slptime x) eqn:Et.
  - eapply wp_updatepri; [done|apply Z.ltb_lt in Et; lia|]. apply wp_bind.
    eapply wp_setp; [fields; by apply list_lookup_insert_eq|]. fields. rewrite list_insert_insert_eq.
    set (b := pri_of (s8 (usage_after x)) (p_nice x) <? curpri s).
    assert (HS' : wp _ _ _) by (apply (HS (Z.b2z b)); destruct b; simpl; lia).
    rewrite <- bump_bumps in HS'. unfold K1, running in HS'. rewrite Ex, Et in HS'. exact HS'.
  - apply wp_ret. apply wp_bind. eapply wp_setp; [done|].
    assert (HS' : wp _ _ _) by (apply (HS 0); lia).
    unfold K1, running in HS'. rewrite Ex, Et in HS'. by destruct s.
Qed.

(** [setrun i] made the process [i], found as [x], runnable; the swapper was
    woken if the process is not in core and it waits for such a process. *)
Record set_running s s' (i : nat) (x : proc) : Prop := SetRunning {
  sr_self : info s' !! i = Some (nolink (running x));
  sr_other : ∀ j p, j ≠ i → info s !! j = Some p → info s' !! j = Some
    (if negb (has (p_flag x) SLOAD) && negb (runout s =? 0) && queued p && (p_wchan p =? runout_addr)
     then woken p else p);
  sr_len : length (info s') = length (info s);
  sr_queues : ∃ rq' sq', queues_ok s' rq' sq' ∧ (has (p_flag x) SLOAD = true → i ∈ rq');
  sr_frame : framed s s' }.

Lemma started_set_running s s' rq rq' sq' i x :
  started s s' rq rq' sq' i x → info s !! i = Some (nolink x) →
  negb (has (p_flag x) SLOAD) && negb (runout s =? 0) = false → set_running s s' i x.
Proof.
  intros (Hq & Erq & Hi & _ & Ho & Hf) Hix Hc. assert (Hlt : (i < length (info s))%nat) by (by eapply lookup_lt_Some).
  split.
  - rewrite Hi. by apply list_lookup_insert_eq.
  - intros j p Hj Hp. rewrite Hi, Hc. simpl. by rewrite list_lookup_insert_ne.
  - by rewrite Hi, length_insert.
  - exists rq', sq'. split; [done|]. intros E. rewrite Erq, E. apply list_elem_of_here.
  - done.
Qed.

Lemma wp_setrun s rq sq i x :
  queues_ok s rq sq → procs s !! i = Some x →
  p_stat x = SSLEEP ∨ p_stat x = SSTOP ∨ p_stat x = SIDL ∧ p_wchan x = 0 →
  wp (setrun i) (λ _ s', set_running s s' i x) s.
Proof.
  intros Hq Hx Hst. pose proof (info_lookup _ _ _ Hx) as Hix.
  assert (HT : ∀ s1 sq1, queues_ok s1 rq sq1 → info s1 = <[i := nolink (x<|p_wchan := 0|>)]> (info s) →
    procs s1 !! i = Some (x<|p_wchan := 0|>) → runrun s1 = runrun s → runout s1 = runout s → framed s s1 →
    wp (setrun_tail i) (λ _ s', set_running s s' i x) s1).
  { intros s1 sq1 Hq1 Hi1 Hp1 Er1 Eo1 Hf1.
    eapply wp_setrun_tail; [exact Hq1|exact Hp1|done|destruct Hst as [E|[E|[E _]]]; change (p_stat x ≠ SRUN); by rewrite E
      |destruct Hst as [E|[E|[E _]]]; unfold dead; change (p_stat (x<|p_wchan := 0|>)) with (p_stat x); by rewrite E|].
    intros s2 rq2 sq2 (Hq2 & Erq & Hi2 & Hr2 & Eo2 & Hf2). fields.
    assert (Hi2' : info s2 = <[i := nolink (running x)]> (info s)).
    { rewrite Hi2, Hi1, list_insert_insert_eq. reflexivity. }
    assert (Hf : framed s s2) by (by eapply framed_trans).
    assert (Hlt : (i < length (info s))%nat) by (by eapply lookup_lt_Some).
    assert (HQuiet : negb (has (p_flag x) SLOAD) && negb (runout s =? 0) = false → set_running s s2 i x).
    { apply (started_set_running s s2 rq rq2 sq2); [|done]. destruct Hr2 as (k & Er & Hk).
      split_and!; [done|done|done|exists k; split; [congruence|done]|congruence|done]. }
    destruct (has (p_flag x) SLOAD) eqn:EL; simpl; [wp_go; by apply HQuiet|].
    unfold wake_swapper. wp_go. rewrite Eo2, Eo1. destruct (Z.eqb_spec (runout s) 0) as [E0|E0]; simpl; [wp_go; by apply HQuiet|].
    wp_go. assert (Hq3 : queues_ok (s2<|runout := 0|>) rq2 sq2).
    { destruct Hq2 as [A B]. split; [|exact B]. by apply (lists_ok_same s2). }
    eapply wp_mono; [by apply wp_wakeup|]. intros [] s3 (W & rq3 & sq3 & Hw & [S1 S2 _ _]).
    assert (Hi0 : info (s2<|runout := 0|>) = <[i := nolink (running x)]> (info s)) by exact Hi2'.
    assert (HWi : i ∉ W).
    { intros HW. destruct (wk_wait _ _ _ _ _ _ _ Hw i HW) as (p & Hp & Hqp). rewrite Hi0, list_lookup_insert_eq in Hp by done.
      by simplify_eq. }
    split.
    - rewrite (wk_info _ _ _ _ _ _ _ Hw i (nolink (running x))); [by rewrite decide_False|].
      rewrite Hi0. by apply list_lookup_insert_eq.
    - intros j p Hj Hp. assert (Hp2 : info (s2<|runout := 0|>) !! j = Some p) by (rewrite Hi0; by rewrite list_lookup_insert_ne).
      rewrite (wk_info _ _ _ _ _ _ _ Hw j p Hp2). rewrite EL, (proj2 (Z.eqb_neq _ _) E0). simpl.
      destruct (decide (j ∈ W)) as [HW|HW].
      + destruct (wk_wait _ _ _ _ _ _ _ Hw j HW) as (p' & Hp' & Hqp). simplify_eq.
        destruct (S2 j p HW Hp2) as [E|[[? _] _]]; [|done]. by rewrite Hqp, E, Z.eqb_refl.
      + destruct (queued p) eqn:Hqp; simpl; [|done]. destruct (Z.eqb_spec (p_wchan p) runout_addr); [|done].
        destruct HW. eapply S1; done.
    - rewrite (wk_len _ _ _ _ _ _ _ Hw), Hi0. by rewrite length_insert.
    - exists rq3, sq3. split; [apply Hw|congruence].
    - eapply framed_trans; [exact Hf|]. exact (wk_frame _ _ _ _ _ _ _ Hw). }
  unfold setrun. apply wp_bind. eapply wp_at; [done|]. apply wp_bind.
  destruct (decide (p_stat x = SSLEEP ∨ p_stat x = SSTOP)) as [Hs|Hs].
  - replace ((p_stat x =? SSTOP) || (p_stat x =? SSLEEP)) with true by (destruct Hs as [-> | ->]; done).
    eapply wp_unsleep; [done|done|tauto|]. intros s1 sq1 Hq1 Hi1 Hp1 Er1 Eo1 Hf1. by eapply HT.
  - destruct Hst as [?|[?|[E Hw]]]; [tauto|tauto|]. rewrite E. simpl. apply wp_ret.
    assert (Ex : x<|p_wchan := 0|> = x) by (rewrite <- Hw; by destruct x).
    eapply HT; [done| |by rewrite Ex|done|done|apply framed_refl]. rewrite Ex. symmetry. by apply list_insert_id.
Qed.
End Setrun.

(** ** The next process to run *)
Section Switch.
Context `{Layout}.
Implicit Types (s : kern) (rq : list nat) (sq : list (list nat)) (p x : proc).

(** [i] is the first of the best processes of [l]; [pq] precedes it. *)
Definition best s (l : list nat) (pp pq : option nat) (n : Z) : Prop :=
  match pp with
  | None => l = [] ∧ pq = None ∧ n = 128
  | Some i => ∃ r1 r2 x, l = r1 ++ i :: r2 ∧ pq = last r1 ∧ procs s !! i = Some x ∧ n = p_pri x ∧
      (∀ j y, j ∈ r1 → procs s !! j = Some y → p_pri x < p_pri y) ∧
      (∀ j y, j ∈ r2 → procs s !! j = Some y → p_pri x ≤ p_pri y)
  end.

Lemma best_snoc s pre i x pp pq n :
  best s pre pp pq n → procs s !! i = Some x → p_pri x ≤ 127 →
  best s (pre ++ [i]) (if p_pri x <? n then Some i else pp) (if p_pri x <? n then last pre else pq)
    (if p_pri x <? n then p_pri x else n).
Proof.
  intros HB Hx Hp. destruct (Z.ltb_spec (p_pri x) n) as [Hlt|Hge].
  - exists pre, [], x. split_and!; [done|done|done|done| |by intros j y ?%not_elem_of_nil].
    destruct pp as [k|]; simpl in HB.
    + destruct HB as (r1 & r2 & z & -> & _ & Hz & -> & H1 & H2). intros j y Hj Hy.
      apply elem_of_app in Hj as [Hj|[->|Hj]%elem_of_cons].
      * specialize (H1 j y Hj Hy). lia.
      * simplify_eq. lia.
      * specialize (H2 j y Hj Hy). lia.
    + destruct HB as (-> & _). by intros j y ?%not_elem_of_nil.
  - destruct pp as [k|]; simpl in HB; [|lia].
    destruct HB as (r1 & r2 & z & -> & -> & Hz & -> & H1 & H2). exists r1, (r2 ++ [i]), z.
    split_and!; [by rewrite <- app_assoc|done|done|done|done|].
    intros j y [Hj|Hj%list_elem_of_singleton]%elem_of_app Hy; [eauto|]. by simplify_eq.
Qed.

(** A runnable process that is on no queue may change its flags. *)
Lemma members_unlist ps rq sq i y y' :
  members_ok ps rq sq → ps !! i = Some y → i ∉ rq →
  p_stat y' = p_stat y → p_wchan y' = p_wchan y → p_slptime y' = p_slptime y → members_ok (<[i := y']> ps) rq sq.
Proof.
  intros [M1 M2 M3 M4] Hy Hi E1 E2 E3. assert (Hlt : (i < length ps)%nat) by (by eapply lookup_lt_Some).
  assert (Eq : queued y' = queued y) by (unfold queued; by rewrite E1, E2).
  split; [| |done|].
  - intros j Hj. rewrite list_lookup_insert_ne; [by apply M1|]. by intros ->.
  - intros h l j Hl. rewrite (M2 h l j Hl). destruct (decide (i = j)) as [<-|Hne]; [|by rewrite list_lookup_insert_ne].
    rewrite list_lookup_insert_eq, Hy by done. split; intros (p & Hp & Hq & Hh); simplify_eq; eexists; (split; [done|]).
    + by rewrite Eq, E2.
    + by rewrite <- Eq, <- E2.
  - intros j p Hj Hdd. destruct (decide (i = j)) as [<-|Hne].
    + rewrite list_lookup_insert_eq in Hj by done. simplify_eq. rewrite E3. eapply M4; [done|]. unfold dead in *. by rewrite <- E1.
    + rewrite list_lookup_insert_ne in Hj by done. by eapply M4.
Qed.

Lemma wp_swtch_scan s rest : ∀ fuel pre h pp pq n,
  lseg id (links s) h rest None → (length rest ≤ fuel)%nat → best s pre pp pq n →
  (∀ j, j ∈ rest → ∃ x, procs s !! j = Some x ∧ has (p_flag x) SLOAD = true ∧ p_pri x ≤ 127) →
  wp (swtch_scan fuel h pp pq (last pre) n) (λ r s', s' = s ∧ best s (pre ++ rest) (r.1.1) (r.1.2) (r.2)) s.
Proof.
  induction rest as [|i rest IH]; intros fuel pre h pp pq n Hl Hf HB Hall.
  - simpl in Hl. subst h. rewrite app_nil_r. destruct fuel; by split.
  - destruct Hl as (-> & y & Hy & Hl). destruct fuel as [|fuel]; simpl in Hf; [lia|]. cbn [swtch_scan].
    destruct (Hall i) as (x & Hx & Hf1 & Hp1); [apply list_elem_of_here|].
    rewrite (links_lookup _ _ _ Hx) in Hy. simplify_eq. apply wp_bind. eapply wp_at; [done|]. rewrite Hf1. simpl.
    pose proof (best_snoc _ _ _ _ _ _ _ HB Hx Hp1) as HB'.
    assert (HR : ∀ pp' pq' n', best s (pre ++ [i]) pp' pq' n' →
      wp (swtch_scan fuel (p_link x) pp' pq' (Some i) n') (λ r s', s' = s ∧ best s (pre ++ i :: rest) (r.1.1) (r.1.2) (r.2)) s).
    { intros pp' pq' n' HB2. replace (Some i) with (last (pre ++ [i])) by apply last_snoc.
      replace (pre ++ i :: rest) with ((pre ++ [i]) ++ rest) by (by rewrite <- app_assoc).
      apply IH; [done|lia|done|]. intros j Hj. apply Hall. by apply list_elem_of_further. }
    destruct (p_pri x <? n); by apply HR.
Qed.

(** Taking a process off the run queue. *)
Lemma unlink_run s rq1 i rq2 sq x s' :
  lists_ok s (rq1 ++ i :: rq2) sq → procs s !! i = Some x →
  match last rq1 with
  | Some j => ∃ y, procs s !! j = Some y ∧ s' = s<|procs := <[j := y<|p_link := p_link x|>]> (procs s)|>
  | None => s' = s<|qs := p_link x|>
  end →
  lists_ok s' (rq1 ++ rq2) sq ∧ info s' = info s ∧ procs s' !! i = Some x.
Proof.
  intros [Hr Hs Hnd] Hx Es. pose proof (links_lookup _ _ _ Hx) as Hlx.
  assert (Hnd' : NoDup ((rq1 ++ rq2) ++ concat sq)).
  { eapply sublist_NoDup; [done|]. apply sublist_app; [|done]. apply sublist_app; [done|]. by apply sublist_cons. }
  apply lseg_app in Hr as (r & Hr1 & (-> & y & Hy & Hr2)). simplify_eq. unfold id in Hr2.
  destruct rq1 as [|j rq1 _] using rev_ind.
  - simpl in Es. subst s'. split_and!; [|done|done]. by split.
  - rewrite last_snoc in Es. destruct Es as (q & Hq & ->). apply lseg_app in Hr1 as (r' & Hr1 & (-> & z & Hz & Hn)).
    rewrite <- !app_assoc in Hnd. simpl in Hnd. apply NoDup_app in Hnd as (Hn1 & Hn2 & Hn3).
    apply NoDup_cons in Hn3 as [Hn3 Hn4]. rewrite not_elem_of_cons, not_elem_of_app in Hn3. destruct Hn3 as (Hji & Hjr & Hjs).
    assert (Hj1 : j ∉ rq1) by (intros Hj; apply (Hn2 j Hj); set_solver).
    assert (HL : ∀ k, k ≠ j → links (s<|procs := <[j := q<|p_link := p_link x|>]> (procs s)|>) !! k = links s !! k).
    { intros k Hk. rewrite links_put. by rewrite list_lookup_insert_ne. }
    split_and!; [split| |].
    + apply lseg_app. exists (p_link x). split; [|by eapply lseg_link_ne].
      rewrite links_put. change (p_link (q<|p_link := p_link x|>)) with (p_link x).
      eapply lseg_redirect; [|done|done]. apply lseg_app. exists (Some j). split; [done|]. split; [done|]. eauto.
    + by eapply slp_link_ne.
    + done.
    + by eapply info_put_same.
    + fields. by rewrite list_lookup_insert_ne.
Qed.
End Switch.

Section Take.
Context `{Layout}.

(** [swtch] once the process is chosen. *)
Lemma wp_swtch_take s r1 i r2 sq x (Q : option (nat * bool) → kern → Prop) :
  lists_ok s (r1 ++ i :: r2) sq → members_ok (info s) (r1 ++ i :: r2) sq → procs s !! i = Some x →
  (∀ s', runrun s' = runrun s → noproc s' = noproc s → curpri s' = p_pri x →
     info s' = <[i := nolink (x<|p_flag ::= λ f, bic f SSWAP|>)]> (info s) → queues_ok s' (r1 ++ r2) sq →
     Q (Some (i, has (p_flag x) SSWAP)) s') →
  wp (y ← at_ i;
      match last r1 with
      | Some j => setp j (λ z, z<|p_link := p_link y|>)
      | None => modify (λ s, s<|qs := p_link y|>)
      end;;
      modify (λ s, s<|curpri := p_pri x|>);;
      y ← at_ i;
      setp i (λ z, z<|p_flag ::= λ f, bic f SSWAP|>);;
      mret (Some (i, has (p_flag y) SSWAP))) Q s.
Proof.
  intros Hl Hm Hx HQ. apply wp_bind. eapply wp_at; [done|]. apply wp_bind.
  assert (Hni : i ∉ r1 ++ r2).
  { pose proof (l_nodup _ _ _ Hl) as Hn. apply NoDup_app in Hn as (Hn & _). apply NoDup_app in Hn as (_ & Hn1 & Hn2).
    apply NoDup_cons in Hn2 as [Hn2 _]. apply not_elem_of_app. split; [|done]. intros Hi. apply (Hn1 i Hi), list_elem_of_here. }
  assert (HT : ∀ s1, lists_ok s1 (r1 ++ r2) sq ∧ info s1 = info s ∧ procs s1 !! i = Some x →
    runrun s1 = runrun s → noproc s1 = noproc s →
    wp (modify (λ s, s<|curpri := p_pri x|>);; y ← at_ i; setp i (λ z, z<|p_flag ::= λ f, bic f SSWAP|>);;
        mret (Some (i, has (p_flag y) SSWAP))) Q s1).
  { intros s1 (Hl1 & Hi1 & Hp1) Er En. wp_go. eapply wp_at; [exact Hp1|]. wp_go. eapply wp_setp; [exact Hp1|]. wp_go.
    set (s2 := field_map procs _ _).
    assert (Hi2 : info s2 = <[i := nolink (x<|p_flag ::= λ f, bic f SSWAP|>)]> (info s)).
    { rewrite <- Hi1. apply (info_put (s1<|curpri := p_pri x|>)). }
    apply HQ; [done|done|done|done|]. split.
    - apply (lists_ok_same s1); [by apply (links_put_same s1 _ _ x)|done|done|done].
    - rewrite Hi2. apply (members_unlist _ _ _ _ (nolink x)); [|by apply info_lookup|done|done|done|done].
      destruct Hm as [M1 M2 M3 M4]. split; [|done|done|done]. intros j Hj. apply M1. set_solver. }
  destruct (last r1) as [j|] eqn:El.
  - assert (Hj : j ∈ r1) by (apply last_Some_elem_of; exact El).
    destruct (m_run _ _ _ Hm j) as (p & Hp & _); [set_solver|]. apply info_lookup_inv in Hp as (y & Hy & ->).
    eapply wp_setp; [done|]. apply HT; [|done|done]. eapply unlink_run; [done|done|]. rewrite El. eauto.
  - apply wp_modify. apply HT; [|done|done]. eapply unlink_run; [done|done|]. by rewrite El.
Qed.
End Take.

(** ** Theorems *)
Section Theorems.
Context `{Layout}.
Implicit Types (s : kern) (rq : list nat) (sq : list (list nat)).

(** C21. wakeup wakes exactly the processes that wait for the channel, each
    once: sleepers become runnable and, if in core, join the run queue;
    stopped processes stay stopped and wait no more.  If a woken sleeper is
    not in core and the swapper waits for such a process, the swapper is
    woken too.  Every queue stays sound, nothing else changes, the flag that
    asks for rescheduling is raised whenever a sleeper was woken, and the
    loop with its restarts ends. *)
Theorem wakeup_correct (s : kern) (rq : list nat) (sq : list (list nat)) (chan : Z) :
  queues_ok s rq sq → - 2^31 ≤ runrun s < 2^31 → Z.of_nat (length (procs s)) < 2^30 →
  wp (wakeup chan) (λ _ s', ∃ (W new : list nat) sq',
    queues_ok s' (new ++ rq) sq' ∧
    (∀ i, i ∈ W ↔ ∃ p, info s !! i = Some p ∧ queued p = true ∧
       (p_wchan p = chan ∨ calls_swapper s chan ∧ p_wchan p = runout_addr)) ∧
    (∀ i p, info s !! i = Some p → info s' !! i = Some (if decide (i ∈ W) then woken p else p)) ∧
    (∀ i, i ∈ new ↔ i ∈ W ∧ ∃ p, info s !! i = Some p ∧ p_stat p = SSLEEP ∧ has (p_flag p) SLOAD = true) ∧
    ((∃ i p, i ∈ W ∧ info s !! i = Some p ∧ p_stat p = SSLEEP) → runrun s' ≠ runrun s) ∧
    (calls_swapper s chan → runout s' = 0) ∧ (¬ calls_swapper s chan → runout s' = runout s) ∧
    framed s s') s.
Proof.
  intros Hq Hr Hn. eapply wp_mono; [by apply wp_wakeup|]. intros [] s' (W & rq' & sq' & Hw & [S1 S2 S3 S4]).
  destruct Hw as [A1 A2 A3 AN A4 (new & A5 & A5') (k & A6 & A7 & A8) A9].
  exists W, new, sq'. split_and!; [by subst rq'| |done|done| |by intros HC; apply S3|done|done].
  - intros i. split.
    + intros Hi. destruct (A3 i Hi) as (p & Hp & Hqp). eauto.
    + intros (p & Hp & Hqp & [Hc|[HC Hc]]); [eauto|]. by eapply S3.
  - intros (i & p & Hi & Hp & Hs). rewrite A6. apply bumps_changes; [|done].
    specialize (A8 i p Hi Hp Hs). split; [lia|].
    assert (length W ≤ length (info s))%nat.
    { apply NoDup_lt_length; [done|]. apply Forall_forall. intros j Hj.
      destruct (A3 j Hj) as (q & Hq' & _). by eapply lookup_lt_Some. }
    rewrite info_length in *. lia.
Qed.

(** C22. swtch takes off the run queue a process of the best priority, the
    first of those, or idles exactly when the run queue is empty; the other
    processes keep their places. *)
Theorem swtch_correct (s : kern) (rq : list nat) (sq : list (list nat)) :
  queues_ok s rq sq → (∀ i p, i ∈ rq → procs s !! i = Some p → - 128 ≤ p_pri p ≤ 127) →
  wp swtch_pick (λ r s', runrun s' = 0 ∧ noproc s' = 0 ∧
    match r with
    | None => rq = [] ∧ queues_ok s' rq sq
    | Some (i, swapped) => ∃ r1 r2 x, rq = r1 ++ i :: r2 ∧ procs s !! i = Some x ∧
        (∀ j y, j ∈ rq → procs s !! j = Some y → p_pri x ≤ p_pri y) ∧
        (∀ j y, j ∈ r1 → procs s !! j = Some y → p_pri x < p_pri y) ∧
        curpri s' = p_pri x ∧ swapped = has (p_flag x) SSWAP ∧
        info s' = <[i := nolink (x<|p_flag ::= λ f, bic f SSWAP|>)]> (info s) ∧ queues_ok s' (r1 ++ r2) sq
    end) s.
Proof.
  intros [Hl Hm] Hp. unfold swtch_pick. wp_go. fields.
  set (s0 := s<|noproc := 0|><|runrun := 0|>).
  assert (Hl0 : lists_ok s0 rq sq) by (by apply (lists_ok_same s)).
  eapply wp_mono; [apply (wp_swtch_scan s0 rq _ [] _ None None 128)|].
  - apply Hl0.
  - apply NoDup_lt_length; [by pose proof (l_nodup _ _ _ Hl) as (? & _)%NoDup_app|].
    pose proof (lseg_lt _ _ _ _ _ (l_run _ _ _ Hl)) as Hlt. by rewrite links_length in Hlt.
  - done.
  - intros j Hj. destruct (m_run _ _ _ Hm j Hj) as (p & Hp' & _ & Hf). apply info_lookup_inv in Hp' as (q & Hq & ->).
    exists q. split_and!; [done|done|]. specialize (Hp j q Hj Hq). lia.
  - intros [[pp pq] n] s' [-> HB]. simpl in HB. destruct pp as [i|].
    + destruct HB as (r1 & r2 & x & -> & -> & Hx & -> & H1 & H2). cbv iota. eapply wp_swtch_take; [done|done|done|].
      intros s' Er En Ec Hi' Hq'. split_and!; [done|done|]. exists r1, r2, x. split_and!; try done.
      intros j y Hj Hy. apply elem_of_app in Hj as [Hj|[->|Hj]%elem_of_cons].
      * specialize (H1 j y Hj Hy). lia.
      * change (procs s !! i = Some x) in Hx. simplify_eq. lia.
      * by eapply H2.
    + destruct HB as (-> & _). wp_go. split_and!; [done|done|done|]. by split.
Qed.
End Theorems.

(** ** Example: a swapped-out sleeper is woken

    Process 0, the swapper, waits to be told of processes to bring in;
    process 1 sleeps, not in core; process 2 is on the run queue. *)
#[global] Instance ex_layout : Layout := {|
  proc_addr := λ i, 0x80003000 + 128 * Z.of_nat i;
  lbolt_addr := 0x80002000; runin_addr := 0x80002020; runout_addr := 0x80002040;
  u_addr := 0x80004000; u_signal_addr := 0x80004080 |}.
Definition ex_chan : Z := 0x80002060.
Definition ex_queue : kern :=
  let p0 := slot None (Some AllProc) None (Z.lor SLOAD SSYS) 0 0 0 SSLEEP in
  let p1 := slot None None (Some 0%nat) 0 100 7 1 SSLEEP in
  let p2 := slot None None (Some 0%nat) SLOAD 100 8 1 SRUN in
  Kern [p0<|p_wchan := 0x80002040|>; p1<|p_wchan := ex_chan|><|p_slptime := 5|><|p_cpu := 100|>; p2<|p_pri := 50|>]
    (Some 0%nat) None None [] (None :: None :: Some 0%nat :: Some 1%nat :: replicate 12 None) (Some 2%nat)
    0 50 0 0 1 2 30000 (ex_user 100) [] ∅ 0.
Definition ex_sq : list (list nat) := [] :: [] :: [0%nat] :: [1%nat] :: replicate 12 [].

Lemma ex_queues : queues_ok ex_queue [2%nat] ex_sq.
Proof.
  split; split.
  - simpl. split; [done|]. eexists. by split.
  - repeat (first [apply Forall2_nil_2 | apply Forall2_cons; split]); try reflexivity;
      (split; [reflexivity|]; eexists; split; reflexivity).
  - refine (bool_decide_unpack _ _). vm_compute. exact I.
  - intros i ->%list_elem_of_singleton. eexists. split; [reflexivity|]. done.
  - intros h l i Hl. split.
    + intros Hi. do 16 (destruct h as [|h]; [simpl in Hl; injection Hl as <-;
        first [by apply elem_of_nil in Hi | apply list_elem_of_singleton in Hi; subst i; eexists; split; [reflexivity|done]]|]).
      done.
    + intros (p & Hp & Hq & <-). do 3 (destruct i as [|i]; [injection Hp as <-;
        first [discriminate Hq | vm_compute in Hl; injection Hl as <-; apply list_elem_of_here]|]). done.
  - reflexivity.
  - intros i p Hp. do 3 (destruct i as [|i]; [injection Hp as <-; split; vm_compute; discriminate|]). done.
Qed.

Lemma wakeup_correct_witness : wp (wakeup ex_chan) (λ _ s', runout s' = 0 ∧ info s' !! 1%nat ≠ info ex_queue !! 1%nat) ex_queue.
Proof.
  assert (HC : calls_swapper ex_queue ex_chan).
  { split; [done|]. exists 1%nat. eexists. split; [reflexivity|]. done. }
  eapply wp_mono; [refine (wakeup_correct ex_queue [2%nat] ex_sq ex_chan ex_queues _ _); simpl; lia|].
  intros [] s' (W & new & sq' & _ & HW & HI & _ & _ & HR & _). split; [by apply HR|].
  erewrite HI by reflexivity. rewrite decide_True; [by vm_compute|].
  apply HW. eexists. split; [reflexivity|]. split; [reflexivity|]. by left.
Defined.

Lemma swtch_correct_witness : wp swtch_pick (λ r s', r ≠ None) ex_queue.
Proof.
  eapply wp_mono; [apply (swtch_correct ex_queue [2%nat] ex_sq ex_queues)|].
  - intros i p ->%list_elem_of_singleton [= <-]. simpl. lia.
  - intros [r|] s' (_ & _ & H); [done|]. by destruct H.
Defined.

(** C34. A process that slept for three seconds or more is taken to have used
    no processor time at all: the decay that updatepri applies per second is
    (8/10 * a), which is 0 in C, where schedcpu computes (a * 8/10 + nice). *)
Theorem updatepri_forgets (s : kern) (i : nat) (p : proc) :
  procs s !! i = Some p → 3 ≤ p_slptime p ≤ 127 →
  wp (updatepri i) (λ _ s', ∃ q, procs s' !! i = Some q ∧ p_cpu q = 0 ∧ p_pri q = s8 (pri_of 0 (p_nice p))) s.
Proof.
  intros Hp Ht. eapply wp_updatepri; [done|lia|]. exists (updated p). fields.
  rewrite list_lookup_insert_eq by (by eapply lookup_lt_Some). split; [done|].
  assert (E : usage_after p = 0) by (unfold usage_after; by rewrite (proj2 (Z.eqb_neq _ _)) by lia).
  unfold updated. fields. by rewrite E.
Qed.

Lemma updatepri_forgets_witness :
  (255 * 8) `quot` 10 = 204 ∧
  wp (updatepri 0) (λ _ s', ∃ q, procs s' !! 0%nat = Some q ∧ p_cpu q = 0 ∧ p_pri q = s8 (pri_of 0 0))
    (ex_queue<|procs := [(slot None None None SLOAD 0 0 0 SSLEEP)<|p_cpu := -1|><|p_slptime := 3|>]|>).
Proof.
  split; [reflexivity|].
  refine (updatepri_forgets (ex_queue<|procs := [(slot None None None SLOAD 0 0 0 SSLEEP)<|p_cpu := -1|><|p_slptime := 3|>]|>)
    0 ((slot None None None SLOAD 0 0 0 SSLEEP)<|p_cpu := -1|><|p_slptime := 3|>) _ _); [reflexivity|simpl; lia].
Defined.
