(* ===== verification/Signal.v ===== *)
(** * Signals

    Posting a signal: [psignal], [gsignal], [stop], [kill] and [killpg] of
    kernel/kern_sig.c over the state of [Proc], and what [psignal] does to the
    process it is for. *)
From stdpp Require Import base tactics list option strings numbers gmap.
From S2P Require Import Prelude Proc Prot Synch.
Open Scope Z_scope.

(** ** Constants of signal.h and signalvar.h *)
Definition NSIG : Z := 32.
Definition SIGHUP : Z := 1.
Definition SIGILL : Z := 4.
Definition SIGKILL : Z := 9.
Definition SIGALRM : Z := 14.
Definition SIGSTOP : Z := 17.
Definition SIGTSTP : Z := 18.
Definition SIGCONT : Z := 19.
Definition SIGCHLD : Z := 20.
Definition SIGTTIN : Z := 21.
Definition SIGTTOU : Z := 22.

Definition SIG_DFL : Z := 0.
Definition SIG_IGN : Z := 1.
Definition SIG_CATCH : Z := 2.
Definition SIG_HOLD : Z := 3.

Definition SA_ONSTACK : Z := 0x0001.
Definition SA_RESTART : Z := 0x0002.
Definition SA_DISABLE : Z := 0x0004.
Definition SA_NOCLDSTOP : Z := 0x0008.
Definition SAS_OLDMASK : Z := 0x01.
Definition SAS_ALTSTACK : Z := 0x02.
Definition SIG_BLOCK : Z := 1.
Definition SIG_UNBLOCK : Z := 2.
Definition SIG_SETMASK : Z := 3.
Definition MINSIGSTKSZ : Z := 128.

Definition SA_KILL : Z := 0x01.
Definition SA_CORE : Z := 0x02.
Definition SA_STOP : Z := 0x04.
Definition SA_TTYSTOP : Z := 0x08.
Definition SA_IGNORE : Z := 0x10.
Definition SA_CONT : Z := 0x20.

Definition sigmask (m : Z) : Z := Z.shiftl 1 (m - 1).
Definition contsigmask : Z := sigmask SIGCONT.
Definition stopsigmask : Z :=
  Z.lor (Z.lor (Z.lor (sigmask SIGSTOP) (sigmask SIGTSTP)) (sigmask SIGTTIN)) (sigmask SIGTTOU).
Definition sigcantmask : Z := Z.lor (sigmask SIGKILL) (sigmask SIGSTOP).

Definition sigprop : list Z :=
  let K := SA_KILL in let KC := Z.lor SA_KILL SA_CORE in let TT := Z.lor SA_STOP SA_TTYSTOP in
  [0; K; K; KC; KC; KC; KC; KC; KC; K; KC; KC; KC; K; K; K; SA_IGNORE; SA_STOP; TT;
   Z.lor SA_IGNORE SA_CONT; SA_IGNORE; TT; TT; SA_IGNORE; K; K; K; K; SA_IGNORE; SA_IGNORE; K; K; 0].

Section Signal.
Context `{Layout}.

(** ** Posting a signal *)

(** The address of a process as a sleep channel. *)
Definition chan_of (p : option nat) : Z := match p with Some i => proc_addr i | None => 0 end.

Definition stop (p : nat) : M unit :=
  setp p (λ x, x<|p_stat := SSTOP|>);;
  setp p (λ x, x<|p_flag ::= λ f, bic f P_WAITED|>);;
  x ← at_ p;
  wakeup (chan_of (p_pptr x)).

(** The label [run]. *)
Definition psignal_run (p : nat) : M unit :=
  x ← at_ p;
  (if PUSER <? p_pri x then setp p (λ x, x<|p_pri := PUSER|>) else mret tt);;
  setrun p.

(** [if ((p->p_pptr->p_flag & P_NOCLDSTOP) == 0) psignal(p->p_pptr, SIGCHLD);] *)
Definition tell_parent (nested : nat → Z → M unit) (p : nat) : M unit :=
  x ← at_ p;
  match p_pptr x with
  | None => lift Wild
  | Some pp => y ← at_ pp; if negb (has (p_flag y) P_NOCLDSTOP) then nested pp SIGCHLD else mret tt
  end.

(** The case [SSLEEP]. *)
Definition psignal_asleep (nested : nat → Z → M unit) (p : nat) (sig mask prop action : Z) : M unit :=
  x ← at_ p;
  if negb (has (p_flag x) P_SINTR) then mret tt
  else if has (p_flag x) P_TRACED then psignal_run p
  else if has prop SA_CONT && (action =? SIG_DFL) then setp p (λ x, x<|p_sig ::= λ g, bic g mask|>)
  else if has prop SA_STOP then
    if negb (action =? SIG_DFL) then psignal_run p
    else if has (p_flag x) SVFORK then mret tt
    else
      setp p (λ x, x<|p_sig ::= λ g, bic g mask|>);;
      setp p (λ x, x<|p_ptracesig := s8 sig|>);;
      tell_parent nested p;;
      stop p
  else psignal_run p.

(** The case [SSTOP]. *)
Definition psignal_stopped (p : nat) (sig mask prop action : Z) : M unit :=
  x ← at_ p;
  if has (p_flag x) P_TRACED then mret tt
  else if sig =? SIGKILL then psignal_run p
  else if has prop SA_CONT then
    (if action =? SIG_DFL then setp p (λ x, x<|p_sig ::= λ g, bic g mask|>) else mret tt);;
    if (action =? SIG_CATCH) || (p_wchan x =? 0) then psignal_run p
    else setp p (λ x, x<|p_stat := SSLEEP|>)
  else if has prop SA_STOP then setp p (λ x, x<|p_sig ::= λ g, bic g mask|>)
  else if negb (p_wchan x =? 0) && has (p_flag x) P_SINTR then unsleep p
  else mret tt.

(** What is to be done with the signal; [None]: it is ignored. *)
Definition psignal_action (x : proc) (mask : Z) : option Z :=
  if has (p_flag x) P_TRACED then Some SIG_DFL
  else if has (p_sigignore x) mask then None
  else if has (p_sigmask x) mask then Some SIG_HOLD
  else if has (p_sigcatch x) mask then Some SIG_CATCH
  else Some SIG_DFL.

(** [psignal] calls itself for the parent; [depth] bounds that recursion. *)
Fixpoint psignal_rec (depth : nat) (p : nat) (sig : Z) : M unit :=
  match depth with
  | O => lift Spin
  | S depth =>
      let mask := sigmask sig in
      prop ← lift (rdz sigprop sig);
      x ← at_ p;
      match psignal_action x mask with
      | None => mret tt
      | Some action =>
          (if (NZERO <? p_nice x) && (action =? SIG_DFL) && has prop SA_KILL && negb (has (p_flag x) P_TRACED)
           then setp p (λ x, x<|p_nice := NZERO|>) else mret tt);;
          (if has prop SA_CONT then setp p (λ x, x<|p_sig ::= λ g, bic g stopsigmask|>) else mret tt);;
          if has prop SA_STOP && has prop SA_TTYSTOP && bool_decide (p_pptr x = Some 1%nat) && (action =? SIG_DFL)
          then mret tt
          else
            (if has prop SA_STOP then setp p (λ x, x<|p_sig ::= λ g, bic g contsigmask|>) else mret tt);;
            setp p (λ x, x<|p_sig ::= λ g, Z.lor g mask|>);;
            if (action =? SIG_HOLD) && (negb (has prop SA_CONT) || negb (p_stat x =? SSTOP)) then mret tt
            else if p_stat x =? SSLEEP then psignal_asleep (psignal_rec depth) p sig mask prop action
            else if p_stat x =? SSTOP then psignal_stopped p sig mask prop action
            else mret tt
      end
  end.
Definition psignal (p : nat) (sig : Z) : M unit := psignal_rec 2 p sig.

Definition gsignal (pgrp sig : Z) : M unit :=
  if pgrp =? 0 then mret tt
  else for_procs allproc tt (λ _ p, x ← at_ p; if p_pgrp x =? pgrp then psignal p sig else mret tt).

(** ** Sending signals *)

(** [fill_from_u(q, &ruid, NULL, NULL)]: the real user of a process, from its
    user area in core or on the swap device. *)
Definition fill_ruid (q : nat) : M Z :=
  x ← at_ q;
  if p_stat x =? SZOMB then mret (u32 (-2))
  else
    c ← curproc;
    if (q =? c)%nat && has (p_flag x) SLOAD then gets (λ s, u_ruid (u s))
    else
      l ← gets u_saved;
      v ← lift (rd l q);
      if has (p_flag x) SLOAD then mret (match v with Some v => u_ruid v | None => u32 (-2) end)
      else
        e ← gets (λ s, u_error (u s));
        set_error 0;;
        mret (match v with Some v => if negb (e =? 0) then u32 (-2) else u_ruid v | None => u32 (-2) end).

Definition cansignal (q : nat) (signum : Z) : M bool :=
  r ← fill_ruid q;
  c ← curproc; cp ← at_ c; y ← at_ q;
  cr ← gets (λ s, u_ruid (u s));
  if (p_uid cp =? 0) || (cr =? r) || (u32 (p_uid cp) =? r) || (cr =? u32 (p_uid y)) || (p_uid cp =? p_uid y)
  then mret true
  else if signum =? SIGCONT then inferior q
  else mret false.

(** The body of the loop of [killpg1]; the state of the loop is ([f], [error]). *)
Definition killpg1_one (signo pgrp : Z) (all : bool) (a : Z * Z) (p : nat) : M (Z * Z) :=
  let '(f, error) := a in
  x ← at_ p; c ← curproc;
  if (negb (p_pgrp x =? pgrp) && negb all) || (p_ppid x =? 0) || has (p_flag x) SSYS || (all && (p =? c)%nat)
  then mret (f, error)
  else
    ok ← cansignal p signo;
    if negb ok then mret (f, if negb all then EPERM else error)
    else (if negb (signo =? 0) then psignal p signo else mret tt);; mret (f + 1, error).
Definition killpg1 (signo pgrp : Z) (all : bool) : M Z :=
  c ← curproc; cp ← at_ c;
  let pgrp' := if negb all && (pgrp =? 0) then p_pgrp cp else pgrp in
  if negb all && (pgrp =? 0) && (pgrp' =? 0) then mret ESRCH
  else
    '(f, error) ← for_procs allproc (0, 0) (killpg1_one signo pgrp' all);
    mret (if negb (error =? 0) then error else if f =? 0 then ESRCH else 0).

Definition kill (pid signo : Z) : M unit :=
  e ← (if (signo <? 0) || (NSIG <=? signo) then mret EINVAL
       else if 0 <? pid then
         p ← pfind pid;
         match p with
         | None => mret ESRCH
         | Some p =>
             ok ← cansignal p signo;
             if negb ok then mret EPERM
             else (if negb (signo =? 0) then psignal p signo else mret tt);; mret 0
         end
       else if pid =? -1 then killpg1 signo 0 true
       else if pid =? 0 then killpg1 signo 0 false
       else killpg1 signo (s32 (- pid)) false);
  set_error e.

Definition killpg (pgrp signo : Z) : M unit :=
  e ← (if (signo <? 0) || (NSIG <=? signo) then mret EINVAL else killpg1 signo pgrp false);
  set_error e.
End Signal.

(** ** What a signal does to its target

    [target sig x] is the process [x] after it was sent [sig]: the decisions
    of [psignal] as a table. *)
Definition made_runnable (x : proc) : proc :=
  running (if PUSER <? p_pri x then x<|p_pri := PUSER|> else x).
Definition stopped_by (sig : Z) (x : proc) : proc :=
  x<|p_sig ::= λ g, bic g (sigmask sig)|><|p_ptracesig := s8 sig|><|p_stat := SSTOP|>
   <|p_flag ::= λ f, bic f P_WAITED|>.

(** The signal is recorded: a kill signal takes the niceness away, a continue
    signal cancels pending stops, a stop signal a pending continue. *)
Definition noted (sig action : Z) (prop : Z) (x : proc) : proc :=
  let x := if (NZERO <? p_nice x) && (action =? SIG_DFL) && has prop SA_KILL && negb (has (p_flag x) P_TRACED)
           then x<|p_nice := NZERO|> else x in
  if has prop SA_CONT then x<|p_sig ::= λ g, bic g stopsigmask|> else x.
Definition recorded (sig action prop : Z) (x : proc) : proc :=
  let x := noted sig action prop x in
  let x := if has prop SA_STOP then x<|p_sig ::= λ g, bic g contsigmask|> else x in
  x<|p_sig ::= λ g, Z.lor g (sigmask sig)|>.

(** A stop signal of the terminal to a child of init, not caught. *)
Definition orphaned (prop action : Z) (x : proc) : bool :=
  has prop SA_STOP && has prop SA_TTYSTOP && bool_decide (p_pptr x = Some 1%nat) && (action =? SIG_DFL).

Definition asleep_target (sig action prop : Z) (x : proc) : proc :=
  if negb (has (p_flag x) P_SINTR) then x
  else if has (p_flag x) P_TRACED then made_runnable x
  else if has prop SA_CONT && (action =? SIG_DFL) then x<|p_sig ::= λ g, bic g (sigmask sig)|>
  else if has prop SA_STOP then
    if negb (action =? SIG_DFL) then made_runnable x
    else if has (p_flag x) SVFORK then x
    else stopped_by sig x
  else made_runnable x.
Definition stopped_target (sig action prop : Z) (x : proc) : proc :=
  if has (p_flag x) P_TRACED then x
  else if sig =? SIGKILL then made_runnable x
  else if has prop SA_CONT then
    let y := if action =? SIG_DFL then x<|p_sig ::= λ g, bic g (sigmask sig)|> else x in
    if (action =? SIG_CATCH) || (p_wchan x =? 0) then made_runnable y else y<|p_stat := SSLEEP|>
  else if has prop SA_STOP then x<|p_sig ::= λ g, bic g (sigmask sig)|>
  else if negb (p_wchan x =? 0) && has (p_flag x) P_SINTR then x<|p_wchan := 0|>
  else x.
Definition target (sig : Z) (x : proc) : proc :=
  let prop := default 0 (sigprop !! Z.to_nat sig) in
  match psignal_action x (sigmask sig) with
  | None => x
  | Some action =>
      if orphaned prop action x then noted sig action prop x
      else
        let y := recorded sig action prop x in
        if (action =? SIG_HOLD) && (negb (has prop SA_CONT) || negb (p_stat x =? SSTOP)) then y
        else if p_stat x =? SSLEEP then asleep_target sig action prop y
        else if p_stat x =? SSTOP then stopped_target sig action prop y
        else y
  end.

(** ** The same, from the manual

    What a signal is for, by its number. *)
Definition stop_signals : list Z := [SIGSTOP; SIGTSTP; SIGTTIN; SIGTTOU].
Definition tty_signals : list Z := [SIGTSTP; SIGTTIN; SIGTTOU].
(** SIGHUP to SIGTERM, SIGXCPU, SIGXFSZ, SIGVTALRM, SIGPROF, SIGUSR1, SIGUSR2. *)
Definition fatal_signals : list Z := [1; 2; 3; 4; 5; 6; 7; 8; 9; 10; 11; 12; 13; 14; 15; 24; 25; 26; 27; 30; 31].
Definition among (sig : Z) (l : list Z) : bool := existsb (Z.eqb sig) l.

Inductive kind := Killing | Stopping | Continuing | Other.
Definition kind_of (sig : Z) : kind :=
  if sig =? SIGKILL then Killing
  else if among sig stop_signals then Stopping
  else if sig =? SIGCONT then Continuing
  else Other.

(** How the process takes the signal: a traced process always as by default,
    for the debugger to see; an ignored signal is dropped even when it is
    blocked; a blocked one waits even when it is caught. *)
Inductive manner := Ignored | Blocked | Caught | Default.
#[global] Instance manner_eq_dec : EqDecision manner.
Proof. solve_decision. Defined.
Definition manner_of (sig : Z) (x : proc) : manner :=
  if has (p_flag x) P_TRACED then Default
  else if Z.testbit (p_sigignore x) (sig - 1) then Ignored
  else if Z.testbit (p_sigmask x) (sig - 1) then Blocked
  else if Z.testbit (p_sigcatch x) (sig - 1) then Caught
  else Default.
Definition by_default (m : manner) : bool := bool_decide (m = Default).

Definition add_pending (sig : Z) (x : proc) : proc := x<|p_sig ::= λ g, Z.setbit g (sig - 1)|>.
Definition drop_pending (sig : Z) (x : proc) : proc := x<|p_sig ::= λ g, Z.clearbit g (sig - 1)|>.

(** A signal that kills is not held up by the niceness of its victim; a
    continue cancels the stops that are pending. *)
Definition eased (sig : Z) (m : manner) (x : proc) : proc :=
  if among sig fatal_signals && by_default m && negb (has (p_flag x) P_TRACED)
  then x<|p_nice := Z.min NZERO (p_nice x)|> else x.
Definition uncanceled (sig : Z) (m : manner) (x : proc) : proc :=
  if sig =? SIGCONT then foldr drop_pending (eased sig m x) stop_signals else eased sig m x.
(** A stop cancels a pending continue. *)
Definition pended (sig : Z) (m : manner) (x : proc) : proc :=
  let y := uncanceled sig m x in
  add_pending sig (if among sig stop_signals then drop_pending SIGCONT y else y).

(** The terminal does not stop the children of init. *)
Definition spared (sig : Z) (m : manner) (x : proc) : bool :=
  among sig tty_signals && by_default m && bool_decide (p_pptr x = Some 1%nat).

(** What becomes of a sleeper and of a stopped process when the signal is
    pending and not blocked. *)
Definition sleeper (sig : Z) (m : manner) (x : proc) : proc :=
  if negb (has (p_flag x) P_SINTR) then x
  else if has (p_flag x) P_TRACED then made_runnable x
  else match kind_of sig, m with
       | Continuing, Default => drop_pending sig x
       | Stopping, Default => if has (p_flag x) SVFORK then x else stopped_by sig x
       | _, _ => made_runnable x
       end.
Definition resumed (sig : Z) (m : manner) (x : proc) : proc :=
  let y := if by_default m then drop_pending sig x else x in
  if bool_decide (m = Caught) || (p_wchan x =? 0) then made_runnable y else y<|p_stat := SSLEEP|>.
Definition halted (sig : Z) (m : manner) (x : proc) : proc :=
  if has (p_flag x) P_TRACED then x
  else match kind_of sig with
       | Killing => made_runnable x
       | Continuing => resumed sig m x
       | Stopping => drop_pending sig x
       | Other => if negb (p_wchan x =? 0) && has (p_flag x) P_SINTR then x<|p_wchan := 0|> else x
       end.

(** The process [x] after it was sent [sig].  A blocked signal only waits,
    but a stopped process is continued even by a blocked SIGCONT. *)
Definition effect (sig : Z) (x : proc) : proc :=
  let m := manner_of sig x in
  let y := pended sig m x in
  match m with
  | Ignored => x
  | Blocked => if (sig =? SIGCONT) && (p_stat x =? SSTOP) then halted sig m y else y
  | _ => if spared sig m x then uncanceled sig m x
         else if p_stat x =? SSLEEP then sleeper sig m y
         else if p_stat x =? SSTOP then halted sig m y
         else y
  end.

(** The signal stops the process at once. *)
Definition stops_at_once (sig : Z) (x : proc) : bool :=
  among sig stop_signals && by_default (manner_of sig x) && (p_stat x =? SSLEEP) && has (p_flag x) P_SINTR &&
  negb (has (p_flag x) P_TRACED) && negb (has (p_flag x) SVFORK) && negb (spared sig (manner_of sig x) x).

(** A process that waits for [chan] when [chan] is woken. *)
Definition roused (chan : Z) (q : proc) : proc :=
  if queued q && (p_wchan q =? chan) then woken q else q.

(** All processes after [sig] was sent to [p], which was [x]: a process that
    stops tells its parent with SIGCHLD, unless the parent does not want to
    hear of it, and wakes those who wait for the parent's children. *)
Definition posted `{Layout} (sig : Z) (p : nat) (x : proc) (j : nat) (q : proc) : proc :=
  let q' := if (j =? p)%nat then effect sig q
            else if stops_at_once sig x && bool_decide (p_pptr x = Some j) && negb (has (p_flag q) P_NOCLDSTOP)
            then effect SIGCHLD q else q in
  if stops_at_once sig x then roused (chan_of (p_pptr x)) q' else q'.

(** A process never has both a stop signal and a continue signal pending. *)
Definition exclusive (x : proc) : Prop :=
  has (p_sig x) stopsigmask = false ∨ has (p_sig x) contsigmask = false.

(** ** How far signals reach

    Between [q] and [q'] only the pending signals and the scheduling state
    differ: who the process is and how it wants signals handled is kept. *)
Record mild (q q' : proc) : Prop := Mild {
  md_rest : q' = q<|p_sig := p_sig q'|><|p_stat := p_stat q'|><|p_pri := p_pri q'|><|p_cpu := p_cpu q'|>
    <|p_slptime := p_slptime q'|><|p_wchan := p_wchan q'|><|p_nice := p_nice q'|>
    <|p_ptracesig := p_ptracesig q'|><|p_flag := p_flag q'|>;
  md_flag : ∀ m, Z.land P_WAITED m = 0 → has (p_flag q') m = has (p_flag q) m;
  md_wchan : p_wchan q' = p_wchan q ∨ p_wchan q' = 0;
  md_zomb : p_stat q' = SZOMB ↔ p_stat q = SZOMB;
  md_excl : exclusive q → exclusive q' }.

Definition mild_all (s s' : kern) : Prop :=
  length (info s') = length (info s) ∧ ∀ i q, info s !! i = Some q → ∃ q', info s' !! i = Some q' ∧ mild q q'.

Section Mild.
Context `{Layout}.

Lemma mild_refl q : mild q q.
Proof. split; [by destruct q|done|by left|done|done]. Qed.
Lemma mild_trans q1 q2 q3 : mild q1 q2 → mild q2 q3 → mild q1 q3.
Proof.
  intros [A1 A2 A3 A4 A5] [B1 B2 B3 B4 B5]. split.
  - rewrite B1, A1. reflexivity.
  - intros m Hm. by rewrite B2, A2.
  - destruct B3 as [->|]; [done|by right].
  - by rewrite B4.
  - auto.
Qed.
Lemma mild_all_refl s : mild_all s s.
Proof. split; [done|]. intros i q Hq. exists q. split; [done|apply mild_refl]. Qed.
Lemma mild_all_trans s1 s2 s3 : mild_all s1 s2 → mild_all s2 s3 → mild_all s1 s3.
Proof.
  intros [A1 A2] [B1 B2]. split; [congruence|]. intros i q Hq. destruct (A2 i q Hq) as (q2 & H2 & M2).
  destruct (B2 i q2 H2) as (q3 & H3 & M3). exists q3. split; [done|]. by eapply mild_trans.
Qed.
Lemma mild_all_put s s' i x y :
  info s !! i = Some x → info s' = <[i := y]> (info s) → mild x y → mild_all s s'.
Proof.
  intros Hi Hi' Hm. split; [by rewrite Hi', length_insert|]. intros j q Hj. rewrite Hi'.
  destruct (decide (i = j)) as [<-|Hne].
  - rewrite list_lookup_insert_eq by (by eapply lookup_lt_Some). simplify_eq. eauto.
  - rewrite list_lookup_insert_ne by done. exists q. split; [done|apply mild_refl].
Qed.

Lemma mild_running x : p_stat x ≠ SZOMB → mild x (running x).
Proof.
  intros Hz. unfold running. destruct (1 <? p_slptime x); (split; [reflexivity|done|by right| |done]);
    (split; [done|]; intros E; by rewrite E in Hz).
Qed.
Lemma mild_woken x : queued x = true → mild x (woken x).
Proof.
  intros Hq. assert (Hs : p_stat x = SSLEEP ∨ p_stat x = SSTOP).
  { unfold queued in Hq. apply andb_true_iff in Hq as [Hs _]. apply orb_true_iff in Hs. by rewrite !Z.eqb_eq in Hs. }
  unfold woken. destruct Hs as [E|E]; rewrite E; simpl; [destruct (1 <? p_slptime x)|];
    (split; [reflexivity|done|by right| |done]); simpl; rewrite E; by split.
Qed.

Lemma mild_nolink x y : mild x y → mild (nolink x) (nolink y).
Proof. intros [A1 A2 A3 A4 A5]. split; [|done|done|done|done]. rewrite A1 at 1. reflexivity. Qed.

Lemma mild_woke s s' rq rq' sq sq' W : woke s s' rq rq' sq sq' W → mild_all s s'.
Proof.
  intros Hw. split; [apply Hw|]. intros i q Hq. rewrite (wk_info _ _ _ _ _ _ _ Hw i q Hq).
  eexists. split; [done|]. case_decide as Hi; [|apply mild_refl].
  destruct (wk_wait _ _ _ _ _ _ _ Hw i Hi) as (p & Hp & Hqp). simplify_eq. by apply mild_woken.
Qed.
Lemma mild_set_running s s' i x :
  procs s !! i = Some x → p_stat x ≠ SZOMB → set_running s s' i x → mild_all s s'.
Proof.
  intros Hx Hz [S1 S2 S3 _ _]. split; [done|]. intros j q Hq. destruct (decide (j = i)) as [->|Hne].
  - rewrite (info_lookup _ _ _ Hx) in Hq. simplify_eq. eexists. split; [exact S1|].
    by apply mild_nolink, mild_running.
  - rewrite (S2 j q Hne Hq). eexists. split; [done|]. destruct (_ && _ && queued q && _) eqn:E; [|apply mild_refl].
    apply andb_true_iff in E as [E _]. apply andb_true_iff in E as [_ E]. by apply mild_woken.
Qed.

(** A change that moves the process on no queue. *)
Lemma queues_put s rq sq i x y :
  queues_ok s rq sq → procs s !! i = Some x →
  p_link y = p_link x → p_slptime y = p_slptime x → p_wchan y = p_wchan x → queued y = queued x →
  p_stat y = p_stat x ∨ p_stat x ≠ SRUN ∧ dead x = false → has (p_flag y) SLOAD = has (p_flag x) SLOAD →
  queues_ok (s<|procs := <[i := y]> (procs s)|>) rq sq.
Proof.
  intros [Hl [M1 M2 M3 M4]] Hx El Et Ew Eq Es Ef. pose proof (info_lookup _ _ _ Hx) as Hix.
  assert (Hlt : (i < length (info s))%nat) by (by eapply lookup_lt_Some).
  split; [apply (lists_ok_same s); [by apply (links_put_same s _ _ x)|done|done|done]|].
  rewrite info_put. change (nolink <$> procs s) with (info s). split; [| |done|].
  - intros j Hj. destruct (M1 j Hj) as (p & Hp & Hps & Hpf). destruct (decide (i = j)) as [<-|Hne].
    + rewrite list_lookup_insert_eq by done. simplify_eq. eexists. split; [done|].
      change (p_stat x = SRUN) in Hps. change (has (p_flag x) SLOAD = true) in Hpf.
      change (p_stat (nolink y)) with (p_stat y). change (p_flag (nolink y)) with (p_flag y).
      destruct Es as [->|[? _]]; [|done]. by rewrite Ef.
    + rewrite list_lookup_insert_ne by done. eauto.
  - intros h l j Hl'. rewrite (M2 h l j Hl'). destruct (decide (i = j)) as [<-|Hne]; [|by rewrite list_lookup_insert_ne].
    rewrite list_lookup_insert_eq, Hix by done.
    split; intros (p & Hp & Hqp & Hh); simplify_eq; eexists; (split; [done|]); rewrite queued_nolink in *.
    + change (p_wchan (nolink y)) with (p_wchan y). by rewrite Eq, Ew.
    + change (p_wchan (nolink x)) with (p_wchan x). by rewrite <- Eq, <- Ew.
  - intros j p Hj Hdd. destruct (decide (i = j)) as [<-|Hne].
    + rewrite list_lookup_insert_eq in Hj by done. simplify_eq. change (0 ≤ p_slptime y ≤ 127). rewrite Et.
      apply (M4 i _ Hix). change (dead y = false) in Hdd. change (dead x = false). unfold dead in *. destruct Es as [<-|[_ ?]]; done.
    + rewrite list_lookup_insert_ne in Hj by done. by eapply M4.
Qed.

(** The state of affairs a part of [psignal] leaves: [y] is the target. *)
Definition reached s s' (p : nat) (y : proc) : Prop :=
  (∃ rq' sq', queues_ok s' rq' sq') ∧ framed s s' ∧ mild_all s s' ∧ info s' !! p = Some (nolink y).
(** Nobody else is concerned but those who wait for the swapper's channel. *)
Definition quiet s s' (p : nat) : Prop :=
  ∀ j q, j ≠ p → info s !! j = Some q → p_wchan q ≠ runout_addr → info s' !! j = Some q.
Definition affects s s' p y : Prop := reached s s' p y ∧ quiet s s' p.

Lemma affects_put s rq sq p x y :
  queues_ok s rq sq → procs s !! p = Some x → mild x y →
  p_link y = p_link x → p_slptime y = p_slptime x → p_wchan y = p_wchan x → queued y = queued x →
  p_stat y = p_stat x ∨ p_stat x ≠ SRUN ∧ dead x = false → has (p_flag y) SLOAD = has (p_flag x) SLOAD →
  affects s (s<|procs := <[p := y]> (procs s)|>) p y.
Proof.
  intros Hq Hx Hm E1 E2 E3 E4 E5 E6. assert (Hlt : (p < length (info s))%nat) by (rewrite info_length; by eapply lookup_lt_Some).
  split; [split_and!|].
  - exists rq, sq. by eapply queues_put.
  - unfold framed. by destruct s.
  - eapply mild_all_put; [by apply info_lookup|apply info_put|by apply mild_nolink].
  - rewrite info_put. by apply list_lookup_insert_eq.
  - intros j q Hj Hjq _. rewrite info_put. by rewrite list_lookup_insert_ne.
Qed.
Lemma reached_trans s1 s2 s3 p x y : reached s1 s2 p x → reached s2 s3 p y → reached s1 s3 p y.
Proof.
  intros (_ & F1 & M1 & _) (Q2 & F2 & M2 & I2). split_and!; [done|by eapply framed_trans|by eapply mild_all_trans|done].
Qed.
Lemma affects_trans s1 s2 s3 p x y : affects s1 s2 p x → affects s2 s3 p y → affects s1 s3 p y.
Proof.
  intros [R1 Q1] [R2 Q2]. split; [by eapply reached_trans|]. intros j q Hj Hq Hw. by apply Q2, Hw; [|apply Q1].
Qed.

Lemma wp_psignal_run s rq sq p x :
  queues_ok s rq sq → procs s !! p = Some x → p_stat x = SSLEEP ∨ p_stat x = SSTOP →
  wp (psignal_run p) (λ _ s', affects s s' p (made_runnable x)) s.
Proof.
  intros Hq Hx Hst. set (x1 := if PUSER <? p_pri x then x<|p_pri := PUSER|> else x).
  assert (Hr : affects s (s<|procs := <[p := x1]> (procs s)|>) p x1).
  { eapply affects_put; [done|done| | | | | | |]; unfold x1; destruct (PUSER <? p_pri x); try done; try (by left).
    - split; [reflexivity|done|by left|done|done].
    - apply mild_refl. }
  assert (Hst1 : p_stat x1 = SSLEEP ∨ p_stat x1 = SSTOP ∨ p_stat x1 = SIDL ∧ p_wchan x1 = 0).
  { unfold x1. destruct (PUSER <? p_pri x); simpl; tauto. }
  unfold psignal_run. apply wp_bind. eapply wp_at; [done|]. apply wp_bind.
  assert (HT : wp (setrun p) (λ _ s', affects s s' p (made_runnable x)) (s<|procs := <[p := x1]> (procs s)|>)).
  { destruct Hr as (((rq1 & sq1 & Hq1) & F1 & M1 & I1) & Qu1).
    assert (Hx1 : procs (s<|procs := <[p := x1]> (procs s)|>) !! p = Some x1).
    { fields. apply list_lookup_insert_eq. by eapply lookup_lt_Some. }
    eapply wp_mono; [eapply wp_setrun; [exact Hq1|exact Hx1|done]|].
    intros [] s' Hs. split; [split_and!|].
    - destruct (sr_queues _ _ _ _ Hs) as (rq' & sq' & Hq' & _). eauto.
    - eapply framed_trans; [done|apply Hs].
    - eapply mild_all_trans; [done|]. eapply mild_set_running; [exact Hx1| |done].
      destruct Hst1 as [E|[E|[E _]]]; by rewrite E.
    - apply Hs.
    - intros j q Hj Hjq Hw. rewrite (sr_other _ _ _ _ Hs j q Hj (Qu1 j q Hj Hjq Hw)).
      by rewrite (proj2 (Z.eqb_neq _ _) Hw), andb_false_r. }
  unfold x1 in HT. destruct (PUSER <? p_pri x); [by eapply wp_setp|]. apply wp_ret.
  by rewrite (procs_put_id s p x Hx) in HT.
Qed.

Lemma has_bic_false x m k : has x k = false → has (bic x m) k = false.
Proof.
  unfold has, bic. rewrite !negb_false_iff, !Z.eqb_eq. intros E.
  by rewrite <- Z.land_assoc, (Z.land_comm (Z.lnot m)), Z.land_assoc, E.
Qed.
Lemma exclusive_bic x m : exclusive x → exclusive (x<|p_sig ::= λ g, bic g m|>).
Proof. intros [E|E]; [left|right]; fields; by apply has_bic_false. Qed.
Lemma mild_bic x m : mild x (x<|p_sig ::= λ g, bic g m|>).
Proof. split; [reflexivity|done|by left|done|apply exclusive_bic]. Qed.

(** Taking pending signals. *)
Lemma wp_setsig s rq sq p x m (Q : unit → kern → Prop) :
  let y := x<|p_sig ::= λ g, bic g m|> in
  queues_ok s rq sq → procs s !! p = Some x →
  (∀ s', affects s s' p y → procs s' !! p = Some y → queues_ok s' rq sq → Q tt s') →
  wp (setp p (λ x, x<|p_sig ::= λ g, bic g m|>)) Q s.
Proof.
  intros y Hq Hx HQ. eapply wp_setp; [done|]. apply HQ.
  - by eapply affects_put; [done|done|apply mild_bic|..]; try done; left.
  - fields. apply list_lookup_insert_eq. by eapply lookup_lt_Some.
  - by eapply queues_put; [done|done|..]; try done; left.
Qed.

Lemma affects_refl s rq sq p x : queues_ok s rq sq → procs s !! p = Some x → affects s s p x.
Proof.
  intros Hq Hx. split; [|by intros j q]. split_and!; [eauto|apply framed_refl|apply mild_all_refl|by apply info_lookup].
Qed.

(** A stop signal that stops the process. *)
Definition stops (sig action prop : Z) (x : proc) : bool :=
  has (p_flag x) P_SINTR && negb (has (p_flag x) P_TRACED) && has prop SA_STOP && negb (has prop SA_CONT)
  && (action =? SIG_DFL) && negb (has (p_flag x) SVFORK).

Lemma wp_psignal_asleep nested s rq sq p x sig action prop :
  queues_ok s rq sq → procs s !! p = Some x → p_stat x = SSLEEP → stops sig action prop x = false →
  wp (psignal_asleep nested p sig (sigmask sig) prop action)
    (λ _ s', affects s s' p (asleep_target sig action prop x)) s.
Proof.
  intros Hq Hx Hst Hn. unfold psignal_asleep, asleep_target. apply wp_bind. eapply wp_at; [done|].
  unfold stops in Hn.
  destruct (has (p_flag x) P_SINTR); cbn [negb andb] in *; [|apply wp_ret; by eapply affects_refl].
  destruct (has (p_flag x) P_TRACED); cbn [negb andb] in *; [eapply wp_psignal_run; eauto|].
  destruct (has prop SA_CONT), (action =? SIG_DFL); cbn [negb andb] in *.
  1: eapply wp_setsig; [done|done|by intros s'].
  all: destruct (has prop SA_STOP); cbn [negb andb] in *; try (eapply wp_psignal_run; by eauto).
  destruct (has (p_flag x) SVFORK); [|done]. apply wp_ret. by eapply affects_refl.
Qed.

Lemma wp_psignal_stopped s rq sq p x sig action prop :
  queues_ok s rq sq → procs s !! p = Some x → p_stat x = SSTOP →
  wp (psignal_stopped p sig (sigmask sig) prop action)
    (λ _ s', affects s s' p (stopped_target sig action prop x)) s.
Proof.
  intros Hq Hx Hst. unfold psignal_stopped, stopped_target. apply wp_bind. eapply wp_at; [done|].
  destruct (has (p_flag x) P_TRACED); [apply wp_ret; by eapply affects_refl|].
  destruct (sig =? SIGKILL); [eapply wp_psignal_run; by eauto|].
  destruct (has prop SA_CONT).
  - apply wp_bind.
    set (y := if action =? SIG_DFL then x<|p_sig ::= λ g, bic g (sigmask sig)|> else x).
    assert (HK : ∀ s', affects s s' p y → procs s' !! p = Some y → queues_ok s' rq sq →
      wp (if (action =? SIG_CATCH) || (p_wchan x =? 0) then psignal_run p else setp p (λ x, x<|p_stat := SSLEEP|>))
        (λ _ s', affects s s' p (if (action =? SIG_CATCH) || (p_wchan x =? 0) then made_runnable y else y<|p_stat := SSLEEP|>)) s').
    { intros s' Ha Hy Hq'. assert (Es : p_stat y = SSTOP) by (unfold y; by destruct (action =? SIG_DFL)).
      assert (Ew : p_wchan y = p_wchan x) by (unfold y; by destruct (action =? SIG_DFL)).
      destruct ((action =? SIG_CATCH) || (p_wchan x =? 0)).
      - eapply wp_mono; [eapply wp_psignal_run; eauto|]. intros [] s2 H2. by eapply affects_trans.
      - eapply wp_setp; [done|]. eapply affects_trans; [done|]. eapply affects_put; [done|done| | | | | | |]; try done.
        + split; [reflexivity|done|by left| |done]. change (p_stat (y<|p_stat := SSLEEP|>)) with SSLEEP. rewrite Es. done.
        + unfold queued. change (p_stat (y<|p_stat := SSLEEP|>)) with SSLEEP. by rewrite Es.
        + right. unfold dead. by rewrite Es. }
    unfold y in HK. destruct (action =? SIG_DFL); [by eapply wp_setsig|]. apply wp_ret.
    apply HK; [by eapply affects_refl|done|done].
  - destruct (has prop SA_STOP); [eapply wp_setsig; [done|done|by intros s']|].
    destruct (p_wchan x =? 0) eqn:Ew; cbn [negb andb]; [apply wp_ret; by eapply affects_refl|].
    destruct (has (p_flag x) P_SINTR); [|apply wp_ret; by eapply affects_refl].
    eapply wp_unsleep; [done|done|by eauto|]. intros s' sq' Hq' Hi' Hp' _ _ Hf.
    assert (Hlt : (p < length (info s))%nat) by (rewrite info_length; by eapply lookup_lt_Some).
    split; [split_and!|].
    + eauto.
    + done.
    + eapply mild_all_put; [by apply info_lookup|exact Hi'|]. apply mild_nolink. split; [reflexivity|done|by right|done|done].
    + rewrite Hi'. by apply list_lookup_insert_eq.
    + intros j q Hj Hjq _. rewrite Hi'. by rewrite list_lookup_insert_ne.
Qed.

Lemma wp_setp_if s p x (b : bool) f (Q : unit → kern → Prop) :
  procs s !! p = Some x → Q tt (s<|procs := <[p := if b then f x else x]> (procs s)|>) →
  wp (if b then setp p f else mret tt) Q s.
Proof.
  intros Hx HQ. destruct b; [by eapply wp_setp|]. apply wp_ret. by rewrite (procs_put_id s p x Hx) in HQ.
Qed.

Lemma mild_nice x n : mild x (x<|p_nice := n|>).
Proof. split; [reflexivity|done|by left|done|done]. Qed.
Lemma mild_noted sig action prop x : mild x (noted sig action prop x).
Proof.
  unfold noted. destruct (_ && _), (has prop SA_CONT); try apply mild_refl; try apply mild_bic; try apply mild_nice.
  eapply mild_trans; [apply mild_nice|apply mild_bic].
Qed.
Definition prop_of (sig : Z) : Z := default 0 (sigprop !! Z.to_nat sig).

(** What a signal's properties say about it. *)
Lemma prop_of_kinds sig : 0 ≤ sig < NSIG →
  has (sigmask sig) stopsigmask = has (prop_of sig) SA_STOP ∧ has (sigmask sig) contsigmask = has (prop_of sig) SA_CONT ∧
  has (prop_of sig) SA_STOP && has (prop_of sig) SA_CONT = false.
Proof.
  unfold NSIG. intros Hs. assert (∃ n, sig = Z.of_nat n ∧ (n < 32)%nat) as (n & -> & Hn) by (exists (Z.to_nat sig); lia).
  do 32 (destruct n as [|n]; [by vm_compute|]). lia.
Qed.
Lemma mild_recorded sig action x : 0 ≤ sig < NSIG → mild x (recorded sig action (prop_of sig) x).
Proof.
  intros Hs. destruct (prop_of_kinds sig Hs) as (E1 & E2 & E3). set (prop := prop_of sig) in *.
  eapply mild_trans; [apply (mild_noted sig action prop)|]. unfold recorded.
  assert (HN : has prop SA_CONT = true → has (p_sig (noted sig action prop x)) stopsigmask = false).
  { intros E. unfold noted. rewrite E. fields. by apply has_bic_same. }
  set (y := noted sig action prop x) in *. destruct (has prop SA_STOP).
  - split; [reflexivity|done|by left|done|]. intros _. right. fields. rewrite has_lor, E2.
    destruct (has prop SA_CONT); [done|]. rewrite orb_false_r. by apply has_bic_same.
  - split; [reflexivity|done|by left|done|]. intros Hx. unfold exclusive. fields. rewrite !has_lor, E1, E2, orb_false_r.
    destruct (has prop SA_CONT); [left; by apply HN|]. by rewrite orb_false_r.
Qed.
Lemma noted_same sig action prop x :
  let y := noted sig action prop x in
  p_link y = p_link x ∧ p_slptime y = p_slptime x ∧ p_wchan y = p_wchan x ∧ p_stat y = p_stat x ∧
  p_flag y = p_flag x ∧ p_pptr y = p_pptr x.
Proof. unfold noted. by destruct (_ && _), (has prop SA_CONT). Qed.
Lemma recorded_same sig action prop x :
  let y := recorded sig action prop x in
  p_link y = p_link x ∧ p_slptime y = p_slptime x ∧ p_wchan y = p_wchan x ∧ p_stat y = p_stat x ∧
  p_flag y = p_flag x ∧ p_pptr y = p_pptr x.
Proof.
  destruct (noted_same sig action prop x) as (E1 & E2 & E3 & E4 & E5 & E6).
  unfold recorded. by destruct (has prop SA_STOP).
Qed.

(** The process is about to be stopped. *)
Definition will_stop (sig : Z) (x : proc) : bool :=
  match psignal_action x (sigmask sig) with
  | None => false
  | Some a => (p_stat x =? SSLEEP) && negb (orphaned (prop_of sig) a x) && stops sig a (prop_of sig) x
  end.

(** ** The code's table is the manual's *)
Lemma sig_cases (P : Z → Prop) : (∀ n, (n < 32)%nat → P (Z.of_nat n)) → ∀ sig, 0 ≤ sig < NSIG → P sig.
Proof. unfold NSIG. intros HP sig Hs. replace sig with (Z.of_nat (Z.to_nat sig)) by lia. apply HP. lia. Qed.
Lemma prop_of_lists sig : 0 ≤ sig < NSIG →
  has (prop_of sig) SA_STOP = among sig stop_signals ∧ has (prop_of sig) SA_STOP && has (prop_of sig) SA_TTYSTOP = among sig tty_signals ∧
  has (prop_of sig) SA_KILL = among sig fatal_signals ∧ has (prop_of sig) SA_CONT = (sig =? SIGCONT).
Proof. revert sig. apply sig_cases. intros n Hn. do 32 (destruct n as [|n]; [by vm_compute|]). lia. Qed.
Lemma has_sigmask w sig : 0 ≤ sig → has w (sigmask sig) = Z.testbit w (sig - 1).
Proof.
  intros Hs. unfold has, sigmask. destruct (Z.eqb_spec sig 0) as [->|Hne].
  { rewrite Z.land_0_r. by rewrite Z.testbit_neg_r. }
  rewrite Z.shiftl_1_l. destruct (Z.testbit w (sig - 1)) eqn:E.
  - apply negb_true_iff, Z.eqb_neq. intros H0. apply (f_equal (λ v, Z.testbit v (sig - 1))) in H0.
    rewrite Z.land_spec, E, Z.pow2_bits_true, Z.bits_0 in H0 by lia. done.
  - apply negb_false_iff, Z.eqb_eq. apply Z.bits_inj'. intros k Hk. rewrite Z.land_spec, Z.bits_0.
    destruct (Z.eqb_spec (sig - 1) k) as [<-|Hk']; [by rewrite E|]. rewrite Z.pow2_bits_false by lia. apply andb_false_r.
Qed.
Lemma drop_pending_bic sig x : drop_pending sig x = x<|p_sig ::= λ g, bic g (sigmask sig)|>.
Proof. unfold drop_pending, field_map, bic, sigmask, Z.clearbit. by rewrite Z.ldiff_land. Qed.
Lemma drop_stops x : foldr drop_pending x stop_signals = x<|p_sig ::= λ g, bic g stopsigmask|>.
Proof.
  unfold stop_signals. cbn [foldr]. rewrite !drop_pending_bic. unfold field_map. simpl. f_equal.
  unfold bic. rewrite <- !Z.land_assoc, <- !Z.lnot_lor. f_equal.
Qed.
Lemma uncanceled_noted sig m action x : 0 ≤ sig < NSIG → by_default m = (action =? SIG_DFL) →
  uncanceled sig m x = noted sig action (prop_of sig) x.
Proof.
  intros Hs Hm. destruct (prop_of_lists sig Hs) as (_ & _ & E3 & E4). unfold uncanceled, noted. rewrite drop_stops, E4.
  assert (E : eased sig m x = if (NZERO <? p_nice x) && (action =? SIG_DFL) && has (prop_of sig) SA_KILL && negb (has (p_flag x) P_TRACED)
    then x<|p_nice := NZERO|> else x); [|by rewrite E].
  unfold eased. rewrite E3, Hm. destruct (among sig fatal_signals), (action =? SIG_DFL), (has (p_flag x) P_TRACED); simpl; rewrite ?andb_false_r; try done.
  rewrite !andb_true_r. destruct (Z.ltb_spec NZERO (p_nice x)); [by rewrite Z.min_l by lia|].
  rewrite Z.min_r by lia. by destruct x.
Qed.
Lemma pended_recorded sig m action x : 0 ≤ sig < NSIG → by_default m = (action =? SIG_DFL) →
  pended sig m x = recorded sig action (prop_of sig) x.
Proof.
  intros Hs Hm. unfold pended, recorded. rewrite (uncanceled_noted sig m action) by done.
  destruct (prop_of_lists sig Hs) as (-> & _). rewrite drop_pending_bic. by destruct (among sig stop_signals).
Qed.

(** The numbers of kern_sig.c for the ways to take a signal. *)
Definition code_of (m : manner) : option Z :=
  match m with Ignored => None | Blocked => Some SIG_HOLD | Caught => Some SIG_CATCH | Default => Some SIG_DFL end.
Lemma action_of_manner sig x : 0 ≤ sig → psignal_action x (sigmask sig) = code_of (manner_of sig x).
Proof.
  intros Hs. unfold psignal_action, manner_of. rewrite !has_sigmask by done.
  by repeat case_match.
Qed.
Lemma spared_orphaned sig m action x : 0 ≤ sig < NSIG → by_default m = (action =? SIG_DFL) →
  spared sig m x = orphaned (prop_of sig) action x.
Proof.
  intros Hs Hm. unfold spared, orphaned. destruct (prop_of_lists sig Hs) as (_ & -> & _). rewrite Hm.
  by destruct (among sig tty_signals), (action =? SIG_DFL), (bool_decide _).
Qed.
Lemma kind_cases sig : 0 ≤ sig < NSIG →
  match kind_of sig with
  | Killing => sig = SIGKILL
  | Stopping => (sig =? SIGKILL) = false ∧ has (prop_of sig) SA_CONT = false ∧ has (prop_of sig) SA_STOP = true
  | Continuing => (sig =? SIGKILL) = false ∧ has (prop_of sig) SA_CONT = true ∧ has (prop_of sig) SA_STOP = false
  | Other => (sig =? SIGKILL) = false ∧ has (prop_of sig) SA_CONT = false ∧ has (prop_of sig) SA_STOP = false
  end.
Proof. revert sig. apply sig_cases. intros n Hn. do 32 (destruct n as [|n]; [by vm_compute|]). lia. Qed.
Lemma sleeper_target sig m action x : 0 ≤ sig < NSIG → code_of m = Some action →
  sleeper sig m x = asleep_target sig action (prop_of sig) x.
Proof.
  intros Hs Hm. unfold sleeper, asleep_target. rewrite drop_pending_bic.
  pose proof (kind_cases sig Hs) as HK. destruct (negb _), (has (p_flag x) P_TRACED); try done.
  destruct (kind_of sig); [subst sig|destruct HK as (_ & -> & ->)..]; destruct m; by inversion Hm.
Qed.
Lemma halted_target sig m action x : 0 ≤ sig < NSIG → code_of m = Some action →
  halted sig m x = stopped_target sig action (prop_of sig) x.
Proof.
  intros Hs Hm. unfold halted, stopped_target, resumed. rewrite !drop_pending_bic.
  pose proof (kind_cases sig Hs) as HK. destruct (has (p_flag x) P_TRACED); [done|].
  destruct (kind_of sig); [subst sig|destruct HK as (K1 & K2 & K3); rewrite K1, K2, ?K3..]; destruct m; by inversion Hm.
Qed.
Lemma effect_target sig x : 0 ≤ sig < NSIG → effect sig x = target sig x.
Proof.
  intros Hs. unfold effect, target. fold (prop_of sig). rewrite action_of_manner by lia.
  destruct (prop_of_lists sig Hs) as (_ & _ & _ & EC). pose proof (eq_refl (code_of (manner_of sig x))) as Ea.
  destruct (manner_of sig x) as [| | |] eqn:Em in |- *; cbn [code_of]; [done|..].
  - rewrite (pended_recorded sig Blocked SIG_HOLD) by done. rewrite (halted_target sig Blocked SIG_HOLD) by done.
    replace (orphaned (prop_of sig) SIG_HOLD x) with false by (unfold orphaned; by rewrite andb_false_r). rewrite EC.
    change (SIG_HOLD =? SIG_HOLD) with true. cbn [andb].
    destruct (sig =? SIGCONT); cbn [negb orb andb]; [|done]. destruct (Z.eqb_spec (p_stat x) SSTOP) as [->|]; done.
  - rewrite (pended_recorded sig Caught SIG_CATCH), (spared_orphaned sig Caught SIG_CATCH), (uncanceled_noted sig Caught SIG_CATCH),
      (sleeper_target sig Caught SIG_CATCH), (halted_target sig Caught SIG_CATCH) by done. done.
  - rewrite (pended_recorded sig Default SIG_DFL), (spared_orphaned sig Default SIG_DFL), (uncanceled_noted sig Default SIG_DFL),
      (sleeper_target sig Default SIG_DFL), (halted_target sig Default SIG_DFL) by done. done.
Qed.
Lemma stops_at_once_will sig x : 0 ≤ sig < NSIG → stops_at_once sig x = will_stop sig x.
Proof.
  intros Hs. unfold stops_at_once, will_stop, stops. rewrite action_of_manner by lia.
  destruct (prop_of_lists sig Hs) as (E1 & _ & _ & E4).
  assert (EK : among sig stop_signals && (sig =? SIGCONT) = false).
  { destruct (prop_of_kinds sig Hs) as (_ & _ & E). by rewrite <- E1, <- E4. }
  destruct (manner_of sig x) eqn:Em; cbn [code_of by_default]; rewrite ?andb_false_r; try done.
  rewrite (spared_orphaned sig Default SIG_DFL) by done. rewrite E1, E4.
  destruct (among sig stop_signals), (sig =? SIGCONT), (p_stat x =? SSLEEP), (has (p_flag x) P_SINTR),
    (has (p_flag x) P_TRACED), (has (p_flag x) SVFORK), (orphaned _ _ _); done.
Qed.

(** Links play no part. *)
Lemma nolink_updated x : nolink (updated x) = updated (nolink x).
Proof. reflexivity. Qed.
Lemma nolink_made_runnable x : nolink (made_runnable x) = made_runnable (nolink x).
Proof. unfold made_runnable, running. simpl. destruct (PUSER <? p_pri x); simpl; by destruct (1 <? p_slptime x). Qed.
Lemma nolink_noted sig action prop x : nolink (noted sig action prop x) = noted sig action prop (nolink x).
Proof. unfold noted. simpl. by destruct (_ && _), (has prop SA_CONT). Qed.
Lemma nolink_recorded sig action prop x : nolink (recorded sig action prop x) = recorded sig action prop (nolink x).
Proof. unfold recorded. rewrite <- nolink_noted. by destruct (has prop SA_STOP). Qed.
Lemma nolink_asleep sig action prop x : nolink (asleep_target sig action prop x) = asleep_target sig action prop (nolink x).
Proof.
  unfold asleep_target. change (p_flag (nolink x)) with (p_flag x). repeat case_match; try done; apply nolink_made_runnable.
Qed.
Lemma nolink_stopped sig action prop x :
  nolink (stopped_target sig action prop x) = stopped_target sig action prop (nolink x).
Proof.
  unfold stopped_target. change (p_flag (nolink x)) with (p_flag x). change (p_wchan (nolink x)) with (p_wchan x).
  repeat case_match; try done; apply nolink_made_runnable.
Qed.
Lemma nolink_target sig x : nolink (target sig x) = target sig (nolink x).
Proof.
  unfold target. change (psignal_action (nolink x)) with (psignal_action x).
  change (orphaned ?p ?a (nolink x)) with (orphaned p a x). change (p_stat (nolink x)) with (p_stat x).
  repeat case_match; try done; rewrite <- ?nolink_recorded; try done;
    [apply nolink_noted|apply nolink_asleep|apply nolink_stopped].
Qed.
Lemma target_nolink_eq sig x y : nolink x = nolink y → nolink (target sig x) = nolink (target sig y).
Proof. intros E. by rewrite !nolink_target, E. Qed.

Lemma rdz_sigprop sig : 0 ≤ sig < NSIG → rdz sigprop sig = Done (prop_of sig).
Proof.
  intros Hs. unfold NSIG in Hs. unfold rdz, prop_of. rewrite (proj2 (Z.leb_le 0 sig)) by lia.
  destruct (lookup_lt_is_Some_2 sigprop (Z.to_nat sig)) as [v Hv]; [simpl; lia|]. rewrite Hv. by apply rd_Done.
Qed.

(** [psignal] up to its switch: [k] is what the switch does. *)
Lemma wp_psignal_head s rq sq p x sig action (k : M unit) (Q : unit → kern → Prop) :
  let prop := prop_of sig in
  queues_ok s rq sq → procs s !! p = Some x → 0 ≤ sig < NSIG →
  (orphaned prop action x = true → ∀ s1, affects s s1 p (noted sig action prop x) → Q tt s1) →
  (orphaned prop action x = false → ∀ s1, affects s s1 p (recorded sig action prop x) →
     procs s1 !! p = Some (recorded sig action prop x) → queues_ok s1 rq sq → runout s1 = runout s →
     (∀ j, j ≠ p → procs s1 !! j = procs s !! j) → wp k Q s1) →
  wp ((if (NZERO <? p_nice x) && (action =? SIG_DFL) && has prop SA_KILL && negb (has (p_flag x) P_TRACED)
       then setp p (λ x, x<|p_nice := NZERO|>) else mret tt);;
      (if has prop SA_CONT then setp p (λ x, x<|p_sig ::= λ g, bic g stopsigmask|>) else mret tt);;
      if has prop SA_STOP && has prop SA_TTYSTOP && bool_decide (p_pptr x = Some 1%nat) && (action =? SIG_DFL)
      then mret tt
      else
        (if has prop SA_STOP then setp p (λ x, x<|p_sig ::= λ g, bic g contsigmask|>) else mret tt);;
        setp p (λ x, x<|p_sig ::= λ g, Z.lor g (sigmask sig)|>);; k) Q s.
Proof.
  intros prop Hq Hx Hs HO HR. assert (Hlt : (p < length (procs s))%nat) by (by eapply lookup_lt_Some).
  apply wp_bind. eapply wp_setp_if; [done|]. apply wp_bind.
  eapply wp_setp_if; [fields; by apply list_lookup_insert_eq|]. fields. rewrite list_insert_insert_eq.
  fold (noted sig action prop x). fold (orphaned prop action x).
  destruct (orphaned prop action x) eqn:Eo.
  - apply wp_ret. apply HO; [done|]. destruct (noted_same sig action prop x) as (E1 & E2 & E3 & E4 & E5 & _).
    eapply affects_put; [done|done|apply mild_noted|done|done|done| |by left|by rewrite E5].
    unfold queued. by rewrite E3, E4.
  - apply wp_bind. eapply wp_setp_if; [fields; by apply list_lookup_insert_eq|]. fields. rewrite list_insert_insert_eq.
    apply wp_bind. eapply wp_setp; [fields; by apply list_lookup_insert_eq|]. fields. rewrite list_insert_insert_eq.
    change (field_map p_sig (λ g, Z.lor g (sigmask sig)) _) with (recorded sig action prop x).
    destruct (recorded_same sig action prop x) as (E1 & E2 & E3 & E4 & E5 & _).
    assert (Eq : queued (recorded sig action prop x) = queued x) by (unfold queued; by rewrite E3, E4).
    apply HR; [done| | | |done|].
    + eapply affects_put; [done|done|by apply mild_recorded|done|done|done|done|by left|by rewrite E5].
    + fields. by apply list_lookup_insert_eq.
    + eapply queues_put; [done|done|done|done|done|done|by left|by rewrite E5].
    + intros j Hj. fields. by rewrite list_lookup_insert_ne.
Qed.

Lemma stops_recorded sig action prop x : stops sig action prop (recorded sig action prop x) = stops sig action prop x.
Proof. unfold stops. by destruct (recorded_same sig action prop x) as (_ & _ & _ & _ & -> & _). Qed.

(** [psignal] when it does not stop the process. *)
Lemma wp_psignal_plain depth s rq sq p x sig :
  queues_ok s rq sq → procs s !! p = Some x → 0 ≤ sig < NSIG → will_stop sig x = false →
  wp (psignal_rec (S depth) p sig) (λ _ s', affects s s' p (target sig x)) s.
Proof.
  intros Hq Hx Hs Hw. cbn [psignal_rec]. apply wp_bind. eapply wp_lift; [by apply rdz_sigprop|].
  apply wp_bind. eapply wp_at; [done|]. unfold target, will_stop in *. fold (prop_of sig).
  destruct (psignal_action x (sigmask sig)) as [action|]; [|apply wp_ret; by eapply affects_refl].
  eapply wp_psignal_head; [done|done|done| |]; intros Eo s1; rewrite Eo in *; [done|].
  intros Ha Hy Hq1 _ _. set (y := recorded sig action (prop_of sig) x) in *.
  assert (Es : p_stat y = p_stat x) by apply (recorded_same sig action (prop_of sig) x).
  destruct ((action =? SIG_HOLD) && _); [by apply wp_ret|].
  destruct (p_stat x =? SSLEEP) eqn:E1.
  - eapply wp_mono; [eapply wp_psignal_asleep; [done|done|rewrite Es; by apply Z.eqb_eq|]|].
    + unfold y. rewrite stops_recorded. by rewrite andb_true_r in Hw || exact Hw.
    + intros [] s2 H2. by eapply affects_trans.
  - destruct (p_stat x =? SSTOP) eqn:E2; [|by apply wp_ret].
    eapply wp_mono; [eapply wp_psignal_stopped; [done|done|rewrite Es; by apply Z.eqb_eq]|].
    intros [] s2 H2. by eapply affects_trans.
Qed.

(** ** Stopping a process *)
Definition has_parent s (p : nat) (x : proc) : Prop :=
  p_wchan x ≠ runout_addr ∧ ∃ pp y, p_pptr x = Some pp ∧ pp ≠ p ∧ procs s !! pp = Some y.

(** From [s] to [s'] each process [j], but those who wait for the swapper's
    channel, became what [f j] makes of it. *)
Definition becomes s s' (f : nat → proc → proc) : Prop :=
  (∃ rq' sq', queues_ok s' rq' sq') ∧ framed s s' ∧ mild_all s s' ∧
  ∀ j q, info s !! j = Some q → p_wchan q ≠ runout_addr → info s' !! j = Some (f j q).
Definition only (p : nat) (f : proc → proc) (j : nat) (q : proc) : proc := if (j =? p)%nat then f q else q.

Lemma becomes_trans s1 s2 s3 f g :
  (∀ j q, p_wchan q ≠ runout_addr → p_wchan (f j q) ≠ runout_addr) →
  becomes s1 s2 f → becomes s2 s3 g → becomes s1 s3 (λ j q, g j (f j q)).
Proof.
  intros Hf (_ & F1 & M1 & I1) (Q2 & F2 & M2 & I2).
  split_and!; [done|by eapply framed_trans|by eapply mild_all_trans|]. intros j q Hq Hw. apply I2; auto.
Qed.
Lemma becomes_ext s s' f g : (∀ j q, info s !! j = Some q → p_wchan q ≠ runout_addr → f j q = g j q) → becomes s s' f → becomes s s' g.
Proof. intros E (Q & F & Hm & Hi). split_and!; [done|done|done|]. intros j q Hq Hw. rewrite <- E by done. auto. Qed.
Lemma becomes_affects s s' p x f :
  info s !! p = Some (nolink x) → affects s s' p (f x) → nolink (f x) = f (nolink x) → becomes s s' (only p f).
Proof.
  intros Hx [(Q & F & Hm & Hi) Qu] En. split_and!; [done|done|done|]. intros j q Hq Hw. unfold only.
  destruct (Nat.eqb_spec j p) as [->|Hne]; [|by apply Qu]. simplify_eq. by rewrite Hi, En.
Qed.
Lemma becomes_put s rq sq p x f :
  queues_ok s rq sq → procs s !! p = Some x → mild x (f x) → p_link (f x) = p_link x → p_slptime (f x) = p_slptime x →
  p_wchan (f x) = p_wchan x → queued (f x) = queued x → p_stat (f x) = p_stat x ∨ p_stat x ≠ SRUN ∧ dead x = false →
  has (p_flag (f x)) SLOAD = has (p_flag x) SLOAD → nolink (f x) = f (nolink x) →
  let s' := s<|procs := <[p := f x]> (procs s)|> in becomes s s' (only p f) ∧ queues_ok s' rq sq ∧ procs s' !! p = Some (f x).
Proof.
  intros Hq Hx. intros. split_and!.
  - eapply becomes_affects; [by apply info_lookup| |done]. by eapply affects_put.
  - by eapply queues_put.
  - unfold s'. fields. apply list_lookup_insert_eq. by eapply lookup_lt_Some.
Qed.

Lemma roused_wchan chan q : p_wchan (roused chan q) = p_wchan q ∨ p_wchan (roused chan q) = 0.
Proof. unfold roused, woken. destruct (_ && _); [|by left]. right. by destruct (_ =? SSLEEP); [destruct (1 <? _)|]. Qed.
Lemma becomes_wakeup chan s rq sq : queues_ok s rq sq → wp (wakeup chan) (λ _ s', becomes s s' (λ _, roused chan)) s.
Proof.
  intros Hq. eapply wp_mono; [by eapply wp_wakeup|]. intros [] s' (W & rq' & sq' & Hw & Hsp).
  split_and!; [exists rq', sq'; apply Hw|apply Hw|by eapply mild_woke|]. intros j q Hj Hr.
  rewrite (wk_info _ _ _ _ _ _ _ Hw j q Hj). f_equal. unfold roused. case_decide as Hi.
  - destruct (wk_wait _ _ _ _ _ _ _ Hw j Hi) as (q' & Hq' & Hqq). simplify_eq. rewrite Hqq.
    destruct (ws_only _ _ _ _ Hsp j q Hi Hj) as [->|[_ ?]]; [|done]. by rewrite Z.eqb_refl.
  - destruct (queued q) eqn:Eq; [|done]. destruct (Z.eqb_spec (p_wchan q) chan); [|done].
    by destruct Hi; apply (ws_all _ _ _ _ Hsp j q).
Qed.

(** Marking the process as stopped and waking its parent. *)
Definition marked (x : proc) : proc := x<|p_stat := SSTOP|><|p_flag ::= λ f, bic f P_WAITED|>.
Lemma wp_stop s rq sq p x :
  queues_ok s rq sq → procs s !! p = Some x → p_stat x = SSLEEP →
  wp (stop p) (λ _ s', becomes s s' (λ j q, roused (chan_of (p_pptr x)) (only p marked j q))) s.
Proof.
  intros Hq Hx Hs. assert (Hlt : (p < length (procs s))%nat) by (by eapply lookup_lt_Some).
  unfold stop. apply wp_bind. eapply wp_setp; [done|]. apply wp_bind.
  eapply wp_setp; [fields; by apply list_lookup_insert_eq|]. fields. rewrite list_insert_insert_eq.
  assert (Hfl : ∀ m, Z.land P_WAITED m = 0 → has (p_flag (marked x)) m = has (p_flag x) m).
  { intros m Hm. unfold marked. fields. by apply has_bic_other. }
  destruct (becomes_put s rq sq p x marked) as (B & Hq1 & Hx1); [done|done| |done|done|done| | |by apply Hfl|done|].
  { split; [reflexivity|done|by left| |done]. unfold marked. fields. by rewrite Hs. }
  { unfold queued, marked. fields. by rewrite Hs. }
  { right. unfold dead. by rewrite Hs. }
  fold (marked x). apply wp_bind. eapply wp_at; [exact Hx1|].
  eapply wp_mono; [eapply becomes_wakeup; exact Hq1|]. intros [] s2 B2.
  eapply (becomes_trans _ _ _ (only p marked) (λ _, roused (chan_of (p_pptr x)))); [|exact B|exact B2].
  intros j q. unfold only. by destruct (j =? p)%nat.
Qed.

Lemma sigchld_plain y : will_stop SIGCHLD y = false.
Proof.
  unfold will_stop. destruct (psignal_action y _) as [a|]; [|done].
  assert (E : stops SIGCHLD a (prop_of SIGCHLD) y = false); [|by rewrite E, andb_false_r].
  unfold stops. change (has (prop_of SIGCHLD) SA_STOP) with false. by rewrite andb_false_r.
Qed.
Lemma sigchld_range : 0 ≤ SIGCHLD < NSIG.
Proof. unfold SIGCHLD, NSIG. lia. Qed.
Lemma nolink_effect sig x : 0 ≤ sig < NSIG → nolink (effect sig x) = effect sig (nolink x).
Proof. intros Hs. rewrite !effect_target by done. apply nolink_target. Qed.
Lemma effect_wchan sig x : 0 ≤ sig < NSIG → p_wchan (effect sig x) = p_wchan x ∨ p_wchan (effect sig x) = 0.
Proof.
  intros Hs. rewrite effect_target by done. unfold target, asleep_target, stopped_target.
  assert (HR : ∀ z, p_wchan (made_runnable z) = 0).
  { intros z. unfold made_runnable, running. destruct (PUSER <? p_pri z); simpl; by destruct (1 <? p_slptime z). }
  fold (prop_of sig). destruct (psignal_action x (sigmask sig)) as [a|]; [|by left].
  destruct (recorded_same sig a (prop_of sig) x) as (_ & _ & E & _).
  destruct (noted_same sig a (prop_of sig) x) as (_ & _ & E' & _).
  repeat case_match; rewrite ?HR, ?E, ?E'; try (by left); try (by right); try (left; exact E).
Qed.

(** The parent hears of it. *)
Definition told_of (pp : nat) (j : nat) (q : proc) : proc :=
  if bool_decide (Some pp = Some j) && negb (has (p_flag q) P_NOCLDSTOP) then effect SIGCHLD q else q.
Lemma told_of_wchan pp j q : p_wchan (told_of pp j q) = p_wchan q ∨ p_wchan (told_of pp j q) = 0.
Proof. unfold told_of. destruct (_ && _); [apply effect_wchan, sigchld_range|by left]. Qed.
Lemma wp_tell_parent depth s rq sq p x pp y :
  queues_ok s rq sq → procs s !! p = Some x → p_pptr x = Some pp → procs s !! pp = Some y →
  wp (tell_parent (psignal_rec (S depth)) p) (λ _ s', becomes s s' (told_of pp)) s.
Proof.
  intros Hq Hx Hpp Hy. pose proof (info_lookup _ _ _ Hy) as Hiy.
  unfold tell_parent. apply wp_bind. eapply wp_at; [done|]. rewrite Hpp. apply wp_bind. eapply wp_at; [done|].
  destruct (has (p_flag y) P_NOCLDSTOP) eqn:Ef; cbn [negb].
  - apply wp_ret. split_and!; [eauto|apply framed_refl|apply mild_all_refl|]. intros j q Hj _. unfold told_of.
    destruct (decide (pp = j)) as [<-|Hne]; [|rewrite bool_decide_eq_false_2; [done|congruence]].
    simplify_eq. change (p_flag (nolink y)) with (p_flag y). by rewrite Ef, andb_false_r.
  - eapply wp_mono; [eapply wp_psignal_plain; [done|done|apply sigchld_range|apply sigchld_plain]|]. intros [] s' Ha.
    rewrite <- effect_target in Ha by apply sigchld_range.
    eapply becomes_ext; [|eapply (becomes_affects s s' pp y (effect SIGCHLD)); [done|done|apply nolink_effect, sigchld_range]].
    intros j q Hj _. unfold only, told_of. destruct (Nat.eqb_spec j pp) as [->|Hne].
    + simplify_eq. rewrite bool_decide_eq_true_2 by done. change (p_flag (nolink y)) with (p_flag y). by rewrite Ef.
    + by rewrite bool_decide_eq_false_2 by congruence.
Qed.

(** The signal is noticed and remembered for the parent. *)
Definition noticed (sig : Z) (x : proc) : proc := x<|p_sig ::= λ g, bic g (sigmask sig)|><|p_ptracesig := s8 sig|>.
Lemma only_wchan p f j q : (∀ q, p_wchan (f q) = p_wchan q) → p_wchan (only p f j q) = p_wchan q.
Proof. intros Hf. unfold only. by destruct (j =? p)%nat. Qed.
Lemma wp_asleep_stop depth s rq sq p x sig action prop pp y :
  queues_ok s rq sq → procs s !! p = Some x → p_stat x = SSLEEP → stops sig action prop x = true →
  p_pptr x = Some pp → pp ≠ p → procs s !! pp = Some y → runout_addr ≠ 0 → p_wchan x ≠ runout_addr →
  wp (psignal_asleep (psignal_rec (S depth)) p sig (sigmask sig) prop action)
    (λ _ s', becomes s s' (λ j q, roused (proc_addr pp) (if (j =? p)%nat then asleep_target sig action prop q else told_of pp j q))) s.
Proof.
  intros Hq Hx Hst Hn Hpp Hne Hy Hro Hxw. pose proof (info_lookup _ _ _ Hx) as Hix.
  unfold psignal_asleep. apply wp_bind. eapply wp_at; [done|]. pose proof Hn as Hn'.
  unfold stops in Hn. rewrite !andb_true_iff in Hn. destruct Hn as [[[[[F1 F2] F3] F4] F5] F6].
  apply negb_true_iff in F2, F4, F6. rewrite F1, F2, F3, F4, F5, F6. cbn [negb andb]. apply wp_bind.
  eapply wp_setp; [done|]. apply wp_bind. eapply wp_setp; [fields; apply list_lookup_insert_eq; by eapply lookup_lt_Some|].
  fields. rewrite list_insert_insert_eq.
  destruct (becomes_put s rq sq p x (noticed sig)) as (B2 & Hq2 & Hx2); [done|done| |done|done|done|done|by left|done|done|].
  { apply (mild_trans _ (x<|p_sig ::= λ g, bic g (sigmask sig)|>)); [apply mild_bic|]. split; [reflexivity|done|by left|done|done]. }
  fold (noticed sig x). set (s2 := s<|procs := <[p := noticed sig x]> (procs s)|>) in *.
  assert (Hy2 : procs s2 !! pp = Some y) by (unfold s2; fields; by rewrite list_lookup_insert_ne).
  apply wp_bind. eapply wp_mono; [by eapply (wp_tell_parent _ s2 rq sq p (noticed sig x) pp y)|]. intros [] s3 B3.
  assert (Hw2 : ∀ j q, p_wchan q ≠ runout_addr → p_wchan (only p (noticed sig) j q) ≠ runout_addr).
  { intros j q. by rewrite only_wchan. }
  assert (Hw3 : ∀ j q, p_wchan q ≠ runout_addr → p_wchan (told_of pp j q) ≠ runout_addr).
  { intros j q E. destruct (told_of_wchan pp j q) as [->| ->]; [done|by apply not_eq_sym]. }
  assert (Hi3 : info s3 !! p = Some (nolink (noticed sig x))).
  { destruct B3 as (_ & _ & _ & I3). rewrite (I3 p _ (info_lookup _ _ _ Hx2)) by exact Hxw. f_equal. unfold told_of.
    by rewrite bool_decide_eq_false_2 by congruence. }
  destruct (info_lookup_inv _ _ _ Hi3) as (x3 & Hx3 & E3). pose proof B3 as ((rq3 & sq3 & Hq3) & _).
  eapply wp_mono; [eapply (wp_stop s3 rq3 sq3 p x3); [done|done|]|].
  { change (p_stat (nolink x3) = SSLEEP). by rewrite <- E3. }
  assert (Epp : p_pptr x3 = Some pp) by (change (p_pptr (nolink x3) = Some pp); by rewrite <- E3).
  intros [] s4 B4. rewrite Epp in B4.
  eapply becomes_ext; [|eapply becomes_trans; [|eapply becomes_trans; [exact Hw2|exact B2|exact B3]|exact B4]]; [|by intros; apply Hw3, Hw2].
  intros j q Hj _. unfold only. simpl. f_equal. destruct (Nat.eqb_spec j p) as [->|Hjp]; [|done].
  rewrite Hix in Hj. injection Hj as <-. unfold told_of. rewrite bool_decide_eq_false_2 by congruence.
  unfold asleep_target. change (p_flag (nolink x)) with (p_flag x). rewrite F1, F2, F3, F4, F5, F6. reflexivity.
Qed.

(** [psignal], whatever the signal. *)
Lemma wp_psignal s rq sq p x sig :
  queues_ok s rq sq → procs s !! p = Some x → 0 ≤ sig < NSIG → (will_stop sig x = true → has_parent s p x ∧ runout_addr ≠ 0) →
  wp (psignal p sig) (λ _ s', becomes s s' (posted sig p x) ∧ (will_stop sig x = false → affects s s' p (target sig x))) s.
Proof.
  intros Hq Hx Hs Hp. pose proof (info_lookup _ _ _ Hx) as Hix. unfold psignal. destruct (will_stop sig x) eqn:Hw.
  - pose proof (stops_at_once_will sig x Hs) as Esn. rewrite Hw in Esn.
    change 2%nat with (S 1). remember 1%nat as d eqn:Ed. cbn [psignal_rec].
    apply wp_bind. eapply wp_lift; [by apply rdz_sigprop|].
    apply wp_bind. eapply wp_at; [done|]. unfold will_stop in Hw.
    destruct (psignal_action x (sigmask sig)) as [action|] eqn:Ea; [|done].
    rewrite !andb_true_iff in Hw. destruct Hw as [[E1 Eo] Est]. apply negb_true_iff in Eo.
    assert (EH : (action =? SIG_HOLD) = false).
    { unfold stops in Est. rewrite !andb_true_iff in Est. destruct Est as [[_ E] _]. apply Z.eqb_eq in E. by subst. }
    eapply wp_psignal_head; [done|done|done| |]; intros Eo' s1; rewrite Eo in *; [done|].
    intros Ha Hy Hq1 Ero Hoth. rewrite EH, E1. cbn [andb]. subst d.
    destruct (recorded_same sig action (prop_of sig) x) as (_ & _ & Ew & Es & _ & Epp).
    destruct (Hp eq_refl) as ((Hw & pp & z & Hpp & Hne & Hz) & Hro).
    eapply wp_mono; [eapply (wp_asleep_stop _ s1 rq sq p (recorded sig action (prop_of sig) x) sig action (prop_of sig) pp z);
      [done|done| | |by rewrite Epp|done|by rewrite Hoth|done|by rewrite Ew]|].
    + rewrite Es. by apply Z.eqb_eq.
    + by rewrite stops_recorded.
    + intros [] s2 B2. split; [|done].
      pose proof (becomes_affects s s1 p x (recorded sig action (prop_of sig)) Hix Ha (nolink_recorded _ _ _ _)) as B1.
      eapply becomes_ext; [|eapply becomes_trans; [|exact B1|exact B2]].
      * intros j q Hj _. unfold posted. rewrite Esn, Hpp. simpl. f_equal. unfold only, told_of.
        destruct (Nat.eqb_spec j p) as [->|]; [|done]. simplify_eq.
        rewrite effect_target by done. unfold target. fold (prop_of sig).
        change (psignal_action (nolink x)) with (psignal_action x). rewrite Ea.
        change (orphaned (prop_of sig) action (nolink x)) with (orphaned (prop_of sig) action x). rewrite Eo, EH.
        change (p_stat (nolink x)) with (p_stat x). by rewrite E1.
      * intros j q Hjw. unfold only. destruct (j =? p)%nat; [|done]. by destruct (recorded_same sig action (prop_of sig) q) as (_ & _ & -> & _).
  - eapply wp_mono; [by eapply wp_psignal_plain|]. intros [] s' Ha. split; [|done]. rewrite <- effect_target in Ha by done.
    eapply becomes_ext; [|eapply (becomes_affects s s' p x (effect sig)); [done|done|by apply nolink_effect]].
    intros j q Hj _. unfold posted. rewrite stops_at_once_will, Hw by done. reflexivity.
Qed.
End Mild.

