(* ===== verification/Kill.v ===== *)
(** * Sending signals

    Who may signal whom, and what [kill] and [killpg] of kernel/kern_sig.c do
    to the processes they address, over the theorems on [psignal] of
    [Signal]. *)
From stdpp Require Import base tactics list option strings numbers gmap.
From S2P Require Import Prelude Proc Prot Synch Signal.
Open Scope Z_scope.

(** ** Who may be signalled *)
Section Kill.
Context `{Layout}.
Implicit Types (s : kern).

(** The real user of the process [q], as [fill_from_u] finds it. *)
Definition ruid_of s (q : nat) : Z :=
  match procs s !! q with
  | Some x =>
      if p_stat x =? SZOMB then u32 (-2)
      else if (q =? u_procp (u s))%nat && has (p_flag x) SLOAD then u_ruid (u s)
      else match u_saved s !! q with Some (Some v) => u_ruid v | _ => u32 (-2) end
  | None => 0
  end.

(** One of the real and effective users of the sender is one of the target's,
    or the sender is the super-user. *)
Definition kin s (q : nat) : bool :=
  match procs s !! u_procp (u s), procs s !! q with
  | Some cp, Some y =>
      (p_uid cp =? 0) || (u_ruid (u s) =? ruid_of s q) || (u32 (p_uid cp) =? ruid_of s q)
      || (u_ruid (u s) =? u32 (p_uid y)) || (p_uid cp =? p_uid y)
  | _, _ => false
  end.

(** A sender may signal its kin, and continue its descendants. *)
Definition may s (q : nat) (signo : Z) : Prop :=
  kin s q = true ∨ signo = SIGCONT ∧ desc s (u_procp (u s)) q.

(** What the calls rely on, for the processes [all]. *)
Record sig_env s (all : list nat) : Prop := SigEnv {
  e_prot : prot_env s all;
  e_saved : length (u_saved s) = length (procs s);
  e_queues : ∃ rq sq, queues_ok s rq sq;
  e_runout : runout_addr ≠ 0;
  e_noerror : u_error (u s) = 0;
  e_parent : ∀ i x, i ∈ all → procs s !! i = Some x →
    has (p_flag x) SSYS = true ∧ p_pid x = 0 ∨ has_parent s i x }.

Lemma set_error_id s : u_error (u s) = 0 → s<|u ::= λ v, v<|u_error := 0|>|> = s.
Proof. intros E. destruct s as [?????????????? w ???]. destruct w. simpl in E. by subst. Qed.

Lemma wp_fill_ruid s all q x (Q : Z → kern → Prop) :
  sig_env s all → procs s !! q = Some x → Q (ruid_of s q) s → wp (fill_ruid q) Q s.
Proof.
  intros He Hx HQ. unfold fill_ruid, ruid_of in *. rewrite Hx in HQ. apply wp_bind. eapply wp_at; [done|].
  destruct (p_stat x =? SZOMB); [by apply wp_ret|]. unfold curproc. wp_go.
  destruct ((q =? u_procp (u s))%nat && has (p_flag x) SLOAD); [by apply wp_gets|].
  wp_go. destruct (lookup_lt_is_Some_2 (u_saved s) q) as [v Hv].
  { rewrite (e_saved _ _ He). by eapply lookup_lt_Some. }
  eapply wp_lift; [by apply rd_Done|]. rewrite Hv in HQ. pose proof (e_noerror _ _ He) as E0.
  destruct (has (p_flag x) SLOAD); [by destruct v|]. wp_go. apply wp_setu. wp_go.
  rewrite (set_error_id s E0), E0. by destruct v.
Qed.

Lemma rooted_same s s' n : ∀ i, procs s' = procs s → rooted s n i → rooted s' n i.
Proof.
  induction n as [|n IH]; intros i E (p & Hp & Hd); exists p; rewrite E; (split; [done|]);
    (destruct Hd as [Hd|Hd]; [by left|right]); [done|]. destruct Hd as (j & Hj & Hd). eauto.
Qed.
Lemma wp_cansignal s all q signo (Q : bool → kern → Prop) :
  sig_env s all → q ∈ all → (∀ b, (b = true ↔ may s q signo) → Q b s) → wp (cansignal q signo) Q s.
Proof.
  intros He Hq HQ. pose proof (e_prot _ _ He) as Hp. destruct (e_all _ _ Hp q Hq) as [x Hx].
  destruct (e_cur _ _ Hp) as [cp Hc]. unfold cansignal. apply wp_bind.
  eapply wp_fill_ruid; [done|done|]. unfold curproc. wp_go. eapply wp_at; [done|]. wp_go. eapply wp_at; [done|]. wp_go.
  assert (Ek : kin s q = (p_uid cp =? 0) || (u_ruid (u s) =? ruid_of s q) || (u32 (p_uid cp) =? ruid_of s q)
      || (u_ruid (u s) =? u32 (p_uid x)) || (p_uid cp =? p_uid x)) by (unfold kin; by rewrite Hc, Hx).
  rewrite <- Ek. unfold may in HQ. destruct (kin s q) eqn:E; [apply wp_ret, HQ; split; auto|].
  destruct (Z.eqb_spec signo SIGCONT) as [Es|Es].
  - destruct (e_rooted _ _ Hp q Hq) as (n & Hn & Hr).
    eapply wp_mono; [by eapply (wp_inferior s q n)|]. intros b s2 [-> Hb]. apply HQ. rewrite Hb. split; [auto|].
    by intros [?|[_ ?]].
  - apply wp_ret, HQ. split; [done|]. by intros [?|[? _]].
Qed.

(** ** Stability

    Signals leave who a process is unchanged. *)
Definition same_who (x x' : proc) : Prop :=
  p_uid x' = p_uid x ∧ p_pid x' = p_pid x ∧ p_ppid x' = p_ppid x ∧ p_pptr x' = p_pptr x ∧ p_pgrp x' = p_pgrp x ∧
  p_hash x' = p_hash x ∧ p_nxt x' = p_nxt x ∧ (p_stat x' =? SZOMB) = (p_stat x =? SZOMB) ∧
  (∀ m, Z.land P_WAITED m = 0 → has (p_flag x') m = has (p_flag x) m) ∧ (p_wchan x' = p_wchan x ∨ p_wchan x' = 0).

(** The state but the process table, its queues and the request to
    reschedule. *)
Definition others s := (allproc s, zombproc s, freeproc s, pidhash s, (curpri s, noproc s, runin s, mpid s, pidchecked s),
  (u_saved s, umem s, time_sec s)).

Definition calm s s' : Prop :=
  mild_all s s' ∧ others s' = others s ∧ (u s')<|u_error := 0|> = (u s)<|u_error := 0|>.

Lemma calm_refl s : calm s s.
Proof. split_and!; [apply mild_all_refl|done|done]. Qed.
Lemma calm_trans s1 s2 s3 : calm s1 s2 → calm s2 s3 → calm s1 s3.
Proof. intros (M1 & E1 & U1) (M2 & E2 & U2). split_and!; [by eapply mild_all_trans|congruence|congruence]. Qed.
Lemma calm_set s e : calm s (s<|u ::= λ v, v<|u_error := e|>|>).
Proof. split_and!; [exact (mild_all_refl s)|done|done]. Qed.
Lemma calm_framed s s' : mild_all s s' → framed s s' → calm s s'.
Proof. intros Hm E. unfold framed in E. split_and!; [done|by rewrite E|by rewrite E]. Qed.

Lemma mild_same_who x x' : mild (nolink x) (nolink x') → same_who x x'.
Proof.
  intros [A1 A2 A3 A4 A5]. unfold same_who.
  split_and!; [apply (f_equal p_uid) in A1|apply (f_equal p_pid) in A1|apply (f_equal p_ppid) in A1
    |apply (f_equal p_pptr) in A1|apply (f_equal p_pgrp) in A1|apply (f_equal p_hash) in A1
    |apply (f_equal p_nxt) in A1|..]; try exact A1; [|exact A2|exact A3].
  change (p_stat (nolink x')) with (p_stat x') in A4. change (p_stat (nolink x)) with (p_stat x) in A4.
  destruct (Z.eqb_spec (p_stat x') SZOMB), (Z.eqb_spec (p_stat x) SZOMB); tauto.
Qed.
Lemma calm_who s s' i x : calm s s' → procs s !! i = Some x → ∃ x', procs s' !! i = Some x' ∧ same_who x x'.
Proof.
  intros ((_ & Hm) & _) Hx. destruct (Hm i _ (info_lookup _ _ _ Hx)) as (q' & Hq' & Hmi).
  apply info_lookup_inv in Hq' as (x' & Hx' & ->). exists x'. split; [done|]. by apply mild_same_who.
Qed.
Lemma calm_who_inv s s' i x' : calm s s' → procs s' !! i = Some x' → ∃ x, procs s !! i = Some x ∧ same_who x x'.
Proof.
  intros Hc Hx'. destruct (procs s !! i) as [x|] eqn:Hx.
  - destruct (calm_who _ _ _ _ Hc Hx) as (y & Hy & Hs). simplify_eq. eauto.
  - destruct Hc as [[El _] _]. rewrite !info_length in El. apply lookup_ge_None in Hx. apply lookup_lt_Some in Hx'. lia.
Qed.
Lemma calm_length s s' : calm s s' → length (procs s') = length (procs s).
Proof. intros [[El _] _]. by rewrite !info_length in El. Qed.
Lemma calm_links {A} (f : proc → A) s s' :
  (∀ x x', same_who x x' → f x' = f x) → calm s s' → f <$> procs s' = f <$> procs s.
Proof.
  intros Hf Hc. apply list_eq. intros i. rewrite !list_lookup_fmap. destruct (procs s !! i) as [x|] eqn:Hx.
  - destruct (calm_who _ _ _ _ Hc Hx) as (x' & -> & Hs). simpl. f_equal. by apply Hf.
  - apply lookup_ge_None in Hx. rewrite (proj2 (lookup_ge_None (procs s') i)); [done|]. by rewrite (calm_length _ _ Hc).
Qed.
Lemma calm_lseg (f : proc → option nat) s s' p l q :
  (∀ x x', same_who x x' → f x' = f x) → calm s s' → lseg f (procs s) p l q → lseg f (procs s') p l q.
Proof.
  intros Hf Hc. apply lseg_links. intros i _. rewrite <- !list_lookup_fmap. by rewrite (calm_links f s s').
Qed.
Lemma calm_u s s' : calm s s' → u_procp (u s') = u_procp (u s) ∧ u_ruid (u s') = u_ruid (u s) ∧
  u_groups (u s') = u_groups (u s) ∧ pidhash s' = pidhash s ∧ u_saved s' = u_saved s ∧ allproc s' = allproc s.
Proof.
  intros (_ & E & U). injection E as E1 _ _ E2 _ _ _ _ _ E3 _ _.
  split_and!; [by apply (f_equal u_procp) in U|by apply (f_equal u_ruid) in U|by apply (f_equal u_groups) in U|done..].
Qed.

Lemma calm_rooted s s' n : ∀ i, calm s s' → rooted s n i → rooted s' n i.
Proof.
  induction n as [|n IH]; intros i Hc (p & Hp & Hd); destruct (calm_who _ _ _ _ Hc Hp) as (p' & Hp' & Hw);
    exists p'; (split; [done|]); destruct Hw as (_ & _ & E1 & E2 & _); rewrite E1, ?E2; (destruct Hd as [Hd|Hd]; [by left|right]); [done|].
  destruct Hd as (j & Hj & Hd). eauto.
Qed.
Lemma calm_desc s s' c i : calm s s' → desc s' c i ↔ desc s c i.
Proof.
  intros Hc. split; (induction 1 as [|i j p Hi Hpp Hj _ IH]; [constructor|]).
  - destruct (calm_who_inv _ _ _ _ Hc Hi) as (x & Hx & (_ & _ & E1 & E2 & _)). apply (desc_parent _ _ i j x); [done|congruence|congruence|done].
  - destruct (calm_who _ _ _ _ Hc Hi) as (x & Hx & (_ & _ & E1 & E2 & _)). apply (desc_parent _ _ i j x); [done|congruence|congruence|done].
Qed.

Lemma prot_env_calm s s' all : calm s s' → prot_env s all → prot_env s' all.
Proof.
  intros Hc [Hh Hr Ha Hcur Hg]. destruct (calm_u _ _ Hc) as (E1 & E2 & E3 & E4 & E5 & _). split.
  - intros h Hlt. destruct (Hh h Hlt) as (hd & c & Hhd & Hseg & Hnd & Hin). exists hd, c. rewrite E4.
    split_and!; [done| |done|].
    + eapply calm_lseg; [|done|done]. by intros x x' (_ & _ & _ & _ & _ & ? & _).
    + intros i. rewrite Hin. split; intros (Hia & p & Hp & Hpid); (split; [done|]).
      * destruct (calm_who _ _ _ _ Hc Hp) as (p' & Hp' & (_ & E & _)). exists p'. by rewrite E.
      * destruct (calm_who_inv _ _ _ _ Hc Hp) as (p' & Hp' & (_ & E & _)). exists p'. by rewrite <- E.
  - intros i Hi. destruct (Hr i Hi) as (n & Hn & Hroot). exists n. rewrite (calm_length _ _ Hc).
    split; [done|]. by eapply calm_rooted.
  - intros i Hi. destruct (Ha i Hi) as [p Hp]. destruct (calm_who _ _ _ _ Hc Hp) as (p' & Hp' & _). eauto.
  - destruct Hcur as [p Hp]. rewrite E1. destruct (calm_who _ _ _ _ Hc Hp) as (p' & Hp' & _). eauto.
  - by rewrite E3.
Qed.
Lemma sig_env_calm s s' all : calm s s' → u_error (u s') = 0 → (∃ rq sq, queues_ok s' rq sq) → sig_env s all → sig_env s' all.
Proof.
  intros Hc Her Hq' [Hp Hsv Hq Hro _ Hpar]. destruct (calm_u _ _ Hc) as (E1 & E2 & E3 & E4 & E5 & _). split.
  - by eapply prot_env_calm.
  - by rewrite E5, (calm_length _ _ Hc).
  - done.
  - done.
  - done.
  - intros i x' Hi Hx'. destruct (calm_who_inv _ _ _ _ Hc Hx') as (x & Hx & Hw).
    destruct Hw as (_ & W2 & _ & W4 & _ & _ & _ & _ & W9 & W10).
    destruct (Hpar i x Hi Hx) as [Hs|(Hrw & pp & y & Hpp & Hne & Hy)]; [left; by rewrite W9, W2|right].
    destruct (calm_who _ _ _ _ Hc Hy) as (y' & Hy' & _).
    split; [destruct W10; congruence|]. exists pp, y'. by rewrite W4.
Qed.

Lemma ruid_of_calm s s' q : calm s s' → ruid_of s' q = ruid_of s q.
Proof.
  intros Hc. destruct (calm_u _ _ Hc) as (E1 & E2 & E3 & E4 & E5 & _). unfold ruid_of.
  destruct (procs s !! q) as [x|] eqn:Hx.
  - destruct (calm_who _ _ _ _ Hc Hx) as (x' & -> & (_ & _ & _ & _ & _ & _ & _ & -> & Hf & _)).
    rewrite Hf by done. by rewrite E1, E2, E5.
  - destruct (procs s' !! q) as [x'|] eqn:Hx'; [|done].
    destruct (calm_who_inv _ _ _ _ Hc Hx') as (x & ? & _). congruence.
Qed.
Lemma may_calm s s' q signo : calm s s' → may s' q signo ↔ may s q signo.
Proof.
  intros Hc. destruct (calm_u _ _ Hc) as (E1 & E2 & _). unfold may. rewrite E1, (calm_desc _ _ _ _ Hc).
  assert (Ek : kin s' q = kin s q); [|by rewrite Ek]. unfold kin. rewrite E1, E2, (ruid_of_calm _ _ _ Hc).
  assert (Hu : ∀ i, p_uid <$> procs s' !! i = p_uid <$> procs s !! i).
  { intros i. rewrite <- !list_lookup_fmap. rewrite (calm_links p_uid s s'); [done| |done]. by intros x x' (? & _). }
  pose proof (Hu q) as H1. pose proof (Hu (u_procp (u s))) as H2.
  destruct (procs s !! u_procp (u s)), (procs s' !! u_procp (u s)); simplify_eq/=; [|done].
  destruct (procs s !! q), (procs s' !! q); simplify_eq/=; [|done]. by rewrite H1, H2.
Qed.

(** ** Posting to one process

    Signal 0 only asks for permission. *)
Definition sent (signo : Z) (x : proc) : proc := if signo =? 0 then x else effect signo x.
(** All processes after the process [i], which was [x], was sent [signo]. *)
Definition dealt (signo : Z) (i : nat) (x : proc) (j : nat) (q : proc) : proc :=
  if signo =? 0 then q else posted signo i x j q.
Definition deal (signo : Z) (t : list proc) (i : nat) : list proc :=
  match t !! i with Some x => imap (dealt signo i x) t | None => t end.

Lemma plain_signal signo x : has (prop_of signo) SA_STOP = false → will_stop signo x = false.
Proof.
  intros E. unfold will_stop. destruct (psignal_action x _) as [a|]; [|done]. unfold stops. rewrite E, andb_false_r.
  simpl. apply andb_false_r.
Qed.
Lemma stops_at_once_plain signo x : among signo stop_signals = false → stops_at_once signo x = false.
Proof. intros E. unfold stops_at_once. by rewrite E. Qed.
Lemma dealt_plain signo i x j q :
  among signo stop_signals = false → dealt signo i x j q = if (j =? i)%nat then sent signo q else q.
Proof.
  intros E. unfold dealt, sent, posted. rewrite (stops_at_once_plain signo x E). simpl.
  by destruct (signo =? 0), (j =? i)%nat.
Qed.

Lemma wp_send s all i x signo :
  sig_env s all → procs s !! i = Some x → has_parent s i x → 0 ≤ signo < NSIG →
  wp (if negb (signo =? 0) then psignal i signo else mret tt)
    (λ _ s', calm s s' ∧ sig_env s' all ∧ becomes s s' (dealt signo i x)) s.
Proof.
  intros He Hx Hpar Hs. destruct (e_queues _ _ He) as (rq & sq & Hq). unfold dealt.
  destruct (signo =? 0); simpl.
  - apply wp_ret. split_and!; [apply calm_refl|done|]. split_and!; [eauto|apply framed_refl|apply mild_all_refl|done].
  - eapply wp_mono; [eapply wp_psignal; [done|done|done|]|].
    { intros _. split; [done|]. apply He. }
    intros [] s' [HB _]. pose proof HB as (Hq' & HF & HM & _). assert (Hc : calm s s') by (by apply calm_framed).
    split_and!; [done| |done]. eapply sig_env_calm; [done| |done|done]. unfold framed in HF. rewrite HF. apply (e_noerror _ _ He).
Qed.

(** ** Whom a call addresses *)

(** The members of a group, or everyone ([all]); not init, not the system's
    processes and, when everyone is meant, not the sender. *)
Definition chosen s (pgrp : Z) (all : bool) (i : nat) : bool :=
  match procs s !! i with
  | Some x => (all || (p_pgrp x =? pgrp)) && negb (p_ppid x =? 0) && negb (has (p_flag x) SSYS)
              && negb (all && (i =? u_procp (u s))%nat)
  | None => false
  end.

(** The signal was sent to those of [l] who are addressed and may be
    signalled, one after the other. *)
Definition delivered s s' (signo : Z) (addr : nat → Prop) (l : list nat) : Prop :=
  ∃ l', l' `sublist_of` l ∧ (∀ i, i ∈ l' ↔ addr i ∧ may s i signo) ∧
    ∀ j q, info s !! j = Some q → p_wchan q ≠ runout_addr → info s' !! j = foldl (deal signo) (info s) l' !! j.

(** When the signal stops nobody: whoever was addressed is in the state the
    signal puts it in; the others are as they were. *)
Definition distributed s s' (signo : Z) (addr : nat → Prop) : Prop :=
  ∀ i x, procs s !! i = Some x → p_wchan x ≠ runout_addr →
    (addr i ∧ may s i signo → info s' !! i = Some (nolink (sent signo x))) ∧
    (¬ (addr i ∧ may s i signo) → info s' !! i = Some (nolink x)).

Lemma chosen_calm s s' pgrp all i : calm s s' → chosen s' pgrp all i = chosen s pgrp all i.
Proof.
  intros Hc. destruct (calm_u _ _ Hc) as (E1 & _). unfold chosen. rewrite E1.
  destruct (procs s !! i) as [x|] eqn:Hx.
  - destruct (calm_who _ _ _ _ Hc Hx) as (x' & -> & (_ & _ & -> & _ & -> & _ & _ & _ & Hf & _)). by rewrite Hf.
  - destruct (procs s' !! i) as [x'|] eqn:Hx'; [|done]. destruct (calm_who_inv _ _ _ _ Hc Hx') as (x & ? & _). congruence.
Qed.

Lemma deal_plain signo l : among signo stop_signals = false → NoDup l → ∀ t j q, t !! j = Some q →
  foldl (deal signo) t l !! j = Some (if bool_decide (j ∈ l) then sent signo q else q).
Proof.
  intros E. induction l as [|i l IH]; intros Hnd t j q Hj; simpl; [done|]. apply NoDup_cons in Hnd as [Hi Hnd].
  assert (HD : deal signo t i !! j = Some (if (j =? i)%nat then sent signo q else q)).
  { unfold deal. destruct (t !! i) as [x|] eqn:Hx.
    - rewrite list_lookup_imap, Hj. simpl. by rewrite dealt_plain.
    - destruct (Nat.eqb_spec j i) as [->|]; [congruence|done]. }
  rewrite (IH Hnd _ _ _ HD). f_equal. destruct (Nat.eqb_spec j i) as [->|Hne].
  - rewrite bool_decide_eq_false_2 by done. by rewrite bool_decide_eq_true_2 by set_solver.
  - rewrite (bool_decide_ext (j ∈ l) (j ∈ i :: l)); [done|]. set_solver.
Qed.
Lemma sent_nolink signo x : 0 ≤ signo < NSIG → sent signo (nolink x) = nolink (sent signo x).
Proof. intros Hs. unfold sent. destruct (signo =? 0); [done|]. symmetry. by apply nolink_effect. Qed.
Lemma delivered_distributed s s' signo addr l :
  0 ≤ signo < NSIG → NoDup l → among signo stop_signals = false → delivered s s' signo addr l → distributed s s' signo addr.
Proof.
  intros Hs Hnd E (l' & Hsub & Hl & HD) i x Hx Hw. rewrite (HD i _ (info_lookup _ _ _ Hx)) by exact Hw.
  rewrite (deal_plain signo l' E) with (q := nolink x); [|by eapply sublist_NoDup|by apply info_lookup].
  rewrite <- Hl. rewrite sent_nolink by done. split; intros Hi; [by rewrite bool_decide_eq_true_2|by rewrite bool_decide_eq_false_2].
Qed.

Lemma delivered_nobody s s' signo addr l : info s' = info s → (∀ i, addr i → ¬ may s i signo) → delivered s s' signo addr l.
Proof.
  intros E HN. exists []. split_and!; [apply sublist_nil_l| |]; [|by intros; rewrite E].
  intros i. split; [by intros ?%not_elem_of_nil|]. intros [Hi Hm]. by destruct (HN i Hi).
Qed.
Lemma delivered_iff s s' signo (a1 a2 : nat → Prop) l :
  (∀ i, a1 i ↔ a2 i) → delivered s s' signo a1 l → delivered s s' signo a2 l.
Proof. intros E (l' & ? & Hl & ?). exists l'. split_and!; [done| |done]. intros i. by rewrite <- E. Qed.
Lemma delivered_skip s s' signo a1 a2 l i :
  (∀ j, a1 j ∧ may s j signo ↔ a2 j ∧ may s j signo) → delivered s s' signo a1 l → delivered s s' signo a2 (l ++ [i]).
Proof.
  intros E (l' & ? & Hl & ?). exists l'. split_and!; [by apply sublist_inserts_r| |done]. intros j. by rewrite <- E.
Qed.
Lemma calm_wchan s s' j q q' :
  calm s s' → runout_addr ≠ 0 → info s !! j = Some q → info s' !! j = Some q' → p_wchan q ≠ runout_addr → p_wchan q' ≠ runout_addr.
Proof.
  intros ((_ & Hm) & _) Hro Hq Hq' Hw. destruct (Hm j q Hq) as (y & Hy & Hmi). simplify_eq.
  destruct (md_wchan _ _ Hmi) as [->| ->]; [done|by apply not_eq_sym].
Qed.
Lemma delivered_step s s1 s2 signo (a1 a2 : nat → Prop) l i x1 :
  calm s s1 → runout_addr ≠ 0 → procs s1 !! i = Some x1 → (∀ q, info s !! i = Some q → p_wchan q ≠ runout_addr) →
  may s i signo → (∀ j, a2 j ↔ a1 j ∨ j = i) →
  delivered s s1 signo a1 l → becomes s1 s2 (dealt signo i x1) → delivered s s2 signo a2 (l ++ [i]).
Proof.
  intros Hc Hro Hx1 Hiw Hm E (l' & Hsub & Hl & HD) (_ & _ & _ & HB). exists (l' ++ [i]). split_and!.
  - by apply sublist_app.
  - intros j. rewrite elem_of_app, list_elem_of_singleton, Hl, E. naive_solver.
  - intros j q Hj Hjw. rewrite foldl_snoc. set (t := foldl (deal signo) (info s) l') in *. pose proof (info_lookup _ _ _ Hx1) as Hi1.
    assert (Hti : t !! i = Some (nolink x1)).
    { destruct (calm_who_inv _ _ _ _ Hc Hx1) as (x & Hx & _). pose proof (info_lookup _ _ _ Hx) as Hix.
      rewrite <- Hi1. symmetry. apply (HD i _ Hix). by apply Hiw. }
    unfold deal. rewrite Hti, list_lookup_imap, <- (HD j q Hj Hjw).
    destruct (proj2 (proj1 Hc) j q Hj) as (q1 & Hq1 & _). rewrite Hq1. simpl.
    rewrite (HB j q1 Hq1) by (by eapply calm_wchan). reflexivity.
Qed.

(** ** Groups *)
Section Group.
Context (s : kern) (all : list nat) (signo pgrp : Z) (bc : bool).

Definition addr (l : list nat) (i : nat) : Prop := i ∈ l ∧ chosen s pgrp bc i = true.

(** The loop of [killpg1] after the processes [l]. *)
Record told (l : list nat) (a : Z * Z) (s' : kern) : Prop := Told {
  td_calm : calm s s';
  td_env : sig_env s' all;
  td_pos : 0 ≤ a.1;
  td_some : 0 < a.1 ↔ ∃ i, addr l i ∧ may s i signo;
  td_error : a.2 = 0 ∧ (bc = true ∨ ∀ i, addr l i → may s i signo)
           ∨ a.2 = EPERM ∧ bc = false ∧ ∃ i, addr l i ∧ ¬ may s i signo;
  td_sent : delivered s s' signo (addr l) l }.

Lemma addr_snoc l i j : addr (l ++ [i]) j ↔ addr l j ∨ (j = i ∧ chosen s pgrp bc i = true).
Proof.
  unfold addr. rewrite elem_of_app, list_elem_of_singleton. split; [|naive_solver].
  intros [[?| ->] ?]; auto.
Qed.

Lemma told_skip l i a s' : told l a s' → chosen s pgrp bc i = false → told (l ++ [i]) a s'.
Proof.
  intros [T1 T2 T3 T4 T5 T6] Hn. assert (E : ∀ j, addr l j ↔ addr (l ++ [i]) j) by (intros j; rewrite addr_snoc, Hn; naive_solver).
  split; [done|done|done| | |].
  - rewrite T4. by setoid_rewrite E.
  - setoid_rewrite <- E. done.
  - eapply delivered_skip; [|exact T6]. intros j. by rewrite E.
Qed.
Lemma told_refuse l i a s' :
  told l a s' → chosen s pgrp bc i = true → ¬ may s i signo → told (l ++ [i]) (a.1, if negb bc then EPERM else a.2) s'.
Proof.
  intros [T1 T2 T3 T4 T5 T6] Hc Hm. split; cbn [fst snd]; [done|done|done| | |].
  - rewrite T4. setoid_rewrite addr_snoc. naive_solver.
  - destruct (bc) eqn:Eb in T5 |- *; simpl.
    + destruct T5 as [[-> _]|(_ & ? & _)]; [|done]. left. auto.
    + right. split_and!; [done|done|]. exists i. rewrite addr_snoc. auto.
  - eapply delivered_skip; [|exact T6]. intros j. rewrite addr_snoc. naive_solver.
Qed.
Lemma told_grant l i a s' s2 x1 :
  told l a s' → procs s' !! i = Some x1 → (∀ q, info s !! i = Some q → p_wchan q ≠ runout_addr) →
  chosen s pgrp bc i = true → may s i signo → calm s' s2 → sig_env s2 all → becomes s' s2 (dealt signo i x1) →
  told (l ++ [i]) (a.1 + 1, a.2) s2.
Proof.
  intros [T1 T2 T3 T4 T5 T6] Hx1 Hi Hc Hm C2 E2 HB. split; cbn [fst snd].
  - by eapply calm_trans.
  - done.
  - lia.
  - setoid_rewrite addr_snoc. split; [intros _; exists i; auto|lia].
  - destruct T5 as [[-> [->|Hall]]|(-> & -> & j & Hj & Hmj)]; [by left; auto|left|right].
    + split; [done|]. right. intros j [Hj|[-> _]]%addr_snoc; auto.
    + split_and!; [done|done|]. exists j. rewrite addr_snoc. auto.
  - eapply (delivered_step s s' s2 signo (addr l)); [done|apply T2|done|done|done| |done|done].
    intros j. rewrite addr_snoc. naive_solver.
Qed.
End Group.

(** The error a call on the addressed processes reports: one of a group may
    not be signalled; nobody is there to be signalled. *)
Record answered s (signo : Z) (bc : bool) (addr : nat → Prop) (e : Z) : Prop := Answered {
  an_perm : e = EPERM ↔ bc = false ∧ ∃ i, addr i ∧ ¬ may s i signo;
  an_srch : e = ESRCH ↔ if bc then ∀ i, addr i → ¬ may s i signo else ∀ i, ¬ addr i;
  an_else : e = 0 ∨ e = EPERM ∨ e = ESRCH }.

Lemma answered_iff s signo bc (a1 a2 : nat → Prop) e :
  (∀ i, a1 i ↔ a2 i) → answered s signo bc a1 e → answered s signo bc a2 e.
Proof.
  intros E [H1 H2 H3]. split; [|destruct bc|done].
  - by setoid_rewrite <- E.
  - by setoid_rewrite <- E.
  - by setoid_rewrite <- E.
Qed.
Lemma told_answered s all signo pgrp bc l f error s' :
  told s all signo pgrp bc l (f, error) s' →
  answered s signo bc (addr s pgrp bc l) (if negb (error =? 0) then error else if f =? 0 then ESRCH else 0).
Proof.
  intros [_ _ T3 T4 T5 _]. cbn [fst snd] in *. destruct T5 as [[-> Hall]|(-> & -> & i & Hi & Hm)]; simpl.
  - destruct (Z.eqb_spec f 0) as [->|Hf].
    + assert (HN : ∀ i, addr s pgrp bc l i → ¬ may s i signo).
      { intros i Hi Hm. assert (0 < 0) by (apply T4; eauto). lia. }
      split; [|destruct bc; [done|]|auto].
      * split; [done|]. intros (Hb & i & Hi & Hm). destruct Hall as [?|Hall]; [congruence|]. by destruct Hm; apply Hall.
      * split; [|done]. intros _ i Hi. destruct Hall as [?|Hall]; [done|]. apply (HN i Hi). by apply Hall.
    + destruct (proj1 T4 ltac:(lia)) as (i & Hi & Hm). split; [| |auto].
      * split; [done|]. intros (Hb & j & Hj & Hmj). destruct Hall as [?|Hall]; [congruence|]. by destruct Hmj; apply Hall.
      * split; [done|]. destruct bc; intros HN; by destruct (HN i).
  - split; [| |auto].
    + split; [|done]. intros _. eauto.
    + split; [done|]. intros HN. by destruct (HN i).
Qed.

Lemma wp_killpg1_one s all signo pgrp bc l i a s' :
  sig_env s all → 0 ≤ signo < NSIG → told s all signo pgrp bc l a s' → i ∈ all →
  wp (killpg1_one signo pgrp bc a i) (λ a' s'', nxts s'' = nxts s' ∧ told s all signo pgrp bc (l ++ [i]) a' s'') s'.
Proof.
  intros Hes Hs HT Hi. pose proof (td_calm _ _ _ _ _ _ _ _ HT) as Hc. pose proof (td_env _ _ _ _ _ _ _ _ HT) as He.
  assert (Hnx : ∀ s1 s2, calm s1 s2 → nxts s2 = nxts s1).
  { intros s1 s2. apply calm_links. by intros x x' (_ & _ & _ & _ & _ & _ & ? & _). }
  destruct (e_all _ _ (e_prot _ _ He) i Hi) as [x Hx]. destruct a as [f error].
  unfold killpg1_one. wp_go. eapply wp_at; [done|]. unfold curproc. wp_go.
  assert (Ec : chosen s pgrp bc i = negb ((negb (p_pgrp x =? pgrp) && negb bc) || (p_ppid x =? 0) || has (p_flag x) SSYS
    || (bc && (i =? u_procp (u s'))%nat))).
  { rewrite <- (chosen_calm s s') by done. unfold chosen. rewrite Hx.
    by destruct (p_pgrp x =? pgrp), bc, (p_ppid x =? 0), (has _ _), (_ =? _)%nat. }
  destruct (_ || _ || _ || _) eqn:Eg.
  { apply wp_ret. split; [done|]. by apply told_skip. }
  simpl in Ec. apply wp_bind. eapply wp_cansignal; [done|done|]. intros b Hb. rewrite (may_calm s s') in Hb by done.
  destruct b; simpl.
  - assert (Hm : may s i signo) by (by apply Hb).
    assert (Hpar : has_parent s' i x).
    { destruct (e_parent _ _ He i x Hi Hx) as [[E _]|]; [|done]. rewrite E in Eg. by rewrite orb_true_r in Eg. }
    apply wp_bind. eapply wp_mono; [by eapply wp_send|]. intros [] s2 (C2 & E2 & HB). apply wp_ret.
    split; [by apply Hnx|]. eapply (told_grant _ _ _ _ _ _ _ (f, error)); try done.
    intros q Hq. apply info_lookup_inv in Hq as (y & Hy & ->). change (p_wchan y ≠ runout_addr).
    destruct (calm_who _ _ _ _ Hc Hy) as (y' & Hy' & Hw). assert (y' = x) as -> by congruence.
    destruct (e_parent _ _ Hes i y Hi Hy) as [[E _]|[? _]]; [|done].
    destruct Hw as (_ & _ & _ & _ & _ & _ & _ & _ & Hf & _). rewrite <- (Hf SSYS eq_refl) in E. rewrite E in Eg.
    by rewrite orb_true_r in Eg.
  - apply wp_ret. split; [done|]. eapply (told_refuse _ _ _ _ _ _ _ (f, error)); [done|done|]. rewrite <- Hb. done.
Qed.

(** The group [killpg1] means. *)
Definition group_of s (pgrp : Z) : Z :=
  if pgrp =? 0 then match procs s !! u_procp (u s) with Some cp => p_pgrp cp | None => 0 end else pgrp.

Lemma wp_killpg1 s all signo pgrp (bc : bool) :
  sig_env s all → lseg p_nxt (procs s) (allproc s) all None → NoDup all → 0 ≤ signo < NSIG → (bc = true → pgrp = 0) →
  let g := if bc then 0 else group_of s pgrp in
  let addr i := i ∈ all ∧ (bc = true ∨ g ≠ 0) ∧ chosen s g bc i = true in
  wp (killpg1 signo pgrp bc) (λ e s', calm s s' ∧ answered s signo bc addr e ∧
    delivered s s' signo addr all) s.
Proof.
  intros He Hl Hnd Hs Hbc g addr'. unfold killpg1, curproc. wp_go. destruct (e_cur _ _ (e_prot _ _ He)) as [cp Hcp].
  eapply wp_at; [done|].
  assert (HL : (bc = true ∨ g ≠ 0) → wp ('(f, error) ← for_procs allproc (0, 0) (killpg1_one signo g bc);
      mret (if negb (error =? 0) then error else if f =? 0 then ESRCH else 0))
      (λ e s', calm s s' ∧ answered s signo bc addr' e ∧
        delivered s s' signo addr' all) s).
  { intros Hg. assert (Hadd : ∀ i, addr s g bc all i ↔ addr' i) by (unfold addr, addr'; naive_solver).
    apply wp_bind. eapply wp_mono; [eapply (wp_for_procs allproc (told s all signo g bc)); [done|done| |]|].
    - split; cbn [fst snd]; [apply calm_refl|done|done| | |].
      + split; [done|]. by intros (i & [?%not_elem_of_nil _] & _).
      + left. split; [done|]. right. by intros i [?%not_elem_of_nil _].
      + apply delivered_nobody; [done|]. by intros i [?%not_elem_of_nil _].
    - intros done i rest a s' El _ HT. apply wp_killpg1_one; [exact He|exact Hs|exact HT|]. rewrite El. set_solver.
    - intros [f error] s' [_ HT]. apply wp_ret. split_and!; [apply HT| |].
      + eapply answered_iff; [exact Hadd|]. by eapply told_answered.
      + eapply delivered_iff; [exact Hadd|]. apply HT. }
  unfold g, group_of in HL. rewrite Hcp in HL. destruct bc; simpl.
  - rewrite (Hbc eq_refl) in *. apply HL. by left.
  - destruct (Z.eqb_spec pgrp 0) as [->|Hp]; simpl; [|apply HL; by right].
    destruct (Z.eqb_spec (p_pgrp cp) 0) as [Hz|Hz]; [|apply HL; by right]. apply wp_ret.
    assert (HN : ∀ i, ¬ addr' i).
    { intros i (_ & [?|Hg] & _); [done|]. apply Hg. unfold g, group_of. by rewrite Hcp. }
    split_and!; [apply calm_refl| |].
    + split; [|done|auto]. split; [done|]. intros (_ & i & Hi & _). by destruct (HN i).
    + apply delivered_nobody; [done|]. intros i Hi. by destruct (HN i).
Qed.

(** ** kill *)

(** The processes [kill pid] addresses: the one with that process id, all
    (-1), or the members of a group. *)
Definition addressed s (all : list nat) (pid : Z) (i : nat) : Prop :=
  i ∈ all ∧
  if 0 <? pid then ∃ x, procs s !! i = Some x ∧ p_pid x = pid
  else if pid =? -1 then chosen s 0 true i = true
  else group_of s (s32 (- pid)) ≠ 0 ∧ chosen s (group_of s (s32 (- pid))) false i = true.

Lemma calm_set_error s s' e : calm s s' → calm s (s'<|u ::= λ v, v<|u_error := e|>|>).
Proof. intros Hc. eapply calm_trans; [exact Hc|apply calm_set]. Qed.

Lemma wp_kill_one s all signo pid :
  sig_env s all → pids_distinct s all → 0 ≤ signo < NSIG → 0 < pid →
  wp (p ← pfind pid;
      match p with
      | None => mret ESRCH
      | Some p =>
          ok ← cansignal p signo;
          if negb ok then mret EPERM
          else (if negb (signo =? 0) then psignal p signo else mret tt);; mret 0
      end) (λ e s', calm s s' ∧ answered s signo false (addressed s all pid) e ∧
        delivered s s' signo (addressed s all pid) all) s.
Proof.
  intros He Hd Hs Hp. apply wp_bind. eapply wp_mono; [eapply wp_pfind, e_hash, (e_prot _ _ He)|].
  intros [i|] s0 [-> Hi].
  - destruct Hi as (Hi & x & Hx & Hpid).
    assert (HA : ∀ j, j = i ↔ addressed s all pid j).
    { intros j. unfold addressed. rewrite (proj2 (Z.ltb_lt 0 pid)) by done. split; [intros ->; eauto|].
      intros (Hj & y & Hy & E). eapply Hd; [done|done|done|done|congruence]. }
    apply wp_bind. eapply wp_cansignal; [done|done|]. intros b Hb. destruct b; simpl.
    + assert (Hm : may s i signo) by (by apply Hb).
      assert (Hpar : has_parent s i x).
      { destruct (e_parent _ _ He i x Hi Hx) as [[_ E]|]; [|done]. lia. }
      apply wp_bind. eapply wp_mono; [by eapply wp_send|]. intros [] s2 (C2 & E2 & HB). apply wp_ret.
      split_and!; [done| |].
      * eapply answered_iff; [exact HA|]. split; [| |auto].
        -- split; [done|]. by intros (_ & j & -> & ?).
        -- split; [done|]. intros HN. by destruct (HN i).
      * destruct HB as (_ & _ & _ & HB). exists [i]. split_and!.
        -- by apply singleton_sublist_l.
        -- intros j. rewrite list_elem_of_singleton, <- HA. naive_solver.
        -- intros j q Hj Hjw. simpl. unfold deal. rewrite (info_lookup _ _ _ Hx), list_lookup_imap, Hj. simpl.
           by rewrite (HB j q Hj Hjw).
    + apply wp_ret. assert (Hm : ¬ may s i signo) by (by rewrite <- Hb). split_and!; [apply calm_refl| |].
      * eapply answered_iff; [exact HA|]. split; [| |auto].
        -- split; [|done]. intros _. eauto.
        -- split; [done|]. intros HN. by destruct (HN i).
      * apply delivered_nobody; [done|]. by intros j <-%HA.
  - apply wp_ret. assert (HN : ∀ j, ¬ addressed s all pid j).
    { intros j (Hj & E). rewrite (proj2 (Z.ltb_lt 0 pid)) in E by done. destruct E as (x & Hx & E). by apply (Hi j x Hj Hx). }
    split_and!; [apply calm_refl| |].
    + split; [|by split|auto]. split; [done|]. intros (_ & j & Hj & _). by destruct (HN j).
    + apply delivered_nobody; [done|]. intros j Hj. by destruct (HN j).
Qed.

Lemma kill_spec (s : kern) (all : list nat) (pid signo : Z) :
  sig_env s all → lseg p_nxt (procs s) (allproc s) all None → NoDup all → pids_distinct s all → - 2^31 ≤ pid < 2^31 →
  wp (kill pid signo) (λ _ s',
    if decide (0 ≤ signo < NSIG) then
      calm s s' ∧ answered s signo (pid =? -1) (addressed s all pid) (u_error (u s')) ∧
      delivered s s' signo (addressed s all pid) all
    else s' = s<|u ::= λ v, v<|u_error := EINVAL|>|>) s.
Proof.
  intros He Hl Hnd Hd Hpid. unfold kill. apply wp_bind. case_decide as Hs.
  2:{ replace ((signo <? 0) || (NSIG <=? signo)) with true by (unfold NSIG in *; lia). apply wp_ret. by apply wp_setu. }
  replace ((signo <? 0) || (NSIG <=? signo)) with false by (unfold NSIG in *; lia).
  assert (HF : ∀ e s' bc, calm s s' ∧ answered s signo bc (addressed s all pid) e ∧
      delivered s s' signo (addressed s all pid) all → bc = (pid =? -1) →
    wp (set_error e) (λ _ s', calm s s' ∧ answered s signo (pid =? -1) (addressed s all pid) (u_error (u s')) ∧
      delivered s s' signo (addressed s all pid) all) s').
  { intros e s' bc (H1 & H2 & H3) ->. apply wp_setu. split_and!; [by apply calm_set_error|done|done]. }
  assert (HG : ∀ pgrp bc, (bc = true → pgrp = 0) → bc = (pid =? -1) →
    (∀ i, (i ∈ all ∧ (bc = true ∨ (if bc then 0 else group_of s pgrp) ≠ 0) ∧
           chosen s (if bc then 0 else group_of s pgrp) bc i = true) ↔ addressed s all pid i) →
    wp (killpg1 signo pgrp bc) (λ e, wp (set_error e) (λ _ s', calm s s' ∧
      answered s signo (pid =? -1) (addressed s all pid) (u_error (u s')) ∧
      delivered s s' signo (addressed s all pid) all)) s).
  { intros pgrp bc Hb Ebc HA. eapply wp_mono; [by eapply wp_killpg1|]. intros e s' (H1 & H2 & H3).
    apply (HF e s' bc); [|done]. split_and!; [done|eapply answered_iff; [exact HA|exact H2]|]. eapply delivered_iff; [exact HA|exact H3]. }
  destruct (Z.ltb_spec 0 pid) as [Hp|Hp].
  { eapply wp_mono; [by apply wp_kill_one|]. intros e s' HQ. apply (HF e s' false HQ). lia. }
  assert (Ep : (0 <? pid) = false) by lia.
  destruct (pid =? -1) eqn:E1 in HG |- *.
  - apply HG; [done|done|]. intros i. unfold addressed. rewrite Ep, E1. naive_solver.
  - destruct (Z.eqb_spec pid 0) as [->|Hp0]; apply HG; try done; intros i; unfold addressed; rewrite ?Ep, ?E1; naive_solver.
Qed.

(** C17. kill: a signal number out of range is EINVAL and changes nothing.
    Else the call addresses one process, a group, or everyone but the sender,
    init and the system; it fails with EPERM exactly when it addresses, other
    than by -1, a process the sender may not signal, and with ESRCH exactly
    when it finds nobody.  Every process addressed that the sender may signal
    gets the signal, once, in the order of the process list, and no other
    process changes, but that a stop tells the parent.  Whom a sender may
    signal is [may], with the effective user that the process table has for
    it: after seteuid that is not the user of the u area. *)
Theorem kill_correct (s : kern) (all : list nat) (pid signo : Z) :
  sig_env s all → lseg p_nxt (procs s) (allproc s) all None → NoDup all → pids_distinct s all → - 2^31 ≤ pid < 2^31 →
  wp (kill pid signo) (λ _ s',
    if decide (0 ≤ signo < NSIG) then
      calm s s' ∧ answered s signo (pid =? -1) (addressed s all pid) (u_error (u s')) ∧
      delivered s s' signo (addressed s all pid) all ∧
      (among signo stop_signals = false → distributed s s' signo (addressed s all pid))
    else s' = s<|u ::= λ v, v<|u_error := EINVAL|>|>) s.
Proof.
  intros He Hl Hnd Hd Hpid. eapply wp_mono; [by apply kill_spec|]. intros [] s'. case_decide as Hs; [|done].
  intros (R1 & R2 & R3). split_and!; [done|done|done|]. intros E. by eapply delivered_distributed.
Qed.

(** C16. psignal does to its target what [effect] says, a table from what the
    signal is for, whether the process ignores, blocks or catches it, and
    what the process is doing.  When the process stops at once its parent is
    told with SIGCHLD, unless it has SA_NOCLDSTOP set, and those who wait for
    it are woken.  Nothing else changes, but for processes that wait for the
    swapper's channel, and the run and sleep queues stay right.  The recursion
    ends with the parent. *)
Theorem psignal_correct (s : kern) (rq : list nat) (sq : list (list nat)) (p : nat) (x : proc) (sig : Z) :
  queues_ok s rq sq → procs s !! p = Some x → 0 ≤ sig < NSIG → (stops_at_once sig x = true → has_parent s p x ∧ runout_addr ≠ 0) →
  wp (psignal p sig) (λ _ s',
    (∃ rq' sq', queues_ok s' rq' sq') ∧ framed s s' ∧
    (stops_at_once sig x = false → info s' !! p = Some (nolink (effect sig x))) ∧
    (∀ j q, info s !! j = Some q → p_wchan q ≠ runout_addr → info s' !! j = Some (posted sig p x j q))) s.
Proof.
  intros Hq Hx Hs Hp. rewrite stops_at_once_will in * by done. rewrite effect_target by done.
  eapply wp_mono; [by eapply wp_psignal|]. intros [] s' [(Hq' & HF & _ & HB) HA].
  split_and!; [done|done| |done]. intros E. destruct (HA E) as [(_ & _ & _ & ?) _]. done.
Qed.

Lemma made_runnable_fields z :
  p_sig (made_runnable z) = p_sig z ∧ p_nice (made_runnable z) = p_nice z ∧
  p_stat (made_runnable z) = SRUN ∧ p_wchan (made_runnable z) = 0.
Proof. unfold made_runnable, running. destruct (PUSER <? p_pri z); simpl; by destruct (1 <? p_slptime z). Qed.

(** SIGKILL is delivered to any process that is not traced and does not
    have it blocked, ignored or caught: it becomes pending, the process loses
    its niceness, and if it is stopped or in an interruptible sleep it is
    made runnable. *)
Theorem sigkill_delivered (s : kern) (rq : list nat) (sq : list (list nat)) (p : nat) (x : proc) :
  queues_ok s rq sq → procs s !! p = Some x → has (p_flag x) P_TRACED = false →
  has (Z.lor (p_sigmask x) (Z.lor (p_sigignore x) (p_sigcatch x))) (sigmask SIGKILL) = false →
  wp (psignal p SIGKILL) (λ _ s', ∃ y, procs s' !! p = Some y ∧
    has (p_sig y) (sigmask SIGKILL) = true ∧ p_nice y ≤ NZERO ∧ (∃ rq' sq', queues_ok s' rq' sq') ∧
    (p_stat x = SSTOP ∨ p_stat x = SSLEEP ∧ has (p_flag x) P_SINTR = true → p_stat y = SRUN ∧ p_wchan y = 0)) s.
Proof.
  intros Hq Hx Ht Hm. rewrite !has_lor in Hm. apply orb_false_iff in Hm as [M1 [M2 M3]%orb_false_iff].
  assert (Hw : will_stop SIGKILL x = false) by (by apply plain_signal).
  eapply wp_mono; [eapply wp_psignal; [done|done|unfold SIGKILL, NSIG; lia|congruence]|].
  intros [] s' [_ HA]. destruct (HA Hw) as [(Hq' & _ & _ & Hi) _].
  apply info_lookup_inv in Hi as (y & Hy & Ey). exists y. split; [done|].
  assert (HP : has (p_sig (nolink y)) (sigmask SIGKILL) = true ∧ p_nice (nolink y) ≤ NZERO ∧
    (p_stat x = SSTOP ∨ p_stat x = SSLEEP ∧ has (p_flag x) P_SINTR = true → p_stat (nolink y) = SRUN ∧ p_wchan (nolink y) = 0)).
  2:{ destruct HP as (? & ? & ?). auto. }
  rewrite <- Ey. clear Ey Hy y HA Hw. unfold target, psignal_action. rewrite Ht, M1, M2, M3.
  change (default 0 (sigprop !! Z.to_nat SIGKILL)) with SA_KILL. change (orphaned SA_KILL SIG_DFL x) with false.
  set (z := recorded SIGKILL SIG_DFL SA_KILL x).
  assert (Hz : has (p_sig z) (sigmask SIGKILL) = true ∧ p_nice z ≤ NZERO ∧ p_flag z = p_flag x).
  { split_and!.
    - change (p_sig z) with (Z.lor (p_sig (noted SIGKILL SIG_DFL SA_KILL x)) (sigmask SIGKILL)).
      rewrite has_lor. by rewrite orb_true_r.
    - unfold z, recorded, noted. change (has SA_KILL SA_STOP) with false. change (has SA_KILL SA_CONT) with false.
      change (has SA_KILL SA_KILL) with true. rewrite Ht.
      change (SIG_DFL =? SIG_DFL) with true. cbn [negb andb]. rewrite !andb_true_r.
      destruct (Z.ltb_spec NZERO (p_nice x)); fields; [done|lia].
    - apply (recorded_same SIGKILL SIG_DFL SA_KILL x). }
  destruct Hz as (Z1 & Z2 & Z3).
  assert (HR : has (p_sig (nolink (made_runnable z))) (sigmask SIGKILL) = true ∧ p_nice (nolink (made_runnable z)) ≤ NZERO ∧
    p_stat (nolink (made_runnable z)) = SRUN ∧ p_wchan (nolink (made_runnable z)) = 0).
  { destruct (made_runnable_fields z) as (E1 & E2 & E3 & E4). rewrite <- E1 in Z1. rewrite <- E2 in Z2. done. }
  change (SIG_DFL =? SIG_HOLD) with false. cbn [andb]. destruct (Z.eqb_spec (p_stat x) SSLEEP) as [E|E].
  - unfold asleep_target. rewrite Z3, Ht. change (has SA_KILL SA_CONT) with false. change (has SA_KILL SA_STOP) with false.
    cbn [andb]. destruct (has (p_flag x) P_SINTR); cbn [negb]; [naive_solver|].
    split_and!; [done|done|]. rewrite E. by intros [?|[_ ?]].
  - destruct (Z.eqb_spec (p_stat x) SSTOP) as [E'|E'].
    + unfold stopped_target. rewrite Z3, Ht. simpl. naive_solver.
    + split_and!; [done|done|]. intros [?|[? _]]; done.
Qed.

(** C35. No process ever has both a stop signal and SIGCONT pending through
    kill: if none has, none has after any kill. *)
Theorem stop_cont_exclusive (s : kern) (all : list nat) (pid signo : Z) :
  sig_env s all → lseg p_nxt (procs s) (allproc s) all None → NoDup all → pids_distinct s all → - 2^31 ≤ pid < 2^31 →
  (∀ i x, procs s !! i = Some x → exclusive x) →
  wp (kill pid signo) (λ _ s', ∀ i x, procs s' !! i = Some x → exclusive x) s.
Proof.
  intros He Hl Hnd Hd Hpid HX. eapply wp_mono; [by apply kill_spec|]. intros [] s' HK.
  assert (Hc : calm s s').
  { case_decide; [apply HK|]. rewrite HK. apply calm_set_error, calm_refl. }
  intros i x' Hx'. destruct (calm_who_inv _ _ _ _ Hc Hx') as (x & Hx & _). destruct Hc as [[_ Hm] _].
  destruct (Hm i _ (info_lookup _ _ _ Hx)) as (q & Hq & Hmi). rewrite (info_lookup _ _ _ Hx') in Hq.
  injection Hq as Hq. pose proof (md_excl _ _ Hmi (HX i x Hx)) as HE. rewrite <- Hq in HE. exact HE.
Qed.

(** A process that gave up its effective user with seteuid keeps the
    super-user's power to signal: seteuid does not update p_uid, which
    cansignal takes for the effective user. *)
Theorem seteuid_keeps_kill (s : kern) (all : list nat) (cp : proc) (euid signo : Z) (q : nat) :
  sig_env s all → q ∈ all → procs s !! u_procp (u s) = Some cp → p_uid cp = 0 → u_uid (u s) = 0 → euid ≠ 0 →
  wp (seteuid euid;; cansignal q signo) (λ b s', u_uid (u s') = euid ∧ b = true) s.
Proof.
  intros He Hq Hcp Hp Hu Hne. apply wp_bind. eapply wp_mono; [apply seteuid_spec|]. intros [] s1 ->.
  rewrite decide_True by auto.
  assert (He1 : sig_env (s<|u ::= λ v, v<|u_uid := euid|><|u_error := 0|>|>) all).
  { destruct He as [[Hh Hr Ha Hc Hg] Hsv (rq & sq & Hl & Hm) Hro Her Hpar]. split; [split|..]; try done.
    - intros i Hi. destruct (Hr i Hi) as (n & Hn & Hrt). exists n. split; [done|]. by apply (rooted_same s).
    - exists rq, sq. split; [by apply (lists_ok_same s)|done]. }
  eapply wp_cansignal; [exact He1|done|]. intros b Hb. split; [done|].
  apply Hb. left. unfold kin. fields. rewrite Hcp. destruct (e_all _ _ (e_prot _ _ He) q Hq) as [y ->]. by rewrite Hp.
Qed.
End Kill.

(** ** Examples: the shell of the small process table *)
Lemma ex_kern_queues uid : queues_ok (ex_kern uid) [] (replicate 16 []).
Proof.
  split; split.
  - done.
  - repeat (first [apply Forall2_nil_2 | apply Forall2_cons; split]); reflexivity.
  - refine (bool_decide_unpack _ _). vm_compute. exact I.
  - by intros i ?%elem_of_nil.
  - intros h l i Hl. apply lookup_replicate in Hl as [-> _]. split; [by intros ?%elem_of_nil|].
    intros (p & Hp & Hq & _). do 10 (destruct i as [|i]; [injection Hp as <-; discriminate Hq|]). done.
  - reflexivity.
  - intros i p Hp. do 10 (destruct i as [|i]; [injection Hp as <-; split; vm_compute; discriminate|]). done.
Qed.
Lemma ex_all i : i ∈ [2%nat; 1%nat; 0%nat] → i = 2%nat ∨ i = 1%nat ∨ i = 0%nat.
Proof. set_solver. Qed.
Lemma ex_sig_env uid : sig_env (ex_kern uid) [2%nat; 1%nat; 0%nat].
Proof.
  split; [apply ex_prot_env|reflexivity|exists [], (replicate 16 []); apply ex_kern_queues|done|done|].
  intros i x [-> | [-> | ->]]%ex_all Hx; injection Hx as <-; [right|right|by left];
    (split; [done|]); eexists _, _; split_and!; try reflexivity; done.
Qed.
Lemma ex_lseg uid : lseg p_nxt (procs (ex_kern uid)) (allproc (ex_kern uid)) [2%nat; 1%nat; 0%nat] None.
Proof. do 3 (split; [done|]; eexists; split; [reflexivity|]). done. Qed.
Lemma ex_pids uid : pids_distinct (ex_kern uid) [2%nat; 1%nat; 0%nat].
Proof.
  intros i j x y [-> | [-> | ->]]%ex_all [-> | [-> | ->]]%ex_all Hx Hy; injection Hx as <-; injection Hy as <-; done.
Qed.
Lemma ex_nodup : NoDup [2%nat; 1%nat; 0%nat].
Proof. refine (bool_decide_unpack _ _). vm_compute. exact I. Qed.

Lemma kill_correct_witness :
  wp (kill 1 SIGHUP) (λ _ s', u_error (u s') = EPERM) (ex_kern 100) ∧
  wp (kill 77 SIGHUP) (λ _ s', u_error (u s') = ESRCH) (ex_kern 100).
Proof.
  split; (eapply wp_mono; [apply (kill_correct (ex_kern 100) _ _ SIGHUP (ex_sig_env 100) (ex_lseg 100) ex_nodup (ex_pids 100)); lia|]);
    intros [] s'; rewrite decide_True by (unfold SIGHUP, NSIG; lia); intros (_ & [A1 A2 _] & _).
  - apply A1. split; [done|]. exists 1%nat. split.
    + split; [set_solver|]. eexists. split; reflexivity.
    + intros [Hk|[? _]]; [vm_compute in Hk; discriminate|done].
  - apply A2. intros i [Hi Hp]. destruct Hp as (x & Hx & Hp).
    apply ex_all in Hi as [-> | [-> | ->]]; injection Hx as <-; vm_compute in Hp; discriminate.
Defined.

Lemma psignal_correct_witness : wp (psignal 2 SIGHUP) (λ _ s', info s' !! 2%nat = nolink ∘ effect SIGHUP <$> procs (ex_kern 100) !! 2%nat) (ex_kern 100).
Proof.
  eapply wp_mono; [refine (psignal_correct (ex_kern 100) _ _ 2 _ SIGHUP (ex_kern_queues 100) eq_refl _ _)|].
  - unfold SIGHUP, NSIG. lia.
  - intros Hw. vm_compute in Hw. discriminate.
  - intros [] s' (_ & _ & Hw & _). apply Hw. reflexivity.
Defined.

Definition ex_stopped : proc := (slot (Some 0%nat) (Some (NxtOf 2)) (Some 0%nat) 0 0 1 0 SSTOP)<|p_nice := 30|>.
Lemma sigkill_delivered_witness :
  wp (psignal 1 SIGKILL) (λ _ s', ∃ y, procs s' !! 1%nat = Some y ∧ p_stat y = SRUN)
    ((ex_kern 100)<|procs := <[1%nat := ex_stopped]> (procs (ex_kern 100))|>).
Proof.
  eapply wp_mono.
  - refine (sigkill_delivered ((ex_kern 100)<|procs := <[1%nat := ex_stopped]> (procs (ex_kern 100))|>) []
      (replicate 16 []) 1 ex_stopped _ eq_refl eq_refl eq_refl).
    eapply queues_put; [apply ex_kern_queues|reflexivity|..]; try reflexivity. right. split; [done|reflexivity].
  - intros [] s' (y & Hy & _ & _ & _ & HR). exists y. split; [done|]. apply HR. by left.
Defined.

Lemma stop_cont_exclusive_witness :
  wp (kill 2 SIGCONT) (λ _ s', ∀ i x, procs s' !! i = Some x → exclusive x) (ex_kern 100).
Proof.
  apply (stop_cont_exclusive (ex_kern 100) [2%nat; 1%nat; 0%nat] 2 SIGCONT (ex_sig_env 100) (ex_lseg 100) ex_nodup (ex_pids 100)); [lia|].
  intros i x Hx. do 10 (destruct i as [|i]; [injection Hx as <-; by left|]). done.
Defined.

(** The same with init as the current process. *)
Definition ex_init : kern := (ex_kern 0)<|u ::= λ v, v<|u_procp := 1%nat|>|>.
Lemma ex_init_env : sig_env ex_init [2%nat; 1%nat; 0%nat].
Proof.
  destruct (ex_sig_env 0) as [[Hh Hr Ha _ Hg] Hsv _ Hro Her Hpar]. split; [split|..]; try done.
  - intros i Hi. destruct (Hr i Hi) as (n & Hn & Hrt). exists n. split; [done|]. by apply (rooted_same (ex_kern 0)).
  - by eexists.
  - destruct (ex_kern_queues 0) as [Hl Hm]. exists [], (replicate 16 []). split; [by apply (lists_ok_same (ex_kern 0))|done].
Qed.
Lemma seteuid_keeps_kill_witness :
  wp (seteuid 100;; cansignal 2 SIGKILL) (λ b s', u_uid (u s') = 100 ∧ b = true) ex_init.
Proof.
  refine (seteuid_keeps_kill ex_init [2%nat; 1%nat; 0%nat] _ 100 SIGKILL 2 ex_init_env _ eq_refl eq_refl eq_refl _);
    [set_solver|lia].
Defined.
