(* ===== verification/Sigcalls.v ===== *)
(** * Signal dispositions and delivery

    The signal system calls of kernel/kern_sig2.c and [sigstack] of
    kernel/kern_sig.c, the resetting of signals by exec (kernel/kern_exec.c),
    the delivery of signals to the current process ([issignal], [postsig] of
    kernel/kern_sig.c, [tsleep] of kernel/kern_synch.c) and the frame a
    handler runs on ([sendsig], [sigreturn] of pic32/signal.c).

    Sets of signals are words, signal [n] at bit [n - 1]. *)
From stdpp Require Import base tactics list option strings numbers gmap.
From S2P Require Import Prelude Proc Prot Synch Signal.
Open Scope Z_scope.

Definition EWOULDBLOCK : Z := 35.
Definition ERESTART : Z := -1.
Definition EJUSTRETURN : Z := -2.
Definition PPAUSE : Z := 40.
Definition PRIMASK : Z := 0xff.
Definition PCATCH : Z := 0x100.

(** What these routines use of the rest of the kernel: [swtch] runs other
    processes until this one is chosen again, [procxmt] does what the tracing
    parent asks for, [timeout] and [untimeout] arm and cancel [endtsleep] for
    a process, [core] writes the core file and [exit] ends the process. *)
Class Machine := {
  swtch : M unit;
  procxmt : M bool;
  timeout : nat → Z → M unit;
  untimeout : nat → M unit;
  panicstr : M bool;
  core : M bool;
  exit : Z → M unit }.

(** ** Registers *)
Definition FRAME_R4 : nat := 3.
Definition FRAME_R5 : nat := 4.
Definition FRAME_R6 : nat := 5.
Definition FRAME_SP : nat := 26.
Definition FRAME_RA : nat := 28.
Definition FRAME_STATUS : nat := 31.
Definition FRAME_PC : nat := 32.
Definition FRAME_WORDS : nat := 33.

(** The instruction [clz] and [ffs] of pic32/machdep.c. *)
Definition mips_clz (x : Z) : Z := if x =? 0 then 32 else 31 - Z.log2 x.
Definition ffs (i : Z) : Z := if negb (i =? 0) then 32 - mips_clz (Z.land i (u32 (- i))) else i.

Section Sigcalls.
Context `{Layout} `{Machine}.

(** [u.u_signal[i]], [u.u_sigmask[i]] *)
Definition u_signal_at (i : Z) : M Z := l ← gets (λ s, u_signal (u s)); lift (rdz l i).
Definition set_u_signal (i v : Z) : M unit :=
  l ← gets (λ s, u_signal (u s)); l ← lift (wrz l i v); setu (λ w, w<|u_signal := l|>).
Definition u_sigmask_at (i : Z) : M Z := l ← gets (λ s, u_sigmask (u s)); lift (rdz l i).
Definition set_u_sigmask (i v : Z) : M unit :=
  l ← gets (λ s, u_sigmask (u s)); l ← lift (wrz l i v); setu (λ w, w<|u_sigmask := l|>).

(** [copyin] into a local of [n] words; [copyout] that reports its error. *)
Definition fetch (from : Z) (n : nat) (k : list Z → M Z) : M Z :=
  r ← copyin from n; match r with inl e => mret e | inr ws => k ws end.

(** ** Dispositions *)
Definition setsigvec (signum sa_handler sa_mask sa_flags : Z) : M unit :=
  let bit := sigmask signum in
  p ← curproc;
  set_u_signal signum sa_handler;;
  set_u_sigmask signum (bic sa_mask sigcantmask);;
  (if negb (has sa_flags SA_RESTART) then setu (λ v, v<|u_sigintr ::= λ w, Z.lor w bit|>)
   else setu (λ v, v<|u_sigintr ::= λ w, bic w bit|>));;
  (if has sa_flags SA_ONSTACK then setu (λ v, v<|u_sigonstack ::= λ w, Z.lor w bit|>)
   else setu (λ v, v<|u_sigonstack ::= λ w, bic w bit|>));;
  (if signum =? SIGCHLD then
     if has sa_flags SA_NOCLDSTOP then setp p (λ x, x<|p_flag ::= λ f, Z.lor f P_NOCLDSTOP|>)
     else setp p (λ x, x<|p_flag ::= λ f, bic f P_NOCLDSTOP|>)
   else mret tt);;
  prop ← lift (rdz sigprop signum);
  if (sa_handler =? SIG_IGN) || (has prop SA_IGNORE && (sa_handler =? SIG_DFL)) then
    setp p (λ x, x<|p_sig ::= λ g, bic g bit|>);;
    (if negb (signum =? SIGCONT) then setp p (λ x, x<|p_sigignore ::= λ g, Z.lor g bit|>) else mret tt);;
    setp p (λ x, x<|p_sigcatch ::= λ g, bic g bit|>)
  else
    setp p (λ x, x<|p_sigignore ::= λ g, bic g bit|>);;
    if sa_handler =? SIG_DFL then setp p (λ x, x<|p_sigcatch ::= λ g, bic g bit|>)
    else setp p (λ x, x<|p_sigcatch ::= λ g, Z.lor g bit|>).

(** The [struct sigaction] that describes the current disposition. *)
Definition old_action (signum : Z) : M (list Z) :=
  h ← u_signal_at signum;
  m ← u_sigmask_at signum;
  let bit := sigmask signum in
  v ← gets u;
  p ← curproc; x ← at_ p;
  mret [h; m;
    Z.lor (Z.lor (if has (u_sigonstack v) bit then SA_ONSTACK else 0)
      (if negb (has (u_sigintr v) bit) then SA_RESTART else 0))
      (if has (p_flag x) P_NOCLDSTOP then SA_NOCLDSTOP else 0)].

(** [nsa] and [osa] are addresses in the program, 0 for none. *)
Definition sigaction (signum nsa osa sigtramp : Z) : M unit :=
  setu (λ v, v<|u_sigtramp := sigtramp|>);;
  e ← (if (signum <=? 0) || (NSIG <=? signum) then mret EINVAL
       else if negb (nsa =? 0) && ((signum =? SIGKILL) || (signum =? SIGSTOP)) then mret EINVAL
       else
         e ← (if negb (osa =? 0) then ws ← old_action signum; copyout ws osa else mret 0);
         if negb (e =? 0) then mret e
         else if negb (nsa =? 0) then
           fetch nsa 3 (λ ws, match ws with
                              | [h; m; f] => setsigvec signum h m f;; mret 0
                              | _ => lift Wild
                              end)
         else mret 0);
  set_error e.

Definition fatalsig (signum : Z) : M unit :=
  p ← curproc;
  set_u_signal signum SIG_DFL;;
  let mask := sigmask signum in
  setp p (λ x, x<|p_sigignore ::= λ g, bic g mask|>);;
  setp p (λ x, x<|p_sigcatch ::= λ g, bic g mask|>);;
  setp p (λ x, x<|p_sigmask ::= λ g, bic g mask|>);;
  psignal p signum.

(** [for (i = 0; i < NSIG; i++) ...], [n] turns left. *)
Fixpoint siginit_loop (n : nat) (i : Z) (p : nat) : M unit :=
  match n with
  | O => mret tt
  | S n =>
      prop ← lift (rdz sigprop i);
      (if has prop SA_IGNORE && negb (i =? SIGCONT)
       then setp p (λ x, x<|p_sigignore ::= λ g, Z.lor g (sigmask i)|>) else mret tt);;
      siginit_loop n (i + 1) p
  end.
Definition siginit (p : nat) : M unit := siginit_loop (Z.to_nat NSIG) 0 p.

Definition sigprocmask (how set oset : Z) : M unit :=
  p ← curproc; x ← at_ p;
  let oldmask := p_sigmask x in
  e ← (if set =? 0 then mret 0
       else fetch set 1 (λ ws, match ws with
         | [newmask] =>
             if how =? SIG_BLOCK then setp p (λ x, x<|p_sigmask ::= λ g, Z.lor g (bic newmask sigcantmask)|>);; mret 0
             else if how =? SIG_UNBLOCK then setp p (λ x, x<|p_sigmask ::= λ g, bic g newmask|>);; mret 0
             else if how =? SIG_SETMASK then setp p (λ x, x<|p_sigmask := bic newmask sigcantmask|>);; mret 0
             else mret EINVAL
         | _ => lift Wild
         end));
  e ← (if (e =? 0) && negb (oset =? 0) then copyout [oldmask] oset else mret e);
  set_error e.

Definition sigpending (set : Z) : M unit :=
  p ← curproc; x ← at_ p;
  e ← (if negb (set =? 0) then copyout [p_sig x] set else mret EINVAL);
  set_error e.

Definition sigaltstack_call (nss oss : Z) : M unit :=
  ps ← gets (λ s, u_psflags (u s));
  (if negb (has ps SAS_ALTSTACK) then setu (λ v, v<|u_sigstk ::= λ k, k<|ss_flags ::= λ f, Z.lor f SA_DISABLE|>|>)
   else mret tt);;
  k ← gets (λ s, u_sigstk (u s));
  e ← (if negb (oss =? 0) then copyout [ss_base k; ss_size k; ss_flags k] oss else mret 0);
  e ← (if negb (e =? 0) then mret e
       else if nss =? 0 then mret e
       else fetch nss 3 (λ ws, match ws with
         | [b; z; f] =>
             if has f SA_DISABLE then
               if has (ss_flags k) SA_ONSTACK then mret EINVAL
               else
                 setu (λ v, v<|u_psflags ::= λ w, bic w SAS_ALTSTACK|>);;
                 setu (λ v, v<|u_sigstk ::= λ k, k<|ss_flags := f|>|>);; mret 0
             else if s32 z <? MINSIGSTKSZ then mret ENOMEM
             else
               setu (λ v, v<|u_psflags ::= λ w, Z.lor w SAS_ALTSTACK|>);;
               setu (λ v, v<|u_sigstk := SigStk b z f|>);; mret 0
         | _ => lift Wild
         end));
  set_error e.

Definition sigstack (nss oss : Z) : M unit :=
  k ← gets (λ s, u_sigstk (u s));
  e ← (if negb (oss =? 0) then copyout [ss_base k; Z.land (ss_flags k) SA_ONSTACK] oss else mret 0);
  e ← (if negb (e =? 0) then mret e
       else if nss =? 0 then mret e
       else fetch nss 2 (λ ws, match ws with
         | [sp; on] =>
             setu (λ v, v<|u_sigstk ::= λ k, k<|ss_base := sp|>|>);;
             setu (λ v, v<|u_sigstk ::= λ k, k<|ss_size := 0|>|>);;
             setu (λ v, v<|u_sigstk ::= λ k, k<|ss_flags ::= λ f, Z.lor f (Z.land on SA_ONSTACK)|>|>);;
             setu (λ v, v<|u_psflags ::= λ w, Z.lor w SAS_ALTSTACK|>);; mret 0
         | _ => lift Wild
         end));
  set_error e.

(** [while (p->p_sigcatch) ...]: each turn takes one signal out of it. *)
Fixpoint execsigs_loop (fuel : nat) (p : nat) : M unit :=
  x ← at_ p;
  if p_sigcatch x =? 0 then mret tt
  else
    match fuel with
    | O => lift Spin
    | S fuel =>
        let nc := ffs (p_sigcatch x) in
        let mask := sigmask nc in
        setp p (λ x, x<|p_sigcatch ::= λ g, bic g mask|>);;
        prop ← lift (rdz sigprop nc);
        (if has prop SA_IGNORE then
           (if negb (nc =? SIGCONT) then setp p (λ x, x<|p_sigignore ::= λ g, Z.lor g mask|>) else mret tt);;
           setp p (λ x, x<|p_sig ::= λ g, bic g mask|>)
         else mret tt);;
        set_u_signal nc SIG_DFL;;
        execsigs_loop fuel p
    end.
Definition execsigs (p : nat) : M unit :=
  execsigs_loop 32 p;;
  setu (λ v, v<|u_sigstk ::= λ k, k<|ss_flags := SA_DISABLE|>|>);;
  setu (λ v, v<|u_sigstk ::= λ k, k<|ss_size := 0|>|>);;
  setu (λ v, v<|u_sigstk ::= λ k, k<|ss_base := 0|>|>);;
  setu (λ v, v<|u_psflags := 0|>).

(** ** Choosing a signal to deliver *)

(** [do { stop(p); swtch(); } while (! procxmt() && (p->p_flag & P_TRACED));] *)
Fixpoint trace_wait (fuel : nat) (p : nat) : M unit :=
  match fuel with
  | O => lift Spin
  | S fuel =>
      stop p;;
      swtch;;
      ok ← procxmt;
      x ← at_ p;
      if negb ok && has (p_flag x) P_TRACED then trace_wait fuel p else mret tt
  end.

(** The cases of the switch of [issignal]; [None]: the signal is taken away. *)
Definition issignal_default (p : nat) (sig prop : Z) : M (option Z) :=
  x ← at_ p;
  if p_pid x <=? 1 then mret None
  else if has prop SA_STOP then
    if has (p_flag x) P_TRACED || (bool_decide (p_pptr x = Some 1%nat) && has prop SA_TTYSTOP) then mret None
    else
      setp p (λ x, x<|p_ptracesig := s8 sig|>);;
      tell_parent psignal p;;
      stop p;;
      swtch;;
      mret None
  else if has prop SA_IGNORE then mret None
  else mret (Some sig).
Definition issignal_switch (p : nat) (sig mask prop : Z) : M (option Z) :=
  a ← u_signal_at sig;
  r ← (if a =? SIG_DFL then issignal_default p sig prop
       else if a =? SIG_IGN then mret None
       else mret (Some sig));
  match r with
  | Some sig => mret (Some sig)
  | None => setp p (λ x, x<|p_sig ::= λ g, bic g mask|>);; mret None
  end.

(** The signals of [x] that can be delivered. *)
Definition deliverable (x : proc) : Z :=
  let mask := bic (p_sig x) (p_sigmask x) in
  if has (p_flag x) SVFORK then bic mask stopsigmask else mask.

(** One turn of the loop; [None]: look again. *)
Definition issignal_turn (fuel : nat) (p : nat) : M (option Z) :=
  x ← at_ p;
  let mask := deliverable x in
  if mask =? 0 then mret (Some 0)
  else
    let sig := ffs mask in
    let mask := sigmask sig in
    prop ← lift (rdz sigprop sig);
    if has mask (p_sigignore x) && negb (has (p_flag x) P_TRACED) then
      setp p (λ x, x<|p_sig ::= λ g, bic g mask|>);; mret None
    else if has (p_flag x) P_TRACED && negb (has (p_flag x) SVFORK) then
      setp p (λ x, x<|p_sig ::= λ g, bic g mask|>);;
      setp p (λ x, x<|p_ptracesig := s8 sig|>);;
      match p_pptr x with None => lift Wild | Some pp => psignal pp SIGCHLD end;;
      trace_wait fuel p;;
      y ← at_ p;
      let sig := p_ptracesig y in
      if sig =? 0 then mret None
      else
        let mask := sigmask sig in
        setp p (λ x, x<|p_sig ::= λ g, Z.lor g mask|>);;
        y ← at_ p;
        if has (p_sigmask y) mask then mret None
        else if negb (has (p_flag y) P_TRACED) then mret None
        else prop ← lift (rdz sigprop sig); issignal_switch p sig mask prop
    else issignal_switch p sig mask prop.
Fixpoint issignal (fuel : nat) (p : nat) : M Z :=
  match fuel with
  | O => lift Spin
  | S fuel =>
      r ← issignal_turn fuel p;
      match r with Some sig => mret sig | None => issignal fuel p end
  end.

Definition CURSIG (fuel : nat) (p : nat) : M Z :=
  x ← at_ p;
  if (p_sig x =? 0) || (negb (has (p_flag x) P_TRACED) && (bic (p_sig x) (p_sigmask x) =? 0)) then mret 0
  else issignal fuel p.

(** ** Sleeping *)

(** Up to the label [resume]: the signal found, and whether signals are still
    to be looked for; [None]: the process is to sleep. *)
Definition tsleep_catch (fuel : nat) (p : nat) : M (option (Z * bool)) :=
  setp p (λ x, x<|p_flag ::= λ f, Z.lor f P_SINTR|>);;
  sig ← CURSIG fuel p;
  if negb (sig =? 0) then
    x ← at_ p;
    (if negb (p_wchan x =? 0) then unsleep p else mret tt);;
    setp p (λ x, x<|p_stat := SRUN|>);;
    mret (Some (sig, true))
  else
    x ← at_ p;
    if p_wchan x =? 0 then mret (Some (0, false)) else mret None.
Definition tsleep (fuel : nat) (ident priority timo : Z) : M Z :=
  p ← curproc;
  dead ← panicstr;
  if (dead : bool) then mret 0
  else
    setp p (λ x, x<|p_wchan := ident|>);;
    setp p (λ x, x<|p_slptime := 0|>);;
    setp p (λ x, x<|p_pri := s8 (Z.land priority PRIMASK)|>);;
    q ← gets slpque;
    hd ← lift (rd q (HASH ident));
    setp p (λ x, x<|p_link := hd|>);;
    q ← lift (wr q (HASH ident) (Some p));
    modify (λ s, s<|slpque := q|>);;
    (if negb (timo =? 0) then timeout p timo else mret tt);;
    r ← (if has priority PCATCH then tsleep_catch fuel p else mret None);
    '(sig, catch) ← match r with
      | Some sc => mret sc
      | None =>
          setp p (λ x, x<|p_stat := SSLEEP|>);;
          (if negb (p =? 0)%nat then wakeup runin_addr else mret tt);;
          setu (λ v, v<|u_ru ::= λ r, r<|ru_nvcsw ::= λ n, s32 (n + 1)|>|>);;
          swtch;;
          mret (0, has priority PCATCH)
      end;
    setp p (λ x, x<|p_flag ::= λ f, bic f P_SINTR|>);;
    x ← at_ p;
    let late := has (p_flag x) P_TIMEOUT in
    (if late then setp p (λ x, x<|p_flag ::= λ f, bic f P_TIMEOUT|>)
     else if negb (timo =? 0) then untimeout p else mret tt);;
    if late && (sig =? 0) then mret EWOULDBLOCK
    else
      sig ← (if (catch : bool) then if negb (sig =? 0) then mret sig else CURSIG fuel p else mret 0);
      if negb (sig =? 0) then
        i ← gets (λ s, u_sigintr (u s));
        mret (if has i (sigmask sig) then EINTR else ERESTART)
      else mret 0.

(** [while (tsleep((caddr_t)&u, PPAUSE|PCATCH, 0) == 0) ;] *)
Fixpoint pause (fuel : nat) : M unit :=
  match fuel with
  | O => lift Spin
  | S fuel =>
      e ← tsleep fuel u_addr (Z.lor PPAUSE PCATCH) 0;
      if e =? 0 then pause fuel else mret tt
  end.
(** [sigsuspend] up to its loop. *)
Definition suspend_mask (set : Z) : M unit :=
  p ← curproc;
  nmask ← (if negb (set =? 0) then
             r ← copyin set 1; mret (match r with inr [w] => w | _ => 0 end)
           else mret 0);
  x ← at_ p;
  setu (λ v, v<|u_oldmask := p_sigmask x|>);;
  setu (λ v, v<|u_psflags ::= λ w, Z.lor w SAS_OLDMASK|>);;
  setp p (λ x, x<|p_sigmask := bic nmask sigcantmask|>).
Definition sigsuspend (fuel : nat) (set : Z) : M unit :=
  suspend_mask set;;
  pause fuel;;
  set_error EINTR.

(** [while ((sigsavail = (wanted & p->p_sig)) == 0) tsleep(...);] *)
Fixpoint await (fuel : nat) (p : nat) (wanted : Z) : M Z :=
  x ← at_ p;
  let sigsavail := Z.land wanted (p_sig x) in
  if negb (sigsavail =? 0) then mret sigsavail
  else
    match fuel with
    | O => lift Spin
    | S fuel => _ ← tsleep fuel u_signal_addr (Z.lor PPAUSE PCATCH) 0; await fuel p wanted
    end.
Definition sigwait (fuel : nat) (set sig : Z) : M unit :=
  p ← curproc;
  e ← (if (set =? 0) || (sig =? 0) then mret EINVAL
       else fetch set 1 (λ ws, match ws with
         | [wanted] =>
             sigsavail ← await fuel p (Z.lor wanted sigcantmask);
             if has sigsavail sigcantmask then mret EINTR
             else
               let signo := ffs sigsavail in
               setp p (λ x, x<|p_sig ::= λ g, bic g (sigmask signo)|>);;
               copyout [signo] sig
         | _ => lift Wild
         end));
  set_error e.

(** ** The frame of a handler *)
Definition SIGFRAME : Z := 160.
Definition SIGCONTEXT : Z := 144.

(** The kernel stores the context of a signal at [sc]: that must be memory of
    the program, and aligned. *)
Definition in_user (a n : Z) : bool := (USER_DATA_START <=? a) && (a + n <=? USER_DATA_END) && (a mod 4 =? 0).

(** The registers a context holds, all but the status: [sc_r1] to [sc_hi] and
    [sc_pc]. *)
Definition saved_regs (regs : list Z) : list Z := take 31 regs ++ drop 32 regs.
Definition restored_regs (regs ws : list Z) : list Z := take 31 ws ++ take 1 (drop 31 regs) ++ drop 31 ws.

Definition reg (i : nat) : M Z := r ← gets (λ s, u_frame (u s)); lift (rd r i).
Definition set_reg (i : nat) (v : Z) : M unit :=
  r ← gets (λ s, u_frame (u s)); r ← lift (wr r i v); setu (λ w, w<|u_frame := r|>).

(** The part from "Build the signal context". *)
Definition sendsig_frame (handler sig mask oonstack sfp : Z) : M unit :=
  let sc := sfp + 16 in
  (if in_user sc SIGCONTEXT then mret tt else lift Wild);;
  regs ← gets (λ s, u_frame (u s));
  modify (λ s, s<|umem ::= λ m, store_words m sc [oonstack; mask]|>);;
  modify (λ s, s<|umem ::= λ m, store_words m (sc + 16) (saved_regs regs)|>);;
  code ← gets (λ s, u_code (u s));
  tramp ← gets (λ s, u_sigtramp (u s));
  set_reg FRAME_R4 sig;;
  set_reg FRAME_R5 code;;
  set_reg FRAME_R6 sc;;
  set_reg FRAME_RA tramp;;
  set_reg FRAME_SP sfp;;
  set_reg FRAME_PC handler.
Definition sendsig (handler sig mask : Z) : M unit :=
  p ← curproc;
  v ← gets u;
  let oonstack := Z.land (ss_flags (u_sigstk v)) SA_ONSTACK in
  sp ← (if has (u_psflags v) SAS_ALTSTACK && negb (has (ss_flags (u_sigstk v)) SA_ONSTACK)
           && has (u_sigonstack v) (sigmask sig) then
          setu (λ v, v<|u_sigstk ::= λ k, k<|ss_flags ::= λ f, Z.lor f SA_ONSTACK|>|>);;
          mret (u32 (ss_base (u_sigstk v) + ss_size (u_sigstk v)))
        else reg FRAME_SP);
  let sfp := u32 (sp - SIGFRAME) in
  k ← gets (λ s, u_sigstk (u s));
  x ← at_ p;
  if negb (has (ss_flags k) SA_ONSTACK) then
    if sfp <? u32 (p_daddr x + u_dsize v) then fatalsig SIGILL
    else
      (if p_ssize x <? u32 (USER_DATA_END - sfp) then
         setp p (λ x, x<|p_ssize := u32 (USER_DATA_END - sfp)|>);;
         setp p (λ x, x<|p_saddr := sfp|>);;
         setu (λ v, v<|u_ssize := u32 (USER_DATA_END - sfp)|>)
       else mret tt);;
      sendsig_frame handler sig mask oonstack sfp
  else sendsig_frame handler sig mask oonstack sfp.

Definition sigreturn : M unit :=
  p ← curproc;
  sp ← reg FRAME_SP;
  let scp := u32 (sp + 16) in
  if baduaddr scp || baduaddr (u32 (scp + SIGCONTEXT)) then set_error EFAULT
  else
    set_error EJUSTRETURN;;
    (if scp mod 4 =? 0 then mret tt else lift Wild);;
    m ← gets umem;
    match load_words m scp 2 with
    | [on; mask] =>
        (if has on SA_ONSTACK then setu (λ v, v<|u_sigstk ::= λ k, k<|ss_flags ::= λ f, Z.lor f SA_ONSTACK|>|>)
         else setu (λ v, v<|u_sigstk ::= λ k, k<|ss_flags ::= λ f, bic f SA_ONSTACK|>|>));;
        setp p (λ x, x<|p_sigmask := bic mask sigcantmask|>);;
        setu (λ v, v<|u_frame ::= λ r, restored_regs r (load_words m (scp + 16) 32)|>)
    | _ => lift Wild
    end.

(** ** Taking the signal *)

(** The mask during the handler; returns the mask for after it. *)
Definition post_mask (sig : Z) : M Z :=
  p ← curproc;
  v ← gets u; x ← at_ p;
  returnmask ← (if has (u_psflags v) SAS_OLDMASK then
                  setu (λ v, v<|u_psflags ::= λ w, bic w SAS_OLDMASK|>);; mret (u_oldmask v)
                else mret (p_sigmask x));
  m ← u_sigmask_at sig;
  setp p (λ x, x<|p_sigmask ::= λ g, Z.lor g (Z.lor m (sigmask sig))|>);;
  mret returnmask.
Definition postsig (sig : Z) : M unit :=
  p ← curproc;
  let mask := sigmask sig in
  setp p (λ x, x<|p_sig ::= λ g, bic g mask|>);;
  action ← u_signal_at sig;
  if negb (action =? SIG_DFL) then
    set_error 0;;
    returnmask ← post_mask sig;
    setu (λ v, v<|u_ru ::= λ r, r<|ru_nsignals ::= λ n, s32 (n + 1)|>|>);;
    sendsig action sig returnmask
  else
    prop ← lift (rdz sigprop sig);
    dumped ← (if has prop SA_CORE then core else mret false);
    exit (if (dumped : bool) then Z.lor sig 128 else sig).
End Sigcalls.
