(* ===== verification/Disp.v ===== *)
(** * The dispositions of signals

    That the signal calls keep the sets of caught, ignored and blocked signals
    consistent with the handlers, and SIGKILL and SIGSTOP out of them
    (kernel/kern_sig2.c, kernel/kern_exec.c). *)
From stdpp Require Import base tactics list option strings numbers gmap.
From S2P Require Import Prelude Proc Prot Synch Signal Sigcalls.
Open Scope Z_scope.

(** ** Sets of signals *)
Lemma sigmask_pow sig : 0 < sig → sigmask sig = 2 ^ (sig - 1).
Proof. intros. unfold sigmask. rewrite Z.shiftl_mul_pow2 by lia. lia. Qed.
Lemma has_sig w sig : 0 < sig → has w (sigmask sig) = Z.testbit w (sig - 1).
Proof. intros. rewrite sigmask_pow by done. apply has_bit. lia. Qed.
Lemma testbit_sig a b : 0 < a → 0 < b → Z.testbit (sigmask a) (b - 1) = (a =? b).
Proof. intros. rewrite sigmask_pow, Z.pow2_bits_eqb by lia. destruct (Z.eqb_spec a b); lia. Qed.
Lemma has_sig_lor w a b : 0 < a → 0 < b → has (Z.lor w (sigmask a)) (sigmask b) = has w (sigmask b) || (a =? b).
Proof. intros. by rewrite !has_sig, Z.lor_spec, testbit_sig by done. Qed.
Lemma has_sig_bic w a b : 0 < a → 0 < b → has (bic w (sigmask a)) (sigmask b) = has w (sigmask b) && negb (a =? b).
Proof. intros. unfold bic. rewrite !has_sig by done. by rewrite Z.land_spec, Z.lnot_spec, testbit_sig by lia. Qed.
Lemma has_comm x y : has x y = has y x.
Proof. unfold has. by rewrite Z.land_comm. Qed.
Lemma has_cant w : has w sigcantmask = has w (sigmask SIGKILL) || has w (sigmask SIGSTOP).
Proof. rewrite has_comm. unfold sigcantmask. by rewrite has_lor, !(has_comm _ w). Qed.
Lemma has_bic_cant w : has (bic w sigcantmask) sigcantmask = false.
Proof. by apply has_bic_same. Qed.

(** ** The lowest signal of a set *)
Lemma lowest_bit m : 0 < m → ∃ k, 0 ≤ k ∧ Z.testbit m k = true ∧ ∀ j, 0 ≤ j < k → Z.testbit m j = false.
Proof.
  induction (Z.lt_wf 0 m) as [m _ IH]. intros Hm. destruct (Z.testbit m 0) eqn:E.
  - exists 0. split_and!; [done|done|lia].
  - assert (Hodd : m = 2 * (m / 2)).
    { rewrite Z.bit0_odd in E. rewrite <- Z.negb_even in E. apply negb_false_iff, Z.even_spec in E as [q ->].
      Z.to_euclidean_division_equations. lia. }
    destruct (IH (m / 2)) as (k & Hk & H1 & H2); [lia|lia|]. exists (k + 1). split_and!; [lia| |].
    + rewrite Hodd, Z.double_bits. by replace (Z.pred (k + 1)) with k by lia.
    + intros j Hj. destruct (decide (j = 0)) as [->|]; [done|]. rewrite Hodd, Z.double_bits. apply H2. lia.
Qed.
Lemma land_opp m k :
  0 ≤ k → Z.testbit m k = true → (∀ j, 0 ≤ j < k → Z.testbit m j = false) → Z.land m (- m) = 2 ^ k.
Proof.
  intros Hk H1 H2. assert (Hq : m = 2 ^ k * (2 * (m / 2 ^ (k + 1)) + 1)).
  { rewrite Z.pow_add_r, <- Z.div_div by lia. change (2 ^ 1) with 2.
    assert (E1 : m mod 2 ^ k = 0).
    { apply Z.bits_inj'. intros j Hj. rewrite Z.bits_0. destruct (decide (j < k)).
      - rewrite Z.mod_pow2_bits_low by lia. apply H2. lia.
      - apply Z.mod_pow2_bits_high. lia. }
    assert (E2 : (m / 2 ^ k) mod 2 = 1).
    { rewrite <- Z.bit0_mod, Z.div_pow2_bits by lia. by rewrite Z.add_0_l, H1. }
    pose proof (Z.div_mod m (2 ^ k) ltac:(lia)). pose proof (Z.div_mod (m / 2 ^ k) 2 ltac:(lia)). nia. }
  set (q := m / 2 ^ (k + 1)) in *. rewrite Hq, <- Z.mul_opp_r, !(Z.mul_comm (2 ^ k)), <- !Z.shiftl_mul_pow2 by lia.
  rewrite <- Z.shiftl_land. replace (Z.land (2 * q + 1) (- (2 * q + 1))) with 1; [by rewrite Z.shiftl_1_l|].
  apply Z.bits_inj'. intros j Hj. rewrite Z.land_spec, Z.bits_opp by done.
  replace (Z.pred (2 * q + 1)) with (2 * q) by lia. destruct (decide (j = 0)) as [->|].
  - rewrite Z.testbit_odd_0, Z.testbit_even_0. done.
  - replace j with (Z.succ (j - 1)) by lia. rewrite Z.testbit_odd_succ, Z.testbit_even_succ by lia.
    rewrite andb_negb_r. symmetry. replace (Z.succ (j - 1)) with j by lia. change 1 with (2 ^ 0).
    rewrite Z.pow2_bits_false; [done|lia].
Qed.
Lemma ffs_lowest m : 0 < m < 2 ^ 32 →
  0 < ffs m ≤ 32 ∧ Z.testbit m (ffs m - 1) = true ∧ ∀ j, 0 ≤ j < ffs m - 1 → Z.testbit m j = false.
Proof.
  intros Hm. destruct (lowest_bit m ltac:(lia)) as (k & Hk & H1 & H2).
  assert (Hk32 : k < 32).
  { destruct (decide (k < 32)); [done|]. rewrite (proj1 (Z.bounded_iff_bits_nonneg 32 m ltac:(lia) ltac:(lia)) ltac:(lia)) in H1 by lia. done. }
  assert (E : ffs m = k + 1).
  { unfold ffs. rewrite (proj2 (Z.eqb_neq m 0)) by lia. cbn [negb].
    assert (El : Z.land m (u32 (- m)) = 2 ^ k).
    { rewrite <- (land_opp m k Hk H1 H2). unfold u32. rewrite <- Z.land_ones by lia. rewrite (Z.land_comm (- m)), Z.land_assoc.
      f_equal. rewrite Z.land_ones by lia. apply Z.mod_small. lia. }
    rewrite El. unfold mips_clz. rewrite (proj2 (Z.eqb_neq _ 0)) by (pose proof (Z.pow_pos_nonneg 2 k); lia).
    rewrite Z.log2_pow2 by done. lia. }
  rewrite E. replace (k + 1 - 1) with k by lia. split_and!; [lia|lia|done|done].
Qed.

(** ** Consistent dispositions *)
Definition caught_by (h : Z) : bool := negb (h =? SIG_DFL) && negb (h =? SIG_IGN).
Definition ignored_by (sig h : Z) : bool :=
  ((h =? SIG_IGN) || (has (prop_of sig) SA_IGNORE && (h =? SIG_DFL))) && negb (sig =? SIGCONT).

Record disp_ok (v : user) (x : proc) : Prop := DispOk {
  d_signal : length (u_signal v) = 32%nat;
  d_sigmask : length (u_sigmask v) = 32%nat;
  d_catch : ∀ sig h, 0 < sig < NSIG → u_signal v !! Z.to_nat sig = Some h → has (p_sigcatch x) (sigmask sig) = caught_by h;
  d_ignore : ∀ sig h, 0 < sig < NSIG → u_signal v !! Z.to_nat sig = Some h →
    has (p_sigignore x) (sigmask sig) = ignored_by sig h;
  d_kill : u_signal v !! Z.to_nat SIGKILL = Some SIG_DFL;
  d_stop : u_signal v !! Z.to_nat SIGSTOP = Some SIG_DFL;
  d_mask : has (p_sigmask x) sigcantmask = false;
  d_oldmask : has (u_oldmask v) sigcantmask = false;
  d_masks : Forall (λ m, has m sigcantmask = false) (u_sigmask v);
  d_range : 0 ≤ p_sigcatch x < 2^31 }.

Lemma cant_range : 0 < SIGKILL < NSIG ∧ 0 < SIGSTOP < NSIG.
Proof. unfold SIGKILL, SIGSTOP, NSIG. lia. Qed.

(** SIGKILL and SIGSTOP are neither blocked nor ignored nor caught. *)
Lemma disp_uncatchable v x :
  disp_ok v x → has (Z.lor (p_sigmask x) (Z.lor (p_sigignore x) (p_sigcatch x))) sigcantmask = false.
Proof.
  intros [_ _ D1 D2 D3 D4 D5 _ _ _]. rewrite !has_lor, D5, !has_cant.
  destruct cant_range as [R1 R2].
  by rewrite (D1 _ _ R1 D3), (D1 _ _ R2 D4), (D2 _ _ R1 D3), (D2 _ _ R2 D4).
Qed.

(** ** Running code of the current process

    [with_cur s x v]: the current process is [x], its user area [v]. *)
Definition with_cur (s : kern) (x : proc) (v : user) : kern :=
  s<|procs := <[u_procp (u s) := x]> (procs s)|><|u := v|>.

Section Current.
Context `{Layout} `{Machine}.
Implicit Types (s : kern) (x : proc) (v : user).

(** A state in which the current process is [x]. *)
Definition cur s x : Prop := procs s !! u_procp (u s) = Some x.

Lemma with_cur_id s x : cur s x → with_cur s x (u s) = s.
Proof.
  intros Hx. unfold with_cur. rewrite (procs_put_id s _ x Hx). by destruct s.
Qed.
Lemma cur_lt s x : cur s x → (u_procp (u s) < length (procs s))%nat.
Proof. apply lookup_lt_Some. Qed.

(** The rules for code that works on the current process. *)
Lemma wp_at_with s x0 x v (Q : proc → kern → Prop) :
  cur s x0 → Q x (with_cur s x v) → wp (at_ (u_procp (u s))) Q (with_cur s x v).
Proof.
  intros Hx HQ. eapply wp_at; [|exact HQ]. unfold with_cur. fields. apply list_lookup_insert_eq. by eapply cur_lt.
Qed.
Lemma wp_setp_with s x0 x v f (Q : unit → kern → Prop) :
  cur s x0 → Q tt (with_cur s (f x) v) → wp (setp (u_procp (u s)) f) Q (with_cur s x v).
Proof.
  intros Hx HQ. eapply wp_setp.
  - unfold with_cur. fields. apply list_lookup_insert_eq. by eapply cur_lt.
  - unfold with_cur in *. fields. by rewrite list_insert_insert_eq.
Qed.
Lemma wp_setu_with s x v f (Q : unit → kern → Prop) : Q tt (with_cur s x (f v)) → wp (setu f) Q (with_cur s x v).
Proof. intros HQ. by apply wp_setu. Qed.

Lemma wrz_Done {A} (l : list A) i y : 0 ≤ i → (Z.to_nat i < length l)%nat → wrz l i y = Done (<[Z.to_nat i := y]> l).
Proof. intros Hi Hl. unfold wrz. rewrite (proj2 (Z.leb_le 0 i)) by done. by apply wr_Done. Qed.
Lemma rdz_Done {A} (l : list A) i y : 0 ≤ i → l !! Z.to_nat i = Some y → rdz l i = Done y.
Proof. intros Hi Hl. unfold rdz. rewrite (proj2 (Z.leb_le 0 i)) by done. by apply rd_Done. Qed.

Lemma wp_set_u_signal s x v i h (Q : unit → kern → Prop) :
  0 ≤ i → (Z.to_nat i < length (u_signal v))%nat →
  Q tt (with_cur s x (v<|u_signal ::= <[Z.to_nat i := h]>|>)) → wp (set_u_signal i h) Q (with_cur s x v).
Proof.
  intros Hi Hl HQ. unfold set_u_signal. wp_go. eapply wp_lift; [by apply wrz_Done|]. by apply wp_setu_with.
Qed.
Lemma wp_set_u_sigmask s x v i m (Q : unit → kern → Prop) :
  0 ≤ i → (Z.to_nat i < length (u_sigmask v))%nat →
  Q tt (with_cur s x (v<|u_sigmask ::= <[Z.to_nat i := m]>|>)) → wp (set_u_sigmask i m) Q (with_cur s x v).
Proof.
  intros Hi Hl HQ. unfold set_u_sigmask. wp_go. eapply wp_lift; [by apply wrz_Done|]. by apply wp_setu_with.
Qed.

(** ** A new disposition *)
Definition vec_user (signum h m f : Z) (v : user) : user :=
  let bit := sigmask signum in
  v<|u_signal ::= <[Z.to_nat signum := h]>|><|u_sigmask ::= <[Z.to_nat signum := bic m sigcantmask]>|>
   <|u_sigintr ::= λ w, if has f SA_RESTART then bic w bit else Z.lor w bit|>
   <|u_sigonstack ::= λ w, if has f SA_ONSTACK then Z.lor w bit else bic w bit|>.
Definition vec_flag (signum f : Z) (x : proc) : proc :=
  if signum =? SIGCHLD then
    x<|p_flag ::= λ w, if has f SA_NOCLDSTOP then Z.lor w P_NOCLDSTOP else bic w P_NOCLDSTOP|> else x.
Definition vec_proc (signum h f : Z) (x : proc) : proc :=
  let bit := sigmask signum in
  let x := vec_flag signum f x in
  if (h =? SIG_IGN) || (has (prop_of signum) SA_IGNORE && (h =? SIG_DFL)) then
    let x := x<|p_sig ::= λ g, bic g bit|> in
    let x := if negb (signum =? SIGCONT) then x<|p_sigignore ::= λ g, Z.lor g bit|> else x in
    x<|p_sigcatch ::= λ g, bic g bit|>
  else
    let x := x<|p_sigignore ::= λ g, bic g bit|> in
    x<|p_sigcatch ::= λ g, if h =? SIG_DFL then bic g bit else Z.lor g bit|>.

Lemma wp_setsigvec s x signum h m f (Q : unit → kern → Prop) :
  cur s x → 0 < signum < NSIG → length (u_signal (u s)) = 32%nat → length (u_sigmask (u s)) = 32%nat →
  Q tt (with_cur s (vec_proc signum h f x) (vec_user signum h m f (u s))) → wp (setsigvec signum h m f) Q s.
Proof.
  intros Hx Hs H1 H2 HQ. unfold NSIG in Hs. rewrite <- (with_cur_id s x Hx). unfold setsigvec, curproc. wp_go.
  change (u_procp (u (with_cur s x (u s)))) with (u_procp (u s)).
  apply wp_set_u_signal; [lia|rewrite H1; lia|]. apply wp_bind.
  apply wp_set_u_sigmask; [lia|fields; rewrite H2; lia|]. apply wp_bind.
  match goal with |- wp _ ?K _ => assert (HK : K tt (with_cur s x (((u s)<|u_signal ::= <[Z.to_nat signum := h]>|>
    <|u_sigmask ::= <[Z.to_nat signum := bic m sigcantmask]>|>)
    <|u_sigintr ::= λ w, if has f SA_RESTART then bic w (sigmask signum) else Z.lor w (sigmask signum)|>))) end.
  2:{ destruct (has f SA_RESTART); by apply wp_setu_with. }
  cbv beta. apply wp_bind.
  match goal with |- wp _ ?K _ => assert (HK : K tt (with_cur s x (vec_user signum h m f (u s)))) end.
  2:{ unfold vec_user in HK. destruct (has f SA_ONSTACK); by apply wp_setu_with. }
  cbv beta. apply wp_bind.
  match goal with |- wp _ ?K _ => assert (HK : K tt (with_cur s (vec_flag signum f x) (vec_user signum h m f (u s)))) end.
  2:{ unfold vec_flag in HK. destruct (signum =? SIGCHLD); [|by apply wp_ret].
      destruct (has f SA_NOCLDSTOP); by eapply wp_setp_with. }
  cbv beta. apply wp_bind. eapply wp_lift; [apply rdz_sigprop; unfold NSIG; lia|].
  unfold vec_proc in HQ. destruct (_ || _).
  - apply wp_bind. eapply wp_setp_with; [done|]. apply wp_bind.
    destruct (negb (signum =? SIGCONT)); [eapply wp_setp_with; [done|]|apply wp_ret]; by eapply wp_setp_with.
  - apply wp_bind. eapply wp_setp_with; [done|]. destruct (h =? SIG_DFL); by eapply wp_setp_with.
Qed.

Lemma word_lor a b k : 0 ≤ k → 0 ≤ a < 2^k → 0 ≤ b < 2^k → 0 ≤ Z.lor a b < 2^k.
Proof.
  intros Hk [Ha1 Ha2] [Hb1 Hb2]. split; [by apply Z.lor_nonneg|].
  rewrite Z.bounded_iff_bits_nonneg in Ha2, Hb2 by done. apply Z.bounded_iff_bits_nonneg; [done|by apply Z.lor_nonneg|].
  intros l Hl. by rewrite Z.lor_spec, Ha2, Hb2.
Qed.
Lemma word_bic a m k : 0 ≤ k → 0 ≤ a < 2^k → 0 ≤ bic a m < 2^k.
Proof.
  intros Hk [Ha1 Ha2]. unfold bic. assert (0 ≤ Z.land a (Z.lnot m)) by (apply Z.land_nonneg; by left). split; [done|].
  rewrite Z.bounded_iff_bits_nonneg in Ha2 by done. apply Z.bounded_iff_bits_nonneg; [done|done|].
  intros l Hl. by rewrite Z.land_spec, Ha2.
Qed.
Lemma sigmask_word sig : 0 < sig < NSIG → 0 ≤ sigmask sig < 2^31.
Proof.
  unfold NSIG. intros Hs. rewrite sigmask_pow by lia. split; [apply Z.pow_nonneg; lia|]. apply Z.pow_lt_mono_r; lia.
Qed.

Lemma vec_catch signum h f x :
  p_sigcatch (vec_proc signum h f x) =
    if caught_by h then Z.lor (p_sigcatch x) (sigmask signum) else bic (p_sigcatch x) (sigmask signum).
Proof.
  unfold vec_proc, vec_flag, caught_by.
  destruct (h =? SIG_IGN), (h =? SIG_DFL), (has (prop_of signum) SA_IGNORE), (signum =? SIGCONT), (signum =? SIGCHLD); done.
Qed.
Lemma vec_ignore signum h f x :
  p_sigignore (vec_proc signum h f x) =
    if ignored_by signum h then Z.lor (p_sigignore x) (sigmask signum)
    else if ((h =? SIG_IGN) || (has (prop_of signum) SA_IGNORE && (h =? SIG_DFL))) then p_sigignore x
    else bic (p_sigignore x) (sigmask signum).
Proof.
  unfold vec_proc, vec_flag, ignored_by.
  destruct (h =? SIG_IGN), (h =? SIG_DFL), (has (prop_of signum) SA_IGNORE), (signum =? SIGCONT), (signum =? SIGCHLD); done.
Qed.
Lemma vec_sigmask signum h f x : p_sigmask (vec_proc signum h f x) = p_sigmask x.
Proof.
  unfold vec_proc, vec_flag. by destruct (_ || _), (signum =? SIGCONT), (signum =? SIGCHLD), (h =? SIG_DFL).
Qed.

Lemma lookup_signal (l : list Z) i sig h h0 :
  length l = 32%nat → 0 < i < NSIG → 0 < sig < NSIG → <[Z.to_nat i := h]> l !! Z.to_nat sig = Some h0 →
  if i =? sig then h0 = h else l !! Z.to_nat sig = Some h0.
Proof.
  unfold NSIG. intros Hl Hi Hs. destruct (Z.eqb_spec i sig) as [->|Hne].
  - rewrite list_lookup_insert_eq by lia. naive_solver.
  - by rewrite list_lookup_insert_ne by lia.
Qed.

Lemma disp_vec signum h m f v x :
  disp_ok v x → 0 < signum < NSIG → signum ≠ SIGKILL → signum ≠ SIGSTOP →
  disp_ok (vec_user signum h m f v) (vec_proc signum h f x).
Proof.
  intros [D1 D2 D3 D4 D5 D6 D7 D8 D9 D10] Hs Hk Ht. unfold vec_user. split; fields.
  - by rewrite length_insert.
  - by rewrite length_insert.
  - intros sig h0 Hr Hl. apply lookup_signal in Hl; [|done..]. rewrite vec_catch. destruct (caught_by h) eqn:Ec.
    + rewrite has_sig_lor by lia. destruct (signum =? sig); [subst; by rewrite orb_true_r|].
      rewrite orb_false_r. by apply D3.
    + rewrite has_sig_bic by lia. destruct (signum =? sig); [subst; by rewrite andb_false_r|].
      rewrite andb_true_r. by apply D3.
  - intros sig h0 Hr Hl. apply lookup_signal in Hl; [|done..]. rewrite vec_ignore. destruct (ignored_by signum h) eqn:Ei.
    + rewrite has_sig_lor by lia. destruct (Z.eqb_spec signum sig) as [->|]; [subst; by rewrite orb_true_r|].
      rewrite orb_false_r. by apply D4.
    + destruct (_ || _) eqn:Eb.
      * destruct (Z.eqb_spec signum sig) as [->|]; [subst|by apply D4].
        unfold ignored_by in Ei. rewrite Eb in Ei. simpl in Ei. apply negb_false_iff, Z.eqb_eq in Ei. subst sig.
        destruct (lookup_lt_is_Some_2 (u_signal v) (Z.to_nat SIGCONT)) as [h1 Hh1]; [rewrite D1; unfold SIGCONT; lia|].
        rewrite (D4 _ _ Hr Hh1). unfold ignored_by. by rewrite !andb_false_r.
      * rewrite has_sig_bic by lia. destruct (Z.eqb_spec signum sig) as [->|]; [subst; by rewrite andb_false_r|].
        rewrite andb_true_r. by apply D4.
  - rewrite list_lookup_insert_ne; [done|]. unfold SIGKILL in *. lia.
  - rewrite list_lookup_insert_ne; [done|]. unfold SIGSTOP in *. lia.
  - by rewrite vec_sigmask.
  - done.
  - apply Forall_insert; [done|]. apply has_bic_cant.
  - rewrite vec_catch. destruct (caught_by h); [apply word_lor|apply word_bic]; try done. by apply sigmask_word.
Qed.

(** Only these members matter. *)
Lemma disp_same v x v' x' :
  u_signal v' = u_signal v → u_sigmask v' = u_sigmask v → u_oldmask v' = u_oldmask v →
  p_sigcatch x' = p_sigcatch x → p_sigignore x' = p_sigignore x → p_sigmask x' = p_sigmask x →
  disp_ok v x → disp_ok v' x'.
Proof. intros E1 E2 E3 E4 E5 E6 [D1 D2 D3 D4 D5 D6 D7 D8 D9 D10]. split; rewrite ?E1, ?E2, ?E3, ?E4, ?E5, ?E6; done. Qed.
Lemma disp_block v x m : has m sigcantmask = false → disp_ok v x → disp_ok v (x<|p_sigmask := m|>).
Proof. intros Hm [D1 D2 D3 D4 D5 D6 D7 D8 D9 D10]. by split. Qed.

(** ** The calls *)

(** The current process and its user area are consistent. *)
Definition sig_ok s : Prop := ∃ x, cur s x ∧ disp_ok (u s) x.

Lemma wp_copyout ws a (Q : Z → kern → Prop) s :
  Q EFAULT s → Q 0 (s<|umem ::= λ m, store_words m a ws|>) → wp (copyout ws a) Q s.
Proof. intros H1 H2. unfold copyout. destruct (_ || _); [by apply wp_ret|]. by wp_go. Qed.
Lemma wp_fetch a n k (Q : Z → kern → Prop) s :
  Q EFAULT s → (∀ ws, length ws = n → wp (k ws) Q s) → wp (fetch a n k) Q s.
Proof.
  intros H1 H2. unfold fetch, copyin. apply wp_bind. destruct (_ || _); wp_go; [done|]. apply H2.
  unfold load_words. by rewrite length_map, length_seq.
Qed.
Lemma sig_ok_error s e : sig_ok s → sig_ok (s<|u ::= λ v, v<|u_error := e|>|>).
Proof. intros (x & Hx & Hd). exists x. split; [exact Hx|]. by apply (disp_same (u s) x). Qed.
Lemma sig_ok_umem s f : sig_ok s → sig_ok (s<|umem ::= f|>).
Proof. intros (x & Hx & Hd). by exists x. Qed.
Lemma sig_ok_with s x0 x v : cur s x0 → u_procp v = u_procp (u s) → disp_ok v x → sig_ok (with_cur s x v).
Proof.
  intros Hx Hv Hd. exists x. split; [|done]. unfold cur, with_cur. fields. rewrite Hv.
  apply list_lookup_insert_eq. by eapply cur_lt.
Qed.

(** The end of a call: its error is set. *)
Lemma wp_finish m s : wp m (λ _ s', sig_ok s') s → wp (e ← m; set_error e) (λ _ s', sig_ok s') s.
Proof.
  intros Hm. apply wp_bind. eapply wp_mono; [exact Hm|]. intros e s' Hs. apply wp_setu. by apply sig_ok_error.
Qed.

(** The description of the current disposition. *)
Definition action_of v x (signum : Z) (h m : Z) : list Z :=
  let bit := sigmask signum in
  [h; m;
    Z.lor (Z.lor (if has (u_sigonstack v) bit then SA_ONSTACK else 0)
      (if negb (has (u_sigintr v) bit) then SA_RESTART else 0))
      (if has (p_flag x) P_NOCLDSTOP then SA_NOCLDSTOP else 0)].
Lemma wp_old_action s x signum :
  cur s x → disp_ok (u s) x → 0 < signum < NSIG →
  wp (old_action signum) (λ ws s', s' = s ∧ ∃ h m, u_signal (u s) !! Z.to_nat signum = Some h ∧
    u_sigmask (u s) !! Z.to_nat signum = Some m ∧ ws = action_of (u s) x signum h m) s.
Proof.
  intros Hx Hd Hs. unfold NSIG in Hs. unfold old_action, u_signal_at, u_sigmask_at, curproc.
  destruct (lookup_lt_is_Some_2 (u_signal (u s)) (Z.to_nat signum)) as [h Hh]; [rewrite (d_signal _ _ Hd); lia|].
  destruct (lookup_lt_is_Some_2 (u_sigmask (u s)) (Z.to_nat signum)) as [m Hm]; [rewrite (d_sigmask _ _ Hd); lia|].
  wp_go. eapply wp_lift; [apply rdz_Done; [lia|done]|]. wp_go. eapply wp_lift; [apply rdz_Done; [lia|done]|]. wp_go.
  eapply wp_at; [exact Hx|]. wp_go. split; [done|]. by exists h, m.
Qed.

Lemma sig_ok_sigaction s signum nsa osa tramp :
  sig_ok s → wp (sigaction signum nsa osa tramp) (λ _ s', sig_ok s') s.
Proof.
  intros (x & Hx & Hd). unfold sigaction. apply wp_bind, wp_setu. apply wp_finish.
  set (s1 := s<|u ::= λ v, v<|u_sigtramp := tramp|>|>). assert (Hx1 : cur s1 x) by exact Hx.
  assert (Hd1 : disp_ok (u s1) x) by (by apply (disp_same (u s) x)). assert (Hs1 : sig_ok s1) by (by exists x).
  destruct ((signum <=? 0) || (NSIG <=? signum)) eqn:Er; [by apply wp_ret|]. apply orb_false_iff in Er.
  assert (Hr : 0 < signum < NSIG) by lia. destruct (negb (nsa =? 0)) eqn:En; cbn [andb].
  - destruct (Z.eqb_spec signum SIGKILL) as [|Hk]; [by apply wp_ret|].
    destruct (Z.eqb_spec signum SIGSTOP) as [|Ht]; [by apply wp_ret|]. simpl. apply wp_bind.
    assert (HV : ∀ s2 x2, cur s2 x2 → disp_ok (u s2) x2 → ∀ h m f,
      wp (setsigvec signum h m f;; mret 0) (λ _ s', sig_ok s') s2).
    { intros s2 x2 Hx2 Hd2 h m f. apply wp_bind. eapply wp_setsigvec; [done|done|apply Hd2|apply Hd2|]. apply wp_ret.
      eapply sig_ok_with; [done|done|]. by apply disp_vec. }
    assert (HF : ∀ s2 (e : Z), sig_ok s2 → wp (if negb (e =? 0) then mret e else
      fetch nsa 3 (λ ws, match ws with [h; m; f] => setsigvec signum h m f;; mret 0 | _ => lift Wild end))
      (λ _ s', sig_ok s') s2).
    { intros s2 e (x2 & Hx2 & Hd2). assert (sig_ok s2) by (by exists x2). destruct (negb (e =? 0)); [by apply wp_ret|].
      apply wp_fetch; [done|]. intros [|h [|m [|f [|]]]] Hl; try done. by eapply HV. }
    destruct (negb (osa =? 0)); [|apply wp_ret; by apply HF].
    apply wp_bind. eapply wp_mono; [apply (wp_old_action s1 x signum); [done|done|lia]|].
    intros ws s2 [-> _]. apply wp_copyout; [by apply HF|]. apply HF. by apply sig_ok_umem.
  - apply wp_bind. destruct (negb (osa =? 0)); [|apply wp_ret; by apply wp_ret].
    apply wp_bind. eapply wp_mono; [apply (wp_old_action s1 x signum); [done|done|lia]|].
    intros ws s2 [-> _]. apply wp_copyout; simpl; apply wp_ret; [done|]. by apply sig_ok_umem.
Qed.

Lemma sig_ok_block s x m : cur s x → disp_ok (u s) x → has m sigcantmask = false →
  sig_ok (with_cur s (x<|p_sigmask := m|>) (u s)).
Proof. intros Hx Hd Hm. eapply sig_ok_with; [done|done|]. by apply disp_block. Qed.

(** A change of the mask of the current process. *)
Lemma wp_set_block s x f (Q : unit → kern → Prop) :
  cur s x → Q tt (with_cur s (x<|p_sigmask := f (p_sigmask x)|>) (u s)) →
  wp (setp (u_procp (u s)) (λ x, x<|p_sigmask ::= f|>)) Q s.
Proof. intros Hx HQ. rewrite <- (with_cur_id s x Hx) at 2. eapply wp_setp_with; [exact Hx|]. exact HQ. Qed.

Lemma sig_ok_sigprocmask s how set oset : sig_ok s → wp (sigprocmask how set oset) (λ _ s', sig_ok s') s.
Proof.
  intros (x & Hx & Hd). assert (Hs : sig_ok s) by (by exists x). unfold sigprocmask, curproc. wp_go.
  eapply wp_at; [exact Hx|]. apply wp_bind.
  assert (HK : ∀ (e : Z) s', sig_ok s' → wp (e ← (if (e =? 0) && negb (oset =? 0) then copyout [p_sigmask x] oset else mret e);
    set_error e) (λ _ s', sig_ok s') s').
  { intros e s' Hs'. apply wp_finish. destruct (_ && _); [|by apply wp_ret].
    apply wp_copyout; [done|by apply sig_ok_umem]. }
  destruct (set =? 0); [apply wp_ret; by apply HK|]. apply wp_fetch; [by apply HK|].
  intros [|w [|]] Hl; try done. pose proof (d_mask _ _ Hd) as Hm.
  destruct (how =? SIG_BLOCK).
  { apply wp_bind. eapply wp_set_block; [exact Hx|]. apply wp_ret, HK. apply sig_ok_block; [done|done|].
    by rewrite has_lor, Hm, has_bic_cant. }
  destruct (how =? SIG_UNBLOCK).
  { apply wp_bind. eapply wp_set_block; [exact Hx|]. apply wp_ret, HK. apply sig_ok_block; [done|done|]. by apply has_bic_false. }
  destruct (how =? SIG_SETMASK); [|apply wp_ret; by apply HK].
  apply wp_bind. eapply (wp_set_block s x (λ _, bic w sigcantmask)); [exact Hx|]. apply wp_ret, HK.
  apply sig_ok_block; [done|done|]. apply has_bic_cant.
Qed.

Lemma sig_ok_sigpending s set : sig_ok s → wp (sigpending set) (λ _ s', sig_ok s') s.
Proof.
  intros (x & Hx & Hd). assert (Hs : sig_ok s) by (by exists x). unfold sigpending, curproc. wp_go.
  eapply wp_at; [exact Hx|]. apply wp_finish. destruct (negb _); [|by apply wp_ret].
  apply wp_copyout; [done|by apply sig_ok_umem].
Qed.

(** A change of the user area that leaves the dispositions alone. *)
Lemma sig_ok_setu s f :
  u_procp (f (u s)) = u_procp (u s) → u_signal (f (u s)) = u_signal (u s) → u_sigmask (f (u s)) = u_sigmask (u s) →
  u_oldmask (f (u s)) = u_oldmask (u s) → sig_ok s → sig_ok (s<|u ::= f|>).
Proof.
  intros E1 E2 E3 E4 (x & Hx & Hd). exists x. split; [unfold cur; fields; by rewrite E1|]. by apply (disp_same (u s) x).
Qed.

(** Code that keeps the dispositions consistent, whatever it computes. *)
Definition keeps {A} (m : M A) : Prop := ∀ s, sig_ok s → wp m (λ _ s', sig_ok s') s.

Lemma keeps_ret {A} (a : A) : keeps (mret a).
Proof. intros s Hs. by apply wp_ret. Qed.
Lemma keeps_gets {A} (f : kern → A) : keeps (gets f).
Proof. intros s Hs. by apply wp_gets. Qed.
Lemma keeps_bind {A B} (m : M A) (k : A → M B) : keeps m → (∀ a, keeps (k a)) → keeps (m ≫= k).
Proof. intros Hm Hk s Hs. apply wp_bind. eapply wp_mono; [by apply Hm|]. intros a s' Hs'. by apply Hk. Qed.
Lemma keeps_if {A} (b : bool) (m1 m2 : M A) : keeps m1 → keeps m2 → keeps (if b then m1 else m2).
Proof. by destruct b. Qed.
Lemma keeps_copyout ws a : keeps (copyout ws a).
Proof. intros s Hs. apply wp_copyout; [done|by apply sig_ok_umem]. Qed.
Lemma keeps_fetch a n k : (∀ ws, length ws = n → keeps (k ws)) → keeps (fetch a n k).
Proof. intros Hk s Hs. apply wp_fetch; [done|]. intros ws Hw. by apply Hk. Qed.
Lemma keeps_error e : keeps (set_error e).
Proof. intros s Hs. apply wp_setu. by apply sig_ok_error. Qed.
Lemma keeps_psflags f : keeps (setu (λ v, v<|u_psflags ::= f|>)).
Proof. intros s Hs. apply wp_setu. by apply sig_ok_setu. Qed.
Lemma keeps_sigstk f : keeps (setu (λ v, v<|u_sigstk ::= f|>)).
Proof. intros s Hs. apply wp_setu. by apply sig_ok_setu. Qed.

Ltac keep_step :=
  lazymatch goal with
  | |- keeps (_ ≫= _) => apply keeps_bind; [|intros ?]
  | |- keeps (if _ then _ else _) => apply keeps_if
  | |- keeps (mret _) => apply keeps_ret
  | |- keeps (gets _) => apply keeps_gets
  | |- keeps (copyout _ _) => apply keeps_copyout
  | |- keeps (set_error _) => apply keeps_error
  | |- keeps (setu _) => first [apply keeps_psflags | apply keeps_sigstk]
  end.

Lemma keeps_sigaltstack nss oss : keeps (sigaltstack_call nss oss).
Proof.
  unfold sigaltstack_call. repeat keep_step.
  apply keeps_fetch. intros [|b [|z [|f [|]]]] Hl; try done. repeat keep_step.
Qed.
Lemma keeps_sigstack nss oss : keeps (sigstack nss oss).
Proof.
  unfold sigstack. repeat keep_step. apply keeps_fetch. intros [|sp [|on [|]]] Hl; try done. repeat keep_step.
Qed.

(** [sigsuspend] saves a mask without SIGKILL and SIGSTOP, and installs one. *)
Lemma keeps_suspend set : keeps (suspend_mask set).
Proof.
  intros s (x & Hx & Hd). unfold suspend_mask, curproc. apply wp_bind, wp_gets. apply wp_bind.
  eapply (wp_mono _ (λ _ s', s' = s)).
  { destruct (negb _); [|by apply wp_ret]. unfold copyin. wp_go. destruct (_ || _); by wp_go. }
  intros w s' ->. apply wp_bind. eapply wp_at; [exact Hx|]. set (c := u_procp (u s)).
  rewrite <- (with_cur_id s x Hx). subst c.
  do 2 (apply wp_bind, wp_setu_with). eapply wp_setp_with; [exact Hx|]. eapply sig_ok_with; [exact Hx|done|].
  apply disp_block; [apply has_bic_cant|]. destruct Hd as [D1 D2 D3 D4 D5 D6 D7 D8 D9 D10]. by split.
Qed.
(** [postsig] blocks the signal it delivers, never SIGKILL or SIGSTOP. *)
Lemma keeps_post s sig :
  sig_ok s → 0 < sig < NSIG → sig ≠ SIGKILL → sig ≠ SIGSTOP →
  wp (post_mask sig) (λ m s', sig_ok s' ∧ has m sigcantmask = false) s.
Proof.
  intros (x & Hx & Hd) Hs Hk Ht. unfold post_mask, curproc. apply wp_bind, wp_gets. apply wp_bind, wp_gets. apply wp_bind.
  eapply wp_at; [exact Hx|]. destruct (lookup_lt_is_Some_2 (u_sigmask (u s)) (Z.to_nat sig)) as [m Hm].
  { rewrite (d_sigmask _ _ Hd). unfold NSIG in Hs. lia. }
  assert (HK : ∀ r v, has r sigcantmask = false → u_sigmask v = u_sigmask (u s) → disp_ok v x → u_procp v = u_procp (u s) →
    wp (m ← u_sigmask_at sig;
        setp (u_procp (u s)) (λ x, x<|p_sigmask ::= λ g, Z.lor g (Z.lor m (sigmask sig))|>);; mret r)
      (λ m s', sig_ok s' ∧ has m sigcantmask = false) (with_cur s x v)).
  { intros r v Hr Ev Hdv Epv. unfold u_sigmask_at. wp_go. change (u (with_cur s x v)) with v. rewrite Ev.
    eapply wp_lift; [by apply rdz_Done; [lia|]|].
    apply wp_bind. eapply wp_setp_with; [exact Hx|]. apply wp_ret. split; [|done].
    eapply sig_ok_with; [exact Hx|done|]. apply (disp_block v x); [|done].
    rewrite !has_lor, (d_mask _ _ Hd). pose proof (proj1 (Forall_lookup _ _) (d_masks _ _ Hd) _ _ Hm) as Hm0. simpl in Hm0.
    rewrite Hm0. simpl. rewrite has_cant. unfold SIGKILL, SIGSTOP in *. rewrite !has_sig by lia.
    rewrite !testbit_sig by lia. lia. }
  set (c := u_procp (u s)) in *. set (v := u s) in *. rewrite <- (with_cur_id s x Hx). fold v. apply wp_bind.
  destruct (has (u_psflags v) SAS_OLDMASK).
  - apply wp_bind, wp_setu_with. apply wp_ret. apply HK; [apply Hd|done| |done]. by apply (disp_same v x).
  - apply wp_ret. by apply HK; [apply Hd|..].
Qed.

(** ** exec *)

(** One caught signal goes back to its default. *)
Definition reset_proc (nc : Z) (x : proc) : proc :=
  let x := x<|p_sigcatch ::= λ g, bic g (sigmask nc)|> in
  if has (prop_of nc) SA_IGNORE then
    let x := if negb (nc =? SIGCONT) then x<|p_sigignore ::= λ g, Z.lor g (sigmask nc)|> else x in
    x<|p_sig ::= λ g, bic g (sigmask nc)|>
  else x.
Definition reset_user (nc : Z) (v : user) : user := v<|u_signal ::= <[Z.to_nat nc := SIG_DFL]>|>.

(** All of them: handlers are gone, the other dispositions stay, a signal that
    is now ignored is no longer pending. *)
Record was_reset (v v' : user) (x x' : proc) : Prop := WasReset {
  wr_signal : ∀ sig h, 0 < sig < NSIG → u_signal v !! Z.to_nat sig = Some h →
    u_signal v' !! Z.to_nat sig = Some (if caught_by h then SIG_DFL else h);
  wr_user : v' = v<|u_signal := u_signal v'|>;
  wr_pending : ∀ sig h, 0 < sig < NSIG → u_signal v !! Z.to_nat sig = Some h →
    has (p_sig x') (sigmask sig) = has (p_sig x) (sigmask sig) && negb (caught_by h && has (prop_of sig) SA_IGNORE);
  wr_proc : x' = x<|p_sig := p_sig x'|><|p_sigcatch := p_sigcatch x'|><|p_sigignore := p_sigignore x'|> }.

Lemma reset_fields nc x :
  let y := reset_proc nc x in
  p_sigcatch y = bic (p_sigcatch x) (sigmask nc) ∧
  p_sigignore y = (if has (prop_of nc) SA_IGNORE && negb (nc =? SIGCONT) then Z.lor (p_sigignore x) (sigmask nc)
                   else p_sigignore x) ∧
  p_sig y = (if has (prop_of nc) SA_IGNORE then bic (p_sig x) (sigmask nc) else p_sig x) ∧
  y = x<|p_sig := p_sig y|><|p_sigcatch := p_sigcatch y|><|p_sigignore := p_sigignore y|>.
Proof. unfold reset_proc. destruct (has (prop_of nc) SA_IGNORE), (nc =? SIGCONT); split_and!; try reflexivity; by destruct x. Qed.

Lemma disp_reset nc v x :
  disp_ok v x → 0 < nc < NSIG → has (p_sigcatch x) (sigmask nc) = true → disp_ok (reset_user nc v) (reset_proc nc x).
Proof.
  intros Hd Hn Hb. destruct (reset_fields nc x) as (E1 & E2 & _ & E4). destruct Hd as [D1 D2 D3 D4 D5 D6 D7 D8 D9 D10].
  assert (Hh : ∀ h, u_signal v !! Z.to_nat nc = Some h → caught_by h = true) by (intros h Hh; by rewrite <- (D3 _ _ Hn Hh)).
  assert (Hi : has (p_sigignore x) (sigmask nc) = false).
  { destruct (lookup_lt_is_Some_2 (u_signal v) (Z.to_nat nc)) as [h Hl]; [unfold NSIG in *; lia|]. rewrite (D4 _ _ Hn Hl).
    specialize (Hh _ Hl). unfold caught_by in Hh. apply andb_true_iff in Hh as [E5 E6]. apply negb_true_iff in E5, E6.
    unfold ignored_by. by rewrite E5, E6, andb_false_r. }
  unfold reset_user. split; fields.
  - by rewrite length_insert.
  - done.
  - intros sig h Hr Hl. apply lookup_signal in Hl; [|done..]. rewrite E1, has_sig_bic by lia.
    destruct (nc =? sig); [subst; by rewrite andb_false_r|]. rewrite andb_true_r. by apply D3.
  - intros sig h Hr Hl. apply lookup_signal in Hl; [|done..]. rewrite E2.
    destruct (Z.eqb_spec nc sig) as [->|Hne].
    + subst h. unfold ignored_by. change (SIG_DFL =? SIG_IGN) with false. change (SIG_DFL =? SIG_DFL) with true. rewrite andb_true_r. simpl.
      destruct (has (prop_of sig) SA_IGNORE && negb (sig =? SIGCONT)); [|done].
      rewrite has_sig_lor by lia. by rewrite Z.eqb_refl, orb_true_r.
    + rewrite <- (D4 sig h Hr Hl). destruct (_ && _); [|done]. rewrite has_sig_lor by lia.
      by rewrite (proj2 (Z.eqb_neq nc sig)), orb_false_r.
  - rewrite list_lookup_insert_ne; [done|]. intros E. apply (f_equal Z.of_nat) in E. unfold SIGKILL in E.
    assert (nc = 9) as -> by (unfold NSIG in *; lia). by specialize (Hh _ D5).
  - rewrite list_lookup_insert_ne; [done|]. intros E. apply (f_equal Z.of_nat) in E. unfold SIGSTOP in E.
    assert (nc = 17) as -> by (unfold NSIG in *; lia). by specialize (Hh _ D6).
  - rewrite E4. done.
  - done.
  - done.
  - rewrite E1. by apply word_bic.
Qed.

Lemma was_reset_step nc v x v' x' :
  disp_ok v x → 0 < nc < NSIG → has (p_sigcatch x) (sigmask nc) = true →
  was_reset (reset_user nc v) v' (reset_proc nc x) x' → was_reset v v' x x'.
Proof.
  intros Hd Hn Hb [R1 R2 R3 R4]. destruct (reset_fields nc x) as (_ & _ & E3 & E4).
  pose proof (d_signal _ _ Hd) as Hlen. unfold NSIG in Hn.
  assert (HL : ∀ sig h, 0 < sig < NSIG → u_signal v !! Z.to_nat sig = Some h →
    u_signal (reset_user nc v) !! Z.to_nat sig = Some (if nc =? sig then SIG_DFL else h)).
  { intros sig h Hr Hl. unfold reset_user. fields. destruct (Z.eqb_spec nc sig) as [->|].
    - rewrite list_lookup_insert_eq; [done|]. lia.
    - by rewrite list_lookup_insert_ne by lia. }
  assert (HC : ∀ h, u_signal v !! Z.to_nat nc = Some h → caught_by h = true).
  { intros h Hh. by rewrite <- (d_catch _ _ Hd nc h Hn Hh). }
  split.
  - intros sig h Hr Hl. rewrite (R1 sig _ Hr (HL sig h Hr Hl)). destruct (Z.eqb_spec nc sig) as [->|]; [|done].
    by rewrite (HC h Hl).
  - rewrite R2 at 1. reflexivity.
  - intros sig h Hr Hl. rewrite (R3 sig _ Hr (HL sig h Hr Hl)), E3.
    destruct (Z.eqb_spec nc sig) as [->|Hne].
    + rewrite (HC h Hl). simpl. destruct (has (prop_of sig) SA_IGNORE); [|done]. rewrite has_sig_bic by lia.
      by rewrite Z.eqb_refl, !andb_false_r.
    + f_equal. destruct (has (prop_of nc) SA_IGNORE); [|done]. rewrite has_sig_bic by lia.
      by rewrite (proj2 (Z.eqb_neq nc sig)), andb_true_r.
  - rewrite R4 at 1. rewrite E4 at 1. reflexivity.
Qed.

Lemma wp_execsigs_loop s x0 (Q : unit → kern → Prop) : cur s x0 → ∀ fuel k x v,
  disp_ok v x → 0 ≤ k ≤ 31 → (∀ j, 0 ≤ j < k → Z.testbit (p_sigcatch x) j = false) → 31 - k ≤ Z.of_nat fuel →
  (∀ x' v', disp_ok v' x' → p_sigcatch x' = 0 → was_reset v v' x x' → Q tt (with_cur s x' v')) →
  wp (execsigs_loop fuel (u_procp (u s))) Q (with_cur s x v).
Proof.
  intros Hx fuel. induction fuel as [|fuel IH]; intros k x v Hd Hk Hz Hf HQ.
  all: cbn [execsigs_loop]; apply wp_bind; (eapply wp_at_with; [exact Hx|]); destruct (Z.eqb_spec (p_sigcatch x) 0) as [E|E].
  1,3: apply wp_ret, HQ; [done|done|]; (split; [|by destruct v| |by destruct x]); intros sig h Hr Hl;
    pose proof (d_catch _ _ Hd sig h Hr Hl) as Hc; rewrite E in Hc; change (has 0 (sigmask sig)) with false in Hc;
    rewrite <- Hc; [done|by rewrite andb_true_r].
  - exfalso. pose proof (d_range _ _ Hd). apply E. apply Z.bits_inj'. intros j Hj. rewrite Z.bits_0.
    destruct (decide (j < 31)); [apply Hz; lia|].
    apply (proj1 (Z.bounded_iff_bits_nonneg 31 (p_sigcatch x) ltac:(lia) ltac:(lia))); lia.
  - pose proof (d_range _ _ Hd) as Hr. destruct (ffs_lowest (p_sigcatch x)) as (Hn & H1 & H2); [lia|].
    set (nc := ffs (p_sigcatch x)) in *.
    assert (Hn31 : nc < 32).
    { destruct (decide (nc < 32)); [done|]. assert (nc - 1 = 31) as E1 by lia. rewrite E1 in H1.
      rewrite (proj1 (Z.bounded_iff_bits_nonneg 31 (p_sigcatch x) ltac:(lia) ltac:(lia)) ltac:(lia)) in H1 by lia. done. }
    assert (Hkn : k ≤ nc - 1). { destruct (decide (k ≤ nc - 1)); [done|]. rewrite Hz in H1 by lia. done. }
    assert (Hb : has (p_sigcatch x) (sigmask nc) = true) by (by rewrite has_sig by lia).
    assert (Hnc : 0 < nc < NSIG) by (unfold NSIG; lia).
    apply wp_bind. eapply wp_setp_with; [exact Hx|]. apply wp_bind.
    eapply wp_lift; [apply rdz_sigprop; lia|]. apply wp_bind.
    match goal with |- wp _ ?K _ => assert (HK : K tt (with_cur s (reset_proc nc x) v)) end.
    2:{ unfold reset_proc in HK. destruct (has (prop_of nc) SA_IGNORE); [|by apply wp_ret]. apply wp_bind.
        destruct (negb (nc =? SIGCONT)); [eapply wp_setp_with; [exact Hx|]|apply wp_ret]; by eapply wp_setp_with. }
    cbv beta. apply wp_bind. apply wp_set_u_signal; [lia|rewrite (d_signal _ _ Hd); lia|].
    apply (IH nc).
    + by apply disp_reset.
    + lia.
    + destruct (reset_fields nc x) as (-> & _). intros j Hj. unfold bic. rewrite Z.land_spec, Z.lnot_spec by lia.
      replace j with (j + 1 - 1) by lia. rewrite testbit_sig by lia. destruct (Z.eqb_spec nc (j + 1)); [by rewrite andb_false_r|].
      rewrite andb_true_r. replace (j + 1 - 1) with j by lia. apply H2. lia.
    + lia.
    + intros x' v' Hd' Hc' HR. apply HQ; [done|done|]. by eapply was_reset_step.
Qed.

Lemma keeps_exec s : sig_ok s → wp (p ← curproc; execsigs p) (λ _ s', sig_ok s') s.
Proof.
  intros (x & Hx & Hd). unfold curproc, execsigs. apply wp_bind, wp_gets. set (c := u_procp (u s)).
  rewrite <- (with_cur_id s x Hx). subst c. apply wp_bind.
  eapply (wp_execsigs_loop s x _ Hx _ 0); [done|lia|lia|lia|]. intros x' v' Hd' _ HR.
  do 3 (apply wp_bind, wp_setu_with). apply wp_setu_with. eapply sig_ok_with; [exact Hx| |].
  - fields. by rewrite (wr_user _ _ _ _ HR).
  - by apply (disp_same v' x').
Qed.

(** ** The process that starts everything *)
Fixpoint ignored_from (n : nat) (i : Z) (g : Z) : Z :=
  match n with
  | O => g
  | S n => ignored_from n (i + 1) (if has (prop_of i) SA_IGNORE && negb (i =? SIGCONT) then Z.lor g (sigmask i) else g)
  end.
Lemma wp_siginit_loop s0 x0 v n : ∀ i x (Q : unit → kern → Prop),
  cur s0 x0 → 0 ≤ i → i + Z.of_nat n ≤ NSIG →
  Q tt (with_cur s0 (x<|p_sigignore := ignored_from n i (p_sigignore x)|>) v) →
  wp (siginit_loop n i (u_procp (u s0))) Q (with_cur s0 x v).
Proof.
  induction n as [|n IH]; intros i x Q Hx Hi Hn HQ; cbn [siginit_loop ignored_from] in *.
  { apply wp_ret. by destruct x. }
  apply wp_bind. eapply wp_lift; [apply rdz_sigprop; lia|]. apply wp_bind.
  destruct (has (prop_of i) SA_IGNORE && negb (i =? SIGCONT)).
  - eapply wp_setp_with; [done|]. apply IH; [done|lia|lia|]. exact HQ.
  - apply wp_ret. by apply IH; [done|lia|lia|].
Qed.
(** Process 0 before [siginit]: all zero. *)
Definition boot_signals s : Prop := ∃ x, cur s x ∧
  u_signal (u s) = replicate 32 SIG_DFL ∧ u_sigmask (u s) = replicate 32 0 ∧ u_oldmask (u s) = 0 ∧
  p_sigcatch x = 0 ∧ p_sigmask x = 0 ∧ p_sigignore x = 0.

Lemma wp_siginit s : boot_signals s → wp (siginit (u_procp (u s))) (λ _ s', sig_ok s') s.
Proof.
  intros (x & Hx & E1 & E2 & E3 & E4 & E5 & E6). set (c := u_procp (u s)). rewrite <- (with_cur_id s x Hx). subst c.
  unfold siginit. eapply wp_siginit_loop; [exact Hx|done|done|]. eapply sig_ok_with; [exact Hx|done|].
  rewrite E6. split; fields; rewrite ?E1, ?E2, ?E3, ?E4, ?E5; try done.
  - intros sig h Hr [-> _]%lookup_replicate. reflexivity.
  - intros sig h Hr [-> _]%lookup_replicate. assert (Hr' : 0 ≤ sig < NSIG) by lia. revert sig Hr' Hr.
    refine (sig_cases _ _). intros n Hn _. do 32 (destruct n as [|n]; [by vm_compute|]). lia.
  - by apply Forall_replicate.
Qed.

(** ** Code that sleeps

    [safe m]: if [m] returns, the dispositions are still consistent.  For code
    that sleeps, or that follows the queues of the scheduler, this is said
    without asking whether it returns. *)
Definition yields {A} (m : M A) (Q : A → kern → Prop) s : Prop := ∀ a s', m s = Done (a, s') → Q a s'.
Definition safe {A} (m : M A) : Prop := ∀ s, sig_ok s → yields m (λ _ s', sig_ok s') s.

Lemma yields_wp {A} (m : M A) (Q : A → kern → Prop) s : wp m Q s → yields m Q s.
Proof. unfold wp, yields. intros Hm a s' E. by rewrite E in Hm. Qed.
Lemma yields_bind {A B} (m : M A) (k : A → M B) (Q : B → kern → Prop) s : yields m (λ a, yields (k a) Q) s → yields (m ≫= k) Q s.
Proof. unfold yields, mbind, K_bind. intros Hm y s'. destruct (m s) as [[x s1]| | |]; try done. by apply Hm. Qed.
Lemma yields_mono {A} (m : M A) (Q Q' : A → kern → Prop) s : yields m Q s → (∀ a s', Q a s' → Q' a s') → yields m Q' s.
Proof. unfold yields. eauto. Qed.
Lemma safe_keeps {A} (m : M A) : keeps m → safe m.
Proof. intros Hm s Hs. by apply yields_wp, Hm. Qed.
Lemma safe_ret {A} (a : A) : safe (mret a).
Proof. by intros s Hs x s' [= _ <-]. Qed.
Lemma safe_gets {A} (f : kern → A) : safe (gets f).
Proof. by intros s Hs x s' [= _ <-]. Qed.
Lemma safe_lift {A} (o : outcome A) : safe (lift o).
Proof. intros s Hs x s'. unfold lift. by destruct o; intros [= _ <-]. Qed.
Lemma safe_panic {A} msg : safe (A := A) (panic msg).
Proof. by intros s Hs. Qed.
Lemma safe_bind {A B} (m : M A) (k : A → M B) : safe m → (∀ a, safe (k a)) → safe (m ≫= k).
Proof. intros Hm Hk s Hs. apply yields_bind. eapply yields_mono; [by apply Hm|]. intros a s' Hs'. by apply Hk. Qed.
Lemma safe_modify f : (∀ s, procs (f s) = procs s) → (∀ s, u (f s) = u s) → safe (modify f).
Proof. intros E1 E2 s (x & Hx & Hd) [] s' [= <-]. exists x. unfold cur. by rewrite E1, E2. Qed.
Lemma safe_at i : safe (at_ i).
Proof. unfold at_. apply safe_bind; [apply safe_gets|]. intros l. apply safe_lift. Qed.
Lemma safe_setu f :
  (∀ v, u_procp (f v) = u_procp v) → (∀ v, u_signal (f v) = u_signal v) → (∀ v, u_sigmask (f v) = u_sigmask v) →
  (∀ v, u_oldmask (f v) = u_oldmask v) → safe (setu f).
Proof. intros E1 E2 E3 E4 s Hs. apply yields_wp, wp_setu. by apply sig_ok_setu. Qed.
(** A change of some process. *)
Lemma safe_setp i f :
  (∀ x, p_sigcatch (f x) = p_sigcatch x) → (∀ x, p_sigignore (f x) = p_sigignore x) →
  (∀ x, has (p_sigmask x) sigcantmask = false → has (p_sigmask (f x)) sigcantmask = false) → safe (setp i f).
Proof.
  intros E1 E2 E3 s (x & Hx & Hd). destruct (procs s !! i) as [y|] eqn:Hy.
  - apply yields_wp. eapply wp_setp; [exact Hy|]. destruct (decide (i = u_procp (u s))) as [->|Hne].
    + exists (f y). assert (y = x) as -> by (unfold cur in Hx; congruence). split.
      * unfold cur. fields. apply list_lookup_insert_eq. by eapply lookup_lt_Some.
      * destruct Hd as [D1 D2 D3 D4 D5 D6 D7 D8 D9 D10]. split; try done; rewrite ?E1, ?E2; auto.
    + exists x. split; [|done]. unfold cur. fields. by rewrite list_lookup_insert_ne.
  - unfold setp, at_. unfold yields, mbind, K_bind, gets, lift, rd. by rewrite Hy.
Qed.

Ltac safe_step :=
  lazymatch goal with
  | |- safe (_ ≫= _) => apply safe_bind; [|intros ?]
  | |- safe (mret _) => apply safe_ret
  | |- safe (gets _) => apply safe_gets
  | |- safe (lift _) => apply safe_lift
  | |- safe (panic _) => apply safe_panic
  | |- safe (at_ _) => apply safe_at
  | |- safe (modify _) => apply safe_modify; intros ?; reflexivity
  | |- safe curproc => apply safe_gets
  | |- safe (set_error _) => apply safe_keeps, keeps_error
  | |- safe (copyout _ _) => apply safe_keeps, keeps_copyout
  | |- safe (setp _ _) => apply safe_setp; intros ?; [reflexivity|reflexivity|tauto]
  | |- safe (setu _) => apply safe_setu; intros ?; reflexivity
  | |- safe (match ?x with _ => _ end) => destruct x
  end.
Ltac safe_go := repeat (first [safe_step | progress eauto 2 with safe]).

Create HintDb safe discriminated.
#[local] Hint Constants Opaque : safe.

Lemma safe_setpri p : safe (setpri p).
Proof. unfold setpri, incr_runrun. safe_go. Qed.
Lemma safe_updatepri_loop p n : ∀ b, safe (updatepri_loop n p b).
Proof. induction n as [|n IH]; intros b; cbn [updatepri_loop]; safe_go. Qed.
Lemma safe_updatepri p : safe (updatepri p).
Proof. unfold updatepri. safe_go; [apply safe_updatepri_loop|apply safe_setpri]. Qed.
Lemma safe_load q : safe (load_ref q).
Proof. unfold load_ref. safe_go. Qed.
Lemma safe_store q r : safe (store_ref q r).
Proof. unfold store_ref. safe_go. Qed.
#[local] Hint Resolve safe_updatepri safe_load safe_store : safe.
Lemma safe_unsleep_loop p n : ∀ hp, safe (unsleep_loop n hp p).
Proof. induction n as [|n IH]; intros hp; cbn [unsleep_loop]; safe_go. Qed.
Lemma safe_unsleep p : safe (unsleep p).
Proof.
  unfold unsleep. safe_go. apply safe_unsleep_loop.
Qed.
Lemma safe_setrq p : safe (setrq p).
Proof. unfold setrq. safe_go. Qed.
#[local] Hint Resolve safe_unsleep safe_setrq : safe.
Lemma safe_wakeup_run nested p : safe nested → safe (wakeup_run nested p).
Proof. intros Hn. unfold wakeup_run, wake_swapper, incr_runrun. safe_go. Qed.
Lemma safe_wakeup_loop nested chan h n : safe nested → ∀ q, safe (wakeup_loop n nested chan h q).
Proof. intros Hn. induction n as [|n IH]; intros q; cbn [wakeup_loop]; safe_go; first [by apply safe_wakeup_run|apply IH]. Qed.
Lemma safe_wakeup chan : safe (wakeup chan).
Proof.
  unfold wakeup. generalize 2%nat as d. intros d. revert chan. induction d as [|d IH]; intros chan; cbn [wakeup_rec]; safe_go.
  apply safe_wakeup_loop, IH.
Qed.
#[local] Hint Resolve safe_wakeup : safe.
Lemma safe_setrun p : safe (setrun p).
Proof. unfold setrun, setrun_tail, wake_swapper, incr_runrun. safe_go. Qed.
#[local] Hint Resolve safe_setrun : safe.
Lemma safe_stop p : safe (stop p).
Proof. unfold stop. safe_go. Qed.
#[local] Hint Resolve safe_stop : safe.
Lemma safe_psignal_rec d : ∀ p sig, safe (psignal_rec d p sig).
Proof.
  induction d as [|d IH]; intros p sig; cbn [psignal_rec]; unfold psignal_asleep, psignal_stopped, psignal_run, tell_parent; safe_go.
Qed.
Lemma safe_psignal p sig : safe (psignal p sig).
Proof. apply safe_psignal_rec. Qed.
#[local] Hint Resolve safe_psignal : safe.

(** What the rest of the kernel does keeps the dispositions: other processes,
    the parent that traces, the clock, the writing of a core file. *)
Record machine_safe : Prop := MachineSafe {
  ms_swtch : safe swtch;
  ms_procxmt : safe procxmt;
  ms_timeout p n : safe (timeout p n);
  ms_untimeout p : safe (untimeout p);
  ms_panicstr : safe panicstr;
  ms_core : safe core;
  ms_exit rv : safe (exit rv) }.

Section Sleeping.
Context (Hms : machine_safe).

Lemma safe_swtch : safe swtch.
Proof. apply Hms. Qed.
Lemma safe_procxmt : safe procxmt.
Proof. apply Hms. Qed.
Lemma safe_timeout p n : safe (timeout p n).
Proof. apply Hms. Qed.
Lemma safe_untimeout p : safe (untimeout p).
Proof. apply Hms. Qed.
Lemma safe_panicstr : safe panicstr.
Proof. apply Hms. Qed.
#[local] Hint Resolve safe_swtch safe_procxmt safe_timeout safe_untimeout safe_panicstr : safe.

Lemma safe_trace_wait n p : safe (trace_wait n p).
Proof. induction n as [|n IH]; cbn [trace_wait]; safe_go. Qed.
Lemma safe_switch p sig mask prop : safe (issignal_switch p sig mask prop).
Proof. unfold issignal_switch, issignal_default, tell_parent, u_signal_at. safe_go. Qed.
#[local] Hint Resolve safe_trace_wait safe_switch : safe.
Lemma safe_turn n p : safe (issignal_turn n p).
Proof. unfold issignal_turn. safe_go. Qed.
#[local] Hint Resolve safe_turn : safe.
Lemma safe_issignal n p : safe (issignal n p).
Proof. induction n as [|n IH]; cbn [issignal]; safe_go. Qed.
#[local] Hint Resolve safe_issignal : safe.
Lemma safe_CURSIG n p : safe (CURSIG n p).
Proof. unfold CURSIG. safe_go. Qed.
#[local] Hint Resolve safe_CURSIG : safe.
Lemma safe_tsleep n ident priority timo : safe (tsleep n ident priority timo).
Proof. unfold tsleep, tsleep_catch. safe_go. Qed.
#[local] Hint Resolve safe_tsleep : safe.
Lemma safe_pause n : safe (pause n).
Proof. induction n as [|n IH]; cbn [pause]; safe_go. Qed.
Lemma safe_sigsuspend n set : safe (sigsuspend n set).
Proof. unfold sigsuspend. safe_go; [apply safe_keeps, keeps_suspend|apply safe_pause]. Qed.
Lemma safe_await n p wanted : safe (await n p wanted).
Proof. induction n as [|n IH]; cbn [await]; safe_go. Qed.
#[local] Hint Resolve safe_await : safe.
Lemma safe_fetch a n k : (∀ ws, safe (k ws)) → safe (fetch a n k).
Proof. intros Hk. unfold fetch, copyin. safe_go. Qed.
Lemma safe_sigwait n set sig : safe (sigwait n set sig).
Proof. unfold sigwait. safe_go. apply safe_fetch. intros ws. safe_go. Qed.

(** A signal that is to kill goes back to its default. *)
Lemma disp_fatal sig v x : 0 < sig < NSIG → has (prop_of sig) SA_IGNORE = false → disp_ok v x →
  disp_ok (v<|u_signal ::= <[Z.to_nat sig := SIG_DFL]>|>)
    (x<|p_sigignore ::= λ g, bic g (sigmask sig)|><|p_sigcatch ::= λ g, bic g (sigmask sig)|><|p_sigmask ::= λ g, bic g (sigmask sig)|>).
Proof.
  intros Hs Hp [D1 D2 D3 D4 D5 D6 D7 D8 D9 D10]. split; fields; try done.
  - by rewrite length_insert.
  - intros s' h Hr Hl. apply lookup_signal in Hl; [|done..]. rewrite has_sig_bic by lia.
    destruct (Z.eqb_spec sig s') as [->|]; [subst; by rewrite andb_false_r|]. rewrite andb_true_r. by apply D3.
  - intros s' h Hr Hl. apply lookup_signal in Hl; [|done..]. rewrite has_sig_bic by lia.
    destruct (Z.eqb_spec sig s') as [->|]; [subst|rewrite andb_true_r; by apply D4]. unfold ignored_by. by rewrite andb_false_r, Hp.
  - destruct (decide (sig = SIGKILL)) as [->|]; [apply list_lookup_insert_eq; rewrite D1; unfold SIGKILL; lia|].
    rewrite list_lookup_insert_ne; [done|]. unfold SIGKILL in *. lia.
  - destruct (decide (sig = SIGSTOP)) as [->|]; [apply list_lookup_insert_eq; rewrite D1; unfold SIGSTOP; lia|].
    rewrite list_lookup_insert_ne; [done|]. unfold SIGSTOP in *. lia.
  - by apply has_bic_false.
  - by apply word_bic.
Qed.
Lemma safe_fatalsig sig : 0 < sig < NSIG → has (prop_of sig) SA_IGNORE = false → safe (fatalsig sig).
Proof.
  intros Hs Hp s (x & Hx & Hd). unfold fatalsig, curproc. apply yields_bind, yields_wp, wp_gets.
  set (c := u_procp (u s)). rewrite <- (with_cur_id s x Hx). subst c.
  apply yields_bind, yields_wp. apply wp_set_u_signal; [lia|rewrite (d_signal _ _ Hd); unfold NSIG in *; lia|].
  do 3 (apply yields_bind, yields_wp; eapply wp_setp_with; [exact Hx|]).
  apply safe_psignal. eapply sig_ok_with; [exact Hx|done|]. by apply disp_fatal.
Qed.

Lemma safe_set_reg i w : safe (set_reg i w).
Proof. unfold set_reg. safe_go. Qed.
#[local] Hint Resolve safe_set_reg : safe.
Lemma safe_sendsig handler sig mask : safe (sendsig handler sig mask).
Proof. unfold sendsig, sendsig_frame, reg. safe_go. by apply safe_fatalsig. Qed.
Lemma safe_setblock i m : has m sigcantmask = false → safe (setp i (λ x, x<|p_sigmask := m|>)).
Proof. intros Hm. by apply safe_setp. Qed.
(** The mask a handler returns with comes from the program's memory. *)
Lemma safe_sigreturn : safe sigreturn.
Proof. unfold sigreturn, reg. safe_go; apply safe_setblock, has_bic_cant. Qed.

Lemma safe_postsig sig : 0 < sig < NSIG → safe (postsig sig).
Proof.
  intros Hr s Hs. unfold postsig. apply yields_bind, yields_wp, wp_gets. apply yields_bind.
  eapply yields_mono; [eapply (safe_setp _ (λ x, x<|p_sig ::= λ g, bic g (sigmask sig)|>)); [done|done|tauto|exact Hs]|]. intros [] s1 Hs1.
  destruct Hs1 as (x & Hx & Hd). assert (Hs1 : sig_ok s1) by (by exists x). unfold u_signal_at. apply yields_bind, yields_wp. wp_go.
  destruct (lookup_lt_is_Some_2 (u_signal (u s1)) (Z.to_nat sig)) as [h Hh]; [rewrite (d_signal _ _ Hd); unfold NSIG in *; lia|].
  eapply wp_lift; [by apply rdz_Done; [lia|]|]. destruct (Z.eqb_spec h SIG_DFL) as [E|E]; simpl.
  - revert s1 x Hx Hd Hs1 Hh. intros s1 _ _ _ Hs1 _. revert s1 Hs1. change (safe (prop ← lift (rdz sigprop sig);
      dumped ← (if has prop SA_CORE then core else mret false); exit (if dumped : bool then Z.lor sig 128 else sig))).
    safe_go; apply Hms.
  - apply yields_bind, yields_wp. apply wp_setu. apply yields_bind, yields_wp.
    eapply wp_mono; [apply keeps_post; [by apply sig_ok_error|done| |]|].
    + intros ->. rewrite (d_kill _ _ Hd) in Hh. congruence.
    + intros ->. rewrite (d_stop _ _ Hd) in Hh. congruence.
    + intros m s2 [Hs2 _]. revert s2 Hs2. change (safe (setu (λ v, v<|u_ru ::= λ r, r<|ru_nsignals ::= λ n, s32 (n + 1)|>|>);; sendsig h sig m)).
      safe_go. apply safe_sendsig.
Qed.
End Sleeping.

(** ** Any history *)
Inductive sigcall :=
| Sigaction (signum nsa osa sigtramp : Z) | Sigprocmask (how set oset : Z) | Sigpending (set : Z)
| Sigaltstack (nss oss : Z) | Sigstack (nss oss : Z) | Exec
| Sigsuspend (fuel : nat) (set : Z) | Sigwait (fuel : nat) (set sig : Z) | Sigreturn
| Tsleep (fuel : nat) (ident priority timo : Z) | Issignal (fuel p : nat) | Postsig (sig : Z) | Fatalsig (sig : Z) | Psignal (p : nat) (sig : Z).

(** What can happen to the signals of the running process: the calls, the
    resets by exec, signals sent to any process, sleeps, and the delivery of a
    signal. *)
Definition dosig (c : sigcall) : M unit :=
  match c with
  | Sigaction signum nsa osa tramp => sigaction signum nsa osa tramp
  | Sigprocmask how set oset => sigprocmask how set oset
  | Sigpending set => sigpending set
  | Sigaltstack nss oss => sigaltstack_call nss oss
  | Sigstack nss oss => sigstack nss oss
  | Exec => p ← curproc; execsigs p
  | Sigsuspend fuel set => sigsuspend fuel set
  | Sigwait fuel set sig => sigwait fuel set sig
  | Sigreturn => sigreturn
  | Tsleep fuel ident priority timo => _ ← tsleep fuel ident priority timo; mret tt
  | Issignal fuel p => _ ← issignal fuel p; mret tt
  | Postsig sig => postsig sig
  | Fatalsig sig => fatalsig sig
  | Psignal p sig => psignal p sig
  end.
(** [postsig] is called for a signal, [fatalsig] for one whose default is not
    to be ignored. *)
Definition possible (c : sigcall) : Prop :=
  match c with
  | Postsig sig => 0 < sig < NSIG
  | Fatalsig sig => 0 < sig < NSIG ∧ has (prop_of sig) SA_IGNORE = false
  | _ => True
  end.
(** The calls that do not sleep and do not follow queues. *)
Definition prompt (c : sigcall) : Prop :=
  match c with
  | Sigaction _ _ _ _ | Sigprocmask _ _ _ | Sigpending _ | Sigaltstack _ _ | Sigstack _ _ | Exec => True
  | _ => False
  end.

Inductive history : kern → Prop :=
  | hist_boot s s' : boot_signals s → siginit (u_procp (u s)) s = Done (tt, s') → history s'
  | hist_call s c s' : history s → possible c → dosig c s = Done (tt, s') → history s'.

Lemma keeps_prompt c : prompt c → keeps (dosig c).
Proof.
  destruct c; intros Hp s Hs; try done; cbn [dosig].
  - by apply sig_ok_sigaction.
  - by apply sig_ok_sigprocmask.
  - by apply sig_ok_sigpending.
  - by apply keeps_sigaltstack.
  - by apply keeps_sigstack.
  - by apply keeps_exec.
Qed.
Lemma safe_dosig c : machine_safe → possible c → safe (dosig c).
Proof.
  intros Hms Hp. destruct c; try (apply safe_keeps, keeps_prompt; exact I); cbn [dosig].
  - by apply safe_sigsuspend.
  - by apply safe_sigwait.
  - apply safe_sigreturn.
  - apply safe_bind; [by apply safe_tsleep|intros ?; apply safe_ret].
  - apply safe_bind; [by apply safe_issignal|intros ?; apply safe_ret].
  - by apply safe_postsig.
  - by apply safe_fatalsig; destruct Hp.
  - apply safe_psignal.
Qed.
Lemma history_ok s : machine_safe → history s → sig_ok s.
Proof.
  intros Hms. induction 1 as [s s' Hb Hs|s c s' _ IH Hp Hs].
  - eapply (yields_wp _ (λ _ s', sig_ok s')); [by apply wp_siginit|exact Hs].
  - by eapply (safe_dosig c Hms Hp).
Qed.


(** exec resets signals: the loop over the caught signals ends, after it
    no signal is caught, exactly the handlers are back to default, ignored
    signals stay ignored, the mask stays, and pending signals stay but for
    those that went from caught to ignored by default; the alternate stack
    is gone. *)
Theorem execsigs_correct (s : kern) (x : proc) :
  cur s x → disp_ok (u s) x →
  wp (execsigs (u_procp (u s))) (λ _ s', ∃ x', cur s' x' ∧ disp_ok (u s') x' ∧ p_sigcatch x' = 0 ∧
    p_sigmask x' = p_sigmask x ∧ u_sigstk (u s') = SigStk 0 0 SA_DISABLE ∧
    ∀ sig h, 0 < sig < NSIG → u_signal (u s) !! Z.to_nat sig = Some h →
      u_signal (u s') !! Z.to_nat sig = Some (if caught_by h then SIG_DFL else h) ∧
      has (p_sig x') (sigmask sig) = has (p_sig x) (sigmask sig) && negb (caught_by h && has (prop_of sig) SA_IGNORE)) s.
Proof.
  intros Hx Hd. unfold execsigs. apply wp_bind.
  match goal with |- wp _ ?K _ => assert (HK : wp (execsigs_loop 32 (u_procp (u s))) K (with_cur s x (u s))) end.
  2:{ by rewrite (with_cur_id s x Hx) in HK. }
  eapply (wp_execsigs_loop s x _ Hx _ 0); [done|lia|lia|lia|]. intros x' v' Hd' Hc HR.
  do 3 (apply wp_bind, wp_setu_with). apply wp_setu_with. exists x'.
  assert (Hu : u_procp v' = u_procp (u s)) by (by rewrite (wr_user _ _ _ _ HR)).
  split_and!; [| |done| |done|].
  - unfold cur, with_cur. fields. rewrite Hu. apply list_lookup_insert_eq. by eapply cur_lt.
  - by apply (disp_same v' x').
  - by rewrite (wr_proc _ _ _ _ HR).
  - intros sig h Hr Hl. split; [by apply HR|by apply HR].
Qed.
End Current.

(** ** Example: a process that catches SIGTERM *)
#[global] Instance ex_machine : Machine := {|
  swtch := mret tt; procxmt := mret true; timeout := λ _ _, mret tt; untimeout := λ _, mret tt;
  panicstr := mret false; core := mret false; exit := λ _, mret tt |}.

Definition SIGTERM : Z := 15.
Definition ex_handler : Z := 0x9d030000.
Definition ex_catcher : proc :=
  (slot (Some 1%nat) (Some AllProc) (Some 1%nat) SLOAD 100 2 1 SRUN)
    <|p_sigcatch := sigmask SIGTERM|><|p_sigignore := ignored_from 32 0 0|>.
Definition ex_catching : kern :=
  with_cur (ex_kern 100) ex_catcher ((ex_user 100)<|u_signal ::= <[15%nat := ex_handler]>|>).

Lemma ex_disp : disp_ok (u ex_catching) ex_catcher.
Proof.
  split; try reflexivity.
  - intros sig h Hr. assert (Hr' : 0 ≤ sig < NSIG) by lia. revert sig Hr' Hr. refine (sig_cases _ _). intros n Hn _.
    do 32 (destruct n as [|n]; [by intros [= <-]|]). lia.
  - intros sig h Hr. assert (Hr' : 0 ≤ sig < NSIG) by lia. revert sig Hr' Hr. refine (sig_cases _ _). intros n Hn Hr.
    do 32 (destruct n as [|n]; [first [lia|by intros [= <-]]|]). lia.
  - by apply Forall_replicate.
  - by vm_compute.
Qed.

Lemma ex_machine_safe : machine_safe.
Proof. split; intros; apply safe_ret. Qed.
Lemma execsigs_correct_witness :
  wp (execsigs 2) (λ _ s', u_signal (u s') !! 15%nat = Some SIG_DFL) ex_catching.
Proof.
  eapply wp_mono; [refine (execsigs_correct ex_catching ex_catcher _ ex_disp); reflexivity|].
  intros [] s' (x & _ & _ & _ & _ & _ & HR). refine (proj1 (HR 15 ex_handler _ _)); [unfold NSIG; lia|reflexivity].
Defined.
