(* ===== verification/Deliver.v ===== *)
(** * Delivery of signals

    Which pending signal [issignal] delivers (kernel/kern_sig.c), and that a
    handler returns to where it interrupted the program ([sendsig],
    [sigreturn] of pic32/signal.c). *)
From stdpp Require Import base tactics list option strings numbers gmap.
From S2P Require Import Prelude Proc Prot Synch Signal Sigcalls Disp.
Open Scope Z_scope.

Section Issignal.
Context `{Layout} `{Machine}.
Implicit Types (s : kern) (x : proc) (v : user).

(** ** What becomes of a deliverable signal *)
Definition handler_of v (sig : Z) : Z := default 0 (u_signal v !! Z.to_nat sig).

(** It stops the process. *)
Definition stops_now v x (sig : Z) : bool :=
  negb (has (p_sigignore x) (sigmask sig)) && (handler_of v sig =? SIG_DFL) && negb (p_pid x <=? 1) &&
  has (prop_of sig) SA_STOP && negb (bool_decide (p_pptr x = Some 1%nat) && has (prop_of sig) SA_TTYSTOP).
(** It is to be taken: by a handler, or by ending the process. *)
Definition taken v x (sig : Z) : bool :=
  negb (has (p_sigignore x) (sigmask sig)) &&
  (caught_by (handler_of v sig) ||
   (handler_of v sig =? SIG_DFL) && negb (p_pid x <=? 1) && negb (has (prop_of sig) SA_STOP) &&
   negb (has (prop_of sig) SA_IGNORE)).

(** The signal [sig] is pending and not blocked. *)
Definition ready x (sig : Z) : bool := has (deliverable x) (sigmask sig).

Definition dropped (x : proc) (nc : Z) : proc := x<|p_sig ::= λ g, bic g (sigmask nc)|>.

Lemma bic_bic a b c : bic (bic a b) c = bic (bic a c) b.
Proof. unfold bic. by rewrite <- !Z.land_assoc, (Z.land_comm (Z.lnot b)). Qed.
Lemma deliverable_dropped x nc : deliverable (dropped x nc) = bic (deliverable x) (sigmask nc).
Proof.
  unfold deliverable, dropped. fields. destruct (has (p_flag x) SVFORK).
  - by rewrite (bic_bic (p_sig x)), (bic_bic (bic (p_sig x) _)).
  - apply bic_bic.
Qed.
Lemma deliverable_word x k : 0 ≤ k → 0 ≤ p_sig x < 2^k → 0 ≤ deliverable x < 2^k.
Proof. intros Hk Hx. unfold deliverable. destruct (has _ SVFORK); repeat apply word_bic; done. Qed.
Lemma ready_pending x sig : 0 < sig → ready x sig = true → has (p_sig x) (sigmask sig) = true.
Proof.
  intros Hs. unfold ready, deliverable, bic. rewrite !has_sig by done.
  destruct (has _ SVFORK); rewrite !Z.land_spec; destruct (Z.testbit (p_sig x) (sig - 1)); done.
Qed.

(** The outcome of the search: signals below the one returned are gone. *)
Record chosen_signal v x (r : Z) x' : Prop := ChosenSignal {
  cs_range : 0 ≤ r < NSIG;
  cs_taken : r ≠ 0 → ready x r = true ∧ taken v x r = true;
  cs_first : ∀ sig, 0 < sig < NSIG → (r = 0 ∨ sig < r) → ready x sig = true → taken v x sig = false;
  cs_proc : x' = x<|p_sig := p_sig x'|>;
  cs_pending : ∀ sig, 0 < sig < NSIG →
    has (p_sig x') (sigmask sig) = has (p_sig x) (sigmask sig) && negb (ready x sig && ((r =? 0) || (sig <? r))) }.

Lemma ready_dropped x nc sig : 0 < nc → 0 < sig → ready (dropped x nc) sig = ready x sig && negb (nc =? sig).
Proof. intros. unfold ready. by rewrite deliverable_dropped, has_sig_bic. Qed.

Lemma chosen_step v x nc r x' :
  0 < nc < NSIG → ready x nc = true → taken v x nc = false → (∀ sig, 0 < sig < nc → ready x sig = false) →
  chosen_signal v (dropped x nc) r x' → chosen_signal v x r x'.
Proof.
  intros Hn Hr Ht Hlow [C1 C2 C3 C4 C5].
  assert (Hgt : r ≠ 0 → nc < r).
  { intros Hr0. destruct (C2 Hr0) as [C6 _]. rewrite ready_dropped in C6 by lia. apply andb_true_iff in C6 as [C6 C7].
    destruct (decide (r < nc)); [by rewrite Hlow in C6 by lia|]. apply negb_true_iff, Z.eqb_neq in C7. lia. }
  split; [done| | | |].
  - intros Hr0. destruct (C2 Hr0) as [C6 C7]. split; [|exact C7]. rewrite ready_dropped in C6 by lia.
    by apply andb_true_iff in C6 as [? _].
  - intros sig Hs Hlt Hrs. destruct (Z.eqb_spec nc sig) as [->|Hne]; [done|].
    apply (C3 sig Hs Hlt). rewrite ready_dropped by lia. rewrite Hrs. by rewrite (proj2 (Z.eqb_neq nc sig)).
  - rewrite C4 at 1. reflexivity.
  - intros sig Hs. rewrite C5 by done. rewrite ready_dropped by lia. unfold dropped. fields. rewrite has_sig_bic by lia.
    destruct (Z.eqb_spec nc sig) as [->|Hne].
    + rewrite Hr, !andb_false_r. simpl. destruct (Z.eqb_spec r 0) as [->|Hr0]; [by rewrite andb_false_r|].
      rewrite (proj2 (Z.ltb_lt sig r)) by auto. by rewrite andb_false_r.
    + by rewrite !andb_true_r.
Qed.

(** One turn that stops nobody. *)
Lemma wp_issignal_turn s x fuel :
  cur s x → disp_ok (u s) x → has (p_flag x) P_TRACED = false → 0 ≤ p_sig x < 2^31 →
  (∀ sig, 0 < sig < NSIG → ready x sig = true → stops_now (u s) x sig = false) →
  wp (issignal_turn fuel (u_procp (u s))) (λ r s',
    if deliverable x =? 0 then r = Some 0 ∧ s' = s
    else let nc := ffs (deliverable x) in
      if taken (u s) x nc then r = Some nc ∧ s' = s else r = None ∧ s' = with_cur s (dropped x nc) (u s)) s.
Proof.
  intros Hx Hd Ht Hp Hst. pose proof (deliverable_word x 31 ltac:(lia) Hp) as Hw.
  unfold issignal_turn. apply wp_bind. eapply wp_at; [exact Hx|]. destruct (Z.eqb_spec (deliverable x) 0) as [E|E].
  { by apply wp_ret. }
  destruct (ffs_lowest (deliverable x)) as (Hn & H1 & H2); [lia|]. set (nc := ffs (deliverable x)) in *. cbv zeta.
  assert (Hn31 : 0 < nc < NSIG).
  { unfold NSIG. destruct (decide (nc < 32)); [lia|]. assert (nc - 1 = 31) as E1 by lia. rewrite E1 in H1.
    rewrite (proj1 (Z.bounded_iff_bits_nonneg 31 (deliverable x) ltac:(lia) ltac:(lia)) ltac:(lia)) in H1 by lia. done. }
  assert (Hr : ready x nc = true) by (unfold ready; by rewrite has_sig by lia). specialize (Hst nc Hn31 Hr).
  apply wp_bind. eapply wp_lift; [apply rdz_sigprop; lia|].
  assert (HD : ∀ (k : unit → M (option Z)) (Q : option Z → kern → Prop), wp (k tt) Q (with_cur s (dropped x nc) (u s)) →
    wp (setp (u_procp (u s)) (λ x, x<|p_sig ::= λ g, bic g (sigmask nc)|>) ≫= k) Q s).
  { intros k Q HQ. apply wp_bind. eapply wp_setp; [exact Hx|]. unfold with_cur in HQ. by destruct s. }
  rewrite Ht, andb_true_r, has_comm. unfold taken. destruct (has (p_sigignore x) (sigmask nc)) eqn:Ei; simpl.
  { apply HD. by apply wp_ret. }
  unfold issignal_switch, u_signal_at.
  destruct (lookup_lt_is_Some_2 (u_signal (u s)) (Z.to_nat nc)) as [h Hh]; [rewrite (d_signal _ _ Hd); unfold NSIG in *; lia|].
  assert (Eh : handler_of (u s) nc = h) by (unfold handler_of; by rewrite Hh).
  unfold stops_now in Hst. rewrite Ei, Eh in *. apply wp_bind. wp_go. eapply wp_lift; [by apply rdz_Done; [lia|]|].
  unfold caught_by. destruct (h =? SIG_DFL); simpl in *.
  - unfold issignal_default. apply wp_bind. apply wp_bind. eapply wp_at; [exact Hx|].
    destruct (p_pid x <=? 1); simpl in *; [apply wp_ret, HD; by apply wp_ret|].
    destruct (has (prop_of nc) SA_STOP); simpl in *.
    + apply negb_false_iff in Hst. rewrite Hst, orb_true_r. apply wp_ret, HD. by apply wp_ret.
    + destruct (has (prop_of nc) SA_IGNORE); simpl; apply wp_ret; [apply HD|]; by apply wp_ret.
  - destruct (h =? SIG_IGN); simpl; apply wp_bind, wp_ret; [apply HD|]; by apply wp_ret.
Qed.

Lemma wp_issignal s0 x0 fuel : cur s0 x0 → ∀ k x,
  let v := u s0 in
  disp_ok v x → has (p_flag x) P_TRACED = false → 0 ≤ p_sig x < 2^31 → 0 ≤ k ≤ 31 →
  (∀ sig, 0 < sig < NSIG → ready x sig = true → stops_now v x sig = false) →
  (∀ sig, 0 < sig ≤ k → ready x sig = false) → 32 - k ≤ Z.of_nat fuel →
  wp (issignal fuel (u_procp v)) (λ r s', ∃ x', s' = with_cur s0 x' v ∧ chosen_signal v x r x') (with_cur s0 x v).
Proof.
  intros Hx0. induction fuel as [|fuel IH]; intros k x v Hd Ht Hp Hk Hst Hlow Hf; [lia|]. cbn [issignal].
  assert (Hx : cur (with_cur s0 x v) x).
  { unfold cur, with_cur. fields. apply list_lookup_insert_eq. by eapply cur_lt. }
  apply wp_bind. eapply wp_mono; [by apply (wp_issignal_turn (with_cur s0 x v) x fuel)|].
  change (u (with_cur s0 x v)) with v. intros r s'. destruct (Z.eqb_spec (deliverable x) 0) as [E|E].
  { intros [-> ->]. apply wp_ret. exists x. split; [done|].
    assert (HN : ∀ sig, ready x sig = false) by (intros sig; unfold ready; by rewrite E).
    split; [done|done| |by destruct x|]; intros sig Hs; rewrite HN; [done|by rewrite andb_true_r]. }
  pose proof (deliverable_word x 31 ltac:(lia) Hp) as Hw.
  destruct (ffs_lowest (deliverable x)) as (Hn & H1 & H2); [lia|]. cbv zeta. set (nc := ffs (deliverable x)) in *.
  assert (Hr : ready x nc = true) by (unfold ready; by rewrite has_sig by lia).
  assert (Hkn : k < nc). { destruct (decide (k < nc)); [done|]. rewrite Hlow in Hr by lia. done. }
  assert (Hn31 : 0 < nc < NSIG).
  { unfold NSIG. destruct (decide (nc < 32)); [lia|]. assert (nc - 1 = 31) as E1 by lia. rewrite E1 in H1.
    rewrite (proj1 (Z.bounded_iff_bits_nonneg 31 (deliverable x) ltac:(lia) ltac:(lia)) ltac:(lia)) in H1 by lia. done. }
  assert (Hbelow : ∀ sig, 0 < sig < nc → ready x sig = false).
  { intros sig Hs. unfold ready. rewrite has_sig by lia. apply H2. lia. }
  destruct (taken v x nc) eqn:Et; intros [-> ->].
  - apply wp_ret. exists x. split; [done|]. split; [lia|done| |by destruct x|].
    + intros sig Hs [->|Hlt] Hrs; [lia|]. rewrite Hbelow in Hrs by lia. done.
    + intros sig Hs. rewrite (proj2 (Z.eqb_neq nc 0)) by lia. simpl. destruct (Z.ltb_spec sig nc).
      * rewrite Hbelow by lia. simpl. by rewrite andb_true_r.
      * by rewrite andb_false_r, andb_true_r.
  - change (with_cur (with_cur s0 x v) (dropped x nc) v) with
      (s0<|procs := <[u_procp v := dropped x nc]> (<[u_procp v := x]> (procs s0))|><|u := v|>).
    rewrite list_insert_insert_eq. change (s0<|procs := _|><|u := v|>) with (with_cur s0 (dropped x nc) v).
    eapply wp_mono; [apply (IH nc (dropped x nc))|].
    + by apply (disp_same v x).
    + done.
    + unfold dropped. fields. by apply word_bic.
    + unfold NSIG in *. lia.
    + intros sig Hs Hrs. rewrite ready_dropped in Hrs by lia. apply andb_true_iff in Hrs as [Hrs _]. by apply Hst.
    + intros sig Hs. rewrite ready_dropped by lia. destruct (Z.eqb_spec nc sig); [by rewrite andb_false_r|].
      rewrite Hbelow by lia. done.
    + lia.
    + intros r s' (x' & -> & HC). exists x'. split; [done|]. by eapply chosen_step.
Qed.
(** ** Any process

    The same for a process that may be traced or stopped on the way: what
    holds of the process when [issignal] returns.  [acts]: the disposition of
    the signal is a handler, or the default is to end the process. *)
Definition acts v x (sig : Z) : Prop :=
  caught_by (handler_of v sig) = true ∨
  handler_of v sig = SIG_DFL ∧ 1 < p_pid x ∧ has (prop_of sig) SA_STOP = false ∧ has (prop_of sig) SA_IGNORE = false.
(** The lowest signal that can be delivered, or the one the tracer left. *)
Definition due x (sig : Z) : Prop :=
  0 < sig ∧
  ((has (p_flag x) P_TRACED = false ∨ has (p_flag x) SVFORK = true) ∧ sig = ffs (deliverable x) ∧ deliverable x ≠ 0 ∧
     (has (p_flag x) P_TRACED = false → has (p_sigignore x) (sigmask sig) = false)
   ∨ has (p_flag x) P_TRACED = true ∧ sig = p_ptracesig x ∧ has (p_sig x) (sigmask sig) = true ∧ has (p_sigmask x) (sigmask sig) = false).
Definition verdict v x (r : Z) : Prop := if r =? 0 then u32 (deliverable x) = 0 else due x r ∧ acts v x r.

Lemma yields_at i (Q : proc → kern → Prop) s : (∀ x, procs s !! i = Some x → Q x s) → yields (at_ i) Q s.
Proof. intros HQ x s'. unfold at_, mbind, K_bind, gets, lift, rd. destruct (procs s !! i) eqn:E; [|done]. intros [= <- <-]. auto. Qed.
Lemma yields_setp i f (Q : unit → kern → Prop) s :
  (∀ x, procs s !! i = Some x → Q tt (s<|procs := <[i := f x]> (procs s)|>)) → yields (setp i f) Q s.
Proof.
  intros HQ. destruct (procs s !! i) as [x|] eqn:E.
  - apply yields_wp. eapply wp_setp; [exact E|]. auto.
  - intros y s'. unfold setp, at_, mbind, K_bind, gets, lift, rd. by rewrite E.
Qed.
Lemma yields_lift {A} (o : outcome A) (Q : A → kern → Prop) s : (∀ a, o = Done a → Q a s) → yields (lift o) Q s.
Proof. intros HQ a s'. unfold lift. destruct o; intros [= <- <-]. auto. Qed.
Lemma yields_ret {A} (a : A) (Q : A → kern → Prop) s : Q a s → yields (mret a) Q s.
Proof. by intros HQ ? ? [= <- <-]. Qed.
Lemma yields_any {A} (m : M A) (Q : A → kern → Prop) s : (∀ a s', Q a s') → yields m Q s.
Proof. intros HQ a s' _. auto. Qed.
Lemma rdz_prop sig prop : rdz sigprop sig = Done prop → prop = prop_of sig ∧ 0 ≤ sig < 33.
Proof.
  unfold rdz, prop_of. destruct (Z.leb_spec 0 sig); [|done]. unfold rd. destruct (sigprop !! Z.to_nat sig) eqn:E; [|done].
  intros [= <-]. apply lookup_lt_Some in E. change (length sigprop) with 33%nat in E. split; [done|lia].
Qed.

(** [ffs] of a set that is not empty as a word of 32 bits is a signal. *)
Lemma ffs_word d : d ≠ 0 → 0 < ffs d ∨ ffs d = 0 ∧ u32 d = 0.
Proof.
  intros Hd. assert (E : Z.land d (u32 (- d)) = Z.land (u32 d) (u32 (- u32 d))).
  { unfold u32. replace (- (d mod 2^32)) with (0 - d mod 2^32) by lia. rewrite Zminus_mod_idemp_r. replace (0 - d) with (- d) by lia.
    rewrite <- !(Z.land_ones _ 32) by lia. rewrite <- Z.land_assoc. f_equal. rewrite (Z.land_comm (- d)), Z.land_assoc. by rewrite Z.land_diag. }
  assert (0 ≤ u32 d < 2^32) by (apply Z.mod_pos_bound; lia). unfold ffs. rewrite (proj2 (Z.eqb_neq d 0) Hd), E. simpl.
  destruct (Z.eqb_spec (u32 d) 0) as [->|Hw]; [by right|left]. destruct (ffs_lowest (u32 d)) as ((Hn & _) & _); [lia|].
  unfold ffs in Hn. rewrite (proj2 (Z.eqb_neq _ 0) Hw) in Hn. simpl in Hn. lia.
Qed.

(** The switch lets a signal through, with nothing changed, only if it acts. *)
Lemma yields_switch p sig mask prop s : prop = prop_of sig → 0 ≤ sig →
  yields (issignal_switch p sig mask prop) (λ r s', match r with
    | Some r => r = sig ∧ s' = s ∧ ∀ x, procs s !! p = Some x → acts (u s) x sig
    | None => True
    end) s.
Proof.
  intros -> Hs. unfold issignal_switch, u_signal_at. apply yields_bind, yields_bind, yields_wp, wp_gets, yields_lift. intros h Hh.
  assert (Eh : handler_of (u s) sig = h).
  { unfold handler_of, rdz in *. rewrite (proj2 (Z.leb_le 0 sig)) in Hh by done. unfold rd in Hh. destruct (u_signal (u s) !! Z.to_nat sig); [|done].
    by injection Hh. }
  assert (HN : ∀ s1, yields (setp p (λ x, x<|p_sig ::= λ g, bic g mask|>);; mret None) (λ (r : option Z) s', match r with
    | Some r => r = sig ∧ s' = s ∧ ∀ x, procs s !! p = Some x → acts (u s) x sig | None => True end) s1).
  { intros s1. apply yields_bind, yields_setp. intros x _. by apply yields_ret. }
  destruct (Z.eqb_spec h SIG_DFL) as [->|Hd].
  - apply yields_bind. unfold issignal_default. apply yields_bind, yields_at. intros x Hx.
    destruct (Z.leb_spec (p_pid x) 1); [apply yields_ret, HN|]. destruct (has (prop_of sig) SA_STOP) eqn:E1.
    + destruct (_ || _); [apply yields_ret, HN|]. do 4 (apply yields_bind, yields_any; intros _ ?). apply yields_ret, HN.
    + destruct (has (prop_of sig) SA_IGNORE) eqn:E2; [apply yields_ret, HN|]. apply yields_ret, yields_ret. split_and!; [done|done|].
      intros y Hy. assert (y = x) as -> by congruence. right. split_and!; done.
  - apply yields_bind. destruct (Z.eqb_spec h SIG_IGN) as [->|Hi]; [apply yields_ret, HN|]. apply yields_ret, yields_ret. split_and!; [done|done|].
    intros y Hy. left. rewrite Eh. unfold caught_by. by rewrite (proj2 (Z.eqb_neq h SIG_DFL) Hd), (proj2 (Z.eqb_neq h SIG_IGN) Hi).
Qed.

Lemma yields_turn fuel p s :
  yields (issignal_turn fuel p) (λ r s', match r with Some r => ∃ x, procs s' !! p = Some x ∧ verdict (u s') x r | None => True end) s.
Proof.
  set (Q := λ (r : option Z) (s' : kern), match r with Some r => ∃ x, procs s' !! p = Some x ∧ verdict (u s') x r | None => True end).
  assert (HS : ∀ s1 x1 sig prop, procs s1 !! p = Some x1 → rdz sigprop sig = Done prop → due x1 sig →
    yields (issignal_switch p sig (sigmask sig) prop) Q s1).
  { intros s1 x1 sig prop Hx1 [-> Hr]%rdz_prop Hd. eapply yields_mono; [apply yields_switch; [done|lia]|]. intros [r|] s' HR; [|exact I].
    destruct HR as (-> & -> & HA). exists x1. split; [done|]. unfold verdict. rewrite (proj2 (Z.eqb_neq sig 0)) by (destruct Hd; lia). auto. }
  unfold issignal_turn. apply yields_bind, yields_at. intros x Hx. destruct (Z.eqb_spec (deliverable x) 0) as [E|E].
  { apply yields_ret. exists x. split; [done|]. unfold verdict. simpl. by rewrite E. }
  cbv zeta. set (nc := ffs (deliverable x)). apply yields_bind, yields_lift. intros prop Hprop. pose proof (rdz_prop _ _ Hprop) as [_ Hr].
  assert (HN : ∀ (k : unit → M (option Z)) s1, (∀ s2, yields (k tt) Q s2) → ∀ f, yields (setp p f ≫= k) Q s1).
  { intros k s1 Hk f. apply yields_bind, yields_setp. intros; apply Hk. }
  pose proof (ffs_word _ E) as Hnc. fold nc in Hnc.
  destruct (has (sigmask nc) (p_sigignore x) && negb (has (p_flag x) P_TRACED)) eqn:Ei.
  { apply HN. intros s2. by apply yields_ret. }
  destruct (has (p_flag x) P_TRACED && negb (has (p_flag x) SVFORK)) eqn:Et.
  - apply HN. intros s2. apply HN. intros s3. do 2 (apply yields_bind, yields_any; intros ? ?). apply yields_bind, yields_at. intros y Hy.
    destruct (Z.eqb_spec (p_ptracesig y) 0) as [Ez|Ez]; [by apply yields_ret|]. cbv zeta. apply yields_bind, yields_setp. intros y' Hy'.
    assert (y' = y) as -> by congruence. pose proof (lookup_lt_Some _ _ _ Hy) as Hlt. apply yields_bind, yields_at. fields.
    rewrite list_lookup_insert_eq by done. intros z [= <-]. set (sig := p_ptracesig y) in *.
    destruct (has (p_sigmask _) (sigmask sig)) eqn:Em; [by apply yields_ret|]. change (p_flag (y<|p_sig ::= λ g, Z.lor g (sigmask sig)|>)) with (p_flag y).
    destruct (has (p_flag y) P_TRACED) eqn:Eb; [|by apply yields_ret]. cbn [negb]. apply yields_bind, yields_lift. intros prop2 Hp2. pose proof (rdz_prop _ _ Hp2) as [_ Hr2].
    eapply HS; [fields; by apply list_lookup_insert_eq|exact Hp2|]. split; [lia|]. right. split_and!; [done|done| |done].
    fields. rewrite has_lor. rewrite (has_sig (sigmask sig)), testbit_sig, Z.eqb_refl by lia. by rewrite orb_true_r.
  - destruct Hnc as [Hnc|[Hz Hw]].
    2:{ rewrite Hz. eapply yields_mono; [apply yields_switch; [by apply rdz_prop; rewrite <- Hz|done]|]. intros [r|] s' HR; [|exact I].
        destruct HR as (-> & -> & _). by exists x. }
    eapply HS; [exact Hx|exact Hprop|]. split; [done|]. left. split_and!; [|done|done|].
    + destruct (has (p_flag x) P_TRACED), (has (p_flag x) SVFORK); auto; done.
    + intros E1. rewrite E1, andb_true_r, has_comm in Ei. done.
Qed.
Lemma yields_issignal fuel p : ∀ s, yields (issignal fuel p) (λ r s', ∃ x, procs s' !! p = Some x ∧ verdict (u s') x r) s.
Proof.
  induction fuel as [|fuel IH]; intros s; cbn [issignal]; [by intros ? ?|]. apply yields_bind. eapply yields_mono; [apply yields_turn|].
  intros [r|] s' HR; [by apply yields_ret|apply IH].
Qed.
End Issignal.

(** ** The frame of a handler *)
Section Frame.
Context `{Layout} `{Machine}.
Implicit Types (s : kern) (x : proc) (v : user).

(** The frame goes on the alternate stack. *)
Definition uses_alt v (sig : Z) : bool :=
  has (u_psflags v) SAS_ALTSTACK && negb (has (ss_flags (u_sigstk v)) SA_ONSTACK) && has (u_sigonstack v) (sigmask sig).
(** Where the stack of the handler begins. *)
Definition frame_top v (sig sp : Z) : Z :=
  if uses_alt v sig then u32 (ss_base (u_sigstk v) + ss_size (u_sigstk v)) else sp.

(** The registers a handler starts with. *)
Definition handler_regs v (handler sig sfp : Z) : list Z :=
  <[FRAME_PC := handler]> (<[FRAME_SP := sfp]> (<[FRAME_RA := u_sigtramp v]> (<[FRAME_R6 := sfp + 16]>
    (<[FRAME_R5 := u_code v]> (<[FRAME_R4 := sig]> (u_frame v)))))).

(** A state with other memory and registers of the program. *)
Definition with_frame s (m : gmap Z Z) (r : list Z) : kern := s<|umem := m|><|u := (u s)<|u_frame := r|>|>.

Lemma wp_set_reg i y (Q : unit → kern → Prop) s m r :
  (i < length r)%nat → Q tt (with_frame s m (<[i := y]> r)) → wp (set_reg i y) Q (with_frame s m r).
Proof. intros Hi HQ. unfold set_reg. wp_go. eapply wp_lift; [by apply wr_Done|]. by apply wp_setu. Qed.
Lemma with_frame_id s : with_frame s (umem s) (u_frame (u s)) = s.
Proof. unfold with_frame. destruct s as [?????????????? w ???]. by destruct w. Qed.

(** A context with its mask, its registers and whether the alternate stack was
    in use is at [sc]. *)
Definition context_at (m : gmap Z Z) (sc on mask : Z) (regs : list Z) : Prop :=
  load_words m sc 2 = [on; mask] ∧ load_words m (sc + 16) 32 = saved_regs regs.

Lemma wp_sendsig_frame handler sig mask on sfp s :
  length (u_frame (u s)) = 33%nat → in_user (sfp + 16) SIGCONTEXT = true →
  wp (sendsig_frame handler sig mask on sfp) (λ _ s', ∃ m,
    s' = with_frame s m (handler_regs (u s) handler sig sfp) ∧ context_at m (sfp + 16) on mask (u_frame (u s))) s.
Proof.
  intros Hl Hin. unfold sendsig_frame. rewrite Hin. apply wp_bind, wp_ret. apply wp_bind, wp_gets.
  set (regs := u_frame (u s)) in *. set (m1 := store_words (umem s) (sfp + 16) [on; mask]).
  set (m2 := store_words m1 (sfp + 16 + 16) (saved_regs regs)).
  assert (HC : context_at m2 (sfp + 16) on mask regs).
  { split.
    - rewrite !load_words_S. f_equal; [|f_equal].
      + unfold m2, m1. rewrite store_words_below by lia. simpl. rewrite lookup_insert_ne by lia. by rewrite lookup_insert_eq.
      + unfold m2, m1. rewrite store_words_below by lia. simpl. by rewrite lookup_insert_eq.
    - replace 32%nat with (length (saved_regs regs)); [apply load_store|].
      unfold saved_regs. rewrite length_app, length_take, length_drop, Hl. reflexivity. }
  apply wp_bind, wp_modify. apply wp_bind, wp_modify.
  match goal with |- wp ?k ?Q ?s2 => assert (HW : wp k Q (with_frame s m2 regs)) end.
  2:{ unfold with_frame in HW. subst regs m1 m2. destruct s as [?????????????? w ???]. by destruct w. }
  apply wp_bind, wp_gets. apply wp_bind, wp_gets.
  change (u_code (u (with_frame s m2 regs))) with (u_code (u s)).
  change (u_sigtramp (u (with_frame s m2 regs))) with (u_sigtramp (u s)).
  do 5 (apply wp_bind; apply wp_set_reg; [rewrite ?length_insert, Hl; unfold FRAME_R4, FRAME_R5, FRAME_R6, FRAME_RA, FRAME_SP; lia|]).
  apply wp_set_reg; [rewrite ?length_insert, Hl; unfold FRAME_PC; lia|]. by exists m2.
Qed.

(** [sigreturn] on a context. *)
Lemma wp_sigreturn s x sfp on mask regs :
  cur s x → u_frame (u s) !! FRAME_SP = Some sfp → 0 ≤ sfp < 2^31 → (sfp + 16) mod 4 = 0 →
  baduaddr (sfp + 16) = false → baduaddr (sfp + SIGFRAME) = false → context_at (umem s) (sfp + 16) on mask regs →
  wp sigreturn (λ _ s', s' = with_cur s (x<|p_sigmask := bic mask sigcantmask|>)
    ((u s)<|u_error := EJUSTRETURN|>
      <|u_sigstk ::= λ k, k<|ss_flags ::= λ f, if has on SA_ONSTACK then Z.lor f SA_ONSTACK else bic f SA_ONSTACK|>|>
      <|u_frame := restored_regs (u_frame (u s)) (saved_regs regs)|>)) s.
Proof.
  intros Hx Hsp Hr Hal Hb1 Hb2 [C1 C2]. unfold sigreturn, curproc, reg. wp_go.
  eapply wp_lift; [by apply rd_Done|]. assert (E : u32 (sfp + 16) = sfp + 16) by (apply u32_id; lia). rewrite E.
  assert (E2 : u32 (sfp + 16 + SIGCONTEXT) = sfp + SIGFRAME) by (unfold SIGCONTEXT, SIGFRAME; rewrite u32_id; lia).
  rewrite E2, Hb1, Hb2, Hal. change (0 =? 0) with true. cbn [orb]. set (c := u_procp (u s)).
  match goal with |- wp ?m ?Q _ => assert (HW : wp m Q (with_cur s x (u s))) end.
  2:{ by rewrite (with_cur_id s x Hx) in HW. }
  subst c. apply wp_bind, wp_setu_with. apply wp_bind, wp_ret. apply wp_bind, wp_gets.
  change (umem (with_cur s x _)) with (umem s). rewrite C1, C2.
  destruct (has on SA_ONSTACK).
  all: apply wp_bind, wp_setu_with; apply wp_bind; (eapply wp_setp_with; [exact Hx|]); apply wp_setu_with; reflexivity.
Qed.

Lemma restored_saved regs regs' :
  length regs = 33%nat → length regs' = 33%nat → ∃ st, regs' !! FRAME_STATUS = Some st ∧
    restored_regs regs' (saved_regs regs) = <[FRAME_STATUS := st]> regs.
Proof.
  intros Hl Hl'. do 33 (destruct regs as [|? regs]; [done|]). destruct regs; [|done].
  do 33 (destruct regs' as [|? regs']; [done|]). destruct regs'; [|done]. by eexists.
Qed.

(** The context records whether the alternate stack was in use. *)
Lemma onstack_word f : has (Z.land f SA_ONSTACK) SA_ONSTACK = has f SA_ONSTACK.
Proof. unfold has. by rewrite <- Z.land_assoc, Z.land_diag. Qed.

(** What a handler finds, and the context it will return with. *)
Record entered s s1 x (handler sig mask sfp : Z) : Prop := Entered {
  en_cur : ∃ y, cur s1 y ∧ y = x<|p_ssize := p_ssize y|><|p_saddr := p_saddr y|>;
  en_regs : u_frame (u s1) = handler_regs (u s) handler sig sfp;
  en_context : context_at (umem s1) (sfp + 16) (Z.land (ss_flags (u_sigstk (u s))) SA_ONSTACK) mask (u_frame (u s));
  en_onstack : has (ss_flags (u_sigstk (u s1))) SA_ONSTACK = has (ss_flags (u_sigstk (u s))) SA_ONSTACK || uses_alt (u s) sig;
  en_procp : u_procp (u s1) = u_procp (u s) }.

Lemma entered_frame s0 s1 x y handler sig mask sfp :
  cur s1 y → y = x<|p_ssize := p_ssize y|><|p_saddr := p_saddr y|> → u_procp (u s1) = u_procp (u s0) →
  u_frame (u s1) = u_frame (u s0) → u_code (u s1) = u_code (u s0) → u_sigtramp (u s1) = u_sigtramp (u s0) →
  has (ss_flags (u_sigstk (u s1))) SA_ONSTACK = has (ss_flags (u_sigstk (u s0))) SA_ONSTACK || uses_alt (u s0) sig →
  length (u_frame (u s0)) = 33%nat → in_user (sfp + 16) SIGCONTEXT = true →
  wp (sendsig_frame handler sig mask (Z.land (ss_flags (u_sigstk (u s0))) SA_ONSTACK) sfp)
    (λ _ s2, entered s0 s2 x handler sig mask sfp) s1.
Proof.
  intros Hy Ey E1 E2 E3 E4 E5 Hl Hin. eapply wp_mono; [apply wp_sendsig_frame; [by rewrite E2|done]|].
  intros [] s2 (m & -> & HC). unfold with_frame. split; fields.
  - exists y. split; [exact Hy|done].
  - unfold handler_regs. by rewrite E2, E3, E4.
  - by rewrite <- E2.
  - done.
  - done.
Qed.

Lemma wp_sendsig s x handler sig mask sp :
  cur s x → length (u_frame (u s)) = 33%nat → u_frame (u s) !! FRAME_SP = Some sp →
  let top := frame_top (u s) sig sp in let sfp := top - SIGFRAME in
  SIGFRAME ≤ top < 2^32 → in_user (sfp + 16) SIGCONTEXT = true →
  (has (ss_flags (u_sigstk (u s))) SA_ONSTACK || uses_alt (u s) sig = false → u32 (p_daddr x + u_dsize (u s)) ≤ sfp) →
  wp (sendsig handler sig mask) (λ _ s1, entered s s1 x handler sig mask sfp) s.
Proof.
  intros Hx Hl Hsp top sfp Hr Hin Hok. unfold sendsig, curproc. apply wp_bind, wp_gets. apply wp_bind, wp_gets.
  assert (Hid : x = x<|p_ssize := p_ssize x|><|p_saddr := p_saddr x|>) by (by destruct x).
  assert (Esf : u32 (top - SIGFRAME) = sfp) by (apply u32_id; unfold SIGFRAME in *; lia).
  fold (uses_alt (u s) sig). apply wp_bind. unfold top, frame_top in *. destruct (uses_alt (u s) sig) eqn:Ea.
  - apply wp_bind, wp_setu. apply wp_ret. rewrite Esf. apply wp_bind, wp_gets. apply wp_bind.
    eapply wp_at; [exact Hx|]. fields. rewrite has_lor, orb_true_r. cbn [negb].
    eapply entered_frame; [exact Hx|exact Hid|done|done|done|done| |done|done].
    fields. by rewrite has_lor, Ea.
  - unfold reg. apply wp_bind, wp_gets. eapply wp_lift; [by apply rd_Done|]. rewrite Esf. apply wp_bind, wp_gets. apply wp_bind.
    eapply wp_at; [exact Hx|]. destruct (has (ss_flags (u_sigstk (u s))) SA_ONSTACK) eqn:Eo; cbn [negb].
    + eapply entered_frame; [exact Hx|exact Hid|done|done|done|done| |done|done]. by rewrite Eo.
    + rewrite (proj2 (Z.ltb_ge sfp _)) by (by apply Hok). apply wp_bind. destruct (p_ssize x <? u32 (USER_DATA_END - sfp)).
      2:{ apply wp_ret. eapply entered_frame; [exact Hx|exact Hid|done|done|done|done| |done|done]. by rewrite Eo, Ea. }
      set (n := u32 (USER_DATA_END - sfp)).
      match goal with |- wp ?k ?Q _ => assert (HW : wp k Q (with_cur s x (u s))) end.
      2:{ by rewrite (with_cur_id s x Hx) in HW. }
      apply wp_bind. eapply wp_setp_with; [exact Hx|]. apply wp_bind. eapply wp_setp_with; [exact Hx|]. apply wp_setu_with.
      apply (entered_frame _ _ x (x<|p_ssize := n|><|p_saddr := sfp|>)); try done.
      * unfold cur, with_cur. fields. apply list_lookup_insert_eq. by eapply cur_lt.
      * unfold with_cur. fields. by rewrite Eo, Ea.
Qed.


(** C20. A signal handler returns to where the program was: sendsig starts the
    handler with its arguments and stack; if the handler leaves the context
    it got alone and comes back to the trampoline with its stack pointer,
    then sigreturn restores every register (the status word apart), the
    signal mask and the use of the alternate stack. *)
Theorem signal_roundtrip (s : kern) (x : proc) (handler sig mask sp : Z) :
  let top := frame_top (u s) sig sp in let sfp := top - SIGFRAME in
  cur s x → length (u_frame (u s)) = 33%nat → u_frame (u s) !! FRAME_SP = Some sp →
  in_user (sfp + 16) SIGCONTEXT = true → top < USER_DATA_END →
  (has (ss_flags (u_sigstk (u s))) SA_ONSTACK || uses_alt (u s) sig = false → u32 (p_daddr x + u_dsize (u s)) ≤ sfp) →
  wp (sendsig handler sig mask) (λ _ s1,
    u_frame (u s1) = handler_regs (u s) handler sig sfp ∧
    (∃ y, cur s1 y ∧ y = x<|p_ssize := p_ssize y|><|p_saddr := p_saddr y|>) ∧
    ∀ s2 y, cur s2 y → length (u_frame (u s2)) = 33%nat → u_frame (u s2) !! FRAME_SP = Some sfp →
      load_words (umem s2) (sfp + 16) 2 = load_words (umem s1) (sfp + 16) 2 →
      load_words (umem s2) (sfp + 32) 32 = load_words (umem s1) (sfp + 32) 32 →
      wp sigreturn (λ _ s3, ∃ st, u_frame (u s2) !! FRAME_STATUS = Some st ∧
        u_frame (u s3) = <[FRAME_STATUS := st]> (u_frame (u s)) ∧ u_error (u s3) = EJUSTRETURN ∧
        cur s3 (y<|p_sigmask := bic mask sigcantmask|>) ∧
        has (ss_flags (u_sigstk (u s3))) SA_ONSTACK = has (ss_flags (u_sigstk (u s))) SA_ONSTACK) s2) s.
Proof.
  intros top sfp Hx Hl Hsp Hin Ht Hok. pose proof Hin as Hin'. unfold in_user in Hin'.
  rewrite !andb_true_iff, !Z.leb_le, Z.eqb_eq in Hin'. destruct Hin' as [[R1 R2] R3].
  unfold USER_DATA_START, USER_DATA_END, SIGCONTEXT, SIGFRAME in *.
  eapply wp_mono; [apply (wp_sendsig s x handler sig mask sp Hx Hl Hsp); fold top; fold sfp|].
  - unfold SIGFRAME. lia.
  - exact Hin.
  - exact Hok.
  - intros [] s1 [E1 E2 [C1 C2] _ _]. split; [exact E2|]. split; [exact E1|]. intros s2 y Hy Hl2 Hsp2 M1 M2. fold top in C1, C2. change (top - SIGFRAME) with sfp in C1, C2.
    assert (HB : ∀ a, USER_DATA_START ≤ a < USER_DATA_END → baduaddr a = false).
    { intros a Ha. unfold baduaddr. destruct (_ && _); [done|]. unfold USER_DATA_START, USER_DATA_END in *.
      rewrite (proj2 (Z.leb_le _ a)), (proj2 (Z.ltb_lt a _)) by lia. done. }
    eapply wp_mono; [eapply (wp_sigreturn s2 y sfp); [exact Hy|exact Hsp2|lia|done| | |]|].
    + apply HB. unfold USER_DATA_START, USER_DATA_END. lia.
    + apply HB. unfold USER_DATA_START, USER_DATA_END, SIGFRAME. lia.
    + split; [rewrite M1; exact C1|]. rewrite <- Z.add_assoc in C2 |- *. exact (eq_trans M2 C2).
    + intros [] s3 ->. destruct (restored_saved (u_frame (u s)) (u_frame (u s2)) Hl Hl2) as (st & Hst & Er).
      exists st. split_and!; [done|exact Er|done| |].
      * unfold cur, with_cur. fields. apply list_lookup_insert_eq. by eapply cur_lt.
      * unfold with_cur. fields. rewrite onstack_word.
        destruct (has (ss_flags (u_sigstk (u s))) SA_ONSTACK); [rewrite has_lor; apply orb_true_r|by apply has_bic_same].
Qed.

Lemma wild_bind {A B} (m : M A) (k : A → M B) s : wp m (λ a s', k a s' = Wild) s → (m ≫= k) s = Wild.
Proof. unfold wp, mbind, K_bind. by destruct (m s) as [[a s']| | |]. Qed.

(** sendsig writes its frame wherever the program's stack pointer says: a
    program that catches a signal with its stack pointer above the user
    memory, where the kernel's data is, makes the kernel store the frame
    there, since only the lower bound of the address is checked. *)
Theorem sendsig_overwrites (s : kern) (x : proc) (handler sig mask sp : Z) :
  cur s x → length (u_frame (u s)) = 33%nat → u_frame (u s) !! FRAME_SP = Some sp → uses_alt (u s) sig = false →
  USER_DATA_END + SIGFRAME ≤ sp < 2^32 → u32 (p_daddr x + u_dsize (u s)) ≤ USER_DATA_END →
  sendsig handler sig mask s = Wild.
Proof.
  intros Hx Hl Hsp Ha Hr Hd. unfold USER_DATA_END, SIGFRAME in *.
  assert (Hin : in_user (sp - SIGFRAME + 16) SIGCONTEXT = false).
  { unfold in_user, SIGFRAME, SIGCONTEXT, USER_DATA_END. rewrite (proj2 (Z.leb_gt (_ + 144) _)) by lia. by rewrite andb_false_r. }
  assert (HF : ∀ on s', sendsig_frame handler sig mask on (sp - SIGFRAME) s' = Wild).
  { intros on s'. unfold sendsig_frame. by rewrite Hin. }
  unfold sendsig, curproc. apply wild_bind, wp_gets. apply wild_bind, wp_gets. fold (uses_alt (u s) sig). rewrite Ha.
  unfold reg. apply wild_bind. apply wp_bind, wp_gets. eapply wp_lift; [by apply rd_Done|].
  assert (E : u32 (sp - SIGFRAME) = sp - SIGFRAME) by (apply u32_id; unfold SIGFRAME; lia). rewrite E.
  apply wild_bind, wp_gets. apply wild_bind. eapply wp_at; [exact Hx|]. destruct (negb _); [|apply HF].
  rewrite (proj2 (Z.ltb_ge _ _)) by (unfold SIGFRAME; lia). apply wild_bind.
  destruct (p_ssize x <? _); [|apply wp_ret; apply HF].
  match goal with |- wp ?k ?Q _ => assert (HW : wp k Q (with_cur s x (u s))) end.
  2:{ by rewrite (with_cur_id s x Hx) in HW. }
  do 2 (apply wp_bind; eapply wp_setp_with; [exact Hx|]). apply wp_setu_with. apply HF.
Qed.
End Frame.

(** ** Example: SIGTERM is pending for a process that catches it *)
Definition ex_pending : proc := ex_catcher<|p_sig := sigmask SIGTERM|><|p_daddr := 0x7f008000|>.
Definition ex_running (sp : Z) : kern :=
  with_cur ex_catching ex_pending ((u ex_catching)<|u_frame := <[FRAME_SP := sp]> (replicate 33 7)|>).

Lemma ex_pending_disp sp : disp_ok (u (ex_running sp)) ex_pending.
Proof. by apply (disp_same (u ex_catching) ex_catcher _ _); try exact ex_disp. Qed.


Lemma signal_roundtrip_witness :
  wp (sendsig ex_handler SIGTERM 0) (λ _ s1, u_frame (u s1) !! FRAME_PC = Some ex_handler ∧
    wp sigreturn (λ _ s3, u_frame (u s3) = u_frame (u (ex_running 0x7f01f000))) s1) (ex_running 0x7f01f000).
Proof.
  eapply wp_mono.
  - refine (signal_roundtrip (ex_running 0x7f01f000) ex_pending ex_handler SIGTERM 0 0x7f01f000 eq_refl eq_refl eq_refl _ _ _).
    + reflexivity.
    + reflexivity.
    + intros _. by vm_compute.
  - intros [] s1 (Hf & (y & Hy & _) & HS). split; [rewrite Hf; reflexivity|].
    eapply wp_mono; [refine (HS s1 y Hy _ _ eq_refl eq_refl); rewrite Hf; reflexivity|].
    intros [] s3 (st & Hst & -> & _). rewrite Hf in Hst. injection Hst as <-. reflexivity.
Defined.
Lemma sendsig_overwrites_witness : sendsig ex_handler SIGTERM 0 (ex_running 0x80003000) = Wild.
Proof.
  refine (sendsig_overwrites (ex_running 0x80003000) ex_pending ex_handler SIGTERM 0 0x80003000 eq_refl eq_refl eq_refl eq_refl _ _);
    by vm_compute.
Defined.
