(* ===== verification/Resource.v ===== *)
(** * Resource controls

    Priorities, limits and usage: kernel/kern_resource.c. *)
From stdpp Require Import base tactics list option strings numbers gmap.
From S2P Require Import Prelude Proc Prot.
Open Scope Z_scope.

Definition PRIO_MIN : Z := -20.
Definition PRIO_MAX : Z := 20.
Definition PRIO_PROCESS : Z := 0.
Definition PRIO_PGRP : Z := 1.
Definition PRIO_USER : Z := 2.
Definition RLIMIT_CPU : Z := 0.
Definition RLIM_NLIMITS : Z := 6.
Definition RLIM_INFINITY : Z := 0x7fffffff.
Definition RUSAGE_SELF : Z := 0.
Definition RUSAGE_CHILDREN : Z := -1.
Definition hz : Z := 200.
Definition usechz : Z := (1000000 + hz - 1) `quot` hz.

(** ** Priorities *)

(** [if (p->... == who && p->p_nice < low) low = p->p_nice], over all
    processes. *)
Definition lowest_nice (sel : proc → bool) (low : Z) : M Z :=
  for_procs allproc low (λ low p, x ← at_ p; mret (if sel x && (p_nice x <? low) then p_nice x else low)).

Definition getpriority (which who : Z) : M unit :=
  c ← curproc;
  let low := PRIO_MAX + 1 in
  r ← (if which =? PRIO_PROCESS then
         p ← (if who =? 0 then mret (Some c) else pfind who);
         match p with
         | None => mret (Some low)
         | Some p => x ← at_ p; mret (Some (p_nice x))
         end
       else if which =? PRIO_PGRP then
         cp ← at_ c;
         let who := if who =? 0 then p_pgrp cp else who in
         low ← lowest_nice (λ x, p_pgrp x =? who) low; mret (Some low)
       else if which =? PRIO_USER then
         uid ← gets (λ s, u_uid (u s));
         let who := if who =? 0 then s32 uid else who in
         low ← lowest_nice (λ x, p_uid x =? who) low; mret (Some low)
       else mret None);
  match r with
  | None => set_error EINVAL
  | Some low => if low =? PRIO_MAX + 1 then set_error ESRCH else set_rval low
  end.

Definition donice (p : nat) (n : Z) : M unit :=
  x ← at_ p;
  v ← gets u;
  if negb (u_uid v =? 0) && negb (u_ruid v =? 0) && negb (u_uid v =? u32 (p_uid x)) && negb (u_ruid v =? u32 (p_uid x))
  then set_error EPERM
  else
    let n := if PRIO_MAX <? n then PRIO_MAX else n in
    let n := if n <? PRIO_MIN then PRIO_MIN else n in
    ok ← (if n <? p_nice x then suser else mret true);
    if negb ok then set_error EACCES
    else setp p (λ x, x<|p_nice := s8 n|>).

(** [if (p->... == who) { donice(p, prio); found++; }], over all processes. *)
Definition nice_all (sel : proc → bool) (prio : Z) : M Z :=
  for_procs allproc 0 (λ found p, x ← at_ p; if sel x then donice p prio;; mret (found + 1) else mret found).

Definition setpriority (which who prio : Z) : M unit :=
  c ← curproc;
  r ← (if which =? PRIO_PROCESS then
         p ← (if who =? 0 then mret (Some c) else pfind who);
         match p with
         | None => mret (Some 0)
         | Some p => donice p prio;; mret (Some 1)
         end
       else if which =? PRIO_PGRP then
         cp ← at_ c;
         let who := if who =? 0 then p_pgrp cp else who in
         f ← nice_all (λ x, p_pgrp x =? who) prio; mret (Some f)
       else if which =? PRIO_USER then
         uid ← gets (λ s, u_uid (u s));
         let who := if who =? 0 then s32 uid else who in
         f ← nice_all (λ x, p_uid x =? who) prio; mret (Some f)
       else mret None);
  match r with
  | None => set_error EINVAL
  | Some found => if found =? 0 then set_error ESRCH else mret tt
  end.

(** ** Limits *)

(** Processor limits are kept in clock ticks. *)
Definition to_ticks (l : Z) : Z := if RLIM_INFINITY `quot` hz <=? l then RLIM_INFINITY else s32 (l * hz).
Definition from_ticks (l : Z) : Z := if negb (l =? RLIM_INFINITY) then l `quot` hz else l.

Definition setrlimit (which lim : Z) : M unit :=
  if RLIM_NLIMITS <=? u32 which then set_error EINVAL
  else
    l ← gets (λ s, u_rlimit (u s));
    alim ← lift (rdz l (u32 which));
    r ← copyin lim 2;
    match r with
    | inl e => set_error e
    | inr [c; m] =>
        set_error 0;;
        let new := Rlimit (s32 c) (s32 m) in
        let new := if u32 which =? RLIMIT_CPU then Rlimit (to_ticks (rlim_cur new)) (to_ticks (rlim_max new)) else new in
        ok ← (if (rlim_max alim <? rlim_cur new) || (rlim_max alim <? rlim_max new) then suser else mret true);
        if negb ok then mret tt
        else l ← lift (wrz l (u32 which) new); setu (λ v, v<|u_rlimit := l|>)
    | _ => lift Wild
    end.

Definition getrlimit (which rlp : Z) : M unit :=
  if RLIM_NLIMITS <=? u32 which then set_error EINVAL
  else
    l ← gets (λ s, u_rlimit (u s));
    alim ← lift (rdz l (u32 which));
    let alim := if u32 which =? RLIMIT_CPU then Rlimit (from_ticks (rlim_cur alim)) (from_ticks (rlim_max alim)) else alim in
    e ← copyout [u32 (rlim_cur alim); u32 (rlim_max alim)] rlp;
    set_error e.

(** ** Usage *)

(** [struct rusage] as the program sees it. *)
Definition rucvt (k : k_rusage) : list Z :=
  map u32
  [ru_utime k `quot` hz; (ru_utime k `rem` hz) * usechz; ru_stime k `quot` hz; (ru_stime k `rem` hz) * usechz;
   0; 0; 0; 0; 0; 0; ru_nswap k; ru_inblock k; ru_oublock k; ru_msgsnd k; ru_msgrcv k; ru_nsignals k; ru_nvcsw k;
   ru_nivcsw k].
Definition ruadd (a b : k_rusage) : k_rusage :=
  Rusage (s32 (ru_utime a + ru_utime b)) (s32 (ru_stime a + ru_stime b)) (s32 (ru_nswap a + ru_nswap b))
    (s32 (ru_inblock a + ru_inblock b)) (s32 (ru_oublock a + ru_oublock b)) (s32 (ru_msgsnd a + ru_msgsnd b))
    (s32 (ru_msgrcv a + ru_msgrcv b)) (s32 (ru_nsignals a + ru_nsignals b)) (s32 (ru_nvcsw a + ru_nvcsw b))
    (s32 (ru_nivcsw a + ru_nivcsw b)).

Definition getrusage (who rusage : Z) : M unit :=
  v ← gets u;
  match (if who =? RUSAGE_SELF then Some (u_ru v) else if who =? RUSAGE_CHILDREN then Some (u_cru v) else None) with
  | None => set_error EINVAL
  | Some k => e ← copyout (rucvt k) rusage; set_error e
  end.

(** ** What the calls do *)
Section Nice.
Implicit Types (s : kern) (x : proc) (v : user).

Definition clamp (n : Z) : Z := Z.max PRIO_MIN (Z.min PRIO_MAX n).
(** Why a change to niceness [n] is refused; 0 if it is not. *)
Definition verdict v (n : Z) x : Z :=
  if negb (u_uid v =? 0) && negb (u_ruid v =? 0) && negb (u_uid v =? u32 (p_uid x)) && negb (u_ruid v =? u32 (p_uid x))
  then EPERM
  else if (clamp n <? p_nice x) && negb (u_uid v =? 0) then EACCES else 0.
Definition niced v (n : Z) x : proc := if verdict v n x =? 0 then x<|p_nice := clamp n|> else x.

(** A change of the error word and the niceness of processes. *)
Definition nice_frame s s' : Prop :=
  length (procs s') = length (procs s) ∧ s' = s<|procs := procs s'|><|u := (u s)<|u_error := u_error (u s')|>|>.

Lemma clamp_code n :
  (let n := if PRIO_MAX <? n then PRIO_MAX else n in if n <? PRIO_MIN then PRIO_MIN else n) = clamp n.
Proof.
  unfold clamp, PRIO_MAX, PRIO_MIN. cbv zeta. destruct (Z.ltb_spec 20 n); [simpl; lia|].
  destruct (Z.ltb_spec n (-20)); lia.
Qed.
Lemma s8_clamp n : s8 (clamp n) = clamp n.
Proof. unfold s8, clamp, PRIO_MAX, PRIO_MIN. rewrite Z.mod_small; lia. Qed.

Lemma wp_donice s p x n (Q : unit → kern → Prop) :
  procs s !! p = Some x →
  (∀ s', nice_frame s s' → procs s' = <[p := niced (u s) n x]> (procs s) →
     (verdict (u s) n x = 0 → u_error (u s') = u_error (u s)) → (verdict (u s) n x ≠ 0 → u_error (u s') = verdict (u s) n x) →
     Q tt s') →
  wp (donice p n) Q s.
Proof.
  intros Hx HQ. unfold donice. apply wp_bind. eapply wp_at; [done|]. apply wp_bind, wp_gets. unfold niced, verdict in HQ.
  assert (Hlt : (p < length (procs s))%nat) by (by eapply lookup_lt_Some).
  assert (HE : ∀ e, nice_frame s (s<|u ::= λ v, v<|u_error := e|>|>)) by (intros e; split; [done|]; by destruct s).
  destruct (_ && _ && _ && _).
  { apply wp_setu, HQ; [apply HE| |done|done]. by rewrite list_insert_id. }
  rewrite clamp_code. destruct (clamp n <? p_nice x) eqn:El; simpl in *.
  - apply wp_bind, wp_suser; intros Hu.
    + rewrite Hu in HQ. simpl in *. eapply wp_setp; [done|]. rewrite s8_clamp. apply HQ; [|done|done|done].
      split; [apply length_insert|]. destruct s as [?????????????? w ???]. by destruct w.
    + rewrite (proj2 (Z.eqb_neq _ _) Hu) in HQ. simpl in *. apply wp_setu, HQ; [| |done|done].
      * split; [done|]. by destruct s.
      * by rewrite list_insert_id.
  - apply wp_bind, wp_ret. simpl. eapply wp_setp; [done|]. rewrite s8_clamp. apply HQ; [|done|done|done].
    split; [apply length_insert|]. destruct s as [?????????????? w ???]. by destruct w.
Qed.

(** The processes [i] with [sel] among [l] have been dealt with. *)
Record niced_all s (n : Z) (sel : nat → proc → bool) (l : list nat) s' : Prop := NicedAll {
  na_frame : nice_frame s s';
  na_procs : ∀ i x, procs s !! i = Some x →
    procs s' !! i = Some (if decide (i ∈ l ∧ sel i x = true) then niced (u s) n x else x);
  na_error :
    (u_error (u s') = u_error (u s) ∧
       ∀ i x, i ∈ l → procs s !! i = Some x → sel i x = true → verdict (u s) n x = 0) ∨
    (u_error (u s') ∈ [EPERM; EACCES] ∧
       ∃ i x, i ∈ l ∧ procs s !! i = Some x ∧ sel i x = true ∧ verdict (u s) n x ≠ 0) }.

Lemma nice_frame_refl s : nice_frame s s.
Proof. split; [done|]. destruct s as [?????????????? w ???]. by destruct w. Qed.
Lemma nice_frame_u s s' : nice_frame s s' → u s' = (u s)<|u_error := u_error (u s')|>.
Proof. intros [_ E]. by rewrite E. Qed.
Lemma nice_frame_trans s1 s2 s3 : nice_frame s1 s2 → nice_frame s2 s3 → nice_frame s1 s3.
Proof.
  intros [L1 E1] [L2 E2]. split; [congruence|]. rewrite E2 at 1. rewrite E1.
  destruct s1 as [?????????????? w ???]. by destruct w.
Qed.
Lemma verdict_frame s s' n x : nice_frame s s' → verdict (u s') n x = verdict (u s) n x ∧ niced (u s') n x = niced (u s) n x.
Proof. intros Hf. rewrite (nice_frame_u _ _ Hf). done. Qed.

Lemma niced_none s n sel : niced_all s n sel [] s.
Proof.
  split; [apply nice_frame_refl| |].
  - intros i x Hx. rewrite decide_False; [done|]. by intros [?%not_elem_of_nil _].
  - left. split; [done|]. by intros i x ?%not_elem_of_nil.
Qed.
Lemma niced_skip s n sel l i s' x :
  niced_all s n sel l s' → procs s !! i = Some x → sel i x = false → niced_all s n sel (l ++ [i]) s'.
Proof.
  intros [N1 N2 N3] Hx Hs. split; [done| |].
  - intros j y Hy. rewrite (N2 j y Hy). f_equal. destruct (decide (j ∈ l ∧ sel j y = true)) as [[H1 H2]|Hn].
    + rewrite decide_True; [done|]. split; [set_solver|done].
    + rewrite decide_False; [done|]. intros [[Hj| ->%list_elem_of_singleton]%elem_of_app Hsj]; [tauto|]. simplify_eq. congruence.
  - destruct N3 as [[E HN]|(E & j & y & Hj & HN)]; [left|right].
    + split; [done|]. intros j y [Hj| ->%list_elem_of_singleton]%elem_of_app Hy Hsj; [by eapply HN|]. simplify_eq. congruence.
    + split; [done|]. exists j, y. split; [set_solver|done].
Qed.
Lemma niced_step s n sel l i s1 s2 x :
  niced_all s n sel l s1 → procs s !! i = Some x → sel i x = true → i ∉ l →
  nice_frame s1 s2 → procs s2 = <[i := niced (u s1) n x]> (procs s1) →
  (verdict (u s1) n x = 0 → u_error (u s2) = u_error (u s1)) → (verdict (u s1) n x ≠ 0 → u_error (u s2) = verdict (u s1) n x) →
  niced_all s n sel (l ++ [i]) s2.
Proof.
  intros [N1 N2 N3] Hx Hs Hi F2 P2 V1 V2. destruct (verdict_frame _ _ n x N1) as [Ev En]. rewrite Ev in V1, V2. rewrite En in P2.
  split; [by eapply nice_frame_trans| |].
  - intros j y Hy. rewrite P2. destruct (decide (j = i)) as [->|Hne].
    + simplify_eq. rewrite list_lookup_insert_eq by (eapply lookup_lt_Some, (N2 i x Hx)).
      rewrite decide_True; [done|]. split; [set_solver|done].
    + rewrite list_lookup_insert_ne by done. rewrite (N2 j y Hy). f_equal.
      apply decide_ext. rewrite elem_of_app, list_elem_of_singleton. tauto.
  - destruct (decide (verdict (u s) n x = 0)) as [E0|E0].
    + rewrite (V1 E0). destruct N3 as [[E HN]|(E & j & y & Hj & HN)]; [left|right].
      * split; [done|]. intros j y [Hj| ->%list_elem_of_singleton]%elem_of_app Hy Hsj; [by eapply HN|]. by simplify_eq.
      * split; [done|]. exists j, y. split; [set_solver|done].
    + right. rewrite (V2 E0). split.
      * clear - E0. unfold verdict in *. destruct (_ && _ && _ && _); [set_solver|]. destruct (_ && _); [set_solver|done].
      * exists i, x. split; [set_solver|done].
Qed.

Lemma nxt_niced v n x : p_nxt (niced v n x) = p_nxt x.
Proof. unfold niced. by destruct (_ =? _). Qed.

Lemma wp_nice_all s all sel n :
  lseg p_nxt (procs s) (allproc s) all None → NoDup all →
  wp (nice_all sel n) (λ f s', niced_all s n (λ _, sel) all s' ∧
    (f = 0 ↔ ∀ i x, i ∈ all → procs s !! i = Some x → sel x = false)) s.
Proof.
  intros Hl Hnd. unfold nice_all.
  eapply wp_mono; [eapply (wp_for_procs allproc (λ l f s', niced_all s n (λ _, sel) l s' ∧ 0 ≤ f ∧
    (f = 0 ↔ ∀ i x, i ∈ l → procs s !! i = Some x → sel x = false))); [done|done| |]|].
  - split_and!; [apply niced_none|done|]. split; [|done]. by intros _ i x ?%not_elem_of_nil.
  - intros done i rest f s' El _ (HN & Hf & HF).
    assert (Hi : i ∈ all) by (rewrite El; set_solver). destruct (lseg_lookup _ _ _ _ _ _ Hl Hi) as [x Hx].
    assert (Hid : i ∉ done).
    { rewrite El in Hnd. apply NoDup_app in Hnd as (_ & Hd & _). intros Hi'. apply (Hd i Hi'). apply list_elem_of_here. }
    pose proof (na_procs _ _ _ _ _ HN i x Hx) as Hx'. rewrite decide_False in Hx' by tauto.
    apply wp_bind. eapply wp_at; [exact Hx'|]. destruct (sel x) eqn:Es.
    + apply wp_bind. eapply wp_donice; [exact Hx'|]. intros s2 F2 P2 V1 V2. apply wp_ret. split_and!.
      * unfold nxts. rewrite P2, list_fmap_insert, nxt_niced. apply list_insert_id. by rewrite list_lookup_fmap, Hx'.
      * by eapply niced_step.
      * lia.
      * split; [lia|]. intros HA. rewrite (HA i x) in Es; [done|set_solver|done].
    + apply wp_ret. split_and!; [done|by eapply niced_skip|done|]. rewrite HF. split.
      * intros HA j y [Hj| ->%list_elem_of_singleton]%elem_of_app Hy; [by eapply HA|]. by simplify_eq.
      * intros HA j y Hj Hy. apply (HA j y); [set_solver|done].
  - intros f s' (_ & HN & _ & HF). done.
Qed.

(** The processes [which] and [who] address. *)
Definition nice_sel s (which who : Z) (i : nat) (x : proc) : bool :=
  match procs s !! u_procp (u s) with
  | None => false
  | Some cp =>
      if which =? PRIO_PROCESS then if who =? 0 then (i =? u_procp (u s))%nat else p_pid x =? who
      else if which =? PRIO_PGRP then p_pgrp x =? (if who =? 0 then p_pgrp cp else who)
      else p_uid x =? (if who =? 0 then s32 (u_uid (u s)) else who)
  end.

Lemma niced_single s n sel all i s' x :
  procs s !! i = Some x → i ∈ all → sel i x = true → (∀ j y, j ∈ all → procs s !! j = Some y → sel j y = true → j = i) →
  niced_all s n sel [i] s' → niced_all s n sel all s'.
Proof.
  intros Hx Hi Hs Hu [N1 N2 N3]. split; [done| |].
  - intros j y Hy. rewrite (N2 j y Hy). f_equal. apply decide_ext. rewrite list_elem_of_singleton. split; [|naive_solver].
    by intros [-> ?].
  - destruct N3 as [[E HN]|(E & j & y & ->%list_elem_of_singleton & HN)]; [left|right].
    + split; [done|]. intros j y Hj Hy Hsj. eapply (HN j); [|done|done]. rewrite (Hu j y Hj Hy Hsj). set_solver.
    + split; [done|]. exists i, y. done.
Qed.

(** The outcome of a call that addresses the processes [sel] of [all]. *)
Record nice_outcome s (all : list nat) (sel : nat → proc → bool) (n : Z) s' : Prop := NiceOutcome {
  no_procs : ∀ i x, procs s !! i = Some x →
    procs s' !! i = Some (if decide (i ∈ all ∧ sel i x = true) then niced (u s) n x else x);
  no_frame : nice_frame s s';
  no_nobody : u_error (u s') = ESRCH ↔ ∀ i x, i ∈ all → procs s !! i = Some x → sel i x = false;
  no_refused : u_error (u s') ∈ [EPERM; EACCES] ↔
    ∃ i x, i ∈ all ∧ procs s !! i = Some x ∧ sel i x = true ∧ verdict (u s) n x ≠ 0;
  no_error : u_error (u s') ∈ [0; ESRCH; EPERM; EACCES] }.

Lemma wp_nice_finish s all sel n s' f :
  u_error (u s) = 0 → niced_all s n sel all s' →
  (f = 0 ↔ ∀ i x, i ∈ all → procs s !! i = Some x → sel i x = false) →
  wp (if f =? 0 then set_error ESRCH else mret tt) (λ _ s', nice_outcome s all sel n s') s'.
Proof.
  intros He0 [N1 N2 N3] Hf. destruct (Z.eqb_spec f 0) as [E|E].
  - apply wp_setu. pose proof (proj1 Hf E) as HA. split; [exact N2| |done| |set_solver].
    + eapply nice_frame_trans; [exact N1|]. split; [done|]. by destruct s'.
    + split; [set_solver|]. intros (i & x & Hi & Hx & Hs & _). rewrite (HA i x) in Hs by done. done.
  - apply wp_ret. rewrite He0 in N3. split; [exact N2|exact N1| | |].
    + split; [|intros HA; by apply Hf in HA]. destruct N3 as [[-> _]|[Hin _]]; [done|]. intros E1. rewrite E1 in Hin. set_solver.
    + destruct N3 as [[-> HN]|[Hin Hex]]; [|done]. split; [set_solver|].
      intros (i & x & Hi & Hx & Hs & Hv). by rewrite (HN i x) in Hv.
    + destruct N3 as [[-> _]|[Hin _]]; set_solver.
Qed.

(** One process. *)
Lemma wp_nice_one s all sel n i x :
  u_error (u s) = 0 → i ∈ all → procs s !! i = Some x → sel i x = true →
  (∀ j y, j ∈ all → procs s !! j = Some y → sel j y = true → j = i) →
  wp (donice i n;; mret (Some 1)) (λ r, wp (match r with
    | None => set_error EINVAL | Some found => if found =? 0 then set_error ESRCH else mret tt end)
    (λ _ s', nice_outcome s all sel n s')) s.
Proof.
  intros He0 Hi Hx Hs Hu. apply wp_bind. eapply wp_donice; [exact Hx|]. intros s2 F2 P2 V1 V2. apply wp_ret.
  apply wp_nice_finish; [done| |].
  - eapply niced_single; [done|done|done|done|].
    by eapply (niced_step s n _ [] i s s2 x (niced_none s n _)); [..|set_solver| | | |].
  - split; [done|]. intros HA. rewrite (HA i x) in Hs by done. done.
Qed.
(** No process. *)
Lemma niced_nobody s n sel all :
  (∀ i x, i ∈ all → procs s !! i = Some x → sel i x = false) → niced_all s n sel all s.
Proof.
  intros HN. split; [apply nice_frame_refl| |].
  - intros i x Hx. rewrite decide_False; [done|]. intros [Hi Hs]. by rewrite (HN i x) in Hs.
  - left. split; [done|]. intros i x Hi Hx Hs. by rewrite (HN i x) in Hs.
Qed.
(** A group of processes. *)
Lemma wp_nice_group s all sel n (sel' : proc → bool) :
  u_error (u s) = 0 → lseg p_nxt (procs s) (allproc s) all None → NoDup all → (∀ i x, sel i x = sel' x) →
  wp (f ← nice_all sel' n; mret (Some f)) (λ r, wp (match r with
    | None => set_error EINVAL | Some found => if found =? 0 then set_error ESRCH else mret tt end)
    (λ _ s', nice_outcome s all sel n s')) s.
Proof.
  intros He0 Hl Hnd HS. apply wp_bind. eapply wp_mono; [by eapply (wp_nice_all s all sel' n)|].
  intros f s' [HN Hf]. apply wp_ret. apply wp_nice_finish; [done| |by setoid_rewrite HS].
  destruct HN as [N1 N2 N3]. split; [done| |by setoid_rewrite HS]. intros i x Hx. rewrite (N2 i x Hx). by rewrite HS.
Qed.
End Nice.

(** setpriority: the niceness of exactly the processes addressed is set,
    to the value brought into range, for those the caller may change: its own
    user's, lowering reserved to the super-user; no other process and nothing
    else changes.  The call fails with EINVAL for an unknown kind, with ESRCH
    exactly when it addresses nobody, and reports EPERM or EACCES exactly when
    it was refused for a process addressed. *)
Theorem setpriority_correct (s : kern) (all : list nat) (which who prio : Z) :
  prot_env s all → lseg p_nxt (procs s) (allproc s) all None → NoDup all → pids_distinct s all →
  u_procp (u s) ∈ all → u_error (u s) = 0 →
  wp (setpriority which who prio) (λ _ s',
    if (which =? PRIO_PROCESS) || (which =? PRIO_PGRP) || (which =? PRIO_USER)
    then nice_outcome s all (nice_sel s which who) prio s'
    else s' = s<|u ::= λ v, v<|u_error := EINVAL|>|>) s.
Proof.
  intros He Hl Hnd Hd Hc He0. destruct (e_cur _ _ He) as [cp Hcp]. unfold setpriority, curproc. apply wp_bind, wp_gets.
  apply wp_bind. destruct (which =? PRIO_PROCESS) eqn:E1.
  - assert (HS : ∀ i x, nice_sel s which who i x = if who =? 0 then (i =? u_procp (u s))%nat else p_pid x =? who).
    { intros i x. unfold nice_sel. by rewrite Hcp, E1. }
    apply wp_bind. destruct (Z.eqb_spec who 0) as [->|Hw].
    + apply wp_ret. eapply wp_nice_one; [done|done|done|rewrite HS; by apply Nat.eqb_eq|].
      intros j y Hj Hy Hs. rewrite HS in Hs. by apply Nat.eqb_eq in Hs.
    + eapply wp_mono; [eapply wp_pfind, e_hash; done|]. intros [i|] s0 [-> Hp].
      * destruct Hp as (Hi & x & Hx & Hpid). eapply wp_nice_one; [done|done|done|rewrite HS; by apply Z.eqb_eq|].
        intros j y Hj Hy Hs. rewrite HS in Hs. apply Z.eqb_eq in Hs. eapply Hd; [done|done|done|done|congruence].
      * apply wp_ret.
        assert (HN : ∀ i x, i ∈ all → procs s !! i = Some x → nice_sel s which who i x = false).
        { intros i x Hi Hx. rewrite HS. apply Z.eqb_neq. by eapply Hp. }
        apply wp_nice_finish; [done|by apply niced_nobody|done].
  - destruct (which =? PRIO_PGRP) eqn:E2.
    + apply wp_bind. eapply wp_at; [done|]. apply wp_nice_group; try done.
      intros i x. unfold nice_sel. by rewrite Hcp, E1, E2.
    + destruct (which =? PRIO_USER) eqn:E3; [|apply wp_ret; by apply wp_setu].
      apply wp_bind, wp_gets. apply wp_nice_group; try done. intros i x. unfold nice_sel. by rewrite Hcp, E1, E2.
Qed.

(** ** Limits *)

(** What getrlimit shows of a limit [l] that was set. *)
Definition shown (which l : Z) : Z :=
  if (which =? RLIMIT_CPU) && (RLIM_INFINITY `quot` hz <=? l) then RLIM_INFINITY else l.

Lemma ticks_shown l : 0 ≤ l ≤ RLIM_INFINITY → from_ticks (to_ticks l) = shown RLIMIT_CPU l.
Proof.
  intros Hl. unfold from_ticks, to_ticks, shown, RLIM_INFINITY, hz in *. simpl.
  change (2147483647 `quot` 200) with 10737418. destruct (Z.leb_spec 10737418 l); [done|].
  rewrite s32_id by lia. rewrite (proj2 (Z.eqb_neq _ _)) by lia. simpl. by rewrite Z.quot_mul by lia.
Qed.

(** A resource limit that setrlimit accepts is the one getrlimit then
    reports (processor time beyond what ticks can hold becomes infinite);
    accepted is any limit within the hard limit in force, and any limit at all
    from the super-user. *)
Theorem rlimit_roundtrip (s : kern) (which a b c m : Z) (old : rlimit) :
  let stored l := if which =? RLIMIT_CPU then to_ticks l else l in
  0 ≤ which < RLIM_NLIMITS → length (u_rlimit (u s)) = 6%nat → u_rlimit (u s) !! Z.to_nat which = Some old →
  load_words (umem s) a 2 = [c; m] → 0 ≤ c ≤ RLIM_INFINITY → 0 ≤ m ≤ RLIM_INFINITY →
  baduaddr a = false → baduaddr (u32 (a + 7)) = false → baduaddr b = false → baduaddr (u32 (b + 7)) = false →
  wp (setrlimit which a) (λ _ s1,
    if bool_decide (u_uid (u s) = 0 ∨ stored c ≤ rlim_max old ∧ stored m ≤ rlim_max old) then
      u_error (u s1) = 0 ∧
      wp (getrlimit which b) (λ _ s2, u_error (u s2) = 0 ∧ load_words (umem s2) b 2 = [shown which c; shown which m]) s1
    else u_rlimit (u s1) = u_rlimit (u s) ∧ u_error (u s1) = EPERM) s.
Proof.
  intros stored Hw Hl Ho Hld Hc Hm A1 A2 B1 B2. unfold RLIM_NLIMITS in Hw.
  assert (Ew : u32 which = which) by (apply u32_id; lia).
  assert (El : (RLIM_NLIMITS <=? which) = false) by (unfold RLIM_NLIMITS; lia).
  unfold setrlimit. rewrite Ew, El. apply wp_bind, wp_gets. apply wp_bind.
  eapply wp_lift; [unfold rdz; rewrite (proj2 (Z.leb_le 0 which)) by lia; by apply rd_Done|]. apply wp_bind.
  unfold copyin. change (4 * Z.of_nat 2 - 1) with 7. replace (a + 4 * Z.of_nat 2 - 1) with (a + 7) by lia.
  rewrite A1, A2. cbn [orb]. wp_go. rewrite Hld. apply wp_bind, wp_setu.
  unfold RLIM_INFINITY in *. rewrite !s32_id by lia. cbn [rlim_cur rlim_max].
  set (new := Rlimit (stored c) (stored m)).
  replace (if which =? RLIMIT_CPU then Rlimit (to_ticks c) (to_ticks m) else Rlimit c m) with new
    by (unfold new, stored; by destruct (which =? RLIMIT_CPU)).
  change (rlim_cur new) with (stored c). change (rlim_max new) with (stored m).
  assert (HS : ∀ l, 0 ≤ l ≤ 2147483647 →
    u32 (if which =? RLIMIT_CPU then from_ticks (stored l) else stored l) = shown which l).
  { intros l Hlr. unfold stored. destruct (Z.eqb_spec which RLIMIT_CPU) as [->|Hne].
    - rewrite ticks_shown by done. apply u32_id. unfold shown, RLIM_INFINITY. destruct (_ && _); lia.
    - unfold shown. rewrite (proj2 (Z.eqb_neq _ _) Hne). simpl. apply u32_id. lia. }
  assert (HG : ∀ s1, u_error (u s1) = 0 → u_rlimit (u s1) = <[Z.to_nat which := new]> (u_rlimit (u s)) →
    wp (getrlimit which b) (λ _ s2, u_error (u s2) = 0 ∧ load_words (umem s2) b 2 = [shown which c; shown which m]) s1).
  { intros s1 He Hr. unfold getrlimit. rewrite Ew, El. apply wp_bind, wp_gets. apply wp_bind. rewrite Hr.
    eapply wp_lift.
    { unfold rdz. rewrite (proj2 (Z.leb_le 0 which)) by lia. apply rd_Done. apply list_lookup_insert_eq. lia. }
    apply wp_bind. unfold copyout. cbn [length]. replace (b + 4 * Z.of_nat 2 - 1) with (b + 7) by lia.
    rewrite B1, B2. cbn [orb]. wp_go. apply wp_setu. split; [done|]. fields.
    rewrite (load_store _ [_; _]). f_equal; [|f_equal]; [rewrite <- (HS c)|rewrite <- (HS m)]; try done;
      by destruct (which =? RLIMIT_CPU). }
  assert (HOK : wp (l ← lift (wrz (u_rlimit (u s)) which new); setu (λ v, v<|u_rlimit := l|>))
    (λ _ s1, u_error (u s1) = 0 ∧ wp (getrlimit which b) (λ _ s2, u_error (u s2) = 0 ∧
      load_words (umem s2) b 2 = [shown which c; shown which m]) s1) (s<|u ::= λ v, v<|u_error := 0|>|>)).
  { apply wp_bind. eapply wp_lift; [unfold wrz; rewrite (proj2 (Z.leb_le 0 which)) by lia; apply wr_Done; lia|].
    apply wp_setu. split; [done|]. by apply HG. }
  apply wp_bind. destruct ((rlim_max old <? stored c) || (rlim_max old <? stored m)) eqn:Ex.
  - apply wp_suser; fields; intros Hu; simpl.
    + rewrite bool_decide_eq_true_2 by auto. exact HOK.
    + rewrite bool_decide_eq_false_2 by lia. by apply wp_ret.
  - apply wp_ret. simpl. rewrite bool_decide_eq_true_2 by (right; lia). exact HOK.
Qed.

(** ** Examples *)
Lemma setpriority_correct_witness :
  wp (setpriority PRIO_PROCESS 0 30) (λ _ s', ∃ x, procs s' !! 2%nat = Some x ∧ p_nice x = 20) (ex_kern 100).
Proof.
  eapply wp_mono.
  - refine (setpriority_correct (ex_kern 100) [2%nat; 1%nat; 0%nat] PRIO_PROCESS 0 30 (ex_prot_env 100) _ _ _ _ eq_refl).
    + do 3 (split; [done|]; eexists; split; [reflexivity|]). done.
    + refine (bool_decide_unpack _ _). vm_compute. exact I.
    + intros i j x y Hi Hj. rewrite !elem_of_cons, elem_of_nil in Hi, Hj.
      destruct Hi as [->|[->|[->|[]]]], Hj as [->|[->|[->|[]]]]; intros Hx Hy; injection Hx as <-; injection Hy as <-; done.
    + apply list_elem_of_here.
  - intros [] s' [HP _ _ _ _]. eexists. split; [apply HP; reflexivity|]. reflexivity.
Defined.
Lemma rlimit_roundtrip_witness :
  wp (setrlimit 0 0x7f008000) (λ _ s1, wp (getrlimit 0 0x7f009000)
    (λ _ s2, load_words (umem s2) 0x7f009000 2 = [60; RLIM_INFINITY]) s1)
    ((ex_kern 100)<|umem := {[ 0x7f008000 := 60; 0x7f008004 := 20000000 ]}|>).
Proof.
  eapply wp_mono.
  - refine (rlimit_roundtrip ((ex_kern 100)<|umem := {[ 0x7f008000 := 60; 0x7f008004 := 20000000 ]}|>)
      0 0x7f008000 0x7f009000 60 20000000 (Rlimit (2^31 - 1) (2^31 - 1)) _ _ _ _ _ _ _ _ _ _); try reflexivity;
      unfold RLIM_NLIMITS, RLIM_INFINITY; lia.
  - intros [] s1. rewrite bool_decide_eq_true_2 by (right; split; vm_compute; discriminate). intros [_ HW].
    eapply wp_mono; [exact HW|]. by intros [] s2 [_ ->].
Defined.
