(* ===== verification/Time.v ===== *)
(** * The time of day and interval timers

    kernel/kern_time.c: the calls that read and set the clock and the timers
    of the process. *)
From stdpp Require Import base tactics list option strings numbers gmap.
From S2P Require Import Prelude Proc Prot Resource.
Open Scope Z_scope.

Definition ITIMER_REAL : Z := 0.
Definition ITIMER_PROF : Z := 2.

(** [struct timeval] *)
Record timeval := Timeval { tv_sec : Z; tv_usec : Z }.
#[global] Instance eta_timeval : Eta timeval := λ t, Timeval (tv_sec t) (tv_usec t).

(** The clock beside the kernel's processes; [u_timer] is of the running
    process.  (The seconds of [time] are also in [time_sec], which the calls
    that look at them there read.) *)
Record tod := Tod {
  tk : kern;
  time : timeval;
  lbolt : Z;
  boottime : Z;
  tz : list Z;
  adjdelta : Z;
  u_timer : list k_itimerval }.
#[global] Instance eta_tod : Eta tod := λ t, Tod (tk t) (time t) (lbolt t) (boottime t) (tz t) (adjdelta t) (u_timer t).
Notation T := (K tod).

Definition on_tk {A} (m : M A) : T A := λ t,
  match m (tk t) with Done (x, s) => Done (x, t<|tk := s|>) | Panic e => Panic e | Wild => Wild | Spin => Spin end.
Definition error (e : Z) : T unit := on_tk (set_error e).
(** [u.u_error = copyin (...)] of a structure of [n] longs; [None] after an
    error. *)
Definition fetch (a : Z) (n : nat) : T (option (list Z)) :=
  r ← on_tk (copyin a n);
  match r with inl e => error e;; mret None | inr l => error 0;; mret (Some (s32 <$> l)) end.
(** [u.u_error = copyout (...)]; is it 0? *)
Definition deliver (l : list Z) (a : Z) : T bool :=
  e ← on_tk (copyout (u32 <$> l) a); error e;; mret (e =? 0).

(** ** The time of day *)
Definition setthetime (tv : timeval) : T unit :=
  ok ← on_tk suser;
  if negb ok then mret tt
  else
    modify (λ t, t<|boottime ::= λ b, s32 (b + (tv_sec tv - tv_sec (time t)))|>);;
    modify (λ t, t<|time := tv|>);;
    modify (λ t, t<|lbolt := tv_usec tv `quot` usechz|>).

Definition gettimeofday (tp tzp : Z) : T unit :=
  ok ← (if tp =? 0 then mret true
        else
          atv ← gets time;
          ms ← gets (λ t, u32 (lbolt t));
          deliver [tv_sec atv; s32 (s32 ms * usechz)] tp);
  if negb ok then mret tt
  else if tzp =? 0 then mret tt
  else z ← gets tz; deliver z tzp;; mret tt.

Definition settimeofday (tv tzp : Z) : T unit :=
  ok ← (if tv =? 0 then mret true
        else
          r ← fetch tv 2;
          match r with
          | Some [s; us] => setthetime (Timeval s us);; e ← gets (λ t, u_error (u (tk t))); mret (e =? 0)
          | _ => mret false
          end);
  if negb ok then mret tt
  else if tzp =? 0 then mret tt
  else
    ok ← on_tk suser;
    if negb ok then mret tt
    else r ← fetch tzp 2; match r with Some z => modify (λ t, t<|tz := z|>) | None => mret tt end.

(** [while (lbolt >= hz) { lbolt -= hz; ++time.tv_sec; }] *)
Fixpoint carry (fuel : nat) : T unit :=
  l ← gets lbolt;
  if hz <=? l then
    match fuel with
    | O => lift Spin
    | S fuel => modify (λ t, t<|lbolt := l - hz|><|time ::= λ v, v<|tv_sec := s32 (tv_sec v + 1)|>|>);; carry fuel
    end
  else mret tt.
Definition adjtime (delta olddelta : Z) : T unit :=
  ok ← on_tk suser;
  if negb ok then mret tt
  else
    r ← fetch delta 2;
    match r with
    | Some [s; us] =>
        let adjust := s32 (s32 (s * hz) + us `quot` usechz) in
        (* if unstoreable values, just set the clock *)
        if (0x7fff <? adjust) || (adjust <? 0x8000) then
          modify (λ t, t<|time ::= λ v, v<|tv_sec := s32 (tv_sec v + s)|>|>);;
          modify (λ t, t<|lbolt := s32 (lbolt t + us `quot` usechz)|>);;
          l ← gets lbolt; carry (Z.to_nat l);;
          if olddelta =? 0 then mret tt else deliver [0; 0] olddelta;; mret tt
        else if olddelta =? 0 then modify (λ t, t<|adjdelta := adjust|>)
        else
          d ← gets adjdelta;
          modify (λ t, t<|adjdelta := adjust|>);;
          deliver [d `quot` hz; (d `rem` hz) * usechz] olddelta;; mret tt
    | _ => mret tt
    end.

(** ** Interval timers *)
Definition getitimer (which itv : Z) : T unit :=
  if ITIMER_PROF <? u32 which then error EINVAL
  else
    k ← (if u32 which =? ITIMER_REAL then x ← on_tk (c ← curproc; at_ c); mret (it_interval (p_realtimer x), it_value (p_realtimer x))
         else l ← gets u_timer; t ← lift (rdz l (u32 which - 1)); mret (it_interval t `quot` hz, it_value t `quot` hz));
    deliver [k.1; 0; k.2; 0] itv;; mret tt.

(** A count of seconds from a [timeval], rounded up. *)
Definition whole (s us : Z) : Z := if us =? 0 then s else s32 (s + 1).
Definition ticks (s us : Z) : Z := if us =? 0 then s32 (s * hz) else s32 (s32 (s * hz) + hz).
Definition setitimer (which itv oitv : Z) : T unit :=
  if ITIMER_PROF <? u32 which then error EINVAL
  else
    (if oitv =? 0 then mret tt else getitimer which oitv);;
    if itv =? 0 then mret tt
    else
      r ← fetch itv 4;
      match r with
      | Some [is_; ius; vs; vus] =>
          if u32 which =? ITIMER_REAL then
            on_tk (c ← curproc; setp c (λ x, x<|p_realtimer := Itimer (whole is_ ius) (whole vs vus)|>))
          else
            l ← gets u_timer;
            l ← lift (wrz l (u32 which - 1) (Itimer (ticks is_ ius) (ticks vs vus)));
            modify (λ t, t<|u_timer := l|>)
      | _ => mret tt
      end.

(** The value of a timer that is acceptable, rounded up to what the clock can
    tell; [None]: [EINVAL]. *)
Definition itimerfix (tv : timeval) : option timeval :=
  if (tv_sec tv <? 0) || (100000000 <? tv_sec tv) || (tv_usec tv <? 0) || (1000000 <=? tv_usec tv) then None
  else if (tv_sec tv =? 0) && negb (tv_usec tv =? 0) && (tv_usec tv <? 1000 `quot` hz) then Some (tv<|tv_usec := 1000 `quot` hz|>)
  else Some tv.

Definition tvfix (t : timeval) : timeval :=
  let t := if tv_usec t <? 0 then Timeval (s32 (tv_sec t - 1)) (tv_usec t + 1000000) else t in
  if 1000000 <=? tv_usec t then Timeval (s32 (tv_sec t + 1)) (tv_usec t - 1000000) else t.
Definition timevaladd (t1 t2 : timeval) : timeval := tvfix (Timeval (s32 (tv_sec t1 + tv_sec t2)) (s32 (tv_usec t1 + tv_usec t2))).

(** ** Rules *)
Section Rules.
Implicit Types (t : tod).

Lemma wp_on_tk {A} (m : M A) (Q : A → tod → Prop) t : wp m (λ x s, Q x (t<|tk := s|>)) (tk t) → wp (on_tk m) Q t.
Proof. unfold wp, on_tk. by destruct (m (tk t)) as [[x s]| | |]. Qed.

Definition with_error (e : Z) t : tod := t<|tk ::= λ s, s<|u ::= λ v, v<|u_error := e|>|>|>.
Definition bad (a : Z) (n : nat) : bool := baduaddr a || baduaddr (u32 (a + 4 * Z.of_nat n - 1)).
Definition privileged t : Prop := u_uid (u (tk t)) = 0.

Lemma wp_error e (Q : unit → tod → Prop) t : Q tt (with_error e t) → wp (error e) Q t.
Proof. intros HQ. unfold error. apply wp_on_tk, wp_setu. by destruct t. Qed.
Lemma wp_tsuser (Q : bool → tod → Prop) t : (privileged t → Q true t) → (¬ privileged t → Q false (with_error EPERM t)) → wp (on_tk suser) Q t.
Proof.
  intros H1 H2. apply wp_on_tk, wp_suser; intros Hu; [|by destruct t; apply H2]. specialize (H1 Hu). by destruct t.
Qed.
Lemma wp_tfetch a n (Q : option (list Z) → tod → Prop) t :
  (bad a n = true → Q None (with_error EFAULT t)) → (bad a n = false → Q (Some (s32 <$> load_words (umem (tk t)) a n)) (with_error 0 t)) →
  wp (fetch a n) Q t.
Proof.
  intros H1 H2. unfold fetch. apply wp_bind, wp_on_tk. unfold copyin. fold (bad a n). destruct (bad a n).
  - apply wp_ret. apply wp_bind, wp_error, wp_ret. destruct t. by apply H1.
  - apply wp_bind, wp_gets, wp_ret. apply wp_bind, wp_error, wp_ret. destruct t. by apply H2.
Qed.
Lemma wp_deliver l a (Q : bool → tod → Prop) t :
  (bad a (length l) = true → Q false (with_error EFAULT t)) →
  (bad a (length l) = false → Q true (with_error 0 (t<|tk ::= λ s, s<|umem ::= λ m, store_words m a (u32 <$> l)|>|>))) →
  wp (deliver l a) Q t.
Proof.
  intros H1 H2. unfold deliver. apply wp_bind, wp_on_tk. unfold copyout. rewrite length_fmap. fold (bad a (length l)). destruct (bad a (length l)).
  - apply wp_ret. apply wp_bind, wp_error, wp_ret. destruct t. by apply H1.
  - apply wp_bind, wp_modify, wp_ret. apply wp_bind, wp_error, wp_ret. destruct t. by apply H2.
Qed.
End Rules.

(** ** The clock *)
Definition clock_of (t : tod) := (time t, lbolt t, boottime t, adjdelta t, u_timer t).
(** The clock in ticks. *)
Definition now (t : tod) : Z := tv_sec (time t) * hz + lbolt t.

Lemma u32_s32_id x : 0 ≤ x < 2^31 → u32 (s32 x) = x.
Proof. intros Hx. rewrite s32_id by lia. apply u32_id. lia. Qed.
Lemma ticks_usec us : 0 ≤ us < 1000000 → 0 ≤ us `quot` usechz < hz ∧ us `quot` usechz * usechz = us - us mod 5000.
Proof.
  intros Hus. change usechz with 5000. rewrite Z.quot_div_nonneg by lia. unfold hz. pose proof (Z.div_mod us 5000 ltac:(lia)). pose proof (Z.mod_pos_bound us 5000 ltac:(lia)).
  split; [|lia]. split; [apply Z.div_pos; lia|apply Z.div_lt_upper_bound; lia].
Qed.

Lemma wp_carry fuel : ∀ t, 0 ≤ tv_sec (time t) → tv_sec (time t) + lbolt t < 2^31 → lbolt t < Z.of_nat fuel + hz →
  wp (carry fuel) (λ _ t', now t' = now t ∧ lbolt t' < hz ∧ t' = t<|time := time t'|><|lbolt := lbolt t'|>) t.
Proof.
  induction fuel as [|fuel IH]; intros t Hs Hn Hf; cbn [carry]; apply wp_bind, wp_gets; destruct (Z.leb_spec hz (lbolt t)) as [Hl|Hl].
  1: lia.
  1, 3: apply wp_ret; split_and!; [done|done|by destruct t].
  apply wp_bind, wp_modify. set (t1 := t<|lbolt := _|><|time ::= _|>). unfold hz, now in *.
  assert (E : tv_sec (time t1) = tv_sec (time t) + 1) by (unfold t1; fields; apply s32_id; lia). assert (El : lbolt t1 = lbolt t - 200) by done.
  eapply wp_mono; [apply IH; unfold now, hz in *; lia|]. intros [] t' (H1 & H2 & H3). unfold now, hz in *. split_and!; [lia|done|]. rewrite H3 at 1. unfold t1. by destruct t.
Qed.

(** The clock keeps the time it is set to.  What the super-user sets with
    settimeofday, gettimeofday then returns, the microseconds rounded down to a
    tick, and how long the system has been up stays as it was; for anybody else
    the error is [EPERM] and the clock does not change. *)
Theorem timeofday_roundtrip (t : tod) (a b s us : Z) :
  a ≠ 0 → b ≠ 0 → bad a 2 = false → bad b 2 = false → load_words (umem (tk t)) a 2 = [s; us] → 0 ≤ s < 2^31 → 0 ≤ us < 1000000 →
  wp (settimeofday a 0) (λ _ t1,
    if bool_decide (privileged t) then
      u_error (u (tk t1)) = 0 ∧ boottime t1 = s32 (boottime t + (s - tv_sec (time t))) ∧
      wp (gettimeofday b 0) (λ _ t2, u_error (u (tk t2)) = 0 ∧ load_words (umem (tk t2)) b 2 = [s; us - us mod 5000] ∧ clock_of t2 = clock_of t1) t1
    else u_error (u (tk t1)) = EPERM ∧ clock_of t1 = clock_of t) t.
Proof.
  intros Ha Hb Ba Bb Hld Hs Hus. unfold settimeofday. rewrite (proj2 (Z.eqb_neq a 0)) by done. apply wp_bind, wp_bind, wp_tfetch; [congruence|]. intros _.
  rewrite Hld. simpl. rewrite !s32_id by lia. apply wp_bind. unfold setthetime. apply wp_bind, wp_tsuser; intros Hp.
  - simpl. apply wp_bind, wp_modify, wp_bind, wp_modify, wp_modify. apply wp_bind, wp_gets. fields. apply wp_ret. simpl. apply wp_ret.
    change (privileged t) in Hp. rewrite bool_decide_eq_true_2 by done. split; [done|]. split; [done|].
    destruct (ticks_usec us Hus) as [T1 T2]. unfold gettimeofday. rewrite (proj2 (Z.eqb_neq b 0)) by done. apply wp_bind, wp_bind, wp_gets. apply wp_bind, wp_gets. fields.
    apply wp_deliver; [simpl; congruence|]. intros _. simpl. apply wp_ret. split; [done|]. split; [|done]. fields. unfold hz in T1.
    assert (E : s32 (s32 (u32 (us `quot` usechz)) * usechz) = us - us mod 5000).
    { rewrite u32_id, (s32_id (us `quot` usechz)), T2, s32_id; [done|..]; pose proof (Z.mod_pos_bound us 5000 ltac:(lia)); lia. }
    rewrite E. etrans; [exact (load_store _ (u32 <$> [s; us - us mod 5000]) b)|]. simpl. pose proof (Z.mod_pos_bound us 5000 ltac:(lia)).
    pose proof (Z.mod_le us 5000 ltac:(lia) ltac:(lia)). rewrite !u32_id by lia. done.
  - simpl. apply wp_ret. apply wp_bind, wp_gets. fields. apply wp_ret. simpl. apply wp_ret. change (¬ privileged t) in Hp. by rewrite bool_decide_eq_false_2.
Qed.

(** C39. adjtime never slews the clock.  Whatever the correction, however
    small, the clock is stepped by it at once and [adjdelta], from which the
    clock interrupt would work off a correction a tick at a time, stays as it
    is; the correction reported as outstanding is 0.  (The test for a
    correction too large to store compares with 0x8000, which every correction
    that is not too large is below.) *)
Theorem adjtime_steps (t : tod) (delta old s us : Z) :
  privileged t → bad delta 2 = false → s32 <$> load_words (umem (tk t)) delta 2 = [s; us] → -1000000 < us < 1000000 →
  0 ≤ tv_sec (time t) + s → tv_sec (time t) + s < 2^31 - 1000 → 0 ≤ lbolt t < hz →
  wp (adjtime delta old) (λ _ t', now t' = now t + s * hz + us `quot` usechz ∧ adjdelta t' = adjdelta t ∧
    (old ≠ 0 → bad old 2 = false → load_words (umem (tk t')) old 2 = [0; 0])) t.
Proof.
  intros Hp Hb Hld Hus Hs Hs2 Hl. unfold adjtime. apply wp_bind, wp_tsuser; intros Hp'; [|done]. simpl. apply wp_bind, wp_tfetch; [congruence|]. intros _. rewrite Hld.
  set (adjust := s32 (s32 (s * hz) + us `quot` usechz)).
  assert (Et : (0x7fff <? adjust) || (adjust <? 0x8000) = true) by (destruct (Z.ltb_spec 32767 adjust), (Z.ltb_spec adjust 32768); try done; lia). rewrite Et.
  assert (Hq : -200 < us `quot` usechz < 200).
  { destruct (decide (0 ≤ us)) as [Hu|Hu]; [destruct (ticks_usec us ltac:(lia)) as [Hu' _]; unfold hz in Hu'; lia|].
    destruct (ticks_usec (- us) ltac:(lia)) as [Hu' _]. change usechz with 5000 in *. rewrite Z.quot_opp_l in Hu' by lia. unfold hz in Hu'. lia. }
  unfold hz in Hl. apply wp_bind, wp_modify, wp_bind, wp_modify. match goal with |- wp _ _ ?t' => set (t1 := t') end.
  assert (E1 : lbolt t1 = lbolt t + us `quot` usechz) by (unfold t1; fields; apply s32_id; lia).
  assert (E2 : tv_sec (time t1) = tv_sec (time t) + s) by (unfold t1; fields; apply s32_id; lia).
  apply wp_bind, wp_gets. apply wp_bind. eapply wp_mono; [apply wp_carry; rewrite ?E1, ?E2; unfold hz; lia|]. intros [] t2 (N2 & L2 & F2).
  assert (EN : now t2 = now t + s * hz + us `quot` usechz) by (rewrite N2; unfold now; rewrite E1, E2; lia).
  assert (EA : adjdelta t2 = adjdelta t) by (by rewrite F2).
  destruct (Z.eqb_spec old 0) as [->|Ho]; [apply wp_ret; by split_and!|].
  apply wp_bind, wp_deliver; intros Hbo; apply wp_ret; (split; [exact EN|]); (split; [exact EA|]); intros _ Hbo'; [simpl in Hbo; congruence|].
  fields. exact (load_store _ (u32 <$> [0; 0]) old).
Qed.

(** ** Timers *)
Definition ceil (s us : Z) : Z := if us =? 0 then s else s + 1.
Lemma timer_ceil s us : 0 ≤ s < 10000000 → 0 ≤ us < 1000000 → whole s us = ceil s us ∧ ticks s us `quot` hz = ceil s us ∧ 0 ≤ ceil s us < 2^31.
Proof.
  intros Hs Hus. unfold whole, ticks, ceil, hz. destruct (us =? 0).
  - rewrite s32_id by lia. split_and!; [done|by apply Z.quot_mul|lia|lia].
  - rewrite !s32_id by (rewrite ?s32_id; lia). split_and!; [done| |lia|lia]. replace (s * 200 + 200) with ((s + 1) * 200) by lia. by apply Z.quot_mul.
Qed.

(** The timers hold what they are given: after setitimer, for each of the
    three timers, getitimer returns the interval and the value that were set,
    in seconds, with a fraction rounded up. *)
Theorem itimer_roundtrip (t : tod) (which a b is_ ius vs vus : Z) (x : proc) :
  0 ≤ which ≤ ITIMER_PROF → a ≠ 0 → bad a 4 = false → bad b 4 = false → load_words (umem (tk t)) a 4 = [is_; ius; vs; vus] →
  0 ≤ is_ < 10000000 → 0 ≤ ius < 1000000 → 0 ≤ vs < 10000000 → 0 ≤ vus < 1000000 →
  length (u_timer t) = 2%nat → procs (tk t) !! u_procp (u (tk t)) = Some x →
  wp (setitimer which a 0;; getitimer which b) (λ _ t', u_error (u (tk t')) = 0 ∧
    load_words (umem (tk t')) b 4 = [ceil is_ ius; 0; ceil vs vus; 0]) t.
Proof.
  intros Hw Ha Ba Bb Hld H1 H2 H3 H4 Hlen Hx. unfold ITIMER_PROF in Hw.
  assert (Ew : u32 which = which) by (apply u32_id; lia). assert (El : (ITIMER_PROF <? which) = false) by (unfold ITIMER_PROF; lia).
  destruct (timer_ceil is_ ius H1 H2) as (A1 & A2 & A3), (timer_ceil vs vus H3 H4) as (B1 & B2 & B3).
  assert (HD : ∀ t1 y z, y = ceil is_ ius → z = ceil vs vus →
    wp (deliver [y; 0; z; 0] b;; mret tt) (λ _ t', u_error (u (tk t')) = 0 ∧ load_words (umem (tk t')) b 4 = [ceil is_ ius; 0; ceil vs vus; 0]) t1).
  { intros t1 y z -> ->. apply wp_bind, wp_deliver; [simpl; congruence|]. intros _. apply wp_ret. split; [done|]. fields.
    etrans; [exact (load_store _ (u32 <$> [ceil is_ ius; 0; ceil vs vus; 0]) b)|]. simpl. by rewrite !(u32_id (ceil _ _)) by lia. }
  apply wp_bind. unfold setitimer. rewrite Ew, El. apply wp_bind, wp_ret. rewrite (proj2 (Z.eqb_neq a 0)) by done.
  apply wp_bind, wp_tfetch; [congruence|]. intros _. rewrite Hld. simpl. rewrite !s32_id by lia.
  unfold getitimer. rewrite Ew, El. destruct (Z.eqb_spec which ITIMER_REAL) as [E|E].
  - apply wp_on_tk, wp_bind. unfold curproc. apply wp_gets. eapply wp_setp; [exact Hx|].
    apply wp_bind, wp_bind, wp_on_tk, wp_bind, wp_gets. eapply wp_at; [fields; apply list_lookup_insert_eq; by eapply lookup_lt_Some|]. apply wp_ret. fields. by apply HD.
  - apply wp_bind, wp_gets. assert (Hk : (Z.to_nat (which - 1) < length (u_timer t))%nat) by (unfold ITIMER_REAL in E; lia). apply wp_bind.
    eapply wp_lift; [unfold wrz; rewrite (proj2 (Z.leb_le 0 _)) by (unfold ITIMER_REAL in E; lia); by apply wr_Done|]. apply wp_modify.
    apply wp_bind, wp_bind, wp_gets. apply wp_bind.
    eapply wp_lift; [unfold rdz; rewrite (proj2 (Z.leb_le 0 _)) by (unfold ITIMER_REAL in E; lia); apply rd_Done; fields; by apply list_lookup_insert_eq|].
    apply wp_ret. simpl. by apply HD.
Qed.

(** ** Examples *)
Definition ex_words (m : list (Z * Z)) (uid : Z) : tod :=
  Tod ((ex_kern uid)<|umem := list_to_map m|>) (Timeval 1000 0) 0 900 [0; 0] 0 [Itimer 0 0; Itimer 0 0].
Lemma timeofday_roundtrip_witness :
  wp (settimeofday 0x7f008000 0) (λ _ t1, wp (gettimeofday 0x7f008010 0) (λ _ t2, load_words (umem (tk t2)) 0x7f008010 2 = [5000; 120000]) t1)
    (ex_words [(0x7f008000, 5000); (0x7f008004, 123456)] 0).
Proof.
  eapply wp_mono; [apply (timeofday_roundtrip _ 0x7f008000 0x7f008010 5000 123456); vm_compute; (reflexivity || (split; congruence) || congruence)|].
  intros [] t1. rewrite bool_decide_eq_true_2 by reflexivity. intros (_ & _ & HW). eapply wp_mono; [exact HW|]. intros [] t2 (_ & HL & _). exact HL.
Defined.
Lemma adjtime_steps_witness :
  wp (adjtime 0x7f008000 0) (λ _ t', now t' = 200011 ∧ adjdelta t' = 0) (ex_words [(0x7f008000, 0); (0x7f008004, 55000)] 0).
Proof.
  eapply wp_mono; [apply (adjtime_steps (ex_words [(0x7f008000, 0); (0x7f008004, 55000)] 0) 0x7f008000 0 0 55000); vm_compute; (reflexivity || (split; congruence) || congruence)|].
  intros [] t' (E1 & E2 & _). split; [exact E1|exact E2].
Defined.
Lemma itimer_roundtrip_witness :
  wp (setitimer 1 0x7f008000 0;; getitimer 1 0x7f008010) (λ _ t', load_words (umem (tk t')) 0x7f008010 4 = [0; 0; 3; 0])
    (ex_words [(0x7f008000, 0); (0x7f008004, 0); (0x7f008008, 2); (0x7f00800c, 1)] 100).
Proof.
  eapply wp_mono; [eapply (itimer_roundtrip _ 1 0x7f008000 0x7f008010 0 0 2 1); vm_compute; (reflexivity || (split; congruence) || congruence)|].
  intros [] t' [_ E]. exact E.
Defined.
