(* ===== verification/Msglog.v ===== *)
(** * The message log

    kernel/subr_log.c: the ring of bytes that kernel messages are written to
    and that the device /dev/klog reads. *)
From stdpp Require Import base tactics list option strings numbers gmap.
From S2P Require Import Prelude Proc Prot Synch Signal.
Open Scope Z_scope.

Definition MSG_MAGIC : Z := 0x063061.
Definition MSG_BSIZE : Z := 2048.
Definition LOG_OPEN : Z := 0x01.
Definition LOG_ASYNC : Z := 0x04.
Definition LOG_RDWAIT : Z := 0x08.
Definition IO_NDELAY : Z := 0x10.
Definition FREAD : Z := 1.
Definition SIGIO : Z := 23.
Definition ENODEV : Z := 19.
Definition EBUSY : Z := 16.
Definition EWOULDBLOCK : Z := 35.
Definition FIONREAD : Z := 0x40046661.
Definition FIONBIO : Z := 0x80046660.
Definition FIOASYNC : Z := 0x8004665f.
Definition TIOCSPGRP : Z := 0x80047476.
Definition TIOCGPGRP : Z := 0x40047477.

Record msgbuf := Msgbuf { msg_magic : Z; msg_bufx : Z; msg_bufr : Z; msg_bufc : list Z }.
#[global] Instance eta_msgbuf : Eta msgbuf := λ m, Msgbuf (msg_magic m) (msg_bufx m) (msg_bufr m) (msg_bufc m).
Record logsoftc := Softc { sc_state : Z; sc_selp : option nat; sc_pgid : Z; sc_overrun : Z }.
#[global] Instance eta_softc : Eta logsoftc := λ c, Softc (sc_state c) (sc_selp c) (sc_pgid c) (sc_overrun c).

(** There is one log ([NLOG]), beside the kernel's processes. *)
Record klog := Klog { lk : kern; mb : msgbuf; sc : logsoftc }.
#[global] Instance eta_klog : Eta klog := λ s, Klog (lk s) (mb s) (sc s).
Notation L := (K klog).
Definition on_lk {A} (m : M A) : L A := λ t,
  match m (lk t) with Done (x, s) => Done (x, t<|lk := s|>) | Panic e => Panic e | Wild => Wild | Spin => Spin end.
Definition minor (dev : Z) : Z := Z.land dev 255.
(** [logsoftc[unit]] and [msgbuf[unit]] *)
Definition in_range (unit : Z) : L () := if unit =? 0 then mret tt else lift Wild.
Definition set_state (f : Z → Z) : L () := modify (λ s, s<|sc ::= λ c, c<|sc_state ::= f|>|>).

(** [sleep] on the log, and [selwakeup] of a process that selects. *)
Class LogOps := { log_nap : L (); selwakeup : nat → L () }.

Section Log.
Context `{Layout} `{LogOps}.

Definition loginit : L () :=
  modify (λ s, s<|mb ::= λ m, m<|msg_magic := MSG_MAGIC|><|msg_bufr := 0|><|msg_bufx := 0|>|>).

Definition logisopen (unit : Z) : L bool := in_range unit;; gets (λ s, has (sc_state (sc s)) LOG_OPEN).
(** (A buffer is always allocated.) *)
Definition logopen (dev mode : Z) : L Z :=
  let unit := minor dev in
  if 1 <=? unit then mret ENODEV
  else
    o ← logisopen unit;
    if (o : bool) then mret EBUSY
    else
      set_state (λ f, Z.lor f LOG_OPEN);;
      x ← on_lk (c ← curproc; at_ c);
      modify (λ s, s<|sc ::= λ c, c<|sc_pgid := p_pid x|>|>);;
      modify (λ s, s<|sc ::= λ c, c<|sc_overrun := 0|>|>);;
      mret 0.
Definition logclose (dev : Z) : L Z := in_range (minor dev);; set_state (λ _, 0);; mret 0.

(** ** Reading *)

(** The wait for a message; [false]: the call would block. *)
Fixpoint log_await (fuel : nat) (flag : Z) : L bool :=
  m ← gets mb;
  if msg_bufr m =? msg_bufx m then
    if has flag IO_NDELAY then mret false
    else
      match fuel with
      | O => lift Spin
      | S fuel => set_state (λ f, Z.lor f LOG_RDWAIT);; log_nap;; log_await fuel flag
      end
  else mret true.
(** The bytes that are moved to the program, at most [resid] ([uiomove] never
    fails). *)
Fixpoint log_move (fuel : nat) (resid : Z) : L (list Z) :=
  if resid =? 0 then mret []
  else
    m ← gets mb;
    let l := msg_bufx m - msg_bufr m in
    if l =? 0 then mret []
    else
      match fuel with
      | O => lift Spin
      | S fuel =>
          let l := if l <? 0 then MSG_BSIZE - msg_bufr m else l in
          if l =? 0 then modify (λ s, s<|mb ::= λ m, m<|msg_bufr := 0|>|>);; log_move fuel resid
          else
            let l := Z.min (Z.min l resid) 128 in
            buf ← lift (peek (msg_bufc m) (msg_bufr m) l);
            modify (λ s, s<|mb ::= λ m, m<|msg_bufr ::= λ r, r + l|>|>);;
            rest ← log_move fuel (resid - l);
            mret (buf ++ rest)
      end.
(** The error and the bytes moved; [k] bounds how often it sleeps. *)
Definition logread (k : nat) (dev resid flag : Z) : L (Z * list Z) :=
  in_range (minor dev);;
  go ← log_await k flag;
  if negb go then mret (EWOULDBLOCK, [])
  else
    set_state (λ f, bic f LOG_RDWAIT);;
    buf ← log_move (Z.to_nat MSG_BSIZE + 2) resid;
    mret (0, buf).

Definition logselect (dev rw : Z) : L Z :=
  in_range (minor dev);;
  if rw =? FREAD then
    m ← gets mb;
    if negb (msg_bufr m =? msg_bufx m) then mret 1
    else c ← on_lk curproc; modify (λ s, s<|sc ::= λ x, x<|sc_selp := Some c|>|>);; mret 0
  else mret 0.

(** ** Writing *)

(** The loop from the label [again]. *)
Fixpoint log_put (fuel : nat) (buf : list Z) : L () :=
  let len := Z.of_nat (length buf) in
  if len =? 0 then mret tt
  else
    match fuel with
    | O => lift Spin
    | S fuel =>
        m ← gets mb;
        infront ← (if MSG_BSIZE - msg_bufx m <=? 0 then
                     modify (λ s, s<|mb ::= λ m, m<|msg_bufx := 0|>|>);; mret (MSG_BSIZE - msg_bufr m)
                   else mret (MSG_BSIZE - msg_bufx m));
        m ← gets mb;
        let n := msg_bufr m - msg_bufx m in
        let writer := if n <? 0 then MSG_BSIZE - msg_bufx m + msg_bufr m else if n =? 0 then MSG_BSIZE else n in
        let infront := if 0 <? n then n else infront in
        if writer <? len then
          modify (λ s, s<|sc ::= λ c, c<|sc_overrun ::= λ x, s32 (x + 1)|>|>);;
          modify (λ s, s<|mb ::= λ m, m<|msg_bufx := msg_bufr m|>|>);;
          log_put fuel buf
        else
          let infront := if len <? infront then len else infront in
          c ← lift (poke (msg_bufc m) (msg_bufx m) (take (Z.to_nat infront) buf));
          modify (λ s, s<|mb ::= λ m, m<|msg_bufc := c|>|>);;
          modify (λ s, s<|mb ::= λ m, m<|msg_bufx ::= λ x, x + infront|>|>);;
          log_put fuel (drop (Z.to_nat infront) buf)
    end.
Definition logwrt (buf : list Z) (log : Z) : L Z :=
  in_range log;;
  m ← gets mb;
  if negb (msg_magic m =? MSG_MAGIC) || (MSG_BSIZE <? Z.of_nat (length buf)) then mret (-1)
  else log_put 4 buf;; mret 0.

Definition logwakeup (unit chan : Z) : L () :=
  o ← logisopen unit;
  if negb o then mret tt
  else
    c ← gets sc;
    match sc_selp c with
    | None => mret tt
    | Some p => selwakeup p;; modify (λ s, s<|sc ::= λ c, c<|sc_selp := None|>|>)
    end;;
    c ← gets sc; m ← gets mb;
    (if has (sc_state c) LOG_ASYNC && negb (msg_bufx m =? msg_bufr m) then
       if sc_pgid c <? 0 then on_lk (gsignal (- sc_pgid c) SIGIO)
       else p ← on_lk (pfind (sc_pgid c)); match p with Some p => on_lk (psignal p SIGIO) | None => mret tt end
     else mret tt);;
    c ← gets sc;
    if has (sc_state c) LOG_RDWAIT then on_lk (wakeup chan);; set_state (λ f, bic f LOG_RDWAIT) else mret tt.

(** The result and the caller's word. *)
Definition logioctl (dev com data : Z) : L (Z * Z) :=
  in_range (minor dev);;
  c ← gets sc;
  if com =? FIONREAD then
    m ← gets mb;
    let l := msg_bufx m - msg_bufr m in
    mret (0, if l <? 0 then l + MSG_BSIZE else l)
  else if com =? FIONBIO then mret (0, data)
  else if com =? FIOASYNC then set_state (λ f, if negb (data =? 0) then Z.lor f LOG_ASYNC else bic f LOG_ASYNC);; mret (0, data)
  else if com =? TIOCSPGRP then modify (λ s, s<|sc ::= λ c, c<|sc_pgid := data|>|>);; mret (0, data)
  else if com =? TIOCGPGRP then mret (0, sc_pgid c)
  else mret (-1, data).
End Log.

(** ** The ring as a queue *)
Section Ring.
Context `{Layout} `{LogOps}.
Implicit Types (m : msgbuf) (s : klog).

Definition stretch (c : list Z) (a b : Z) : list Z := take (Z.to_nat (b - a)) (drop (Z.to_nat a) c).
Definition content m : list Z :=
  if msg_bufr m <=? msg_bufx m then stretch (msg_bufc m) (msg_bufr m) (msg_bufx m)
  else stretch (msg_bufc m) (msg_bufr m) MSG_BSIZE ++ stretch (msg_bufc m) 0 (msg_bufx m).
Record ring_ok m : Prop := RingOk {
  ro_r : 0 ≤ msg_bufr m ≤ MSG_BSIZE;
  ro_x : 0 ≤ msg_bufx m ≤ MSG_BSIZE;
  ro_c : Z.of_nat (length (msg_bufc m)) = MSG_BSIZE }.

Lemma stretch_length c a b : 0 ≤ a ≤ b → b ≤ Z.of_nat (length c) → Z.of_nat (length (stretch c a b)) = b - a.
Proof. intros. unfold stretch. rewrite length_take, length_drop. lia. Qed.
Lemma stretch_nil c a : stretch c a a = [].
Proof. unfold stretch. by rewrite Z.sub_diag. Qed.
Lemma stretch_app c a b d : 0 ≤ a ≤ b → b ≤ d → stretch c a d = stretch c a b ++ stretch c b d.
Proof.
  intros H1 H2. unfold stretch. rewrite <- (take_drop (Z.to_nat (b - a)) (take (Z.to_nat (d - a)) (drop (Z.to_nat a) c))). f_equal.
  - rewrite take_take. f_equal. lia.
  - rewrite skipn_firstn_comm, drop_drop. f_equal; [lia|]. f_equal. lia.
Qed.
(** A stretch beside what is written, and what is written. *)
Lemma stretch_out c on ws a b : 0 ≤ a → (on + length ws ≤ length c)%nat → b ≤ Z.of_nat on ∨ Z.of_nat (on + length ws) ≤ a →
  stretch (splice c on ws) a b = stretch c a b.
Proof. intros Ha Hl Hd. apply splice_out; lia. Qed.
Lemma stretch_in c on ws : (on + length ws ≤ length c)%nat → stretch (splice c on ws) (Z.of_nat on) (Z.of_nat on + Z.of_nat (length ws)) = ws.
Proof. intros Hl. unfold stretch. rewrite Nat2Z.id. apply splice_in; lia. Qed.
Lemma content_length m : ring_ok m → Z.of_nat (length (content m)) =
  if msg_bufr m <=? msg_bufx m then msg_bufx m - msg_bufr m else MSG_BSIZE - msg_bufr m + msg_bufx m.
Proof.
  intros [R1 R2 R3]. unfold content. destruct (Z.leb_spec (msg_bufr m) (msg_bufx m)).
  - apply stretch_length; lia.
  - rewrite length_app, Nat2Z.inj_add, !stretch_length by lia. lia.
Qed.

(** Bytes go in at [msg_bufx]. *)
Definition with_bytes m (ws : list Z) : msgbuf :=
  m<|msg_bufc := splice (msg_bufc m) (Z.to_nat (msg_bufx m)) ws|><|msg_bufx := msg_bufx m + Z.of_nat (length ws)|>.
Lemma ring_with_bytes m ws : ring_ok m → msg_bufx m + Z.of_nat (length ws) ≤ MSG_BSIZE → ring_ok (with_bytes m ws).
Proof. intros [R1 R2 R3] Hl. split; unfold with_bytes; fields; [done|lia|]. rewrite splice_length by lia. done. Qed.
Lemma content_with_bytes m ws : ring_ok m → msg_bufx m + Z.of_nat (length ws) ≤ MSG_BSIZE →
  msg_bufr m ≤ msg_bufx m ∨ msg_bufx m + Z.of_nat (length ws) < msg_bufr m → content (with_bytes m ws) = content m ++ ws.
Proof.
  intros [R1 R2 R3] Hl Hd. unfold content, with_bytes. fields. set (x := msg_bufx m) in *. set (r := msg_bufr m) in *.
  assert (Hin : stretch (splice (msg_bufc m) (Z.to_nat x) ws) x (x + Z.of_nat (length ws)) = ws).
  { replace x with (Z.of_nat (Z.to_nat x)) at 2 3 by lia. apply stretch_in. lia. }
  destruct (Z.leb_spec r x) as [Hrx|Hrx].
  - rewrite (proj2 (Z.leb_le r (x + _))) by lia. rewrite (stretch_app _ r x) by lia. rewrite Hin, stretch_out by lia. done.
  - rewrite (proj2 (Z.leb_gt r (x + _))) by lia. rewrite (stretch_app _ 0 x (x + _)) by lia. rewrite Hin, !stretch_out by lia. by rewrite app_assoc.
Qed.
(** The writer goes back to the start. *)
Lemma content_wrap m : ring_ok m → msg_bufx m = MSG_BSIZE → 0 < msg_bufr m → content (m<|msg_bufx := 0|>) = content m.
Proof.
  intros [R1 R2 R3] Hx Hr. unfold content. fields. rewrite Hx, (proj2 (Z.leb_gt (msg_bufr m) 0)), (proj2 (Z.leb_le (msg_bufr m) MSG_BSIZE)) by lia.
  by rewrite stretch_nil, app_nil_r.
Qed.
Lemma content_empty m : msg_bufx m = msg_bufr m → content m = [].
Proof. intros E. unfold content. rewrite E, Z.leb_refl. apply stretch_nil. Qed.

(** ** One turn of the loop that writes *)
Definition wrapped m : msgbuf := if msg_bufx m =? MSG_BSIZE then m<|msg_bufx := 0|> else m.
Definition room m : Z :=
  if msg_bufr m <? msg_bufx m then MSG_BSIZE - msg_bufx m + msg_bufr m else if msg_bufr m =? msg_bufx m then MSG_BSIZE else msg_bufr m - msg_bufx m.
Definition front m : Z := if msg_bufx m <? msg_bufr m then msg_bufr m - msg_bufx m else MSG_BSIZE - msg_bufx m.
Definition chunk m (buf : list Z) : nat := Nat.min (length buf) (Z.to_nat (front m)).
Definition overran s : klog := s<|sc ::= λ c, c<|sc_overrun ::= λ x, s32 (x + 1)|>|>.

Lemma ring_wrapped m : ring_ok m → ring_ok (wrapped m) ∧ msg_bufx (wrapped m) < MSG_BSIZE ∧ msg_bufr (wrapped m) = msg_bufr m.
Proof.
  intros [R1 R2 R3]. unfold wrapped. destruct (Z.eqb_spec (msg_bufx m) MSG_BSIZE).
  - split; [split; fields; [lia|unfold MSG_BSIZE; lia|done]|]. fields. unfold MSG_BSIZE. split; [lia|done].
  - split; [by split|]. split; [lia|done].
Qed.

Lemma wp_log_turn fuel buf (Q : () → klog → Prop) s : ring_ok (mb s) → buf ≠ [] →
  (let m := wrapped (mb s) in
   if room m <? Z.of_nat (length buf) then wp (log_put fuel buf) Q (overran (s<|mb := m<|msg_bufx := msg_bufr m|>|>))
   else wp (log_put fuel (drop (chunk m buf) buf)) Q (s<|mb := with_bytes m (take (chunk m buf) buf)|>)) →
  wp (log_put (S fuel) buf) Q s.
Proof.
  intros HR Hb HQ. destruct (ring_wrapped _ HR) as ([W1 W2 W3] & Wx & Wr). cbn [log_put].
  assert (Hlen : 0 < Z.of_nat (length buf)) by (destruct buf; [done|simpl; lia]). rewrite (proj2 (Z.eqb_neq _ 0)) by lia.
  cbv zeta in HQ. set (m := wrapped (mb s)) in *. destruct HR as [R1 R2 R3].
  assert (HE : ∀ infront s1, s1 = s<|mb := m|> → (msg_bufr m ≤ msg_bufx m → infront = MSG_BSIZE - msg_bufx m) →
    wp (m ← gets mb;
        let n := msg_bufr m - msg_bufx m in
        let writer := if n <? 0 then MSG_BSIZE - msg_bufx m + msg_bufr m else if n =? 0 then MSG_BSIZE else n in
        let infront := if 0 <? n then n else infront in
        if writer <? Z.of_nat (length buf) then
          modify (λ s, s<|sc ::= λ c, c<|sc_overrun ::= λ x, s32 (x + 1)|>|>);;
          modify (λ s, s<|mb ::= λ m, m<|msg_bufx := msg_bufr m|>|>);;
          log_put fuel buf
        else
          let infront := if Z.of_nat (length buf) <? infront then Z.of_nat (length buf) else infront in
          c ← lift (poke (msg_bufc m) (msg_bufx m) (take (Z.to_nat infront) buf));
          modify (λ s, s<|mb ::= λ m, m<|msg_bufc := c|>|>);;
          modify (λ s, s<|mb ::= λ m, m<|msg_bufx ::= λ x, x + infront|>|>);;
          log_put fuel (drop (Z.to_nat infront) buf)) Q s1).
  { intros infront s1 -> Hf. apply wp_bind, wp_gets. change (mb (s<|mb := m|>)) with m. cbv zeta.
    assert (Ew : (if msg_bufr m - msg_bufx m <? 0 then MSG_BSIZE - msg_bufx m + msg_bufr m else if msg_bufr m - msg_bufx m =? 0 then MSG_BSIZE else msg_bufr m - msg_bufx m) = room m).
    { unfold room. destruct (Z.ltb_spec (msg_bufr m - msg_bufx m) 0), (Z.ltb_spec (msg_bufr m) (msg_bufx m)); try lia.
      destruct (Z.eqb_spec (msg_bufr m - msg_bufx m) 0), (Z.eqb_spec (msg_bufr m) (msg_bufx m)); lia. }
    rewrite Ew. destruct (room m <? Z.of_nat (length buf)).
    { apply wp_bind, wp_modify, wp_bind, wp_modify. exact HQ. }
    assert (Ef : (if 0 <? msg_bufr m - msg_bufx m then msg_bufr m - msg_bufx m else infront) = front m).
    { unfold front. destruct (Z.ltb_spec 0 (msg_bufr m - msg_bufx m)), (Z.ltb_spec (msg_bufx m) (msg_bufr m)); lia. }
    rewrite Ef. set (k := if Z.of_nat (length buf) <? front m then Z.of_nat (length buf) else front m).
    assert (Hfr : 0 < front m ∧ msg_bufx m + front m ≤ MSG_BSIZE) by (unfold front; destruct (Z.ltb_spec (msg_bufx m) (msg_bufr m)); lia).
    assert (Ek : k = Z.of_nat (chunk m buf)) by (unfold k, chunk; destruct (Z.ltb_spec (Z.of_nat (length buf)) (front m)); lia).
    assert (Hk : Z.of_nat (chunk m buf) ≤ front m ∧ (chunk m buf ≤ length buf)%nat) by (unfold chunk; lia).
    apply wp_bind. eapply wp_lift.
    { unfold poke. rewrite Ek, Nat2Z.id. rewrite length_take, Nat.min_l by lia. rewrite (proj2 (Z.leb_le 0 _)), (proj2 (Z.leb_le (_ + _) _)) by lia. reflexivity. }
    apply wp_bind, wp_modify, wp_bind, wp_modify. rewrite Ek, Nat2Z.id. unfold with_bytes in HQ. rewrite length_take, Nat.min_l in HQ by lia. exact HQ. }
  apply wp_bind, wp_gets. destruct (Z.leb_spec (MSG_BSIZE - msg_bufx (mb s)) 0) as [Hx|Hx].
  - assert (Ex : msg_bufx (mb s) = MSG_BSIZE) by lia. assert (Em : m = (mb s)<|msg_bufx := 0|>) by (unfold m, wrapped; by rewrite (proj2 (Z.eqb_eq _ _) Ex)).
    apply wp_bind, wp_bind, wp_modify, wp_ret. apply HE; [rewrite Em; by destruct s|]. rewrite Em. fields. lia.
  - assert (Em : m = mb s) by (unfold m, wrapped; by rewrite (proj2 (Z.eqb_neq (msg_bufx (mb s)) MSG_BSIZE)) by lia).
    apply wp_bind, wp_ret. apply HE; [rewrite Em; by destruct s|]. rewrite Em. lia.
Qed.

(** ** What the loop does *)
Lemma log_put_nil fuel (Q : () → klog → Prop) s : Q tt s → wp (log_put fuel []) Q s.
Proof. by destruct fuel. Qed.
Lemma room_content m : ring_ok m → msg_bufx m < MSG_BSIZE → room m = MSG_BSIZE - Z.of_nat (length (content m)).
Proof.
  intros HR Hx. rewrite content_length by done. destruct HR as [R1 R2 R3]. unfold room.
  destruct (Z.ltb_spec (msg_bufr m) (msg_bufx m)), (Z.leb_spec (msg_bufr m) (msg_bufx m)); try lia; destruct (Z.eqb_spec (msg_bufr m) (msg_bufx m)); lia.
Qed.
Lemma wrapped_content m : ring_ok m → Z.of_nat (length (content m)) < MSG_BSIZE ∨ 0 < msg_bufr m → content (wrapped m) = content m.
Proof.
  intros HR Hq. unfold wrapped. destruct (Z.eqb_spec (msg_bufx m) MSG_BSIZE) as [E|]; [|done]. apply content_wrap; [done|done|].
  destruct Hq as [Hq|]; [|done]. rewrite content_length in Hq by done. destruct HR as [R1 R2 R3]. rewrite E, (proj2 (Z.leb_le _ _)) in Hq by lia. lia.
Qed.
(** A second turn is needed only to go round the end. *)
Definition turns m : nat := if (msg_bufr m <=? msg_bufx m) && (msg_bufx m <? MSG_BSIZE) then 2 else 1.
(** Only the ring differs, and the reader is where it was. *)
Definition only_ring s s' : Prop := s' = s<|mb := mb s'|> ∧ msg_bufr (mb s') = msg_bufr (mb s) ∧ msg_magic (mb s') = msg_magic (mb s).

Section Turn.
Context (s : klog) (buf : list Z) (HR : ring_ok (mb s)) (Hq : Z.of_nat (length (content (mb s))) < MSG_BSIZE ∨ 0 < msg_bufr (mb s)) (Hb : buf ≠ []).
Context (Hfit : Z.of_nat (length (content (mb s))) + Z.of_nat (length buf) ≤ MSG_BSIZE).
Context (Hpos : Z.of_nat (length (content (mb s))) + Z.of_nat (length buf) < MSG_BSIZE ∨ 0 < msg_bufr (mb s)).
Let m := wrapped (mb s).
Let k := chunk m buf.

(** What fits is put in, up to the end of the buffer. *)
Lemma turn_fits fuel (Q : () → klog → Prop) :
  (∀ s1, only_ring s s1 → ring_ok (mb s1) → content (mb s1) = content (mb s) ++ buf → Z.of_nat (length (content (mb s))) + Z.of_nat (length buf) < MSG_BSIZE → 0 < msg_bufx (mb s1) → Q tt s1) →
  (∀ s1, only_ring s s1 → content (mb s1) = [] → ring_ok (mb s1) → 0 < msg_bufx (mb s1) → Z.of_nat (length (content (mb s))) + Z.of_nat (length buf) = MSG_BSIZE → Q tt s1) →
  (∀ s1, only_ring s s1 → ring_ok (mb s1) → msg_bufx (mb s1) = MSG_BSIZE → turns (mb s) = 2%nat → drop k buf ≠ [] →
     content (mb s1) = content (mb s) ++ take k buf → wp (log_put fuel (drop k buf)) Q s1) →
  wp (log_put (S fuel) buf) Q s.
Proof.
  intros Q1 Q2 Q3. destruct (ring_wrapped _ HR) as (WR & Wx & Wr). fold m in WR, Wx, Wr. pose proof WR as [W1 W2 W3]. pose proof HR as [R1 R2 R3].
  assert (Ec : content m = content (mb s)) by (by apply wrapped_content). pose proof (room_content m WR Wx) as Er. rewrite Ec in Er.
  assert (Hfr : 0 < front m ∧ msg_bufx m + front m ≤ MSG_BSIZE) by (unfold front; destruct (Z.ltb_spec (msg_bufx m) (msg_bufr m)); lia).
  assert (Hk : (k ≤ length buf)%nat ∧ Z.of_nat k ≤ front m) by (unfold k, chunk; lia). destruct Hk as [Hk1 Hk2].
  assert (Hlk : length (take k buf) = k) by (rewrite length_take; lia).
  apply wp_log_turn; [done|done|]. fold m. cbv zeta. rewrite (proj2 (Z.ltb_ge (room m) _)) by lia. fold k. set (s1 := s<|mb := _|>).
  assert (HO : only_ring s s1) by (split_and!; [done|exact Wr|unfold s1, m, wrapped; fields; by destruct (_ =? _)]).
  assert (HR1 : ring_ok (mb s1)) by (apply ring_with_bytes; [done|]; rewrite Hlk; lia).
  assert (Hx1 : 0 < msg_bufx (mb s1)).
  { unfold s1, with_bytes. fields. rewrite Hlk. assert (0 < length buf)%nat by (destruct buf; [done|simpl; lia]). unfold k, chunk. lia. }
  pose proof (content_length m WR) as Hlen. rewrite Ec in Hlen. unfold room in Er.
  destruct (Z.ltb_spec (msg_bufx m) (msg_bufr m)) as [Hxr|Hxr].
  - (* the free stretch lies between the writer and the reader *)
    assert (Ef : front m = msg_bufr m - msg_bufx m) by (unfold front; by rewrite (proj2 (Z.ltb_lt _ _))). rewrite (proj2 (Z.leb_gt _ _)) in Hlen by lia.
    assert (Ek : k = length buf) by (unfold k, chunk; lia). rewrite Ek, drop_all. apply log_put_nil.
    destruct (decide (Z.of_nat (length (content (mb s))) + Z.of_nat (length buf) = MSG_BSIZE)) as [E|E].
    + apply Q2; [done| |done|done|done]. apply content_empty. unfold s1, with_bytes. fields. rewrite Hlk. lia.
    + apply Q1; [done|done| |lia|done]. unfold s1. fields. rewrite content_with_bytes; [rewrite Ec; f_equal; apply take_ge; fold k; lia|done|rewrite Hlk; lia|]. right. rewrite Hlk. lia.
  - assert (Ef : front m = MSG_BSIZE - msg_bufx m) by (unfold front; by rewrite (proj2 (Z.ltb_ge _ _))).
    assert (Ec1 : content (mb s1) = content (mb s) ++ take k buf) by (unfold s1; fields; rewrite content_with_bytes; [by rewrite Ec|done|rewrite Hlk; lia|by left]).
    destruct (decide (k = length buf)) as [Ek|Ek].
    + rewrite Ek, drop_all. apply log_put_nil, Q1; [done|done|by rewrite Ec1, Ek, take_ge| |done]. rewrite (proj2 (Z.leb_le _ _)) in Hlen by lia. lia.
    + assert (Ek' : Z.of_nat k = MSG_BSIZE - msg_bufx m) by (unfold k, chunk in *; lia).
      assert (Em : m = mb s).
      { unfold m, wrapped. destruct (Z.eqb_spec (msg_bufx (mb s)) MSG_BSIZE) as [E|]; [|done]. exfalso.
        assert (E0 : msg_bufx m = 0) by (unfold m, wrapped; by rewrite (proj2 (Z.eqb_eq _ _) E)). rewrite content_length in Hq by done. rewrite E, (proj2 (Z.leb_le _ _)) in Hq by lia. lia. }
      apply Q3; [done|done| | | |done].
      * unfold s1, with_bytes. fields. rewrite Hlk. lia.
      * unfold turns. rewrite <- Em. rewrite (proj2 (Z.leb_le _ _)), (proj2 (Z.ltb_lt _ _)) by lia. done.
      * intros E. apply (f_equal length) in E. rewrite length_drop in E. simpl in E. lia.
Qed.
End Turn.

Lemma only_ring_trans s1 s2 s3 : only_ring s1 s2 → only_ring s2 s3 → only_ring s1 s3.
Proof. intros (E1 & B1 & M1) (E2 & B2 & M2). split_and!; [rewrite E2, E1; done|congruence|congruence]. Qed.

(** The bytes are put in if there is room; when they fill the buffer exactly
    the writer has caught up with the reader, and there is nothing. *)
Lemma wp_log_put fuel s buf : ring_ok (mb s) → Z.of_nat (length (content (mb s))) < MSG_BSIZE →
  Z.of_nat (length (content (mb s))) + Z.of_nat (length buf) ≤ MSG_BSIZE →
  Z.of_nat (length (content (mb s))) + Z.of_nat (length buf) < MSG_BSIZE ∨ 0 < msg_bufr (mb s) →
  wp (log_put (S (S fuel)) buf) (λ _ s', only_ring s s' ∧ ring_ok (mb s') ∧
    content (mb s') = (if Z.of_nat (length (content (mb s))) + Z.of_nat (length buf) <? MSG_BSIZE then content (mb s) ++ buf else []) ∧
    (buf ≠ [] → 0 < msg_bufx (mb s'))) s.
Proof.
  intros HR Hq Hfit Hpos. destruct (decide (buf = [])) as [->|Hb].
  { apply log_put_nil. split; [split_and!; [by destruct s|done|done]|]. split; [done|]. rewrite app_nil_r. by rewrite (proj2 (Z.ltb_lt _ _)) by (simpl; lia). }
  eapply turn_fits; [done|by left|done|done|done|..].
  - intros s1 HO HR1 Ec Ht Hx. by rewrite (proj2 (Z.ltb_lt _ _)).
  - intros s1 HO Ec HR1 Hx Ht. by rewrite (proj2 (Z.ltb_ge _ _)) by lia.
  - set (k := chunk (wrapped (mb s)) buf). intros s1 HO HR1 Hx Ht Hd Ec.
    assert (El : Z.of_nat (length (content (mb s1))) + Z.of_nat (length (drop k buf)) = Z.of_nat (length (content (mb s))) + Z.of_nat (length buf)).
    { rewrite Ec, length_app. pose proof (f_equal length (take_drop k buf)) as E. rewrite length_app in E. lia. }
    assert (Hlt : Z.of_nat (length (content (mb s1))) < MSG_BSIZE) by (destruct (drop k buf); [done|simpl in El; lia]).
    pose proof HO as (_ & Eb & _). rewrite <- El in *. eapply turn_fits; [done|by left|done|lia|by rewrite Eb|..].
    + intros s2 HO2 HR2 Ec2 Ht2 Hx2. rewrite (proj2 (Z.ltb_lt _ _)) by done. split; [by eapply only_ring_trans|]. split; [done|].
      split; [|done]. by rewrite Ec2, Ec, <- app_assoc, take_drop.
    + intros s2 HO2 Ec2 HR2 Hx2 Ht2. rewrite (proj2 (Z.ltb_ge _ _)) by lia. split; [by eapply only_ring_trans|by split_and!].
    + intros s2 _ _ _ Ht2. exfalso. revert Ht2. unfold turns. rewrite Hx, Z.ltb_irrefl, andb_false_r. done.
Qed.

Definition used s : Z := Z.of_nat (length (content (mb s))).

Lemma wp_logwrt_full s buf : ring_ok (mb s) → msg_magic (mb s) = MSG_MAGIC → used s < MSG_BSIZE → 0 < msg_bufr (mb s) →
  used s + Z.of_nat (length buf) = MSG_BSIZE →
  wp (logwrt buf 0) (λ r s', r = 0 ∧ ring_ok (mb s') ∧ content (mb s') = [] ∧ sc s' = sc s) s.
Proof.
  unfold used. intros HR Hm Hq Hr Hf. unfold logwrt. apply wp_bind, wp_ret, wp_bind, wp_gets. rewrite Hm, Z.eqb_refl, (proj2 (Z.ltb_ge _ _)) by lia. simpl negb. simpl orb.
  apply wp_bind. eapply wp_mono; [apply (wp_log_put 2 s buf HR Hq); [lia|by right]|]. intros [] s' ((E & _ & Em) & HR' & Ec & _). apply wp_ret.
  rewrite (proj2 (Z.ltb_ge _ _)) in Ec by lia. split_and!; [done|done|done|by rewrite E].
Qed.

(** ** Reading *)

(** The reader moves on by [l]. *)
Lemma content_read m l : ring_ok m → 0 < l → (if msg_bufr m <=? msg_bufx m then msg_bufr m + l ≤ msg_bufx m else msg_bufr m + l ≤ MSG_BSIZE) →
  let m' := m<|msg_bufr ::= λ r, r + l|> in
  ring_ok m' ∧ content m = stretch (msg_bufc m) (msg_bufr m) (msg_bufr m + l) ++ content m' ∧
  (msg_bufx m <? msg_bufr m) = (msg_bufx m <? msg_bufr m').
Proof.
  intros [R1 R2 R3] Hl Hb m'. unfold content, m'. fields. destruct (Z.leb_spec (msg_bufr m) (msg_bufx m)) as [Hrx|Hrx].
  - split; [split; fields; lia|]. rewrite (proj2 (Z.leb_le _ _)) by lia. split; [by rewrite <- stretch_app by lia|]. rewrite !(proj2 (Z.ltb_ge _ _)) by lia. done.
  - split; [split; fields; lia|]. rewrite (proj2 (Z.leb_gt _ _)) by lia. split; [by rewrite app_assoc, <- stretch_app by lia|]. rewrite !(proj2 (Z.ltb_lt _ _)) by lia. done.
Qed.
Lemma content_round m : ring_ok m → msg_bufr m = MSG_BSIZE → msg_bufx m < MSG_BSIZE → content (m<|msg_bufr := 0|>) = content m ∧ ring_ok (m<|msg_bufr := 0|>).
Proof.
  intros [R1 R2 R3] Hr Hx. split; [|split; fields; unfold MSG_BSIZE in *; lia]. unfold content. fields.
  rewrite Hr, (proj2 (Z.leb_gt MSG_BSIZE _)), (proj2 (Z.leb_le 0 _)) by lia. by rewrite stretch_nil.
Qed.

(** Where the reader is afterwards: it has left the start of the buffer when it
    had before or when anything was read.  (In a buffer in use the writer is at
    the start only together with the reader.) *)
Definition reader_at (resid : Z) m m' : Prop :=
  (msg_bufx m = 0 → msg_bufr m = 0) →
  msg_bufx m' = msg_bufx m ∧ (0 < msg_bufr m' ↔ 0 < msg_bufr m ∨ 0 < resid ∧ content m ≠ []).
Lemma reader_stays resid m : resid = 0 ∨ content m = [] → reader_at resid m m.
Proof. intros Hd _. split; [done|]. split; [by left|]. intros [?|[? Hc]]; [done|]. destruct Hd as [->|?]; [lia|done]. Qed.

Lemma wp_log_move fuel : ∀ s resid, ring_ok (mb s) → 0 ≤ resid → used s + (if msg_bufx (mb s) <? msg_bufr (mb s) then 1 else 0) ≤ Z.of_nat fuel →
  wp (log_move fuel resid) (λ buf s', buf = take (Z.to_nat resid) (content (mb s)) ∧ content (mb s') = drop (Z.to_nat resid) (content (mb s)) ∧ ring_ok (mb s') ∧
    s' = s<|mb := mb s'|> ∧ msg_magic (mb s') = msg_magic (mb s) ∧ reader_at resid (mb s) (mb s')) s.
Proof.
  induction fuel as [|fuel IH]; intros s resid HR Hres Hf;
    (destruct (Z.eqb_spec resid 0) as [->|Hr0]; [by apply wp_ret; split_and!; try done; [destruct s|apply reader_stays; left]|]);
    cbn [log_move]; rewrite (proj2 (Z.eqb_neq resid 0)) by done; apply wp_bind, wp_gets; cbv zeta; pose proof (content_length _ HR) as Hc; pose proof HR as [R1 R2 R3];
    (destruct (Z.eqb_spec (msg_bufx (mb s) - msg_bufr (mb s)) 0) as [E|E];
      [apply wp_ret; rewrite (content_empty (mb s)) by lia; rewrite take_nil, drop_nil; split_and!; [done|done|done|by destruct s|done|apply reader_stays; right; apply content_empty; lia]|]).
  - exfalso. unfold used in Hf. destruct (Z.leb_spec (msg_bufr (mb s)) (msg_bufx (mb s))), (Z.ltb_spec (msg_bufx (mb s)) (msg_bufr (mb s))); lia.
  - set (l := if msg_bufx (mb s) - msg_bufr (mb s) <? 0 then MSG_BSIZE - msg_bufr (mb s) else msg_bufx (mb s) - msg_bufr (mb s)).
    destruct (Z.eqb_spec l 0) as [El|El].
    + (* the reader is at the end of the buffer *)
      assert (Hx : msg_bufr (mb s) = MSG_BSIZE ∧ msg_bufx (mb s) < MSG_BSIZE) by (unfold l in El; destruct (Z.ltb_spec (msg_bufx (mb s) - msg_bufr (mb s)) 0); lia).
      destruct Hx as [Hx1 Hx2]. destruct (content_round _ HR Hx1 Hx2) as [Ec HR1]. apply wp_bind, wp_modify. set (s1 := s<|mb ::= _|>).
      assert (Ec1 : content (mb s1) = content (mb s)) by exact Ec.
      eapply wp_mono; [apply (IH s1 resid HR1 Hres)|intros buf s' (B1 & B2 & B3 & B4 & B5 & B6); rewrite Ec1 in B1, B2; split_and!; [done|done|done|rewrite B4 at 1; by destruct s|done|]].
      2:{ intros Hi. assert (Hx0 : msg_bufx (mb s) ≠ 0) by (intros E0; specialize (Hi E0); unfold MSG_BSIZE in *; lia).
          destruct B6 as [B6 B7]; [by intros E0|]. split; [exact B6|]. rewrite B7, Ec1. change (msg_bufr (mb s1)) with 0. rewrite Hx1. unfold MSG_BSIZE.
          split; [lia|]. intros _. right. split; [lia|]. intros E0. rewrite E0, Hx1 in Hc. simpl in Hc. rewrite (proj2 (Z.leb_gt _ _)) in Hc by lia. lia. }
      unfold used in *. rewrite Ec1. rewrite (proj2 (Z.ltb_lt (msg_bufx (mb s)) _)) in Hf by lia. change (msg_bufr (mb s1)) with 0. change (msg_bufx (mb s1)) with (msg_bufx (mb s)).
      rewrite (proj2 (Z.ltb_ge _ 0)) by lia. lia.
    + set (k := Z.min (Z.min l resid) 128).
      assert (Hl : 0 < l ∧ if msg_bufr (mb s) <=? msg_bufx (mb s) then msg_bufr (mb s) + l ≤ msg_bufx (mb s) else msg_bufr (mb s) + l ≤ MSG_BSIZE).
      { unfold l in *. destruct (Z.ltb_spec (msg_bufx (mb s) - msg_bufr (mb s)) 0), (Z.leb_spec (msg_bufr (mb s)) (msg_bufx (mb s))); lia. }
      destruct Hl as [Hl Hl2]. assert (Hk : 0 < k ≤ l ∧ k ≤ resid) by (unfold k; lia).
      destruct (content_read (mb s) k HR) as (HR1 & Ec & Eo); [lia|destruct (_ <=? _); lia|].
      assert (Hkb : msg_bufr (mb s) + k ≤ MSG_BSIZE) by (destruct (Z.leb_spec (msg_bufr (mb s)) (msg_bufx (mb s))); lia).
      apply wp_bind. eapply wp_lift; [unfold peek; rewrite (proj2 (Z.leb_le 0 _)), (proj2 (Z.leb_le (_ + _) _)) by lia; reflexivity|].
      apply wp_bind, wp_modify. set (s1 := s<|mb ::= _|>). set (buf := stretch (msg_bufc (mb s)) (msg_bufr (mb s)) (msg_bufr (mb s) + k)) in *.
      assert (Eb : take (Z.to_nat k) (drop (Z.to_nat (msg_bufr (mb s))) (msg_bufc (mb s))) = buf) by (unfold buf, stretch; do 2 f_equal; lia). rewrite Eb.
      assert (Lb : length buf = Z.to_nat k) by (pose proof (stretch_length (msg_bufc (mb s)) (msg_bufr (mb s)) (msg_bufr (mb s) + k) ltac:(lia) ltac:(lia)) as E'; fold buf in E'; lia).
      change (content (mb s) = buf ++ content (mb s1)) in Ec.
      apply wp_bind. eapply wp_mono; [apply (IH s1 (resid - k)); [done|lia|]|].
      { unfold used in *. rewrite Ec, length_app in Hf. change (used s1 + (if msg_bufx (mb s) <? msg_bufr ((mb s)<|msg_bufr ::= λ r, r + k|>) then 1 else 0) ≤ Z.of_nat fuel). rewrite <- Eo. unfold used. lia. }
      intros rest s' (B1 & B2 & B3 & B4 & B5 & B6). apply wp_ret. rewrite Ec. split_and!; [|..].
      * rewrite take_app, Lb, B1. f_equal; [by rewrite take_ge by lia|f_equal; lia].
      * rewrite drop_app, Lb, B2. rewrite (drop_ge buf) by lia. simpl. f_equal. lia.
      * done.
      * rewrite B4 at 1. by destruct s.
      * done.
      * intros Hi. destruct B6 as [B6 B7].
        { change (msg_bufx (mb s) = 0 → msg_bufr (mb s) + k = 0). lia. }
        split; [exact B6|]. rewrite B7. change (msg_bufr (mb s1)) with (msg_bufr (mb s) + k). rewrite Ec. split; [|by left; lia].
        intros _. right. split; [lia|]. intros E0. apply app_nil in E0 as [E0 _]. rewrite E0 in Lb. simpl in Lb. lia.
Qed.

Lemma wp_logread s k dev resid flag : minor dev = 0 → ring_ok (mb s) → 0 ≤ resid → has flag IO_NDELAY = true ∨ msg_bufr (mb s) ≠ msg_bufx (mb s) →
  wp (logread k dev resid flag) (λ r s', ring_ok (mb s') ∧ lk s' = lk s ∧ msg_magic (mb s') = msg_magic (mb s) ∧ reader_at resid (mb s) (mb s') ∧
    if msg_bufr (mb s) =? msg_bufx (mb s) then r = (EWOULDBLOCK, []) ∧ s' = s
    else r = (0, take (Z.to_nat resid) (content (mb s))) ∧ content (mb s') = drop (Z.to_nat resid) (content (mb s)) ∧
      sc s' = (sc s)<|sc_state ::= λ f, bic f LOG_RDWAIT|>) s.
Proof.
  intros Hd HR Hres Hg. unfold logread. rewrite Hd. apply wp_bind, wp_ret, wp_bind. destruct k; cbn [log_await]; apply wp_bind, wp_gets;
    (destruct (Z.eqb_spec (msg_bufr (mb s)) (msg_bufx (mb s))) as [E|E]; [destruct Hg as [->|?]; [|done]; apply wp_ret; simpl; apply wp_ret; split_and!; try done; apply reader_stays; right; by apply content_empty|]);
    apply wp_ret; simpl negb; cbv iota; apply wp_bind, wp_modify, wp_bind; set (s1 := s<|sc ::= _|>);
    (assert (Hf : used s1 + (if msg_bufx (mb s1) <? msg_bufr (mb s1) then 1 else 0) ≤ Z.of_nat (Z.to_nat MSG_BSIZE + 2))
      by (unfold used; change (mb s1) with (mb s); pose proof (content_length _ HR); pose proof HR as [R1 R2 R3]; unfold MSG_BSIZE in *; destruct (Z.leb_spec (msg_bufr (mb s)) (msg_bufx (mb s))), (_ <? _); lia));
    (eapply wp_mono; [exact (wp_log_move _ s1 resid HR Hres Hf)|]); intros buf s' (-> & B2 & B3 & B4 & B5 & B6); apply wp_ret;
    (split_and!; [done|by rewrite B4|exact B5|exact B6|done|exact B2|by rewrite B4]).
Qed.

(** ** The log as a queue of bytes *)

(** The kernel writes a message; a program reads, without waiting.  The result
    of each: the value returned or the error, and the bytes read. *)
Inductive logop := Put (msg : list Z) | Get (n : Z).
Definition log_op (o : logop) : L (Z * list Z) :=
  match o with
  | Put msg => r ← logwrt msg 0; mret (r, [])
  | Get n => logread 0 0 n IO_NDELAY
  end.
Fixpoint run_log (ops : list logop) : L (list (Z * list Z)) :=
  match ops with [] => mret [] | o :: ops => r ← log_op o; rest ← run_log ops; mret (r :: rest) end.

(** The log as its users see it: the bytes not read yet, whether anything was
    ever read (the reader has left the start of the buffer), and the count of
    overruns. *)
Record alog := Alog { al_queue : list Z; al_moved : bool; al_lost : Z }.
(** A message is appended if there is room.  One that fills the buffer is
    lost with all before it when the reader has moved; one for which there is
    no room takes the place of all the others, which is counted, but not if
    the buffer was full to the last byte. *)
Definition aput (a : alog) (msg : list Z) : Z * alog :=
  let q := al_queue a in
  let n := length q in let l := length msg in
  if (2048 <? l)%nat then (-1, a)
  else (0, if (l =? 0)%nat then a
           else if (n =? 2048)%nat then Alog msg (al_moved a) (al_lost a)
           else if (n + l <? 2048)%nat then Alog (q ++ msg) (al_moved a) (al_lost a)
           else if (n + l =? 2048)%nat then Alog (if al_moved a then [] else q ++ msg) (al_moved a) (al_lost a)
           else Alog (if al_moved a && (l =? 2048)%nat then [] else msg) (al_moved a) (s32 (al_lost a + 1))).
Definition aget (a : alog) (n : Z) : (Z * list Z) * alog :=
  let out := take (Z.to_nat n) (al_queue a) in
  ((if bool_decide (al_queue a = []) then EWOULDBLOCK else 0, out),
   Alog (drop (Z.to_nat n) (al_queue a)) (al_moved a || negb (bool_decide (out = []))) (al_lost a)).
Definition alog_op (a : alog) (o : logop) : (Z * list Z) * alog :=
  match o with Put msg => let '(r, a) := aput a msg in ((r, []), a) | Get n => aget a n end.
Fixpoint arun (a : alog) (ops : list logop) : list (Z * list Z) * alog :=
  match ops with
  | [] => ([], a)
  | o :: ops => let '(r, a) := alog_op a o in let '(rest, a) := arun a ops in (r :: rest, a)
  end.
Definition sensible (o : logop) : Prop := match o with Put _ => True | Get n => 0 ≤ n end.

Record log_at (a : alog) s : Prop := LogAt {
  la_ring : ring_ok (mb s);
  la_magic : msg_magic (mb s) = MSG_MAGIC;
  la_content : content (mb s) = al_queue a;
  la_moved : 0 < msg_bufr (mb s) ↔ al_moved a = true;
  la_start : msg_bufx (mb s) = 0 → msg_bufr (mb s) = 0;
  la_lost : sc_overrun (sc s) = al_lost a }.

(** A ring that is full to the last byte was never read. *)
Lemma full_unmoved m : ring_ok m → (msg_bufx m = 0 → msg_bufr m = 0) → Z.of_nat (length (content m)) = MSG_BSIZE → msg_bufr m = 0 ∧ msg_bufx m = MSG_BSIZE.
Proof.
  intros HR Hi Hl. rewrite content_length in Hl by done. destruct HR as [R1 R2 R3]. destruct (Z.leb_spec (msg_bufr m) (msg_bufx m)); unfold MSG_BSIZE in *; lia.
Qed.
Lemma log_at_length a s : log_at a s → (length (al_queue a) ≤ 2048)%nat.
Proof.
  intros [HR _ <- _ _ _]. pose proof (content_length _ HR) as Hl. destruct HR as [R1 R2 R3]. unfold MSG_BSIZE in *.
  destruct (Z.leb_spec (msg_bufr (mb s)) (msg_bufx (mb s))); lia.
Qed.

(** One turn that takes the whole message: it fills the buffer to the end, or
    it starts again in a full one. *)
Lemma wp_put_whole fuel s buf : let m := wrapped (mb s) in
  ring_ok (mb s) → buf ≠ [] → msg_bufr (mb s) = 0 → Z.of_nat (length (content m)) + Z.of_nat (length buf) ≤ MSG_BSIZE →
  wp (log_put (S fuel) buf) (λ _ s', only_ring s s' ∧ ring_ok (mb s') ∧ content (mb s') = content m ++ buf ∧ 0 < msg_bufx (mb s')) s.
Proof.
  intros m HR Hb Hr Hl. destruct (ring_wrapped _ HR) as (WR & Wx & Wr). fold m in WR, Wx, Wr. pose proof WR as [W1 W2 W3].
  pose proof (content_length m WR) as Hlen. rewrite (proj2 (Z.leb_le _ _)) in Hlen by lia.
  assert (Hf : front m = MSG_BSIZE - msg_bufx m) by (unfold front; by rewrite (proj2 (Z.ltb_ge _ _)) by lia).
  assert (Hk : chunk m buf = length buf) by (unfold chunk; lia). assert (0 < length buf)%nat by (destruct buf; [done|simpl; lia]).
  apply wp_log_turn; [done|done|]. fold m. cbv zeta. rewrite (room_content m WR Wx), (proj2 (Z.ltb_ge _ _)) by lia. rewrite Hk, drop_all, take_ge by lia.
  apply log_put_nil. split_and!.
  - split_and!; [done|exact Wr|]. unfold m, wrapped. fields. by destruct (_ =? _).
  - apply ring_with_bytes; [done|lia].
  - fields. apply content_with_bytes; [done|lia|left; lia].
  - unfold with_bytes. fields. lia.
Qed.

(** The loop from an empty ring. *)
Lemma wp_put_empty s buf : ring_ok (mb s) → msg_bufx (mb s) = msg_bufr (mb s) → buf ≠ [] → Z.of_nat (length buf) ≤ MSG_BSIZE →
  wp (log_put 3 buf) (λ _ s', only_ring s s' ∧ ring_ok (mb s') ∧ 0 < msg_bufx (mb s') ∧
    content (mb s') = if (0 <? msg_bufr (mb s)) && (Z.of_nat (length buf) =? MSG_BSIZE) then [] else buf) s.
Proof.
  intros HR He Hb Hl. pose proof HR as [R1 R2 R3]. pose proof (content_empty _ He) as Ec.
  destruct (Z.ltb_spec 0 (msg_bufr (mb s))) as [Hr|Hr]; simpl.
  - eapply wp_mono; [apply (wp_log_put 1 s buf HR); rewrite Ec; simpl; [unfold MSG_BSIZE; lia|lia|by right]|]. intros [] s' (HO & HR' & Ec' & Hx).
    split_and!; [done|done|auto|]. rewrite Ec', Ec. simpl. destruct (Z.eqb_spec (Z.of_nat (length buf)) MSG_BSIZE).
    + by rewrite (proj2 (Z.ltb_ge _ _)) by lia.
    + by rewrite (proj2 (Z.ltb_lt _ _)) by lia.
  - assert (Hr0 : msg_bufr (mb s) = 0) by lia. assert (Em : wrapped (mb s) = mb s) by (unfold wrapped; rewrite He, Hr0; done).
    eapply wp_mono; [apply (wp_put_whole 2 s buf HR Hb Hr0); rewrite Em, Ec; simpl; lia|]. rewrite Em, Ec. intros [] s' (HO & HR' & Ec' & Hx).
    by split_and!.
Qed.

Lemma wp_logwrt_body s buf (Q : Z → klog → Prop) : msg_magic (mb s) = MSG_MAGIC → Z.of_nat (length buf) ≤ MSG_BSIZE →
  wp (log_put 4 buf) (λ _, Q 0) s → wp (logwrt buf 0) Q s.
Proof.
  intros Hm Hl HQ. unfold logwrt. apply wp_bind, wp_ret, wp_bind, wp_gets. rewrite Hm, Z.eqb_refl, (proj2 (Z.ltb_ge _ _)) by lia. simpl.
  apply wp_bind. eapply wp_mono; [exact HQ|]. intros [] s' HQ'. by apply wp_ret.
Qed.
Lemma log_at_ring a s s' q : log_at a s → only_ring s s' → ring_ok (mb s') → content (mb s') = q → 0 < msg_bufx (mb s') →
  log_at (Alog q (al_moved a) (al_lost a)) s'.
Proof.
  intros [A1 A2 A3 A4 A5 A6] (E1 & E2 & E3) HR Hc Hx. split; [done|congruence|done|by rewrite E2|lia|]. by rewrite E1.
Qed.
Lemma wp_aput a s msg : log_at a s → wp (logwrt msg 0) (λ r s', r = (aput a msg).1 ∧ log_at (aput a msg).2 s') s.
Proof.
  intros HA. pose proof HA as [A1 A2 A3 A4 A5 A6]. pose proof (log_at_length a s HA) as Hn. pose proof A1 as [R1 R2 R3]. assert (EB : MSG_BSIZE = 2048) by done.
  assert (Hc : Z.of_nat (length (content (mb s))) = Z.of_nat (length (al_queue a))) by (by rewrite A3). unfold aput. cbv zeta.
  destruct (Nat.ltb_spec 2048 (length msg)) as [Hl|Hl].
  { unfold logwrt. apply wp_bind, wp_ret, wp_bind, wp_gets. rewrite (proj2 (Z.ltb_lt MSG_BSIZE _)), orb_true_r by lia. by apply wp_ret. }
  apply wp_logwrt_body; [done|lia|]. cbn [fst snd]. destruct (Nat.eqb_spec (length msg) 0) as [E0|E0].
  { destruct msg; [|done]. by apply log_put_nil. }
  assert (Hb : msg ≠ []) by (by intros ->).
  destruct (Nat.eqb_spec (length (al_queue a)) 2048) as [Ef|Ef].
  { destruct (full_unmoved _ A1 A5) as [Hr Hx]; [lia|]. assert (Em : content (wrapped (mb s)) = []).
    { apply content_empty. unfold wrapped. rewrite Hx. simpl. done. }
    eapply wp_mono; [apply (wp_put_whole 3 s msg A1 Hb Hr); rewrite Em; simpl; lia|]. rewrite Em. intros [] s' (HO & HR & Hc' & Hx'). split; [done|].
    by eapply log_at_ring. }
  destruct (Nat.ltb_spec (length (al_queue a) + length msg) 2048) as [Hlt|Hge].
  { eapply wp_mono; [apply (wp_log_put 2 s msg A1); [lia|lia|left; lia]|]. intros [] s' (HO & HR & Hc' & Hx'). split; [done|].
    rewrite (proj2 (Z.ltb_lt _ _)), A3 in Hc' by lia. eapply log_at_ring; eauto. }
  destruct (Nat.eqb_spec (length (al_queue a) + length msg) 2048) as [Ex|Ex].
  { destruct (al_moved a) eqn:Em.
    - eapply wp_mono; [apply (wp_log_put 2 s msg A1); [lia|lia|right; by apply A4]|]. intros [] s' (HO & HR & Hc' & Hx'). split; [done|].
      rewrite (proj2 (Z.ltb_ge _ _)) in Hc' by lia. rewrite <- Em. eapply log_at_ring; eauto.
    - assert (Hr : msg_bufr (mb s) = 0) by (destruct (decide (0 < msg_bufr (mb s))) as [Hp|]; [apply A4 in Hp; done|lia]).
      assert (Ew : wrapped (mb s) = mb s).
      { unfold wrapped. rewrite (proj2 (Z.eqb_neq _ _)); [done|]. rewrite content_length in Hc by done. rewrite (proj2 (Z.leb_le _ _)) in Hc by lia. lia. }
      eapply wp_mono; [apply (wp_put_whole 3 s msg A1 Hb Hr); rewrite Ew; lia|]. rewrite Ew, A3. intros [] s' (HO & HR & Hc' & Hx'). split; [done|].
      rewrite <- Em. by eapply log_at_ring. }
  destruct (ring_wrapped _ A1) as (WR & Wx & Wr). assert (Ec : content (wrapped (mb s)) = content (mb s)) by (apply wrapped_content; [done|left; lia]).
  apply wp_log_turn; [done|done|]. cbv zeta. rewrite (room_content _ WR Wx), Ec, (proj2 (Z.ltb_lt _ _)) by lia.
  set (m := (wrapped (mb s))<|msg_bufx := _|>). set (s1 := overran (s<|mb := m|>)).
  assert (HR1 : ring_ok (mb s1)) by (destruct WR as [B1 B2 B3]; split; done).
  eapply wp_mono; [apply (wp_put_empty s1 msg HR1); [done|done|lia]|]. intros [] s' ((E1 & E2 & E3) & HR' & Hx & Hc'). split; [done|].
  assert (Er : msg_bufr (mb s1) = msg_bufr (mb s)) by exact Wr. split; try done.
  - rewrite E3. change (msg_magic (wrapped (mb s)) = MSG_MAGIC). unfold wrapped. destruct (msg_bufx (mb s) =? MSG_BSIZE); exact A2.
  - rewrite Hc', Er. cbn [al_queue]. rewrite EB. destruct (al_moved a) eqn:Em.
    + rewrite (proj2 (Z.ltb_lt _ _)) by (by apply A4). simpl. destruct (Nat.eqb_spec (length msg) 2048), (Z.eqb_spec (Z.of_nat (length msg)) 2048); try lia; done.
    + rewrite (proj2 (Z.ltb_ge _ _)); [done|]. destruct (decide (0 < msg_bufr (mb s))) as [Hp|]; [apply A4 in Hp; done|lia].
  - by rewrite E2, Er.
  - lia.
  - rewrite E1. change (s32 (sc_overrun (sc s) + 1) = s32 (al_lost a + 1)). by rewrite A6.
Qed.
Lemma wp_get a s n : log_at a s → 0 ≤ n → wp (logread 0 0 n IO_NDELAY) (λ r s', r = (aget a n).1 ∧ log_at (aget a n).2 s') s.
Proof.
  intros HA Hn. pose proof HA as [A1 A2 A3 A4 A5 A6]. pose proof A1 as [R1 R2 R3]. eapply wp_mono; [apply wp_logread; [done|done|done|by left]|].
  intros r s' (HR & _ & Hm & Hrd & HC). destruct (Hrd A5) as [Hx Hr]. rewrite A3 in HC, Hr. unfold aget.
  assert (HE : (msg_bufr (mb s) =? msg_bufx (mb s)) = bool_decide (al_queue a = [])).
  { destruct (Z.eqb_spec (msg_bufr (mb s)) (msg_bufx (mb s))) as [E|E].
    - rewrite content_empty in A3 by done. symmetry. by apply bool_decide_eq_true_2.
    - symmetry. apply bool_decide_eq_false_2. intros E0. rewrite E0 in A3. pose proof (content_length _ A1) as Hl. rewrite A3 in Hl. simpl in Hl.
      destruct (Z.leb_spec (msg_bufr (mb s)) (msg_bufx (mb s))); [lia|]. unfold MSG_BSIZE in *. lia. }
  rewrite HE in HC. case_bool_decide as Eq.
  - destruct HC as [-> ->]. rewrite Eq, take_nil, drop_nil. simpl. split; [done|]. rewrite orb_false_r. split; try done. by rewrite A3.
  - destruct HC as (-> & Hc & Hs). split; [done|]. split; cbn [al_queue al_moved al_lost snd]; [done|congruence|done| | |by rewrite Hs].
    2:{ intros E. rewrite Hx in E. destruct Eq. rewrite <- A3. apply content_empty. rewrite (A5 E). done. }
    rewrite Hr, orb_true_iff, A4, negb_true_iff, bool_decide_eq_false. apply or_iff_compat_l. split.
    + intros [Hp _] E. apply (f_equal length) in E. rewrite length_take in E. destruct (al_queue a); [done|simpl in E; lia].
    + intros Ht. split; [|done]. destruct (decide (n = 0)) as [->|]; [|lia]. by rewrite take_0 in Ht.
Qed.

Lemma wp_log_op a s o : log_at a s → sensible o → wp (log_op o) (λ r s', r = (alog_op a o).1 ∧ log_at (alog_op a o).2 s') s.
Proof.
  intros HA Ho. destruct o as [msg|n]; simpl.
  - apply wp_bind. eapply wp_mono; [by apply (wp_aput a)|]. intros r s' [-> HA']. apply wp_ret. by destruct (aput a msg).
  - by apply wp_get.
Qed.

(** C25. The message log is a queue of bytes, with the exceptions the abstract
    log [alog] makes plain.  Whatever messages the kernel writes and a program
    reads, in any order, of any length and wherever the ring has wrapped
    round, each read returns the oldest bytes that were not read yet, in the
    order they were written and none twice, and they are gone from the log
    (EWOULDBLOCK when there is none); a message for which there is no room
    replaces all that was not read, and is counted as an overrun unless the
    buffer was full to the last byte; one that fills the buffer to the last
    byte after anything was read empties the log; one longer than the buffer
    is refused. *)
Theorem log_is_queue (ops : list logop) (a : alog) s :
  log_at a s → Forall sensible ops →
  wp (run_log ops) (λ out s', out = (arun a ops).1 ∧ log_at (arun a ops).2 s') s.
Proof.
  intros HA HF. revert a s HA. induction HF as [|o ops Ho _ IH]; intros a s HA; simpl; [by apply wp_ret|].
  apply wp_bind. eapply wp_mono; [by apply (wp_log_op a)|]. destruct (alog_op a o) as [r a'] eqn:E. intros r' s1 [-> HA1].
  apply wp_bind. eapply wp_mono; [by apply (IH a')|]. destruct (arun a' ops) as [rest a2]. intros out s2 [-> HA2]. by apply wp_ret.
Qed.

(** C40. A message that fills the buffer exactly is lost, and all before it.
    When the bytes not yet read and the message make [MSG_BSIZE] bytes, and the
    reader is not at the start of the buffer, the message is taken to fit, the
    writer catches up with the reader, and the log is empty; the call reports
    success and no overrun is counted. *)
Theorem log_full_lost s msg :
  ring_ok (mb s) → msg_magic (mb s) = MSG_MAGIC → 0 < msg_bufr (mb s) → msg ≠ [] →
  Z.of_nat (length (content (mb s))) + Z.of_nat (length msg) = MSG_BSIZE →
  wp (logwrt msg 0) (λ r s1, r = 0 ∧ sc_overrun (sc s1) = sc_overrun (sc s) ∧ content (mb s1) = [] ∧
    ∀ n, 0 ≤ n → wp (logread 0 0 n IO_NDELAY) (λ r2 _, r2.2 = []) s1) s.
Proof.
  intros HR Hm Hr Hne Hf. assert (Hl : 0 < Z.of_nat (length msg)) by (destruct msg; [done|simpl; lia]).
  eapply wp_mono; [apply (wp_logwrt_full s msg HR Hm); [unfold used; lia|done|done]|]. intros r s1 (-> & HR1 & Ec & Es).
  split_and!; [done|by rewrite Es|done|]. intros n Hn. eapply wp_mono; [apply wp_logread; [done|done|done|by left]|].
  intros r2 s2 (_ & _ & _ & _ & HC). rewrite Ec, take_nil in HC. by destruct (_ =? _), HC as [-> _].
Qed.
End Ring.

(** ** Examples *)
Definition ex_log (r x : Z) : klog :=
  Klog (ex_kern 0) (Msgbuf MSG_MAGIC x r (replicate 2048 0)) (Softc 1 None 1 0).
#[global] Instance ex_logops : LogOps := {| log_nap := mret tt; selwakeup := λ _, mret tt |}.
Lemma ex_ring r x : 0 ≤ r ≤ MSG_BSIZE → 0 ≤ x ≤ MSG_BSIZE → ring_ok (mb (ex_log r x)).
Proof. intros. split; [done|done|]. vm_compute. reflexivity. Qed.

Lemma log_is_queue_witness :
  wp (run_log [Put [1; 2; 3]; Get 2; Put (replicate 2047 7); Get 9; Put [4]; Get 1])
    (λ out _, out = [(0, []); (0, [1; 2]); (0, []); (EWOULDBLOCK, []); (0, []); (0, [4])]) (ex_log 2046 2046).
Proof.
  eapply wp_mono; [apply (log_is_queue [Put [1; 2; 3]; Get 2; Put (replicate 2047 7); Get 9; Put [4]; Get 1] (Alog [] true 0))|].
  - split; [by apply ex_ring|reflexivity|by apply content_empty|done|done|reflexivity].
  - repeat constructor; done.
  - intros out s' [-> _]. vm_compute. reflexivity.
Defined.
Lemma log_full_lost_witness : wp (logwrt (replicate 2047 7) 0) (λ r s1, r = 0 ∧ content (mb s1) = []) (ex_log 5 6).
Proof.
  eapply wp_mono; [apply (log_full_lost (ex_log 5 6) (replicate 2047 7)); [by apply ex_ring|reflexivity|simpl; lia|discriminate|vm_compute; reflexivity]|].
  intros r s1 (Hr & _ & Hc & _). by split.
Defined.
