(* ===== verification/Fork.v ===== *)
(** * Creation of processes

    kernel/kern_fork.c: the choice of a process id, the new entry of the
    process table, fork and vfork. *)
From stdpp Require Import base tactics list option strings numbers gmap.
From S2P Require Import Prelude Proc Prot Synch Signal.
Open Scope Z_scope.

Definition MAXUPRC : Z := 20.
Definition PSWP : Z := 0.
Definition PID_MAX : Z := 30000.

(** What process creation uses of the rest of the kernel: [share_files]
    increases the reference counts of the open files and directories,
    [swapout p] writes the image of [p] to the swap device, [sleep] waits on a
    channel while other processes run. *)
Class ForkOps := {
  share_files : M unit;
  swapout : nat → M unit;
  sleep : Z → Z → M unit }.

Section Fork.
Context `{Layout} `{ForkOps}.

(** ** Process ids *)

(** The loop over a list of processes; [true]: start over. *)
Fixpoint pid_scan (fuel : nat) (child : option nat) : M bool :=
  match child with
  | None => mret false
  | Some i =>
      match fuel with
      | O => lift Spin
      | S fuel =>
          x ← at_ i;
          m ← gets mpid;
          retry ← (if (p_pid x =? m) || (p_pgrp x =? m) then
                     modify (λ s, s<|mpid ::= λ m, m + 1|>);;
                     m ← gets mpid; c ← gets pidchecked;
                     mret (c <=? m)
                   else mret false);
          if (retry : bool) then mret true
          else
            m ← gets mpid; c ← gets pidchecked;
            (if (m <? p_pid x) && (p_pid x <? c) then modify (λ s, s<|pidchecked := p_pid x|>) else mret tt);;
            c ← gets pidchecked;
            (if (m <? p_pgrp x) && (p_pgrp x <? c) then modify (λ s, s<|pidchecked := p_pgrp x|>) else mret tt);;
            pid_scan fuel (p_nxt x)
      end
  end.

(** From the label [retry]. *)
Fixpoint pid_search (fuel : nat) : M unit :=
  match fuel with
  | O => lift Spin
  | S fuel =>
      m ← gets mpid;
      (if PID_MAX <=? m then modify (λ s, s<|mpid := 100|>);; modify (λ s, s<|pidchecked := 0|>) else mret tt);;
      m ← gets mpid; c ← gets pidchecked;
      if c <=? m then
        modify (λ s, s<|pidchecked := PID_MAX|>);;
        n ← gets (λ s, length (procs s));
        p ← gets allproc; r ← pid_scan n p;
        if (r : bool) then pid_search fuel
        else
          p ← gets zombproc; r ← pid_scan n p;
          if (r : bool) then pid_search fuel else mret tt
      else mret tt
  end.
Definition newpid : M unit :=
  modify (λ s, s<|mpid ::= λ m, m + 1|>);;
  n ← gets (λ s, length (procs s));
  pid_search (4 * n + 4).

(** ** The new entry *)

(** [parent] as the new process sees it. *)
Definition inherit (parent child : proc) (pp : nat) (pid : Z) : proc :=
  child<|p_stat := SIDL|><|p_realtimer ::= λ t, t<|it_value := 0|>|><|p_flag := SLOAD|>
       <|p_uid := p_uid parent|><|p_pgrp := p_pgrp parent|><|p_nice := p_nice parent|>
       <|p_pid := s16 pid|><|p_ppid := p_pid parent|><|p_pptr := Some pp|><|p_time := 0|><|p_cpu := 0|>
       <|p_sigmask := p_sigmask parent|><|p_sigcatch := p_sigcatch parent|><|p_sigignore := p_sigignore parent|>
       <|p_wchan := 0|><|p_slptime := 0|>.

(** [child->p_hash = *hash; *hash = child;] *)
Definition hash_enter (c : nat) : M unit :=
  x ← at_ c;
  h ← gets pidhash;
  hd ← lift (rdz h (PIDHASH (p_pid x)));
  setp c (λ x, x<|p_hash := hd|>);;
  h ← lift (wrz h (PIDHASH (p_pid x)) (Some c));
  modify (λ s, s<|pidhash := h|>).

(** Onto [allproc], which is never empty. *)
Definition allproc_enter (c : nat) : M unit :=
  a ← gets allproc;
  setp c (λ x, x<|p_nxt := a|>);;
  match a with
  | None => lift Wild
  | Some i => setp i (λ x, x<|p_prev := Some (NxtOf c)|>)
  end;;
  setp c (λ x, x<|p_prev := Some AllProc|>);;
  modify (λ s, s<|allproc := Some c|>).

(** A free entry becomes a process. *)
Definition proc_enter : M nat :=
  f ← gets freeproc;
  match f with
  | None => panic "no procs"
  | Some c =>
      x ← at_ c;
      modify (λ s, s<|freeproc := p_nxt x|>);;
      pp ← curproc;
      parent ← at_ pp;
      pid ← gets mpid;
      setp c (λ x, inherit parent x pp pid);;
      hash_enter c;;
      allproc_enter c;;
      mret c
  end.

(** [while (child->p_flag & SVFORK) sleep((caddr_t)child, PSWP+1);] *)
Fixpoint vfork_wait (fuel : nat) (c : nat) : M unit :=
  x ← at_ c;
  if has (p_flag x) SVFORK then
    match fuel with O => lift Spin | S fuel => sleep (proc_addr c) (PSWP + 1);; vfork_wait fuel c end
  else mret tt.

Definition newproc_vfork (fuel : nat) (pp c : nat) : M unit :=
  setp pp (λ x, x<|p_dsize := 0|>);;
  setp pp (λ x, x<|p_ssize := 0|>);;
  setp c (λ x, x<|p_flag ::= λ f, Z.lor f SVFORK|>);;
  setp pp (λ x, x<|p_flag ::= λ f, Z.lor f SVFPRNT|>);;
  vfork_wait fuel c;;
  x ← at_ c;
  if negb (has (p_flag x) SLOAD) then panic "newproc vfork"
  else
    setp pp (λ y, y<|p_dsize := p_dsize x|>);; setu (λ v, v<|u_dsize := p_dsize x|>);;
    setp pp (λ y, y<|p_daddr := p_daddr x|>);;
    setp c (λ x, x<|p_dsize := 0|>);;
    setp pp (λ y, y<|p_ssize := p_ssize x|>);; setu (λ v, v<|u_ssize := p_ssize x|>);;
    setp pp (λ y, y<|p_saddr := p_saddr x|>);;
    setp c (λ x, x<|p_ssize := 0|>);;
    setp c (λ x, x<|p_flag ::= λ f, Z.lor f SVFDONE|>);;
    wakeup (proc_addr pp);;
    setp pp (λ x, x<|p_flag ::= λ f, bic f SVFPRNT|>).

(** [newproc] in the parent, where it returns 0.  The child resumes where
    [u_ssave] was set, with the saved user area. *)
Definition newproc (fuel : nat) (isvfork : bool) : M unit :=
  newpid;;
  pp ← curproc;
  c ← proc_enter;
  share_files;;
  parent ← at_ pp;
  setp c (λ x, x<|p_dsize := p_dsize parent|>);;
  setp c (λ x, x<|p_ssize := p_ssize parent|>);;
  setp c (λ x, x<|p_daddr := p_daddr parent|>);;
  setp c (λ x, x<|p_saddr := p_saddr parent|>);;
  setu (λ v, v<|u_procp := c|>);;
  setp pp (λ x, x<|p_stat := SIDL|>);;
  parent ← at_ pp;
  setp c (λ x, x<|p_addr := p_addr parent|>);;
  setp c (λ x, x<|p_stat := SRUN|>);;
  swapout c;;
  setp c (λ x, x<|p_flag ::= λ f, Z.lor f SSWAP|>);;
  setp pp (λ x, x<|p_stat := SRUN|>);;
  setu (λ v, v<|u_procp := pp|>);;
  if isvfork then newproc_vfork fuel pp c else mret tt.

(** ** fork *)
Definition count_owned (head : kern → option nat) (a : Z) : M Z :=
  uid ← gets (λ s, u_uid (u s));
  for_procs head a (λ a p, x ← at_ p; mret (if u32 (p_uid x) =? uid then a + 1 else a)).
Definition fork1 (fuel : nat) (isvfork : bool) : M unit :=
  uid ← gets (λ s, u_uid (u s));
  a ← (if negb (uid =? 0) then a ← count_owned allproc 0; count_owned zombproc a else mret 0);
  p2 ← gets freeproc;
  match p2 with
  | None => set_error EAGAIN
  | Some p2 =>
      x ← at_ p2;
      if negb (uid =? 0) && (bool_decide (p_nxt x = None) || (MAXUPRC <? a)) then set_error EAGAIN
      else
        newproc fuel isvfork;;
        y ← at_ p2;
        set_rval (p_pid y)
  end.
(** What the child does when [newproc] returns 1. *)
Definition fork1_child : M unit :=
  set_rval 0;;
  t ← gets time_sec;
  setu (λ v, v<|u_start := t|>);;
  setu (λ v, v<|u_ru := no_usage|>);;
  setu (λ v, v<|u_cru := no_usage|>).
Definition fork (fuel : nat) : M unit := fork1 fuel false.
Definition vfork (fuel : nat) : M unit := fork1 fuel true.
End Fork.

(** ** The choice of a process id *)
Section Pids.
Implicit Types (s : kern) (x : proc).

Definition with_pid s (m c : Z) : kern := s<|mpid := m|><|pidchecked := c|>.

Lemma with_pid_id s : with_pid s (mpid s) (pidchecked s) = s.
Proof. by destruct s. Qed.

(** [m] is not the process id of any of [l], and those above it are at least
    [c]: the ids from [m] up to [c] are known to be free. *)
Definition clear_below s (l : list nat) (m c : Z) : Prop :=
  ∀ i x, i ∈ l → procs s !! i = Some x → p_pid x ≠ m ∧ (m < p_pid x → c ≤ p_pid x).

(** No process has the id next to the number of its group. *)
Definition not_next s (l : list nat) : Prop :=
  ∀ i x, i ∈ l → procs s !! i = Some x → 0 < p_pgrp x → p_pid x ≠ p_pgrp x + 1.

(** The numbers in use, and how many of them are at least [m]. *)
Definition in_use s (l : list nat) : list Z :=
  l ≫= λ i, match procs s !! i with Some x => [p_pid x; p_pgrp x] | None => [] end.
Definition above (U : list Z) (m : Z) : Z := Z.of_nat (length (filter (λ q, m ≤ q) U)).

Lemma above_range U m : 0 ≤ above U m ≤ Z.of_nat (length U).
Proof. unfold above. pose proof (length_filter (λ q, m ≤ q) U). lia. Qed.
Lemma above_step U m : m ∈ U → above U (m + 1) + 1 ≤ above U m.
Proof.
  unfold above. induction U as [|q U IH]; [by intros ?%elem_of_nil|]. rewrite !filter_cons.
  assert (HM : Z.of_nat (length (filter (λ q, m + 1 ≤ q) U)) ≤ Z.of_nat (length (filter (λ q, m ≤ q) U))).
  { clear. induction U as [|q U IH]; [done|]. rewrite !filter_cons. repeat case_decide; simpl; lia. }
  intros [->|Hm]%elem_of_cons.
  - rewrite decide_False by lia. rewrite decide_True by lia. simpl. lia.
  - specialize (IH Hm). repeat case_decide; simpl; lia.
Qed.
Lemma in_use_pid s l i x : i ∈ l → procs s !! i = Some x → p_pid x ∈ in_use s l ∧ p_pgrp x ∈ in_use s l.
Proof.
  intros Hi Hx. unfold in_use.
  split; (apply list_elem_of_bind; exists i; split; [rewrite Hx|done]); set_solver.
Qed.
Lemma in_use_length s l : (length (in_use s l) ≤ 2 * length l)%nat.
Proof.
  unfold in_use. induction l as [|i l IH]; [simpl; lia|]. rewrite bind_cons, length_app. simpl length.
  destruct (procs s !! i); simpl; lia.
Qed.

Lemma clear_below_snoc s l i x m c :
  clear_below s l m c → procs s !! i = Some x → p_pid x ≠ m → (m < p_pid x → c ≤ p_pid x) → clear_below s (l ++ [i]) m c.
Proof.
  intros HC Hx H1 H2 j y [Hj| ->%list_elem_of_singleton]%elem_of_app Hy; [by eapply HC|]. by simplify_eq.
Qed.
Lemma clear_below_le s l m c c' : clear_below s l m c → c' ≤ c → clear_below s l m c'.
Proof. intros HC Hc j y Hj Hy. destruct (HC j y Hj Hy) as [H1 H2]. split; [done|]. intros Hm. specialize (H2 Hm). lia. Qed.
(** Going up by one below [c]. *)
Lemma clear_below_up s l m c : clear_below s l m c → m + 1 < c → clear_below s l (m + 1) c.
Proof.
  intros HC Hc j y Hj Hy. destruct (HC j y Hj Hy) as [H1 H2].
  split; [|intros Hm; apply H2; lia]. intros E. specialize (H2 ltac:(lia)). lia.
Qed.

(** [if (q > mpid && pidchecked > q) pidchecked = q;] *)
Lemma wp_lower s m c q (Q : unit → kern → Prop) :
  Q tt (with_pid s m (if (m <? q) && (q <? c) then q else c)) →
  wp (if (m <? q) && (q <? c) then modify (λ s, s<|pidchecked := q|>) else mret tt) Q (with_pid s m c).
Proof. intros HQ. by destruct (_ && _). Qed.

(** The loop over the processes [l], after [seen]. *)
Lemma wp_pid_scan s U l : ∀ fuel h m c seen,
  lseg p_nxt (procs s) h l None → (length l ≤ fuel)%nat → 0 < m < c ∧ c ≤ PID_MAX → clear_below s seen m c → not_next s l →
  (∀ i x, i ∈ l → procs s !! i = Some x → p_pid x ∈ U ∧ p_pgrp x ∈ U) →
  wp (pid_scan fuel h) (λ r s', ∃ m' c', s' = with_pid s m' c' ∧ m ≤ m' ≤ PID_MAX ∧ above U m' + (m' - m) ≤ above U m ∧
    if (r : bool) then m < m' ∧ c' ≤ m' else m' < c' ≤ PID_MAX ∧ clear_below s (seen ++ l) m' c') (with_pid s m c).
Proof.
  induction l as [|i l IH]; intros fuel h m c seen Hh Hf Hm HC HN HU.
  { simpl in Hh. subst h. destruct fuel; (apply wp_ret; exists m, c; rewrite app_nil_r; split_and!; try done; lia). }
  destruct Hh as (-> & x & Hx & Hl). destruct fuel as [|fuel]; simpl in Hf; [lia|]. cbn [pid_scan].
  destruct (HU i x ltac:(set_solver) Hx) as [U1 U2]. pose proof (HN i x ltac:(set_solver) Hx) as Hnn.
  (* the rest of the body and of the loop *)
  assert (HR : ∀ m1 c1, m ≤ m1 < c1 → c1 ≤ PID_MAX → above U m1 + (m1 - m) ≤ above U m → clear_below s seen m1 c1 →
    p_pid x ≠ m1 →
    wp (m ← gets mpid; c ← gets pidchecked;
        (if (m <? p_pid x) && (p_pid x <? c) then modify (λ s, s<|pidchecked := p_pid x|>) else mret tt);;
        c ← gets pidchecked;
        (if (m <? p_pgrp x) && (p_pgrp x <? c) then modify (λ s, s<|pidchecked := p_pgrp x|>) else mret tt);;
        pid_scan fuel (p_nxt x)) (λ r s', ∃ m' c', s' = with_pid s m' c' ∧ m ≤ m' ≤ PID_MAX ∧
          above U m' + (m' - m) ≤ above U m ∧
          if (r : bool) then m < m' ∧ c' ≤ m' else m' < c' ≤ PID_MAX ∧ clear_below s (seen ++ i :: l) m' c')
      (with_pid s m1 c1)).
  { intros m1 c1 Hm1 Hc1 Hab HC1 Hne. do 2 apply wp_bind, wp_gets. apply wp_bind.
    change (mpid (with_pid s m1 c1)) with m1. change (pidchecked (with_pid s m1 c1)) with c1.
    set (c2 := if (m1 <? p_pid x) && (p_pid x <? c1) then p_pid x else c1).
    apply wp_lower. fold c2. apply wp_bind, wp_gets. apply wp_bind. change (pidchecked (with_pid s m1 c2)) with c2.
    set (c3 := if (m1 <? p_pgrp x) && (p_pgrp x <? c2) then p_pgrp x else c2).
    apply wp_lower. fold c3. assert (Hc2 : m1 < c2 ≤ c1 ∧ (m1 < p_pid x → c2 ≤ p_pid x)).
    { unfold c2. destruct (Z.ltb_spec m1 (p_pid x)), (Z.ltb_spec (p_pid x) c1); simpl; lia. }
    assert (Hc3 : m1 < c3 ≤ c2).
    { unfold c3. destruct (Z.ltb_spec m1 (p_pgrp x)), (Z.ltb_spec (p_pgrp x) c2); simpl; lia. }
    eapply wp_mono; [apply (IH fuel (p_nxt x) m1 c3 (seen ++ [i]))|].
    - done.
    - lia.
    - lia.
    - eapply clear_below_snoc; [eapply clear_below_le; [exact HC1|lia]|done|done|lia].
    - intros j y Hj. apply HN. set_solver.
    - intros j y Hj. apply HU. set_solver.
    - intros r s' (m' & c' & -> & B1 & B2 & B3). exists m', c'. split_and!; [done|lia|lia|lia|].
      rewrite <- app_assoc in B3. destruct r; [lia|done]. }
  apply wp_bind. eapply wp_at; [exact Hx|]. apply wp_bind, wp_gets. change (mpid (with_pid s m c)) with m.
  destruct ((p_pid x =? m) || (p_pgrp x =? m)) eqn:Ehit.
  - assert (Hin : m ∈ U) by (apply orb_true_iff in Ehit as [E%Z.eqb_eq|E%Z.eqb_eq]; by rewrite <- E).
    pose proof (above_step U m Hin) as Hab. apply wp_bind. apply wp_bind, wp_modify. do 2 apply wp_bind, wp_gets. apply wp_ret.
    change (field_map mpid (λ m, m + 1) (with_pid s m c)) with (with_pid s (m + 1) c).
    change (mpid (with_pid s (m + 1) c)) with (m + 1). change (pidchecked (with_pid s (m + 1) c)) with c.
    destruct (Z.leb_spec c (m + 1)) as [Hc|Hc].
    + apply wp_ret. exists (m + 1), c. split_and!; [done|lia|lia|lia|lia|lia].
    + apply HR; [lia|lia|lia|by apply clear_below_up|]. apply orb_true_iff in Ehit as [E%Z.eqb_eq|E%Z.eqb_eq]; [lia|].
      intros E'. apply Hnn; lia.
  - apply orb_false_iff in Ehit as [E1%Z.eqb_neq E2%Z.eqb_neq]. apply wp_bind, wp_ret. apply HR; [lia|lia|lia|done|done].
Qed.

(** What the search relies on. *)
Record pid_env s (all zomb : list nat) : Prop := PidEnv {
  pe_all : lseg p_nxt (procs s) (allproc s) all None;
  pe_zomb : lseg p_nxt (procs s) (zombproc s) zomb None;
  pe_nodup : NoDup (all ++ zomb);
  pe_next : not_next s (all ++ zomb);
  pe_small : 100 + 2 * Z.of_nat (length (procs s)) < PID_MAX }.

(** The search found an id that no process has. *)
Definition pid_found s (l : list nat) s' : Prop :=
  ∃ m c, s' = with_pid s m c ∧ 0 < m < PID_MAX ∧ clear_below s l m c.

(** One turn from an id below the limit; [k] is the next turn. *)
Lemma wp_pid_turn s all zomb m c fuel :
  pid_env s all zomb → 0 < m < PID_MAX → (m < c → clear_below s (all ++ zomb) m c) →
  let U := in_use s (all ++ zomb) in
  (∀ m' c', m < m' ≤ PID_MAX → c' ≤ m' → above U m' + (m' - m) ≤ above U m →
     wp (pid_search fuel) (λ _ s', pid_found s (all ++ zomb) s') (with_pid s m' c')) →
  wp (pid_search (S fuel)) (λ _ s', pid_found s (all ++ zomb) s') (with_pid s m c).
Proof.
  intros He Hm HC U Hk. cbn [pid_search]. apply wp_bind, wp_gets. change (mpid (with_pid s m c)) with m.
  rewrite (proj2 (Z.leb_gt PID_MAX m)) by lia. apply wp_bind, wp_ret. do 2 apply wp_bind, wp_gets.
  change (mpid (with_pid s m c)) with m. change (pidchecked (with_pid s m c)) with c.
  destruct (Z.leb_spec c m) as [Hc|Hc].
  2:{ apply wp_ret. exists m, c. split_and!; [done|lia|lia|auto]. }
  assert (HU : ∀ (l : list nat) i x, (∀ j, j ∈ l → j ∈ all ++ zomb) → i ∈ l → procs s !! i = Some x → p_pid x ∈ U ∧ p_pgrp x ∈ U).
  { intros l i x Hl Hi Hx. apply (in_use_pid s _ i x (Hl i Hi) Hx). }
  assert (HN : ∀ l : list nat, (∀ j, j ∈ l → j ∈ all ++ zomb) → not_next s l).
  { intros l Hl i x Hi. apply (pe_next _ _ _ He). auto. }
  assert (Hlen : ∀ h l, lseg p_nxt (procs s) h l None → NoDup l → (length l ≤ length (procs s))%nat).
  { intros h l Hl Hnd. apply NoDup_lt_length; [done|]. by eapply lseg_lt. }
  pose proof (pe_nodup _ _ _ He) as (Hnd1 & _ & Hnd2)%NoDup_app. unfold PID_MAX in *.
  apply wp_bind, wp_modify. do 2 apply wp_bind, wp_gets. apply wp_bind.
  change ((with_pid s m c)<|pidchecked := 30000|>) with (with_pid s m 30000).
  eapply wp_mono; [apply (wp_pid_scan s U all (length (procs s)) (allproc s) m 30000 [] (pe_all _ _ _ He))|].
  - apply (Hlen (allproc s)); [apply He|done].
  - unfold PID_MAX. lia.
  - by intros i x ?%elem_of_nil.
  - apply HN. set_solver.
  - intros i x. apply HU. set_solver.
  - intros r s' (m1 & c1 & -> & B1 & B2 & B3). destruct r; [apply Hk; unfold PID_MAX in *; lia|].
    destruct B3 as [B3 B4]. apply wp_bind, wp_gets. apply wp_bind. change (zombproc (with_pid s m1 c1)) with (zombproc s).
    eapply wp_mono; [apply (wp_pid_scan s U zomb (length (procs s)) (zombproc s) m1 c1 all (pe_zomb _ _ _ He))|].
    + apply (Hlen (zombproc s)); [apply He|done].
    + lia.
    + done.
    + apply HN. set_solver.
    + intros i x. apply HU. set_solver.
    + intros r s' (m2 & c2 & -> & D1 & D2 & D3). destruct r; [apply Hk; unfold PID_MAX in *; lia|].
      apply wp_ret. exists m2, c2. unfold PID_MAX in *. split_and!; [done|lia|lia|apply D3].
Qed.

(** After the wrap the search stays below the limit. *)
Lemma wp_pid_search_low s all zomb : pid_env s all zomb → ∀ fuel m c,
  let U := in_use s (all ++ zomb) in
  0 < m → m + above U m < PID_MAX → above U m < Z.of_nat fuel → (m < c → clear_below s (all ++ zomb) m c) →
  wp (pid_search fuel) (λ _ s', pid_found s (all ++ zomb) s') (with_pid s m c).
Proof.
  intros He fuel. induction fuel as [|fuel IH]; intros m c U Hm Hlim Hf HC; pose proof (above_range U m) as [Hr _]; [lia|].
  apply wp_pid_turn; [done|lia|done|]. fold U. intros m' c' Hm' Hc' Hab. apply IH; fold U; [lia|lia|lia|lia].
Qed.
Lemma wp_pid_search s all zomb : pid_env s all zomb → ∀ fuel m c,
  let U := in_use s (all ++ zomb) in
  0 < m ≤ PID_MAX → above U m + Z.of_nat (length U) + 1 < Z.of_nat fuel → (m < c → clear_below s (all ++ zomb) m c) →
  wp (pid_search fuel) (λ _ s', pid_found s (all ++ zomb) s') (with_pid s m c).
Proof.
  intros He fuel. induction fuel as [|fuel IH]; intros m c U Hm Hf HC; pose proof (above_range U m) as [Hr _]; [lia|].
  destruct (decide (m = PID_MAX)) as [->|Hne].
  - assert (HE : wp (pid_search (S fuel)) (λ _ s', pid_found s (all ++ zomb) s') (with_pid s 100 0)).
    { pose proof (above_range U 100) as [_ Ha]. pose proof (in_use_length s (all ++ zomb)) as Hl. fold U in Hl.
      assert (Hn : (length (all ++ zomb) ≤ length (procs s))%nat).
      { apply NoDup_lt_length; [apply He|]. apply Forall_app. split; eapply lseg_lt; apply He. }
      pose proof (pe_small _ _ _ He). apply wp_pid_search_low; fold U; [done|lia|lia|lia|lia]. }
    cbn [pid_search] in *. exact HE.
  - apply wp_pid_turn; [done|lia|done|]. fold U. intros m' c' Hm' Hc' Hab. apply IH; fold U; [lia|lia|lia].
Qed.
End Pids.

(** C30. The process id for a new process is one that no process, live or
    zombie, has: the search ends, whatever ids are in use, with an id between
    1 and 29999, and leaves right what it remembers about free ids; provided
    no process has the id next above the number of its process group. *)
Theorem newpid_fresh (s : kern) (all zomb : list nat) :
  pid_env s all zomb → 0 ≤ mpid s < PID_MAX →
  (∀ i x, i ∈ all ++ zomb → procs s !! i = Some x → mpid s < p_pid x → pidchecked s ≤ p_pid x) →
  wp newpid (λ _ s', s' = s<|mpid := mpid s'|><|pidchecked := pidchecked s'|> ∧ 0 < mpid s' < PID_MAX ∧
    ∀ i x, i ∈ all ++ zomb → procs s !! i = Some x →
      p_pid x ≠ mpid s' ∧ (mpid s' < p_pid x → pidchecked s' ≤ p_pid x)) s.
Proof.
  intros He Hm HC. unfold newpid. apply wp_bind, wp_modify. apply wp_bind, wp_gets.
  change (length (procs (s<|mpid ::= λ m, m + 1|>))) with (length (procs s)).
  replace (s<|mpid ::= λ m, m + 1|>) with (with_pid s (mpid s + 1) (pidchecked s)) by (by destruct s).
  set (U := in_use s (all ++ zomb)). pose proof (above_range U (mpid s + 1)) as [_ Ha].
  pose proof (in_use_length s (all ++ zomb)) as Hl. fold U in Hl.
  assert (Hn : (length (all ++ zomb) ≤ length (procs s))%nat).
  { apply NoDup_lt_length; [apply He|]. apply Forall_app. split; eapply lseg_lt; apply He. }
  eapply wp_mono; [apply (wp_pid_search s all zomb He); fold U|].
  - unfold PID_MAX in *. lia.
  - lia.
  - intros Hc i x Hi Hx. specialize (HC i x Hi Hx). split; [intros E; lia|]. intros. apply HC. lia.
  - intros [] s' (m & c & -> & Hr & HF). split_and!; [done|apply Hr|apply Hr|exact HF].
Qed.

(** Processes whose numbers are all below [m] do not matter to the search. *)
Lemma wp_pid_scan_low s l : ∀ fuel h m c r,
  lseg p_nxt (procs s) h (l ++ r) None → (length l ≤ fuel)%nat →
  (∀ i x, i ∈ l → procs s !! i = Some x → p_pid x < m ∧ p_pgrp x < m) →
  ∀ Q : bool → kern → Prop,
    (∀ h', lseg p_nxt (procs s) h' r None → wp (pid_scan (fuel - length l) h') Q (with_pid s m c)) →
    wp (pid_scan fuel h) Q (with_pid s m c).
Proof.
  induction l as [|i l IH]; intros fuel h m c r Hh Hf Hlow Q HQ.
  { rewrite Nat.sub_0_r in HQ. by apply HQ. }
  destruct Hh as (-> & x & Hx & Hl). destruct fuel as [|fuel]; simpl in Hf; [lia|]. cbn [pid_scan].
  destruct (Hlow i x ltac:(set_solver) Hx) as [L1 L2].
  apply wp_bind. eapply wp_at; [exact Hx|]. apply wp_bind, wp_gets. change (mpid (with_pid s m c)) with m.
  rewrite (proj2 (Z.eqb_neq (p_pid x) m)), (proj2 (Z.eqb_neq (p_pgrp x) m)) by lia. apply wp_bind, wp_ret.
  do 2 apply wp_bind, wp_gets. change (mpid (with_pid s m c)) with m. change (pidchecked (with_pid s m c)) with c.
  apply wp_bind. rewrite (proj2 (Z.ltb_ge m (p_pid x))) by lia. apply wp_ret. apply wp_bind, wp_gets. apply wp_bind.
  rewrite (proj2 (Z.ltb_ge m (p_pgrp x))) by lia. apply wp_ret.
  eapply (IH fuel (p_nxt x) m c r); [done|lia|intros j y Hj; apply Hlow; set_solver|]. exact HQ.
Qed.

(** The search can return an id that is in use: when a process is in a
    group [m] whose leader is gone and has the id [m + 1], as the second
    command of a pipeline does, a search that comes to [m] skips it and
    returns [m + 1], because the entry that made it skip is not compared with
    the new candidate. *)
Theorem newpid_duplicate (s : kern) (all : list nat) (i : nat) (x : proc) (m : Z) :
  lseg p_nxt (procs s) (allproc s) all None → NoDup all → zombproc s = None → i ∈ all → procs s !! i = Some x →
  p_pgrp x = m → p_pid x = m + 1 → (∀ j y, j ∈ all → j ≠ i → procs s !! j = Some y → p_pid y < m ∧ p_pgrp y < m) →
  mpid s = m - 1 → pidchecked s ≤ m → m + 1 < PID_MAX →
  wp newpid (λ _ s', mpid s' = p_pid x) s.
Proof.
  intros Hl Hnd Hz Hi Hx Hg Hp Hlow Hm Hc Hmax. unfold newpid. apply wp_bind, wp_modify. apply wp_bind, wp_gets.
  replace (s<|mpid ::= λ m, m + 1|>) with (with_pid s m (pidchecked s)) by (destruct s; simpl in *; subst; unfold with_pid, field_map; simpl; f_equal; lia).
  rewrite Nat.add_comm. cbn [Nat.add pid_search]. apply wp_bind, wp_gets. change (mpid (with_pid s m (pidchecked s))) with m.
  rewrite (proj2 (Z.leb_gt PID_MAX m)) by lia. apply wp_bind, wp_ret. do 2 apply wp_bind, wp_gets.
  change (mpid (with_pid s m (pidchecked s))) with m. change (pidchecked (with_pid s m (pidchecked s))) with (pidchecked s).
  rewrite (proj2 (Z.leb_le _ _) Hc). apply wp_bind, wp_modify. do 2 apply wp_bind, wp_gets. apply wp_bind.
  change ((with_pid s m (pidchecked s))<|pidchecked := PID_MAX|>) with (with_pid s m PID_MAX).
  change (allproc (with_pid s m PID_MAX)) with (allproc s). change (length (procs (with_pid s m PID_MAX))) with (length (procs s)).
  assert (Hlen : (length all ≤ length (procs s))%nat) by (apply NoDup_lt_length; [done|]; by eapply lseg_lt).
  apply list_elem_of_split in Hi as (l1 & l2 & ->). rewrite length_app in Hlen. simpl in Hlen.
  assert (Hout : ∀ j, j ∈ l1 ∨ j ∈ l2 → j ≠ i).
  { apply NoDup_app in Hnd as (_ & Hd & [Hn2 _]%NoDup_cons). intros j [Hj|Hj] ->; [|done].
    apply (Hd i Hj). apply list_elem_of_here. }
  eapply wp_pid_scan_low; [exact Hl|lia| |].
  { intros j y Hj Hy. apply (Hlow j y); [set_solver|by apply Hout; left|done]. }
  intros h' (-> & x' & Hx' & Hl2). assert (x' = x) as -> by congruence. clear Hx'.
  remember (length (procs s) - length l1)%nat as n eqn:En.
  assert (∃ k, n = S k) as [k Hk] by (exists (n - 1)%nat; lia). rewrite Hk in En |- *. cbn [pid_scan].
  apply wp_bind. eapply wp_at; [exact Hx|]. apply wp_bind, wp_gets.
  change (mpid (with_pid s m PID_MAX)) with m. rewrite (proj2 (Z.eqb_eq _ _) Hg), orb_true_r.
  apply wp_bind. apply wp_bind, wp_modify. do 2 apply wp_bind, wp_gets. apply wp_ret.
  change (field_map mpid (λ m, m + 1) (with_pid s m PID_MAX)) with (with_pid s (m + 1) PID_MAX).
  change (mpid (with_pid s (m + 1) PID_MAX)) with (m + 1). change (pidchecked (with_pid s (m + 1) PID_MAX)) with PID_MAX.
  rewrite (proj2 (Z.leb_gt PID_MAX (m + 1))) by lia. do 2 apply wp_bind, wp_gets. apply wp_bind.
  change (mpid (with_pid s (m + 1) PID_MAX)) with (m + 1). rewrite (proj2 (Z.ltb_ge (m + 1) (p_pid x))) by lia. apply wp_ret.
  apply wp_bind, wp_gets. apply wp_bind. rewrite (proj2 (Z.ltb_ge (m + 1) (p_pgrp x))) by lia. apply wp_ret.
  eapply (wp_pid_scan_low s l2 k (p_nxt x) (m + 1) PID_MAX []); [by rewrite app_nil_r|lia| |].
  { intros j y Hj Hy. destruct (Hlow j y) as [L1 L2]; [set_solver|by apply Hout; right|done|]. lia. }
  intros h' ->. assert (HE : ∀ f, pid_scan f None = mret false) by (by intros []). rewrite HE. apply wp_ret.
  apply wp_bind, wp_gets. apply wp_bind. change (zombproc (with_pid s (m + 1) PID_MAX)) with (zombproc s). rewrite Hz, HE.
  apply wp_ret. apply wp_ret. by rewrite Hp.
Qed.

(** ** Examples *)
Lemma newpid_fresh_witness :
  wp newpid (λ _ s', s' = (ex_kern 100)<|mpid := mpid s'|><|pidchecked := pidchecked s'|> ∧ 0 < mpid s' < PID_MAX ∧
    ∀ i x, i ∈ [2; 1; 0]%nat ++ [] → procs (ex_kern 100) !! i = Some x →
      p_pid x ≠ mpid s' ∧ (mpid s' < p_pid x → pidchecked s' ≤ p_pid x)) (ex_kern 100).
Proof.
  assert (HI : ∀ i x, i ∈ [2; 1; 0]%nat ++ [] → procs (ex_kern 100) !! i = Some x → p_pid x ≤ 2 ∧ p_pgrp x = 0).
  { intros i x [-> | [-> | [-> | []%elem_of_nil]%elem_of_cons]%elem_of_cons]%elem_of_cons [= <-]; vm_compute; split; done. }
  apply (newpid_fresh (ex_kern 100) [2; 1; 0]%nat []).
  - split.
    + simpl. repeat (split; [done|]; eexists; split; [done|]). done.
    + done.
    + apply (bool_decide_eq_true_1 _). vm_compute. reflexivity.
    + intros i x Hi Hx. destruct (HI i x Hi Hx). lia.
    + vm_compute. reflexivity.
  - vm_compute. split; [discriminate|reflexivity].
  - intros i x Hi Hx. destruct (HI i x Hi Hx). change (mpid (ex_kern 100)) with 2. lia.
Defined.

(** A process 8 of the group 7, whose leader is gone; 6 was given out last. *)
Definition ex_member : proc := (slot (Some 1%nat) (Some AllProc) (Some 1%nat) SLOAD 100 8 1 SRUN)<|p_pgrp := 7|>.
Definition ex_orphan : kern := (ex_kern 100)<|procs := <[2%nat := ex_member]> ex_procs|><|mpid := 6|><|pidchecked := 7|>.
Lemma newpid_duplicate_witness :
  p_pid ex_member = 8 ∧ wp newpid (λ _ s', mpid s' = p_pid ex_member) ex_orphan.
Proof.
  split; [reflexivity|]. apply (newpid_duplicate ex_orphan [2; 1; 0]%nat 2 ex_member 7); try done.
  - simpl. repeat (split; [done|]; eexists; split; [done|]). done.
  - apply (bool_decide_eq_true_1 _). vm_compute. reflexivity.
  - set_solver.
  - intros j y [-> | [-> | [-> | []%elem_of_nil]%elem_of_cons]%elem_of_cons]%elem_of_cons Hj [= <-]; [done| |]; vm_compute; done.
Defined.
