(* ===== verification/Exit.v ===== *)
(** * The end of processes

    kernel/kern_exit.c: [exit], which leaves of a process only its exit
    record, and [wait4], which hands the record to the parent and makes the
    entry of the process table free again. *)
From stdpp Require Import base tactics list option strings numbers gmap.
From S2P Require Import Prelude Descrip Proc Prot Synch Signal Kill Resource Fork.
Open Scope Z_scope.

Definition RLIMIT_FSIZE : Z := 1.
Definition PWAIT : Z := 30.
Definition PCATCH : Z := 0x100.
Definition WAIT_ANY : Z := -1.
Definition WAIT_MYPGRP : Z := 0.
Definition WNOHANG : Z := 1.
Definition WUNTRACED : Z := 2.
Definition WSTOPPED : Z := 0x7f.
Definition W_STOPCODE (sig : Z) : Z := Z.lor (Z.shiftl sig 8) WSTOPPED.
Definition W_EXITCODE (ret sig : Z) : Z := s32 (Z.lor (Z.shiftl ret 8) sig).

(** ** The exit record

    The record of a zombie, [p_xstat] and then the ten words of [p_ru], lies
    over the members that only a live process needs: this is what those
    members are when read after it was written, the low byte of a word first.
    (The words over the two pointers, [p_hash] and [p_link], are not
    followed: a zombie is in no hash chain and on no queue.) *)
Definition overlay (x : proc) : proc :=
  let w := p_xstat x in let r := p_ru x in
  x<|p_pri := s8 w|><|p_cpu := s8 (Z.shiftr w 8)|><|p_time := s8 (Z.shiftr w 16)|><|p_nice := s8 (Z.shiftr w 24)|>
   <|p_slptime := s8 (ru_utime r)|><|p_ptracesig := s8 (Z.shiftr (ru_utime r) 8)|><|p_hash := None|>
   <|p_sigmask := ru_nswap r|><|p_sigignore := ru_inblock r|><|p_sigcatch := ru_oublock r|><|p_pgrp := s16 (ru_msgsnd r)|>
   <|p_link := None|><|p_addr := u32 (ru_nsignals r)|><|p_daddr := u32 (ru_nvcsw r)|><|p_saddr := u32 (ru_nivcsw r)|>.

(** [tsleep] waits on a channel and returns 0 or an error. *)
Class WaitOps := tsleep : Z → Z → Z → M Z.

Section Exit.
Context `{Layout} `{ForkOps}.

(** ** Lists *)

(** [*r = x] *)
Definition store_pref (r : option pref) (x : option nat) : M unit :=
  match r with
  | None => lift Wild
  | Some AllProc => modify (λ s, s<|allproc := x|>)
  | Some ZombProc => modify (λ s, s<|zombproc := x|>)
  | Some (NxtOf i) => setp i (λ y, y<|p_nxt := x|>)
  end.
(** [if (( *p->p_prev = p->p_nxt) != NULL) p->p_nxt->p_prev = p->p_prev;] *)
Definition unlist (p : nat) : M unit :=
  x ← at_ p;
  store_pref (p_prev x) (p_nxt x);;
  match p_nxt x with
  | None => mret tt
  | Some n => setp n (λ y, y<|p_prev := p_prev x|>)
  end.
(** Onto [zombproc]. *)
Definition zombie_enter (p : nat) : M unit :=
  z ← gets zombproc;
  setp p (λ x, x<|p_nxt := z|>);;
  match z with
  | None => mret tt
  | Some n => setp n (λ y, y<|p_prev := Some (NxtOf p)|>)
  end;;
  setp p (λ x, x<|p_prev := Some ZombProc|>);;
  modify (λ s, s<|zombproc := Some p|>);;
  setp p (λ x, x<|p_stat := SZOMB|>).

(** Out of the hash chain; [prev]: the entry whose [p_hash] is [*pp], [None]:
    the head [h] of the chain. *)
Definition store_hash (h : Z) (prev : option nat) (x : option nat) : M unit :=
  match prev with
  | None => l ← gets pidhash; l ← lift (wrz l h x); modify (λ s, s<|pidhash := l|>)
  | Some i => setp i (λ y, y<|p_hash := x|>)
  end.
Fixpoint unhash_loop (fuel : nat) (h : Z) (prev q : option nat) (p : nat) : M unit :=
  match q with
  | None => panic "exit"
  | Some i =>
      match fuel with
      | O => lift Spin
      | S fuel =>
          x ← at_ i;
          if (i =? p)%nat then store_hash h prev (p_hash x) else unhash_loop fuel h (Some i) (p_hash x) p
      end
  end.
Definition unhash (p : nat) : M unit :=
  x ← at_ p;
  l ← gets pidhash; hd ← lift (rdz l (PIDHASH (p_pid x)));
  n ← gets (λ s, length (procs s));
  unhash_loop n (PIDHASH (p_pid x)) None hd p.

(** ** exit *)

(** [while (! (rpp->p_flag & SVFDONE)) sleep ((caddr_t) rip, PZERO-1);] *)
Fixpoint vfdone_wait (fuel : nat) (p : nat) (chan : Z) : M unit :=
  x ← at_ p;
  if has (p_flag x) SVFDONE then mret tt
  else match fuel with O => lift Spin | S fuel => sleep chan (PZERO - 1);; vfdone_wait fuel p chan end.
Definition endvfork (fuel : nat) : M unit :=
  p ← curproc;
  x ← at_ p;
  setp p (λ x, x<|p_flag ::= λ f, bic f SVFORK|>);;
  setp p (λ x, x<|p_flag ::= λ f, Z.lor f SLOCK|>);;
  wakeup (proc_addr p);;
  vfdone_wait fuel p (chan_of (p_pptr x));;
  setp p (λ x, x<|p_dsize := 0|>);; setu (λ v, v<|u_dsize := 0|>);;
  setp p (λ x, x<|p_ssize := 0|>);; setu (λ v, v<|u_ssize := 0|>);;
  setp p (λ x, x<|p_flag ::= λ f, bic f (Z.lor SVFDONE SLOCK)|>).

(** Up to the loop that closes the files. *)
Definition exit_begin : M unit :=
  p ← curproc;
  setp p (λ x, x<|p_flag ::= λ f, bic f P_TRACED|>);;
  setp p (λ x, x<|p_sigignore := -1|>);;
  setp p (λ x, x<|p_sig := 0|>).

(** The process becomes a zombie with the exit record. *)
Definition bury (p : nat) (rv : Z) : M unit :=
  v ← gets u;
  setp p (λ x, overlay (x<|p_xstat := rv|><|p_ru := ruadd (u_ru v) (u_cru v)|>)).
Definition retire (p : nat) (rv : Z) : M unit :=
  unlist p;;
  zombie_enter p;;
  modify (λ s, s<|noproc := 1|>);;
  unhash p;;
  bury p rv.

(** A child of the process gets init as its parent. *)
Definition orphan (p : nat) (_ : unit) (q : nat) : M unit :=
  x ← at_ q;
  if bool_decide (p_pptr x = Some p) then
    setp q (λ x, x<|p_pptr := Some 1%nat|>);;
    setp q (λ x, x<|p_ppid := 1|>);;
    wakeup (proc_addr 1);;
    x ← at_ q;
    if has (p_flag x) P_TRACED then
      setp q (λ x, x<|p_flag ::= λ f, bic f P_TRACED|>);;
      psignal q SIGKILL
    else if p_stat x =? SSTOP then psignal q SIGHUP;; psignal q SIGCONT
    else mret tt
  else mret tt.
Definition orphans (p : nat) : M unit :=
  for_procs allproc tt (orphan p);;
  for_procs zombproc tt (orphan p).

(** From the release of the directories to the call of [swtch], which does
    not return. *)
Definition exit_end (fuel : nat) (rv : Z) : M unit :=
  v ← gets u;
  l ← lift (rdz (u_rlimit v) RLIMIT_FSIZE);
  l ← lift (wrz (u_rlimit v) RLIMIT_FSIZE (Rlimit RLIM_INFINITY (rlim_max l)));
  setu (λ v, v<|u_rlimit := l|>);;
  p ← curproc;
  x ← at_ p;
  (if has (p_flag x) SVFORK then endvfork fuel else mret tt);;
  if p_pid x =? 1 then panic "init died"
  else
    retire p rv;;
    orphans p;;
    x ← at_ p;
    match p_pptr x with
    | None => lift Wild
    | Some pp =>
        psignal pp SIGCHLD;;
        wakeup (proc_addr pp);;
        wakeup runin_addr
    end.

(** ** wait4 *)
Context `{WaitOps}.

(** Is [x] a child of [q] that the call with [pid] is about? *)
Definition awaited (q : nat) (pid : Z) (x : proc) : bool :=
  bool_decide (p_pptr x = Some q) && ((pid =? WAIT_ANY) || (p_pid x =? pid) || (p_pgrp x =? - pid)).

(** The entry of a zombie becomes free. *)
Definition emptied (f : option nat) (x : proc) : proc :=
  x<|p_nxt := f|><|p_pptr := None|><|p_sig := 0|><|p_sigcatch := 0|><|p_sigignore := 0|><|p_sigmask := 0|><|p_pgrp := 0|>
   <|p_flag := 0|><|p_wchan := 0|>.
Definition reap (p : nat) : M unit :=
  x ← at_ p;
  setu (λ v, v<|u_cru := ruadd (u_cru v) (p_ru x)|>);;
  setp p (λ x, x<|p_xstat := 0|><|p_pri := 0|><|p_cpu := 0|><|p_time := 0|><|p_nice := 0|>);;
  setp p (λ x, x<|p_stat := 0|>);;
  setp p (λ x, x<|p_pid := 0|>);;
  setp p (λ x, x<|p_ppid := 0|>);;
  unlist p;;
  f ← gets freeproc;
  setp p (emptied f);;
  modify (λ s, s<|freeproc := Some p|>).

(** [copyout] when there is an address to copy to. *)
Definition give (ws : list Z) (to : Z) : M Z := if to =? 0 then mret 0 else copyout ws to.

(** A zombie that is awaited: the error and the process id. *)
Definition collect (p : nat) (x : proc) (status rusage : Z) : M (Z * Z) :=
  e ← give [p_xstat x] status;
  if negb (e =? 0) then mret (e, p_pid x)
  else
    e ← give (rucvt (p_ru x)) rusage;
    if negb (e =? 0) then mret (e, p_pid x)
    else reap p;; mret (0, p_pid x).
(** The loop over the zombies: [None]: none is awaited. *)
Fixpoint wait_zombies (fuel : nat) (p : option nat) (q : nat) (pid status rusage : Z) : M (option (Z * Z)) :=
  match p with
  | None => mret None
  | Some i =>
      match fuel with
      | O => lift Spin
      | S fuel =>
          x ← at_ i;
          if negb (awaited q pid x) then wait_zombies fuel (p_nxt x) q pid status rusage
          else r ← collect i x status rusage; mret (Some r)
      end
  end.

(** The loop over the others: [inl]: a stopped one is reported; [inr]: how
    many there are. *)
Definition reports (options : Z) (x : proc) : bool :=
  (p_stat x =? SSTOP) && negb (has (p_flag x) P_WAITED) && (has (p_flag x) P_TRACED || has options WUNTRACED).
Definition report (p : nat) (x : proc) (status : Z) : M (Z * Z) :=
  setp p (λ x, x<|p_flag ::= λ f, Z.lor f P_WAITED|>);;
  e ← give [W_STOPCODE (p_ptracesig x)] status;
  mret (e, p_pid x).
Fixpoint wait_stopped (fuel : nat) (p : option nat) (q : nat) (pid status options nfound : Z) : M (Z * Z + Z) :=
  match p with
  | None => mret (inr nfound)
  | Some i =>
      match fuel with
      | O => lift Spin
      | S fuel =>
          x ← at_ i;
          if negb (awaited q pid x) then wait_stopped fuel (p_nxt x) q pid status options nfound
          else if reports options x then r ← report i x status; mret (inl r)
          else wait_stopped fuel (p_nxt x) q pid status options (nfound + 1)
      end
  end.

(** From the label [loop]: the error and the process id; [k] bounds how often
    the process may sleep. *)
Fixpoint wait_loop (k : nat) (q : nat) (pid status options rusage : Z) : M (Z * Z) :=
  n ← gets (λ s, length (procs s));
  z ← gets zombproc;
  r ← wait_zombies n z q pid status rusage;
  match r with
  | Some r => mret r
  | None =>
      a ← gets allproc;
      r ← wait_stopped n a q pid status options 0;
      match r with
      | inl r => mret r
      | inr nfound =>
          if nfound =? 0 then mret (ECHILD, 0)
          else if has options WNOHANG then mret (0, 0)
          else
            match k with
            | O => lift Spin
            | S k =>
                e ← tsleep (proc_addr q) (Z.lor PWAIT PCATCH) 0;
                if e =? 0 then wait_loop k q pid status options rusage else mret (e, 0)
            end
      end
  end.
Definition wait1 (k : nat) (q : nat) (pid status options rusage : Z) : M (Z * Z) :=
  x ← at_ q;
  wait_loop k q (if pid =? WAIT_MYPGRP then - p_pgrp x else pid) status options rusage.
Definition wait4 (k : nat) (pid status options rusage : Z) : M unit :=
  q ← curproc;
  r ← wait1 k q pid status options rusage;
  set_error r.1;;
  if r.1 =? 0 then set_rval r.2 else mret tt.
End Exit.

(** ** Lists of processes *)
Section Lists.
Implicit Types (s : kern) (l : list nat) (x y : proc) (r : pref).

(** The pointer a [pref] is the address of. *)
Definition head_of s r : option nat :=
  match r with AllProc => allproc s | ZombProc => zombproc s | NxtOf i => procs s !! i ≫= p_nxt end.
(** The pointer to what follows [l]. *)
Definition end_of r l : pref := match last l with None => r | Some j => NxtOf j end.

Lemma back_app mem r l1 l2 : back mem r (l1 ++ l2) ↔ back mem r l1 ∧ back mem (end_of r l1) l2.
Proof.
  revert r. induction l1 as [|i l1 IH]; intros r; simpl; [unfold end_of; simpl; tauto|]. rewrite IH.
  assert (E : end_of (NxtOf i) l1 = end_of r (i :: l1)); [|rewrite E; tauto].
  unfold end_of. rewrite last_cons. by destruct (last l1).
Qed.
Lemma back_links mem mem' r l : (∀ i, i ∈ l → p_prev <$> mem' !! i = p_prev <$> mem !! i) → back mem r l → back mem' r l.
Proof.
  revert r. induction l as [|i l IH]; intros r Hl; simpl; [done|]. intros [(x & Hx & Ep) HB]. split.
  - specialize (Hl i ltac:(set_solver)). rewrite Hx in Hl. destruct (mem' !! i) as [y|]; [|done]. exists y. split; [done|].
    simpl in Hl. congruence.
  - apply IH; [|done]. intros j Hj. apply Hl. set_solver.
Qed.

(** From [s] to [s'] only the lists have changed, and only the links of the
    processes [l]. *)
Record relinked s s' l : Prop := Relinked {
  re_frame : s' = s<|procs := procs s'|><|allproc := allproc s'|><|zombproc := zombproc s'|><|freeproc := freeproc s'|>;
  re_len : length (procs s') = length (procs s);
  re_proc i x : procs s !! i = Some x → ∃ x', procs s' !! i = Some x' ∧ x' = x<|p_nxt := p_nxt x'|><|p_prev := p_prev x'|> ∧ (i ∉ l → x' = x) }.
Lemma relinked_refl s : relinked s s [].
Proof. split; [by destruct s|done|]. intros i x Hx. exists x. split; [done|]. split; [by destruct x|done]. Qed.
Lemma relinked_trans s1 s2 s3 l l' : relinked s1 s2 l → relinked s2 s3 l' → relinked s1 s3 (l ++ l').
Proof.
  intros [F1 L1 P1] [F2 L2 P2]. split.
  - rewrite F2, F1. reflexivity.
  - congruence.
  - intros i x Hx. destruct (P1 i x Hx) as (y & Hy & Ey & Uy), (P2 i y Hy) as (z & Hz & Ez & Uz). exists z. split; [done|]. split.
    + rewrite Ez, Ey. by destruct x.
    + intros Hi. rewrite Uz by set_solver. apply Uy. set_solver.
Qed.
Lemma relinked_more s s' l l' : relinked s s' l → l ⊆ l' → relinked s s' l'.
Proof. intros [F L P] Hl. split; [done|done|]. intros i x Hx. destruct (P i x Hx) as (y & Hy & Ey & Uy). exists y. split_and!; try done. intros Hi. apply Uy. set_solver. Qed.
Lemma relinked_put s i x x' : procs s !! i = Some x → x' = x<|p_nxt := p_nxt x'|><|p_prev := p_prev x'|> →
  relinked s (s<|procs := <[i := x']> (procs s)|>) [i].
Proof.
  intros Hx E. split; [by destruct s|fields; by rewrite length_insert|]. fields. intros j y Hy. destruct (decide (j = i)) as [->|Hne].
  - simplify_eq. exists x'. rewrite list_lookup_insert_eq by (by eapply lookup_lt_Some). split; [done|]. split; [done|]. set_solver.
  - exists y. rewrite list_lookup_insert_ne by done. split; [done|]. split; [by destruct y|done].
Qed.
Lemma relinked_proc s s' l i : relinked s s' l → i ∉ l → procs s' !! i = procs s !! i.
Proof.
  intros [F L P] Hi. destruct (procs s !! i) as [x|] eqn:Hx.
  - destruct (P i x Hx) as (y & Hy & _ & U). by rewrite Hy, U.
  - apply lookup_ge_None in Hx. apply lookup_ge_None. lia.
Qed.
(** Every other member is as it was. *)
Lemma relinked_field {A} (f : proc → A) s s' l : relinked s s' l → (∀ x n (o : option pref), f (x<|p_nxt := n|><|p_prev := o|>) = f x) → f <$> procs s' = f <$> procs s.
Proof.
  intros [F L P] Hf. apply list_eq. intros i. rewrite !list_lookup_fmap. destruct (procs s !! i) as [x|] eqn:Hx.
  - destruct (P i x Hx) as (y & -> & E & _). simpl. f_equal. rewrite E. apply Hf.
  - apply lookup_ge_None in Hx. rewrite (lookup_ge_None_2 (procs s')) by lia. done.
Qed.

Definition is_head r : Prop := match r with NxtOf _ => False | _ => True end.

(** The pointer that points behind [l] is set. *)
Lemma wp_store_pref s r l q v (Q : unit → kern → Prop) :
  is_head r → lseg p_nxt (procs s) (head_of s r) l q → NoDup l →
  (∀ s', relinked s s' l → lseg p_nxt (procs s') (head_of s' r) l v → p_prev <$> procs s' = p_prev <$> procs s →
     (∀ r', is_head r' → r' ≠ r → head_of s' r' = head_of s r') → freeproc s' = freeproc s → Q tt s') →
  wp (store_pref (Some (end_of r l)) v) Q s.
Proof.
  intros Hr Hl Hnd HQ. destruct l as [|j l _] using rev_ind.
  - unfold end_of. simpl. destruct r; try done; simpl; apply wp_modify; (apply HQ; [|done|done|by intros [] ? ?|done]);
      (split; [by destruct s|done|]; intros i x Hx; exists x; split; [done|]; split; [by destruct x|done]).
  - unfold end_of. rewrite last_snoc. pose proof Hl as (r0 & Hl1 & (-> & x & Hx & _))%lseg_app. simpl. eapply wp_setp; [exact Hx|].
    apply NoDup_app in Hnd as (_ & Hj & _). assert (Hj' : j ∉ l) by (intros ?; eapply Hj; set_solver).
    set (x' := x<|p_nxt := v|>). apply HQ.
    + eapply relinked_more; [by eapply (relinked_put s j x x')|set_solver].
    + fields. destruct r; try done; (eapply lseg_redirect; [exact Hl|done|done]).
    + fields. rewrite list_fmap_insert. apply list_insert_id. by rewrite list_lookup_fmap, Hx.
    + by intros [] ? ?.
    + done.
Qed.

(** Taking [p] out of a list. *)
Lemma wp_unlist s r l1 p l2 x (Q : unit → kern → Prop) :
  is_head r → lseg p_nxt (procs s) (head_of s r) (l1 ++ p :: l2) None → back (procs s) r (l1 ++ p :: l2) → NoDup (l1 ++ p :: l2) →
  procs s !! p = Some x →
  (∀ s', relinked s s' (l1 ++ l2) → lseg p_nxt (procs s') (head_of s' r) (l1 ++ l2) None → back (procs s') r (l1 ++ l2) →
     (∀ r', is_head r' → r' ≠ r → head_of s' r' = head_of s r') → freeproc s' = freeproc s → Q tt s') →
  wp (unlist p) Q s.
Proof.
  intros Hr Hl Hb Hnd Hx HQ. pose proof Hl as (q & Hl1 & (-> & x' & Hx' & Hl2))%lseg_app. assert (x' = x) as -> by congruence. clear Hx'.
  pose proof Hb as [Hb1 [(x' & Hx' & Hpp) Hb2]]%back_app. assert (x' = x) as -> by congruence. clear Hx'.
  pose proof Hnd as (Hn1 & Hn2 & [Hn3 Hn4]%NoDup_cons)%NoDup_app. assert (Hp1 : p ∉ l1) by (intros ?; eapply Hn2; set_solver).
  unfold unlist. apply wp_bind. eapply wp_at; [exact Hx|]. apply wp_bind. rewrite Hpp.
  eapply wp_store_pref; [done|exact Hl1|done|]. intros s1 R1 L1 E1 H1 F1.
  assert (Hl2' : lseg p_nxt (procs s1) (p_nxt x) l2 None).
  { eapply lseg_links; [|exact Hl2]. intros i Hi. rewrite (relinked_proc s s1 l1 i R1); [done|]. intros Hi1. eapply Hn2; set_solver. }
  assert (Hlook : ∀ i, p_prev <$> procs s1 !! i = p_prev <$> procs s !! i) by (intros i; by rewrite <- !list_lookup_fmap, E1).
  destruct l2 as [|n l2].
  - simpl in Hl2'. rewrite Hl2'. apply wp_ret. rewrite app_nil_r in HQ. apply HQ; [done|by rewrite <- Hl2'| |done|done].
    eapply back_links; [|exact Hb1]. intros i _. apply Hlook.
  - destruct Hl2' as (En & y & Hy & Hl2'). rewrite En in L1 |- *. eapply wp_setp; [exact Hy|]. set (y' := y<|p_prev := Some (end_of r l1)|>).
    assert (R2 : relinked s1 (s1<|procs := <[n := y']> (procs s1)|>) [n]) by (by eapply (relinked_put s1 n y y')).
    assert (HL : ∀ h l q, lseg p_nxt (procs s1) h l q → lseg p_nxt (<[n := y']> (procs s1)) h l q) by (intros h l q; by eapply lseg_update).
    apply HQ.
    + eapply relinked_more; [by eapply relinked_trans|set_solver].
    + fields. apply lseg_app. exists (Some n). split; [destruct r; try done; apply (HL _ _ _ L1)|].
      split; [done|]. exists y'. split; [apply list_lookup_insert_eq; by eapply lookup_lt_Some|]. apply (HL _ _ _ Hl2').
    + fields. assert (HP : ∀ i, i ≠ n → p_prev <$> <[n := y']> (procs s1) !! i = p_prev <$> procs s !! i).
      { intros i Hi. rewrite list_lookup_insert_ne by done. apply Hlook. }
      apply back_app. split.
      * eapply back_links; [|exact Hb1]. intros i Hi. apply HP. intros ->. eapply Hn2; set_solver.
      * destruct Hb2 as [_ Hb2]. split; [exists y'; split; [apply list_lookup_insert_eq; by eapply lookup_lt_Some|done]|].
        eapply back_links; [|exact Hb2]. intros i Hi. apply HP. intros ->. apply NoDup_cons in Hn4. tauto.
    + intros r' Hr' Hne. rewrite <- (H1 r' Hr' Hne). by destruct r'.
    + done.
Qed.
(** ** Hash chains *)

(** From [s] to [s'] only hash chains have changed. *)
Record rehashed s s' : Prop := Rehashed {
  rh_frame : s' = s<|procs := procs s'|><|pidhash := pidhash s'|>;
  rh_len : length (procs s') = length (procs s);
  rh_proc i x : procs s !! i = Some x → ∃ x', procs s' !! i = Some x' ∧ x' = x<|p_hash := p_hash x'|> }.
Lemma rehashed_field {A} (f : proc → A) s s' : rehashed s s' → (∀ x n, f (x<|p_hash := n|>) = f x) → f <$> procs s' = f <$> procs s.
Proof.
  intros [F L P] Hf. apply list_eq. intros i. rewrite !list_lookup_fmap. destruct (procs s !! i) as [x|] eqn:Hx.
  - destruct (P i x Hx) as (y & -> & E). simpl. f_equal. rewrite E. apply Hf.
  - apply lookup_ge_None in Hx. rewrite (lookup_ge_None_2 (procs s')) by lia. done.
Qed.

(** The pointer behind the entries [l] of the chain [h] is set; the other
    chains do not share entries with it. *)
Lemma wp_store_hash s (h : nat) l hd q v (Q : unit → kern → Prop) :
  pidhash s !! h = Some hd → lseg p_hash (procs s) hd l q → NoDup l →
  (∀ s' hd', rehashed s s' → pidhash s' = <[h := hd']> (pidhash s) → lseg p_hash (procs s') hd' l v →
     (∀ i, i ∉ l → procs s' !! i = procs s !! i) → Q tt s') →
  wp (store_hash (Z.of_nat h) (last l) v) Q s.
Proof.
  intros Hh Hl Hnd HQ. pose proof (lookup_lt_Some _ _ _ Hh) as Hlt. destruct l as [|j l _] using rev_ind.
  - simpl. apply wp_bind, wp_gets. apply wp_bind. unfold wrz. rewrite (proj2 (Z.leb_le 0 _)) by lia. rewrite Nat2Z.id.
    eapply wp_lift; [by apply wr_Done|]. apply wp_modify. apply (HQ _ v); [|done|done|done].
    split; [by destruct s|done|]. intros i x Hx. exists x. split; [done|by destruct x].
  - rewrite last_snoc. pose proof Hl as (r0 & Hl1 & (-> & x & Hx & _))%lseg_app. simpl. eapply wp_setp; [exact Hx|].
    apply NoDup_app in Hnd as (_ & Hj & _). assert (Hj' : j ∉ l) by (intros ?; eapply Hj; set_solver). set (x' := x<|p_hash := v|>).
    apply (HQ _ hd).
    + split; [by destruct s|fields; by rewrite length_insert|]. fields. intros i y Hy. destruct (decide (i = j)) as [->|Hne].
      * simplify_eq. exists x'. split; [apply list_lookup_insert_eq; by eapply lookup_lt_Some|done].
      * exists y. rewrite list_lookup_insert_ne by done. split; [done|by destruct y].
    + fields. by rewrite list_insert_id.
    + fields. by eapply lseg_redirect.
    + intros i Hi. fields. rewrite list_lookup_insert_ne; [done|]. set_solver.
Qed.

Lemma wp_unhash_loop s (h : nat) p x c1 c2 hd (Q : unit → kern → Prop) :
  pidhash s !! h = Some hd → lseg p_hash (procs s) hd (c1 ++ p :: c2) None → NoDup (c1 ++ p :: c2) → procs s !! p = Some x →
  (∀ s' hd', rehashed s s' → pidhash s' = <[h := hd']> (pidhash s) → lseg p_hash (procs s') hd' (c1 ++ c2) None →
     (∀ i, i ∉ c1 → procs s' !! i = procs s !! i) → Q tt s') →
  ∀ todo done fuel q, c1 = done ++ todo → lseg p_hash (procs s) q (todo ++ p :: c2) None → (length todo < fuel)%nat →
  wp (unhash_loop fuel (Z.of_nat h) (last done) q p) Q s.
Proof.
  intros Hh Hc Hnd Hx HQ todo. pose proof Hnd as (Hn1 & Hn2 & [Hn3 Hn4]%NoDup_cons)%NoDup_app.
  induction todo as [|i todo IH]; intros done fuel q E Hq Hf; (destruct fuel as [|fuel]; [simpl in Hf; lia|]).
  - rewrite app_nil_r in E. subst done. destruct Hq as (-> & x' & Hx' & Hc2). assert (x' = x) as -> by congruence. cbn [unhash_loop].
    apply wp_bind. eapply wp_at; [done|]. rewrite Nat.eqb_refl. pose proof Hc as (q & Hc1 & _)%lseg_app.
    eapply wp_store_hash; [exact Hh|exact Hc1|done|]. intros s' hd' R E L U. apply (HQ s' hd'); [done|done| |done].
    apply lseg_app. exists (p_hash x). split; [done|]. eapply lseg_links; [|exact Hc2]. intros j Hj. rewrite U; [done|].
    intros Hj1. eapply Hn2; [exact Hj1|set_solver].
  - destruct Hq as (-> & y & Hy & Hq). cbn [unhash_loop]. apply wp_bind. eapply wp_at; [done|].
    rewrite (proj2 (Nat.eqb_neq i p)); [|intros ->; eapply (Hn2 p); [rewrite E; set_solver|set_solver]].
    rewrite <- (last_snoc i done). apply IH; [by rewrite <- app_assoc|done|simpl in Hf; lia].
Qed.

(** [p] leaves its hash chain. *)
Lemma wp_unhash s all1 p all2 x (Q : unit → kern → Prop) :
  hash_ok s (all1 ++ p :: all2) → NoDup (all1 ++ p :: all2) → procs s !! p = Some x →
  (∀ s', rehashed s s' → hash_ok s' (all1 ++ all2) → (∃ c : list nat, p ∉ c ∧ ∀ i, i ∉ c → procs s' !! i = procs s !! i) → Q tt s') →
  wp (unhash p) Q s.
Proof.
  intros Hok Hnd Hx HQ. pose proof (PIDHASH_range (p_pid x)) as Hr. set (h := Z.to_nat (PIDHASH (p_pid x))).
  assert (Eh : PIDHASH (p_pid x) = Z.of_nat h) by (unfold h; lia).
  destruct (Hok h ltac:(unfold h; lia)) as (hd & c & Hhd & Hc & Hcn & Hin).
  assert (Hpc : p ∈ c) by (apply Hin; split; [set_solver|by exists x]). apply list_elem_of_split in Hpc as (c1 & c2 & ->).
  pose proof Hcn as (Hn1 & Hn2 & [Hn3 Hn4]%NoDup_cons)%NoDup_app. assert (Hp1 : p ∉ c1) by (intros ?; eapply Hn2; set_solver).
  unfold unhash. apply wp_bind. eapply wp_at; [done|]. apply wp_bind, wp_gets. apply wp_bind. rewrite Eh.
  eapply wp_lift; [unfold rdz; rewrite (proj2 (Z.leb_le 0 _)) by lia; rewrite Nat2Z.id; by apply rd_Done|]. apply wp_bind, wp_gets.
  assert (Hlen : (length c1 < length (procs s))%nat).
  { pose proof (NoDup_lt_length (c1 ++ p :: c2) (length (procs s)) Hcn) as HL. rewrite length_app in HL. simpl in HL.
    assert (length c1 + S (length c2) ≤ length (procs s))%nat by (apply HL; by eapply lseg_lt). lia. }
  change (@None nat) with (last (@nil nat)).
  eapply (wp_unhash_loop s h p x c1 c2 hd); [done|done|done|done| |by rewrite app_nil_l|done|done].
  intros s' hd' R E L U. apply HQ; [done| |by exists c1].
  assert (Hpid : ∀ i h', (∃ y, procs s' !! i = Some y ∧ PIDHASH (p_pid y) = h') ↔ ∃ y, procs s !! i = Some y ∧ PIDHASH (p_pid y) = h').
  { intros i h'. pose proof (rehashed_field p_pid s s' R ltac:(done)) as Ef. apply (f_equal (.!! i)) in Ef. rewrite !list_lookup_fmap in Ef.
    split; intros (y & Hy & Ey); rewrite Hy in Ef; [destruct (procs s !! i) as [z|]|destruct (procs s' !! i) as [z|]]; try done; simpl in Ef;
      exists z; (split; [done|congruence]). }
  assert (Hall : ∀ i, i ∈ all1 ++ all2 ↔ i ∈ all1 ++ p :: all2 ∧ i ≠ p).
  { intros i. pose proof Hnd as (_ & Hd & [Hd2 _]%NoDup_cons)%NoDup_app. split; [|set_solver].
    intros Hi. split; [set_solver|]. intros ->. apply elem_of_app in Hi as [Hi|Hi]; [eapply Hd; set_solver|done]. }
  intros k Hk. destruct (decide (k = h)) as [->|Hne].
  - exists hd', (c1 ++ c2). split; [rewrite E; apply list_lookup_insert_eq; by eapply lookup_lt_Some|]. split; [done|]. split.
    + apply NoDup_app. split; [done|]. split; [|done]. intros j Hj Hj2. eapply Hn2; [done|set_solver].
    + intros i. rewrite Hpid, Hall. specialize (Hin i). rewrite elem_of_app, elem_of_cons in Hin. rewrite elem_of_app.
      destruct (decide (i = p)) as [->|Hne]; [tauto|]. tauto.
  - destruct (Hok k Hk) as (hd2 & c' & Hhd2 & Hc' & Hcn' & Hin'). exists hd2, c'. split; [rewrite E; by rewrite list_lookup_insert_ne|].
    assert (Hdis : ∀ i, i ∈ c' → i ∉ c1 ++ p :: c2).
    { intros i Hi Hi2. apply Hin' in Hi as (_ & y & Hy & Ey). apply Hin in Hi2 as (_ & y' & Hy' & Ey'). simplify_eq. lia. }
    split; [eapply lseg_links; [|exact Hc']; intros i Hi; rewrite U; [done|]; intros ?; eapply Hdis; set_solver|]. split; [done|].
    intros i. rewrite Hpid, Hall, Hin'. split; [intros [Ha Hb]|tauto]. split; [split; [done|]|done]. intros ->.
    destruct Hb as (y & Hy & Ey). simplify_eq. lia.
Qed.
(** ** Becoming a zombie *)
Lemma wp_zombie_enter s p x zomb (Q : unit → kern → Prop) :
  lseg p_nxt (procs s) (zombproc s) zomb None → back (procs s) ZombProc zomb → NoDup (p :: zomb) → procs s !! p = Some x →
  (∀ s1, let x1 := x<|p_nxt := zombproc s|><|p_prev := Some ZombProc|> in
     relinked s s1 (p :: zomb) → procs s1 !! p = Some x1 → zombproc s1 = Some p → allproc s1 = allproc s → freeproc s1 = freeproc s →
     lseg p_nxt (procs s1) (zombproc s1) (p :: zomb) None → back (procs s1) ZombProc (p :: zomb) →
     p_nxt <$> procs s1 = <[p := zombproc s]> (p_nxt <$> procs s) →
     Q tt (s1<|procs := <[p := x1<|p_stat := SZOMB|>]> (procs s1)|>)) →
  wp (zombie_enter p) Q s.
Proof.
  intros Hl Hb [Hpz Hnd]%NoDup_cons Hx HQ. pose proof (lookup_lt_Some _ _ _ Hx) as Hlt. unfold zombie_enter. apply wp_bind, wp_gets.
  apply wp_bind. eapply wp_setp; [exact Hx|]. set (xa := x<|p_nxt := zombproc s|>). set (sa := s<|procs := <[p := xa]> (procs s)|>).
  assert (Hxa : procs sa !! p = Some xa) by (unfold sa; fields; by apply list_lookup_insert_eq).
  assert (Ra : relinked s sa [p]) by (by eapply (relinked_put s p x xa)).
  set (xb := xa<|p_prev := Some ZombProc|>). 
  (* what is left once the first zombie points back *)
  assert (HE : ∀ sb, relinked sa sb zomb → procs sb !! p = Some xa → zombproc sb = zombproc s → allproc sb = allproc s → freeproc sb = freeproc s →
    p_nxt <$> procs sb = p_nxt <$> procs sa → back (procs sb) (NxtOf p) zomb →
    wp (setp p (λ x, x<|p_prev := Some ZombProc|>);; modify (λ s, s<|zombproc := Some p|>);; setp p (λ x, x<|p_stat := SZOMB|>)) Q sb).
  { intros sb Rb Hxb E1 E2 E3 En Hbb. apply wp_bind. eapply wp_setp; [exact Hxb|]. apply wp_bind, wp_modify. fields. fold xb.
    set (s1 := sb<|procs := <[p := xb]> (procs sb)|><|zombproc := Some p|>). pose proof (lookup_lt_Some _ _ _ Hxb) as Hltb.
    assert (Hx1 : procs s1 !! p = Some xb) by (unfold s1; fields; by apply list_lookup_insert_eq).
    assert (R1 : relinked sb s1 [p]).
    { destruct (relinked_put sb p xa xb Hxb eq_refl) as [F L P]. split; [by destruct sb|exact L|exact P]. }
    eapply wp_setp; [exact Hx1|]. apply (HQ s1); try done.
    - eapply relinked_more; [eapply relinked_trans; [exact Ra|]; eapply relinked_trans; [exact Rb|exact R1]|set_solver].
    - unfold s1. fields. split; [done|]. exists xb. split; [by apply list_lookup_insert_eq|]. change (p_nxt xb) with (zombproc s).
      apply lseg_insert; [done|]. eapply lseg_links; [|exact Hl]. intros i Hi. rewrite <- !list_lookup_fmap, En, list_lookup_fmap. unfold sa. fields.
      rewrite list_lookup_insert_ne; [by rewrite list_lookup_fmap|]. by intros ->.
    - unfold s1. fields. split; [exists xb; split; [by apply list_lookup_insert_eq|done]|]. eapply back_links; [|exact Hbb].
      intros i Hi. rewrite list_lookup_insert_ne; [done|]. by intros ->.
    - unfold s1. fields. rewrite list_fmap_insert, En. unfold sa. fields. rewrite list_fmap_insert. by rewrite list_insert_insert_eq. }
  destruct zomb as [|n zomb].
  - simpl in Hl. rewrite Hl. apply wp_bind, wp_ret. apply HE; try done. apply relinked_refl.
  - destruct Hl as (El & y & Hy & Hl). rewrite El in HE |- *. apply wp_bind. assert (Hnp : n ≠ p) by set_solver.
    assert (Hya : procs sa !! n = Some y) by (unfold sa; fields; by rewrite list_lookup_insert_ne).
    eapply wp_setp; [exact Hya|]. set (y' := y<|p_prev := Some (NxtOf p)|>). apply HE; try done.
    + eapply relinked_more; [by eapply (relinked_put sa n y y')|set_solver].
    + fields. by rewrite list_lookup_insert_ne.
    + fields. rewrite list_fmap_insert. apply list_insert_id. by rewrite list_lookup_fmap, Hya.
    + destruct Hb as [_ Hb]. fields. pose proof (lookup_lt_Some _ _ _ Hya).
      split; [exists y'; split; [by apply list_lookup_insert_eq|done]|]. eapply back_links; [|exact Hb]. intros i Hi.
      apply NoDup_cons in Hnd as [Hnz _]. rewrite list_lookup_insert_ne by (by intros ->). unfold sa. fields. rewrite list_lookup_insert_ne; [done|]. set_solver.
Qed.
(** What becomes of the process [x] that exits with [rv]. *)
Definition zombie_of s x (rv : Z) : proc :=
  overlay (x<|p_nxt := zombproc s|><|p_prev := Some ZombProc|><|p_stat := SZOMB|><|p_xstat := rv|><|p_ru := ruadd (u_ru (u s)) (u_cru (u s))|>).
Record retired s s' (p : nat) x (rv : Z) : Prop := Retired {
  rt_frame : s' = s<|procs := procs s'|><|allproc := allproc s'|><|zombproc := Some p|><|noproc := 1|><|pidhash := pidhash s'|>;
  rt_len : length (procs s') = length (procs s);
  rt_zombie : procs s' !! p = Some (zombie_of s x rv);
  rt_proc i y : i ≠ p → procs s !! i = Some y → ∃ y', procs s' !! i = Some y' ∧
    y' = y<|p_nxt := p_nxt y'|><|p_prev := p_prev y'|><|p_hash := p_hash y'|> }.

Lemma hash_ok_same s s' all : pidhash s' = pidhash s → p_hash <$> procs s' = p_hash <$> procs s → p_pid <$> procs s' = p_pid <$> procs s →
  hash_ok s all → hash_ok s' all.
Proof.
  intros E1 E2 E3 Hok h Hh. destruct (Hok h Hh) as (hd & c & Hhd & Hc & Hn & Hin). exists hd, c. split; [by rewrite E1|]. split.
  { eapply lseg_links; [|exact Hc]. intros i _. by rewrite <- !list_lookup_fmap, E2. }
  split; [done|]. intros i. rewrite Hin. f_equiv. assert (Ei := f_equal (.!! i) E3). rewrite !list_lookup_fmap in Ei.
  split; intros (y & Hy & Ey); rewrite Hy in Ei; [destruct (procs s' !! i) as [z|]|destruct (procs s !! i) as [z|]]; try done; simpl in Ei;
    exists z; (split; [done|congruence]).
Qed.

Lemma table_nodup (l1 l2 zomb free : list nat) p : NoDup ((l1 ++ p :: l2) ++ zomb ++ free) →
  NoDup (l1 ++ p :: l2) ∧ NoDup (p :: zomb) ∧ p ∉ l1 ++ l2 ∧ p ∉ free ∧ NoDup ((l1 ++ l2) ++ (p :: zomb) ++ free) ∧
  (∀ i, i ∈ zomb ∨ i ∈ free → i ∉ l1 ++ l2) ∧ (∀ i, i ∈ free → i ∉ zomb).
Proof.
  intros Hnd. assert (Hp : (l1 ++ p :: l2) ++ zomb ++ free ≡ₚ (l1 ++ l2) ++ (p :: zomb) ++ free).
  { rewrite <- !app_assoc. apply Permutation_app_head. simpl. apply Permutation_middle. }
  assert (Hnd' : NoDup ((l1 ++ l2) ++ (p :: zomb) ++ free)) by (by rewrite <- Hp).
  pose proof Hnd as (Hn1 & _ & _)%NoDup_app. pose proof Hnd' as (Hm1 & Hm2 & (Hm3 & Hm4 & Hm5)%NoDup_app)%NoDup_app.
  split_and!; try done.
  - intros Hi. apply (Hm2 p Hi). set_solver.
  - apply (Hm4 p). set_solver.
  - intros i Hi Hi2. apply (Hm2 i Hi2). set_solver.
  - intros i Hi Hi2. apply (Hm4 i); [set_solver|done].
Qed.

Lemma wp_retire s l1 p l2 zomb free x rv :
  table_ok s (l1 ++ p :: l2) zomb free → procs s !! p = Some x →
  wp (retire p rv) (λ _ s', table_ok s' (l1 ++ l2) (p :: zomb) free ∧ retired s s' p x rv) s.
Proof.
  intros [T1 T2 T3 T4 T5 T6 T7] Hx. destruct (table_nodup _ _ _ _ _ T4) as (N1 & N2 & N3 & N4 & N5 & N6 & N7).
  unfold retire. apply wp_bind. eapply (wp_unlist s AllProc l1 p l2 x); [done|exact T1|exact T5|exact N1|exact Hx|].
  intros s1 R1 L1 B1 H1 F1. assert (Ez : zombproc s1 = zombproc s) by (by apply (H1 ZombProc)).
  assert (U1 : ∀ i, i ∉ l1 ++ l2 → procs s1 !! i = procs s !! i) by (intros i Hi; by eapply relinked_proc).
  assert (Hx1 : procs s1 !! p = Some x) by (by rewrite U1).
  assert (LZ1 : lseg p_nxt (procs s1) (zombproc s1) zomb None) by (rewrite Ez; eapply lseg_links; [|exact T2]; intros i Hi; rewrite U1; [done|auto]).
  assert (BZ1 : back (procs s1) ZombProc zomb) by (eapply back_links; [|exact T6]; intros i Hi; rewrite U1; [done|auto]).
  apply wp_bind. eapply (wp_zombie_enter s1 p x zomb); [exact LZ1|exact BZ1|exact N2|exact Hx1|].
  intros s2. cbv zeta. rewrite Ez. set (x1 := x<|p_nxt := zombproc s|><|p_prev := Some ZombProc|>). intros R2 Hx2 Z2 A2 F2 L2 B2 En2.
  set (x2 := x1<|p_stat := SZOMB|>). apply wp_bind, wp_modify. set (s3 := s2<|procs := <[p := x2]> (procs s2)|><|noproc := 1|>). pose proof (lookup_lt_Some _ _ _ Hx2) as Hlt2.
  assert (Hx3 : procs s3 !! p = Some x2) by (unfold s3; fields; by apply list_lookup_insert_eq).
  assert (U3 : ∀ i, i ≠ p → procs s3 !! i = procs s2 !! i) by (intros i Hi; unfold s3; fields; by rewrite list_lookup_insert_ne).
  assert (R12 : relinked s s2 ((l1 ++ l2) ++ p :: zomb)) by (by eapply relinked_trans).
  assert (HF : ∀ {A} (f : proc → A), (∀ x n (o : option pref), f (x<|p_nxt := n|><|p_prev := o|>) = f x) → f x2 = f x →
    f <$> procs s3 = f <$> procs s).
  { intros A f Hf Ef. rewrite <- (relinked_field f s s2 _ R12 Hf). unfold s3. fields. rewrite list_fmap_insert. apply list_insert_id.
    rewrite list_lookup_fmap, Hx2. simpl. rewrite Ef. f_equal. exact (Hf x (zombproc s) (Some ZombProc)). }
  assert (Hok3 : hash_ok s3 (l1 ++ p :: l2)).
  { eapply (hash_ok_same s); [|by apply HF|by apply HF|done]. change (pidhash s3) with (pidhash s2). by rewrite (re_frame _ _ _ R12). }
  apply wp_bind. eapply (wp_unhash s3 l1 p l2 x2); [exact Hok3|exact N1|exact Hx3|]. intros s4 R4 Hok4 (c & Hpc & U4).
  assert (Hx4 : procs s4 !! p = Some x2) by (by rewrite U4).
  unfold bury. apply wp_bind, wp_gets. eapply wp_setp; [exact Hx4|].
  assert (Eu : u s4 = u s).
  { pose proof (f_equal u (rh_frame _ _ R4)) as E1. pose proof (f_equal u (re_frame _ _ _ R12)) as E2. etrans; [exact E1|exact E2]. }
  rewrite Eu. pose proof (lookup_lt_Some _ _ _ Hx4) as Hlt4.
  set (z := overlay _). assert (Ezz : z = zombie_of s x rv) by (unfold z, x2, x1, zombie_of; done).
  set (s5 := s4<|procs := <[p := z]> (procs s4)|>).
  assert (EN : p_nxt <$> procs s4 = p_nxt <$> procs s3 ∧ p_prev <$> procs s4 = p_prev <$> procs s3) by (split; by apply rehashed_field).
  destruct EN as [EN EP].
  assert (U5n : ∀ i, p_nxt <$> procs s5 !! i = p_nxt <$> procs s2 !! i).
  { intros i. unfold s5. fields. destruct (decide (i = p)) as [->|Hne].
    - rewrite list_lookup_insert_eq, Hx2 by done. done.
    - rewrite list_lookup_insert_ne by done. rewrite <- U3 by done. by rewrite <- !list_lookup_fmap, EN. }
  assert (U5p : ∀ i, p_prev <$> procs s5 !! i = p_prev <$> procs s2 !! i).
  { intros i. unfold s5. fields. destruct (decide (i = p)) as [->|Hne].
    - rewrite list_lookup_insert_eq, Hx2 by done. done.
    - rewrite list_lookup_insert_ne by done. rewrite <- U3 by done. by rewrite <- !list_lookup_fmap, EP. }
  assert (Fr5 : allproc s5 = allproc s1 ∧ zombproc s5 = Some p ∧ freeproc s5 = freeproc s).
  { pose proof (f_equal allproc (rh_frame _ _ R4)) as E1. pose proof (f_equal zombproc (rh_frame _ _ R4)) as E2. pose proof (f_equal freeproc (rh_frame _ _ R4)) as E3.
    split_and!; [etrans; [exact E1|exact A2]|etrans; [exact E2|exact Z2]|etrans; [exact E3|]; etrans; [exact F2|exact F1]]. }
  destruct Fr5 as (FA & FZ & FF).
  split.
  - split.
    + rewrite FA. eapply lseg_links; [intros i _; apply U5n|]. eapply lseg_links; [|exact L1]. intros i Hi. rewrite (relinked_proc s1 s2 (p :: zomb)); [done|done|].
      intros [->|Hz]%elem_of_cons; [done|]. apply (N6 i); [by left|done].
    + rewrite FZ, <- Z2. eapply lseg_links; [intros i _; apply U5n|done].
    + rewrite FF. eapply lseg_links; [intros i _; apply U5n|]. eapply lseg_links; [|exact T3]. intros i Hi. rewrite (relinked_proc _ _ _ i R12); [done|].
      intros [Hi2|[->|Hi2]%elem_of_cons]%elem_of_app; [apply (N6 i); [by right|done]|done|by apply (N7 i)].
    + done.
    + eapply back_links; [intros i _; apply U5p|]. eapply back_links; [|exact B1]. intros i Hi. rewrite (relinked_proc s1 s2 (p :: zomb)); [done|done|].
      intros [->|Hz]%elem_of_cons; [done|]. apply (N6 i); [by left|done].
    + eapply back_links; [intros i _; apply U5p|done].
    + intros h Hh. destruct (Hok4 h Hh) as (hd & ch & Q1 & Q2 & Q3 & Q4). exists hd, ch. split; [done|].
      assert (Hpch : p ∉ ch) by (rewrite Q4; tauto).
      split; [unfold s5; fields; by apply lseg_insert|]. split; [done|]. intros i. rewrite Q4. unfold s5. fields.
      destruct (decide (i = p)) as [->|Hne]; [tauto|]. by rewrite list_lookup_insert_ne.
  - split.
    + transitivity (s4<|procs := procs s5|>); [done|]. pose proof (rh_frame _ _ R4) as E4. pose proof (re_frame _ _ _ R12) as E2.
      transitivity (s2<|procs := procs s5|><|noproc := 1|><|pidhash := pidhash s5|>); [rewrite E4 at 1; done|].
      transitivity (s<|procs := procs s5|><|allproc := allproc s2|><|zombproc := zombproc s2|><|freeproc := freeproc s2|><|noproc := 1|><|pidhash := pidhash s5|>); [rewrite E2 at 1; done|].
      rewrite Z2, F2, F1, A2, <- FA. by destruct s.
    + unfold s5. fields. rewrite length_insert, (rh_len _ _ R4). unfold s3. fields. rewrite length_insert. apply R12.
    + unfold s5. fields. rewrite list_lookup_insert_eq by done. by rewrite Ezz.
    + intros i y Hne Hy. destruct (re_proc _ _ _ R12 i y Hy) as (y2 & Hy2 & E2 & _). rewrite <- U3 in Hy2 by done.
      destruct (rh_proc _ _ R4 i y2 Hy2) as (y4 & Hy4 & E4). exists y4. split; [unfold s5; fields; by rewrite list_lookup_insert_ne|].
      rewrite E4, E2. by destruct y.
Qed.
(** ** Becoming free *)

(** The entry [p] of the table is [y]. *)
Definition putp s (p : nat) y : kern := s<|procs := <[p := y]> (procs s)|>.
Lemma wp_setp_put s p x y f (Q : unit → kern → Prop) : procs s !! p = Some x → Q tt (putp s p (f y)) → wp (setp p f) Q (putp s p y).
Proof.
  intros Hx HQ. eapply wp_setp; [unfold putp; fields; apply list_lookup_insert_eq; by eapply lookup_lt_Some|].
  unfold putp in *. fields. by rewrite list_insert_insert_eq.
Qed.
Lemma putp_id s p x : procs s !! p = Some x → putp s p x = s.
Proof. intros Hx. unfold putp. rewrite list_insert_id by done. by destruct s. Qed.

(** What is left in the entry of a zombie [x] whose parent has waited. *)
Definition vacant x : proc :=
  x<|p_pptr := None|><|p_flag := 0|><|p_pid := 0|><|p_ppid := 0|><|p_sig := 0|><|p_stat := 0|><|p_xstat := 0|><|p_pri := 0|><|p_cpu := 0|>
   <|p_time := 0|><|p_nice := 0|><|p_sigmask := 0|><|p_sigignore := 0|><|p_sigcatch := 0|><|p_pgrp := 0|><|p_wchan := 0|>.
Record reaped s s' (p : nat) x : Prop := Reaped {
  rp_frame : s' = s<|procs := procs s'|><|zombproc := zombproc s'|><|freeproc := Some p|><|u ::= λ v, v<|u_cru := ruadd (u_cru v) (p_ru x)|>|>;
  rp_len : length (procs s') = length (procs s);
  rp_entry : procs s' !! p = Some ((vacant x)<|p_nxt := freeproc s|>);
  rp_proc i y : i ≠ p → procs s !! i = Some y → ∃ y', procs s' !! i = Some y' ∧ y' = y<|p_nxt := p_nxt y'|><|p_prev := p_prev y'|> }.

Lemma table_nodup_zomb (all z1 z2 free : list nat) p : NoDup (all ++ (z1 ++ p :: z2) ++ free) →
  NoDup (z1 ++ p :: z2) ∧ p ∉ all ∧ p ∉ z1 ++ z2 ∧ p ∉ free ∧ NoDup (all ++ (z1 ++ z2) ++ p :: free) ∧
  (∀ i, i ∈ all ∨ i ∈ free → i ∉ z1 ++ z2).
Proof.
  intros Hnd. assert (Hp : all ++ (z1 ++ p :: z2) ++ free ≡ₚ all ++ (z1 ++ z2) ++ p :: free).
  { apply Permutation_app_head. rewrite <- !app_assoc. apply Permutation_app_head. simpl. apply Permutation_middle. }
  assert (Hnd' : NoDup (all ++ (z1 ++ z2) ++ p :: free)) by (by rewrite <- Hp).
  pose proof Hnd as (_ & _ & (Hn1 & _ & _)%NoDup_app)%NoDup_app. pose proof Hnd' as (Hm1 & Hm2 & (Hm3 & Hm4 & [Hm5 _]%NoDup_cons)%NoDup_app)%NoDup_app.
  split_and!; try done.
  - intros Hi. apply (Hm2 p Hi). set_solver.
  - intros Hi. apply (Hm4 p Hi). set_solver.
  - intros i [Hi|Hi] Hi2; [apply (Hm2 i Hi); set_solver|apply (Hm4 i Hi2); set_solver].
Qed.

Lemma wp_reap s all z1 p z2 free x :
  table_ok s all (z1 ++ p :: z2) free → procs s !! p = Some x →
  wp (reap p) (λ _ s', table_ok s' all (z1 ++ z2) (p :: free) ∧ reaped s s' p x) s.
Proof.
  intros [T1 T2 T3 T4 T5 T6 T7] Hx. destruct (table_nodup_zomb _ _ _ _ _ T4) as (N1 & N2 & N3 & N4 & N5 & N6). pose proof (lookup_lt_Some _ _ _ Hx) as Hlt.
  unfold reap. apply wp_bind. eapply wp_at; [done|]. apply wp_bind, wp_modify. set (s0 := s<|u ::= _|>).
  assert (Hx0 : procs s0 !! p = Some x) by done. rewrite <- (putp_id s0 p x Hx0).
  do 4 (apply wp_bind; eapply wp_setp_put; [exact Hx0|]). set (x1 := x<|p_xstat := 0|><|p_pri := 0|><|p_cpu := 0|><|p_time := 0|><|p_nice := 0|><|p_stat := 0|><|p_pid := 0|><|p_ppid := 0|>).
  change (putp s0 p _) with (putp s0 p x1). set (s1 := putp s0 p x1). assert (Hx1 : procs s1 !! p = Some x1) by (unfold s1, putp; fields; by apply list_lookup_insert_eq).
  assert (Hsame : ∀ i, i ≠ p → procs s1 !! i = procs s !! i) by (intros i Hi; unfold s1, putp; fields; by rewrite list_lookup_insert_ne).
  assert (En : ∀ i, p_nxt <$> procs s1 !! i = p_nxt <$> procs s !! i ∧ p_prev <$> procs s1 !! i = p_prev <$> procs s !! i).
  { intros i. destruct (decide (i = p)) as [->|Hne]; [by rewrite Hx1, Hx|by rewrite Hsame]. }
  apply wp_bind. eapply (wp_unlist s1 ZombProc z1 p z2 x1); [done| | |exact N1|exact Hx1|].
  { eapply lseg_links; [intros i _; apply En|exact T2]. }
  { eapply back_links; [intros i _; apply En|exact T6]. }
  intros s2 R2 L2 B2 H2 F2. assert (U2 : ∀ i, i ∉ z1 ++ z2 → procs s2 !! i = procs s1 !! i) by (intros i Hi; by eapply relinked_proc).
  assert (Hx2 : procs s2 !! p = Some x1) by (by rewrite U2). pose proof (lookup_lt_Some _ _ _ Hx2) as Hlt2.
  assert (EA : allproc s2 = allproc s) by (by apply (H2 AllProc)). change (freeproc s1) with (freeproc s) in F2.
  apply wp_bind, wp_gets. apply wp_bind. eapply wp_setp; [exact Hx2|]. apply wp_modify. fields. rewrite F2.
  set (y := emptied (freeproc s) x1). assert (Ey : y = (vacant x)<|p_nxt := freeproc s|>) by (by destruct x).
  set (s3 := s2<|procs := <[p := y]> (procs s2)|><|freeproc := Some p|>).
  assert (HL : ∀ h l q, p ∉ l → lseg p_nxt (procs s2) h l q → lseg p_nxt (procs s3) h l q) by (intros h l q Hp; unfold s3; fields; by apply lseg_insert).
  assert (HB : ∀ r l, p ∉ l → back (procs s2) r l → back (procs s3) r l).
  { intros r l Hp. apply back_links. intros i Hi. unfold s3. fields. rewrite list_lookup_insert_ne; [done|]. by intros ->. }
  assert (Hold : ∀ i, i ≠ p → i ∉ z1 ++ z2 → procs s2 !! i = procs s !! i) by (intros i Hi Hi2; rewrite U2 by done; by apply Hsame).
  split.
  - split.
    + change (allproc s3) with (allproc s2). rewrite EA. apply HL; [done|]. eapply lseg_links; [|exact T1]. intros i Hi. rewrite Hold; [done|by intros ->|auto].
    + by apply HL.
    + split; [done|]. exists y. split; [unfold s3; fields; by apply list_lookup_insert_eq|]. change (p_nxt y) with (freeproc s).
      apply HL; [done|]. eapply lseg_links; [|exact T3]. intros i Hi. rewrite Hold; [done|by intros ->|auto].
    + done.
    + apply HB; [done|]. eapply back_links; [|exact T5]. intros i Hi. rewrite Hold; [done|by intros ->|auto].
    + by apply HB.
    + assert (Hi3 : ∀ i, i ∈ all → procs s3 !! i = procs s !! i).
      { intros i Hi. unfold s3. fields. rewrite list_lookup_insert_ne by (by intros ->). apply Hold; [by intros ->|auto]. }
      intros h Hh. destruct (T7 h Hh) as (hd & ch & Q1 & Q2 & Q3 & Q4). exists hd, ch. split.
      { change (pidhash s3) with (pidhash s2). rewrite (re_frame _ _ _ R2). exact Q1. }
      split; [eapply lseg_links; [|exact Q2]; intros i Hi; rewrite Hi3; [done|by apply Q4 in Hi as [? _]]|]. split; [done|].
      intros i. rewrite Q4. split; intros [Hi Hh']; (split; [done|]); [by rewrite Hi3|by rewrite Hi3 in Hh'].
  - split.
    + transitivity (s2<|procs := procs s3|><|freeproc := Some p|>); [done|]. rewrite (re_frame _ _ _ R2) at 1.
      change (zombproc s3) with (zombproc s2). fields. rewrite EA. by destruct s.
    + unfold s3. fields. rewrite length_insert, (re_len _ _ _ R2). unfold s1, putp. fields. by rewrite length_insert.
    + change (procs s3) with (<[p := y]> (procs s2)). rewrite list_lookup_insert_eq by done. by rewrite Ey.
    + intros i z Hne Hz. rewrite <- Hsame in Hz by done. destruct (re_proc _ _ _ R2 i z Hz) as (z' & Hz' & Ez & _). exists z'.
      split; [unfold s3; fields; by rewrite list_lookup_insert_ne|done].
Qed.
(** ** Becoming a process *)
Record entered s s' (c : nat) x (pp : nat) parent : Prop := Entered {
  en_frame : s' = s<|procs := procs s'|><|allproc := Some c|><|freeproc := p_nxt x|><|pidhash := pidhash s'|>;
  en_len : length (procs s') = length (procs s);
  en_entry : ∃ h, procs s' !! c = Some ((inherit parent x pp (mpid s))<|p_hash := h|><|p_nxt := allproc s|><|p_prev := Some AllProc|>);
  en_proc i y : i ≠ c → procs s !! i = Some y → ∃ y', procs s' !! i = Some y' ∧ y' = y<|p_prev := p_prev y'|> }.

Lemma wp_hash_enter s c all x : hash_ok s all → c ∉ all → procs s !! c = Some x →
  wp (hash_enter c) (λ _ s', ∃ h, procs s' = <[c := x<|p_hash := h|>]> (procs s) ∧ s' = s<|procs := procs s'|><|pidhash := pidhash s'|> ∧ hash_ok s' (c :: all)) s.
Proof.
  intros Hok Hc Hx. pose proof (PIDHASH_range (p_pid x)) as Hr. set (h := Z.to_nat (PIDHASH (p_pid x))). pose proof (lookup_lt_Some _ _ _ Hx) as Hlt.
  assert (Eh : PIDHASH (p_pid x) = Z.of_nat h) by (unfold h; lia). destruct (Hok h ltac:(unfold h; lia)) as (hd & ch & Hhd & Hch & Hcn & Hin).
  unfold hash_enter. apply wp_bind. eapply wp_at; [done|]. apply wp_bind, wp_gets. apply wp_bind. rewrite Eh.
  eapply wp_lift; [unfold rdz; rewrite (proj2 (Z.leb_le 0 _)) by lia; rewrite Nat2Z.id; by apply rd_Done|].
  apply wp_bind. eapply wp_setp; [exact Hx|]. apply wp_bind. pose proof (lookup_lt_Some _ _ _ Hhd) as Hlth.
  eapply wp_lift; [unfold wrz; rewrite (proj2 (Z.leb_le 0 _)) by lia; rewrite Nat2Z.id; by apply wr_Done|]. apply wp_modify.
  set (y := x<|p_hash := hd|>). exists hd. split; [done|]. split; [by destruct s|].
  assert (Hpid : ∀ i h', (∃ z, <[c := y]> (procs s) !! i = Some z ∧ PIDHASH (p_pid z) = h') ↔ ∃ z, procs s !! i = Some z ∧ PIDHASH (p_pid z) = h').
  { intros i h'. destruct (decide (i = c)) as [->|Hne]; [|by rewrite list_lookup_insert_ne]. rewrite list_lookup_insert_eq, Hx by done.
    split; intros (z & [= <-] & E); eexists; by split. }
  intros k Hk. fields. destruct (decide (k = h)) as [->|Hne].
  - exists (Some c), (c :: ch). assert (Hcc : c ∉ ch) by (rewrite Hin; tauto). split; [by apply list_lookup_insert_eq|]. split.
    + split; [done|]. exists y. split; [by apply list_lookup_insert_eq|]. by apply lseg_insert.
    + split; [by apply NoDup_cons|]. intros i. rewrite Hpid, !elem_of_cons, Hin. split.
      * intros [->|[? ?]]; [split; [by left|by exists x]|tauto].
      * intros [[->|?] ?]; tauto.
  - destruct (Hok k Hk) as (hd2 & c2 & Hhd2 & Hc2 & Hcn2 & Hin2). exists hd2, c2. assert (Hcc : c ∉ c2) by (rewrite Hin2; tauto).
    split; [by rewrite list_lookup_insert_ne|]. split; [by apply lseg_insert|]. split; [done|]. intros i. rewrite Hpid, elem_of_cons, Hin2.
    split; [tauto|]. intros [[->|?] Hz]; [|tauto]. exfalso. destruct Hz as (z & Hz & Ez). simplify_eq. lia.
Qed.

Lemma wp_proc_enter s a all zomb c free x parent :
  table_ok s (a :: all) zomb (c :: free) → procs s !! c = Some x → procs s !! u_procp (u s) = Some parent →
  wp proc_enter (λ (c0 : nat) s', c0 = c ∧ table_ok s' (c :: a :: all) zomb free ∧ entered s s' c x (u_procp (u s)) parent) s.
Proof.
  intros [T1 T2 T3 T4 T5 T6 T7] Hx Hpar. pose proof (lookup_lt_Some _ _ _ Hx) as Hlt.
  assert (Hp : (a :: all) ++ zomb ++ c :: free ≡ₚ (c :: a :: all) ++ zomb ++ free).
  { change ((c :: a :: all) ++ zomb ++ free) with (c :: (a :: all) ++ zomb ++ free). rewrite !(app_assoc (a :: all)). symmetry. apply Permutation_middle. }
  assert (Hnd : NoDup ((c :: a :: all) ++ zomb ++ free)) by (by rewrite <- Hp). pose proof Hnd as [Hc _]%NoDup_cons.
  destruct T1 as (Ea & xa & Hxa & T1). destruct T3 as (Ef & x' & Hx' & T3). assert (x' = x) as -> by congruence. clear Hx'.
  assert (Hca : c ≠ a) by set_solver. unfold proc_enter. apply wp_bind, wp_gets. rewrite Ef. apply wp_bind. eapply wp_at; [done|]. apply wp_bind, wp_modify.
  apply wp_bind. unfold curproc. apply wp_gets. fields. apply wp_bind. eapply wp_at; [exact Hpar|]. apply wp_bind, wp_gets. fields. set (pp := u_procp (u s)) in *.
  apply wp_bind. eapply wp_setp; [exact Hx|]. set (x1 := inherit parent x pp (mpid s)). set (s1 := s<|freeproc := p_nxt x|><|procs := <[c := x1]> (procs s)|>).
  assert (Hx1 : procs s1 !! c = Some x1) by (unfold s1; fields; by apply list_lookup_insert_eq).
  assert (Hc1 : c ∉ a :: all) by (intros ?; apply Hc; set_solver).
  assert (U1 : ∀ i, i ≠ c → procs s1 !! i = procs s !! i) by (intros i Hi; unfold s1; fields; by rewrite list_lookup_insert_ne).
  assert (Hok1 : hash_ok s1 (a :: all)).
  { intros h Hh. destruct (T7 h Hh) as (hd & ch & Q1 & Q2 & Q3 & Q4). exists hd, ch. split; [done|]. assert (Hcc : c ∉ ch) by (rewrite Q4; tauto).
    split; [unfold s1; fields; by apply lseg_insert|]. split; [done|]. intros i. rewrite Q4. destruct (decide (i = c)) as [->|Hne]; [tauto|]. by rewrite U1. }
  apply wp_bind. change (s<|freeproc := p_nxt x|><|procs := _|>) with s1. eapply wp_mono; [by apply (wp_hash_enter s1 c (a :: all) x1)|]. intros [] s2 (h & E2 & F2 & Hok2).
  set (x2 := x1<|p_hash := h|>) in *. assert (Hx2 : procs s2 !! c = Some x2) by (rewrite E2; apply list_lookup_insert_eq; unfold s1; fields; by rewrite length_insert).
  assert (U2 : ∀ i, i ≠ c → procs s2 !! i = procs s !! i) by (intros i Hi; rewrite E2, list_lookup_insert_ne by done; by apply U1).
  assert (G2 : allproc s2 = Some a ∧ zombproc s2 = zombproc s ∧ freeproc s2 = p_nxt x).
  { pose proof (f_equal allproc F2). pose proof (f_equal zombproc F2). pose proof (f_equal freeproc F2). rewrite <- Ea. done. } destruct G2 as (GA & GZ & GF).
  pose proof (lookup_lt_Some _ _ _ Hx2) as Hlt2.
  apply wp_bind. unfold allproc_enter. apply wp_bind, wp_gets. rewrite GA. apply wp_bind. eapply wp_setp; [exact Hx2|]. set (x3 := x2<|p_nxt := Some a|>).
  apply wp_bind. eapply wp_setp; [fields; rewrite list_lookup_insert_ne by done; rewrite U2 by done; exact Hxa|]. set (ya := xa<|p_prev := Some (NxtOf c)|>).
  apply wp_bind. eapply wp_setp; [fields; rewrite list_lookup_insert_ne by done; by apply list_lookup_insert_eq|]. set (x4 := x3<|p_prev := Some AllProc|>). apply wp_modify. apply wp_ret. fields.
  match goal with |- _ ∧ table_ok ?t _ _ _ ∧ _ => set (s3 := t) end.
  assert (E3 : procs s3 = <[c := x4]> (<[a := ya]> (procs s2))).
  { unfold s3. fields. rewrite (list_insert_insert_ne _ a c) by done. by rewrite list_insert_insert_eq. }
  assert (Hx3 : procs s3 !! c = Some x4) by (rewrite E3; apply list_lookup_insert_eq; by rewrite length_insert).
  pose proof (lookup_lt_Some _ _ _ Hxa) as Hlta.
  assert (Ha3 : procs s3 !! a = Some ya).
  { rewrite E3, list_lookup_insert_ne by done. apply list_lookup_insert_eq. rewrite E2, length_insert. unfold s1. fields. by rewrite length_insert. }
  assert (U3 : ∀ i, i ≠ c → i ≠ a → procs s3 !! i = procs s !! i) by (intros i Hi Hia; rewrite E3, !list_lookup_insert_ne by done; by apply U2).
  assert (Un : ∀ i, i ≠ c → p_nxt <$> procs s3 !! i = p_nxt <$> procs s !! i).
  { intros i Hi. destruct (decide (i = a)) as [->|Hia]; [by rewrite Ha3, Hxa|by rewrite U3]. }
  assert (Hcz : c ∉ zomb ∧ c ∉ free) by (split; intros ?; apply Hc; set_solver). destruct Hcz as [Hcz Hcf].
  pose proof Hnd as [_ [Haz _]%NoDup_cons]%NoDup_cons.
  split; [done|]. split.
  - split.
    + split; [done|]. exists x4. split; [done|]. split; [done|]. exists ya. split; [done|]. change (p_nxt ya) with (p_nxt xa).
      eapply lseg_links; [|exact T1]. intros i Hi. apply Un. intros ->. apply Hc1. set_solver.
    + change (zombproc s3) with (zombproc s2). rewrite GZ. eapply lseg_links; [|exact T2]. intros i Hi. apply Un. by intros ->.
    + change (freeproc s3) with (freeproc s2). rewrite GF. eapply lseg_links; [|exact T3]. intros i Hi. apply Un. by intros ->.
    + done.
    + split; [exists x4; by split|]. split; [exists ya; by split|]. destruct T5 as [_ T5]. eapply back_links; [|exact T5]. intros i Hi.
      rewrite U3; [done|intros ->; apply Hc1; set_solver|intros ->; apply Haz; set_solver].
    + eapply back_links; [|exact T6]. intros i Hi. rewrite U3; [done|by intros ->|intros ->; apply Haz; set_solver].
    + assert (Ei : ∀ i, p_hash <$> procs s3 !! i = p_hash <$> procs s2 !! i ∧ p_pid <$> procs s3 !! i = p_pid <$> procs s2 !! i).
      { intros i. destruct (decide (i = c)) as [->|Hne]; [rewrite Hx3, Hx2; simpl; change (p_hash x4) with h; change (p_hash x2) with h; change (p_pid x4) with (mpid s); by change (p_pid x2) with (mpid s)|].
        destruct (decide (i = a)) as [->|Hia]; [rewrite Ha3, (U2 a (not_eq_sym Hca)), Hxa; by split|]. rewrite (U3 i Hne Hia), (U2 i Hne). by split. }
      eapply (hash_ok_same s2); [done| | |done]; apply list_eq; intros i; rewrite !list_lookup_fmap; apply Ei.
  - split.
    + transitivity (s2<|procs := procs s3|><|allproc := Some c|>); [done|]. rewrite F2 at 1. change (pidhash s3) with (pidhash s2). by destruct s.
    + rewrite E3, !length_insert, E2, length_insert. unfold s1. fields. by rewrite length_insert.
    + exists h. rewrite Hx3, Ea. unfold x4, x3, x2, x1. reflexivity.
    + intros i y Hi Hy. destruct (decide (i = a)) as [->|Hia].
      * exists ya. split; [done|]. by simplify_eq.
      * exists y. rewrite U3 by done. split; [done|by destruct y].
Qed.
End Lists.

(** Changes that do not concern the lists. *)
Lemma table_user s all zomb free v : table_ok s all zomb free → table_ok (s<|u := v|>) all zomb free.
Proof. intros []. by split. Qed.
Lemma table_put s all zomb free i x y : table_ok s all zomb free → procs s !! i = Some x →
  p_nxt y = p_nxt x → p_prev y = p_prev x → p_hash y = p_hash x → p_pid y = p_pid x → table_ok (putp s i y) all zomb free.
Proof.
  intros [] Hx E1 E2 E3 E4.
  assert (HE : ∀ {A} (f : proc → A), f y = f x → f <$> procs (putp s i y) = f <$> procs s).
  { intros A f E. unfold putp. fields. rewrite list_fmap_insert, E. apply list_insert_id. by rewrite list_lookup_fmap, Hx. }
  split; try done; try (eapply lseg_links; [|done]); try (eapply back_links; [|done]);
    try (intros j _; rewrite <- !list_lookup_fmap; f_equal; by apply HE).
  eapply (hash_ok_same s); [done|by apply HE|by apply HE|done].
Qed.

(** ** The life of an entry of the process table *)

(** What a waiting parent learns: the process id, the status and the usage. *)
Record exit_record := ExitRecord { er_pid : Z; er_status : Z; er_usage : k_rusage }.

(** The table as three lists: the live processes with their ids, the zombies
    with their exit records, the unused entries; and the user area of the
    running process and the last process id that [newpid] has chosen. *)
Record life := Life { alive : list (nat * Z); zombies : list (nat * exit_record); spare : list nat; running : user; chosen : Z }.

(** [Dispatch]: another process runs, and an id has been chosen; [Enter]: the
    part of [newproc] that makes an entry a process; [Retire]: the running
    process exits; [Reap]: its parent, now running, takes the record. *)
Inductive event := Dispatch (v : user) (pid : Z) | Enter | Retire (rv : Z) | Reap (p : nat).

Inductive life_step : event → life → life → Prop :=
  | L_dispatch L v pid : life_step (Dispatch v pid) L (Life (alive L) (zombies L) (spare L) v pid)
  | L_enter l d c f v pid : u_procp v ∈ l.*1 →
      life_step Enter (Life l d (c :: f) v pid) (Life ((c, s16 pid) :: l) d f v pid)
  | L_retire l1 l2 d f v pid rv k :
      life_step (Retire rv) (Life (l1 ++ (u_procp v, k) :: l2) d f v pid)
        (Life (l1 ++ l2) ((u_procp v, ExitRecord k rv (ruadd (u_ru v) (u_cru v))) :: d) f v pid)
  | L_reap l d1 p r d2 f v pid :
      life_step (Reap p) (Life l (d1 ++ (p, r) :: d2) f v pid)
        (Life l (d1 ++ d2) (p :: f) (v<|u_cru := ruadd (u_cru v) (er_usage r)|>) pid).
Inductive life_run : list event → life → life → Prop :=
  | life_nil L : life_run [] L L
  | life_cons e es L1 L2 L3 : life_step e L1 L2 → life_run es L2 L3 → life_run (e :: es) L1 L3.

(** The code of the events. *)
Definition happen (e : event) : M unit :=
  match e with
  | Dispatch v pid => modify (λ s, s<|u := v|><|mpid := pid|>)
  | Enter => proc_enter;; mret tt
  | Retire rv => p ← curproc; retire p rv
  | Reap p => reap p
  end.
Fixpoint history (es : list event) : M unit := match es with [] => mret tt | e :: es => happen e;; history es end.

(** A live process is not a zombie and not free, and has its id; a zombie has
    its record; an unused entry is free. *)
Definition live_as (k : Z) (x : proc) : Prop := p_pid x = k ∧ p_stat x ≠ SZOMB ∧ p_stat x ≠ 0.
Definition dead_as (r : exit_record) (x : proc) : Prop := p_stat x = SZOMB ∧ r = ExitRecord (p_pid x) (p_xstat x) (p_ru x).
Record life_ok (s : kern) (L : life) : Prop := LifeOk {
  lf_table : table_ok s (alive L).*1 (zombies L).*1 (spare L);
  lf_live i k : (i, k) ∈ alive L → ∃ x, procs s !! i = Some x ∧ live_as k x;
  lf_dead i r : (i, r) ∈ zombies L → ∃ x, procs s !! i = Some x ∧ dead_as r x;
  lf_spare i : i ∈ spare L → ∃ x, procs s !! i = Some x ∧ p_stat x = 0;
  lf_user : u s = running L;
  lf_chosen : mpid s = chosen L }.

(** The members that [live_as] and [dead_as] are about. *)
Definition vital (x : proc) : Z * Z * Z * k_rusage := (p_pid x, p_stat x, p_xstat x, p_ru x).
Lemma vital_as x y : vital y = vital x → (∀ k, live_as k x → live_as k y) ∧ (∀ r, dead_as r x → dead_as r y) ∧ (p_stat x = 0 → p_stat y = 0).
Proof. unfold vital, live_as, dead_as. intros [= -> -> -> ->]. done. Qed.

(** Entries other than [p] keep those members, so what is known of them stays. *)
Definition others (p : nat) (s s' : kern) : Prop := ∀ i x, i ≠ p → procs s !! i = Some x → ∃ x', procs s' !! i = Some x' ∧ vital x' = vital x.
Lemma others_as s s' L p : life_ok s L → others p s s' →
  (∀ i k, i ≠ p → (i, k) ∈ alive L → ∃ x, procs s' !! i = Some x ∧ live_as k x) ∧
  (∀ i r, i ≠ p → (i, r) ∈ zombies L → ∃ x, procs s' !! i = Some x ∧ dead_as r x) ∧
  (∀ i, i ≠ p → i ∈ spare L → ∃ x, procs s' !! i = Some x ∧ p_stat x = 0).
Proof.
  intros HL HO. split_and!.
  - intros i k Hi Hin. destruct (lf_live _ _ HL i k Hin) as (x & Hx & Hk), (HO i x Hi Hx) as (x' & Hx' & E). exists x'. split; [done|]. by apply (vital_as x).
  - intros i r Hi Hin. destruct (lf_dead _ _ HL i r Hin) as (x & Hx & Hk), (HO i x Hi Hx) as (x' & Hx' & E). exists x'. split; [done|]. by apply (vital_as x).
  - intros i Hi Hin. destruct (lf_spare _ _ HL i Hin) as (x & Hx & Hk), (HO i x Hi Hx) as (x' & Hx' & E). exists x'. split; [done|]. by apply (vital_as x).
Qed.
Lemma fst_in {A} (i : nat) (k : A) l : (i, k) ∈ l → i ∈ l.*1.
Proof. intros Hin. apply list_elem_of_fmap. by exists (i, k). Qed.

Lemma happen_enter s l d c f v pid :
  life_ok s (Life l d (c :: f) v pid) → u_procp v ∈ l.*1 →
  wp (happen Enter) (λ _ s', life_ok s' (Life ((c, s16 pid) :: l) d f v pid)) s.
Proof.
  intros HL Hu. pose proof (lf_table _ _ HL) as HT. pose proof (t_nodup _ _ _ _ HT) as Hnd. simpl in HT, Hnd.
  destruct (lf_spare _ _ HL c ltac:(simpl; set_solver)) as (x & Hx & _). apply list_elem_of_fmap in Hu as ([q k] & Eq & Hq). simpl in Eq.
  destruct (lf_live _ _ HL q k Hq) as (parent & Hpar & _). rewrite <- Eq, <- (lf_user _ _ HL : u s = v) in Hpar.
  destruct l as [|[a ka] l]; [by apply elem_of_nil in Hq|]. simpl in HT. simpl happen. apply wp_bind.
  eapply wp_mono; [by apply (wp_proc_enter s a l.*1 d.*1 c f x parent)|]. intros c0 s' (-> & HT' & [Fr Len (h & He) Pr]). apply wp_ret.
  assert (HO : others c s s').
  { intros i y Hi Hy. destruct (Pr i y Hi Hy) as (y' & Hy' & E). exists y'. split; [done|]. by rewrite E. }
  destruct (others_as s s' _ c HL HO) as (O1 & O2 & O3). simpl in O1, O2, O3.
  assert (Hc : c ∉ ((a, ka) :: l).*1 ∧ c ∉ d.*1 ∧ c ∉ f).
  { apply NoDup_app in Hnd as (_ & N1 & (_ & N2 & [N3 _]%NoDup_cons)%NoDup_app). split_and!; [|intros ?; eapply N2; [done|set_solver]|done].
    intros ?. eapply N1; [done|set_solver]. }
  destruct Hc as (C1 & C2 & C3). split.
  - exact HT'.
  - simpl. intros i k' [[= -> ->]|Hi]%elem_of_cons; [|apply O1; [|done]; intros ->; by apply C1, (fst_in c k')].
    eexists. split; [exact He|]. unfold live_as. rewrite <- (lf_chosen _ _ HL : mpid s = pid). split; [reflexivity|]. split; by compute.
  - simpl. intros i r Hi. apply O2; [|done]. intros ->. by apply C2, (fst_in c r).
  - simpl. intros i Hi. apply O3; [|set_solver]. by intros ->.
  - rewrite Fr. apply HL.
  - rewrite Fr. apply HL.
Qed.
Lemma happen_retire s l1 l2 d f v pid rv k :
  life_ok s (Life (l1 ++ (u_procp v, k) :: l2) d f v pid) →
  wp (happen (Retire rv)) (λ _ s', life_ok s' (Life (l1 ++ l2) ((u_procp v, ExitRecord k rv (ruadd (u_ru v) (u_cru v))) :: d) f v pid)) s.
Proof.
  intros HL. set (p := u_procp v). pose proof (lf_table _ _ HL) as HT. simpl in HT. rewrite fmap_app in HT. simpl in HT. fold p in HT.
  destruct (lf_live _ _ HL p k ltac:(simpl; set_solver)) as (x & Hx & Hk & _). pose proof (lf_user _ _ HL : u s = v) as Eu.
  simpl happen. apply wp_bind. unfold curproc. apply wp_gets. rewrite Eu. fold p. eapply wp_mono; [by apply wp_retire|].
  intros [] s' [HT' [Fr Len Hz Pr]].
  assert (HO : others p s s').
  { intros i y Hi Hy. destruct (Pr i y Hi Hy) as (y' & Hy' & E). exists y'. split; [done|]. by rewrite E. }
  destruct (others_as s s' _ p HL HO) as (O1 & O2 & O3). simpl in O1, O2, O3. destruct (table_nodup _ _ _ _ _ (t_nodup _ _ _ _ HT)) as (_ & [N2 _]%NoDup_cons & N3 & N4 & _).
  split.
  - simpl. by rewrite fmap_app.
  - simpl. intros i k' Hi. apply O1; [|set_solver]. intros ->. apply N3. rewrite <- fmap_app. by eapply fst_in.
  - simpl. intros i r [[= -> ->]|Hi]%elem_of_cons; [|apply O2; [|done]; intros ->; by apply N2, (fst_in p r)].
    eexists. split; [exact Hz|]. split; [reflexivity|]. rewrite <- Hk, <- Eu. reflexivity.
  - simpl. intros i Hi. apply O3; [|done]. by intros ->.
  - rewrite Fr. apply HL.
  - rewrite Fr. apply HL.
Qed.

Lemma happen_reap s l d1 p r d2 f v pid :
  life_ok s (Life l (d1 ++ (p, r) :: d2) f v pid) →
  wp (happen (Reap p)) (λ _ s', life_ok s' (Life l (d1 ++ d2) (p :: f) (v<|u_cru := ruadd (u_cru v) (er_usage r)|>) pid)) s.
Proof.
  intros HL. pose proof (lf_table _ _ HL) as HT. simpl in HT. rewrite fmap_app in HT. simpl in HT.
  destruct (lf_dead _ _ HL p r ltac:(simpl; set_solver)) as (x & Hx & _ & Er). pose proof (lf_user _ _ HL : u s = v) as Eu.
  simpl happen. eapply wp_mono; [by apply wp_reap|]. intros [] s' [HT' [Fr Len Hz Pr]].
  assert (HO : others p s s').
  { intros i y Hi Hy. destruct (Pr i y Hi Hy) as (y' & Hy' & E). exists y'. split; [done|]. by rewrite E. }
  destruct (others_as s s' _ p HL HO) as (O1 & O2 & O3). simpl in O1, O2, O3. destruct (table_nodup_zomb _ _ _ _ _ (t_nodup _ _ _ _ HT)) as (_ & N2 & N3 & N4 & _).
  split.
  - simpl. by rewrite fmap_app.
  - simpl. intros i k' Hi. apply O1; [|done]. intros ->. by apply N2, (fst_in p k').
  - simpl. intros i r' Hi. apply O2; [|set_solver]. intros ->. apply N3. rewrite <- fmap_app. by eapply fst_in.
  - simpl. intros i [->|Hi]%elem_of_cons; [eexists; split; [exact Hz|reflexivity]|]. apply O3; [|done]. by intros ->.
  - rewrite Fr, Er, <- Eu. reflexivity.
  - rewrite Fr. apply HL.
Qed.

(** ** Theorems *)

(** C13. Creation, exit and wait keep the process table whole: over every
    history of processes that are created, exit and are waited for, the three
    linked lists and the hash chains are those of the abstract machine.  No
    entry is lost or is in two lists, exit takes a process out of the hash
    table so that its id finds no entry, and every zombie holds the id, status
    and usage it exited with until its parent takes them, which is when the
    usage is added to the parent's and the entry is free for the next child. *)
Theorem lifecycle_refines (es : list event) (L L' : life) (s : kern) :
  life_ok s L → life_run es L L' → wp (history es) (λ _ s', life_ok s' L') s.
Proof.
  intros HL Hrun. revert s HL. induction Hrun as [L|e es L1 L2 L3 Hs Hr IH]; intros s HL; [by apply wp_ret|].
  simpl. apply wp_bind. eapply wp_mono with (λ _ s', life_ok s' L2); [|intros [] s' HL'; by apply IH].
  destruct Hs; [|by apply happen_enter|by apply happen_retire|by apply happen_reap].
  simpl. apply wp_modify. destruct HL as [[] ? ? ? ? ?]. by split.
Qed.

(** ** Examples *)
Lemma ex_table uid : table_ok (ex_kern uid) [2; 1; 0]%nat [] [3; 4; 5; 6; 7; 8; 9]%nat.
Proof.
  split; [..|apply ex_hash]; try (simpl; repeat (split; [done|]; eexists; split; [done|]); done).
  - apply (bool_decide_eq_true_1 _). vm_compute. reflexivity.
  - simpl. repeat (split; [eexists; split; reflexivity|]). done.
Qed.
Definition ex_life (uid : Z) : life := Life [(2%nat, 2); (1%nat, 1); (0%nat, 0)] [] [3; 4; 5; 6; 7; 8; 9]%nat (ex_user uid) 2.
Lemma ex_life_ok uid : life_ok (ex_kern uid) (ex_life uid).
Proof.
  split; [apply ex_table| | | |done|done].
  - intros i k Hi. repeat (apply elem_of_cons in Hi as [[= -> ->]|Hi]; [eexists; split; [reflexivity|]; by vm_compute|]). by apply elem_of_nil in Hi.
  - intros i r Hi. by apply elem_of_nil in Hi.
  - intros i Hi. repeat (apply elem_of_cons in Hi as [->|Hi]; [eexists; split; reflexivity|]). by apply elem_of_nil in Hi.
Qed.

(** The shell makes a child, which exits with 3; the shell collects it. *)
Definition ex_child : user := (ex_user 100)<|u_procp := 3%nat|>.
Lemma lifecycle_refines_witness :
  wp (history [Dispatch (ex_user 100) 7; Enter; Dispatch ex_child 7; Retire 0x300; Dispatch (ex_user 100) 7; Reap 3])
    (λ _ s', ∃ v, life_ok s' (Life [(2%nat, 2); (1%nat, 1); (0%nat, 0)] [] [3; 4; 5; 6; 7; 8; 9]%nat v 7)) (ex_kern 100).
Proof.
  eapply wp_mono; [eapply (lifecycle_refines _ (ex_life 100) _ (ex_kern 100) (ex_life_ok 100))|intros [] s' HL; eexists; exact HL].
  eapply life_cons; [apply L_dispatch|]. eapply life_cons; [apply L_enter; simpl; set_solver|].
  eapply life_cons; [apply L_dispatch|]. eapply life_cons; [exact (L_retire [] _ [] _ ex_child 7 0x300 7)|].
  eapply life_cons; [apply L_dispatch|]. eapply life_cons; [exact (L_reap _ [] 3 _ [] _ (ex_user 100) 7)|]. apply life_nil.
Defined.
