(* ===== verification/Wait.v ===== *)
(** * What wait4 finds

    The answer of [wait4] (kernel/kern_exit.c) as a function of the process
    table, and that the code computes it. *)
From stdpp Require Import base tactics list option strings numbers gmap.
From S2P Require Import Prelude Descrip Proc Prot Synch Signal Kill Resource Fork Exit.
Open Scope Z_scope.

(** ** The answer *)
Inductive answer := Collect (p : nat) | Report (p : nat) | Childless | Busy.

(** The first entry of [l] whose process satisfies [f]. *)
Definition holds (s : kern) (f : proc → bool) (i : nat) : bool := from_option f false (procs s !! i).
Definition first (s : kern) (f : proc → bool) (l : list nat) : option nat := head (filter (holds s f) l).

(** The process [x] is a child of [q] that the argument [pid] is about: any
    child, the process with that id, or a member of the group [- pid]. *)
Definition concerns (q : nat) (pid : Z) (x : proc) : Prop :=
  p_pptr x = Some q ∧ (pid = WAIT_ANY ∨ p_pid x = pid ∨ p_pgrp x = - pid).
(** It has stopped and that was not reported since; a stop is news for the
    debugger and for who asked for it. *)
Definition newly_stopped (options : Z) (x : proc) : Prop :=
  p_stat x = SSTOP ∧ has (p_flag x) P_WAITED = false ∧ (has (p_flag x) P_TRACED = true ∨ has options WUNTRACED = true).
#[global] Instance concerns_dec q pid x : Decision (concerns q pid x).
Proof. unfold concerns. apply _. Defined.
#[global] Instance newly_stopped_dec options x : Decision (newly_stopped options x).
Proof. unfold newly_stopped. apply _. Defined.

(** The process [q] waits for [pid]: a zombie first, then a stopped child. *)
Definition judge (s : kern) (q : nat) (pid options : Z) (all zomb : list nat) : answer :=
  match first s (λ x, bool_decide (concerns q pid x)) zomb with
  | Some p => Collect p
  | None =>
      match first s (λ x, bool_decide (concerns q pid x ∧ newly_stopped options x)) all with
      | Some p => Report p
      | None => match first s (λ x, bool_decide (concerns q pid x)) all with Some _ => Busy | None => Childless end
      end
  end.

(** Where [give] can write, and what memory is then. *)
Definition writable (n : nat) (to : Z) : bool := (to =? 0) || negb (baduaddr to || baduaddr (u32 (to + 4 * Z.of_nat n - 1))).
Definition written (ws : list Z) (to : Z) (m : gmap Z Z) : gmap Z Z := if to =? 0 then m else store_words m to ws.

(** What the call leaves behind. *)
Definition wait_post (s : kern) (q : nat) (pid status options rusage : Z) (all zomb free : list nat) (s' : kern) : Prop :=
  match judge s q pid options all zomb with
  | Collect p => ∃ x z1 z2, procs s !! p = Some x ∧ zomb = z1 ++ p :: z2 ∧
      if negb (writable 1 status) then s' = s<|u ::= λ v, v<|u_error := EFAULT|>|>
      else
        let m := written [p_xstat x] status (umem s) in
        if negb (writable 18 rusage) then s' = s<|umem := m|><|u ::= λ v, v<|u_error := EFAULT|>|>
        else u_error (u s') = 0 ∧ u_rval (u s') = p_pid x ∧ umem s' = written (rucvt (p_ru x)) rusage m ∧
             u_cru (u s') = ruadd (u_cru (u s)) (p_ru x) ∧
             table_ok s' all (z1 ++ z2) (p :: free) ∧ procs s' !! p = Some ((vacant x)<|p_nxt := freeproc s|>)
  | Report p => ∃ x, procs s !! p = Some x ∧
      let s1 := s<|procs := <[p := x<|p_flag ::= λ f, Z.lor f P_WAITED|>]> (procs s)|> in
      if writable 1 status then
        s' = s1<|umem := written [W_STOPCODE (p_ptracesig x)] status (umem s)|><|u ::= λ v, v<|u_error := 0|><|u_rval := p_pid x|>|>
      else s' = s1<|u ::= λ v, v<|u_error := EFAULT|>|>
  | Childless => s' = s<|u ::= λ v, v<|u_error := ECHILD|>|>
  | Busy => s' = s<|u ::= λ v, v<|u_error := 0|><|u_rval := 0|>|>
  end.

(** ** The loops *)
Section Wait.
Context `{Layout} `{WaitOps}.
Implicit Types (s : kern) (x : proc) (l : list nat).

Lemma first_cons s f i l : first s f (i :: l) = if holds s f i then Some i else first s f l.
Proof. unfold first. rewrite filter_cons. by destruct (holds s f i). Qed.
Lemma first_in s f l p : first s f l = Some p → p ∈ l ∧ holds s f p = true.
Proof.
  induction l as [|i l IH]; [done|]. rewrite first_cons. destruct (holds s f i) eqn:E.
  - intros [= ->]. split; [set_solver|done].
  - intros [? ?]%IH. split; [set_solver|done].
Qed.

Lemma awaited_concerns q pid x : awaited q pid x = bool_decide (concerns q pid x).
Proof.
  apply eq_bool_prop_intro. rewrite bool_decide_spec. unfold awaited, concerns.
  rewrite Is_true_true, andb_true_iff, !orb_true_iff, !Z.eqb_eq, bool_decide_eq_true. tauto.
Qed.
Lemma reports_newly options x : reports options x = bool_decide (newly_stopped options x).
Proof.
  apply eq_bool_prop_intro. rewrite bool_decide_spec. unfold reports, newly_stopped.
  rewrite Is_true_true, !andb_true_iff, orb_true_iff, negb_true_iff, Z.eqb_eq. tauto.
Qed.
Lemma awaited_newly q pid options x :
  awaited q pid x && reports options x = bool_decide (concerns q pid x ∧ newly_stopped options x).
Proof. by rewrite awaited_concerns, reports_newly, bool_decide_and. Qed.

Lemma wp_give ws to (Q : Z → kern → Prop) s :
  (if writable (length ws) to then Q 0 (s<|umem := written ws to (umem s)|>) else Q EFAULT s) → wp (give ws to) Q s.
Proof.
  unfold give, writable, written. destruct (to =? 0); simpl.
  { intros HQ. apply wp_ret. by destruct s. }
  intros HQ. unfold copyout. destruct (_ || _); simpl in HQ; [by apply wp_ret|]. apply wp_bind, wp_modify, wp_ret. by destruct s.
Qed.

Lemma wp_wait_zombies s q pid status rusage l (Q : option (Z * Z) → kern → Prop) : ∀ fuel h,
  lseg p_nxt (procs s) h l None → (length l ≤ fuel)%nat →
  match first s (λ x, bool_decide (concerns q pid x)) l with
  | None => Q None s
  | Some p => ∀ x, procs s !! p = Some x → wp (collect p x status rusage) (λ r, Q (Some r)) s
  end → wp (wait_zombies fuel h q pid status rusage) Q s.
Proof.
  induction l as [|i l IH]; intros fuel h Hl Hf HQ.
  { simpl in Hl. subst h. destruct fuel; by apply wp_ret. }
  destruct Hl as (-> & x & Hx & Hl). destruct fuel as [|fuel]; simpl in Hf; [lia|]. cbn [wait_zombies]. apply wp_bind. eapply wp_at; [done|].
  rewrite first_cons in HQ. unfold holds at 1 in HQ. rewrite Hx in HQ. simpl in HQ. rewrite awaited_concerns. destruct (bool_decide (concerns q pid x)); simpl.
  - apply wp_bind. eapply wp_mono; [by apply HQ|]. intros r s' HR. by apply wp_ret.
  - apply IH; [done|lia|done].
Qed.

Lemma wp_wait_stopped s q pid status options l (Q : (Z * Z) + Z → kern → Prop) : ∀ fuel h n,
  lseg p_nxt (procs s) h l None → (length l ≤ fuel)%nat → 0 ≤ n →
  match first s (λ x, bool_decide (concerns q pid x ∧ newly_stopped options x)) l with
  | None => ∀ n', n ≤ n' → (n' = n ↔ first s (λ x, bool_decide (concerns q pid x)) l = None) → Q (inr n') s
  | Some p => ∀ x, procs s !! p = Some x → wp (report p x status) (λ r, Q (inl r)) s
  end → wp (wait_stopped fuel h q pid status options n) Q s.
Proof.
  induction l as [|i l IH]; intros fuel h n Hl Hf Hn HQ.
  { simpl in Hl. subst h. destruct fuel; apply wp_ret; by apply HQ. }
  destruct Hl as (-> & x & Hx & Hl). destruct fuel as [|fuel]; simpl in Hf; [lia|]. cbn [wait_stopped]. apply wp_bind. eapply wp_at; [done|].
  rewrite !first_cons in HQ. unfold holds at 1 in HQ. rewrite Hx in HQ. simpl in HQ.
  assert (Hi : holds s (λ x, bool_decide (concerns q pid x)) i = awaited q pid x) by (unfold holds; by rewrite Hx, awaited_concerns).
  rewrite Hi, <- awaited_newly in HQ.
  destruct (awaited q pid x); simpl in *; [destruct (reports options x)|].
  - apply wp_bind. eapply wp_mono; [by apply HQ|]. intros r s' HR. by apply wp_ret.
  - apply IH; [done|lia|lia|]. destruct (first s _ l); [done|]. intros n' Hn' Hiff. apply HQ; [lia|]. split; [lia|done].
  - apply IH; [done|lia|lia|done].
Qed.

(** What [wait4] does with the result of [wait1]. *)
Definition finish (r : Z * Z) : M unit := set_error r.1;; if r.1 =? 0 then set_rval r.2 else mret tt.

Lemma wp_finish_collect s all z1 p z2 free x status rusage (Q : unit → kern → Prop) :
  table_ok s all (z1 ++ p :: z2) free → procs s !! p = Some x →
  (if negb (writable 1 status) then Q tt (s<|u ::= λ v, v<|u_error := EFAULT|>|>)
   else
     let m := written [p_xstat x] status (umem s) in
     if negb (writable 18 rusage) then Q tt (s<|umem := m|><|u ::= λ v, v<|u_error := EFAULT|>|>)
     else ∀ s', u_error (u s') = 0 → u_rval (u s') = p_pid x → umem s' = written (rucvt (p_ru x)) rusage m →
       u_cru (u s') = ruadd (u_cru (u s)) (p_ru x) → table_ok s' all (z1 ++ z2) (p :: free) →
       procs s' !! p = Some ((vacant x)<|p_nxt := freeproc s|>) → Q tt s') →
  wp (collect p x status rusage) (λ r, wp (finish r) Q) s.
Proof.
  intros HT Hx HQ. unfold collect. apply wp_bind, wp_give. change (length [p_xstat x]) with 1%nat.
  destruct (writable 1 status); simpl in HQ; [|simpl; by apply wp_ret, wp_bind, wp_modify, wp_ret].
  apply wp_bind, wp_give. change (length (rucvt (p_ru x))) with 18%nat.
  destruct (writable 18 rusage); simpl in HQ; [|simpl; by apply wp_ret, wp_bind, wp_modify, wp_ret].
  simpl. apply wp_bind. set (s1 := s<|umem := _|>). match goal with |- wp _ _ ?t => set (s2 := t) end.
  assert (HT2 : table_ok s2 all (z1 ++ p :: z2) free) by (destruct HT; by split).
  eapply wp_mono; [by apply (wp_reap s2 all z1 p z2 free x)|]. intros [] s3 [HT3 [Fr Len He _]]. apply wp_ret. apply wp_bind, wp_modify. simpl. apply wp_modify.
  apply HQ; [done|done| | | |exact He].
  - change (umem s3 = written (rucvt (p_ru x)) rusage (written [p_xstat x] status (umem s))). by rewrite Fr.
  - change (u_cru (u s3) = ruadd (u_cru (u s)) (p_ru x)). by rewrite Fr.
  - destruct HT3. by split.
Qed.

Lemma wp_finish_report s p x status :
  procs s !! p = Some x →
  wp (report p x status) (λ r, wp (finish r) (λ _ s',
    let s1 := s<|procs := <[p := x<|p_flag ::= λ f, Z.lor f P_WAITED|>]> (procs s)|> in
    if writable 1 status then
      s' = s1<|umem := written [W_STOPCODE (p_ptracesig x)] status (umem s)|><|u ::= λ v, v<|u_error := 0|><|u_rval := p_pid x|>|>
    else s' = s1<|u ::= λ v, v<|u_error := EFAULT|>|>)) s.
Proof.
  intros Hx. unfold report. apply wp_bind. eapply wp_setp; [exact Hx|]. apply wp_bind, wp_give.
  change (length [W_STOPCODE (p_ptracesig x)]) with 1%nat. destruct (writable 1 status).
  - apply wp_ret, wp_bind, wp_modify. simpl. apply wp_modify. by destruct s.
  - apply wp_ret, wp_bind, wp_modify. simpl. by apply wp_ret.
Qed.

(** One turn of the loop; [sleeping] is what follows when the process has to sleep. *)
Lemma wait_loop_turn k q pid status options rusage : ∃ sleeping : M (Z * Z),
  wait_loop k q pid status options rusage =
    (n ← gets (λ s, length (procs s)); z ← gets zombproc; r ← wait_zombies n z q pid status rusage;
     match r with
     | Some r => mret r
     | None =>
         a ← gets allproc; r ← wait_stopped n a q pid status options 0;
         match r with
         | inl r => mret r
         | inr nfound => if nfound =? 0 then mret (ECHILD, 0) else if has options WNOHANG then mret (0, 0) else sleeping
         end
     end).
Proof. destruct k; by eexists. Qed.

Lemma wp_wait_loop s q pid status options rusage all zomb free k :
  table_ok s all zomb free → (judge s q pid options all zomb = Busy → has options WNOHANG = true) →
  wp (r ← wait_loop k q pid status options rusage; finish r) (λ _ s', wait_post s q pid status options rusage all zomb free s') s.
Proof.
  intros HT HB. pose proof (t_nodup _ _ _ _ HT) as (Ha & _ & (Hz & _ & _)%NoDup_app)%NoDup_app.
  assert (Hlen : ∀ h l, lseg p_nxt (procs s) h l None → NoDup l → (length l ≤ length (procs s))%nat).
  { intros h l Hl Hnd. apply NoDup_lt_length; [done|]. by eapply lseg_lt. }
  destruct (wait_loop_turn k q pid status options rusage) as (sleeping & ->).
  apply wp_bind. do 2 apply wp_bind, wp_gets. apply wp_bind. eapply wp_wait_zombies; [apply HT|eapply Hlen; [apply HT|done]|].
  set (P := λ (_ : unit) s', wait_post s q pid status options rusage all zomb free s').
  assert (EJ := eq_refl (judge s q pid options all zomb)). unfold judge at 2 in EJ. destruct (first s (λ x, bool_decide (concerns q pid x)) zomb) as [p|] eqn:Ez.
  { intros x Hx. pose proof (first_in _ _ _ _ Ez) as [(z1 & z2 & ->)%list_elem_of_split _].
    apply (wp_mono _ (λ r, wp (finish r) P)); [|intros r s' HR; by apply wp_ret].
    apply (wp_finish_collect s all z1 p z2 free x status rusage); [done|done|]. unfold P, wait_post. rewrite EJ.
    destruct (writable 1 status); simpl; [destruct (writable 18 rusage); simpl|]; [intros s' ? ? ? ? ? ?|..]; by exists x, z1, z2. }
  apply wp_bind, wp_gets. apply wp_bind. eapply wp_wait_stopped; [apply HT|eapply Hlen; [apply HT|done]|done|].
  destruct (first s (λ x, bool_decide (concerns q pid x ∧ newly_stopped options x)) all) as [p|] eqn:Er.
  { intros x Hx. apply (wp_mono _ (λ r, wp (finish r) P)); [|intros r s' HR; by apply wp_ret].
    eapply wp_mono; [apply (wp_finish_report s p x status Hx)|]. intros r s' HR. eapply wp_mono; [exact HR|].
    intros [] s'' HQ. unfold P, wait_post. rewrite EJ. by exists x. }
  intros n Hn Hiff. destruct (first s (λ x, bool_decide (concerns q pid x)) all) as [c|].
  - rewrite (proj2 (Z.eqb_neq n 0)) by (intros ->; by destruct Hiff as [Hiff _]; specialize (Hiff eq_refl)). rewrite HB by done.
    apply wp_ret, wp_bind, wp_modify. simpl. apply wp_modify. unfold P, wait_post. rewrite EJ. by destruct s.
  - rewrite (proj2 (Z.eqb_eq n 0)) by (by apply Hiff). apply wp_ret, wp_bind, wp_modify. simpl. apply wp_ret. unfold P, wait_post. by rewrite EJ.
Qed.
End Wait.

(** What the argument [pid] of the call means to the process [x]. *)
Definition waits_for (pid : Z) (x : proc) : Z := if pid =? WAIT_MYPGRP then - p_pgrp x else pid.

Lemma wp_wait4 `{Layout} `{WaitOps} s x k pid status options rusage Q :
  procs s !! u_procp (u s) = Some x →
  wp (r ← wait_loop k (u_procp (u s)) (waits_for pid x) status options rusage; finish r) Q s → wp (wait4 k pid status options rusage) Q s.
Proof.
  intros Hx HQ%wp_unbind. unfold wait4. apply wp_bind. unfold curproc. apply wp_gets. apply wp_bind. unfold wait1. apply wp_bind.
  eapply wp_at; [done|]. exact HQ.
Qed.

(** The process has to sleep: nothing has changed until then, and the search
    starts again after it. *)
Lemma wp_wait_sleep `{Layout} `{WaitOps} s q pid status options rusage all zomb free k Q :
  table_ok s all zomb free → judge s q pid options all zomb = Busy → has options WNOHANG = false →
  wp (tsleep (proc_addr q) (Z.lor PWAIT PCATCH) 0) (λ e s1,
    if e =? 0 then wp (wait_loop k q pid status options rusage) Q s1 else Q (e, 0) s1) s →
  wp (wait_loop (S k) q pid status options rusage) Q s.
Proof.
  intros HT HB HN HQ. pose proof (t_nodup _ _ _ _ HT) as (Ha & _ & (Hz & _ & _)%NoDup_app)%NoDup_app.
  assert (Hlen : ∀ h l, lseg p_nxt (procs s) h l None → NoDup l → (length l ≤ length (procs s))%nat).
  { intros h l Hl Hnd. apply NoDup_lt_length; [done|]. by eapply lseg_lt. }
  cbn [wait_loop]. do 2 apply wp_bind, wp_gets. apply wp_bind. eapply wp_wait_zombies; [apply HT|eapply Hlen; [apply HT|done]|].
  unfold judge in HB. destruct (first s (λ x, bool_decide (concerns q pid x)) zomb); [done|].
  apply wp_bind, wp_gets. apply wp_bind. eapply wp_wait_stopped; [apply HT|eapply Hlen; [apply HT|done]|done|].
  destruct (first s (λ x, bool_decide (concerns q pid x ∧ newly_stopped options x)) all); [done|]. intros n Hn Hiff.
  destruct (first s (λ x, bool_decide (concerns q pid x)) all) as [c|]; [|done].
  rewrite (proj2 (Z.eqb_neq n 0)) by (intros ->; by destruct Hiff as [Hiff _]; specialize (Hiff eq_refl)). rewrite HN.
  apply wp_bind. eapply wp_mono; [exact HQ|]. intros e s1 HQ1. cbv beta in HQ1. destruct (e =? 0); [done|]. by apply wp_ret.
Qed.

(** ** Theorems *)

(** C14. [wait4] decides by what its children are.  A zombie it is about comes
    first: the status and the usage go to the addresses given, the usage is
    added to the caller's, the entry becomes free and the process id is the
    result; with a bad address the error is [EFAULT] and the zombie stays.
    Else a stopped child that was not reported before is, once.  With no child
    left to wait for the error is [ECHILD]; with children but nothing to
    report [WNOHANG] returns 0. *)
Theorem wait4_correct `{Layout} `{WaitOps} (s : kern) (all zomb free : list nat) (x : proc) (k : nat) (pid status options rusage : Z) :
  let q := u_procp (u s) in
  table_ok s all zomb free → procs s !! q = Some x →
  (judge s q (waits_for pid x) options all zomb = Busy → has options WNOHANG = true) →
  wp (wait4 k pid status options rusage) (λ _ s', wait_post s q (waits_for pid x) status options rusage all zomb free s') s.
Proof. intros q HT Hx HB. eapply wp_wait4; [exact Hx|]. by apply wp_wait_loop. Qed.

(** How the sleeps of a [wait4] end: with the process awake and these lists of
    processes, or with an error. *)
Inductive ending := Awake (all zomb free : list nat) | Interrupted (e : Z).

(** The sleeps of a [wait4] for [g]: it is woken, from [s] to [s'] at last,
    until there is something to report (or no child is left), or until a sleep
    is interrupted. *)
Inductive dozes `{Layout} `{WaitOps} (q : nat) (g options : Z) : nat → kern → ending → kern → Prop :=
  | doze_end k s all zomb free :
      table_ok s all zomb free → judge s q g options all zomb ≠ Busy → dozes q g options k s (Awake all zomb free) s
  | doze_interrupted k s all zomb free e s1 :
      table_ok s all zomb free → judge s q g options all zomb = Busy →
      tsleep (proc_addr q) (Z.lor PWAIT PCATCH) 0 s = Done (e, s1) → e ≠ 0 → dozes q g options (S k) s (Interrupted e) s1
  | doze_again k s all zomb free s1 r s2 :
      table_ok s all zomb free → judge s q g options all zomb = Busy →
      tsleep (proc_addr q) (Z.lor PWAIT PCATCH) 0 s = Done (0, s1) → dozes q g options k s1 r s2 → dozes q g options (S k) s r s2.

Lemma wp_wait_dozes `{Layout} `{WaitOps} q g options k s r s1 status rusage :
  has options WNOHANG = false → dozes q g options k s r s1 →
  wp (r ← wait_loop k q g status options rusage; finish r) (λ _ s',
    match r with
    | Awake all zomb free => wait_post s1 q g status options rusage all zomb free s'
    | Interrupted e => s' = s1<|u ::= λ v, v<|u_error := e|>|>
    end) s.
Proof.
  intros HN. induction 1 as [k s all zomb free HT HB|k s all zomb free e s1 HT HB Hs He|k s all zomb free s1 r s2 HT HB Hs _ IH].
  - by eapply wp_wait_loop.
  - apply wp_bind. eapply wp_wait_sleep; [exact HT|exact HB|exact HN|]. unfold wp at 1. rewrite Hs.
    rewrite (proj2 (Z.eqb_neq e 0) He). unfold finish. simpl. rewrite (proj2 (Z.eqb_neq e 0) He). apply wp_bind, wp_modify. by apply wp_ret.
  - apply wp_bind. eapply wp_wait_sleep; [exact HT|exact HB|exact HN|]. unfold wp at 1. rewrite Hs. simpl. by apply wp_unbind.
Qed.

(** C15. A process that sleeps in [wait4] gets what its child has left.
    However often it is woken for nothing, when it is woken in a state in
    which there is something to report (or no child is left) the call returns
    that, by the process ids it was called for; and when a signal interrupts a
    sleep the call fails with the error of the sleep and changes nothing else
    of the state it wakes up in. *)
Theorem wait4_wakes `{Layout} `{WaitOps} (s s1 : kern) (x : proc) (k : nat) (r : ending) (pid status options rusage : Z) :
  let q := u_procp (u s) in let g := waits_for pid x in
  procs s !! q = Some x → has options WNOHANG = false → dozes q g options k s r s1 →
  wp (wait4 k pid status options rusage) (λ _ s',
    match r with
    | Awake all zomb free => wait_post s1 q g status options rusage all zomb free s'
    | Interrupted e => s' = s1<|u ::= λ v, v<|u_error := e|>|>
    end) s.
Proof. intros q g Hx HN Hd. eapply wp_wait4; [exact Hx|]. by apply wp_wait_dozes. Qed.

Lemma first_none s f l : (∀ i, i ∈ l → holds s f i = false) → first s f l = None.
Proof.
  induction l as [|i l IH]; intros Hl; [done|]. rewrite first_cons, Hl by set_solver. apply IH. intros j Hj. apply Hl. set_solver.
Qed.
Lemma zombie_group s x rv : ru_msgsnd (u_ru (u s)) = 0 → ru_msgsnd (u_cru (u s)) = 0 → p_pgrp (zombie_of s x rv) = 0.
Proof. intros E1 E2. change (s16 (s32 (ru_msgsnd (u_ru (u s)) + ru_msgsnd (u_cru (u s)))) = 0). rewrite E1, E2. reflexivity. Qed.

(** C37. Waiting for a process group does not find the children that have
    exited: when the only child of [v]'s process exits, and the parent then
    waits for the child's process group, it is told that it has no such child,
    and the zombie stays.  The number of the group is in the part of the entry
    that the exit record overwrites, with the count of messages sent, which
    the kernel leaves at 0. *)
Theorem wait_group_misses_zombie `{Layout} `{WaitOps} (s : kern) (l1 l2 zomb free : list nat) (p : nat) (x xq : proc) (v : user)
    (rv : Z) (k : nat) (status options rusage : Z) :
  let q := u_procp v in
  table_ok s (l1 ++ p :: l2) zomb free → procs s !! p = Some x → p_pptr x = Some q → q ≠ p → procs s !! q = Some xq →
  ru_msgsnd (u_ru (u s)) = 0 → ru_msgsnd (u_cru (u s)) = 0 → 1 < p_pgrp x → 0 < p_pid x →
  (∀ i y, i ≠ p → procs s !! i = Some y → p_pptr y ≠ Some q) →
  wp (retire p rv;; modify (λ s, s<|u := v|>);; wait4 k (- p_pgrp x) status options rusage)
    (λ _ s', u_error (u s') = ECHILD ∧ procs s' !! p = Some (zombie_of s x rv)) s.
Proof.
  intros q HT Hx Hpp Hne Hq E1 E2 Hg Hpid Honly. apply wp_bind. eapply wp_mono; [by apply wp_retire|]. intros [] s1 [HT1 [Fr Len Hz Pr]].
  apply wp_bind, wp_modify. set (s2 := s1<|u := v|>). destruct (Pr q xq Hne Hq) as (xq' & Hq' & Exq).
  assert (HT2 : table_ok s2 (l1 ++ l2) (p :: zomb) free) by (destruct HT1; by split).
  assert (HI : ∀ i, holds s2 (λ y, bool_decide (concerns q (- p_pgrp x) y)) i = false).
  { intros i. unfold holds, s2. fields. destruct (procs s1 !! i) as [y|] eqn:Hy; [|done]. simpl. rewrite <- awaited_concerns. unfold awaited.
    destruct (decide (i = p)) as [->|Hi].
    - rewrite Hz in Hy. injection Hy as <-. rewrite zombie_group by done. change (p_pid (zombie_of s x rv)) with (p_pid x). unfold WAIT_ANY.
      rewrite (proj2 (Z.eqb_neq (- p_pgrp x) (-1))), (proj2 (Z.eqb_neq (p_pid x) _)), (proj2 (Z.eqb_neq 0 _)) by lia. apply andb_false_r.
    - pose proof (lookup_lt_Some _ _ _ Hy) as Hlt. rewrite Len in Hlt. apply lookup_lt_is_Some in Hlt as [y0 Hy0].
      destruct (Pr i y0 Hi Hy0) as (y' & Hy' & E). rewrite Hy in Hy'. injection Hy' as <-.
      assert (E' : p_pptr y = p_pptr y0) by (by rewrite E). rewrite E', bool_decide_eq_false_2; [done|]. by eapply Honly. }
  assert (EJ : judge s2 q (- p_pgrp x) options (l1 ++ l2) (p :: zomb) = Childless).
  { unfold judge. rewrite !first_none; [done|intros; apply HI| |intros; apply HI]. intros i _. specialize (HI i). unfold holds in *.
    destruct (procs s2 !! i); [|done]. simpl in *. apply bool_decide_eq_false in HI. apply bool_decide_eq_false_2. tauto. }
  assert (EW : waits_for (- p_pgrp x) xq' = - p_pgrp x) by (unfold waits_for, WAIT_MYPGRP; by rewrite (proj2 (Z.eqb_neq _ 0)) by lia).
  eapply (wp_wait4 s2 xq'); [exact Hq'|]. rewrite EW. change (u_procp (u s2)) with q.
  eapply wp_mono; [eapply wp_wait_loop; [exact HT2|by rewrite EJ]|]. intros [] s3 HP. unfold wait_post in HP. rewrite EJ in HP. subst s3. split; [done|exact Hz].
Qed.

(** ** Examples

    [ex_gone]: the shell has exited with status 3, and init runs. *)
Definition after (m : M unit) (s : kern) : kern := match m s with Done (_, s') => s' | _ => s end.
Lemma after_wp m Q s : wp m (λ _ s', Q s') s → Q (after m s).
Proof. unfold wp, after. by destruct (m s) as [[[] s']| | |]. Qed.
Definition ex_init_user : user := (ex_user 0)<|u_procp := 1%nat|>.
Definition ex_gone : kern := (after (retire 2 0x300) (ex_kern 100))<|u := ex_init_user|>.
Lemma ex_gone_table : table_ok ex_gone [1; 0]%nat [2]%nat [3; 4; 5; 6; 7; 8; 9]%nat.
Proof.
  assert (HT : table_ok (after (retire 2 0x300) (ex_kern 100)) [1; 0]%nat [2]%nat [3; 4; 5; 6; 7; 8; 9]%nat).
  { apply (after_wp (retire 2 0x300) (λ s', table_ok s' [1; 0]%nat [2]%nat [3; 4; 5; 6; 7; 8; 9]%nat)).
    eapply wp_mono; [by eapply (wp_retire (ex_kern 100) [] 2 [1; 0]%nat [] _ _ 0x300 (ex_table 100))|]. intros [] s' [HT _]. exact HT. }
  exact (table_user _ _ _ _ _ HT).
Qed.
(** While init sleeps the shell exits. *)
#[local] Instance ex_asleep : WaitOps := λ _ _ _, modify (λ _, ex_gone);; mret 0.

(** Init collects the shell and stores the status. *)
Lemma wait4_correct_witness :
  judge ex_gone 1 (-1) 0 [1; 0]%nat [2]%nat = Collect 2 ∧
  wp (wait4 0 (-1) 0x7f008000 0 0) (λ _ s', u_error (u s') = 0 ∧ u_rval (u s') = 2 ∧ umem s' !! 0x7f008000 = Some 0x300) ex_gone.
Proof.
  assert (EJ : judge ex_gone 1 (-1) 0 [1; 0]%nat [2]%nat = Collect 2) by (vm_compute; reflexivity). split; [exact EJ|].
  assert (Hq : ∃ x, procs ex_gone !! 1%nat = Some x) by (vm_compute; eexists; reflexivity). destruct Hq as [xq Hq].
  assert (E2 : p_xstat <$> procs ex_gone !! 2%nat = Some 0x300 ∧ p_pid <$> procs ex_gone !! 2%nat = Some 2) by (vm_compute; split; reflexivity).
  eapply wp_mono; [apply (wait4_correct ex_gone [1; 0]%nat [2]%nat [3; 4; 5; 6; 7; 8; 9]%nat xq 0 (-1) 0x7f008000 0 0 ex_gone_table Hq)|].
  { change (judge ex_gone 1 (-1) 0 [1; 0]%nat [2]%nat = Busy → has 0 WNOHANG = true). by rewrite EJ. }
  intros [] s' HP. change (u_procp (u ex_gone)) with 1%nat in HP. change (waits_for (-1) xq) with (-1) in HP. unfold wait_post in HP. rewrite EJ in HP.
  destruct HP as (x & z1 & z2 & Hx & _ & HP). rewrite Hx in E2. simpl in E2. destruct E2 as [[= E2] [= E3]].
  change (negb (writable 1 0x7f008000)) with false in HP. change (negb (writable 18 0)) with false in HP. destruct HP as (P1 & P2 & P3 & _).
  split; [done|]. split; [congruence|]. rewrite P3. unfold written. simpl. rewrite E2. apply lookup_insert_eq.
Defined.

Definition ex_waiting : kern := (ex_kern 100)<|u := ex_init_user|>.
Lemma wait4_wakes_witness :
  judge ex_waiting 1 (-1) 0 [2; 1; 0]%nat [] = Busy ∧
  wp (wait4 1 (-1) 0 0 0) (λ _ s', u_error (u s') = 0 ∧ u_rval (u s') = 2) ex_waiting.
Proof.
  assert (EB : judge ex_waiting 1 (-1) 0 [2; 1; 0]%nat [] = Busy) by (vm_compute; reflexivity). split; [exact EB|].
  assert (EJ : judge ex_gone 1 (-1) 0 [1; 0]%nat [2]%nat = Collect 2) by (vm_compute; reflexivity).
  assert (Hq : ∃ x, procs ex_waiting !! 1%nat = Some x) by (eexists; reflexivity). destruct Hq as [xq Hq].
  assert (E2 : p_pid <$> procs ex_gone !! 2%nat = Some 2) by (vm_compute; reflexivity).
  eapply wp_mono; [refine (wait4_wakes ex_waiting ex_gone xq 1 (Awake [1; 0]%nat [2]%nat [3; 4; 5; 6; 7; 8; 9]%nat) (-1) 0 0 0 Hq eq_refl _)|].
  { refine (doze_again 1 (-1) 0 0 ex_waiting [2; 1; 0]%nat [] [3; 4; 5; 6; 7; 8; 9]%nat ex_gone _ ex_gone (table_user _ _ _ _ _ (ex_table 100)) EB eq_refl _).
    refine (doze_end 1 (-1) 0 0 ex_gone _ _ _ ex_gone_table _). by rewrite EJ. }
  intros [] s' HP. change (u_procp (u ex_waiting)) with 1%nat in HP. change (waits_for (-1) xq) with (-1) in HP. simpl in HP. unfold wait_post in HP. rewrite EJ in HP.
  destruct HP as (x & z1 & z2 & Hx & _ & HP). rewrite Hx in E2. simpl in E2. injection E2 as E2.
  change (negb (writable 1 0)) with false in HP. change (negb (writable 18 0)) with false in HP. destruct HP as (P1 & P2 & _). by rewrite P2, E2.
Defined.

(** The shell in the process group 7. *)
Definition ex_shell : proc := (slot (Some 1%nat) (Some AllProc) (Some 1%nat) SLOAD 100 2 1 SRUN).
Definition ex_group : kern := putp (ex_kern 100) 2 (ex_shell<|p_pgrp := 7|>).
Lemma wait_group_misses_zombie_witness :
  wp (retire 2 0x300;; modify (λ s, s<|u := ex_init_user|>);; wait4 0 (-7) 0 0 0) (λ _ s', u_error (u s') = ECHILD) ex_group.
Proof.
  assert (HT : table_ok ex_group [2; 1; 0]%nat [] [3; 4; 5; 6; 7; 8; 9]%nat) by (by apply (table_put _ _ _ _ 2 ex_shell _ (ex_table 100))).
  assert (Honly : ∀ i y, i ≠ 2%nat → procs ex_group !! i = Some y → p_pptr y ≠ Some 1%nat).
  { intros i y Hi Hy E. assert (Hlt : (i < 10)%nat) by (by apply lookup_lt_Some in Hy).
    do 10 (destruct i as [|i]; [vm_compute in Hy; injection Hy as <-; by vm_compute in E|]). lia. }
  assert (HP : 1 < p_pgrp (ex_shell<|p_pgrp := 7|>) ∧ 0 < p_pid (ex_shell<|p_pgrp := 7|>)) by (split; reflexivity). destruct HP as [HP1 HP2].
  pose proof (wait_group_misses_zombie ex_group [] [1; 0]%nat [] [3; 4; 5; 6; 7; 8; 9]%nat 2 (ex_shell<|p_pgrp := 7|>)
    (slot (Some 0%nat) (Some (NxtOf 2)) (Some 0%nat) 0 0 1 0 SSLEEP) ex_init_user 0x300 0 0 0 0 HT eq_refl eq_refl
    ltac:(discriminate) eq_refl eq_refl eq_refl HP1 HP2 Honly) as HW.
  eapply wp_mono; [exact HW|]. intros [] s' HE. apply HE.
Defined.
