(* ===== verification/Leave.v ===== *)
(** * What exit leaves

    [exit] (kernel/kern_exit.c) as a whole, on the process table and the file
    table: the process holds no file, it is a zombie with its exit record, its
    children have init as their parent, and its parent, if it sleeps in
    [wait4], is awake. *)
From stdpp Require Import base tactics list option strings numbers gmap.
From S2P Require Import Prelude Descrip Share Proc Prot Synch Signal Kill Resource Fork Exit.
Open Scope Z_scope.

(** ** The call

    The kernel's processes beside the file table with the descriptors of the
    running process (of which [W] is the world of inodes and devices). *)
Record sys (W : Type) := Sys { sys_kern : kern; sys_files : fstate W }.
Arguments Sys {W} _ _.
Arguments sys_kern {W} _.
Arguments sys_files {W} _.

Section System.
Context {W A : Type}.
Definition on_kern (m : K kern A) : K (sys W) A := λ t,
  match m (sys_kern t) with Done (x, s) => Done (x, Sys s (sys_files t)) | Panic e => Panic e | Wild => Wild | Spin => Spin end.
Definition on_files (m : K (fstate W) A) : K (sys W) A := λ t,
  match m (sys_files t) with Done (x, f) => Done (x, Sys (sys_kern t) f) | Panic e => Panic e | Wild => Wild | Spin => Spin end.
Lemma wp_on_kern m Q t : wp m (λ x s, Q x (Sys s (sys_files t))) (sys_kern t) → wp (on_kern m) Q t.
Proof. unfold wp, on_kern. by destruct (m (sys_kern t)) as [[x s]| | |]. Qed.
Lemma wp_on_files m Q t : wp m (λ x f, Q x (Sys (sys_kern t) f)) (sys_files t) → wp (on_files m) Q t.
Proof. unfold wp, on_files. by destruct (m (sys_files t)) as [[x f]| | |]. Qed.
End System.

(** [ilock] and [iput] of the current and the root directory. *)
Class DirOps (W : Type) := release_dirs : K (sys W) unit.

Section Exit.
Context `{Layout} `{ForkOps} {W : Type} `{FileOps W} `{DirOps W}.

Definition exit (fuel : nat) (rv : Z) : K (sys W) unit :=
  on_kern exit_begin;;
  on_files exit_fds;;
  release_dirs;;
  on_kern (exit_end fuel rv).
Definition rexit (fuel : nat) (rval : Z) : K (sys W) unit := exit fuel (W_EXITCODE rval 0).
End Exit.

(** ** What signals and wakeups keep *)

(** The links of the table and the exit record; the parent. *)
Definition kept (x : proc) : option nat * option pref * option nat * Z * Z * k_rusage * bool :=
  (p_nxt x, p_prev x, p_hash x, p_pid x, p_xstat x, p_ru x, p_stat x =? SZOMB).
Definition par (x : proc) : option nat * Z := (p_pptr x, p_ppid x).

Section Settled.
Context `{Layout}.
Implicit Types (s : kern) (x y : proc).

Definition queues s : Prop := ∃ rq sq, queues_ok s rq sq.
Definition settled s s' : Prop := queues s' ∧ framed s s' ∧ mild_all s s'.

Lemma mild_kept x y : mild (nolink x) (nolink y) → kept y = kept x ∧ par y = par x.
Proof.
  intros [A1 A2 _ A4 _]. unfold kept, par.
  assert (E1 := f_equal p_nxt A1). assert (E2 := f_equal p_prev A1). assert (E3 := f_equal p_hash A1). assert (E4 := f_equal p_pid A1).
  assert (E5 := f_equal p_xstat A1). assert (E6 := f_equal p_ru A1). assert (E7 := f_equal p_pptr A1). assert (E8 := f_equal p_ppid A1).
  change (p_nxt y = p_nxt x) in E1. change (p_prev y = p_prev x) in E2. change (p_hash y = p_hash x) in E3.
  change (p_pid y = p_pid x) in E4. change (p_xstat y = p_xstat x) in E5. change (p_ru y = p_ru x) in E6. change (p_pptr y = p_pptr x) in E7.
  change (p_ppid y = p_ppid x) in E8.
  change (p_stat y = SZOMB ↔ p_stat x = SZOMB) in A4. rewrite E1, E2, E3, E4, E5, E6, E7, E8. split; [|done].
  f_equal. destruct (Z.eqb_spec (p_stat y) SZOMB), (Z.eqb_spec (p_stat x) SZOMB); tauto.
Qed.
(** [s'] has the entries of [s], as far as [kept] and [par] go. *)
Lemma settled_proc s s' i x : settled s s' → procs s !! i = Some x → ∃ x', procs s' !! i = Some x' ∧ kept x' = kept x ∧ par x' = par x.
Proof.
  intros (_ & _ & _ & Hm) Hx. destruct (Hm i _ (info_lookup _ _ _ Hx)) as (q' & Hq' & Hmi). apply info_lookup_inv in Hq' as (x' & Hx' & ->).
  exists x'. split; [done|]. by apply mild_kept.
Qed.
Lemma settled_length s s' : settled s s' → length (procs s') = length (procs s).
Proof. intros (_ & _ & El & _). by rewrite !info_length in El. Qed.
Lemma settled_chain s1 s2 s3 : settled s1 s2 → settled s2 s3 → settled s1 s3.
Proof. intros (_ & F1 & M1) (Q2 & F2 & M2). split_and!; [done|by eapply framed_trans|by eapply mild_all_trans]. Qed.

Lemma wp_settle_signal s q sig : queues s → is_Some (procs s !! q) → 0 ≤ sig < NSIG → (∀ x, will_stop sig x = false) →
  wp (psignal q sig) (λ _ s', settled s s') s.
Proof.
  intros (rq & sq & Hq) [x Hx] Hs Hw. eapply wp_mono; [apply (wp_psignal s rq sq q x sig Hq Hx Hs); by rewrite Hw|].
  intros [] s' [_ HA]. destruct (HA (Hw x)) as [(HQ & HF & HM & _) _]. by split_and!.
Qed.
Lemma wp_settle_wakeup s chan : queues s →
  wp (wakeup chan) (λ _ s', settled s s' ∧ ∀ i y, info s' !! i = Some y → queued y = true → p_wchan y ≠ chan ∧ info s !! i = Some y) s.
Proof.
  intros (rq & sq & Hq). eapply wp_mono; [by apply (wp_wakeup chan s rq sq)|]. intros [] s' (W & rq' & sq' & Hw & Hsp).
  split; [split_and!; [exists rq', sq'; apply Hw|apply Hw|by eapply mild_woke]|]. intros i y Hy Hqy.
  destruct (info s !! i) as [x|] eqn:Hx.
  - rewrite (wk_info _ _ _ _ _ _ _ Hw i x Hx) in Hy. case_decide as Hi; injection Hy as <-; [by rewrite woken_not_queued in Hqy|].
    split; [|done]. intros E. by apply Hi, (ws_all _ _ _ _ Hsp i x).
  - apply lookup_ge_None in Hx. apply lookup_lt_Some in Hy. rewrite (wk_len _ _ _ _ _ _ _ Hw) in Hy. lia.
Qed.

(** A change of who the parent is, or of the trace flag, moves no process. *)
Lemma queues_par s q x y : queues s → procs s !! q = Some x → y = x<|p_pptr := p_pptr y|><|p_ppid := p_ppid y|><|p_flag := p_flag y|> →
  has (p_flag y) SLOAD = has (p_flag x) SLOAD → queues (putp s q y).
Proof.
  intros (rq & sq & Hq) Hx E Ef. exists rq, sq. unfold putp. eapply queues_put; [exact Hq|exact Hx|..]; try (by rewrite E); try (left; by rewrite E); done.
Qed.

(** ** The children *)

(** [s'] is [s] with the entries in [done] whose parent was [p] given to init. *)
Definition adopted (p : nat) (done : list nat) (i : nat) x : option nat * Z :=
  if decide (i ∈ done ∧ p_pptr x = Some p) then (Some 1%nat, 1) else par x.
Record adopts (p : nat) s (done : list nat) s' : Prop := Adopts {
  ad_queues : queues s';
  ad_frame : framed s s';
  ad_len : length (procs s') = length (procs s);
  ad_proc i x : procs s !! i = Some x → ∃ x', procs s' !! i = Some x' ∧ kept x' = kept x ∧ par x' = adopted p done i x }.

Lemma adopts_settled p s done s1 s2 : adopts p s done s1 → settled s1 s2 → adopts p s done s2.
Proof.
  intros [A1 A2 A3 A4] HS. pose proof (settled_length _ _ HS). destruct HS as (Q & F & M) eqn:EHS. split; [done|by eapply framed_trans|congruence|].
  intros i x Hx. destruct (A4 i x Hx) as (x1 & Hx1 & K1 & P1), (settled_proc s1 s2 i x1 HS Hx1) as (x2 & Hx2 & K2 & P2).
  exists x2. split; [done|]. split; congruence.
Qed.
Lemma adopts_same p s done q x : ∀ s', adopts p s done s' → procs s !! q = Some x → p_pptr x ≠ Some p → adopts p s (done ++ [q]) s'.
Proof.
  intros s' [A1 A2 A3 A4] Hx Hne. split; [done|done|done|]. intros i y Hy. destruct (A4 i y Hy) as (y' & Hy' & K & P). exists y'. split_and!; [done|done|].
  rewrite P. unfold adopted. destruct (decide (i ∈ done ∧ p_pptr y = Some p)) as [[Hi E]|Hd].
  - rewrite decide_True; [done|]. split; [set_solver|done].
  - rewrite decide_False; [done|]. intros [[Hi| ->%list_elem_of_singleton]%elem_of_app E]; [tauto|]. congruence.
Qed.
Lemma adopts_put p s done q x y z s1 : adopts p s done s1 → procs s !! q = Some x → p_pptr x = Some p → procs s1 !! q = Some y →
  z = y<|p_pptr := Some 1%nat|><|p_ppid := 1|><|p_flag := p_flag z|> → has (p_flag z) SLOAD = has (p_flag y) SLOAD →
  adopts p s (done ++ [q]) (putp s1 q z).
Proof.
  intros [A1 A2 A3 A4] Hx Hp Hy Ez Hl. pose proof (lookup_lt_Some _ _ _ Hy) as Hlt. split.
  - eapply queues_par; [done|exact Hy| |done]. rewrite Ez. by destruct y.
  - eapply framed_trans; [exact A2|]. unfold framed, putp. by destruct s1.
  - unfold putp. fields. by rewrite length_insert.
  - intros i w Hw. unfold putp. fields. destruct (decide (i = q)) as [->|Hne].
    + rewrite list_lookup_insert_eq by done. exists z. split; [done|]. assert (w = x) as -> by congruence.
      destruct (A4 q x Hx) as (y' & Hy' & K & _). assert (y' = y) as -> by congruence.
      split; [rewrite <- K; by rewrite Ez|]. unfold adopted. rewrite decide_True by (split; [set_solver|done]).
      unfold par. by rewrite Ez.
    + rewrite list_lookup_insert_ne by done. destruct (A4 i w Hw) as (w' & Hw' & K & P). exists w'. split_and!; [done|done|].
      rewrite P. unfold adopted. destruct (decide (i ∈ done ∧ p_pptr w = Some p)) as [[Hi E]|Hd].
      * rewrite decide_True; [done|]. split; [set_solver|done].
      * rewrite decide_False; [done|]. intros [[Hi| ->%list_elem_of_singleton]%elem_of_app E]; [tauto|done].
Qed.
Lemma adopts_flag p s done q y z s1 : adopts p s done s1 → procs s1 !! q = Some y → z = y<|p_flag := p_flag z|> →
  has (p_flag z) SLOAD = has (p_flag y) SLOAD → adopts p s done (putp s1 q z).
Proof.
  intros [A1 A2 A3 A4] Hy Ez Hl. pose proof (lookup_lt_Some _ _ _ Hy) as Hlt. split.
  - eapply queues_par; [done|exact Hy| |done]. rewrite Ez. by destruct y.
  - eapply framed_trans; [exact A2|]. unfold framed, putp. by destruct s1.
  - unfold putp. fields. by rewrite length_insert.
  - intros i w Hw. unfold putp. fields. destruct (A4 i w Hw) as (w' & Hw' & K & P). destruct (decide (i = q)) as [->|Hne].
    + rewrite list_lookup_insert_eq by done. exists z. split; [done|]. assert (w' = y) as -> by congruence. rewrite <- K, <- P, Ez. done.
    + rewrite list_lookup_insert_ne by done. by exists w'.
Qed.
Lemma no_stop sig y : has (prop_of sig) SA_STOP = false → will_stop sig y = false.
Proof.
  intros Hp. unfold will_stop. destruct (psignal_action y _) as [a|]; [|done].
  assert (E : stops sig a (prop_of sig) y = false); [|by rewrite E, andb_false_r]. unfold stops. rewrite Hp. by rewrite andb_false_r.
Qed.
Lemma wp_adopts_signal p s done s1 q sig : adopts p s done s1 → is_Some (procs s1 !! q) → 0 ≤ sig < NSIG → has (prop_of sig) SA_STOP = false →
  wp (psignal q sig) (λ _ s2, adopts p s done s2 ∧ is_Some (procs s2 !! q)) s1.
Proof.
  intros HA Hq Hs Hp. eapply wp_mono; [apply (wp_settle_signal s1 q sig (ad_queues _ _ _ _ HA) Hq Hs); intros; by apply no_stop|].
  intros [] s2 HS. split; [by eapply adopts_settled|]. destruct Hq as [x Hx]. destruct (settled_proc _ _ _ _ HS Hx) as (x' & Hx' & _). by exists x'.
Qed.

Lemma wp_orphan p s done s1 q x : adopts p s done s1 → procs s !! q = Some x → q ∉ done →
  wp (orphan p tt q) (λ _ s', adopts p s (done ++ [q]) s') s1.
Proof.
  intros HA Hx Hq. destruct (ad_proc _ _ _ _ HA q x Hx) as (y & Hy & K & P). unfold orphan. apply wp_bind. eapply wp_at; [exact Hy|].
  assert (Ep : p_pptr y = p_pptr x). { unfold adopted in P. rewrite decide_False in P by tauto. by injection P. } rewrite Ep.
  destruct (decide (p_pptr x = Some p)) as [E|E]; [rewrite bool_decide_eq_true_2 by done|rewrite bool_decide_eq_false_2 by done; apply wp_ret; by eapply adopts_same].
  rewrite <- (putp_id s1 q y Hy). do 2 (apply wp_bind; eapply wp_setp_put; [exact Hy|]). set (z := y<|p_pptr := Some 1%nat|><|p_ppid := 1|>).
  assert (HA2 : adopts p s (done ++ [q]) (putp s1 q z)) by (by eapply (adopts_put p s done q x y z s1)).
  set (s2 := putp s1 q z) in *. assert (Hz : procs s2 !! q = Some z) by (unfold s2, putp; fields; apply list_lookup_insert_eq; by eapply lookup_lt_Some).
  apply wp_bind. eapply wp_mono; [apply (wp_settle_wakeup s2 (proc_addr 1) (ad_queues _ _ _ _ HA2))|]. intros [] s3 [HS3 _].
  pose proof (adopts_settled _ _ _ _ _ HA2 HS3) as HA3. destruct (settled_proc _ _ _ _ HS3 Hz) as (z3 & Hz3 & _). apply wp_bind. eapply wp_at; [exact Hz3|].
  destruct (has (p_flag z3) P_TRACED); [|destruct (p_stat z3 =? SSTOP)].
  - rewrite <- (putp_id s3 q z3 Hz3). apply wp_bind. eapply wp_setp_put; [exact Hz3|]. set (z4 := z3<|p_flag ::= λ f, bic f P_TRACED|>).
    assert (HA4 : adopts p s (done ++ [q]) (putp s3 q z4)).
    { eapply (adopts_flag p s _ q z3 z4 s3); [done|done|by destruct z3|]. change (has (bic (p_flag z3) P_TRACED) SLOAD = has (p_flag z3) SLOAD).
      by apply has_bic_other. }
    eapply wp_mono; [apply (wp_adopts_signal _ _ _ _ q SIGKILL HA4); [|done|done]|by intros [] s5 [HA5 _]].
    unfold putp. fields. rewrite list_lookup_insert_eq by (by eapply lookup_lt_Some). by eexists.
  - apply wp_bind. eapply wp_mono; [apply (wp_adopts_signal _ _ _ _ q SIGHUP HA3); [by exists z3|done|done]|]. intros [] s4 [HA4 Hs4].
    eapply wp_mono; [apply (wp_adopts_signal _ _ _ _ q SIGCONT HA4); [done|done|done]|by intros [] s5 [HA5 _]].
  - by apply wp_ret.
Qed.

Lemma adopts_field {A} (f : proc → A) p s done s' : (∀ x y, kept y = kept x → f y = f x) → adopts p s done s' → f <$> procs s' = f <$> procs s.
Proof.
  intros Hf [_ _ Len P]. apply list_eq. intros i. rewrite !list_lookup_fmap. destruct (procs s !! i) as [x|] eqn:Hx.
  - destruct (P i x Hx) as (x' & -> & K & _). simpl. f_equal. by apply Hf.
  - apply lookup_ge_None in Hx. by rewrite (lookup_ge_None_2 (procs s')) by lia.
Qed.
Lemma adopts_nxts p s done s' : adopts p s done s' → nxts s' = nxts s.
Proof. apply adopts_field. unfold kept. by intros x y [= ? _ _ _ _ _ _]. Qed.

(** One of the two lists. *)
Lemma wp_orphan_list p s head l done s1 : adopts p s done s1 → lseg p_nxt (procs s1) (head s1) l None → NoDup (done ++ l) →
  wp (for_procs head tt (orphan p)) (λ _ s', adopts p s (done ++ l) s') s1.
Proof.
  intros HA Hl Hnd. pose proof Hnd as (_ & Hdis & Hndl)%NoDup_app.
  eapply wp_mono; [apply (wp_for_procs head (λ l' _ s', adopts p s (done ++ l') s') (orphan p) s1 l tt Hl Hndl)|by intros [] s' [_ HA']].
  - by rewrite app_nil_r.
  - intros seen q rest [] s2 El _ HA2. assert (Hlt : (q < length (procs s))%nat).
    { pose proof (lseg_lt _ _ _ _ _ Hl) as HF. rewrite El in HF. apply Forall_app in HF as [_ [HF _]%Forall_cons]. by rewrite <- (ad_len _ _ _ _ HA). }
    apply lookup_lt_is_Some in Hlt as [x Hx].
    eapply wp_mono; [apply (wp_orphan p s (done ++ seen) s2 q x HA2 Hx)|].
    + intros [Hq|Hq]%elem_of_app; [apply (Hdis q Hq); rewrite El; set_solver|]. rewrite El in Hndl. apply NoDup_app in Hndl as (_ & Hd & _). apply (Hd q Hq). set_solver.
    + intros [] s3 HA3. rewrite app_assoc. split; [|done]. by rewrite (adopts_nxts _ _ _ _ HA3), (adopts_nxts _ _ _ _ HA2).
Qed.
Lemma wp_orphans p s all zomb : queues s → lseg p_nxt (procs s) (allproc s) all None → lseg p_nxt (procs s) (zombproc s) zomb None → NoDup (all ++ zomb) →
  wp (orphans p) (λ _ s', adopts p s (all ++ zomb) s') s.
Proof.
  intros HQ Ha Hz Hnd. unfold orphans. apply wp_bind.
  assert (HA : adopts p s [] s).
  { split; [done|apply framed_refl|done|]. intros i x Hx. exists x. split; [done|]. split; [done|]. unfold adopted. by rewrite decide_False by set_solver. }
  eapply wp_mono; [apply (wp_orphan_list p s allproc all [] s HA Ha); by apply NoDup_app in Hnd as (? & _)|]. intros [] s1 HA1.
  apply (wp_orphan_list p s zombproc zomb all s1 HA1); [|done].
  assert (E : zombproc s1 = zombproc s) by (by rewrite (ad_frame _ _ _ _ HA1)). rewrite E.
  eapply nxts_lseg; [by eapply adopts_nxts|done].
Qed.

(** ** The exit *)

(** A process that is on no queue becomes a zombie. *)
Lemma queues_retired s s' p x rv rq sq : queues_ok s rq sq → procs s !! p = Some x → p ∉ rq → queued x = false → retired s s' p x rv → queues_ok s' rq sq.
Proof.
  intros [[L1 L2 L3] [M1 M2 M3 M4]] Hx Hp Hqx [Fr Len Hz Pr].
  assert (Eq : qs s' = qs s ∧ slpque s' = slpque s) by (by rewrite Fr). destruct Eq as [Eq Es].
  assert (Hps : ∀ h l, sq !! h = Some l → p ∉ l).
  { intros h l Hl Hin. apply (M2 h l p Hl) in Hin as (y & Hy & Hqy & _). apply info_lookup_inv in Hy as (x' & Hx' & ->). simplify_eq.
    change (queued x = true) in Hqy. congruence. }
  assert (Hother : ∀ i y, i ≠ p → info s !! i = Some y → ∃ y', info s' !! i = Some y' ∧ links s' !! i = links s !! i ∧ queued y' = queued y ∧
    p_wchan y' = p_wchan y ∧ p_stat y' = p_stat y ∧ p_flag y' = p_flag y ∧ p_slptime y' = p_slptime y).
  { intros i y Hi (z & Hz' & ->)%info_lookup_inv. destruct (Pr i z Hi Hz') as (z' & Hz2 & E). exists (nolink z'). split; [by apply info_lookup|].
    rewrite (links_lookup _ _ _ Hz2), (links_lookup _ _ _ Hz'). split_and!; try done; by rewrite E. }
  assert (Hback : ∀ i y', i ≠ p → info s' !! i = Some y' → ∃ y, info s !! i = Some y ∧ queued y' = queued y ∧
    p_wchan y' = p_wchan y ∧ p_stat y' = p_stat y ∧ p_slptime y' = p_slptime y).
  { intros i y' Hi Hy'. pose proof (lookup_lt_Some _ _ _ Hy') as Hlt. rewrite info_length, Len, <- info_length in Hlt. apply lookup_lt_is_Some in Hlt as [y Hy].
    destruct (Hother i y Hi Hy) as (y2 & Hy2 & _ & E1 & E2 & E3 & E4 & E5). exists y. simplify_eq. by split_and!. }
  assert (Hl : ∀ i, i ≠ p → links s' !! i = links s !! i).
  { intros i Hi. destruct (info s !! i) as [y|] eqn:Hy; [by destruct (Hother i y Hi Hy) as (y' & _ & E & _)|]. unfold info in Hy. rewrite list_lookup_fmap in Hy.
    apply fmap_None in Hy. unfold links. rewrite !list_lookup_fmap, Hy. apply lookup_ge_None in Hy. by rewrite (lookup_ge_None_2 (procs s')) by lia. }
  assert (HL : ∀ h l, p ∉ l → lseg id (links s) h l None → lseg id (links s') h l None).
  { intros h l Hpl. apply lseg_links. intros i Hi. rewrite Hl; [done|]. by intros ->. }
  pose proof (info_lookup _ _ _ Hz) as Hiz. split; [split; rewrite ?Eq, ?Es; [by apply HL| |done]|split; [| |done|]].
  - apply Forall2_same_length_lookup. apply Forall2_same_length_lookup in L2 as [E L2]. split; [done|]. intros h hd l Hhd Hl'. apply HL; [by eapply Hps|by eapply L2].
  - intros i Hi. destruct (M1 i Hi) as (y & Hy & S1 & S2). destruct (Hother i y) as (y' & Hy' & _ & _ & _ & E1 & E2 & _); [by intros ->|done|].
    exists y'. split; [done|]. by rewrite E1, E2.
  - intros h l i Hh. rewrite (M2 h l i Hh). destruct (decide (i = p)) as [->|Hi].
    + rewrite (info_lookup _ _ _ Hx), Hiz. split; intros (y & [= <-] & Hqy & _); [change (queued x = true) in Hqy; congruence|done].
    + split; [intros (y & Hy & Q1 & Q2); destruct (Hother i y Hi Hy) as (y' & Hy' & _ & E1 & E2 & _)|intros (y & Hy & Q1 & Q2); destruct (Hback i y Hi Hy) as (y' & Hy' & E1 & E2 & _)];
        exists y'; (split; [done|]); (split; congruence).
  - intros i y Hy Hd. destruct (decide (i = p)) as [->|Hi]; [rewrite Hiz in Hy; by injection Hy as <-|].
    destruct (Hback i y Hi Hy) as (y' & Hy' & _ & _ & E3 & E5). rewrite E5. apply (M4 i y' Hy'). unfold dead in *. by rewrite <- E3.
Qed.

Lemma table_adopts p s done s' all zomb free : adopts p s done s' → table_ok s all zomb free → table_ok s' all zomb free.
Proof.
  intros HA [T1 T2 T3 T4 T5 T6 T7]. assert (HF := ad_frame _ _ _ _ HA).
  assert (E : allproc s' = allproc s ∧ zombproc s' = zombproc s ∧ freeproc s' = freeproc s ∧ pidhash s' = pidhash s) by (by rewrite HF).
  destruct E as (E1 & E2 & E3 & E4).
  assert (HK : ∀ {A} (f : proc → A), (∀ x y, kept y = kept x → f y = f x) → ∀ i, f <$> procs s' !! i = f <$> procs s !! i).
  { intros A f Hf i. rewrite <- !list_lookup_fmap. by rewrite (adopts_field f p s done s'). }
  split; rewrite ?E1, ?E2, ?E3; try done.
  1, 2, 3: eapply lseg_links; [intros i _; apply HK; by intros x y [= ? _ _ _ _ _ _]|done].
  1, 2: eapply back_links; [intros i _; apply HK; by intros x y [= _ ? _ _ _ _ _]|done].
  eapply (hash_ok_same s); [done| | |done]; apply (adopts_field _ p s done s'); [by intros x y [= _ _ ? _ _ _ _]|done|by intros x y [= _ _ _ ? _ _ _]|done].
Qed.

(** The process [p] runs: it is on no queue.  It is not init. *)
Record exiting s (p pp : nat) x (rq : list nat) : Prop := Exiting {
  ex_cur : p = u_procp (u s);
  ex_entry : procs s !! p = Some x;
  ex_run : p_stat x = SRUN;
  ex_off : p ∉ rq;
  ex_pid : p_pid x ≠ 1;
  ex_parent : p_pptr x = Some pp ∧ pp ≠ p ∧ is_Some (procs s !! pp);
  ex_limit : is_Some (u_rlimit (u s) !! 1%nat) }.

(** What [exit] with the status [rv] leaves behind. *)
Record left_behind s s' (p pp : nat) x (rv : Z) (all zomb free : list nat) : Prop := LeftBehind {
  lb_table : table_ok s' all (p :: zomb) free;
  lb_queues : ∃ rq sq, queues_ok s' rq sq;
  lb_record : ∃ z, procs s' !! p = Some z ∧ dead_as (ExitRecord (p_pid x) rv (ruadd (u_ru (u s)) (u_cru (u s)))) z ∧ p_pptr z = Some pp;
  lb_children i y : i ∈ all ++ zomb → procs s !! i = Some y → ∃ y', procs s' !! i = Some y' ∧
    (p_pptr y', p_ppid y') = if decide (p_pptr y = Some p) then (Some 1%nat, 1) else (p_pptr y, p_ppid y);
  lb_parent i y : procs s' !! i = Some y → queued y = true → p_wchan y ≠ proc_addr pp }.

Lemma lists_ok_u s rq sq v : queues_ok s rq sq → queues_ok (s<|u := v|>) rq sq.
Proof. intros [HL HM]. split; [by apply (lists_ok_same s)|done]. Qed.

Lemma wp_exit_tail s p pp x rq sq l1 l2 zomb free rv : exiting s p pp x rq →
  table_ok s (l1 ++ p :: l2) zomb free → queues_ok s rq sq →
  wp (retire p rv;; orphans p;; x ← at_ p;
      match p_pptr x with
      | None => lift Wild
      | Some pp => psignal pp SIGCHLD;; wakeup (proc_addr pp);; wakeup runin_addr
      end) (λ _ s', left_behind s s' p pp x rv (l1 ++ l2) zomb free) s.
Proof.
  intros [E1 Hx Hrun Hrq Hpid (Hpp & Hne & [yp Hyp]) _] HT HQ. apply wp_bind. eapply wp_mono; [by apply wp_retire|]. intros [] s1 [HT1 HR].
  assert (Hqx : queued x = false) by (unfold queued; by rewrite Hrun). assert (HQ1 : queues s1) by (exists rq, sq; exact (queues_retired s s1 p x rv rq sq HQ Hx Hrq Hqx HR)).
  pose proof HR as [Fr Len Hz Pr]. pose proof (t_nodup _ _ _ _ HT1) as Hnd. rewrite app_assoc in Hnd. apply NoDup_app in Hnd as (Hnd & _ & _).
  apply wp_bind. eapply wp_mono; [apply (wp_orphans p s1 (l1 ++ l2) (p :: zomb) HQ1); [apply HT1|apply HT1|done]|]. intros [] s2 HA2.
  destruct (ad_proc _ _ _ _ HA2 p _ Hz) as (z & Hz2 & K2 & P2). apply wp_bind. eapply wp_at; [exact Hz2|].
  assert (Ep : p_pptr z = Some pp).
  { unfold adopted in P2. rewrite decide_False in P2; [|change (p_pptr (zombie_of s x rv)) with (p_pptr x); rewrite Hpp; intros [_ [= ->]]; done].
    injection P2 as P2 _. rewrite P2. exact Hpp. }
  rewrite Ep. destruct (Pr pp yp Hne Hyp) as (yp1 & Hyp1 & _). destruct (ad_proc _ _ _ _ HA2 pp yp1 Hyp1) as (yp2 & Hyp2 & _).
  apply wp_bind. eapply wp_mono; [apply (wp_settle_signal s2 pp SIGCHLD (ad_queues _ _ _ _ HA2)); [by exists yp2|done|apply sigchld_plain]|]. intros [] s3 HS3.
  apply wp_bind. eapply wp_mono; [apply (wp_settle_wakeup s3 (proc_addr pp)); apply HS3|]. intros [] s4 [HS4 HC4].
  eapply wp_mono; [apply (wp_settle_wakeup s4 runin_addr); apply HS4|]. intros [] s5 [HS5 HC5].
  assert (HS : settled s2 s5) by (eapply settled_chain; [exact HS3|]; by eapply settled_chain).
  pose proof (adopts_settled _ _ _ _ _ HA2 HS) as HA5. split.
  - by eapply table_adopts.
  - exact (ad_queues _ _ _ _ HA5).
  - destruct (settled_proc _ _ _ _ HS Hz2) as (z5 & Hz5 & K5 & P5). exists z5. split; [done|]. rewrite K2 in K5. injection K5 as _ _ _ K1 K3 K4 K6.
    split; [split; [apply Z.eqb_eq; by rewrite K6|]; by rewrite K1, K3, K4|]. injection P5 as P5 _. by rewrite P5.
  - intros i y Hi Hy. assert (Hip : i ≠ p).
    { intros ->. destruct (table_nodup _ _ _ _ _ (t_nodup _ _ _ _ HT)) as (_ & [N2 _]%NoDup_cons & N3 & _). apply elem_of_app in Hi as [Hi|Hi]; done. }
    destruct (Pr i y Hip Hy) as (y1 & Hy1 & Ey). destruct (ad_proc _ _ _ _ HA5 i y1 Hy1) as (y5 & Hy5 & _ & P5). exists y5. split; [done|].
    change (par y5 = if decide (p_pptr y = Some p) then (Some 1%nat, 1) else par y). rewrite P5. unfold adopted.
    assert (Ey' : p_pptr y1 = p_pptr y ∧ par y1 = par y) by (by rewrite Ey). destruct Ey' as [-> ->].
    destruct (decide (p_pptr y = Some p)); [rewrite decide_True; [done|split; [set_solver|done]]|by rewrite decide_False by tauto].
  - intros i y Hy Hqy. pose proof (HC5 i (nolink y) (info_lookup _ _ _ Hy) Hqy) as [_ Hy4]. exact (proj1 (HC4 i (nolink y) Hy4 Hqy)).
Qed.

(** ** The process while it exits *)

(** The lists around the running process, which has the id [pid]. *)
Record here s (p : nat) (pid : Z) (pp : nat) x (rq : list nat) (sq : list (list nat)) (l1 l2 zomb free : list nat) : Prop := Here {
  hr_exiting : exiting s p pp x rq;
  hr_pid : p_pid x = pid;
  hr_table : table_ok s (l1 ++ p :: l2) zomb free;
  hr_queues : queues_ok s rq sq }.
Definition alive (p : nat) (pid : Z) s : Prop := ∃ pp x rq sq l1 l2 zomb free, here s p pid pp x rq sq l1 l2 zomb free.

(** What the process does to its own entry and user area. *)
Definition own (p : nat) s s' : Prop := ∃ x y v, procs s !! p = Some x ∧ s' = (putp s p y)<|u := v|> ∧
  y = x<|p_flag := p_flag y|><|p_sigignore := p_sigignore y|><|p_sig := p_sig y|><|p_dsize := p_dsize y|><|p_ssize := p_ssize y|> ∧
  has (p_flag y) SLOAD = has (p_flag x) SLOAD ∧
  v = (u s)<|u_rlimit := u_rlimit v|><|u_dsize := u_dsize v|><|u_ssize := u_ssize v|> ∧ length (u_rlimit v) = length (u_rlimit (u s)).

Lemma here_own s s' p pid pp x rq sq l1 l2 zomb free :
  here s p pid pp x rq sq l1 l2 zomb free → own p s s' → ∃ y, here s' p pid pp y rq sq l1 l2 zomb free.
Proof.
  intros [[E1 Hx Hrun Hrq Hpid (Hpp & Hne & Hyp) Hlim] Ep HT HQ] (x' & y & v & Hx' & -> & Ey & El & Ev & En). rewrite Hx in Hx'. injection Hx' as <-.
  pose proof (lookup_lt_Some _ _ _ Hx) as Hlt.
  assert (F : p_stat y = p_stat x ∧ p_pid y = p_pid x ∧ p_pptr y = p_pptr x ∧ p_nxt y = p_nxt x ∧ p_prev y = p_prev x ∧ p_hash y = p_hash x ∧
    p_link y = p_link x ∧ p_slptime y = p_slptime x ∧ p_wchan y = p_wchan x) by (rewrite Ey; done).
  destruct F as (F1 & F2 & F3 & F4 & F5 & F6 & F7 & F8 & F9). exists y. split.
  - split; try congruence.
    + change (p = u_procp v). by rewrite Ev.
    + unfold putp. fields. by apply list_lookup_insert_eq.
    + rewrite F3. split; [done|]. split; [done|]. unfold putp. fields. by rewrite list_lookup_insert_ne.
    + change (is_Some (u_rlimit v !! 1%nat)). apply lookup_lt_is_Some. rewrite En. by apply lookup_lt_is_Some.
  - congruence.
  - apply table_user. by apply (table_put s _ _ _ p x).
  - apply lists_ok_u. unfold putp. apply (queues_put s rq sq p x); try done; [unfold queued; by rewrite F1, F9|by left].
Qed.

Lemma resettled_refl s : queues s → settled s s.
Proof. intros HQ. split_and!; [done|apply framed_refl|apply mild_all_refl]. Qed.
Lemma table_settled s s' all zomb free : queues s → settled s s' → table_ok s all zomb free → table_ok s' all zomb free.
Proof.
  intros HQ HS. apply (table_adopts 0 s []). eapply adopts_settled; [|exact HS].
  split; [done|apply framed_refl|done|]. intros i x Hx. exists x. split; [done|]. split; [done|]. unfold adopted. by rewrite decide_False by set_solver.
Qed.
(** A wakeup does not touch the process that runs. *)
Lemma here_wakeup s chan p pid pp x rq sq l1 l2 zomb free :
  here s p pid pp x rq sq l1 l2 zomb free →
  wp (wakeup chan) (λ _ s', settled s s' ∧ ∃ x' rq' sq', nolink x' = nolink x ∧ here s' p pid pp x' rq' sq' l1 l2 zomb free) s.
Proof.
  intros [[E1 Hx Hrun Hrq Hpid (Hpp & Hne & [yp Hyp]) Hlim] Ep HT HQ].
  eapply wp_mono; [by apply (wp_wakeup chan s rq sq)|]. intros [] s' (V & rq' & sq' & Hw & _).
  assert (HS : settled s s') by (split_and!; [exists rq', sq'; apply Hw|apply Hw|by eapply mild_woke]). split; [done|].
  assert (Hp : p ∉ V).
  { intros Hp. destruct (wk_wait _ _ _ _ _ _ _ Hw p Hp) as (z & Hz & Hqz). rewrite (info_lookup _ _ _ Hx) in Hz. injection Hz as <-.
    change (queued x = true) in Hqz. unfold queued in Hqz. by rewrite Hrun in Hqz. }
  pose proof (wk_info _ _ _ _ _ _ _ Hw p _ (info_lookup _ _ _ Hx)) as Hi. rewrite decide_False in Hi by done.
  apply info_lookup_inv in Hi as (x' & Hx' & En). exists x', rq', sq'. split; [done|].
  assert (Eu : u s' = u s) by (by rewrite (wk_frame _ _ _ _ _ _ _ Hw)).
  assert (F : p_stat x' = p_stat x ∧ p_pid x' = p_pid x ∧ p_pptr x' = p_pptr x).
  { change (p_stat (nolink x') = p_stat x ∧ p_pid (nolink x') = p_pid x ∧ p_pptr (nolink x') = p_pptr x). by rewrite <- En. }
  destruct F as (F1 & F2 & F3). split; [|congruence|eapply table_settled; [|exact HS|exact HT]; by exists rq, sq|apply Hw].
  split; try congruence.
  - destruct (wk_rq _ _ _ _ _ _ _ Hw) as (new & -> & Hnew). intros [Hn|Hn]%elem_of_app; [|done]. apply Hnew in Hn as [? _]. done.
  - rewrite F3. split; [done|]. split; [done|]. destruct (settled_proc _ _ _ _ HS Hyp) as (y' & Hy' & _). by exists y'.
Qed.

(** ** A child that shares its parent's memory *)

(** The sleeps of [endvfork], from [s] to [s'], until the parent has gone on. *)
Inductive naps `{ForkOps} (p : nat) (chan : Z) : nat → kern → kern → Prop :=
  | nap_end k s x : procs s !! p = Some x → has (p_flag x) SVFDONE = true → naps p chan k s s
  | nap_more k s x s1 s2 : procs s !! p = Some x → has (p_flag x) SVFDONE = false →
      sleep chan (PZERO - 1) s = Done (tt, s1) → naps p chan k s1 s2 → naps p chan (S k) s s2.
Lemma wp_vfdone_wait `{ForkOps} p chan k s s' (Q : unit → kern → Prop) : naps p chan k s s' → Q tt s' → wp (vfdone_wait k p chan) Q s.
Proof.
  induction 1 as [k s x Hx Hd|k s x s1 s2 Hx Hd Hs _ IH]; intros HQ.
  - destruct k; cbn [vfdone_wait]; apply wp_bind; (eapply wp_at; [exact Hx|]); rewrite Hd; by apply wp_ret.
  - cbn [vfdone_wait]. apply wp_bind. eapply wp_at; [exact Hx|]. rewrite Hd. apply wp_bind. unfold wp at 1. rewrite Hs. by apply IH.
Qed.

(** What may happen while the process is not running: [R] holds for what the
    process and its wakeups do themselves, and for what follows from it. *)
Record rely (p : nat) (R : kern → kern → Prop) : Prop := Rely {
  rl_trans s1 s2 s3 : R s1 s2 → R s2 s3 → R s1 s3;
  rl_own s s' : own p s s' → R s s';
  rl_wake s s' : settled s s' → R s s' }.

(** The parent of a vfork child that has said it is done lets it go on. *)
Definition released `{ForkOps} (R : kern → kern → Prop) (p : nat) (pid : Z) (fuel : nat) : Prop := ∀ s x,
  alive p pid s → procs s !! p = Some x → has (p_flag x) SVFORK = false → has (p_flag x) SLOCK = true →
  ∃ s', naps p (chan_of (p_pptr x)) fuel s s' ∧ alive p pid s' ∧ R s s'.

Lemma wp_endvfork `{ForkOps} R p pid fuel s pp x rq sq l1 l2 zomb free :
  rely p R → released R p pid fuel → here s p pid pp x rq sq l1 l2 zomb free →
  wp (endvfork fuel) (λ _ s', R s s' ∧ alive p pid s') s.
Proof.
  intros HR HV Hh. pose proof Hh as [[E1 Hx _ _ _ (Hpp & _) _] _ _ _]. unfold endvfork. apply wp_bind. unfold curproc. apply wp_gets. rewrite <- E1.
  apply wp_bind. eapply wp_at; [exact Hx|]. rewrite Hpp.
  rewrite <- (putp_id s p x Hx). do 2 (apply wp_bind; eapply wp_setp_put; [exact Hx|]).
  rewrite (putp_id s p x Hx).
  set (y := field_map p_flag (λ f, Z.lor f SLOCK) _). set (s1 := putp s p y).
  assert (Ho : own p s s1).
  { exists x, y, (u s). split_and!; try done; try (by destruct (u s)); try (by destruct s).
    unfold y. fields. rewrite has_lor. change (has SLOCK SLOAD) with false. rewrite orb_false_r. by apply has_bic_other. }
  destruct (here_own _ _ _ _ _ _ _ _ _ _ _ _ Hh Ho) as (y1 & Hh1). pose proof Hh1 as [[_ Hy1 _ _ _ (Hpp1 & _) _] _ _ _].
  assert (y1 = y) as ->.
  { assert (E : procs s1 !! p = Some y) by (unfold s1, putp; fields; apply list_lookup_insert_eq; by eapply lookup_lt_Some). congruence. }
  apply wp_bind. eapply wp_mono; [by apply (here_wakeup s1 (proc_addr p) p pid pp y rq sq l1 l2 zomb free)|].
  intros [] s2 (HS2 & y2 & rq2 & sq2 & En2 & Hh2). pose proof Hh2 as [[_ Hy2 _ _ _ (Hpp2 & _) _] _ _ _].
  destruct (HV s2 y2) as (s3 & Hn & (pp3 & x3 & rq3 & sq3 & m1 & m2 & zomb3 & free3 & Hh3) & R3); [by eexists _, _, _, _, _, _, _, _|done|..].
  { change (has (p_flag (nolink y2)) SVFORK = false). rewrite En2. change (has (Z.lor (bic (p_flag x) SVFORK) SLOCK) SVFORK = false).
    by rewrite has_lor, has_bic_same. }
  { change (has (p_flag (nolink y2)) SLOCK = true). rewrite En2. change (has (Z.lor (bic (p_flag x) SVFORK) SLOCK) SLOCK = true).
    rewrite has_lor. by rewrite orb_true_r. }
  rewrite Hpp2 in Hn. apply wp_bind. eapply wp_vfdone_wait; [exact Hn|]. clear Hn.
  pose proof Hh3 as [[_ Hx3 _ _ _ _ _] _ _ _]. apply wp_bind. eapply wp_setp; [exact Hx3|]. apply wp_bind, wp_modify.
  apply wp_bind. eapply wp_setp; [fields; apply list_lookup_insert_eq; by eapply lookup_lt_Some|]. apply wp_bind, wp_modify.
  eapply wp_setp; [fields; rewrite list_lookup_insert_eq; [done|rewrite length_insert; by eapply lookup_lt_Some]|].
  match goal with |- R s ?t ∧ _ => set (s4 := t) end.
  assert (Ho4 : own p s3 s4).
  { exists x3, (x3<|p_dsize := 0|><|p_ssize := 0|><|p_flag ::= λ f, bic f (Z.lor SVFDONE SLOCK)|>), ((u s3)<|u_dsize := 0|><|u_ssize := 0|>).
    split_and!; try done; try (by destruct (u s3)).
    - unfold s4, putp. fields. rewrite !list_insert_insert_eq. by destruct s3.
    - fields. by apply has_bic_other. }
  split.
  - eapply (rl_trans p R HR); [by apply (rl_own p R HR _ _ Ho)|]. eapply (rl_trans p R HR); [by apply (rl_wake p R HR _ _ HS2)|].
    eapply (rl_trans p R HR); [exact R3|]. by apply (rl_own p R HR).
  - destruct (here_own _ _ _ _ _ _ _ _ _ _ _ _ Hh3 Ho4) as (y4 & Hh4). by eexists _, _, _, _, _, _, _, _.
Qed.

(** What the process leaves behind from the state [s] on. *)
Definition departed (p : nat) (pid rv : Z) s s' : Prop :=
  ∃ pp x l1 l2 zomb free, procs s !! p = Some x ∧ p_pid x = pid ∧ p_pptr x = Some pp ∧ table_ok s (l1 ++ p :: l2) zomb free ∧
    left_behind s s' p pp x rv (l1 ++ l2) zomb free.

Lemma wp_exit_end `{ForkOps} R p pid fuel s rv : rely p R → released R p pid fuel → alive p pid s →
  wp (exit_end fuel rv) (λ _ s', ∃ s1, R s s1 ∧ departed p pid rv s1 s') s.
Proof.
  intros HR HV (pp & x & rq & sq & l1 & l2 & zomb & free & Hh). pose proof Hh as [[E1 Hx _ _ Hpid _ Hlim] Ep _ _]. destruct Hlim as [lim Hlim].
  unfold exit_end. apply wp_bind, wp_gets. apply wp_bind. eapply wp_lift; [unfold rdz, RLIMIT_FSIZE; simpl; by apply rd_Done|].
  apply wp_bind. eapply wp_lift; [unfold wrz, RLIMIT_FSIZE; simpl; apply wr_Done; by eapply lookup_lt_Some|].
  apply wp_bind, wp_modify. set (f := λ v : user, v<|u_rlimit := _|>). set (s1 := s<|u ::= f|>).
  assert (Ho : own p s s1).
  { exists x, x, (f (u s)). split_and!; try done; [rewrite (putp_id s p x Hx); by destruct s|by destruct x|unfold f; fields; by rewrite length_insert]. }
  assert (R1 : R s s1) by (by apply (rl_own p R HR)).
  destruct (here_own _ _ _ _ _ _ _ _ _ _ _ _ Hh Ho) as (y & Hh1). pose proof Hh1 as [HE1 _ _ _]. assert (y = x) as -> by (apply ex_entry in HE1; change (procs s !! p = Some y) in HE1; congruence).
  assert (HK : ∀ s2, R s s2 → alive p pid s2 → wp (retire p rv;; orphans p;; x ← at_ p;
      match p_pptr x with
      | None => lift Wild
      | Some pp => psignal pp SIGCHLD;; wakeup (proc_addr pp);; wakeup runin_addr
      end) (λ _ s', ∃ s1, R s s1 ∧ departed p pid rv s1 s') s2).
  { intros s2 R2 (pp2 & x2 & rq2 & sq2 & m1 & m2 & zomb2 & free2 & [HE2 Ep2 HT2 HQ2]).
    eapply wp_mono; [by apply (wp_exit_tail s2 p pp2 x2 rq2 sq2 m1 m2 zomb2 free2 rv)|]. intros [] s' HB. exists s2. split; [done|].
    exists pp2, x2, m1, m2, zomb2, free2. split_and!; try done; apply HE2. }
  apply wp_bind. unfold curproc. apply wp_gets. rewrite <- (ex_cur _ _ _ _ _ HE1). apply wp_bind. eapply wp_at; [exact (ex_entry _ _ _ _ _ HE1)|].
  rewrite (proj2 (Z.eqb_neq _ _) Hpid). apply wp_bind. destruct (has (p_flag x) SVFORK).
  - eapply wp_mono; [by eapply (wp_endvfork R)|]. intros [] s2 [R2 Ha2]. apply HK; [|done]. by eapply (rl_trans p R HR).
  - apply wp_ret. apply HK; [done|]. by eexists _, _, _, _, _, _, _, _.
Qed.

Lemma wp_exit_begin s p pid : alive p pid s → wp exit_begin (λ _ s', own p s s' ∧ alive p pid s') s.
Proof.
  intros (pp & x & rq & sq & l1 & l2 & zomb & free & Hh). pose proof Hh as [[E1 Hx _ _ _ _ _] _ _ _].
  unfold exit_begin. apply wp_bind. unfold curproc. apply wp_gets. rewrite <- E1. rewrite <- (putp_id s p x Hx).
  do 2 (apply wp_bind; eapply wp_setp_put; [exact Hx|]). eapply wp_setp_put; [exact Hx|]. rewrite (putp_id s p x Hx).
  match goal with |- own p s ?t ∧ _ => assert (Ho : own p s t) end.
  { eexists x, _, (u s). split_and!; [done|by destruct s|by destruct x| |by destruct (u s)|done]. fields. by apply has_bic_other. }
  split; [done|]. destruct (here_own _ _ _ _ _ _ _ _ _ _ _ _ Hh Ho) as (y & Hy). by eexists _, _, _, _, _, _, _, _.
Qed.
End Settled.

(** ** Theorems *)

(** C12. exit ends a process.  Of its files only what others hold is left
    open; it is off the list of live processes and its hash chain and is a
    zombie with its id, the status and its usage with that of its children;
    every child, live or zombie, has init as its parent, and nobody else
    changes parents; the scheduling queues are sound; and nobody is left
    asleep on the channel on which the parent waits.  Releasing the
    directories can wake processes and can wait, and a vfork child waits for
    its parent: other processes may do anything meanwhile ([R] for the process
    table, [G] for their references to files) that leaves this process running
    and the lists and queues sound, and the state in which the process is
    taken off the lists is the one it finds then. *)
Theorem exit_correct `{Layout} `{ForkOps} {W : Type} `{FileOps W} `{DirOps W} (R : kern → kern → Prop) (G : (nat → Z) → (nat → Z) → Prop)
    (p : nat) (pid : Z) (fuel : nat)
    (dirs : ∀ (t : sys W) (o : nat → Z), alive p pid (sys_kern t) → inv o (sys_files t) → wp release_dirs (λ _ t',
      R (sys_kern t) (sys_kern t') ∧ alive p pid (sys_kern t') ∧ (∃ o', G o o' ∧ inv o' (sys_files t')) ∧
      u_ofile (s_u (sys_files t')) = u_ofile (s_u (sys_files t))) t)
    (parent : released R p pid fuel) (t : sys W) (o : nat → Z) (rv : Z) :
  rely p R → alive p pid (sys_kern t) → inv o (sys_files t) → (∀ fp, 0 ≤ o fp < 2^32 - 65) →
  wp (exit fuel rv) (λ _ t', (∃ s1, R (sys_kern t) s1 ∧ departed p pid rv s1 (sys_kern t')) ∧ (∃ o', G o o' ∧ inv o' (sys_files t')) ∧
    ∀ j f, u_ofile (s_u (sys_files t')) !! j = Some f → f = None) t.
Proof.
  intros HR Ha HI Ho. unfold exit. apply wp_bind, wp_on_kern. eapply wp_mono; [by apply (wp_exit_begin _ p pid)|]. intros [] s0 [Ho0 Ha0].
  apply wp_bind, wp_on_files. eapply wp_mono; [by apply (wp_exit_fds o)|]. simpl. intros [] f1 (HI1 & HN1 & _).
  apply wp_bind. eapply wp_mono; [by apply (dirs _ o)|]. simpl. intros [] t2 (R2 & Ha2 & HG & Eo).
  apply wp_on_kern. eapply wp_mono; [by apply (wp_exit_end R p pid fuel _ rv)|]. simpl. intros [] s' (s1 & R1 & HD).
  split; [|split; [done|by rewrite Eo]]. exists s1. split; [|done].
  eapply (rl_trans p R HR); [by apply (rl_own p R HR)|]. by eapply (rl_trans p R HR).
Qed.

(** ** Example: a vfork child exits, with two descriptors open

    The release of its directories wakes those who wait for one of them, and
    its parent answers at the first sleep. *)
Definition unmoved (s s' : kern) : Prop :=
  ∀ i x, procs s !! i = Some x → ∃ x', procs s' !! i = Some x' ∧ kept x' = kept x ∧ par x' = par x.
Lemma rely_unmoved `{Layout} p : rely p unmoved.
Proof.
  split.
  - intros s1 s2 s3 R1 R2 i x Hx. destruct (R1 i x Hx) as (x1 & H1 & K1 & P1). destruct (R2 i x1 H1) as (x2 & H2 & K2 & P2).
    exists x2. split; [done|]. split; congruence.
  - intros s s' (x & y & v & Hx & -> & Ey & _) i z Hz. unfold putp. fields. destruct (decide (i = p)) as [->|Hi].
    + rewrite list_lookup_insert_eq by (by eapply lookup_lt_Some). exists y. assert (z = x) as -> by congruence. by rewrite Ey.
    + rewrite list_lookup_insert_ne by done. by exists z.
  - intros s s' HS i x Hx. by eapply settled_proc.
Qed.

Section Witness.
#[local] Existing Instance demo_ops.
#[local] Instance ex_fork_ops : ForkOps :=
  {| share_files := mret tt; swapout := λ _, mret tt; sleep := λ _ _, setp 2 (λ x, x<|p_flag ::= λ f, Z.lor f SVFDONE|>) |}.
#[local] Instance ex_dirs : DirOps (list Z) := on_kern (wakeup 0x1000).
Definition ex_vforked : proc := slot (Some 1%nat) (Some AllProc) (Some 1%nat) (Z.lor SLOAD SVFORK) 100 2 1 SRUN.
Definition ex_child : kern := putp (ex_kern 100) 2 ex_vforked.

Lemma ex_child_alive : alive 2 2 ex_child.
Proof.
  exists 1%nat, ex_vforked, [], (replicate 16 []), [], [1; 0]%nat, [], [3; 4; 5; 6; 7; 8; 9]%nat. split; [|done|..].
  - split; try done; try (by eexists). set_solver.
  - by apply (table_put (ex_kern 100) _ _ _ 2 (slot (Some 1%nat) (Some AllProc) (Some 1%nat) SLOAD 100 2 1 SRUN) _ (ex_table 100)).
  - unfold ex_child, putp. apply (queues_put (ex_kern 100) _ _ 2 (slot (Some 1%nat) (Some AllProc) (Some 1%nat) SLOAD 100 2 1 SRUN)); try done; [apply ex_kern_queues|by left].
Qed.
Lemma ex_released : released unmoved 2 2 1.
Proof.
  intros s x (pp & x' & rq & sq & l1 & l2 & zomb & free & Hh) Hx _ _. destruct (has (p_flag x) SVFDONE) eqn:E.
  { exists s. split_and!; [by eapply nap_end|by eexists _, _, _, _, _, _, _, _|]. intros i y Hy. by exists y. }
  set (y := x<|p_flag ::= λ f, Z.lor f SVFDONE|>). set (s' := putp s 2 y).
  assert (Hy : procs s' !! 2%nat = Some y) by (unfold s', putp; fields; apply list_lookup_insert_eq; by eapply lookup_lt_Some).
  assert (Ho : own 2 s s').
  { exists x, y, (u s). split_and!; try done; try (by destruct (u s)); try (by destruct s). unfold y. fields. rewrite has_lor. by rewrite orb_false_r. }
  exists s'. split_and!.
  - eapply (nap_more _ _ 0 s x s'); [done|done| |eapply nap_end; [exact Hy|]].
    + assert (Hp : wp (setp 2 (λ x, x<|p_flag ::= λ f, Z.lor f SVFDONE|>)) (λ _ s2, s2 = s') s) by (by eapply wp_setp).
      apply wp_run in Hp as ([] & s2 & Hp & ->). exact Hp.
    + unfold y. fields. rewrite has_lor. by rewrite orb_true_r.
  - destruct (here_own _ _ _ _ _ _ _ _ _ _ _ _ Hh Ho) as (z & Hz). by eexists _, _, _, _, _, _, _, _.
  - by apply (rl_own 2 unmoved (rely_unmoved 2)).
Qed.
Lemma exit_correct_witness :
  wp (exit 1 0x300) (λ _ t', ∃ z, procs (sys_kern t') !! 2%nat = Some z ∧ p_stat z = SZOMB ∧ p_xstat z = 0x300) (Sys ex_child demo).
Proof.
  assert (Hd : ∀ (t : sys (list Z)) (o : nat → Z), alive 2 2 (sys_kern t) → inv o (sys_files t) → wp release_dirs (λ _ t',
      unmoved (sys_kern t) (sys_kern t') ∧ alive 2 2 (sys_kern t') ∧ (∃ o', o = o' ∧ inv o' (sys_files t')) ∧
      u_ofile (s_u (sys_files t')) = u_ofile (s_u (sys_files t))) t).
  { intros t o (pp & x & rq & sq & l1 & l2 & zomb & free & Hh) HI. apply wp_on_kern.
    eapply wp_mono; [by apply (here_wakeup (sys_kern t) 0x1000 2 2 pp x rq sq l1 l2 zomb free)|].
    intros [] s' (HS & x' & rq' & sq' & _ & Hh'). simpl. split_and!; [by apply (rl_wake 2 unmoved (rely_unmoved 2))| |by exists o|done].
    by eexists _, _, _, _, _, _, _, _. }
  eapply wp_mono; [exact (exit_correct unmoved eq 2 2 1 Hd ex_released (Sys ex_child demo) (λ _, 0) 0x300
    (rely_unmoved 2) ex_child_alive demo_inv ltac:(intros; lia))|].
  intros [] t' [(s1 & _ & pp & x & l1 & l2 & zomb & free & _ & _ & _ & _ & [_ _ (z & Hz & [Es Er] & _) _ _]) _]. exists z. split; [done|]. split; [done|]. by injection Er.
Defined.
End Witness.
