(* ===== verification/Ring.v ===== *)
(** * Circular doubly linked queues

    The kernel keeps its buffers on circular queues with a head that belongs
    to the queue: following the forward links from the head passes through the
    members and comes back to the head, and so do the backward links in the
    other direction.  The links are two arrays of node numbers. *)
From stdpp Require Import functions.
From stdpp Require Import base tactics list option numbers gmap.
From S2P Require Import Prelude.

(** [path lk xs]: each node of [xs] is linked to the next one. *)
Fixpoint path (lk : list nat) (xs : list nat) : Prop :=
  match xs with
  | a :: (b :: _) as t => lk !! a = Some b ∧ path lk t
  | _ => True
  end.
Definition ring (lk : list nat) (d : nat) (l : list nat) : Prop := path lk (d :: l ++ [d]).

Lemma NoDup_rev (l : list nat) : NoDup l → NoDup (reverse l).
Proof. by rewrite reverse_Permutation. Qed.

Section Ring.
Implicit Types (lk : list nat) (d x a b : nat) (l xs : list nat).

Lemma path_app lk xs a ys : path lk (xs ++ a :: ys) ↔ path lk (xs ++ [a]) ∧ path lk (a :: ys).
Proof.
  induction xs as [|x xs IH]; [simpl; tauto|]. destruct xs as [|y xs]; [simpl; tauto|].
  change ((x :: y :: xs) ++ ?r) with (x :: (y :: xs) ++ r). simpl in IH |- *. rewrite IH. tauto.
Qed.

(** Only the links of the nodes before the last matter. *)
Lemma path_frame lk lk' xs a :
  (∀ b, b ∈ xs → lk' !! b = lk !! b) → path lk (xs ++ [a]) → path lk' (xs ++ [a]).
Proof.
  induction xs as [|x xs IH]; [done|]. intros Hf. destruct xs as [|y xs].
  - simpl. intros [E _]. split; [|done]. rewrite Hf; [done|set_solver].
  - change ((x :: y :: xs) ++ [a]) with (x :: y :: (xs ++ [a])). intros [E Hp]. split.
    + rewrite Hf; [done|set_solver].
    + apply IH; [|done]. intros b Hb. apply Hf. set_solver.
Qed.
Lemma ring_frame lk lk' d l : (∀ b, b ∈ d :: l → lk' !! b = lk !! b) → ring lk d l → ring lk' d l.
Proof. apply (path_frame lk lk' (d :: l) d). Qed.

Lemma path_pred lk xs a b : path lk (xs ++ [a]) → last xs = Some b → lk !! b = Some a.
Proof.
  intros Hp (ys & ->)%last_Some. rewrite <- app_assoc in Hp. apply path_app in Hp as [_ [E _]]. done.
Qed.

(** The member before and the one after a position of the queue. *)
Definition pred d l : nat := default d (last l).
Definition succ d l : nat := hd d l.

Lemma last_cons_pred d l : last (d :: l) = Some (pred d l).
Proof. unfold pred. rewrite last_cons. by destruct (last l). Qed.
Lemma pred_elem d l : pred d l ∈ d :: l.
Proof. apply last_Some_elem_of. by rewrite last_cons_pred. Qed.
Lemma succ_elem d l : succ d l ∈ d :: l.
Proof. destruct l; simpl; set_solver. Qed.
Lemma pred_reverse d l : pred d (reverse l) = succ d l.
Proof. unfold pred, succ. rewrite last_reverse. by destruct l. Qed.
Lemma succ_reverse d l : succ d (reverse l) = pred d l.
Proof. by rewrite <- pred_reverse, reverse_involutive. Qed.

Lemma ring_at lk d l1 l2 : ring lk d (l1 ++ l2) → lk !! (pred d l1) = Some (succ d l2).
Proof.
  unfold ring. intros Hp. destruct l2 as [|x l2]; rewrite ?app_nil_r in Hp.
  - apply (path_pred lk (d :: l1)); [done|apply last_cons_pred].
  - rewrite <- app_assoc in Hp. change (d :: l1 ++ ?r) with ((d :: l1) ++ r) in Hp.
    apply path_app in Hp as [Hp _]. eapply path_pred; [done|apply last_cons_pred].
Qed.
Lemma ring_next lk d l1 x l2 : ring lk d (l1 ++ x :: l2) → lk !! x = Some (succ d l2).
Proof.
  intros Hr. rewrite (cons_middle x l1 l2), app_assoc in Hr. apply ring_at in Hr.
  by replace (pred d (l1 ++ [x])) with x in Hr by (unfold pred; by rewrite last_snoc).
Qed.

(** Joining two parts by a new link from the end of the first. *)
Lemma ring_join lk lk' d l1 l2 l2' :
  ring lk d (l1 ++ l2) → NoDup (d :: l1) →
  (∀ a, a ∈ d :: l1 → a ≠ pred d l1 → lk' !! a = lk !! a) →
  lk' !! (pred d l1) = Some (succ d l2') → path lk' (l2' ++ [d]) → ring lk' d (l1 ++ l2').
Proof.
  intros Hr Hnd Hf Hl Hp. unfold ring in *. rewrite <- app_assoc in Hr |- *.
  destruct (last (d :: l1)) as [e|] eqn:El; [|by apply last_None in El].
  rewrite last_cons_pred in El. injection El as El. rewrite El in *.
  assert (HL : last (d :: l1) = Some e) by (by rewrite last_cons_pred, El).
  apply last_Some in HL as (ys & Hys). change (d :: l1 ++ ?r) with ((d :: l1) ++ r) in *. rewrite Hys in *.
  assert (Hsp : ∀ r, (ys ++ [e]) ++ r = ys ++ e :: r) by (intros; by rewrite <- app_assoc).
  rewrite Hsp in Hr |- *. apply path_app in Hr as [Hr _]. apply path_app. split.
  - apply (path_frame lk); [|done]. intros a Ha. apply Hf; [set_solver|].
    intros ->. apply NoDup_app in Hnd as (_ & Hd & _). apply (Hd e Ha). set_solver.
  - destruct l2' as [|y l2']; simpl in *; by split.
Qed.

Lemma path_tail lk d l1 l2 : ring lk d (l1 ++ l2) → path lk (l2 ++ [d]).
Proof.
  unfold ring. rewrite <- app_assoc. destruct l2 as [|y l2]; [done|].
  change (d :: l1 ++ ?r) with ((d :: l1) ++ r). simpl. intros [_ H]%(path_app lk (d :: l1)). done.
Qed.

Lemma ring_del lk lk' d l1 x l2 :
  ring lk d (l1 ++ x :: l2) → NoDup (d :: l1 ++ x :: l2) →
  (∀ a, a ∈ d :: l1 ++ l2 → a ≠ pred d l1 → lk' !! a = lk !! a) →
  lk' !! (pred d l1) = Some (succ d l2) → ring lk' d (l1 ++ l2).
Proof.
  intros Hr Hnd Hf Hl. change (d :: l1 ++ ?r) with ((d :: l1) ++ r) in Hnd. apply NoDup_app in Hnd as (H1 & H2 & H3).
  eapply ring_join; [exact Hr|done| |done|].
  - intros a Ha. apply Hf. set_solver.
  - rewrite (cons_middle x l1 l2), app_assoc in Hr. apply path_tail in Hr.
    apply (path_frame lk); [|done]. intros a Ha. apply Hf; [set_solver|]. intros ->.
    apply (H2 (pred d l1)); [apply pred_elem|set_solver].
Qed.
Lemma ring_add lk lk' d l1 x l2 :
  ring lk d (l1 ++ l2) → NoDup (d :: l1 ++ l2) →
  (∀ a, a ∈ d :: l1 ++ l2 → a ≠ pred d l1 → lk' !! a = lk !! a) →
  lk' !! (pred d l1) = Some x → lk' !! x = Some (succ d l2) → ring lk' d (l1 ++ x :: l2).
Proof.
  intros Hr Hnd Hf Hl Hx. change (d :: l1 ++ ?r) with ((d :: l1) ++ r) in Hnd. apply NoDup_app in Hnd as (H1 & H2 & H3).
  eapply ring_join; [exact Hr|done| |done|].
  - intros a Ha. apply Hf. set_solver.
  - apply path_tail in Hr. assert (Hp : path lk' (l2 ++ [d])).
    { apply (path_frame lk); [|done]. intros a Ha. apply Hf; [set_solver|]. intros ->.
      apply (H2 (pred d l1)); [apply pred_elem|set_solver]. }
    destruct l2 as [|y l2]; simpl in *; by split.
Qed.

End Ring.

(** ** Families of queues

    [rings n fw bk heads hl]: the heads [heads], which are numbers from [n]
    on, have disjoint queues [hl] of nodes below [n]. *)
Record rings (n : nat) (fw bk : list nat) (heads : list nat) (hl : nat → list nat) : Prop := Rings {
  rg_fw : ∀ d, d ∈ heads → ring fw d (hl d);
  rg_bk : ∀ d, d ∈ heads → ring bk d (reverse (hl d));
  rg_nodup : ∀ d, d ∈ heads → NoDup (hl d);
  rg_disj : ∀ d d' x, d ∈ heads → d' ∈ heads → x ∈ hl d → x ∈ hl d' → d = d';
  rg_member : ∀ d x, d ∈ heads → x ∈ hl d → (x < n)%nat;
  rg_heads : ∀ d, d ∈ heads → (n ≤ d)%nat }.

Section Rings.
Context (n : nat) (heads : list nat).
Implicit Types (fw bk : list nat) (hl : nat → list nat) (d x : nat).

Lemma rings_nodup fw bk hl d : rings n fw bk heads hl → d ∈ heads → NoDup (d :: hl d).
Proof.
  intros Hr Hd. apply NoDup_cons. split; [|by eapply rg_nodup].
  intros Hx. pose proof (rg_member _ _ _ _ _ Hr d d Hd Hx). pose proof (rg_heads _ _ _ _ _ Hr d Hd). lia.
Qed.

(** What the links of a member are. *)
Lemma rings_links fw bk hl d x :
  rings n fw bk heads hl → d ∈ heads → x ∈ hl d →
  ∃ l1 l2, hl d = l1 ++ x :: l2 ∧ fw !! x = Some (succ d l2) ∧ bk !! x = Some (pred d l1) ∧
    fw !! (pred d l1) = Some x ∧ bk !! (succ d l2) = Some x ∧ pred d l1 ≠ x ∧ succ d l2 ≠ x.
Proof.
  intros Hr Hd Hx. pose proof (rings_nodup _ _ _ _ Hr Hd) as Hnd.
  pose proof (rg_fw _ _ _ _ _ Hr d Hd) as Hf. pose proof (rg_bk _ _ _ _ _ Hr d Hd) as Hb.
  apply list_elem_of_split in Hx as (l1 & l2 & E). rewrite E in *. exists l1, l2.
  rewrite reverse_app, reverse_cons, <- app_assoc in Hb. simpl in Hb.
  change (d :: l1 ++ ?r) with ((d :: l1) ++ r) in Hnd. pose proof Hnd as (_ & Hn & Hn2)%NoDup_app.
  split; [done|]. split; [by eapply ring_next|]. split; [rewrite <- succ_reverse; by eapply ring_next|].
  split; [by apply ring_at in Hf|]. split; [rewrite <- pred_reverse; by apply ring_at in Hb|]. split.
  - intros E'. apply (Hn (pred d l1)); [apply pred_elem|rewrite E'; set_solver].
  - intros E'. pose proof (succ_elem d l2) as Hs. rewrite E' in Hs.
    apply elem_of_cons in Hs as [->|Hs]; [apply (Hn d); set_solver|].
    by apply NoDup_cons in Hn2 as [? _].
Qed.

Lemma rings_head fw bk hl d :
  rings n fw bk heads hl → d ∈ heads → fw !! d = Some (succ d (hl d)) ∧ bk !! d = Some (pred d (hl d)) ∧
    bk !! (succ d (hl d)) = Some d ∧ fw !! (pred d (hl d)) = Some d.
Proof.
  intros Hr Hd. pose proof (rg_fw _ _ _ _ _ Hr d Hd) as Hf. pose proof (rg_bk _ _ _ _ _ Hr d Hd) as Hb.
  split_and!.
  - apply (ring_at fw d [] (hl d)). done.
  - rewrite <- succ_reverse. apply (ring_at bk d [] (reverse (hl d))). done.
  - rewrite <- pred_reverse. rewrite <- (app_nil_r (reverse _)) in Hb. apply (ring_at bk d (reverse (hl d)) []) in Hb. done.
  - rewrite <- (app_nil_r (hl d)) in Hf. apply (ring_at fw d (hl d) []) in Hf. done.
Qed.

(** Only the links of heads and members matter. *)
Lemma rings_frame fw bk fw' bk' hl :
  (∀ d a, d ∈ heads → a ∈ d :: hl d → fw' !! a = fw !! a ∧ bk' !! a = bk !! a) →
  rings n fw bk heads hl → rings n fw' bk' heads hl.
Proof.
  intros Hf Hr. split; [| |apply Hr..].
  - intros d Hd. eapply ring_frame; [|by apply Hr]. intros a Ha. by apply (Hf d a).
  - intros d Hd. eapply ring_frame; [|by apply Hr]. intros a Ha. apply (Hf d a); [done|]. set_solver.
Qed.

(** A change to one queue; the rest of the links stays. *)
Lemma rings_update fw bk fw' bk' hl d l' :
  rings n fw bk heads hl → d ∈ heads →
  ring fw' d l' → ring bk' d (reverse l') → NoDup l' →
  (∀ x, x ∈ l' → (x < n)%nat ∧ ∀ d', d' ∈ heads → d' ≠ d → x ∉ hl d') →
  (∀ d' a, d' ∈ heads → d' ≠ d → a ∈ d' :: hl d' → fw' !! a = fw !! a ∧ bk' !! a = bk !! a) →
  rings n fw' bk' heads (<[d := l']> hl).
Proof.
  intros Hr Hd Hf Hb Hnd Hm Hfr. split.
  - intros e He. destruct (decide (e = d)) as [->|Hne]; [by rewrite fn_lookup_insert|].
    rewrite fn_lookup_insert_ne by done. eapply ring_frame; [|by apply Hr]. intros a Ha. by apply (Hfr e a).
  - intros e He. destruct (decide (e = d)) as [->|Hne]; [by rewrite fn_lookup_insert|].
    rewrite fn_lookup_insert_ne by done. eapply ring_frame; [|by apply Hr]. intros a Ha. apply (Hfr e a); set_solver.
  - intros e He. destruct (decide (e = d)) as [->|Hne]; [by rewrite fn_lookup_insert|].
    rewrite fn_lookup_insert_ne by done. by apply Hr.
  - intros e e' x He He'. destruct (decide (e = d)) as [->|Hne], (decide (e' = d)) as [->|Hne'];
      rewrite ?fn_lookup_insert, ?fn_lookup_insert_ne by done; intros H1 H2; [done| | |].
    + by apply (Hm x H1) in H2.
    + by apply (Hm x H2) in H1.
    + by eapply rg_disj.
  - intros e x He. destruct (decide (e = d)) as [->|Hne]; rewrite ?fn_lookup_insert, ?fn_lookup_insert_ne by done.
    + intros Hx. by apply (Hm x Hx).
    + by eapply rg_member.
  - apply Hr.
Qed.

(** Nodes of other queues are not touched. *)
Lemma rings_other fw bk hl d d' a b :
  rings n fw bk heads hl → d ∈ heads → d' ∈ heads → d' ≠ d → a ∈ d' :: hl d' → b ∈ d :: hl d → a ≠ b.
Proof.
  intros Hr Hd Hd' Hne Ha Hb ->.
  pose proof (rg_heads _ _ _ _ _ Hr d Hd). pose proof (rg_heads _ _ _ _ _ Hr d' Hd').
  apply elem_of_cons in Ha as [->|Ha], Hb as [E|Hb]; try done.
  - pose proof (rg_member _ _ _ _ _ Hr _ _ Hd Hb). lia.
  - subst. pose proof (rg_member _ _ _ _ _ Hr _ _ Hd' Ha). lia.
  - apply Hne. by eapply rg_disj.
Qed.

(** Taking the member [x] off its queue. *)
Lemma rings_del fw bk hl d l1 x l2 :
  rings n fw bk heads hl → d ∈ heads → hl d = l1 ++ x :: l2 →
  rings n (<[pred d l1 := succ d l2]> fw) (<[succ d l2 := pred d l1]> bk) heads (<[d := l1 ++ l2]> hl).
Proof.
  intros Hr Hd E. pose proof (rings_nodup _ _ _ _ Hr Hd) as Hnd.
  pose proof (rg_fw _ _ _ _ _ Hr d Hd) as Hf. pose proof (rg_bk _ _ _ _ _ Hr d Hd) as Hb. rewrite E in *.
  pose proof (ring_at _ _ _ _ Hf) as Hlf. rewrite reverse_app, reverse_cons, <- app_assoc in Hb. simpl in Hb.
  pose proof (ring_at _ _ _ _ Hb) as Hlb. rewrite pred_reverse in Hlb.
  assert (Hi1 : pred d l1 ∈ d :: hl d) by (rewrite E; pose proof (pred_elem d l1); set_solver).
  assert (Hi2 : succ d l2 ∈ d :: hl d) by (rewrite E; pose proof (succ_elem d l2); set_solver).
  apply rings_update with (fw := fw) (bk := bk); [done|done| | | | |].
  - eapply ring_del; [done|done| |].
    + intros a _ Ha. by rewrite list_lookup_insert_ne.
    + apply list_lookup_insert_eq. by eapply lookup_lt_Some.
  - rewrite reverse_app. eapply ring_del; [done| | |].
    + rewrite NoDup_cons in Hnd |- *. destruct Hnd as [Hn1 Hn2]. split; [set_solver|].
      rewrite (cons_middle x), app_assoc, <- reverse_cons, <- reverse_app. by apply NoDup_rev.
    + intros a _ Ha. rewrite pred_reverse in Ha. by rewrite list_lookup_insert_ne.
    + rewrite pred_reverse, succ_reverse. apply list_lookup_insert_eq. by eapply lookup_lt_Some.
  - apply NoDup_cons in Hnd as [_ Hnd]. by rewrite <- Permutation_middle, NoDup_cons in Hnd; destruct Hnd.
  - intros y Hy. assert (Hy' : y ∈ hl d) by (rewrite E; set_solver). split; [by eapply rg_member|].
    intros d' Hd' Hne Hy2. apply Hne. by eapply rg_disj.
  - intros d' a Hd' Hne Ha. split; (rewrite list_lookup_insert_ne; [done|]); apply not_eq_sym; by apply (rings_other fw bk hl d d').
Qed.

(** Putting a new member [x] between two parts of a queue. *)
Lemma rings_add fw bk fw' bk' hl d l1 x l2 :
  rings n fw bk heads hl → d ∈ heads → hl d = l1 ++ l2 → (x < n)%nat → (∀ e, e ∈ heads → x ∉ hl e) →
  (∀ a, a ≠ x → a ≠ pred d l1 → fw' !! a = fw !! a) → (∀ a, a ≠ x → a ≠ succ d l2 → bk' !! a = bk !! a) →
  fw' !! (pred d l1) = Some x → fw' !! x = Some (succ d l2) → bk' !! (succ d l2) = Some x → bk' !! x = Some (pred d l1) →
  rings n fw' bk' heads (<[d := l1 ++ x :: l2]> hl).
Proof.
  intros Hr Hd E Hx Hnew Ff Fb L1 L2 L3 L4. pose proof (rings_nodup _ _ _ _ Hr Hd) as Hnd.
  pose proof (rg_fw _ _ _ _ _ Hr d Hd) as Hf. pose proof (rg_bk _ _ _ _ _ Hr d Hd) as Hb. rewrite E in *.
  rewrite reverse_app in Hb.
  assert (Hxd : ∀ e a, e ∈ heads → a ∈ e :: hl e → a ≠ x).
  { intros e a He [->|Ha]%elem_of_cons ->; [|by eapply Hnew]. pose proof (rg_heads _ _ _ _ _ Hr x He). lia. }
  assert (Hi1 : pred d l1 ∈ d :: hl d) by (rewrite E; pose proof (pred_elem d l1); set_solver).
  assert (Hi2 : succ d l2 ∈ d :: hl d) by (rewrite E; pose proof (succ_elem d l2); set_solver).
  pose proof (NoDup_cons_1_2 _ _ Hnd) as Hnd2.
  apply rings_update with (fw := fw) (bk := bk); [done|done| | | | |].
  - eapply ring_add; [done|done| |done|done]. intros a Ha. apply Ff. apply (Hxd d a Hd). by rewrite E.
  - rewrite reverse_app, reverse_cons, <- app_assoc. eapply ring_add; [done| | |by rewrite pred_reverse|by rewrite succ_reverse].
    + rewrite <- reverse_app. apply NoDup_cons in Hnd as [Hn1 Hn2]. apply NoDup_cons. split; [set_solver|by apply NoDup_rev].
    + intros a Ha Hne. apply Fb; [|by rewrite pred_reverse in Hne]. apply (Hxd d a Hd). rewrite E. set_solver.
  - rewrite <- Permutation_middle. apply NoDup_cons. split; [|done]. rewrite <- E. by apply Hnew.
  - intros y Hy. destruct (decide (y = x)) as [->|Hne]; [split; auto|].
    assert (Hy' : y ∈ hl d) by (rewrite E; set_solver). split; [by eapply rg_member|].
    intros d' Hd' Hne' Hy2. apply Hne'. by eapply rg_disj.
  - intros d' a Hd' Hne Ha. split; [apply Ff|apply Fb]; try (by eapply Hxd); by apply (rings_other fw bk hl d d').
Qed.

Lemma rings_lookup fw bk hl d x :
  rings n fw bk heads hl → d ∈ heads → x ∈ d :: hl d → is_Some (fw !! x) ∧ is_Some (bk !! x).
Proof.
  intros Hr Hd [->|Hx]%elem_of_cons.
  - destruct (rings_head _ _ _ _ Hr Hd) as (-> & -> & _). split; eauto.
  - destruct (rings_links _ _ _ _ _ Hr Hd Hx) as (l1 & l2 & _ & -> & -> & _). split; eauto.
Qed.
End Rings.
