(* ===== verification/Bio.v ===== *)
(** * The buffer cache

    kernel/ufs_bio.c with the queue macros of include/buf.h, the set-up of the
    queues in kernel/init_main.c ([bhinit], [binit]) and the strategy routine
    of the disks ([rdstrategy] of kernel/rdisk.c), which does its transfer
    before it returns. *)
From stdpp Require Import base tactics list option strings numbers gmap.
From S2P Require Import Prelude.
Open Scope Z_scope.

(** ** Data *)
Definition B_READ : Z := 0x00001.
Definition B_DONE : Z := 0x00002.
Definition B_ERROR : Z := 0x00004.
Definition B_BUSY : Z := 0x00008.
Definition B_PHYS : Z := 0x00010.
Definition B_WANTED : Z := 0x00040.
Definition B_AGE : Z := 0x00080.
Definition B_ASYNC : Z := 0x00100.
Definition B_DELWRI : Z := 0x00200.
Definition B_TAPE : Z := 0x00400.
Definition B_INVAL : Z := 0x00800.
Definition B_LOCKED : Z := 0x02000.
Definition B_RAMREMAP : Z := 0x08000.

Definition NBUF : nat := 10.
Definition BQUEUES : nat := 3.
Definition BQ_LOCKED : nat := 0.
Definition BQ_LRU : nat := 1.
Definition BQ_AGE : nat := 2.
Definition BUFHSZ : nat := 16.
Definition DEV_BSIZE : Z := 1024.
Definition NODEV : Z := -1.
Definition EIO : Z := 5.

(** [struct buf].  A pointer is the index of a node of the table [bufs]; an
    index outside it stands for a pointer that may not be followed. *)
Record buf := Buf {
  b_flags : Z;
  b_forw : nat;
  b_back : nat;
  av_forw : nat;
  av_back : nat;
  b_bcount : Z;
  b_error : Z;
  b_dev : Z;
  b_addr : nat;
  b_blkno : Z;
  b_resid : Z }.

#[global] Instance eta_buf : Eta buf := λ b,
  Buf (b_flags b) (b_forw b) (b_back b) (av_forw b) (av_back b) (b_bcount b) (b_error b) (b_dev b) (b_addr b)
    (b_blkno b) (b_resid b).

(** The nodes of the queues: [buf[NBUF]], the heads [bfreelist[BQUEUES]], and
    the heads [bufhash[BUFHSZ]], of which only the first three words exist. *)
Definition bfreelist (q : nat) : nat := NBUF + q.
Definition bufhash (h : nat) : nat := NBUF + BQUEUES + h.
Definition BUFHASH (dev bn : Z) : nat := bufhash (Z.to_nat (Z.land (dev + bn) 15)).

Definition major (x : Z) : Z := Z.land (Z.shiftr x 8) 255.
Definition minor (x : Z) : Z := Z.land x 255.

(** The contents of a block are its 256 words.  [media] holds what is on each
    disk, by disk and block; [bufdata] is the memory of the buffers; [starts]
    the first blocks of the partitions of each disk. [wakes] lists the
    channels on which [wakeup] was called, the last one first. *)
Definition block : Type := list Z.
Record bstate := BState {
  bufs : list buf;
  bufdata : list block;
  media : gmap (Z * Z) block;
  starts : list (list Z);
  ru_inblock : Z;
  ru_oublock : Z;
  u_error : Z;
  wakes : list nat }.

#[global] Instance eta_bstate : Eta bstate := λ s,
  BState (bufs s) (bufdata s) (media s) (starts s) (ru_inblock s) (ru_oublock s) (u_error s) (wakes s).

Notation M := (K bstate).

(** What the cache uses of the rest of the system: the number of disks and
    which of them are read-only, the drivers' transfers (the result and the
    data read, or the medium after the write; a result of 0 is a failure), the
    strategy routines of other block devices, and [sleep], during which other
    processes run. *)
Class Disks := {
  nrdsk : Z;
  readonly : Z → bool;
  tape : Z → bool;
  disk_read : Z → Z → Z → gmap (Z * Z) block → block → Z * block;
  disk_write : Z → Z → Z → block → gmap (Z * Z) block → Z * gmap (Z * Z) block;
  other_strategy : nat → M unit;
  sleep : nat → M unit }.

Definition buf_at (i : nat) : M buf := l ← gets bufs; lift (rd l i).
Definition setb (i : nat) (f : buf → buf) : M unit :=
  b ← buf_at i; l ← gets bufs; l ← lift (wr l i (f b)); modify (λ s, s<|bufs := l|>).
Definition set_flags (i : nat) (m : Z) : M unit := setb i (λ b, b<|b_flags ::= λ f, Z.lor f m|>).
Definition clear_flags (i : nat) (m : Z) : M unit := setb i (λ b, b<|b_flags ::= λ f, bic f m|>).
Definition wakeup (chan : nat) : M unit := modify (λ s, s<|wakes ::= cons chan|>).

(** The memory of a buffer, [bp->b_addr], as its user reads and fills it. *)
Definition load (bp : nat) : M block := x ← buf_at bp; l ← gets bufdata; lift (rd l (b_addr x)).
Definition store (bp : nat) (d : block) : M unit :=
  x ← buf_at bp; l ← gets bufdata; l ← lift (wr l (b_addr x) d); modify (λ s, s<|bufdata := l|>).

(** ** Queues *)
Definition bremhash (bp : nat) : M unit :=
  x ← buf_at bp; setb (b_back x) (λ y, y<|b_forw := b_forw x|>);;
  x ← buf_at bp; setb (b_forw x) (λ y, y<|b_back := b_back x|>).
Definition binshash (bp dp : nat) : M unit :=
  d ← buf_at dp; setb bp (λ x, x<|b_forw := b_forw d|>);;
  setb bp (λ x, x<|b_back := dp|>);;
  d ← buf_at dp; setb (b_forw d) (λ y, y<|b_back := bp|>);;
  setb dp (λ d, d<|b_forw := bp|>).
Definition bremfree (bp : nat) : M unit :=
  x ← buf_at bp; setb (av_back x) (λ y, y<|av_forw := av_forw x|>);;
  x ← buf_at bp; setb (av_forw x) (λ y, y<|av_back := av_back x|>).
Definition binsheadfree (bp dp : nat) : M unit :=
  d ← buf_at dp; setb (av_forw d) (λ y, y<|av_back := bp|>);;
  d ← buf_at dp; setb bp (λ x, x<|av_forw := av_forw d|>);;
  setb dp (λ d, d<|av_forw := bp|>);;
  setb bp (λ x, x<|av_back := dp|>).
Definition binstailfree (bp dp : nat) : M unit :=
  d ← buf_at dp; setb (av_back d) (λ y, y<|av_forw := bp|>);;
  d ← buf_at dp; setb bp (λ x, x<|av_back := av_back d|>);;
  setb dp (λ d, d<|av_back := bp|>);;
  setb bp (λ x, x<|av_forw := dp|>).
Definition notavail (bp : nat) : M unit := bremfree bp;; set_flags bp B_BUSY.

(** ** Releasing a buffer *)
(** The buffer goes back on a free list. *)
Definition brelse_queue (bp : nat) : M unit :=
  x ← buf_at bp;
  (if has (b_flags x) B_ERROR then
     if has (b_flags x) B_LOCKED then clear_flags bp B_ERROR
     else setb bp (λ x, x<|b_dev := NODEV|>)
   else mret tt);;
  x ← buf_at bp;
  (if has (b_flags x) (Z.lor B_ERROR B_INVAL) then binsheadfree bp (bfreelist BQ_AGE)
   else
     binstailfree bp (bfreelist (if has (b_flags x) B_LOCKED then BQ_LOCKED
                                 else if has (b_flags x) B_AGE then BQ_AGE else BQ_LRU)));;
  clear_flags bp (Z.lor (Z.lor B_WANTED B_BUSY) (Z.lor B_ASYNC B_AGE)).
(** Who waits for any buffer is woken up. *)
Definition wake_hungry : M unit :=
  f ← buf_at (bfreelist 0);
  if has (b_flags f) B_WANTED then clear_flags (bfreelist 0) B_WANTED;; wakeup (bfreelist 0) else mret tt.
Definition brelse (bp : nat) : M unit :=
  x ← buf_at bp;
  (if has (b_flags x) B_WANTED then wakeup bp else mret tt);;
  wake_hungry;;
  brelse_queue bp.

(** ** Input and output *)
Definition geterror (x : buf) : Z :=
  if has (b_flags x) B_ERROR then if b_error x =? 0 then EIO else b_error x else 0.

Definition biodone (bp : nat) : M unit :=
  x ← buf_at bp;
  if has (b_flags x) B_DONE then panic "dup biodone"
  else
    set_flags bp B_DONE;;
    x ← buf_at bp;
    if has (b_flags x) B_ASYNC then brelse bp
    else clear_flags bp B_WANTED;; wakeup bp.

Section Bio.
Context `{Disks}.

(** [rdstrategy]: its lamps and disk statistics are left out. *)
Definition rdstrategy (bp : nat) : M unit :=
  x ← buf_at bp;
  let root := major (b_dev x) in
  if nrdsk - 1 <? root then mret tt
  else
    let part := minor (b_dev x) in
    offset ← (if 0 <? part then
                l ← gets starts; p ← lift (rdz l root); lift (rdz p (part - 1))
              else mret 0);
    let offset := u32 (offset + b_blkno x) in
    (if has (b_flags x) B_READ then
       m ← gets media; l ← gets bufdata; d ← lift (rd l (b_addr x));
       l ← lift (wr l (b_addr x) (disk_read root offset (b_bcount x) m d).2);
       modify (λ s, s<|bufdata := l|>)
     else if negb (readonly root) then
       m ← gets media; l ← gets bufdata; d ← lift (rd l (b_addr x));
       modify (λ s, s<|media := (disk_write root offset (b_bcount x) d m).2|>)
     else mret tt);;
    biodone bp.

(** [( *bdevsw[major(bp->b_dev)].d_strategy)(bp)]: the first four block
    devices are the disks. *)
Definition strategy (bp : nat) : M unit :=
  x ← buf_at bp; if major (b_dev x) <? 4 then rdstrategy bp else other_strategy bp.

Fixpoint biowait_loop (fuel : nat) (bp : nat) : M unit :=
  x ← buf_at bp;
  if has (b_flags x) B_DONE then mret tt
  else match fuel with O => lift Spin | S fuel => sleep bp;; biowait_loop fuel bp end.
Definition biowait (fuel : nat) (bp : nat) : M unit :=
  biowait_loop fuel bp;;
  e ← gets u_error;
  if e =? 0 then x ← buf_at bp; modify (λ s, s<|u_error := geterror x|>) else mret tt.

Definition bwrite (fuel : nat) (bp : nat) : M unit :=
  x ← buf_at bp;
  let flag := b_flags x in
  clear_flags bp (Z.lor (Z.lor B_READ B_DONE) (Z.lor B_ERROR B_DELWRI));;
  (if negb (has flag B_DELWRI) then modify (λ s, s<|ru_oublock ::= λ n, s32 (n + 1)|>) else mret tt);;
  setb bp (λ x, x<|b_bcount := DEV_BSIZE|>);;
  strategy bp;;
  if negb (has flag B_ASYNC) then biowait fuel bp;; brelse bp
  else if has flag B_DELWRI then set_flags bp B_AGE else mret tt.
Definition bawrite (fuel : nat) (bp : nat) : M unit := set_flags bp B_ASYNC;; bwrite fuel bp.

Definition bdwrite (fuel : nat) (bp : nat) : M unit :=
  x ← buf_at bp;
  (if negb (has (b_flags x) B_DELWRI) then modify (λ s, s<|ru_oublock ::= λ n, s32 (n + 1)|>) else mret tt);;
  if tape (major (b_dev x)) then bawrite fuel bp
  else set_flags bp (Z.lor B_DELWRI B_DONE);; brelse bp.

(** ** Finding a buffer *)
Definition is_block (x : buf) (dev blkno : Z) : bool :=
  (b_blkno x =? blkno) && (b_dev x =? dev) && negb (has (b_flags x) B_INVAL).

(** [for (bp = dp->b_forw; bp != dp; bp = bp->b_forw)]: the first buffer of a
    hash chain that holds the block. *)
Fixpoint hash_find (fuel : nat) (bp dp : nat) (dev blkno : Z) : M (option nat) :=
  if (bp =? dp)%nat then mret None
  else
    match fuel with
    | O => lift Spin
    | S fuel => x ← buf_at bp; if is_block x dev blkno then mret (Some bp) else hash_find fuel (b_forw x) dp dev blkno
    end.
Definition chain_find (dev blkno : Z) : M (option nat) :=
  let dp := BUFHASH dev blkno in
  d ← buf_at dp; n ← gets (λ s, length (bufs s)); hash_find n (b_forw d) dp dev blkno.

Definition incore (dev blkno : Z) : M bool := r ← chain_find dev blkno; mret (bool_decide (r ≠ None)).

(** [for (dp = &bfreelist[BQ_AGE]; dp > bfreelist; dp--) if (dp->av_forw != dp) break;] *)
Fixpoint nonempty_queue (q : nat) : M (option nat) :=
  match q with
  | O => mret None
  | S p => d ← buf_at (bfreelist q); if (av_forw d =? bfreelist q)%nat then nonempty_queue p else mret (Some (bfreelist q))
  end.
Fixpoint getnewbuf (fuel : nat) : M nat :=
  match fuel with
  | O => lift Spin
  | S fuel =>
      q ← nonempty_queue BQ_AGE;
      match q with
      | None => set_flags (bfreelist 0) B_WANTED;; sleep (bfreelist 0);; getnewbuf fuel
      | Some dp =>
          d ← buf_at dp;
          let bp := av_forw d in
          notavail bp;;
          x ← buf_at bp;
          if has (b_flags x) B_DELWRI then bawrite fuel bp;; getnewbuf fuel
          else
            (if has (b_flags x) (Z.lor B_RAMREMAP B_PHYS) then setb bp (λ x, x<|b_addr := bp|>) else mret tt);;
            setb bp (λ x, x<|b_flags := B_BUSY|>);;
            mret bp
      end
  end.

Fixpoint getblk (fuel : nat) (dev blkno : Z) : M nat :=
  match fuel with
  | O => lift Spin
  | S fuel =>
      r ← chain_find dev blkno;
      match r with
      | Some bp =>
          x ← buf_at bp;
          if has (b_flags x) B_BUSY then set_flags bp B_WANTED;; sleep bp;; getblk fuel dev blkno
          else notavail bp;; mret bp
      | None =>
          bp ← getnewbuf fuel;
          setb bp (λ x, x<|b_bcount := 0|>);;
          bremhash bp;;
          binshash bp (BUFHASH dev blkno);;
          setb bp (λ x, x<|b_dev := dev|>);;
          setb bp (λ x, x<|b_blkno := blkno|>);;
          setb bp (λ x, x<|b_error := 0|>);;
          mret bp
      end
  end.

Definition geteblk (fuel : nat) : M nat :=
  bp ← getnewbuf fuel;
  set_flags bp B_INVAL;;
  setb bp (λ x, x<|b_bcount := 0|>);;
  bremhash bp;;
  binshash bp (bfreelist BQ_AGE);;
  setb bp (λ x, x<|b_dev := NODEV|>);;
  setb bp (λ x, x<|b_error := 0|>);;
  mret bp.

(** ** Reading *)

(** Start a read into [bp]. *)
Definition start_read (bp : nat) (flags : Z) : M unit :=
  set_flags bp flags;;
  setb bp (λ x, x<|b_bcount := DEV_BSIZE|>);;
  strategy bp;;
  modify (λ s, s<|ru_inblock ::= λ n, s32 (n + 1)|>).

Definition bread (fuel : nat) (dev blkno : Z) : M nat :=
  bp ← getblk fuel dev blkno;
  x ← buf_at bp;
  if has (b_flags x) (Z.lor B_DONE B_DELWRI) then mret bp
  else start_read bp B_READ;; biowait fuel bp;; mret bp.

(** Start a read of the next block, for nobody in particular. *)
Definition readahead (fuel : nat) (dev rablkno : Z) : M unit :=
  if negb (rablkno =? 0) then
    in_ ← incore dev rablkno;
    if negb in_ then
      rabp ← getblk fuel dev rablkno;
      x ← buf_at rabp;
      if has (b_flags x) (Z.lor B_DONE B_DELWRI) then brelse rabp
      else start_read rabp (Z.lor B_READ B_ASYNC)
    else mret tt
  else mret tt.

Definition breada (fuel : nat) (dev blkno rablkno : Z) : M nat :=
  in_ ← incore dev blkno;
  bp ← (if negb in_ then
          bp ← getblk fuel dev blkno;
          x ← buf_at bp;
          (if has (b_flags x) (Z.lor B_DONE B_DELWRI) then mret tt else start_read bp B_READ);;
          mret (Some bp)
        else mret None);
  readahead fuel dev rablkno;;
  match bp with
  | None => bread fuel dev blkno
  | Some bp => biowait fuel bp;; mret bp
  end.

(** ** Flushing *)

(** The loop body of [blkflush] over a hash chain; [true]: start over. *)
Fixpoint blkflush_scan (fuel n : nat) (ep dp : nat) (dev blkno : Z) : M bool :=
  if (ep =? dp)%nat then mret false
  else
    match n with
    | O => lift Spin
    | S n =>
        x ← buf_at ep;
        if negb (is_block x dev blkno) then blkflush_scan fuel n (b_forw x) dp dev blkno
        else if has (b_flags x) B_BUSY then set_flags ep B_WANTED;; sleep ep;; mret true
        else if has (b_flags x) B_DELWRI then notavail ep;; bwrite fuel ep;; mret true
        else blkflush_scan fuel n (b_forw x) dp dev blkno
    end.
Fixpoint blkflush (fuel : nat) (dev blkno : Z) : M unit :=
  match fuel with
  | O => lift Spin
  | S fuel =>
      let dp := BUFHASH dev blkno in
      d ← buf_at dp; n ← gets (λ s, length (bufs s));
      r ← blkflush_scan fuel n (b_forw d) dp dev blkno;
      if (r : bool) then blkflush fuel dev blkno else mret tt
  end.

(** One free list of [bflush]: the first delayed write of the device, if
    any. *)
Fixpoint delayed (n : nat) (bp flist : nat) (dev : Z) : M (option nat) :=
  if (bp =? flist)%nat then mret None
  else
    match n with
    | O => lift Spin
    | S n => x ← buf_at bp; if has (b_flags x) B_DELWRI && (dev =? b_dev x) then mret (Some bp) else delayed n (av_forw x) flist dev
    end.
(** The free lists from [q] on, [k] of them. *)
Fixpoint delayed_any (k q : nat) (dev : Z) : M (option nat) :=
  match k with
  | O => mret None
  | S k =>
      d ← buf_at (bfreelist q); n ← gets (λ s, length (bufs s));
      r ← delayed n (av_forw d) (bfreelist q) dev;
      match r with Some bp => mret (Some bp) | None => delayed_any k (S q) dev end
  end.
Fixpoint bflush (fuel : nat) (dev : Z) : M unit :=
  match fuel with
  | O => lift Spin
  | S fuel =>
      r ← delayed_any BQUEUES 0 dev;
      match r with
      | None => mret tt
      | Some bp => set_flags bp B_ASYNC;; notavail bp;; bwrite fuel bp;; bflush fuel dev
      end
  end.

(** ** Invalidation *)
Fixpoint binval_chain (n : nat) (bp dp : nat) (dev : Z) : M unit :=
  if (bp =? dp)%nat then mret tt
  else
    match n with
    | O => lift Spin
    | S n =>
        x ← buf_at bp;
        (if b_dev x =? dev then set_flags bp B_INVAL else mret tt);;
        x ← buf_at bp; binval_chain n (b_forw x) dp dev
    end.
(** The chains [h], [h + 1], ..., [k] of them. *)
Fixpoint binval_from (k h : nat) (dev : Z) : M unit :=
  match k with
  | O => mret tt
  | S k =>
      d ← buf_at (bufhash h); n ← gets (λ s, length (bufs s));
      binval_chain n (b_forw d) (bufhash h) dev;; binval_from k (S h) dev
  end.
Definition binval (dev : Z) : M unit := binval_from BUFHSZ 0 dev.

(** ** The master boot record

    [read_mbr] of kernel/rdisk.c: the sector is read into a buffer from
    [getnewbuf]; when the transfer fails the code releases [buf], the first
    entry of the table. *)
Definition read_mbr (fuel : nat) (root : Z) : M (option nat) :=
  if nrdsk - 1 <? root then mret None
  else
    bp ← getnewbuf fuel;
    x ← buf_at bp;
    m ← gets media; l ← gets bufdata; d ← lift (rd l (b_addr x));
    let r := disk_read root 0 512 m d in
    l ← lift (wr l (b_addr x) r.2);
    modify (λ s, s<|bufdata := l|>);;
    if r.1 =? 0 then brelse 0;; mret None
    else mret (Some bp).

(** ** Initialization *)
Definition self_linked (i : nat) : M unit :=
  setb i (λ b, b<|b_forw := i|>);; setb i (λ b, b<|b_back := i|>).
Fixpoint bhinit_from (k h : nat) : M unit :=
  match k with O => mret tt | S k => self_linked (bufhash h);; bhinit_from k (S h) end.
Definition bhinit : M unit := bhinit_from BUFHSZ 0.
Fixpoint binit_heads (k q : nat) : M unit :=
  match k with
  | O => mret tt
  | S k =>
      self_linked (bfreelist q);;
      setb (bfreelist q) (λ b, b<|av_forw := bfreelist q|>);; setb (bfreelist q) (λ b, b<|av_back := bfreelist q|>);;
      binit_heads k (S q)
  end.
Fixpoint binit_bufs (k i : nat) : M unit :=
  match k with
  | O => mret tt
  | S k =>
      setb i (λ b, b<|b_dev := NODEV|>);;
      setb i (λ b, b<|b_bcount := 0|>);;
      setb i (λ b, b<|b_addr := i|>);;
      binshash i (bfreelist BQ_AGE);;
      setb i (λ b, b<|b_flags := Z.lor B_BUSY B_INVAL|>);;
      brelse i;;
      binit_bufs k (S i)
  end.
Definition binit : M unit := binit_heads BQUEUES 0;; binit_bufs NBUF 0.
End Bio.
