(* ===== verification/Cache.v ===== *)
(** * Correctness of the buffer cache

    The cache of Bio.v implements an array of blocks: what is read is what was
    last written, whatever is in memory and whatever is still to be written
    to the disk. *)
From stdpp Require Import functions.
From stdpp Require Import base tactics list option strings numbers gmap.
From S2P Require Import Prelude Ring Bio.
Open Scope Z_scope.

(** ** Views of the table of nodes

    The four arrays of links, and the buffers without their links. *)
Definition strip (b : buf) : buf := b<|b_forw := 0%nat|><|b_back := 0%nat|><|av_forw := 0%nat|><|av_back := 0%nat|>.
Record links := Links { lF : list nat; lB : list nat; lAF : list nat; lAB : list nat; lC : list buf }.
#[global] Instance eta_links : Eta links := λ k, Links (lF k) (lB k) (lAF k) (lAB k) (lC k).
Definition proj (l : list buf) : links :=
  Links (b_forw <$> l) (b_back <$> l) (av_forw <$> l) (av_back <$> l) (take NBUF (strip <$> l)).

Definition st (s : bstate) (l : list buf) : bstate := s<|bufs := l|>.

Section Access.
Implicit Types (s : bstate) (l : list buf) (b x y : buf) (i : nat).

Lemma st_id s : st s (bufs s) = s.
Proof. by destruct s. Qed.

Lemma wp_st {T} (m : M T) (Q : T → bstate → Prop) s : wp m Q (st s (bufs s)) → wp m Q s.
Proof. by rewrite st_id. Qed.

Lemma wp_buf_at s l i b (Q : buf → bstate → Prop) : l !! i = Some b → Q b (st s l) → wp (buf_at i) Q (st s l).
Proof. intros Hi HQ. unfold buf_at. wp_go. eapply wp_lift; [by apply rd_Done|done]. Qed.
Lemma wp_setb s l i b f (Q : unit → bstate → Prop) :
  l !! i = Some b → Q tt (st s (<[i := f b]> l)) → wp (setb i f) Q (st s l).
Proof.
  intros Hi HQ. unfold setb. wp_go. eapply wp_buf_at; [done|]. wp_go.
  eapply wp_lift; [apply wr_Done; by eapply lookup_lt_Some|]. wp_go. exact HQ.
Qed.

Lemma fmap_insert_same {A} (g : buf → A) l i b b' : l !! i = Some b → g b' = g b → g <$> <[i := b']> l = g <$> l.
Proof. intros Hi Hg. rewrite list_fmap_insert, Hg. apply list_insert_id. by rewrite list_lookup_fmap, Hi. Qed.
Lemma take_strip_same l i b b' : l !! i = Some b → strip b' = strip b → take NBUF (strip <$> <[i := b']> l) = take NBUF (strip <$> l).
Proof. intros Hi Hg. by rewrite (fmap_insert_same strip l i b b'). Qed.

Lemma proj_forw l i b v : l !! i = Some b → proj (<[i := b<|b_forw := v|>]> l) = (proj l)<|lF ::= <[i := v]>|>.
Proof.
  intros Hi. unfold proj, field_map; simpl.
  rewrite (fmap_insert_same b_back l i b), (fmap_insert_same av_forw l i b), (fmap_insert_same av_back l i b), (take_strip_same l i b) by done.
  by rewrite list_fmap_insert.
Qed.
Lemma proj_back l i b v : l !! i = Some b → proj (<[i := b<|b_back := v|>]> l) = (proj l)<|lB ::= <[i := v]>|>.
Proof.
  intros Hi. unfold proj, field_map; simpl.
  rewrite (fmap_insert_same b_forw l i b), (fmap_insert_same av_forw l i b), (fmap_insert_same av_back l i b), (take_strip_same l i b) by done.
  by rewrite list_fmap_insert.
Qed.
Lemma proj_aforw l i b v : l !! i = Some b → proj (<[i := b<|av_forw := v|>]> l) = (proj l)<|lAF ::= <[i := v]>|>.
Proof.
  intros Hi. unfold proj, field_map; simpl.
  rewrite (fmap_insert_same b_back l i b), (fmap_insert_same b_forw l i b), (fmap_insert_same av_back l i b), (take_strip_same l i b) by done.
  by rewrite list_fmap_insert.
Qed.
Lemma proj_aback l i b v : l !! i = Some b → proj (<[i := b<|av_back := v|>]> l) = (proj l)<|lAB ::= <[i := v]>|>.
Proof.
  intros Hi. unfold proj, field_map; simpl.
  rewrite (fmap_insert_same b_back l i b), (fmap_insert_same b_forw l i b), (fmap_insert_same av_forw l i b), (take_strip_same l i b) by done.
  by rewrite list_fmap_insert.
Qed.
(** A change of something else, in a buffer or in a head. *)
Lemma proj_core l i b b' :
  l !! i = Some b → (b_forw b', b_back b', av_forw b', av_back b') = (b_forw b, b_back b, av_forw b, av_back b) →
  (i < NBUF)%nat → proj (<[i := b']> l) = (proj l)<|lC ::= <[i := strip b']>|>.
Proof.
  intros Hi [= E1 E2 E3 E4] Hlt. unfold proj, field_map; simpl.
  rewrite (fmap_insert_same b_back l i b), (fmap_insert_same b_forw l i b), (fmap_insert_same av_forw l i b), (fmap_insert_same av_back l i b) by done.
  by rewrite list_fmap_insert, take_insert_lt.
Qed.
Lemma proj_head l i b b' :
  l !! i = Some b → (b_forw b', b_back b', av_forw b', av_back b') = (b_forw b, b_back b, av_forw b, av_back b) →
  (NBUF ≤ i)%nat → proj (<[i := b']> l) = proj l.
Proof.
  intros Hi [= E1 E2 E3 E4] Hlt. unfold proj.
  rewrite (fmap_insert_same b_back l i b), (fmap_insert_same b_forw l i b), (fmap_insert_same av_forw l i b), (fmap_insert_same av_back l i b) by done.
  by rewrite list_fmap_insert, take_insert_ge.
Qed.

Lemma proj_lookup l i b : l !! i = Some b →
  lF (proj l) !! i = Some (b_forw b) ∧ lB (proj l) !! i = Some (b_back b) ∧
  lAF (proj l) !! i = Some (av_forw b) ∧ lAB (proj l) !! i = Some (av_back b).
Proof. intros Hi. simpl. by rewrite !list_lookup_fmap, Hi. Qed.
Lemma proj_core_lookup l i b : l !! i = Some b → (i < NBUF)%nat → lC (proj l) !! i = Some (strip b).
Proof. intros Hi Hlt. simpl. rewrite lookup_take_lt by done. by rewrite list_lookup_fmap, Hi. Qed.
Lemma proj_core_inv l i c : lC (proj l) !! i = Some c → ∃ b, l !! i = Some b ∧ strip b = c ∧ (i < NBUF)%nat.
Proof.
  simpl. intros Hc. pose proof (lookup_lt_Some _ _ _ Hc) as Hlt. rewrite length_take in Hlt.
  assert (Hlt' : (i < NBUF)%nat) by lia. clear Hlt. rewrite lookup_take_lt in Hc by done. rewrite list_lookup_fmap in Hc.
  destruct (l !! i) as [b|] eqn:Hb; simplify_eq/=. by exists b.
Qed.
End Access.

(** ** The queue macros *)
Section Queues.
Implicit Types (s : bstate) (l : list buf) (x : buf) (Q : unit → bstate → Prop).

Lemma wp_bremhash s l bp x Q :
  l !! bp = Some x → (b_back x < length l)%nat → (b_forw x < length l)%nat → b_back x ≠ bp →
  (∀ l', proj l' = (proj l)<|lF ::= <[b_back x := b_forw x]>|><|lB ::= <[b_forw x := b_back x]>|> → Q tt (st s l')) →
  wp (bremhash bp) Q (st s l).
Proof.
  intros Hx Hb Hf Hne HQ. unfold bremhash. apply wp_bind. eapply wp_buf_at; [done|].
  destruct (lookup_lt_is_Some_2 _ _ Hb) as [y Hy]. apply wp_bind. eapply wp_setb; [done|].
  apply wp_bind. eapply wp_buf_at; [by rewrite list_lookup_insert_ne|].
  destruct (lookup_lt_is_Some_2 (<[b_back x := y<|b_forw := b_forw x|>]> l) (b_forw x)) as [z Hz]; [by rewrite length_insert|].
  eapply wp_setb; [done|]. apply HQ. rewrite (proj_back _ _ z) by done. by rewrite (proj_forw l _ y).
Qed.
Lemma wp_bremfree s l bp x Q :
  l !! bp = Some x → (av_back x < length l)%nat → (av_forw x < length l)%nat → av_back x ≠ bp →
  (∀ l', proj l' = (proj l)<|lAF ::= <[av_back x := av_forw x]>|><|lAB ::= <[av_forw x := av_back x]>|> → Q tt (st s l')) →
  wp (bremfree bp) Q (st s l).
Proof.
  intros Hx Hb Hf Hne HQ. unfold bremfree. apply wp_bind. eapply wp_buf_at; [done|].
  destruct (lookup_lt_is_Some_2 _ _ Hb) as [y Hy]. apply wp_bind. eapply wp_setb; [done|].
  apply wp_bind. eapply wp_buf_at; [by rewrite list_lookup_insert_ne|].
  destruct (lookup_lt_is_Some_2 (<[av_back x := y<|av_forw := av_forw x|>]> l) (av_forw x)) as [z Hz]; [by rewrite length_insert|].
  eapply wp_setb; [done|]. apply HQ. rewrite (proj_aback _ _ z) by done. by rewrite (proj_aforw l _ y).
Qed.

(** Reading a node of a changed table. *)
Lemma insert_lookup l i b j y :
  l !! i = Some b → l !! j = Some y → ∀ b', ∃ z, <[i := b']> l !! j = Some z ∧ (z = if decide (i = j) then b' else y).
Proof.
  intros Hi Hj b'. case_decide as E.
  - subst. exists b'. split; [|done]. apply list_lookup_insert_eq. by eapply lookup_lt_Some.
  - exists y. split; [|done]. by rewrite list_lookup_insert_ne.
Qed.

Lemma wp_binshash s l bp dp x d Q :
  l !! bp = Some x → l !! dp = Some d → bp ≠ dp → (b_forw d < length l)%nat →
  (∀ l', proj l' = (proj l)<|lF ::= λ F, <[dp := bp]> (<[bp := b_forw d]> F)|>
                          <|lB ::= λ B, <[b_forw d := bp]> (<[bp := dp]> B)|> → Q tt (st s l')) →
  wp (binshash bp dp) Q (st s l).
Proof.
  intros Hx Hd Hne Hf HQ. unfold binshash. apply wp_bind. eapply wp_buf_at; [done|].
  apply wp_bind. eapply wp_setb; [done|]. set (l1 := <[bp := _]> l).
  assert (H1 : l1 !! bp = Some (x<|b_forw := b_forw d|>)) by (apply list_lookup_insert_eq; by eapply lookup_lt_Some).
  apply wp_bind. eapply wp_setb; [done|]. set (l2 := <[bp := _]> l1).
  assert (H2 : l2 !! dp = Some d) by (unfold l2, l1; by rewrite !list_lookup_insert_ne).
  apply wp_bind. eapply wp_buf_at; [done|]. apply wp_bind.
  destruct (lookup_lt_is_Some_2 l2 (b_forw d)) as [z Hz]; [unfold l2, l1; by rewrite !length_insert|].
  eapply wp_setb; [done|]. destruct (insert_lookup l2 _ _ _ _ Hz H2 (z<|b_back := bp|>)) as (w & Hw & _).
  eapply wp_setb; [exact Hw|]. apply HQ. rewrite (proj_forw _ _ w) by done. rewrite (proj_back _ _ z) by done.
  unfold l2. rewrite (proj_back _ _ (x<|b_forw := b_forw d|>)) by done. unfold l1. by rewrite (proj_forw l _ x).
Qed.

Lemma wp_binsheadfree s l bp dp x d Q :
  l !! bp = Some x → l !! dp = Some d → bp ≠ dp → av_forw d ≠ bp → (av_forw d < length l)%nat →
  (∀ l', proj l' = (proj l)<|lAF ::= λ F, <[dp := bp]> (<[bp := av_forw d]> F)|>
                          <|lAB ::= λ B, <[bp := dp]> (<[av_forw d := bp]> B)|> → Q tt (st s l')) →
  wp (binsheadfree bp dp) Q (st s l).
Proof.
  intros Hx Hd Hne Hne2 Hf HQ. unfold binsheadfree. apply wp_bind. eapply wp_buf_at; [done|].
  destruct (lookup_lt_is_Some_2 _ _ Hf) as [z Hz]. apply wp_bind. eapply wp_setb; [done|]. set (l1 := <[av_forw d := _]> l).
  destruct (insert_lookup l _ _ _ _ Hz Hd (z<|av_back := bp|>)) as (d1 & Hd1 & Ed1). fold l1 in Hd1.
  assert (Hn1 : av_forw d1 = av_forw d) by (subst d1; case_decide as E; [rewrite E in Hz; simplify_eq; done|done]).
  assert (H1 : l1 !! bp = Some x) by (unfold l1; by rewrite list_lookup_insert_ne).
  apply wp_bind. eapply wp_buf_at; [done|]. apply wp_bind. eapply wp_setb; [done|]. set (l2 := <[bp := _]> l1).
  assert (Hd2 : l2 !! dp = Some d1) by (unfold l2; by rewrite list_lookup_insert_ne).
  apply wp_bind. eapply wp_setb; [done|]. set (l3 := <[dp := _]> l2).
  assert (H3 : l3 !! bp = Some (x<|av_forw := av_forw d1|>)).
  { unfold l3. rewrite list_lookup_insert_ne by done. unfold l2. apply list_lookup_insert_eq. by eapply lookup_lt_Some. }
  eapply wp_setb; [done|]. apply HQ. rewrite (proj_aback _ _ (x<|av_forw := av_forw d1|>)) by done.
  unfold l3. rewrite (proj_aforw _ _ d1) by done. unfold l2. rewrite (proj_aforw _ _ x) by done.
  unfold l1. rewrite (proj_aback l _ z) by done. by rewrite Hn1.
Qed.
Lemma wp_binstailfree s l bp dp x d Q :
  l !! bp = Some x → l !! dp = Some d → bp ≠ dp → av_back d ≠ bp → (av_back d < length l)%nat →
  (∀ l', proj l' = (proj l)<|lAF ::= λ F, <[bp := dp]> (<[av_back d := bp]> F)|>
                          <|lAB ::= λ B, <[dp := bp]> (<[bp := av_back d]> B)|> → Q tt (st s l')) →
  wp (binstailfree bp dp) Q (st s l).
Proof.
  intros Hx Hd Hne Hne2 Hf HQ. unfold binstailfree. apply wp_bind. eapply wp_buf_at; [done|].
  destruct (lookup_lt_is_Some_2 _ _ Hf) as [z Hz]. apply wp_bind. eapply wp_setb; [done|]. set (l1 := <[av_back d := _]> l).
  destruct (insert_lookup l _ _ _ _ Hz Hd (z<|av_forw := bp|>)) as (d1 & Hd1 & Ed1). fold l1 in Hd1.
  assert (Hn1 : av_back d1 = av_back d) by (subst d1; case_decide as E; [rewrite E in Hz; simplify_eq; done|done]).
  assert (H1 : l1 !! bp = Some x) by (unfold l1; by rewrite list_lookup_insert_ne).
  apply wp_bind. eapply wp_buf_at; [done|]. apply wp_bind. eapply wp_setb; [done|]. set (l2 := <[bp := _]> l1).
  assert (Hd2 : l2 !! dp = Some d1) by (unfold l2; by rewrite list_lookup_insert_ne).
  apply wp_bind. eapply wp_setb; [done|]. set (l3 := <[dp := _]> l2).
  assert (H3 : l3 !! bp = Some (x<|av_back := av_back d1|>)).
  { unfold l3. rewrite list_lookup_insert_ne by done. unfold l2. apply list_lookup_insert_eq. by eapply lookup_lt_Some. }
  eapply wp_setb; [done|]. apply HQ. rewrite (proj_aforw _ _ (x<|av_back := av_back d1|>)) by done.
  unfold l3. rewrite (proj_aback _ _ d1) by done. unfold l2. rewrite (proj_aback _ _ x) by done.
  unfold l1. rewrite (proj_aforw l _ z) by done. by rewrite Hn1.
Qed.
End Queues.

(** ** What the cache promises *)
Definition hheads : list nat := bfreelist BQ_AGE :: map bufhash (seq 0 BUFHSZ).
Definition fheads : list nat := map bfreelist (seq 0 BQUEUES).
Definition zero_block : block := replicate 256 0.

(** The place of a block on its disk. *)
Definition place (parts : list (list Z)) (dev blk : Z) : Z * Z :=
  (major dev, u32 ((if 0 <? minor dev
                    then default 0 (parts !! Z.to_nat (major dev) ≫= λ p, p !! Z.to_nat (minor dev - 1)) else 0) + blk)).

(** The blocks in use, [usable], are blocks of existing writable partitions
    that do not overlap. *)
Class Volumes `{Disks} (parts : list (list Z)) (usable : Z → Z → Prop) : Prop := {
  vol_major dev blk : usable dev blk → major dev < 4 ∧ major dev ≤ nrdsk - 1;
  vol_part dev blk : usable dev blk → 0 < minor dev →
    ∃ p o, parts !! Z.to_nat (major dev) = Some p ∧ p !! Z.to_nat (minor dev - 1) = Some o;
  vol_write dev blk : usable dev blk → readonly (major dev) = false ∧ tape (major dev) = false;
  vol_inj dev blk dev' blk' : usable dev blk → usable dev' blk' →
    place parts dev blk = place parts dev' blk' → dev = dev' ∧ blk = blk' }.
(** The disks do what they are told. *)
Class GoodDisks `{Disks} : Prop := {
  good_read root o m d : disk_read root o DEV_BSIZE m d = (1, default zero_block (m !! (root, o)));
  good_write root o m d : disk_write root o DEV_BSIZE d m = (1, <[(root, o) := d]> m) }.

Definition upd (A : Z → Z → block) (dev blk : Z) (d : block) : Z → Z → block :=
  λ v b, if decide (v = dev ∧ b = blk) then d else A v b.
Lemma upd_same A dev blk d : upd A dev blk d dev blk = d.
Proof. unfold upd. by rewrite decide_True. Qed.
Lemma upd_other A dev blk d v b : ¬ (v = dev ∧ b = blk) → upd A dev blk d v b = A v b.
Proof. intros. unfold upd. by rewrite decide_False. Qed.

Lemma is_block_spec (x : buf) dev blk : is_block x dev blk = true ↔ b_dev x = dev ∧ b_blkno x = blk ∧ has (b_flags x) B_INVAL = false.
Proof. unfold is_block. rewrite !andb_true_iff, !Z.eqb_eq, negb_true_iff. naive_solver. Qed.

Section Inv.
Context `{Disks} (parts : list (list Z)) (usable : Z → Z → Prop).
Implicit Types (s : bstate) (x y : buf) (C : list buf) (data : list block) (md : gmap (Z * Z) block)
  (hl fl : nat → list nat) (held : list nat) (A : Z → Z → block).

(** The buffers [C], their memory, the media and the hash chains, when the
    buffers [held] are in use and the blocks contain [A]. *)
Record core_ok C data md hl held A : Prop := CoreOk {
  co_flags i x : C !! i = Some x → b_addr x = i ∧ has (b_flags x) B_ERROR = false ∧ has (b_flags x) B_LOCKED = false ∧
    has (b_flags x) B_BUSY = bool_decide (i ∈ held);
  co_quiet i x : C !! i = Some x → i ∉ held → has (b_flags x) B_ASYNC = false;
  co_valid i x : C !! i = Some x → has (b_flags x) B_INVAL = false →
    usable (b_dev x) (b_blkno x) ∧ i ∈ hl (BUFHASH (b_dev x) (b_blkno x));
  co_dirty i x : C !! i = Some x → has (b_flags x) B_DELWRI = true → has (b_flags x) B_INVAL = false;
  co_data i x : C !! i = Some x → i ∉ held → has (b_flags x) B_INVAL = false →
    has (b_flags x) (Z.lor B_DONE B_DELWRI) = true → data !! i = Some (A (b_dev x) (b_blkno x));
  co_unique i j x y : C !! i = Some x → C !! j = Some y → has (b_flags x) B_INVAL = false →
    has (b_flags y) B_INVAL = false → b_dev x = b_dev y → b_blkno x = b_blkno y → i = j;
  co_media dev blk : usable dev blk → default zero_block (md !! place parts dev blk) = A dev blk ∨
    ∃ i x, C !! i = Some x ∧ is_block x dev blk = true ∧ has (b_flags x) B_DELWRI = true;
  co_resid i x : C !! i = Some x → b_resid x = 0 }.

(** The whole cache: every buffer is on a hash chain, and on a free list
    exactly if it is not in use. *)
Record cache s hl fl held A : Prop := Cache {
  ca_len : length (bufs s) = (NBUF + BQUEUES + BUFHSZ)%nat;
  ca_data : length (bufdata s) = NBUF;
  ca_hash : rings NBUF (lF (proj (bufs s))) (lB (proj (bufs s))) hheads hl;
  ca_free : rings NBUF (lAF (proj (bufs s))) (lAB (proj (bufs s))) fheads fl;
  ca_hashed i : (i < NBUF)%nat → ∃ d, d ∈ hheads ∧ i ∈ hl d;
  ca_freed i : (i < NBUF)%nat → i ∉ held → ∃ d, d ∈ fheads ∧ i ∈ fl d;
  ca_held i d : i ∈ held → d ∈ fheads → i ∉ fl d;
  ca_ids : NoDup held ∧ Forall (λ i, i < NBUF)%nat held;
  ca_core : core_ok (lC (proj (bufs s))) (bufdata s) (media s) hl held A;
  ca_locked : fl (bfreelist BQ_LOCKED) = [];
  ca_starts : starts s = parts }.
Definition cache_ok s held A : Prop := ∃ hl fl, cache s hl fl held A.

Definition is_same x x' : Prop :=
  b_dev x' = b_dev x ∧ b_blkno x' = b_blkno x ∧ has (b_flags x') B_INVAL = has (b_flags x) B_INVAL ∧ b_resid x' = b_resid x.

Lemma insert_cases {T} (C : list T) i j (x' z : T) :
  <[i := x']> C !! j = Some z → (j = i ∧ z = x') ∨ (j ≠ i ∧ C !! j = Some z).
Proof.
  destruct (decide (i = j)) as [->|Hne].
  - intros Hz. left. split; [done|]. destruct (decide (j < length C)%nat) as [Hlt|Hge].
    + rewrite list_lookup_insert_eq in Hz by done. congruence.
    + rewrite list_insert_ge in Hz by lia. apply lookup_lt_Some in Hz. lia.
  - intros Hz. right. rewrite list_lookup_insert_ne in Hz by done. done.
Qed.

(** A change of flags that keeps what the buffer is. *)
Lemma core_update C data md hl held held' A i x x' :
  core_ok C data md hl held A → C !! i = Some x → is_same x x' → b_addr x' = i →
  has (b_flags x') B_ERROR = false → has (b_flags x') B_LOCKED = false → has (b_flags x') B_BUSY = bool_decide (i ∈ held') →
  has (b_flags x') B_DELWRI = has (b_flags x) B_DELWRI →
  (∀ j, j ≠ i → j ∈ held' ↔ j ∈ held) → (i ∉ held' → has (b_flags x') B_ASYNC = false) →
  (i ∉ held' → has (b_flags x') B_INVAL = false → has (b_flags x') (Z.lor B_DONE B_DELWRI) = true →
     data !! i = Some (A (b_dev x) (b_blkno x))) →
  core_ok (<[i := x']> C) data md hl held' A.
Proof.
  intros Hc Hx (S1 & S2 & S3 & S4) F1 F2 F3 F4 F5 Hh F6 F7. split.
  - intros j z [[-> ->]|[Hne Hz]]%insert_cases; [done|]. destruct (co_flags _ _ _ _ _ _ Hc j z Hz) as (? & ? & ? & E).
    split_and!; try done. rewrite E. apply bool_decide_ext. by rewrite Hh.
  - intros j z [[-> ->]|[Hne Hz]]%insert_cases Hn; [auto|]. eapply co_quiet; [done..|]. by rewrite <- Hh.
  - intros j z [[-> ->]|[Hne Hz]]%insert_cases; [|by apply Hc]. rewrite S1, S2, S3. by apply Hc.
  - intros j z [[-> ->]|[Hne Hz]]%insert_cases; [|by eapply co_dirty]. rewrite F5, S3. by eapply co_dirty.
  - intros j z [[-> ->]|[Hne Hz]]%insert_cases Hn; [rewrite S1, S2; auto|]. apply Hc; [done|]. by rewrite <- Hh.
  - intros j k y z [[-> ->]|[Hne Hy]]%insert_cases [[-> ->]|[Hne' Hz]]%insert_cases; rewrite ?S1, ?S2, ?S3; [done|..].
    + intros. by eapply (co_unique _ _ _ _ _ _ Hc i k x z).
    + intros. by eapply (co_unique _ _ _ _ _ _ Hc j i y x).
    + by apply (co_unique _ _ _ _ _ _ Hc).
  - intros dev blk Hu. destruct (co_media _ _ _ _ _ _ Hc dev blk Hu) as [E|(j & y & Hy & Hb & Hd)]; [by left|right].
    destruct (decide (j = i)) as [->|Hne].
    + assert (y = x) as -> by congruence. exists i, x'. rewrite list_lookup_insert_eq by (by eapply lookup_lt_Some). split; [done|].
      split; [|by rewrite F5]. apply is_block_spec in Hb as (? & ? & ?). apply is_block_spec. split_and!; congruence.
    + exists j, y. by rewrite list_lookup_insert_ne.
  - intros j z [[-> ->]|[Hne Hz]]%insert_cases; [rewrite S4|]; by eapply co_resid.
Qed.

(** The memory of a buffer in use may change. *)
Lemma core_memory C data md hl held A i d :
  core_ok C data md hl held A → i ∈ held → core_ok C (<[i := d]> data) md hl held A.
Proof.
  intros Hc Hi. split; try apply Hc. intros j y Hy Hn Hv Hd. rewrite list_lookup_insert_ne by (by intros ->). by apply Hc.
Qed.

(** The block of a buffer in use gets new contents, on the medium or as a
    delayed write. *)
Lemma core_written `{!Volumes parts usable} C data md md' hl held A i x x' d :
  core_ok C data md hl held A → C !! i = Some x → i ∈ held → has (b_flags x) B_INVAL = false → is_same x x' → b_addr x' = i →
  has (b_flags x') B_ERROR = false → has (b_flags x') B_LOCKED = false → has (b_flags x') B_BUSY = true →
  md' = <[place parts (b_dev x) (b_blkno x) := d]> md ∨ (md' = md ∧ has (b_flags x') B_DELWRI = true) →
  core_ok (<[i := x']> C) data md' hl held (upd A (b_dev x) (b_blkno x) d).
Proof.
  intros Hc Hx Hi Hv (S1 & S2 & S3 & S4) F1 F2 F3 F4 Hmd.
  destruct (co_valid _ _ _ _ _ _ Hc i x Hx Hv) as [Hu _].
  assert (Hother : ∀ j y, C !! j = Some y → j ≠ i → has (b_flags y) B_INVAL = false → ¬ (b_dev y = b_dev x ∧ b_blkno y = b_blkno x)).
  { intros j y Hy Hne Hvy [E1 E2]. apply Hne. by eapply (co_unique _ _ _ _ _ _ Hc j i y x). }
  split.
  - intros j z [[-> ->]|[Hne Hz]]%insert_cases; [rewrite bool_decide_true by done; done|by apply Hc].
  - intros j z [[-> ->]|[Hne Hz]]%insert_cases Hn; [done|by eapply co_quiet].
  - intros j z [[-> ->]|[Hne Hz]]%insert_cases; [|by apply Hc]. rewrite S1, S2, S3. by apply Hc.
  - intros j z [[-> ->]|[Hne Hz]]%insert_cases; [by rewrite S3|by eapply co_dirty].
  - intros j z [[-> ->]|[Hne Hz]]%insert_cases Hn Hvz Hd; [done|]. rewrite upd_other by (by eapply Hother). by apply Hc.
  - intros j k y z [[-> ->]|[Hne Hy]]%insert_cases [[-> ->]|[Hne' Hz]]%insert_cases; rewrite ?S1, ?S2, ?S3; [done|..].
    + intros. by eapply (co_unique _ _ _ _ _ _ Hc i k x z).
    + intros. by eapply (co_unique _ _ _ _ _ _ Hc j i y x).
    + by apply (co_unique _ _ _ _ _ _ Hc).
  - intros dev blk Hub. destruct (decide (dev = b_dev x ∧ blk = b_blkno x)) as [[-> ->]|Hne].
    + rewrite upd_same. destruct Hmd as [-> | [-> Hd]]; [left; by rewrite lookup_insert_eq|right].
      exists i, x'. rewrite list_lookup_insert_eq by (by eapply lookup_lt_Some). split; [done|].
      split; [|done]. apply is_block_spec. split_and!; congruence.
    + rewrite upd_other by done. assert (Em : md' !! place parts dev blk = md !! place parts dev blk).
      { destruct Hmd as [-> | [-> _]]; [|done]. apply lookup_insert_ne. intros E. apply Hne.
        destruct (vol_inj _ _ _ _ Hu Hub E). by split. }
      rewrite Em. destruct (co_media _ _ _ _ _ _ Hc dev blk Hub) as [E|(j & y & Hy & Hb & Hd)]; [by left|right].
      exists j, y. rewrite list_lookup_insert_ne; [done|]. intros <-. assert (y = x) as -> by congruence.
      apply Hne. apply is_block_spec in Hb as (? & ? & ?). by split.
  - intros j z [[-> ->]|[Hne Hz]]%insert_cases; [rewrite S4|]; by eapply co_resid.
Qed.
End Inv.
Arguments ca_len {_ _ _ _ _ _ _} _.
Arguments ca_data {_ _ _ _ _ _ _} _.
Arguments ca_hash {_ _ _ _ _ _ _} _.
Arguments ca_free {_ _ _ _ _ _ _} _.
Arguments ca_hashed {_ _ _ _ _ _ _} _.
Arguments ca_freed {_ _ _ _ _ _ _} _.
Arguments ca_held {_ _ _ _ _ _ _} _.
Arguments ca_ids {_ _ _ _ _ _ _} _.
Arguments ca_core {_ _ _ _ _ _ _} _.
Arguments ca_locked {_ _ _ _ _ _ _} _.
Arguments ca_starts {_ _ _ _ _ _ _} _.
Arguments co_flags {_ _ _ _ _ _ _ _} _.
Arguments co_quiet {_ _ _ _ _ _ _ _} _.
Arguments co_valid {_ _ _ _ _ _ _ _} _.
Arguments co_dirty {_ _ _ _ _ _ _ _} _.
Arguments co_data {_ _ _ _ _ _ _ _} _.
Arguments co_unique {_ _ _ _ _ _ _ _} _.
Arguments co_media {_ _ _ _ _ _ _ _} _.
Arguments co_resid {_ _ _ _ _ _ _ _} _.

(** ** Taking and releasing buffers *)
Section Ops.
Context `{Disks} (parts : list (list Z)) (usable : Z → Z → Prop).
Implicit Types (s : bstate) (x y : buf) (C : list buf) (hl fl : nat → list nat) (held : list nat) (A : Z → Z → block).
Notation cache := (cache parts usable).
Notation core_ok := (core_ok parts usable).

Definition core s : list buf := lC (proj (bufs s)).

Lemma core_st s l : core (st s l) = lC (proj l).
Proof. done. Qed.
Lemma proj_length l : length (lF (proj l)) = length l ∧ length (lB (proj l)) = length l ∧
  length (lAF (proj l)) = length l ∧ length (lAB (proj l)) = length l.
Proof. simpl. by rewrite !length_fmap. Qed.

Lemma core_length s hl fl held A : cache s hl fl held A → length (core s) = NBUF.
Proof. intros Hc. unfold core. simpl lC. rewrite length_take, length_fmap, (ca_len Hc). done. Qed.
Lemma core_node s hl fl held A i : cache s hl fl held A → (i < NBUF)%nat →
  ∃ b, bufs s !! i = Some b ∧ core s !! i = Some (strip b).
Proof.
  intros Hc Hi. destruct (lookup_lt_is_Some_2 (bufs s) i) as [b Hb].
  { rewrite (ca_len Hc). unfold BQUEUES, BUFHSZ. lia. }
  exists b. split; [done|]. by apply proj_core_lookup.
Qed.
Lemma head_node s hl fl held A d : cache s hl fl held A → d ∈ hheads ∨ d ∈ fheads → ∃ b, bufs s !! d = Some b.
Proof.
  intros Hc Hd. apply lookup_lt_is_Some_2. rewrite (ca_len Hc).
  assert (HF : Forall (λ d, d < NBUF + BQUEUES + BUFHSZ)%nat (hheads ++ fheads)).
  { apply (bool_decide_eq_true_1 _). vm_compute. reflexivity. }
  rewrite Forall_forall in HF. apply HF. by apply elem_of_app.
Qed.

(** The neighbours of a node on a free list. *)
Lemma free_links s hl fl held A d i b :
  cache s hl fl held A → d ∈ fheads → i ∈ fl d → bufs s !! i = Some b →
  ∃ l1 l2, fl d = l1 ++ i :: l2 ∧ av_back b = pred d l1 ∧ av_forw b = succ d l2 ∧
    (av_back b < length (bufs s))%nat ∧ (av_forw b < length (bufs s))%nat ∧ av_back b ≠ i.
Proof.
  intros Hc Hd Hi Hb. destruct (rings_links _ _ _ _ _ _ _ (ca_free Hc) Hd Hi)
    as (l1 & l2 & E & L1 & L2 & L3 & L4 & L5 & L6).
  destruct (proj_lookup _ _ _ Hb) as (_ & _ & P3 & P4). rewrite P3 in L1. rewrite P4 in L2. injection L1 as L1. injection L2 as L2.
  destruct (proj_length (bufs s)) as (_ & _ & N3 & N4).
  exists l1, l2. rewrite L1, L2. split_and!; try done.
  - rewrite <- N3. by eapply lookup_lt_Some.
  - rewrite <- N4. by eapply lookup_lt_Some.
Qed.

(** The table with the buffer [i] off its free list and in use as [x']. *)
Definition taken l l' (b x' : buf) (i : nat) : Prop :=
  proj l' = (proj l)<|lAF ::= <[av_back b := av_forw b]>|><|lAB ::= <[av_forw b := av_back b]>|><|lC ::= <[i := x']>|>.

Lemma cache_taken s hl fl held A i d l1 l2 b x' l' :
  cache s hl fl held A → i ∉ held → (i < NBUF)%nat → d ∈ fheads → fl d = l1 ++ i :: l2 → bufs s !! i = Some b →
  av_back b = pred d l1 → av_forw b = succ d l2 → taken (bufs s) l' b x' i → is_same (strip b) x' → b_addr x' = b_addr b →
  has (b_flags x') B_ERROR = has (b_flags b) B_ERROR → has (b_flags x') B_LOCKED = has (b_flags b) B_LOCKED →
  has (b_flags x') B_BUSY = true → has (b_flags x') B_DELWRI = has (b_flags b) B_DELWRI →
  cache (st s l') hl (<[d := l1 ++ l2]> fl) (i :: held) A.
Proof.
  intros Hc Hn Hi Hd E Hb E1 E2 P Hs S1 S2 S3 S4 S5. unfold taken in P.
  assert (Hx : lC (proj (bufs s)) !! i = Some (strip b)) by (by apply proj_core_lookup).
  pose proof (co_flags (ca_core Hc) i _ Hx) as (F1 & F2 & F3 & F4).
  split; try (change (bufs (st s l')) with l'); try apply Hc.
  - destruct (proj_length l') as (<- & _). rewrite P. fields. destruct (proj_length (bufs s)) as (-> & _). apply Hc.
  - rewrite P. exact (ca_hash Hc).
  - rewrite P. fields. rewrite E1, E2. eapply rings_del; [apply (ca_free Hc)|done|exact E].
  - intros j Hj Hnj. rewrite not_elem_of_cons in Hnj. destruct Hnj as [Hji Hnj].
    destruct (ca_freed Hc j Hj Hnj) as (e & He & Hje). exists e. split; [done|].
    destruct (decide (e = d)) as [->|]; [rewrite fn_lookup_insert; rewrite E in Hje; set_solver|by rewrite fn_lookup_insert_ne].
  - pose proof (rg_nodup _ _ _ _ _ (ca_free Hc) d Hd) as Hnd. rewrite E in Hnd.
    rewrite <- Permutation_middle, NoDup_cons in Hnd. destruct Hnd as [Hnd _].
    intros j e [->|Hj]%elem_of_cons He; (destruct (decide (e = d)) as [->|Hne];
      [rewrite fn_lookup_insert|rewrite fn_lookup_insert_ne by done]).
    + done.
    + intros Hie. apply Hne. eapply (rg_disj _ _ _ _ _ (ca_free Hc)); [done..|]. rewrite E. set_solver.
    + intros Hjd. apply (ca_held Hc j d Hj Hd). rewrite E. set_solver.
    + by apply (ca_held Hc).
  - destruct (ca_ids Hc). split; [by constructor|]. by constructor.
  - rewrite P. fields. eapply core_update; [apply (ca_core Hc)|exact Hx|exact Hs|..].
    + by rewrite S1.
    + by rewrite S2.
    + by rewrite S3.
    + rewrite S4, bool_decide_true by set_solver. done.
    + by rewrite S5.
    + set_solver.
    + set_solver.
    + set_solver.
  - destruct (decide (d = bfreelist BQ_LOCKED)) as [->|].
    + rewrite (ca_locked Hc) in E. by destruct l1.
    + rewrite fn_lookup_insert_ne by done. apply Hc.
Qed.

Lemma wp_notavail_at s l i b (Q : unit → bstate → Prop) :
  l !! i = Some b → (i < NBUF)%nat → (av_back b < length l)%nat → (av_forw b < length l)%nat → av_back b ≠ i →
  (∀ l', taken l l' b ((strip b)<|b_flags ::= λ f, Z.lor f B_BUSY|>) i → Q tt (st s l')) → wp (notavail i) Q (st s l).
Proof.
  intros Hb Hi B1 B2 B3 HQ. unfold notavail. apply wp_bind. eapply wp_bremfree; [done..|]. intros l1 P1.
  assert (Hx1 : lC (proj l1) !! i = Some (strip b)) by (rewrite P1; fields; by apply proj_core_lookup).
  apply proj_core_inv in Hx1 as (b1 & Hb1 & Eb1 & _). unfold set_flags. eapply wp_setb; [done|]. apply HQ.
  unfold taken. rewrite (proj_core l1 i b1), P1 by done. by rewrite <- Eb1.
Qed.

Lemma wp_notavail s hl fl held A i :
  cache s hl fl held A → (i < NBUF)%nat → i ∉ held →
  wp (notavail i) (λ _ s', ∃ l' x fl', s' = st s l' ∧ core s !! i = Some x ∧
    core s' = <[i := x<|b_flags ::= λ f, Z.lor f B_BUSY|>]> (core s) ∧ cache s' hl fl' (i :: held) A) s.
Proof.
  intros Hc Hi Hn. destruct (ca_freed Hc i Hi Hn) as (d & Hd & Hin).
  destruct (core_node _ _ _ _ _ _ Hc Hi) as (b & Hb & Hx).
  destruct (free_links _ _ _ _ _ _ _ _ Hc Hd Hin Hb) as (l1 & l2 & E & E1 & E2 & B1 & B2 & B3).
  apply wp_st. eapply wp_notavail_at; [done..|]. intros l' P. exists l', (strip b), (<[d := l1 ++ l2]> fl).
  split; [done|]. split; [done|]. split; [rewrite core_st, P; done|].
  eapply cache_taken; [exact Hc|done|done|done|exact E|exact Hb|done|done|exact P|..]; unfold is_same; fields; rewrite ?has_lor, ?orb_false_r, ?orb_true_r; done.
Qed.
(** The same, after a change of flags. *)
Lemma wp_flag_notavail s hl fl held A i m (Q : unit → bstate → Prop) :
  cache s hl fl held A → (i < NBUF)%nat → i ∉ held → has m B_DELWRI = false →
  has m B_INVAL = false → has m B_ERROR = false → has m B_LOCKED = false →
  (∀ l' x fl', core s !! i = Some x →
    core (st s l') = <[i := x<|b_flags ::= λ f, Z.lor (Z.lor f m) B_BUSY|>]> (core s) → cache (st s l') hl fl' (i :: held) A → Q tt (st s l')) →
  wp (set_flags i m) (λ _, wp (notavail i) Q) s.
Proof.
  intros Hc Hi Hn M2 M3 M4 M5 HQ. destruct (ca_freed Hc i Hi Hn) as (d & Hd & Hin).
  destruct (core_node _ _ _ _ _ _ Hc Hi) as (b & Hb & Hx).
  destruct (free_links _ _ _ _ _ _ _ _ Hc Hd Hin Hb) as (l1 & l2 & E & E1 & E2 & B1 & B2 & B3).
  apply wp_st. unfold set_flags. eapply wp_setb; [done|]. set (b1 := b<|b_flags ::= _|>). set (la := <[i := b1]> (bufs s)).
  assert (Hb1 : la !! i = Some b1) by (apply list_lookup_insert_eq; by eapply lookup_lt_Some).
  eapply wp_notavail_at; [done|done|unfold la; by rewrite length_insert|unfold la; by rewrite length_insert|done|].
  intros l' P. unfold taken in P. unfold la in P. rewrite (proj_core (bufs s) i b) in P by done.
  set (x' := (strip b)<|b_flags ::= λ f, Z.lor (Z.lor f m) B_BUSY|>).
  assert (P' : taken (bufs s) l' b x' i).
  { unfold taken. rewrite P. fields. unfold field_map; simpl. f_equal. apply list_insert_insert_eq. }
  apply (HQ l' (strip b) (<[d := l1 ++ l2]> fl)); [done|rewrite core_st, P'; done|].
  eapply cache_taken; [exact Hc|done|done|done|exact E|exact Hb|done|done|exact P'|..];
    unfold is_same, x'; fields; rewrite ?has_lor, ?M2, ?M3, ?M4, ?M5, ?orb_false_r, ?orb_true_r; done.
Qed.

(** Putting a buffer at the front or at the end of a free list. *)
Definition inserted l l' (q i : nat) (fl : nat → list nat) (front : bool) : Prop :=
  lF (proj l') = lF (proj l) ∧ lB (proj l') = lB (proj l) ∧ lC (proj l') = lC (proj l) ∧
  rings NBUF (lAF (proj l')) (lAB (proj l')) fheads (<[q := if front then i :: fl q else fl q ++ [i]]> fl).

Lemma wp_insert s l fl q i (front : bool) (Q : unit → bstate → Prop) :
  rings NBUF (lAF (proj l)) (lAB (proj l)) fheads fl → q ∈ fheads → (i < NBUF)%nat → (∀ d, d ∈ fheads → i ∉ fl d) →
  is_Some (l !! i) → (∀ l', inserted l l' q i fl front → Q tt (st s l')) →
  wp (if front then binsheadfree i q else binstailfree i q) Q (st s l).
Proof.
  intros Hr Hq Hi Hn [x Hx] HQ. destruct (rings_head _ _ _ _ _ _ Hr Hq) as (L1 & L2 & L3 & L4).
  assert (Hni : ∀ a, a ∈ q :: fl q → a ≠ i).
  { intros a [->|Ha]%elem_of_cons ->; [|by eapply Hn]. pose proof (rg_heads _ _ _ _ _ Hr i Hq). lia. }
  pose proof (Hni _ (succ_elem q (fl q))) as Hsn. pose proof (Hni _ (pred_elem q (fl q))) as Hpn.
  pose proof (Hni q ltac:(set_solver)) as Hqn.
  destruct (proj_length l) as (_ & _ & N3 & N4).
  assert (∃ d, l !! q = Some d) as [d Hd].
  { apply lookup_lt_is_Some_2. rewrite <- N3. by eapply lookup_lt_Some. }
  destruct (proj_lookup _ _ _ Hd) as (_ & _ & P3 & P4). rewrite P3 in L1. rewrite P4 in L2. injection L1 as L1. injection L2 as L2.
  assert (Hli : (i < length (lAF (proj l)))%nat) by (rewrite N3; by eapply lookup_lt_Some).
  assert (Hli' : (i < length (lAB (proj l)))%nat) by (rewrite N4; by eapply lookup_lt_Some).
  assert (Hlq : (q < length (lAF (proj l)))%nat) by (rewrite N3; by eapply lookup_lt_Some).
  assert (Hlq' : (q < length (lAB (proj l)))%nat) by (rewrite N4; by eapply lookup_lt_Some).
  pose proof (lookup_lt_Some _ _ _ L3) as Hls. pose proof (lookup_lt_Some _ _ _ L4) as Hlp.
  destruct front.
  - eapply (wp_binsheadfree s l i q x d); [done|done|done|by rewrite L1|rewrite L1, <- N4; done|]. intros l' P.
    apply HQ. unfold inserted. rewrite P. fields. rewrite L1. split_and!; [done..|].
    eapply (rings_add _ _ _ _ _ _ fl q [] i (fl q)); [exact Hr|done|done|done|done|..].
    + intros a Ha Hp. by rewrite !list_lookup_insert_ne by done.
    + intros a Ha Hp. by rewrite !list_lookup_insert_ne by done.
    + by rewrite list_lookup_insert_eq by (by rewrite length_insert).
    + rewrite list_lookup_insert_ne by done. by rewrite list_lookup_insert_eq.
    + rewrite list_lookup_insert_ne by done. by rewrite list_lookup_insert_eq.
    + by rewrite list_lookup_insert_eq by (by rewrite length_insert).
  - eapply (wp_binstailfree s l i q x d); [done|done|done|by rewrite L2|rewrite L2, <- N3; done|]. intros l' P.
    apply HQ. unfold inserted. rewrite P. fields. rewrite L2. split_and!; [done..|].
    eapply (rings_add _ _ _ _ _ _ fl q (fl q) i []); [exact Hr|done|by rewrite app_nil_r|done|done|..].
    + intros a Ha Hp. by rewrite !list_lookup_insert_ne by done.
    + intros a Ha Hp. by rewrite !list_lookup_insert_ne by done.
    + rewrite list_lookup_insert_ne by done. by rewrite list_lookup_insert_eq.
    + by rewrite list_lookup_insert_eq by (by rewrite length_insert).
    + by rewrite list_lookup_insert_eq by (by rewrite length_insert).
    + rewrite list_lookup_insert_ne by done. by rewrite list_lookup_insert_eq.
Qed.

(** What does not concern the buffers. *)
Lemma cache_change s s' hl fl held A :
  cache s hl fl held A → proj (bufs s') = proj (bufs s) → bufdata s' = bufdata s → media s' = media s → starts s' = starts s →
  cache s' hl fl held A.
Proof.
  intros Hc E1 E2 E3 E4. split; rewrite ?E1, ?E2, ?E3, ?E4; try apply Hc.
  destruct (proj_length (bufs s')) as (<- & _), (proj_length (bufs s)) as (E & _). rewrite E1, E. apply Hc.
Qed.

Definition idle (x : buf) : buf := x<|b_flags ::= λ f, bic f (Z.lor (Z.lor B_WANTED B_BUSY) (Z.lor B_ASYNC B_AGE))|>.

Lemma wp_brelse_queue s l hl fl held A i x (Q : unit → bstate → Prop) :
  cache (st s l) hl fl (i :: held) A → core (st s l) !! i = Some x →
  (has (b_flags x) B_INVAL = false → has (b_flags x) (Z.lor B_DONE B_DELWRI) = true →
     bufdata s !! i = Some (A (b_dev x) (b_blkno x))) →
  (∀ l' fl', core (st s l') = <[i := idle x]> (core (st s l)) → cache (st s l') hl fl' held A → Q tt (st s l')) →
  wp (brelse_queue i) Q (st s l).
Proof.
  intros Hc Hx Hd HQ. unfold brelse_queue. destruct (ca_ids Hc) as [[Hn Hnd]%NoDup_cons [Hi Hlt]%Forall_cons].
  destruct (proj_core_inv _ _ _ Hx) as (b & Hb & Eb & _). change (bufs (st s l)) with l in Hb.
  destruct (co_flags (ca_core Hc) i x Hx) as (F1 & F2 & F3 & F4).
  assert (Ef : b_flags b = b_flags x) by (by rewrite <- Eb).
  apply wp_bind. eapply wp_buf_at; [done|]. rewrite Ef, F2. apply wp_bind, wp_ret.
  apply wp_bind. eapply wp_buf_at; [done|]. rewrite Ef, F3.
  set (front := has (b_flags x) (Z.lor B_ERROR B_INVAL)). set (q := bfreelist (if front then BQ_AGE else if has (b_flags x) B_AGE then BQ_AGE else BQ_LRU)).
  assert (Eq : ∀ (m : M unit) P s0, wp ((if front then binsheadfree i q else binstailfree i q);; m) P s0 →
     wp ((if front then binsheadfree i (bfreelist BQ_AGE)
          else binstailfree i (bfreelist (if has (b_flags x) B_AGE then BQ_AGE else BQ_LRU)));; m) P s0)
    by (intros m P s0; unfold q; by destruct front).
  apply Eq. clear Eq.
  assert (Hq : q ∈ fheads ∧ q ≠ bfreelist BQ_LOCKED).
  { unfold q. by destruct front, (has (b_flags x) B_AGE); (split; [apply (bool_decide_eq_true_1 _)|]; vm_compute). }
  destruct Hq as [Hq Hq0]. apply wp_bind. eapply (wp_insert s l fl q i front); [apply (ca_free Hc)|done|done| |by rewrite Hb|].
  { intros d Hd'. apply (ca_held Hc); [set_solver|done]. }
  intros l1 (P1 & P2 & P3 & P4). assert (Hx1 : lC (proj l1) !! i = Some x) by (by rewrite P3).
  apply proj_core_inv in Hx1 as (b1 & Hb1 & Eb1 & _). unfold clear_flags. eapply wp_setb; [done|].
  set (l2 := <[i := _]> l1). assert (P : proj l2 = (proj l1)<|lC ::= <[i := idle x]>|>).
  { unfold l2. rewrite (proj_core l1 i b1) by done. by rewrite <- Eb1. }
  apply (HQ l2 (<[q := if front then i :: fl q else fl q ++ [i]]> fl)); [unfold core; change (bufs (st s l2)) with l2; rewrite P; fields; by rewrite P3|].
  split; try (change (bufs (st s l2)) with l2); try apply Hc.
  - destruct (proj_length l2) as (<- & _). rewrite P. fields. rewrite P1. destruct (proj_length l) as (-> & _). apply (ca_len Hc).
  - rewrite P. fields. rewrite P1, P2. apply (ca_hash Hc).
  - rewrite P. fields. exact P4.
  - intros j Hj Hnj. destruct (decide (j = i)) as [->|Hne].
    + exists q. split; [done|]. rewrite fn_lookup_insert. destruct front; set_solver.
    + destruct (ca_freed Hc j Hj) as (e & He & Hje); [set_solver|]. exists e. split; [done|].
      destruct (decide (e = q)) as [->|]; [rewrite fn_lookup_insert|by rewrite fn_lookup_insert_ne].
      destruct front; set_solver.
  - intros j d Hj Hd'. assert (Hji : j ≠ i) by (by intros ->).
    pose proof (ca_held Hc j d ltac:(set_solver) Hd') as Hh. destruct (decide (d = q)) as [->|].
    + rewrite fn_lookup_insert. destruct front; set_solver.
    + by rewrite fn_lookup_insert_ne.
  - done.
  - rewrite P. fields. rewrite P3. eapply core_update; [apply (ca_core Hc)|exact Hx| | | | | | | | |]; unfold idle; fields.
    + unfold is_same. fields. by rewrite has_bic_other.
    + done.
    + by rewrite has_bic_other.
    + by rewrite has_bic_other.
    + rewrite has_bic_same by done. by rewrite bool_decide_false.
    + by rewrite has_bic_other.
    + set_solver.
    + intros _. by rewrite has_bic_same.
    + intros _. rewrite !has_bic_other by done. done.
  - rewrite fn_lookup_insert_ne by done. apply (ca_locked Hc).
Qed.

Lemma wp_brelse s hl fl held A i x :
  cache s hl fl (i :: held) A → core s !! i = Some x →
  (has (b_flags x) B_INVAL = false → has (b_flags x) (Z.lor B_DONE B_DELWRI) = true →
     bufdata s !! i = Some (A (b_dev x) (b_blkno x))) →
  wp (brelse i) (λ _ s', ∃ l' fl', s' = st (s<|wakes := wakes s'|>) l' ∧ core s' = <[i := idle x]> (core s) ∧
    cache s' hl fl' held A) s.
Proof.
  intros Hc Hx Hd. destruct (proj_core_inv _ _ _ Hx) as (b & Hb & Eb & _).
  destruct (head_node s hl fl _ A (bfreelist 0) Hc) as [f Hf]; [right; apply (bool_decide_eq_true_1 _); vm_compute; done|].
  apply wp_st. unfold brelse. apply wp_bind. eapply wp_buf_at; [done|].
  assert (HW : ∀ s1, bufs s1 = bufs s → bufdata s1 = bufdata s → media s1 = media s → starts s1 = starts s →
    s1 = s<|wakes := wakes s1|> →
    wp (wake_hungry;; brelse_queue i)
     (λ _ s', ∃ l' fl', s' = st (s<|wakes := wakes s'|>) l' ∧ core s' = <[i := idle x]> (core s) ∧
        cache s' hl fl' held A) (st s1 (bufs s))).
  { intros s1 E1 E2 E3 E4 E5. unfold wake_hungry. apply wp_bind, wp_bind. eapply wp_buf_at; [done|].
    destruct (has (b_flags f) B_WANTED).
    - unfold clear_flags at 1. apply wp_bind. eapply wp_setb; [done|]. set (l1 := <[bfreelist 0 := _]> (bufs s)).
      assert (P : proj l1 = proj (bufs s)) by (unfold l1; rewrite (proj_head _ _ f); [done|done|done|unfold bfreelist; lia]).
      unfold wakeup. apply wp_modify.
      change ((st s1 l1)<|wakes ::= cons (bfreelist 0)|>) with (st (s1<|wakes ::= cons (bfreelist 0)|>) l1).
      eapply (wp_brelse_queue _ l1 hl fl held A i x).
      + eapply cache_change; [exact Hc|..]; fields; done.
      + rewrite core_st, P. done.
      + fields. by rewrite E2.
      + intros l' fl' Ec Hc'. exists l', fl'. split; [rewrite E5; reflexivity|]. split; [|done].
        rewrite Ec, core_st. by rewrite P.
    - apply wp_ret. eapply (wp_brelse_queue _ (bufs s) hl fl held A i x).
      + eapply cache_change; [exact Hc|..]; fields; done.
      + done.
      + by rewrite E2.
      + intros l' fl' Ec Hc'. exists l', fl'. split; [rewrite E5; reflexivity|]. done. }
  apply wp_bind. destruct (has (b_flags b) B_WANTED).
  - unfold wakeup at 1. apply wp_modify. change ((st s (bufs s))<|wakes ::= cons i|>) with (st (s<|wakes ::= cons i|>) (bufs s)).
    by apply (HW (s<|wakes ::= cons i|>)).
  - apply wp_ret. apply (HW s); try done. by destruct s.
Qed.

(** ** Changes of the fields that are not links *)
Definition same_links (f : buf → buf) : Prop :=
  ∀ b, (b_forw (f b), b_back (f b), av_forw (f b), av_back (f b)) = (b_forw b, b_back b, av_forw b, av_back b) ∧
    strip (f b) = f (strip b).

(** [s] has the links [k] and the buffers [C]. *)
Definition view s (k : links) C : Prop := proj (bufs s) = k<|lC := C|>.

Lemma view_init s : view s (proj (bufs s)) (core s).
Proof. done. Qed.
Lemma view_core s k C : view s k C → core s = C.
Proof. intros Hv. unfold core. by rewrite Hv. Qed.

Lemma strip_fields b x : strip b = x →
  b_flags b = b_flags x ∧ b_dev b = b_dev x ∧ b_blkno b = b_blkno x ∧ b_addr b = b_addr x ∧ b_bcount b = b_bcount x ∧
  b_error b = b_error x.
Proof. by intros <-. Qed.

Lemma wp_view_at s k C i x (Q : buf → bstate → Prop) :
  view s k C → C !! i = Some x → (∀ b, strip b = x → Q b s) → wp (buf_at i) Q s.
Proof.
  intros Hv Hx HQ. rewrite <- (view_core _ _ _ Hv) in Hx. apply proj_core_inv in Hx as (b & Hb & Eb & _).
  apply wp_st. eapply wp_buf_at; [done|]. rewrite st_id. auto.
Qed.
Lemma wp_view_set s k C i x f (Q : unit → bstate → Prop) :
  view s k C → C !! i = Some x → same_links f →
  (∀ s', s' = st s (bufs s') → view s' k (<[i := f x]> C) → Q tt s') → wp (setb i f) Q s.
Proof.
  intros Hv Hx Hf HQ. rewrite <- (view_core _ _ _ Hv) in Hx. apply proj_core_inv in Hx as (b & Hb & Eb & Hi).
  apply wp_st. eapply wp_setb; [done|]. apply HQ; [done|]. unfold view. change (bufs (st s ?l)) with l.
  destruct (Hf b) as [H1 H2]. rewrite (proj_core _ _ b) by done. rewrite Hv, H2, Eb. done.
Qed.
Lemma same_links_flags g : same_links (λ b, b<|b_flags ::= g|>).
Proof. by intros b. Qed.

(** A cache whose buffers, memory or media have changed. *)
Lemma cache_core s s' hl fl held A A' C' :
  cache s hl fl held A → view s' (proj (bufs s)) C' → length (bufdata s') = length (bufdata s) → starts s' = starts s →
  core_ok C' (bufdata s') (media s') hl held A' → cache s' hl fl held A'.
Proof.
  intros Hc Hv E1 E2 Hco. pose proof (view_core _ _ _ Hv) as Ec. unfold core in Ec.
  split; try (apply Hc); rewrite ?Hv, ?E1, ?E2; fields; try apply Hc; try done.
  destruct (proj_length (bufs s')) as (<- & _), (proj_length (bufs s)) as (E & _). rewrite Hv. fields. rewrite E. apply Hc.
Qed.

(** ** Transfers *)
Lemma byte_range z : 0 ≤ Z.land z 255.
Proof. apply Z.land_nonneg. lia. Qed.

Lemma wp_strategy_any `{!Volumes parts usable} s k C i x d (Q : unit → bstate → Prop) :
  view s k C → C !! i = Some x → usable (b_dev x) (b_blkno x) → b_addr x = i → bufdata s !! i = Some d → starts s = parts →
  let p := place parts (b_dev x) (b_blkno x) in
  (has (b_flags x) B_READ = true →
     wp (biodone i) Q (s<|bufdata := <[i := (disk_read p.1 p.2 (b_bcount x) (media s) d).2]> (bufdata s)|>)) →
  (has (b_flags x) B_READ = false → wp (biodone i) Q (s<|media := (disk_write p.1 p.2 (b_bcount x) d (media s)).2|>)) →
  wp (strategy i) Q s.
Proof.
  intros Hv Hx Hu Ha Hd Hs p HR HW. destruct (vol_major _ _ Hu) as [M1 M2]. destruct (vol_write _ _ Hu) as [M3 _].
  pose proof (byte_range (Z.shiftr (b_dev x) 8)) as M0. fold (major (b_dev x)) in M0.
  unfold strategy. apply wp_bind. eapply wp_view_at; [done..|]. intros b Eb.
  destruct (strip_fields _ _ Eb) as (_ & D1 & _). rewrite D1, (proj2 (Z.ltb_lt _ _) M1). clear b Eb D1.
  unfold rdstrategy. apply wp_bind. eapply wp_view_at; [done..|]. intros b Eb.
  destruct (strip_fields _ _ Eb) as (F1 & F2 & F3 & F4 & F5 & _). rewrite F1, F2, F3, F4, F5, Ha. clear b Eb F1 F2 F3 F4 F5.
  rewrite (proj2 (Z.ltb_ge _ _) M2). apply wp_bind.
  assert (HO : ∀ k', k' (p.2) →
     wp (if 0 <? minor (b_dev x) then l ← gets starts; q ← lift (rdz l (major (b_dev x))); lift (rdz q (minor (b_dev x) - 1))
         else mret 0) (λ o s', s' = s ∧ k' (u32 (o + b_blkno x))) s).
  { intros k' Hk. unfold p, place in Hk. simpl in Hk. destruct (Z.ltb_spec 0 (minor (b_dev x))) as [Hm|Hm].
    - destruct (vol_part _ _ Hu Hm) as (q & o & Hq & Ho). rewrite Hq in Hk. simpl in Hk. rewrite Ho in Hk. simpl in Hk.
      wp_go. rewrite Hs. apply (wp_lift _ q); [unfold rdz; rewrite (proj2 (Z.leb_le _ _) M0); by apply rd_Done|].
      apply (wp_lift _ o); [unfold rdz; rewrite (proj2 (Z.leb_le 0 _)) by lia; by apply rd_Done|]. done.
    - apply wp_ret. split; [done|]. by rewrite Z.add_0_l in Hk |- *. }
  eapply wp_mono; [apply (HO (λ o, o = p.2)); done|]. intros o s' [-> Ho]. rewrite Ho. clear HO Ho o.
  change (major (b_dev x)) with (p.1). apply wp_bind. destruct (has (b_flags x) B_READ).
  - wp_go. eapply wp_lift; [by apply rd_Done|]. apply wp_bind. eapply wp_lift; [apply wr_Done; by eapply lookup_lt_Some|].
    apply wp_modify. by apply HR.
  - change (p.1) with (major (b_dev x)). rewrite M3. cbn [negb]. wp_go. eapply wp_lift; [by apply rd_Done|]. apply wp_modify. by apply HW.
Qed.
Lemma wp_strategy `{!Volumes parts usable, !GoodDisks} s k C i x d (Q : unit → bstate → Prop) :
  view s k C → C !! i = Some x → usable (b_dev x) (b_blkno x) → b_bcount x = DEV_BSIZE → b_addr x = i →
  bufdata s !! i = Some d → starts s = parts →
  let p := place parts (b_dev x) (b_blkno x) in
  (has (b_flags x) B_READ = true →
     wp (biodone i) Q (s<|bufdata := <[i := default zero_block (media s !! p)]> (bufdata s)|>)) →
  (has (b_flags x) B_READ = false → wp (biodone i) Q (s<|media := <[p := d]> (media s)|>)) →
  wp (strategy i) Q s.
Proof.
  intros Hv Hx Hu Hbc Ha Hd Hs p HR HW. eapply wp_strategy_any; [done..| |]; rewrite Hbc; intros Hr.
  - rewrite good_read. by apply HR.
  - rewrite good_write. by apply HW.
Qed.

(** The end of a transfer that someone waits for. *)
Definition finished x : buf := x<|b_flags ::= λ f, Z.lor f B_DONE|><|b_flags ::= λ f, bic f B_WANTED|>.
Lemma wp_biodone_sync s k C i x (Q : unit → bstate → Prop) :
  view s k C → C !! i = Some x → has (b_flags x) B_DONE = false → has (b_flags x) B_ASYNC = false →
  (∀ s', s' = st (s<|wakes := wakes s'|>) (bufs s') → view s' k (<[i := finished x]> C) → Q tt s') →
  wp (biodone i) Q s.
Proof.
  intros Hv Hx Hd Ha HQ. unfold biodone. apply wp_bind. eapply wp_view_at; [done..|]. intros b Eb.
  destruct (strip_fields _ _ Eb) as (F1 & _). rewrite F1, Hd. clear b Eb F1. apply wp_bind. unfold set_flags.
  eapply wp_view_set; [done|done|apply same_links_flags|]. intros s1 E1 V1.
  assert (Hx1 : <[i := x<|b_flags ::= λ f, Z.lor f B_DONE|>]> C !! i = Some (x<|b_flags ::= λ f, Z.lor f B_DONE|>))
    by (apply list_lookup_insert_eq; by eapply lookup_lt_Some).
  apply wp_bind. eapply wp_view_at; [done..|]. intros b Eb. destruct (strip_fields _ _ Eb) as (F1 & _). rewrite F1. fields.
  rewrite has_lor, Ha. change (has B_DONE B_ASYNC) with false. cbn [orb]. clear b Eb F1. apply wp_bind. unfold clear_flags.
  eapply wp_view_set; [done|done|apply same_links_flags|]. intros s2 E2 V2. unfold wakeup. apply wp_modify. apply HQ.
  - fields. rewrite E2, E1. done.
  - unfold view. fields. rewrite V2. by rewrite list_insert_insert_eq.
Qed.

(** The end of a transfer that nobody waits for releases the buffer. *)
Lemma wp_biodone_async s hl fl held A i x :
  cache s hl fl (i :: held) A → core s !! i = Some x → has (b_flags x) B_DONE = false → has (b_flags x) B_ASYNC = true →
  (has (b_flags x) B_INVAL = false → bufdata s !! i = Some (A (b_dev x) (b_blkno x))) →
  wp (biodone i) (λ _ s', ∃ fl', s' = st (s<|wakes := wakes s'|>) (bufs s') ∧
    core s' = <[i := idle (x<|b_flags ::= λ f, Z.lor f B_DONE|>)]> (core s) ∧ cache s' hl fl' held A) s.
Proof.
  intros Hc Hx Hd Ha Hdat. unfold biodone. apply wp_bind. eapply wp_view_at; [apply view_init|done|]. intros b Eb.
  destruct (strip_fields _ _ Eb) as (F1 & _). rewrite F1, Hd. clear b Eb F1. apply wp_bind. unfold set_flags.
  eapply wp_view_set; [apply view_init|done|apply same_links_flags|]. intros s1 E1 V1.
  set (x1 := x<|b_flags ::= λ f, Z.lor f B_DONE|>) in *.
  assert (Hx1 : <[i := x1]> (core s) !! i = Some x1) by (apply list_lookup_insert_eq; by eapply lookup_lt_Some).
  apply wp_bind. eapply wp_view_at; [exact V1|exact Hx1|]. intros b Eb. destruct (strip_fields _ _ Eb) as (F1 & _). rewrite F1.
  unfold x1 at 1. fields. rewrite has_lor, Ha. cbn [orb]. clear b Eb F1.
  assert (Ed : bufdata s1 = bufdata s ∧ media s1 = media s ∧ starts s1 = starts s) by (by rewrite E1). destruct Ed as (Ed & Em & Es).
  destruct (co_flags (ca_core Hc) i x Hx) as (G1 & G2 & G3 & G4).
  assert (Hc1 : cache s1 hl fl (i :: held) A).
  { eapply (cache_core s s1); [exact Hc|exact V1|by rewrite Ed|done|]. rewrite Ed, Em.
    eapply core_update; [apply (ca_core Hc)|exact Hx|..]; unfold x1; fields; rewrite ?has_lor.
    - unfold is_same. fields. rewrite has_lor. split_and!; [done|done|apply orb_false_r|done].
    - done.
    - by rewrite G2.
    - by rewrite G3.
    - rewrite G4. apply orb_false_r.
    - apply orb_false_r.
    - done.
    - set_solver.
    - set_solver. }
  eapply wp_mono; [eapply (wp_brelse s1 hl fl held A i x1)|].
  - done.
  - by rewrite (view_core _ _ _ V1).
  - intros Hv _. rewrite Ed. apply Hdat. unfold x1 in Hv. fields_in Hv. rewrite has_lor in Hv. by apply orb_false_iff in Hv as [? _].
  - intros [] s2 (l' & fl' & E2 & C2 & Hc2). exists fl'. split; [|split; [|done]].
    + rewrite E2, E1. done.
    + rewrite C2, (view_core _ _ _ V1). by rewrite list_insert_insert_eq.
Qed.

(** ** Writing *)

(** What the routines below keep of the state: everything but the table, the
    counters and the wakeups. *)
Definition kept s s' : Prop := bufdata s' = bufdata s ∧ media s' = media s ∧ starts s' = starts s ∧ u_error s' = u_error s.

Lemma kept_st s s' : s' = st s (bufs s') → kept s s'.
Proof. by intros ->. Qed.
Lemma kept_wakes s s' : s' = st (s<|wakes := wakes s'|>) (bufs s') → kept s s'.
Proof. by intros ->. Qed.
Lemma kept_trans s1 s2 s3 : kept s1 s2 → kept s2 s3 → kept s1 s3.
Proof. unfold kept. intuition congruence. Qed.

Definition being_written x : buf :=
  x<|b_flags ::= λ f, bic f (Z.lor (Z.lor B_READ B_DONE) (Z.lor B_ERROR B_DELWRI))|><|b_bcount := DEV_BSIZE|>.

Definition written s s' hl held A i x d : Prop :=
  ∃ fl' x', cache s' hl fl' held (upd A (b_dev x) (b_blkno x) d) ∧ core s' = <[i := x']> (core s) ∧ is_same x x' ∧
    has (b_flags x') B_DELWRI = false ∧ bufdata s' = bufdata s ∧
    media s' = <[place parts (b_dev x) (b_blkno x) := d]> (media s) ∧ u_error s' = u_error s.

Lemma is_same_trans x1 x2 x3 : is_same x1 x2 → is_same x2 x3 → is_same x1 x3.
Proof. unfold is_same. intuition congruence. Qed.
Lemma is_same_idle x : is_same x (idle x).
Proof. unfold is_same, idle. fields. by rewrite has_bic_other. Qed.
Lemma is_same_being_written x : is_same x (being_written x).
Proof. unfold is_same, being_written. fields. by rewrite has_bic_other. Qed.
Lemma is_same_finished x : is_same x (finished x).
Proof. unfold is_same, finished. fields. rewrite has_bic_other, has_lor by done. split_and!; [done|done|apply orb_false_r|done]. Qed.

(** The wait for a transfer that is over. *)
Lemma wp_biowait_done fuel s k C i x (Q : unit → bstate → Prop) :
  view s k C → C !! i = Some x → has (b_flags x) B_DONE = true → has (b_flags x) B_ERROR = false → Q tt s →
  wp (biowait fuel i) Q s.
Proof.
  intros Hv Hx Hd He HQ. unfold biowait. apply wp_bind.
  assert (HL : wp (biowait_loop fuel i) (λ _ s', s' = s) s).
  { destruct fuel; cbn [biowait_loop]; apply wp_bind; (eapply wp_view_at; [done..|]); intros b Eb;
      destruct (strip_fields _ _ Eb) as (F1 & _); by rewrite F1, Hd. }
  eapply wp_mono; [exact HL|]. intros [] s' ->. apply wp_bind, wp_gets. destruct (Z.eqb_spec (u_error s) 0) as [E|E]; [|done].
  apply wp_bind. eapply wp_view_at; [done..|]. intros b Eb. destruct (strip_fields _ _ Eb) as (F1 & _).
  unfold geterror. rewrite F1, He. apply wp_modify. replace (s<|u_error := 0|>) with s; [done|].
  destruct s; simpl in *; by subst.
Qed.
Lemma has_busy s hl fl held A i x : cache s hl fl (i :: held) A → core s !! i = Some x → has (b_flags x) B_BUSY = true.
Proof. intros Hc Hx. destruct (co_flags (ca_core Hc) i x Hx) as (_ & _ & _ & ->). apply bool_decide_true. set_solver. Qed.

(** The write proper; [s1] is the state when the driver is called. *)
Lemma wp_bwrite_strategy `{!Volumes parts usable, !GoodDisks} fuel s s1 hl fl held A i x d :
  cache s hl fl (i :: held) A → core s !! i = Some x → has (b_flags x) B_INVAL = false → bufdata s !! i = Some d →
  kept s s1 → view s1 (proj (bufs s)) (<[i := being_written x]> (core s)) →
  wp (strategy i;;
      if negb (has (b_flags x) B_ASYNC) then biowait fuel i;; brelse i
      else if has (b_flags x) B_DELWRI then set_flags i B_AGE else mret tt) (λ _ s', written s s' hl held A i x d) s1.
Proof.
  intros Hc Hx Hv Hd (K1 & K2 & K3 & K4) V1. destruct (co_valid (ca_core Hc) i x Hx Hv) as [Hu _].
  destruct (co_flags (ca_core Hc) i x Hx) as (G1 & G2 & G3 & _). pose proof (has_busy _ _ _ _ _ _ _ Hc Hx) as G4.
  pose proof (lookup_lt_Some _ _ _ Hx) as Hlt. set (y := being_written x) in *. set (p := place parts (b_dev x) (b_blkno x)).
  assert (Hy : <[i := y]> (core s) !! i = Some y) by (by apply list_lookup_insert_eq).
  assert (Y : has (b_flags y) B_ERROR = false ∧ has (b_flags y) B_LOCKED = false ∧ has (b_flags y) B_BUSY = true ∧
    has (b_flags y) B_DONE = false ∧ has (b_flags y) B_READ = false ∧ has (b_flags y) B_DELWRI = false ∧
    has (b_flags y) B_ASYNC = has (b_flags x) B_ASYNC ∧ has (b_flags y) B_INVAL = false).
  { unfold y, being_written. fields. flag_simpl. by rewrite G3, G4, Hv. }
  destruct Y as (Y1 & Y2 & Y3 & Y4 & Y5 & Y6 & Y7 & Y8).
  apply wp_bind. eapply (wp_strategy s1 _ _ i y d); [exact V1|exact Hy|done|done|done|by rewrite K1|by rewrite K3, (ca_starts Hc)| |].
  { rewrite Y5. done. }
  intros _. change (place parts (b_dev y) (b_blkno y)) with p. rewrite K2. set (s2 := s1<|media := _|>).
  assert (V2 : view s2 (proj (bufs s)) (<[i := y]> (core s))) by done.
  assert (HC : ∀ x' s', is_same x x' → b_addr x' = i → has (b_flags x') B_ERROR = false → has (b_flags x') B_LOCKED = false →
    has (b_flags x') B_BUSY = true → kept s2 s' → view s' (proj (bufs s)) (<[i := x']> (core s)) →
    cache s' hl fl (i :: held) (upd A (b_dev x) (b_blkno x) d)).
  { intros x' s' Z1 Z2 Z3 Z4 Z5 (L1 & L2 & L3 & L4) V'. eapply (cache_core s s'); [exact Hc|exact V'|by rewrite L1, <- K1| |].
    { rewrite L3. change (starts s2) with (starts s1). by rewrite K3. }
    rewrite L1, L2. change (bufdata s2) with (bufdata s1). rewrite K1. eapply (core_written parts usable); [apply (ca_core Hc)|exact Hx|set_solver|..]; try done.
    by left. }
  destruct (has (b_flags x) B_ASYNC) eqn:Ea; cbn [negb].
  - assert (Hc2 : cache s2 hl fl (i :: held) (upd A (b_dev x) (b_blkno x) d)).
    { apply (HC y); try done. apply is_same_being_written. }
    eapply wp_mono; [eapply (wp_biodone_async s2 hl fl held _ i y); [exact Hc2|by rewrite (view_core _ _ _ V2)|done|by rewrite Y7|]|].
    { intros _. change (bufdata s2) with (bufdata s1). rewrite K1. change (b_dev y) with (b_dev x). change (b_blkno y) with (b_blkno x).
      by rewrite upd_same. }
    intros [] s3 (fl3 & E3 & C3 & Hc3). set (z := idle _) in C3.
    rewrite (view_core _ _ _ V2), list_insert_insert_eq in C3.
    assert (Z : is_same x z ∧ has (b_flags z) B_DELWRI = false ∧ has (b_flags z) B_ASYNC = false).
    { unfold z, idle. fields. rewrite has_bic_other, has_lor, Y6 by done. split_and!; [|done|by rewrite has_bic_same].
      eapply is_same_trans; [apply is_same_being_written|]. fold y. unfold is_same. fields.
      rewrite has_bic_other, has_lor by done. split_and!; [done|done|apply orb_false_r|done]. }
    destruct Z as (Z1 & Z2 & Z3). assert (K' : bufdata s3 = bufdata s ∧ media s3 = <[p := d]> (media s) ∧ u_error s3 = u_error s).
    { rewrite E3. change (bufdata (st _ _)) with (bufdata s1). change (u_error (st _ _)) with (u_error s1). by rewrite K1, K4. }
    destruct K' as (K5 & K6 & K7).
    destruct (has (b_flags x) B_DELWRI); [|apply wp_ret; by exists fl3, z].
    unfold set_flags. assert (Hz : core s3 !! i = Some z) by (rewrite C3; by apply list_lookup_insert_eq).
    eapply wp_view_set; [apply view_init|exact Hz|apply same_links_flags|]. intros s4 E4 V4.
    destruct (kept_st _ _ E4) as (L1 & L2 & L3 & L4). exists fl3, (z<|b_flags ::= λ f, Z.lor f B_AGE|>).
    destruct (co_flags (ca_core Hc3) i z Hz) as (W1 & W2 & W3 & W4).
    assert (Zs : is_same z (z<|b_flags ::= λ f, Z.lor f B_AGE|>)).
    { unfold is_same. fields. rewrite has_lor. split_and!; [done|done|apply orb_false_r|done]. }
    split; [|split; [by rewrite (view_core _ _ _ V4), C3, list_insert_insert_eq|split; [by eapply is_same_trans|]]].
    + eapply (cache_core s3 s4); [exact Hc3|exact V4|by rewrite L1|done|]. rewrite L1, L2.
      eapply core_update; [apply (ca_core Hc3)|exact Hz|exact Zs|..]; fields; rewrite ?has_lor.
      * done.
      * by rewrite W2.
      * by rewrite W3.
      * rewrite W4. apply orb_false_r.
      * apply orb_false_r.
      * done.
      * intros _. by rewrite Z3.
      * intros Hn. rewrite !orb_false_r. intros. by apply (co_data (ca_core Hc3)).
    + fields. rewrite has_lor, Z2, L1, L2, L4. split_and!; done.
  - eapply (wp_biodone_sync s2); [exact V2|exact Hy|done|by rewrite Y7|]. intros s3 E3 V3.
    rewrite list_insert_insert_eq in V3. pose proof (kept_wakes _ _ E3) as K'.
    assert (Z : is_same x (finished y) ∧ has (b_flags (finished y)) B_ERROR = false ∧ has (b_flags (finished y)) B_LOCKED = false ∧
      has (b_flags (finished y)) B_BUSY = true ∧ has (b_flags (finished y)) B_DONE = true ∧ has (b_flags (finished y)) B_DELWRI = false).
    { split; [eapply is_same_trans; [apply is_same_being_written|apply is_same_finished]|]. unfold finished. fields.
      rewrite !has_bic_other, !has_lor, Y1, Y2, Y3, Y4, Y6 by done. done. }
    destruct Z as (Z1 & Z2 & Z3 & Z4 & Z5 & Z6). set (z := finished y) in *.
    assert (Hz : <[i := z]> (core s) !! i = Some z) by (by apply list_lookup_insert_eq).
    apply wp_bind. eapply wp_biowait_done; [exact V3|exact Hz|done|done|].
    pose proof (HC z s3 Z1 G1 Z2 Z3 Z4 K' V3) as Hc3. destruct K' as (L1 & L2 & L3 & L4).
    change (bufdata s2) with (bufdata s1) in L1. change (u_error s2) with (u_error s1) in L4.
    eapply wp_mono; [eapply (wp_brelse s3 hl fl held _ i z); [exact Hc3|by rewrite (view_core _ _ _ V3)|]|].
    { intros _ _. rewrite L1, K1. destruct Z1 as (-> & -> & _). by rewrite upd_same. }
    intros [] s4 (l' & fl4 & E4 & C4 & Hc4). exists fl4, (idle z). rewrite (view_core _ _ _ V3), list_insert_insert_eq in C4.
    split; [done|]. split; [done|]. split; [eapply is_same_trans; [exact Z1|apply is_same_idle]|].
    split; [unfold idle; fields; by rewrite has_bic_other|]. rewrite E4.
    change (bufdata (st _ _)) with (bufdata s3). change (u_error (st _ _)) with (u_error s3). change (media (st _ _)) with (media s3).
    rewrite L1, L2, L4, K1, K4. done.
Qed.

Lemma wp_bwrite `{!Volumes parts usable, !GoodDisks} fuel s hl fl held A i x d :
  cache s hl fl (i :: held) A → core s !! i = Some x → has (b_flags x) B_INVAL = false → bufdata s !! i = Some d →
  wp (bwrite fuel i) (λ _ s', written s s' hl held A i x d) s.
Proof.
  intros Hc Hx Hv Hd. unfold bwrite. apply wp_bind. eapply wp_view_at; [apply view_init|exact Hx|]. intros b Eb.
  destruct (strip_fields _ _ Eb) as (F1 & _). rewrite F1. clear b Eb F1. apply wp_bind. unfold clear_flags.
  eapply wp_view_set; [apply view_init|exact Hx|apply same_links_flags|]. intros s1 E1 V1. set (x1 := x<|b_flags ::= _|>) in *.
  assert (Hx1 : <[i := x1]> (core s) !! i = Some x1) by (apply list_lookup_insert_eq; by eapply lookup_lt_Some).
  assert (HR : ∀ s2, kept s1 s2 → view s2 (proj (bufs s)) (<[i := x1]> (core s)) →
    wp (setb i (λ x, x<|b_bcount := DEV_BSIZE|>);; strategy i;;
        if negb (has (b_flags x) B_ASYNC) then biowait fuel i;; brelse i
        else if has (b_flags x) B_DELWRI then set_flags i B_AGE else mret tt) (λ _ s', written s s' hl held A i x d) s2).
  { intros s2 K2 V2. apply wp_bind. eapply wp_view_set; [exact V2|exact Hx1|by intros ?|]. intros s3 E3 V3.
    rewrite list_insert_insert_eq in V3. eapply wp_bwrite_strategy; [exact Hc|exact Hx|done|done| |exact V3].
    eapply kept_trans; [by apply kept_st|]. eapply kept_trans; [exact K2|by apply kept_st]. }
  apply wp_bind. destruct (has (b_flags x) B_DELWRI); cbn [negb].
  - apply wp_ret. by apply HR.
  - apply wp_modify. by apply HR.
Qed.

(** ** Another hash chain for a buffer *)
Definition rehashed l l' (i dp : nat) (hl hl' : nat → list nat) : Prop :=
  lAF (proj l') = lAF (proj l) ∧ lAB (proj l') = lAB (proj l) ∧ lC (proj l') = lC (proj l) ∧
  rings NBUF (lF (proj l')) (lB (proj l')) hheads hl' ∧ i ∈ hl' dp ∧ ∀ j d, j ≠ i → j ∈ hl' d ↔ j ∈ hl d.

Lemma wp_rehash s l hl d i dp (Q : unit → bstate → Prop) :
  rings NBUF (lF (proj l)) (lB (proj l)) hheads hl → (i < NBUF)%nat → d ∈ hheads → i ∈ hl d → dp ∈ hheads →
  (∀ l' hl', rehashed l l' i dp hl hl' → Q tt (st s l')) →
  wp (bremhash i) (λ _, wp (binshash i dp) Q) (st s l).
Proof.
  intros Hr Hi Hd Hin Hdp HQ. destruct (proj_length l) as (N1 & N2 & _).
  destruct (rings_links _ _ _ _ _ _ _ Hr Hd Hin) as (l1 & l2 & E & L1 & L2 & L3 & L4 & L5 & L6).
  assert (∃ x, l !! i = Some x) as [x Hx].
  { apply lookup_lt_is_Some_2. rewrite <- N1. by eapply lookup_lt_Some. }
  destruct (proj_lookup _ _ _ Hx) as (P1 & P2 & _). rewrite P1 in L1. rewrite P2 in L2. injection L1 as L1. injection L2 as L2.
  eapply (wp_bremhash s l i x); [done|rewrite L2, <- N1; by eapply lookup_lt_Some|rewrite L1, <- N2; by eapply lookup_lt_Some|by rewrite L2|].
  intros la Pa. rewrite L1, L2 in Pa. pose proof (rings_del _ _ _ _ _ _ _ _ _ Hr Hd E) as Hr1.
  set (hl1 := <[d := l1 ++ l2]> hl) in *.
  assert (Hr1' : rings NBUF (lF (proj la)) (lB (proj la)) hheads hl1) by (rewrite Pa; exact Hr1). clear Hr1.
  assert (Hn : ∀ e, e ∈ hheads → i ∉ hl1 e).
  { pose proof (rg_nodup _ _ _ _ _ Hr d Hd) as Hnd. rewrite E in Hnd.
    rewrite <- Permutation_middle, NoDup_cons in Hnd. destruct Hnd as [Hnd _]. intros e He. unfold hl1.
    destruct (decide (e = d)) as [->|Hne]; [by rewrite fn_lookup_insert|]. rewrite fn_lookup_insert_ne by done.
    intros Hie. apply Hne. by eapply (rg_disj _ _ _ _ _ Hr). }
  destruct (proj_length la) as (M1 & M2 & _).
  destruct (rings_head _ _ _ _ _ _ Hr1' Hdp) as (K1 & K2 & K3 & K4).
  assert (Hni : ∀ a, a ∈ dp :: hl1 dp → a ≠ i).
  { intros a [->|Ha]%elem_of_cons ->; [|by eapply Hn]. pose proof (rg_heads _ _ _ _ _ Hr1' i Hdp). lia. }
  pose proof (Hni _ (succ_elem dp (hl1 dp))) as Hsn. pose proof (Hni dp ltac:(set_solver)) as Hdn.
  assert (Hlen : length la = length l).
  { rewrite <- M1, Pa. fields. by rewrite length_insert. }
  assert (∃ y, la !! i = Some y) as [y Hy].
  { apply lookup_lt_is_Some_2. rewrite Hlen. by eapply lookup_lt_Some. }
  assert (∃ z, la !! dp = Some z) as [z Hz].
  { apply lookup_lt_is_Some_2. rewrite <- M1. by eapply lookup_lt_Some. }
  destruct (proj_lookup _ _ _ Hz) as (P3 & _). rewrite P3 in K1. injection K1 as K1.
  eapply (wp_binshash s la i dp y z); [done|done|done|rewrite K1, <- M2; by eapply lookup_lt_Some|].
  intros lb Pb. rewrite K1 in Pb. apply (HQ lb (<[dp := i :: hl1 dp]> hl1)). unfold rehashed.
  split; [by rewrite Pb, Pa|]. split; [by rewrite Pb, Pa|]. split; [by rewrite Pb, Pa|].
  assert (Li : (i < length (lF (proj la)))%nat ∧ (i < length (lB (proj la)))%nat) by (rewrite M1, M2, Hlen; split; by eapply lookup_lt_Some).
  assert (Ld : (dp < length (lF (proj la)))%nat) by (rewrite M1; by eapply lookup_lt_Some).
  pose proof (lookup_lt_Some _ _ _ K3) as Ls. destruct Li as [Li1 Li2]. split.
  { rewrite Pb. fields. eapply (rings_add _ _ _ _ _ _ hl1 dp [] i (hl1 dp)); [exact Hr1'|done|done|done|done|..].
    + intros a Ha Hp. by rewrite !list_lookup_insert_ne by done.
    + intros a Ha Hp. by rewrite !list_lookup_insert_ne by done.
    + by rewrite list_lookup_insert_eq by (by rewrite length_insert).
    + rewrite list_lookup_insert_ne by done. by rewrite list_lookup_insert_eq.
    + by rewrite list_lookup_insert_eq by (by rewrite length_insert).
    + rewrite list_lookup_insert_ne by done. by rewrite list_lookup_insert_eq. }
  split; [rewrite fn_lookup_insert; set_solver|]. intros j e Hj.
  assert (H1 : j ∈ hl1 e ↔ j ∈ hl e).
  { unfold hl1. destruct (decide (e = d)) as [->|]; [rewrite fn_lookup_insert, E; set_solver|by rewrite fn_lookup_insert_ne]. }
  rewrite <- H1. destruct (decide (e = dp)) as [->|]; [rewrite fn_lookup_insert; set_solver|by rewrite fn_lookup_insert_ne].
Qed.

(** A buffer that holds nothing that is not on the disk becomes that of
    another block, or of none. *)
Lemma core_reassign C data md hl hl' held A i x x' :
  core_ok C data md hl (i :: held) A → C !! i = Some x → has (b_flags x) B_DELWRI = false →
  b_addr x' = i → has (b_flags x') B_ERROR = false → has (b_flags x') B_LOCKED = false → has (b_flags x') B_BUSY = true →
  has (b_flags x') B_DELWRI = false → b_resid x' = b_resid x →
  (∀ j d, j ≠ i → j ∈ hl' d ↔ j ∈ hl d) →
  (has (b_flags x') B_INVAL = false → usable (b_dev x') (b_blkno x') ∧ i ∈ hl' (BUFHASH (b_dev x') (b_blkno x')) ∧
     ∀ j y, C !! j = Some y → j ≠ i → is_block y (b_dev x') (b_blkno x') = false) →
  core_ok (<[i := x']> C) data md hl' (i :: held) A.
Proof.
  intros Hc Hx Hnd F1 F2 F3 F4 F5 F6 Hh Hnew. split.
  - intros j z [[-> ->]|[Hne Hz]]%insert_cases; [rewrite bool_decide_true by set_solver; done|by apply Hc].
  - intros j z [[-> ->]|[Hne Hz]]%insert_cases Hn; [set_solver|]. by eapply co_quiet.
  - intros j z [[-> ->]|[Hne Hz]]%insert_cases Hv; [by destruct (Hnew Hv) as (? & ? & _)|]. rewrite Hh by done. by apply Hc.
  - intros j z [[-> ->]|[Hne Hz]]%insert_cases; [by rewrite F5|by eapply co_dirty].
  - intros j z [[-> ->]|[Hne Hz]]%insert_cases Hn; [set_solver|]. by apply Hc.
  - assert (HU : ∀ j y, C !! j = Some y → j ≠ i → has (b_flags x') B_INVAL = false → has (b_flags y) B_INVAL = false →
       b_dev y = b_dev x' → b_blkno y = b_blkno x' → False).
    { intros j y Hy Hne V1 V2 E1 E2. destruct (Hnew V1) as (_ & _ & HU). specialize (HU j y Hy Hne).
      rewrite (proj2 (is_block_spec y (b_dev x') (b_blkno x'))) in HU; done. }
    intros j k y z [[-> ->]|[Hne Hy]]%insert_cases [[-> ->]|[Hne' Hz]]%insert_cases V1 V2 E1 E2; [done|..].
    + exfalso. by eapply (HU k z).
    + exfalso. by eapply (HU j y).
    + by eapply (co_unique Hc j k).
  - intros dev blk Hu. destruct (co_media Hc dev blk Hu) as [E|(j & y & Hy & Hb & Hd)]; [by left|right].
    exists j, y. rewrite list_lookup_insert_ne; [done|]. intros <-. congruence.
  - intros j z [[-> ->]|[Hne Hz]]%insert_cases; [rewrite F6|]; by eapply co_resid.
Qed.
End Ops.
