(* ===== verification/Store.v ===== *)
(** * Blocks through the cache

    The routines that find, read, write and flush blocks, on top of the
    invariant of Cache.v, and what they show to their callers: an array of
    blocks. *)
From stdpp Require Import functions.
From stdpp Require Import base tactics list option strings numbers gmap.
From S2P Require Import Prelude Ring Bio Cache.
Open Scope Z_scope.

Section Store.
Context `{Disks} (parts : list (list Z)) (usable : Z → Z → Prop) `{!Volumes parts usable, !GoodDisks}.
Implicit Types (s : bstate) (x y : buf) (C : list buf) (hl fl : nat → list nat) (held : list nat) (A : Z → Z → block).
Notation cache := (cache parts usable).
Notation core_ok := (core_ok parts usable).
Notation cache_ok := (cache_ok parts usable).
Notation written := (written parts usable).

Lemma core_ext C data md hl held A A' : (∀ v b, A v b = A' v b) → core_ok C data md hl held A → core_ok C data md hl held A'.
Proof.
  intros E Hc. split; try apply Hc.
  - intros i x. rewrite <- E. apply Hc.
  - intros dev blk. rewrite <- E. apply Hc.
Qed.
Lemma cache_ext s hl fl held A A' : (∀ v b, A v b = A' v b) → cache s hl fl held A → cache s hl fl held A'.
Proof. intros E Hc. split; try apply Hc. eapply core_ext; [done|apply Hc]. Qed.
Lemma upd_id A dev blk v b : upd A dev blk (A dev blk) v b = A v b.
Proof. unfold upd. case_decide as E; [by destruct E as [-> ->]|done]. Qed.

(** ** A free buffer *)
Lemma fheads_cases d : d ∈ fheads → d = bfreelist BQ_LOCKED ∨ d = bfreelist BQ_LRU ∨ d = bfreelist BQ_AGE.
Proof. unfold fheads. simpl. set_solver. Qed.

Lemma wp_nonempty_queue s hl fl held A q : cache s hl fl held A → (q < BQUEUES)%nat →
  wp (nonempty_queue q) (λ r s', s' = s ∧
    match r with Some d => d ∈ fheads ∧ ∃ i l, fl d = i :: l | None => ∀ p, (0 < p ≤ q)%nat → fl (bfreelist p) = [] end) s.
Proof.
  intros Hc. induction q as [|q IH]; intros Hq; [apply wp_ret; split; [done|]; lia|]. cbn [nonempty_queue].
  assert (Hin : bfreelist (S q) ∈ fheads) by (unfold fheads; apply list_elem_of_fmap; exists (S q); split; [done|]; apply elem_of_seq; lia).
  destruct (head_node _ _ s hl fl held A (bfreelist (S q)) Hc) as [b Hb]; [by right|].
  destruct (rings_head _ _ _ _ _ _ (ca_free Hc) Hin) as (L1 & _).
  destruct (proj_lookup _ _ _ Hb) as (_ & _ & P3 & _). rewrite P3 in L1. injection L1 as L1.
  apply wp_st, wp_bind. eapply wp_buf_at; [done|]. rewrite st_id, L1. destruct (Nat.eqb_spec (succ (bfreelist (S q)) (fl (bfreelist (S q)))) (bfreelist (S q))) as [E|E].
  - eapply wp_mono; [apply IH; lia|]. intros [d|] s' [-> Hr]; (split; [done|]); [done|].
    intros p Hp. destruct (decide (p = S q)) as [->|]; [|apply Hr; lia]. destruct (fl (bfreelist (S q))) as [|i l] eqn:Ef; [done|].
    simpl in E. pose proof (rg_member _ _ _ _ _ (ca_free Hc) _ i Hin ltac:(rewrite Ef; set_solver)) as Hm.
    pose proof (rg_heads _ _ _ _ _ (ca_free Hc) _ Hin). lia.
  - apply wp_ret. split; [done|]. split; [done|]. destruct (fl (bfreelist (S q))) as [|i l]; [done|eauto].
Qed.

(** There is a free buffer unless all are in use. *)
Lemma free_exists s hl fl held A : cache s hl fl held A → (length held < NBUF)%nat → ∃ i, (i < NBUF)%nat ∧ i ∉ held.
Proof.
  intros Hc Hl. destruct (decide (Forall (λ i, i ∈ held) (seq 0 NBUF))) as [HF|HF].
  - exfalso. assert (HS : seq 0 NBUF ⊆+ held).
    { apply NoDup_submseteq; [apply NoDup_seq|]. by apply Forall_forall. }
    apply submseteq_length in HS. rewrite length_seq in HS. lia.
  - apply not_Forall_Exists in HF; [|apply _]. apply Exists_exists in HF as (i & Hi & Hn).
    exists i. apply elem_of_seq in Hi. split; [lia|done].
Qed.

Definition dirty (x : buf) : bool := has (b_flags x) B_DELWRI.
Definition dirties s : Z := count dirty (core s).

(** What a search for a buffer leaves to those who use the others. *)
Definition undisturbed held s s' : Prop :=
  (∀ j, j ∈ held → core s' !! j = core s !! j ∧ bufdata s' !! j = bufdata s !! j) ∧ u_error s' = u_error s.
Lemma undisturbed_refl held s : undisturbed held s s.
Proof. done. Qed.
Lemma undisturbed_trans held s1 s2 s3 : undisturbed held s1 s2 → undisturbed held s2 s3 → undisturbed held s1 s3.
Proof.
  intros [A1 A2] [B1 B2]. split; [|congruence]. intros j Hj. destruct (A1 j Hj), (B1 j Hj). split; congruence.
Qed.
Lemma undisturbed_insert held s s' i x : core s' = <[i := x]> (core s) → bufdata s' = bufdata s → u_error s' = u_error s →
  i ∉ held → undisturbed held s s'.
Proof.
  intros E1 E2 E3 Hi. split; [|done]. intros j Hj. rewrite E1, E2, list_lookup_insert_ne; [done|]. by intros ->.
Qed.

(** A delayed write that is done now. *)
Lemma wp_bawrite fuel s hl fl held A i x d :
  cache s hl fl (i :: held) A → core s !! i = Some x → has (b_flags x) B_INVAL = false → bufdata s !! i = Some d →
  wp (bawrite fuel i) (λ _ s', written s s' hl held A i x d) s.
Proof.
  intros Hc Hx Hv Hd. unfold bawrite. apply wp_bind. unfold set_flags.
  eapply wp_view_set; [apply view_init|exact Hx|apply same_links_flags|]. intros s1 E1 V1. set (x1 := x<|b_flags ::= _|>) in *.
  destruct (kept_st _ _ E1) as (K1 & K2 & K3 & K4). destruct (co_flags (ca_core Hc) i x Hx) as (F1 & F2 & F3 & F4).
  assert (Hs : is_same x x1) by (unfold is_same, x1; fields; rewrite has_lor; split_and!; [done|done|apply orb_false_r|done]).
  assert (Hc1 : cache s1 hl fl (i :: held) A).
  { eapply (cache_core _ _ s s1); [exact Hc|exact V1|by rewrite K1|done|]. rewrite K1, K2.
    eapply core_update; [apply (ca_core Hc)|exact Hx|exact Hs|..]; unfold x1; fields; rewrite ?has_lor.
    - done.
    - by rewrite F2.
    - by rewrite F3.
    - rewrite F4. apply orb_false_r.
    - apply orb_false_r.
    - done.
    - set_solver.
    - set_solver. }
  pose proof (view_core _ _ _ V1) as Ec.
  assert (Hx1 : core s1 !! i = Some x1) by (rewrite Ec; apply list_lookup_insert_eq; by eapply lookup_lt_Some).
  eapply wp_mono; [eapply (wp_bwrite parts usable fuel s1 hl fl held A i x1 d); [done|done| |by rewrite K1]|].
  { destruct Hs as (_ & _ & -> & _). done. }
  intros [] s2 (fl2 & x2 & W1 & W2 & W3 & W4 & W5 & W6 & W7). exists fl2, x2.
  rewrite W2, Ec, list_insert_insert_eq, W5, W6, W7, K1, K2, K4. split_and!; try done. by eapply is_same_trans.
Qed.

Lemma busy_buf x : x<|b_flags ::= λ f, Z.lor f B_BUSY|><|b_flags := B_BUSY|> = x<|b_flags := B_BUSY|>.
Proof. done. Qed.

(** [i] is a buffer that is out of the free lists and whose old contents may be
    dropped; its flags are set for a new use. *)
Definition fresh_buf s s' hl held A (i : nat) : Prop :=
  ∃ s1 fl' x, (i < NBUF)%nat ∧ i ∉ held ∧ cache s1 hl fl' (i :: held) A ∧ core s1 !! i = Some x ∧
    has (b_flags x) B_DELWRI = false ∧ undisturbed held s s1 ∧ s' = st s1 (bufs s') ∧
    view s' (proj (bufs s1)) (<[i := x<|b_flags := B_BUSY|>]> (core s1)) ∧
    ∀ j y, core s1 !! j = Some y → ∃ z, core s !! j = Some z ∧ is_same z y.

Lemma same_all s s' i x x' :
  core s !! i = Some x → is_same x x' → core s' = <[i := x']> (core s) →
  ∀ j y, core s' !! j = Some y → ∃ z, core s !! j = Some z ∧ is_same z y.
Proof.
  intros Hx Hs E j y. rewrite E. intros [[-> ->]|[Hne Hy]]%insert_cases; [by exists x|]. by exists y.
Qed.
Lemma same_busy x : is_same x (x<|b_flags ::= λ f, Z.lor f B_BUSY|>).
Proof. unfold is_same. fields. rewrite has_lor. split_and!; [done|done|apply orb_false_r|done]. Qed.

Lemma wp_getnewbuf fuel : ∀ s hl fl held A,
  cache s hl fl held A → (length held < NBUF)%nat → dirties s < Z.of_nat fuel →
  wp (getnewbuf fuel) (λ i s', fresh_buf s s' hl held A i) s.
Proof.
  induction fuel as [|fuel IH]; intros s hl fl held A Hc Hl Hf; [pose proof (count_range dirty (core s)) as Hcr; unfold dirties in Hf; lia|].
  cbn [getnewbuf]. apply wp_bind. eapply wp_mono; [apply (wp_nonempty_queue s hl fl held A BQ_AGE Hc); unfold BQ_AGE, BQUEUES; lia|].
  intros [d|] s' [-> Hr].
  2:{ exfalso. destruct (free_exists _ _ _ _ _ Hc Hl) as (i & Hi & Hn). destruct (ca_freed Hc i Hi Hn) as (d & Hd & Hid).
      apply fheads_cases in Hd as [-> | [-> | ->]]; [rewrite (ca_locked Hc) in Hid|rewrite Hr in Hid|rewrite Hr in Hid];
        unfold BQ_AGE, BQ_LRU in *; try lia; by apply elem_of_nil in Hid. }
  destruct Hr as (Hd & i & l & Efl). destruct (head_node _ _ s hl fl held A d Hc) as [b Hb]; [by right|].
  destruct (rings_head _ _ _ _ _ _ (ca_free Hc) Hd) as (L1 & _). rewrite Efl in L1. simpl succ in L1.
  destruct (proj_lookup _ _ _ Hb) as (_ & _ & P3 & _). rewrite P3 in L1. injection L1 as L1.
  apply wp_bind. apply wp_st. eapply wp_buf_at; [done|]. rewrite st_id, L1.
  assert (Hin : i ∈ fl d) by (rewrite Efl; set_solver). pose proof (rg_member _ _ _ _ _ (ca_free Hc) _ _ Hd Hin) as Hi.
  assert (Hn : i ∉ held) by (intros Hh; by apply (ca_held Hc i d Hh Hd)).
  apply wp_bind. eapply wp_mono; [apply (wp_notavail _ _ s hl fl held A i Hc Hi Hn)|].
  intros [] s1 (l1 & x & fl1 & E1 & Hx & C1 & Hc1). set (y := x<|b_flags ::= _|>) in C1.
  assert (Hy : core s1 !! i = Some y) by (rewrite C1; apply list_lookup_insert_eq; by eapply lookup_lt_Some).
  assert (U1 : undisturbed held s s1) by (eapply undisturbed_insert; [exact C1|by rewrite E1|by rewrite E1|done]).
  apply wp_bind. eapply wp_view_at; [apply view_init|exact Hy|]. intros b' Eb. destruct (strip_fields _ _ Eb) as (F1 & _). rewrite F1. clear b' Eb F1.
  assert (Ed : has (b_flags y) B_DELWRI = has (b_flags x) B_DELWRI) by (unfold y; fields; rewrite has_lor; apply orb_false_r).
  assert (Ev : has (b_flags y) B_INVAL = has (b_flags x) B_INVAL) by (unfold y; fields; rewrite has_lor; apply orb_false_r).
  rewrite Ed. destruct (has (b_flags x) B_DELWRI) eqn:Edw.
  - pose proof (co_dirty (ca_core Hc) i x Hx Edw) as Hv.
    assert (Hdat : bufdata s1 !! i = Some (A (b_dev x) (b_blkno x))).
    { rewrite E1. apply (co_data (ca_core Hc) i x Hx Hn Hv). unfold has in *. rewrite negb_true_iff, Z.eqb_neq in *.
      intros E. apply Edw. rewrite Z.land_lor_distr_r in E. by apply Z.lor_eq_0_iff in E as [_ E]. }
    apply wp_bind. eapply wp_mono; [apply (wp_bawrite fuel s1 hl fl1 held A i y (A (b_dev x) (b_blkno x)) Hc1 Hy); [by rewrite Ev|exact Hdat]|].
    intros [] s2 (fl2 & x2 & W1 & W2 & W3 & W4 & W5 & W6 & W7).
    assert (Hc2 : cache s2 hl fl2 held A) by (eapply cache_ext; [|exact W1]; intros; apply upd_id).
    assert (U2 : undisturbed held s1 s2) by (by eapply undisturbed_insert).
    eapply wp_mono; [apply (IH s2 hl fl2 held A Hc2 Hl)|].
    { unfold dirties in *. rewrite W2, C1, list_insert_insert_eq, (count_insert _ _ _ _ x) by done. unfold dirty at 2 3. rewrite W4, Edw. simpl. lia. }
    intros j s3 (s4 & fl4 & x4 & J1 & J2 & J3 & J4 & J5 & J6 & J7 & J8 & J9). exists s4, fl4, x4.
    split_and!; try done; [by eapply undisturbed_trans; [|eapply undisturbed_trans]|].
    intros k z Hz. destruct (J9 k z Hz) as (z1 & Hz1 & S1).
    destruct (same_all s1 s2 i y x2 Hy W3 W2 k z1 Hz1) as (z2 & Hz2 & S2).
    destruct (same_all s s1 i x y Hx (same_busy x) C1 k z2 Hz2) as (z3 & Hz3 & S3).
    exists z3. split; [done|]. eapply is_same_trans; [exact S3|]. by eapply is_same_trans.
  - assert (HE : ∀ s2, s2 = st s1 (bufs s2) → view s2 (proj (bufs s1)) (core s1) →
      wp (setb i (λ x, x<|b_flags := B_BUSY|>);; mret i) (λ i s', fresh_buf s s' hl held A i) s2).
    { intros s2 E2 V2. apply wp_bind. eapply wp_view_set; [exact V2|exact Hy|by intros ?|]. intros s3 E3 V3. apply wp_ret.
      exists s1, fl1, y. split_and!; try done.
      - rewrite E3, E2. done.
      - by eapply same_all; [exact Hx|apply same_busy|]. }
    apply wp_bind. destruct (has (b_flags y) (Z.lor B_RAMREMAP B_PHYS)).
    + eapply wp_view_set; [apply view_init|exact Hy|by intros ?|]. intros s2 E2 V2. apply HE; [done|].
      destruct (co_flags (ca_core Hc1) i y Hy) as (Ha & _).
      replace (y<|b_addr := i|>) with y in V2 by (rewrite <- Ha; by destruct y).
      by rewrite list_insert_id in V2.
    + apply wp_ret. apply HE; [by rewrite st_id|done].
Qed.

(** ** Finding a block *)
Lemma BUFHASH_head dev blk : BUFHASH dev blk ∈ hheads.
Proof.
  unfold hheads, BUFHASH. apply elem_of_cons. right. apply list_elem_of_fmap. eexists. split; [done|].
  apply elem_of_seq. change 15 with (Z.ones 4). rewrite Z.land_ones by lia. pose proof (Z.mod_pos_bound (dev + blk) (2^4)).
  unfold BUFHSZ. lia.
Qed.

Lemma wp_hash_find s hl fl held A dev blk : cache s hl fl held A → ∀ rest done_ n,
  let dp := BUFHASH dev blk in
  hl dp = done_ ++ rest → (length rest ≤ n)%nat →
  wp (hash_find n (succ dp rest) dp dev blk) (λ r s', s' = s ∧
    match r with
    | Some i => ∃ x, core s !! i = Some x ∧ is_block x dev blk = true
    | None => ∀ i x, i ∈ rest → core s !! i = Some x → is_block x dev blk = false
    end) s.
Proof.
  intros Hc rest. induction rest as [|i rest IH]; intros done_ n dp E Hn.
  - simpl succ. destruct n; cbn [hash_find]; rewrite Nat.eqb_refl; (apply wp_ret; split; [done|]; set_solver).
  - destruct n as [|n]; simpl in Hn; [lia|]. simpl succ. cbn [hash_find].
    assert (Hdp : dp ∈ hheads) by apply BUFHASH_head. assert (Hin : i ∈ hl dp) by (rewrite E; set_solver).
    pose proof (rg_member _ _ _ _ _ (ca_hash Hc) _ _ Hdp Hin) as Hi. pose proof (rg_heads _ _ _ _ _ (ca_hash Hc) _ Hdp) as Hh.
    rewrite (proj2 (Nat.eqb_neq i dp)) by lia. destruct (core_node _ _ _ _ _ _ _ _ Hc Hi) as (b & Hb & Hx).
    apply wp_bind. apply wp_st. eapply wp_buf_at; [done|]. rewrite st_id.
    assert (Eb : is_block b dev blk = is_block (strip b) dev blk) by done. rewrite Eb.
    destruct (is_block (strip b) dev blk) eqn:Ei; [apply wp_ret; eauto|].
    pose proof (rg_fw _ _ _ _ _ (ca_hash Hc) dp Hdp) as Hr. rewrite E in Hr. apply ring_next in Hr.
    destruct (proj_lookup _ _ _ Hb) as (P1 & _). rewrite P1 in Hr. injection Hr as Hr. rewrite Hr.
    eapply wp_mono; [apply (IH (done_ ++ [i]) n); [by rewrite <- app_assoc|lia]|].
    intros [j|] s' [-> Hj]; (split; [done|]); [done|]. intros j y [->|Hin']%elem_of_cons Hy; [congruence|eauto].
Qed.
Lemma hash_length s hl fl held A d : cache s hl fl held A → d ∈ hheads → (length (hl d) ≤ NBUF)%nat.
Proof.
  intros Hc Hd. apply NoDup_lt_length; [by apply (rg_nodup _ _ _ _ _ (ca_hash Hc))|]. apply Forall_forall.
  intros i Hi. by apply (rg_member _ _ _ _ _ (ca_hash Hc) d).
Qed.
Lemma wp_chain_find s hl fl held A dev blk : cache s hl fl held A →
  wp (chain_find dev blk) (λ r s', s' = s ∧
    match r with
    | Some i => ∃ x, core s !! i = Some x ∧ is_block x dev blk = true
    | None => ∀ i x, core s !! i = Some x → is_block x dev blk = false
    end) s.
Proof.
  intros Hc. unfold chain_find. pose proof (BUFHASH_head dev blk) as Hd.
  destruct (head_node _ _ s hl fl held A (BUFHASH dev blk) Hc) as [b Hb]; [by left|].
  destruct (rings_head _ _ _ _ _ _ (ca_hash Hc) Hd) as (L1 & _).
  destruct (proj_lookup _ _ _ Hb) as (P1 & _). rewrite P1 in L1. injection L1 as L1.
  apply wp_bind. apply wp_st. eapply wp_buf_at; [done|]. rewrite st_id, L1. apply wp_bind, wp_gets.
  eapply wp_mono; [apply (wp_hash_find s hl fl held A dev blk Hc (hl (BUFHASH dev blk)) []); [done|]|].
  { rewrite (ca_len Hc). pose proof (hash_length _ _ _ _ _ _ Hc Hd). lia. }
  intros [i|] s' [-> Hr]; (split; [done|]); [done|]. intros i x Hx. destruct (is_block x dev blk) eqn:E; [|done].
  pose proof E as (E1 & E2 & E3)%is_block_spec. destruct (co_valid (ca_core Hc) i x Hx E3) as [_ Hin]. rewrite E1, E2 in Hin.
  rewrite (Hr i x Hin Hx) in E. done.
Qed.

(** ** Getting a buffer for a block *)

(** Nobody is using the block. *)
Definition unused s held dev blk : Prop := ∀ i x, i ∈ held → core s !! i = Some x → is_block x dev blk = false.

(** The buffer [i] was obtained for the block. *)
Definition obtained s s' held A dev blk (i : nat) : Prop :=
  i ∉ held ∧ undisturbed held s s' ∧ ∃ hl fl x, cache s' hl fl (i :: held) A ∧ core s' !! i = Some x ∧
    is_block x dev blk = true ∧ has (b_flags x) B_ASYNC = false ∧
    (has (b_flags x) (Z.lor B_DONE B_DELWRI) = true → bufdata s' !! i = Some (A dev blk)).

(** The buffer [i] has nothing of its block yet. *)
Definition empty_buf s (i : nat) : Prop := ∀ x, core s !! i = Some x → has (b_flags x) (Z.lor B_DONE B_DELWRI) = false.

(** A buffer in use has moved to another hash chain. *)
Lemma rehashed_cache s1 s2 s6 l' hl hl' fl held A i dp C2 C6 :
  cache s1 hl fl (i :: held) A → proj (bufs s2) = (proj (bufs s1))<|lC := C2|> → rehashed (bufs s2) l' i dp hl hl' →
  dp ∈ hheads → view s6 (proj l') C6 → kept s1 s6 → core_ok C6 (bufdata s1) (media s1) hl' (i :: held) A →
  cache s6 hl' fl (i :: held) A.
Proof.
  intros Hc1 L2 (R1 & R2 & R3 & R4 & R5 & R6) Hdp V6 (K1 & K2 & K3 & K4) Hco. split; try (apply Hc1).
  - destruct (proj_length (bufs s6)) as (_ & _ & <- & _). rewrite V6. fields. rewrite R1, L2. fields.
    destruct (proj_length (bufs s1)) as (_ & _ & -> & _). apply Hc1.
  - rewrite K1. apply Hc1.
  - rewrite V6. fields. exact R4.
  - rewrite V6. fields. rewrite R1, R2, L2. fields. apply (ca_free Hc1).
  - intros j Hj. destruct (decide (j = i)) as [->|Hne]; [by exists dp|].
    destruct (ca_hashed Hc1 j Hj) as (e & He & Hje). exists e. split; [done|]. by apply R6.
  - rewrite V6, K1, K2. fields. exact Hco.
  - rewrite K3. apply Hc1.
Qed.

(** The end of [getblk] when the block was not in the cache. *)
Lemma wp_reassign s0 s s' hl held A dev blk i :
  fresh_buf s0 s' hl held A i → undisturbed held s s0 → usable dev blk →
  (∀ j y, core s0 !! j = Some y → is_block y dev blk = false) →
  wp (setb i (λ x, x<|b_bcount := 0|>);; bremhash i;; binshash i (BUFHASH dev blk);;
      setb i (λ x, x<|b_dev := dev|>);; setb i (λ x, x<|b_blkno := blk|>);; setb i (λ x, x<|b_error := 0|>);; mret i)
    (λ i s', obtained s s' held A dev blk i ∧ empty_buf s' i) s'.
Proof.
  intros (s1 & fl & x & Hi & Hn & Hc1 & Hx & Hnd & U & E' & V & HS) U0 Hu Hno.
  set (x1 := x<|b_flags := B_BUSY|>) in *. assert (Hlt : (i < length (core s1))%nat) by (by eapply lookup_lt_Some).
  assert (Hx1 : <[i := x1]> (core s1) !! i = Some x1) by (by apply list_lookup_insert_eq).
  apply wp_bind. eapply wp_view_set; [exact V|exact Hx1|by intros ?|]. intros s2 E2 V2. rewrite list_insert_insert_eq in V2.
  set (x2 := x1<|b_bcount := 0|>) in *. destruct (ca_hashed Hc1 i Hi) as (d & Hd & Hid).
  assert (L2 : proj (bufs s2) = (proj (bufs s1))<|lC := <[i := x2]> (core s1)|>) by exact V2.
  apply wp_bind. apply wp_st.
  assert (HW : ∀ l' hl', rehashed (bufs s2) l' i (BUFHASH dev blk) hl hl' →
    wp (setb i (λ x, x<|b_dev := dev|>);; setb i (λ x, x<|b_blkno := blk|>);; setb i (λ x, x<|b_error := 0|>);; mret i)
      (λ i s', obtained s s' held A dev blk i ∧ empty_buf s' i) (st s2 l')).
  { intros l' hl' (R1 & R2 & R3 & R4 & R5 & R6).
    assert (V3 : view (st s2 l') (proj l') (<[i := x2]> (core s1))).
    { unfold view. change (bufs (st s2 l')) with l'. assert (EC : lC (proj l') = <[i := x2]> (core s1)) by (by rewrite R3, L2).
      rewrite <- EC. by destruct (proj l'). }
    assert (Hx2 : <[i := x2]> (core s1) !! i = Some x2) by (by apply list_lookup_insert_eq).
    apply wp_bind. eapply wp_view_set; [exact V3|exact Hx2|by intros ?|]. intros s4 E4 V4. rewrite list_insert_insert_eq in V4.
    apply wp_bind. eapply wp_view_set; [exact V4|by apply list_lookup_insert_eq|by intros ?|]. intros s5 E5 V5. rewrite list_insert_insert_eq in V5.
    apply wp_bind. eapply wp_view_set; [exact V5|by apply list_lookup_insert_eq|by intros ?|]. intros s6 E6 V6. rewrite list_insert_insert_eq in V6.
    apply wp_ret. set (x6 := x2<|b_dev := dev|><|b_blkno := blk|><|b_error := 0|>) in V6.
    assert (K : kept s1 s6).
    { do 3 (eapply kept_trans; [|apply kept_st; eassumption]). eapply kept_trans; [apply kept_st, E'|].
      eapply kept_trans; [apply kept_st, E2|]. done. }
    pose proof K as (K1 & K2 & K3 & K4). pose proof (view_core _ _ _ V6) as C6.
    destruct (co_flags (ca_core Hc1) i x Hx) as (G1 & _).
    assert (Hc6 : cache s6 hl' fl (i :: held) A).
    { eapply (rehashed_cache s1 s2 s6 l' hl hl' fl held A i (BUFHASH dev blk)); [done|exact L2|exact (conj R1 (conj R2 (conj R3 (conj R4 (conj R5 R6)))))|apply BUFHASH_head|exact V6|done|].
      eapply core_reassign; [apply (ca_core Hc1)|exact Hx|done|done|done|done|done|done|done|exact R6|].
      intros _. split; [done|]. split; [exact R5|]. intros j y Hy Hne. destruct (HS j y Hy) as (z & Hz & S1 & S2 & S3 & _).
      specialize (Hno j z Hz). unfold is_block in *. change (b_dev x6) with dev. change (b_blkno x6) with blk. by rewrite S1, S2, S3. }
    assert (Hx6 : core s6 !! i = Some x6) by (rewrite C6; by apply list_lookup_insert_eq).
    split; [|intros z Hz; by replace z with x6 by congruence]. split; [done|]. split.
    - eapply undisturbed_trans; [exact U0|]. eapply undisturbed_trans; [exact U|]. eapply undisturbed_insert; [exact C6|done|done|done].
    - exists hl', fl, x6. split; [done|]. split; [done|].
      split; [apply is_block_spec; by vm_compute|]. by split. }
  assert (HR : wp (bremhash i) (λ _, wp (binshash i (BUFHASH dev blk))
     (λ _, wp (setb i (λ x, x<|b_dev := dev|>);; setb i (λ x, x<|b_blkno := blk|>);; setb i (λ x, x<|b_error := 0|>);; mret i)
        (λ i s', obtained s s' held A dev blk i ∧ empty_buf s' i))) (st s2 (bufs s2))).
  { eapply (wp_rehash s2 (bufs s2) hl d); [rewrite L2; apply (ca_hash Hc1)|done|done|done|apply BUFHASH_head|exact HW]. }
  eapply wp_mono; [exact HR|]. intros [] s3 HB. apply wp_bind. exact HB.
Qed.

Lemma wp_getblk_full fuel s held A dev blk :
  cache_ok s held A → usable dev blk → unused s held dev blk → (length held < NBUF)%nat → (NBUF + 2 ≤ fuel)%nat →
  wp (getblk fuel dev blk) (λ i s', obtained s s' held A dev blk i ∧
    ((∃ x, core s !! i = Some x ∧ is_block x dev blk = true) ∨ empty_buf s' i)) s.
Proof.
  intros (hl & fl & Hc) Hu Hun Hl Hf. destruct fuel as [|fuel]; [lia|]. cbn [getblk]. apply wp_bind.
  eapply wp_mono; [apply (wp_chain_find s hl fl held A dev blk Hc)|]. intros [i|] s' [-> Hr].
  - destruct Hr as (x & Hx & Hb). apply wp_bind. eapply wp_view_at; [apply view_init|exact Hx|]. intros b Eb.
    destruct (strip_fields _ _ Eb) as (F1 & _). rewrite F1. clear b Eb F1.
    destruct (co_flags (ca_core Hc) i x Hx) as (G1 & G2 & G3 & G4).
    assert (Hn : i ∉ held) by (intros Hi; specialize (Hun i x Hi Hx); congruence). rewrite G4, bool_decide_false by done.
    assert (Hi : (i < NBUF)%nat) by (rewrite <- (core_length _ _ _ _ _ _ _ Hc); by eapply lookup_lt_Some).
    apply wp_bind. eapply wp_mono; [apply (wp_notavail _ _ s hl fl held A i Hc Hi Hn)|].
    intros [] s1 (l1 & x' & fl1 & E1 & Hx' & C1 & Hc1). assert (x' = x) as -> by congruence. apply wp_ret.
    split; [|left; eauto]. split; [done|]. split; [eapply undisturbed_insert; [exact C1|by rewrite E1|by rewrite E1|done]|].
    exists hl, fl1, (x<|b_flags ::= λ f, Z.lor f B_BUSY|>). split; [done|].
    split; [rewrite C1; apply list_lookup_insert_eq; by eapply lookup_lt_Some|].
    destruct (same_busy x) as (S1 & S2 & S3 & S4). split; [unfold is_block in *; by rewrite S1, S2, S3|].
    split; [fields; rewrite has_lor, (co_quiet (ca_core Hc) i x Hx Hn); done|].
    fields. rewrite has_lor, orb_false_r. intros Hd. rewrite E1. pose proof Hb as (B1 & B2 & B3)%is_block_spec.
    rewrite <- B1, <- B2. by apply (co_data (ca_core Hc)).
  - apply wp_bind. eapply wp_mono; [apply (wp_getnewbuf fuel s hl fl held A Hc Hl)|].
    { unfold dirties. pose proof (count_range dirty (core s)) as Hr'. rewrite (core_length _ _ _ _ _ _ _ Hc) in Hr'. lia. }
    intros i s1 Hfr. eapply wp_mono; [eapply wp_reassign; [exact Hfr|apply undisturbed_refl|done|exact Hr]|].
    intros j s2 [R1 R2]. split; [done|by right].
Qed.
Lemma wp_getblk fuel s held A dev blk :
  cache_ok s held A → usable dev blk → unused s held dev blk → (length held < NBUF)%nat → (NBUF + 2 ≤ fuel)%nat →
  wp (getblk fuel dev blk) (λ i s', obtained s s' held A dev blk i) s.
Proof. intros. eapply wp_mono; [by apply wp_getblk_full|]. by intros i s' [? _]. Qed.

(** A read into a buffer that has nothing of its block yet. *)
Lemma wp_start_read s hl fl held A dev blk i x :
  cache s hl fl (i :: held) A → core s !! i = Some x → is_block x dev blk = true → has (b_flags x) B_ASYNC = false →
  has (b_flags x) (Z.lor B_DONE B_DELWRI) = false →
  wp (start_read i B_READ) (λ _ s', ∃ x', cache s' hl fl (i :: held) A ∧ core s' = <[i := x']> (core s) ∧ is_same x x' ∧
    has (b_flags x') B_DONE = true ∧ has (b_flags x') B_ASYNC = false ∧
    bufdata s' = <[i := A dev blk]> (bufdata s) ∧ u_error s' = u_error s) s.
Proof.
  intros Hc Hx Hb Ha Hd. pose proof Hb as (B1 & B2 & B3)%is_block_spec.
  assert (Hd2 : has (b_flags x) B_DONE = false ∧ has (b_flags x) B_DELWRI = false).
  { unfold has in *. rewrite negb_false_iff, Z.eqb_eq, Z.land_lor_distr_r in Hd. apply Z.lor_eq_0_iff in Hd as [-> ->]. done. }
  destruct Hd2 as [Hd1 Hd2]. destruct (co_valid (ca_core Hc) i x Hx B3) as [Hu _].
  destruct (co_flags (ca_core Hc) i x Hx) as (G1 & G2 & G3 & _). pose proof (has_busy _ _ _ _ _ _ _ _ _ Hc Hx) as G4.
  pose proof (lookup_lt_Some _ _ _ Hx) as Hlt.
  unfold start_read, set_flags. apply wp_bind. eapply wp_view_set; [apply view_init|exact Hx|apply same_links_flags|]. intros s1 E1 V1.
  apply wp_bind. eapply wp_view_set; [exact V1|by apply list_lookup_insert_eq|by intros ?|]. intros s2 E2 V2. rewrite list_insert_insert_eq in V2.
  set (y := x<|b_flags ::= λ f, Z.lor f B_READ|><|b_bcount := DEV_BSIZE|>) in V2.
  assert (K : kept s s2) by (eapply kept_trans; [by apply kept_st|by apply kept_st]). destruct K as (K1 & K2 & K3 & K4).
  assert (Hy : <[i := y]> (core s) !! i = Some y) by (by apply list_lookup_insert_eq).
  assert (Y : has (b_flags y) B_READ = true ∧ has (b_flags y) B_DONE = false ∧ has (b_flags y) B_ASYNC = false).
  { unfold y. fields. flag_simpl. done. }
  destruct Y as (Y1 & Y2 & Y3).
  assert (∃ d, bufdata s !! i = Some d) as [d Hdat].
  { apply lookup_lt_is_Some_2. rewrite (ca_data Hc), <- (core_length _ _ _ _ _ _ _ Hc). done. }
  apply wp_bind. eapply (wp_strategy parts usable s2 _ _ i y d); [exact V2|exact Hy|done|done|done|by rewrite K1|by rewrite K3, (ca_starts Hc)| |].
  2:{ rewrite Y1. done. }
  intros _. set (s3 := s2<|bufdata := _|>). assert (V3 : view s3 (proj (bufs s)) (<[i := y]> (core s))) by done.
  eapply (wp_biodone_sync s3); [exact V3|exact Hy|done|done|]. intros s4 E4 V4. rewrite list_insert_insert_eq in V4.
  apply wp_modify. set (s5 := s4<|ru_inblock ::= _|>). assert (V5 : view s5 (proj (bufs s)) (<[i := finished y]> (core s))) by done.
  destruct (kept_wakes _ _ E4) as (L1 & L2 & L3 & L4).
  assert (Em : default zero_block (media s2 !! place parts (b_dev y) (b_blkno y)) = A dev blk).
  { rewrite K2. change (b_dev y) with (b_dev x). change (b_blkno y) with (b_blkno x). rewrite B1, B2.
    destruct (co_media (ca_core Hc) dev blk) as [E|(j & z & Hz & Hzb & Hzd)]; [by rewrite <- B1, <- B2|done|].
    exfalso. apply is_block_spec in Hzb as (Z1 & Z2 & Z3). assert (j = i) as ->.
    { eapply (co_unique (ca_core Hc) j i z x); try done; congruence. }
    change (core s !! i = Some z) in Hz. congruence. }
  assert (E5 : bufdata s5 = <[i := A dev blk]> (bufdata s)).
  { change (bufdata s5) with (bufdata s4). rewrite L1. unfold s3. fields. by rewrite K1, Em. }
  assert (M5 : media s5 = media s ∧ starts s5 = starts s ∧ u_error s5 = u_error s).
  { change (media s5) with (media s4). change (starts s5) with (starts s4). change (u_error s5) with (u_error s4).
    rewrite L2, L3, L4. unfold s3. fields. done. }
  destruct M5 as (M1 & M2 & M3).
  assert (Hs : is_same x (finished y)).
  { eapply is_same_trans; [|apply is_same_finished]. unfold is_same, y. fields. rewrite has_lor. split_and!; [done|done|apply orb_false_r|done]. }
  exists (finished y). split; [|split; [by apply view_core in V5|split; [done|]]].
  - eapply (cache_core _ _ s s5); [exact Hc|exact V5|by rewrite E5, length_insert|done|]. rewrite E5, M1.
    apply core_memory; [|set_solver]. eapply core_update; [apply (ca_core Hc)|exact Hx|exact Hs|done|..].
    + unfold finished, y. fields. flag_simpl. by rewrite G2.
    + unfold finished, y. fields. flag_simpl. by rewrite G3.
    + unfold finished, y. fields. flag_simpl. rewrite G4, bool_decide_true by set_solver. done.
    + unfold finished, y. fields. flag_simpl. by rewrite Hd2.
    + done.
    + set_solver.
    + set_solver.
  - unfold finished. fields. flag_simpl. rewrite Y3. split_and!; done.
Qed.

(** ** Reading a block *)
Definition fetched s s' held A dev blk (i : nat) : Prop :=
  obtained s s' held A dev blk i ∧ bufdata s' !! i = Some (A dev blk) ∧
  ∃ x, core s' !! i = Some x ∧ has (b_flags x) (Z.lor B_DONE B_DELWRI) = true ∧ has (b_flags x) B_ERROR = false.

Lemma has_done f : has f B_DONE = true → has f (Z.lor B_DONE B_DELWRI) = true.
Proof.
  unfold has. rewrite !negb_true_iff, !Z.eqb_neq, Z.land_lor_distr_r. intros Hn E. by apply Z.lor_eq_0_iff in E as [E _].
Qed.

Lemma wp_bread fuel s held A dev blk :
  cache_ok s held A → usable dev blk → unused s held dev blk → (length held < NBUF)%nat → (NBUF + 2 ≤ fuel)%nat →
  wp (bread fuel dev blk) (λ i s', fetched s s' held A dev blk i) s.
Proof.
  intros Hc Hu Hun Hl Hf. unfold bread. apply wp_bind. eapply wp_mono; [by apply (wp_getblk fuel s held A dev blk)|].
  intros i s1 (Hn & U & hl & fl & x & Hc1 & Hx & Hb & Ha & Hd). apply wp_bind.
  eapply wp_view_at; [apply view_init|exact Hx|]. intros b Eb. destruct (strip_fields _ _ Eb) as (F1 & _). rewrite F1. clear b Eb F1.
  destruct (co_flags (ca_core Hc1) i x Hx) as (_ & Ge & _).
  destruct (has (b_flags x) (Z.lor B_DONE B_DELWRI)) eqn:Ed.
  - apply wp_ret. split; [|split; [auto|by exists x]]. split; [done|]. split; [done|]. exists hl, fl, x. rewrite Ed. auto 10.
  - apply wp_bind. eapply wp_mono; [by apply (wp_start_read s1 hl fl held A dev blk i x)|].
    intros [] s2 (x' & Hc2 & C2 & Hs & D1 & D2 & D3 & D4).
    assert (Hx2 : core s2 !! i = Some x') by (rewrite C2; apply list_lookup_insert_eq; by eapply lookup_lt_Some).
    destruct (co_flags (ca_core Hc2) i x' Hx2) as (_ & Ge' & _).
    apply wp_bind. eapply wp_biowait_done; [apply view_init|exact Hx2|done|done|]. apply wp_ret.
    assert (Hb' : bufdata s2 !! i = Some (A dev blk)).
    { rewrite D3. apply list_lookup_insert_eq. rewrite (ca_data Hc1), <- (core_length _ _ _ _ _ _ _ Hc1). by eapply lookup_lt_Some. }
    split; [|split; [done|exists x'; split_and!; [done|by apply has_done|done]]]. split; [done|]. split.
    + eapply undisturbed_trans; [exact U|]. split; [|done]. intros j Hj. rewrite C2, D3.
      assert (i ≠ j) by (by intros ->). by rewrite !list_lookup_insert_ne.
    + exists hl, fl, x'. split_and!; try done. destruct Hs as (S1 & S2 & S3 & S4). unfold is_block in *. by rewrite S1, S2, S3.
Qed.

(** ** Using a buffer *)
Definition holds s held A (i : nat) dev blk x : Prop :=
  cache_ok s (i :: held) A ∧ core s !! i = Some x ∧ is_block x dev blk = true ∧ has (b_flags x) B_ASYNC = false.

Lemma obtained_holds s s' held A dev blk i :
  obtained s s' held A dev blk i → ∃ x, holds s' held A i dev blk x ∧ undisturbed held s s' ∧
    (has (b_flags x) (Z.lor B_DONE B_DELWRI) = true → bufdata s' !! i = Some (A dev blk)).
Proof. intros (Hn & U & hl & fl & x & Hc & Hx & Hb & Ha & Hd). exists x. split; [|done]. split_and!; try done. by exists hl, fl. Qed.

Lemma wp_bload s held A i dev blk x d (Q : block → bstate → Prop) :
  holds s held A i dev blk x → bufdata s !! i = Some d → Q d s → wp (load i) Q s.
Proof.
  intros ((hl & fl & Hc) & Hx & _) Hd HQ. destruct (co_flags (ca_core Hc) i x Hx) as (G1 & _).
  unfold load. apply wp_bind. eapply wp_view_at; [apply view_init|exact Hx|]. intros b Eb.
  destruct (strip_fields _ _ Eb) as (_ & _ & _ & F & _). rewrite F, G1. apply wp_bind, wp_gets. eapply wp_lift; [by apply rd_Done|done].
Qed.
Lemma wp_bstore s held A i dev blk x d (Q : unit → bstate → Prop) :
  holds s held A i dev blk x →
  (holds (s<|bufdata := <[i := d]> (bufdata s)|>) held A i dev blk x → <[i := d]> (bufdata s) !! i = Some d →
     Q tt (s<|bufdata := <[i := d]> (bufdata s)|>)) →
  wp (store i d) Q s.
Proof.
  intros ((hl & fl & Hc) & Hx & Hb & Ha) HQ. destruct (co_flags (ca_core Hc) i x Hx) as (G1 & _).
  assert (Hlt : (i < length (bufdata s))%nat) by (rewrite (ca_data Hc), <- (core_length _ _ _ _ _ _ _ Hc); by eapply lookup_lt_Some).
  unfold store. apply wp_bind. eapply wp_view_at; [apply view_init|exact Hx|]. intros b Eb.
  destruct (strip_fields _ _ Eb) as (_ & _ & _ & F & _). rewrite F, G1. apply wp_bind, wp_gets.
  apply wp_bind. eapply wp_lift; [by apply wr_Done|]. apply wp_modify. apply HQ; [|by apply list_lookup_insert_eq].
  split_and!; try done. exists hl, fl. eapply (cache_core _ _ s); [exact Hc|done|fields; by rewrite length_insert|done|].
  apply core_memory; [apply (ca_core Hc)|set_solver].
Qed.

(** Giving the buffer back: unchanged, written, or to be written later. *)
Lemma wp_brelease s held A i dev blk x :
  holds s held A i dev blk x →
  (has (b_flags x) (Z.lor B_DONE B_DELWRI) = true → bufdata s !! i = Some (A dev blk)) →
  wp (brelse i) (λ _ s', cache_ok s' held A ∧ undisturbed held s s') s.
Proof.
  intros ((hl & fl & Hc) & Hx & (B1 & B2 & B3)%is_block_spec & Ha) Hd. destruct (ca_ids Hc) as [[Hn _]%NoDup_cons _].
  eapply wp_mono; [apply (wp_brelse _ _ s hl fl held A i x Hc Hx)|].
  { intros _ Hdd. rewrite B1, B2. auto. }
  intros [] s' (l' & fl' & E & C' & Hc'). split; [by exists hl, fl'|].
  eapply undisturbed_insert; [exact C'|by rewrite E|by rewrite E|done].
Qed.
Lemma wp_write fuel s held A i dev blk x d :
  holds s held A i dev blk x → bufdata s !! i = Some d →
  wp (bwrite fuel i) (λ _ s', cache_ok s' held (upd A dev blk d) ∧ undisturbed held s s' ∧
    media s' = <[place parts dev blk := d]> (media s)) s.
Proof.
  intros ((hl & fl & Hc) & Hx & (B1 & B2 & B3)%is_block_spec & Ha) Hd. destruct (ca_ids Hc) as [[Hn _]%NoDup_cons _].
  eapply wp_mono; [by apply (wp_bwrite parts usable fuel s hl fl held A i x d)|].
  intros [] s' (fl' & x' & W1 & W2 & W3 & W4 & W5 & W6 & W7). rewrite B1, B2 in *.
  split; [by exists hl, fl'|]. split; [by eapply undisturbed_insert|done].
Qed.
Lemma wp_delay fuel s held A i dev blk x d :
  holds s held A i dev blk x → bufdata s !! i = Some d →
  wp (bdwrite fuel i) (λ _ s', cache_ok s' held (upd A dev blk d) ∧ undisturbed held s s' ∧ media s' = media s) s.
Proof.
  intros ((hl & fl & Hc) & Hx & Hb & Ha) Hd. pose proof Hb as (B1 & B2 & B3)%is_block_spec.
  destruct (ca_ids Hc) as [[Hn _]%NoDup_cons _]. destruct (co_valid (ca_core Hc) i x Hx B3) as [Hu _].
  destruct (vol_write _ _ Hu) as [_ Ht]. destruct (co_flags (ca_core Hc) i x Hx) as (G1 & G2 & G3 & _).
  pose proof (has_busy _ _ _ _ _ _ _ _ _ Hc Hx) as G4. pose proof (lookup_lt_Some _ _ _ Hx) as Hlt.
  unfold bdwrite. apply wp_bind. eapply wp_view_at; [apply view_init|exact Hx|]. intros b Eb.
  destruct (strip_fields _ _ Eb) as (F1 & F2 & _). rewrite F1, F2, Ht. clear b Eb F1 F2.
  assert (HR : ∀ s1, kept s s1 → view s1 (proj (bufs s)) (core s) →
    wp (set_flags i (Z.lor B_DELWRI B_DONE);; brelse i)
      (λ _ s', cache_ok s' held (upd A dev blk d) ∧ undisturbed held s s' ∧ media s' = media s) s1).
  { intros s1 (K1 & K2 & K3 & K4) V1. unfold set_flags. apply wp_bind.
    eapply wp_view_set; [exact V1|exact Hx|apply same_links_flags|]. intros s2 E2 V2. set (y := x<|b_flags ::= _|>) in V2.
    destruct (kept_st _ _ E2) as (L1 & L2 & L3 & L4).
    assert (Hs : is_same x y) by (unfold is_same, y; fields; rewrite has_lor; split_and!; [done|done|apply orb_false_r|done]).
    assert (Hc2 : cache s2 hl fl (i :: held) (upd A (b_dev x) (b_blkno x) d)).
    { eapply (cache_core _ _ s s2); [exact Hc|exact V2|by rewrite L1, K1|by rewrite L3|]. rewrite L1, L2, K1, K2.
      eapply (core_written parts usable); [apply (ca_core Hc)|exact Hx|set_solver|done|exact Hs|done|..].
      - unfold y. fields. flag_simpl. done.
      - unfold y. fields. flag_simpl. done.
      - unfold y. fields. flag_simpl. done.
      - right. split; [done|]. unfold y. fields. flag_simpl. done. }
    assert (Hy : core s2 !! i = Some y) by (rewrite (view_core _ _ _ V2); by apply list_lookup_insert_eq).
    eapply wp_mono; [apply (wp_brelse _ _ s2 hl fl held _ i y Hc2 Hy)|].
    { intros _ _. rewrite L1, K1. change (b_dev y) with (b_dev x). change (b_blkno y) with (b_blkno x). by rewrite upd_same. }
    intros [] s' (l' & fl' & E & C' & Hc'). rewrite B1, B2 in Hc'. split; [by exists hl, fl'|].
    rewrite (view_core _ _ _ V2), list_insert_insert_eq in C'. split; [|rewrite E; fields; change (media (st _ _)) with (media s2); by rewrite L2, K2].
    eapply undisturbed_insert; [exact C'| | |done]; rewrite E.
    - change (bufdata (st _ _)) with (bufdata s2). by rewrite L1, K1.
    - change (u_error (st _ _)) with (u_error s2). by rewrite L4, K4. }
  apply wp_bind. destruct (negb _); [apply wp_modify|apply wp_ret]; by apply HR.
Qed.

(** ** Flushing *)
Definition due x dev : bool := has (b_flags x) B_DELWRI && (dev =? b_dev x).

Lemma wp_delayed s hl fl held A dev q : cache s hl fl held A → q ∈ fheads → ∀ rest done_ n,
  fl q = done_ ++ rest → (length rest ≤ n)%nat →
  wp (delayed n (succ q rest) q dev) (λ r s', s' = s ∧
    match r with
    | Some i => i ∈ fl q ∧ ∃ x, core s !! i = Some x ∧ due x dev = true
    | None => ∀ i x, i ∈ rest → core s !! i = Some x → due x dev = false
    end) s.
Proof.
  intros Hc Hq rest. induction rest as [|i rest IH]; intros done_ n E Hn.
  - simpl succ. destruct n; cbn [delayed]; rewrite Nat.eqb_refl; (apply wp_ret; split; [done|]; set_solver).
  - destruct n as [|n]; simpl in Hn; [lia|]. simpl succ. cbn [delayed].
    assert (Hin : i ∈ fl q) by (rewrite E; set_solver).
    pose proof (rg_member _ _ _ _ _ (ca_free Hc) _ _ Hq Hin) as Hi. pose proof (rg_heads _ _ _ _ _ (ca_free Hc) _ Hq) as Hh.
    rewrite (proj2 (Nat.eqb_neq i q)) by lia. destruct (core_node _ _ _ _ _ _ _ _ Hc Hi) as (b & Hb & Hx).
    apply wp_bind. apply wp_st. eapply wp_buf_at; [done|]. rewrite st_id.
    change (has (b_flags b) B_DELWRI && (dev =? b_dev b)) with (due (strip b) dev).
    destruct (due (strip b) dev) eqn:Ei; [apply wp_ret; eauto|].
    pose proof (rg_fw _ _ _ _ _ (ca_free Hc) q Hq) as Hr. rewrite E in Hr. apply ring_next in Hr.
    destruct (proj_lookup _ _ _ Hb) as (_ & _ & P1 & _). rewrite P1 in Hr. injection Hr as Hr. rewrite Hr.
    eapply wp_mono; [apply (IH (done_ ++ [i]) n); [by rewrite <- app_assoc|lia]|].
    intros [j|] s' [-> Hj]; (split; [done|]); [done|]. intros j y [->|Hin']%elem_of_cons Hy; [congruence|eauto].
Qed.
Lemma free_length s hl fl held A d : cache s hl fl held A → d ∈ fheads → (length (fl d) ≤ NBUF)%nat.
Proof.
  intros Hc Hd. apply NoDup_lt_length; [by apply (rg_nodup _ _ _ _ _ (ca_free Hc))|]. apply Forall_forall.
  intros i Hi. by apply (rg_member _ _ _ _ _ (ca_free Hc) d).
Qed.
Lemma wp_delayed_any s hl fl held A dev : cache s hl fl held A → ∀ k q, (q + k = BQUEUES)%nat →
  wp (delayed_any k q dev) (λ r s', s' = s ∧
    match r with
    | Some i => (∃ d, d ∈ fheads ∧ i ∈ fl d) ∧ ∃ x, core s !! i = Some x ∧ due x dev = true
    | None => ∀ p i x, (q ≤ p < BQUEUES)%nat → i ∈ fl (bfreelist p) → core s !! i = Some x → due x dev = false
    end) s.
Proof.
  intros Hc k. induction k as [|k IH]; intros q Hk; cbn [delayed_any].
  { apply wp_ret. split; [done|]. intros p i x Hp. lia. }
  assert (Hq : bfreelist q ∈ fheads).
  { unfold fheads. apply list_elem_of_fmap. exists q. split; [done|]. apply elem_of_seq. lia. }
  destruct (head_node _ _ s hl fl held A (bfreelist q) Hc) as [b Hb]; [by right|].
  destruct (rings_head _ _ _ _ _ _ (ca_free Hc) Hq) as (L1 & _).
  destruct (proj_lookup _ _ _ Hb) as (_ & _ & P1 & _). rewrite P1 in L1. injection L1 as L1.
  apply wp_bind. apply wp_st. eapply wp_buf_at; [done|]. rewrite st_id, L1. apply wp_bind, wp_gets. apply wp_bind.
  eapply wp_mono; [apply (wp_delayed s hl fl held A dev (bfreelist q) Hc Hq (fl (bfreelist q)) []); [done|]|].
  { rewrite (ca_len Hc). pose proof (free_length _ _ _ _ _ _ Hc Hq). lia. }
  intros [i|] s' [-> Hr].
  - apply wp_ret. destruct Hr as [H1 H2]. split; [done|]. eauto.
  - eapply wp_mono; [apply IH; lia|]. intros [j|] s' [-> Hj]; (split; [done|]); [done|].
    intros p i x Hp. destruct (decide (p = q)) as [->|]; [apply Hr|apply Hj; lia].
Qed.

(** After [bflush] no delayed write of the device is left but in buffers in
    use; what the blocks contain has not changed. *)
Lemma wp_bflush fuel : ∀ s held A dev,
  cache_ok s held A → dirties s < Z.of_nat fuel →
  wp (bflush fuel dev) (λ _ s', cache_ok s' held A ∧ undisturbed held s s' ∧
    ∀ i x, i ∉ held → core s' !! i = Some x → b_dev x = dev → has (b_flags x) B_DELWRI = false) s.
Proof.
  induction fuel as [|fuel IH]; intros s held A dev (hl & fl & Hc) Hf.
  { pose proof (count_range dirty (core s)) as Hcr. unfold dirties in Hf. lia. }
  cbn [bflush]. apply wp_bind. eapply wp_mono; [apply (wp_delayed_any s hl fl held A dev Hc BQUEUES 0); done|].
  intros [i|] s' [-> Hr].
  - destruct Hr as ((d & Hd & Hin) & x & Hx & [Hdw Hdev%Z.eqb_eq]%andb_true_iff).
    pose proof (rg_member _ _ _ _ _ (ca_free Hc) _ _ Hd Hin) as Hi.
    assert (Hn : i ∉ held) by (intros Hh; by apply (ca_held Hc i d Hh Hd)).
    pose proof (co_dirty (ca_core Hc) i x Hx Hdw) as Hv.
    assert (Hdat : bufdata s !! i = Some (A (b_dev x) (b_blkno x))).
    { apply (co_data (ca_core Hc) i x Hx Hn Hv). unfold has in *. rewrite negb_true_iff, Z.eqb_neq in *.
      intros E. apply Hdw. rewrite Z.land_lor_distr_r in E. by apply Z.lor_eq_0_iff in E as [_ E]. }
    apply wp_bind. eapply wp_mono.
    { eapply (wp_flag_notavail parts usable s hl fl held A i B_ASYNC
        (λ _, wp (bwrite fuel i;; bflush fuel dev) (λ _ s', cache_ok s' held A ∧ undisturbed held s s' ∧
           ∀ i x, i ∉ held → core s' !! i = Some x → b_dev x = dev → has (b_flags x) B_DELWRI = false))); try done.
      intros l' x' fl' Hx' C1 Hc1. assert (x' = x) as -> by congruence. set (y := x<|b_flags ::= _|>) in C1. set (s1 := st s l') in *.
      assert (Hy : core s1 !! i = Some y) by (rewrite C1; apply list_lookup_insert_eq; by eapply lookup_lt_Some).
      assert (Ys : is_same x y) by (unfold is_same, y; fields; by rewrite !has_lor, !orb_false_r).
      destruct Ys as (S1 & S2 & S3 & S4). apply wp_bind.
      eapply wp_mono; [apply (wp_bwrite parts usable fuel s1 hl fl' held A i y (A (b_dev x) (b_blkno x)) Hc1 Hy); [by rewrite S3|done]|].
      intros [] s2 (fl2 & x2 & W1 & W2 & W3 & W4 & W5 & W6 & W7). rewrite S1, S2 in W1.
      assert (Hc2 : cache_ok s2 held A) by (exists hl, fl2; eapply cache_ext; [|exact W1]; intros; apply upd_id).
      eapply wp_mono; [apply (IH s2 held A dev Hc2)|].
      { unfold dirties in *. rewrite W2, C1, list_insert_insert_eq, (count_insert _ _ _ _ x) by done.
        unfold dirty at 2 3. rewrite W4, Hdw. simpl. lia. }
      intros [] s3 (R1 & R2 & R3). split; [done|]. split; [|done].
      eapply undisturbed_trans; [eapply undisturbed_insert; [exact C1|done|done|done]|].
      eapply undisturbed_trans; [by eapply undisturbed_insert|done]. }
    intros [] s1 HW. apply wp_bind. exact HW.
  - apply wp_ret. split; [by exists hl, fl|]. split; [done|]. intros i x Hn Hx Hdev.
    assert (Hi : (i < NBUF)%nat) by (rewrite <- (core_length _ _ _ _ _ _ _ Hc); by eapply lookup_lt_Some).
    destruct (ca_freed Hc i Hi Hn) as (d & Hd & Hid). unfold fheads in Hd. apply list_elem_of_fmap in Hd as (p & -> & Hp).
    apply elem_of_seq in Hp. specialize (Hr p i x ltac:(lia) Hid Hx). unfold due in Hr. rewrite Hdev, Z.eqb_refl, andb_true_r in Hr. done.
Qed.

(** ** Read-ahead *)
Lemma wp_incore s held A dev blk : cache_ok s held A →
  wp (incore dev blk) (λ r s', s' = s ∧ (r = false → ∀ i x, core s !! i = Some x → is_block x dev blk = false)) s.
Proof.
  intros (hl & fl & Hc). unfold incore. apply wp_bind. eapply wp_mono; [apply (wp_chain_find s hl fl held A dev blk Hc)|].
  intros [i|] s' [-> Hr]; apply wp_ret; (split; [done|]); [done|]. auto.
Qed.

(** A read that nobody waits for leaves the block in the cache. *)
Lemma wp_start_read_async s hl fl held A dev blk i x :
  cache s hl fl (i :: held) A → core s !! i = Some x → is_block x dev blk = true →
  has (b_flags x) (Z.lor B_DONE B_DELWRI) = false →
  wp (start_read i (Z.lor B_READ B_ASYNC)) (λ _ s', cache_ok s' held A ∧ undisturbed held s s') s.
Proof.
  intros Hc Hx Hb Hd. pose proof Hb as (B1 & B2 & B3)%is_block_spec. destruct (ca_ids Hc) as [[Hn _]%NoDup_cons _].
  assert (Hd2 : has (b_flags x) B_DONE = false ∧ has (b_flags x) B_DELWRI = false).
  { unfold has in *. rewrite negb_false_iff, Z.eqb_eq, Z.land_lor_distr_r in Hd. apply Z.lor_eq_0_iff in Hd as [-> ->]. done. }
  destruct Hd2 as [Hd1 Hd2]. destruct (co_valid (ca_core Hc) i x Hx B3) as [Hu _].
  destruct (co_flags (ca_core Hc) i x Hx) as (G1 & G2 & G3 & _). pose proof (has_busy _ _ _ _ _ _ _ _ _ Hc Hx) as G4.
  pose proof (lookup_lt_Some _ _ _ Hx) as Hlt.
  unfold start_read, set_flags. apply wp_bind. eapply wp_view_set; [apply view_init|exact Hx|apply same_links_flags|]. intros s1 E1 V1.
  apply wp_bind. eapply wp_view_set; [exact V1|by apply list_lookup_insert_eq|by intros ?|]. intros s2 E2 V2. rewrite list_insert_insert_eq in V2.
  set (y := x<|b_flags ::= λ f, Z.lor f (Z.lor B_READ B_ASYNC)|><|b_bcount := DEV_BSIZE|>) in V2.
  assert (K : kept s s2) by (eapply kept_trans; [by apply kept_st|by apply kept_st]). destruct K as (K1 & K2 & K3 & K4).
  assert (Hy : <[i := y]> (core s) !! i = Some y) by (by apply list_lookup_insert_eq).
  assert (Y : has (b_flags y) B_READ = true ∧ has (b_flags y) B_DONE = false ∧ has (b_flags y) B_ASYNC = true).
  { unfold y. fields. flag_simpl. done. }
  destruct Y as (Y1 & Y2 & Y3). assert (Hlb : (i < length (bufdata s))%nat) by (by rewrite (ca_data Hc), <- (core_length _ _ _ _ _ _ _ Hc)).
  destruct (lookup_lt_is_Some_2 _ _ Hlb) as [d Hdat].
  apply wp_bind. eapply (wp_strategy parts usable s2 _ _ i y d); [exact V2|exact Hy|done|done|done|by rewrite K1|by rewrite K3, (ca_starts Hc)| |].
  2:{ rewrite Y1. done. }
  intros _. set (s3 := s2<|bufdata := _|>). assert (V3 : view s3 (proj (bufs s)) (<[i := y]> (core s))) by done.
  assert (Em : default zero_block (media s2 !! place parts (b_dev y) (b_blkno y)) = A dev blk).
  { rewrite K2. change (b_dev y) with (b_dev x). change (b_blkno y) with (b_blkno x). rewrite B1, B2.
    destruct (co_media (ca_core Hc) dev blk) as [E|(j & z & Hz & Hzb & Hzd)]; [by rewrite <- B1, <- B2|done|].
    exfalso. apply is_block_spec in Hzb as (Z1 & Z2 & Z3). assert (j = i) as ->.
    { eapply (co_unique (ca_core Hc) j i z x); try done; congruence. }
    change (core s !! i = Some z) in Hz. congruence. }
  assert (E3 : bufdata s3 = <[i := A dev blk]> (bufdata s)) by (unfold s3; fields; by rewrite K1, Em).
  assert (Hs : is_same x y) by (unfold is_same, y; fields; rewrite has_lor; split_and!; [done|done|apply orb_false_r|done]).
  assert (Hc3 : cache s3 hl fl (i :: held) A).
  { eapply (cache_core _ _ s s3); [exact Hc|exact V3|by rewrite E3, length_insert|done|]. rewrite E3. change (media s3) with (media s2). rewrite K2.
    apply core_memory; [|set_solver]. eapply core_update; [apply (ca_core Hc)|exact Hx|exact Hs|done|..].
    + unfold y. fields. flag_simpl. by rewrite G2.
    + unfold y. fields. flag_simpl. by rewrite G3.
    + unfold y. fields. flag_simpl. rewrite G4, bool_decide_true by set_solver. done.
    + unfold y. fields. flag_simpl. by rewrite Hd2.
    + done.
    + set_solver.
    + set_solver. }
  eapply wp_mono; [apply (wp_biodone_async _ _ s3 hl fl held A i y Hc3); [by rewrite (view_core _ _ _ V3)|done|done|]|].
  { intros _. rewrite E3. change (b_dev y) with (b_dev x). change (b_blkno y) with (b_blkno x). rewrite B1, B2. by apply list_lookup_insert_eq. }
  intros [] s4 (fl4 & E4 & C4 & Hc4). apply wp_modify. rewrite (view_core _ _ _ V3), list_insert_insert_eq in C4.
  set (s5 := s4<|ru_inblock ::= _|>). split; [exists hl, fl4; by eapply cache_change|].
  split; [|change (u_error s5) with (u_error s4); rewrite E4; done]. intros j Hj. assert (i ≠ j) by (by intros ->).
  change (core s5) with (core s4). change (bufdata s5) with (bufdata s4).
  assert (E4b : bufdata s4 = <[i := A dev blk]> (bufdata s)) by (rewrite E4; exact E3). by rewrite C4, E4b, !list_lookup_insert_ne.
Qed.

Lemma unused_keep s s' held dev blk : undisturbed held s s' → unused s held dev blk → unused s' held dev blk.
Proof. intros [U _] Hu i x Hi. destruct (U i Hi) as [-> _]. by apply Hu. Qed.

Lemma wp_readahead fuel s held A dev blk :
  cache_ok s held A → blk = 0 ∨ usable dev blk → (length held < NBUF)%nat → (NBUF + 2 ≤ fuel)%nat →
  wp (readahead fuel dev blk) (λ _ s', cache_ok s' held A ∧ undisturbed held s s') s.
Proof.
  intros Hc Hu Hl Hf. unfold readahead. destruct (Z.eqb_spec blk 0) as [->|Hb0]; [apply wp_ret; by split|]. cbn [negb].
  destruct Hu as [?|Hu]; [done|]. apply wp_bind. eapply wp_mono; [apply (wp_incore s held A dev blk Hc)|]. intros [|] s' [-> Hin]; cbn [negb].
  { apply wp_ret. by split. }
  apply wp_bind. eapply wp_mono; [apply (wp_getblk fuel s held A dev blk Hc Hu); [|done|done]|].
  { intros i x _. by apply Hin. }
  intros i s1 (Hn & U & hl & fl & x & Hc1 & Hx & Hb & Ha & Hd). apply wp_bind.
  eapply wp_view_at; [apply view_init|exact Hx|]. intros b Eb. destruct (strip_fields _ _ Eb) as (F1 & _). rewrite F1. clear b Eb F1.
  destruct (has (b_flags x) (Z.lor B_DONE B_DELWRI)) eqn:Ed.
  - eapply wp_mono; [apply (wp_brelease s1 held A i dev blk x); [split_and!; [by exists hl, fl|done..]|auto]|].
    intros [] s2 [R1 R2]. split; [done|]. by eapply undisturbed_trans.
  - eapply wp_mono; [by apply (wp_start_read_async s1 hl fl held A dev blk i x)|].
    intros [] s2 [R1 R2]. split; [done|]. by eapply undisturbed_trans.
Qed.

(** [breada] is [bread], whatever block is read ahead. *)
Lemma wp_breada fuel s held A dev blk rablk :
  cache_ok s held A → usable dev blk → rablk = 0 ∨ usable dev rablk → unused s held dev blk →
  (length held + 1 < NBUF)%nat → (NBUF + 2 ≤ fuel)%nat →
  wp (breada fuel dev blk rablk) (λ i s', fetched s s' held A dev blk i) s.
Proof.
  intros Hc Hu Hra Hun Hl Hf. unfold breada. apply wp_bind. eapply wp_mono; [apply (wp_incore s held A dev blk Hc)|].
  intros [|] s' [-> Hin]; cbn [negb]; apply wp_bind.
  - apply wp_ret. apply wp_bind. eapply wp_mono; [apply (wp_readahead fuel s held A dev rablk Hc Hra); lia|].
    intros [] s1 [Hc1 U1]. eapply wp_mono; [apply (wp_bread fuel s1 held A dev blk Hc1 Hu); [by eapply unused_keep|lia|done]|].
    intros i s2 ((Hn & U2 & R) & R2). split; [|done]. split; [done|]. split; [by eapply undisturbed_trans|done].
  - apply wp_bind. eapply wp_mono; [apply (wp_getblk_full fuel s held A dev blk Hc Hu Hun); [lia|done]|].
    intros i s1 ((Hn & U & hl & fl & x & Hc1 & Hx & Hb & Ha & Hd) & He). apply wp_bind.
    eapply wp_view_at; [apply view_init|exact Hx|]. intros b Eb. destruct (strip_fields _ _ Eb) as (F1 & _). rewrite F1. clear b Eb F1.
    assert (Ed : has (b_flags x) (Z.lor B_DONE B_DELWRI) = false).
    { destruct He as [(y & Hy & Hyb)|He]; [|by apply He]. rewrite (Hin eq_refl i y Hy) in Hyb. done. }
    rewrite Ed. apply wp_bind. eapply wp_mono; [by apply (wp_start_read s1 hl fl held A dev blk i x)|].
    intros [] s2 (x' & Hc2 & C2 & Hs & D1 & D2 & D3 & D4). apply wp_ret.
    assert (Hx2 : core s2 !! i = Some x') by (rewrite C2; apply list_lookup_insert_eq; by eapply lookup_lt_Some).
    assert (Hb' : bufdata s2 !! i = Some (A dev blk)).
    { rewrite D3. apply list_lookup_insert_eq. rewrite (ca_data Hc1), <- (core_length _ _ _ _ _ _ _ Hc1). by eapply lookup_lt_Some. }
    apply wp_bind. eapply wp_mono; [apply (wp_readahead fuel s2 (i :: held) A dev rablk); [by exists hl, fl|done|simpl; lia|done]|].
    intros [] s3 [(hl3 & fl3 & Hc3) [U3 U3']]. destruct (U3 i ltac:(set_solver)) as [Y1 Y2]. rewrite Hx2 in Y1. rewrite Hb' in Y2.
    destruct (co_flags (ca_core Hc3) i x' Y1) as (_ & Ge & _). apply wp_bind.
    eapply wp_biowait_done; [apply view_init|exact Y1|done|done|]. apply wp_ret.
    split; [|split; [done|exists x'; split_and!; [done|by apply has_done|done]]]. split; [done|]. split.
    + eapply undisturbed_trans; [exact U|]. split; [|congruence]. intros j Hj. assert (i ≠ j) by (by intros ->).
      destruct (U3 j ltac:(set_solver)) as [-> ->]. by rewrite C2, D3, !list_lookup_insert_ne.
    + exists hl3, fl3, x'. split_and!; try done. destruct Hs as (S1 & S2 & S3 & S4). unfold is_block in *. by rewrite S1, S2, S3.
Qed.

(** ** A buffer without a block *)

(** The buffer [i] is in use and belongs to no block. *)
Definition holds_none s held A (i : nat) x : Prop :=
  cache_ok s (i :: held) A ∧ core s !! i = Some x ∧ has (b_flags x) B_INVAL = true ∧ has (b_flags x) B_ERROR = false.

Lemma wp_geteblk fuel s held A :
  cache_ok s held A → (length held < NBUF)%nat → (NBUF + 2 ≤ fuel)%nat →
  wp (geteblk fuel) (λ i s', i ∉ held ∧ undisturbed held s s' ∧ ∃ x, holds_none s' held A i x) s.
Proof.
  intros (hl & fl & Hc) Hl Hf. unfold geteblk. apply wp_bind. eapply wp_mono; [apply (wp_getnewbuf fuel s hl fl held A Hc Hl)|].
  { unfold dirties. pose proof (count_range dirty (core s)) as Hr'. rewrite (core_length _ _ _ _ _ _ _ Hc) in Hr'. lia. }
  intros i s' (s1 & fl1 & x & Hi & Hn & Hc1 & Hx & Hnd & U & E' & V & HS).
  set (x1 := x<|b_flags := B_BUSY|>) in *. assert (Hlt : (i < length (core s1))%nat) by (by eapply lookup_lt_Some).
  assert (HG : ∀ y, <[i := y]> (core s1) !! i = Some y) by (intros y; by apply list_lookup_insert_eq).
  apply wp_bind. eapply wp_view_set; [exact V|apply HG|apply same_links_flags|]. intros s2 E2 V2. rewrite list_insert_insert_eq in V2.
  apply wp_bind. eapply wp_view_set; [exact V2|apply HG|by intros ?|]. intros s3 E3 V3. rewrite list_insert_insert_eq in V3.
  match type of V3 with view _ _ (<[_ := ?y]> _) => set (x3 := y) in V3 end.
  destruct (ca_hashed Hc1 i Hi) as (d & Hd & Hid).
  assert (L3 : proj (bufs s3) = (proj (bufs s1))<|lC := <[i := x3]> (core s1)|>) by exact V3.
  assert (Hage : bfreelist BQ_AGE ∈ hheads) by (unfold hheads; left).
  apply wp_bind, wp_st. set (rest := setb i (λ x, x<|b_dev := NODEV|>);; setb i (λ x, x<|b_error := 0|>);; mret i).
  set (P := λ i s', i ∉ held ∧ undisturbed held s s' ∧ ∃ x, holds_none s' held A i x).
  assert (HW : ∀ l' hl', rehashed (bufs s3) l' i (bfreelist BQ_AGE) hl hl' → wp rest P (st s3 l')).
  { intros l' hl' Hre. pose proof Hre as (R1 & R2 & R3 & R4 & R5 & R6).
    assert (V4 : view (st s3 l') (proj l') (<[i := x3]> (core s1))).
    { unfold view. change (bufs (st s3 l')) with l'. assert (EC : lC (proj l') = <[i := x3]> (core s1)) by (by rewrite R3, L3).
      rewrite <- EC. by destruct (proj l'). }
    apply wp_bind. eapply wp_view_set; [exact V4|apply HG|by intros ?|]. intros s5 E5 V5. rewrite list_insert_insert_eq in V5.
    apply wp_bind. eapply wp_view_set; [exact V5|apply HG|by intros ?|]. intros s6 E6 V6. rewrite list_insert_insert_eq in V6.
    apply wp_ret. set (x6 := x3<|b_dev := NODEV|><|b_error := 0|>) in V6.
    assert (K : kept s1 s6).
    { do 2 (eapply kept_trans; [|apply kept_st; eassumption]). eapply kept_trans; [apply kept_st, E'|].
      eapply kept_trans; [apply kept_st, E2|]. eapply kept_trans; [apply kept_st, E3|]. done. }
    pose proof K as (K1 & K2 & K3 & K4). pose proof (view_core _ _ _ V6) as C6. destruct (co_flags (ca_core Hc1) i x Hx) as (G1 & _).
    split; [done|]. split; [eapply undisturbed_trans; [exact U|]; eapply undisturbed_insert; [exact C6|done|done|done]|].
    exists x6. split; [|split; [by rewrite C6|done]]. exists hl', fl1.
    eapply (rehashed_cache s1 s3 s6 l' hl hl' fl1 held A i (bfreelist BQ_AGE)); [done|exact L3|done|done|exact V6|done|].
    eapply core_reassign; [apply (ca_core Hc1)|exact Hx|done|done|done|done|done|done|done|exact R6|done]. }
  assert (HR : wp (bremhash i) (λ _, wp (binshash i (bfreelist BQ_AGE)) (λ _, wp rest P)) (st s3 (bufs s3))).
  { eapply (wp_rehash s3 (bufs s3) hl d); [rewrite L3; apply (ca_hash Hc1)|done|done|done|done|exact HW]. }
  eapply wp_mono; [exact HR|]. intros [] s4 HB. apply wp_bind. exact HB.
Qed.
Lemma wp_release_none s held A i x :
  holds_none s held A i x → wp (brelse i) (λ _ s', cache_ok s' held A ∧ undisturbed held s s') s.
Proof.
  intros ((hl & fl & Hc) & Hx & Hv & _). destruct (ca_ids Hc) as [[Hn _]%NoDup_cons _].
  eapply wp_mono; [apply (wp_brelse _ _ s hl fl held A i x Hc Hx)|]; [congruence|].
  intros [] s' (l' & fl' & E & C' & Hc'). split; [by exists hl, fl'|].
  eapply undisturbed_insert; [exact C'|by rewrite E|by rewrite E|done].
Qed.
(** Its memory. *)
Lemma wp_load_none s held A i x d (Q : block → bstate → Prop) :
  holds_none s held A i x → bufdata s !! i = Some d → Q d s → wp (load i) Q s.
Proof.
  intros ((hl & fl & Hc) & Hx & _) Hd HQ. destruct (co_flags (ca_core Hc) i x Hx) as (G1 & _).
  unfold load. apply wp_bind. eapply wp_view_at; [apply view_init|exact Hx|]. intros b Eb.
  destruct (strip_fields _ _ Eb) as (_ & _ & _ & F & _). rewrite F, G1. apply wp_bind, wp_gets. eapply wp_lift; [by apply rd_Done|done].
Qed.
Lemma wp_store_none s held A i x d (Q : unit → bstate → Prop) :
  holds_none s held A i x →
  (holds_none (s<|bufdata := <[i := d]> (bufdata s)|>) held A i x → <[i := d]> (bufdata s) !! i = Some d →
     Q tt (s<|bufdata := <[i := d]> (bufdata s)|>)) →
  wp (store i d) Q s.
Proof.
  intros ((hl & fl & Hc) & Hx & Hb & Ha) HQ. destruct (co_flags (ca_core Hc) i x Hx) as (G1 & _).
  assert (Hlt : (i < length (bufdata s))%nat) by (rewrite (ca_data Hc), <- (core_length _ _ _ _ _ _ _ Hc); by eapply lookup_lt_Some).
  unfold store. apply wp_bind. eapply wp_view_at; [apply view_init|exact Hx|]. intros b Eb.
  destruct (strip_fields _ _ Eb) as (_ & _ & _ & F & _). rewrite F, G1. apply wp_bind, wp_gets.
  apply wp_bind. eapply wp_lift; [by apply wr_Done|]. apply wp_modify. apply HQ; [|by apply list_lookup_insert_eq].
  split_and!; try done. exists hl, fl. eapply (cache_core _ _ s); [exact Hc|done|fields; by rewrite length_insert|done|].
  apply core_memory; [apply (ca_core Hc)|set_solver].
Qed.

(** [bp->b_flags |= B_AGE] for a buffer in use. *)
Lemma wp_age s held A i x (Q : unit → bstate → Prop) :
  cache_ok s (i :: held) A → core s !! i = Some x →
  (∀ s' x', cache_ok s' (i :: held) A → core s' = <[i := x']> (core s) → is_same x x' → b_flags x' = Z.lor (b_flags x) B_AGE →
     kept s s' → Q tt s') →
  wp (set_flags i B_AGE) Q s.
Proof.
  intros (hl & fl & Hc) Hx HQ. unfold set_flags. eapply wp_view_set; [apply view_init|exact Hx|apply same_links_flags|].
  intros s1 E1 V1. set (x1 := x<|b_flags ::= _|>) in *. pose proof (kept_st _ _ E1) as K. pose proof K as (K1 & K2 & K3 & K4).
  assert (Hs : is_same x x1) by (unfold is_same, x1; fields; rewrite has_lor; split_and!; [done|done|apply orb_false_r|done]).
  destruct (co_flags (ca_core Hc) i x Hx) as (F1 & F2 & F3 & F4).
  apply (HQ s1 x1); [|by rewrite (view_core _ _ _ V1)|done|done|done]. exists hl, fl.
  eapply (cache_core _ _ s s1); [exact Hc|exact V1|by rewrite K1|done|]. rewrite K1, K2.
  eapply core_update; [apply (ca_core Hc)|exact Hx|exact Hs|..]; unfold x1; fields; rewrite ?has_lor, ?F2, ?F3, ?F4; try done;
    try apply orb_false_r; set_solver.
Qed.
Lemma wp_write_async fuel s held A i dev blk x d :
  holds s held A i dev blk x → bufdata s !! i = Some d →
  wp (bawrite fuel i) (λ _ s', cache_ok s' held (upd A dev blk d) ∧ undisturbed held s s') s.
Proof.
  intros ((hl & fl & Hc) & Hx & (B1 & B2 & B3)%is_block_spec & Ha) Hd. destruct (ca_ids Hc) as [[Hn _]%NoDup_cons _].
  eapply wp_mono; [by apply (wp_bawrite fuel s hl fl held A i x d)|].
  intros [] s' (fl' & x' & W1 & W2 & W3 & W4 & W5 & W6 & W7). rewrite B1, B2 in *.
  split; [by exists hl, fl'|]. by eapply undisturbed_insert.
Qed.

(** ** The cache as an array of blocks *)
Lemma unused_nil s dev blk : unused s [] dev blk.
Proof. by intros i x ?%elem_of_nil. Qed.
End Store.

(** What is done with single blocks. *)
Inductive request :=
| Read (dev blk : Z)
| ReadAhead (dev blk rablk : Z)
| Write (dev blk : Z) (d : block)
| WriteLater (dev blk : Z) (d : block)
| Flush (dev : Z).

Section Requests.
Context `{Disks}.

Definition serve (fuel : nat) (r : request) : M (option block) :=
  match r with
  | Read dev blk => bp ← bread fuel dev blk; d ← load bp; brelse bp;; mret (Some d)
  | ReadAhead dev blk rablk => bp ← breada fuel dev blk rablk; d ← load bp; brelse bp;; mret (Some d)
  | Write dev blk d => bp ← getblk fuel dev blk; store bp d;; bwrite fuel bp;; mret None
  | WriteLater dev blk d => bp ← getblk fuel dev blk; store bp d;; bdwrite fuel bp;; mret None
  | Flush dev => bflush fuel dev;; mret None
  end.
Fixpoint serve_all (fuel : nat) (rs : list request) : M (list (option block)) :=
  match rs with
  | [] => mret []
  | r :: rs => a ← serve fuel r; l ← serve_all fuel rs; mret (a :: l)
  end.
End Requests.

(** The same on an array of blocks. *)
Definition answer (A : Z → Z → block) (r : request) : option block :=
  match r with Read dev blk | ReadAhead dev blk _ => Some (A dev blk) | _ => None end.
Definition effect (A : Z → Z → block) (r : request) : Z → Z → block :=
  match r with Write dev blk d | WriteLater dev blk d => upd A dev blk d | _ => A end.
Fixpoint answers (A : Z → Z → block) (rs : list request) : list (option block) :=
  match rs with [] => [] | r :: rs => answer A r :: answers (effect A r) rs end.
Definition effects (A : Z → Z → block) (rs : list request) : Z → Z → block := fold_left effect rs A.

Definition allowed (usable : Z → Z → Prop) (r : request) : Prop :=
  match r with
  | Read dev blk | Write dev blk _ | WriteLater dev blk _ => usable dev blk
  | ReadAhead dev blk rablk => usable dev blk ∧ (rablk = 0 ∨ usable dev rablk)
  | Flush _ => True
  end.

Section Refine.
Context `{Disks} (parts : list (list Z)) (usable : Z → Z → Prop) `{!Volumes parts usable, !GoodDisks}.
Notation cache_ok := (cache_ok parts usable).

Lemma wp_use_fetched s s1 A dev blk i :
  fetched parts usable s s1 [] A dev blk i →
  wp (d ← load i; brelse i;; mret (Some d)) (λ a s', a = Some (A dev blk) ∧ cache_ok s' [] A) s1.
Proof.
  intros (Ho & Hd & _). destruct (obtained_holds _ _ _ _ _ _ _ _ _ Ho) as (x & Hh & _ & _). apply wp_bind.
  eapply (wp_bload parts usable); [exact Hh|exact Hd|]. apply wp_bind. eapply wp_mono; [by eapply (wp_brelease parts usable)|].
  intros [] s2 [R _]. by apply wp_ret.
Qed.

Lemma wp_serve fuel s A r : cache_ok s [] A → allowed usable r → (NBUF + 2 ≤ fuel)%nat →
  wp (serve fuel r) (λ a s', a = answer A r ∧ cache_ok s' [] (effect A r)) s.
Proof.
  intros Hc Ha Hf. destruct r as [dev blk|dev blk rablk|dev blk d|dev blk d|dev]; simpl in Ha |- *.
  - apply wp_bind. eapply wp_mono; [apply (wp_bread parts usable fuel s [] A dev blk); [done|done|apply unused_nil|vm_compute; lia|done]|].
    intros i s1 Hf1. eapply wp_use_fetched, Hf1.
  - apply wp_bind. eapply wp_mono; [apply (wp_breada parts usable fuel s [] A dev blk rablk); [done|apply Ha|apply Ha|apply unused_nil|vm_compute; lia|done]|].
    intros i s1 Hf1. eapply wp_use_fetched, Hf1.
  - apply wp_bind. eapply wp_mono; [apply (wp_getblk parts usable fuel s [] A dev blk); [done|done|apply unused_nil|vm_compute; lia|done]|].
    intros i s1 Ho. destruct (obtained_holds _ _ _ _ _ _ _ _ _ Ho) as (x & Hh & _ & _). apply wp_bind.
    eapply (wp_bstore parts usable); [exact Hh|]. intros Hh' Hd. apply wp_bind. eapply wp_mono; [by eapply (wp_write parts usable)|].
    intros [] s2 (R & _). by apply wp_ret.
  - apply wp_bind. eapply wp_mono; [apply (wp_getblk parts usable fuel s [] A dev blk); [done|done|apply unused_nil|vm_compute; lia|done]|].
    intros i s1 Ho. destruct (obtained_holds _ _ _ _ _ _ _ _ _ Ho) as (x & Hh & _ & _). apply wp_bind.
    eapply (wp_bstore parts usable); [exact Hh|]. intros Hh' Hd. apply wp_bind. eapply wp_mono; [by eapply (wp_delay parts usable)|].
    intros [] s2 (R & _). by apply wp_ret.
  - apply wp_bind. pose proof Hc as (hl & fl & Hc'). eapply wp_mono; [apply (wp_bflush parts usable fuel s [] A dev Hc)|].
    { unfold dirties. pose proof (count_range dirty (core s)) as Hr'. rewrite (core_length _ _ _ _ _ _ _ Hc') in Hr'. lia. }
    intros [] s1 (R & _). by apply wp_ret.
Qed.

(** Unread blocks of a device without delayed writes are on its disk. *)
Lemma clean_media s A dev blk :
  cache_ok s [] A → usable dev blk →
  (∀ i x, i ∉ [] → core s !! i = Some x → b_dev x = dev → has (b_flags x) B_DELWRI = false) →
  default zero_block (media s !! place parts dev blk) = A dev blk.
Proof.
  intros (hl & fl & Hc) Hu Hn. destruct (co_media (ca_core Hc) dev blk Hu) as [E|(i & x & Hx & (B1 & _)%is_block_spec & Hd)]; [done|].
  rewrite (Hn i x) in Hd; [done|by intros ?%elem_of_nil|done|done].
Qed.
End Refine.

(** ** Boot *)
Definition zero_buf : buf := Buf 0 0 0 0 0 0 0 0 0 0 0.
Definition boot_bufs : list buf :=
  Eval vm_compute in
    match (bhinit;; binit) (BState (replicate (NBUF + BQUEUES + BUFHSZ) zero_buf) [] ∅ [] 0 0 0 []) with
    | Done (_, s) => bufs s
    | _ => []
    end.

Lemma boot_run data md st ri ro ue wk :
  (bhinit;; binit) (BState (replicate (NBUF + BQUEUES + BUFHSZ) zero_buf) data md st ri ro ue wk) =
  Done (tt, BState boot_bufs data md st ri ro ue wk).
Proof. vm_compute. reflexivity. Qed.

Definition boot_queue (d : nat) : list nat := if (d =? bfreelist BQ_AGE)%nat then reverse (seq 0 NBUF) else [].
Lemma boot_queue_in d x : x ∈ boot_queue d → d = bfreelist BQ_AGE ∧ (x < NBUF)%nat.
Proof.
  unfold boot_queue. destruct (Nat.eqb_spec d (bfreelist BQ_AGE)); [|by intros ?%elem_of_nil].
  rewrite elem_of_reverse, elem_of_seq. intros. split; [done|lia].
Qed.
Lemma boot_rings heads fw bk :
  Forall (λ d, (NBUF ≤ d)%nat) heads →
  Forall (λ d, ring fw d (boot_queue d)) heads → Forall (λ d, ring bk d (reverse (boot_queue d))) heads →
  rings NBUF fw bk heads boot_queue.
Proof.
  rewrite !Forall_forall. intros H1 H2 H3. split; try done.
  - intros d _. unfold boot_queue. destruct (_ =? _)%nat; [|constructor]. apply NoDup_rev, NoDup_seq.
  - intros d d' x _ _ [-> _]%boot_queue_in [-> _]%boot_queue_in. done.
  - intros d x _ [_ Hx]%boot_queue_in. done.
Qed.

Section Boot.
Context `{Disks} (parts : list (list Z)) (usable : Z → Z → Prop).

Lemma boot_cache data md ri ro ue wk :
  length data = NBUF →
  cache_ok parts usable (BState boot_bufs data md parts ri ro ue wk) [] (λ dev blk, default zero_block (md !! place parts dev blk)).
Proof.
  intros Hl. exists boot_queue, boot_queue.
  assert (HC : Forall (λ x, has (b_flags x) B_ERROR = false ∧ has (b_flags x) B_LOCKED = false ∧ has (b_flags x) B_BUSY = false ∧
    has (b_flags x) B_ASYNC = false ∧ has (b_flags x) B_INVAL = true ∧ has (b_flags x) B_DELWRI = false ∧ b_resid x = 0) (lC (proj boot_bufs))).
  { vm_compute. repeat constructor. }
  assert (HA : imap (λ i x, b_addr x) (lC (proj boot_bufs)) = seq 0 NBUF) by (vm_compute; reflexivity).
  rewrite Forall_lookup in HC. split; try done.
  - apply boot_rings; vm_compute; repeat (constructor; [tauto || lia|]); constructor.
  - apply boot_rings; vm_compute; repeat (constructor; [tauto || lia|]); constructor.
  - intros i Hi. exists (bfreelist BQ_AGE). split; [vm_compute; set_solver|]. change (i ∈ reverse (seq 0 NBUF)). apply elem_of_reverse, elem_of_seq. lia.
  - intros i Hi _. exists (bfreelist BQ_AGE). split; [vm_compute; set_solver|]. change (i ∈ reverse (seq 0 NBUF)). apply elem_of_reverse, elem_of_seq. lia.
  - by intros i d ?%elem_of_nil.
  - split; constructor.
  - split.
    + intros i x Hx. destruct (HC i x Hx) as (C1 & C2 & C3 & _). rewrite bool_decide_false by (by intros ?%elem_of_nil). split_and!; try done.
      apply (f_equal (.!! i)) in HA. rewrite list_lookup_imap in HA. simpl bufs in Hx. rewrite Hx in HA. change (Some (b_addr x) = seq 0 NBUF !! i) in HA.
      symmetry in HA. apply lookup_seq in HA as [? _]. lia.
    + intros i x Hx _. by destruct (HC i x Hx) as (_ & _ & _ & ? & _).
    + intros i x Hx Hv. destruct (HC i x Hx) as (_ & _ & _ & _ & Hv' & _). congruence.
    + intros i x Hx Hd. destruct (HC i x Hx) as (_ & _ & _ & _ & _ & Hd' & _). congruence.
    + intros i x Hx _ Hv. destruct (HC i x Hx) as (_ & _ & _ & _ & Hv' & _). congruence.
    + intros i j x y Hx _ Hv. destruct (HC i x Hx) as (_ & _ & _ & _ & Hv' & _). congruence.
    + intros dev blk Hu. by left.
    + intros i x Hx. by destruct (HC i x Hx) as (_ & _ & _ & _ & _ & _ & ?).
Qed.
End Boot.

(** ** Theorems *)

(** [bhinit] and [binit] on the zeroed tables. *)
Definition power_on (data : list block) (md : gmap (Z * Z) block) (parts : list (list Z)) (ue : Z) : bstate :=
  BState (replicate (NBUF + BQUEUES + BUFHSZ) zero_buf) data md parts 0 0 ue [].
Definition on_disk (parts : list (list Z)) (md : gmap (Z * Z) block) (dev blk : Z) : block :=
  default zero_block (md !! place parts dev blk).

Lemma wp_serve_all `{Disks} parts usable `{!Volumes parts usable, !GoodDisks} fuel rs : ∀ s A,
  cache_ok parts usable s [] A → Forall (allowed usable) rs → (NBUF + 2 ≤ fuel)%nat →
  wp (serve_all fuel rs) (λ l s', l = answers A rs ∧ cache_ok parts usable s' [] (effects A rs)) s.
Proof.
  induction rs as [|r rs IH]; intros s A Hc Ha Hf; [apply wp_ret; by split|]. apply Forall_cons in Ha as [Hr Ha].
  cbn [serve_all]. apply wp_bind. eapply wp_mono; [by apply (wp_serve parts usable fuel s A r)|].
  intros a s1 [-> Hc1]. apply wp_bind. eapply wp_mono; [by apply (IH s1 (effect A r))|].
  intros l s2 [-> Hc2]. apply wp_ret. by split.
Qed.
Lemma wp_boot `{Disks} {T} parts data md ue (k : M T) (Q : T → bstate → Prop) :
  wp k Q (BState boot_bufs data md parts 0 0 ue []) → wp ((bhinit;; binit);; k) Q (power_on data md parts ue).
Proof. intros HQ. apply wp_bind. unfold wp at 1, power_on. rewrite boot_run. exact HQ. Qed.

Lemma boot_serve `{Disks} parts usable `{!Volumes parts usable, !GoodDisks} data md ue fuel rs :
  length data = NBUF → Forall (allowed usable) rs → (NBUF + 2 ≤ fuel)%nat →
  wp ((bhinit;; binit);; serve_all fuel rs) (λ l s', l = answers (on_disk parts md) rs ∧
    cache_ok parts usable s' [] (effects (on_disk parts md) rs)) (power_on data md parts ue).
Proof. intros Hl Ha Hf. apply wp_boot. apply (wp_serve_all parts usable); [by apply boot_cache|done|done]. Qed.

(** C4. The buffer cache implements an array of blocks.  From power-on, through
    any sequence of reads (with or without read-ahead), writes, delayed writes
    and flushes of blocks of partitions that do not overlap, every read returns
    what was last written to the block, or what the disk held at first; the
    searches for a buffer end, no buffer is lost, and at most one buffer
    belongs to a block. *)
Theorem cache_refines_disk `{Disks} (parts : list (list Z)) (usable : Z → Z → Prop) `{!Volumes parts usable, !GoodDisks}
    (data : list block) (md : gmap (Z * Z) block) (ue : Z) (fuel : nat) (rs : list request) :
  length data = NBUF → Forall (allowed usable) rs → (NBUF + 2 ≤ fuel)%nat →
  wp ((bhinit;; binit);; serve_all fuel rs) (λ l s', l = answers (on_disk parts md) rs ∧
    cache_ok parts usable s' [] (effects (on_disk parts md) rs)) (power_on data md parts ue).
Proof. apply boot_serve; done. Qed.

(** C11. A flush makes writes durable: after any requests and [bflush] of a
    device, each of its blocks is on the disk as it was last written, no buffer
    of the device is left marked for a delayed write, and the loop of
    [bflush], which starts over after every write, ends. *)
Theorem bflush_durable `{Disks} (parts : list (list Z)) (usable : Z → Z → Prop) `{!Volumes parts usable, !GoodDisks}
    (data : list block) (md : gmap (Z * Z) block) (ue : Z) (fuel : nat) (rs : list request) (dev : Z) :
  length data = NBUF → Forall (allowed usable) rs → (NBUF + 2 ≤ fuel)%nat →
  wp (((bhinit;; binit);; serve_all fuel rs);; bflush fuel dev) (λ _ s',
    (∀ blk, usable dev blk → on_disk parts (media s') dev blk = effects (on_disk parts md) rs dev blk) ∧
    (∀ i x, core s' !! i = Some x → b_dev x = dev → has (b_flags x) B_DELWRI = false)) (power_on data md parts ue).
Proof.
  intros Hl Ha Hf. apply wp_bind. eapply wp_mono; [by apply (boot_serve parts usable)|]. intros l s [_ Hc].
  pose proof Hc as (hl & fl & Hc'). eapply wp_mono; [apply (wp_bflush parts usable fuel s [] _ dev Hc)|].
  { unfold dirties. pose proof (count_range dirty (core s)) as Hr. rewrite (core_length _ _ _ _ _ _ _ Hc') in Hr. lia. }
  intros [] s' (R1 & _ & R3). split; [intros blk Hu; by eapply clean_media|].
  intros i x. apply R3. set_solver.
Qed.

(** Read-ahead cannot be observed: [breada] gives its caller the buffer
    contents that [bread] gives, whatever block it reads ahead, leaves the same
    block contents behind, and touches no buffer that is in use. *)
Theorem breada_bread `{Disks} (parts : list (list Z)) (usable : Z → Z → Prop) `{!Volumes parts usable, !GoodDisks}
    (s : bstate) (held : list nat) (A : Z → Z → block) (fuel : nat) (dev blk rablk : Z) :
  cache_ok parts usable s held A → usable dev blk → rablk = 0 ∨ usable dev rablk → unused s held dev blk →
  (length held + 1 < NBUF)%nat → (NBUF + 2 ≤ fuel)%nat →
  ∃ d, let Q := λ i s', bufdata s' !! i = Some d ∧ i ∉ held ∧ cache_ok parts usable s' (i :: held) A ∧
         u_error s' = u_error s ∧ ∀ j, j ∈ held → core s' !! j = core s !! j ∧ bufdata s' !! j = bufdata s !! j in
    wp (bread fuel dev blk) Q s ∧ wp (breada fuel dev blk rablk) Q s.
Proof.
  intros Hc Hu Hra Hun Hl Hf. exists (A dev blk). simpl. split.
  - eapply wp_mono; [apply (wp_bread parts usable fuel s held A dev blk Hc Hu Hun); [lia|done]|].
    intros i s' ((Hn & [U1 U2] & hl & fl & x & R) & Hd & _). split_and!; try done. exists hl, fl. apply R.
  - eapply wp_mono; [by apply (wp_breada parts usable fuel s held A dev blk rablk)|].
    intros i s' ((Hn & [U1 U2] & hl & fl & x & R) & Hd & _). split_and!; try done. exists hl, fl. apply R.
Qed.

(** C36. A failed transfer is reported as a success.  When the driver's read
    fails, the buffer keeps the contents it had for another block, and the
    rest of [bread] marks it done and valid, with no error for the caller. *)
Theorem read_failure_hidden `{Disks} (parts : list (list Z)) (usable : Z → Z → Prop) `{!Volumes parts usable}
    (s : bstate) (held : list nat) (A : Z → Z → block) (i : nat) (dev blk : Z) (x : buf) (stale : block) (fuel : nat) :
  holds parts usable s held A i dev blk x → has (b_flags x) B_DONE = false → bufdata s !! i = Some stale →
  disk_read (place parts dev blk).1 (place parts dev blk).2 DEV_BSIZE (media s) stale = (0, stale) →
  wp (start_read i B_READ;; biowait fuel i) (λ _ s', u_error s' = u_error s ∧ bufdata s' !! i = Some stale ∧
    ∃ x', core s' !! i = Some x' ∧ is_block x' dev blk = true ∧ has (b_flags x') B_DONE = true ∧ geterror x' = 0) s.
Proof.
  intros ((hl & fl & Hc) & Hx & Hb & Ha) Hd Hst Hfail. pose proof Hb as (B1 & B2 & B3)%is_block_spec.
  destruct (co_valid (ca_core Hc) i x Hx B3) as [Hu _]. destruct (co_flags (ca_core Hc) i x Hx) as (G1 & G2 & _).
  pose proof (lookup_lt_Some _ _ _ Hx) as Hlt. apply wp_bind. unfold start_read, set_flags.
  apply wp_bind. eapply wp_view_set; [apply view_init|exact Hx|apply same_links_flags|]. intros s1 E1 V1.
  apply wp_bind. eapply wp_view_set; [exact V1|by apply list_lookup_insert_eq|by intros ?|]. intros s2 E2 V2. rewrite list_insert_insert_eq in V2.
  set (y := x<|b_flags ::= λ f, Z.lor f B_READ|><|b_bcount := DEV_BSIZE|>) in V2.
  assert (K : kept s s2) by (eapply kept_trans; [by apply kept_st|by apply kept_st]). destruct K as (K1 & K2 & K3 & K4).
  assert (Hy : <[i := y]> (core s) !! i = Some y) by (by apply list_lookup_insert_eq).
  assert (Y : has (b_flags y) B_READ = true ∧ has (b_flags y) B_DONE = false ∧ has (b_flags y) B_ASYNC = false ∧ has (b_flags y) B_ERROR = false).
  { unfold y. fields. flag_simpl. done. }
  destruct Y as (Y1 & Y2 & Y3 & Y4).
  apply wp_bind. eapply (wp_strategy_any parts usable s2 _ _ i y stale); [exact V2|exact Hy|done|done|by rewrite K1|by rewrite K3, (ca_starts Hc)| |].
  2:{ rewrite Y1. done. }
  intros _. change (b_dev y) with (b_dev x). change (b_blkno y) with (b_blkno x). change (b_bcount y) with DEV_BSIZE.
  rewrite B1, B2, K2, Hfail. cbn [snd]. set (s3 := s2<|bufdata := _|>).
  assert (V3 : view s3 (proj (bufs s)) (<[i := y]> (core s))) by done.
  eapply (wp_biodone_sync s3); [exact V3|exact Hy|done|done|]. intros s4 E4 V4. rewrite list_insert_insert_eq in V4.
  apply wp_modify. set (s5 := s4<|ru_inblock ::= _|>). assert (V5 : view s5 (proj (bufs s)) (<[i := finished y]> (core s))) by done.
  destruct (kept_wakes _ _ E4) as (L1 & L2 & L3 & L4).
  assert (Hf5 : <[i := finished y]> (core s) !! i = Some (finished y)) by (by apply list_lookup_insert_eq).
  assert (Z : has (b_flags (finished y)) B_DONE = true ∧ has (b_flags (finished y)) B_ERROR = false).
  { unfold finished. fields. flag_simpl. done. }
  destruct Z as [Z1 Z2]. eapply wp_biowait_done; [exact V5|exact Hf5|done|done|].
  split; [change (u_error s5) with (u_error s4); rewrite L4; exact K4|].
  split; [change (bufdata s5) with (bufdata s4); rewrite L1; apply list_lookup_insert_eq; rewrite K1; by eapply lookup_lt_Some|].
  exists (finished y). split; [by rewrite (view_core _ _ _ V5)|]. split.
  - destruct (is_same_finished y) as (S1 & S2 & S3 & S4). apply is_block_spec. rewrite S1, S2, S3. unfold y. fields. flag_simpl. done.
  - split; [done|]. unfold geterror. by rewrite Z2.
Qed.

(** ** The boot record

    The table after the first [getnewbuf], and after a failed [read_mbr]. *)
Definition mbr_bufs : list buf :=
  Eval vm_compute in
    match notavail 9 (BState boot_bufs [] ∅ [] 0 0 0 []) with
    | Done (_, s) => <[9%nat := (default zero_buf (bufs s !! 9%nat))<|b_flags := B_BUSY|>]> (bufs s)
    | _ => []
    end.
Definition broken_bufs : list buf :=
  Eval vm_compute in match brelse 0 (BState mbr_bufs [] ∅ [] 0 0 0 []) with Done (_, s) => bufs s | _ => [] end.

Lemma mbr_getnewbuf `{Disks} fuel data md st ri ro ue wk :
  getnewbuf (S fuel) (BState boot_bufs data md st ri ro ue wk) = Done (9%nat, BState mbr_bufs data md st ri ro ue wk).
Proof. vm_compute. reflexivity. Qed.
Lemma mbr_brelse data md st ri ro ue wk :
  brelse 0 (BState mbr_bufs data md st ri ro ue wk) = Done (tt, BState broken_bufs data md st ri ro ue wk).
Proof. vm_compute. reflexivity. Qed.

(** The members of the free list are linked in a circle without its head. *)
Lemma broken_circle s dev : bufs s = broken_bufs → ∀ n i, (i < 9)%nat → delayed n i (bfreelist BQ_AGE) dev s = Spin.
Proof.
  intros Es n. induction n as [|n IH]; intros i Hi.
  { do 9 (destruct i as [|i]; [reflexivity|]). lia. }
  assert (HN : ∃ x, broken_bufs !! i = Some x ∧ has (b_flags x) B_DELWRI = false ∧ (av_forw x < 9)%nat).
  { do 9 (destruct i as [|i]; [eexists; split; [reflexivity|]; split; [reflexivity|vm_compute; lia]|]). lia. }
  destruct HN as (x & Hx & Hd & Ha). cbn [delayed]. rewrite (proj2 (Nat.eqb_neq i (bfreelist BQ_AGE))) by (unfold bfreelist, NBUF, BQ_AGE; lia).
  unfold buf_at, mbind, K_bind, gets, lift. rewrite Es, (rd_Done _ _ _ Hx), Hd. cbn [andb]. by apply IH.
Qed.

(** A boot record that cannot be read breaks the free lists: [read_mbr]
    releases the first buffer of the table, which is on the free list already,
    instead of the one it took.  The one it took stays busy, and from the head
    of the list the links lead into a circle that does not come back to it, so
    that the scan of [bflush] over the list never ends. *)
Theorem read_mbr_breaks_list `{Disks} (data : list block) (md : gmap (Z * Z) block) (parts : list (list Z)) (ue : Z)
    (d d' : block) (fuel : nat) :
  0 < nrdsk → data !! 9%nat = Some d → disk_read 0 0 512 md d = (0, d') →
  wp ((bhinit;; binit);; read_mbr (S fuel) 0) (λ r s', r = None ∧
    (∃ x, bufs s' !! 9%nat = Some x ∧ has (b_flags x) B_BUSY = true) ∧
    ∃ h, bufs s' !! bfreelist BQ_AGE = Some h ∧ ∀ n dev, delayed n (av_forw h) (bfreelist BQ_AGE) dev s' = Spin)
    (power_on data md parts ue).
Proof.
  intros Hn Hd Hr. apply wp_boot. unfold read_mbr. rewrite (proj2 (Z.ltb_ge (nrdsk - 1) 0)) by lia.
  apply wp_bind. unfold wp at 1. rewrite mbr_getnewbuf. apply wp_bind.
  assert (Hx : ∃ x, mbr_bufs !! 9%nat = Some x ∧ b_addr x = 9%nat) by (by eexists). destruct Hx as (x & Hx & Hxa).
  unfold buf_at. apply wp_bind, wp_gets. eapply wp_lift; [by apply rd_Done|]. rewrite Hxa.
  do 2 apply wp_bind, wp_gets. apply wp_bind. eapply wp_lift; [by apply rd_Done|]. cbn [media bufdata]. rewrite Hr. cbn [fst snd].
  apply wp_bind. eapply wp_lift; [apply wr_Done; by eapply lookup_lt_Some|]. apply wp_bind, wp_modify.
  change (0 =? 0) with true. apply wp_bind. unfold wp at 1.
  match goal with |- context [brelse 0 ?s0] =>
    change s0 with (BState mbr_bufs (<[9%nat := d']> data) md parts 0 0 ue []) end. rewrite mbr_brelse. apply wp_ret.
  split; [done|]. split; [eexists; split; [reflexivity|reflexivity]|]. eexists. split; [reflexivity|].
  intros n dev. apply broken_circle; [done|vm_compute; lia].
Qed.

(** ** Examples

    One disk with a partition of 100 blocks from block 10 on; [ok]: reads
    succeed. *)
Definition ex_disks (ok : bool) : Disks := {|
  nrdsk := 1;
  readonly _ := false;
  tape _ := false;
  disk_read root o n m d := if ok then (1, default zero_block (m !! (root, o))) else (0, d);
  disk_write root o n d m := (1, <[(root, o) := d]> m);
  other_strategy _ := mret tt;
  sleep _ := mret tt |}.
Definition ex_parts : list (list Z) := [[10; 200; 300; 400]].
Definition ex_usable (dev blk : Z) : Prop := dev = 1 ∧ 0 ≤ blk < 100.

#[local] Instance ex_volumes ok : @Volumes (ex_disks ok) ex_parts ex_usable.
Proof.
  assert (HP : ∀ blk, 0 ≤ blk < 100 → place ex_parts 1 blk = (0, 10 + blk)).
  { intros blk Hb. change (place ex_parts 1 blk) with (0, u32 (10 + blk)). by rewrite u32_id by lia. }
  split.
  - by intros dev blk [-> _].
  - intros dev blk [-> _] _. by exists [10; 200; 300; 400], 10.
  - done.
  - intros dev blk dev' blk' [-> H1] [-> H2]. rewrite !HP by done. intros [= E]. split; [done|lia].
Qed.
#[local] Instance ex_good : @GoodDisks (ex_disks true).
Proof. by split. Qed.

Definition ex_requests : list request :=
  WriteLater 1 5 (replicate 256 7) :: Write 1 6 (replicate 256 8) :: Read 1 5 :: ReadAhead 1 6 7 :: nil.
Lemma ex_allowed : Forall (allowed ex_usable) ex_requests.
Proof. unfold ex_requests, ex_usable. repeat constructor; simpl; lia. Qed.
Definition ex_data : list block := replicate NBUF zero_block.

Lemma cache_refines_disk_witness :
  let D := ex_disks true in
  wp ((bhinit;; binit);; serve_all 12 ex_requests) (λ l _, l = [None; None; Some (replicate 256 7); Some (replicate 256 8)])
    (power_on ex_data ∅ ex_parts 0).
Proof.
  intros D. eapply wp_mono.
  - apply (cache_refines_disk ex_parts ex_usable ex_data ∅ 0 12 ex_requests); [reflexivity|apply ex_allowed|unfold NBUF; simpl; lia].
  - intros l s' [-> _]. vm_compute. reflexivity.
Defined.
Lemma bflush_durable_witness :
  let D := ex_disks true in
  wp (((bhinit;; binit);; serve_all 12 ex_requests);; bflush 12 1)
    (λ _ s', on_disk ex_parts (media s') 1 5 = replicate 256 7) (power_on ex_data ∅ ex_parts 0).
Proof.
  intros D. eapply wp_mono.
  - apply (bflush_durable ex_parts ex_usable ex_data ∅ 0 12 ex_requests 1); [reflexivity|apply ex_allowed|unfold NBUF; simpl; lia].
  - intros [] s' [Hd _]. rewrite (Hd 5); [vm_compute; reflexivity|unfold ex_usable; lia].
Defined.
Lemma breada_bread_witness :
  let D := ex_disks true in
  ∃ d, wp (breada 12 1 5 6) (λ i s', bufdata s' !! i = Some d) (BState boot_bufs ex_data ∅ ex_parts 0 0 0 []) ∧
    wp (bread 12 1 5) (λ i s', bufdata s' !! i = Some d) (BState boot_bufs ex_data ∅ ex_parts 0 0 0 []).
Proof.
  intros D. destruct (breada_bread ex_parts ex_usable (BState boot_bufs ex_data ∅ ex_parts 0 0 0 []) [] _ 12 1 5 6
    (boot_cache ex_parts ex_usable ex_data ∅ 0 0 0 [] eq_refl)) as (d & W1 & W2).
  - unfold ex_usable. lia.
  - right. unfold ex_usable. lia.
  - apply unused_nil.
  - unfold NBUF. simpl. lia.
  - unfold NBUF. simpl. lia.
  - exists d. split.
    + eapply wp_mono; [exact W2|]. by intros i s' [? _].
    + eapply wp_mono; [exact W1|]. by intros i s' [? _].
Defined.
Lemma read_failure_hidden_witness :
  ∃ s i stale, bufdata s !! i = Some stale ∧
    wp (@start_read (ex_disks false) i B_READ;; @biowait (ex_disks false) 12 i) (λ _ s', u_error s' = u_error s ∧ bufdata s' !! i = Some stale) s.
Proof.
  pose (D := ex_disks true). set (s0 := BState boot_bufs ex_data ∅ ex_parts 0 0 0 []).
  pose proof (boot_cache ex_parts ex_usable ex_data ∅ 0 0 0 [] eq_refl) as Hc. fold s0 in Hc.
  assert (Hg := wp_getblk_full ex_parts ex_usable 12 s0 [] _ 1 5 Hc ltac:(unfold ex_usable; lia) (unused_nil s0 1 5) ltac:(unfold NBUF; simpl; lia) ltac:(unfold NBUF; simpl; lia)).
  apply wp_run in Hg as (i & s & _ & Ho & He). destruct (obtained_holds _ _ _ _ _ _ _ _ _ Ho) as (x & Hh & _ & _).
  assert (∃ stale, bufdata s !! i = Some stale) as [stale Hst].
  { destruct Hh as ((hl & fl & Hc') & Hx & _). apply lookup_lt_is_Some_2. rewrite (ca_data Hc'), <- (core_length _ _ _ _ _ _ _ Hc').
    by eapply lookup_lt_Some. }
  assert (Hd : has (b_flags x) B_DONE = false).
  { destruct He as [(y & Hy & Hb)|He].
    - assert (HN : Forall (λ y, is_block y 1 5 = false) (core s0)) by (vm_compute; repeat constructor).
      rewrite Forall_lookup in HN. rewrite (HN i y Hy) in Hb. done.
    - destruct Hh as (_ & Hx & _). specialize (He x Hx). destruct (has (b_flags x) B_DONE) eqn:E; [|done].
      by rewrite (has_done _ E) in He. }
  exists s, i, stale. split; [done|]. eapply wp_mono.
  - apply (@read_failure_hidden (ex_disks false) ex_parts ex_usable _ s [] _ i 1 5 x stale 12 Hh Hd Hst). reflexivity.
  - by intros [] s' (R1 & R2 & _).
Defined.
Lemma read_mbr_breaks_list_witness :
  let D := ex_disks false in
  wp ((bhinit;; binit);; read_mbr 12 0) (λ r s', r = None ∧ ∃ h, ∀ n dev, delayed n (av_forw h) (bfreelist BQ_AGE) dev s' = Spin)
    (power_on ex_data ∅ ex_parts 0).
Proof.
  intros D. eapply wp_mono.
  - apply (read_mbr_breaks_list ex_data ∅ ex_parts 0 zero_block zero_block 11); [done|reflexivity|reflexivity].
  - intros r s' (R1 & _ & h & _ & R2). split; [done|]. by exists h.
Defined.
