(* ===== verification/Ufs.v ===== *)
(** * The file system's blocks

    The super block and its free list, and the block tree of a file:
    [balloc], [free] and [ifree] of kernel/ufs_alloc.c, [badblock] of
    kernel/ufs_subr.c and [bmap] of kernel/ufs_bmap.c, over the buffer cache
    of [Bio]. *)
From stdpp Require Import base tactics list option strings numbers gmap.
From S2P Require Import Prelude Bio.
Open Scope Z_scope.

(** ** Data *)
Definition SUPERB : Z := 0.
Definition NICINOD : Z := 32.
Definition NICFREE : Z := 200.
Definition NSHIFT : Z := 8.
Definition NMASK : Z := 255.
Definition NINDIR : Z := 256.
Definition NDADDR : Z := 4.
Definition NIADDR : Z := 3.
Definition NADDR : Z := NDADDR + NIADDR.
Definition B_WRITE : Z := 0.
Definition B_CLRBUF : Z := 0x01.
Definition B_SYNC : Z := 0x02.
Definition MNT_ASYNC : Z := 0x0040.
Definition ENOSPC : Z := 28.
Definition EFBIG : Z := 27.
Definition IUPD : Z := 0x2.
Definition ICHG : Z := 0x40.

(** [struct fs]; [fs_fsmnt] is kept as its seven words. *)
Record fs := Fs {
  fs_magic1 : Z;
  fs_isize : Z;
  fs_fsize : Z;
  fs_swapsz : Z;
  fs_nfree : Z;
  fs_free : list Z;
  fs_ninode : Z;
  fs_inode : list Z;
  fs_flock : Z;
  fs_fmod : Z;
  fs_ilock : Z;
  fs_ronly : Z;
  fs_time : Z;
  fs_tfree : Z;
  fs_tinode : Z;
  fs_fsmnt : list Z;
  fs_lasti : Z;
  fs_nbehind : Z;
  fs_flags : Z;
  fs_magic2 : Z }.

#[global] Instance eta_fs : Eta fs := λ f,
  Fs (fs_magic1 f) (fs_isize f) (fs_fsize f) (fs_swapsz f) (fs_nfree f) (fs_free f) (fs_ninode f) (fs_inode f) (fs_flock f)
    (fs_fmod f) (fs_ilock f) (fs_ronly f) (fs_time f) (fs_tfree f) (fs_tinode f) (fs_fsmnt f) (fs_lasti f) (fs_nbehind f)
    (fs_flags f) (fs_magic2 f).

(** The words of the super block in memory and on the disk, which fill a
    block; a word is the signed value of its 32 bits. *)
Definition sb_words (f : fs) : block :=
  [s32 (fs_magic1 f); s32 (fs_isize f); s32 (fs_fsize f); s32 (fs_swapsz f); fs_nfree f] ++ fs_free f ++
  [fs_ninode f] ++ (s32 <$> fs_inode f) ++ [fs_flock f; fs_fmod f; fs_ilock f; fs_ronly f; fs_time f; s32 (fs_tfree f);
  s32 (fs_tinode f)] ++ fs_fsmnt f ++ [s32 (fs_lasti f); s32 (fs_nbehind f); s32 (fs_flags f); s32 (fs_magic2 f)].

(** [struct inode], without the links of the table of inodes and the locks.
    All inodes here are of one file system, which [i_fs] points to. *)
Record inode := Inode {
  i_flag : Z;
  i_dev : Z;
  i_number : Z;
  i_addr : list Z;
  i_lastr : Z;
  i_mode : Z;
  i_nlink : Z;
  i_uid : Z;
  i_gid : Z;
  i_size : Z;
  i_flags : Z;
  i_atime : Z;
  i_mtime : Z;
  i_ctime : Z }.
#[global] Instance eta_inode : Eta inode := λ i,
  Inode (i_flag i) (i_dev i) (i_number i) (i_addr i) (i_lastr i) (i_mode i) (i_nlink i) (i_uid i) (i_gid i) (i_size i) (i_flags i)
    (i_atime i) (i_mtime i) (i_ctime i).

(** What a process sleeps on and is woken from, and what is said on the
    console. *)
Inductive chan := FLOCK | ILOCK | LBOLT | INODE (ip : nat).
Inductive note := Woke (c : chan) | Said (msg : string).

(** The cache, the mounted file system, the inodes in memory, the block that
    [bmap] suggests for read-ahead, the time, and the log. *)
Record vol := Vol {
  bst : bstate;
  sb : fs;
  inodes : list inode;
  rablock : Z;
  tv_sec : Z;
  notes : list note }.
#[global] Instance eta_vol : Eta vol := λ v, Vol (bst v) (sb v) (inodes v) (rablock v) (tv_sec v) (notes v).

Notation V := (K vol).

(** [sleep], when other processes run. *)
Class Naps := nap : chan → V unit.

(** Code of the cache. *)
Definition on_cache {T} (m : M T) : V T := λ v,
  match m (bst v) with
  | Done (x, s) => Done (x, v<|bst := s|>)
  | Panic msg => Panic msg
  | Wild => Wild
  | Spin => Spin
  end.
Definition set_sb (g : fs → fs) : V unit := modify (λ v, v<|sb ::= g|>).
Definition tell (n : note) : V unit := modify (λ v, v<|notes ::= cons n|>).
Definition inode_at (ip : nat) : V inode := l ← gets inodes; lift (rd l ip).
Definition set_inode (ip : nat) (g : inode → inode) : V unit :=
  x ← inode_at ip; l ← gets inodes; l ← lift (wr l ip (g x)); modify (λ v, v<|inodes := l|>).
Definition set_error (e : Z) : V unit := on_cache (modify (λ s, s<|u_error := e|>)).

(** [bzero (bp->b_addr, MAXBSIZE)] *)
Definition clear_block (bp : nat) : V unit := on_cache (store bp (replicate 256 0)).
(** [bp->b_flags & B_ERROR], [bp->b_resid] *)
Definition failed (bp : nat) : V bool :=
  x ← on_cache (buf_at bp); mret (has (b_flags x) B_ERROR || negb (b_resid x =? 0)).

Section Ufs.
Context `{Disks, Naps}.
(** A bound for the searches of the cache. *)
Context (fuel : nat).

(** ** Free blocks *)

(** [bn] is a [long] and the bounds are unsigned, so that it is compared as an
    unsigned number. *)
Definition badblock (bn : Z) : V bool :=
  f ← gets sb;
  if (u32 bn <? fs_isize f) || (fs_fsize f <=? u32 bn) then tell (Said "bad block");; mret true else mret false.

(** [while ( *lock) sleep (lock, PINOD);] *)
Fixpoint await_lock (n : nat) (lock : fs → Z) (c : chan) : V unit :=
  f ← gets sb;
  if lock f =? 0 then mret tt else match n with O => lift Spin | S n => nap c;; await_lock n lock c end.

(** The loop of [balloc] that takes a number off the list; [None]: no space. *)
Fixpoint pop_block (n : nat) : V (option Z) :=
  match n with
  | O => lift Spin
  | S n =>
      f ← gets sb;
      if fs_nfree f <=? 0 then mret None
      else if NICFREE <? fs_nfree f then tell (Said "bad free count");; mret None
      else
        set_sb (λ f, f<|fs_nfree := fs_nfree f - 1|>);;
        f ← gets sb; bno ← lift (rdz (fs_free f) (fs_nfree f));
        if bno =? 0 then mret None
        else bad ← badblock bno; if (bad : bool) then pop_block n else mret (Some bno)
  end.

(** [*((FBLKP)&fs->fs_nfree) = *fbp] and back: a count and [NICFREE]
    addresses at the start of the block. *)
Definition load_fblk (d : block) : V unit :=
  n ← lift (rd d 0);
  l ← lift (if decide (201 ≤ length d)%nat then Done (take 200 (drop 1 d)) else Wild);
  set_sb (λ f, f<|fs_nfree := n|>);; set_sb (λ f, f<|fs_free := l|>).
Definition store_fblk (f : fs) (d : block) : block := fs_nfree f :: fs_free f ++ drop 201 d.

(** The block [bno] was the last of the list in the super block: it holds more
    of the list. *)
Definition refill (dev bno : Z) : V unit :=
  set_sb (λ f, f<|fs_flock := s32 (fs_flock f + 1)|>);;
  bp ← on_cache (bread fuel dev bno);
  e ← failed bp;
  (if (e : bool) then mret tt else d ← on_cache (load bp); load_fblk d);;
  on_cache (brelse bp);;
  bp ← on_cache (getblk fuel dev SUPERB);
  set_sb (λ f, f<|fs_fmod := 0|>);;
  t ← gets tv_sec; set_sb (λ f, f<|fs_time := t|>);;
  f ← gets sb; on_cache (store bp (sb_words f));;
  (if negb (has (fs_flags f) MNT_ASYNC) then on_cache (bwrite fuel bp) else on_cache (bdwrite fuel bp));;
  set_sb (λ f, f<|fs_flock := 0|>);;
  tell (Woke FLOCK).

Definition nospace : V (option nat) :=
  set_sb (λ f, f<|fs_nfree := 0|>);;
  set_sb (λ f, f<|fs_tfree := 0|>);;
  tell (Said "file system full");;
  tell (Said "write failed, file system full");;
  nap LBOLT;; nap LBOLT;; nap LBOLT;; nap LBOLT;; nap LBOLT;;
  set_error ENOSPC;;
  mret None.

(** [getblk (ip->i_dev, bno)] and the end of [balloc]. *)
Definition take_block (dev bno flags : Z) : V (option nat) :=
  bp ← on_cache (getblk fuel dev bno);
  on_cache (setb bp (λ b, b<|b_resid := 0|>));;
  (if has flags B_CLRBUF then clear_block bp else mret tt);;
  set_sb (λ f, f<|fs_fmod := 1|>);;
  set_sb (λ f, f<|fs_tfree := u32 (fs_tfree f - 1)|>);;
  mret (Some bp).

Definition balloc (ip : nat) (flags : Z) : V (option nat) :=
  i ← inode_at ip;
  await_lock fuel fs_flock FLOCK;;
  r ← pop_block (S (Z.to_nat NICFREE));
  match r with
  | None => nospace
  | Some bno =>
      f ← gets sb;
      if fs_nfree f <=? 0 then
        refill (i_dev i) bno;;
        f ← gets sb;
        if fs_nfree f <=? 0 then nospace else take_block (i_dev i) bno flags
      else take_block (i_dev i) bno flags
  end.

(** [fs_free[fs_nfree++] = bno] *)
Definition push_block (bno : Z) : V unit :=
  f ← gets sb; l ← lift (wrz (fs_free f) (fs_nfree f) bno);
  set_sb (λ f, f<|fs_free := l|><|fs_nfree := s32 (fs_nfree f + 1)|>).

(** The list in the super block is full: it goes into the block [bno]. *)
Definition spill (dev bno : Z) : V unit :=
  set_sb (λ f, f<|fs_flock := s32 (fs_flock f + 1)|>);;
  bp ← on_cache (getblk fuel dev bno);
  f ← gets sb; d ← on_cache (load bp); on_cache (store bp (store_fblk f d));;
  set_sb (λ f, f<|fs_nfree := 0|>);;
  (if has (fs_flags f) MNT_ASYNC then on_cache (bdwrite fuel bp) else on_cache (bwrite fuel bp));;
  set_sb (λ f, f<|fs_flock := 0|>);;
  tell (Woke FLOCK).

Definition free (ip : nat) (bno : Z) : V unit :=
  i ← inode_at ip;
  bad ← badblock bno;
  if (bad : bool) then tell (Said "bad block")
  else
    await_lock fuel fs_flock FLOCK;;
    f ← gets sb;
    (if fs_nfree f <=? 0 then
       set_sb (λ f, f<|fs_nfree := 1|>);; l ← lift (wr (fs_free f) 0 0); set_sb (λ f, f<|fs_free := l|>)
     else mret tt);;
    f ← gets sb;
    (if NICFREE <=? fs_nfree f then spill (i_dev i) bno else mret tt);;
    push_block bno;;
    set_sb (λ f, f<|fs_tfree := u32 (fs_tfree f + 1)|>);;
    set_sb (λ f, f<|fs_fmod := 1|>).

(** ** Free inodes *)
Definition ifree (ino : Z) : V unit :=
  set_sb (λ f, f<|fs_tinode := u32 (fs_tinode f + 1)|>);;
  f ← gets sb;
  if negb (fs_ilock f =? 0) then mret tt
  else if NICINOD <=? fs_ninode f then
    if ino <? fs_lasti f then set_sb (λ f, f<|fs_nbehind := u32 (fs_nbehind f + 1)|>) else mret tt
  else
    l ← lift (wrz (fs_inode f) (fs_ninode f) ino);
    set_sb (λ f, f<|fs_inode := l|><|fs_ninode := s32 (fs_ninode f + 1)|>);;
    set_sb (λ f, f<|fs_fmod := 1|>).

(** ** The blocks of a file *)

(** [for (j = 3; j > 0; j--) ...]: the index [j] of the indirect block (0: too
    far), the shift, and the number of the block below it. *)
Fixpoint bmap_level (j : nat) (sh nb bn : Z) : nat * Z * Z :=
  match j with
  | O => (O, sh, bn)
  | S j' =>
      let sh := sh + NSHIFT in
      let nb := s32 (Z.shiftl nb NSHIFT) in
      if bn <? nb then (j, sh, bn) else bmap_level j' sh nb (bn - nb)
  end.

Definition bsync (sync : bool) (bp : nat) : V unit :=
  if sync then on_cache (bwrite fuel bp) else on_cache (bdwrite fuel bp).

(** The number of the block in the buffer, [dbtofsb(bp->b_blkno)]. *)
Definition blkno_of (bp : nat) : V Z := x ← on_cache (buf_at bp); mret (b_blkno x).

(** [ip->i_addr[i] = nb] with the marks of the change. *)
Definition set_addr (ip : nat) (i nb : Z) : V unit :=
  x ← inode_at ip; l ← lift (wrz (i_addr x) i nb);
  set_inode ip (λ x, x<|i_addr := l|>);;
  set_inode ip (λ x, x<|i_flag ::= λ f, Z.lor f (Z.lor IUPD ICHG)|>).

(** The loop through [k] levels of indirect blocks, from the block [nb]. *)
Fixpoint bmap_fetch (k : nat) (ip : nat) (dev bn sh nb ra rwflg flags : Z) (async : bool) : V Z :=
  match k with
  | O => modify (λ v, v<|rablock := ra|>);; mret nb
  | S k' =>
      bp ← on_cache (bread fuel dev nb);
      e ← failed bp;
      if (e : bool) then on_cache (brelse bp);; mret 0
      else
        bap ← on_cache (load bp);
        let sh := sh - NSHIFT in
        let i := Z.land (Z.shiftr bn sh) NMASK in
        nb ← lift (rdz bap i);
        ra ← (if i <? NINDIR - 1 then lift (rdz bap (i + 1)) else mret ra);
        if nb =? 0 then
          nbp ← (if rwflg =? B_READ then mret None else balloc ip (Z.lor flags B_CLRBUF));
          match nbp with
          | None => on_cache (brelse bp);; mret (-1)
          | Some nbp =>
              nb ← blkno_of nbp;
              bsync (negb async && ((1 <? Z.of_nat k) || has flags B_SYNC)) nbp;;
              bap ← on_cache (load bp);
              bap ← lift (wrz bap i nb);
              on_cache (store bp bap);;
              on_cache (bdwrite fuel bp);;
              bmap_fetch k' ip dev bn sh nb ra rwflg flags async
          end
        else on_cache (brelse bp);; bmap_fetch k' ip dev bn sh nb ra rwflg flags async
  end.

(** The direct blocks. *)
Definition bmap_direct (ip : nat) (bn rwflg flags : Z) : V Z :=
  x ← inode_at ip;
  nb ← lift (rdz (i_addr x) bn);
  let ahead nb := (if bn <? NADDR - 4 then
                     x ← inode_at ip; ra ← lift (rdz (i_addr x) (bn + 1)); modify (λ v, v<|rablock := ra|>)
                   else mret tt);; mret nb in
  if nb =? 0 then
    bp ← (if rwflg =? B_READ then mret None else balloc ip flags);
    match bp with
    | None => mret (-1)
    | Some bp =>
        nb ← blkno_of bp;
        bsync (has flags B_SYNC) bp;;
        set_addr ip bn nb;;
        ahead nb
    end
  else ahead nb.

Definition bmap (ip : nat) (bn rwflg flags : Z) : V Z :=
  f ← gets sb;
  let async := has (fs_flags f) MNT_ASYNC in
  if bn <? 0 then set_error EFBIG;; mret 0
  else
    modify (λ v, v<|rablock := 0|>);;
    if bn <? NADDR - 3 then bmap_direct ip bn rwflg flags
    else
      let '(j, sh, bn) := bmap_level 3 0 1 (bn - (NADDR - 3)) in
      if (j =? 0)%nat then set_error EFBIG;; mret 0
      else
        let a := NADDR - Z.of_nat j in
        x ← inode_at ip;
        nb ← lift (rdz (i_addr x) a);
        if nb =? 0 then
          bp ← (if rwflg =? B_READ then mret None else balloc ip (Z.lor flags B_CLRBUF));
          match bp with
          | None => mret (-1)
          | Some bp =>
              nb ← blkno_of bp;
              bsync (negb async) bp;;
              set_addr ip a nb;;
              bmap_fetch (4 - j) ip (i_dev x) bn sh nb 0 rwflg flags async
          end
        else bmap_fetch (4 - j) ip (i_dev x) bn sh nb 0 rwflg flags async.
End Ufs.
