(* ===== verification/Alloc.v ===== *)
(** * Block allocation

    The free list of a file system, part in the super block and part in free
    blocks themselves, is a stack of block numbers: [balloc] pops, [free]
    pushes. *)
From stdpp Require Import base tactics list option strings numbers gmap.
From S2P Require Import Prelude Ring Bio Cache Store Ufs.
Open Scope Z_scope.

Lemma wp_on_cache {T} (m : M T) (Q : T → vol → Prop) v :
  wp m (λ x s', Q x (v<|bst := s'|>)) (bst v) → wp (on_cache m) Q v.
Proof. unfold wp, on_cache. by destruct (m (bst v)) as [[x s]| | |]. Qed.

(** Nobody else runs while the process sleeps. *)
Class Alone `{Naps} : Prop := alone c v : nap c v = Done (tt, v).

(** Different numbers below [n]. *)
Lemma numbers_count (F : list Z) n : NoDup F → (∀ b, b ∈ F → 0 ≤ b < n) → 0 ≤ n → Z.of_nat (length F) ≤ n.
Proof.
  intros Hd Hr Hn. assert (Hl : (length (Z.to_nat <$> F) ≤ Z.to_nat n)%nat).
  { apply NoDup_lt_length.
    - apply NoDup_fmap_2_strong; [|done]. intros x y Hx%Hr Hy%Hr. lia.
    - apply Forall_fmap, Forall_forall. intros b Hb%Hr. simpl. lia. }
  rewrite length_fmap in Hl. lia.
Qed.

(** ** The list

    [chain blk n f F]: the count [n] and the addresses [f], followed through
    the blocks [blk], hold the free blocks [F], the next one first. *)
Definition fblk_addrs (d : block) : list Z := take 200 (drop 1 d).
Definition upper (n : Z) (f : list Z) : list Z := reverse (take (Z.to_nat n - 1) (drop 1 f)).
Inductive chain (blk : Z → block) : Z → list Z → list Z → Prop :=
| chain_last n f :
    1 ≤ n ≤ NICFREE → length f = 200%nat → f !! 0%nat = Some 0 → chain blk n f (upper n f)
| chain_more n f c n' F :
    1 ≤ n ≤ NICFREE → length f = 200%nat → f !! 0%nat = Some c → c ≠ 0 → (201 ≤ length (blk c))%nat →
    blk c !! 0%nat = Some n' → chain blk n' (fblk_addrs (blk c)) F → chain blk n f (upper n f ++ c :: F).
Definition free_list (blk : Z → block) (n : Z) (f F : list Z) : Prop := (n ≤ 0 ∧ F = []) ∨ chain blk n f F.

Lemma chain_other blk blk' n f F : chain blk n f F → (∀ b, b ∈ F → blk' b = blk b) → chain blk' n f F.
Proof.
  induction 1 as [n f Hn Hl H0|n f c n' F Hn Hl H0 Hc Hd Hn' Hch IH]; intros Hb; [by constructor|].
  rewrite <- (Hb c) in Hd, Hn', Hch by set_solver. rewrite (Hb c) in Hch by set_solver.
  econstructor; try done. rewrite Hb by set_solver. apply IH. set_solver.
Qed.

(** Popping and pushing within the super block. *)
Lemma upper_pop n f b : 1 < n → length f = 200%nat → n ≤ NICFREE → f !! Z.to_nat (n - 1) = Some b →
  upper n f = b :: upper (n - 1) f.
Proof.
  intros H1 Hl Hn Hb. unfold upper. replace (Z.to_nat n - 1)%nat with (S (Z.to_nat (n - 1) - 1)) by lia.
  rewrite (take_S_r _ _ b); [by rewrite reverse_app|]. rewrite lookup_drop.
  by replace (1 + (Z.to_nat (n - 1) - 1))%nat with (Z.to_nat (n - 1)) by lia.
Qed.
Lemma upper_one f : upper 1 f = [].
Proof. done. Qed.
Lemma upper_push n f b : 1 ≤ n < NICFREE → length f = 200%nat → upper (n + 1) (<[Z.to_nat n := b]> f) = b :: upper n f.
Proof.
  intros Hn Hl. unfold NICFREE in Hn. rewrite (upper_pop _ _ b); [|lia|by rewrite length_insert|unfold NICFREE; lia|].
  - f_equal. replace (n + 1 - 1) with n by lia. unfold upper. f_equal. apply list_eq. intros i.
    destruct (decide (i < Z.to_nat n - 1)%nat) as [Hi|Hi]; [|by rewrite !lookup_take_ge by lia].
    rewrite !lookup_take_lt by lia. rewrite !lookup_drop, list_lookup_insert_ne by lia. done.
  - replace (n + 1 - 1) with n by lia. apply list_lookup_insert_eq. lia.
Qed.

Lemma chain_range blk n f F : chain blk n f F → 1 ≤ n ≤ NICFREE ∧ length f = 200%nat.
Proof. by destruct 1. Qed.
Lemma chain_pop blk n f F : chain blk n f F → 1 < n →
  ∃ b F', F = b :: F' ∧ f !! Z.to_nat (n - 1) = Some b ∧ chain blk (n - 1) f F'.
Proof.
  intros Hc Hn. destruct (chain_range _ _ _ _ Hc) as [Hr Hl].
  destruct (lookup_lt_is_Some_2 f (Z.to_nat (n - 1))) as [b Hb]; [unfold NICFREE in Hr; lia|]. exists b.
  destruct Hc as [n f _ _ H0|n f c n' F _ _ H0 Hc Hd Hn' Hch]; rewrite (upper_pop n f b) by (done || lia); eexists;
    (split; [done|]); (split; [done|]).
  - constructor; [lia|done|done].
  - econstructor; try done. lia.
Qed.
Lemma chain_push blk n f F b : chain blk n f F → n < NICFREE → chain blk (n + 1) (<[Z.to_nat n := b]> f) (b :: F).
Proof.
  intros Hc Hn. destruct Hc as [n f Hr Hl H0|n f c n' F Hr Hl H0 Hc Hd Hn' Hch].
  - rewrite <- (upper_push n f b) by (done || lia). constructor; [lia|by rewrite length_insert|].
    rewrite list_lookup_insert_ne by lia. done.
  - change (b :: upper n f ++ c :: F) with ((b :: upper n f) ++ c :: F). rewrite <- (upper_push n f b) by (done || lia).
    econstructor; try done; [lia|by rewrite length_insert|]. rewrite list_lookup_insert_ne by lia. done.
Qed.
(** The last address in the super block. *)
Lemma chain_one blk f F c : chain blk 1 f F → f !! 0%nat = Some c →
  (c = 0 ∧ F = []) ∨ (c ≠ 0 ∧ ∃ n' F', F = c :: F' ∧ (201 ≤ length (blk c))%nat ∧ blk c !! 0%nat = Some n' ∧
    chain blk n' (fblk_addrs (blk c)) F').
Proof.
  intros Hc Hf. inversion Hc as [n f' Hr Hl H0|n f' c' n' F' Hr Hl H0 Hne Hd Hn' Hch]; subst.
  - left. split; [congruence|done].
  - right. assert (c' = c) as -> by congruence. split; [done|]. exists n', F'. split; [by rewrite upper_one|done].
Qed.

(** ** The file system at rest

    [volume v held A F]: the cache holds the blocks [A], the buffers [held]
    are in use, and [F] are the free blocks of the device [dev], each once,
    none of them in use. *)
Section Volume.
Context `{Disks, Naps} (parts : list (list Z)) (usable : Z → Z → Prop) (dev : Z).
Implicit Types (v : vol) (held : list nat) (A : Z → Z → block) (F : list Z).

Record volume v held A F : Prop := Volume {
  vo_cache : cache_ok parts usable (bst v) held A;
  vo_list : free_list (A dev) (fs_nfree (sb v)) (fs_free (sb v)) F;
  vo_len : length (fs_free (sb v)) = 200%nat;
  vo_range b : b ∈ F → fs_isize (sb v) ≤ b < fs_fsize (sb v);
  vo_nodup : NoDup F;
  vo_bounds : 0 < fs_isize (sb v) ∧ fs_fsize (sb v) ≤ 2^31;
  vo_usable b : 0 ≤ b < fs_fsize (sb v) → usable dev b;
  vo_unused b : b = SUPERB ∨ b ∈ F → unused (bst v) held dev b;
  vo_flock : fs_flock (sb v) = 0;
  vo_tfree : fs_tfree (sb v) = Z.of_nat (length F) }.

(** What allocation leaves alone. *)
Definition settled v v' : Prop :=
  inodes v' = inodes v ∧ fs_isize (sb v') = fs_isize (sb v) ∧ fs_fsize (sb v') = fs_fsize (sb v) ∧
  fs_flags (sb v') = fs_flags (sb v) ∧ rablock v' = rablock v.
Lemma settled_refl v : settled v v.
Proof. done. Qed.
Lemma settled_trans v1 v2 v3 : settled v1 v2 → settled v2 v3 → settled v1 v3.
Proof. clear. unfold settled. intuition congruence. Qed.

(** [A'] is [A] but for the super block. *)
Definition but_super A A' : Prop := ∀ d b, ¬ (d = dev ∧ b = SUPERB) → A' d b = A d b.

Lemma free_count v held A F : volume v held A F → Z.of_nat (length F) ≤ 2^31.
Proof.
  intros Hv. destruct (vo_bounds _ _ _ _ Hv) as [B1 B2].
  apply numbers_count; [apply Hv| |lia]. intros b Hb%(vo_range _ _ _ _ Hv). lia.
Qed.

(** Only the cache, the list and a few fields of the super block matter. *)
Lemma volume_change v v' held A F :
  volume v held A F → bst v' = bst v → settled v v' → fs_nfree (sb v') = fs_nfree (sb v) → fs_free (sb v') = fs_free (sb v) →
  fs_flock (sb v') = 0 → fs_tfree (sb v') = fs_tfree (sb v) → volume v' held A F.
Proof.
  intros Hv E (_ & S1 & S2 & _) E1 E2 E3 E4. split; rewrite ?E, ?S1, ?S2, ?E1, ?E2, ?E3, ?E4; try apply Hv; done.
Qed.

(** ** Allocation *)
Lemma wp_badblock v b (Q : bool → vol → Prop) :
  fs_isize (sb v) ≤ b < fs_fsize (sb v) → 0 < fs_isize (sb v) → fs_fsize (sb v) ≤ 2^31 → Q false v → wp (badblock b) Q v.
Proof.
  intros Hb Hi Hf HQ. unfold badblock. apply wp_bind, wp_gets. rewrite u32_id by lia.
  rewrite (proj2 (Z.ltb_ge _ _)), (proj2 (Z.leb_gt _ _)) by lia. by apply wp_ret.
Qed.
Lemma wp_await n c v (lock : fs → Z) (Q : unit → vol → Prop) : lock (sb v) = 0 → Q tt v → wp (await_lock n lock c) Q v.
Proof. intros E HQ. destruct n; simpl; apply wp_bind, wp_gets; rewrite E; by apply wp_ret. Qed.

Definition popped v : vol := v<|sb ::= λ f, f<|fs_nfree := fs_nfree f - 1|>|>.
Lemma wp_pop_block n v held A F :
  volume v held A F →
  wp (pop_block (S n)) (λ r v', match F with
    | [] => r = None ∧ (v' = v ∨ v' = popped v)
    | b :: _ => r = Some b ∧ v' = popped v ∧ fs_free (sb v) !! Z.to_nat (fs_nfree (sb v) - 1) = Some b ∧
        chain (A dev) (fs_nfree (sb v)) (fs_free (sb v)) F
    end) v.
Proof.
  intros Hv. cbn [pop_block]. apply wp_bind, wp_gets. destruct (vo_list _ _ _ _ Hv) as [[Hn ->]|Hc].
  { rewrite (proj2 (Z.leb_le _ _)) by done. apply wp_ret. split; [done|by left]. }
  destruct (chain_range _ _ _ _ Hc) as [Hr Hl]. rewrite (proj2 (Z.leb_gt _ _)), (proj2 (Z.ltb_ge _ _)) by lia.
  apply wp_bind, wp_modify, wp_bind, wp_gets. fields. unfold rdz. rewrite (proj2 (Z.leb_le _ _)) by lia.
  destruct (lookup_lt_is_Some_2 (fs_free (sb v)) (Z.to_nat (fs_nfree (sb v) - 1))) as [b Hb]; [unfold NICFREE in Hr; lia|].
  apply wp_bind. eapply wp_lift; [by apply rd_Done|].
  assert (HF : (b = 0 ∧ F = []) ∨ ∃ F', F = b :: F').
  { destruct (decide (1 < fs_nfree (sb v))) as [H1|H1].
    - destruct (chain_pop _ _ _ _ Hc H1) as (b' & F' & -> & Hb' & _). right. exists F'. congruence.
    - assert (E1 : fs_nfree (sb v) = 1) by lia. rewrite E1 in Hb, Hc. change (fs_free (sb v) !! 0%nat = Some b) in Hb.
      destruct (chain_one _ _ _ _ Hc Hb) as [[-> ->]|(_ & n' & F' & -> & _)]; [by left|right; by exists F']. }
  destruct HF as [[-> ->]|[F' ->]].
  - apply wp_ret. split; [done|by right].
  - pose proof (vo_range _ _ _ _ Hv b ltac:(set_solver)) as Hrb. destruct (vo_bounds _ _ _ _ Hv).
    rewrite (proj2 (Z.eqb_neq _ _)) by lia. apply wp_bind. apply wp_badblock; [fields; done|fields; done|fields; done|]. by apply wp_ret.
Qed.
(** ** The cache in the file system's code *)
Context `{!Volumes parts usable, !GoodDisks}.
Notation cache_ok := (cache_ok parts usable).
Notation holds := (holds parts usable).
Notation obtained := (obtained parts usable).

Lemma wp_failed v held A i blk x (Q : bool → vol → Prop) : holds (bst v) held A i dev blk x → Q false v → wp (failed i) Q v.
Proof.
  intros ((hl & fl & Hc) & Hx & _) HQ. unfold failed. apply wp_bind, wp_on_cache.
  eapply wp_view_at; [apply view_init|exact Hx|]. intros b Eb. apply wp_ret.
  destruct (strip_fields _ _ Eb) as (F1 & _). destruct (co_flags (ca_core Hc) i x Hx) as (_ & G & _).
  pose proof (co_resid (ca_core Hc) i x Hx) as R. assert (Er : b_resid b = b_resid x) by (by rewrite <- Eb). rewrite F1, G, Er, R.
  by replace (v<|bst := bst v|>) with v by (by destruct v).
Qed.
Lemma vol_id v : v<|bst := bst v|> = v.
Proof. by destruct v. Qed.

(** A buffer goes to the disk, now or later. *)
Lemma wp_put_buf (now : bool) fuel s held A i blk x d :
  holds s held A i dev blk x → bufdata s !! i = Some d →
  wp (if now then bwrite fuel i else bdwrite fuel i)
    (λ _ s', cache_ok s' held (upd A dev blk d) ∧ undisturbed held s s') s.
Proof.
  intros Hh Hd. destruct now.
  - eapply wp_mono; [by eapply (wp_write parts usable)|]. by intros [] s' (? & ? & _).
  - eapply wp_mono; [by eapply (wp_delay parts usable)|]. by intros [] s' (? & ? & _).
Qed.

(** [c] was taken off the list and [F] is left. *)
Record ready v held A (c : Z) F : Prop := Ready {
  re_cache : cache_ok (bst v) held A;
  re_list : free_list (A dev) (fs_nfree (sb v)) (fs_free (sb v)) F;
  re_len : length (fs_free (sb v)) = 200%nat;
  re_range b : b ∈ c :: F → fs_isize (sb v) ≤ b < fs_fsize (sb v);
  re_nodup : NoDup (c :: F);
  re_bounds : 0 < fs_isize (sb v) ∧ fs_fsize (sb v) ≤ 2^31;
  re_usable b : 0 ≤ b < fs_fsize (sb v) → usable dev b;
  re_unused b : b = SUPERB ∨ b ∈ c :: F → unused (bst v) held dev b;
  re_flock : fs_flock (sb v) = 0;
  re_tfree : fs_tfree (sb v) = Z.of_nat (length (c :: F)) }.

Lemma popped_ready v held A b F : volume v held A (b :: F) →
  free_list (A dev) (fs_nfree (sb v) - 1) (fs_free (sb v)) F → ready (popped v) held A b F.
Proof. intros Hv Hl. split; unfold popped; fields; try apply Hv. exact Hl. Qed.

Lemma held_other s held A i blk x b : holds s held A i dev blk x → b ≠ blk → unused s held dev b → unused s (i :: held) dev b.
Proof.
  intros (_ & Hx & (B1 & B2 & B3)%is_block_spec & _) Hne Hu j y [->|Hj]%elem_of_cons Hy; [|by eapply Hu].
  assert (y = x) as -> by congruence. apply not_true_iff_false. intros (? & ? & ?)%is_block_spec. congruence.
Qed.

Lemma undisturbed_store held s i d : i ∉ held → undisturbed held s (s<|bufdata := <[i := d]> (bufdata s)|>).
Proof. intros Hi. split; [|done]. intros j Hj. fields. split; [done|]. apply list_lookup_insert_ne. by intros ->. Qed.

(** [bp->b_resid = 0] changes nothing: it is always 0. *)
Lemma wp_resid s held A i blk x (Q : unit → bstate → Prop) :
  holds s held A i dev blk x → (∀ s', holds s' held A i dev blk x → core s' = core s → kept s s' → Q tt s') →
  wp (setb i (λ b, b<|b_resid := 0|>)) Q s.
Proof.
  intros ((hl & fl & Hc) & Hx & Hb & Ha) HQ. eapply wp_view_set; [apply view_init|exact Hx|by intros b|].
  intros s' E V. pose proof (kept_st _ _ E) as K.
  assert (Ex : x<|b_resid := 0|> = x) by (pose proof (co_resid (ca_core Hc) i x Hx) as R; destruct x; simpl in R; by subst).
  rewrite Ex, list_insert_id in V by done. pose proof (view_core _ _ _ V) as Ec. destruct K as (K1 & K2 & K3 & K4).
  apply HQ; [|done|done]. split_and!; try done; [|by rewrite Ec]. exists hl, fl.
  eapply (cache_core _ _ s s'); [exact Hc|exact V|by rewrite K1|by rewrite K3|]. rewrite K1, K2. apply Hc.
Qed.

Lemma wp_take_free fuel v held A c F flags :
  ready v held A c F → (length held < NBUF)%nat → (NBUF + 2 ≤ fuel)%nat →
  wp (take_block fuel dev c flags) (λ r v', ∃ i x, r = Some i ∧ i ∉ held ∧ holds (bst v') held A i dev c x ∧
    volume v' (i :: held) A F ∧ settled v v' ∧ undisturbed held (bst v) (bst v') ∧
    (has flags B_CLRBUF = true → bufdata (bst v') !! i = Some zero_block)) v.
Proof.
  intros Hr Hl Hf. pose proof (re_range _ _ _ _ _ Hr c ltac:(set_solver)) as Hc. destruct (re_bounds _ _ _ _ _ Hr) as [B1 B2].
  unfold take_block. apply wp_bind, wp_on_cache.
  eapply wp_mono; [apply (wp_getblk parts usable fuel (bst v) held A dev c); [apply Hr|apply Hr; lia|apply Hr; set_solver|done|done]|].
  intros i s1 Ho. pose proof Ho as (Hi & _). destruct (obtained_holds _ _ _ _ _ _ _ _ _ Ho) as (x & Hh & U & _).
  apply wp_bind, wp_on_cache. eapply wp_resid; [exact Hh|]. intros s2 Hh2 C2 (K1 & K2 & K3 & K4).
  assert (U2 : undisturbed held (bst v) s2).
  { eapply undisturbed_trans; [exact U|]. split; [|done]. intros j _. by rewrite C2, K1. }
  set (Qs := λ s', ∀ v', bst v' = s' → settled v v' → fs_nfree (sb v') = fs_nfree (sb v) → fs_free (sb v') = fs_free (sb v) →
     fs_flock (sb v') = 0 → fs_tfree (sb v') = Z.of_nat (length F) → volume v' (i :: held) A F).
  assert (HV : ∀ s', holds s' held A i dev c x → undisturbed held (bst v) s' → Qs s').
  { intros s' Hh' U' v' Eb (_ & S1 & S2 & _) E1 E2 E3 E4. split; rewrite ?Eb, ?S1, ?S2, ?E1, ?E2, ?E3, ?E4; try apply Hr; try done.
    - apply Hh'.
    - intros b Hb. apply Hr. set_solver.
    - pose proof (re_nodup _ _ _ _ _ Hr) as Hn. by apply NoDup_cons in Hn as [_ Hn].
    - intros b Hb. eapply held_other; [exact Hh'| |].
      + pose proof (re_nodup _ _ _ _ _ Hr) as Hn. apply NoDup_cons in Hn as [Hn _]. intros ->. destruct Hb as [->|Hb]; [unfold SUPERB in *; lia|done].
      + eapply (unused_keep (bst v)); [exact U'|]. apply Hr. set_solver. }
  assert (Ht : u32 (fs_tfree (sb v) - 1) = Z.of_nat (length F)).
  { assert (Z.of_nat (length (c :: F)) ≤ 2^31).
    { apply numbers_count; [apply Hr| |lia]. intros b Hb%(re_range _ _ _ _ _ Hr). lia. }
    rewrite (re_tfree _ _ _ _ _ Hr). simpl length in *. rewrite u32_id; lia. }
  assert (HE : ∀ s3, holds s3 held A i dev c x → undisturbed held (bst v) s3 →
     (has flags B_CLRBUF = true → bufdata s3 !! i = Some zero_block) →
     wp (set_sb (λ f, f<|fs_fmod := 1|>);; set_sb (λ f, f<|fs_tfree := u32 (fs_tfree f - 1)|>);; mret (Some i))
       (λ r v', ∃ i x, r = Some i ∧ i ∉ held ∧ holds (bst v') held A i dev c x ∧ volume v' (i :: held) A F ∧ settled v v' ∧
          undisturbed held (bst v) (bst v') ∧ (has flags B_CLRBUF = true → bufdata (bst v') !! i = Some zero_block))
       (v<|bst := s3|>)).
  { intros s3 Hh3 U3 Hz. apply wp_bind, wp_modify, wp_bind, wp_modify, wp_ret. exists i, x. split_and!; try done.
    apply (HV s3); try done. fields. apply Hr. }
  apply wp_bind. destruct (has flags B_CLRBUF) eqn:Ef.
  - apply wp_on_cache. eapply (wp_bstore parts usable); [exact Hh2|]. intros Hh3 Hd. apply (HE _ Hh3); [|done].
    eapply undisturbed_trans; [exact U2|]. by apply undisturbed_store.
  - apply wp_ret. by apply (HE s2).
Qed.

Lemma wp_load_fblk v d n (Q : unit → vol → Prop) : d !! 0%nat = Some n → (201 ≤ length d)%nat →
  Q tt (v<|sb ::= λ f, f<|fs_nfree := n|>|><|sb ::= λ f, f<|fs_free := fblk_addrs d|>|>) → wp (load_fblk d) Q v.
Proof.
  intros Hn Hl HQ. unfold load_fblk. apply wp_bind. eapply wp_lift; [by apply rd_Done|].
  apply wp_bind. eapply wp_lift; [by rewrite decide_True|]. apply wp_bind, wp_modify, wp_modify. exact HQ.
Qed.

(** The super block is written. *)
Lemma wp_write_super (now : bool) fuel s held A d :
  cache_ok s held A → usable dev SUPERB → unused s held dev SUPERB → (length held < NBUF)%nat → (NBUF + 2 ≤ fuel)%nat →
  wp (getblk fuel dev SUPERB) (λ i s1, wp (store i d) (λ _ s2, wp (if now then bwrite fuel i else bdwrite fuel i)
    (λ _ s', cache_ok s' held (upd A dev SUPERB d) ∧ undisturbed held s s') s2) s1) s.
Proof.
  intros Hc Hu Hun Hl Hf. eapply wp_mono; [by apply (wp_getblk parts usable fuel s held A dev SUPERB)|].
  intros i s1 Ho. pose proof Ho as (Hi & _). destruct (obtained_holds _ _ _ _ _ _ _ _ _ Ho) as (x & Hh & U & _).
  eapply (wp_bstore parts usable); [exact Hh|]. intros Hh2 Hd. eapply wp_mono; [by eapply (wp_put_buf now)|].
  intros [] s3 [Hc3 U3]. split; [done|]. eapply undisturbed_trans; [exact U|]. eapply undisturbed_trans; [|exact U3]. by apply undisturbed_store.
Qed.

Lemma wp_refill fuel v held A c F :
  volume v held A (c :: F) → chain (A dev) 1 (fs_free (sb v)) (c :: F) → (length held < NBUF)%nat → (NBUF + 2 ≤ fuel)%nat →
  wp (refill fuel dev c) (λ _ v', ∃ A', but_super A A' ∧ ready v' held A' c F ∧ 0 < fs_nfree (sb v') ∧ settled v v' ∧
    undisturbed held (bst v) (bst v')) (popped v).
Proof.
  intros Hv Hc Hl Hf. destruct (lookup_lt_is_Some_2 (fs_free (sb v)) 0) as [c' Hc0]; [rewrite (vo_len _ _ _ _ Hv); lia|].
  destruct (chain_one _ _ _ _ Hc Hc0) as [[_ ?]|(Hne & n' & F' & [= <- <-] & Hd & Hn' & Hch)]; [done|].
  pose proof (vo_range _ _ _ _ Hv c ltac:(set_solver)) as Hrc. destruct (vo_bounds _ _ _ _ Hv) as [B1 B2].
  pose proof (vo_nodup _ _ _ _ Hv) as Hnd. destruct (chain_range _ _ _ _ Hch) as [Hr' Hl'].
  unfold refill. apply wp_bind, wp_modify, wp_bind, wp_on_cache. change (bst (_<|sb ::= _|>)) with (bst v).
  eapply wp_mono; [apply (wp_bread parts usable fuel (bst v) held A dev c); [apply Hv|apply Hv; lia|apply Hv; set_solver|done|done]|].
  intros i s1 (Ho & Hdat & _). pose proof Ho as (Hi & _). destruct (obtained_holds _ _ _ _ _ _ _ _ _ Ho) as (x & Hh & U & _).
  apply wp_bind. eapply wp_failed; [exact Hh|]. apply wp_bind, wp_bind, wp_on_cache. eapply (wp_bload parts usable); [exact Hh|exact Hdat|].
  eapply wp_load_fblk; [done|done|]. apply wp_bind, wp_on_cache.
  eapply wp_mono; [eapply (wp_brelease parts usable); [exact Hh|done]|]. intros [] s2 [Hc2 U2].
  match goal with |- wp _ _ ?w => set (v1 := w) end.
  assert (Es : bst v1 = s2) by done. assert (En : fs_nfree (sb v1) = n') by done. assert (Ef : fs_free (sb v1) = fblk_addrs (A dev c)) by done.
  assert (Et : fs_tfree (sb v1) = Z.of_nat (length (c :: F))) by apply (vo_tfree _ _ _ _ Hv). assert (Hset : settled v v1) by done.
  assert (U2' : undisturbed held (bst v) s2) by (by eapply undisturbed_trans). clear Hh U U2 Ho Hi Hdat. clearbody v1.
  pose proof Hset as (_ & Hi1 & Hi2 & _).
  assert (Hunu : ∀ b, b = SUPERB ∨ b ∈ c :: F → unused s2 held dev b).
  { intros b Hb. eapply (unused_keep (bst v)); [exact U2'|]. by apply Hv. }
  set (now := negb (has (fs_flags (sb v1)) MNT_ASYNC)). set (d := sb_words ((sb v1)<|fs_fmod := 0|><|fs_time := tv_sec v1|>)).
  apply wp_bind, wp_on_cache. rewrite Es.
  eapply wp_mono; [apply (wp_write_super now fuel s2 held A d); [done|apply Hv; unfold SUPERB; lia|auto|done|done]|].
  intros j s3 HW. apply wp_bind, wp_modify, wp_bind, wp_gets, wp_bind, wp_modify, wp_bind, wp_gets, wp_bind, wp_on_cache.
  change (sb_words _) with d. eapply wp_mono; [exact HW|]. intros [] s4 HW2. apply wp_bind. change (negb _) with now.
  assert (HE : ∀ s5, cache_ok s5 held (upd A dev SUPERB d) ∧ undisturbed held s2 s5 →
    ∀ w, bst w = s5 → settled v1 w → fs_nfree (sb w) = n' → fs_free (sb w) = fblk_addrs (A dev c) → fs_tfree (sb w) = fs_tfree (sb v1) →
    wp (set_sb (λ f, f<|fs_flock := 0|>);; tell (Woke FLOCK)) (λ _ v', ∃ A', but_super A A' ∧ ready v' held A' c F ∧
      0 < fs_nfree (sb v') ∧ settled v v' ∧ undisturbed held (bst v) (bst v')) w).
  { intros s5 [Hc5 U5] w Ew Hw En5 Ef5 Et5. apply wp_bind, wp_modify, wp_modify. exists (upd A dev SUPERB d).
    pose proof Hw as (_ & Hw1 & Hw2 & _).
    split_and!; [by intros e b Hb; apply upd_other| |fields; rewrite En5; lia|by eapply settled_trans|fields; rewrite Ew; by eapply undisturbed_trans].
    split; fields; rewrite ?Ew, ?Hw1, ?Hw2, ?Hi1, ?Hi2, ?En5, ?Ef5; try apply Hv; try done.
    - right. eapply chain_other; [exact Hch|]. intros b Hb. apply upd_other. intros [_ ->].
      pose proof (vo_range _ _ _ _ Hv SUPERB ltac:(set_solver)). unfold SUPERB in *. lia.
    - intros b Hb. eapply (unused_keep s2); [exact U5|]. auto.
    - by rewrite Et5. }
  destruct now; apply wp_on_cache; (eapply wp_mono; [exact HW2|]); intros [] s5 H5; by apply (HE s5 H5).
Qed.

Context `{!Alone}.
Lemma wp_nap c v (Q : unit → vol → Prop) : Q tt v → wp (nap c) Q v.
Proof. intros HQ. unfold wp. by rewrite (alone c v). Qed.

Lemma cache_error s held A e : cache_ok s held A → cache_ok (s<|u_error := e|>) held A.
Proof. intros (hl & fl & Hc). exists hl, fl. by split; apply Hc. Qed.

Lemma wp_nospace v held A w :
  volume v held A [] → w = v ∨ w = popped v →
  wp nospace (λ r v', r = None ∧ volume v' held A [] ∧ settled v v' ∧ bst v' = (bst v)<|u_error := ENOSPC|>) w.
Proof.
  intros Hv Hw. assert (Eb : bst w = bst v) by (by destruct Hw as [-> | ->]). assert (Hs : settled v w) by (by destruct Hw as [-> | ->]).
  assert (Ef : fs_free (sb w) = fs_free (sb v)) by (by destruct Hw as [-> | ->]).
  assert (Ek : fs_flock (sb w) = fs_flock (sb v)) by (by destruct Hw as [-> | ->]). clear Hw.
  unfold nospace. do 4 apply wp_bind, wp_modify. do 5 apply wp_bind, wp_nap. apply wp_bind, wp_on_cache, wp_modify, wp_ret.
  split; [done|]. fields. rewrite Eb. split; [|by split].
  destruct Hs as (_ & S1 & S2 & _). split; fields; rewrite ?S1, ?S2, ?Ef, ?Ek; try apply Hv; try done.
  - apply cache_error. apply Hv.
  - by left.
Qed.

(** The state and result after [balloc]. *)
Definition allocated v held A F flags (r : option nat) v' : Prop :=
  match F with
  | [] => r = None ∧ volume v' held A [] ∧ bst v' = (bst v)<|u_error := ENOSPC|>
  | b :: F' => ∃ i x A', r = Some i ∧ i ∉ held ∧ but_super A A' ∧ holds (bst v') held A' i dev b x ∧ volume v' (i :: held) A' F' ∧
      undisturbed held (bst v) (bst v') ∧ (has flags B_CLRBUF = true → bufdata (bst v') !! i = Some zero_block)
  end ∧ settled v v'.

Lemma wp_balloc fuel v held A F ip flags z :
  volume v held A F → inodes v !! ip = Some z → i_dev z = dev → (length held < NBUF)%nat → (NBUF + 2 ≤ fuel)%nat →
  wp (balloc fuel ip flags) (allocated v held A F flags) v.
Proof.
  intros Hv Hz Hd Hl Hf. unfold balloc. apply wp_bind, wp_bind, wp_gets. eapply wp_lift; [by apply rd_Done|].
  apply wp_bind. apply wp_await; [apply Hv|]. apply wp_bind. eapply wp_mono; [by apply (wp_pop_block _ v held A F)|].
  intros r v1 Hp. unfold allocated. destruct F as [|b F].
  - destruct Hp as [-> Hw]. eapply wp_mono; [by apply (wp_nospace v held A v1)|]. intros r v' (-> & R1 & R2 & R3). by split_and!.
  - destruct Hp as (-> & -> & Hb & Hc). apply wp_bind, wp_gets. rewrite Hd.
    change (fs_nfree (sb (popped v))) with (fs_nfree (sb v) - 1). destruct (chain_range _ _ _ _ Hc) as [Hr _].
    destruct (Z.leb_spec (fs_nfree (sb v) - 1) 0) as [Hn|Hn].
    + apply wp_bind. assert (E1 : fs_nfree (sb v) = 1) by lia. rewrite E1 in Hc.
      eapply wp_mono; [by apply (wp_refill fuel v held A b F)|]. intros [] v2 (A' & HA & Hr2 & Hn2 & Hs2 & U2).
      apply wp_bind, wp_gets. rewrite (proj2 (Z.leb_gt _ _)) by done.
      eapply wp_mono; [by apply (wp_take_free fuel v2 held A' b F flags)|].
      intros r v3 (i & x & -> & R1 & R2 & R3 & R4 & R5 & R6).
      split; [exists i, x, A'; split_and!; try done; by eapply undisturbed_trans|by eapply settled_trans].
    + assert (Hrd : ready (popped v) held A b F).
      { apply popped_ready; [done|]. right. destruct (chain_pop _ _ _ _ Hc ltac:(lia)) as (b' & F' & [= <- <-] & _ & Hc'). done. }
      eapply wp_mono; [by apply (wp_take_free fuel (popped v) held A b F flags)|].
      intros r v3 (i & x & -> & R1 & R2 & R3 & R4 & R5 & R6). split; [exists i, x, A; by split_and!|done].
Qed.

(** ** Freeing *)
Lemma fblk_roundtrip (f : fs) (d : block) : length (fs_free f) = 200%nat →
  store_fblk f d !! 0%nat = Some (fs_nfree f) ∧ fblk_addrs (store_fblk f d) = fs_free f ∧ (201 ≤ length (store_fblk f d))%nat.
Proof.
  intros Hl. unfold store_fblk, fblk_addrs. split; [done|]. split.
  - change (drop 1 (fs_nfree f :: ?l)) with l. by rewrite <- Hl, take_app_length.
  - simpl. rewrite length_app. lia.
Qed.

Definition but_block (b : Z) A A' : Prop := ∀ d c, ¬ (d = dev ∧ c = b) → A' d c = A d c.

(** The list after [b] went into the super block. *)
Definition pushed v w (b : Z) : Prop :=
  bst w = bst v ∧ settled v w ∧ fs_flock (sb w) = fs_flock (sb v) ∧ fs_tfree (sb w) = fs_tfree (sb v) ∧
  fs_nfree (sb w) = fs_nfree (sb v) + 1 ∧ fs_free (sb w) = <[Z.to_nat (fs_nfree (sb v)) := b]> (fs_free (sb v)).
Lemma wp_push_block v b : 0 ≤ fs_nfree (sb v) < NICFREE → length (fs_free (sb v)) = 200%nat →
  wp (push_block b) (λ _ w, pushed v w b) v.
Proof.
  unfold NICFREE. intros Hn Hl. unfold push_block. apply wp_bind, wp_gets. unfold wrz. rewrite (proj2 (Z.leb_le _ _)) by lia.
  apply wp_bind. eapply wp_lift; [apply wr_Done; lia|]. apply wp_modify. split_and!; try done. fields. rewrite s32_id; lia.
Qed.

(** What is left for [free] to do once the list has room for [b]. *)
Lemma wp_free_push v w held A F b A' :
  volume v held A F → fs_isize (sb v) ≤ b < fs_fsize (sb v) → b ∉ F → unused (bst v) held dev b →
  cache_ok (bst w) held A' → undisturbed held (bst v) (bst w) → settled v w → but_block b A A' → fs_flock (sb w) = 0 →
  fs_tfree (sb w) = fs_tfree (sb v) → length (fs_free (sb w)) = 200%nat → 0 ≤ fs_nfree (sb w) < NICFREE →
  chain (A' dev) (fs_nfree (sb w) + 1) (<[Z.to_nat (fs_nfree (sb w)) := b]> (fs_free (sb w))) (b :: F) →
  wp (push_block b;; set_sb (λ f, f<|fs_tfree := u32 (fs_tfree f + 1)|>);; set_sb (λ f, f<|fs_fmod := 1|>))
    (λ _ v', volume v' held A' (b :: F) ∧ settled v v' ∧ undisturbed held (bst v) (bst v')) w.
Proof.
  intros Hv Hb Hnin Hun Hc U Hs HA Hk Ht Hl Hn Hch. apply wp_bind. eapply wp_mono; [by apply wp_push_block|].
  intros [] w1 (P1 & P2 & P3 & P4 & P5 & P6). apply wp_bind, wp_modify, wp_modify. fields. rewrite P1.
  pose proof (settled_trans _ _ _ Hs P2) as Hs1. split; [|split; [done|done]]. destruct Hs1 as (_ & S1 & S2 & _).
  pose proof (free_count _ _ _ _ Hv) as Hcnt.
  split; fields; rewrite ?P1, ?S1, ?S2, ?P3, ?P4, ?P5, ?P6; try apply Hv; try done.
  - by right.
  - by rewrite length_insert.
  - intros c [->|Hc']%elem_of_cons; [done|by apply Hv].
  - constructor; [done|apply Hv].
  - intros c Hc'. eapply (unused_keep (bst v)); [exact U|]. destruct Hc' as [->|[->|Hc']%elem_of_cons]; [apply Hv; by left|done|apply Hv; by right].
  - rewrite Ht, (vo_tfree _ _ _ _ Hv), u32_id by lia. simpl. lia.
Qed.

Lemma wp_spill fuel v held A F b :
  volume v held A F → fs_isize (sb v) ≤ b < fs_fsize (sb v) → unused (bst v) held dev b → fs_nfree (sb v) = NICFREE →
  (length held < NBUF)%nat → (NBUF + 2 ≤ fuel)%nat →
  wp (spill fuel dev b) (λ _ w, ∃ d, cache_ok (bst w) held (upd A dev b (store_fblk (sb v) d)) ∧ undisturbed held (bst v) (bst w) ∧
    settled v w ∧ fs_flock (sb w) = 0 ∧ fs_tfree (sb w) = fs_tfree (sb v) ∧ fs_nfree (sb w) = 0 ∧ fs_free (sb w) = fs_free (sb v)) v.
Proof.
  intros Hv Hb Hun Hn Hl Hf. destruct (vo_bounds _ _ _ _ Hv) as [B1 B2]. unfold spill. apply wp_bind, wp_modify, wp_bind, wp_on_cache.
  eapply wp_mono; [apply (wp_getblk parts usable fuel (bst v) held A dev b); [apply Hv|apply Hv; lia|done|done|done]|].
  intros i s1 Ho. pose proof Ho as (Hi & _). destruct (obtained_holds _ _ _ _ _ _ _ _ _ Ho) as (x & Hh & U & _).
  apply wp_bind, wp_gets, wp_bind, wp_on_cache.
  assert (Hd : ∃ d, bufdata s1 !! i = Some d).
  { pose proof Hh as ((hl & fl & Hc) & Hx & _). apply lookup_lt_is_Some_2. rewrite (ca_data Hc), <- (core_length _ _ _ _ _ _ _ Hc).
    by eapply lookup_lt_Some. }
  destruct Hd as [d Hd]. eapply (wp_bload parts usable); [exact Hh|exact Hd|]. apply wp_bind, wp_on_cache.
  eapply (wp_bstore parts usable); [exact Hh|]. intros Hh2 Hd2. apply wp_bind, wp_modify, wp_bind.
  set (d' := store_fblk (sb v) d). fold d' in Hh2, Hd2 |- *.
  assert (HW : ∀ now : bool, wp (if now then bwrite fuel i else bdwrite fuel i)
    (λ _ s', cache_ok s' held (upd A dev b d') ∧ undisturbed held (bst v) s') (s1<|bufdata := <[i := d']> (bufdata s1)|>)).
  { intros now. eapply wp_mono; [by eapply (wp_put_buf now)|]. intros [] s3 [C3 U3]. split; [done|].
    eapply undisturbed_trans; [exact U|]. eapply undisturbed_trans; [|exact U3]. by apply undisturbed_store. }
  destruct (has _ MNT_ASYNC); apply wp_on_cache;
    [eapply wp_mono; [exact (HW false)|]|eapply wp_mono; [exact (HW true)|]]; intros [] s3 [C3 U3];
    apply wp_bind, wp_modify, wp_modify; exists d; by split_and!.
Qed.

Lemma wp_free fuel v held A F ip b z :
  volume v held A F → inodes v !! ip = Some z → i_dev z = dev → fs_isize (sb v) ≤ b < fs_fsize (sb v) → b ∉ F →
  unused (bst v) held dev b → (length held < NBUF)%nat → (NBUF + 2 ≤ fuel)%nat →
  wp (free fuel ip b) (λ _ v', ∃ A', but_block b A A' ∧ volume v' held A' (b :: F) ∧ settled v v' ∧
    undisturbed held (bst v) (bst v')) v.
Proof.
  intros Hv Hz Hd Hb Hnin Hun Hl Hf. destruct (vo_bounds _ _ _ _ Hv) as [B1 B2]. pose proof (vo_len _ _ _ _ Hv) as Hlen.
  unfold free. apply wp_bind, wp_bind, wp_gets. eapply wp_lift; [by apply rd_Done|]. rewrite Hd.
  apply wp_bind, wp_badblock; [done|done|done|]. apply wp_bind, wp_await; [apply Hv|]. apply wp_bind, wp_gets, wp_bind.
  destruct (vo_list _ _ _ _ Hv) as [[Hn EF]|Hc].
  - subst F. rewrite (proj2 (Z.leb_le _ _)) by done. apply wp_bind, wp_modify, wp_bind. eapply wp_lift; [apply wr_Done; lia|].
    apply wp_modify, wp_bind, wp_gets. fields. change (NICFREE <=? 1) with false. apply wp_bind, wp_ret.
    eapply wp_mono; [eapply (wp_free_push v _ held A [] b A); try done|].
    + apply Hv.
    + apply Hv.
    + fields. by rewrite length_insert.
    + fields. apply (chain_push _ 1 _ []); [|done]. change [] with (upper 1 (<[0%nat := 0]> (fs_free (sb v)))).
      constructor; [done|by rewrite length_insert|]. apply list_lookup_insert_eq. lia.
    + intros [] v' (R1 & R2 & R3). by exists A.
  - destruct (chain_range _ _ _ _ Hc) as [Hr _]. rewrite (proj2 (Z.leb_gt _ _)) by lia. apply wp_ret, wp_bind, wp_gets, wp_bind.
    destruct (Z.leb_spec NICFREE (fs_nfree (sb v))) as [Hn|Hn].
    + eapply wp_mono; [apply (wp_spill fuel v held A F b); try done; lia|].
      intros [] w (d & C & U & S & K & T & N & E). destruct (fblk_roundtrip (sb v) d Hlen) as (R1 & R2 & R3).
      eapply wp_mono; [eapply (wp_free_push v w held A F b (upd A dev b (store_fblk (sb v) d))); try done|].
      * intros e c Hne. by apply upd_other.
      * by rewrite E.
      * by rewrite N.
      * rewrite N, E. change (b :: F) with (upper (0 + 1) (<[Z.to_nat 0 := b]> (fs_free (sb v))) ++ b :: F).
        eapply chain_more with (n' := fs_nfree (sb v)); rewrite ?upd_same; try done.
        -- by rewrite length_insert.
        -- apply list_lookup_insert_eq. lia.
        -- lia.
        -- rewrite R2. eapply chain_other; [exact Hc|]. intros c Hc'. apply upd_other. intros [_ ->]. done.
      * intros [] v' (V1 & V2 & V3). exists (upd A dev b (store_fblk (sb v) d)). split; [|done]. intros e c Hne. by apply upd_other.
    + apply wp_ret. eapply wp_mono; [eapply (wp_free_push v v held A F b A); try done|].
      * apply Hv.
      * apply Hv.
      * lia.
      * by apply chain_push.
      * intros [] v' (R1 & R2 & R3). by exists A.
Qed.
End Volume.

(** ** The free list as a stack *)

(** A block is allocated, filled and written (at once or later), or freed. *)
Inductive block_op :=
| Alloc (flags : Z) (now : bool) (d : block)
| Free (b : Z).

(** The block allocated, or the error. *)
Definition do_block `{Disks, Naps} (fuel ip : nat) (o : block_op) : V (option (Z + Z)) :=
  match o with
  | Alloc flags now d =>
      r ← balloc fuel ip flags;
      match r with
      | None => e ← gets (λ v, u_error (bst v)); mret (Some (inr e))
      | Some bp => nb ← blkno_of bp; on_cache (store bp d);; bsync fuel now bp;; mret (Some (inl nb))
      end
  | Free b => free fuel ip b;; mret None
  end.
Fixpoint do_blocks `{Disks, Naps} (fuel ip : nat) (os : list block_op) : V (list (option (Z + Z))) :=
  match os with
  | [] => mret []
  | o :: os => a ← do_block fuel ip o; l ← do_blocks fuel ip os; mret (a :: l)
  end.

(** The same on a stack of free blocks and the contents of those in use. *)
Definition stack_op (F : list Z) (D : Z → block) (o : block_op) : option (Z + Z) * list Z * (Z → block) :=
  match o, F with
  | Alloc _ _ d, [] => (Some (inr ENOSPC), [], D)
  | Alloc _ _ d, b :: F => (Some (inl b), F, λ c, if c =? b then d else D c)
  | Free b, _ => (None, b :: F, D)
  end.
Fixpoint stack_ops (F : list Z) (D : Z → block) (os : list block_op) : list (option (Z + Z)) * list Z * (Z → block) :=
  match os with
  | [] => ([], F, D)
  | o :: os =>
      let '(a, F, D) := stack_op F D o in
      let '(l, F, D) := stack_ops F D os in (a :: l, F, D)
  end.
(** Only blocks of the volume that are in use are freed. *)
Fixpoint legal (lo hi : Z) (F : list Z) (os : list block_op) : Prop :=
  match os with
  | [] => True
  | Alloc _ _ _ :: os => legal lo hi (tail F) os
  | Free b :: os => lo ≤ b < hi ∧ b ∉ F ∧ legal lo hi (b :: F) os
  end.

Section Stack.
Context `{Disks, Naps} (parts : list (list Z)) (usable : Z → Z → Prop) (dev : Z).
Context `{!Volumes parts usable, !GoodDisks, !Alone}.
Notation volume := (volume parts usable dev).
Implicit Types (v : vol) (A : Z → Z → block) (F : list Z) (D : Z → block).

Lemma wp_blkno_of v held A i b x (Q : Z → vol → Prop) : holds parts usable (bst v) held A i dev b x → Q b v → wp (blkno_of i) Q v.
Proof.
  intros (_ & Hx & (_ & B & _)%is_block_spec & _) HQ. unfold blkno_of. apply wp_bind, wp_on_cache.
  eapply wp_view_at; [apply view_init|exact Hx|]. intros y Ey. destruct (strip_fields _ _ Ey) as (_ & _ & -> & _).
  rewrite B, vol_id. by apply wp_ret.
Qed.

(** The buffer of a new block is filled and written. *)
Lemma wp_bsync (now : bool) fuel v held A F i b x d :
  volume v (i :: held) A F → holds parts usable (bst v) held A i dev b x → bufdata (bst v) !! i = Some d → b ∉ F → b ≠ SUPERB →
  wp (bsync fuel now i) (λ _ v', volume v' held (upd A dev b d) F ∧ settled v v' ∧ undisturbed held (bst v) (bst v')) v.
Proof.
  intros Hv Hh Hd HbF Hb0. unfold bsync.
  assert (HW : wp (on_cache (if now then bwrite fuel i else bdwrite fuel i))
    (λ _ v', volume v' held (upd A dev b d) F ∧ settled v v' ∧ undisturbed held (bst v) (bst v')) v); [|by destruct now].
  apply wp_on_cache. eapply wp_mono; [by eapply (wp_put_buf parts usable dev now)|]. intros [] s' [C U].
  split_and!; [|done|done]. split; fields; try apply Hv; try done.
  - destruct (vo_list _ _ _ _ _ _ _ Hv) as [Hn|Hc]; [by left|right]. eapply chain_other; [exact Hc|].
    intros c Hc'. apply upd_other. intros [_ ->]. done.
  - intros c Hc. eapply (unused_keep (bst v)); [exact U|]. intros j y Hj Hy.
    eapply (vo_unused _ _ _ _ _ _ _ Hv c Hc); [|exact Hy]. set_solver.
Qed.

Lemma wp_fill (now : bool) fuel v held A F i b x d :
  volume v (i :: held) A F → holds parts usable (bst v) held A i dev b x → b ∉ F → b ≠ SUPERB → i ∉ held →
  wp (on_cache (store i d);; bsync fuel now i)
    (λ _ v', volume v' held (upd A dev b d) F ∧ settled v v' ∧ undisturbed held (bst v) (bst v')) v.
Proof.
  intros Hv Hh HbF Hb0 Hi. apply wp_bind, wp_on_cache. eapply (wp_bstore parts usable); [exact Hh|]. intros Hh2 Hd2.
  eapply wp_mono; [eapply (wp_bsync now fuel _ held A F i b x d); [|exact Hh2|exact Hd2|done|done]|].
  - split; try apply Hv. apply Hh2.
  - intros [] v' (R1 & R2 & R3). split_and!; try done. eapply undisturbed_trans; [|exact R3]. by apply undisturbed_store.
Qed.

(** The contents of the blocks in use. *)
Definition contents A F D v : Prop := ∀ b, fs_isize (sb v) ≤ b < fs_fsize (sb v) → b ∉ F → A dev b = D b.

Lemma wp_do_block fuel ip v A F D o z :
  volume v [] A F → contents A F D v → inodes v !! ip = Some z → i_dev z = dev → (NBUF + 2 ≤ fuel)%nat →
  legal (fs_isize (sb v)) (fs_fsize (sb v)) F [o] →
  wp (do_block fuel ip o) (λ a v', let '(a', F', D') := stack_op F D o in a = a' ∧ settled v v' ∧
    ∃ A', volume v' [] A' F' ∧ contents A' F' D' v') v.
Proof.
  intros Hv HD Hz Hdv Hf Hl. pose proof (vo_nodup _ _ _ _ _ _ _ Hv) as Hnd. destruct (vo_bounds _ _ _ _ _ _ _ Hv) as [B1 B2].
  destruct o as [flags now d|b]; simpl in Hl |- *.
  - apply wp_bind. eapply wp_mono; [apply (wp_balloc parts usable dev fuel v [] A F ip flags z); try done; vm_compute; lia|].
    intros r v1 [Hr Hs]. destruct F as [|b F].
    + destruct Hr as (-> & Hv1 & Eb). apply wp_bind, wp_gets, wp_ret. rewrite Eb. split; [done|]. split; [done|].
      exists A. split; [done|]. destruct Hs as (_ & S1 & S2 & _). intros c. rewrite S1, S2. apply HD.
    + destruct Hr as (i & x & A' & -> & Hi & HA & Hh & Hv1 & U & _). apply wp_bind. eapply wp_blkno_of; [exact Hh|].
      apply NoDup_cons in Hnd as [HbF Hnd]. pose proof (vo_range _ _ _ _ _ _ _ Hv b ltac:(set_solver)) as Hrb.
      apply wp_assoc. eapply wp_mono; [eapply (wp_fill now fuel v1 [] A' F i b x d); try done; unfold SUPERB; lia|].
      intros [] v2 (Hv2 & S2 & _). apply wp_ret. split; [done|]. split; [by eapply settled_trans|]. exists (upd A' dev b d).
      split; [done|]. intros c Hc HcF. pose proof (settled_trans _ _ _ Hs S2) as (_ & E1 & E2 & _). rewrite E1, E2 in Hc.
      destruct (Z.eqb_spec c b) as [->|Hne]; [by rewrite upd_same|]. rewrite upd_other by tauto.
      rewrite HA by (unfold SUPERB; lia). apply HD; [lia|set_solver].
  - destruct Hl as (Hb & HbF & _). apply wp_bind.
    eapply wp_mono; [apply (wp_free parts usable dev fuel v [] A F ip b z); try done; [apply unused_nil|vm_compute; lia]|].
    intros [] v1 (A' & HA & Hv1 & Hs & _). apply wp_ret. split; [done|]. split; [done|]. exists A'. split; [done|].
    intros c Hc HcF. destruct Hs as (_ & E1 & E2 & _). rewrite E1, E2 in Hc. rewrite HA by set_solver. apply HD; [done|set_solver].
Qed.

(** C6. The allocator implements a stack.  Through any sequence of
    allocations and releases of single blocks, [balloc] returns the block
    released last, or the next one of the list as it was, so that no block is
    handed out while it is in use; it fails, with ENOSPC, exactly when no
    block is free; the list carried on in free blocks on the disk is never
    lost, the count of free blocks is right, and the contents of blocks in use
    are left alone. *)
Theorem alloc_refines_stack (fuel ip : nat) (os : list block_op) (v : vol) (A : Z → Z → block) (F : list Z) (D : Z → block)
    (z : inode) :
  volume v [] A F → contents A F D v → inodes v !! ip = Some z → i_dev z = dev → (NBUF + 2 ≤ fuel)%nat →
  legal (fs_isize (sb v)) (fs_fsize (sb v)) F os →
  wp (do_blocks fuel ip os) (λ l v', let '(l', F', D') := stack_ops F D os in l = l' ∧
    ∃ A', volume v' [] A' F' ∧ contents A' F' D' v') v.
Proof.
  intros Hv HD Hz Hdv Hf. revert v A F D Hv HD Hz.
  induction os as [|o os IH]; intros v A F D Hv HD Hz Hl; simpl; [apply wp_ret; split; [done|by exists A]|].
  assert (Hl1 : legal (fs_isize (sb v)) (fs_fsize (sb v)) F [o]) by (destruct o; simpl in Hl |- *; tauto).
  apply wp_bind. eapply wp_mono; [by apply (wp_do_block fuel ip v A F D o z)|]. intros a v1 HS1.
  destruct (stack_op F D o) as [[a1 F1] D1] eqn:E1. destruct HS1 as (-> & Hs & A1 & Hv1 & HD1). pose proof Hs as (S0 & S1 & S2 & _).
  apply wp_bind. eapply wp_mono; [apply (IH v1 A1 F1 D1 Hv1 HD1)|].
  - by rewrite S0.
  - rewrite S1, S2. destruct o as [fl nw d|b]; simpl in Hl, E1; [destruct F; simpl in *; by simplify_eq|]. simplify_eq. tauto.
  - intros l v2 HS2. destruct (stack_ops F1 D1 os) as [[l2 F2] D2]. destruct HS2 as (-> & A2 & R). apply wp_ret. split; [done|by exists A2].
Qed.
End Stack.

(** ** Examples

    A volume of 100 blocks: 50 and 51 are in the super block's list, which
    goes on in block 50 with 60.  The one file has the direct block 10, the
    indirect block 11 and behind it the block 12. *)
Definition ex_naps : Naps := λ _, mret tt.
Definition ex_md : gmap (Z * Z) block :=
  <[(0, 21) := 12 :: replicate 255 0]> (<[(0, 60) := 2 :: 0 :: 60 :: replicate 253 0]> ∅).
Definition ex_free : list Z := 50 :: 51 :: replicate 198 0.
Definition ex_sb : fs := Fs 0 5 100 0 2 ex_free 0 [] 0 0 0 0 0 3 0 [] 0 0 0 0.
Definition ex_inode : inode := Inode 0 1 7 [10; 0; 0; 0; 11; 0; 0] 0 0x81a4 1 0 0 5120 0 0 0 0.
Definition ex_vol : vol := Vol (BState boot_bufs ex_data ex_md ex_parts 0 0 0 []) ex_sb [ex_inode] 0 1000 [].
Definition ex_F : list Z := [51; 50; 60].
Definition ex_A : Z → Z → block := on_disk ex_parts ex_md.

Lemma ex_volume : volume ex_parts ex_usable 1 ex_vol [] ex_A ex_F.
Proof.
  split; try done.
  - by apply boot_cache.
  - right. change ex_F with (upper 2 ex_free ++ 50 :: upper 2 (0 :: 60 :: replicate 198 0)). eapply chain_more with (n' := 2); try done.
    + vm_compute. lia.
    + constructor; done.
  - unfold ex_F. intros b Hb. assert (b = 51 ∨ b = 50 ∨ b = 60) as [-> | [-> | ->]] by set_solver; simpl; lia.
  - unfold ex_F. by apply (bool_decide_unpack _).
  - intros b _. apply unused_nil.
Qed.
#[local] Existing Instance ex_volumes.
#[local] Existing Instance ex_good.
#[local] Instance ex_alone : @Alone ex_naps.
Proof. done. Qed.

Definition ex_ops : list block_op :=
  [Alloc 0 true zero_block; Alloc 1 false zero_block; Free 51; Alloc 0 true zero_block; Alloc 0 false zero_block; Alloc 0 true zero_block].
Lemma alloc_refines_stack_witness :
  let D := ex_disks true in let N := ex_naps in
  wp (do_blocks 12 0 ex_ops) (λ l _, l = [Some (inl 51); Some (inl 50); None; Some (inl 51); Some (inl 60); Some (inr ENOSPC)]) ex_vol.
Proof.
  intros D N. eapply wp_mono.
  - apply (alloc_refines_stack ex_parts ex_usable 1 12 0 ex_ops ex_vol ex_A ex_F (ex_A 1) ex_inode ex_volume);
      [done|reflexivity|reflexivity|unfold NBUF; simpl; lia|]. simpl. repeat split; try lia. set_solver.
  - by intros l v' [-> _].
Defined.
