(* ===== verification/Bmap.v ===== *)
(** * The blocks of a file

    The addresses in an inode and the indirect blocks behind them form trees.
    [bmap] follows them to the block with a given number in the file, as the
    reference definition [locate] has it, and grows them when the block is to
    be written. *)
From stdpp Require Import base tactics list option strings numbers gmap.
From S2P Require Import Prelude Ring Bio Cache Store Ufs Alloc.
Open Scope Z_scope.

(** ** Trees

    A path: the inode, the index of the address in it, and the indices in the
    indirect blocks from there on. *)
Record path := Path { p_file : nat; p_root : nat; p_idx : list nat }.
#[global] Instance path_eq_dec : EqDecision path.
Proof. solve_decision. Defined.

(** The indirect blocks above the data behind an address. *)
Definition levels (r : nat) : nat := r - 3.
Definition valid (p : path) : Prop := (p_root p < 7)%nat ∧ (length (p_idx p) ≤ levels (p_root p))%nat ∧ Forall (λ i, i < 256)%nat (p_idx p).
Definition full (p : path) : Prop := valid p ∧ length (p_idx p) = levels (p_root p).
Definition child (p : path) (i : nat) : path := Path (p_file p) (p_root p) (p_idx p ++ [i]).

Definition word (d : block) (i : nat) : Z := default 0 (d !! i).
Lemma word_lookup (d : list Z) i w : d !! i = Some w → word d i = w.
Proof. intros E. unfold word. by apply (f_equal (default 0)) in E. Qed.
Lemma word_zero i : word zero_block i = 0.
Proof.
  unfold word. destruct (zero_block !! i) as [x|] eqn:E; [|done]. apply list_elem_of_lookup_2 in E.
  change zero_block with (replicate 256 0) in E. by apply elem_of_replicate in E as [-> _].
Qed.
(** The block behind a list of indices; 0: none. *)
Fixpoint walk (blk : Z → block) (b : Z) (ix : list nat) : Z :=
  match ix with [] => b | i :: ix => if b =? 0 then 0 else walk blk (word (blk b) i) ix end.
Definition root (l : list inode) (k r : nat) : Z := default 0 (l !! k ≫= λ z, i_addr z !! r).
Definition node (l : list inode) (blk : Z → block) (p : path) : Z := walk blk (root l (p_file p) (p_root p)) (p_idx p).

Lemma walk_0 blk ix : walk blk 0 ix = 0.
Proof. by destruct ix. Qed.
Lemma walk_snoc blk ix i : ∀ b, walk blk b (ix ++ [i]) = if walk blk b ix =? 0 then 0 else word (blk (walk blk b ix)) i.
Proof.
  induction ix as [|j ix IH]; intros b; simpl; [done|]. destruct (Z.eqb_spec b 0) as [->|]; [done|]. apply IH.
Qed.
Lemma node_child l blk p i : node l blk (child p i) = if node l blk p =? 0 then 0 else word (blk (node l blk p)) i.
Proof. apply walk_snoc. Qed.
Lemma child_inj p q i j : child p i = child q j → p = q ∧ i = j.
Proof. destruct p, q. unfold child. simpl. intros [= -> -> [-> [= ->]]%app_inj_tail]. done. Qed.
Lemma valid_child p i : valid (child p i) → valid p ∧ (i < 256)%nat ∧ (length (p_idx p) < levels (p_root p))%nat.
Proof.
  unfold valid, child. simpl. rewrite length_app, Forall_app, Forall_singleton. simpl. intros (? & ? & ? & ?). split_and!; (done || lia).
Qed.
Lemma child_neq p i : child p i ≠ p.
Proof. destruct p as [k r ix]. unfold child. simpl. intros [= E]. apply (f_equal length) in E. rewrite length_app in E. simpl in E. lia. Qed.
(** Induction on paths from the root. *)
Lemma path_ind (P : path → Prop) : (∀ k r, P (Path k r [])) → (∀ p i, P p → P (child p i)) → ∀ p, P p.
Proof.
  intros H0 HS [k r ix]. induction ix as [|i ix IH] using rev_ind; [apply H0|]. by apply (HS (Path k r ix) i).
Qed.

(** ** The files of a volume

    No block is in two places of the trees, or free and in a tree; indirect
    blocks are whole. *)
Section Forest.
Context (dev lo hi : Z).
Implicit Types (l : list inode) (A : Z → Z → block) (F : list Z) (p q : path).

Record forest l A F : Prop := Forest {
  fo_inode k z : l !! k = Some z → length (i_addr z) = 7%nat ∧ i_dev z = dev;
  fo_range p : valid p → node l (A dev) p ≠ 0 → lo ≤ node l (A dev) p < hi ∧ node l (A dev) p ∉ F;
  fo_once p q : valid p → valid q → node l (A dev) p ≠ 0 → node l (A dev) p = node l (A dev) q → p = q;
  fo_whole p : valid p → node l (A dev) p ≠ 0 → (length (p_idx p) < levels (p_root p))%nat → length (A dev (node l (A dev) p)) = 256%nat }.

(** The new block [b], found at [p] and nowhere else. *)
Definition grown l A l' A' p (b : Z) : Prop :=
  ∀ q, valid q → node l' (A' dev) q = if decide (q = p) then b else node l (A dev) q.

Lemma forest_grown l A F l' A' F' p b :
  forest l A F → grown l A l' A' p b → valid p → node l (A dev) p = 0 → lo ≤ b < hi → b ∉ F' → F' ⊆ F → b ∈ F →
  (∀ k z, l' !! k = Some z → length (i_addr z) = 7%nat ∧ i_dev z = dev) →
  ((length (p_idx p) < levels (p_root p))%nat → length (A' dev b) = 256%nat) →
  (∀ q, valid q → node l (A dev) q ≠ 0 → length (A' dev (node l (A dev) q)) = length (A dev (node l (A dev) q))) →
  forest l' A' F'.
Proof.
  intros Hf Hg Hp H0 Hb HbF' Hsub HbF Hl Hnew Hold. split.
  - exact Hl.
  - intros q Hq. rewrite (Hg q Hq). destruct (decide (q = p)) as [->|]; [done|]. intros Hn.
    destruct (fo_range _ _ _ Hf q Hq Hn). split; [done|]. set_solver.
  - intros q q' Hq Hq'. rewrite (Hg q Hq), (Hg q' Hq'). destruct (decide (q = p)) as [->|], (decide (q' = p)) as [->|]; intros Hn E; try done.
    + subst b. by destruct (fo_range _ _ _ Hf q' Hq' Hn).
    + rewrite E in Hn. destruct (fo_range _ _ _ Hf q Hq) as [_ ?]; congruence.
    + by apply (fo_once _ _ _ Hf).
  - intros q Hq. rewrite (Hg q Hq). destruct (decide (q = p)) as [->|]; [auto|]. intros Hn Hlt. rewrite Hold by done.
    by apply (fo_whole _ _ _ Hf).
Qed.

(** A new block behind an address of an inode. *)
Lemma grown_root l A F A' k r z b :
  forest l A F → l !! k = Some z → (r < 7)%nat → i_addr z !! r = Some 0 → b ∈ F → b ≠ 0 →
  (∀ q, valid q → node l (A dev) q ≠ 0 → A' dev (node l (A dev) q) = A dev (node l (A dev) q)) →
  (levels r ≠ 0%nat → A' dev b = zero_block) →
  ∀ z', i_addr z' = <[r := b]> (i_addr z) → grown l A (<[k := z']> l) A' (Path k r []) b.
Proof.
  intros Hf Hz Hr H0 HbF Hb Hold Hnew z' Ez q. pattern q. apply path_ind; clear q.
  - intros k' r' Hv. unfold node. simpl. unfold root. destruct (decide (k' = k)) as [->|Hk].
    + rewrite list_lookup_insert_eq by (by eapply lookup_lt_Some). rewrite Hz. simpl. rewrite Ez.
      destruct (decide (r' = r)) as [->|Hr'].
      * rewrite decide_True by done. rewrite list_lookup_insert_eq by (by eapply lookup_lt_Some). done.
      * rewrite decide_False by congruence. by rewrite list_lookup_insert_ne.
    + rewrite decide_False by congruence. by rewrite list_lookup_insert_ne.
  - intros q i IH Hv. destruct (valid_child _ _ Hv) as (Hq & Hi & Hlt). rewrite node_child, (IH Hq), node_child.
    rewrite (decide_False (P := child q i = _)).
    2:{ destruct q as [k' r' ix]. unfold child. simpl. intros [= _ _ E]. by destruct ix. }
    destruct (decide (q = Path k r [])) as [->|Hne].
    + rewrite (proj2 (Z.eqb_neq _ _)) by done. rewrite Hnew by (simpl in Hlt; lia). unfold node. simpl. unfold root. rewrite Hz. simpl. rewrite H0. simpl.
      apply word_zero.
    + destruct (Z.eqb_spec (node l (A dev) q) 0) as [|Hn]; [done|]. by rewrite Hold.
Qed.

(** A new block behind an entry of an indirect block. *)
Lemma grown_child l A F A' p i b :
  forest l A F → valid (child p i) → node l (A dev) p ≠ 0 → node l (A dev) (child p i) = 0 → b ∈ F → b ≠ 0 →
  (∀ q, valid q → node l (A dev) q ≠ 0 → q ≠ p → A' dev (node l (A dev) q) = A dev (node l (A dev) q)) →
  A' dev (node l (A dev) p) = <[i := b]> (A dev (node l (A dev) p)) →
  ((S (length (p_idx p)) < levels (p_root p))%nat → A' dev b = zero_block) →
  grown l A l A' (child p i) b.
Proof.
  intros Hf Hv Hp H0 HbF Hb Hold Hpar Hnew q. destruct (valid_child _ _ Hv) as (Hpv & Hi & Hlt). pattern q. apply path_ind; clear q.
  - intros k r _. rewrite decide_False; [done|]. unfold child. intros [= _ _ E]. by destruct (p_idx p).
  - intros q j IH Hq. destruct (valid_child _ _ Hq) as (Hqv & Hj & Hltq). rewrite node_child, (IH Hqv), (node_child l (A dev) q j).
    destruct (decide (q = child p i)) as [->|Hne].
    + rewrite (decide_False (P := child _ j = _)) by apply child_neq. rewrite (proj2 (Z.eqb_neq b 0)) by done. rewrite H0. simpl.
      rewrite Hnew by (simpl in Hltq; rewrite length_app in Hltq; simpl in Hltq; lia). apply word_zero.
    + destruct (Z.eqb_spec (node l (A dev) q) 0) as [Hn|Hn].
      { rewrite decide_False; [done|]. intros [-> _]%child_inj. done. }
      destruct (decide (q = p)) as [->|Hqp].
      * rewrite Hpar. unfold word. destruct (decide (j = i)) as [->|Hji].
        -- rewrite decide_True by done. etransitivity; [apply (f_equal (default 0)), list_lookup_insert_eq|done]. by rewrite (fo_whole _ _ _ Hf p).
        -- rewrite decide_False by (intros [_ ?]%child_inj; done). apply (f_equal (default 0)). by apply list_lookup_insert_ne.
      * rewrite decide_False by (intros [? _]%child_inj; done). by rewrite Hold.
Qed.
End Forest.

(** ** The reference: where a block of a file is *)
Definition locate (bn : Z) : option (nat * list nat) :=
  let i n := Z.to_nat n in
  if bn <? 0 then None
  else if bn <? 4 then Some (i bn, [])
  else if bn - 4 <? 256 then Some (4%nat, [i (bn - 4)])
  else if bn - 260 <? 256^2 then Some (5%nat, [i ((bn - 260) / 256); i ((bn - 260) mod 256)])
  else if bn - 65796 <? 256^3 then
    Some (6%nat, [i ((bn - 65796) / 256^2); i ((bn - 65796) / 256 mod 256); i ((bn - 65796) mod 256)])
  else None.

(** The indices in the indirect blocks as the code computes them. *)
Fixpoint digits (k : nat) (bn : Z) : list nat :=
  match k with
  | O => []
  | S k => Z.to_nat (Z.land (Z.shiftr bn (8 * Z.of_nat k)) NMASK) :: digits k bn
  end.
Lemma digit_mod k bn : Z.land (Z.shiftr bn (8 * Z.of_nat k)) NMASK = bn / 256 ^ Z.of_nat k mod 256.
Proof.
  change NMASK with (Z.ones 8). rewrite Z.land_ones, Z.shiftr_div_pow2 by lia. rewrite Z.pow_mul_r by lia. done.
Qed.
Lemma digit_range k bn : 0 ≤ Z.land (Z.shiftr bn (8 * Z.of_nat k)) NMASK < 256.
Proof. rewrite digit_mod. apply Z.mod_pos_bound. lia. Qed.
Lemma digits_length k bn : length (digits k bn) = k.
Proof. induction k as [|k IH]; simpl; [done|by rewrite IH]. Qed.
Lemma digits_range k bn : Forall (λ i, i < 256)%nat (digits k bn).
Proof. induction k as [|k IH]; constructor; [|done]. pose proof (digit_range k bn). lia. Qed.

(** The loop over the levels agrees with the reference. *)
Lemma bmap_level_locate bn : 4 ≤ bn →
  let '(j, sh, b) := bmap_level 3 0 1 (bn - 4) in
  match locate bn with
  | None => j = 0%nat
  | Some (r, ix) => (r + j = 7)%nat ∧ (0 < j ≤ 3)%nat ∧ sh = 8 * Z.of_nat (4 - j) ∧ 0 ≤ b ∧ ix = digits (4 - j) b ∧ (4 - j = levels r)%nat
  end.
Proof.
  intros Hb. unfold locate. rewrite (proj2 (Z.ltb_ge bn 0)), (proj2 (Z.ltb_ge bn 4)) by lia. cbn [bmap_level].
  change (s32 (Z.shiftl 1 NSHIFT)) with 256. change (s32 (Z.shiftl 256 NSHIFT)) with 65536. change (s32 (Z.shiftl 65536 NSHIFT)) with 16777216.
  change (256 ^ 2) with 65536. change (256 ^ 3) with 16777216.
  destruct (Z.ltb_spec (bn - 4) 256) as [H1|H1].
  { split_and!; try done; try lia. simpl. rewrite (digit_mod 0). simpl. rewrite Z.div_1_r, Z.mod_small by lia. done. }
  replace (bn - 4 - 256) with (bn - 260) by lia. destruct (Z.ltb_spec (bn - 260) 65536) as [H2|H2].
  { split_and!; try done; try lia. change (4 - 2)%nat with 2%nat. cbn [digits]. rewrite (digit_mod 0), (digit_mod 1). simpl. rewrite Z.div_1_r.
    rewrite (Z.mod_small (_ / 256)); [done|]. split; [apply Z.div_pos; lia|]. apply Z.div_lt_upper_bound; lia. }
  replace (bn - 260 - 65536) with (bn - 65796) by lia. destruct (Z.ltb_spec (bn - 65796) 16777216) as [H3|H3]; [|done].
  split_and!; try done; try lia. change (4 - 1)%nat with 3%nat. cbn [digits]. rewrite (digit_mod 0), (digit_mod 1), (digit_mod 2). simpl. rewrite Z.div_1_r.
  rewrite (Z.mod_small (_ / 65536)); [done|]. split; [apply Z.div_pos; lia|]. apply Z.div_lt_upper_bound; lia.
Qed.

Lemma locate_full k bn r ix : locate bn = Some (r, ix) → full (Path k r ix).
Proof.
  intros E. assert (Hb : 0 ≤ bn) by (unfold locate in E; destruct (Z.ltb_spec bn 0); [done|lia]).
  destruct (decide (bn < 4)) as [H4|H4].
  - unfold locate in E. rewrite (proj2 (Z.ltb_ge bn 0)), (proj2 (Z.ltb_lt bn 4)) in E by lia. injection E as <- <-.
    unfold full, valid, levels. simpl. split_and!; (done || lia).
  - pose proof (bmap_level_locate bn ltac:(lia)) as HL. destruct (bmap_level 3 0 1 (bn - 4)) as [[j sh] b]. rewrite E in HL.
    destruct HL as (H1 & H2 & _ & _ & -> & H5). unfold full, valid. simpl. rewrite digits_length. split_and!; [lia|lia|apply digits_range|done].
Qed.
Lemma locate_inj bn bn' x : locate bn = Some x → locate bn' = Some x → bn = bn'.
Proof.
  unfold locate. intros E E'. change (256 ^ 2) with 65536 in *. change (256 ^ 3) with 16777216 in *.
  repeat match type of E with context [if ?a <? ?b then _ else _] => destruct (Z.ltb_spec a b); try done end;
    injection E as <-;
    repeat match type of E' with context [if ?a <? ?b then _ else _] => destruct (Z.ltb_spec a b); try done end;
    injection E' as E';
    repeat match goal with H : Z.to_nat _ = Z.to_nat _ |- _ => apply Z2Nat.inj in H; [|try (apply Z.div_pos || apply Z.mod_pos_bound); lia..] end;
    try lia.
  all: pose proof (Z.div_mod (bn - 260) 256); pose proof (Z.div_mod (bn' - 260) 256); 
       pose proof (Z.div_mod (bn - 65796) 256); pose proof (Z.div_mod (bn' - 65796) 256); 
       pose proof (Z.div_mod ((bn - 65796) / 256) 256); pose proof (Z.div_mod ((bn' - 65796) / 256) 256).
  all: rewrite ?Z.div_div in * by lia; change (256 * 256) with 65536 in *; lia.
Qed.

(** ** Following and growing the trees *)

(** The blocks missing behind the indices [ix] from the indirect block [b]. *)
Fixpoint missing_from (blk : Z → block) (b : Z) (ix : list nat) : nat :=
  match ix with
  | [] => O
  | i :: ix => let c := word (blk b) i in if c =? 0 then S (length ix) else missing_from blk c ix
  end.
Definition missing (l : list inode) (blk : Z → block) (p : path) : nat :=
  let b := root l (p_file p) (p_root p) in if b =? 0 then S (length (p_idx p)) else missing_from blk b (p_idx p).
Definition extend (p : path) (ix : list nat) : path := Path (p_file p) (p_root p) (p_idx p ++ ix).
Lemma extend_child p i ix : extend p (i :: ix) = extend (child p i) ix.
Proof. unfold extend, child. simpl. by rewrite <- app_assoc. Qed.
Lemma extend_nil p : extend p [] = p.
Proof. destruct p. unfold extend. simpl. by rewrite app_nil_r. Qed.
Lemma missing_zero blk b ix : blk b = zero_block → missing_from blk b ix = length ix.
Proof. intros E. destruct ix as [|i ix]; simpl; [done|]. by rewrite E, word_zero. Qed.

Section Bmap.
Context `{Disks, Naps} (parts : list (list Z)) (usable : Z → Z → Prop) (dev : Z).
Context `{!Volumes parts usable, !GoodDisks, !Alone}.
Notation volume := (volume parts usable dev).
Implicit Types (v : vol) (A : Z → Z → block) (F : list Z) (p q : path).

Definition files v A F : Prop := forest dev (fs_isize (sb v)) (fs_fsize (sb v)) (inodes v) A F.
Definition at_path v A p : Z := node (inodes v) (A dev) p.

(** What [bmap] returns for the path [p] when [m] blocks are missing on it:
    the block that is there; -1 when it is missing and only asked for; the
    last of [m] new blocks, cleared if [clr]; or -1 with ENOSPC when fewer are
    free. *)
Definition answer_ok (write clr : bool) v A F p (m : nat) (ret : Z) v' A' F' : Prop :=
  if (m =? 0)%nat then ret = at_path v A p ∧ A' = A ∧ F' = F ∧ inodes v' = inodes v ∧ u_error (bst v') = u_error (bst v)
  else if negb write then ret = -1 ∧ A' = A ∧ F' = F ∧ inodes v' = inodes v ∧ u_error (bst v') = u_error (bst v)
  else if (m <=? length F)%nat then
    F !! (m - 1)%nat = Some ret ∧ F' = drop m F ∧ at_path v' A' p = ret ∧ u_error (bst v') = u_error (bst v) ∧
      (clr = true → A' dev ret = zero_block)
  else ret = -1 ∧ F' = [] ∧ at_path v' A' p = 0 ∧ u_error (bst v') = ENOSPC.

(** An inode without its addresses and the marks of changes. *)
Definition meta (z : inode) : inode := z<|i_addr := []|><|i_flag ::= λ g, Z.land g 0x1000|>.
Definition readdressed (z : inode) (r : nat) (b : Z) : inode :=
  z<|i_addr := <[r := b]> (i_addr z)|><|i_flag ::= λ f, Z.lor f (Z.lor IUPD ICHG)|>.
Lemma meta_readdressed (l : list inode) ip z r b : l !! ip = Some z → meta <$> <[ip := readdressed z r b]> l = meta <$> l.
Proof.
  intros Hz. rewrite list_fmap_insert. apply list_insert_id. rewrite list_lookup_fmap, Hz. simpl. f_equal.
  unfold meta, readdressed. destruct z. unfold field_map. simpl. f_equal. rewrite Z.land_lor_distr_l. symmetry. apply Z.lor_0_r.
Qed.

(** A block that may be read ahead. *)
Definition hint (b : Z) : Prop := b = 0 ∨ usable dev b.
Lemma node_hint v A F p : volume v [] A F → files v A F → valid p → hint (at_path v A p).
Proof.
  intros Hv Hf Hp. destruct (decide (at_path v A p = 0)) as [|Hn]; [by left|right]. destruct (fo_range _ _ _ _ _ _ Hf p Hp Hn) as [Hr _].
  apply (vo_usable _ _ _ _ _ _ _ Hv). destruct (vo_bounds _ _ _ _ _ _ _ Hv). unfold at_path in *. lia.
Qed.

(** [bmap] leaves every other block of every file where it was, and the
    contents of the blocks that were in use as they were; after a search,
    the hint for reading ahead is good. *)
Record mapped (write clr : bool) v A F p (m : nat) (ret : Z) v' A' F' : Prop := Mapped {
  ma_volume : volume v' [] A' F';
  ma_files : files v' A' F';
  ma_super : fs_isize (sb v') = fs_isize (sb v) ∧ fs_fsize (sb v') = fs_fsize (sb v) ∧ meta <$> inodes v' = meta <$> inodes v;
  ma_others q : full q → q ≠ p → at_path v' A' q = at_path v A q;
  ma_data q : full q → at_path v A q ≠ 0 → A' dev (at_path v A q) = A dev (at_path v A q);
  ma_answer : answer_ok write clr v A F p m ret v' A' F';
  ma_ahead : write = false → hint (rablock v') }.

(** Nothing but the cache's bookkeeping has changed before. *)
Lemma mapped_before write clr v w A F p m ret v' A' F' :
  inodes w = inodes v → sb w = sb v → u_error (bst w) = u_error (bst v) →
  mapped write clr w A F p m ret v' A' F' → mapped write clr v A F p m ret v' A' F'.
Proof.
  intros E1 E2 E3 [M1 M2 M3 M4 M5 M6 M7]. assert (Ep : ∀ q, at_path w A q = at_path v A q) by (intros q; unfold at_path; by rewrite E1).
  split; unfold answer_ok in *; rewrite <- ?E1, <- ?E2, <- ?E3, <- ?Ep; try done; intros q; rewrite <- !Ep; auto.
Qed.

(** One block was added at [p] before, and then the rest of the path. *)
Lemma mapped_after write clr v w A F A1 F1 b p ix ret v' A' F' :
  grown dev (inodes v) A (inodes w) A1 p b → full (extend p ix) → write = true → F = b :: F1 → at_path v A p = 0 →
  fs_isize (sb w) = fs_isize (sb v) → fs_fsize (sb w) = fs_fsize (sb v) → meta <$> inodes w = meta <$> inodes v →
  u_error (bst w) = u_error (bst v) →
  (∀ q, valid q → at_path v A q ≠ 0 → full q → A1 dev (at_path v A q) = A dev (at_path v A q)) →
  (ix = [] → clr = true → A1 dev b = zero_block) →
  mapped write clr w A1 F1 (extend p ix) (length ix) ret v' A' F' → mapped write clr v A F (extend p ix) (S (length ix)) ret v' A' F'.
Proof.
  intros Hg Hfull -> -> Hz0 E1 E2 El E3 Hdat Hclr [M1 M2 M3 M4 M5 M6 M7].
  assert (Hn : ∀ q, full q → q ≠ extend p ix → at_path w A1 q = at_path v A q).
  { intros q Hq Hne. unfold at_path. rewrite (Hg q) by apply Hq. rewrite decide_False; [done|]. intros ->.
    destruct ix as [|i ix]; [by rewrite extend_nil in Hne|]. destruct Hq as [_ Hq], Hfull as [_ Hfull].
    unfold extend in Hfull. simpl in Hfull. rewrite length_app in Hfull. simpl in Hfull. lia. }
  split; try done.
  - by rewrite <- E1, <- E2, <- El.
  - intros q Hq Hne. rewrite <- Hn by done. by apply M4.
  - intros q Hq Hn0. destruct (decide (q = extend p ix)) as [->|Hne].
    + exfalso. apply Hn0. unfold at_path, node, extend. simpl. clear -Hz0. unfold at_path, node in Hz0. revert Hz0.
      generalize (root (inodes v) (p_file p) (p_root p)). generalize (p_idx p). intros l b Hz0.
      rewrite <- (walk_0 (A dev) ix), <- Hz0. clear. revert b. induction l as [|i l IH]; intros b; simpl; [done|].
      destruct (Z.eqb_spec b 0) as [->|]; [by rewrite walk_0|]. apply IH.
    + rewrite <- (Hn q) by done. rewrite M5 by (rewrite ?Hn; done). rewrite Hn by done. apply Hdat; [apply Hq|done|done].
  - unfold answer_ok in *. cbn [negb] in *. change (S (length ix) =? 0)%nat with false. cbn [negb length].
    destruct (Nat.eqb_spec (length ix) 0) as [Ei|Ei].
    + destruct M6 as (R1 & R2 & R3 & R4 & R5). rewrite Ei. simpl.
      assert (ix = []) as -> by (by apply length_zero_iff_nil). rewrite extend_nil in *.
      assert (Eb : ret = b). { rewrite R1. unfold at_path. rewrite (Hg p) by apply Hfull. by rewrite decide_True. }
      rewrite Eb.
      split_and!; [done|done| |congruence|rewrite R2; auto]. unfold at_path. rewrite R4, R2. rewrite (Hg p) by apply Hfull. by rewrite decide_True.
    + change (S (length ix) <=? S (length F1))%nat with (length ix <=? length F1)%nat.
      destruct (length ix <=? length F1)%nat.
      * destruct M6 as (R1 & R2 & R3 & R4 & R5). split_and!; [|done|done|congruence|done].
        replace (S (length ix) - 1)%nat with (S (length ix - 1)) by lia. done.
      * destruct M6 as (R1 & R2 & R3 & R4). by split_and!.
Qed.

Lemma volume_cache v s' held A F : volume v held A F → cache_ok parts usable s' [] A → volume (v<|bst := s'|>) [] A F.
Proof. intros Hv Hc. split; try apply Hv; [done|]. intros b _. apply unused_nil. Qed.
Lemma volume_hold v s1 A F i b : volume v [] A F → fetched parts usable (bst v) s1 [] A dev b i → b ∉ F → b ≠ SUPERB →
  volume (v<|bst := s1|>) [i] A F.
Proof.
  intros Hv (Ho & _) HbF Hb0. destruct (obtained_holds _ _ _ _ _ _ _ _ _ Ho) as (x & Hh & _ & _).
  split; try apply Hv; [apply Hh|]. intros c Hc. eapply (held_other parts usable); [exact Hh| |apply unused_nil].
  intros ->. destruct Hc; [done|]. done.
Qed.
Lemma volume_rablock v A F ra : volume v [] A F → volume (v<|rablock := ra|>) [] A F.
Proof. intros Hv. by split; apply Hv. Qed.

(** The buffer [i] is still ours after others were used. *)
Lemma holds_keep s s' A A' i b x : holds parts usable s [] A i dev b x → cache_ok parts usable s' [i] A' → undisturbed [i] s s' →
  holds parts usable s' [] A' i dev b x.
Proof. intros (_ & Hx & Hb & Ha) Hc [U _]. destruct (U i ltac:(set_solver)) as [E _]. split_and!; try done. by rewrite E. Qed.

(** A missing entry of an indirect block is filled with a new block. *)
Lemma wp_grow {T} fuel (now : bool) v A F p i b F1 j k x y A1 (m : V T) (Q : T → vol → Prop) :
  files v A F → F = b :: F1 → valid (child p i) → at_path v A p ≠ 0 → at_path v A (child p i) = 0 →
  volume v [j; k] A1 F1 → but_super dev A A1 → NoDup F → (∀ c, c ∈ F → fs_isize (sb v) ≤ c < fs_fsize (sb v)) → j ≠ k →
  holds parts usable (bst v) [k] A1 j dev b x → bufdata (bst v) !! j = Some zero_block →
  core (bst v) !! k = Some y → is_block y dev (at_path v A p) = true → has (b_flags y) B_ASYNC = false →
  bufdata (bst v) !! k = Some (A dev (at_path v A p)) →
  (∀ v' A', volume v' [] A' F1 → files v' A' F1 → grown dev (inodes v) A (inodes v') A' (child p i) b → settled v v' →
     u_error (bst v') = u_error (bst v) →
     (∀ q, valid q → at_path v A q ≠ 0 → full q → A' dev (at_path v A q) = A dev (at_path v A q)) → A' dev b = zero_block →
     wp m Q v') →
  wp (bsync fuel now j;; bap ← on_cache (load k); bap ← lift (wrz bap (Z.of_nat i) b); on_cache (store k bap);;
      on_cache (bdwrite fuel k);; m) Q v.
Proof.
  intros Hf -> Hval Hp Hz0 Hv HA Hnd Hrange Hjk Hh Hzb Hy Hyb Hya Hyd HQ. destruct (valid_child _ _ Hval) as (Hpv & Hi & Hlt).
  destruct (fo_range _ _ _ _ _ _ Hf p Hpv Hp) as [Hpr HpF]. fold (at_path v A p) in Hpr, HpF. set (nb := at_path v A p) in *.
  destruct (vo_bounds _ _ _ _ _ _ _ Hv) as [B1 B2]. pose proof (Hrange b ltac:(set_solver)) as Hbr.
  apply NoDup_cons in Hnd as [HbF1 Hnd]. assert (Hlen : length (A dev nb) = 256%nat) by (by apply (fo_whole _ _ _ _ _ _ Hf p)).
  apply wp_bind. eapply wp_mono; [eapply (wp_bsync parts usable dev now); [exact Hv|exact Hh|exact Hzb|done|unfold SUPERB; lia]|].
  intros [] v1 (Hv1 & S1 & [U1 Ue]). destruct (U1 k ltac:(set_solver)) as [Ek Ed].
  assert (Hk : holds parts usable (bst v1) [] (upd A1 dev b zero_block) k dev nb y).
  { split_and!; [apply Hv1|by rewrite Ek|done|done]. }
  apply wp_bind, wp_on_cache. eapply (wp_bload parts usable); [exact Hk|by rewrite Ed|]. apply wp_bind. unfold wrz.
  rewrite (proj2 (Z.leb_le _ _)) by lia. rewrite Nat2Z.id. eapply wp_lift; [apply wr_Done; lia|]. rewrite vol_id.
  set (d' := <[i := b]> (A dev nb)). apply wp_assoc.
  eapply wp_mono; [eapply (wp_fill parts usable dev false fuel v1 [] _ F1 k nb y d'); [exact Hv1|exact Hk|set_solver|unfold SUPERB; lia|set_solver]|].
  intros [] v2 (Hv2 & S2 & [_ Ue2]). set (A' := upd (upd A1 dev b zero_block) dev nb d') in *.
  assert (Hne : b ≠ nb) by (intros <-; set_solver).
  assert (Eo : ∀ c, c ≠ nb → c ≠ b → c ≠ SUPERB → A' dev c = A dev c).
  { intros c N1 N2 N3. unfold A'. rewrite !upd_other by tauto. apply HA. tauto. }
  assert (Hnode : ∀ q, valid q → at_path v A q ≠ 0 → at_path v A q ≠ b ∧ at_path v A q ≠ SUPERB).
  { intros q Hq Hn. destruct (fo_range _ _ _ _ _ _ Hf q Hq Hn) as [R1 R2]. unfold at_path in *. split; [set_solver|unfold SUPERB; lia]. }
  assert (Ho : ∀ q, valid q → at_path v A q ≠ 0 → q ≠ p → A' dev (at_path v A q) = A dev (at_path v A q)).
  { intros q Hq Hn Hqp. destruct (Hnode q Hq Hn). apply Eo; [|done|done]. intros E. apply Hqp. by eapply (fo_once _ _ _ _ _ _ Hf). }
  assert (Eb : A' dev b = zero_block) by (unfold A'; rewrite upd_other by tauto; apply upd_same).
  assert (Ep : A' dev nb = d') by apply upd_same.
  pose proof (settled_trans _ _ _ S1 S2) as Hs. pose proof Hs as (Ei & E1 & E2 & _).
  assert (Hg : grown dev (inodes v) A (inodes v2) A' (child p i) b).
  { rewrite Ei. eapply grown_child; [exact Hf|done|done|done|set_solver|lia|exact Ho|exact Ep|done]. }
  apply (HQ v2 A'); try done.
  - unfold files. rewrite E1, E2. eapply forest_grown; [exact Hf|exact Hg|done|done|done|done|set_solver|set_solver|rewrite Ei; apply Hf|by rewrite Eb|].
    intros q Hq Hn. destruct (decide (q = p)) as [->|Hqp]; [|f_equal; by apply Ho]. fold (at_path v A p). fold nb. rewrite Ep. unfold d'.
    apply length_insert.
  - congruence.
  - intros q Hq Hn Hqf. apply Ho; [done|done|]. intros ->. destruct Hqf as [_ ?]. lia.
Qed.

Lemma mapped_clr write clr v A F p m ret v' A' F' : mapped write true v A F p m ret v' A' F' → mapped write clr v A F p m ret v' A' F'.
Proof.
  intros [M1 M2 M3 M4 M5 M6 M7]. split; try done. unfold answer_ok in *.
  repeat match goal with |- context [if ?b then _ else _] => destruct b end; try done. naive_solver.
Qed.
(** Nothing was missing, or nothing may be changed. *)
Lemma mapped_same write clr v w A F p m ret :
  volume w [] A F → files w A F → inodes w = inodes v → fs_isize (sb w) = fs_isize (sb v) → fs_fsize (sb w) = fs_fsize (sb v) →
  u_error (bst w) = u_error (bst v) → (m = 0%nat ∧ ret = at_path v A p ∨ m ≠ 0%nat ∧ write = false ∧ ret = -1) →
  (write = false → hint (rablock w)) → mapped write clr v A F p m ret w A F.
Proof.
  intros Hv Hf Ei E1 E2 Ee Hr Hra. assert (Ep : ∀ q, at_path w A q = at_path v A q) by (intros q; unfold at_path; by rewrite Ei).
  split; try done; [by rewrite Ei|]. unfold answer_ok. destruct Hr as [[-> ->]|(Hm & -> & ->)]; [done|]. rewrite (proj2 (Nat.eqb_neq _ _)) by done. done.
Qed.
(** No block is free. *)
Lemma mapped_full clr v w A p m :
  volume w [] A [] → files w A [] → inodes w = inodes v → fs_isize (sb w) = fs_isize (sb v) → fs_fsize (sb w) = fs_fsize (sb v) →
  u_error (bst w) = ENOSPC → m ≠ 0%nat → at_path v A p = 0 → mapped true clr v A [] p m (-1) w A [].
Proof.
  intros Hv Hf Ei E1 E2 Ee Hm Hz0. assert (Ep : ∀ q, at_path w A q = at_path v A q) by (intros q; unfold at_path; by rewrite Ei).
  split; try done; [by rewrite Ei|]. unfold answer_ok. rewrite (proj2 (Nat.eqb_neq _ _)) by done. simpl.
  rewrite (proj2 (Nat.leb_gt _ _)) by lia. by rewrite Ep.
Qed.
Lemma walk_missing blk ix : ∀ b, b ≠ 0 → missing_from blk b ix ≠ 0%nat → walk blk b ix = 0.
Proof.
  induction ix as [|i ix IH]; intros b Hb; simpl; [done|]. rewrite (proj2 (Z.eqb_neq b 0)) by done.
  destruct (Z.eqb_spec (word (blk b) i) 0) as [->|Hn]; [intros _; apply walk_0|auto].
Qed.
Lemma node_extend v A p ix : at_path v A (extend p ix) = walk (A dev) (at_path v A p) ix.
Proof.
  unfold at_path, node, extend. simpl. generalize (root (inodes v) (p_file p) (p_root p)). induction (p_idx p) as [|i l IH]; intros b; simpl; [done|].
  destruct (Z.eqb_spec b 0) as [->|]; [by rewrite walk_0|apply IH].
Qed.

Lemma full_digits p k bn : valid p → (length (p_idx p) + k = levels (p_root p))%nat → full (extend p (digits k bn)).
Proof.
  intros (V1 & V2 & V3) Hk. unfold full, valid, extend. simpl. rewrite length_app, digits_length, Forall_app.
  split_and!; [done|lia|done|apply digits_range|done].
Qed.

(** The loop of [bmap], from the indirect block at [p] on. *)
Lemma wp_bmap_fetch fuel rwflg flags async k : ∀ v A F p bn ra z,
  (NBUF + 2 ≤ fuel)%nat → volume v [] A F → files v A F → inodes v !! p_file p = Some z →
  (negb (rwflg =? B_READ) = false → hint (rablock v) ∧ hint ra) → valid p → (length (p_idx p) + k = levels (p_root p))%nat → at_path v A p ≠ 0 →
  wp (bmap_fetch fuel k (p_file p) dev bn (8 * Z.of_nat k) (at_path v A p) ra rwflg flags async)
    (λ ret v', ∃ A' F', mapped (negb (rwflg =? B_READ)) true v A F (extend p (digits k bn))
       (missing_from (A dev) (at_path v A p) (digits k bn)) ret v' A' F') v.
Proof.
  induction k as [|k IH]; intros v A F p bn ra z Hfu Hv Hf Hz Hhint Hpv Hk Hp.
  { cbn [bmap_fetch]. apply wp_bind, wp_modify, wp_ret. exists A, F. rewrite extend_nil.
    apply mapped_same; try done; [by apply volume_rablock|by left|apply Hhint]. }
  destruct (fo_range _ _ _ _ _ _ Hf p Hpv Hp) as [Hpr HpF]. fold (at_path v A p) in Hpr, HpF.
  destruct (vo_bounds _ _ _ _ _ _ _ Hv) as [B1 B2]. destruct (fo_inode _ _ _ _ _ _ Hf _ _ Hz) as [_ Hdz].
  assert (Hlen : length (A dev (at_path v A p)) = 256%nat) by (apply (fo_whole _ _ _ _ _ _ Hf p); [done|done|lia]).
  cbn [bmap_fetch]. apply wp_bind, wp_on_cache.
  eapply wp_mono; [apply (wp_bread parts usable fuel (bst v) [] A dev (at_path v A p)); [apply Hv|apply Hv; lia|apply unused_nil|vm_compute; lia|done]|].
  intros bp s1 Hfe. pose proof Hfe as (Ho & Hdat & _). destruct (obtained_holds _ _ _ _ _ _ _ _ _ Ho) as (x & Hh & [U Ue] & _).
  apply wp_bind. eapply (wp_failed parts usable dev); [exact Hh|]. apply wp_bind, wp_on_cache. eapply (wp_bload parts usable); [exact Hh|exact Hdat|].
  replace (8 * Z.of_nat (S k) - NSHIFT) with (8 * Z.of_nat k) by (unfold NSHIFT; lia).
  pose proof (digit_range k bn) as Hir. set (i := Z.land (Z.shiftr bn (8 * Z.of_nat k)) NMASK) in *.
  assert (Hrd : ∀ j, 0 ≤ j < 256 → rdz (A dev (at_path v A p)) j = Done (word (A dev (at_path v A p)) (Z.to_nat j))).
  { intros j Hj. unfold rdz. rewrite (proj2 (Z.leb_le _ _)) by lia. destruct (lookup_lt_is_Some_2 (A dev (at_path v A p)) (Z.to_nat j)) as [w Hw]; [lia|].
    by rewrite (rd_Done _ _ w), (word_lookup _ _ w). }
  apply wp_bind. eapply wp_lift; [by apply Hrd|]. apply wp_bind.
  assert (Hra : ∀ Q : Z → vol → Prop, ∀ w, (∀ r, (negb (rwflg =? B_READ) = false → hint r) → Q r w) →
    wp (if i <? NINDIR - 1 then lift (rdz (A dev (at_path v A p)) (i + 1)) else mret ra) Q w).
  { intros Q w HQ. destruct (Z.ltb_spec i (NINDIR - 1)) as [Hi|Hi]; [|apply wp_ret, HQ, Hhint]. unfold NINDIR in Hi. eapply wp_lift; [apply Hrd; lia|].
    apply HQ. intros _. replace (word _ _) with (at_path v A (child p (Z.to_nat (i + 1)))) by (unfold at_path; rewrite node_child; by rewrite (proj2 (Z.eqb_neq _ _))).
    eapply node_hint; [done|done|]. destruct Hpv as (V1 & V2 & V3). unfold valid. simpl. rewrite length_app, Forall_app, Forall_singleton. simpl.
    split_and!; (done || lia). }
  apply Hra. intros ra' Hra'. clear Hra. rewrite vol_id.
  set (c := child p (Z.to_nat i)). assert (Ec : at_path v A c = word (A dev (at_path v A p)) (Z.to_nat i)).
  { unfold at_path, c. rewrite node_child. by rewrite (proj2 (Z.eqb_neq _ _)). }
  assert (Hcv : valid c).
  { destruct Hpv as (V1 & V2 & V3). unfold valid, c. simpl. rewrite length_app, Forall_app, Forall_singleton. simpl. split_and!; (done || lia). }
  cbn [digits missing_from]. fold i. rewrite <- Ec. rewrite extend_child. fold c.
  assert (Hck : (length (p_idx c) + k = levels (p_root c))%nat) by (unfold c; simpl; rewrite length_app; simpl; lia).
  destruct (Z.eqb_spec (at_path v A c) 0) as [Hc0|Hc0].
  - apply wp_bind. destruct (rwflg =? B_READ) eqn:Erw; cbn [negb].
    { apply wp_ret, wp_bind, wp_on_cache. eapply wp_mono; [eapply (wp_brelease parts usable); [exact Hh|done]|].
      intros [] s2 [Hc2 [_ Ue2]]. apply wp_ret. exists A, F.
      apply mapped_same; try done; [by apply (volume_cache v s2 [])|fields; by rewrite Ue2|by right|apply Hhint]. }
    set (u := v<|bst := s1|>).
    assert (Hvu : volume u [bp] A F) by (apply (volume_hold v s1 A F bp (at_path v A p)); [done|done|done|unfold SUPERB; lia]).
    eapply wp_mono; [apply (wp_balloc parts usable dev fuel u [bp] A F (p_file p) (Z.lor flags B_CLRBUF) z); try done; vm_compute; lia|].
    intros r u1 [Hr Su]. pose proof Su as (Eui & Eu1 & Eu2 & _). destruct F as [|b F1].
    { destruct Hr as (-> & Hv1 & Eb). apply wp_bind, wp_on_cache. rewrite Eb.
      assert (Hh1 : holds parts usable (s1<|u_error := ENOSPC|>) [] A bp dev (at_path v A p) x).
      { pose proof (vo_cache _ _ _ _ _ _ _ Hv1) as Hc1. rewrite Eb in Hc1. destruct Hh as (_ & ? & ? & ?). by split_and!. }
      eapply wp_mono; [eapply (wp_brelease parts usable); [exact Hh1|done]|].
      intros [] s2 [Hc2 [_ Ue2]]. apply wp_ret. exists A, []. apply mapped_full; try done.
      - by apply (volume_cache u1 s2 [bp]).
      - unfold files. fields. by rewrite Eui, Eu1, Eu2.
      - rewrite node_extend. rewrite Hc0. apply walk_0. }
    destruct Hr as (j & y & A1 & -> & Hj & HA & Hhj & Hv1 & [U1 Ue1] & Hzb). apply wp_bind. eapply (wp_blkno_of parts usable dev); [exact Hhj|].
    destruct (U1 bp ltac:(set_solver)) as [Ek Ed].
    rewrite <- (Z2Nat.id i) by lia. eapply (wp_grow fuel _ u1 A (b :: F1) p (Z.to_nat i) b F1 j bp y x A1); try done.
    1: by unfold files; rewrite Eui, Eu1, Eu2.
    all: assert (Ep : ∀ q, at_path u1 A q = at_path v A q) by (intros q; unfold at_path; by rewrite Eui).
    all: rewrite ?Ep; destruct Hh as (_ & Hx & Hxb & Hxa); try done.
    + apply Hv.
    + rewrite Eu1, Eu2. apply Hv.
    + set_solver.
    + apply Hzb. flag_simpl. done.
    + by rewrite Ek.
    + by rewrite Ed.
    + intros w A2 Hvw Hfw Hg Sw Uew Hd2 Hb2. rewrite Eui in Hg.
      assert (Ew : at_path w A2 c = b) by (unfold at_path; rewrite (Hg c Hcv); by rewrite decide_True).
      pose proof (settled_trans _ _ _ Su Sw) as (Ewi & Ew1 & Ew2 & _).
      assert (Hb0 : b ≠ 0) by (pose proof (vo_range _ _ _ _ _ _ _ Hv b ltac:(set_solver)); lia).
      eapply wp_mono; [rewrite <- Ew; apply (IH w A2 F1 c bn ra' z); try done; first [by rewrite Ewi|by rewrite Erw|by rewrite Ew]|].
      intros ret v' (A' & F' & HM). exists A', F'. rewrite Ew, missing_zero in HM by done.
      assert (Ee : u_error (bst w) = u_error (bst v)) by (rewrite Uew, Ue1; exact Ue).
      eapply (mapped_after true true v w A (b :: F1) A2 F1 b c); try done.
      * by apply full_digits.
      * by rewrite Ewi.
      * intros q Hq Hn Hqf. specialize (Hd2 q Hq). rewrite Ep in Hd2. auto.
  - apply wp_bind, wp_on_cache. eapply wp_mono; [eapply (wp_brelease parts usable); [exact Hh|done]|]. intros [] s2 [Hc2 [_ Ue2]].
    set (w := v<|bst := s1|><|bst := s2|>).
    eapply wp_mono; [apply (IH w A F c bn ra' z); try done; [by apply (volume_cache v s2 [])|]; intros Hn; split; [by apply Hhint|auto]|].
    intros ret v' (A' & F' & HM). exists A', F'. eapply mapped_before; [| | |exact HM]; [done|done|]. unfold w. fields. by rewrite Ue2.
Qed.

Lemma wp_set_inode v ip z g (Q : unit → vol → Prop) :
  inodes v !! ip = Some z → Q tt (v<|inodes := <[ip := g z]> (inodes v)|>) → wp (set_inode ip g) Q v.
Proof.
  intros Hz HQ. unfold set_inode, inode_at. apply wp_bind, wp_bind, wp_gets. eapply wp_lift; [by apply rd_Done|].
  apply wp_bind, wp_gets, wp_bind. eapply wp_lift; [apply wr_Done; by eapply lookup_lt_Some|]. by apply wp_modify.
Qed.
Lemma wp_set_addr v ip z r b (Q : unit → vol → Prop) :
  inodes v !! ip = Some z → (r < length (i_addr z))%nat →
  Q tt (v<|inodes := <[ip := readdressed z r b]> (inodes v)|>) → wp (set_addr ip (Z.of_nat r) b) Q v.
Proof.
  intros Hz Hr HQ. unfold set_addr, inode_at. apply wp_bind, wp_bind, wp_gets. eapply wp_lift; [by apply rd_Done|].
  apply wp_bind. unfold wrz. rewrite (proj2 (Z.leb_le _ _)) by lia. rewrite Nat2Z.id. eapply wp_lift; [by apply wr_Done|].
  apply wp_bind. eapply wp_set_inode; [exact Hz|]. eapply wp_set_inode; [apply list_lookup_insert_eq; by eapply lookup_lt_Some|].
  fields. by rewrite list_insert_insert_eq.
Qed.

(** A missing block behind an address of the inode. *)
Lemma wp_grow_root {T} fuel (now : bool) v A F ip r b F1 j x z A1 d (m : V T) (Q : T → vol → Prop) :
  files v A F → F = b :: F1 → inodes v !! ip = Some z → (r < 7)%nat → i_addr z !! r = Some 0 →
  volume v [j] A1 F1 → but_super dev A A1 → NoDup F → (∀ c, c ∈ F → fs_isize (sb v) ≤ c < fs_fsize (sb v)) →
  holds parts usable (bst v) [] A1 j dev b x → bufdata (bst v) !! j = Some d → (levels r ≠ 0%nat → d = zero_block) →
  (∀ v' A', volume v' [] A' F1 → files v' A' F1 → grown dev (inodes v) A (inodes v') A' (Path ip r []) b →
     inodes v' = <[ip := readdressed z r b]> (inodes v) →
     fs_isize (sb v') = fs_isize (sb v) → fs_fsize (sb v') = fs_fsize (sb v) → u_error (bst v') = u_error (bst v) →
     (∀ q, valid q → at_path v A q ≠ 0 → full q → A' dev (at_path v A q) = A dev (at_path v A q)) → A' dev b = d →
     wp m Q v') →
  wp (bsync fuel now j;; set_addr ip (Z.of_nat r) b;; m) Q v.
Proof.
  intros Hf -> Hz Hr Hz0 Hv HA Hnd Hrange Hh Hzb Hd0 HQ. destruct (vo_bounds _ _ _ _ _ _ _ Hv) as [B1 B2].
  pose proof (Hrange b ltac:(set_solver)) as Hbr. apply NoDup_cons in Hnd as [HbF1 Hnd]. destruct (fo_inode _ _ _ _ _ _ Hf _ _ Hz) as [Hlen Hdz].
  apply wp_bind. eapply wp_mono; [eapply (wp_bsync parts usable dev now); [exact Hv|exact Hh|exact Hzb|done|unfold SUPERB; lia]|].
  intros [] v1 (Hv1 & S1 & [_ Ue]). pose proof S1 as (Ei & E1 & E2 & _). apply wp_bind.
  eapply wp_set_addr; [by rewrite Ei|lia|]. set (A' := upd A1 dev b d) in *.
  assert (Ho : ∀ q, valid q → node (inodes v) (A dev) q ≠ 0 → A' dev (node (inodes v) (A dev) q) = A dev (node (inodes v) (A dev) q)).
  { intros q Hq Hn. destruct (fo_range _ _ _ _ _ _ Hf q Hq Hn) as [R1 R2]. unfold A'. rewrite upd_other by set_solver.
    apply HA. unfold SUPERB. lia. }
  assert (Hg : grown dev (inodes v) A (<[ip := readdressed z r b]> (inodes v)) A' (Path ip r []) b).
  { eapply grown_root; [exact Hf|done|done|done|set_solver|lia|exact Ho| |done]. intros Hl. unfold A'. rewrite upd_same. auto. }
  apply (HQ _ A'); fields; rewrite ?Ei; try done.
  - split; try apply Hv1.
  - unfold files. fields. rewrite E1, E2.
    eapply forest_grown; [exact Hf|exact Hg|split_and!; [done|simpl; lia|constructor]| |done|done|set_solver|set_solver| | |].
    + unfold node. simpl. unfold root. rewrite Hz. simpl. by rewrite Hz0.
    + intros k' z' Hk'. apply insert_cases in Hk' as [[-> ->]|[_ Hk']]; [|by apply (fo_inode _ _ _ _ _ _ Hf k')].
      unfold readdressed. fields. by rewrite length_insert.
    + intros Hl. unfold A'. rewrite upd_same. simpl in Hl. rewrite Hd0 by lia. done.
    + intros q Hq Hn. by rewrite Ho.
  - intros q Hq Hn _. by apply Ho.
  - unfold A'. apply upd_same.
Qed.

Lemma held_data s held A i b x : holds parts usable s held A i dev b x → ∃ d, bufdata s !! i = Some d.
Proof.
  intros ((hl & fl & Hc) & Hx & _). apply lookup_lt_is_Some_2. rewrite (ca_data Hc), <- (core_length _ _ _ _ _ _ _ Hc).
  by eapply lookup_lt_Some.
Qed.
Lemma root_at v A ip r z n : inodes v !! ip = Some z → i_addr z !! r = Some n → at_path v A (Path ip r []) = n.
Proof. intros Hz Hn. unfold at_path, node. simpl. unfold root. rewrite Hz. simpl. by rewrite Hn. Qed.

(** The read-ahead hint at the end of the direct case. *)
Lemma wp_ahead v ip z bn nb (Q : Z → vol → Prop) :
  inodes v !! ip = Some z → length (i_addr z) = 7%nat → 0 ≤ bn < 4 →
  (∀ ra, ra = rablock v ∨ i_addr z !! Z.to_nat (bn + 1) = Some ra → Q nb (v<|rablock := ra|>)) →
  wp ((if bn <? NADDR - 4 then x ← inode_at ip; ra ← lift (rdz (i_addr x) (bn + 1)); modify (λ v, v<|rablock := ra|>) else mret tt);; mret nb) Q v.
Proof.
  intros Hz Hl Hb HQ. apply wp_bind. destruct (bn <? NADDR - 4).
  - unfold inode_at. apply wp_bind, wp_bind, wp_gets. eapply wp_lift; [by apply rd_Done|].
    destruct (lookup_lt_is_Some_2 (i_addr z) (Z.to_nat (bn + 1))) as [n Hn]; [lia|]. apply wp_bind. unfold rdz.
    rewrite (proj2 (Z.leb_le _ _)) by lia. eapply wp_lift; [by apply rd_Done|]. apply wp_modify, wp_ret, HQ. by right.
  - apply wp_ret, wp_ret. specialize (HQ (rablock v) (or_introl eq_refl)). by destruct v.
Qed.

Lemma wp_bmap_direct fuel rwflg flags v A F ip z bn :
  (NBUF + 2 ≤ fuel)%nat → volume v [] A F → files v A F → inodes v !! ip = Some z → hint (rablock v) → 0 ≤ bn < 4 →
  let p := Path ip (Z.to_nat bn) [] in
  wp (bmap_direct fuel ip bn rwflg flags)
    (λ ret v', ∃ A' F', mapped (negb (rwflg =? B_READ)) (has flags B_CLRBUF) v A F p (missing (inodes v) (A dev) p) ret v' A' F') v.
Proof.
  intros Hfu Hv Hf Hz Hra Hb p. destruct (fo_inode _ _ _ _ _ _ Hf _ _ Hz) as [Hlen Hdz].
  destruct (lookup_lt_is_Some_2 (i_addr z) (Z.to_nat bn)) as [nb Hnb]; [lia|]. pose proof (root_at v A ip _ z nb Hz Hnb) as Hat. fold p in Hat.
  unfold bmap_direct, inode_at. apply wp_bind, wp_bind, wp_gets. eapply wp_lift; [by apply rd_Done|]. apply wp_bind. unfold rdz at 1.
  rewrite (proj2 (Z.leb_le 0 bn)) by lia. eapply wp_lift; [by apply rd_Done|]. cbv zeta.
  assert (Em : missing (inodes v) (A dev) p = if nb =? 0 then 1%nat else 0%nat).
  { unfold missing. change (root _ _ _) with (at_path v A p). by rewrite Hat. }
  rewrite Em. destruct (Z.eqb_spec nb 0) as [->|Hne].
  2:{ apply (wp_ahead _ _ z); [done|done|done|]. intros ra Hor. exists A, F. apply mapped_same; try done; [by apply volume_rablock|left; by rewrite Hat|].
      intros _. fields. destruct Hor as [->|Hn]; [done|]. rewrite <- (root_at v A ip _ z ra Hz Hn). eapply node_hint; [done|done|].
      unfold valid. simpl. split_and!; [lia|lia|constructor]. }
  apply wp_bind. destruct (rwflg =? B_READ) eqn:Erw; cbn [negb].
  { apply wp_ret, wp_ret. exists A, F. apply mapped_same; try done. by right. }
  eapply wp_mono; [apply (wp_balloc parts usable dev fuel v [] A F ip flags z); try done; vm_compute; lia|].
  intros r u1 [Hr Su]. pose proof Su as (Eui & Eu1 & Eu2 & _). destruct F as [|b F1].
  { destruct Hr as (-> & Hv1 & Eb). apply wp_ret. exists A, []. apply mapped_full; try done; [unfold files; by rewrite Eui, Eu1, Eu2|by rewrite Eb]. }
  destruct Hr as (j & y & A1 & -> & Hj & HA & Hhj & Hv1 & [_ Ue1] & Hzb). apply wp_bind. eapply (wp_blkno_of parts usable dev); [exact Hhj|].
  destruct (held_data _ _ _ _ _ _ Hhj) as [d Hd]. replace (set_addr ip bn b) with (set_addr ip (Z.of_nat (Z.to_nat bn)) b) by (by rewrite Z2Nat.id by lia).
  eapply (wp_grow_root fuel _ u1 A (b :: F1) ip (Z.to_nat bn) b F1 j y z A1 d); try done.
  - unfold files. by rewrite Eui, Eu1, Eu2.
  - by rewrite Eui.
  - lia.
  - apply Hv.
  - rewrite Eu1, Eu2. apply Hv.
  - unfold levels. lia.
  - intros w A2 Hvw Hfw Hg Ewi Ew1 Ew2 Uew Hd2 Hb2.
    apply (wp_ahead _ _ (readdressed z (Z.to_nat bn) b)); [rewrite Ewi, Eui; apply list_lookup_insert_eq; by eapply lookup_lt_Some|
      unfold readdressed; fields; by rewrite length_insert|done|]. intros ra _. exists A2, F1.
    assert (Ew : at_path w A2 p = b) by (unfold at_path; rewrite Hg by (unfold valid; simpl; split_and!; [lia|lia|constructor]); by rewrite decide_True).
    rewrite Eui in Hg. rewrite <- (extend_nil p).
    eapply (mapped_after true _ v w A (b :: F1) A2 F1 b p []); try done.
    + rewrite extend_nil. unfold full, valid, levels. simpl. split_and!; [lia|lia|constructor|lia].
    + by rewrite Ew1.
    + by rewrite Ew2.
    + by rewrite Ewi, meta_readdressed, Eui by (by rewrite ?Eui).
    + by rewrite Uew.
    + intros q Hq. specialize (Hd2 q Hq). unfold at_path in Hd2 |- *. by rewrite Eui in Hd2.
    + intros _ Hclr. rewrite Hb2. specialize (Hzb Hclr). congruence.
    + rewrite extend_nil. apply mapped_same; try done; [by apply volume_rablock|left; by rewrite Ew].
Qed.

Lemma wp_set_error v e (Q : unit → vol → Prop) : Q tt (v<|bst ::= λ s, s<|u_error := e|>|>) → wp (set_error e) Q v.
Proof. done. Qed.
Lemma volume_error v A F e : volume v [] A F → volume (v<|bst ::= λ s, s<|u_error := e|>|>) [] A F.
Proof. intros Hv. split; try apply Hv. apply cache_error, Hv. Qed.

Lemma wp_bmap fuel rwflg flags v A F ip z bn :
  volume v [] A F → files v A F → inodes v !! ip = Some z → (NBUF + 2 ≤ fuel)%nat →
  wp (bmap fuel ip bn rwflg flags) (λ ret v',
    match locate bn with
    | None => ret = 0 ∧ u_error (bst v') = EFBIG ∧ inodes v' = inodes v ∧ volume v' [] A F ∧ files v' A F
    | Some (r, ix) => ∃ A' F', mapped (negb (rwflg =? B_READ)) (has flags B_CLRBUF) v A F (Path ip r ix) (missing (inodes v) (A dev) (Path ip r ix)) ret v' A' F'
    end) v.
Proof.
  intros Hv Hf Hz Hfu. unfold bmap. apply wp_bind, wp_gets. cbv zeta. destruct (Z.ltb_spec bn 0) as [Hneg|Hpos].
  { unfold locate. rewrite (proj2 (Z.ltb_lt bn 0)) by done. apply wp_bind, wp_set_error, wp_ret.
    split_and!; try done. by apply volume_error. }
  apply wp_bind, wp_modify. set (w := v<|rablock := 0|>). change (NADDR - 3) with 4.
  assert (Hvw : volume w [] A F) by (by apply volume_rablock). assert (Hfw : files w A F) by done.
  assert (Hzw : inodes w !! ip = Some z) by done. destruct (Z.ltb_spec bn 4) as [H4|H4].
  { assert (El : locate bn = Some (Z.to_nat bn, [])).
    { unfold locate. by rewrite (proj2 (Z.ltb_ge bn 0)), (proj2 (Z.ltb_lt bn 4)) by lia. }
    rewrite El. eapply wp_mono; [apply (wp_bmap_direct fuel rwflg flags w A F ip z bn); try done; by left|].
    intros ret v' (A' & F' & HM). exists A', F'. by eapply (mapped_before _ _ v w). }
  pose proof (bmap_level_locate bn H4) as HL. destruct (bmap_level 3 0 1 (bn - 4)) as [[j sh] b'].
  destruct (locate bn) as [[r ix]|] eqn:El.
  2:{ subst j. apply wp_bind, wp_set_error, wp_ret. split_and!; try done. by apply (volume_error w). }
  destruct HL as (H5 & H6 & -> & Hb' & -> & H7). rewrite (proj2 (Nat.eqb_neq j 0)) by lia.
  destruct (fo_inode _ _ _ _ _ _ Hf _ _ Hz) as [Hlen Hdz]. replace (NADDR - Z.of_nat j) with (Z.of_nat r) by (unfold NADDR, NDADDR, NIADDR; lia).
  destruct (lookup_lt_is_Some_2 (i_addr z) r) as [nb Hnb]; [lia|]. pose proof (root_at w A ip _ z nb Hz Hnb) as Hat.
  unfold inode_at. apply wp_bind, wp_bind, wp_gets. eapply wp_lift; [by apply rd_Done|]. apply wp_bind. unfold rdz at 1.
  rewrite (proj2 (Z.leb_le 0 _)) by lia. rewrite Nat2Z.id. eapply wp_lift; [by apply rd_Done|]. rewrite Hdz.
  set (p0 := Path ip r []) in *. set (k := (4 - j)%nat) in *.
  assert (Ep : Path ip r (digits k b') = extend p0 (digits k b')) by done. rewrite Ep.
  assert (Em : missing (inodes v) (A dev) (extend p0 (digits k b')) = if nb =? 0 then S (length (digits k b')) else missing_from (A dev) nb (digits k b')).
  { unfold missing. change (root _ _ _) with (at_path w A p0). by rewrite Hat. }
  rewrite Em. assert (Hp0 : valid p0) by (unfold valid; simpl; split_and!; [lia|lia|constructor]).
  destruct (Z.eqb_spec nb 0) as [->|Hne].
  2:{ rewrite <- Hat. eapply wp_mono; [apply (wp_bmap_fetch fuel rwflg flags _ k w A F p0 b' 0 z); try done; [split; by left|by rewrite Hat]|].
      intros ret v' (A' & F' & HM). exists A', F'. apply mapped_clr. by eapply (mapped_before _ _ v w). }
  apply wp_bind. destruct (rwflg =? B_READ) eqn:Erw; cbn [negb].
  { apply wp_ret, wp_ret. exists A, F. apply mapped_same; try done; [by right|by left]. }
  eapply wp_mono; [apply (wp_balloc parts usable dev fuel w [] A F ip (Z.lor flags B_CLRBUF) z); try done; vm_compute; lia|].
  intros rr u1 [Hr Su]. pose proof Su as (Eui & Eu1 & Eu2 & _). destruct F as [|b F1].
  { destruct Hr as (-> & Hv1 & Eb). apply wp_ret. exists A, []. apply mapped_full; try done; [unfold files; by rewrite Eui, Eu1, Eu2|by rewrite Eb|].
    rewrite node_extend. change (at_path v A p0) with (at_path w A p0). rewrite Hat. apply walk_0. }
  destruct Hr as (i & y & A1 & -> & Hj & HA & Hhj & Hv1 & [_ Ue1] & Hzb). apply wp_bind. eapply (wp_blkno_of parts usable dev); [exact Hhj|].
  eapply (wp_grow_root fuel _ u1 A (b :: F1) ip r b F1 i y z A1 zero_block); try done.
  - unfold files. by rewrite Eui, Eu1, Eu2.
  - by rewrite Eui.
  - lia.
  - apply Hv.
  - rewrite Eu1, Eu2. apply Hv.
  - apply Hzb. flag_simpl. done.
  - intros u2 A2 Hv2 Hf2 Hg Ewi Ew1 Ew2 Uew Hd2 Hb2. rewrite Eui in Hg.
    assert (Ew : at_path u2 A2 p0 = b) by (unfold at_path; rewrite (Hg p0 Hp0); by rewrite decide_True).
    assert (Hb0 : b ≠ 0) by (destruct (vo_bounds _ _ _ _ _ _ _ Hv); pose proof (vo_range _ _ _ _ _ _ _ Hv b ltac:(set_solver)); lia).
    rewrite <- Ew. eapply wp_mono; [eapply (wp_bmap_fetch fuel rwflg flags _ k u2 A2 F1 p0 b' 0); try done|].
    + rewrite Ewi, Eui. apply list_lookup_insert_eq. by eapply lookup_lt_Some.
    + by rewrite Erw.
    + by rewrite Ew.
    + intros ret v' (A' & F' & HM). exists A', F'. rewrite Ew, missing_zero in HM by done. rewrite Erw in HM. rewrite Ew. apply mapped_clr.
      eapply (mapped_after true _ v u2 A (b :: F1) A2 F1 b p0); try done.
      * by apply full_digits.
      * by rewrite Ew1.
      * by rewrite Ew2.
      * by rewrite Ewi, meta_readdressed, Eui by (by rewrite ?Eui).
      * by rewrite Uew.
      * intros q Hq. specialize (Hd2 q Hq). unfold at_path in Hd2 |- *. by rewrite Eui in Hd2.
Qed.

(** The block with the number [bn] in a file; 0: none. *)
Definition file_block v A (ip : nat) (bn : Z) : Z :=
  match locate bn with Some (r, ix) => at_path v A (Path ip r ix) | None => 0 end.

(** C5. [bmap] finds the block that the reference definition names, by the
    addresses in the inode and up to three levels of indirect blocks.  Asked
    for a block that is missing it returns -1 and changes nothing; told to
    write it, it adds exactly the missing indirect blocks and the block itself
    from the free list, or returns -1 with ENOSPC when too few are free, in
    which case the file is as before.  Every other block of every file stays
    where it was, with its contents, no block gets into two places, and the
    count of free blocks stays right.  A number no file can have fails with
    EFBIG. *)
Theorem bmap_correct (fuel : nat) (rwflg flags : Z) (v : vol) (A : Z → Z → block) (F : list Z) (ip : nat) (z : inode) (bn : Z) :
  volume v [] A F → files v A F → inodes v !! ip = Some z → (NBUF + 2 ≤ fuel)%nat →
  wp (bmap fuel ip bn rwflg flags) (λ ret v',
    match locate bn with
    | None => ret = 0 ∧ u_error (bst v') = EFBIG ∧ inodes v' = inodes v ∧ volume v' [] A F ∧ files v' A F
    | Some (r, ix) => ∃ A' F', mapped (negb (rwflg =? B_READ)) (has flags B_CLRBUF) v A F (Path ip r ix) (missing (inodes v) (A dev) (Path ip r ix)) ret v' A' F'
    end) v.
Proof. apply wp_bmap. Qed.

Lemma walk_found blk ix : ∀ b, b ≠ 0 → missing_from blk b ix = 0%nat → walk blk b ix ≠ 0.
Proof.
  induction ix as [|i ix IH]; intros b Hb; simpl; [done|]. rewrite (proj2 (Z.eqb_neq b 0)) by done.
  destruct (Z.eqb_spec (word (blk b) i) 0); [done|auto].
Qed.
Lemma missing_none v A ip r ix : missing (inodes v) (A dev) (Path ip r ix) = 0%nat ↔ at_path v A (Path ip r ix) ≠ 0.
Proof.
  unfold missing, at_path, node. simpl. destruct (Z.eqb_spec (root (inodes v) ip r) 0) as [->|Hn].
  - rewrite walk_0. split; [done|by intros []].
  - split; [by apply walk_found|]. intros Hw. destruct (decide (missing_from (A dev) (root (inodes v) ip r) ix = 0%nat)); [done|].
    exfalso. apply Hw. by apply walk_missing.
Qed.

(** Reading tells what is there. *)
Lemma wp_bmap_read fuel flags v A F ip z bn r ix :
  volume v [] A F → files v A F → inodes v !! ip = Some z → (NBUF + 2 ≤ fuel)%nat → locate bn = Some (r, ix) →
  wp (bmap fuel ip bn B_READ flags) (λ ret _, ret = if at_path v A (Path ip r ix) =? 0 then -1 else at_path v A (Path ip r ix)) v.
Proof.
  intros Hv Hf Hz Hfu El. eapply wp_mono; [by apply (wp_bmap fuel B_READ flags v A F ip z bn)|]. intros ret v' HM. rewrite El in HM.
  destruct HM as (A' & F' & [_ _ _ _ _ M]). unfold answer_ok in M. change (negb (B_READ =? B_READ)) with false in M. cbn [negb] in M.
  pose proof (missing_none v A ip r ix) as Hd.
  destruct (Nat.eqb_spec (missing (inodes v) (A dev) (Path ip r ix)) 0) as [E|E].
  - rewrite (proj2 (Z.eqb_neq _ _)) by (by apply Hd). by destruct M.
  - destruct (Z.eqb_spec (at_path v A (Path ip r ix)) 0) as [|Hn]; [by destruct M|]. by apply Hd in Hn.
Qed.

(** What was mapped is found again: after [bmap] for writing has returned
    the block [b], [bmap] for reading returns [b] for the same place in the
    same file, and for every other place in every file what it would have
    returned before. *)
Theorem bmap_roundtrip (fuel : nat) (flags flags' : Z) (v : vol) (A : Z → Z → block) (F : list Z) (ip ip' : nat) (z z' : inode) (bn bn' : Z) :
  volume v [] A F → files v A F → inodes v !! ip = Some z → inodes v !! ip' = Some z' → (NBUF + 2 ≤ fuel)%nat →
  locate bn ≠ None → locate bn' ≠ None →
  wp (b ← bmap fuel ip bn B_WRITE flags; c ← bmap fuel ip' bn' B_READ flags'; mret (b, c)) (λ bc _,
    bc.2 = if decide (ip' = ip ∧ bn' = bn) then bc.1
           else if file_block v A ip' bn' =? 0 then -1 else file_block v A ip' bn') v.
Proof.
  intros Hv Hf Hz Hz' Hfu Hl Hl'. unfold file_block. destruct (locate bn) as [[r ix]|] eqn:El; [|done].
  destruct (locate bn') as [[r' ix']|] eqn:El'; [|done]. apply wp_bind.
  eapply wp_mono; [by apply (wp_bmap fuel B_WRITE flags v A F ip z bn)|]. rewrite El. intros b v1 (A1 & F1 & [M1 M2 (M3 & M3' & M3'') M4 M5 M6]).
  destruct (lookup_lt_is_Some_2 (inodes v1) ip') as [z1 Hz1]; [apply (f_equal length) in M3''; rewrite !length_fmap in M3''; rewrite M3''; by eapply lookup_lt_Some|].
  apply wp_bind. eapply wp_mono; [by apply (wp_bmap_read fuel flags' v1 A1 F1 ip' z1 bn' r' ix')|].
  intros c v2 ->. apply wp_ret. simpl. destruct (decide (ip' = ip ∧ bn' = bn)) as [[-> ->]|Hne].
  - assert (r' = r ∧ ix' = ix) as [-> ->] by (split; congruence). unfold answer_ok in M6. change (negb (B_WRITE =? B_READ)) with true in M6. cbn [negb] in M6.
    destruct (Nat.eqb_spec (missing (inodes v) (A dev) (Path ip r ix)) 0) as [Em|Em].
    + destruct M6 as (-> & -> & _ & Ei & _). apply missing_none in Em. unfold at_path in *. rewrite Ei. by rewrite (proj2 (Z.eqb_neq _ _)).
    + destruct (_ <=? _)%nat.
      * destruct M6 as (R1%list_elem_of_lookup_2 & _ & R3 & _). rewrite R3. destruct (vo_bounds _ _ _ _ _ _ _ Hv).
        pose proof (vo_range _ _ _ _ _ _ _ Hv b R1). by rewrite (proj2 (Z.eqb_neq _ _)) by lia.
      * destruct M6 as (-> & _ & -> & _). done.
  - rewrite (M4 (Path ip' r' ix')); [done|by eapply locate_full|]. intros [= -> -> ->]. apply Hne. split; [done|]. by eapply locate_inj.
Qed.
End Bmap.

(** ** Examples *)
Lemma ex_word i : word (ex_A 1 11) i = if (i =? 0)%nat then 12 else 0.
Proof.
  change (ex_A 1 11) with (12 :: replicate 255 0). destruct i as [|i]; [done|]. change (word (replicate 255 0) i = 0).
  destruct (decide (i < 255)%nat) as [Hi|Hi].
  - apply word_lookup. by apply lookup_replicate_2.
  - unfold word. etransitivity; [apply (f_equal (default 0)), lookup_ge_None_2; rewrite length_replicate; lia|done].
Qed.
(** The blocks of the file. *)
Lemma ex_nodes p : valid p → node [ex_inode] (ex_A 1) p ≠ 0 →
  (p = Path 0 0 [] ∧ node [ex_inode] (ex_A 1) p = 10) ∨ (p = Path 0 4 [] ∧ node [ex_inode] (ex_A 1) p = 11) ∨
  (p = Path 0 4 [0%nat] ∧ node [ex_inode] (ex_A 1) p = 12).
Proof.
  destruct p as [[|k] r ix]; intros (Hr & Hl & _) Hn; [|exfalso; apply Hn, walk_0]. cbn [p_root p_idx] in Hr, Hl.
  destruct (decide (r = 0%nat)) as [->|H0]; [destruct ix; [by left|simpl in Hl; unfold levels in Hl; lia]|]. destruct (decide (r = 4%nat)) as [->|H4].
  - destruct ix as [|i [|j ix]]; [right; left; done| |simpl in Hl; unfold levels in Hl; lia].
    right. right. change (node _ _ _) with (word (ex_A 1 11) i) in Hn |- *. rewrite ex_word in Hn |- *.
    destruct (Nat.eqb_spec i 0) as [->|]; done.
  - exfalso. apply Hn. assert (E : root [ex_inode] 0 r = 0) by (do 7 (destruct r as [|r]; [done|]); lia).
    unfold node. simpl. by rewrite E, walk_0.
Qed.
Lemma ex_files : files 1 ex_vol ex_A ex_F.
Proof.
  split.
  - intros [|k] z Hz; [by injection Hz as <-|done].
  - intros p Hp Hn. change (inodes ex_vol) with [ex_inode] in *. destruct (ex_nodes p Hp Hn) as [[_ ->]|[[_ ->]|[_ ->]]]; (split; [simpl; lia|unfold ex_F; set_solver]).
  - change (inodes ex_vol) with [ex_inode]. intros p q Hp Hq Hn E. assert (Hn' : node [ex_inode] (ex_A 1) q ≠ 0) by congruence.
    destruct (ex_nodes p Hp Hn) as [[-> E1]|[[-> E1]|[-> E1]]], (ex_nodes q Hq Hn') as [[-> E2]|[[-> E2]|[-> E2]]]; congruence.
  - intros p Hp Hn Hl. destruct (ex_nodes p Hp Hn) as [[-> _]|[[-> E]|[-> _]]]; [simpl in Hl; unfold levels in Hl; lia| |simpl in Hl; unfold levels in Hl; lia].
    change (inodes ex_vol) with [ex_inode]. rewrite E. reflexivity.
Qed.
#[local] Existing Instance ex_volumes.
#[local] Existing Instance ex_good.
#[local] Existing Instance ex_alone.

Lemma bmap_correct_witness :
  let D := ex_disks true in let N := ex_naps in wp (bmap 12 0 5 B_WRITE 0) (λ b v', b = 51) ex_vol.
Proof.
  intros D N. eapply wp_mono.
  - apply (bmap_correct ex_parts ex_usable 1 12 B_WRITE 0 ex_vol ex_A ex_F 0 ex_inode 5 ex_volume ex_files); [reflexivity|unfold NBUF; simpl; lia].
  - intros b v'. change (locate 5) with (Some (4%nat, [1%nat])). intros (A' & F' & [_ _ _ _ _ (R & _)]).
    by injection R.
Defined.
Lemma bmap_roundtrip_witness :
  let D := ex_disks true in let N := ex_naps in
  wp (b ← bmap 12 0 5 B_WRITE 0; c ← bmap 12 0 4 B_READ 0; mret (b, c)) (λ bc _, bc.2 = 12) ex_vol.
Proof.
  intros D N. eapply wp_mono.
  - apply (bmap_roundtrip ex_parts ex_usable 1 12 0 0 ex_vol ex_A ex_F 0 0 ex_inode ex_inode 5 4 ex_volume ex_files);
      [reflexivity|reflexivity|unfold NBUF; simpl; lia|done|done].
  - intros [b c] v'. simpl. by intros ->.
Defined.
