(* ===== verification/Rwip.v ===== *)
(** * Reading and writing files

    [iupdat], [trsingle], [indirtrunc] and [itrunc] of kernel/ufs_inode.c,
    [uiomove] of kernel/kern_subr.c, and [rwip], [rdwri] and [ino_rw] of
    kernel/sys_inode.c, over the block map of [Ufs]. *)
From stdpp Require Import base tactics list option strings numbers gmap.
From S2P Require Import Prelude Bio Ufs.
Open Scope Z_scope.

(** ** Data *)
Definition INOPB : Z := 16.
Definition MAXPIPSIZ : Z := NDADDR * 1024.
Definition MNT_NOATIME : Z := 0x0080.
Definition IACC : Z := 0x4.
Definition IMOD : Z := 0x400.
Definition IPIPE : Z := 0x1000.
Definition IFMT : Z := 0xf000.
Definition IFCHR : Z := 0x2000.
Definition IFDIR : Z := 0x4000.
Definition IFBLK : Z := 0x6000.
Definition IFREG : Z := 0x8000.
Definition IFLNK : Z := 0xa000.
Definition ISUID : Z := 0x800.
Definition ISGID : Z := 0x400.
Definition IO_UNIT : Z := 0x01.
Definition IO_APPEND : Z := 0x02.
Definition IO_SYNC : Z := 0x04.
Definition IO_NDELAY : Z := 0x10.
Definition MNT_SYNCHRONOUS : Z := 0x0002.
Definition ILOCKED : Z := 0x1.
Definition IWANT : Z := 0x10.
Definition FNONBLOCK : Z := 0x0004.
Definition FAPPEND : Z := 0x0008.
Definition FFSYNC : Z := 0x0080.
Definition APPEND : Z := 0x404.
Definition EPERM : Z := 1.
Definition EFTYPE : Z := 79.
Definition SIGXFSZ : Z := 25.

Definition itoo (x : Z) : Z := (x + INOPB - 1) mod INOPB.
Definition itod (x : Z) : Z := (x + INOPB - 1) / INOPB.
Definition blkoff (loc : Z) : Z := Z.land loc 1023.
Definition lblkno (loc : Z) : Z := Z.shiftr (u32 loc) 10.

(** The bytes of a block, of which the words are kept, the low byte first; a
    block given by fewer words ends in zeros. *)
Definition bytes_of_word (w : Z) : list Z := [u8 w; u8 (Z.shiftr w 8); u8 (Z.shiftr w 16); u8 (Z.shiftr w 24)].
Definition bytes_of (d : list Z) : list Z := mjoin (bytes_of_word <$> d).
Definition block_bytes (d : block) : list Z := bytes_of (resize 256 0 d).
Definition word_of (a b c e : Z) : Z := s32 (a + 256 * b + 65536 * c + 16777216 * e).
Fixpoint words_of (l : list Z) : list Z :=
  match l with a :: b :: c :: e :: l => word_of a b c e :: words_of l | _ => [] end.

(** [bcopy] out of and into the memory of a buffer. *)
Definition peek_buf (bp : nat) (on n : Z) : M (list Z) := d ← load bp; lift (peek (block_bytes d) on n).
Definition poke_buf (bp : nat) (on : Z) (new : list Z) : M unit :=
  d ← load bp; l ← lift (poke (block_bytes d) on new); store bp (words_of l).

(** [struct dinode]: its sixteen words. *)
Definition dinode_words (z : inode) (reserved : Z) : list Z :=
  [s32 (i_mode z + 65536 * i_nlink z); s32 (i_uid z); s32 (i_gid z); i_size z] ++ i_addr z ++
  [reserved; s32 (i_flags z); i_atime z; i_mtime z; i_ctime z].

(** ** Truncation *)
Section Trunc.
Context `{Disks, Naps} (fuel : nat).

Definition iupdat (ip : nat) (ta tm : Z) (waitfor : bool) : V unit :=
  z ← inode_at ip;
  f ← gets sb;
  if negb (has (i_flag z) (Z.lor (Z.lor IUPD IACC) (Z.lor ICHG IMOD))) then mret tt
  else if negb (fs_ronly f =? 0) then mret tt
  else
    bp ← on_cache (bread fuel (i_dev z) (itod (i_number z)));
    x ← on_cache (buf_at bp);
    if has (b_flags x) B_ERROR then on_cache (brelse bp)
    else
      (if has (i_flag z) IACC then set_inode ip (λ z, z<|i_atime := ta|>) else mret tt);;
      (if has (i_flag z) IUPD then set_inode ip (λ z, z<|i_mtime := tm|>) else mret tt);;
      t ← gets tv_sec;
      (if has (i_flag z) ICHG then set_inode ip (λ z, z<|i_ctime := t|>) else mret tt);;
      set_inode ip (λ z, z<|i_flag ::= λ g, bic g (Z.lor (Z.lor IUPD IACC) (Z.lor ICHG IMOD))|>);;
      z ← inode_at ip;
      d ← on_cache (load bp);
      let d := resize 256 0 d in
      let o := (16 * Z.to_nat (itoo (i_number z)))%nat in
      r ← lift (rd d (o + 11));
      on_cache (store bp (splice d o (dinode_words z r)));;
      if waitfor && negb (has (fs_flags f) MNT_ASYNC) then on_cache (bwrite fuel bp) else on_cache (bdwrite fuel bp).

(** The indices from [NINDIR - 1] down to [last + 1]. *)
Definition above (last : Z) : list nat := reverse (seq (Z.to_nat (last + 1)) (256 - Z.to_nat (last + 1))).

(** [for (...) if ( *bstart) free (ip, *bstart)], with what is done before
    the block is freed. *)
Fixpoint free_entries (ip bp : nat) (below : Z → V unit) (is_ : list nat) : V unit :=
  match is_ with
  | [] => mret tt
  | i :: is_ =>
      d ← on_cache (load bp); nb ← lift (rd d i);
      (if nb =? 0 then mret tt else below nb;; free fuel ip nb);;
      free_entries ip bp below is_
  end.
Definition trsingle (ip bp : nat) (last : Z) : V unit := free_entries ip bp (λ _, mret tt) (above last).

(** [level] 0: the block holds addresses of data. *)
Fixpoint indirtrunc (level : nat) (ip : nat) (bn lastbn aflags : Z) : V unit :=
  let factor := 256 ^ Z.of_nat level in
  let last := if 0 <? lastbn then lastbn / factor else lastbn in
  z ← inode_at ip;
  bp ← on_cache (bread fuel (i_dev z) bn);
  x ← on_cache (buf_at bp);
  if has (b_flags x) B_ERROR then on_cache (brelse bp)
  else
    cpy ← on_cache (geteblk fuel);
    d ← on_cache (load bp); on_cache (store cpy d);;
    on_cache (store bp (take (Z.to_nat (last + 1)) d ++ replicate (256 - Z.to_nat (last + 1)) 0));;
    (if has aflags B_SYNC then on_cache (bwrite fuel bp) else on_cache (bawrite fuel bp));;
    match level with
    | O => trsingle ip cpy last
    | S level' =>
        free_entries ip cpy (λ nb, indirtrunc level' ip nb (-1) aflags) (above last);;
        if 0 <=? lastbn then
          d ← on_cache (load cpy); nb ← lift (rdz d last);
          if nb =? 0 then mret tt else indirtrunc level' ip nb (lastbn mod factor) aflags
        else mret tt
    end;;
    on_cache (brelse cpy).

(** [oip->i_ib[level]] and [oip->i_db[i]] are [i_addr[4 + level]] and
    [i_addr[i]]. *)
Definition clear_addr (ip i : nat) : V unit :=
  z ← inode_at ip; l ← lift (wr (i_addr z) i 0); set_inode ip (λ z, z<|i_addr := l|>).

(** [for (level = TRIPLE; level >= SINGLE; level--)]: the trees that are not
    kept at all leave the inode. *)
Fixpoint clear_trees (ip : nat) (n : nat) (lastiblock : nat → Z) : V unit :=
  match n with
  | O => mret tt
  | S level => (if lastiblock level <? 0 then clear_addr ip (4 + level) else mret tt);; clear_trees ip level lastiblock
  end.
(** [for (i = NDADDR - 1; i > lastblock; i--)] *)
Fixpoint clear_direct (ip : nat) (n : nat) (lastblock : Z) : V unit :=
  match n with
  | O => mret tt
  | S i => if lastblock <? Z.of_nat i then clear_addr ip i;; clear_direct ip i lastblock else mret tt
  end.
(** The trees of the copy [tip] of the inode are freed; [true]: a tree is
    partly kept, and nothing below it is touched. *)
Fixpoint free_trees (ip : nat) (tip : inode) (n : nat) (lastiblock : nat → Z) (aflags : Z) : V bool :=
  match n with
  | O => mret false
  | S level =>
      bn ← lift (rd (i_addr tip) (4 + level));
      let last := if lastiblock level <? 0 then -1 else lastiblock level in
      (if bn =? 0 then mret tt
       else indirtrunc level ip bn last aflags;; if last <? 0 then free fuel ip bn else mret tt);;
      if 0 <=? last then mret true else free_trees ip tip level lastiblock aflags
  end.
Fixpoint free_direct (ip : nat) (tip : inode) (n : nat) (lastblock : Z) : V unit :=
  match n with
  | O => mret tt
  | S i =>
      if lastblock <? Z.of_nat i then
        bn ← lift (rd (i_addr tip) i);
        (if bn =? 0 then mret tt else free fuel ip bn);;
        free_direct ip tip i lastblock
      else mret tt
  end.

(** [updret]: the inode is marked and written. *)
Definition itrunc_end (oip : nat) : V unit :=
  set_inode oip (λ z, z<|i_flag ::= λ g, Z.lor g (Z.lor ICHG IUPD)|>);;
  t ← gets tv_sec; iupdat oip t t true.

(** The end of the last block that is kept is cleared; [false]: failed. *)
Definition clear_tail (oip : nat) (length aflags : Z) : V bool :=
  let offset := blkoff length in
  if offset =? 0 then mret true
  else
    bn ← bmap fuel oip (lblkno length) B_WRITE aflags;
    e ← gets (λ v, u_error (bst v));
    if negb (e =? 0) || (bn <? 0) then mret false
    else
      z ← inode_at oip;
      bp ← on_cache (bread fuel (i_dev z) bn);
      x ← on_cache (buf_at bp);
      if has (b_flags x) B_ERROR then set_error EIO;; on_cache (brelse bp);; mret false
      else
        on_cache (poke_buf bp offset (replicate (Z.to_nat (1024 - offset)) 0));;
        on_cache (bdwrite fuel bp);; mret true.

Definition itrunc (oip : nat) (length ioflags : Z) : V unit :=
  let aflags := if has ioflags IO_SYNC then Z.lor B_CLRBUF B_SYNC else B_CLRBUF in
  z ← inode_at oip;
  same ← (if has (i_flag z) IPIPE then set_inode oip (λ z, z<|i_size := MAXPIPSIZ|>);; mret false
          else mret (u32 (i_size z) =? length));
  if (same : bool) then itrunc_end oip
  else
    z ← inode_at oip;
    if u32 (i_size z) <? length then
      bn ← bmap fuel oip (lblkno (length - 1)) B_WRITE aflags;
      e ← gets (λ v, u_error (bst v));
      if negb (e =? 0) || (bn <? 0) then mret tt
      else set_inode oip (λ z, z<|i_size := s32 length|>);; itrunc_end oip
    else
      let lastblock := s32 (lblkno (length + 1023) - 1) in
      let lastiblock level := s32 (lastblock - nth level [4; 4 + 256; 4 + 256 + 65536] 0) in
      ok ← clear_tail oip length aflags;
      if negb ok then mret tt
      else
        tip ← inode_at oip;
        set_inode oip (λ z, z<|i_size := s32 length|>);;
        clear_trees oip 3 lastiblock;;
        clear_direct oip 4 lastblock;;
        kept ← free_trees oip tip 3 lastiblock aflags;
        (if (kept : bool) then mret tt else free_direct oip tip 4 lastblock);;
        itrunc_end oip.
End Trunc.

(** ** Transfers

    [struct uio] ([uio_iov]: base and length of the parts of user memory), the
    memory of the program, the user and the limit of the process, and the
    signals it was sent. *)
Record fio := Fio {
  fvol : vol;
  uio_iov : list (Z * Z);
  uio_offset : Z;
  uio_resid : Z;
  umem : list Z;
  u_ruid : Z;
  fsize_cur : Z;
  posted : list Z }.
#[global] Instance eta_fio : Eta fio := λ f,
  Fio (fvol f) (uio_iov f) (uio_offset f) (uio_resid f) (umem f) (u_ruid f) (fsize_cur f) (posted f).

Notation X := (K fio).
Definition on_vol {T} (m : V T) : X T := λ f,
  match m (fvol f) with
  | Done (x, v) => Done (x, f<|fvol := v|>)
  | Panic msg => Panic msg
  | Wild => Wild
  | Spin => Spin
  end.
Definition in_cache {T} (m : M T) : X T := on_vol (on_cache m).

(** The read and write routines of the character devices: the device, whether
    to write, and the flags. *)
Class Chardevs := cdev_rw : Z → bool → Z → X Z.

(** [n] bytes between the buffer, from its byte [on] on, and the program. *)
Fixpoint uiomove_loop (k : nat) (write : bool) (bp : nat) (on n : Z) : X unit :=
  r ← gets uio_resid;
  if (n <=? 0) || (r =? 0) then mret tt
  else
    match k with
    | O => lift Spin
    | S k =>
        iov ← gets uio_iov;
        match iov with
        | [] => lift Wild
        | (base, len) :: rest =>
            if len =? 0 then modify (λ f, f<|uio_iov := rest|>);; uiomove_loop k write bp on n
            else
              let cnt := if n <? len then n else len in
              (if write then
                 m ← gets umem; l ← lift (peek m base cnt); in_cache (poke_buf bp on l)
               else
                 l ← in_cache (peek_buf bp on cnt);
                 m ← gets umem; m ← lift (poke m base l); modify (λ f, f<|umem := m|>));;
              modify (λ f, f<|uio_iov := (base + cnt, len - cnt) :: rest|>);;
              modify (λ f, f<|uio_resid ::= λ r, u32 (r - cnt)|>);;
              modify (λ f, f<|uio_offset ::= λ o, s32 (o + cnt)|>);;
              uiomove_loop k write bp (on + cnt) (n - cnt)
        end
    end.
Definition uiomove (write : bool) (bp : nat) (on n : Z) : X Z :=
  iov ← gets uio_iov; uiomove_loop (length iov + Z.to_nat n) write bp on n;; mret 0.

(** ** [rwip] *)
Section Rwip.
Context `{Disks, Naps, Chardevs} (fuel : nat).

(** [ip->i_rdev] lies over the second address of the inode. *)
Definition i_rdev (z : inode) : outcome Z := rd (i_addr z) 1.

(** The part of the loop before a buffer is got: the length and the block, or
    a result to return at once. *)
Definition rw_map (ip : nat) (write : bool) (type flags lbn n : Z) : X (Z + Z * Z) :=
  off ← gets uio_offset;
  z ← on_vol (inode_at ip);
  if type =? IFBLK then on_vol (modify (λ v, v<|rablock := lbn + 1|>));; mret (inr (n, lbn))
  else
    let diff := s32 (i_size z - off) in
    if negb write && (diff <=? 0) then mret (inl 0)
    else
      let n := if negb write && (diff <? n) then diff else n in
      bn ← on_vol (if write then bmap fuel ip lbn B_WRITE (if n =? 1024 then flags else Z.lor flags B_CLRBUF)
                   else bmap fuel ip lbn B_READ flags);
      e ← gets (λ f, u_error (bst (fvol f)));
      if negb (e =? 0) || (write && (bn <? 0)) then mret (inl e)
      else
        z ← on_vol (inode_at ip);
        (if write && (i_size z <? s32 (off + n)) && ((type =? IFDIR) || (type =? IFREG) || (type =? IFLNK))
         then on_vol (set_inode ip (λ z, z<|i_size := s32 (off + n)|>)) else mret tt);;
        mret (inr (n, bn)).

(** The buffer with the block. *)
Definition rw_buf (ip : nat) (write : bool) (dev lbn bn n : Z) : X nat :=
  if negb write then
    z ← on_vol (inode_at ip);
    ra ← gets (λ f, rablock (fvol f));
    bp ← (if bn <? 0 then bp ← in_cache (geteblk fuel); on_vol (clear_block bp);; mret bp
          else if i_lastr z + 1 =? lbn then in_cache (breada fuel dev bn ra)
          else in_cache (bread fuel dev bn));
    on_vol (set_inode ip (λ z, z<|i_lastr := lbn|>));;
    mret bp
  else
    bp ← (if n =? 1024 then in_cache (getblk fuel dev bn) else in_cache (bread fuel dev bn));
    x ← in_cache (buf_at bp);
    (if b_resid x =? 1024 then in_cache (setb bp (λ b, b<|b_resid := 0|>));; on_vol (clear_block bp) else mret tt);;
    mret bp.

(** The buffer is given back. *)
Definition rw_release (ip : nat) (write : bool) (ioflag n on : Z) (bp : nat) : X unit :=
  z ← on_vol (inode_at ip);
  if negb write then
    off ← gets uio_offset;
    (if (n + on =? 1024) || (off =? i_size z) then
       in_cache (set_flags bp B_AGE);;
       if has (i_flag z) IPIPE then in_cache (clear_flags bp B_DELWRI) else mret tt
     else mret tt);;
    in_cache (brelse bp)
  else
    (if has ioflag IO_SYNC then in_cache (bwrite fuel bp)
     else if (n + on =? 1024) && negb (has (i_flag z) IPIPE) then in_cache (set_flags bp B_AGE);; in_cache (bawrite fuel bp)
     else in_cache (bdwrite fuel bp));;
    on_vol (set_inode ip (λ z, z<|i_flag ::= λ g, Z.lor g (Z.lor IUPD ICHG)|>));;
    r ← gets u_ruid;
    if negb (r =? 0) then on_vol (set_inode ip (λ z, z<|i_mode ::= λ m, bic m (Z.lor ISUID ISGID)|>)) else mret tt.

(** The loop; [inl]: return at once, [inr]: go on with this error. *)
Fixpoint rwip_loop (k : nat) (ip : nat) (write : bool) (type dev ioflag flags : Z) : X (Z + Z) :=
  match k with
  | O => lift Spin
  | S k =>
      off ← gets uio_offset;
      resid ← gets uio_resid;
      let lbn := lblkno off in
      let on := blkoff off in
      r ← rw_map ip write type flags lbn (Z.min (1024 - on) resid);
      match r with
      | inl e => mret (inl e)
      | inr (n, bn) =>
          bp ← rw_buf ip write dev lbn bn n;
          x ← in_cache (buf_at bp);
          let n := Z.min n (1024 - b_resid x) in
          if has (b_flags x) B_ERROR then in_cache (brelse bp);; mret (inr EIO)
          else
            e ← uiomove write bp on n;
            on_vol (set_error e);;
            rw_release ip write ioflag n on bp;;
            e ← gets (λ f, u_error (bst (fvol f)));
            resid ← gets uio_resid;
            if (e =? 0) && negb (resid =? 0) && negb (n =? 0) then rwip_loop k ip write type dev ioflag flags
            else mret (inr 0)
      end
  end.

(** [ip->i_flag |= IACC] unless the file system is mounted so. *)
Definition mark_access (ip : nat) : V unit :=
  f ← gets sb;
  if negb (has (fs_flags f) MNT_NOATIME) then set_inode ip (λ z, z<|i_flag ::= λ g, Z.lor g IACC|>) else mret tt.

(** The checks of the first part: an error to return, or the flags. *)
Definition rw_check (ip : nat) (write : bool) (type ioflag : Z) : X (Z + Z) :=
  if negb write then on_vol (mark_access ip);; mret (inr ioflag)
  else if type =? IFREG then
    z ← on_vol (inode_at ip);
    (if has ioflag IO_APPEND then modify (λ f, f<|uio_offset := i_size z|>) else mret tt);;
    off ← gets uio_offset;
    if has (i_flags z) APPEND && negb (off =? i_size z) then mret (inl EPERM) else mret (inr ioflag)
  else if type =? IFDIR then mret (inr (Z.lor ioflag IO_SYNC))
  else if (type =? IFLNK) || (type =? IFBLK) || (type =? IFCHR) then mret (inr ioflag)
  else mret (inl EFTYPE).

(** A character device. *)
Definition rw_chr (ip : nat) (write : bool) (dev ioflag : Z) : X Z :=
  (if negb write then on_vol (mark_access ip)
   else on_vol (set_inode ip (λ z, z<|i_flag ::= λ g, Z.lor g (Z.lor IUPD ICHG)|>)));;
  cdev_rw dev write ioflag.

(** The loop and what follows it. *)
Definition rw_transfer (ip : nat) (write : bool) (type dev ioflag : Z) : X Z :=
  resid ← gets uio_resid;
  z ← on_vol (inode_at ip);
  let osize := i_size z in
  r ← rwip_loop (S (Z.to_nat resid)) ip write type dev ioflag (if has ioflag IO_SYNC then B_SYNC else 0);
  match r with
  | inl e => mret e
  | inr error =>
      e ← gets (λ f, u_error (bst (fvol f)));
      let error := if error =? 0 then e else error in
      (if negb (error =? 0) && write && has ioflag IO_UNIT && negb (type =? IFBLK) then
         on_vol (itrunc fuel ip (u32 osize) (Z.land ioflag IO_SYNC));;
         modify (λ f, f<|uio_offset := s32 (uio_offset f - (resid - uio_resid f))|>);;
         modify (λ f, f<|uio_resid := resid|>)
       else mret tt);;
      mret error
  end.

Definition rwip (ip : nat) (write : bool) (ioflag : Z) : X Z :=
  z ← on_vol (inode_at ip);
  dev ← lift (i_rdev z);
  let type := Z.land (i_mode z) IFMT in
  r ← rw_check ip write type ioflag;
  match r with
  | inl e => mret e
  | inr ioflag =>
      fl ← gets (λ f, fs_flags (sb (fvol f)));
      let ioflag := if (type =? IFREG) || ((type =? IFDIR) && has fl MNT_ASYNC) then bic ioflag IO_SYNC else ioflag in
      if type =? IFCHR then rw_chr ip write dev ioflag
      else
        resid ← gets uio_resid;
        off ← gets uio_offset;
        lim ← gets fsize_cur;
        if resid =? 0 then mret 0
        else if write && (type =? IFREG) && (u32 lim <? u32 (off + resid)) then
          modify (λ f, f<|posted ::= cons SIGXFSZ|>);; mret EFBIG
        else rw_transfer ip write type (if type =? IFBLK then dev else i_dev z) ioflag
  end.

(** [rdwri]: the error and the bytes left. *)
Definition rdwri (write : bool) (ip : nat) (base len offset ioflg : Z) (aresid : bool) : X (Z * Z) :=
  modify (λ f, f<|uio_iov := [(base, u32 len)]|><|uio_resid := u32 len|><|uio_offset := offset|>);;
  error ← rwip ip write ioflg;
  r ← gets uio_resid;
  mret (if negb aresid && negb (r =? 0) then EIO else error, r).

(** ** [ino_rw] *)

(** [ILOCK] and [IUNLOCK]; a process that finds the inode locked waits, at
    most [n] times. *)
Fixpoint ilock (n : nat) (ip : nat) : V unit :=
  z ← inode_at ip;
  if has (i_flag z) ILOCKED then
    match n with
    | O => lift Spin
    | S n => set_inode ip (λ z, z<|i_flag ::= λ g, Z.lor g IWANT|>);; nap (INODE ip);; ilock n ip
    end
  else set_inode ip (λ z, z<|i_flag ::= λ g, Z.lor g ILOCKED|>).
Definition iunlock (ip : nat) : V unit :=
  set_inode ip (λ z, z<|i_flag ::= λ g, bic g ILOCKED|>);;
  z ← inode_at ip;
  if has (i_flag z) IWANT then set_inode ip (λ z, z<|i_flag ::= λ g, bic g IWANT|>);; tell (Woke (INODE ip)) else mret tt.

Definition is_chr (ip : nat) : V bool := z ← inode_at ip; mret (Z.land (i_mode z) IFMT =? IFCHR).

(** The error and the new offset of the open file. *)
Definition ino_rw (n : nat) (ip : nat) (write : bool) (f_flag f_offset : Z) : X (Z * Z) :=
  c ← on_vol (is_chr ip);
  (if (c : bool) then mret tt else on_vol (ilock n ip));;
  modify (λ f, f<|uio_offset := f_offset|>);;
  count ← gets uio_resid;
  r ← (if negb write then
         error ← rwip ip false (if has f_flag FNONBLOCK then IO_NDELAY else 0);
         resid ← gets uio_resid;
         mret (error, s32 (f_offset + (count - resid)))
       else
         z ← on_vol (inode_at ip);
         fl ← gets (λ f, fs_flags (sb (fvol f)));
         let ioflag := if (Z.land (i_mode z) IFMT =? IFREG) && has f_flag FAPPEND then IO_APPEND else 0 in
         let ioflag := if has f_flag FNONBLOCK then Z.lor ioflag IO_NDELAY else ioflag in
         let ioflag := if has f_flag FFSYNC || has fl MNT_SYNCHRONOUS then Z.lor ioflag IO_SYNC else ioflag in
         error ← rwip ip true ioflag;
         if has ioflag IO_APPEND then off ← gets uio_offset; mret (error, off)
         else resid ← gets uio_resid; mret (error, s32 (f_offset + (count - resid))));
  c ← on_vol (is_chr ip);
  (if (c : bool) then mret tt else on_vol (iunlock ip));;
  mret r.
End Rwip.
