(* ===== verification/Fileio.v ===== *)
(** * Files as arrays of bytes

    [rwip] reads and writes the bytes of a file through the block map, the
    allocator and the buffer cache. *)
From stdpp Require Import base tactics list option strings numbers gmap.
From S2P Require Import Prelude Ring Bio Cache Store Ufs Alloc Bmap Rwip.
Open Scope Z_scope.

(** ** Bytes *)
Definition is_byte (b : Z) : Prop := 0 ≤ b < 256.

Lemma u8_word a b c e : is_byte a → is_byte b → is_byte c → is_byte e → bytes_of_word (word_of a b c e) = [a; b; c; e].
Proof.
  unfold is_byte. intros Ha Hb Hc He. unfold bytes_of_word. rewrite !Z.shiftr_div_pow2 by lia. unfold u8, word_of, s32.
  set (w := a + 256 * b + 65536 * c + 16777216 * e). assert (Hw : 0 ≤ w < 2 ^ 32) by (unfold w; lia).
  assert (E : (w + 2 ^ 31) mod 2 ^ 32 - 2 ^ 31 = w ∨ (w + 2 ^ 31) mod 2 ^ 32 - 2 ^ 31 = w - 2 ^ 32).
  { destruct (decide (w < 2 ^ 31)); [left; rewrite Z.mod_small; lia|right].
    replace (w + 2 ^ 31) with (w - 2 ^ 31 + 1 * 2 ^ 32) by lia. rewrite Z.mod_add, Z.mod_small; lia. }
  change (2 ^ 8) with 256. change (2 ^ 16) with 65536. change (2 ^ 24) with 16777216.
  assert (D : w / 256 = b + 256 * c + 65536 * e ∧ w / 65536 = c + 256 * e ∧ w / 16777216 = e).
  { unfold w. split_and!; [symmetry; apply (Z.div_unique _ _ _ a)|symmetry; apply (Z.div_unique _ _ _ (a + 256 * b))|
      symmetry; apply (Z.div_unique _ _ _ (a + 256 * b + 65536 * c))]; lia. }
  destruct D as (D1 & D2 & D3).
  assert (D' : (w - 2 ^ 32) / 256 = b + 256 * c + 65536 * e - 2 ^ 24 ∧ (w - 2 ^ 32) / 65536 = c + 256 * e - 2 ^ 16 ∧ (w - 2 ^ 32) / 16777216 = e - 2 ^ 8).
  { unfold w. split_and!; [symmetry; apply (Z.div_unique _ _ _ a)|symmetry; apply (Z.div_unique _ _ _ (a + 256 * b))|
      symmetry; apply (Z.div_unique _ _ _ (a + 256 * b + 65536 * c))]; lia. }
  destruct D' as (D4 & D5 & D6).
  destruct E as [-> | ->]; rewrite ?D1, ?D2, ?D3, ?D4, ?D5, ?D6; unfold w; repeat f_equal; symmetry.
  - apply (Z.mod_unique _ _ (b + 256 * c + 65536 * e)); lia.
  - apply (Z.mod_unique _ _ (c + 256 * e)); lia.
  - apply (Z.mod_unique _ _ e); lia.
  - apply (Z.mod_unique _ _ 0); lia.
  - apply (Z.mod_unique _ _ (b + 256 * c + 65536 * e - 16777216)); lia.
  - apply (Z.mod_unique _ _ (c + 256 * e - 65536)); lia.
  - apply (Z.mod_unique _ _ (e - 256)); lia.
  - apply (Z.mod_unique _ _ (-1)); lia.
Qed.

Lemma bytes_of_cons w d : bytes_of (w :: d) = bytes_of_word w ++ bytes_of d.
Proof. done. Qed.
Lemma bytes_of_length d : length (bytes_of d) = (4 * length d)%nat.
Proof. induction d as [|w d IH]; [done|]. rewrite bytes_of_cons, length_app, IH. simpl. lia. Qed.
Lemma bytes_of_bytes d : Forall is_byte (bytes_of d).
Proof.
  induction d as [|w d IH]; [constructor|]. rewrite bytes_of_cons. apply Forall_app. split; [|done].
  unfold bytes_of_word. repeat constructor; apply u8_range.
Qed.
Lemma words_of_bytes n : ∀ l, length l = (4 * n)%nat → Forall is_byte l → length (words_of l) = n ∧ bytes_of (words_of l) = l.
Proof.
  induction n as [|n IH]; intros l Hl Hb; [by destruct l|].
  destruct l as [|a [|b [|c [|e l]]]]; simpl in Hl; try lia.
  apply Forall_cons in Hb as [Ha Hb]. apply Forall_cons in Hb as [Hb1 Hb]. apply Forall_cons in Hb as [Hb2 Hb]. apply Forall_cons in Hb as [Hb3 Hb].
  destruct (IH l ltac:(lia) Hb) as [E1 E2]. cbn [words_of]. split; [simpl; by rewrite E1|].
  rewrite bytes_of_cons, u8_word by done. by rewrite E2.
Qed.

Lemma block_bytes_length d : length (block_bytes d) = 1024%nat.
Proof. unfold block_bytes. by rewrite bytes_of_length, length_resize. Qed.
Lemma block_bytes_bytes d : Forall is_byte (block_bytes d).
Proof. apply bytes_of_bytes. Qed.
Lemma block_bytes_words l : length l = 1024%nat → Forall is_byte l → block_bytes (words_of l) = l.
Proof.
  intros Hl Hb. destruct (words_of_bytes 256 l Hl Hb) as [E1 E2]. unfold block_bytes. by rewrite resize_all_alt.
Qed.
Lemma block_bytes_zero : block_bytes zero_block = replicate 1024 0.
Proof. vm_compute. reflexivity. Qed.

Lemma splice_bytes l on new : Forall is_byte l → Forall is_byte new → Forall is_byte (splice l on new).
Proof. intros Hl Hn. unfold splice. repeat apply Forall_app_2; [by apply Forall_take|done|by apply Forall_drop]. Qed.

(** ** Contents *)
Section Contents.
Context (dev lo hi : Z).
Implicit Types (l : list inode) (A : Z → Z → block) (F : list Z) (p q : path).

(** The contents of a data block do not matter for the trees. *)
Lemma node_data l A F p d q : forest dev lo hi l A F → full p → node l (A dev) p ≠ 0 → valid q →
  node l (upd A dev (node l (A dev) p) d dev) q = node l (A dev) q.
Proof.
  intros Hf [Hp Hl] Hn. pattern q. apply path_ind; clear q; [done|]. intros q i IH Hv. destruct (valid_child _ _ Hv) as (Hq & _ & Hlt).
  rewrite !node_child, (IH Hq). destruct (Z.eqb_spec (node l (A dev) q) 0) as [|Hnq]; [done|]. rewrite upd_other; [done|].
  intros [_ E]. assert (q = p) as -> by (by eapply fo_once). lia.
Qed.
Lemma forest_data l A F p d : forest dev lo hi l A F → full p → node l (A dev) p ≠ 0 →
  forest dev lo hi l (upd A dev (node l (A dev) p) d) F.
Proof.
  intros Hf Hp Hn. assert (E := λ q, node_data l A F p d q Hf Hp Hn). split.
  - apply Hf.
  - intros q Hq. rewrite (E q Hq). by apply (fo_range _ _ _ _ _ _ Hf).
  - intros q r Hq Hr. rewrite (E q Hq), (E r Hr). by apply (fo_once _ _ _ _ _ _ Hf).
  - intros q Hq. rewrite (E q Hq). intros Hnq Hl. rewrite upd_other; [by apply (fo_whole _ _ _ _ _ _ Hf)|].
    intros [_ E']. assert (q = p) as -> by (by eapply (fo_once _ _ _ _ _ _ Hf); [|apply Hp| |]). destruct Hp as [_ Hp]. lia.
Qed.
(** Nor do the other fields of an inode. *)
Lemma node_inode l blk k z z' q : l !! k = Some z → i_addr z' = i_addr z → node (<[k := z']> l) blk q = node l blk q.
Proof.
  intros Hz E. unfold node. f_equal. unfold root. destruct (decide (p_file q = k)) as [->|Hne].
  - rewrite list_lookup_insert_eq by (by eapply lookup_lt_Some). rewrite Hz. simpl. by rewrite E.
  - by rewrite list_lookup_insert_ne.
Qed.
Lemma forest_inode l A F k z z' : l !! k = Some z → i_addr z' = i_addr z → i_dev z' = i_dev z →
  forest dev lo hi l A F → forest dev lo hi (<[k := z']> l) A F.
Proof.
  intros Hz E1 E2 Hf. assert (E := λ q, node_inode l (A dev) k z z' q Hz E1). split.
  - intros j y [[-> ->]|[_ Hy]]%insert_cases; [rewrite E1, E2; by apply (fo_inode _ _ _ _ _ _ Hf k)|by apply (fo_inode _ _ _ _ _ _ Hf j)].
  - intros q. rewrite E. apply Hf.
  - intros q r. rewrite !E. apply Hf.
  - intros q. rewrite E. apply Hf.
Qed.

Definition byte_of (d : block) (i : Z) : Z := default 0 (block_bytes d !! Z.to_nat i).
(** The byte [o] of a file, whether or not it is below its size. *)
Definition content (v : vol) A (k : nat) (o : Z) : Z :=
  let b := file_block dev v A k (o / 1024) in if b =? 0 then 0 else byte_of (A dev b) (o mod 1024).

Lemma byte_of_zero i : byte_of zero_block i = 0.
Proof.
  unfold byte_of. rewrite block_bytes_zero. destruct (replicate 1024 0 !! Z.to_nat i) as [x|] eqn:E; [|done].
  apply list_elem_of_lookup_2, elem_of_replicate in E. by destruct E as [-> _].
Qed.

(** What [bmap] does to the contents: nothing, but that a new block that was
    not cleared may hold anything. *)
Lemma mapped_content parts usable (write clr : bool) v A F p m ret v' A' F' ip bn r ix :
  mapped parts usable dev write clr v A F p m ret v' A' F' → locate bn = Some (r, ix) → p = Path ip r ix →
  (m = 0%nat ↔ file_block dev v A ip bn ≠ 0) → files dev v A F → fs_isize (sb v) > 0 →
  ∀ k o, 0 ≤ o → (clr = true ∨ k ≠ ip ∨ o / 1024 ≠ bn ∨ m = 0%nat) → content v' A' k o = content v A k o.
Proof.
  intros [M1 M2 M3 M4 M5 M6] El -> Hm Hf Hi k o Ho Hor. unfold content, file_block.
  destruct (locate (o / 1024)) as [[r' ix']|] eqn:El'; [|done]. destruct (decide (k = ip ∧ o / 1024 = bn)) as [[-> Eb]|Hne].
  - assert (r' = r ∧ ix' = ix) as [-> ->] by (rewrite Eb in El'; split; congruence).
    unfold file_block in Hm. rewrite El in Hm. unfold answer_ok in M6.
    destruct (Nat.eqb_spec m 0) as [Em|Em].
    { destruct M6 as (_ & -> & _ & Ei & _). unfold at_path. by rewrite Ei. }
    assert (E0 : at_path dev v A (Path ip r ix) = 0) by (destruct (decide (at_path dev v A (Path ip r ix) = 0)); [done|tauto]). rewrite E0. simpl.
    destruct write; cbn [negb] in M6.
    2:{ destruct M6 as (_ & -> & _ & Ei & _). unfold at_path in *. by rewrite Ei, E0. }
    destruct (m <=? length F)%nat; [|destruct M6 as (_ & _ & -> & _); done].
    destruct M6 as (_ & _ & -> & _ & Hz). destruct (ret =? 0); [done|]. rewrite Hz; [apply byte_of_zero|]. destruct Hor as [?|[?|[?|?]]]; done.
  - assert (Hfull : full (Path k r' ix')) by (by eapply locate_full).
    assert (Hp : Path k r' ix' ≠ Path ip r ix).
    { intros [= -> -> ->]. apply Hne. split; [done|]. by eapply locate_inj. }
    rewrite (M4 _ Hfull Hp). destruct (Z.eqb_spec (at_path dev v A (Path k r' ix')) 0) as [|Hn]; [done|]. by rewrite M5.
Qed.
End Contents.

(** ** Transfers between a buffer and the program *)
Lemma wp_on_vol {T} (m : V T) (Q : T → fio → Prop) f :
  wp m (λ x v', Q x (f<|fvol := v'|>)) (fvol f) → wp (on_vol m) Q f.
Proof. unfold wp, on_vol. by destruct (m (fvol f)) as [[x v]| | |]. Qed.
Lemma wp_in_cache {T} (m : M T) (Q : T → fio → Prop) f :
  wp m (λ x s', Q x (f<|fvol := (fvol f)<|bst := s'|>|>)) (bst (fvol f)) → wp (in_cache m) Q f.
Proof. intros HQ. apply wp_on_vol, wp_on_cache. exact HQ. Qed.

(** The memory of the buffer [i] is [d]. *)
Definition has_data (s : bstate) (i : nat) (d : block) : Prop := load i s = Done (d, s).

Definition slice (l : list Z) (base n : Z) : list Z := take (Z.to_nat n) (drop (Z.to_nat base) l).
Lemma peek_slice l base n : 0 ≤ base → base + n ≤ Z.of_nat (length l) → peek l base n = Done (slice l base n).
Proof. intros Hb Hl. unfold peek. by rewrite (proj2 (Z.leb_le _ _)), (proj2 (Z.leb_le _ _)) by lia. Qed.
Lemma slice_length l base n : 0 ≤ base → 0 ≤ n → base + n ≤ Z.of_nat (length l) → length (slice l base n) = Z.to_nat n.
Proof. intros. unfold slice. rewrite length_take, length_drop. lia. Qed.
Lemma poke_splice l base new : 0 ≤ base → base + Z.of_nat (length new) ≤ Z.of_nat (length l) →
  poke l base new = Done (splice l (Z.to_nat base) new).
Proof. intros Hb Hl. unfold poke. by rewrite (proj2 (Z.leb_le _ _)), (proj2 (Z.leb_le _ _)) by lia. Qed.
Lemma slice_bytes l base n : Forall is_byte l → Forall is_byte (slice l base n).
Proof. intros Hl. by apply Forall_take, Forall_drop. Qed.

(** A request for one stretch of memory, as [read] and [write] make it. *)
Record request1 (f : fio) (base off resid : Z) : Prop := Request1 {
  rq_iov : uio_iov f = [(base, resid)];
  rq_off : uio_offset f = off;
  rq_resid : uio_resid f = resid;
  rq_mem : 0 ≤ base ∧ base + resid ≤ Z.of_nat (length (umem f));
  rq_range : 0 ≤ off ∧ 0 ≤ resid ∧ off + resid < 2^31;
  rq_bytes : Forall is_byte (umem f) }.
Definition advance (f : fio) (base off resid n : Z) : fio :=
  f<|uio_iov := [(base + n, resid - n)]|><|uio_resid := resid - n|><|uio_offset := off + n|>.

Lemma advance_request f base off resid n : request1 f base off resid → 0 ≤ n ≤ resid →
  request1 (advance f base off resid n) (base + n) (off + n) (resid - n).
Proof. intros [R1 R2 R3 R4 R5 R6] Hn. split; unfold advance; fields; try done; lia. Qed.

(** The end of the only step of [uiomove]. *)
Lemma wp_moved k write bp on n f base off resid (Q : unit → fio → Prop) :
  request1 f base off resid → 0 < n ≤ resid → Q tt (advance f base off resid n) →
  wp (modify (λ f, f<|uio_iov := [(base + n, resid - n)]|>);;
      modify (λ f, f<|uio_resid ::= λ r, u32 (r - n)|>);;
      modify (λ f, f<|uio_offset ::= λ o, s32 (o + n)|>);;
      uiomove_loop k write bp (on + n) (n - n)) Q f.
Proof.
  intros [R1 R2 R3 R4 R5 R6] Hn HQ. apply wp_bind, wp_modify, wp_bind, wp_modify, wp_bind, wp_modify.
  assert (E : advance f base off resid n = f<|uio_iov := [(base + n, resid - n)]|><|uio_resid ::= λ r, u32 (r - n)|><|uio_offset ::= λ o, s32 (o + n)|>).
  { unfold advance. subst off resid.
    destruct f as [fv iov o r m ru lim po]. unfold field_map. simpl in *. by rewrite u32_id, s32_id by lia. }
  rewrite E in HQ. destruct k; cbn [uiomove_loop]; apply wp_bind, wp_gets; rewrite Z.sub_diag; by apply wp_ret.
Qed.
Lemma uiomove_cnt n resid : 0 < n ≤ resid → (if n <? resid then n else resid) = n.
Proof. intros Hn. destruct (Z.ltb_spec n resid); lia. Qed.

Lemma wp_uiomove_write bp on n f base off resid (Q : Z → fio → Prop) :
  request1 f base off resid → 0 < n ≤ resid →
  wp (poke_buf bp on (slice (umem f) base n)) (λ _ s', Q 0 (advance (f<|fvol := (fvol f)<|bst := s'|>|>) base off resid n)) (bst (fvol f)) →
  wp (uiomove true bp on n) Q f.
Proof.
  intros Hr Hn HQ. pose proof Hr as [R1 R2 R3 R4 R5 R6]. unfold uiomove. apply wp_bind, wp_gets, wp_bind. rewrite R1. simpl length.
  replace (1 + Z.to_nat n)%nat with (S (Z.to_nat n)) by lia. cbn [uiomove_loop]. apply wp_bind, wp_gets. rewrite R3.
  rewrite (proj2 (Z.leb_gt n 0)), (proj2 (Z.eqb_neq resid 0)) by lia. simpl orb. apply wp_bind, wp_gets. rewrite R1.
  rewrite (proj2 (Z.eqb_neq resid 0)) by lia. rewrite uiomove_cnt by done. apply wp_bind, wp_bind, wp_gets, wp_bind.
  eapply wp_lift; [apply peek_slice; lia|]. apply wp_in_cache. eapply wp_mono; [exact HQ|]. intros [] s' HQ'.
  eapply wp_moved; [|done|]; [by split|]. by apply wp_ret.
Qed.
Lemma wp_uiomove_read bp on n f base off resid d (Q : Z → fio → Prop) :
  request1 f base off resid → 0 < n ≤ resid → 0 ≤ on → on + n ≤ 1024 → has_data (bst (fvol f)) bp d →
  Q 0 (advance (f<|umem := splice (umem f) (Z.to_nat base) (slice (block_bytes d) on n)|>) base off resid n) →
  wp (uiomove false bp on n) Q f.
Proof.
  intros Hr Hn Ho1 Ho2 Hd HQ. pose proof Hr as [R1 R2 R3 R4 R5 R6]. unfold uiomove. apply wp_bind, wp_gets, wp_bind. rewrite R1. simpl length.
  replace (1 + Z.to_nat n)%nat with (S (Z.to_nat n)) by lia. cbn [uiomove_loop]. apply wp_bind, wp_gets. rewrite R3.
  rewrite (proj2 (Z.leb_gt n 0)), (proj2 (Z.eqb_neq resid 0)) by lia. simpl orb. apply wp_bind, wp_gets. rewrite R1.
  rewrite (proj2 (Z.eqb_neq resid 0)) by lia. rewrite uiomove_cnt by done. apply wp_bind, wp_bind, wp_in_cache.
  unfold peek_buf. apply wp_bind. unfold wp at 1. rewrite Hd. eapply wp_lift; [apply peek_slice; rewrite ?block_bytes_length; lia|].
  replace (f<|fvol := (fvol f)<|bst := bst (fvol f)|>|>) with f by (destruct f as [[] ? ? ? ? ? ? ?]; done).
  assert (Hl : length (slice (block_bytes d) on n) = Z.to_nat n) by (apply slice_length; rewrite ?block_bytes_length; lia).
  apply wp_bind, wp_gets, wp_bind. eapply wp_lift; [apply poke_splice; rewrite ?Hl; lia|]. apply wp_modify.
  eapply wp_moved; [|done|by apply wp_ret]. split; fields; try done.
  - rewrite splice_length; lia.
  - apply splice_bytes; [done|]. apply slice_bytes, block_bytes_bytes.
Qed.

(** ** One step of [rwip] *)
Lemma located off : 0 ≤ off < 2^31 → ∃ r ix, locate (off / 1024) = Some (r, ix).
Proof.
  intros Ho. assert (Hb : 0 ≤ off / 1024 < 2^21).
  { split; [apply Z.div_pos; lia|]. apply Z.div_lt_upper_bound; lia. }
  unfold locate. change (256 ^ 2) with 65536. change (256 ^ 3) with 16777216.
  repeat match goal with |- context [if ?a <? ?b then _ else _] => destruct (Z.ltb_spec a b) end; eauto; lia.
Qed.
Lemma lblkno_div off : 0 ≤ off < 2^31 → lblkno off = off / 1024.
Proof. intros Ho. unfold lblkno. rewrite u32_id by lia. by rewrite Z.shiftr_div_pow2 by lia. Qed.
Lemma blkoff_mod off : blkoff off = off mod 1024.
Proof. unfold blkoff. change 1023 with (Z.ones 10). by rewrite Z.land_ones by lia. Qed.

Section File.
Context `{Disks, Naps} (parts : list (list Z)) (usable : Z → Z → Prop) (dev : Z).
Context `{!Volumes parts usable, !GoodDisks, !Alone} (fuel : nat) (Hfuel : (NBUF + 2 ≤ fuel)%nat).
Notation volume := (volume parts usable dev).
Notation content := (content dev).
Implicit Types (v : vol) (A : Z → Z → block) (F : list Z) (f : fio).

(** The file system is in order and no error is pending. *)
Record sound v A F : Prop := Sound {
  so_volume : volume v [] A F;
  so_files : files dev v A F;
  so_error : u_error (bst v) = 0 }.

(** The inodes are the same but for addresses and marks. *)
Definition same_meta v v' : Prop := meta <$> inodes v' = meta <$> inodes v.
Lemma meta_lookup v v' k z : same_meta v v' → inodes v !! k = Some z → ∃ z', inodes v' !! k = Some z' ∧ meta z' = meta z.
Proof.
  intros E Hz. apply (f_equal (.!! k)) in E. rewrite !list_lookup_fmap, Hz in E. destruct (inodes v' !! k) as [z'|]; [|done].
  exists z'. split; [done|]. change (Some (meta z') = Some (meta z)) in E. congruence.
Qed.
Lemma meta_fields z z' : meta z' = meta z →
  i_size z' = i_size z ∧ i_dev z' = i_dev z ∧ i_mode z' = i_mode z ∧ i_number z' = i_number z ∧ has (i_flag z') IPIPE = has (i_flag z) IPIPE.
Proof. destruct z, z'. unfold meta, field_map, has, IPIPE. simpl. intros [=]. subst. split_and!; try done. by f_equal; f_equal. Qed.

(** An inode gets another size, time or mark. *)
Lemma volume_inode v A F held k z z' : volume v held A F → inodes v !! k = Some z → volume (v<|inodes := <[k := z']> (inodes v)|>) held A F.
Proof. intros Hv Hz. split; apply Hv. Qed.
Lemma content_inode v A k z z' j o : inodes v !! k = Some z → i_addr z' = i_addr z →
  content (v<|inodes := <[k := z']> (inodes v)|>) A j o = content v A j o.
Proof.
  intros Hz E. unfold Fileio.content, file_block, at_path. fields. destruct (locate (o / 1024)) as [[r ix]|]; [|done].
  by rewrite (node_inode _ _ _ z z').
Qed.

(** [bmap] for writing the block [off / 1024]. *)
Lemma wp_bmap_write v A F ip z off flags :
  sound v A F → inodes v !! ip = Some z → 0 ≤ off < 2^31 →
  wp (bmap fuel ip (off / 1024) B_WRITE flags) (λ b v', ∃ A' F', volume v' [] A' F' ∧ files dev v' A' F' ∧ same_meta v v' ∧
    ((b = -1 ∧ u_error (bst v') = ENOSPC ∧ ∀ k o, 0 ≤ o → content v' A' k o = content v A k o) ∨
     (0 < b ∧ u_error (bst v') = 0 ∧ file_block dev v' A' ip (off / 1024) = b ∧
      ∀ k o, 0 ≤ o → (has flags B_CLRBUF = true ∨ k ≠ ip ∨ o / 1024 ≠ off / 1024) → content v' A' k o = content v A k o))) v.
Proof.
  intros [Hv Hf He] Hz Ho. destruct (located off Ho) as (r & ix & El).
  eapply wp_mono; [by apply (wp_bmap parts usable dev fuel B_WRITE flags v A F ip z)|]. rewrite El. intros b v' (A' & F' & HM).
  pose proof HM as [M1 M2 (M3 & M3' & M3'') M4 M5 M6]. exists A', F'. split; [done|]. split; [done|]. split; [done|].
  destruct (vo_bounds _ _ _ _ _ _ _ Hv) as [B1 B2]. set (p := Path ip r ix) in *. set (m := missing (inodes v) (A dev) p) in *.
  assert (Hm : m = 0%nat ↔ file_block dev v A ip (off / 1024) ≠ 0) by (unfold file_block; rewrite El; apply missing_none).
  assert (HC := mapped_content dev parts usable _ _ v A F p m b v' A' F' ip (off / 1024) r ix HM El eq_refl Hm Hf ltac:(lia)).
  assert (Hfb : ∀ w B, file_block dev w B ip (off / 1024) = at_path dev w B p) by (intros; unfold file_block; by rewrite El).
  assert (Hfull : full p) by (by eapply locate_full).
  unfold answer_ok in M6. destruct (Nat.eqb_spec m 0) as [Em|Em].
  - right. destruct M6 as (-> & -> & -> & Ei & Ee). pose proof Em as Em0. apply Hm in Em. rewrite Hfb in Em.
    destruct (fo_range _ _ _ _ _ _ Hf p (proj1 Hfull) Em). unfold at_path in *.
    split_and!; [lia|congruence|rewrite Hfb; unfold at_path; by rewrite Ei|]. intros k o Ho' _. apply HC; [done|]. by do 3 right.
  - change (negb (negb (B_WRITE =? B_READ))) with false in M6. cbv iota in M6. destruct (m <=? length F)%nat.
    + right. destruct M6 as (R1 & R2 & R3 & R4 & R5). apply list_elem_of_lookup_2 in R1. pose proof (vo_range _ _ _ _ _ _ _ Hv b R1).
      split_and!; [lia|congruence|by rewrite Hfb|]. intros k o Ho' Hor. apply HC; [done|]. tauto.
    + left. destruct M6 as (R1 & R2 & R3 & R4). split_and!; [done|done|]. intros k o Ho'.
      destruct (decide (k = ip ∧ o / 1024 = off / 1024)) as [[-> Eo]|Hne]; [|apply HC; [done|]; right; destruct (decide (k = ip)) as [->|]; [right; left; intros E; by apply Hne|by left]].
      unfold Fileio.content. rewrite Eo, !Hfb, R3. destruct (decide (file_block dev v A ip (off / 1024) = 0)) as [E0|E0]; [|tauto].
      rewrite Hfb in E0. by rewrite E0.
Qed.

(** The inode [ip] has the size given and is not a pipe; the others, and the
    type of the file, are as they were. *)
Definition kind v (ip : nat) : option Z := (λ z, Z.land (i_mode z) IFMT) <$> (inodes v !! ip).
Definition sized v v' (ip : nat) (size : Z) : Prop :=
  (∃ z, inodes v' !! ip = Some z ∧ i_size z = size ∧ has (i_flag z) IPIPE = false) ∧
  (∀ k, k ≠ ip → meta <$> (inodes v' !! k) = meta <$> (inodes v !! k)) ∧ kind v' ip = kind v ip.
Lemma sized_trans v1 v2 v3 ip n1 n2 : sized v1 v2 ip n1 → sized v2 v3 ip n2 → sized v1 v3 ip n2.
Proof. intros (_ & A2 & A3) (B1 & B2 & B3). split; [done|]. split; [|congruence]. intros k Hk. rewrite B2, A2; done. Qed.
Lemma sized_meta v v' ip z : same_meta v v' → inodes v !! ip = Some z → has (i_flag z) IPIPE = false → sized v v' ip (i_size z).
Proof.
  intros E Hz Hp. destruct (meta_lookup _ _ _ _ E Hz) as (z' & Hz' & Em). destruct (meta_fields _ _ Em) as (E1 & _ & E3 & _ & E5).
  split; [exists z'; split_and!; [done|done|congruence]|]. split; [intros k _; by rewrite <- !list_lookup_fmap, E|].
  unfold kind. rewrite Hz, Hz'. simpl. by rewrite E3.
Qed.
Lemma sized_inode v ip z z' : inodes v !! ip = Some z → has (i_flag z') IPIPE = false → Z.land (i_mode z') IFMT = Z.land (i_mode z) IFMT →
  sized v (v<|inodes := <[ip := z']> (inodes v)|>) ip (i_size z').
Proof.
  intros Hz Hp Hm. assert (Hz' : <[ip := z']> (inodes v) !! ip = Some z') by (apply list_lookup_insert_eq; by eapply lookup_lt_Some).
  split_and!; fields.
  - by exists z'.
  - intros k Hk. by rewrite list_lookup_insert_ne.
  - unfold kind. fields. rewrite Hz, Hz'. simpl. by rewrite Hm.
Qed.
Lemma sound_inode v A F k z z' : sound v A F → inodes v !! k = Some z → i_addr z' = i_addr z → i_dev z' = i_dev z →
  sound (v<|inodes := <[k := z']> (inodes v)|>) A F.
Proof.
  intros [S1 S2 S3] Hz E1 E2. split; [by eapply volume_inode| |done]. unfold files. fields. by eapply forest_inode.
Qed.

(** A data block of a file. *)
Lemma data_path v A F k bn b : files dev v A F → file_block dev v A k bn = b → 0 < b →
  ∃ p, full p ∧ at_path dev v A p = b ∧ b ∉ F ∧ fs_isize (sb v) ≤ b < fs_fsize (sb v).
Proof.
  intros Hf E Hb. unfold file_block in E. destruct (locate bn) as [[r ix]|] eqn:El; [|lia]. exists (Path k r ix).
  assert (Hfull : full (Path k r ix)) by (by eapply locate_full). split; [done|]. split; [done|].
  destruct (fo_range _ _ _ _ _ _ Hf _ (proj1 Hfull)) as [R1 R2]; [unfold at_path in E; lia|]. unfold at_path in E. rewrite E in R1, R2. done.
Qed.

(** The contents after a data block was written. *)
Lemma content_data v A F ip bn b d : files dev v A F → file_block dev v A ip bn = b → 0 < b → locate bn ≠ None →
  files dev v (upd A dev b d) F ∧
  ∀ k o, 0 ≤ o → content v (upd A dev b d) k o = if decide (k = ip ∧ o / 1024 = bn) then byte_of d (o mod 1024) else content v A k o.
Proof.
  intros Hf E Hb Hl. unfold file_block in E. destruct (locate bn) as [[r ix]|] eqn:El; [|done].
  assert (Hfull : full (Path ip r ix)) by (by eapply locate_full). unfold at_path in E.
  assert (Hn : node (inodes v) (A dev) (Path ip r ix) ≠ 0) by lia.
  assert (HN := λ q, node_data dev _ _ (inodes v) A F (Path ip r ix) d q Hf Hfull Hn). rewrite E in HN.
  split; [unfold files; rewrite <- E; by apply forest_data|]. intros k o Ho. unfold Fileio.content, file_block, at_path.
  destruct (locate (o / 1024)) as [[r' ix']|] eqn:El'.
  2:{ destruct (decide (k = ip ∧ o / 1024 = bn)) as [[-> Eo]|]; [congruence|done]. }
  assert (Hfull' : full (Path k r' ix')) by (by eapply locate_full). rewrite HN by apply Hfull'.
  destruct (decide (k = ip ∧ o / 1024 = bn)) as [[-> Eo]|Hne].
  - rewrite Eo in El'. assert (r' = r ∧ ix' = ix) as [-> ->] by (split; congruence). rewrite E. rewrite (proj2 (Z.eqb_neq _ _)) by lia. by rewrite upd_same.
  - destruct (Z.eqb_spec (node (inodes v) (A dev) (Path k r' ix')) 0) as [|Hn']; [done|]. rewrite upd_other; [done|].
    intros [_ E']. assert (Path k r' ix' = Path ip r ix) as [= -> -> ->] by (eapply (fo_once _ _ _ _ _ _ Hf); [apply Hfull'|apply Hfull|done|congruence]).
    apply Hne. split; [done|]. by eapply locate_inj.
Qed.

(** The cache after the block [b] was written. *)
Lemma volume_put v held A F b d s' : volume v held A F → b ∉ F → cache_ok parts usable s' [] (upd A dev b d) →
  volume (v<|bst := s'|>) [] (upd A dev b d) F.
Proof.
  intros Hv HbF Hc. split; fields; try apply Hv; try done.
  - destruct (vo_list _ _ _ _ _ _ _ Hv) as [Hn|Hch]; [by left|right]. eapply chain_other; [exact Hch|].
    intros c Hc'. apply upd_other. intros [_ ->]. done.
  - intros c _. apply unused_nil.
Qed.

(** The buffer of a block is given back with the data [d] in it. *)
Lemma wp_put_block v A F i b x d (sync last : bool) :
  volume v [i] A F → holds parts usable (bst v) [] A i dev b x → bufdata (bst v) !! i = Some d → b ∉ F →
  wp (if sync then bwrite fuel i else if last then set_flags i B_AGE;; bawrite fuel i else bdwrite fuel i)
    (λ _ s', volume (v<|bst := s'|>) [] (upd A dev b d) F ∧ u_error s' = u_error (bst v)) (bst v).
Proof.
  intros Hv Hh Hd HbF. destruct sync; [|destruct last].
  - eapply wp_mono; [by eapply (wp_write parts usable)|]. intros [] s' (R1 & [_ R2] & _). split; [by eapply volume_put|done].
  - pose proof Hh as (Hc & Hx & Hb & Ha). apply wp_bind. eapply (wp_age parts usable); [exact Hc|exact Hx|].
    intros s1 x1 Hc1 C1 (S1 & S2 & S3 & S4) Fl (K1 & K2 & K3 & K4).
    assert (Hh1 : holds parts usable s1 [] A i dev b x1).
    { split_and!; [done|rewrite C1; apply list_lookup_insert_eq; by eapply lookup_lt_Some|unfold is_block in *; by rewrite S1, S2, S3|].
      rewrite Fl, has_lor, Ha. done. }
    eapply wp_mono; [eapply (wp_write_async parts usable); [exact Hh1|by rewrite K1]|]. intros [] s' (R1 & [_ R2]).
    split; [by eapply volume_put|congruence].
  - eapply wp_mono; [by eapply (wp_delay parts usable)|]. intros [] s' (R1 & [_ R2] & _). split; [by eapply volume_put|done].
Qed.

Lemma held_at s held A i x : cache_ok parts usable s (i :: held) A → core s !! i = Some x →
  ∀ Q : buf → bstate → Prop, (∀ y, b_resid y = 0 → has (b_flags y) B_ERROR = false → Q y s) → wp (buf_at i) Q s.
Proof.
  intros (hl & fl & Hc) Hx Q HQ. eapply wp_view_at; [apply view_init|exact Hx|]. intros y Ey.
  destruct (strip_fields _ _ Ey) as (F1 & _). destruct (co_flags (ca_core Hc) i x Hx) as (_ & G & _).
  apply HQ; [rewrite <- (co_resid (ca_core Hc) i x Hx); by rewrite <- Ey|by rewrite F1].
Qed.

(** The buffer for a write: its old contents are read unless the whole block
    is written. *)
Lemma wp_rw_buf_write f A F ip lbn b n :
  volume (fvol f) [] A F → b ∉ F → fs_isize (sb (fvol f)) ≤ b < fs_fsize (sb (fvol f)) →
  wp (rw_buf fuel ip true dev lbn b n) (λ i f', ∃ s' x d, f' = f<|fvol := (fvol f)<|bst := s'|>|> ∧
    volume ((fvol f)<|bst := s'|>) [i] A F ∧ holds parts usable s' [] A i dev b x ∧ bufdata s' !! i = Some d ∧
    (n ≠ 1024 → d = A dev b) ∧ u_error s' = u_error (bst (fvol f))) f.
Proof.
  intros Hv HbF Hbr. destruct (vo_bounds _ _ _ _ _ _ _ Hv) as [B1 B2]. set (v := fvol f) in *.
  assert (HE : ∀ i s1, obtained parts usable (bst v) s1 [] A dev b i → ∀ d, bufdata s1 !! i = Some d → (n ≠ 1024 → d = A dev b) →
    wp (x ← in_cache (buf_at i); (if b_resid x =? 1024 then in_cache (setb i (λ b, b<|b_resid := 0|>));; on_vol (clear_block i) else mret tt);; mret i)
      (λ i f', ∃ s' x d, f' = f<|fvol := v<|bst := s'|>|> ∧ volume (v<|bst := s'|>) [i] A F ∧ holds parts usable s' [] A i dev b x ∧
         bufdata s' !! i = Some d ∧ (n ≠ 1024 → d = A dev b) ∧ u_error s' = u_error (bst v)) (f<|fvol := v<|bst := s1|>|>)).
  { intros i s1 Ho d Hd Hda. pose proof Ho as (_ & [_ Ue] & _). destruct (obtained_holds _ _ _ _ _ _ _ _ _ Ho) as (x & Hh & _ & _).
    apply wp_bind, wp_in_cache. eapply held_at; [apply Hh|apply Hh|]. intros y Er _. rewrite Er. apply wp_bind, wp_ret, wp_ret. exists s1, x, d.
    split_and!; try done. split; try apply Hv; [apply Hh|]. intros c Hc. eapply (held_other parts usable); [exact Hh| |apply unused_nil].
    intros ->. destruct Hc as [->|?]; [unfold SUPERB in *; lia|done]. }
  unfold rw_buf. simpl negb. cbv iota. apply wp_bind. destruct (Z.eqb_spec n 1024) as [En|En]; apply wp_in_cache.
  - eapply wp_mono; [apply (wp_getblk parts usable fuel (bst v) [] A dev b); [apply Hv|apply Hv; lia|apply unused_nil|vm_compute; lia|done]|].
    intros i s1 Ho. destruct (obtained_holds _ _ _ _ _ _ _ _ _ Ho) as (x & Hh & _ & _). destruct (held_data parts usable dev _ _ _ _ _ _ Hh) as [d Hd].
    by apply (HE i s1 Ho d Hd).
  - eapply wp_mono; [apply (wp_bread parts usable fuel (bst v) [] A dev b); [apply Hv|apply Hv; lia|apply unused_nil|vm_compute; lia|done]|].
    intros i s1 (Ho & Hd & _). by apply (HE i s1 Ho _ Hd).
Qed.

Lemma fio_id f : f<|fvol := fvol f|> = f.
Proof. by destruct f. Qed.
Lemma wp_look f ip z (Q : inode → fio → Prop) : inodes (fvol f) !! ip = Some z → Q z f → wp (on_vol (inode_at ip)) Q f.
Proof.
  intros Hz HQ. apply wp_on_vol. unfold inode_at. apply wp_bind, wp_gets. eapply wp_lift; [by apply rd_Done|]. by rewrite fio_id.
Qed.

(** The block to write is found or made, and the file grows. *)
Lemma wp_rw_map_write f A F ip z off n flags :
  sound (fvol f) A F → inodes (fvol f) !! ip = Some z → has (i_flag z) IPIPE = false → 0 ≤ i_size z < 2^31 →
  uio_offset f = off → 0 ≤ off → 0 < n → off + n < 2^31 →
  wp (rw_map fuel ip true IFREG flags (off / 1024) n) (λ r f', ∃ v' A' F', f' = f<|fvol := v'|> ∧ volume v' [] A' F' ∧ files dev v' A' F' ∧
    ((r = inl ENOSPC ∧ sized (fvol f) v' ip (i_size z) ∧ ∀ k o, 0 ≤ o → content v' A' k o = content (fvol f) A k o) ∨
     (∃ b, r = inr (n, b) ∧ 0 < b ∧ u_error (bst v') = 0 ∧ sized (fvol f) v' ip (Z.max (i_size z) (off + n)) ∧
        file_block dev v' A' ip (off / 1024) = b ∧
        ∀ k o, 0 ≤ o → (n ≠ 1024 ∨ k ≠ ip ∨ o / 1024 ≠ off / 1024) → content v' A' k o = content (fvol f) A k o))) f.
Proof.
  intros HS Hz Hp Hsz Eo Ho Hn Hlim. unfold rw_map. apply wp_bind, wp_gets, wp_bind. eapply wp_look; [exact Hz|]. rewrite Eo.
  change (IFREG =? IFBLK) with false. cbn [negb andb]. cbv iota zeta. set (fl := if n =? 1024 then flags else Z.lor flags B_CLRBUF).
  assert (Hfl : n ≠ 1024 → has fl B_CLRBUF = true).
  { intros Hne. unfold fl. rewrite (proj2 (Z.eqb_neq n 1024)) by done. rewrite has_lor. apply orb_true_r. }
  apply wp_bind, wp_on_vol. eapply wp_mono; [apply (wp_bmap_write (fvol f) A F ip z off fl HS Hz); lia|].
  intros b v' (A' & F' & Hv & Hf & Hm & Hor). apply wp_bind, wp_gets. fields.
  pose proof (sized_meta _ _ _ _ Hm Hz Hp) as Hs. destruct Hor as [(-> & Ee & HC)|(Hb & Ee & Hfb & HC)]; rewrite Ee.
  - apply wp_ret. exists v', A', F'. split_and!; try done. by left.
  - change (0 =? 0) with true. rewrite (proj2 (Z.ltb_ge b 0)) by lia. cbn [negb orb].
    destruct Hs as ((z' & Hz' & Es & Hp') & Hk). apply wp_bind. eapply wp_look; [exact Hz'|]. rewrite Es, s32_id by lia.
    change (IFREG =? IFREG) with true. rewrite orb_true_r. cbn [orb]. rewrite andb_true_r. cbn [andb].
    apply wp_bind. destruct (Z.ltb_spec (i_size z) (off + n)) as [Hlt|Hge].
    + apply wp_on_vol. fields. eapply wp_set_inode; [exact Hz'|]. apply wp_ret.
      assert (HS' : sound v' A' F') by (by split).
      exists (v'<|inodes := <[ip := z'<|i_size := off + n|>]> (inodes v')|>), A', F'. split; [by destruct f|]. 
      assert (HS1 := sound_inode v' A' F' ip z' (z'<|i_size := off + n|>) HS' Hz'). destruct (HS1 eq_refl eq_refl) as [S1 S2 S3].
      split; [exact S1|]. split; [exact S2|]. right. exists b. split_and!; try done.
      * rewrite Z.max_r by lia. eapply sized_trans; [split; [by exists z'|exact Hk]|]. 
        assert (HZ := sized_inode v' ip z' (z'<|i_size := off + n|>) Hz'). exact (HZ Hp' eq_refl).
      * unfold file_block, at_path in *. fields. destruct (locate (off / 1024)) as [[r ix]|]; [|done]. by rewrite (node_inode _ _ _ z').
      * intros k o Ho' Hor. rewrite (content_inode v' A' ip z'); [|done|done]. apply HC; [done|]. destruct Hor as [?|?]; [left; auto|by right].
    + apply wp_ret, wp_ret. exists v', A', F'. split_and!; try done. right. exists b. rewrite Z.max_l by lia. split_and!; try done.
      * split; [by exists z'|done].
      * intros k o Ho' Hor. apply HC; [done|]. destruct Hor as [?|?]; [left; auto|by right].
Qed.

(** The bytes go into the buffer. *)
Lemma wp_poke_buf s A i b x d on new (Q : unit → bstate → Prop) :
  holds parts usable s [] A i dev b x → bufdata s !! i = Some d → 0 ≤ on → on + Z.of_nat (length new) ≤ 1024 →
  (let d' := words_of (splice (block_bytes d) (Z.to_nat on) new) in
   holds parts usable (s<|bufdata := <[i := d']> (bufdata s)|>) [] A i dev b x → <[i := d']> (bufdata s) !! i = Some d' →
   Q tt (s<|bufdata := <[i := d']> (bufdata s)|>)) →
  wp (poke_buf i on new) Q s.
Proof.
  intros Hh Hd Ho Hl HQ. unfold poke_buf. apply wp_bind. eapply (wp_bload parts usable); [exact Hh|exact Hd|]. apply wp_bind.
  eapply wp_lift; [apply poke_splice; rewrite ?block_bytes_length; lia|]. eapply (wp_bstore parts usable); [exact Hh|exact HQ].
Qed.
Lemma byte_of_splice d on new i : 0 ≤ on → on + Z.of_nat (length new) ≤ 1024 → Forall is_byte new → 0 ≤ i →
  byte_of (words_of (splice (block_bytes d) (Z.to_nat on) new)) i =
  if decide (on ≤ i < on + Z.of_nat (length new)) then default 0 (new !! Z.to_nat (i - on)) else byte_of d i.
Proof.
  intros Ho Hl Hb Hi. unfold byte_of.
  assert (Hlen : (Z.to_nat on + length new ≤ length (block_bytes d))%nat) by (rewrite block_bytes_length; lia).
  rewrite block_bytes_words; [|by rewrite splice_length, block_bytes_length|by apply splice_bytes; [apply block_bytes_bytes|]].
  rewrite splice_lookup by done. destruct (decide (on ≤ i < on + Z.of_nat (length new))) as [Hin|Hout].
  - rewrite decide_True by lia. do 2 f_equal. lia.
  - rewrite decide_False by lia. done.
Qed.

Lemma wp_in_cache2 {T} (a : M unit) (b : M T) (Q : T → fio → Prop) f : wp (in_cache (a;; b)) Q f → wp (in_cache a;; in_cache b) Q f.
Proof.
  unfold wp, in_cache, on_vol, on_cache, mbind, K_bind. destruct (a (bst (fvol f))) as [[[] s]| | |]; done.
Qed.

(** The buffer is given back, the inode marked. *)
Lemma wp_rw_release_write f A F ip z i b x d ioflag n on :
  volume (fvol f) [i] A F → holds parts usable (bst (fvol f)) [] A i dev b x → bufdata (bst (fvol f)) !! i = Some d → b ∉ F →
  inodes (fvol f) !! ip = Some z → has (i_flag z) IPIPE = false →
  wp (rw_release fuel ip true ioflag n on i) (λ _ f', ∃ s' z', f' = f<|fvol := (fvol f)<|bst := s'|><|inodes := <[ip := z']> (inodes (fvol f))|>|> ∧
    volume ((fvol f)<|bst := s'|>) [] (upd A dev b d) F ∧ u_error s' = u_error (bst (fvol f)) ∧
    i_addr z' = i_addr z ∧ i_dev z' = i_dev z ∧ i_size z' = i_size z ∧ has (i_flag z') IPIPE = false ∧ Z.land (i_mode z') IFMT = Z.land (i_mode z) IFMT) f.
Proof.
  intros Hv Hh Hd HbF Hz Hp. unfold rw_release. apply wp_bind. eapply wp_look; [exact Hz|]. cbn [negb]. cbv iota. rewrite Hp, andb_true_r.
  apply wp_bind. eapply (wp_mono _ (λ _ f', ∃ s', f' = f<|fvol := (fvol f)<|bst := s'|>|> ∧ volume ((fvol f)<|bst := s'|>) [] (upd A dev b d) F ∧ u_error s' = u_error (bst (fvol f)))).
  { pose proof (wp_put_block (fvol f) A F i b x d (has ioflag IO_SYNC) (n + on =? 1024) Hv Hh Hd HbF) as HW.
    destruct (has ioflag IO_SYNC); [|destruct (n + on =? 1024); [apply wp_in_cache2|]]; apply wp_in_cache; (eapply wp_mono; [exact HW|]);
      intros [] s' [? ?]; by exists s'. }
  intros [] f' (s' & -> & Hv' & Ee). apply wp_bind, wp_on_vol. fields. eapply wp_set_inode; [exact Hz|]. apply wp_bind, wp_gets. fields.
  set (z1 := z<|i_flag ::= λ g, Z.lor g (Z.lor IUPD ICHG)|>).
  assert (Hp1 : has (i_flag z1) IPIPE = false) by (unfold z1; fields; by rewrite has_lor, Hp).
  destruct (u_ruid f =? 0); cbn [negb].
  - apply wp_ret. exists s', z1. split_and!; try done.
  - apply wp_on_vol. fields. eapply wp_set_inode; [fields; apply list_lookup_insert_eq; by eapply lookup_lt_Some|]. fields.
    set (z2 := z1<|i_mode ::= λ m, bic m (Z.lor ISUID ISGID)|>). exists s', z2. split_and!; try done.
    2:{ unfold z2. fields. unfold bic. by rewrite <- Z.land_assoc. }
    destruct f as [[] ? ? ? ? ? ? ?]. unfold field_map. simpl. by rewrite list_insert_insert_eq.
Qed.

(** The bytes of a block that are at [off, off + n) in the file. *)
Lemma in_chunk off n o : 0 ≤ o → 0 ≤ off → off mod 1024 + n ≤ 1024 → 0 < n →
  (o / 1024 = off / 1024 ∧ off mod 1024 ≤ o mod 1024 < off mod 1024 + n ↔ off ≤ o < off + n) ∧
  (o / 1024 = off / 1024 → o mod 1024 - off mod 1024 = o - off).
Proof.
  intros Ho Hoff Hn Hpos. pose proof (Z.div_mod o 1024). pose proof (Z.div_mod off 1024).
  pose proof (Z.mod_pos_bound o 1024). pose proof (Z.mod_pos_bound off 1024). split; [split|]; lia.
Qed.
Lemma volume_holds v s A F i b x : volume v [] A F → holds parts usable s [] A i dev b x → b ∉ F → b ≠ SUPERB → volume (v<|bst := s|>) [i] A F.
Proof.
  intros Hv Hh HbF Hb0. split; try apply Hv; [apply Hh|]. intros c Hc. eapply (held_other parts usable); [exact Hh| |apply unused_nil].
  intros ->. by destruct Hc.
Qed.
Lemma holds_error s A i b x e : holds parts usable s [] A i dev b x → holds parts usable (s<|u_error := e|>) [] A i dev b x.
Proof. intros (Hc & Hh). split; [by apply cache_error|done]. Qed.

(** A stretch of bytes within one block is written. *)
Lemma wp_write_chunk f A F ip z b base off resid n ioflag lbn (kont : Z → X (Z + Z)) (Q : Z + Z → fio → Prop) :
  sound (fvol f) A F → inodes (fvol f) !! ip = Some z → has (i_flag z) IPIPE = false → request1 f base off resid → 0 < n ≤ resid →
  off mod 1024 + n ≤ 1024 → file_block dev (fvol f) A ip (off / 1024) = b → 0 < b →
  (∀ v' A', sound v' A' F → sized (fvol f) v' ip (i_size z) →
     (∀ k o, 0 ≤ o → content v' A' k o =
       if decide (k = ip ∧ off ≤ o < off + n) then default 0 (slice (umem f) base n !! Z.to_nat (o - off)) else content (fvol f) A k o) →
     wp (kont n) Q (advance (f<|fvol := v'|>) base off resid n)) →
  wp (bp ← rw_buf fuel ip true dev lbn b n; x ← in_cache (buf_at bp);
      let n := Z.min n (1024 - b_resid x) in
      if has (b_flags x) B_ERROR then in_cache (brelse bp);; mret (inr EIO)
      else e ← uiomove true bp (off mod 1024) n; on_vol (set_error e);; rw_release fuel ip true ioflag n (off mod 1024) bp;; kont n) Q f.
Proof.
  intros [Hv Hf He] Hz Hp Hr Hn Hon Hfb Hb HQ. pose proof Hr as [R1 R2 R3 R4 R5 R6].
  destruct (data_path _ _ _ _ _ _ Hf Hfb Hb) as (p & _ & _ & HbF & Hbr). assert (Hb0 : b ≠ SUPERB) by (unfold SUPERB; lia).
  pose proof (Z.mod_pos_bound off 1024 ltac:(lia)) as Hmod.
  apply wp_bind. eapply wp_mono; [by apply (wp_rw_buf_write f A F ip lbn b n)|].
  intros i f1 (s1 & x & d & -> & Hv1 & Hh & Hd & Hda & Ee). apply wp_bind, wp_in_cache. fields. eapply held_at; [apply Hh|apply Hh|].
  intros y Ey1 Ey2. rewrite Ey1, Ey2. cbv zeta. replace (Z.min n (1024 - 0)) with n by lia.
  assert (Hsl : length (slice (umem f) base n) = Z.to_nat n) by (apply slice_length; lia).
  apply wp_bind. eapply wp_uiomove_write; [by split|done|]. fields.
  eapply wp_poke_buf; [exact Hh|exact Hd|lia|lia|]. cbv zeta. set (d' := words_of _). intros Hh2 Hd2.
  apply wp_bind, wp_on_vol, wp_set_error, wp_bind.
  eapply wp_mono; [eapply (wp_rw_release_write _ A F ip z i b x d' ioflag); [|by apply holds_error|exact Hd2|done|exact Hz|done]|].
  { eapply (volume_holds (fvol f)); [done|by apply holds_error|done|done]. }
  intros [] f3 (s' & z' & -> & Hv' & Ee' & Z1 & Z2 & Z3 & Z4 & Z5).
  destruct (content_data (fvol f) A F ip (off / 1024) b d' Hf Hfb Hb) as [Hf' HC].
  { destruct (located off) as (r & ix & ->); [lia|done]. }
  set (v2 := (fvol f)<|bst := s'|>). assert (HS2 : sound v2 (upd A dev b d') F) by (by split).
  set (v3 := v2<|inodes := <[ip := z']> (inodes (fvol f))|>).
  match goal with |- wp _ _ ?g => replace g with (advance (f<|fvol := v3|>) base off resid n) by (by destruct f as [[] ? ? ? ? ? ? ?]) end.
  apply (HQ v3 (upd A dev b d')); [by eapply (sound_inode v2)| |].
  - rewrite <- Z3. by apply (sized_inode (fvol f) ip z).
  - intros k o Ho. unfold v3. rewrite (content_inode v2 _ ip z z' k o Hz Z1). change (content v2 ?B) with (content (fvol f) B). rewrite HC by done.
    destruct (in_chunk off n o) as [I1 I2]; [lia..|]. pose proof (Z.mod_pos_bound o 1024 ltac:(lia)).
    assert (Hn' : off mod 1024 + Z.of_nat (length (slice (umem f) base n)) = off mod 1024 + n) by lia.
    destruct (decide (k = ip ∧ o / 1024 = off / 1024)) as [[-> Eo]|Hne].
    + unfold d'. rewrite byte_of_splice by (try lia; by apply slice_bytes). rewrite Hn'.
      destruct (decide (off mod 1024 ≤ o mod 1024 < off mod 1024 + n)) as [Hin|Hout].
      * rewrite decide_True by tauto. by rewrite I2.
      * rewrite decide_False by tauto. rewrite Hda by (intros ->; apply Hout; lia).
        unfold Fileio.content. rewrite Eo, Hfb. by rewrite (proj2 (Z.eqb_neq b 0)) by lia.
    + rewrite decide_False; [done|]. tauto.
Qed.

(** ** Writing *)
Lemma advance_0 f base off resid : request1 f base off resid → advance f base off resid 0 = f.
Proof.
  intros [R1 R2 R3 _ _ _]. unfold advance. rewrite !Z.add_0_r, Z.sub_0_r, <- R1, <- R2, <- R3. by destruct f.
Qed.
Lemma advance_add f base off resid n m v :
  advance ((advance f base off resid n)<|fvol := v|>) (base + n) (off + n) (resid - n) m = advance (f<|fvol := v|>) base off resid (n + m).
Proof. unfold advance. rewrite !Z.add_assoc, Z.sub_add_distr. by destruct f. Qed.

(** The bytes [c] of a file with [l] written over them from [off] on. *)
Definition pasted (c : Z → Z) (off : Z) (l : list Z) (o : Z) : Z :=
  if decide (off ≤ o < off + Z.of_nat (length l)) then default 0 (l !! Z.to_nat (o - off)) else c o.
Definition grown_size (size off n : Z) : Z := if n =? 0 then size else Z.max size (off + n).

Lemma slice_lookup l base n i : 0 ≤ base → 0 ≤ n → base + n ≤ Z.of_nat (length l) → 0 ≤ i < n →
  slice l base n !! Z.to_nat i = l !! Z.to_nat (base + i).
Proof. intros. unfold slice. rewrite lookup_take_lt by lia. rewrite lookup_drop. f_equal. lia. Qed.

(** What a write has done when [n] bytes are through. *)
Definition wrote v A v' A' (ip : nat) (mem : list Z) (base off n : Z) : Prop :=
  ∀ k o, 0 ≤ o → content v' A' k o = if decide (k = ip) then pasted (content v A ip) off (slice mem base n) o else content v A k o.
Lemma wrote_0 v A v' A' ip mem base off : (∀ k o, 0 ≤ o → content v' A' k o = content v A k o) → wrote v A v' A' ip mem base off 0.
Proof.
  intros HC k o Ho. rewrite HC by done. destruct (decide (k = ip)) as [->|]; [|done].
  unfold pasted, slice. rewrite decide_False; [done|]. rewrite length_take. lia.
Qed.
Lemma wrote_add v A v1 A1 v2 A2 ip mem base off n m :
  0 ≤ base → 0 ≤ n → 0 ≤ m → base + n + m ≤ Z.of_nat (length mem) →
  wrote v A v1 A1 ip mem base off n → wrote v1 A1 v2 A2 ip mem (base + n) (off + n) m → wrote v A v2 A2 ip mem base off (n + m).
Proof.
  intros Hb Hn Hm Hl W1 W2 k o Ho. rewrite W2 by done. destruct (decide (k = ip)) as [->|Hne]; [|rewrite W1 by done; by rewrite decide_False].
  pose proof (W1 ip o Ho) as E1. rewrite decide_True in E1 by done. unfold pasted in *. rewrite E1, !slice_length by lia.
  destruct (decide (off + n ≤ o < off + n + Z.of_nat (Z.to_nat m))) as [H3|H3].
  - rewrite decide_True by lia. rewrite !slice_lookup by lia. do 3 f_equal. lia.
  - destruct (decide (off ≤ o < off + Z.of_nat (Z.to_nat n))) as [H4|H4].
    + rewrite decide_True by lia. rewrite !slice_lookup by lia. done.
    + rewrite decide_False by lia. done.
Qed.

Lemma wp_write_loop ioflag flags k : ∀ f A F ip z base off resid,
  sound (fvol f) A F → inodes (fvol f) !! ip = Some z → has (i_flag z) IPIPE = false → 0 ≤ i_size z < 2^31 →
  request1 f base off resid → 0 < resid → resid < Z.of_nat k →
  wp (rwip_loop fuel k ip true IFREG dev ioflag flags) (λ r f', ∃ v' A' F' n, 0 ≤ n ≤ resid ∧
    f' = advance (f<|fvol := v'|>) base off resid n ∧ volume v' [] A' F' ∧ files dev v' A' F' ∧
    (r = inr 0 ∧ n = resid ∧ u_error (bst v') = 0 ∨ r = inl ENOSPC ∧ n < resid) ∧
    sized (fvol f) v' ip (grown_size (i_size z) off n) ∧ wrote (fvol f) A v' A' ip (umem f) base off n) f.
Proof.
  induction k as [|k IH]; intros f A F ip z base off resid HS Hz Hp Hsz Hr Hpos Hk; [lia|].
  pose proof Hr as [R1 R2 R3 R4 R5 R6]. cbn [rwip_loop]. apply wp_bind, wp_gets, wp_bind, wp_gets. cbv zeta. rewrite R2, R3.
  rewrite lblkno_div, blkoff_mod by lia. pose proof (Z.mod_pos_bound off 1024 ltac:(lia)) as Hmod.
  set (n := Z.min (1024 - off mod 1024) resid). assert (Hn : 0 < n ≤ resid ∧ off mod 1024 + n ≤ 1024) by lia. destruct Hn as [Hn Hn'].
  apply wp_bind. eapply wp_mono; [apply (wp_rw_map_write f A F ip z off n flags HS Hz Hp Hsz R2); lia|].
  intros r f1 (v1 & A1 & F1 & -> & Hv1 & Hf1 & [(-> & Hs1 & HC1)|(b & -> & Hb & He1 & Hs1 & Hfb & HC1)]).
  { apply wp_ret. exists v1, A1, F1, 0. rewrite advance_0 by (by split). split_and!; try done; [lia|by right|by apply wrote_0]. }
  destruct Hs1 as ((z1 & Hz1 & Es1 & Hp1) & Hk1).
  eapply (wp_write_chunk _ A1 F1 ip z1 b base off resid n ioflag (off / 1024) (λ n,
      e ← gets (λ f, u_error (bst (fvol f))); resid ← gets uio_resid;
      if (e =? 0) && negb (resid =? 0) && negb (n =? 0) then rwip_loop fuel k ip true IFREG dev ioflag flags else mret (inr 0)));
    [by split|exact Hz1|done|by split|done|done|done|done|]. fields.
  intros v2 A2 HS2 Hs2 HC2. apply wp_bind, wp_gets, wp_bind, wp_gets.
  assert (HW : wrote (fvol f) A v2 A2 ip (umem f) base off n).
  { intros j o Ho. rewrite HC2 by done. unfold pasted. rewrite slice_length by lia. destruct (in_chunk off n o) as [I1 I2]; [lia..|].
    pose proof (Z.mod_pos_bound o 1024 ltac:(lia)).
    destruct (decide (j = ip)) as [->|Hne].
    - destruct (decide (off ≤ o < off + n)) as [Hin|Hout]; [by rewrite !decide_True by (try split; lia)|].
      rewrite !decide_False by (try lia; tauto). apply HC1; [done|]. destruct (decide (n = 1024)); [|by left]. do 2 right. lia.
    - rewrite decide_False by tauto. apply HC1; [done|]. right. by left. }
  assert (HZ : sized (fvol f) v2 ip (grown_size (i_size z) off n)).
  { unfold grown_size. rewrite (proj2 (Z.eqb_neq n 0)) by lia. rewrite <- Es1. eapply sized_trans; [|exact Hs2].
    split; [by exists z1|exact Hk1]. }
  unfold advance at 1 2. fields. rewrite (so_error _ _ _ HS2). simpl. destruct (Z.eqb_spec (resid - n) 0) as [E0|E0].
  - simpl. apply wp_ret. assert (En : n = resid) by lia. destruct HS2. exists v2, A2, F1, n. split_and!; try done; try lia; by left.
  - rewrite (proj2 (Z.eqb_neq n 0)) by lia. simpl. destruct HZ as ((z2 & Hz2 & Es2 & Hp2) & Hk2).
    assert (Hgs : grown_size (i_size z) off n = Z.max (i_size z) (off + n)) by (unfold grown_size; by rewrite (proj2 (Z.eqb_neq n 0)) by lia).
    set (g := advance (f<|fvol := v2|>) base off resid n). assert (Eg : fvol g = v2 ∧ umem g = umem f) by done. destruct Eg as [Eg1 Eg2].
    eapply wp_mono; [rewrite <- Eg1 in HS2, Hz2; apply (IH g A2 F1 ip z2 (base + n) (off + n) (resid - n) HS2 Hz2 Hp2); [by rewrite Es2, Hgs; lia| |lia..]|].
    { apply advance_request; [by split|lia]. }
    rewrite Eg1, Eg2. intros r f' (v' & A' & F' & m & Hm & -> & Hv' & Hf' & Hres & Hs' & HW'). exists v', A', F', (n + m). split; [lia|].
    split; [unfold g; rewrite advance_add; by destruct f|]. split; [done|]. split; [done|].
    split; [destruct Hres as [(-> & -> & ?)|(-> & ?)]; [left|right]; split_and!; try done; lia|]. split.
    + replace (grown_size (i_size z) off (n + m)) with (grown_size (i_size z2) (off + n) m); [by eapply sized_trans; [split|]; eauto|].
      rewrite Es2. unfold grown_size. rewrite (proj2 (Z.eqb_neq n 0)), (proj2 (Z.eqb_neq (n + m) 0)) by lia.
      destruct (Z.eqb_spec m 0) as [->|]; [by rewrite Z.add_0_r|lia].
    + eapply wrote_add; [lia..| |]; [exact HW|exact HW'].
Qed.

(** ** Reading *)
Lemma wp_bmap_search v A F ip z off flags :
  sound v A F → inodes v !! ip = Some z → 0 ≤ off < 2^31 →
  wp (bmap fuel ip (off / 1024) B_READ flags) (λ b v', sound v' A F ∧ inodes v' = inodes v ∧ hint usable dev (rablock v') ∧
    let c := file_block dev v A ip (off / 1024) in b = if c =? 0 then -1 else c) v.
Proof.
  intros [Hv Hf He] Hz Ho. destruct (located off Ho) as (r & ix & El).
  eapply wp_mono; [by apply (wp_bmap parts usable dev fuel B_READ flags v A F ip z)|]. rewrite El. intros b v' (A' & F' & HM).
  pose proof HM as [M1 M2 M3 M4 M5 M6 M7]. pose proof (missing_none dev v A ip r ix) as Hm. unfold file_block. rewrite El. cbv zeta.
  unfold answer_ok in M6. change (negb (B_READ =? B_READ)) with false in M6. cbn [negb] in M6.
  destruct (Nat.eqb_spec (missing (inodes v) (A dev) (Path ip r ix)) 0) as [Em|Em].
  - destruct M6 as (-> & -> & -> & Ei & Ee). apply Hm in Em. rewrite (proj2 (Z.eqb_neq _ _)) by done.
    split_and!; [split; [done|done|congruence]|done|by apply M7|done].
  - destruct M6 as (-> & -> & -> & Ei & Ee). destruct (Z.eqb_spec (at_path dev v A (Path ip r ix)) 0) as [_|Hn]; [|by apply Hm in Hn].
    split_and!; [split; [done|done|congruence]|done|by apply M7|done].
Qed.

(** The buffer [i] is ours and holds the data [d], a block or, for a hole, no
    block. *)
Definition lent (s : bstate) A (i : nat) (d : block) : Prop :=
  bufdata s !! i = Some d ∧ ((∃ b x, holds parts usable s [] A i dev b x ∧ d = A dev b) ∨ ∃ x, holds_none parts usable s [] A i x).
Lemma lent_cache s A i d : lent s A i d → ∃ x, cache_ok parts usable s [i] A ∧ core s !! i = Some x.
Proof. intros [_ [(b & x & (? & ? & _) & _)|(x & ? & ? & _)]]; eauto. Qed.
Lemma lent_data s A i d : lent s A i d → has_data s i d.
Proof.
  intros [Hd Hor]. assert (HW : wp (load i) (λ d' s', d' = d ∧ s' = s) s).
  { destruct Hor as [(b & x & Hh & _)|(x & Hh)]; [by eapply (wp_bload parts usable)|by eapply (wp_load_none parts usable)]. }
  unfold has_data. unfold wp in HW. destruct (load i s) as [[d' s']| | |]; try done. by destruct HW as [-> ->].
Qed.
Lemma lent_error s A i d e : lent s A i d → lent (s<|u_error := e|>) A i d.
Proof.
  intros [Hd [(b & x & Hh & E)|(x & Hc & Hh)]]; split; [done|left; exists b, x; split; [by apply holds_error|done]|done|right; exists x; split; [by apply cache_error|done]].
Qed.

(** The buffer is given back, to be used again soon if [age]. *)
Lemma wp_lent_release v A F i d (age : bool) :
  volume v [] A F → ∀ s, lent s A i d →
  wp ((if age then set_flags i B_AGE else mret tt);; brelse i) (λ _ s', volume (v<|bst := s'|>) [] A F ∧ u_error s' = u_error s) s.
Proof.
  intros Hv s [Hd Hor]. apply wp_bind.
  apply (wp_mono _ (λ _ s', lent s' A i d ∧ u_error s' = u_error s)).
  - destruct age; [|by apply wp_ret]. assert (Hc : ∃ x, cache_ok parts usable s [i] A ∧ core s !! i = Some x) by (by apply (lent_cache s A i d)).
    destruct Hc as (x0 & Hc & Hx0). eapply (wp_age parts usable); [exact Hc|exact Hx0|].
    intros s1 x1 Hc1 C1 (S1 & S2 & S3 & S4) Fl (K1 & K2 & K3 & K4).
    assert (Hx1 : core s1 !! i = Some x1) by (rewrite C1; apply list_lookup_insert_eq; by eapply lookup_lt_Some).
    split; [|done]. split; [by rewrite K1|]. destruct Hor as [(b & x & (_ & Hx & Hb & Ha) & E)|(x & _ & Hx & Hi & He)].
    + assert (x = x0) as -> by congruence. left. exists b, x1. split; [|done]. split_and!; try done; [unfold is_block in *; by rewrite S1, S2, S3|].
      by rewrite Fl, has_lor, Ha.
    + assert (x = x0) as -> by congruence. right. exists x1. split_and!; try done; by rewrite Fl, has_lor, ?Hi, ?He.
  - intros [] s1 [[Hd1 Hor1] Ee]. destruct Hor1 as [(b & x & Hh & E)|(x & Hh)].
    + eapply wp_mono; [eapply (wp_brelease parts usable); [exact Hh|by rewrite <- E]|]. intros [] s' [Hc' [_ Ue]].
      split; [by apply (volume_cache parts usable dev v s' [])|congruence].
    + eapply wp_mono; [eapply (wp_release_none parts usable); exact Hh|]. intros [] s' [Hc' [_ Ue]].
      split; [by apply (volume_cache parts usable dev v s' [])|congruence].
Qed.

(** The buffer for a read: zeros for a hole, with or without the next block. *)
Lemma wp_rw_buf_read f A F ip z lbn b n :
  sound (fvol f) A F → inodes (fvol f) !! ip = Some z → hint usable dev (rablock (fvol f)) →
  b = -1 ∨ fs_isize (sb (fvol f)) ≤ b < fs_fsize (sb (fvol f)) →
  wp (rw_buf fuel ip false dev lbn b n) (λ i f', ∃ s', f' = f<|fvol := (fvol f)<|bst := s'|><|inodes := <[ip := z<|i_lastr := lbn|>]> (inodes (fvol f))|>|> ∧
    lent s' A i (if b <? 0 then zero_block else A dev b) ∧ u_error s' = 0) f.
Proof.
  intros [Hv Hf He] Hz Hra Hb. destruct (vo_bounds _ _ _ _ _ _ _ Hv) as [B1 B2]. unfold rw_buf. cbn [negb]. cbv iota.
  apply wp_bind. eapply wp_look; [exact Hz|]. apply wp_bind, wp_gets, wp_bind.
  apply (wp_mono _ (λ i f', ∃ s', f' = f<|fvol := (fvol f)<|bst := s'|>|> ∧ lent s' A i (if b <? 0 then zero_block else A dev b) ∧ u_error s' = 0)).
  - destruct (Z.ltb_spec b 0) as [Hneg|Hpos].
    + apply wp_bind, wp_in_cache. eapply wp_mono; [apply (wp_geteblk parts usable fuel (bst (fvol f)) [] A); [apply Hv|vm_compute; lia|done]|].
      intros i s1 (_ & [_ Ue] & x & Hh). apply wp_bind, wp_on_vol. unfold clear_block. apply wp_on_cache. fields.
      eapply (wp_store_none parts usable); [exact Hh|]. intros Hh' Hd'. apply wp_ret. eexists. split; [by destruct f as [[] ? ? ? ? ? ? ?]|].
      split; [|by rewrite <- He]. split; [exact Hd'|]. right. by exists x.
    + destruct Hb as [->|Hb]; [done|].
      assert (Hfe : ∀ i s1, fetched parts usable (bst (fvol f)) s1 [] A dev b i →
        ∃ s', f<|fvol := (fvol f)<|bst := s1|>|> = f<|fvol := (fvol f)<|bst := s'|>|> ∧ lent s' A i (A dev b) ∧ u_error s' = 0).
      { intros i s1 (Ho & Hd & _). destruct (obtained_holds _ _ _ _ _ _ _ _ _ Ho) as (x & Hh & [_ Ue] & _). exists s1.
        split_and!; [done| |congruence]. split; [done|]. left. by exists b, x. }
      destruct (i_lastr z + 1 =? lbn); apply wp_in_cache.
      * eapply wp_mono; [apply (wp_breada parts usable fuel (bst (fvol f)) [] A dev b); [apply Hv|apply Hv; lia|exact Hra|apply unused_nil|vm_compute; lia|done]|exact Hfe].
      * eapply wp_mono; [apply (wp_bread parts usable fuel (bst (fvol f)) [] A dev b); [apply Hv|apply Hv; lia|apply unused_nil|vm_compute; lia|done]|exact Hfe].
  - intros i f' (s' & -> & Hl & Ee). apply wp_bind, wp_on_vol. fields. eapply wp_set_inode; [exact Hz|]. apply wp_ret. exists s'.
    by split_and!.
Qed.

(** The bytes of the file from [off] on. *)
Definition file_bytes v A (ip : nat) (off n : Z) : list Z := (λ j, content v A ip (off + Z.of_nat j)) <$> seq 0 (Z.to_nat n).
Lemma file_bytes_length v A ip off n : length (file_bytes v A ip off n) = Z.to_nat n.
Proof. unfold file_bytes. by rewrite length_fmap, length_seq. Qed.
Lemma file_bytes_lookup v A ip off n j : (j < Z.to_nat n)%nat → file_bytes v A ip off n !! j = Some (content v A ip (off + Z.of_nat j)).
Proof. intros Hj. unfold file_bytes. rewrite list_lookup_fmap, lookup_seq_lt by done. done. Qed.
Lemma file_bytes_add v A ip off n m : 0 ≤ n → 0 ≤ m → file_bytes v A ip off (n + m) = file_bytes v A ip off n ++ file_bytes v A ip (off + n) m.
Proof.
  intros Hn Hm. unfold file_bytes. rewrite Z2Nat.inj_add, seq_app, fmap_app by lia. f_equal. simpl.
  replace (seq (Z.to_nat n) (Z.to_nat m)) with (Nat.add (Z.to_nat n) <$> seq 0 (Z.to_nat m)) by (rewrite fmap_add_seq; f_equal; lia).
  rewrite <- list_fmap_compose. apply list_fmap_ext. intros j y _. simpl. f_equal. lia.
Qed.
(** A stretch of a block is a stretch of the file. *)
Lemma chunk_bytes v A ip off n b :
  0 ≤ off → 0 < n → off mod 1024 + n ≤ 1024 → file_block dev v A ip (off / 1024) = b →
  slice (block_bytes (if b =? 0 then zero_block else A dev b)) (off mod 1024) n = file_bytes v A ip off n.
Proof.
  intros Ho Hn Hon Hb. pose proof (Z.mod_pos_bound off 1024 ltac:(lia)) as Hmod. set (d := if b =? 0 then zero_block else A dev b).
  assert (Hl : length (slice (block_bytes d) (off mod 1024) n) = Z.to_nat n) by (apply slice_length; rewrite ?block_bytes_length; lia).
  apply list_eq_same_length with (n := Z.to_nat n); [by rewrite file_bytes_length|done|].
  intros j x y Hj Hx Hy. rewrite file_bytes_lookup in Hy by done. injection Hy as <-.
  rewrite <- (Nat2Z.id j), slice_lookup in Hx by (rewrite ?block_bytes_length; lia).
  assert (Ej : (off + Z.of_nat j) / 1024 = off / 1024 ∧ (off + Z.of_nat j) mod 1024 = off mod 1024 + Z.of_nat j).
  { pose proof (Z.div_mod off 1024 ltac:(lia)).
    split; [symmetry; apply (Z.div_unique _ _ _ (off mod 1024 + Z.of_nat j))|symmetry; apply (Z.mod_unique _ _ (off / 1024))]; lia. }
  destruct Ej as [Ej1 Ej2]. unfold Fileio.content. rewrite Ej1, Ej2, Hb. unfold d in Hx.
  destruct (b =? 0); [|unfold byte_of; by rewrite Hx].
  rewrite <- (byte_of_zero (off mod 1024 + Z.of_nat j)). unfold byte_of. by rewrite Hx.
Qed.

Lemma wp_rw_map_read f A F ip z off n flags :
  sound (fvol f) A F → inodes (fvol f) !! ip = Some z → 0 ≤ i_size z < 2^31 → uio_offset f = off → 0 ≤ off < 2^31 →
  wp (rw_map fuel ip false IFREG flags (off / 1024) n) (λ r f',
    if i_size z <=? off then r = inl 0 ∧ f' = f
    else ∃ v', f' = f<|fvol := v'|> ∧ sound v' A F ∧ inodes v' = inodes (fvol f) ∧ hint usable dev (rablock v') ∧
      let c := file_block dev (fvol f) A ip (off / 1024) in r = inr (Z.min n (i_size z - off), if c =? 0 then -1 else c)) f.
Proof.
  intros HS Hz Hsz Eo Ho. unfold rw_map. apply wp_bind, wp_gets, wp_bind. eapply wp_look; [exact Hz|]. rewrite Eo.
  change (IFREG =? IFBLK) with false. cbn [negb andb]. cbv iota zeta. rewrite s32_id by lia.
  destruct (Z.leb_spec (i_size z) off) as [Hle|Hgt].
  - rewrite (proj2 (Z.leb_le _ _)) by lia. by apply wp_ret.
  - rewrite (proj2 (Z.leb_gt _ _)) by lia.
    replace (if i_size z - off <? n then i_size z - off else n) with (Z.min n (i_size z - off)) by (destruct (Z.ltb_spec (i_size z - off) n); lia).
    apply wp_bind, wp_on_vol. eapply wp_mono; [by apply (wp_bmap_search (fvol f) A F ip z off flags)|].
    intros b v' (HS' & Ei & Hra & Eb). apply wp_bind, wp_gets. fields. rewrite (so_error _ _ _ HS'). change (0 =? 0) with true. cbn [negb orb].
    apply wp_bind. eapply wp_look; [fields; by rewrite Ei|]. apply wp_bind, wp_ret, wp_ret. exists v'. split_and!; try done. by rewrite Eb.
Qed.

Lemma content_same v v' A : inodes v' = inodes v → ∀ k o, content v' A k o = content v A k o.
Proof. intros E k o. unfold Fileio.content, file_block, at_path. by rewrite E. Qed.

(** The end of a step that read. *)
Lemma wp_rw_release_read f A F ip z i d ioflag n on :
  volume (fvol f) [] A F → ∀ s, lent s A i d → inodes (fvol f) !! ip = Some z → has (i_flag z) IPIPE = false → ∀ g, g = f<|fvol := (fvol f)<|bst := s|>|> →
  wp (rw_release fuel ip false ioflag n on i) (λ _ f', ∃ s', f' = f<|fvol := (fvol f)<|bst := s'|>|> ∧ volume ((fvol f)<|bst := s'|>) [] A F ∧ u_error s' = u_error s) g.
Proof.
  intros Hv s Hl Hz Hp g ->. unfold rw_release. apply wp_bind. eapply wp_look; [exact Hz|]. cbn [negb]. cbv iota. rewrite Hp. apply wp_bind, wp_gets. fields.
  pose proof (wp_lent_release (fvol f) A F i d ((n + on =? 1024) || (uio_offset f =? i_size z)) Hv s Hl) as HW.
  assert (HE : wp (in_cache ((if (n + on =? 1024) || (uio_offset f =? i_size z) then set_flags i B_AGE else mret tt);; brelse i))
    (λ _ f', ∃ s', f' = f<|fvol := (fvol f)<|bst := s'|>|> ∧ volume ((fvol f)<|bst := s'|>) [] A F ∧ u_error s' = u_error s) (f<|fvol := (fvol f)<|bst := s|>|>)).
  { apply wp_in_cache. eapply wp_mono; [exact HW|]. intros [] s' [? ?]. by exists s'. }
  destruct ((n + on =? 1024) || (uio_offset f =? i_size z)).
  - apply wp_in_cache2, wp_unbind in HE. apply wp_bind, wp_bind. eapply wp_mono; [exact HE|]. intros [] f' HE'. by apply wp_ret.
  - exact HE.
Qed.

(** A stretch of bytes within one block is read. *)
Lemma wp_read_chunk f A F ip z base off resid n ioflag lbn c (kont : Z → X (Z + Z)) (Q : Z + Z → fio → Prop) :
  sound (fvol f) A F → inodes (fvol f) !! ip = Some z → has (i_flag z) IPIPE = false → hint usable dev (rablock (fvol f)) →
  request1 f base off resid → 0 < n ≤ resid → off mod 1024 + n ≤ 1024 →
  (∀ v', sound v' A F → sized (fvol f) v' ip (i_size z) → (∀ k o, content v' A k o = content (fvol f) A k o) →
     wp (kont n) Q (advance (f<|fvol := v'|><|umem := splice (umem f) (Z.to_nat base) (file_bytes (fvol f) A ip off n)|>) base off resid n)) →
  c = file_block dev (fvol f) A ip (off / 1024) →
  wp (bp ← rw_buf fuel ip false dev lbn (if c =? 0 then -1 else c) n; x ← in_cache (buf_at bp);
      let n := Z.min n (1024 - b_resid x) in
      if has (b_flags x) B_ERROR then in_cache (brelse bp);; mret (inr EIO)
      else e ← uiomove false bp (off mod 1024) n; on_vol (set_error e);; rw_release fuel ip false ioflag n (off mod 1024) bp;; kont n) Q f.
Proof.
  intros HS Hz Hp Hra Hr Hn Hon HQ Ec. pose proof HS as [Hv Hf He]. pose proof Hr as [R1 R2 R3 R4 R5 R6].
  pose proof (Z.mod_pos_bound off 1024 ltac:(lia)) as Hmod. destruct (vo_bounds _ _ _ _ _ _ _ Hv) as [B1 B2].
  assert (Hc : (if c =? 0 then -1 else c) = -1 ∨ fs_isize (sb (fvol f)) ≤ (if c =? 0 then -1 else c) < fs_fsize (sb (fvol f))).
  { destruct (Z.eqb_spec c 0) as [|Hc0]; [by left|right]. subst c. unfold file_block in *. destruct (locate (off / 1024)) as [[r ix]|] eqn:El; [|done].
    assert (Hfull : full (Path ip r ix)) by (by eapply locate_full). apply (fo_range _ _ _ _ _ _ Hf _ (proj1 Hfull) Hc0). }
  assert (Ed : (if (if c =? 0 then -1 else c) <? 0 then zero_block else A dev (if c =? 0 then -1 else c)) = if c =? 0 then zero_block else A dev c).
  { destruct (Z.eqb_spec c 0) as [|Hc0]; [done|]. destruct Hc as [Hc|Hc]; [|by rewrite (proj2 (Z.ltb_ge _ _)) by lia].
    exfalso. subst c. unfold file_block in *. destruct (locate (off / 1024)) as [[r ix]|] eqn:El; [|done].
    assert (Hfull : full (Path ip r ix)) by (by eapply locate_full). destruct (fo_range _ _ _ _ _ _ Hf _ (proj1 Hfull) Hc0). unfold at_path in Hc. lia. }
  apply wp_bind. eapply wp_mono; [by apply (wp_rw_buf_read f A F ip z lbn _ n HS Hz Hra)|]. rewrite Ed.
  intros i f1 (s1 & -> & Hl & Ee). destruct (lent_cache _ _ _ _ Hl) as (x & Hcx & Hx). apply wp_bind, wp_in_cache. fields.
  eapply held_at; [exact Hcx|exact Hx|]. intros y Ey1 Ey2. rewrite Ey1, Ey2. cbv zeta. replace (Z.min n (1024 - 0)) with n by lia.
  set (z1 := z<|i_lastr := lbn|>). set (v1 := (fvol f)<|inodes := <[ip := z1]> (inodes (fvol f))|>).
  assert (HS1 : sound v1 A F) by (apply (sound_inode (fvol f) A F ip z z1 HS Hz); done).
  assert (Hz1 : inodes v1 !! ip = Some z1) by (unfold v1; fields; apply list_lookup_insert_eq; by eapply lookup_lt_Some).
  set (mem := splice (umem f) (Z.to_nat base) (file_bytes (fvol f) A ip off n)).
  assert (Emem : splice (umem f) (Z.to_nat base) (slice (block_bytes (if c =? 0 then zero_block else A dev c)) (off mod 1024) n) = mem).
  { unfold mem. f_equal. apply chunk_bytes; [lia..|done]. }
  apply wp_bind. eapply wp_uiomove_read; [by split|done|lia|lia|eapply lent_data; exact Hl|]. fields. rewrite Emem.
  apply wp_bind, wp_on_vol, wp_set_error, wp_bind. set (g := advance (f<|fvol := v1|><|umem := mem|>) base off resid n).
  eapply wp_mono; [apply (wp_rw_release_read g A F ip z1 i (if c =? 0 then zero_block else A dev c) ioflag n (off mod 1024) (so_volume _ _ _ HS1) (s1<|u_error := 0|>)); [by apply lent_error|done|done|]|].
  { by destruct f as [[] ? ? ? ? ? ? ?]. }
  intros [] f3 (s' & -> & Hv' & Ee'). set (v3 := v1<|bst := s'|>).
  assert (Hin : inodes v3 = inodes v1) by done.
  match goal with |- wp _ _ ?h => replace h with (advance (f<|fvol := v3|><|umem := mem|>) base off resid n) by (by destruct f as [[] ? ? ? ? ? ? ?]) end.
  apply (HQ v3).
  - split; [exact Hv'|apply HS1|done].
  - assert (HZ := sized_inode (fvol f) ip z z1 Hz). exact (HZ Hp eq_refl).
  - intros k o. rewrite (content_same v1 v3 A Hin). by apply (content_inode (fvol f) A ip z z1).
Qed.

Definition readable (size off resid : Z) : Z := Z.max 0 (Z.min resid (size - off)).

(** What a read has done. *)
Definition was_read f A F (ip : nat) (size base off resid : Z) f' : Prop :=
  let n := readable size off resid in
  ∃ v', f' = advance (f<|fvol := v'|><|umem := splice (umem f) (Z.to_nat base) (file_bytes (fvol f) A ip off n)|>) base off resid n ∧
    sound v' A F ∧ sized (fvol f) v' ip size ∧ ∀ k o, content v' A k o = content (fvol f) A k o.

Lemma was_read_nothing f v' A F ip z base off resid :
  request1 f base off resid → inodes (fvol f) !! ip = Some z → has (i_flag z) IPIPE = false → readable (i_size z) off resid = 0 →
  fvol f = v' → sound v' A F → was_read f A F ip (i_size z) base off resid f.
Proof.
  intros Hr Hz Hp En <- HS. exists (fvol f). rewrite En. change (file_bytes (fvol f) A ip off 0) with (@nil Z). rewrite splice_nil. split_and!; try done.
  - replace (f<|fvol := fvol f|><|umem := umem f|>) with f by (by destruct f). by rewrite advance_0.
  - by split; [exists z|].
Qed.

Lemma wp_read_loop ioflag flags k : ∀ f A F ip z base off resid,
  sound (fvol f) A F → inodes (fvol f) !! ip = Some z → has (i_flag z) IPIPE = false → 0 ≤ i_size z < 2^31 →
  request1 f base off resid → 0 < resid → resid < Z.of_nat k →
  wp (rwip_loop fuel k ip false IFREG dev ioflag flags) (λ r f', (r = inl 0 ∨ r = inr 0) ∧ was_read f A F ip (i_size z) base off resid f') f.
Proof.
  induction k as [|k IH]; intros f A F ip z base off resid HS Hz Hp Hsz Hr Hpos Hk; [lia|].
  pose proof Hr as [R1 R2 R3 R4 R5 R6]. cbn [rwip_loop]. apply wp_bind, wp_gets, wp_bind, wp_gets. cbv zeta. rewrite R2, R3.
  rewrite lblkno_div, blkoff_mod by lia. pose proof (Z.mod_pos_bound off 1024 ltac:(lia)) as Hmod.
  apply wp_bind. eapply wp_mono; [apply (wp_rw_map_read f A F ip z off (Z.min (1024 - off mod 1024) resid) flags HS Hz Hsz R2); lia|].
  intros r f1. destruct (Z.leb_spec (i_size z) off) as [Hle|Hgt].
  { intros [-> ->]. apply wp_ret. split; [by left|]. eapply was_read_nothing; try done. unfold readable. lia. }
  intros (v1 & -> & HS1 & Ei & Hra & Er). cbv zeta in Er. rewrite Er. clear Er.
  set (n := Z.min (Z.min (1024 - off mod 1024) resid) (i_size z - off)).
  assert (Hn : 0 < n ≤ resid ∧ off mod 1024 + n ≤ 1024 ∧ n ≤ i_size z - off) by lia. destruct Hn as (Hn & Hn' & Hn'').
  assert (HC1 := content_same (fvol f) v1 A Ei). assert (Efb : file_bytes v1 A ip off n = file_bytes (fvol f) A ip off n).
  { unfold file_bytes. apply list_fmap_ext. intros j y _. apply HC1. }
  assert (Ec : file_block dev (fvol f) A ip (off / 1024) = file_block dev v1 A ip (off / 1024)) by (unfold file_block, at_path; by rewrite Ei). rewrite Ec.
  assert (Hz1 : inodes v1 !! ip = Some z) by (by rewrite Ei).
  eapply (wp_read_chunk (f<|fvol := v1|>) A F ip z base off resid n ioflag (off / 1024) _ (λ n,
      e ← gets (λ f, u_error (bst (fvol f))); resid ← gets uio_resid;
      if (e =? 0) && negb (resid =? 0) && negb (n =? 0) then rwip_loop fuel k ip false IFREG dev ioflag flags else mret (inr 0)));
    [done|exact Hz1|done|done|by split|done|done| |done]. fields.
  intros v2 HS2 Hs2 HC2. apply wp_bind, wp_gets, wp_bind, wp_gets. rewrite Efb.
  set (mem := splice (umem f) (Z.to_nat base) (file_bytes (fvol f) A ip off n)).
  assert (Hmem : length mem = length (umem f)) by (unfold mem; apply splice_length; rewrite file_bytes_length; lia).
  assert (Hby : Forall is_byte mem).
  { unfold mem. apply splice_bytes; [done|]. rewrite <- (chunk_bytes (fvol f) A ip off n _ ltac:(lia) ltac:(lia) Hn' eq_refl). apply slice_bytes, block_bytes_bytes. }
  set (g := advance (f<|fvol := v1|><|fvol := v2|><|umem := mem|>) base off resid n).
  assert (Hs2' : sized (fvol f) v2 ip (i_size z)) by (destruct Hs2 as (Hs2 & Hs3 & Hs4); split_and!; [done|intros j Hj; by rewrite Hs3, Ei by done|unfold kind in *; by rewrite Hs4, Ei]).
  assert (HC : ∀ j o, content v2 A j o = content (fvol f) A j o) by (intros j o; by rewrite HC2).
  assert (Eg : fvol g = v2 ∧ umem g = mem ∧ uio_resid g = resid - n) by done. destruct Eg as (Eg1 & Eg2 & Eg3). rewrite Eg1, Eg3.
  rewrite (so_error _ _ _ HS2). change (0 =? 0) with true. rewrite (proj2 (Z.eqb_neq n 0)) by lia. cbn [andb negb]. rewrite andb_true_r.
  destruct (Z.eqb_spec (resid - n) 0) as [E0|E0]; cbn [negb].
  - apply wp_ret. split; [by right|]. exists v2. assert (n = resid) by lia. replace (readable (i_size z) off resid) with n by (unfold readable; lia).
    by split_and!.
  - destruct Hs2' as ((z2 & Hz2 & Es2 & Hp2) & Hk2).
    eapply wp_mono; [rewrite <- Eg1 in HS2, Hz2; apply (IH g A F ip z2 (base + n) (off + n) (resid - n) HS2 Hz2 Hp2); [lia| |lia..]|].
    { apply advance_request; [|lia]. split; fields; try done. by rewrite Hmem. }
    intros r' f' [Hr' (v' & -> & HS' & Hs' & HC')]. split; [done|]. rewrite Eg1, Es2 in *. exists v'.
    set (m := readable (i_size z) (off + n) (resid - n)) in *.
    assert (Hm : 0 ≤ m ≤ resid - n ∧ readable (i_size z) off resid = n + m) by (unfold m, readable; lia). destruct Hm as [Hm ->].
    split_and!; [|done| |].
    + assert (Eb : file_bytes v2 A ip (off + n) m = file_bytes (fvol f) A ip (off + n) m).
      { unfold file_bytes. apply list_fmap_ext. intros j y _. apply HC. }
      rewrite Eg2, Eb. replace (Z.to_nat (base + n)) with (Z.to_nat base + length (file_bytes (fvol f) A ip off n))%nat by (rewrite file_bytes_length; lia).
      unfold mem. rewrite splice_splice by (rewrite !file_bytes_length; lia). rewrite <- file_bytes_add by lia.
      unfold g, advance. rewrite !Z.add_assoc, Z.sub_add_distr. by destruct f.
    + eapply sized_trans; [|exact Hs']. split; [by exists z2|exact Hk2].
    + intros j o. by rewrite HC'.
Qed.

Context `{!Chardevs}.

(** Where a write begins. *)
Definition start (z : inode) (ioflag off : Z) : Z := if has ioflag IO_APPEND then i_size z else off.
(** A regular file that is not a pipe. *)
Record regular v (ip : nat) (z : inode) : Prop := Regular {
  rg_inode : inodes v !! ip = Some z;
  rg_type : Z.land (i_mode z) IFMT = IFREG;
  rg_pipe : has (i_flag z) IPIPE = false;
  rg_size : 0 ≤ i_size z < 2^31 }.

(** Nothing was moved. *)
Definition unmoved f f' (resid off : Z) : Prop := fvol f' = fvol f ∧ umem f' = umem f ∧ uio_resid f' = resid ∧ uio_offset f' = off.
(** The outcome of a write that is let through. *)
Definition written f A (ip : nat) (z : inode) (base off resid r : Z) f' : Prop :=
  ∃ A' F' n, 0 ≤ n ≤ resid ∧ volume (fvol f') [] A' F' ∧ files dev (fvol f') A' F' ∧
    uio_resid f' = resid - n ∧ uio_offset f' = off + n ∧ umem f' = umem f ∧ posted f' = posted f ∧
    (r = 0 ∧ n = resid ∧ u_error (bst (fvol f')) = 0 ∨ r = ENOSPC ∧ n < resid) ∧
    sized (fvol f) (fvol f') ip (grown_size (i_size z) off n) ∧ wrote (fvol f) A (fvol f') A' ip (umem f) base off n.

Lemma wp_rw_transfer_write f A F ip z base off resid ioflag :
  sound (fvol f) A F → regular (fvol f) ip z → request1 f base off resid → 0 < resid →
  wp (rw_transfer fuel ip true IFREG dev ioflag) (λ r f', written f A ip z base off resid r f') f.
Proof.
  intros HS [G1 G2 G3 G4] Hr Hpos. pose proof Hr as [R1 R2 R3 R4 R5 R6]. unfold rw_transfer. apply wp_bind, wp_gets. rewrite R3.
  apply wp_bind. eapply wp_look; [exact G1|]. cbv zeta. apply wp_bind.
  eapply wp_mono; [apply (wp_write_loop ioflag _ _ f A F ip z base off resid HS G1 G3 G4 Hr Hpos); lia|].
  intros r f' (v' & A' & F' & n & Hn & -> & Hv & Hf & Hres & Hs & HW).
  destruct Hres as [(-> & -> & Ee)|(-> & Hlt)].
  - apply wp_bind, wp_gets. unfold advance. fields. rewrite Ee. simpl. apply wp_ret. exists A', F', resid. fields. split_and!; try done; try lia; by left.
  - apply wp_ret. exists A', F', n. unfold advance. fields. split_and!; try done; try lia; by right.
Qed.

Lemma wp_rwip_write f A F ip z base off resid ioflag :
  sound (fvol f) A F → regular (fvol f) ip z → request1 f base off resid → i_size z + resid < 2^31 →
  wp (rwip fuel ip true ioflag) (λ r f',
    let off := start z ioflag off in
    if has (i_flags z) APPEND && negb (off =? i_size z) then r = EPERM ∧ unmoved f f' resid off
    else if resid =? 0 then r = 0 ∧ unmoved f f' resid off
    else if u32 (fsize_cur f) <? off + resid then
      r = EFBIG ∧ unmoved f f' resid off ∧ posted f' = SIGXFSZ :: posted f
    else written f A ip z base off resid r f') f.
Proof.
  intros HS HG Hr Hlim. pose proof HG as [G1 G2 G3 G4]. pose proof Hr as [R1 R2 R3 R4 R5 R6]. destruct (fo_inode _ _ _ _ _ _ (so_files _ _ _ HS) ip z G1) as [Hl Hdev].
  unfold rwip. apply wp_bind. eapply wp_look; [exact G1|]. destruct (lookup_lt_is_Some_2 (i_addr z) 1) as [a Ha]; [lia|].
  apply wp_bind. eapply wp_lift; [by apply rd_Done|]. cbv zeta. rewrite G2, Hdev. apply wp_bind. unfold rw_check.
  change (IFREG =? IFREG) with true. change (IFREG =? IFCHR) with false. change (IFREG =? IFBLK) with false. cbn [negb andb orb]. cbv iota.
  apply wp_bind. eapply wp_look; [exact G1|]. set (off' := start z ioflag off). set (f1 := f<|uio_offset := off'|>).
  assert (Hr1 : request1 f1 base off' resid).
  { unfold f1. split; fields; try done. unfold off', start. destruct (has ioflag IO_APPEND); lia. }
  apply wp_bind. apply (wp_mono _ (λ _ g, g = f1)).
  { unfold f1, off', start. destruct (has ioflag IO_APPEND); [by apply wp_modify|]. apply wp_ret. rewrite <- R2. by destruct f. }
  intros [] g ->. apply wp_bind, wp_gets. change (uio_offset f1) with off'.
  destruct (has (i_flags z) APPEND && negb (off' =? i_size z)); [by apply wp_ret, wp_ret|].
  apply wp_ret. apply wp_bind, wp_gets, wp_bind, wp_gets, wp_bind, wp_gets, wp_bind, wp_gets. pose proof Hr1 as [Q1 Q2 Q3 Q4 Q5 Q6].
  rewrite Q3, Q2. destruct (Z.eqb_spec resid 0) as [->|Hne]; [by apply wp_ret|]. change (fsize_cur f1) with (fsize_cur f). rewrite (u32_id (off' + resid)) by lia.
  destruct (u32 (fsize_cur f) <? off' + resid).
  - apply wp_bind, wp_modify, wp_ret. by repeat split.
  - by apply (wp_rw_transfer_write f1 A F ip z base off' resid); [..|lia].
Qed.

(** The outcome of a read. *)
Definition read_ok f A F (ip : nat) (z : inode) (base off resid : Z) f' : Prop :=
  let n := readable (i_size z) off resid in
  uio_resid f' = resid - n ∧ uio_offset f' = off + n ∧ fsize_cur f' = fsize_cur f ∧
  umem f' = splice (umem f) (Z.to_nat base) (file_bytes (fvol f) A ip off n) ∧
  sound (fvol f') A F ∧ sized (fvol f) (fvol f') ip (i_size z) ∧ ∀ k o, content (fvol f') A k o = content (fvol f) A k o.

(** The marks of an inode change, but not the one of a pipe. *)
Definition remarked v v' A F (ip : nat) (z : inode) : Prop :=
  ∃ z', sound v' A F ∧ regular v' ip z' ∧ i_size z' = i_size z ∧ i_addr z' = i_addr z ∧ i_flags z' = i_flags z ∧
    sized v v' ip (i_size z) ∧ ∀ k o, content v' A k o = content v A k o.
Lemma wp_remark v A F ip z (h : Z → Z) :
  sound v A F → regular v ip z → has (h (i_flag z)) IPIPE = false →
  wp (set_inode ip (λ z, z<|i_flag ::= h|>)) (λ _ v', v' = v<|inodes := <[ip := z<|i_flag ::= h|>]> (inodes v)|> ∧ remarked v v' A F ip z) v.
Proof.
  intros HS [G1 G2 G3 G4] Hp. eapply wp_set_inode; [exact G1|]. split; [done|]. set (z1 := z<|i_flag ::= h|>). exists z1.
  split_and!; try done.
  - by apply (sound_inode v A F ip z z1).
  - split; try done. fields. apply list_lookup_insert_eq. by eapply lookup_lt_Some.
  - by apply (sized_inode v ip z z1).
  - intros k o. by apply (content_inode v A ip z z1).
Qed.
Lemma wp_mark_access v A F ip z : sound v A F → regular v ip z → wp (mark_access ip) (λ _ v', remarked v v' A F ip z) v.
Proof.
  intros HS HG. pose proof HG as [G1 G2 G3 G4]. unfold mark_access. apply wp_bind, wp_gets. destruct (negb (has (fs_flags (sb v)) MNT_NOATIME)).
  - eapply wp_mono; [apply (wp_remark v A F ip z (λ g, Z.lor g IACC) HS HG); by rewrite has_lor, G3|]. by intros [] v' [_ ?].
  - apply wp_ret. exists z. split_and!; try done. by split; [exists z|].
Qed.

Lemma wp_rwip_read f A F ip z base off resid ioflag :
  sound (fvol f) A F → regular (fvol f) ip z → request1 f base off resid →
  wp (rwip fuel ip false ioflag) (λ r f', r = 0 ∧ read_ok f A F ip z base off resid f') f.
Proof.
  intros HS HG Hr. pose proof HG as [G1 G2 G3 G4]. pose proof Hr as [R1 R2 R3 R4 R5 R6]. destruct (fo_inode _ _ _ _ _ _ (so_files _ _ _ HS) ip z G1) as [Hl Hdev].
  unfold rwip. apply wp_bind. eapply wp_look; [exact G1|]. destruct (lookup_lt_is_Some_2 (i_addr z) 1) as [a Ha]; [lia|].
  apply wp_bind. eapply wp_lift; [by apply rd_Done|]. cbv zeta. rewrite G2, Hdev. apply wp_bind. unfold rw_check.
  change (IFREG =? IFREG) with true. change (IFREG =? IFCHR) with false. change (IFREG =? IFBLK) with false. cbn [negb andb orb]. cbv iota.
  apply wp_bind, wp_on_vol. eapply wp_mono; [by apply (wp_mark_access (fvol f) A F ip z)|].
  intros [] v1 (z1 & HS1 & HG1 & Es & Ea & _ & Hs1 & HC1). apply wp_ret. apply wp_bind, wp_gets, wp_bind, wp_gets, wp_bind, wp_gets, wp_bind, wp_gets. fields. rewrite R3.
  set (g := f<|fvol := v1|>). assert (Hr1 : request1 g base off resid) by (by split).
  assert (Hfin : ∀ f', was_read g A F ip (i_size z1) base off resid f' → read_ok f A F ip z base off resid f').
  { intros f' (v' & -> & HS' & Hs' & HC'). rewrite Es in *. unfold read_ok. cbv zeta. set (n := readable (i_size z) off resid). unfold advance. fields.
    assert (Eb : file_bytes v1 A ip off n = file_bytes (fvol f) A ip off n) by (unfold file_bytes; apply list_fmap_ext; intros j y _; apply HC1).
    split_and!; try done; [by rewrite <- Eb|by eapply sized_trans|]. intros k o. rewrite HC'. apply HC1. }
  destruct (Z.eqb_spec resid 0) as [->|Hne].
  { apply wp_ret. split; [done|]. apply Hfin. eapply was_read_nothing; try done; [apply HG1|apply HG1|unfold readable; lia]. }
  unfold rw_transfer. apply wp_bind, wp_gets. change (uio_resid g) with (uio_resid f). rewrite R3. apply wp_bind. eapply wp_look; [apply HG1|]. cbv zeta. apply wp_bind.
  eapply wp_mono; [apply (wp_read_loop (bic ioflag IO_SYNC) _ _ g A F ip z1 base off resid HS1 (rg_inode _ _ _ HG1) (rg_pipe _ _ _ HG1) (rg_size _ _ _ HG1) Hr1); lia|].
  intros r f' [Hres HR]. pose proof HR as (v' & Ef & HS' & _).
  destruct Hres as [-> | ->]; [apply wp_ret; by split; [|apply Hfin]|]. apply wp_bind, wp_gets.
  assert (Ee : u_error (bst (fvol f')) = 0) by (rewrite Ef; apply HS'). rewrite Ee. simpl. apply wp_ret. by split; [|apply Hfin].
Qed.

(** [rdwri] makes a request of its arguments. *)
Lemma rdwri_request f base len offset :
  0 ≤ base → 0 ≤ len → base + len ≤ Z.of_nat (length (umem f)) → 0 ≤ offset → offset + len < 2^31 → Forall is_byte (umem f) →
  request1 (f<|uio_iov := [(base, u32 len)]|><|uio_resid := u32 len|><|uio_offset := offset|>) base offset len.
Proof. intros. rewrite u32_id by lia. by split. Qed.
Lemma wp_rdwri_end (m : X Z) (Q : Z * Z → fio → Prop) f :
  wp m (λ e g, Q (e, uio_resid g) g) f → wp (error ← m; r ← gets uio_resid; mret (if negb true && negb (r =? 0) then EIO else error, r)) Q f.
Proof. intros HW. apply wp_bind. eapply wp_mono; [exact HW|]. intros e g HQ. by apply wp_bind, wp_gets, wp_ret. Qed.

(** The bytes of a list of [n] from [c], from [off] on. *)
Definition bytes_at (c : Z → Z) (off n : Z) : list Z := (λ j, c (off + Z.of_nat j)) <$> seq 0 (Z.to_nat n).

(** A successful write of [len] bytes. *)
Lemma wp_rdwri_write f A F ip z base len offset ioflag :
  sound (fvol f) A F → regular (fvol f) ip z → Forall is_byte (umem f) →
  0 ≤ base → 0 ≤ len → base + len ≤ Z.of_nat (length (umem f)) → 0 ≤ offset → offset + len < 2^31 → i_size z + len < 2^31 →
  wp (rdwri fuel true ip base len offset ioflag true) (λ r g, r.1 = 0 → r.2 = 0 ∧ umem g = umem f ∧
    ∃ A' F', sound (fvol g) A' F' ∧ sized (fvol f) (fvol g) ip (grown_size (i_size z) (start z ioflag offset) len) ∧
      wrote (fvol f) A (fvol g) A' ip (umem f) base (start z ioflag offset) len) f.
Proof.
  intros HS HG Hby Hb Hl Hm Ho Hlim Hsz. unfold rdwri. apply wp_bind, wp_modify, wp_rdwri_end.
  set (f1 := f<|uio_iov := _|><|uio_resid := _|><|uio_offset := _|>).
  assert (Hr : request1 f1 base offset len) by (by apply rdwri_request).
  eapply wp_mono; [by apply (wp_rwip_write f1 A F ip z base offset len ioflag)|]. cbv zeta. intros e g HQ E0. cbn [fst snd] in *. rewrite E0 in *.
  destruct (has (i_flags z) APPEND && _); [by destruct HQ|]. destruct (Z.eqb_spec len 0) as [->|Hne].
  - destruct HQ as (_ & E1 & E2 & E3 & _). rewrite E3. split; [done|]. split; [done|]. exists A, F. change (fvol f1) with (fvol f) in E1. rewrite E1.
    split; [done|]. split; [destruct HG; by split; [exists z|]|]. by apply wrote_0.
  - destruct (u32 (fsize_cur f1) <? _); [by destruct HQ|].
    destruct HQ as (A' & F' & n & Hn & Hv & Hf & E1 & _ & E3 & _ & [(_ & -> & Ee)|[? _]] & Hs & HW); [|done].
    rewrite E1. split; [lia|]. split; [done|]. by exists A', F'.
Qed.

Lemma regular_after v v' ip ip' z z' size : regular v ip' z' → sized v v' ip size → regular v ip z → 0 ≤ size < 2^31 →
  ∃ y, regular v' ip' y ∧ i_size y = if decide (ip' = ip) then size else i_size z'.
Proof.
  intros [G1 G2 G3 G4] ((y & Hy & Ey & Hp) & Ho & Hk) HG Hsz. destruct (decide (ip' = ip)) as [->|Hne].
  - exists y. split; [|done]. split; [done| |done|lia]. unfold kind in Hk. rewrite Hy, G1 in Hk. simpl in Hk. congruence.
  - specialize (Ho ip' Hne). rewrite G1 in Ho. destruct (inodes v' !! ip') as [y'|] eqn:Hy'; [|done]. simpl in Ho.
    assert (Em : meta y' = meta z') by congruence. destruct (meta_fields _ _ Em) as (E1 & _ & E3 & _ & E5).
    exists y'. split; [|done]. split; [done|congruence|congruence|lia].
Qed.

(** ** [ino_rw] *)
Definition unlocked v (ip : nat) : Prop := ∃ z, inodes v !! ip = Some z ∧ has (i_flag z) ILOCKED = false.

Lemma wp_iunlock v A F ip z : volume v [] A F → files dev v A F → inodes v !! ip = Some z → has (i_flag z) IPIPE = false →
  wp (iunlock ip) (λ _ v', volume v' [] A F ∧ files dev v' A F ∧ unlocked v' ip ∧ sized v v' ip (i_size z) ∧
    ∀ k o, content v' A k o = content v A k o) v.
Proof.
  intros Hv Hf Hz Hp.
  assert (HE : ∀ z' v', i_addr z' = i_addr z → i_dev z' = i_dev z → i_size z' = i_size z → i_mode z' = i_mode z →
     has (i_flag z') IPIPE = false → has (i_flag z') ILOCKED = false →
     bst v' = bst v → sb v' = sb v → inodes v' = <[ip := z']> (inodes v) →
     volume v' [] A F ∧ files dev v' A F ∧ unlocked v' ip ∧ sized v v' ip (i_size z) ∧ ∀ k o, content v' A k o = content v A k o).
  { intros z' v' E1 E2 E3 E4 E5 E6 E7 E8 E9. assert (Hz' : inodes v' !! ip = Some z') by (rewrite E9; apply list_lookup_insert_eq; by eapply lookup_lt_Some).
    split_and!.
    - split; rewrite ?E7, ?E8; apply Hv.
    - unfold files. rewrite E8, E9. by apply (forest_inode dev _ _ (inodes v) A F ip z z').
    - by exists z'.
    - rewrite <- E3. destruct (sized_inode v ip z z' Hz E5 ltac:(by rewrite E4)) as (_ & S2 & S3). split; [by exists z'|]. split.
      + intros k Hk. rewrite E9. by rewrite list_lookup_insert_ne.
      + unfold kind. rewrite Hz, Hz'. simpl. by rewrite E4.
    - intros k o. rewrite <- (content_inode v A ip z z' k o Hz E1). by apply content_same. }
  unfold iunlock. apply wp_bind. eapply wp_set_inode; [exact Hz|]. set (z1 := z<|i_flag ::= λ g, bic g ILOCKED|>).
  assert (Hz1 : <[ip := z1]> (inodes v) !! ip = Some z1) by (apply list_lookup_insert_eq; by eapply lookup_lt_Some).
  apply wp_bind. unfold inode_at. apply wp_bind, wp_gets. eapply wp_lift; [apply rd_Done; exact Hz1|].
  assert (Hb : has (i_flag z1) IPIPE = false ∧ has (i_flag z1) ILOCKED = false).
  { unfold z1. fields. rewrite has_bic_other by done. by rewrite has_bic_same. }
  destruct (has (i_flag z1) IWANT).
  - apply wp_bind. eapply wp_set_inode; [exact Hz1|]. apply wp_modify. set (z2 := z1<|i_flag ::= λ g, bic g IWANT|>).
    destruct Hb as [Hb1 Hb2]. assert (Hz2 : has (i_flag z2) IPIPE = false ∧ has (i_flag z2) ILOCKED = false).
    { unfold z2. fields. by rewrite !has_bic_other. }
    destruct Hz2. apply (HE z2); try done. fields. by rewrite list_insert_insert_eq.
  - destruct Hb. apply wp_ret. by apply (HE z1).
Qed.

Lemma wp_is_chr f ip z (Q : bool → fio → Prop) : inodes (fvol f) !! ip = Some z → Z.land (i_mode z) IFMT = IFREG → Q false f → wp (on_vol (is_chr ip)) Q f.
Proof.
  intros Hz Ht HQ. apply wp_on_vol. unfold is_chr, inode_at. apply wp_bind, wp_bind, wp_gets. eapply wp_lift; [by apply rd_Done|]. apply wp_ret.
  rewrite Ht. by rewrite fio_id.
Qed.
Lemma wp_ilock v A F ip z n : sound v A F → regular v ip z → has (i_flag z) ILOCKED = false → wp (ilock n ip) (λ _ v', remarked v v' A F ip z) v.
Proof.
  intros HS HG Hl. pose proof HG as [G1 G2 G3 G4]. destruct n; cbn [ilock]; unfold inode_at at 1; apply wp_bind, wp_bind, wp_gets;
    (eapply wp_lift; [by apply rd_Done|]); rewrite Hl;
    (eapply wp_mono; [apply (wp_remark v A F ip z (λ g, Z.lor g ILOCKED) HS HG); by rewrite has_lor, G3|]); by intros [] v' [_ ?].
Qed.

(** The end of [ino_rw]. *)
Lemma wp_ino_end f A F ip z r (Q : Z * Z → fio → Prop) :
  volume (fvol f) [] A F → files dev (fvol f) A F → regular (fvol f) ip z →
  (∀ v', volume v' [] A F → files dev v' A F → unlocked v' ip → sized (fvol f) v' ip (i_size z) →
     (∀ k o, content v' A k o = content (fvol f) A k o) → Q r (f<|fvol := v'|>)) →
  wp (c ← on_vol (is_chr ip); (if (c : bool) then mret tt else on_vol (iunlock ip));; mret r) Q f.
Proof.
  intros Hv Hf [G1 G2 G3 G4] HQ. apply wp_bind. eapply wp_is_chr; [done|done|]. apply wp_bind, wp_on_vol.
  eapply wp_mono; [by apply (wp_iunlock (fvol f) A F ip z)|]. intros [] v' (? & ? & ? & ? & ?). apply wp_ret. by apply HQ.
Qed.

Lemma wrote_ext v A v1 v2 A' v3 ip mem base off n :
  (∀ k o, content v1 A k o = content v A k o) → (∀ k o, content v3 A' k o = content v2 A' k o) →
  wrote v1 A v2 A' ip mem base off n → wrote v A v3 A' ip mem base off n.
Proof. intros E1 E2 HW k o Ho. rewrite E2, HW by done. unfold pasted. by rewrite !E1. Qed.

(** What [ino_rw] has done when it has moved [m] bytes at [off]. *)
Definition moved (write : bool) f A (ip : nat) (z : inode) (base off resid m e : Z) f' A' : Prop :=
  if write then umem f' = umem f ∧ (e = 0 → m = resid) ∧ sized (fvol f) (fvol f') ip (grown_size (i_size z) off m) ∧
    wrote (fvol f) A (fvol f') A' ip (umem f) base off m
  else e = 0 ∧ m = readable (i_size z) off resid ∧ umem f' = splice (umem f) (Z.to_nat base) (file_bytes (fvol f) A ip off m) ∧
    sized (fvol f) (fvol f') ip (i_size z) ∧ ∀ k o, content (fvol f') A' k o = content (fvol f) A k o.
Definition streamed (write : bool) f A (ip : nat) (z : inode) (base off resid : Z) (r : Z * Z) f' : Prop :=
  ∃ m A' F', 0 ≤ m ≤ resid ∧ uio_resid f' = resid - m ∧ r.2 = off + m ∧ volume (fvol f') [] A' F' ∧ files dev (fvol f') A' F' ∧
    unlocked (fvol f') ip ∧ moved write f A ip z base off resid m r.1 f' A'.

Lemma wp_rwip_stream f A F ip z base off resid ioflag :
  sound (fvol f) A F → regular (fvol f) ip z → request1 f base off resid → i_size z + resid < 2^31 →
  wp (rwip fuel ip true ioflag) (λ e f', ∃ m A' F', 0 ≤ m ≤ resid ∧ uio_resid f' = resid - m ∧ uio_offset f' = start z ioflag off + m ∧
    volume (fvol f') [] A' F' ∧ files dev (fvol f') A' F' ∧ moved true f A ip z base (start z ioflag off) resid m e f' A') f.
Proof.
  intros HS HG Hr Hlim. eapply wp_mono; [by apply (wp_rwip_write f A F ip z base off resid ioflag)|]. cbv zeta. intros e f'.
  set (off' := start z ioflag off). pose proof Hr as [_ _ _ _ R5 _]. pose proof HS as [S1 S2 S3].
  assert (HU : (e = 0 → resid = 0) → unmoved f f' resid off' → ∃ m A' F', 0 ≤ m ≤ resid ∧ uio_resid f' = resid - m ∧ uio_offset f' = off' + m ∧
    volume (fvol f') [] A' F' ∧ files dev (fvol f') A' F' ∧ moved true f A ip z base off' resid m e f' A').
  { intros He (E1 & E2 & E3 & E4). exists 0, A, F. rewrite E1. split_and!; try done; try lia. unfold moved. rewrite E1. destruct HG.
    split_and!; try done; [intros E0; by rewrite He|split; [by exists z|done]|by apply wrote_0]. }
  destruct (has (i_flags z) APPEND && _); [intros [-> ?]; by apply HU|]. destruct (Z.eqb_spec resid 0) as [->|Hne]; [intros [-> ?]; by apply HU|].
  destruct (u32 (fsize_cur f) <? _); [intros (-> & ? & _); by apply HU|].
  intros (A' & F' & n & Hn & Hv & Hf & E1 & E2 & E3 & _ & Hres & Hs & HW). exists n, A', F'. do 5 (split; [done|]). split; [done|].
  split; [intros ->; by destruct Hres as [(_ & -> & _)|[? _]]|done].
Qed.

(** The flags [ino_rw] makes of those of the open file. *)
Definition stream_start (write : bool) (f_flag f_offset : Z) (z : inode) : Z := if write && has f_flag FAPPEND then i_size z else f_offset.

Lemma wp_ino_rw n f A F ip z base resid (write : bool) f_flag f_offset :
  sound (fvol f) A F → regular (fvol f) ip z → has (i_flag z) ILOCKED = false →
  request1 (f<|uio_offset := f_offset|>) base f_offset resid → i_size z + resid < 2^31 →
  wp (ino_rw fuel n ip write f_flag f_offset) (λ r f', streamed write f A ip z base (stream_start write f_flag f_offset z) resid r f') f.
Proof.
  intros HS HG Hlk Hr Hlim. pose proof HG as [G1 G2 G3 G4]. unfold ino_rw. apply wp_bind. eapply wp_is_chr; [done|done|]. apply wp_bind, wp_on_vol.
  eapply wp_mono; [by apply (wp_ilock (fvol f) A F ip z n)|]. intros [] v1 (z1 & HS1 & HG1 & Es & _ & _ & Hs1 & HC1).
  apply wp_bind, wp_modify, wp_bind, wp_gets. set (f1 := f<|fvol := v1|><|uio_offset := f_offset|>).
  assert (Hr1 : request1 f1 base f_offset resid) by (destruct Hr; by split). pose proof Hr1 as [R1 R2 R3 R4 R5 R6]. rewrite R3.
  assert (Ef : fvol f1 = v1 ∧ umem f1 = umem f) by done. destruct Ef as [Ef1 Ef2]. clearbody f1. rewrite <- Ef1 in *. apply wp_bind. destruct write; cbn [negb].
  - apply wp_bind. eapply wp_look; [apply HG1|]. apply wp_bind, wp_gets. rewrite (rg_type _ _ _ HG1). change (IFREG =? IFREG) with true. cbn [andb]. cbv zeta.
    set (ioflag := if has f_flag FFSYNC || _ then _ else _).
    assert (Eap : has ioflag IO_APPEND = has f_flag FAPPEND).
    { unfold ioflag. destruct (has f_flag FFSYNC || _), (has f_flag FNONBLOCK), (has f_flag FAPPEND); done. }
    assert (Est : start z1 ioflag f_offset = stream_start true f_flag f_offset z) by (unfold start, stream_start; rewrite Eap, Es; done).
    set (off := stream_start true f_flag f_offset z) in *.
    apply wp_bind. eapply wp_mono; [apply (wp_rwip_stream f1 A F ip z1 base f_offset resid ioflag HS1 HG1 Hr1); lia|].
    intros e f2 (m & A' & F' & Hm & E1 & E2 & Hv & Hf & M1 & M2 & M3 & M4). rewrite Est, Es in *.
    assert (Hgs : 0 ≤ grown_size (i_size z) off m < 2^31).
    { unfold off, stream_start, grown_size. destruct (true && has f_flag FAPPEND), (m =? 0); lia. }
    destruct (regular_after _ _ _ _ _ _ _ HG1 M3 HG1 Hgs) as (y & Hy & Ey). rewrite decide_True in Ey by done.
    apply (wp_mono _ (λ r f', f' = f2 ∧ r = (e, off + m))).
    { rewrite Eap. unfold off, stream_start in *. destruct (has f_flag FAPPEND); cbn [andb] in *; apply wp_bind, wp_gets, wp_ret; split; try done; [by rewrite E2|].
      rewrite E1, s32_id by lia. f_equal. lia. }
    intros r f' [-> ->]. eapply (wp_ino_end f2 A' F' ip y); [done|done|done|]. intros v3 Hv3 Hf3 Hu3 Hs3 HC3. exists m, A', F'. fields. do 6 (split; [done|]).
    unfold moved. fields. split_and!; [by rewrite M1, Ef2|done| |].
    + eapply sized_trans; [exact Hs1|]. eapply sized_trans; [exact M3|]. by rewrite <- Ey.
    + rewrite <- Ef2. by eapply wrote_ext.
  - apply wp_bind. eapply wp_mono; [by apply (wp_rwip_read f1 A F ip z1 base f_offset resid)|].
    intros e f2 [-> (E1 & E2 & _ & E4 & HS2 & Hs2 & HC2)]. rewrite Es in *. set (m := readable (i_size z) f_offset resid) in *.
    assert (Hm : 0 ≤ m ≤ resid) by (unfold m, readable; lia).
    destruct (regular_after _ _ _ _ _ _ _ HG1 Hs2 HG1 G4) as (y & Hy & Ey). rewrite decide_True in Ey by done.
    apply wp_bind, wp_gets, wp_ret. pose proof HS2 as [Hv Hf _].
    eapply (wp_ino_end f2 A F ip y); [done|done|done|]. intros v3 Hv3 Hf3 Hu3 Hs3 HC3. exists m, A, F. fields. do 2 (split; [done|]).
    split; [cbn [snd stream_start andb]; rewrite E1, s32_id by lia; lia|]. do 3 (split; [done|]).
    + unfold moved. fields. cbn [fst stream_start andb]. split; [done|]. split; [done|]. split_and!.
      * rewrite E4, Ef2. f_equal. unfold file_bytes. apply list_fmap_ext. intros j x _. apply HC1.
      * eapply sized_trans; [exact Hs1|]. eapply sized_trans; [exact Hs2|]. by rewrite <- Ey.
      * intros k o. by rewrite HC3, HC2, HC1.
Qed.

(** ** The claims *)

(** C1. A write to a regular file, by [rwip] over the block map, the allocator
    and the cache, is a write to an array of bytes.  A file that may only be
    appended to fails with EPERM and a write over the limit of the process
    with EFBIG and SIGXFSZ, and nothing changes.  Else the bytes of the program
    go into the file from the offset on (from its end, if told to append), all
    of them with result 0, or, with ENOSPC, those the free blocks can take;
    the count of bytes left and the offset say how many.  The file grows to
    hold them and never shrinks, a hole it comes to have reads as zeros, and
    no other byte of it or of any other file changes. *)
Theorem rwip_write_correct (f : fio) (A : Z → Z → block) (F : list Z) (ip : nat) (z : inode) (base off resid ioflag : Z) :
  sound (fvol f) A F → regular (fvol f) ip z → request1 f base off resid → i_size z + resid < 2^31 →
  wp (rwip fuel ip true ioflag) (λ r f',
    let off := start z ioflag off in
    if has (i_flags z) APPEND && negb (off =? i_size z) then r = EPERM ∧ unmoved f f' resid off
    else if resid =? 0 then r = 0 ∧ unmoved f f' resid off
    else if u32 (fsize_cur f) <? off + resid then
      r = EFBIG ∧ unmoved f f' resid off ∧ posted f' = SIGXFSZ :: posted f
    else written f A ip z base off resid r f') f.
Proof. apply wp_rwip_write. Qed.

(** C2. A read of a regular file returns 0 and moves the bytes from the offset
    on, as many as were asked for or as there are before the end of the file,
    to the place given in the memory of the program, holes as zeros, whether
    or not blocks are read ahead; the rest of that memory, the contents of
    every file and the free blocks stay as they are. *)
Theorem rwip_read_correct (f : fio) (A : Z → Z → block) (F : list Z) (ip : nat) (z : inode) (base off resid ioflag : Z) :
  sound (fvol f) A F → regular (fvol f) ip z → request1 f base off resid →
  wp (rwip fuel ip false ioflag) (λ r f', r = 0 ∧ read_ok f A F ip z base off resid f') f.
Proof. apply wp_rwip_read. Qed.

(** C8. Reading and writing an open file are operations of a stream: for an
    inode that nobody holds, [ino_rw] moves bytes at the offset of the open
    file, or at the end of the file for a write when it is open for appending,
    and makes the place after the last byte moved the new offset, however many
    were moved and also when it fails; a write that returns no error moved
    them all.  It leaves the inode unlocked, with the contents changed as by
    [rwip]. *)
Theorem ino_rw_correct (n : nat) (f : fio) (A : Z → Z → block) (F : list Z) (ip : nat) (z : inode) (base resid : Z) (write : bool) (f_flag f_offset : Z) :
  sound (fvol f) A F → regular (fvol f) ip z → has (i_flag z) ILOCKED = false →
  request1 (f<|uio_offset := f_offset|>) base f_offset resid → i_size z + resid < 2^31 →
  wp (ino_rw fuel n ip write f_flag f_offset) (λ r f', streamed write f A ip z base (stream_start write f_flag f_offset z) resid r f') f.
Proof. apply wp_ino_rw. Qed.

(** C7. What [rdwri] has written [rdwri] reads: after a write that returned no
    error, reading any stretch of any regular file gives the bytes just
    written where the two overlap, and elsewhere the bytes the file had
    before. *)
Theorem rdwri_roundtrip (f g : fio) (A : Z → Z → block) (F : list Z) (ip ip' : nat) (z z' : inode) (base len offset ioflag left : Z)
    (base' len' offset' ioflag' : Z) :
  sound (fvol f) A F → regular (fvol f) ip z → regular (fvol f) ip' z' → Forall is_byte (umem f) →
  0 ≤ base → 0 ≤ len → base + len ≤ Z.of_nat (length (umem f)) → 0 ≤ offset → offset + len < 2^31 → i_size z + len < 2^31 →
  0 ≤ base' → 0 ≤ len' → base' + len' ≤ Z.of_nat (length (umem f)) → 0 ≤ offset' → offset' + len' < 2^31 →
  rdwri fuel true ip base len offset ioflag true f = Done (0, left, g) →
  left = 0 ∧
  wp (rdwri fuel false ip' base' len' offset' ioflag' true) (λ r g',
    let off := start z ioflag offset in
    let size := if decide (ip' = ip) then grown_size (i_size z) off len else i_size z' in
    let bytes := if decide (ip' = ip) then pasted (content (fvol f) A ip) off (slice (umem f) base len) else content (fvol f) A ip' in
    let n := readable size offset' len' in
    r = (0, len' - n) ∧ umem g' = splice (umem f) (Z.to_nat base') (bytes_at bytes offset' n)) g.
Proof.
  intros HS HG HG' Hby Hb Hl Hm Ho Hlim Hsz Hb' Hl' Hm' Ho' Hlim' Er.
  pose proof (wp_rdwri_write f A F ip z base len offset ioflag HS HG Hby Hb Hl Hm Ho Hlim Hsz) as HW. unfold wp in HW. rewrite Er in HW.
  destruct (HW eq_refl) as (El & Em & A' & F' & HS' & Hs & HW'). split; [exact El|]. cbv zeta. set (off := start z ioflag offset) in *.
  assert (Hoff : 0 ≤ off ∧ off + len < 2^31) by (destruct HG; unfold off, start; destruct (has ioflag IO_APPEND); lia).
  assert (Hgs : 0 ≤ grown_size (i_size z) off len < 2^31) by (destruct HG; unfold grown_size; destruct (len =? 0); lia).
  destruct (regular_after _ _ _ _ _ _ _ HG' Hs HG Hgs) as (y & Hy & Ey). unfold rdwri. apply wp_bind, wp_modify, wp_rdwri_end.
  set (g1 := g<|uio_iov := _|><|uio_resid := _|><|uio_offset := _|>).
  assert (Hr : request1 g1 base' offset' len') by (apply rdwri_request; rewrite ?Em; done).
  eapply wp_mono; [by apply (wp_rwip_read g1 A' F' ip' y base' offset' len' ioflag')|]. intros e g' [-> (E1 & _ & _ & E4 & _)].
  rewrite E1, E4. change (umem g1) with (umem g). change (fvol g1) with (fvol g). rewrite Em, Ey. split; [done|]. f_equal.
  unfold file_bytes, bytes_at. apply list_fmap_ext. intros i j [-> _]%lookup_seq. rewrite HW' by lia.
  destruct (decide (ip' = ip)) as [->|]; done.
Qed.
End File.

(** ** Witnesses *)
#[local] Existing Instance ex_volumes.
#[local] Existing Instance ex_good.
#[local] Existing Instance ex_alone.
Definition ex_cdevs : Chardevs := λ _ _ _, mret 0.
Definition ex_fio : fio := Fio ex_vol [(0, 4)] 1022 4 [1; 2; 3; 4; 0; 0; 0; 0] 1 100000 [].

Lemma ex_sound : sound ex_parts ex_usable 1 ex_vol ex_A ex_F.
Proof. split; [apply ex_volume|apply ex_files|done]. Qed.
Lemma ex_regular : regular ex_vol 0 ex_inode.
Proof. split; [done|done|done|simpl; lia]. Qed.
Lemma ex_bytes : Forall is_byte (umem ex_fio).
Proof. repeat constructor; unfold is_byte; lia. Qed.
Lemma ex_request : request1 ex_fio 0 1022 4.
Proof. split; [done|done|done|simpl; lia|lia|apply ex_bytes]. Qed.

Lemma rwip_write_correct_witness :
  let D := ex_disks true in let N := ex_naps in let C := ex_cdevs in
  wp (rwip 12 0 true 0) (λ r f', written ex_parts ex_usable 1 ex_fio ex_A 0 ex_inode 0 1022 4 r f') ex_fio.
Proof.
  intros D N C. apply (rwip_write_correct ex_parts ex_usable 1 12 ltac:(unfold NBUF; lia) ex_fio ex_A ex_F 0 ex_inode 0 1022 4 0 ex_sound ex_regular ex_request).
  simpl. lia.
Defined.
Lemma rwip_read_correct_witness :
  let D := ex_disks true in let N := ex_naps in let C := ex_cdevs in
  wp (rwip 12 0 false 0) (λ r f', r = 0 ∧ uio_resid f' = 0) ex_fio.
Proof.
  intros D N C. eapply wp_mono.
  - apply (rwip_read_correct ex_parts ex_usable 1 12 ltac:(unfold NBUF; lia) ex_fio ex_A ex_F 0 ex_inode 0 1022 4 0 ex_sound ex_regular ex_request).
  - intros r f' [-> (E & _)]. by rewrite E.
Defined.
Definition ex_after : fio :=
  let D := ex_disks true in let N := ex_naps in let C := ex_cdevs in
  match rdwri 12 true 0 0 4 1022 0 true ex_fio with Done (_, g) => g | _ => ex_fio end.
Lemma rdwri_roundtrip_witness :
  let D := ex_disks true in let N := ex_naps in let C := ex_cdevs in
  rdwri 12 true 0 0 4 1022 0 true ex_fio = Done (0, 0, ex_after) ∧
  wp (rdwri 12 false 0 4 3 1023 0 true) (λ r g', r = (0, 0) ∧ umem g' = [1; 2; 3; 4; 2; 3; 4; 0]) ex_after.
Proof.
  intros D N C. assert (E : rdwri 12 true 0 0 4 1022 0 true ex_fio = Done (0, 0, ex_after)) by (vm_compute; reflexivity). split; [exact E|].
  eapply wp_mono.
  - refine (proj2 (rdwri_roundtrip ex_parts ex_usable 1 12 ltac:(unfold NBUF; lia) ex_fio ex_after ex_A ex_F 0 0 ex_inode ex_inode 0 4 1022 0 0 4 3 1023 0
      ex_sound ex_regular ex_regular ex_bytes _ _ _ _ _ _ _ _ _ _ _ E)); simpl; lia.
  - intros r g' [-> ->]. split; vm_compute; reflexivity.
Defined.
Lemma ino_rw_correct_witness :
  let D := ex_disks true in let N := ex_naps in let C := ex_cdevs in
  wp (ino_rw 12 0 0 true FAPPEND 1022) (λ r f', streamed ex_parts ex_usable 1 true ex_fio ex_A 0 ex_inode 0 5120 4 r f') ex_fio.
Proof.
  intros D N C. apply (ino_rw_correct ex_parts ex_usable 1 12 ltac:(unfold NBUF; lia) 0 ex_fio ex_A ex_F 0 ex_inode 0 4 true FAPPEND 1022 ex_sound ex_regular eq_refl);
    [exact ex_request|simpl; lia].
Defined.
