(* ===== verification/Isave.v ===== *)
(** * Writing an inode

    [iupdat] puts the sixteen words of an inode into its block. *)
From stdpp Require Import base tactics list option strings numbers gmap.
From S2P Require Import Prelude Ring Bio Cache Store Ufs Alloc Bmap Rwip Fileio.
Open Scope Z_scope.

(** [d]: what the block was. *)
Definition saved (d : block) (z : inode) (r : Z) : block := splice (resize 256 0 d) (16 * Z.to_nat (itoo (i_number z))) (dinode_words z r).
Definition marked (z : inode) : bool := has (i_flag z) (Z.lor (Z.lor IUPD IACC) (Z.lor ICHG IMOD)).
Definition unsaved (v : vol) (z : inode) : bool := marked z && (fs_ronly (sb v) =? 0).

Section Save.
Context `{Disks, Naps} (parts : list (list Z)) (usable : Z → Z → Prop).
Context `{!Volumes parts usable, !GoodDisks} (fuel : nat) (Hfuel : (NBUF + 2 ≤ fuel)%nat).
Context (ip : nat).
Implicit Types (v : vol) (z : inode) (A : Z → Z → block).

(** The inode [ip] is another one. *)
Definition setz v (z : inode) : vol := v<|inodes := <[ip := z]> (inodes v)|>.
Lemma setz_at v z z1 : inodes v !! ip = Some z → inodes (setz v z1) !! ip = Some z1.
Proof. intros Hz. unfold setz. fields. apply list_lookup_insert_eq. by eapply lookup_lt_Some. Qed.
Lemma setz_setz v z1 z2 : setz (setz v z1) z2 = setz v z2.
Proof. unfold setz. destruct v. unfold field_map. simpl. by rewrite list_insert_insert_eq. Qed.
Lemma setz_id v z : inodes v !! ip = Some z → setz v z = v.
Proof. intros Hz. unfold setz. rewrite list_insert_id by done. by destruct v. Qed.
Lemma wp_setz v z z1 g (Q : unit → vol → Prop) : inodes v !! ip = Some z → Q tt (setz v (g z1)) → wp (set_inode ip g) Q (setz v z1).
Proof. intros Hz HQ. eapply wp_set_inode; [by eapply setz_at|]. change (wp (mret tt) Q (setz (setz v z1) (g z1))). apply wp_ret. by rewrite setz_setz. Qed.
Lemma wp_getz v z z1 (Q : inode → vol → Prop) : inodes v !! ip = Some z → Q z1 (setz v z1) → wp (inode_at ip) Q (setz v z1).
Proof. intros Hz HQ. unfold inode_at. apply wp_bind, wp_gets. eapply wp_lift; [apply rd_Done; by eapply setz_at|done]. Qed.

(** The same file with other times and marks. *)
Definition alike (z z' : inode) : Prop :=
  i_addr z' = i_addr z ∧ i_dev z' = i_dev z ∧ i_size z' = i_size z ∧ i_mode z' = i_mode z ∧ i_number z' = i_number z ∧
  has (i_flag z') IPIPE = has (i_flag z) IPIPE ∧
  i_nlink z' = i_nlink z ∧ i_uid z' = i_uid z ∧ i_gid z' = i_gid z ∧ i_flags z' = i_flags z.
Lemma alike_trans z1 z2 z3 : alike z1 z2 → alike z2 z3 → alike z1 z3.
Proof. clear. unfold alike. intuition congruence. Qed.
Lemma wp_touch (c : bool) g v z z1 (Q : unit → vol → Prop) :
  inodes v !! ip = Some z → alike z z1 → alike z1 (g z1) → (∀ z2, alike z z2 → Q tt (setz v z2)) →
  wp (if c then set_inode ip g else mret tt) Q (setz v z1).
Proof.
  intros Hz H1' H2' HQ. destruct c; [|by apply wp_ret, HQ]. eapply wp_setz; [done|]. apply HQ. by eapply alike_trans.
Qed.

Lemma wp_iupdat_idle v z ta tm waitfor : inodes v !! ip = Some z → unsaved v z = false → wp (iupdat fuel ip ta tm waitfor) (λ _ v', v' = v) v.
Proof.
  intros Hz E. unfold iupdat. apply wp_bind. unfold inode_at at 1. apply wp_bind, wp_gets. eapply wp_lift; [by apply rd_Done|]. apply wp_bind, wp_gets.
  unfold unsaved, marked in E. destruct (has (i_flag z) _); cbn [negb andb] in *; [|by apply wp_ret]. rewrite E. by apply wp_ret.
Qed.
Lemma wp_isave v A z ta tm waitfor :
  cache_ok parts usable (bst v) [] A → inodes v !! ip = Some z → usable (i_dev z) (itod (i_number z)) → unsaved v z = true →
  wp (iupdat fuel ip ta tm waitfor) (λ _ v', ∃ z' r s', alike z z' ∧ v' = (setz v z')<|bst := s'|> ∧
    cache_ok parts usable s' [] (upd A (i_dev z) (itod (i_number z)) (saved (A (i_dev z) (itod (i_number z))) z' r)) ∧ u_error s' = u_error (bst v)) v.
Proof.
  intros Hc Hz Hu Eu. set (b := itod (i_number z)) in *. set (dev := i_dev z) in *. apply andb_prop in Eu as [Eh Er]. unfold marked in Eh.
  unfold iupdat. apply wp_bind. unfold inode_at at 1. apply wp_bind, wp_gets. eapply wp_lift; [by apply rd_Done|]. apply wp_bind, wp_gets.
  rewrite Eh, Er. cbn [negb]. apply wp_bind, wp_on_cache. fold b dev.
  eapply wp_mono; [apply (wp_bread parts usable fuel (bst v) [] A dev b); [done|done|apply unused_nil|vm_compute; lia|done]|].
  intros i s1 (Ho & Hd1 & _). pose proof Ho as (_ & [_ Ue] & _). destruct (obtained_holds _ _ _ _ _ _ _ _ _ Ho) as (x & Hh1 & _).
  apply wp_bind, wp_on_cache. eapply held_at; [apply Hh1|apply Hh1|]. intros y _ Ey. rewrite Ey. clear y Ey. fields.
  set (v1 := v<|bst := s1|>). assert (Hz1 : inodes v1 !! ip = Some z) by done.
  replace v1 with (setz v1 z) by (by apply setz_id).
  apply wp_bind. eapply wp_touch; [done|by unfold alike|by unfold alike|]. intros z2 A2.
  apply wp_bind. eapply wp_touch; [done|done|by unfold alike|]. clear A2 z2. intros z2 A2. apply wp_bind, wp_gets.
  apply wp_bind. eapply wp_touch; [done|done|by unfold alike|]. clear A2 z2. intros z2 A2. apply wp_bind.
  eapply wp_setz; [done|]. set (z3 := z2<|i_flag ::= _|>).
  assert (A3 : alike z z3).
  { eapply alike_trans; [exact A2|]. unfold alike, z3. fields. split_and!; try done. by apply has_bic_other. }
  assert (En : i_number z3 = i_number z) by apply A3. clearbody z3. clear A2 z2.
  apply wp_bind. eapply wp_getz; [done|]. apply wp_bind, wp_on_cache. eapply (wp_bload parts usable); [exact Hh1|exact Hd1|].
  rewrite En. set (o := (16 * Z.to_nat (itoo (i_number z)))%nat).
  destruct (lookup_lt_is_Some_2 (resize 256 0 (A dev b)) (o + 11)) as [r Hr].
  { rewrite length_resize. unfold o, itoo, INOPB. pose proof (Z.mod_pos_bound (i_number z + 16 - 1) 16 ltac:(lia)). lia. }
  apply wp_bind. eapply wp_lift; [by apply rd_Done|]. rewrite vol_id. apply wp_bind, wp_on_cache. set (d := splice _ o _).
  eapply (wp_bstore parts usable); [exact Hh1|]. intros Hh2 Hd2. set (s2 := s1<|bufdata := <[i := d]> (bufdata s1)|>) in *.
  assert (Ed : d = saved (A dev b) z3 r) by (unfold d, saved, o; by rewrite En).
  destruct (waitfor && _); apply wp_on_cache; fields.
  - eapply wp_mono; [by eapply (wp_write parts usable)|]. intros [] s' (R1 & [_ R2] & _). exists z3, r, s'. rewrite <- Ed. split_and!; [done|done|done|]. etrans; [exact R2|exact Ue].
  - eapply wp_mono; [by eapply (wp_delay parts usable)|]. intros [] s' (R1 & [_ R2] & _). exists z3, r, s'. rewrite <- Ed. split_and!; [done|done|done|]. etrans; [exact R2|exact Ue].
Qed.
End Save.
