(* ===== verification/Trunc.v ===== *)
(** * Truncating files

    [itrunc] makes a file shorter: what is above the new end leaves the trees
    of the file and its blocks, data and indirect, go back to the free list.
    While it works, parts of trees belong to no file; they are kept as files
    of their own behind the others. *)
From stdpp Require Import base tactics list option strings numbers gmap.
From S2P Require Import Prelude Ring Bio Cache Store Ufs Alloc Bmap Rwip Fileio.
Open Scope Z_scope.

(** ** Parts of trees *)

(** The indices from [p] on to a path below it. *)
Definition rest (p q : path) : option (list nat) :=
  if decide (p_file q = p_file p ∧ p_root q = p_root p ∧ take (length (p_idx p)) (p_idx q) = p_idx p)
  then Some (drop (length (p_idx p)) (p_idx q)) else None.
Lemma rest_extend p ix : rest p (extend p ix) = Some ix.
Proof. unfold rest, extend. simpl. by rewrite take_app_length, decide_True, drop_app_length. Qed.
Lemma rest_Some p q ix : rest p q = Some ix ↔ q = extend p ix.
Proof.
  split; [|intros ->; apply rest_extend]. unfold rest. destruct (decide _) as [(E1 & E2 & E3)|]; [|done]. intros [= <-].
  destruct q as [k r iq]. unfold extend. simpl in *. subst. f_equal. rewrite <- E3 at 1. symmetry. apply take_drop.
Qed.
Lemma rest_child p q i : rest p (child q i) = match rest p q with Some ix => Some (ix ++ [i]) | None => if decide (child q i = p) then Some [] else None end.
Proof.
  destruct (rest p q) as [ix|] eqn:E.
  - apply rest_Some in E as ->. apply rest_Some. unfold extend, child. simpl. by rewrite <- app_assoc.
  - destruct (decide (child q i = p)) as [<-|Hne].
    + apply rest_Some. symmetry. apply extend_nil.
    + destruct (rest p (child q i)) as [ix|] eqn:E'; [|done]. apply rest_Some in E'. destruct ix as [|j ix _] using rev_ind; [by rewrite extend_nil in E'|].
      exfalso. assert (Eq : q = extend p ix).
      { unfold extend, child in *. destruct q as [k r iq]. simpl in *. injection E' as -> -> E'. rewrite app_assoc in E'. by apply app_inj_tail in E' as [-> _]. }
      by apply rest_Some in Eq; rewrite Eq in E.
Qed.

(** From the indirect block at [p], the entries [m] and above are taken out. *)
Definition cut (p : path) (m : nat) (q : path) : bool :=
  match rest p q with Some (i :: _) => (m <=? i)%nat | _ => false end.

Section Prune.
Context (dev lo hi : Z).
Notation forest := (forest dev lo hi).
Implicit Types (l : list inode) (A : Z → Z → block) (F : list Z) (p q : path).

(** A forest whose blocks are found, under other paths, in another one. *)
Lemma forest_embed l A F l' A' F' (phi : path → path) :
  forest l A F →
  (∀ k z, l' !! k = Some z → length (i_addr z) = 7%nat ∧ i_dev z = dev) →
  (∀ q, valid q → node l' (A' dev) q ≠ 0 → valid (phi q) ∧ node l' (A' dev) q = node l (A dev) (phi q) ∧
     ((length (p_idx q) < levels (p_root q))%nat → length (A' dev (node l' (A' dev) q)) = 256%nat)) →
  (∀ q r, valid q → valid r → node l' (A' dev) q ≠ 0 → node l' (A' dev) r ≠ 0 → phi q = phi r → q = r) →
  (∀ q, valid q → node l' (A' dev) q ≠ 0 → node l' (A' dev) q ∉ F → node l' (A' dev) q ∉ F') →
  forest l' A' F'.
Proof.
  intros Hf Hi Hn Hinj HF. split.
  - exact Hi.
  - intros q Hq Hnq. destruct (Hn q Hq Hnq) as (V & E & _). destruct (fo_range _ _ _ _ _ _ Hf (phi q) V) as [R1 R2]; [congruence|].
    split; [congruence|]. apply HF; [done|done|congruence].
  - intros q r Hq Hr Hnq E. assert (Hnr : node l' (A' dev) r ≠ 0) by congruence.
    destruct (Hn q Hq Hnq) as (V1 & E1 & _), (Hn r Hr Hnr) as (V2 & E2 & _). apply Hinj; try done.
    apply (fo_once _ _ _ _ _ _ Hf); [done|done|congruence|congruence].
  - intros q Hq Hnq. by apply Hn.
Qed.

(** Fewer files. *)
Lemma root_app_l l e k r : (k < length l)%nat → root (l ++ e) k r = root l k r.
Proof. intros Hk. unfold root. by rewrite lookup_app_l. Qed.
Lemma node_app_l l e blk q : (p_file q < length l)%nat → node (l ++ e) blk q = node l blk q.
Proof. intros Hk. unfold node. by rewrite root_app_l. Qed.
Lemma node_beyond l blk q : (length l ≤ p_file q)%nat → node l blk q = 0.
Proof. intros Hk. unfold node, root. rewrite lookup_ge_None_2 by done. apply walk_0. Qed.
Lemma forest_prefix l e A F : forest (l ++ e) A F → forest l A F.
Proof.
  intros Hf. assert (Hn : ∀ q, node l (A dev) q ≠ 0 → node l (A dev) q = node (l ++ e) (A dev) q).
  { intros q Hq. destruct (decide (p_file q < length l)%nat); [by rewrite node_app_l|]. exfalso. apply Hq, node_beyond. lia. }
  apply (forest_embed (l ++ e) A F l A F id); try done.
  - intros k z Hz. apply (fo_inode _ _ _ _ _ _ Hf k). by apply lookup_app_l_Some.
  - intros q Hq Hnq. split; [done|]. split; [by apply Hn|]. rewrite Hn by done. apply (fo_whole _ _ _ _ _ _ Hf); [done|]. by rewrite <- Hn.
Qed.

(** A file with one block, under the address [r]. *)
Definition stray (r : nat) (nb : Z) : inode := Inode 0 dev 0 (<[r := nb]> (replicate 7 0)) 0 0 0 0 0 0 0 0 0 0.
(** The address under which a block with [level] levels below it can be. *)
Definition slot (level : nat) : nat := match level with O => O | S _ => 3 + level end.
Lemma levels_slot level : levels (slot level) = level.
Proof. destruct level; unfold levels; simpl; lia. Qed.
Lemma stray_addr r nb j : (r < 7)%nat → i_addr (stray r nb) !! j = if decide (j = r) then Some nb else if decide (j < 7)%nat then Some 0 else None.
Proof.
  intros Hr. unfold stray. cbn [i_addr]. destruct (decide (j = r)) as [->|Hne]; [by apply list_lookup_insert_eq|].
  rewrite list_lookup_insert_ne by done. destruct (decide (j < 7)%nat); [by apply lookup_replicate_2|]. apply lookup_ge_None_2. simpl. lia.
Qed.

(** The first [m] words, then zeros. *)
Definition trimmed (m : nat) (d : list Z) : list Z := take m d ++ replicate (256 - m) 0.
Lemma trimmed_length m d : length d = 256%nat → (m ≤ 256)%nat → length (trimmed m d) = 256%nat.
Proof. intros Hd Hm. unfold trimmed. rewrite length_app, length_take, length_replicate. lia. Qed.
Lemma trimmed_word m (d : list Z) i : length d = 256%nat → (m ≤ 256)%nat → word (trimmed m d) i = if decide (i < m)%nat then word d i else 0.
Proof.
  intros Hd Hm. assert (E : trimmed m d !! i = if decide (i < m)%nat then d !! i else if decide (i < 256)%nat then Some 0 else None).
  { unfold trimmed. destruct (decide (i < m)%nat) as [Hi|Hi].
    - rewrite lookup_app_l by (rewrite length_take; lia). by apply lookup_take_lt.
    - rewrite lookup_app_r by (rewrite length_take; lia). rewrite length_take, Nat.min_l by lia.
      destruct (decide (i < 256)%nat); [apply lookup_replicate_2; lia|]. apply lookup_replicate_None. lia. }
  apply (f_equal (default 0)) in E. etrans; [exact E|]. destruct (decide (i < m)%nat); [done|]. by destruct (decide (i < 256)%nat).
Qed.

Lemma cut_root p m k r : cut p m (Path k r []) = false.
Proof.
  unfold cut. destruct (rest p (Path k r [])) as [ix|] eqn:E; [|done]. apply rest_Some in E. destruct ix; [done|].
  injection E as _ _ E. by destruct (p_idx p).
Qed.
Lemma cut_child p m q i : cut p m (child q i) = if decide (q = p) then (m <=? i)%nat else cut p m q.
Proof.
  unfold cut. rewrite rest_child. destruct (decide (q = p)) as [->|Hne].
  - by rewrite <- (extend_nil p) at 2; rewrite rest_extend.
  - destruct (rest p q) as [[|j ix]|] eqn:E; [|done|by destruct (decide _)]. apply rest_Some in E. by rewrite extend_nil in E.
Qed.
Lemma cut_extend p m i ix : cut p m (extend p (i :: ix)) = (m <=? i)%nat.
Proof. unfold cut. by rewrite rest_extend. Qed.
Lemma extend_ne p i ix : extend p (i :: ix) ≠ p.
Proof. intros E. apply (f_equal (λ q, length (p_idx q))) in E. unfold extend in E. simpl in E. rewrite length_app in E. simpl in E. lia. Qed.
Lemma extend_snoc p ix i : extend p (ix ++ [i]) = child (extend p ix) i.
Proof. unfold extend, child. simpl. by rewrite app_assoc. Qed.
Lemma extend_inj p ix ix' : extend p ix = extend p ix' → ix = ix'.
Proof. intros [= E%app_inv_head]. done. Qed.

(** The entries of the indirect block at [p] from [m] on become files. *)
Section Detach.
Context l A F p (level m : nat) (Hf : forest l A F) (Hp : valid p) (Hlev : (length (p_idx p) + S level = levels (p_root p))%nat) (Hm : (m ≤ 256)%nat).
Let b := node l (A dev) p.
Context (Hb : b ≠ 0).
Let d : list Z := A dev b.
Definition strays : list inode := stray (slot level) <$> drop m d.
Let A' := upd A dev b (trimmed m d).

Lemma detach_whole : length d = 256%nat.
Proof. apply (fo_whole _ _ _ _ _ _ Hf p); [done|done|lia]. Qed.
Lemma slot_lt : (slot level < 7)%nat.
Proof. destruct Hp as (V1 & _ & _). unfold levels in Hlev. destruct level; simpl in *; lia. Qed.
Lemma strays_length : length strays = (256 - m)%nat.
Proof. unfold strays. rewrite length_fmap, length_drop, detach_whole. done. Qed.

Lemma detach_old q : valid q → (p_file q < length l)%nat → node (l ++ strays) (A' dev) q = if cut p m q then 0 else node l (A dev) q.
Proof.
  pattern q. apply path_ind; clear q.
  { intros k r _ Hk. rewrite cut_root. unfold node. simpl in *. by rewrite root_app_l. }
  intros q i IH Hv Hk. destruct (valid_child _ _ Hv) as (Hq & Hi & Hlt). rewrite !node_child, (IH Hq Hk), cut_child.
  destruct (decide (q = p)) as [->|Hne].
  - assert (Ec : cut p m p = false) by (unfold cut; by rewrite <- (extend_nil p) at 2; rewrite rest_extend).
    rewrite Ec. rewrite (proj2 (Z.eqb_neq _ 0)) by done. unfold A'. fold b. rewrite upd_same, (trimmed_word m d i detach_whole Hm). unfold d.
    destruct (decide (i < m)%nat); [by rewrite (proj2 (Nat.leb_gt _ _)) by lia|by rewrite (proj2 (Nat.leb_le _ _)) by lia].
  - destruct (cut p m q); [done|]. destruct (Z.eqb_spec (node l (A dev) q) 0) as [|Hnq]; [done|]. unfold A'. rewrite upd_other; [done|].
    intros [_ E]. apply Hne. by eapply (fo_once _ _ _ _ _ _ Hf).
Qed.
Lemma strays_lookup j : (j < 256 - m)%nat → strays !! j = Some (stray (slot level) (word d (m + j))).
Proof.
  intros Hj. unfold strays. rewrite list_lookup_fmap, lookup_drop. destruct (lookup_lt_is_Some_2 d (m + j)) as [w Hw]; [rewrite detach_whole; lia|].
  rewrite Hw. simpl. by rewrite (word_lookup d (m + j) w).
Qed.
Lemma strays_root j r : (j < 256 - m)%nat → root (l ++ strays) (length l + j) r = if decide (r = slot level) then word d (m + j) else 0.
Proof.
  intros Hj. unfold root. rewrite lookup_app_r by lia. replace (length l + j - length l)%nat with j by lia. rewrite strays_lookup by done.
  change (default 0 (i_addr (stray (slot level) (word d (m + j))) !! r) = if decide (r = slot level) then word d (m + j) else 0).
  rewrite stray_addr by apply slot_lt. destruct (decide (r = slot level)); [done|]. by destruct (decide (r < 7)%nat).
Qed.
Lemma detach_new j ix : (j < 256 - m)%nat → valid (extend p ((m + j)%nat :: ix)) →
  node (l ++ strays) (A' dev) (Path (length l + j) (slot level) ix) = node l (A dev) (extend p ((m + j)%nat :: ix)).
Proof.
  intros Hj. induction ix as [|i ix IH] using rev_ind; intros Hv.
  - rewrite extend_child, extend_nil, node_child. fold b. rewrite (proj2 (Z.eqb_neq _ 0)) by done. unfold node. simpl.
    rewrite strays_root by done. by rewrite decide_True.
  - change (Path (length l + j) (slot level) (ix ++ [i])) with (child (Path (length l + j) (slot level) ix) i).
    rewrite app_comm_cons, extend_snoc in Hv |- *. destruct (valid_child _ _ Hv) as (Hv' & _ & _). rewrite !node_child, (IH Hv').
    destruct (Z.eqb_spec (node l (A dev) (extend p ((m + j)%nat :: ix))) 0) as [|Hn]; [done|]. unfold A'. rewrite upd_other; [done|].
    intros [_ E]. eapply (extend_ne p (m + j)). by eapply (fo_once _ _ _ _ _ _ Hf).
Qed.
Lemma detach_only q : (length l ≤ p_file q)%nat → node (l ++ strays) (A' dev) q ≠ 0 →
  ∃ j ix, (j < 256 - m)%nat ∧ q = Path (length l + j) (slot level) ix.
Proof.
  intros Hk Hn. destruct q as [k r ix]. simpl in Hk. destruct (Nat.le_exists_sub _ _ Hk) as (j & -> & _). rewrite (Nat.add_comm j) in *.
  destruct (decide (j < 256 - m)%nat) as [Hj|Hj].
  - exists j, ix. split; [done|]. destruct (decide (r = slot level)) as [->|Hne]; [done|]. exfalso. apply Hn. unfold node. simpl.
    rewrite strays_root by done. rewrite decide_False by done. apply walk_0.
  - exfalso. apply Hn, node_beyond. simpl. rewrite length_app, strays_length. lia.
Qed.

(** Where a block was. *)
Definition origin (q : path) : path :=
  if decide (p_file q < length l)%nat then q else extend p ((m + (p_file q - length l))%nat :: p_idx q).
Lemma valid_new j ix : (j < 256 - m)%nat → valid (Path (length l + j) (slot level) ix) ↔ valid (extend p ((m + j)%nat :: ix)).
Proof.
  intros Hj. pose proof slot_lt as Hs. destruct Hp as (V1 & V2 & V3). unfold valid, extend. simpl. rewrite length_app, levels_slot, Forall_app, Forall_cons. simpl.
  split; intros (W1 & W2 & W3); (split_and!; [done|lia|try done..]); [lia|tauto].
Qed.
Lemma detach_origin q : valid q → node (l ++ strays) (A' dev) q ≠ 0 →
  valid (origin q) ∧ node (l ++ strays) (A' dev) q = node l (A dev) (origin q) ∧ cut p m (origin q) = bool_decide (length l ≤ p_file q)%nat ∧
  ((length (p_idx q) < levels (p_root q))%nat → (length (p_idx (origin q)) < levels (p_root (origin q)))%nat).
Proof.
  intros Hq Hn. unfold origin. destruct (decide (p_file q < length l)%nat) as [Hk|Hk].
  - rewrite bool_decide_false by lia. pose proof Hn as Hn'. rewrite (detach_old q Hq Hk) in Hn' |- *. by destruct (cut p m q).
  - destruct (detach_only q ltac:(lia) Hn) as (j & ix & Hj & ->). cbn [p_file p_idx p_root]. rewrite bool_decide_true by lia.
    replace (length l + j - length l)%nat with j by lia. apply valid_new in Hq; [|done]. split; [done|]. split; [by apply detach_new|].
    rewrite cut_extend. split; [apply Nat.leb_le; lia|]. rewrite levels_slot. unfold extend. simpl. rewrite length_app. simpl. lia.
Qed.
Lemma forest_detach : forest (l ++ strays) A' F.
Proof.
  apply (forest_embed l A F _ _ _ origin); [done|..].
  - intros k z [Hz|[Hk Hz]]%lookup_app_Some; [by apply (fo_inode _ _ _ _ _ _ Hf k)|]. unfold strays in Hz. rewrite list_lookup_fmap in Hz.
    destruct (drop m d !! (k - length l)%nat) as [w|]; [|done]. injection Hz as <-. unfold stray. simpl. by rewrite length_insert.
  - intros q Hq Hn. destruct (detach_origin q Hq Hn) as (O1 & O2 & _ & O4). split; [done|]. split; [done|]. intros Hlt. rewrite O2.
    unfold A'. destruct (decide (node l (A dev) (origin q) = b)) as [->|Hne]; [rewrite upd_same; by apply trimmed_length; [apply detach_whole|]|].
    rewrite upd_other by tauto. apply (fo_whole _ _ _ _ _ _ Hf); [done|by rewrite <- O2|auto].
  - intros q r Hq Hr Hnq Hnr E. destruct (detach_origin q Hq Hnq) as (_ & _ & O3 & _), (detach_origin r Hr Hnr) as (_ & _ & P3 & _).
    rewrite E, P3 in O3. unfold origin in E. destruct (decide (p_file q < length l)%nat) as [H1|H1], (decide (p_file r < length l)%nat) as [H2|H2]; try done.
    + rewrite bool_decide_true, bool_decide_false in O3 by lia. done.
    + rewrite bool_decide_false, bool_decide_true in O3 by lia. done.
    + destruct (detach_only q ltac:(lia) Hnq) as (j & ix & Hj & ->), (detach_only r ltac:(lia) Hnr) as (j' & ix' & Hj' & ->).
      cbn [p_file p_idx] in E. apply extend_inj in E. injection E as E ->. f_equal. lia.
  - intros q Hq Hn HnF. done.
Qed.
End Detach.

(** ** Blocks that go *)

(** From [l], [A], [F] to [l'], [A'], [F'] the paths [P] have lost their
    blocks, which are free now; everything else is where it was, the data
    unchanged. *)
Record pruned (P : path → bool) l A F l' A' F' : Prop := Pruned {
  pr_forest : forest l' A' F';
  pr_node q : valid q → node l' (A' dev) q = if P q then 0 else node l (A dev) q;
  pr_data q : full q → node l' (A' dev) q ≠ 0 → A' dev (node l' (A' dev) q) = A dev (node l' (A' dev) q);
  pr_free b : b ∈ F' ↔ b ∈ F ∨ ∃ q, valid q ∧ P q = true ∧ node l (A dev) q = b ∧ b ≠ 0 }.

Lemma pruned_refl l A F : forest l A F → pruned (λ _, false) l A F l A F.
Proof. intros Hf. split; try done. intros b. split; [by left|]. by intros [?|(q & _ & ? & _)]. Qed.
Lemma pruned_ext (P P' : path → bool) l A F l' A' F' :
  (∀ q, valid q → node l (A dev) q ≠ 0 → P q = P' q) → pruned P l A F l' A' F' → pruned P' l A F l' A' F'.
Proof.
  intros HP [H1 H2 H3 H4]. split; try done.
  - intros q Hq. rewrite H2 by done. destruct (decide (node l (A dev) q = 0)) as [->|Hn]; [by destruct (P q), (P' q)|by rewrite HP].
  - intros b. rewrite H4. f_equiv. f_equiv. intros q. split; intros (V & E & En & Hb); (split_and!; [done| |done|done]).
    + rewrite <- HP; [done|done|congruence].
    + rewrite HP; [done|done|congruence].
Qed.
Lemma pruned_trans (P P' : path → bool) l A F l1 A1 F1 l2 A2 F2 :
  pruned P l A F l1 A1 F1 → pruned P' l1 A1 F1 l2 A2 F2 → pruned (λ q, P q || P' q) l A F l2 A2 F2.
Proof.
  intros [G1 G2 G3 G4] [H1 H2 H3 H4].
  assert (HN : ∀ q, valid q → node l2 (A2 dev) q = if P q || P' q then 0 else node l (A dev) q).
  { intros q Hq. rewrite H2, G2 by done. by destruct (P q), (P' q). }
  split; try done.
  - intros q Hq Hn. rewrite H3 by done. pose proof Hn as Hn'. rewrite H2 in Hn' |- * by apply Hq. destruct (P' q); [done|].
    by apply G3.
  - intros b. rewrite H4, G4. split.
    + intros [[?|(q & V & E & En & Hb)]|(q & V & E & En & Hb)]; [by left|right|right].
      * exists q. by rewrite E.
      * exists q. rewrite E, orb_true_r. split_and!; try done. rewrite G2 in En by done. destruct (P q); [|done]. congruence.
    + intros [?|(q & V & E & En & Hb)]; [by left; left|]. destruct (P q) eqn:EP; [left; right; by exists q|right].
      exists q. split_and!; try done. rewrite G2 by done. by rewrite EP.
Qed.

(** A block without blocks below it goes. *)
Lemma forest_release l A F k r z z' b A' :
  forest l A F → l !! k = Some z → (r < 7)%nat → i_addr z !! r = Some b → b ≠ 0 →
  (∀ i, valid (child (Path k r []) i) → word (A dev b) i = 0) →
  i_addr z' = <[r := 0]> (i_addr z) → i_dev z' = i_dev z → but_block dev b A A' →
  pruned (λ q, bool_decide (q = Path k r [])) l A F (<[k := z']> l) A' (b :: F).
Proof.
  intros Hf Hk Hr Ha Hb Hw Ea Ed HA. set (p := Path k r []).
  assert (Hv : valid p) by (unfold valid, p; simpl; split_and!; [done|lia|constructor]).
  assert (Ep : node l (A dev) p = b) by (unfold node, p, root; simpl; rewrite Hk; simpl; by rewrite Ha).
  destruct (fo_inode _ _ _ _ _ _ Hf k z Hk) as [Hl Hd].
  assert (HN : ∀ q, valid q → node (<[k := z']> l) (A' dev) q = if bool_decide (q = p) then 0 else node l (A dev) q).
  { intros q. pattern q. apply path_ind; clear q.
    - intros k' r' _. unfold node. cbn [p_file p_root p_idx walk]. unfold root. destruct (decide (k' = k)) as [->|Hne].
      + rewrite list_lookup_insert_eq by (by eapply lookup_lt_Some). rewrite Hk. simpl. rewrite Ea. destruct (decide (r' = r)) as [->|Hne].
        * rewrite list_lookup_insert_eq by lia. by rewrite bool_decide_true.
        * rewrite list_lookup_insert_ne by done. rewrite bool_decide_false; [done|]. by intros [= ->].
      + rewrite list_lookup_insert_ne by done. rewrite bool_decide_false; [done|]. by intros [= -> _].
    - intros q i IH Hvq. destruct (valid_child _ _ Hvq) as (Hq & _ & _). rewrite bool_decide_false; [|intros E; apply (f_equal p_idx) in E; unfold child, p in E; simpl in E; by destruct (p_idx q)].
      rewrite !node_child, (IH Hq). destruct (decide (q = p)) as [->|Hne].
      + rewrite bool_decide_true by done. simpl. rewrite Ep. rewrite (proj2 (Z.eqb_neq b 0)) by done. by rewrite Hw.
      + rewrite bool_decide_false by done. destruct (Z.eqb_spec (node l (A dev) q) 0) as [|Hn]; [done|]. rewrite HA; [done|].
        intros [_ E]. apply Hne. eapply (fo_once _ _ _ _ _ _ Hf); [done|done|done|congruence]. }
  assert (Hne : ∀ q, valid q → node (<[k := z']> l) (A' dev) q ≠ 0 → q ≠ p ∧ node (<[k := z']> l) (A' dev) q = node l (A dev) q ∧ node l (A dev) q ≠ b).
  { intros q Hq Hn. rewrite HN in Hn |- * by done. case_bool_decide as E; [done|]. split; [done|]. split; [done|].
    intros E'. apply E. eapply (fo_once _ _ _ _ _ _ Hf); [done|done|done|congruence]. }
  split.
  - apply (forest_embed l A F _ _ _ id); try done.
    + intros j y [[-> ->]|[_ Hy]]%insert_cases; [rewrite Ea, length_insert, Ed; done|by apply (fo_inode _ _ _ _ _ _ Hf j)].
    + intros q Hq Hn. destruct (Hne q Hq Hn) as (_ & E & Hb'). split; [done|]. split; [done|]. rewrite E. intros Hlt.
      rewrite HA by tauto. apply (fo_whole _ _ _ _ _ _ Hf); [done|by rewrite <- E|done].
    + intros q Hq Hn HnF. destruct (Hne q Hq Hn) as (_ & E & Hb'). rewrite E in *. intros [?|?]%elem_of_cons; done.
  - exact HN.
  - intros q Hq Hn. destruct (Hne q (proj1 Hq) Hn) as (_ & E & Hb'). rewrite E. apply HA. tauto.
  - intros c. rewrite elem_of_cons. split.
    + intros [->|?]; [right|by left]. exists p. split_and!; try done. by apply bool_decide_true.
    + intros [?|(q & V & E%bool_decide_eq_true_1 & En & Hc)]; [by right|left]. congruence.
Qed.

(** The files made of the entries of a block are gone. *)
Lemma pruned_detached l A F p (level m : nat) e2 A2 F2 :
  forest l A F → valid p → (length (p_idx p) + S level = levels (p_root p))%nat → (m ≤ 256)%nat → node l (A dev) p ≠ 0 →
  let b := node l (A dev) p in
  pruned (λ q, bool_decide (length l ≤ p_file q)%nat) (l ++ strays l A p level m) (upd A dev b (trimmed m (A dev b))) F (l ++ e2) A2 F2 →
  pruned (cut p m) l A F l A2 F2.
Proof.
  intros Hf Hp Hlev Hm Hb b HP. pose proof HP as [P1 P2 P3 P4].
  assert (HN : ∀ q, valid q → node l (A2 dev) q = if cut p m q then 0 else node l (A dev) q).
  { intros q Hq. destruct (decide (p_file q < length l)%nat) as [Hk|Hk].
    - rewrite <- (node_app_l l e2) by done. rewrite P2 by done. rewrite bool_decide_false by lia. by apply (detach_old l A F p level m).
    - rewrite !node_beyond by lia. by destruct (cut p m q). }
  split.
  - by eapply forest_prefix.
  - exact HN.
  - intros q Hq Hn. assert (Hk : (p_file q < length l)%nat).
    { destruct (decide (p_file q < length l)%nat); [done|]. exfalso. apply Hn, node_beyond. lia. }
    pose proof Hn as Hn'. rewrite <- (node_app_l l e2) in Hn' |- * by done. rewrite (P3 q Hq Hn'). apply upd_other. intros [_ E].
    rewrite node_app_l in E by done. rewrite HN in E by apply Hq. destruct (cut p m q); [done|].
    assert (q = p) as -> by (eapply (fo_once _ _ _ _ _ _ Hf); [apply Hq|done|unfold b in E; congruence|done]). destruct Hq as [_ Hq]. lia.
  - intros c. rewrite P4. f_equiv. split.
    + intros (q & V & E%bool_decide_eq_true_1 & En & Hc).
      destruct (detach_origin l A F p level m Hf Hp Hlev Hm Hb q V) as (O1 & O2 & O3 & _); [unfold b in *; congruence|].
      exists (origin l p m q). split; [done|]. split; [rewrite O3; by apply bool_decide_true|]. unfold b in *. split; [congruence|done].
    + intros (q & V & E & En & Hc). unfold cut in E. destruct (rest p q) as [[|i ix]|] eqn:Er; try done. apply rest_Some in Er as ->.
      apply Nat.leb_le in E. assert (Hi : (i < 256)%nat).
      { destruct V as (_ & _ & V). unfold extend in V. simpl in V. apply Forall_app in V as [_ V]. by inversion V. }
      set (j := (i - m)%nat). replace i with (m + j)%nat in * by (unfold j; lia). exists (Path (length l + j) (slot level) ix).
      split; [by apply (valid_new l A p level m Hp Hlev Hm j ix); [lia|]|]. split; [apply bool_decide_true; simpl; lia|].
      split; [|done]. rewrite <- En. unfold b. by apply (detach_new l A F p level m Hf Hp Hlev Hm Hb); [lia|].
Qed.

(** [dropped level lastbn ix]: of the blocks behind an indirect block with
    [level] more levels, the ones numbered up to [lastbn] stay, and the one
    behind [ix] goes. *)
Definition last_entry (level : nat) (lastbn : Z) : Z := if 0 <? lastbn then lastbn / 256 ^ Z.of_nat level else lastbn.
Fixpoint dropped (level : nat) (lastbn : Z) (ix : list nat) : bool :=
  match ix with
  | [] => false
  | i :: ix =>
      let last := last_entry level lastbn in
      if (Z.to_nat (last + 1) <=? i)%nat then true
      else match level with
           | O => false
           | S level' => if (0 <=? lastbn) && (Z.of_nat i =? last) then dropped level' (lastbn mod 256 ^ Z.of_nat level) ix else false
           end
  end.
Definition gone (p : path) (level : nat) (lastbn : Z) (q : path) : bool :=
  match rest p q with Some ix => dropped level lastbn ix | None => false end.

Lemma last_entry_range level lastbn : -1 ≤ lastbn < 256 ^ Z.of_nat (S level) → -1 ≤ last_entry level lastbn ≤ 255.
Proof.
  intros Hl. unfold last_entry. destruct (Z.ltb_spec 0 lastbn) as [Hp|Hp].
  - assert (Hpow : 0 < 256 ^ Z.of_nat level) by (apply Z.pow_pos_nonneg; lia). split; [pose proof (Z.div_pos lastbn (256 ^ Z.of_nat level)); lia|].
    enough (lastbn / 256 ^ Z.of_nat level < 256) by lia. apply Z.div_lt_upper_bound; [done|].
    rewrite Nat2Z.inj_succ, Z.pow_succ_r in Hl by lia. lia.
  - lia.
Qed.
(** Nothing stays. *)
Lemma dropped_all level ix : dropped level (-1) ix = match ix with [] => false | _ => true end.
Proof. by destruct level, ix. Qed.

(** Strictly below [p]. *)
Definition under (p q : path) : bool := match rest p q with Some (_ :: _) => true | _ => false end.
Lemma gone_all p level q : gone p level (-1) q = under p q.
Proof. unfold gone, under. destruct (rest p q) as [ix|]; [|done]. rewrite dropped_all. by destruct ix. Qed.
(** All of a file that has only the address [r]. *)
Lemma stray_within l A K r nb q : l !! K = Some (stray r nb) → (r < 7)%nat → p_file q = K → node l (A dev) q ≠ 0 →
  under (Path K r []) q || bool_decide (q = Path K r []) = true.
Proof.
  intros Hl Hr Hk Hn. destruct q as [k r' ix]. simpl in Hk. subst k. destruct (decide (r' = r)) as [->|Hne].
  - assert (E : rest (Path K r []) (Path K r ix) = Some ix) by (by apply rest_Some). unfold under. rewrite E. destruct ix; [|done].
    by rewrite bool_decide_true.
  - exfalso. apply Hn. unfold node, root. cbn [p_file p_root p_idx]. rewrite Hl.
    change (walk (A dev) (default 0 (i_addr (stray r nb) !! r')) ix = 0). rewrite stray_addr by done. rewrite decide_False by done.
    destruct (decide (r' < 7)%nat); apply walk_0.
Qed.
Lemma under_file p q : under p q = true → p_file q = p_file p.
Proof. unfold under. destruct (rest p q) as [ix|] eqn:E; [|done]. by apply rest_Some in E as ->. Qed.
(** Nothing is below a data block. *)
Lemma under_valid p q : valid q → full p → under p q = false.
Proof.
  intros (_ & V & _) [_ Hp]. unfold under. destruct (rest p q) as [[|i ix]|] eqn:E; try done. apply rest_Some in E as ->.
  unfold extend in V. simpl in V. rewrite length_app in V. simpl in V. lia.
Qed.

(** What goes: the entries above the last, and part of the last. *)
Lemma rest_step p i q : rest (child p i) q = match rest p q with Some (j :: ix) => if decide (j = i) then Some ix else None | _ => None end.
Proof.
  destruct (rest (child p i) q) as [ix|] eqn:E.
  - apply rest_Some in E as ->. rewrite <- extend_child, rest_extend. by rewrite decide_True.
  - destruct (rest p q) as [[|j ix]|] eqn:E'; try done. destruct (decide (j = i)) as [->|]; [|done]. apply rest_Some in E' as ->.
    rewrite extend_child, rest_extend in E. done.
Qed.
Lemma gone_split p level lastbn q : -1 ≤ lastbn < 256 ^ Z.of_nat (S (S level)) →
  let last := last_entry (S level) lastbn in
  gone p (S level) lastbn q = cut p (Z.to_nat (last + 1)) q ||
    ((0 <=? lastbn) && gone (child p (Z.to_nat last)) level (lastbn mod 256 ^ Z.of_nat (S level)) q).
Proof.
  intros Hr last. pose proof (last_entry_range _ _ Hr) as Hlast. unfold gone, cut. rewrite rest_step. destruct (rest p q) as [[|i ix]|]; cbn [dropped].
  - symmetry. apply andb_false_r.
  - fold last. destruct (Z.to_nat (last + 1) <=? i)%nat eqn:Em; [done|]. simpl orb. destruct (Z.leb_spec 0 lastbn) as [H0|H0]; [|done]. simpl andb.
    assert (Hl0 : 0 ≤ last) by (unfold last, last_entry; destruct (0 <? lastbn); [apply Z.div_pos; lia|lia]).
    destruct (Z.eqb_spec (Z.of_nat i) last) as [E|E]; [rewrite decide_True by lia|rewrite decide_False by lia]; done.
  - symmetry. apply andb_false_r.
Qed.
Lemma gone_single p lastbn q : gone p 0 lastbn q = cut p (Z.to_nat (last_entry 0 lastbn + 1)) q.
Proof. unfold gone, cut. destruct (rest p q) as [[|i ix]|]; try done. cbn [dropped]. by destruct (_ <=? i)%nat. Qed.

(** The addresses of the file [k] that are not kept go to a file of their
    own. *)
Section Split.
Context l A F (k : nat) (z z' x : inode) (keep : nat → bool).
Context (Hf : forest l A F) (Hk : l !! k = Some z) (Hd1 : i_dev z' = dev) (Hd2 : i_dev x = dev).
Context (Hl1 : length (i_addr z') = 7%nat) (Hl2 : length (i_addr x) = 7%nat).
Context (Hz' : ∀ r, (r < 7)%nat → i_addr z' !! r = if keep r then i_addr z !! r else Some 0).
Context (Hx : ∀ r, (r < 7)%nat → i_addr x !! r = if keep r then Some 0 else i_addr z !! r).
Let l' := <[k := z']> l ++ [x].

Lemma split_root j r : (r < 7)%nat → root l' j r =
  if decide (j = k) then (if keep r then root l k r else 0) else if decide (j = length l) then (if keep r then 0 else root l k r) else root l j r.
Proof.
  intros Hr. pose proof (lookup_lt_Some _ _ _ Hk) as Hlt. unfold root, l'. destruct (decide (j = k)) as [->|Hne].
  - rewrite lookup_app_l by (by rewrite length_insert). rewrite list_lookup_insert_eq by done. rewrite Hk. simpl. rewrite Hz' by done. by destruct (keep r).
  - destruct (decide (j = length l)) as [->|Hne'].
    + rewrite lookup_app_r by (by rewrite length_insert). rewrite length_insert, Nat.sub_diag, Hk. simpl. rewrite Hx by done. by destruct (keep r).
    + destruct (decide (j < length l)%nat) as [Hj|Hj].
      * rewrite lookup_app_l by (by rewrite length_insert). by rewrite list_lookup_insert_ne.
      * rewrite lookup_ge_None_2 by (rewrite length_app, length_insert; simpl; lia). by rewrite lookup_ge_None_2 by lia.
Qed.
Lemma split_node q : valid q → node l' (A dev) q =
  if decide (p_file q = k) then (if keep (p_root q) then node l (A dev) q else 0)
  else if decide (p_file q = length l) then (if keep (p_root q) then 0 else node l (A dev) (Path k (p_root q) (p_idx q)))
  else node l (A dev) q.
Proof.
  intros (Hr & _). unfold node. rewrite split_root by done. destruct q as [j r ix]. cbn [p_file p_root p_idx] in *.
  destruct (decide (j = k)) as [->|]; [destruct (keep r); [done|apply walk_0]|]. destruct (decide (j = length l)); [|done].
  destruct (keep r); [apply walk_0|done].
Qed.
Definition unsplit (q : path) : path := if decide (p_file q = length l) then Path k (p_root q) (p_idx q) else q.
Lemma forest_split : forest l' A F.
Proof.
  pose proof (lookup_lt_Some _ _ _ Hk) as Hlt.
  assert (HN : ∀ q, valid q → node l' (A dev) q ≠ 0 → node l' (A dev) q = node l (A dev) (unsplit q) ∧
    keep (p_root q) = bool_decide (p_file q = k) || (keep (p_root q) && bool_decide (p_file q ≠ length l))).
  { intros q Hq Hn. rewrite split_node in Hn |- * by done. unfold unsplit. destruct (decide (p_file q = k)) as [E|E].
    - rewrite bool_decide_true by done. destruct (keep (p_root q)); [|done]. rewrite decide_False by lia. done.
    - rewrite (bool_decide_false (p_file q = k)) by done. destruct (decide (p_file q = length l)) as [E'|E'].
      + destruct (keep (p_root q)); [done|]. done.
      + rewrite (bool_decide_true (_ ≠ _)) by done. split; [done|]. by rewrite andb_true_r. }
  apply (forest_embed l A F l' A F unsplit); try done.
  - intros j y. unfold l'. intros [[[-> ->]|[_ Hy]]%insert_cases|[_ Hy]]%lookup_app_Some; [done|by apply (fo_inode _ _ _ _ _ _ Hf j)|].
    apply list_lookup_singleton_Some in Hy as [_ <-]. done.
  - intros q Hq Hn. destruct (HN q Hq Hn) as [E _]. assert (Hu : valid (unsplit q)) by (unfold unsplit; by destruct (decide _)).
    split; [done|]. split; [done|]. rewrite E. intros Hlen. apply (fo_whole _ _ _ _ _ _ Hf); [done|by rewrite <- E|].
    unfold unsplit. by destruct (decide _).
  - intros q r Hq Hr Hnq Hnr E. destruct (HN q Hq Hnq) as [_ E1], (HN r Hr Hnr) as [_ E2]. unfold unsplit in E.
    destruct q as [j1 r1 i1], r as [j2 r2 i2]. cbn [p_file p_root p_idx] in *.
    destruct (decide (j1 = length l)) as [->|H1], (decide (j2 = length l)) as [->|H2]; simplify_eq; try done.
    + rewrite (bool_decide_false (length l = k)) in E1 by lia. rewrite (bool_decide_true (k = k)) in E2 by done. simpl in E2.
      rewrite E2, (bool_decide_false (length l ≠ length l)) in E1 by tauto. done.
    + rewrite (bool_decide_false (length l = k)) in E2 by lia. rewrite (bool_decide_true (k = k)) in E1 by done. simpl in E1.
      rewrite E1, (bool_decide_false (length l ≠ length l)) in E2 by tauto. done.
Qed.
(** The file made of the rest is gone. *)
Definition lost (P : path → bool) (q : path) : bool :=
  if decide (p_file q = k ∧ keep (p_root q) = false) then true else P q && bool_decide (p_file q ≠ length l).
Lemma pruned_unsplit P e2 A2 F2 :
  pruned P l' A F (<[k := z']> l ++ e2) A2 F2 → (∀ q, valid q → p_file q = length l → node l' (A dev) q ≠ 0 → P q = true) →
  pruned (lost P) l A F (<[k := z']> l) A2 F2.
Proof.
  intros [P1 P2 P3 P4] HP. pose proof (lookup_lt_Some _ _ _ Hk) as Hlt.
  assert (Hin : ∀ q, node (<[k := z']> l) (A2 dev) q ≠ 0 → node (<[k := z']> l ++ e2) (A2 dev) q = node (<[k := z']> l) (A2 dev) q).
  { intros q Hn. destruct (decide (p_file q < length l)%nat); [by rewrite node_app_l by (by rewrite length_insert)|].
    exfalso. apply Hn, node_beyond. rewrite length_insert. lia. }
  split.
  - by eapply forest_prefix.
  - intros q Hq. destruct (decide (p_file q < length l)%nat) as [Hlq|Hlq].
    + rewrite <- (node_app_l _ e2) by (by rewrite length_insert). rewrite P2, split_node by done. unfold lost.
      rewrite (bool_decide_true (_ ≠ _)) by lia. rewrite andb_true_r. destruct (decide (p_file q = k)) as [E|E].
      * destruct (keep (p_root q)); [rewrite decide_False by (by intros [_ ?]); done|rewrite decide_True by done; by destruct (P q)].
      * rewrite decide_False by lia. rewrite decide_False by (by intros [? _]). done.
    + rewrite !node_beyond by (rewrite ?length_insert; lia). by destruct (lost P q).
  - intros q Hq Hn. rewrite <- (Hin q Hn) in Hn |- *. by apply P3.
  - intros b. rewrite P4. f_equiv. split.
    + intros (q & V & E & En & Hb). exists (unsplit q). assert (Vu : valid (unsplit q)) by (unfold unsplit; by destruct (decide _)).
      split; [done|]. rewrite split_node in En by done. destruct (decide (p_file q = k)) as [Ek|Ek].
      * assert (Eu : unsplit q = q) by (unfold unsplit; by rewrite decide_False by lia). rewrite Eu. unfold lost.
        destruct (keep (p_root q)) eqn:Ekp; [|congruence]. rewrite decide_False by (by intros [_ ?]; congruence).
        rewrite E, bool_decide_true by lia. done.
      * unfold unsplit in *. destruct (decide (p_file q = length l)) as [El|El]; unfold lost.
        -- destruct (keep (p_root q)) eqn:Ekp; [congruence|]. cbn [p_file p_root p_idx]. rewrite decide_True by done. done.
        -- rewrite decide_False by tauto. rewrite E, bool_decide_true by done. done.
    + intros (q & V & E & En & Hb). unfold lost in E. destruct (decide _) as [[Ek Ekp]|Hno].
      * exists (Path (length l) (p_root q) (p_idx q)). assert (Eq : q = Path k (p_root q) (p_idx q)) by (by destruct q; simpl in *; subst).
        assert (En' : node l' (A dev) (Path (length l) (p_root q) (p_idx q)) = b).
        { rewrite split_node by done. cbn [p_file p_root p_idx]. rewrite decide_False by lia. rewrite decide_True by done. by rewrite Ekp, <- Eq. }
        split; [done|]. split; [|done]. apply HP; [done|done|congruence].
      * apply andb_true_iff in E as [E1 E2%bool_decide_eq_true_1]. exists q. split; [done|]. split; [done|]. split; [|done].
        rewrite split_node by done. rewrite (decide_False (P := p_file q = length l)) by done. destruct (decide (p_file q = k)); [|done].
        destruct (keep (p_root q)); [done|]. tauto.
Qed.
End Split.

(** A block [n] of a tree goes exactly if it is above the last one kept. *)
Lemma dropped_step level lastbn n ix :
  -1 ≤ lastbn < 256 ^ Z.of_nat (S (S level)) → 0 ≤ n < 256 ^ Z.of_nat (S (S level)) →
  let f := 256 ^ Z.of_nat (S level) in
  dropped level (lastbn mod f) ix = (lastbn mod f <? n mod f) →
  dropped (S level) lastbn (Z.to_nat (n / f) :: ix) = (lastbn <? n).
Proof.
  intros Hl Hn f HD. assert (Hf : 0 < f) by (apply Z.pow_pos_nonneg; lia). cbn [dropped].
  pose proof (Z.div_mod n f ltac:(lia)). pose proof (Z.mod_pos_bound n f Hf). pose proof (Z.div_pos n f ltac:(lia) Hf).
  destruct (Z.leb_spec 0 lastbn) as [Hge|Hge].
  - assert (El : last_entry (S level) lastbn = lastbn / f).
    { unfold last_entry. destruct (Z.ltb_spec 0 lastbn); [done|]. assert (lastbn = 0) as -> by lia. by rewrite Z.div_0_l by lia. }
    rewrite El. pose proof (Z.div_mod lastbn f ltac:(lia)). pose proof (Z.mod_pos_bound lastbn f Hf). pose proof (Z.div_pos lastbn f Hge Hf).
    destruct (Nat.leb_spec (Z.to_nat (lastbn / f + 1)) (Z.to_nat (n / f))) as [Hle|Hle].
    { symmetry. apply Z.ltb_lt. nia. }
    simpl andb. rewrite Z2Nat.id by done. destruct (Z.eqb_spec (n / f) (lastbn / f)) as [E|E].
    + fold f. rewrite HD. destruct (Z.ltb_spec (lastbn mod f) (n mod f)), (Z.ltb_spec lastbn n); nia || done.
    + symmetry. apply Z.ltb_ge. nia.
  - assert (lastbn = -1) as -> by lia. symmetry. apply Z.ltb_lt. lia.
Qed.
Lemma dropped_single lastbn n : -1 ≤ lastbn < 256 → 0 ≤ n → dropped 0 lastbn [Z.to_nat n] = (lastbn <? n).
Proof.
  intros Hl Hn. cbn [dropped]. unfold last_entry. change (256 ^ Z.of_nat 0) with 1. rewrite Z.div_1_r.
  replace (if 0 <? lastbn then lastbn else lastbn) with lastbn by (by destruct (0 <? lastbn)).
  destruct (Nat.leb_spec (Z.to_nat (lastbn + 1)) (Z.to_nat n)), (Z.ltb_spec lastbn n); lia || done.
Qed.
(** Where the trees of a file begin. *)
Definition tree_base (level : nat) : Z := nth level [4; 4 + 256; 4 + 256 + 65536] 0.
Lemma locate_tree n r ix : locate n = Some (r, ix) →
  (r < 4)%nat ∧ n = Z.of_nat r ∧ ix = [] ∨
  ∃ level, (level < 3)%nat ∧ r = (4 + level)%nat ∧ tree_base level ≤ n < tree_base level + 256 ^ Z.of_nat (S level) ∧
    ∀ lastbn, -1 ≤ lastbn < 256 ^ Z.of_nat (S level) → dropped level lastbn ix = (lastbn <? n - tree_base level).
Proof.
  unfold locate. change (256 ^ 2) with 65536. change (256 ^ 3) with 16777216. intros E.
  destruct (Z.ltb_spec n 0) as [|H0]; [done|]. destruct (Z.ltb_spec n 4) as [H1|H1].
  { injection E as <- <-. left. split_and!; lia || done. }
  right. destruct (Z.ltb_spec (n - 4) 256) as [H2|H2].
  { injection E as <- <-. exists 0%nat. change (tree_base 0) with 4. change (256 ^ Z.of_nat 1) with 256. split_and!; try lia.
    intros lastbn Hl. apply dropped_single; lia. }
  destruct (Z.ltb_spec (n - 260) 65536) as [H3|H3].
  { injection E as <- <-. exists 1%nat. change (tree_base 1) with 260. change (256 ^ Z.of_nat 2) with 65536. split_and!; try lia.
    intros lastbn Hl. apply (dropped_step 0 lastbn (n - 260)); [done|change (256 ^ Z.of_nat 2) with 65536; lia|]. change (256 ^ Z.of_nat 1) with 256.
    pose proof (Z.mod_pos_bound lastbn 256 ltac:(lia)). pose proof (Z.mod_pos_bound (n - 260) 256 ltac:(lia)). apply dropped_single; lia. }
  destruct (Z.ltb_spec (n - 65796) 16777216) as [H4|H4]; [|done].
  injection E as <- <-. exists 2%nat. change (tree_base 2) with 65796. change (256 ^ Z.of_nat 3) with 16777216. split_and!; try lia.
  intros lastbn Hl. apply (dropped_step 1 lastbn (n - 65796)); [done|change (256 ^ Z.of_nat 3) with 16777216; lia|]. change (256 ^ Z.of_nat 2) with 65536.
  set (m := (n - 65796) mod 65536). set (k := lastbn mod 65536).
  pose proof (Z.mod_pos_bound lastbn 65536 ltac:(lia)). pose proof (Z.mod_pos_bound (n - 65796) 65536 ltac:(lia)).
  assert (Em : (n - 65796) / 256 mod 256 = m / 256 ∧ (n - 65796) mod 256 = m mod 256).
  { unfold m. change 65536 with (256 * 256). rewrite Z.rem_mul_r by lia. split.
    - rewrite (Z.mul_comm 256), Z.div_add by lia. rewrite (Z.div_small ((n - 65796) mod 256)) by (apply Z.mod_pos_bound; lia). lia.
    - rewrite (Z.mul_comm 256), Z.mod_add by lia. by rewrite Z.mod_mod by lia. }
  destruct Em as [-> ->]. apply (dropped_step 0 k m); [change (256 ^ Z.of_nat 2) with 65536; lia..|]. change (256 ^ Z.of_nat 1) with 256.
  pose proof (Z.mod_pos_bound k 256 ltac:(lia)). pose proof (Z.mod_pos_bound m 256 ltac:(lia)). apply dropped_single; lia.
Qed.
End Prune.
