(* ===== verification/Itrunc.v ===== *)
(** * [itrunc]

    The code that frees trees of blocks ([trsingle], [indirtrunc]) takes out
    exactly the blocks above the last one kept, and [itrunc] makes a file
    exactly as long as it is told. *)
From stdpp Require Import base tactics list option strings numbers gmap.
From S2P Require Import Prelude Ring Bio Cache Store Ufs Alloc Bmap Rwip Fileio Isave Trunc.
Open Scope Z_scope.

Section Itrunc.
Context `{Disks, Naps} (parts : list (list Z)) (usable : Z → Z → Prop) (dev : Z).
Context `{!Volumes parts usable, !GoodDisks, !Alone} (fuel : nat) (Hfuel : (NBUF + 2 ≤ fuel)%nat).
Notation volume := (volume parts usable dev).
Notation content := (content dev).
Implicit Types (v : vol) (L : list inode) (held : list nat) (A : Z → Z → block) (F : list Z) (q : path).

(** The order of the buffers in use does not matter. *)
Lemma cache_perm s held held' A : held ≡ₚ held' → cache_ok parts usable s held A → cache_ok parts usable s held' A.
Proof.
  intros Hp (hl & fl & Hc). assert (Hin : ∀ i, i ∈ held ↔ i ∈ held') by (intros i; by rewrite Hp). exists hl, fl. split; try apply Hc.
  - intros i Hi Hn. apply Hc; [done|]. by rewrite Hin.
  - intros i d Hi. apply Hc. by rewrite Hin.
  - destruct (ca_ids Hc) as [Hn Hf]. rewrite <- Hp. done.
  - destruct (ca_core Hc) as [C1 C2 C3 C4 C5 C6 C7 C8]. split; try done.
    + intros i x Hx. destruct (C1 i x Hx) as (? & ? & ? & E). split_and!; try done. rewrite E. by apply bool_decide_ext.
    + intros i x Hx Hn. apply (C2 i x Hx). by rewrite Hin.
    + intros i x Hx Hn. apply (C5 i x Hx). by rewrite Hin.
Qed.

(** The buffers in use hold no block. *)
Definition quiet (s : bstate) held : Prop := ∀ b, unused s held dev b.
Lemma quiet_keep s s' held : undisturbed held s s' → quiet s held → quiet s' held.
Proof. intros U Hq b. by eapply unused_keep. Qed.
(** The buffer [i] is ours, with a copy [d] of a block. *)
Definition copy (s : bstate) held A (i : nat) (d : block) : Prop := bufdata s !! i = Some d ∧ ∃ x, holds_none parts usable s held A i x.
Lemma copy_keep s s' held A A' i d : copy s held A i d → cache_ok parts usable s' (i :: held) A' → undisturbed (i :: held) s s' → copy s' held A' i d.
Proof.
  intros [Hd (x & _ & Hx & Hi & He)] Hc [U _]. destruct (U i ltac:(set_solver)) as [E1 E2]. split; [by rewrite E2|]. exists x.
  split_and!; try done. by rewrite E1.
Qed.
Lemma copy_quiet s held A i d : copy s held A i d → quiet s held → quiet s (i :: held).
Proof.
  intros [_ (x & _ & Hx & Hi & _)] Hq b j y [->|Hj]%elem_of_cons Hy; [|by eapply Hq]. assert (y = x) as -> by congruence.
  apply not_true_iff_false. intros (_ & _ & ?)%is_block_spec. congruence.
Qed.

(** The trees of the files and of the strays [L]. *)
Notation trees v L A F := (forest dev (fs_isize (sb v)) (fs_fsize (sb v)) (inodes v ++ L) A F).

(** The code got from [v] to [v'] and freed the paths [P]. *)
Record progress (P : path → bool) v L held A F v' L' A' F' : Prop := Progress {
  pg_volume : volume v' held A' F';
  pg_pruned : pruned dev (fs_isize (sb v)) (fs_fsize (sb v)) P (inodes v ++ L) A F (inodes v' ++ L') A' F';
  pg_settled : settled v v';
  pg_undisturbed : undisturbed held (bst v) (bst v') }.
Lemma progress_trees P v L held A F v' L' A' F' : progress P v L held A F v' L' A' F' → trees v' L' A' F'.
Proof. intros [_ [Hf _ _ _] (_ & E1 & E2 & _) _]. by rewrite E1, E2. Qed.
Lemma progress_refl v L held A F : volume v held A F → trees v L A F → progress (λ _, false) v L held A F v L A F.
Proof. intros Hv Hf. split; [done|by apply pruned_refl|done|apply undisturbed_refl]. Qed.
Lemma progress_trans P P' v L held A F v1 L1 A1 F1 v2 L2 A2 F2 :
  progress P v L held A F v1 L1 A1 F1 → progress P' v1 L1 held A1 F1 v2 L2 A2 F2 →
  progress (λ q, P q || P' q) v L held A F v2 L2 A2 F2.
Proof.
  intros [_ P2 P3 P4] [Q1 Q2 Q3 Q4]. pose proof P3 as (_ & E1 & E2 & _). rewrite E1, E2 in Q2.
  split; [done|by eapply pruned_trans|by eapply settled_trans|by eapply undisturbed_trans].
Qed.
Lemma progress_ext P P' v L held A F v' L' A' F' :
  (∀ q, valid q → node (inodes v ++ L) (A dev) q ≠ 0 → P q = P' q) →
  progress P v L held A F v' L' A' F' → progress P' v L held A F v' L' A' F'.
Proof. intros HP [P1 P2 P3 P4]. split; try done. by eapply pruned_ext. Qed.

Context (ip : nat).
Notation setz := (setz ip).
(** The inode that [free] is given. *)
Definition here v : Prop := ∃ z, inodes v !! ip = Some z ∧ i_dev z = dev.
Lemma here_settled v v' : settled v v' → here v → here v'.
Proof. intros (E & _) (z & Hz & Hd). exists z. by rewrite E. Qed.

(** A stray block without blocks below it is freed. *)
Lemma wp_free_stray v L held A F j r z z' b :
  volume v held A F → trees v L A F → quiet (bst v) held → here v → (length held < NBUF)%nat →
  L !! j = Some z → (r < 7)%nat → i_addr z !! r = Some b → b ≠ 0 → i_addr z' = <[r := 0]> (i_addr z) → i_dev z' = i_dev z →
  let p := Path (length (inodes v) + j) r [] in
  (∀ i, valid (child p i) → word (A dev b) i = 0) →
  wp (free fuel ip b) (λ _ v', ∃ A', progress (λ q, bool_decide (q = p)) v L held A F v' (<[j := z']> L) A' (b :: F)) v.
Proof.
  intros Hv Hf Hq (y & Hy & Hd) Hl Hj Hr Ha Hb Ea Ed p Hw.
  assert (Hk : (inodes v ++ L) !! (length (inodes v) + j)%nat = Some z).
  { rewrite lookup_app_r by lia. by replace (length (inodes v) + j - length (inodes v))%nat with j by lia. }
  assert (Hp : valid p) by (unfold valid, p; simpl; split_and!; [done|lia|constructor]).
  assert (Ep : node (inodes v ++ L) (A dev) p = b) by (unfold node, p, root; simpl; rewrite Hk; simpl; by rewrite Ha).
  destruct (fo_range _ _ _ _ _ _ Hf p Hp ltac:(congruence)) as [R1 R2]. rewrite Ep in R1, R2.
  eapply wp_mono; [by apply (wp_free parts usable dev fuel v held A F ip b y)|]. intros [] v' (A' & HA & Hv' & HS & U). exists A'.
  split; try done. pose proof HS as (Ei & _). rewrite Ei, <- insert_app_r. by eapply forest_release.
Qed.

(** What is done to a block before it is freed takes away all below it. *)
Definition empties (below : Z → V unit) (level : nat) held : Prop := ∀ v L A F j nb,
  volume v held A F → trees v L A F → quiet (bst v) held → here v → L !! j = Some (stray dev (slot level) nb) → nb ≠ 0 →
  wp (below nb) (λ _ v', ∃ A' F', progress (under (Path (length (inodes v) + j) (slot level) [])) v L held A F v' L A' F') v.

(** One entry of an indirect block. *)
Lemma wp_free_entry below level held v L A F j nb :
  empties below level held → (slot level < 7)%nat → (length held < NBUF)%nat →
  volume v held A F → trees v L A F → quiet (bst v) held → here v → L !! j = Some (stray dev (slot level) nb) → nb ≠ 0 →
  wp (below nb;; free fuel ip nb) (λ _ v', ∃ A' F', progress (λ q, bool_decide (p_file q = length (inodes v) + j)%nat) v L held A F v' (<[j := stray dev (slot level) 0]> L) A' F') v.
Proof.
  intros HB Hs Hl Hv Hf Hq Hh Hj Hn. set (p := Path (length (inodes v) + j) (slot level) []).
  apply wp_bind. eapply wp_mono; [by apply (HB v L A F j nb)|]. intros [] v1 (A1 & F1 & Hp). fold p in Hp.
  pose proof Hp as [P1 P2 P3 P4]. pose proof (progress_trees _ _ _ _ _ _ _ _ _ _ Hp) as Hf1. pose proof P3 as (Ei & _).
  assert (Hk : (inodes v ++ L) !! (length (inodes v) + j)%nat = Some (stray dev (slot level) nb)).
  { rewrite lookup_app_r by lia. by replace (length (inodes v) + j - length (inodes v))%nat with j by lia. }
  assert (Ha : i_addr (stray dev (slot level) nb) !! slot level = Some nb) by (by rewrite stray_addr, decide_True).
  assert (Hvp : valid p) by (unfold valid, p; simpl; split_and!; [done|lia|constructor]).
  assert (Ep : node (inodes v1 ++ L) (A1 dev) p = nb).
  { rewrite Ei. unfold node, p, root. cbn [p_file p_root p_idx walk]. rewrite Hk. cbn. apply (f_equal (default 0)) in Ha. exact Ha. }
  eapply wp_mono; [apply (wp_free_stray v1 L held A1 F1 j (slot level) (stray dev (slot level) nb) (stray dev (slot level) 0) nb); try done|].
  - by eapply quiet_keep.
  - by eapply here_settled.
  - unfold stray. simpl. by rewrite list_insert_insert_eq.
  - rewrite Ei. fold p. intros i Hvi. assert (Hc : node (inodes v1 ++ L) (A1 dev) (child p i) = 0).
    { rewrite (pr_node _ _ _ _ _ _ _ _ _ _ P2) by done. unfold under. change (child p i) with (extend p [i]). by rewrite rest_extend. }
    rewrite node_child, Ep in Hc. by rewrite (proj2 (Z.eqb_neq nb 0)) in Hc.
  - rewrite Ei. fold p. intros [] v2 (A2 & Hp2). exists A2, (nb :: F1). eapply progress_ext; [|by eapply progress_trans].
    intros q Hvq Hnq. destruct (decide (p_file q = (length (inodes v) + j)%nat)) as [E|E].
    + rewrite (bool_decide_true (p_file q = _)) by done. by eapply (stray_within dev (inodes v ++ L) A).
    + rewrite (bool_decide_false (p_file q = _)) by done. apply orb_false_iff. split.
      * destruct (under p q) eqn:Eu; [|done]. by apply under_file in Eu.
      * apply bool_decide_false. by intros ->.
Qed.

Lemma wp_free_entries below level cpy (d : list Z) (m : nat) held L0 is_ :
  empties below level (cpy :: held) → (slot level < 7)%nat → (length held + 1 < NBUF)%nat → length d = 256%nat → NoDup is_ →
  ∀ v E A F, volume v (cpy :: held) A F → trees v (L0 ++ E) A F → quiet (bst v) (cpy :: held) → here v → copy (bst v) held A cpy d →
  (∀ i, i ∈ is_ → (m ≤ i < 256)%nat ∧ E !! (i - m)%nat = Some (stray dev (slot level) (word d i))) →
  wp (free_entries fuel ip cpy below is_) (λ _ v', ∃ E' A' F', progress
    (λ q, existsb (λ i, p_file q =? length (inodes v) + length L0 + (i - m))%nat is_) v (L0 ++ E) (cpy :: held) A F v' (L0 ++ E') A' F') v.
Proof.
  intros HB Hs Hl Hd. induction is_ as [|i is_ IH]; intros Hnd v E A F Hv Hf Hq Hh Hc HE.
  { apply wp_ret. exists E, A, F. by apply progress_refl. }
  apply NoDup_cons in Hnd as [Hi Hnd]. destruct (HE i ltac:(set_solver)) as [Him HEi]. cbn [free_entries].
  pose proof Hc as [Hcd (x & Hx)]. apply wp_bind, wp_on_cache. eapply (wp_load_none parts usable); [exact Hx|exact Hcd|].
  destruct (lookup_lt_is_Some_2 d i) as [w Hw]; [lia|]. assert (Ew : word d i = w) by (by apply word_lookup).
  apply wp_bind. eapply wp_lift; [apply rd_Done; exact Hw|]. rewrite vol_id. apply wp_bind.
  set (K := (length (inodes v) + length L0)%nat).
  assert (Hstep : wp (if w =? 0 then mret tt else below w;; free fuel ip w) (λ _ v', ∃ E' A' F',
    progress (λ q, bool_decide (p_file q = K + (i - m))%nat) v (L0 ++ E) (cpy :: held) A F v' (L0 ++ E') A' F' ∧ (∀ j, j ≠ (i - m)%nat → E' !! j = E !! j)) v).
  { assert (HLj : (L0 ++ E) !! (length L0 + (i - m))%nat = Some (stray dev (slot level) w)).
    { rewrite lookup_app_r by lia. replace (length L0 + (i - m) - length L0)%nat with (i - m)%nat by lia. by rewrite HEi, Ew. }
    destruct (Z.eqb_spec w 0) as [Hw0|Hw0].
    - apply wp_ret. exists E, A, F. split; [|done]. eapply progress_ext; [|by apply progress_refl]. intros q Hvq Hnq. symmetry.
      apply bool_decide_false. intros Ek. apply Hnq. unfold node, root. rewrite Ek. unfold K.
      rewrite lookup_app_r by lia. replace (length (inodes v) + length L0 + (i - m) - length (inodes v))%nat with (length L0 + (i - m))%nat by lia.
      rewrite HLj. change (walk (A dev) (default 0 (i_addr (stray dev (slot level) w) !! p_root q)) (p_idx q) = 0). rewrite stray_addr by done.
      rewrite Hw0. destruct (decide (p_root q = slot level)); [apply walk_0|]. destruct (decide (p_root q < 7)%nat); apply walk_0.
    - eapply wp_mono; [by eapply (wp_free_entry below level (cpy :: held) v (L0 ++ E) A F (length L0 + (i - m)) w); [done|done|simpl; lia|..]|].
      intros [] v' (A' & F' & Hp). rewrite insert_app_r in Hp. exists (<[(i - m)%nat := stray dev (slot level) 0]> E), A', F'. unfold K.
      split; [by rewrite <- Nat.add_assoc|]. intros j Hj. by apply list_lookup_insert_ne. }
  eapply wp_mono; [exact Hstep|]. intros [] v1 (E1 & A1 & F1 & Hp & HE1). pose proof Hp as [P1 P2 P3 P4]. pose proof P3 as (Ei & _).
  eapply wp_mono; [apply (IH Hnd v1 E1 A1 F1); try done|].
  - by eapply progress_trees.
  - by eapply quiet_keep.
  - by eapply here_settled.
  - eapply copy_keep; [exact Hc|apply P1|done].
  - intros i' Hi'. destruct (HE i' ltac:(set_solver)) as [Him' HEi']. split; [done|]. rewrite HE1; [done|]. intros Ej.
    apply Hi. assert (i = i') as -> by lia. done.
  - rewrite Ei. intros [] v2 (E2 & A2 & F2 & Hp2). exists E2, A2, F2. eapply progress_ext; [|by eapply progress_trans].
    intros q _ _. cbn [existsb]. fold K. f_equal. destruct (Nat.eqb_spec (p_file q) (K + (i - m))); [by apply bool_decide_true|by apply bool_decide_false].
Qed.

Lemma undisturbed_tail i held s s' : undisturbed (i :: held) s s' → undisturbed held s s'.
Proof. intros [U1 U2]. split; [|done]. intros j Hj. apply U1. set_solver. Qed.

(** The block that holds the addresses is read, copied and cut short. *)
Lemma wp_trim v L held A F p level bn (m : nat) aflags (kont : nat → V unit) (Q : unit → vol → Prop) :
  volume v held A F → trees v L A F → quiet (bst v) held → valid p → (length (p_idx p) + S level = levels (p_root p))%nat →
  node (inodes v ++ L) (A dev) p = bn → bn ≠ 0 → (m ≤ 256)%nat → (length held + 2 < NBUF)%nat →
  (∀ cpy v1, let A1 := upd A dev bn (trimmed m (A dev bn)) in
     volume v1 (cpy :: held) A1 F → copy (bst v1) held A1 cpy (A dev bn) → settled v v1 → undisturbed held (bst v) (bst v1) →
     quiet (bst v1) (cpy :: held) → wp (kont cpy) Q v1) →
  wp (bp ← on_cache (bread fuel dev bn);
      x ← on_cache (buf_at bp);
      if has (b_flags x) B_ERROR then on_cache (brelse bp)
      else
        cpy ← on_cache (geteblk fuel);
        d ← on_cache (load bp); on_cache (store cpy d);;
        on_cache (store bp (take m d ++ replicate (256 - m) 0));;
        (if has aflags B_SYNC then on_cache (bwrite fuel bp) else on_cache (bawrite fuel bp));;
        kont cpy) Q v.
Proof.
  intros Hv Hf Hq Hp Hlev Ep Hb Hm Hl HQ. destruct (vo_bounds _ _ _ _ _ _ _ Hv) as [B1 B2].
  destruct (fo_range _ _ _ _ _ _ Hf p Hp ltac:(congruence)) as [R1 R2]. rewrite Ep in R1, R2. set (d := A dev bn).
  apply wp_bind, wp_on_cache.
  eapply wp_mono; [apply (wp_bread parts usable fuel (bst v) held A dev bn); [apply Hv|apply Hv; lia|apply Hq|lia|done]|].
  intros i s1 (Ho & Hd1 & _). pose proof Ho as (Hi & _). destruct (obtained_holds _ _ _ _ _ _ _ _ _ Ho) as (x & Hh1 & U1 & _).
  apply wp_bind, wp_on_cache. eapply held_at; [apply Hh1|apply Hh1|]. intros y _ Ey. rewrite Ey. clear y Ey. fields.
  apply wp_bind, wp_on_cache. eapply wp_mono; [apply (wp_geteblk parts usable fuel s1 (i :: held) A); [apply Hh1|simpl; lia|done]|].
  intros cpy s2 (Hc & U2 & y & Hy). apply not_elem_of_cons in Hc as [Hci Hch].
  destruct (proj1 U2 i ltac:(set_solver)) as [K2 D2].
  assert (Hh2 : ∀ s, cache_ok parts usable s (cpy :: i :: held) A → core s = core s2 → holds parts usable s (cpy :: held) A i dev bn x).
  { intros s Hs Es. destruct Hh1 as (_ & X1 & X2 & X3). split_and!; try done; [|by rewrite Es, K2]. eapply cache_perm; [apply perm_swap|done]. }
  apply wp_bind, wp_on_cache. fields. eapply (wp_bload parts usable); [apply (Hh2 s2); [apply Hy|done]|rewrite D2; exact Hd1|].
  apply wp_bind, wp_on_cache. fields. eapply (wp_store_none parts usable); [exact Hy|]. intros Hy3 Dc3. fold d in Hy3, Dc3 |- *.
  set (s3 := s2<|bufdata := <[cpy := d]> (bufdata s2)|>) in *.
  apply wp_bind, wp_on_cache. fields. eapply (wp_bstore parts usable); [apply (Hh2 s3); [apply Hy3|done]|]. intros Hh4 Dd4.
  change (take m d ++ replicate (256 - m) 0) with (trimmed m d) in *. set (s4 := s3<|bufdata := <[i := trimmed m d]> (bufdata s3)|>) in *.
  apply wp_bind. set (A1 := upd A dev bn (trimmed m d)).
  apply (wp_mono _ (λ _ w, ∃ s5, w = v<|bst := s5|> ∧ cache_ok parts usable s5 (cpy :: held) A1 ∧ undisturbed (cpy :: held) s4 s5)).
  { destruct (has aflags B_SYNC); apply wp_on_cache; fields.
    - eapply wp_mono; [by eapply (wp_write parts usable)|]. intros [] s5 (C5 & U5 & _). by exists s5.
    - eapply wp_mono; [by eapply (wp_write_async parts usable)|]. intros [] s5 (C5 & U5). by exists s5. }
  intros [] w (s5 & -> & C5 & U5).
  assert (Hcp : copy s5 held A1 cpy d).
  { destruct (proj1 U5 cpy ltac:(set_solver)) as [K5 D5]. destruct Hy3 as (_ & Y1 & Y2 & Y3). split.
    - rewrite D5. unfold s4. fields. by rewrite list_lookup_insert_ne.
    - exists y. split_and!; try done. by rewrite K5. }
  assert (U : undisturbed held (bst v) s5).
  { eapply undisturbed_trans; [exact U1|]. eapply undisturbed_trans; [by eapply undisturbed_tail|].
    eapply undisturbed_trans; [by apply (undisturbed_store held s2 cpy d)|].
    eapply undisturbed_trans; [by apply (undisturbed_store held s3 i (trimmed m d))|]. by eapply undisturbed_tail. }
  assert (Hq5 : quiet s5 (cpy :: held)) by (eapply copy_quiet; [exact Hcp|by eapply quiet_keep]).
  apply HQ; try done. split; fields; try apply Hv; try done; try (intros b _; apply Hq5).
  destruct (vo_list _ _ _ _ _ _ _ Hv) as [Hn|Hch']; [by left|right]. eapply chain_other; [exact Hch'|]. intros c Hc'. apply upd_other. by intros [_ ->].
Qed.

Lemma above_in (m : nat) last i : m = Z.to_nat (last + 1) → i ∈ above last → (m ≤ i < 256)%nat.
Proof. intros ->. unfold above. rewrite elem_of_reverse, elem_of_seq. lia. Qed.

(** All entries from [m] on, and what is below them, are freed. *)
Lemma wp_cut_entries below v L held A F p level bn m last aflags (tail : nat → V unit) (kont : nat → V unit) (Q : unit → vol → Prop) :
  volume v held A F → trees v L A F → quiet (bst v) held → here v → valid p → (length (p_idx p) + S level = levels (p_root p))%nat →
  node (inodes v ++ L) (A dev) p = bn → bn ≠ 0 → m = Z.to_nat (last + 1) → -1 ≤ last ≤ 255 → (length held + 2 < NBUF)%nat →
  (∀ cpy, empties below level (cpy :: held)) →
  (∀ cpy v2 A2 F2, volume v2 (cpy :: held) A2 F2 → quiet (bst v2) (cpy :: held) → copy (bst v2) held A2 cpy (A dev bn) →
     pruned dev (fs_isize (sb v)) (fs_fsize (sb v)) (cut p m) (inodes v ++ L) A F (inodes v2 ++ L) A2 F2 → settled v v2 →
     undisturbed held (bst v) (bst v2) → wp (kont cpy) Q v2) →
  (∀ cpy v1, wp (free_entries fuel ip cpy below (above last)) (λ _, wp (kont cpy) Q) v1 → wp (tail cpy) Q v1) →
  wp (bp ← on_cache (bread fuel dev bn);
      x ← on_cache (buf_at bp);
      if has (b_flags x) B_ERROR then on_cache (brelse bp)
      else
        cpy ← on_cache (geteblk fuel);
        d ← on_cache (load bp); on_cache (store cpy d);;
        on_cache (store bp (take m d ++ replicate (256 - m) 0));;
        (if has aflags B_SYNC then on_cache (bwrite fuel bp) else on_cache (bawrite fuel bp));;
        tail cpy) Q v.
Proof.
  intros Hv Hf Hq Hh Hp Hlev Ep Hb Em Hlast Hl HB HQ HT. set (d := A dev bn). assert (Hm : (m ≤ 256)%nat) by lia.
  assert (Hb' : node (inodes v ++ L) (A dev) p ≠ 0) by congruence.
  assert (Hd : length d = 256%nat).
  { pose proof (detach_whole dev _ _ _ _ _ p level m Hf Hp Hlev Hm Hb') as E. by rewrite Ep in E. }
  eapply (wp_trim v L held A F p level bn m aflags tail); try done.
  intros cpy v1 A1 Hv1 Hc1 HS1 U1 Hq1. pose proof HS1 as (Ei & E1 & E2 & _).
  set (E := strays dev (inodes v ++ L) A p level m).
  assert (Hf1 : trees v1 (L ++ E) A1 F).
  { rewrite E1, E2, Ei, app_assoc. unfold A1. rewrite <- Ep. by apply forest_detach. }
  apply HT. eapply wp_mono; [eapply (wp_free_entries below level cpy d m held L (above last)); try done|].
  - by apply (slot_lt dev (inodes v) A p level m).
  - lia.
  - unfold above. rewrite reverse_Permutation. apply NoDup_seq.
  - by eapply here_settled.
  - intros i Hi. pose proof (above_in m last i Em Hi) as Hi'. split; [done|]. unfold E.
    rewrite (strays_lookup dev _ _ _ _ _ p level m Hf Hp Hlev Hm Hb') by lia. do 2 f_equal. rewrite Ep. unfold d. f_equal. lia.
  - intros [] v2 (E' & A2 & F2 & [P1 P2 P3 P4]). pose proof P3 as (Ei2 & _).
    apply (HQ cpy v2 A2 F2); try done.
    + by eapply quiet_keep.
    + eapply copy_keep; [exact Hc1|apply P1|done].
    + rewrite Ei2, Ei. eapply (pruned_detached dev _ _ _ A F p level m E' A2 F2); try done. cbv zeta. rewrite Ep.
      rewrite E1, E2, Ei2, Ei, !app_assoc in P2. eapply pruned_ext; [|exact P2]. fold E. intros q Hvq Hnq. cbv beta.
      assert (Hlt : (p_file q < length ((inodes v ++ L) ++ E))%nat).
      { destruct (decide (p_file q < length ((inodes v ++ L) ++ E))%nat); [done|]. exfalso. apply Hnq, node_beyond. lia. }
      assert (HlE : length E = (256 - m)%nat) by (by eapply strays_length). rewrite length_app, HlE in Hlt. rewrite <- length_app.
      destruct (decide (length (inodes v ++ L) ≤ p_file q)%nat) as [Hge|Hlt'].
      * rewrite bool_decide_true by done. apply existsb_exists. exists (p_file q - length (inodes v ++ L) + m)%nat. split; [|apply Nat.eqb_eq; lia].
        apply list_elem_of_In. unfold above. rewrite elem_of_reverse, elem_of_seq. lia.
      * rewrite bool_decide_false by lia. apply not_true_iff_false. intros (i & _ & Hi%Nat.eqb_eq)%existsb_exists. lia.
    + by eapply settled_trans.
    + eapply undisturbed_trans; [exact U1|]. by eapply undisturbed_tail.
Qed.

(** The copy is given back. *)
Lemma wp_drop_copy v held A F cpy d : volume v (cpy :: held) A F → quiet (bst v) held → copy (bst v) held A cpy d →
  wp (on_cache (brelse cpy)) (λ _ v', volume v' held A F ∧ settled v v' ∧ undisturbed held (bst v) (bst v')) v.
Proof.
  intros Hv Hq [_ (x & Hx)]. apply wp_on_cache. eapply wp_mono; [by eapply (wp_release_none parts usable)|]. intros [] s' [Hc U].
  split_and!; try done. split; fields; try apply Hv; [done|]. intros b _. by eapply quiet_keep.
Qed.

Lemma full_slot K : full (Path K 0 []).
Proof. unfold full, valid, levels. simpl. split_and!; [lia|lia|constructor|lia]. Qed.
Lemma empties_none held : empties (λ _, mret tt) 0 held.
Proof.
  intros v L A F j nb Hv Hf Hq Hh Hj Hn. apply wp_ret. exists A, F. eapply progress_ext; [|by apply progress_refl].
  intros q Hvq _. symmetry. apply under_valid; [done|apply full_slot].
Qed.

(** [indirtrunc] frees the blocks above [lastbn] behind an indirect block. *)
Definition indir_ok (aflags : Z) (level : nat) : Prop := ∀ v L held A F p bn lastbn,
  volume v held A F → trees v L A F → quiet (bst v) held → here v → valid p → (length (p_idx p) + S level = levels (p_root p))%nat →
  node (inodes v ++ L) (A dev) p = bn → bn ≠ 0 → -1 ≤ lastbn < 256 ^ Z.of_nat (S level) → (length held + level + 2 < NBUF)%nat →
  wp (indirtrunc fuel level ip bn lastbn aflags) (λ _ v', ∃ A' F', progress (gone p level lastbn) v L held A F v' L A' F') v.

(** All of a stray tree. *)
Lemma empties_indir aflags level held : indir_ok aflags level → (level < 2)%nat → (length held + level + 2 < NBUF)%nat →
  empties (λ nb, indirtrunc fuel level ip nb (-1) aflags) (S level) held.
Proof.
  intros Hok Hlv Hl v L A F j nb Hv Hf Hq Hh Hj Hn. set (p := Path (length (inodes v) + j) (slot (S level)) []).
  assert (Hk : (inodes v ++ L) !! (length (inodes v) + j)%nat = Some (stray dev (slot (S level)) nb)).
  { rewrite lookup_app_r by lia. by replace (length (inodes v) + j - length (inodes v))%nat with j by lia. }
  assert (Hp : valid p) by (unfold valid, p; simpl; split_and!; [lia|lia|constructor]).
  eapply wp_mono; [apply (Hok v L held A F p nb (-1)); try done|].
  - unfold node, p, root. cbn [p_file p_root p_idx walk]. rewrite Hk.
    change (default 0 (i_addr (stray dev (slot (S level)) nb) !! slot (S level)) = nb). rewrite stray_addr by (simpl; lia). by rewrite decide_True.
  - split; [done|]. apply Z.lt_trans with 0; [done|]. apply Z.pow_pos_nonneg; lia.
  - intros [] v' (A1 & F1 & HP). exists A1, F1. eapply progress_ext; [|exact HP]. intros q _ _. apply gone_all.
Qed.

(** The last entry that is kept, whose tree may lose a part. *)
Definition trunc_last (level : nat) (cpy : nat) (last lastbn aflags : Z) : V unit :=
  if 0 <=? lastbn then
    d ← on_cache (load cpy); nb ← lift (rdz d last);
    if nb =? 0 then mret tt else indirtrunc fuel level ip nb (lastbn mod 256 ^ Z.of_nat (S level)) aflags
  else mret tt.
Lemma wp_trunc_last aflags level v L held A F p cpy (d : block) last lastbn :
  indir_ok aflags level → (length held + level + 3 < NBUF)%nat →
  volume v (cpy :: held) A F → trees v L A F → quiet (bst v) (cpy :: held) → here v → copy (bst v) held A cpy d → length d = 256%nat →
  (0 ≤ lastbn → 0 ≤ last ≤ 255) → let p' := child p (Z.to_nat last) in
  (0 ≤ lastbn → valid p' ∧ (length (p_idx p') + S level = levels (p_root p'))%nat ∧ node (inodes v ++ L) (A dev) p' = word d (Z.to_nat last)) →
  wp (trunc_last level cpy last lastbn aflags) (λ _ v', ∃ A' F',
    progress (λ q, (0 <=? lastbn) && gone p' level (lastbn mod 256 ^ Z.of_nat (S level)) q) v L (cpy :: held) A F v' L A' F') v.
Proof.
  intros Hok Hl Hv Hf Hq Hh Hc Hd Hlast p' Hp'. unfold trunc_last.
  destruct (Z.leb_spec 0 lastbn) as [Hpos|Hneg]; [|apply wp_ret; exists A, F; by apply progress_refl].
  specialize (Hlast Hpos). destruct (Hp' Hpos) as (Hv' & Hlev & En). clear Hp'.
  pose proof Hc as [Hcd (x & Hx)]. apply wp_bind, wp_on_cache. eapply (wp_load_none parts usable); [exact Hx|exact Hcd|].
  destruct (lookup_lt_is_Some_2 (d : list Z) (Z.to_nat last)) as [w Hwl]; [lia|]. rewrite (word_lookup d _ w Hwl) in En.
  apply wp_bind. unfold rdz. rewrite (proj2 (Z.leb_le 0 last)) by lia. eapply wp_lift; [by apply rd_Done|]. rewrite vol_id.
  destruct (Z.eqb_spec w 0) as [Ew|Hw0].
  - apply wp_ret. exists A, F. eapply progress_ext; [|by apply progress_refl]. intros q Hvq Hnq. simpl. symmetry.
    unfold gone. destruct (rest p' q) as [ix|] eqn:Er; [|done]. apply rest_Some in Er as ->. exfalso. apply Hnq.
    change (at_path dev (v<|inodes := inodes v ++ L|>) A (extend p' ix) = 0). rewrite node_extend.
    change (walk (A dev) (node (inodes v ++ L) (A dev) p') ix = 0). rewrite En, Ew. apply walk_0.
  - assert (Hmod : 0 ≤ lastbn mod 256 ^ Z.of_nat (S level) < 256 ^ Z.of_nat (S level)) by (apply Z.mod_pos_bound, Z.pow_pos_nonneg; lia).
    eapply wp_mono; [apply (Hok v L (cpy :: held) A F p' w (lastbn mod 256 ^ Z.of_nat (S level))); try done; [lia|simpl; lia]|].
    intros [] v3 (A3 & F3 & HP3). by exists A3, F3.
Qed.

Lemma wp_indirtrunc_single aflags : indir_ok aflags 0.
Proof.
  intros v L held A F p bn lastbn Hv Hf Hq Hh Hp Hlev Ep Hb Hr Hl. pose proof (last_entry_range _ _ Hr) as Hlast. pose proof Hh as (z & Hz & Hd).
  cbn [indirtrunc]. fold (last_entry 0 lastbn). set (last := last_entry 0 lastbn) in *.
  unfold inode_at. apply wp_bind, wp_bind, wp_gets. eapply wp_lift; [by apply rd_Done|]. rewrite Hd.
  eapply (wp_cut_entries (λ _, mret tt) v L held A F p 0 bn (Z.to_nat (last + 1)) last aflags _ (λ cpy, on_cache (brelse cpy))); try done;
    [lia|intros; apply empties_none| |intros cpy v1 HT; by apply wp_bind].
  intros cpy v2 A2 F2 Hv2 Hq2 Hc2 HP HS U. eapply wp_mono; [eapply wp_drop_copy; [done|by eapply quiet_keep|done]|].
  intros [] v3 (Hv3 & HS3 & U3). pose proof HS3 as (Ei & _). exists A2, F2. split; [done| |by eapply settled_trans|by eapply undisturbed_trans].
  rewrite Ei. eapply pruned_ext; [|exact HP]. intros q _ _. symmetry. apply gone_single.
Qed.
Lemma wp_indirtrunc_more aflags level : (level < 2)%nat → indir_ok aflags level → indir_ok aflags (S level).
Proof.
  intros Hlv IH v L held A F p bn lastbn Hv Hf Hq Hh Hp Hlev Ep Hb Hr Hl. pose proof (last_entry_range _ _ Hr) as Hlast. pose proof Hh as (z & Hz & Hd).
  cbn [indirtrunc]. fold (last_entry (S level) lastbn). set (last := last_entry (S level) lastbn) in *.
  unfold inode_at. apply wp_bind, wp_bind, wp_gets. eapply wp_lift; [by apply rd_Done|]. rewrite Hd.
  eapply (wp_cut_entries (λ nb, indirtrunc fuel level ip nb (-1) aflags) v L held A F p (S level) bn (Z.to_nat (last + 1)) last aflags _
    (λ cpy, trunc_last level cpy last lastbn aflags;; on_cache (brelse cpy))); try done; [lia|intros; apply empties_indir; try done; simpl; lia| |].
  2:{ intros cpy v1 HT. apply wp_bind, wp_bind. eapply wp_mono; [exact HT|]. intros [] w HW. by apply wp_unbind in HW. }
  intros cpy v2 A2 F2 Hv2 Hq2 Hc2 HP HS U. pose proof HS as (Ei & E1 & E2 & _). apply wp_bind.
  assert (Hw : length (A dev bn) = 256%nat) by (rewrite <- Ep; eapply (fo_whole _ _ _ _ _ _ Hf p); [done|congruence|lia]).
  assert (Hpos : 0 ≤ lastbn → 0 ≤ last ≤ 255) by (intros; unfold last, last_entry in *; destruct (0 <? lastbn); [split; [apply Z.div_pos; lia|lia]|lia]).
  eapply wp_mono; [apply (wp_trunc_last aflags level v2 L held A2 F2 p cpy (A dev bn) last lastbn); try done|].
  - lia.
  - rewrite E1, E2. apply HP.
  - by eapply here_settled.
  - intros H3. specialize (Hpos H3). assert (Hp' : valid (child p (Z.to_nat last))).
    { destruct Hp as (V1 & V2 & V3). unfold valid. simpl. rewrite length_app, Forall_app, Forall_singleton. simpl. split_and!; (done || lia). }
    split; [done|]. split; [simpl; rewrite length_app; simpl; lia|]. rewrite (pr_node _ _ _ _ _ _ _ _ _ _ HP _ Hp'). rewrite cut_child, decide_True by done.
    rewrite (proj2 (Nat.leb_gt _ _)) by lia. by rewrite node_child, Ep, (proj2 (Z.eqb_neq bn 0)) by done.
  - intros [] v3 (A3 & F3 & HP3). pose proof HP3 as [Q1 Q2 Q3 Q4]. pose proof Q3 as (Ei3 & _).
    eapply wp_mono; [eapply wp_drop_copy; [done| |eapply copy_keep; [exact Hc2|apply Q1|done]]|].
    { eapply quiet_keep; [|exact Hq]. eapply undisturbed_trans; [exact U|by eapply undisturbed_tail]. }
    intros [] v4 (Hv4 & HS4 & U4). pose proof HS4 as (Ei4 & _). exists A3, F3. rewrite E1, E2 in Q2. split.
    + done.
    + rewrite Ei4. eapply pruned_ext; [|eapply pruned_trans; [exact HP|exact Q2]]. intros q _ _. symmetry. by apply gone_split.
    + eapply settled_trans; [exact HS|]. by eapply settled_trans.
    + eapply undisturbed_trans; [exact U|]. eapply undisturbed_trans; [by eapply undisturbed_tail|done].
Qed.
Lemma wp_indirtrunc aflags level : (level < 3)%nat → indir_ok aflags level.
Proof.
  induction level as [|level IH]; intros Hlv; [apply wp_indirtrunc_single|]. apply wp_indirtrunc_more; [lia|]. apply IH. lia.
Qed.

(** ** Writing the inode *)

Lemma setz_volume v A F held z : volume v held A F → volume (setz v z) held A F.
Proof. intros Hv. split; apply Hv. Qed.
Lemma alike_files v A F z z' : files dev v A F → inodes v !! ip = Some z → alike z z' →
  files dev (setz v z') A F ∧ (∀ q, at_path dev (setz v z') A q = at_path dev v A q) ∧ (∀ k o, content (setz v z') A k o = content v A k o) ∧
  (has (i_flag z) IPIPE = false → sized v (setz v z') ip (i_size z)).
Proof.
  intros Hf Hz (E1 & E2 & E3 & E4 & E5 & E6 & _). split_and!.
  - unfold files, setz. fields. by eapply forest_inode.
  - intros q. unfold at_path, setz. fields. by eapply node_inode.
  - intros k o. by eapply content_inode.
  - intros Hp. rewrite <- E3. by apply (sized_inode v ip z z'); [|congruence|congruence].
Qed.

(** A block of the inode area is in no tree. *)
Lemma low_block v A F b d : files dev v A F → b < fs_isize (sb v) →
  files dev v (upd A dev b d) F ∧ (∀ q, valid q → at_path dev v (upd A dev b d) q = at_path dev v A q) ∧
  (∀ k o, content v (upd A dev b d) k o = content v A k o).
Proof.
  intros Hf Hb.
  assert (HN : ∀ q, valid q → node (inodes v) (upd A dev b d dev) q = node (inodes v) (A dev) q).
  { intros q. pattern q. apply path_ind; clear q; [done|]. intros q i IH Hv. destruct (valid_child _ _ Hv) as (Hq & _ & _). rewrite !node_child, (IH Hq).
    destruct (Z.eqb_spec (node (inodes v) (A dev) q) 0) as [|Hn]; [done|]. rewrite upd_other; [done|]. intros [_ E].
    destruct (fo_range _ _ _ _ _ _ Hf q Hq Hn). lia. }
  assert (HU : ∀ q, valid q → node (inodes v) (A dev) q ≠ 0 → upd A dev b d dev (node (inodes v) (A dev) q) = A dev (node (inodes v) (A dev) q)).
  { intros q Hq Hn. apply upd_other. intros [_ E]. destruct (fo_range _ _ _ _ _ _ Hf q Hq Hn). lia. }
  split_and!; [|exact HN|].
  - apply (forest_embed dev _ _ (inodes v) A F _ _ _ id); try done.
    + apply Hf.
    + intros q Hq Hn. rewrite HN in Hn |- * by done. split; [done|]. split; [done|]. intros Hlt. rewrite HU by done. by apply (fo_whole _ _ _ _ _ _ Hf).
  - intros k o. unfold Fileio.content, file_block. destruct (locate (o / 1024)) as [[r ix]|] eqn:El; [|done].
    assert (Hq : valid (Path k r ix)) by (eapply locate_full; exact El). unfold at_path. rewrite HN by done.
    destruct (Z.eqb_spec (node (inodes v) (A dev) (Path k r ix)) 0) as [|Hn]; [done|]. by rewrite HU.
Qed.
(** [iupdat] has been through: the inode is as before but for times and
    marks, and if it was written, only its block has changed, in which it
    has its sixteen words. *)
Definition updated v A F (z : inode) v' A' : Prop :=
  ∃ z', alike z z' ∧ volume v' [] A' F ∧ inodes v' = <[ip := z']> (inodes v) ∧ sb v' = sb v ∧ u_error (bst v') = u_error (bst v) ∧
    if unsaved v z then ∃ r, A' = upd A dev (itod (i_number z)) (saved (A dev (itod (i_number z))) z' r) else A' = A.

(** The number of the inode is good: its block is one of the inode area. *)
Definition placed v (z : inode) : Prop := 0 < itod (i_number z) < fs_isize (sb v) ∧ fs_isize (sb v) ≤ fs_fsize (sb v).

Lemma wp_iupdat v A F z ta tm waitfor :
  volume v [] A F → inodes v !! ip = Some z → i_dev z = dev → placed v z →
  wp (iupdat fuel ip ta tm waitfor) (λ _ v', ∃ A', updated v A F z v' A') v.
Proof.
  intros Hv Hz Hd [Hb Hif]. destruct (unsaved v z) eqn:Eu.
  - eapply wp_mono; [apply (wp_isave parts usable fuel Hfuel ip v A z); [apply Hv|done|rewrite Hd; apply Hv; lia|done]|].
    intros [] v' (z' & r & s' & Ha & -> & Hc & Ee). rewrite Hd in Hc. eexists. exists z'. split; [done|].
    assert (HbF : itod (i_number z) ∉ F) by (intros ?%Hv; lia).
    split; [exact (volume_put parts usable dev (setz v z') [] A F _ _ s' (setz_volume v A F [] z' Hv) HbF Hc)|]. rewrite Eu. split_and!; eauto.
  - eapply wp_mono; [by apply (wp_iupdat_idle fuel ip v z)|]. intros [] v' ->. exists A, z. split; [by unfold alike|]. split; [done|]. split; [by rewrite list_insert_id|].
    by rewrite Eu.
Qed.
Lemma updated_files v A F z v' A' :
  files dev v A F → inodes v !! ip = Some z → has (i_flag z) IPIPE = false → placed v z → updated v A F z v' A' →
  files dev v' A' F ∧ (∀ q, valid q → at_path dev v' A' q = at_path dev v A q) ∧ (∀ k o, content v' A' k o = content v A k o) ∧
  sized v v' ip (i_size z).
Proof.
  intros Hf Hz Hp [Hb _] (z' & Ha & Hv' & Ei & Es & Ee & HA). destruct (alike_files v A F z z' Hf Hz Ha) as (G1 & G2 & G3 & G4).
  assert (Hi : inodes v' = inodes (setz v z')) by done. assert (Hs : sb v' = sb (setz v z')) by done.
  assert (HS : sized v v' ip (i_size z)).
  { destruct (G4 Hp) as (S1 & S2 & S3). unfold sized, kind. rewrite Hi. done. }
  assert (HE : files dev (setz v z') A' F ∧ (∀ q, valid q → at_path dev (setz v z') A' q = at_path dev v A q) ∧ (∀ k o, content (setz v z') A' k o = content v A k o)).
  { destruct (unsaved v z); [|by subst A'; split_and!]. destruct HA as [r ->].
    destruct (low_block (setz v z') A F (itod (i_number z)) (saved (A dev (itod (i_number z))) z' r) G1 ltac:(apply Hb)) as (L1 & L2 & L3).
    split; [done|]. split; [intros q Hq; by rewrite L2, G2|intros k o; by rewrite L3, G3]. }
  destruct HE as (E1 & E2 & E3). split; [unfold files; rewrite Hi, Hs; exact E1|]. split; [intros q Hq; unfold at_path; rewrite Hi; by apply E2|].
  split; [|done]. intros k o. rewrite <- E3. by apply content_same.
Qed.

(** ** Taking addresses out of the inode *)
Lemma wp_clear_addr v z z1 r (Q : unit → vol → Prop) :
  inodes v !! ip = Some z → (r < length (i_addr z1))%nat → Q tt (setz v (z1<|i_addr := <[r := 0]> (i_addr z1)|>)) → wp (clear_addr ip r) Q (setz v z1).
Proof.
  intros Hz Hr HQ. unfold clear_addr. apply wp_bind. eapply wp_getz; [done|]. apply wp_bind. eapply wp_lift; [by apply wr_Done|].
  by eapply wp_setz.
Qed.
(** The inode [z] with other addresses. *)
Definition readdr (z : inode) (l : list Z) : inode := z<|i_addr := l|>.
Lemma wp_clear_trees v z z1 n li : inodes v !! ip = Some z → length (i_addr z1) = 7%nat → (n ≤ 3)%nat →
  wp (clear_trees ip n li) (λ _ v', ∃ l, v' = setz v (readdr z1 l) ∧ length l = 7%nat ∧
    ∀ r, l !! r = if decide ((4 ≤ r < 4 + n)%nat ∧ li (r - 4)%nat < 0) then Some 0 else i_addr z1 !! r) (setz v z1).
Proof.
  intros Hz. revert z1. induction n as [|n IH]; intros z1 Hl Hn.
  - apply wp_ret. exists (i_addr z1). split; [by destruct z1|]. split; [done|]. intros r. by rewrite decide_False by lia.
  - cbn [clear_trees]. apply wp_bind. destruct (Z.ltb_spec (li n) 0) as [Hneg|Hpos].
    + eapply wp_clear_addr; [done|lia|]. set (z2 := z1<|i_addr := <[(4 + n)%nat := 0]> (i_addr z1)|>).
      eapply wp_mono; [apply (IH z2); [unfold z2; fields; by rewrite length_insert|lia]|]. intros [] v' (l & -> & Hll & HL). exists l.
      split; [by destruct z1|]. split; [done|]. intros r. rewrite HL. unfold z2. fields. destruct (decide (r = 4 + n)%nat) as [->|Hne].
      * rewrite decide_False by lia. rewrite decide_True by (replace (4 + n - 4)%nat with n by lia; lia). apply list_lookup_insert_eq. lia.
      * rewrite list_lookup_insert_ne by done. apply decide_ext. lia.
    + apply wp_ret. eapply wp_mono; [apply (IH z1); [done|lia]|]. intros [] v' (l & -> & Hll & HL). exists l. split; [done|]. split; [done|].
      intros r. rewrite HL. apply decide_ext. destruct (decide (r = 4 + n)%nat) as [->|Hne]; [|lia]. replace (4 + n - 4)%nat with n by lia. lia.
Qed.
Lemma wp_clear_direct v z z1 n lastb : inodes v !! ip = Some z → length (i_addr z1) = 7%nat → (n ≤ 4)%nat →
  wp (clear_direct ip n lastb) (λ _ v', ∃ l, v' = setz v (readdr z1 l) ∧ length l = 7%nat ∧
    ∀ r, l !! r = if decide ((r < n)%nat ∧ lastb < Z.of_nat r) then Some 0 else i_addr z1 !! r) (setz v z1).
Proof.
  intros Hz. revert z1. induction n as [|n IH]; intros z1 Hl Hn.
  - apply wp_ret. exists (i_addr z1). split; [by destruct z1|]. split; [done|]. intros r. by rewrite decide_False by lia.
  - cbn [clear_direct]. destruct (Z.ltb_spec lastb (Z.of_nat n)) as [Hneg|Hpos].
    + apply wp_bind. eapply wp_clear_addr; [done|lia|]. set (z2 := z1<|i_addr := <[n := 0]> (i_addr z1)|>).
      eapply wp_mono; [apply (IH z2); [unfold z2; fields; by rewrite length_insert|lia]|]. intros [] v' (l & -> & Hll & HL). exists l.
      split; [by destruct z1|]. split; [done|]. intros r. rewrite HL. unfold z2. fields. destruct (decide (r = n)) as [->|Hne].
      * rewrite decide_False by lia. rewrite decide_True by lia. apply list_lookup_insert_eq. lia.
      * rewrite list_lookup_insert_ne by done. apply decide_ext. lia.
    + apply wp_ret. exists (i_addr z1). split; [by destruct z1|]. split; [done|]. intros r. by rewrite decide_False by lia.
Qed.

(** ** Freeing what was taken out *)
Lemma quiet_nil s : quiet s [].
Proof. intros b. apply unused_nil. Qed.
(** The rest of the file, without the address [r]. *)
Lemma node_rest l x blk r : (r < 7)%nat → node (l ++ [x]) blk (Path (length l) r []) = default 0 (i_addr x !! r).
Proof. intros Hr. unfold node, root. cbn [p_file p_root p_idx walk]. by rewrite lookup_app_r, Nat.sub_diag by lia. Qed.
Lemma path_split K r q : valid q → under (Path K r []) q || bool_decide (q = Path K r []) = bool_decide (p_file q = K ∧ p_root q = r).
Proof.
  intros _. destruct q as [k r' ix]. cbn [p_file p_root]. destruct (decide (k = K ∧ r' = r)) as [E|E].
  - rewrite (bool_decide_true (_ ∧ _)) by done. destruct E as [-> ->]. unfold under. rewrite (proj2 (rest_Some _ _ ix)) by done.
    destruct ix; [by rewrite bool_decide_true|done].
  - rewrite (bool_decide_false (_ ∧ _)) by done. apply orb_false_iff. split; [|apply bool_decide_false; intros [= -> -> _]; by apply E].
    unfold under. destruct (rest _ _) as [ix'|] eqn:Er; [|done]. apply rest_Some in Er. injection Er as -> -> _. by destruct E.
Qed.

(** A whole tree. *)
Lemma wp_free_whole aflags v x A F level bn :
  volume v [] A F → trees v [x] A F → here v → (level < 3)%nat → i_addr x !! (4 + level)%nat = Some bn → bn ≠ 0 →
  wp (indirtrunc fuel level ip bn (-1) aflags;; free fuel ip bn) (λ _ v', ∃ A' F',
    progress (λ q, bool_decide (p_file q = length (inodes v) ∧ p_root q = 4 + level)%nat) v [x] [] A F v' [readdr x (<[(4 + level)%nat := 0]> (i_addr x))] A' F') v.
Proof.
  intros Hv Hf Hh Hlv Ha Hb. set (p := Path (length (inodes v)) (4 + level) []).
  assert (Hvp : valid p) by (unfold valid, p; simpl; split_and!; [lia|lia|constructor]).
  assert (Ep : ∀ blk, node (inodes v ++ [x]) blk p = bn) by (intros blk; unfold p; rewrite node_rest by lia; by rewrite Ha).
  apply wp_bind. eapply wp_mono; [apply (wp_indirtrunc aflags level Hlv v [x] [] A F p bn (-1)); try done|].
  - apply quiet_nil.
  - split; [done|]. apply Z.lt_trans with 0; [done|]. apply Z.pow_pos_nonneg; lia.
  - simpl. change NBUF with 10%nat. lia.
  - intros [] v1 (A1 & F1 & Hp). pose proof Hp as [P1 P2 P3 P4]. pose proof P3 as (Ei & _).
    eapply wp_mono; [apply (wp_free_stray v1 [x] [] A1 F1 0 (4 + level) x (readdr x (<[(4 + level)%nat := 0]> (i_addr x))) bn); try done|].
    + by eapply progress_trees.
    + apply quiet_nil.
    + by eapply here_settled.
    + simpl. change NBUF with 10%nat. lia.
    + lia.
    + rewrite Nat.add_0_r, Ei. fold p. intros i Hvi. assert (Hc : node (inodes v1 ++ [x]) (A1 dev) (child p i) = 0).
      { rewrite (pr_node _ _ _ _ _ _ _ _ _ _ P2) by done. rewrite gone_all. unfold under. change (child p i) with (extend p [i]). by rewrite rest_extend. }
      rewrite node_child, Ei, Ep in Hc. by rewrite (proj2 (Z.eqb_neq bn 0)) in Hc.
    + rewrite Nat.add_0_r, Ei. fold p. intros [] v2 (A2 & Hp2). exists A2, (bn :: F1). eapply progress_ext; [|eapply progress_trans; [exact Hp|exact Hp2]].
      intros q Hvq _. cbv beta. rewrite gone_all. by apply path_split.
Qed.
(** Nothing is behind an address that is 0. *)
Lemma node_none l A p q ix : node l (A dev) p = 0 → rest p q = Some ix → node l (A dev) q = 0.
Proof.
  intros E0 Er. apply rest_Some in Er as ->. destruct p as [k r is_]. unfold extend, node in *. cbn [p_file p_root p_idx] in *.
  revert E0. generalize (root l k r). intros b. clear. revert b. induction is_ as [|i is_ IH]; intros b; simpl.
  - intros ->. apply walk_0.
  - destruct (Z.eqb_spec b 0) as [->|]; [done|]. apply IH.
Qed.
Section Shed.
Context (lastb : Z) (N : nat).
Definition lastib (level : nat) : Z := lastb - tree_base level.
(** The addresses that stay. *)
Definition keep (r : nat) : bool := if (r <? 4)%nat then Z.of_nat r <=? lastb else 0 <=? lastib (r - 4).
(** What goes: trees that are not kept at all, and the end of the last one
    that is. *)
Fixpoint freed (n : nat) (q : path) : bool :=
  match n with
  | O => false
  | S level =>
      if lastib level <? 0 then bool_decide (p_file q = N ∧ p_root q = 4 + level)%nat || freed level q
      else gone (Path ip (4 + level) []) level (lastib level) q
  end.
Definition freed_direct (n : nat) (q : path) : bool := bool_decide (p_file q = N ∧ (p_root q < n)%nat ∧ lastb < Z.of_nat (p_root q)).

Lemma tree_base_step level : (level < 2)%nat → tree_base (S level) = tree_base level + 256 ^ Z.of_nat (S level).
Proof. intros Hlv. by destruct level as [|[|]]; [..|lia]. Qed.
Lemma tree_base_first level : (level < 3)%nat → 4 ≤ tree_base level.
Proof. intros Hlv. destruct level as [|[|[|]]]; vm_compute; try done; lia. Qed.
Lemma keep_tree level : keep (4 + level) = (0 <=? lastib level).
Proof. unfold keep. by replace (4 + level - 4)%nat with level by lia. Qed.
Lemma keep_direct r : (r < 4)%nat → keep r = (Z.of_nat r <=? lastb).
Proof. intros Hr. unfold keep. by rewrite (proj2 (Nat.ltb_lt _ _)). Qed.
Lemma lastib_mono level : (level < 3)%nat → lastib level ≤ lastib 0.
Proof. intros Hlv. unfold lastib. pose proof (tree_base_first level Hlv). change (tree_base 0) with 4. lia. Qed.
Context (Hlastb : -1 ≤ lastb < 2^21).
Lemma lastib_bound level : (level < 3)%nat → ((S level < 3)%nat → lastib (S level) < 0) → lastib level < 256 ^ Z.of_nat (S level).
Proof.
  intros Hlv Hup. unfold lastib in *. destruct (decide (level = 2)%nat) as [->|Hne].
  - pose proof (tree_base_first 2 ltac:(lia)). change (256 ^ Z.of_nat 3) with 16777216. lia.
  - specialize (Hup ltac:(lia)). rewrite tree_base_step in Hup by lia. lia.
Qed.
Context (aflags : Z) (tip : inode) (Htip : length (i_addr tip) = 7%nat) (li : nat → Z) (Hli : ∀ level, (level < 3)%nat → li level = lastib level).

Lemma wp_free_trees n : (n ≤ 3)%nat → ∀ v x A F zz,
  volume v [] A F → trees v [x] A F → length (inodes v) = N → inodes v !! ip = Some zz → i_dev zz = dev →
  (∀ r, (r < 4 + n)%nat → keep r = true → i_addr zz !! r = i_addr tip !! r) →
  (∀ r, (r < 4 + n)%nat → i_addr x !! r = if keep r then Some 0 else i_addr tip !! r) →
  ((n < 3)%nat → lastib n < 0) →
  wp (free_trees fuel ip tip n li aflags) (λ k v', ∃ x' A' F', progress (freed n) v [x] [] A F v' [x'] A' F' ∧
    k = ((0 <? n)%nat && (0 <=? lastib 0)) ∧ ∀ r, (r < 4)%nat → i_addr x' !! r = i_addr x !! r) v.
Proof.
  induction n as [|level IH]; intros Hn v x A F zz Hv Hf HN Hz Hd Hkp Hx Hup.
  { apply wp_ret. exists x, A, F. split; [by apply progress_refl|done]. }
  cbn [free_trees freed]. destruct (lookup_lt_is_Some_2 (i_addr tip) (4 + level)) as [bn Hbn]; [lia|].
  apply wp_bind. eapply wp_lift; [by apply rd_Done|]. rewrite Hli by lia. cbv zeta. apply wp_bind.
  assert (Hh : here v) by (by exists zz). pose proof (Hx (4 + level)%nat ltac:(lia)) as Hxr. rewrite keep_tree, Hbn in Hxr.
  destruct (Z.ltb_spec (lastib level) 0) as [Hneg|Hpos].
  - rewrite (proj2 (Z.leb_gt _ _)) in Hxr by lia. change (-1 <? 0) with true. change (0 <=? -1) with false. cbv iota.
    apply (wp_mono _ (λ _ v', ∃ x' A' F', progress (λ q, bool_decide (p_file q = N ∧ p_root q = 4 + level)%nat) v [x] [] A F v' [x'] A' F' ∧
      ∀ r, (r < 4 + level)%nat → i_addr x' !! r = i_addr x !! r)).
    + destruct (Z.eqb_spec bn 0) as [->|Hb].
      * apply wp_ret. exists x, A, F. split; [|done]. eapply progress_ext; [|by apply progress_refl]. intros q Hvq Hnq. symmetry.
        apply bool_decide_false. intros [E1 E2]. apply Hnq. eapply (node_none _ _ (Path N (4 + level) []) q (p_idx q)).
        -- rewrite <- HN, node_rest by lia. by rewrite Hxr.
        -- apply rest_Some. destruct q; simpl in *. by subst.
      * eapply wp_mono; [by apply (wp_free_whole aflags v x A F level bn)|]. rewrite HN. intros [] v1 (A1 & F1 & Hp).
        exists (readdr x (<[(4 + level)%nat := 0]> (i_addr x))), A1, F1. split; [done|]. intros r Hr. unfold readdr. fields. by rewrite list_lookup_insert_ne by lia.
    + intros [] v1 (x1 & A1 & F1 & Hp & Hx1). pose proof Hp as [P1 P2 P3 P4]. pose proof P3 as (Ei & _).
      eapply wp_mono; [apply (IH ltac:(lia) v1 x1 A1 F1 zz); try done|].
      * by eapply progress_trees.
      * by rewrite Ei.
      * by rewrite Ei.
      * intros r Hr. apply Hkp. lia.
      * intros r Hr. rewrite Hx1 by lia. apply Hx. lia.
      * intros k v2 (x2 & A2 & F2 & Hp2 & -> & Hx2). exists x2, A2, F2. split; [by eapply progress_trans|]. split.
        -- destruct level; [|done]. simpl. symmetry. apply Z.leb_gt. lia.
        -- intros r Hr. rewrite Hx2, Hx1 by lia. done.
  - rewrite (proj2 (Z.ltb_ge _ _)), (proj2 (Z.leb_le _ _)) in * by lia.
    apply (wp_mono _ (λ _ v', ∃ A' F', progress (gone (Path ip (4 + level) []) level (lastib level)) v [x] [] A F v' [x] A' F')).
    + assert (Ep : node (inodes v ++ [x]) (A dev) (Path ip (4 + level) []) = bn).
      { unfold node, root. cbn [p_file p_root p_idx walk]. rewrite lookup_app_l by (by eapply lookup_lt_Some). rewrite Hz. change (default 0 (i_addr zz !! (4 + level)%nat) = bn). rewrite Hkp; [by rewrite Hbn|lia|].
        rewrite keep_tree. apply Z.leb_le. lia. }
      destruct (Z.eqb_spec bn 0) as [->|Hb].
      * apply wp_ret. exists A, F. eapply progress_ext; [|by apply progress_refl]. intros q Hvq Hnq. symmetry. unfold gone.
        destruct (rest _ q) as [ix|] eqn:Er; [|done]. exfalso. apply Hnq. by eapply node_none.
      * apply wp_bind. eapply wp_mono; [apply (wp_indirtrunc aflags level ltac:(lia) v [x] [] A F (Path ip (4 + level) []) bn (lastib level)); try done|].
        -- apply quiet_nil.
        -- unfold valid. simpl. split_and!; [lia|lia|constructor].
        -- split; [lia|]. apply lastib_bound; [lia|done].
        -- simpl. change NBUF with 10%nat. lia.
        -- intros [] v1 Hp. by apply wp_ret.
    + intros [] v1 (A1 & F1 & Hp). apply wp_ret. exists x, A1, F1. split; [done|]. split; [|done]. simpl. symmetry. apply Z.leb_le.
      pose proof (lastib_mono level ltac:(lia)). lia.
Qed.

Lemma wp_free_direct n : (n ≤ 4)%nat → ∀ v x A F,
  volume v [] A F → trees v [x] A F → length (inodes v) = N → here v →
  (∀ r, (r < n)%nat → i_addr x !! r = if keep r then Some 0 else i_addr tip !! r) →
  wp (free_direct fuel ip tip n lastb) (λ _ v', ∃ x' A' F', progress (freed_direct n) v [x] [] A F v' [x'] A' F') v.
Proof.
  induction n as [|i IH]; intros Hn v x A F Hv Hf HN Hh Hx; cbn [free_direct].
  { apply wp_ret. exists x, A, F. eapply progress_ext; [|by apply progress_refl]. intros q _ _. symmetry. apply bool_decide_false. lia. }
  destruct (Z.ltb_spec lastb (Z.of_nat i)) as [Hlt|Hge].
  2:{ apply wp_ret. exists x, A, F. eapply progress_ext; [|by apply progress_refl]. intros q _ _. symmetry. apply bool_decide_false. lia. }
  destruct (lookup_lt_is_Some_2 (i_addr tip) i) as [bn Hbn]; [lia|]. apply wp_bind. eapply wp_lift; [by apply rd_Done|]. apply wp_bind.
  pose proof (Hx i ltac:(lia)) as Hxi. rewrite keep_direct, (proj2 (Z.leb_gt _ _)), Hbn in Hxi by lia.
  apply (wp_mono _ (λ _ v', ∃ x' A' F', progress (λ q, bool_decide (p_file q = N ∧ p_root q = i)%nat) v [x] [] A F v' [x'] A' F' ∧
    ∀ r, (r < i)%nat → i_addr x' !! r = i_addr x !! r)).
  - destruct (Z.eqb_spec bn 0) as [->|Hb].
    + apply wp_ret. exists x, A, F. split; [|done]. eapply progress_ext; [|by apply progress_refl]. intros q Hvq Hnq. symmetry.
      apply bool_decide_false. intros [E1 E2]. apply Hnq. eapply (node_none _ _ (Path N i []) q (p_idx q)).
      * rewrite <- HN, node_rest by lia. by rewrite Hxi.
      * apply rest_Some. destruct q; simpl in *. by subst.
    + assert (Hfull : full (Path N i [])) by (unfold full, valid, levels; simpl; split_and!; [lia|lia|constructor|lia]).
      eapply wp_mono; [apply (wp_free_stray v [x] [] A F 0 i x (readdr x (<[i := 0]> (i_addr x))) bn); try done|].
      * apply quiet_nil.
      * simpl. change NBUF with 10%nat. lia.
      * lia.
      * intros j (_ & Hlen & _). unfold levels in Hlen. simpl in Hlen. lia.
      * rewrite Nat.add_0_r, HN. intros [] v1 (A1 & Hp). exists (readdr x (<[i := 0]> (i_addr x))), A1, (bn :: F). split.
        -- eapply progress_ext; [|exact Hp]. intros q Hvq _. cbv beta. rewrite <- (path_split N i q Hvq). by rewrite (under_valid _ q Hvq Hfull).
        -- intros r Hr. unfold readdr. fields. by rewrite list_lookup_insert_ne by lia.
  - intros [] v1 (x1 & A1 & F1 & Hp & Hx1). pose proof Hp as [P1 P2 P3 P4]. pose proof P3 as (Ei & _).
    eapply wp_mono; [apply (IH ltac:(lia) v1 x1 A1 F1); try done|].
    + by eapply progress_trees.
    + by rewrite Ei.
    + by eapply here_settled.
    + intros r Hr. rewrite Hx1 by lia. apply Hx. lia.
    + intros [] v2 (x2 & A2 & F2 & Hp2). exists x2, A2, F2. eapply progress_ext; [|by eapply progress_trans].
      intros q _ _. cbv beta. unfold freed_direct. apply eq_bool_prop_intro. rewrite orb_True, !bool_decide_spec. lia.
Qed.
End Shed.
(** All that was taken out is freed. *)
Lemma freed_rest lastb N n r : (n ≤ 3)%nat → (r < 4 + n)%nat → (4 ≤ r)%nat → keep lastb r = false → ∀ q, p_file q = N → p_root q = r → freed lastb N n q = true.
Proof.
  induction n as [|level IH]; intros Hn Hr Hr4 Hk q E1 E2; [lia|]. cbn [freed]. destruct (decide (r = 4 + level)%nat) as [->|Hne].
  - rewrite keep_tree in Hk. apply Z.leb_gt in Hk. rewrite (proj2 (Z.ltb_lt _ _)) by done. by rewrite bool_decide_true.
  - assert (Hlv : lastib lastb level < 0).
    { unfold keep in Hk. rewrite (proj2 (Nat.ltb_ge _ _)) in Hk by lia. apply Z.leb_gt in Hk. unfold lastib in *.
      assert (tree_base (r - 4) ≤ tree_base level); [|lia]. destruct level as [|[|[|]]]; [lia| | |lia]; destruct r as [|[|[|[|[|[|]]]]]]; vm_compute; try done; lia. }
    rewrite (proj2 (Z.ltb_lt _ _)) by done. rewrite IH; [apply orb_true_r|lia..|done|done|done].
Qed.

(** A data block goes exactly if it is above the last block kept. *)
Lemma lost_located lastb (l : list inode) (k : nat) n r ix : -1 ≤ lastb < 2^21 → (ip < length l)%nat → (k < length l)%nat → locate n = Some (r, ix) →
  lost l ip (keep lastb) (λ q, freed lastb (length l) 3 q || freed_direct lastb (length l) 4 q) (Path k r ix) = bool_decide (k = ip ∧ lastb < n).
Proof.
  intros Hlb Hip Hk El. unfold lost. cbn [p_file p_root]. rewrite (bool_decide_true (k ≠ _)) by lia. rewrite andb_true_r.
  assert (Hfd : freed_direct lastb (length l) 4 (Path k r ix) = false) by (apply bool_decide_false; cbn [p_file]; lia). rewrite Hfd, orb_false_r.
  assert (Hfr : ∀ n', freed lastb (length l) n' (Path k r ix) = (fix go (n : nat) := match n with O => false | S level =>
     if lastib lastb level <? 0 then go level else gone (Path ip (4 + level) []) level (lastib lastb level) (Path k r ix) end) n').
  { induction n' as [|level IH]; [done|]. cbn [freed]. rewrite IH. rewrite bool_decide_false; [done|]. cbn [p_file]. lia. }
  rewrite Hfr. clear Hfr Hfd.
  assert (Hg : ∀ level, gone (Path ip (4 + level) []) level (lastib lastb level) (Path k r ix) =
    if decide (k = ip ∧ r = 4 + level)%nat then dropped level (lastib lastb level) ix else false).
  { intros level. unfold gone, rest. cbn [p_file p_root p_idx length take drop]. 
    destruct (decide (k = ip ∧ r = (4 + level)%nat)) as [[-> ->]|Hne]; [by rewrite decide_True|]. rewrite decide_False by tauto. done. }
  rewrite !Hg. clear Hg. apply locate_tree in El. destruct (decide (k = ip)) as [->|Hne].
  2:{ rewrite decide_False by tauto. rewrite !(decide_False (P := k = ip ∧ _)) by tauto. rewrite bool_decide_false by tauto.
      by repeat case_match. }
  destruct El as [(Hr & -> & ->)|(level & Hlv & -> & Hrange & HD)].
  - rewrite !(decide_False (P := ip = ip ∧ r = _)) by lia. rewrite (keep_direct _ r Hr). destruct (Z.leb_spec (Z.of_nat r) lastb).
    + rewrite decide_False by (by intros [_ ?]). rewrite bool_decide_false by lia. by repeat case_match.
    + rewrite decide_True by done. by rewrite bool_decide_true by lia.
  - rewrite keep_tree. destruct (Z.leb_spec 0 (lastib lastb level)) as [Hpos|Hneg].
    2:{ rewrite decide_True by done. rewrite bool_decide_true; [done|]. unfold lastib in Hneg. lia. }
    rewrite decide_False by (by intros [_ ?]).
    assert (Hup : ∀ up, (up < 3)%nat → 0 ≤ lastib lastb up → (level < up)%nat → n ≤ lastb).
    { intros up Hu3 H0' Hlt. unfold lastib in *. assert (tree_base level + 256 ^ Z.of_nat (S level) ≤ tree_base up); [|lia].
      rewrite <- tree_base_step by lia. destruct up as [|[|[|]]], level as [|[|]]; vm_compute; try done; lia. }
    assert (Hlow : lastib lastb level < 256 ^ Z.of_nat (S level) → dropped level (lastib lastb level) ix = bool_decide (ip = ip ∧ lastb < n)).
    { intros Hlt. rewrite HD by lia. unfold lastib. destruct (Z.ltb_spec (lastb - tree_base level) (n - tree_base level));
        [by rewrite bool_decide_true by lia|by rewrite bool_decide_false by lia]. }
    assert (Hcase : ∀ up, (level ≤ up < 3)%nat → 0 ≤ lastib lastb up → ((S up < 3)%nat → lastib lastb (S up) < 0) →
      (if decide (ip = ip ∧ (4 + level)%nat = (4 + up)%nat) then dropped up (lastib lastb up) ix else false) = bool_decide (ip = ip ∧ lastb < n)).
    { intros up Hu H0' H1'. destruct (decide (level = up)) as [<-|Hne].
      - rewrite decide_True by done. apply Hlow. by apply lastib_bound.
      - rewrite decide_False by lia. rewrite bool_decide_false; [done|]. pose proof (Hup up ltac:(lia) H0' ltac:(lia)). lia. }
    clear Hlow Hup HD. assert (level = 0 ∨ level = 1 ∨ level = 2)%nat as Hl3 by lia.
    destruct (Z.ltb_spec (lastib lastb 2) 0) as [H2'|H2'].
    2:{ apply Hcase; lia. }
    destruct (Z.ltb_spec (lastib lastb 1) 0) as [H1'|H1'].
    2:{ apply Hcase; [|done|done]. destruct Hl3 as [-> | [-> | ->]]; lia. }
    destruct (Z.ltb_spec (lastib lastb 0) 0) as [H0'|H0'].
    { exfalso. destruct Hl3 as [-> | [-> | ->]]; lia. }
    apply Hcase; [|done|done]. destruct Hl3 as [-> | [-> | ->]]; lia.
Qed.
(** The inode gets its new size, and everything above the last block kept is
    taken out and freed. *)
Lemma wp_shorten v A F z len lastb li aflags (kont : V unit) (Q : unit → vol → Prop) :
  volume v [] A F → files dev v A F → inodes v !! ip = Some z → -1 ≤ lastb < 2^21 → (∀ level, (level < 3)%nat → li level = lastib lastb level) →
  (∀ v' A' F' l, volume v' [] A' F' →
     pruned dev (fs_isize (sb v)) (fs_fsize (sb v)) (lost (inodes v) ip (keep lastb) (λ q, freed lastb (length (inodes v)) 3 q || freed_direct lastb (length (inodes v)) 4 q))
       (inodes v) A F (inodes v') A' F' → inodes v' = <[ip := readdr (z<|i_size := len|>) l]> (inodes v) →
     fs_isize (sb v') = fs_isize (sb v) → fs_fsize (sb v') = fs_fsize (sb v) → u_error (bst v') = u_error (bst v) → wp kont Q v') →
  wp (tip ← inode_at ip;
      set_inode ip (λ z, z<|i_size := len|>);;
      clear_trees ip 3 li;;
      clear_direct ip 4 lastb;;
      kept ← free_trees fuel ip tip 3 li aflags;
      (if (kept : bool) then mret tt else free_direct fuel ip tip 4 lastb);;
      kont) Q v.
Proof.
  intros Hv Hf Hz Hlb Hli HQ. destruct (fo_inode _ _ _ _ _ _ Hf ip z Hz) as [Hlen Hdev]. pose proof (lookup_lt_Some _ _ _ Hz) as Hlt.
  rewrite <- (setz_id ip v z Hz) at 1. apply wp_bind. eapply wp_getz; [done|]. apply wp_bind. eapply wp_setz; [done|]. set (z1 := z<|i_size := len|>).
  apply wp_bind. eapply wp_mono; [apply (wp_clear_trees v z z1 3 li Hz Hlen); lia|]. intros [] w (l1 & -> & Hl1 & HL1).
  apply wp_bind. eapply wp_mono; [apply (wp_clear_direct v z (readdr z1 l1) 4 lastb Hz Hl1); lia|]. intros [] w (l2 & -> & Hl2 & HL2).
  replace (readdr (readdr z1 l1) l2) with (readdr z1 l2) by (by destruct z). set (z2 := readdr z1 l2). set (v2 := setz v z2).
  change (i_addr (readdr z1 l1)) with l1 in HL2. change (i_addr z1) with (i_addr z) in HL1.
  assert (HL : ∀ r, (r < 7)%nat → l2 !! r = if keep lastb r then i_addr z !! r else Some 0).
  { intros r Hr. rewrite HL2, HL1. destruct (decide (r < 4)%nat) as [Hr4|Hr4].
    - rewrite keep_direct by done. rewrite (decide_False (P := (4 ≤ r < 4 + 3)%nat ∧ _)) by lia.
      destruct (Z.leb_spec (Z.of_nat r) lastb); [by rewrite decide_False by lia|by rewrite decide_True by lia].
    - rewrite (decide_False (P := (r < 4)%nat ∧ _)) by lia. rewrite Hli by lia. unfold keep. rewrite (proj2 (Nat.ltb_ge _ _)) by lia.
      destruct (Z.leb_spec 0 (lastib lastb (r - 4))); [by rewrite decide_False by lia|by rewrite decide_True by lia]. }
  set (x := readdr z (imap (λ r a, if keep lastb r then 0 else a) (i_addr z))).
  assert (Hx : ∀ r, (r < 7)%nat → i_addr x !! r = if keep lastb r then Some 0 else i_addr z !! r).
  { intros r Hr. unfold x, readdr. fields. rewrite list_lookup_imap. destruct (lookup_lt_is_Some_2 (i_addr z) r) as [a ->]; [lia|]. simpl. by destruct (keep lastb r). }
  assert (Hlx : length (i_addr x) = 7%nat) by (unfold x, readdr; fields; by rewrite length_imap).
  assert (Hf2 : trees v2 [x] A F).
  { unfold v2, setz. fields. by apply (forest_split dev _ _ (inodes v) A F ip z z2 x (keep lastb)). }
  assert (Hv2 : volume v2 [] A F) by (by apply setz_volume). assert (Hz2 : inodes v2 !! ip = Some z2) by (by eapply setz_at).
  assert (HN : length (inodes v2) = length (inodes v)) by (unfold v2, setz; fields; by rewrite length_insert).
  apply wp_bind. eapply wp_mono; [apply (wp_free_trees lastb (length (inodes v)) Hlb aflags z Hlen li Hli 3 ltac:(lia) v2 x A F z2); try done|].
  - intros r Hr Hk. change (i_addr z2) with l2. rewrite HL by lia. by rewrite Hk.
  - lia.
  - intros k v3 (x3 & A3 & F3 & Hp3 & -> & Hx3). pose proof Hp3 as [P1 P2 P3 P4]. pose proof P3 as (Ei3 & _). apply wp_bind.
    apply (wp_mono _ (λ _ v4, ∃ x4 A4 F4, progress (freed_direct lastb (length (inodes v)) 4) v3 [x3] [] A3 F3 v4 [x4] A4 F4)).
    + change (0 <? 3)%nat with true. cbn [andb]. destruct (Z.leb_spec 0 (lastib lastb 0)) as [Hpos|Hneg].
      * apply wp_ret. exists x3, A3, F3. eapply progress_ext; [|apply progress_refl; [done|by eapply progress_trees]]. intros q _ _. symmetry.
        apply bool_decide_false. unfold lastib in Hpos. change (tree_base 0) with 4 in Hpos. lia.
      * apply (wp_free_direct lastb (length (inodes v)) z Hlen 4 ltac:(lia) v3 x3 A3 F3); try done.
        -- by eapply progress_trees.
        -- by rewrite Ei3.
        -- eapply here_settled; [exact P3|]. by exists z2.
        -- intros r Hr. rewrite Hx3 by done. apply Hx. lia.
    + intros [] v4 (x4 & A4 & F4 & Hp4). pose proof (progress_trans _ _ _ _ _ _ _ _ _ _ _ _ _ _ _ Hp3 Hp4) as [R1 R2 R3 [_ R4]].
      pose proof R3 as (Ei & E1 & E2 & _). apply (HQ v4 A4 F4 l2); [done| |by rewrite Ei|by rewrite E1|by rewrite E2|by rewrite R4].
      rewrite Ei in R2 |- *. unfold v2, setz in R2 |- *. fields. 
      eapply (pruned_unsplit dev _ _ (inodes v) A F ip z z2 x (keep lastb)); try done.
      intros q Hq Eq Hn. pose proof Hq as (Hr & _).
      assert (Hkeep : keep lastb (p_root q) = false).
      { destruct (keep lastb (p_root q)) eqn:Ek; [|done]. exfalso. apply Hn.
        rewrite (split_node dev (inodes v) A ip z z2 x (keep lastb)) by done. rewrite decide_False by lia. rewrite decide_True by done. by rewrite Ek. }
      apply orb_true_iff. destruct (decide (p_root q < 4)%nat) as [Hr4|Hr4]; [right|left; by apply (freed_rest lastb _ 3 (p_root q)); [lia..|done|done|done]].
      apply bool_decide_true. rewrite keep_direct in Hkeep by done. apply Z.leb_gt in Hkeep. done.
Qed.
(** ** The end of the last block *)
Lemma wp_and {S T} (m : K S T) (P Q : T → S → Prop) s : wp m P s → wp m Q s → wp m (λ x s', P x s' ∧ Q x s') s.
Proof. clear. unfold wp. by destruct (m s) as [[x s']| | |]. Qed.
Definition same_super v v' : Prop := fs_isize (sb v') = fs_isize (sb v) ∧ fs_fsize (sb v') = fs_fsize (sb v).

(** [bmap] for a block that is cleared when it is new. *)
Lemma wp_bmap_clear v A F z off flags :
  sound parts usable dev v A F → inodes v !! ip = Some z → 0 ≤ off < 2^31 → has flags B_CLRBUF = true →
  wp (bmap fuel ip (off / 1024) B_WRITE flags) (λ b v', ∃ A' F', volume v' [] A' F' ∧ files dev v' A' F' ∧ same_meta v v' ∧ same_super v v' ∧
    (∀ k o, 0 ≤ o → content v' A' k o = content v A k o) ∧
    (b = -1 ∧ u_error (bst v') = ENOSPC ∨ 0 < b ∧ u_error (bst v') = 0 ∧ file_block dev v' A' ip (off / 1024) = b)) v.
Proof.
  intros HS Hz Ho Hcl. destruct (located off Ho) as (r & ix & El).
  assert (Hsup : wp (bmap fuel ip (off / 1024) B_WRITE flags) (λ _ v', same_super v v') v).
  { eapply wp_mono; [apply (wp_bmap parts usable dev fuel B_WRITE flags v A F ip z); try apply HS; done|]. rewrite El. intros b v' (A' & F' & HM).
    destruct (ma_super _ _ _ _ _ _ _ _ _ _ _ _ _ _ HM) as (? & ? & _). by split. }
  eapply wp_mono; [apply wp_and; [exact Hsup|by apply (wp_bmap_write parts usable dev fuel Hfuel v A F ip z off flags)]|].
  intros b v' (Hss & A' & F' & Hv & Hf & Hm & Hor). exists A', F'. do 4 (split; [done|]).
  destruct Hor as [(-> & Ee & HC)|(Hb & Ee & Hfb & HC)].
  - split; [done|]. by left.
  - split; [intros k o Hko; apply HC; [done|by left]|]. by right.
Qed.
(** The bytes from [len] to the end of its block are 0. *)
Definition wiped v A v' A' (len : Z) : Prop := ∀ k o, 0 ≤ o →
  content v' A' k o = if decide (k = ip ∧ len ≤ o ∧ o / 1024 = len / 1024 ∧ len mod 1024 ≠ 0) then 0 else content v A k o.
Lemma wp_clear_tail v A F z len aflags :
  sound parts usable dev v A F → inodes v !! ip = Some z → 0 ≤ len < 2^31 → has aflags B_CLRBUF = true →
  wp (clear_tail fuel ip len aflags) (λ ok v', ∃ A' F', volume v' [] A' F' ∧ files dev v' A' F' ∧ same_meta v v' ∧ same_super v v' ∧
    (if ok : bool then u_error (bst v') = 0 ∧ wiped v A v' A' len ∧ (len mod 1024 = 0 → v' = v ∧ A' = A ∧ F' = F)
     else len mod 1024 ≠ 0 ∧ u_error (bst v') = ENOSPC ∧ ∀ k o, 0 ≤ o → content v' A' k o = content v A k o)) v.
Proof.
  intros HS Hz Hlen Hcl. pose proof HS as [S1 S2 S3]. unfold clear_tail. cbv zeta. rewrite blkoff_mod, lblkno_div by done.
  pose proof (Z.mod_pos_bound len 1024 ltac:(lia)) as Hmod. destruct (Z.eqb_spec (len mod 1024) 0) as [E0|E0].
  { apply wp_ret. exists A, F. do 4 (split; [done|]). split; [done|]. split; [|done]. intros k o _. by rewrite decide_False by tauto. }
  apply wp_bind. eapply wp_mono; [by apply (wp_bmap_clear v A F z len aflags)|]. intros b v1 (A1 & F1 & Hv1 & Hf1 & Hm1 & Hs1 & HC1 & Hor).
  apply wp_bind, wp_gets. destruct Hor as [(-> & Ee)|(Hb & Ee & Hfb)]; rewrite Ee.
  { apply wp_ret. exists A1, F1. by do 4 (split; [done|]). }
  change (0 =? 0) with true. rewrite (proj2 (Z.ltb_ge b 0)) by lia. cbn [negb orb]. destruct (meta_lookup _ _ _ _ Hm1 Hz) as (z1 & Hz1 & _).
  destruct (fo_inode _ _ _ _ _ _ Hf1 ip z1 Hz1) as [_ Hd1]. apply wp_bind. unfold inode_at. apply wp_bind, wp_gets. eapply wp_lift; [by apply rd_Done|].
  destruct (data_path dev fuel Hfuel v1 A1 F1 ip (len / 1024) b Hf1 Hfb Hb) as (p & _ & _ & HbF & Hbr). destruct (vo_bounds _ _ _ _ _ _ _ Hv1) as [B1 B2].
  assert (Hb0 : b ≠ SUPERB) by (unfold SUPERB; lia). rewrite Hd1. apply wp_bind, wp_on_cache.
  eapply wp_mono; [apply (wp_bread parts usable fuel (bst v1) [] A1 dev b); [apply Hv1|apply Hv1; lia|apply unused_nil|vm_compute; lia|done]|].
  intros i s1 (Ho & Hd & _). pose proof Ho as (_ & [_ Ue] & _). destruct (obtained_holds _ _ _ _ _ _ _ _ _ Ho) as (x & Hh & _).
  apply wp_bind, wp_on_cache. eapply held_at; [apply Hh|apply Hh|]. intros y _ Ey. rewrite Ey. clear y Ey. fields.
  set (n := Z.to_nat (1024 - len mod 1024)). set (new := replicate n 0).
  assert (Hnew : Z.of_nat (length new) = 1024 - len mod 1024) by (unfold new; rewrite length_replicate; lia).
  apply wp_bind, wp_on_cache. fields. eapply (wp_poke_buf parts usable dev fuel); [exact Hfuel|exact Hh|exact Hd|lia|lia|]. cbv zeta. set (d' := words_of _). intros Hh2 Hd2.
  set (s2 := s1<|bufdata := <[i := d']> (bufdata s1)|>) in *. apply wp_bind, wp_on_cache. fields.
  eapply wp_mono; [by eapply (wp_delay parts usable)|]. intros [] s3 (R1 & [_ R2] & _). apply wp_ret.
  destruct (content_data dev fuel Hfuel v1 A1 F1 ip (len / 1024) b d' Hf1 Hfb Hb) as [Hf' HC].
  { destruct (located len Hlen) as (r & ix & ->). done. }
  exists (upd A1 dev b d'), F1. split.
  { assert (Hv2 : volume (v1<|bst := s2|>) [i] A1 F1) by (by apply (volume_holds parts usable dev v1 s2 A1 F1 i b x)).
    exact (volume_put parts usable dev (v1<|bst := s2|>) [i] A1 F1 b d' s3 Hv2 HbF R1). }
  split; [done|]. split; [done|]. split; [done|]. split; [fields; by rewrite R2, <- Ee, <- Ue|]. split; [|lia].
  intros k o Hko. change (content _ (upd A1 dev b d') k o) with (content v1 (upd A1 dev b d') k o). rewrite HC by done. pose proof (Z.mod_pos_bound o 1024 ltac:(lia)).
  pose proof (Z.div_mod o 1024 ltac:(lia)). pose proof (Z.div_mod len 1024 ltac:(lia)).
  destruct (decide (k = ip ∧ o / 1024 = len / 1024)) as [[-> Eo]|Hne].
  - unfold d'. rewrite (byte_of_splice fuel Hfuel); [|lia|lia|unfold new; apply Forall_replicate; unfold is_byte; lia|lia]. rewrite Hnew.
    destruct (decide (len mod 1024 ≤ o mod 1024 < len mod 1024 + (1024 - len mod 1024))) as [Hin|Hout].
    + rewrite decide_True by (split_and!; [done|lia|done|done]). unfold new. rewrite lookup_replicate_2 by lia. done.
    + rewrite decide_False by lia. rewrite <- HC1 by done. unfold Fileio.content. rewrite Eo, Hfb. by rewrite (proj2 (Z.eqb_neq b 0)) by lia.
  - rewrite decide_False by tauto. by apply HC1.
Qed.
(** ** [itrunc] *)

(** The inode number [n] has the size [len] in its block, if inodes are
    written at all. *)
Definition size_saved v A (n len : Z) : Prop := fs_ronly (sb v) = 0 → word (A dev (itod n)) (16 * Z.to_nat (itoo n) + 3) = len.
Lemma saved_size (d : block) z r : length (i_addr z) = 7%nat → word (saved d z r) (16 * Z.to_nat (itoo (i_number z)) + 3) = i_size z.
Proof.
  intros Hl. set (o := (16 * Z.to_nat (itoo (i_number z)))%nat).
  assert (Ho : (o + 16 ≤ 256)%nat) by (unfold o, itoo, INOPB; pose proof (Z.mod_pos_bound (i_number z + 16 - 1) 16 ltac:(lia)); lia).
  assert (Hw : length (dinode_words z r) = 16%nat) by (unfold dinode_words; rewrite !length_app, Hl; done).
  apply word_lookup. unfold saved. fold o. rewrite splice_lookup by (rewrite Hw, length_resize; done). rewrite decide_True by lia.
  by replace (o + 3 - o)%nat with 3%nat by lia.
Qed.

(** The end of [itrunc]. *)
Lemma wp_itrunc_end v A F z :
  sound parts usable dev v A F → inodes v !! ip = Some z → has (i_flag z) IPIPE = false → placed v z →
  wp (itrunc_end fuel ip) (λ _ v', ∃ A', sound parts usable dev v' A' F ∧ (∀ q, valid q → at_path dev v' A' q = at_path dev v A q) ∧
    (∀ k o, content v' A' k o = content v A k o) ∧ sized v v' ip (i_size z) ∧ size_saved v' A' (i_number z) (i_size z)) v.
Proof.
  intros [S1 S2 S3] Hz Hp Hpl. destruct (fo_inode _ _ _ _ _ _ S2 ip z Hz) as [Hl Hd]. unfold itrunc_end. apply wp_bind. eapply wp_set_inode; [exact Hz|].
  set (z1 := z<|i_flag ::= λ g, Z.lor g (Z.lor ICHG IUPD)|>). change (v<|inodes := _|>) with (setz v z1). apply wp_bind, wp_gets.
  assert (Hal : alike z z1).
  { unfold alike, z1. fields. split_and!; try done. rewrite has_lor. change (has (Z.lor ICHG IUPD) IPIPE) with false. apply orb_false_r. }
  destruct (alike_files v A F z z1 S2 Hz Hal) as (G1 & G2 & G3 & G4). assert (Hz1 : inodes (setz v z1) !! ip = Some z1) by (by eapply setz_at).
  assert (Hp1 : has (i_flag z1) IPIPE = false) by (destruct Hal as (_ & _ & _ & _ & _ & -> & _); done).
  eapply wp_mono; [apply (wp_iupdat (setz v z1) A F z1); [by apply setz_volume|done|done|exact Hpl]|].
  intros [] v' (A' & HU). destruct (updated_files (setz v z1) A F z1 v' A' G1 Hz1 Hp1 Hpl HU) as (U1 & U2 & U3 & U4).
  destruct HU as (z2 & Ha2 & Hv2 & Ei2 & Es2 & Ee2 & HA). exists A'. split; [split; [done|done|by rewrite Ee2]|].
  split; [intros q Hq; by rewrite U2, G2|]. split; [intros k o; by rewrite U3, G3|]. split; [eapply sized_trans; [by apply G4|exact U4]|].
  intros Hro. rewrite Es2 in Hro. change (fs_ronly (sb v) = 0) in Hro.
  assert (Hun : unsaved (setz v z1) z1 = true).
  { unfold unsaved, marked. change (sb (setz v z1)) with (sb v). rewrite Hro. change (0 =? 0) with true. rewrite andb_true_r. unfold z1. fields.
    rewrite has_lor. apply orb_true_iff. right. done. }
  rewrite Hun in HA. destruct HA as [r ->]. change (i_number z1) with (i_number z) in *. rewrite upd_same.
  destruct Ha2 as (A21 & _ & A23 & _ & A25 & _). change (i_number z1) with (i_number z) in A25. change (i_size z1) with (i_size z) in A23. change (i_addr z1) with (i_addr z) in A21.
  rewrite <- A25, <- A23. apply saved_size. by rewrite A21.
Qed.
(** The contents of the files after the blocks above [lastb] have gone. *)
Lemma shortened_content v A F lastb v' A' F' :
  -1 ≤ lastb < 2^21 → (ip < length (inodes v))%nat →
  pruned dev (fs_isize (sb v)) (fs_fsize (sb v)) (lost (inodes v) ip (keep lastb) (λ q, freed lastb (length (inodes v)) 3 q || freed_direct lastb (length (inodes v)) 4 q))
    (inodes v) A F (inodes v') A' F' →
  length (inodes v') = length (inodes v) →
  ∀ k o, content v' A' k o = if decide (k = ip ∧ lastb < o / 1024) then 0 else content v A k o.
Proof.
  intros Hlb Hip [P1 P2 P3 P4] HN k o. unfold Fileio.content, file_block. destruct (locate (o / 1024)) as [[r ix]|] eqn:El; [|by destruct (decide _)].
  assert (Hfull : full (Path k r ix)) by (by eapply locate_full). unfold at_path. destruct (decide (k < length (inodes v))%nat) as [Hk|Hk].
  2:{ rewrite !node_beyond by (simpl; lia). by destruct (decide _). }
  pose proof (P2 _ (proj1 Hfull)) as En. rewrite (lost_located lastb (inodes v) k (o / 1024) r ix Hlb Hip Hk El) in En.
  destruct (decide (k = ip ∧ lastb < o / 1024)) as [Hin|Hout].
  - rewrite bool_decide_true in En by done. by rewrite En.
  - rewrite bool_decide_false in En by done. destruct (Z.eqb_spec (node (inodes v') (A' dev) (Path k r ix)) 0) as [E0|E0].
    + by rewrite <- En, E0.
    + rewrite P3 by done. rewrite En in *. by rewrite (proj2 (Z.eqb_neq _ 0)).
Qed.

(** The file [ip], of which [z] was the inode, is [len] bytes long; if it was
    longer, all above is 0, the file has no blocks there, what it lost is
    free, and a file of length 0 has no blocks at all. *)
Definition truncated v A F (z : inode) (len : Z) v' A' F' : Prop :=
  sound parts usable dev v' A' F' ∧ sized v v' ip len ∧ size_saved v' A' (i_number z) len ∧
  (∀ k o, 0 ≤ o → content v' A' k o = if decide (k = ip ∧ len ≤ o ∧ len < i_size z) then 0 else content v A k o) ∧
  (len < i_size z → len mod 1024 = 0 → ∀ b, b ∈ F' ↔ b ∈ F ∨ ∃ q, valid q ∧ at_path dev v A q = b ∧ b ≠ 0 ∧ at_path dev v' A' q = 0) ∧
  (len < i_size z → ∀ n, len ≤ 1024 * n → file_block dev v' A' ip n = 0) ∧
  (len < i_size z → len = 0 → ∀ q, valid q → p_file q = ip → at_path dev v' A' q = 0).
(** A block had to be found for the new end, and there was none; the files
    are as they were. *)
Definition not_truncated v A (z : inode) (len : Z) v' : Prop :=
  (i_size z < len ∨ len mod 1024 ≠ 0) ∧ ∃ A' F', volume v' [] A' F' ∧ files dev v' A' F' ∧ u_error (bst v') = ENOSPC ∧ sized v v' ip (i_size z) ∧
    ∀ k o, 0 ≤ o → content v' A' k o = content v A k o.

Lemma sound_size v A F z n : sound parts usable dev v A F → inodes v !! ip = Some z → has (i_flag z) IPIPE = false →
  let z' := z<|i_size := n|> in
  sound parts usable dev (setz v z') A F ∧ (∀ k o, content (setz v z') A k o = content v A k o) ∧ sized v (setz v z') ip n.
Proof.
  intros HS Hz Hp z'. split; [|split].
  - by apply (sound_inode parts usable dev v A F ip z z').
  - intros k o. by apply (content_inode dev v A ip z z').
  - by apply (sized_inode v ip z z').
Qed.

Lemma wp_itrunc_grow v A F z len aflags :
  sound parts usable dev v A F → regular v ip z → placed v z → i_size z < len → len < 2^31 → has aflags B_CLRBUF = true →
  wp (bn ← bmap fuel ip (lblkno (len - 1)) B_WRITE aflags;
      e ← gets (λ v, u_error (bst v));
      if negb (e =? 0) || (bn <? 0) then mret tt
      else set_inode ip (λ z, z<|i_size := s32 len|>);; itrunc_end fuel ip)
    (λ _ v', (∃ A' F', truncated v A F z len v' A' F') ∨ not_truncated v A z len v') v.
Proof.
  intros HS [G1 G2 G3 G4] Hpl Hlt Hlen Hcl. apply wp_bind. rewrite lblkno_div by lia.
  eapply wp_mono; [apply (wp_bmap_clear v A F z (len - 1) aflags); [done|done|lia|done]|].
  intros b v1 (A1 & F1 & Hv1 & Hf1 & Hm1 & Hs1 & HC1 & Hor). apply wp_bind, wp_gets. pose proof (sized_meta _ _ _ _ Hm1 G1 G3) as Hsz.
  destruct Hor as [(-> & Ee)|(Hb & Ee & Hfb)]; rewrite Ee.
  { apply wp_ret. right. split; [by left|]. exists A1, F1. by split_and!. }
  change (0 =? 0) with true. rewrite (proj2 (Z.ltb_ge b 0)) by lia. cbn [negb orb]. rewrite s32_id by lia.
  destruct (meta_lookup _ _ _ _ Hm1 G1) as (z1 & Hz1 & Em). destruct (meta_fields _ _ Em) as (E1 & _ & _ & E4 & E5). rewrite G3 in E5.
  assert (HS1 : sound parts usable dev v1 A1 F1) by (by split). destruct (sound_size v1 A1 F1 z1 len HS1 Hz1 E5) as (T1 & T2 & T3).
  set (z2 := z1<|i_size := len|>) in *. apply wp_bind. eapply wp_set_inode; [exact Hz1|]. change (v1<|inodes := _|>) with (setz v1 z2).
  assert (Hpl2 : placed (setz v1 z2) z2).
  { destruct Hs1 as [Hs1 Hs2]. unfold placed, z2, setz. fields. by rewrite E4, Hs1, Hs2. }
  eapply wp_mono; [apply (wp_itrunc_end (setz v1 z2) A1 F1 z2 T1); [by eapply setz_at|done|done]|].
  intros [] v' (A' & HS' & _ & HC' & Hsz' & Hsv). left. exists A', F1. split; [done|]. change (i_size z2) with len in *. split.
  { eapply sized_trans; [exact Hsz|]. eapply sized_trans; [exact T3|done]. }
  split; [by rewrite <- E4|]. split; [|lia]. intros k o Hko. rewrite decide_False by lia. by rewrite HC', T2, HC1.
Qed.
(** The end of the file, in blocks. *)
Lemma last_block len : 0 ≤ len < 2^31 →
  let lastb := (len + 1023) / 1024 - 1 in
  s32 (lblkno (len + 1023) - 1) = lastb ∧ -1 ≤ lastb < 2^21 ∧
  ∀ o, 0 ≤ o → (len ≤ o ↔ lastb < o / 1024 ∨ len ≤ o ∧ o / 1024 = len / 1024 ∧ len mod 1024 ≠ 0) ∧ (len mod 1024 = 0 → lastb < len / 1024).
Proof.
  intros Hlen lastb. pose proof (Z.div_mod (len + 1023) 1024 ltac:(lia)). pose proof (Z.mod_pos_bound (len + 1023) 1024 ltac:(lia)).
  assert (Hb : -1 ≤ lastb < 2^21) by (unfold lastb; lia). split; [|split; [done|]].
  - unfold lblkno. rewrite u32_id by lia. rewrite Z.shiftr_div_pow2 by lia. change (2 ^ 10) with 1024. apply s32_id. fold lastb. lia.
  - intros o Ho. pose proof (Z.div_mod o 1024 ltac:(lia)). pose proof (Z.mod_pos_bound o 1024 ltac:(lia)).
    pose proof (Z.div_mod len 1024 ltac:(lia)). pose proof (Z.mod_pos_bound len 1024 ltac:(lia)). unfold lastb. split; [|lia]. split; [|lia]. intros Hle.
    destruct (decide (len mod 1024 = 0)); [left; lia|]. destruct (decide (o / 1024 = len / 1024)); [right; lia|left; lia].
Qed.

Lemma wp_itrunc_shrink v A F z len aflags :
  sound parts usable dev v A F → regular v ip z → placed v z → 0 ≤ len < i_size z → has aflags B_CLRBUF = true →
  wp (let lastblock := s32 (lblkno (len + 1023) - 1) in
      let lastiblock level := s32 (lastblock - nth level [4; 4 + 256; 4 + 256 + 65536] 0) in
      ok ← clear_tail fuel ip len aflags;
      if negb ok then mret tt
      else
        tip ← inode_at ip;
        set_inode ip (λ z, z<|i_size := s32 len|>);;
        clear_trees ip 3 lastiblock;;
        clear_direct ip 4 lastblock;;
        kept ← free_trees fuel ip tip 3 lastiblock aflags;
        (if (kept : bool) then mret tt else free_direct fuel ip tip 4 lastblock);;
        itrunc_end fuel ip)
    (λ _ v', (∃ A' F', truncated v A F z len v' A' F') ∨ not_truncated v A z len v') v.
Proof.
  intros HS [G1 G2 G3 G4] Hpl Hlen Hcl. destruct (last_block len ltac:(lia)) as (-> & Hlb & Hend). set (lastb := (len + 1023) / 1024 - 1) in *. cbv zeta.
  apply wp_bind. eapply wp_mono; [apply (wp_clear_tail v A F z len aflags HS G1); [lia|done]|].
  intros ok v1 (A1 & F1 & Hv1 & Hf1 & Hm1 & [Hs1 Hs2] & Hok). pose proof (sized_meta _ _ _ _ Hm1 G1 G3) as Hsz. destruct ok; cbn [negb].
  2:{ apply wp_ret. right. destruct Hok as (? & ? & ?). split; [by right|]. exists A1, F1. by split_and!. }
  destruct Hok as (Ee & Hw & Hsame). destruct (meta_lookup _ _ _ _ Hm1 G1) as (z1 & Hz1 & Em). destruct (meta_fields _ _ Em) as (E1 & E2 & E3 & E4 & E5). rewrite G3 in E5.
  rewrite s32_id by lia.
  eapply (wp_shorten v1 A1 F1 z1 len lastb _ aflags); [done|done|done|done| |].
  { intros level Hlv. fold (tree_base level). unfold lastib. apply s32_id. pose proof (tree_base_first level Hlv).
    assert (tree_base level ≤ 65796) by (destruct level as [|[|[|]]]; vm_compute; try done; lia). lia. }
  intros v3 A3 F3 l Hv3 HP Ei3 Hi3 Hf3 Ee3. set (z3 := readdr (z1<|i_size := len|>) l) in *. pose proof (lookup_lt_Some _ _ _ Hz1) as Hlt.
  assert (Hz3 : inodes v3 !! ip = Some z3) by (rewrite Ei3; by apply list_lookup_insert_eq).
  assert (HS3 : sound parts usable dev v3 A3 F3).
  { split; [done| |congruence]. unfold files. rewrite Hi3, Hf3. apply HP. }
  assert (HN3 : length (inodes v3) = length (inodes v1)) by (rewrite Ei3; by rewrite length_insert).
  assert (Hpl3 : placed v3 z3) by (unfold placed, z3, readdr; fields; by rewrite E4, Hi3, Hf3, Hs1, Hs2).
  assert (Hp3 : has (i_flag z3) IPIPE = false) by done.
  assert (Hsz3 : sized v1 v3 ip len).
  { destruct (sized_inode v1 ip z1 z3 Hz1 Hp3 eq_refl) as (Q1 & Q2 & Q3). unfold sized, kind. rewrite Ei3. done. }
  eapply wp_mono; [by apply (wp_itrunc_end v3 A3 F3 z3)|]. intros [] v' (A' & HS' & HN' & HC' & Hsz' & Hsv). left. exists A', F3.
  change (i_size z3) with len in *. change (i_number z3) with (i_number z1) in *. rewrite E4 in Hsv.
  pose proof (shortened_content v1 A1 F1 lastb v3 A3 F3 Hlb Hlt HP HN3) as HC3. pose proof HP as [P1 P2 P3 P4].
  split; [done|]. split; [eapply sized_trans; [exact Hsz|]; by eapply sized_trans|]. split; [done|]. split; [|split; [|split]].
  - intros k o Hko. rewrite HC', HC3, Hw by done. destruct (Hend o Hko) as [Ho1 Ho2].
    destruct (decide (k = ip ∧ lastb < o / 1024)) as [D1|D1]; [by rewrite decide_True by tauto|].
    destruct (decide (k = ip ∧ len ≤ o ∧ _ ∧ _)) as [D2|D2]; [rewrite decide_True by tauto; done|]. rewrite decide_False; [done|].
    intros (-> & D3 & _). apply Ho1 in D3. tauto.
  - intros _ Hmod b. destruct (Hsame Hmod) as (-> & -> & ->). rewrite P4. f_equiv. f_equiv. intros q. split.
    + intros (V & E & En & Hb). split; [done|]. split; [done|]. split; [done|]. rewrite HN' by done. unfold at_path. rewrite P2 by done. by rewrite E.
    + intros (V & En & Hb & E0). split; [done|]. split; [|done]. rewrite HN' in E0 by done. unfold at_path in E0, En. rewrite P2 in E0 by done.
      destruct (lost _ _ _ _ q); [done|]. congruence.
  - intros _ n Hn. unfold file_block. destruct (locate n) as [[r ix]|] eqn:El; [|done]. assert (Hfull : full (Path ip r ix)) by (by eapply locate_full).
    rewrite HN' by apply Hfull. unfold at_path. rewrite P2 by apply Hfull. rewrite (lost_located lastb (inodes v1) ip n r ix Hlb Hlt Hlt El).
    rewrite bool_decide_true; [done|]. split; [done|]. unfold lastb. pose proof (Z.div_lt_upper_bound (len + 1023) 1024 (n + 1)). lia.
  - intros _ E0 q Hq Eq. rewrite HN' by done. unfold at_path. rewrite P2 by done. unfold lost. rewrite decide_True; [done|]. split; [done|].
    assert (El : lastb = -1) by (unfold lastb; by rewrite E0). rewrite El. unfold keep. destruct (Nat.ltb_spec (p_root q) 4); apply Z.leb_gt; [lia|].
    unfold lastib. pose proof (tree_base_first (p_root q - 4) ltac:(destruct Hq as (? & _); lia)). lia.
Qed.

Lemma wp_itrunc v A F z len ioflags :
  sound parts usable dev v A F → regular v ip z → placed v z → 0 ≤ len < 2^31 →
  wp (itrunc fuel ip len ioflags) (λ _ v', (∃ A' F', truncated v A F z len v' A' F') ∨ not_truncated v A z len v') v.
Proof.
  intros HS HG Hpl Hlen. pose proof HG as [G1 G2 G3 G4]. unfold itrunc. set (aflags := if has ioflags IO_SYNC then _ else _).
  assert (Hcl : has aflags B_CLRBUF = true) by (unfold aflags; by destruct (has ioflags IO_SYNC)).
  assert (Hget : ∀ Q : inode → vol → Prop, Q z v → wp (inode_at ip) Q v).
  { intros Q HQ. unfold inode_at. apply wp_bind, wp_gets. by eapply wp_lift; [apply rd_Done|]. }
  apply wp_bind, Hget. rewrite G3. apply wp_bind, wp_ret. rewrite u32_id by lia. destruct (Z.eqb_spec (i_size z) len) as [E|E].
  - eapply wp_mono; [by apply (wp_itrunc_end v A F z)|]. intros [] v' (A' & HS' & HN' & HC' & Hsz' & Hsv). left. exists A', F. rewrite <- E.
    split; [done|]. split; [done|]. split; [done|]. split; [|lia]. intros k o Hko. rewrite decide_False by lia. apply HC'.
  - apply wp_bind, Hget. rewrite u32_id by lia. destruct (Z.ltb_spec (i_size z) len) as [Hlt|Hge].
    + apply wp_itrunc_grow; try done. lia.
    + apply wp_itrunc_shrink; try done. lia.
Qed.

(** C3. [itrunc] of a regular file, on any volume in order and for any length
    below 2^31: it either makes the file exactly that long, in the inode and,
    unless the file system is mounted to be read only, in the block of the
    inode on the disk; or, only when the new end is above the old one or
    inside a block, it fails with ENOSPC and leaves size and contents as they
    were. A file that gets longer keeps its bytes; of one that gets shorter
    the bytes below the end stay and all above read as 0, through one, two
    and three levels of indirect blocks; no other file changes. When the new
    end is the end of a block, the blocks that are free afterwards are exactly
    the ones that were free and those, data and indirect, that the file lost;
    a file cut to nothing has none left. *)
Theorem itrunc_correct v A F z len ioflags :
  sound parts usable dev v A F → regular v ip z → placed v z → 0 ≤ len < 2^31 →
  wp (itrunc fuel ip len ioflags) (λ _ v', (∃ A' F', truncated v A F z len v' A' F') ∨ not_truncated v A z len v') v.
Proof. apply wp_itrunc. Qed.
End Itrunc.

#[local] Existing Instance ex_volumes.
#[local] Existing Instance ex_good.
#[local] Existing Instance ex_alone.
(** The file of the example is cut to nothing: its two blocks of data and the
    indirect block are free. *)
Lemma itrunc_correct_witness :
  let D := ex_disks true in let N := ex_naps in
  wp (itrunc 12 0 0 0) (λ _ v', ∃ A' F', truncated ex_parts ex_usable 1 0 ex_vol ex_A ex_F ex_inode 0 v' A' F' ∧ 10 ∈ F' ∧ 11 ∈ F' ∧ 12 ∈ F') ex_vol.
Proof.
  intros D N. eapply wp_mono; [apply (itrunc_correct ex_parts ex_usable 1 12 ltac:(unfold NBUF; lia) 0 ex_vol ex_A ex_F ex_inode 0 0 ex_sound ex_regular)|].
  - split; [split|]; vm_compute; (reflexivity || discriminate).
  - lia.
  - intros [] v' [(A' & F' & HT)|[[Hl|Hl] _]]; [|simpl in Hl; lia|done]. exists A', F'. split; [done|].
    destruct HT as (_ & _ & _ & _ & HF & _ & H0). specialize (HF ltac:(simpl; lia) eq_refl). specialize (H0 ltac:(simpl; lia) eq_refl).
    assert (HV : ∀ r ix, valid (Path 0 r ix) → at_path 1 ex_vol ex_A (Path 0 r ix) ≠ 0 → at_path 1 ex_vol ex_A (Path 0 r ix) ∈ F').
    { intros r ix Hv Hn. apply HF. right. exists (Path 0 r ix). split_and!; try done. by apply H0. }
    split_and!; [apply (HV 0%nat [])|apply (HV 4%nat [])|apply (HV 4%nat [0%nat])]; try done; unfold valid, levels; simpl; split_and!; try lia; repeat constructor; lia.
Defined.
