(* ===== verification/Itable.v ===== *)
(** * The table of inodes

    kernel/ufs_inode.c: the inodes in memory, found by hash chains, those that
    nobody uses on a list from which the oldest is taken for another file.
    [iupdat] and [itrunc] are those of [Rwip]. *)
From stdpp Require Import base tactics list option strings numbers gmap.
From S2P Require Import Prelude Bio Ufs Rwip.
Open Scope Z_scope.

Definition NINODE : nat := 24.
Definition INOHSZ : nat := 16.
Definition ROOTINO : Z := 2.
Definition IMOUNT : Z := 0x8.
Definition ENFILE : Z := 23.

(** A node of the hash chains is the number of an inode or, from [NINODE] on,
    a head. *)
Definition INOHASH (dev ino : Z) : nat := NINODE + Z.to_nat (Z.land (u32 (dev + ino)) 15).

(** The pointers to a pointer of the free list: [&ifreeh] and
    [&inode[ip].i_freef]. *)
Inductive slot := Ifreeh | Freef (ip : nat).

(** The part of [struct inode] that belongs to the table, besides the links of
    the hash chains; the rest is in [inodes].  [i_fs] is the entry of the
    table of mounted file systems whose super block it points to.  ([i_freef]
    shares its memory with [i_lastr], which is 0 when the link is cleared.) *)
Record ient := Ient { i_count : Z; i_id : Z; i_fs : option nat; i_freef : option nat; i_freeb : option slot }.
#[global] Instance eta_ient : Eta ient := λ e, Ient (i_count e) (i_id e) (i_fs e) (i_freef e) (i_freeb e).
Record mount := Mount { m_dev : Z; m_filsys : fs; m_inodp : option nat }.
#[global] Instance eta_mount : Eta mount := λ m, Mount (m_dev m) (m_filsys m) (m_inodp m).

(** The super block in [ivol] is that of the file system last worked on. *)
Record itable := Itable {
  ivol : vol;
  i_forw : list nat;
  i_back : list nat;
  ients : list ient;
  ifreeh : option nat;
  ifreet : option slot;
  mounts : list mount;
  nextinodeid : Z }.
#[global] Instance eta_itable : Eta itable := λ t,
  Itable (ivol t) (i_forw t) (i_back t) (ients t) (ifreeh t) (ifreet t) (mounts t) (nextinodeid t).
Notation T := (K itable).

(** [sleep] on an inode, while other processes run, and the name cache, which
    is told that all it knows is stale. *)
Class TableOps := { inap : nat → T unit; cinvalall : T unit }.

Definition on_ivol {A} (m : V A) : T A := λ t,
  match m (ivol t) with Done (x, v) => Done (x, t<|ivol := v|>) | Panic e => Panic e | Wild => Wild | Spin => Spin end.
Definition ent_at (ip : nat) : T ient := l ← gets ients; lift (rd l ip).
Definition set_ent (ip : nat) (g : ient → ient) : T unit :=
  e ← ent_at ip; l ← gets ients; l ← lift (wr l ip (g e)); modify (λ t, t<|ients := l|>).
Definition data_at (ip : nat) : T inode := on_ivol (inode_at ip).
Definition set_data (ip : nat) (g : inode → inode) : T unit := on_ivol (set_inode ip g).
Definition flag_or (ip : nat) (f : Z) : T unit := set_data ip (λ z, z<|i_flag ::= λ g, Z.lor g f|>).

(** Code that works on the super block [ip->i_fs] points to. *)
Definition on_fs {A} (ip : nat) (m : V A) : T A :=
  e ← ent_at ip; k ← lift (match i_fs e with Some k => Done k | None => Wild end);
  l ← gets mounts; x ← lift (rd l k);
  modify (λ t, t<|ivol ::= λ v, v<|sb := m_filsys x|>|>);;
  r ← on_ivol m;
  modify (λ t, t<|mounts := <[k := x<|m_filsys := sb (ivol t)|>]> (mounts t)|>);;
  mret r.

(** ** Links *)
Definition get_forw (n : nat) : T nat := l ← gets i_forw; lift (rd l n).
Definition get_back (n : nat) : T nat := l ← gets i_back; lift (rd l n).
Definition set_forw (n x : nat) : T unit := l ← gets i_forw; l ← lift (wr l n x); modify (λ t, t<|i_forw := l|>).
Definition set_back (n x : nat) : T unit := l ← gets i_back; l ← lift (wr l n x); modify (λ t, t<|i_back := l|>).

Definition insque (e prev : nat) : T unit :=
  set_back e prev;;
  n ← get_forw prev; set_forw e n;;
  n ← get_forw prev; set_back n e;;
  set_forw prev e.
Definition remque (e : nat) : T unit :=
  p ← get_back e; n ← get_forw e; set_forw p n;;
  n ← get_forw e; p ← get_back e; set_back n p.

(** [*p = x] *)
Definition store_slot (p : option slot) (x : option nat) : T unit :=
  match p with
  | None => lift Wild
  | Some Ifreeh => modify (λ t, t<|ifreeh := x|>)
  | Some (Freef ip) => set_ent ip (λ e, e<|i_freef := x|>)
  end.
Definition clear_links (ip : nat) : T unit :=
  set_ent ip (λ e, e<|i_freef := None|>);; set_data ip (λ z, z<|i_lastr := 0|>);;
  set_ent ip (λ e, e<|i_freeb := None|>).

(** ** The table at the start *)
Fixpoint ihinit_heads (n : nat) (ih : nat) : T unit :=
  match n with O => mret tt | S n => set_forw ih ih;; set_back ih ih;; ihinit_heads n (S ih) end.
Fixpoint ihinit_free (n : nat) (ip : nat) : T nat :=
  match n with
  | O => mret ip
  | S n =>
      let ip := S ip in
      set_forw ip ip;; set_back ip ip;;
      t ← gets ifreet; store_slot t (Some ip);;
      set_ent ip (λ e, e<|i_freeb := t|>);;
      modify (λ s, s<|ifreet := Some (Freef ip)|>);;
      ihinit_free n ip
  end.
Definition ihinit : T unit :=
  ihinit_heads INOHSZ NINODE;;
  modify (λ t, t<|ifreeh := Some 0%nat|><|ifreet := Some (Freef 0)|>);;
  set_ent 0 (λ e, e<|i_freeb := Some Ifreeh|>);;
  set_forw 0 0;; set_back 0 0;;
  ip ← ihinit_free (NINODE - 1) 0;
  set_ent ip (λ e, e<|i_freef := None|>).

(** ** Finding an inode *)
Fixpoint ifind_loop (n : nat) (ih ip : nat) (dev ino : Z) : T (option nat) :=
  if (ip =? ih)%nat then mret None
  else
    match n with
    | O => lift Spin
    | S n =>
        z ← data_at ip;
        if (ino =? i_number z) && (dev =? i_dev z) then mret (Some ip)
        else ip ← get_forw ip; ifind_loop n ih ip dev ino
    end.
Definition ifind (dev ino : Z) : T (option nat) :=
  let ih := INOHASH dev ino in ip ← get_forw ih; ifind_loop NINODE ih ip dev ino.

Section Itable.
Context `{Disks, Naps, TableOps} (fuel : nat).

(** ** Releasing an inode *)
Definition IUPDAT (ip : nat) : T unit :=
  z ← data_at ip;
  if has (i_flag z) (Z.lor (Z.lor IUPD IACC) (Z.lor ICHG IMOD)) then
    s ← gets (λ t, tv_sec (ivol t)); on_fs ip (iupdat fuel ip s s false)
  else mret tt.
Definition ITIMES (ip : nat) : T unit :=
  z ← data_at ip;
  if has (i_flag z) (Z.lor (Z.lor IUPD IACC) ICHG) then
    s ← gets (λ t, tv_sec (ivol t));
    flag_or ip IMOD;;
    (if has (i_flag z) IACC then set_data ip (λ z, z<|i_atime := s|>) else mret tt);;
    (if has (i_flag z) IUPD then set_data ip (λ z, z<|i_mtime := s|>) else mret tt);;
    (if has (i_flag z) ICHG then set_data ip (λ z, z<|i_ctime := s|>) else mret tt);;
    set_data ip (λ z, z<|i_flag ::= λ g, bic g (Z.lor (Z.lor IACC IUPD) ICHG)|>)
  else mret tt.
(** A file without a name is removed when nobody uses it any more. *)
Definition idestroy (ip : nat) : T unit :=
  on_fs ip (itrunc fuel ip 0 0);;
  set_data ip (λ z, z<|i_mode := 0|>);;
  z ← data_at ip; l ← lift (wr (i_addr z) 1 0); set_data ip (λ z, z<|i_addr := l|>);;
  flag_or ip (Z.lor IUPD ICHG);;
  z ← data_at ip; on_fs ip (ifree (i_number z)).
(** The inode goes to the end of the free list. *)
Definition ienqueue (ip : nat) : T unit :=
  h ← gets ifreeh;
  match h with
  | Some _ => t ← gets ifreet; store_slot t (Some ip);; set_ent ip (λ e, e<|i_freeb := t|>)
  | None => modify (λ t, t<|ifreeh := Some ip|>);; set_ent ip (λ e, e<|i_freeb := Some Ifreeh|>)
  end;;
  set_ent ip (λ e, e<|i_freef := None|>);; set_data ip (λ z, z<|i_lastr := 0|>);;
  modify (λ t, t<|ifreet := Some (Freef ip)|>).
Definition irele (ip : nat) : T unit :=
  e ← ent_at ip;
  (if i_count e =? 1 then
     flag_or ip ILOCKED;;
     z ← data_at ip;
     (if i_nlink z <=? 0 then
        ro ← on_fs ip (gets (λ v, fs_ronly (sb v)));
        if ro =? 0 then idestroy ip else mret tt
      else mret tt);;
     IUPDAT ip;;
     on_ivol (iunlock ip);;
     set_data ip (λ z, z<|i_flag := 0|>);;
     ienqueue ip
   else
     z ← data_at ip;
     if negb (has (i_flag z) ILOCKED) then ITIMES ip else mret tt);;
  set_ent ip (λ e, e<|i_count ::= λ c, u32 (c - 1)|>).
Definition iput (ip : nat) : T unit := on_ivol (iunlock ip);; irele ip.

(** ** Getting an inode *)

(** The inode is taken off the free list. *)
Definition iunfree (ip : nat) : T unit :=
  e ← ent_at ip;
  match i_freef e with
  | Some iq => set_ent iq (λ x, x<|i_freeb := i_freeb e|>)
  | None => modify (λ t, t<|ifreet := i_freeb e|>)
  end;;
  store_slot (i_freeb e) (i_freef e);;
  clear_links ip.
(** The inode has been found and is not locked. *)
Definition itake (ip : nat) : T unit :=
  e ← ent_at ip;
  (if i_count e =? 0 then iunfree ip else mret tt);;
  set_ent ip (λ e, e<|i_count ::= λ c, u32 (c + 1)|>);;
  flag_or ip ILOCKED.

Fixpoint igrab (n : nat) (ip : nat) : T unit :=
  z ← data_at ip;
  if has (i_flag z) ILOCKED then
    match n with O => lift Spin | S n => flag_or ip IWANT;; inap ip;; igrab n ip end
  else itake ip.

Definition cacheinval (ip : nat) : T unit :=
  modify (λ t, t<|nextinodeid ::= λ n, u32 (n + 1)|>);;
  i ← gets nextinodeid;
  set_ent ip (λ e, e<|i_id := i|>);;
  if i =? 0 then cinvalall else mret tt.

(** The fields of an inode from the sixteen words it has on the disk. *)
Definition idecode (w : list Z) (z : inode) : option inode :=
  match w with
  | [w0; w1; w2; w3; a0; a1; a2; a3; a4; a5; a6; _; fl; t0; t1; t2] =>
      Some (Inode (i_flag z) (i_dev z) (i_number z) [a0; a1; a2; a3; a4; a5; a6] (i_lastr z)
              (u16 w0) (u16 (Z.shiftr w0 16)) (u32 w1) (u32 w2) w3 (u32 fl) t0 t1 t2)
  | _ => None
  end.
(** The first inode of the free list, for another file. *)
Definition iassign (dev : Z) (fs : nat) (ino : Z) (ip : nat) : T unit :=
  e ← ent_at ip;
  match i_freef e with Some iq => set_ent iq (λ x, x<|i_freeb := Some Ifreeh|>) | None => mret tt end;;
  modify (λ t, t<|ifreeh := i_freef e|>);;
  clear_links ip;;
  remque ip;;
  insque ip (INOHASH dev ino);;
  set_data ip (λ z, z<|i_dev := dev|>);;
  set_ent ip (λ e, e<|i_fs := Some fs|>);;
  set_data ip (λ z, z<|i_number := ino|>);;
  cacheinval ip;;
  set_data ip (λ z, z<|i_flag := ILOCKED|>);;
  set_ent ip (λ e, e<|i_count ::= λ c, u32 (c + 1)|>);;
  set_data ip (λ z, z<|i_lastr := 0|>).
Definition iread (dev ino : Z) (ip : nat) : T (option nat) :=
  bp ← on_ivol (on_cache (bread fuel dev (itod ino)));
  x ← on_ivol (on_cache (buf_at bp));
  if has (b_flags x) B_ERROR then
    on_ivol (on_cache (brelse bp));;
    remque ip;;
    set_forw ip ip;; set_back ip ip;;
    set_data ip (λ z, z<|i_number := 0|>);;
    iput ip;;
    mret None
  else
    d ← on_ivol (on_cache (load bp));
    z ← data_at ip;
    z ← lift (match idecode (take 16 (drop (16 * Z.to_nat (itoo ino)) (resize 256 0 d))) z with Some z => Done z | None => Wild end);
    set_data ip (λ _, z);;
    on_ivol (on_cache (brelse bp));;
    mret (Some ip).

(** The entry of the table of mounts, and its index. *)
Fixpoint find_mount (l : list mount) (ip k : nat) : option (nat * mount) :=
  match l with
  | [] => None
  | m :: l => if bool_decide (m_inodp m = Some ip) then Some (k, m) else find_mount l ip (S k)
  end.

(** [n] bounds how often it starts over. *)
Fixpoint iget (n : nat) (dev : Z) (fs : nat) (ino : Z) : T (option nat) :=
  r ← ifind dev ino;
  match r with
  | Some ip =>
      z ← data_at ip;
      if has (i_flag z) ILOCKED then
        match n with O => lift Spin | S n => flag_or ip IWANT;; inap ip;; iget n dev fs ino end
      else if has (i_flag z) IMOUNT then
        l ← gets mounts;
        match find_mount l ip 0 with
        | None => panic "no imt"
        | Some (k, m) => match n with O => lift Spin | S n => iget n (m_dev m) k ROOTINO end
        end
      else itake ip;; mret (Some ip)
  | None =>
      h ← gets ifreeh;
      match h with
      | None => on_ivol (tell (Said "inode: table full"));; on_ivol (set_error ENFILE);; mret None
      | Some ip =>
          e ← ent_at ip;
          if negb (i_count e =? 0) then panic "free inode isn't"
          else iassign dev fs ino ip;; iread dev ino ip
      end
  end.

(** ** Forgetting the inodes of a device *)
Fixpoint iflush_loop (n : nat) (ip : nat) (dev open : Z) : T Z :=
  match n with
  | O => mret open
  | S n =>
      z ← data_at ip; e ← ent_at ip;
      if i_dev z =? dev then
        if negb (i_count e =? 0) then mret (-1)
        else remque ip;; set_forw ip ip;; set_back ip ip;; iflush_loop n (S ip) dev open
      else
        rdev ← lift (rd (i_addr z) 1);
        iflush_loop n (S ip) dev (if negb (i_count e =? 0) && (Z.land (i_mode z) IFMT =? IFBLK) && (rdev =? dev) then open + 1 else open)
  end.
Definition iflush (dev : Z) : T Z := iflush_loop NINODE 0 dev 0.
End Itable.
