(* ===== verification/Icache.v ===== *)
(** * The table of inodes as a cache

    The invariant of the table of [Itable], what each operation does to it,
    and that the table is a cache of the inodes on the disk that writes them
    back. *)
From stdpp Require Import functions.
From stdpp Require Import base tactics list option strings numbers gmap.
From S2P Require Import Prelude Ring Bio Cache Store Ufs Alloc Bmap Rwip Fileio Isave Itable.
Open Scope Z_scope.

(** ** Rules *)
Section Rules.
Implicit Types (t : itable) (ip : nat).

Lemma wp_on_ivol {A} (m : V A) (Q : A → itable → Prop) t : wp m (λ x v, Q x (t<|ivol := v|>)) (ivol t) → wp (on_ivol m) Q t.
Proof. unfold wp, on_ivol. by destruct (m (ivol t)) as [[x v]| | |]. Qed.
Lemma wp_ent_at ip e (Q : ient → itable → Prop) t : ients t !! ip = Some e → Q e t → wp (ent_at ip) Q t.
Proof. intros He HQ. unfold ent_at. apply wp_bind, wp_gets. by eapply wp_lift; [apply rd_Done|]. Qed.
Lemma wp_set_ent ip e g (Q : unit → itable → Prop) t : ients t !! ip = Some e → Q tt (t<|ients := <[ip := g e]> (ients t)|>) → wp (set_ent ip g) Q t.
Proof.
  intros He HQ. unfold set_ent. apply wp_bind. eapply wp_ent_at; [done|]. apply wp_bind, wp_gets, wp_bind.
  eapply wp_lift; [apply wr_Done; by eapply lookup_lt_Some|]. by apply wp_modify.
Qed.
Lemma itable_ivol t : t<|ivol := ivol t|> = t.
Proof. by destruct t. Qed.
Lemma wp_data_at ip z (Q : inode → itable → Prop) t : inodes (ivol t) !! ip = Some z → Q z t → wp (data_at ip) Q t.
Proof.
  intros Hz HQ. apply wp_on_ivol. unfold inode_at. apply wp_bind, wp_gets. eapply wp_lift; [by apply rd_Done|]. by rewrite itable_ivol.
Qed.
Definition with_data t ip (z : inode) : itable := t<|ivol ::= λ v, v<|inodes := <[ip := z]> (inodes v)|>|>.
Lemma wp_set_data ip z g (Q : unit → itable → Prop) t : inodes (ivol t) !! ip = Some z → Q tt (with_data t ip (g z)) → wp (set_data ip g) Q t.
Proof.
  intros Hz HQ. apply wp_on_ivol. unfold set_inode, inode_at. apply wp_bind, wp_bind, wp_gets. eapply wp_lift; [by apply rd_Done|].
  apply wp_bind, wp_gets, wp_bind. eapply wp_lift; [apply wr_Done; by eapply lookup_lt_Some|]. apply wp_modify. by destruct t.
Qed.
Lemma wp_get_forw n x (Q : nat → itable → Prop) t : i_forw t !! n = Some x → Q x t → wp (get_forw n) Q t.
Proof. intros Hx HQ. unfold get_forw. apply wp_bind, wp_gets. by eapply wp_lift; [apply rd_Done|]. Qed.
Lemma wp_get_back n x (Q : nat → itable → Prop) t : i_back t !! n = Some x → Q x t → wp (get_back n) Q t.
Proof. intros Hx HQ. unfold get_back. apply wp_bind, wp_gets. by eapply wp_lift; [apply rd_Done|]. Qed.
Lemma wp_set_forw n x (Q : unit → itable → Prop) t : (n < length (i_forw t))%nat → Q tt (t<|i_forw := <[n := x]> (i_forw t)|>) → wp (set_forw n x) Q t.
Proof. intros Hx HQ. unfold set_forw. apply wp_bind, wp_gets, wp_bind. eapply wp_lift; [by apply wr_Done|]. by apply wp_modify. Qed.
Lemma wp_set_back n x (Q : unit → itable → Prop) t : (n < length (i_back t))%nat → Q tt (t<|i_back := <[n := x]> (i_back t)|>) → wp (set_back n x) Q t.
Proof. intros Hx HQ. unfold set_back. apply wp_bind, wp_gets, wp_bind. eapply wp_lift; [by apply wr_Done|]. by apply wp_modify. Qed.
End Rules.

(** ** Hash chains *)
Definition heads : list nat := seq NINODE INOHSZ.
Definition hashed (hl : nat → list nat) (ip : nat) : Prop := ∃ d, d ∈ heads ∧ ip ∈ hl d.

(** [x]: an inode that is on no chain and whose own links do not matter. *)
Record chains (x : option nat) (fw bk : list nat) (hl : nat → list nat) : Prop := Chains {
  ch_rings : rings NINODE fw bk heads hl;
  ch_fw : length fw = (NINODE + INOHSZ)%nat;
  ch_bk : length bk = (NINODE + INOHSZ)%nat;
  ch_loose ip : (ip < NINODE)%nat → ¬ hashed hl ip → x ≠ Some ip → fw !! ip = Some ip ∧ bk !! ip = Some ip }.

Lemma INOHASH_head dev ino : INOHASH dev ino ∈ heads.
Proof.
  unfold heads, INOHASH. apply elem_of_seq. change 15 with (Z.ones 4). rewrite Z.land_ones by lia. pose proof (Z.mod_pos_bound (u32 (dev + ino)) (2^4)).
  unfold INOHSZ. lia.
Qed.
Lemma head_ge d : d ∈ heads → (NINODE ≤ d < NINODE + INOHSZ)%nat.
Proof. unfold heads. by rewrite elem_of_seq. Qed.

Section Chains.
Implicit Types (t : itable) (hl : nat → list nat) (ip : nat).

Definition unhashed hl ip : nat → list nat := λ d, filter (λ jp, jp ≠ ip) (hl d).
Lemma hashed_unhashed hl ip jp : hashed (unhashed hl ip) jp ↔ hashed hl jp ∧ jp ≠ ip.
Proof. unfold hashed, unhashed. setoid_rewrite list_elem_of_filter. naive_solver. Qed.
Lemma filter_absent (l : list nat) ip : ip ∉ l → filter (λ jp, jp ≠ ip) l = l.
Proof. induction l as [|a l IH]; intros Hn; [done|]. rewrite filter_cons_True by set_solver. rewrite IH; [done|set_solver]. Qed.
Lemma rings_ext n fw bk hs hl hl' : (∀ d, d ∈ hs → hl' d = hl d) → rings n fw bk hs hl → rings n fw bk hs hl'.
Proof.
  intros E R. split; [..|apply R].
  - intros d Hd. rewrite E by done. by apply R.
  - intros d Hd. rewrite E by done. by apply R.
  - intros d Hd. rewrite E by done. by apply R.
  - intros d d' x Hd Hd'. rewrite !E by done. by apply (rg_disj _ _ _ _ _ R).
  - intros d x Hd. rewrite E by done. by apply (rg_member _ _ _ _ _ R).
Qed.

(** An inode is taken off its chain, if it is on one. *)
Lemma wp_remque t hl ip (Q : unit → itable → Prop) : chains None (i_forw t) (i_back t) hl → (ip < NINODE)%nat →
  (∀ fw bk, chains (Some ip) fw bk (unhashed hl ip) → Q tt (t<|i_forw := fw|><|i_back := bk|>)) →
  wp (remque ip) Q t.
Proof.
  intros [R L1 L2 Hl] Hip HQ. unfold remque.
  destruct (decide (Exists (λ d, ip ∈ hl d) heads)) as [(d & Hd & Hx)%Exists_exists|Hn].
  - destruct (rings_links NINODE heads _ _ _ _ _ R Hd Hx) as (l1 & l2 & El & F1 & B1 & F2 & B2 & N1 & N2). apply wp_bind. eapply wp_get_back; [exact B1|].
    apply wp_bind. eapply wp_get_forw; [exact F1|]. apply wp_bind, wp_set_forw; [by eapply lookup_lt_Some|].
    apply wp_bind. eapply wp_get_forw; [fields; by rewrite list_lookup_insert_ne|]. apply wp_bind. eapply wp_get_back; [fields; exact B1|].
    apply wp_set_back; [fields; by eapply lookup_lt_Some|]. fields.
    match goal with |- Q tt ?s => replace s with (t<|i_forw := <[pred d l1 := succ d l2]> (i_forw t)|><|i_back := <[succ d l2 := pred d l1]> (i_back t)|>) by (by destruct t) end.
    apply HQ. pose proof (rings_del NINODE heads _ _ _ d l1 ip l2 R Hd El) as R'. split; [|by rewrite length_insert..|].
    + eapply rings_ext; [|exact R']. intros d' Hd'. unfold unhashed. destruct (decide (d' = d)) as [->|Hne].
      * rewrite fn_lookup_insert, El. rewrite list.filter_app, filter_cons_False by tauto. pose proof (rg_nodup _ _ _ _ _ R d Hd) as Hnd. rewrite El in Hnd.
        apply NoDup_app in Hnd as (_ & H1 & [H2 _]%NoDup_cons). rewrite !filter_absent; [done|done|]. intros ?. by apply (H1 ip); [|set_solver].
      * rewrite fn_lookup_insert_ne by done. apply filter_absent. intros Hx'. apply Hne. by eapply (rg_disj _ _ _ _ _ R).
    + intros jp Hj Hnh Hne. assert (Hnj : ¬ hashed hl jp) by (intros ?; apply Hnh; rewrite hashed_unhashed; naive_solver).
      destruct (Hl jp Hj Hnj ltac:(done)) as [G1 G2].
      assert (Hp : ∀ a, a ∈ d :: hl d → a ≠ jp).
      { intros a [->|Ha]%elem_of_cons ->; [by apply head_ge in Hd; lia|]. apply Hnj. by exists d. }
      pose proof (pred_elem d l1). pose proof (succ_elem d l2). rewrite !list_lookup_insert_ne; [done|apply Hp; rewrite El; set_solver..].
  - assert (Hnh : ¬ hashed hl ip) by (intros (d & Hd & Hx); apply Hn, Exists_exists; eauto). destruct (Hl ip Hip Hnh ltac:(done)) as [G1 G2].
    apply wp_bind. eapply wp_get_back; [exact G2|]. apply wp_bind. eapply wp_get_forw; [exact G1|]. apply wp_bind, wp_set_forw; [by eapply lookup_lt_Some|].
    apply wp_bind. eapply wp_get_forw; [fields; by rewrite list_insert_id|]. apply wp_bind. eapply wp_get_back; [fields; exact G2|].
    apply wp_set_back; [fields; by eapply lookup_lt_Some|]. fields.
    match goal with |- Q tt ?s => replace s with (t<|i_forw := i_forw t|><|i_back := i_back t|>) by (rewrite !list_insert_id by done; by destruct t) end.
    apply HQ. assert (EU : ∀ d, d ∈ heads → unhashed hl ip d = hl d) by (intros d Hd; apply filter_absent; intros ?; apply Hnh; by exists d).
    split; [by eapply rings_ext|done|done|]. intros jp Hj Hnj Hne. apply Hl; [done| |done]. intros Hh. apply Hnj. rewrite hashed_unhashed. split; [done|congruence].
Qed.

(** A free one is put at the front of a chain. *)
Lemma wp_insque t hl ip d (Q : unit → itable → Prop) : chains (Some ip) (i_forw t) (i_back t) hl → (ip < NINODE)%nat → ¬ hashed hl ip → d ∈ heads →
  (∀ fw bk, chains None fw bk (<[d := ip :: hl d]> hl) → Q tt (t<|i_forw := fw|><|i_back := bk|>)) →
  wp (insque ip d) Q t.
Proof.
  intros [R L1 L2 Hl] Hip Hn Hd HQ. unfold insque. pose proof (head_ge d Hd) as Hge. destruct (rings_head NINODE heads _ _ _ _ R Hd) as (F1 & B1 & B2 & F2).
  set (n := succ d (hl d)) in *.
  assert (Hni : n ≠ ip).
  { intros E. pose proof (succ_elem d (hl d)) as [E'|E']%elem_of_cons; fold n in E'; [lia|]. apply Hn. exists d. by rewrite <- E. }
  apply wp_bind, wp_set_back; [lia|]. apply wp_bind. eapply wp_get_forw; [fields; exact F1|]. apply wp_bind, wp_set_forw; [fields; lia|].
  apply wp_bind. eapply wp_get_forw; [fields; rewrite list_lookup_insert_ne by lia; exact F1|].
  apply wp_bind, wp_set_back; [fields; rewrite length_insert; by eapply lookup_lt_Some|]. apply wp_set_forw; [fields; rewrite length_insert; lia|]. fields.
  set (fw := <[d := ip]> (<[ip := n]> (i_forw t))). set (bk := <[n := ip]> (<[ip := d]> (i_back t))).
  match goal with |- Q tt ?s => replace s with (t<|i_forw := fw|><|i_back := bk|>) by (by destruct t) end. apply HQ.
  split.
  - apply (rings_add NINODE heads (i_forw t) (i_back t) fw bk hl d [] ip (hl d)); try done.
    + intros e He Hx. apply Hn. by exists e.
    + intros a Ha1 Ha2. unfold fw. simpl in Ha2. by rewrite !list_lookup_insert_ne.
    + intros a Ha1 Ha2. unfold bk. fold n in Ha2. by rewrite !list_lookup_insert_ne.
    + unfold fw. simpl. apply list_lookup_insert_eq. rewrite length_insert. lia.
    + unfold fw. rewrite list_lookup_insert_ne by lia. fold n. apply list_lookup_insert_eq. lia.
    + unfold bk. fold n. apply list_lookup_insert_eq. rewrite length_insert. by eapply lookup_lt_Some.
    + unfold bk. rewrite list_lookup_insert_ne by done. simpl. apply list_lookup_insert_eq. lia.
  - unfold fw. by rewrite !length_insert.
  - unfold bk. by rewrite !length_insert.
  - intros jp Hj Hnj _. assert (Hne : jp ≠ ip) by (intros ->; apply Hnj; exists d; rewrite fn_lookup_insert; set_solver).
    assert (Hnj' : ¬ hashed hl jp).
    { intros (e & He & Hx). apply Hnj. exists e. split; [done|]. destruct (decide (e = d)) as [->|]; [rewrite fn_lookup_insert; set_solver|by rewrite fn_lookup_insert_ne]. }
    destruct (Hl jp Hj Hnj' ltac:(congruence)) as [G1 G2]. assert (n ≠ jp).
    { intros E. pose proof (succ_elem d (hl d)) as [E'|E']%elem_of_cons; fold n in E'; [lia|]. apply Hnj'. exists d. by rewrite <- E. }
    unfold fw, bk. rewrite !list_lookup_insert_ne by lia. done.
Qed.
(** Or is left alone with itself. *)
Lemma wp_self t hl ip (Q : unit → itable → Prop) : chains (Some ip) (i_forw t) (i_back t) hl → (ip < NINODE)%nat → ¬ hashed hl ip →
  (∀ fw bk, chains None fw bk hl → Q tt (t<|i_forw := fw|><|i_back := bk|>)) →
  wp (set_forw ip ip;; set_back ip ip) Q t.
Proof.
  intros [R L1 L2 Hl] Hip Hn HQ. apply wp_bind, wp_set_forw; [lia|]. apply wp_set_back; [fields; lia|]. fields.
  assert (Hne : ∀ d a, d ∈ heads → a ∈ d :: hl d → ip ≠ a).
  { intros d a Hd [->|Ha]%elem_of_cons ->; [apply head_ge in Hd; lia|]. apply Hn. by exists d. }
  apply HQ. split; [|by rewrite length_insert..|].
  - eapply rings_frame; [|exact R]. intros d a Hd Ha. by rewrite !list_lookup_insert_ne by (by eapply Hne).
  - intros jp Hj Hnj _. destruct (decide (jp = ip)) as [->|]; [rewrite !list_lookup_insert_eq by lia; done|].
    rewrite !list_lookup_insert_ne by done. apply Hl; [done|done|congruence].
Qed.
End Chains.

(** ** The free list *)
Section Free.
Implicit Types (es : list ient) (p q : slot) (fl l : list nat) (ip : nat) (nxt : option nat).

Definition first fl nxt : option nat := match fl with [] => nxt | x :: _ => Some x end.
Definition slot_after p fl : slot := match last fl with Some x => Freef x | None => p end.
(** The entries [fl] are linked both ways, from the slot [p] to [nxt]. *)
Fixpoint linked es p fl nxt : Prop :=
  match fl with
  | [] => True
  | ip :: fl => (∃ e, es !! ip = Some e ∧ i_freef e = first fl nxt ∧ i_freeb e = Some p) ∧ linked es (Freef ip) fl nxt
  end.

Lemma linked_app es p l1 l2 nxt : linked es p (l1 ++ l2) nxt ↔ linked es p l1 (first l2 nxt) ∧ linked es (slot_after p l1) l2 nxt.
Proof.
  revert p. induction l1 as [|x l1 IH]; intros p; simpl; [tauto|]. rewrite IH.
  assert (E1 : first (l1 ++ l2) nxt = first l1 (first l2 nxt)) by (by destruct l1). rewrite E1.
  assert (E2 : slot_after p (x :: l1) = slot_after (Freef x) l1) by (unfold slot_after; rewrite last_cons; by destruct (last l1)). rewrite E2. tauto.
Qed.
Lemma linked_frame es es' p fl nxt : (∀ ip e, ip ∈ fl → es !! ip = Some e → ∃ e', es' !! ip = Some e' ∧ i_freef e' = i_freef e ∧ i_freeb e' = i_freeb e) →
  linked es p fl nxt → linked es' p fl nxt.
Proof.
  revert p. induction fl as [|x fl IH]; intros p Hf; simpl; [done|]. intros [(e & H1 & H2 & H3) HL]. split.
  - destruct (Hf x e) as (e' & G1 & G2 & G3); [set_solver|done|]. exists e'. split_and!; congruence.
  - apply IH; [|done]. intros ip e' Hip. apply Hf. set_solver.
Qed.
(** A new end, and a new start. *)
Lemma linked_end es p fl nxt nxt' ip e : NoDup (fl ++ [ip]) → es !! ip = Some e →
  linked es p (fl ++ [ip]) nxt → linked (<[ip := e<|i_freef := nxt'|>]> es) p (fl ++ [ip]) nxt'.
Proof.
  intros Hnd He. rewrite !linked_app. simpl. intros [H1 [(e' & G1 & G2 & G3) _]]. assert (e' = e) as -> by congruence. apply NoDup_app in Hnd as (_ & Hd & _). split.
  - eapply linked_frame; [|exact H1]. intros jp e' Hj Hje. exists e'. rewrite list_lookup_insert_ne; [done|]. intros ->. by apply (Hd jp Hj); set_solver.
  - split; [|done]. exists (e<|i_freef := nxt'|>). split; [apply list_lookup_insert_eq; by eapply lookup_lt_Some|done].
Qed.
Lemma linked_start es p p' ip fl nxt e : ip ∉ fl → es !! ip = Some e →
  linked es p (ip :: fl) nxt → linked (<[ip := e<|i_freeb := Some p'|>]> es) p' (ip :: fl) nxt.
Proof.
  intros Hn He. simpl. intros [(e' & G1 & G2 & G3) H2]. assert (e' = e) as -> by congruence. split.
  - exists (e<|i_freeb := Some p'|>). split; [apply list_lookup_insert_eq; by eapply lookup_lt_Some|done].
  - eapply linked_frame; [|exact H2]. intros jp e' Hj Hje. exists e'. rewrite list_lookup_insert_ne; [done|]. by intros ->.
Qed.
Lemma linked_lookup es p fl nxt ip : linked es p fl nxt → ip ∈ fl → is_Some (es !! ip).
Proof. revert p. induction fl as [|x fl IH]; intros p; simpl; [set_solver|]. intros [(e & ? & _) HL] [->|Hi]%elem_of_cons; [by exists e|by eapply IH]. Qed.

Record freelist es (h : option nat) (tl : option slot) fl : Prop := Freelist {
  fr_head : h = head fl;
  fr_tail ip : last fl = Some ip → tl = Some (Freef ip);
  fr_links : linked es Ifreeh fl None;
  fr_nodup : NoDup fl }.

(** Only the links are different. *)
Definition rehung es es' : Prop := ∀ ip, (λ e, (i_count e, i_id e, i_fs e)) <$> es' !! ip = (λ e, (i_count e, i_id e, i_fs e)) <$> es !! ip.
Lemma rehung_refl es : rehung es es.
Proof. done. Qed.
Lemma rehung_trans es1 es2 es3 : rehung es1 es2 → rehung es2 es3 → rehung es1 es3.
Proof. intros H1 H2 ip. by rewrite H2, H1. Qed.
Lemma rehung_insert es ip e e' : es !! ip = Some e → i_count e' = i_count e → i_id e' = i_id e → i_fs e' = i_fs e → rehung es (<[ip := e']> es).
Proof.
  intros He H1 H2 H3 jp. destruct (decide (jp = ip)) as [->|]; [|by rewrite list_lookup_insert_ne].
  rewrite list_lookup_insert_eq by (by eapply lookup_lt_Some). rewrite He. simpl. congruence.
Qed.
Lemma rehung_length es es' : rehung es es' → length es' = length es.
Proof.
  intros H. destruct (lt_eq_lt_dec (length es') (length es)) as [[Hlt|]|Hlt]; [|done|].
  - specialize (H (length es')). rewrite (lookup_ge_None_2 es') in H by done. apply lookup_lt_is_Some in Hlt as [e He]. by rewrite He in H.
  - specialize (H (length es)). rewrite (lookup_ge_None_2 es) in H by done. apply lookup_lt_is_Some in Hlt as [e He]. by rewrite He in H.
Qed.
Lemma rehung_count es es' ip e' : rehung es es' → es' !! ip = Some e' → ∃ e, es !! ip = Some e ∧ i_count e' = i_count e ∧ i_id e' = i_id e ∧ i_fs e' = i_fs e.
Proof. intros H He. specialize (H ip). rewrite He in H. destruct (es !! ip) as [e|]; [|done]. simpl in H. exists e. by simplify_eq. Qed.

Definition with_links (t : itable) es h tl : itable := t<|ients := es|><|ifreeh := h|><|ifreet := tl|>.

(** The links of an inode are cleared ([i_lastr] too). *)
Lemma wp_clear_links (t : itable) ip e z (Q : unit → itable → Prop) : ients t !! ip = Some e → inodes (ivol t) !! ip = Some z →
  Q tt (with_data (t<|ients := <[ip := e<|i_freef := None|><|i_freeb := None|>]> (ients t)|>) ip (z<|i_lastr := 0|>)) → wp (clear_links ip) Q t.
Proof.
  intros He Hz HQ. pose proof (lookup_lt_Some _ _ _ He). unfold clear_links. apply wp_bind. eapply wp_set_ent; [exact He|]. apply wp_bind. eapply wp_set_data; [exact Hz|].
  eapply wp_set_ent; [unfold with_data; fields; by apply list_lookup_insert_eq|]. unfold with_data in *. fields. rewrite list_insert_insert_eq. by destruct t.
Qed.

(** An inode is taken off the free list. *)
Lemma wp_iunfree (t : itable) l1 ip l2 z (Q : unit → itable → Prop) : freelist (ients t) (ifreeh t) (ifreet t) (l1 ++ ip :: l2) → inodes (ivol t) !! ip = Some z →
  (∀ es h tl, freelist es h tl (l1 ++ l2) → rehung (ients t) es → Q tt (with_data (with_links t es h tl) ip (z<|i_lastr := 0|>))) →
  wp (iunfree ip) Q t.
Proof.
  intros [F1 F2 F3 F4] Hz HQ. apply linked_app in F3 as [G1 G2]. simpl in G2. destruct G2 as [(e & He & Ef & Eb) G3]. simpl in G1. set (p := slot_after Ifreeh l1) in *.
  pose proof F4 as (N1 & N2 & [N3 N4]%NoDup_cons)%NoDup_app. assert (Hi1 : ip ∉ l1) by (intros ?; by apply (N2 ip); [|set_solver]).
  unfold iunfree. apply wp_bind. eapply wp_ent_at; [exact He|]. rewrite Ef, Eb.
  (* the one after it *)
  assert (HA : ∃ es1 tl1, linked es1 Ifreeh l1 (Some ip) ∧ linked es1 p l2 None ∧ rehung (ients t) es1 ∧ es1 !! ip = Some e ∧ (∀ jp, last (l1 ++ l2) = Some jp → tl1 = Some (Freef jp)) ∧
    ∀ (m : T unit), wp m Q (t<|ients := es1|><|ifreet := tl1|>) →
      wp (match first l2 None with Some iq => set_ent iq (λ x, x<|i_freeb := Some p|>) | None => modify (λ t, t<|ifreet := Some p|>) end;; m) Q t).
  { destruct l2 as [|iq l2]; simpl in *.
    - exists (ients t), (Some p). split_and!; [done|done|done|done| |].
      + rewrite app_nil_r. unfold p, slot_after. by intros jp ->.
      + intros m Hm. apply wp_bind, wp_modify. by destruct t.
    - pose proof G3 as [(eq & Hq & G4 & G5) G6]. apply NoDup_cons in N4 as [N4 N5]. assert (iq ≠ ip) by set_solver.
      exists (<[iq := eq<|i_freeb := Some p|>]> (ients t)), (ifreet t). refine (conj _ (conj _ (conj _ (conj _ (conj _ _))))).
      + eapply linked_frame; [|exact G1]. intros jp e' Hj Hje. exists e'. rewrite list_lookup_insert_ne; [done|]. intros ->. apply (N2 jp Hj). set_solver.
      + by apply (linked_start _ (Freef ip)).
      + by eapply rehung_insert.
      + by rewrite list_lookup_insert_ne.
      + intros jp Hj. apply F2. rewrite <- Hj. rewrite !last_app, !last_cons. by destruct (last l2).
      + intros m Hm. apply wp_bind. eapply wp_set_ent; [exact Hq|]. by destruct t. }
  destruct HA as (es1 & tl1 & A1 & A2 & A3 & A4 & A5 & HA). apply HA. set (t1 := t<|ients := es1|><|ifreet := tl1|>).
  (* the one before it *)
  assert (HB : ∃ es2 h2, linked es2 Ifreeh l1 (first l2 None) ∧ linked es2 p l2 None ∧ rehung (ients t) es2 ∧ es2 !! ip = Some e ∧ h2 = head (l1 ++ l2) ∧
    ∀ (m : T unit), wp m Q (t<|ients := es2|><|ifreeh := h2|><|ifreet := tl1|>) → wp (store_slot (Some p) (first l2 None);; m) Q t1).
  { destruct l1 as [|x l1' _] using rev_ind; simpl in *.
    - exists es1, (first l2 None). split_and!; [done|done|done|done|by destruct l2|]. intros m Hm. apply wp_bind, wp_modify. unfold t1. by destruct t.
    - assert (Ep : p = Freef x) by (unfold p, slot_after; by rewrite last_snoc). clearbody p. subst p.
      pose proof A1 as A1'. apply linked_app in A1' as [_ A1']. simpl in A1'. destruct A1' as [(ex & Hx & _) _].
      assert (x ≠ ip) by set_solver. exists (<[x := ex<|i_freef := first l2 None|>]> es1), (ifreeh t). refine (conj _ (conj _ (conj _ (conj _ (conj _ _))))).
      + by eapply linked_end.
      + eapply linked_frame; [|exact A2]. intros jp e' Hj Hje. exists e'. rewrite list_lookup_insert_ne; [done|]. intros ->. apply (N2 jp); set_solver.
      + eapply rehung_trans; [exact A3|]. by eapply rehung_insert.
      + by rewrite list_lookup_insert_ne.
      + rewrite F1. rewrite <- !app_assoc. by destruct l1'.
      + intros m Hm. apply wp_bind. simpl. eapply wp_set_ent; [exact Hx|]. unfold t1. fields. by destruct t. }
  destruct HB as (es2 & h2 & B1 & B2 & B3 & B4 & B5 & HB). apply HB.
  eapply wp_clear_links; [exact B4|exact Hz|]. fields.
  pose proof (HQ (<[ip := e<|i_freef := None|><|i_freeb := None|>]> es2) h2 tl1) as HQ'. unfold with_links in HQ'.
  match goal with |- Q tt ?s => match type of HQ' with _ → _ → Q tt ?s' => replace s with s' by (by destruct t) end end. apply HQ'.
  - assert (HF : ∀ l p' nxt, ip ∉ l → linked es2 p' l nxt → linked (<[ip := e<|i_freef := None|><|i_freeb := None|>]> es2) p' l nxt).
    { intros l p' nxt Hn. apply linked_frame. intros jp e' Hj Hje. exists e'. rewrite list_lookup_insert_ne; [done|]. by intros ->. }
    split; [done|done| |].
    + apply linked_app. split; by apply HF.
    + apply NoDup_app. split_and!; [done| |done]. intros x Hx Hx2. apply (N2 x Hx). set_solver.
  - eapply rehung_trans; [exact B3|]. by eapply rehung_insert.
Qed.

(** The first one is taken off. *)
Lemma wp_idequeue (t : itable) ip l2 z (Q : unit → itable → Prop) (m : T unit) : freelist (ients t) (ifreeh t) (ifreet t) (ip :: l2) → inodes (ivol t) !! ip = Some z →
  (∀ es h, freelist es h (ifreet t) l2 → rehung (ients t) es → wp m Q (with_data (with_links t es h (ifreet t)) ip (z<|i_lastr := 0|>))) →
  wp (e ← ent_at ip;
      match i_freef e with Some iq => set_ent iq (λ x, x<|i_freeb := Some Ifreeh|>) | None => mret tt end;;
      modify (λ t, t<|ifreeh := i_freef e|>);;
      clear_links ip;; m) Q t.
Proof.
  intros [F1 F2 F3 F4] Hz HQ. simpl in F3. destruct F3 as [(e & He & Ef & Eb) G3]. apply NoDup_cons in F4 as [N3 N4].
  apply wp_bind. eapply wp_ent_at; [exact He|]. rewrite Ef.
  assert (HA : ∃ es1, linked es1 Ifreeh l2 None ∧ rehung (ients t) es1 ∧ es1 !! ip = Some e ∧
    ∀ (m : T unit), wp m Q (t<|ients := es1|>) →
      wp (match first l2 None with Some iq => set_ent iq (λ x, x<|i_freeb := Some Ifreeh|>) | None => mret tt end;; m) Q t).
  { destruct l2 as [|iq l2]; simpl in *.
    - exists (ients t). split_and!; [done|done|done|]. intros m' Hm. apply wp_bind, wp_ret. by destruct t.
    - pose proof G3 as [(eq & Hq & G4 & G5) G6]. apply NoDup_cons in N4 as [N4 N5]. assert (iq ≠ ip) by set_solver.
      exists (<[iq := eq<|i_freeb := Some Ifreeh|>]> (ients t)). refine (conj _ (conj _ (conj _ _))).
      + by apply (linked_start _ (Freef ip)).
      + by eapply rehung_insert.
      + by rewrite list_lookup_insert_ne.
      + intros m' Hm. apply wp_bind. eapply wp_set_ent; [exact Hq|]. done. }
  destruct HA as (es1 & A1 & A2 & A3 & HA). apply HA. apply wp_bind, wp_modify, wp_bind. fields. eapply wp_clear_links; [exact A3|exact Hz|]. fields.
  pose proof (HQ (<[ip := e<|i_freef := None|><|i_freeb := None|>]> es1) (first l2 None)) as HQ'. unfold with_links in HQ'.
  match goal with |- wp m Q ?s => match type of HQ' with _ → _ → wp m Q ?s' => replace s with s' by (by destruct t) end end. apply HQ'.
  - split; [by destruct l2| | |done].
    + intros jp Hj. apply F2. by rewrite last_cons, Hj.
    + eapply linked_frame; [|exact A1]. intros jp e' Hj Hje. exists e'. rewrite list_lookup_insert_ne; [done|]. by intros ->.
  - eapply rehung_trans; [exact A2|]. by eapply rehung_insert.
Qed.

(** One is put at the end. *)
Lemma wp_ienqueue (t : itable) fl ip e z (Q : unit → itable → Prop) : freelist (ients t) (ifreeh t) (ifreet t) fl → ip ∉ fl → ients t !! ip = Some e →
  inodes (ivol t) !! ip = Some z →
  (∀ es h tl, freelist es h tl (fl ++ [ip]) → rehung (ients t) es → Q tt (with_data (with_links t es h tl) ip (z<|i_lastr := 0|>))) →
  wp (ienqueue ip) Q t.
Proof.
  intros [F1 F2 F3 F4] Hn He Hz HQ. unfold ienqueue. apply wp_bind, wp_gets. pose proof (lookup_lt_Some _ _ _ He) as Hlt.
  assert (Hnd : NoDup (fl ++ [ip])) by (apply NoDup_app; split_and!; [done|set_solver|apply NoDup_singleton]).
  set (p := slot_after Ifreeh fl).
  (* the links of the others and the one back *)
  assert (HA : ∃ es1 h1, linked es1 Ifreeh fl (Some ip) ∧ rehung (ients t) es1 ∧ es1 !! ip = Some (e<|i_freeb := Some p|>) ∧ h1 = head (fl ++ [ip]) ∧
    ∀ (m : T unit), wp m Q (t<|ients := es1|><|ifreeh := h1|>) →
      wp (match ifreeh t with
          | Some _ => t ← gets ifreet; store_slot t (Some ip);; set_ent ip (λ e, e<|i_freeb := t|>)
          | None => modify (λ t, t<|ifreeh := Some ip|>);; set_ent ip (λ e, e<|i_freeb := Some Ifreeh|>)
          end;; m) Q t).
  { destruct fl as [|x fl' _] using rev_ind.
    - exists (<[ip := e<|i_freeb := Some p|>]> (ients t)), (Some ip). split_and!; [done|by eapply rehung_insert|by apply list_lookup_insert_eq|done|].
      intros m Hm. rewrite F1. simpl. apply wp_bind, wp_bind, wp_modify. eapply wp_set_ent; [exact He|]. fields. by destruct t.
    - assert (Ep : p = Freef x) by (unfold p, slot_after; by rewrite last_snoc). clearbody p. subst p.
      pose proof F3 as F3'. apply linked_app in F3' as [_ F3']. simpl in F3'. destruct F3' as [(ex & Hx & _) _]. assert (Hxi : x ≠ ip) by set_solver.
      set (es0 := <[x := ex<|i_freef := Some ip|>]> (ients t)).
      assert (He0 : es0 !! ip = Some e) by (unfold es0; by rewrite list_lookup_insert_ne).
      assert (R0 : rehung (ients t) es0) by (by eapply rehung_insert).
      exists (<[ip := e<|i_freeb := Some (Freef x)|>]> es0), (ifreeh t). refine (conj _ (conj _ (conj _ (conj _ _)))).
      + eapply linked_frame; [|by eapply (linked_end (ients t) _ fl' None (Some ip))]. intros jp e' Hj Hje. exists e'. rewrite list_lookup_insert_ne; [done|]. by intros ->.
      + eapply rehung_trans; [exact R0|]. by eapply rehung_insert.
      + apply list_lookup_insert_eq. by rewrite (rehung_length _ _ R0).
      + rewrite F1. by destruct fl'.
      + intros m Hm. assert (Eh : ∃ h, ifreeh t = Some h) by (rewrite F1; destruct fl'; simpl; eauto). destruct Eh as [h Eh]. rewrite Eh.
        apply wp_bind, wp_bind, wp_gets. rewrite (F2 x) by (apply last_snoc). apply wp_bind. simpl. eapply wp_set_ent; [exact Hx|].
        eapply wp_set_ent; [exact He0|]. fields. fold es0. clear -Hm. by destruct t. }
  destruct HA as (es1 & h1 & A1 & A2 & A3 & A4 & HA). apply HA.
  apply wp_bind. eapply wp_set_ent; [exact A3|]. apply wp_bind. eapply wp_set_data; [exact Hz|]. apply wp_modify. unfold with_data. fields.
  pose proof (HQ (<[ip := e<|i_freeb := Some p|><|i_freef := None|>]> es1) h1 (Some (Freef ip))) as HQ'. unfold with_links, with_data in HQ'.
  match goal with |- Q tt ?s => match type of HQ' with _ → _ → Q tt ?s' => replace s with s' by (by destruct t) end end. apply HQ'.
  - split; [done| | |done].
    + intros jp. rewrite last_snoc. congruence.
    + apply linked_app. split.
      * eapply linked_frame; [|exact A1]. intros jp e' Hj Hje. exists e'. rewrite list_lookup_insert_ne; [done|]. by intros ->.
      * simpl. split; [|done]. eexists. split; [apply list_lookup_insert_eq; by rewrite (rehung_length _ _ A2)|done].
  - eapply rehung_trans; [exact A2|]. by eapply rehung_insert.
Qed.
End Free.

(** ** The table *)
Section Table.
Implicit Types (t : itable) (hl : nat → list nat) (fl : list nat) (ip : nat).

(** [hl]: the hash chains; [fl]: the free list, the oldest first.  Every inode
    that is found by name is on the chain of its name, and no name is there
    twice; the free ones are those that nobody refers to. *)
Record table t hl fl : Prop := Table {
  tb_ents : length (ients t) = NINODE;
  tb_data : length (inodes (ivol t)) = NINODE;
  tb_chains : chains None (i_forw t) (i_back t) hl;
  tb_hash d ip z : d ∈ heads → ip ∈ hl d → inodes (ivol t) !! ip = Some z → INOHASH (i_dev z) (i_number z) = d;
  tb_unique ip jp z y : hashed hl ip → hashed hl jp → inodes (ivol t) !! ip = Some z → inodes (ivol t) !! jp = Some y →
    i_dev z = i_dev y → i_number z = i_number y → ip = jp;
  tb_free : freelist (ients t) (ifreeh t) (ifreet t) fl;
  tb_count ip e : ients t !! ip = Some e → 0 ≤ i_count e < 2^32 ∧ (i_count e = 0 ↔ ip ∈ fl) }.

Definition names t hl ip dev ino : Prop := hashed hl ip ∧ ∃ z, inodes (ivol t) !! ip = Some z ∧ i_dev z = dev ∧ i_number z = ino.

Lemma hashed_lt t hl fl ip : table t hl fl → hashed hl ip → (ip < NINODE)%nat.
Proof. intros Ht (d & Hd & Hx). exact (rg_member _ _ _ _ _ (ch_rings _ _ _ _ (tb_chains _ _ _ Ht)) d ip Hd Hx). Qed.
Lemma table_data t hl fl ip : table t hl fl → (ip < NINODE)%nat → ∃ z, inodes (ivol t) !! ip = Some z.
Proof. intros Ht Hip. apply lookup_lt_is_Some. by rewrite (tb_data _ _ _ Ht). Qed.
Lemma table_ent t hl fl ip : table t hl fl → (ip < NINODE)%nat → ∃ e, ients t !! ip = Some e.
Proof. intros Ht Hip. apply lookup_lt_is_Some. by rewrite (tb_ents _ _ _ Ht). Qed.
Lemma free_lt t hl fl ip : table t hl fl → ip ∈ fl → (ip < NINODE)%nat.
Proof.
  intros Ht Hip. destruct (linked_lookup _ _ _ _ _ (fr_links _ _ _ _ (tb_free _ _ _ Ht)) Hip) as [e He]. rewrite <- (tb_ents _ _ _ Ht). by eapply lookup_lt_Some.
Qed.

(** A search visits the chain of the name. *)
Lemma names_chain t hl fl ip dev ino : table t hl fl → names t hl ip dev ino → ip ∈ hl (INOHASH dev ino).
Proof. intros Ht ((d & Hd & Hx) & z & Hz & <- & <-). by rewrite (tb_hash _ _ _ Ht d ip z Hd Hx Hz). Qed.
Lemma wp_ifind_loop t hl fl dev ino (Q : option nat → itable → Prop) : table t hl fl → let d := INOHASH dev ino in
  (∀ r, match r with Some ip => names t hl ip dev ino | None => ∀ ip, ¬ names t hl ip dev ino end → Q r t) →
  ∀ rest done_ n, hl d = done_ ++ rest → (∀ ip, ip ∈ done_ → ¬ names t hl ip dev ino) → (length rest ≤ n)%nat →
  wp (ifind_loop n d (succ d rest) dev ino) Q t.
Proof.
  intros Ht d HQ. assert (Hd : d ∈ heads) by apply INOHASH_head. pose proof (ch_rings _ _ _ _ (tb_chains _ _ _ Ht)) as R.
  induction rest as [|ip rest IH]; intros done_ n El Hdone Hn; simpl succ.
  - assert (HQ' : Q None t).
    { apply HQ. intros ip Hnm. pose proof (names_chain _ _ _ _ _ _ Ht Hnm) as Hx. fold d in Hx. rewrite El, app_nil_r in Hx. by apply (Hdone ip). }
    destruct n; simpl; rewrite Nat.eqb_refl; by apply wp_ret.
  - assert (Hx : ip ∈ hl d) by (rewrite El; set_solver). pose proof (rg_member _ _ _ _ _ R d ip Hd Hx) as Hip.
    destruct n as [|n]; [simpl in Hn; lia|]. cbn [ifind_loop]. pose proof (head_ge d Hd). rewrite (proj2 (Nat.eqb_neq ip d)) by lia.
    destruct (table_data _ _ _ _ Ht Hip) as [z Hz]. apply wp_bind. eapply wp_data_at; [exact Hz|].
    destruct (Z.eqb_spec ino (i_number z)) as [E1|E1], (Z.eqb_spec dev (i_dev z)) as [E2|E2]; cbn [andb].
    1: { apply wp_ret, HQ. split; [by exists d|eauto]. }
    all: assert (Hno : ¬ names t hl ip dev ino) by (intros (_ & z' & Hz' & G1 & G2); congruence); apply wp_bind; pose proof (rg_fw _ _ _ _ _ R d Hd) as Hr;
      rewrite El in Hr; apply ring_next in Hr; eapply wp_get_forw; [exact Hr|]; apply (IH (done_ ++ [ip]) n);
      [by rewrite El, <- app_assoc|intros jp [Hj|Hj]%elem_of_app; [by apply Hdone|by apply list_elem_of_singleton in Hj as ->]|simpl in Hn; lia].
Qed.
Lemma chain_length t hl fl d : table t hl fl → d ∈ heads → (length (hl d) ≤ NINODE)%nat.
Proof.
  intros Ht Hd. pose proof (ch_rings _ _ _ _ (tb_chains _ _ _ Ht)) as R. replace NINODE with (length (seq 0 NINODE)) by done. apply submseteq_length, NoDup_submseteq; [by eapply rg_nodup|].
  intros x Hx%(rg_member _ _ _ _ _ R d x Hd). apply elem_of_seq. lia.
Qed.
Lemma wp_ifind t hl fl dev ino (Q : option nat → itable → Prop) : table t hl fl →
  (∀ r, match r with Some ip => names t hl ip dev ino | None => ∀ ip, ¬ names t hl ip dev ino end → Q r t) → wp (ifind dev ino) Q t.
Proof.
  intros Ht HQ. unfold ifind. set (d := INOHASH dev ino). assert (Hd : d ∈ heads) by apply INOHASH_head.
  apply wp_bind. eapply wp_get_forw; [by apply (rings_head NINODE heads _ _ _ d (ch_rings _ _ _ _ (tb_chains _ _ _ Ht)))|].
  apply (wp_ifind_loop t hl fl dev ino Q Ht HQ (hl d) []); [done|set_solver|by eapply chain_length].
Qed.

(** A change of the inodes that keeps their names, and of the references. *)
Definition same_names (ns ns' : list inode) : Prop := ∀ jp, (λ z, (i_dev z, i_number z)) <$> ns' !! jp = (λ z, (i_dev z, i_number z)) <$> ns !! jp.
Lemma same_names_refl ns : same_names ns ns.
Proof. done. Qed.
Lemma same_names_insert ns ip z z' : ns !! ip = Some z → i_dev z' = i_dev z → i_number z' = i_number z → same_names ns (<[ip := z']> ns).
Proof.
  intros Hz E1 E2 jp. destruct (decide (jp = ip)) as [->|]; [|by rewrite list_lookup_insert_ne].
  rewrite list_lookup_insert_eq by (by eapply lookup_lt_Some). rewrite Hz. simpl. congruence.
Qed.
Lemma same_names_at ns ns' jp y' : same_names ns ns' → ns' !! jp = Some y' → ∃ y, ns !! jp = Some y ∧ i_dev y' = i_dev y ∧ i_number y' = i_number y.
Proof. intros H Hy. specialize (H jp). rewrite Hy in H. destruct (ns !! jp) as [y|]; [|done]. simpl in H. exists y. by simplify_eq. Qed.
Lemma same_names_length ns ns' : same_names ns ns' → length ns' = length ns.
Proof.
  intros HS. destruct (lt_eq_lt_dec (length ns') (length ns)) as [[Hlt|]|Hlt]; [|done|].
  - specialize (HS (length ns')). rewrite (lookup_ge_None_2 ns') in HS by done. apply lookup_lt_is_Some in Hlt as [e He]. by rewrite He in HS.
  - specialize (HS (length ns)). rewrite (lookup_ge_None_2 ns) in HS by done. apply lookup_lt_is_Some in Hlt as [e He]. by rewrite He in HS.
Qed.
Lemma table_make t t' hl fl fl' : table t hl fl → i_forw t' = i_forw t → i_back t' = i_back t → same_names (inodes (ivol t)) (inodes (ivol t')) →
  length (ients t') = NINODE → freelist (ients t') (ifreeh t') (ifreet t') fl' →
  (∀ ip e, ients t' !! ip = Some e → 0 ≤ i_count e < 2^32 ∧ (i_count e = 0 ↔ ip ∈ fl')) → table t' hl fl'.
Proof.
  intros [T1 T2 T3 T4 T5 T6 T7] E1 E2 HN H1 H2 H3. split; try done.
  - by rewrite (same_names_length _ _ HN).
  - by rewrite E1, E2.
  - intros d jp y' Hd Hx Hy. destruct (same_names_at _ _ _ _ HN Hy) as (y & Hy' & -> & ->). by eapply T4.
  - intros ip1 ip2 y1 y2 G1 G2 G3 G4. destruct (same_names_at _ _ _ _ HN G3) as (w1 & W1 & -> & ->), (same_names_at _ _ _ _ HN G4) as (w2 & W2 & -> & ->). by eapply T5.
Qed.

(** The number of references to an inode, and its file system. *)
Definition refs t ip : option (Z * option nat) := (λ e, (i_count e, i_fs e)) <$> ients t !! ip.
Lemma refs_rehung t (es : list ient) jp : rehung (ients t) es → (λ e, (i_count e, i_fs e)) <$> es !! jp = refs t jp.
Proof. intros HR. specialize (HR jp). unfold refs. destruct (es !! jp), (ients t !! jp); simpl in *; congruence. Qed.
Lemma irefs_insert (es : list ient) jp ip e : (ip < length es)%nat →
  (λ e, (i_count e, i_fs e)) <$> <[ip := e]> es !! jp = if decide (jp = ip) then Some (i_count e, i_fs e) else (λ e, (i_count e, i_fs e)) <$> es !! jp.
Proof. intros Hlt. destruct (decide (jp = ip)) as [->|]; [by rewrite list_lookup_insert_eq|by rewrite list_lookup_insert_ne]. Qed.
Lemma refs_counts t hl fl (es : list ient) fl' : table t hl fl → (∀ ip c f, (λ e, (i_count e, i_fs e)) <$> es !! ip = Some (c, f) → 0 ≤ c < 2^32 ∧ (c = 0 ↔ ip ∈ fl')) →
  ∀ ip e, es !! ip = Some e → 0 ≤ i_count e < 2^32 ∧ (i_count e = 0 ↔ ip ∈ fl').
Proof. intros Ht HC ip e He. apply (HC ip _ (i_fs e)). by rewrite He. Qed.
Lemma table_refs t hl fl ip c f : table t hl fl → refs t ip = Some (c, f) → 0 ≤ c < 2^32 ∧ (c = 0 ↔ ip ∈ fl).
Proof. unfold refs. intros Ht Hr. destruct (ients t !! ip) as [e|] eqn:He; [|done]. simpl in Hr. simplify_eq. by apply (tb_count _ _ _ Ht). Qed.

Definition others fl ip : list nat := filter (λ jp, jp ≠ ip) fl.

(** One more reference to an inode that was found. *)
Lemma wp_itake t hl fl ip z c f (Q : unit → itable → Prop) : table t hl fl → inodes (ivol t) !! ip = Some z → refs t ip = Some (c, f) → c < 2^32 - 1 →
  (∀ t' z', table t' hl (others fl ip) → ivol t' = setz ip (ivol t) z' → alike z z' → i_flag z' = Z.lor (i_flag z) ILOCKED →
     mounts t' = mounts t → (∀ jp, refs t' jp = if decide (jp = ip) then Some (c + 1, f) else refs t jp) → Q tt t') →
  wp (itake ip) Q t.
Proof.
  intros Ht Hz Hr Hc HQ. pose proof (table_refs _ _ _ _ _ _ Ht Hr) as [Hc0 Hcf]. unfold itake. unfold refs in Hr. destruct (ients t !! ip) as [e|] eqn:He; [|done]. simpl in Hr.
  injection Hr as E1 E2. apply wp_bind. eapply wp_ent_at; [exact He|]. rewrite E1. pose proof (lookup_lt_Some _ _ _ He) as Hlt. pose proof (lookup_lt_Some _ _ _ Hz) as Hltz.
  (* off the free list *)
  assert (HA : ∃ es h tl z1, freelist es h tl (others fl ip) ∧ rehung (ients t) es ∧ alike z z1 ∧ i_flag z1 = i_flag z ∧
    ∀ m : T unit, wp m Q (with_data (with_links t es h tl) ip z1) → wp ((if c =? 0 then iunfree ip else mret tt);; m) Q t).
  { destruct (Z.eqb_spec c 0) as [->|Hc1].
    - pose proof (proj1 Hcf eq_refl) as Hin. apply list_elem_of_split in Hin as (l1 & l2 & Ef). pose proof (tb_free _ _ _ Ht) as HF. rewrite Ef in HF.
      assert (Eo : others fl ip = l1 ++ l2).
      { pose proof (fr_nodup _ _ _ _ HF) as (N1 & N2 & [N3 _]%NoDup_cons)%NoDup_app. unfold others. rewrite Ef, list.filter_app, filter_cons_False by tauto.
        rewrite !filter_absent; [done|done|]. intros ?. by apply (N2 ip); [|set_solver]. }
      assert (HX : wp (iunfree ip) (λ _ t', ∃ es h tl, freelist es h tl (l1 ++ l2) ∧ rehung (ients t) es ∧ t' = with_data (with_links t es h tl) ip (z<|i_lastr := 0|>)) t).
      { eapply wp_iunfree; [exact HF|exact Hz|]. intros es h tl G1 G2. eauto 10. }
      apply wp_run in HX as (? & t' & HX & es & h & tl & G1 & G2 & ->). exists es, h, tl, (z<|i_lastr := 0|>). rewrite Eo. split_and!; try done.
      intros m Hm. apply wp_bind. apply wp_run; eauto.
    - assert (Eo : others fl ip = fl) by (apply filter_absent; tauto). exists (ients t), (ifreeh t), (ifreet t), z. rewrite Eo. split_and!; try done; [apply Ht|].
      intros m Hm. apply wp_bind, wp_ret. assert (Et : with_data (with_links t (ients t) (ifreeh t) (ifreet t)) ip z = t).
      { unfold with_data, with_links. destruct t, ivol. unfold field_map. simpl in *. by rewrite list_insert_id. }
      by rewrite Et in Hm. }
  destruct HA as (es & h & tl & z1 & A1 & A2 & A3 & A4 & HA). apply HA. pose proof (rehung_length _ _ A2) as Le.
  destruct (lookup_lt_is_Some_2 es ip) as [e1 He1]; [lia|]. destruct (rehung_count _ _ _ _ A2 He1) as (e0 & He0 & C1 & C2 & C3). assert (e0 = e) as -> by congruence.
  apply wp_bind. eapply wp_set_ent; [exact He1|]. unfold flag_or. eapply wp_set_data; [unfold with_data, with_links; fields; by apply list_lookup_insert_eq|].
  set (z2 := z1<|i_flag ::= _|>). match goal with |- Q tt ?s => set (t' := s) end.
  assert (ER : ∀ jp, refs t' jp = if decide (jp = ip) then Some (c + 1, f) else refs t jp).
  { intros jp. unfold refs at 1, t', with_data, with_links. fields. rewrite irefs_insert by lia. fields. rewrite C1, C3, E1, E2, u32_id by lia.
    by rewrite (refs_rehung t es jp A2). }
  assert (EV : ivol t' = setz ip (ivol t) z2) by (unfold t', setz, with_data, with_links; fields; by rewrite list_insert_insert_eq).
  assert (A5 : alike z z2).
  { eapply alike_trans; [exact A3|]. unfold alike, z2. fields. split_and!; try done. rewrite has_lor. apply orb_false_r. }
  apply (HQ t' z2); [|done|done|by unfold z2; fields; rewrite A4|done|exact ER].
  apply (table_make t t' hl fl); [done|done|done| | | |].
  - rewrite EV. unfold setz. fields. eapply same_names_insert; [exact Hz|apply A5..].
  - unfold t', with_data, with_links. fields. rewrite length_insert, Le. apply Ht.
  - unfold t', with_data, with_links. fields. destruct A1 as [F1 F2 F3 F4]. split; [done|done| |done].
    eapply linked_frame; [|exact F3]. intros jp e' Hj Hje. exists e'. rewrite list_lookup_insert_ne; [done|]. intros ->. by apply list_elem_of_filter in Hj as [? _].
  - eapply refs_counts; [exact Ht|]. intros jp c' f' Hc'. change (refs t' jp = Some (c', f')) in Hc'. rewrite ER in Hc'. unfold others. rewrite list_elem_of_filter.
    destruct (decide (jp = ip)) as [->|]; [simplify_eq; split; [lia|]; split; [lia|tauto]|]. destruct (table_refs _ _ _ _ _ _ Ht Hc'). split; [done|]. tauto.
Qed.

(** The first free inode is given another name. *)
Definition rehashed hl ip d : nat → list nat := <[d := ip :: unhashed hl ip d]> (unhashed hl ip).
Lemma hashed_rehashed hl ip d jp : d ∈ heads → hashed (rehashed hl ip d) jp ↔ jp = ip ∨ hashed hl jp.
Proof.
  intros Hd. pose proof (hashed_unhashed hl ip jp) as HU. unfold rehashed. split.
  - intros (e & He & Hx). destruct (decide (e = d)) as [->|Hne].
    + rewrite fn_lookup_insert in Hx. apply elem_of_cons in Hx as [->|Hx]; [by left|]. right. apply HU. by exists d.
    + rewrite fn_lookup_insert_ne in Hx by done. right. apply HU. by exists e.
  - intros [->|Hh]; [exists d; rewrite fn_lookup_insert; split; [done|set_solver]|]. destruct (decide (jp = ip)) as [->|Hne]; [exists d; rewrite fn_lookup_insert; split; [done|set_solver]|].
    destruct (proj2 HU (conj Hh Hne)) as (e & He & Hx). exists e. split; [done|]. destruct (decide (e = d)) as [->|]; [rewrite fn_lookup_insert; set_solver|by rewrite fn_lookup_insert_ne].
Qed.
Lemma rehashed_at hl ip d e jp : jp ≠ ip → jp ∈ rehashed hl ip d e → jp ∈ hl e.
Proof.
  intros Hne. unfold rehashed, unhashed. destruct (decide (e = d)) as [->|]; [rewrite fn_lookup_insert, elem_of_cons|rewrite fn_lookup_insert_ne by done]; rewrite list_elem_of_filter; tauto.
Qed.
End Table.

(** The name cache is not part of the state. *)
Class NamesOnly `{TableOps} : Prop := names_only t : cinvalall t = Done (tt, t).

Section Assign.
Context `{NamesOnly}.
Implicit Types (t : itable) (hl : nat → list nat) (fl : list nat) (ip : nat).

Lemma wp_cacheinval t ip e (Q : unit → itable → Prop) : ients t !! ip = Some e →
  (∀ i, Q tt (t<|nextinodeid := i|><|ients := <[ip := e<|i_id := i|>]> (ients t)|>)) → wp (cacheinval ip) Q t.
Proof.
  intros He HQ. unfold cacheinval. apply wp_bind, wp_modify, wp_bind, wp_gets. fields. set (i := u32 _). apply wp_bind. eapply wp_set_ent; [exact He|]. fields.
  match goal with |- wp _ _ ?s => assert (HQ' : Q tt s) by (exact (HQ i)) end. destruct (i =? 0); [|by apply wp_ret]. unfold wp. by rewrite names_only.
Qed.

Definition assigned (z : inode) dev ino : inode := z<|i_lastr := 0|><|i_dev := dev|><|i_number := ino|><|i_flag := ILOCKED|>.
Lemma wp_iassign t hl ip l2 z dev fs ino (Q : unit → itable → Prop) : table t hl (ip :: l2) → inodes (ivol t) !! ip = Some z → (∀ jp, ¬ names t hl jp dev ino) →
  (∀ t', table t' (rehashed hl ip (INOHASH dev ino)) l2 → ivol t' = setz ip (ivol t) (assigned z dev ino) → mounts t' = mounts t →
     (∀ jp, refs t' jp = if decide (jp = ip) then Some (1, Some fs) else refs t jp) → Q tt t') →
  wp (iassign dev fs ino ip) Q t.
Proof.
  intros Ht Hz Hno HQ. pose proof (lookup_lt_Some _ _ _ Hz) as Hltz. assert (Hip : (ip < NINODE)%nat) by (rewrite <- (tb_data _ _ _ Ht); done).
  pose proof (fr_nodup _ _ _ _ (tb_free _ _ _ Ht)) as [Hnl _]%NoDup_cons. set (d := INOHASH dev ino). assert (Hd : d ∈ heads) by apply INOHASH_head.
  unfold iassign. eapply (wp_idequeue t ip l2 z); [apply Ht|exact Hz|]. intros es h HF HR. set (t1 := with_data _ ip _).
  assert (Le : length es = NINODE) by (rewrite (rehung_length _ _ HR); apply Ht).
  apply wp_bind. eapply (wp_remque t1 hl); [apply Ht|done|]. intros fw1 bk1 C1. apply wp_bind.
  eapply (wp_insque (t1<|i_forw := fw1|><|i_back := bk1|>) (unhashed hl ip) ip d); [exact C1|done|rewrite hashed_unhashed; tauto|done|]. intros fw bk C2. fields.
  change (chains None fw bk (rehashed hl ip d)) in C2.
  destruct (lookup_lt_is_Some_2 es ip) as [e He]; [lia|].
  apply wp_bind. eapply wp_set_data; [unfold t1, with_data, with_links; fields; by apply list_lookup_insert_eq|]. apply wp_bind. eapply wp_set_ent; [exact He|].
  apply wp_bind. eapply wp_set_data; [unfold t1, with_data, with_links; fields; apply list_lookup_insert_eq; by rewrite ?length_insert|].
  apply wp_bind. eapply wp_cacheinval; [unfold t1, with_data, with_links; fields; apply list_lookup_insert_eq; lia|]. intros i.
  apply wp_bind. eapply wp_set_data; [unfold t1, with_data, with_links; fields; apply list_lookup_insert_eq; by rewrite ?length_insert|].
  apply wp_bind. eapply wp_set_ent; [unfold t1, with_data, with_links; fields; apply list_lookup_insert_eq; rewrite ?length_insert; lia|].
  eapply wp_set_data; [unfold t1, with_data, with_links; fields; apply list_lookup_insert_eq; by rewrite ?length_insert|].
  match goal with |- Q tt ?s => set (t' := s) end.
  destruct (rehung_count _ _ _ _ HR He) as (e0 & He0 & K1 & K2 & K3). pose proof (tb_count _ _ _ Ht ip e0 He0) as [_ Hc0].
  assert (ER : ∀ jp, refs t' jp = if decide (jp = ip) then Some (1, Some fs) else refs t jp).
  { intros jp. unfold refs at 1, t', t1, with_data, with_links. fields. rewrite !list_insert_insert_eq, irefs_insert by lia. fields. rewrite K1, (proj2 Hc0) by set_solver.
    by rewrite (refs_rehung t es jp HR). }
  assert (EV : ivol t' = setz ip (ivol t) (assigned z dev ino)) by (unfold t', t1, setz, with_data, with_links; fields; by rewrite !list_insert_insert_eq).
  assert (HD : ∀ jp y, inodes (ivol t') !! jp = Some y → (jp = ip ∧ y = assigned z dev ino) ∨ (jp ≠ ip ∧ inodes (ivol t) !! jp = Some y)).
  { intros jp y. rewrite EV. unfold setz. fields. destruct (decide (jp = ip)) as [->|]; [rewrite list_lookup_insert_eq by done; naive_solver|rewrite list_lookup_insert_ne by done; naive_solver]. }
  apply (HQ t'); [|done|done|exact ER]. split.
  - unfold t', t1, with_data, with_links. fields. by rewrite !length_insert.
  - rewrite EV. unfold setz. fields. rewrite length_insert. apply Ht.
  - exact C2.
  - intros b jp y Hb Hx Hy. destruct (HD jp y Hy) as [[-> ->]|[Hne Hy']].
    + change (d = b). by apply (rg_disj _ _ _ _ _ (ch_rings _ _ _ _ C2) d b ip Hd Hb); [unfold rehashed; rewrite fn_lookup_insert; set_solver|].
    + apply (tb_hash _ _ _ Ht b jp y Hb); [|done]. by eapply rehashed_at.
  - intros i1 i2 y1 y2 H1 H2 G1 G2 E1 E2. apply hashed_rehashed in H1, H2; [|done..]. destruct (HD _ _ G1) as [[-> ->]|[N1 G1']], (HD _ _ G2) as [[-> ->]|[N2 G2']]; [done| | |].
    + exfalso. apply (Hno i2). split; [by destruct H2|]. exists y2. split; [done|]. split; [by symmetry|by symmetry].
    + exfalso. apply (Hno i1). split; [by destruct H1|]. exists y1. done.
    + apply (tb_unique _ _ _ Ht i1 i2 y1 y2); try done; tauto.
  - unfold t', t1, with_data, with_links. fields. rewrite !list_insert_insert_eq. destruct HF as [F1 F2 F3 F4]. split; [done|done| |done].
    eapply linked_frame; [|exact F3]. intros jp e' Hj Hje. exists e'. rewrite list_lookup_insert_ne; [done|]. by intros ->.
  - eapply refs_counts; [exact Ht|]. intros jp c' f' Hc'. change (refs t' jp = Some (c', f')) in Hc'. rewrite ER in Hc'.
    destruct (decide (jp = ip)) as [->|]; [simplify_eq; split; [lia|]; split; [lia|tauto]|]. destruct (table_refs _ _ _ _ _ _ Ht Hc') as [X1 X2]. split; [done|]. rewrite X2. set_solver.
Qed.
End Assign.

(** ** The inodes on the disk *)
Section Disk.
Implicit Types (z : inode) (A : Z → Z → block).

(** What the system keeps of a file in its inode, the times apart. *)
Definition facts z := (i_mode z, i_nlink z, i_uid z, i_gid z, i_size z, i_flags z, i_addr z).
Definition zero_inode : inode := Inode 0 0 0 [] 0 0 0 0 0 0 0 0 0 0.
Definition disk_words A (dev ino : Z) : list Z := take 16 (drop (16 * Z.to_nat (itoo ino)) (resize 256 0 (A dev (itod ino)))).
Definition facts_of (w : list Z) := facts (default zero_inode (idecode w zero_inode)).
Definition disk_facts A (dev ino : Z) := facts_of (disk_words A dev ino).
(** The fields are within their types. *)
Definition sane z : Prop :=
  0 ≤ i_mode z < 2^16 ∧ 0 ≤ i_nlink z < 2^16 ∧ 0 ≤ i_uid z < 2^32 ∧ 0 ≤ i_gid z < 2^32 ∧ 0 ≤ i_flags z < 2^32 ∧ length (i_addr z) = 7%nat.

Lemma itoo_lt ino : 0 ≤ itoo ino < 16.
Proof. unfold itoo, INOPB. apply Z.mod_pos_bound. lia. Qed.
Lemma disk_words_length A dev ino : length (disk_words A dev ino) = 16%nat.
Proof. unfold disk_words. rewrite length_take, length_drop, length_resize. pose proof (itoo_lt ino). lia. Qed.
Lemma idecode_spec w z : length w = 16%nat → ∃ z', idecode w z = Some z' ∧ facts z' = facts_of w ∧ sane z' ∧
  i_dev z' = i_dev z ∧ i_number z' = i_number z ∧ i_flag z' = i_flag z ∧ i_lastr z' = i_lastr z.
Proof.
  intros Hl. do 16 (destruct w as [|? w]; [done|]). destruct w; [|done]. eexists. split; [done|]. split; [done|]. split; [|done].
  unfold sane. simpl. unfold u16. split_and!; try (by apply Z.mod_pos_bound); try done; try apply u32_range.
Qed.

Lemma u16_word a b : 0 ≤ a < 2^16 → 0 ≤ b < 2^16 → u16 (s32 (a + 65536 * b)) = a ∧ u16 (Z.shiftr (s32 (a + 65536 * b)) 16) = b.
Proof.
  intros Ha Hb. rewrite Z.shiftr_div_pow2 by lia. unfold u16. change (2^16) with 65536 in *.
  assert (E : ∃ k, s32 (a + 65536 * b) = a + 65536 * (b + k * 65536)).
  { unfold s32. set (x := a + 65536 * b). pose proof (Z.div_mod (x + 2^31) (2^32) ltac:(lia)). exists (- ((x + 2^31) / 2^32)). lia. }
  destruct E as [k ->]. split.
  - rewrite (Z.mul_comm 65536), Z_mod_plus_full. by apply Z.mod_small.
  - rewrite (Z.mul_comm 65536), Z.div_add by lia. rewrite (Z.div_small a), Z.add_0_l by lia. rewrite Z_mod_plus_full. by apply Z.mod_small.
Qed.
Lemma u32_s32 x : 0 ≤ x < 2^32 → u32 (s32 x) = x.
Proof.
  intros Hx. unfold s32, u32. pose proof (Z.div_mod (x + 2^31) (2^32) ltac:(lia)) as E.
  replace ((x + 2^31) mod 2^32 - 2^31) with (x + - ((x + 2^31) / 2^32) * 2^32) by lia. rewrite Z_mod_plus_full. by apply Z.mod_small.
Qed.
Lemma facts_dinode z r : sane z → facts_of (dinode_words z r) = facts z.
Proof.
  intros (S1 & S2 & S3 & S4 & S5 & S6). destruct z as [f dv nb ad lr mo nl ui gi sz fg at_ mt ct]. unfold dinode_words. simpl in *.
  do 7 (destruct ad as [|? ad]; [done|]). destruct ad; [|done]. unfold facts_of, facts. simpl. destruct (u16_word mo nl S1 S2) as [-> ->]. by rewrite !u32_s32.
Qed.

Lemma dinode_length z r : length (i_addr z) = 7%nat → length (dinode_words z r) = 16%nat.
Proof. intros Hl. unfold dinode_words. rewrite !length_app, Hl. done. Qed.
Lemma saved_room (d : block) z r : length (i_addr z) = 7%nat → (16 * Z.to_nat (itoo (i_number z)) + length (dinode_words z r) ≤ length (resize 256 0%Z d))%nat.
Proof. intros Hl. rewrite dinode_length, length_resize by done. pose proof (itoo_lt (i_number z)). lia. Qed.
Lemma saved_length (d : block) z r : length (i_addr z) = 7%nat → length (saved d z r) = 256%nat.
Proof. intros Hl. unfold saved. rewrite splice_length by (by apply saved_room). apply length_resize. Qed.
Lemma place_inj i j : itod i = itod j → itoo i = itoo j → i = j.
Proof.
  unfold itod, itoo, INOPB. intros E1 E2. pose proof (Z.div_mod (i + 16 - 1) 16 ltac:(lia)). pose proof (Z.div_mod (j + 16 - 1) 16 ltac:(lia)). lia.
Qed.
(** The words of the inode that was saved, and of any other. *)
Lemma disk_saved A dev ino z r : i_number z = ino → sane z →
  disk_facts (upd A dev (itod ino) (saved (A dev (itod ino)) z r)) dev ino = facts z.
Proof.
  intros <- Hs. pose proof Hs as (_ & _ & _ & _ & _ & Hl). unfold disk_facts, disk_words. rewrite upd_same. rewrite resize_all_alt by (by rewrite saved_length).
  unfold saved. rewrite splice_in; [by apply facts_dinode|by apply saved_room|by rewrite dinode_length].
Qed.
Lemma disk_saved_other A dev ino z r dev' ino' : i_number z = ino → sane z → (dev', ino') ≠ (dev, ino) →
  disk_facts (upd A dev (itod ino) (saved (A dev (itod ino)) z r)) dev' ino' = disk_facts A dev' ino'.
Proof.
  intros <- Hs Hne. pose proof Hs as (_ & _ & _ & _ & _ & Hl). unfold disk_facts, disk_words. f_equal.
  destruct (decide (dev' = dev ∧ itod ino' = itod (i_number z))) as [[-> Eb]|Hn]; [|by rewrite upd_other].
  rewrite Eb, upd_same. rewrite (resize_all_alt (saved _ _ _)) by (by rewrite saved_length). unfold saved. apply splice_out; [by apply saved_room|].
  rewrite dinode_length by done. assert (itoo ino' ≠ itoo (i_number z)) by (intros Eo; apply Hne; f_equal; by apply place_inj).
  pose proof (itoo_lt ino'). pose proof (itoo_lt (i_number z)). lia.
Qed.
End Disk.

(** ** A cache of the inodes on the disk *)
Section Cached.
Context `{Disks, Naps, NamesOnly} (parts : list (list Z)) (usable : Z → Z → Prop).
Context `{!Volumes parts usable, !GoodDisks} (fuel : nat) (Hfuel : (NBUF + 2 ≤ fuel)%nat).
Implicit Types (t : itable) (hl : nat → list nat) (fl : list nat) (ip : nat) (z : inode) (A : Z → Z → block).

(** What the inodes are, by device and number. *)
Notation imap := (Z → Z → Z * Z * Z * Z * Z * Z * list Z).
Implicit Types (m : imap).

(** The table has the inodes [m]: one in memory is as [m] says, and so is one
    on the disk of which there is no changed copy in memory; a free inode has
    no changes; the file systems of the inodes are mounted and can be written. *)
Record cached t hl fl A m : Prop := Cached {
  cd_table : table t hl fl;
  cd_cache : cache_ok parts usable (bst (ivol t)) [] A;
  cd_usable ip z : hashed hl ip → inodes (ivol t) !! ip = Some z → usable (i_dev z) (itod (i_number z));
  cd_sane ip z : inodes (ivol t) !! ip = Some z → sane z;
  cd_core ip z : hashed hl ip → inodes (ivol t) !! ip = Some z → facts z = m (i_dev z) (i_number z);
  cd_disk dev ino : (∀ ip z, hashed hl ip → inodes (ivol t) !! ip = Some z → i_dev z = dev → i_number z = ino → marked z = false) →
    disk_facts A dev ino = m dev ino;
  cd_free ip z : ip ∈ fl → inodes (ivol t) !! ip = Some z → i_flag z = 0;
  cd_fs ip c f : hashed hl ip → refs t ip = Some (c, f) → ∃ k x, f = Some k ∧ mounts t !! k = Some x ∧ fs_ronly (m_filsys x) = 0 }.

(** One inode becomes [z'], and has perhaps another name. *)
Lemma cached_update t hl fl A m t' hl' fl' A' m' ip z z' :
  cached t hl fl A m → table t' hl' fl' → cache_ok parts usable (bst (ivol t')) [] A' →
  inodes (ivol t) !! ip = Some z → inodes (ivol t') = <[ip := z']> (inodes (ivol t)) → (∀ jp, hashed hl' jp ↔ jp = ip ∨ hashed hl jp) →
  usable (i_dev z') (itod (i_number z')) → sane z' → facts z' = m' (i_dev z') (i_number z') →
  (∀ dev ino, (dev, ino) ≠ (i_dev z', i_number z') → m' dev ino = m dev ino ∧ disk_facts A' dev ino = disk_facts A dev ino) →
  (marked z' = false → disk_facts A' (i_dev z') (i_number z') = m' (i_dev z') (i_number z')) →
  (i_dev z, i_number z) = (i_dev z', i_number z') ∨ marked z = false ∧ (∀ jp, ¬ names t hl jp (i_dev z') (i_number z')) →
  (∀ jp, jp ∈ fl' → jp = ip ∨ jp ∈ fl) → (ip ∈ fl' → i_flag z' = 0) →
  mounts t' = mounts t → (∀ jp, jp ≠ ip → refs t' jp = refs t jp) →
  (∀ c f, refs t' ip = Some (c, f) → ∃ k x, f = Some k ∧ mounts t !! k = Some x ∧ fs_ronly (m_filsys x) = 0) →
  cached t' hl' fl' A' m'.
Proof.
  intros HC Ht' Hc' Hz Ei Hh Hu Hs Hf Hm Hd Hold Hfl Hf0 Em Hr Hfs. pose proof (lookup_lt_Some _ _ _ Hz) as Hlt.
  assert (HD : ∀ jp y, inodes (ivol t') !! jp = Some y → (jp = ip ∧ y = z') ∨ (jp ≠ ip ∧ inodes (ivol t) !! jp = Some y)).
  { intros jp y. rewrite Ei. destruct (decide (jp = ip)) as [->|]; [rewrite list_lookup_insert_eq by done; naive_solver|rewrite list_lookup_insert_ne by done; naive_solver]. }
  (* another inode in memory has another name *)
  assert (Hon : ∀ jp y, jp ≠ ip → hashed hl jp → inodes (ivol t) !! jp = Some y → (i_dev y, i_number y) ≠ (i_dev z', i_number z')).
  { intros jp y Hne Hj Hy E. apply Hne. apply (tb_unique _ _ _ Ht' jp ip y z'); [apply Hh; by right|apply Hh; by left| | |congruence|congruence].
    - rewrite Ei. by rewrite list_lookup_insert_ne.
    - rewrite Ei. by apply list_lookup_insert_eq. }
  split; [done|done|..].
  - intros jp y Hj%Hh Hy. destruct (HD jp y Hy) as [[-> ->]|[Hne Hy']]; [done|]. apply (cd_usable _ _ _ _ _ HC jp y); [tauto|done].
  - intros jp y Hy. destruct (HD jp y Hy) as [[-> ->]|[Hne Hy']]; [done|]. by apply (cd_sane _ _ _ _ _ HC jp y).
  - intros jp y Hj%Hh Hy. destruct (HD jp y Hy) as [[-> ->]|[Hne Hy']]; [done|]. assert (Hj' : hashed hl jp) by tauto.
    rewrite (proj1 (Hm (i_dev y) (i_number y) (Hon jp y Hne Hj' Hy'))). by apply (cd_core _ _ _ _ _ HC jp y).
  - intros dev ino Hall. destruct (decide ((dev, ino) = (i_dev z', i_number z'))) as [[= -> ->]|Hne].
    + apply Hd. apply (Hall ip); [apply Hh; by left| |done|done]. rewrite Ei. by apply list_lookup_insert_eq.
    + destruct (Hm dev ino Hne) as [-> ->]. apply (cd_disk _ _ _ _ _ HC). intros jp y Hj Hy E1 E2. destruct (decide (jp = ip)) as [->|Hji].
      * assert (y = z) as -> by congruence. destruct Hold as [[= X1 X2]|[? _]]; [|done]. exfalso. apply Hne. congruence.
      * apply (Hall jp); [apply Hh; by right| |done|done]. rewrite Ei. by rewrite list_lookup_insert_ne.
  - intros jp y Hj Hy. destruct (HD jp y Hy) as [[-> ->]|[Hne Hy']]; [by apply Hf0|]. apply (cd_free _ _ _ _ _ HC jp y); [|done]. by destruct (Hfl jp Hj).
  - intros jp c f Hj%Hh Hc. rewrite Em. destruct (decide (jp = ip)) as [->|Hne]; [by eapply Hfs|]. rewrite Hr in Hc by done. apply (cd_fs _ _ _ _ _ HC jp c); [tauto|done].
Qed.

Lemma facts_alike z z' : alike z z' → facts z' = facts z.
Proof. intros (E1 & E2 & E3 & E4 & E5 & E6 & E7 & E8 & E9 & E10). unfold facts. congruence. Qed.
Lemma sane_alike z z' : alike z z' → sane z → sane z'.
Proof. intros (E1 & E2 & E3 & E4 & E5 & E6 & E7 & E8 & E9 & E10). unfold sane. by rewrite E1, E4, E7, E8, E9, E10. Qed.
(** The same file. *)
Definition kin z z' : Prop := facts z' = facts z ∧ i_dev z' = i_dev z ∧ i_number z' = i_number z.
Lemma kin_alike z z' : alike z z' → kin z z'.
Proof. intros Ha. split; [by apply facts_alike|]. split; apply Ha. Qed.
Lemma kin_trans z1 z2 z3 : kin z1 z2 → kin z2 z3 → kin z1 z3.
Proof. unfold kin. intuition congruence. Qed.
Lemma sane_kin z z' : kin z z' → sane z → sane z'.
Proof. intros (E & _ & _). unfold facts in E. unfold sane. injection E as -> -> -> -> _ -> ->. done. Qed.
Lemma hashed_same hl ip jp : hashed hl ip → hashed hl jp ↔ jp = ip ∨ hashed hl jp.
Proof. intros Hi. split; [tauto|]. by intros [->|]. Qed.
Lemma marked_ilocked z z' : i_flag z' = Z.lor (i_flag z) ILOCKED → marked z' = marked z.
Proof. intros E. unfold marked. rewrite E, has_lor. change (has ILOCKED _) with false. apply orb_false_r. Qed.

(** ** Getting an inode *)
Lemma wp_iread t A ip z dev ino : cache_ok parts usable (bst (ivol t)) [] A → inodes (ivol t) !! ip = Some z → usable dev (itod ino) →
  wp (iread fuel dev ino ip) (λ r t', r = Some ip ∧ ∃ s' z', t' = t<|ivol := (setz ip (ivol t) z')<|bst := s'|>|> ∧ cache_ok parts usable s' [] A ∧
    facts z' = disk_facts A dev ino ∧ sane z' ∧ i_dev z' = i_dev z ∧ i_number z' = i_number z ∧ i_flag z' = i_flag z ∧
    u_error s' = u_error (bst (ivol t))) t.
Proof.
  intros Hc Hz Hu. unfold iread. apply wp_bind, wp_on_ivol, wp_on_cache.
  eapply wp_mono; [apply (wp_bread parts usable fuel (bst (ivol t)) [] A dev (itod ino)); [done|done|apply unused_nil|vm_compute; lia|done]|].
  intros i s1 (Ho & Hd1 & _). destruct (obtained_holds _ _ _ _ _ _ _ _ _ Ho) as (x & Hh1 & [_ Ue] & Hdd). apply wp_bind, wp_on_ivol, wp_on_cache. fields.
  eapply held_at; [apply Hh1|apply Hh1|]. intros y _ Ey. rewrite Ey. clear y Ey. fields.
  apply wp_bind, wp_on_ivol, wp_on_cache. eapply (wp_bload parts usable); [exact Hh1|exact Hd1|]. fields.
  apply wp_bind. eapply wp_data_at; [exact Hz|]. fold (disk_words A dev ino).
  destruct (idecode_spec (disk_words A dev ino) z (disk_words_length A dev ino)) as (z' & Ez & D1 & D2 & D3 & D4 & D5 & D6). rewrite Ez.
  apply wp_bind. eapply wp_lift; [done|]. apply wp_bind. eapply wp_set_data; [exact Hz|]. unfold with_data. fields.
  apply wp_bind, wp_on_ivol, wp_on_cache. fields. eapply wp_mono; [eapply (wp_brelease parts usable); [exact Hh1|exact Hdd]|]. intros [] s2 [Hc2 [_ Ue2]]. apply wp_ret.
  split; [done|]. exists s2, z'. split_and!; try done. etrans; [exact Ue2|exact Ue].
Qed.

(** The inode that is asked for is not locked and has no file system mounted
    on it, if it is in memory. *)
Definition available t hl dev ino : Prop := ∀ ip z, hashed hl ip → inodes (ivol t) !! ip = Some z → i_dev z = dev → i_number z = ino →
  has (i_flag z) ILOCKED = false ∧ has (i_flag z) IMOUNT = false ∧ ∃ c f, refs t ip = Some (c, f) ∧ c < 2^32 - 1.
Definition writable t (k : nat) : Prop := ∃ x, mounts t !! k = Some x ∧ fs_ronly (m_filsys x) = 0.

(** The inode is in memory, locked, with one reference more than it had. *)
Definition gotten t hl fl A m dev ino ip t' : Prop := ∃ hl' fl' z' c f,
  cached t' hl' fl' A m ∧ hashed hl' ip ∧ inodes (ivol t') !! ip = Some z' ∧ i_dev z' = dev ∧ i_number z' = ino ∧ facts z' = m dev ino ∧
  has (i_flag z') ILOCKED = true ∧ refs t' ip = Some (c + 1, f) ∧ (if bool_decide (ip ∈ fl) then c = 0 else refs t ip = Some (c, f)) ∧
  (∀ jp, jp ≠ ip → inodes (ivol t') !! jp = inodes (ivol t) !! jp ∧ refs t' jp = refs t jp) ∧ mounts t' = mounts t ∧
  (∀ jp, jp ∈ fl' ↔ jp ∈ fl ∧ jp ≠ ip) ∧ u_error (bst (ivol t')) = u_error (bst (ivol t)).

Lemma iget_found n t hl fl A m dev fs ino ip z : cached t hl fl A m → hashed hl ip → inodes (ivol t) !! ip = Some z → i_dev z = dev → i_number z = ino → available t hl dev ino →
  wp (iget fuel n dev fs ino) (λ r t', r = Some ip ∧ gotten t hl fl A m dev ino ip t') t.
Proof.
  intros HC Hi Hz E1 E2 Hav. pose proof (cd_table _ _ _ _ _ HC) as Ht. destruct (Hav ip z Hi Hz E1 E2) as (L1 & L2 & c & f & Hr & Hc).
  assert (HX : ∀ Q : option nat → itable → Prop, (∀ t', gotten t hl fl A m dev ino ip t' → Q (Some ip) t') → wp (itake ip;; mret (Some ip)) Q t).
  { intros Q HQ. apply wp_bind. eapply wp_itake; [exact Ht|exact Hz|exact Hr|exact Hc|]. intros t' z' Ht' EV Ha Hfl Hm ER. apply wp_ret, HQ.
    pose proof (lookup_lt_Some _ _ _ Hz) as Hlt. assert (EI : inodes (ivol t') = <[ip := z']> (inodes (ivol t))) by (by rewrite EV). pose proof Ha as (_ & D1 & _ & _ & D2 & _).
    exists hl, (others fl ip), z', c, f. split_and!.
    - eapply (cached_update t hl fl A m t' hl (others fl ip) A m ip z z'); try done.
      + rewrite EV. apply HC.
      + intros jp. by apply hashed_same.
      + rewrite D1, D2. by eapply (cd_usable _ _ _ _ _ HC).
      + eapply sane_alike; [exact Ha|]. by eapply (cd_sane _ _ _ _ _ HC).
      + rewrite (facts_alike _ _ Ha), D1, D2. by apply (cd_core _ _ _ _ _ HC ip z).
      + intros Hmk. rewrite D1, D2. apply (cd_disk _ _ _ _ _ HC). intros jp y Hj Hy G1 G2.
        assert (jp = ip) as -> by (by apply (tb_unique _ _ _ Ht jp ip y z)). assert (y = z) as -> by congruence. by rewrite <- (marked_ilocked _ _ Hfl).
      + left. congruence.
      + intros jp [_ ?]%list_elem_of_filter. by right.
      + by intros [? _]%list_elem_of_filter.
      + intros jp Hne. rewrite ER. by rewrite decide_False.
      + intros c' f' Hc'. rewrite ER, decide_True in Hc' by done. injection Hc' as <- <-. by apply (cd_fs _ _ _ _ _ HC ip c f).
    - done.
    - rewrite EI. by apply list_lookup_insert_eq.
    - congruence.
    - congruence.
    - rewrite (facts_alike _ _ Ha), <- E1, <- E2. by apply (cd_core _ _ _ _ _ HC ip z).
    - rewrite Hfl, has_lor. apply orb_true_r.
    - rewrite ER. by rewrite decide_True.
    - pose proof (table_refs _ _ _ _ _ _ Ht Hr) as [_ G]. case_bool_decide; tauto.
    - intros jp Hne. rewrite EI, ER, decide_False by done. by rewrite list_lookup_insert_ne.
    - done.
    - intros jp. unfold others. rewrite list_elem_of_filter. tauto.
    - by rewrite EV. }
  assert (HI : ∀ r, match r with Some jp => names t hl jp dev ino | None => ∀ jp, ¬ names t hl jp dev ino end → r = Some ip).
  { intros [jp|] Hnm; [|exfalso; apply (Hnm ip); split; eauto]. destruct Hnm as (Hj & y & Hy & G1 & G2). f_equal. apply (tb_unique _ _ _ Ht jp ip y z); congruence. }
  destruct n; cbn [iget]; apply wp_bind; (eapply wp_ifind; [exact Ht|]); intros r ->%HI; apply wp_bind; (eapply wp_data_at; [exact Hz|]);
    rewrite L1, L2; apply HX; by split.
Qed.

(** One that is not in memory is read into the free inode that was released
    longest ago. *)
Lemma iget_missing n t hl ip l2 A m dev fs ino : cached t hl (ip :: l2) A m → (∀ jp, ¬ names t hl jp dev ino) → usable dev (itod ino) → writable t fs →
  wp (iget fuel n dev fs ino) (λ r t', r = Some ip ∧ gotten t hl (ip :: l2) A m dev ino ip t') t.
Proof.
  intros HC Hno Hu Hw. pose proof (cd_table _ _ _ _ _ HC) as Ht. assert (Hip : (ip < NINODE)%nat) by (eapply free_lt; [exact Ht|set_solver]).
  destruct (table_data _ _ _ _ Ht Hip) as [z Hz]. destruct (table_ent _ _ _ _ Ht Hip) as [e He]. pose proof (tb_count _ _ _ Ht ip e He) as [_ Hc].
  pose proof (fr_nodup _ _ _ _ (tb_free _ _ _ Ht)) as [Hnl _]%NoDup_cons. pose proof (lookup_lt_Some _ _ _ Hz) as Hlt.
  assert (HX : wp (e ← ent_at ip; if negb (i_count e =? 0) then panic "free inode isn't" else iassign dev fs ino ip;; iread fuel dev ino ip)
    (λ r t', r = Some ip ∧ gotten t hl (ip :: l2) A m dev ino ip t') t).
  { apply wp_bind. eapply wp_ent_at; [exact He|]. rewrite (proj2 Hc) by set_solver. cbn [negb Z.eqb]. apply wp_bind. eapply wp_iassign; [exact Ht|exact Hz|exact Hno|].
    intros t1 Ht1 EV1 Em1 ER1. set (hl' := rehashed _ _ _) in *. set (z1 := assigned z dev ino) in *.
    assert (Hz1 : inodes (ivol t1) !! ip = Some z1) by (rewrite EV1; unfold setz; fields; by apply list_lookup_insert_eq).
    eapply wp_mono; [apply (wp_iread t1 A ip z1 dev ino); [rewrite EV1; apply HC|exact Hz1|exact Hu]|].
    intros r t' (-> & s' & z' & -> & Hc' & Df & Ds & D1 & D2 & D3 & D4). split; [done|]. set (t' := t1<|ivol := _|>).
    change (i_dev z1) with dev in D1. change (i_number z1) with ino in D2. change (i_flag z1) with ILOCKED in D3.
    assert (EI : inodes (ivol t') = <[ip := z']> (inodes (ivol t))) by (unfold t', setz; fields; rewrite EV1; unfold setz; fields; by rewrite list_insert_insert_eq).
    assert (Hh : ∀ jp, hashed hl' jp ↔ jp = ip ∨ hashed hl jp) by (intros jp; apply hashed_rehashed, INOHASH_head).
    assert (Hmk : marked z = false) by (unfold marked; by rewrite (cd_free _ _ _ _ _ HC ip z) by (done || set_solver)).
    assert (Edf : disk_facts A dev ino = m dev ino).
    { apply (cd_disk _ _ _ _ _ HC). intros jp y Hj Hy G1 G2. exfalso. apply (Hno jp). split; eauto. }
    assert (Ht' : table t' hl' l2).
    { apply (table_make t1 t' hl' l2); [exact Ht1|done|done| |apply Ht1|apply Ht1|apply Ht1]. unfold t', setz. fields. eapply same_names_insert; [exact Hz1|done|done]. }
    exists hl', l2, z', 0, (Some fs). split_and!.
    - eapply (cached_update t hl (ip :: l2) A m t' hl' l2 A m ip z z'); try done.
      + by rewrite D1, D2.
      + by rewrite D1, D2, Df.
      + intros _. by rewrite D1, D2.
      + right. rewrite D1, D2. done.
      + set_solver.
      + intros jp Hne. change (refs t1 jp = refs t jp). rewrite ER1. by rewrite decide_False.
      + intros c f Hcf. change (refs t1 ip = Some (c, f)) in Hcf. rewrite ER1, decide_True in Hcf by done. injection Hcf as <- <-. destruct Hw as (x & Hx & Hro). eauto.
    - apply Hh. by left.
    - rewrite EI. by apply list_lookup_insert_eq.
    - done.
    - done.
    - congruence.
    - by rewrite D3.
    - change (refs t1 ip = Some (0 + 1, Some fs)). rewrite ER1. by rewrite decide_True.
    - by rewrite bool_decide_eq_true_2 by set_solver.
    - intros jp Hne. change (refs t' jp) with (refs t1 jp). rewrite EI, ER1, decide_False by done. by rewrite list_lookup_insert_ne.
    - exact Em1.
    - intros jp. set_solver.
    - etrans; [exact D4|]. by rewrite EV1. }
  pose proof (fr_head _ _ _ _ (tb_free _ _ _ Ht)) as Eh. simpl in Eh.
  destruct n; cbn [iget]; apply wp_bind; (eapply wp_ifind; [exact Ht|]); (intros [jp|] Hnm; [by apply Hno in Hnm|]); apply wp_bind, wp_gets; rewrite Eh; exact HX.
Qed.
Lemma iget_full n t hl A m dev fs ino : cached t hl [] A m → (∀ jp, ¬ names t hl jp dev ino) →
  wp (iget fuel n dev fs ino) (λ r t', r = None ∧ cached t' hl [] A m ∧ u_error (bst (ivol t')) = ENFILE) t.
Proof.
  intros HC Hno. pose proof (cd_table _ _ _ _ _ HC) as Ht. pose proof (fr_head _ _ _ _ (tb_free _ _ _ Ht)) as Eh. simpl in Eh.
  destruct n; cbn [iget]; apply wp_bind; (eapply wp_ifind; [exact Ht|]); (intros [jp|] Hnm; [by apply Hno in Hnm|]); apply wp_bind, wp_gets; rewrite Eh;
    apply wp_bind, wp_on_ivol, wp_modify, wp_bind, wp_on_ivol; unfold set_error; apply wp_on_cache, wp_modify, wp_ret; (split; [done|]); (split; [|done]);
    destruct HC as [C1 C2 C3 C4 C5 C6 C7 C8]; (split; try done); [by destruct C1; split|by apply cache_error|by destruct C1; split|by apply cache_error].
Qed.

(** ** Releasing an inode *)

(** Only the inode [ip], the buffers and what is said have changed. *)
Definition only_ip t ip z' (s' : bstate) t' : Prop := ∃ v', t' = t<|ivol := v'|> ∧ inodes v' = <[ip := z']> (inodes (ivol t)) ∧ bst v' = s'.
Lemma only_ip_trans t1 t2 t3 ip z2 s2 z3 s3 : only_ip t1 ip z2 s2 t2 → only_ip t2 ip z3 s3 t3 → only_ip t1 ip z3 s3 t3.
Proof.
  intros (v2 & -> & E2 & B2) (v3 & -> & E3 & B3). exists v3. split; [by destruct t1|]. split; [|done]. rewrite E3. fields. rewrite E2. by rewrite list_insert_insert_eq.
Qed.
Lemma only_ip_data t1 t2 ip z s z0 : inodes (ivol t1) !! ip = Some z0 → only_ip t1 ip z s t2 → inodes (ivol t2) !! ip = Some z.
Proof. intros Hz (v & -> & E & _). fields. rewrite E. apply list_lookup_insert_eq. by eapply lookup_lt_Some. Qed.
Lemma only_ip_refs t1 t2 ip z s jp : only_ip t1 ip z s t2 → refs t2 jp = refs t1 jp.
Proof. by intros (v & -> & E & _). Qed.

Lemma wp_set_only t ip z g (Q : unit → itable → Prop) : inodes (ivol t) !! ip = Some z → (∀ t', only_ip t ip (g z) (bst (ivol t)) t' → Q tt t') → wp (set_data ip g) Q t.
Proof. intros Hz HQ. eapply wp_set_data; [exact Hz|]. apply HQ. eexists. split; [by destruct t|]. done. Qed.
Lemma wp_on_fs {B} t ip c k x (mm : V B) (Q : B → itable → Prop) : refs t ip = Some (c, Some k) → mounts t !! k = Some x →
  wp mm (λ r v', sb v' = m_filsys x ∧ Q r (t<|ivol := v'|>)) ((ivol t)<|sb := m_filsys x|>) → wp (on_fs ip mm) Q t.
Proof.
  intros Hr Hx HQ. unfold on_fs. unfold refs in Hr. destruct (ients t !! ip) as [e|] eqn:He; [|done]. simpl in Hr. injection Hr as _ Ef. apply wp_bind. eapply wp_ent_at; [exact He|].
  apply wp_bind. rewrite Ef. eapply wp_lift; [done|]. apply wp_bind, wp_gets, wp_bind. eapply wp_lift; [by apply rd_Done|].
  apply wp_bind, wp_modify, wp_bind, wp_on_ivol. fields. eapply wp_mono; [exact HQ|]. intros r v' [Es HQ']. apply wp_bind, wp_modify, wp_ret. fields. rewrite Es.
  assert (Em : <[k := x<|m_filsys := m_filsys x|>]> (mounts t) = mounts t) by (apply list_insert_id; rewrite Hx; f_equal; by destruct x).
  rewrite Em. match goal with |- Q r ?s => replace s with (t<|ivol := v'|>) by (by destruct t) end. done.
Qed.

Lemma marked_bic z z' : i_flag z' = bic (i_flag z) ILOCKED ∨ i_flag z' = bic (i_flag z) IWANT → marked z' = marked z.
Proof. intros [E|E]; unfold marked; rewrite E; by apply has_bic_other. Qed.
Lemma wp_iunlock_only t ip z (Q : unit → itable → Prop) : inodes (ivol t) !! ip = Some z →
  (∀ t' z', only_ip t ip z' (bst (ivol t)) t' → alike z z' → marked z' = marked z → has (i_flag z') ILOCKED = false → Q tt t') → wp (on_ivol (iunlock ip)) Q t.
Proof.
  intros Hz HQ. apply wp_on_ivol. unfold iunlock. apply wp_bind. eapply wp_set_inode; [exact Hz|]. set (z1 := z<|i_flag ::= _|>). change ((ivol t)<|inodes := _|>) with (setz ip (ivol t) z1).
  assert (A1 : alike z z1) by (unfold alike, z1; fields; split_and!; try done; by apply has_bic_other).
  assert (M1 : marked z1 = marked z) by (apply marked_bic; by left).
  assert (L1 : has (i_flag z1) ILOCKED = false) by (unfold z1; fields; by apply has_bic_same).
  apply wp_bind. eapply wp_getz; [exact Hz|]. destruct (has (i_flag z1) IWANT).
  - apply wp_bind. eapply wp_setz; [exact Hz|]. apply wp_modify. eapply (HQ _ (z1<|i_flag ::= λ g, bic g IWANT|>)).
    + eexists. split; [done|]. done.
    + eapply alike_trans; [exact A1|]. unfold alike. fields. split_and!; try done. by apply has_bic_other.
    + rewrite <- M1. apply marked_bic. by right.
    + fields. etrans; [by apply has_bic_other|exact L1].
  - apply wp_ret. apply (HQ _ z1); try done. eexists. split; [done|]. done.
Qed.

(** The disk [A'] after the inode was written, if it had been changed. *)
Definition written A z z' A' : Prop :=
  if marked z then ∃ r, A' = upd A (i_dev z) (itod (i_number z)) (saved (A (i_dev z) (itod (i_number z))) z' r) else A' = A.
Lemma wp_IUPDAT t ip z c k A (Q : unit → itable → Prop) : cache_ok parts usable (bst (ivol t)) [] A → inodes (ivol t) !! ip = Some z →
  usable (i_dev z) (itod (i_number z)) → refs t ip = Some (c, Some k) → writable t k →
  (∀ t' z' s' A', only_ip t ip z' s' t' → alike z z' → cache_ok parts usable s' [] A' → written A z z' A' → u_error s' = u_error (bst (ivol t)) → Q tt t') →
  wp (IUPDAT fuel ip) Q t.
Proof.
  intros Hc Hz Hu Hr (x & Hx & Hro) HQ. unfold IUPDAT. apply wp_bind. eapply wp_data_at; [exact Hz|]. fold (marked z). unfold written in HQ. destruct (marked z) eqn:Em.
  - apply wp_bind, wp_gets. eapply wp_on_fs; [exact Hr|exact Hx|]. set (v := (ivol t)<|sb := m_filsys x|>).
    eapply wp_mono; [apply (wp_isave parts usable fuel Hfuel ip v A z); [done|done|done|unfold unsaved; by rewrite Em; unfold v; fields; rewrite Hro]|].
    intros [] v' (z' & r & s' & Ha & -> & Hc' & He). split; [done|]. eapply HQ; [|exact Ha|exact Hc'|eauto|done]. eexists. split; [done|]. done.
  - apply wp_ret. apply (HQ t z (bst (ivol t)) A); try done. exists (ivol t). split; [by destruct t|]. by rewrite list_insert_id.
Qed.

Lemma wp_only_if (b : bool) t0 t ip z0 z1 g s (Q : unit → itable → Prop) : only_ip t0 ip z1 s t → inodes (ivol t) !! ip = Some z1 → alike z0 z1 → alike z1 (g z1) → i_flag (g z1) = i_flag z1 →
  (∀ t' z2, only_ip t0 ip z2 s t' → inodes (ivol t') !! ip = Some z2 → alike z0 z2 → i_flag z2 = i_flag z1 → Q tt t') →
  wp (if b then set_data ip g else mret tt) Q t.
Proof.
  intros HO Hz HA Hg Hf HQ. destruct b; [|by apply wp_ret, (HQ t z1)]. eapply wp_set_only; [exact Hz|]. intros t' HO'. apply (HQ t' (g z1)); [|by eapply only_ip_data| |done].
  - eapply only_ip_trans; [exact HO|]. destruct HO as (v & -> & _ & B). fields. rewrite <- B. exact HO'.
  - by eapply alike_trans.
Qed.
Lemma wp_ITIMES t ip z (Q : unit → itable → Prop) : inodes (ivol t) !! ip = Some z →
  (∀ t' z', only_ip t ip z' (bst (ivol t)) t' → alike z z' → marked z' = marked z → has (i_flag z') ILOCKED = has (i_flag z) ILOCKED → Q tt t') → wp (ITIMES ip) Q t.
Proof.
  intros Hz HQ. unfold ITIMES. apply wp_bind. eapply wp_data_at; [exact Hz|]. destruct (has (i_flag z) (Z.lor (Z.lor IUPD IACC) ICHG)) eqn:Eh.
  - apply wp_bind, wp_gets, wp_bind. unfold flag_or. eapply wp_set_only; [exact Hz|]. intros t1 O1. pose proof (only_ip_data _ _ _ _ _ _ Hz O1) as Z1.
    set (z1 := z<|i_flag ::= _|>) in *. assert (A1 : alike z z1) by (unfold alike, z1; fields; split_and!; try done; rewrite has_lor; apply orb_false_r).
    apply wp_bind. eapply (wp_only_if _ t t1); [exact O1|exact Z1|exact A1|by unfold alike|done|]. intros t2 z2 O2 Z2 A2 F2.
    apply wp_bind. eapply (wp_only_if _ t t2); [exact O2|exact Z2|exact A2|by unfold alike|done|]. intros t3 z3 O3 Z3 A3 F3.
    apply wp_bind. eapply (wp_only_if _ t t3); [exact O3|exact Z3|exact A3|by unfold alike|done|]. intros t4 z4 O4 Z4 A4 F4.
    eapply wp_set_only; [exact Z4|]. intros t5 O5. eapply (HQ t5).
    + eapply only_ip_trans; [exact O4|]. destruct O4 as (v & -> & _ & B). fields. rewrite <- B. exact O5.
    + eapply alike_trans; [exact A4|]. unfold alike. fields. split_and!; try done. by apply has_bic_other.
    + assert (E : marked z = true).
      { unfold marked. revert Eh. unfold has. rewrite !negb_true_iff, !Z.eqb_neq. intros Hn E. apply Hn. clear -E.
        rewrite !Z.land_lor_distr_r, !Z.lor_eq_0_iff in E. rewrite !Z.land_lor_distr_r, !Z.lor_eq_0_iff. tauto. }
      rewrite E. unfold marked. fields. rewrite F4, F3, F2. unfold z1. fields.
      unfold has. rewrite negb_true_iff, Z.eqb_neq. intros E0. rewrite !Z.land_lor_distr_r, !Z.lor_eq_0_iff in E0. destruct E0 as [_ [_ E0]].
      assert (Eb : has (bic (Z.lor (i_flag z) IMOD) (Z.lor (Z.lor IACC IUPD) ICHG)) IMOD = true) by (rewrite has_bic_other by done; rewrite has_lor; apply orb_true_r).
      unfold has in Eb. by rewrite E0 in Eb.
    + fields. rewrite has_bic_other, F4, F3, F2 by done. unfold z1. fields. rewrite has_lor. apply orb_false_r.
  - apply wp_ret. apply (HQ t z); try done. exists (ivol t). split; [by destruct t|]. by rewrite list_insert_id.
Qed.

(** One reference less; with the last one the inode is at the end of the free
    list and what [m] says of it is on the disk.  ([lk]: it may be locked.) *)
Definition released (lk : bool) t hl fl m ip z c f t' : Prop := ∃ A' z',
  cached t' hl (if c =? 1 then fl ++ [ip] else fl) A' m ∧ inodes (ivol t') !! ip = Some z' ∧ kin z z' ∧ refs t' ip = Some (c - 1, f) ∧
  (lk = false → has (i_flag z') ILOCKED = false) ∧
  (∀ jp, jp ≠ ip → inodes (ivol t') !! jp = inodes (ivol t) !! jp ∧ refs t' jp = refs t jp) ∧ mounts t' = mounts t ∧
  u_error (bst (ivol t')) = u_error (bst (ivol t)) ∧ (c = 1 → disk_facts A' (i_dev z) (i_number z) = m (i_dev z) (i_number z)).

Section Release.
Context t hl fl A m ip z c f (HC : cached t hl fl A m) (Hi : hashed hl ip) (Hz : inodes (ivol t) !! ip = Some z) (Hr : refs t ip = Some (c, f)) (Hc : 0 < c).

(** The end of a release: the state [t1], in which [ip] has changed and the
    links of the free list, and the count goes down. *)
Lemma released_end t1 z1 s1 A1 es h tl fl1 :
  only_ip t ip z1 s1 t1 → kin z z1 → cache_ok parts usable s1 [] A1 → u_error s1 = u_error (bst (ivol t)) →
  freelist es h tl fl1 → rehung (ients t) es → fl1 = (if c =? 1 then fl ++ [ip] else fl) →
  (has (i_flag z) ILOCKED = false → has (i_flag z1) ILOCKED = false) → (c = 1 → i_flag z1 = 0) →
  (∀ dev ino, (dev, ino) ≠ (i_dev z, i_number z) → disk_facts A1 dev ino = disk_facts A dev ino) →
  (c = 1 ∨ marked z1 = false → disk_facts A1 (i_dev z) (i_number z) = m (i_dev z) (i_number z)) →
  wp (set_ent ip (λ e, e<|i_count ::= λ c, u32 (c - 1)|>)) (λ _ t', released (has (i_flag z) ILOCKED) t hl fl m ip z c f t') (with_links t1 es h tl).
Proof.
  intros HO Ha Hc1 He HF HR Efl HL Hzero Hoth Hdisk. pose proof (cd_table _ _ _ _ _ HC) as Ht. pose proof (table_refs _ _ _ _ _ _ Ht Hr) as [Hcr Hcf].
  pose proof HO as (v1 & -> & Ei & Eb). pose proof (lookup_lt_Some _ _ _ Hz) as Hlt. assert (Hip : (ip < NINODE)%nat) by (rewrite <- (tb_data _ _ _ Ht); done).
  assert (Le : length es = NINODE) by (rewrite (rehung_length _ _ HR); apply Ht). destruct (lookup_lt_is_Some_2 es ip) as [e Hes]; [lia|].
  destruct (rehung_count _ _ _ _ HR Hes) as (e0 & He0 & K1 & K2 & K3). pose proof Hr as Hr'. unfold refs in Hr'. rewrite He0 in Hr'. simpl in Hr'. injection Hr' as X1 X2.
  eapply wp_set_ent; [exact Hes|]. match goal with |- released _ _ _ _ _ _ _ _ _ ?s => set (t' := s) end. pose proof Ha as (Df & D1 & D2).
  assert (ER : ∀ jp, refs t' jp = if decide (jp = ip) then Some (c - 1, f) else refs t jp).
  { intros jp. unfold refs at 1, t', with_links. fields. rewrite irefs_insert by lia. fields. rewrite K1, K3, X1, X2, u32_id by lia. by rewrite (refs_rehung t es jp HR). }
  assert (Ht' : table t' hl fl1).
  { apply (table_make t t' hl fl); [done|done|done| | | |].
    - unfold t', with_links. fields. rewrite Ei. by eapply same_names_insert.
    - unfold t', with_links. fields. by rewrite length_insert.
    - unfold t', with_links. fields. destruct HF as [F1 F2 F3 F4]. split; [done|done| |done]. eapply linked_frame; [|exact F3]. intros jp e' Hj Hje.
      destruct (decide (jp = ip)) as [->|Hne]; [|exists e'; by rewrite list_lookup_insert_ne]. assert (e' = e) as -> by congruence. eexists. split; [apply list_lookup_insert_eq; lia|done].
    - eapply refs_counts; [exact Ht|]. intros jp c' f' Hc'. change (refs t' jp = Some (c', f')) in Hc'. rewrite ER in Hc'. subst fl1. destruct (decide (jp = ip)) as [->|Hne].
      + injection Hc' as <- <-. split; [lia|]. destruct (Z.eqb_spec c 1); [split; [set_solver|lia]|]. rewrite <- Hcf. lia.
      + destruct (table_refs _ _ _ _ _ _ Ht Hc') as [Y1 Y2]. split; [done|]. rewrite Y2. destruct (c =? 1); [set_solver|done]. }
  exists A1, z1. rewrite <- Efl. split_and!; try done.
  - eapply (cached_update t hl fl A m t' hl fl1 A1 m ip z z1); try done.
    + unfold t', with_links. fields. by rewrite Eb.
    + intros jp. by apply hashed_same.
    + rewrite D1, D2. by eapply (cd_usable _ _ _ _ _ HC).
    + eapply sane_kin; [exact Ha|]. by eapply (cd_sane _ _ _ _ _ HC).
    + rewrite Df, D1, D2. by apply (cd_core _ _ _ _ _ HC ip z).
    + intros dev ino. rewrite D1, D2. intros Hne. split; [done|by apply Hoth].
    + intros Hmk. rewrite D1, D2. apply Hdisk. by right.
    + left. congruence.
    + subst fl1. destruct (c =? 1); [set_solver|by right].
    + intros Hin. apply Hzero. subst fl1. destruct (Z.eqb_spec c 1); [done|]. apply Hcf in Hin. lia.
    + intros jp Hne. rewrite ER. by rewrite decide_False.
    + intros c' f' Hc'. rewrite ER, decide_True in Hc' by done. injection Hc' as <- <-. by apply (cd_fs _ _ _ _ _ HC ip c f).
  - unfold t', with_links. fields. rewrite Ei. by apply list_lookup_insert_eq.
  - rewrite ER. by rewrite decide_True.
  - intros jp Hne. rewrite ER, decide_False by done. unfold t', with_links. fields. rewrite Ei. by rewrite list_lookup_insert_ne.
  - unfold t', with_links. fields. by rewrite Eb.
  - intros ->. apply Hdisk. by left.
Qed.

Lemma with_links_same t1 : with_links t1 (ients t1) (ifreeh t1) (ifreet t1) = t1.
Proof. by destruct t1. Qed.
Lemma disk_written A1 z1 z2 : kin z z1 → kin z z2 → written A z1 z2 A1 → marked z1 = marked z →
  (∀ dev ino, (dev, ino) ≠ (i_dev z, i_number z) → disk_facts A1 dev ino = disk_facts A dev ino) ∧
  disk_facts A1 (i_dev z) (i_number z) = m (i_dev z) (i_number z).
Proof.
  intros (_ & D1 & N1) K2 HW Em. pose proof K2 as (F2 & D2 & N2). pose proof (cd_core _ _ _ _ _ HC ip z Hi Hz) as Hcore.
  assert (Hs2 : sane z2) by (eapply sane_kin; [exact K2|by eapply (cd_sane _ _ _ _ _ HC)]). unfold written in HW. rewrite Em, D1, N1 in HW. destruct (marked z) eqn:E.
  - destruct HW as [r ->]. split; [intros dev ino Hne; by apply disk_saved_other|]. rewrite disk_saved by done. by rewrite F2.
  - subst A1. split; [done|]. apply (cd_disk _ _ _ _ _ HC). intros jp y Hj Hy G1 G2.
    assert (jp = ip) as -> by (by apply (tb_unique _ _ _ (cd_table _ _ _ _ _ HC) jp ip y z)). congruence.
Qed.
Lemma clean_disk z1 : marked z1 = marked z → marked z1 = false → disk_facts A (i_dev z) (i_number z) = m (i_dev z) (i_number z).
Proof.
  intros E E1. apply (disk_written A z z); [done|done| |done]. unfold written. by rewrite <- E, E1.
Qed.

(** The file has a name, so that its inode stays. *)
Lemma wp_irele : 0 < i_nlink z → wp (irele fuel ip) (λ _ t', released (has (i_flag z) ILOCKED) t hl fl m ip z c f t') t.
Proof.
  intros Hn. pose proof (cd_table _ _ _ _ _ HC) as Ht. pose proof (table_refs _ _ _ _ _ _ Ht Hr) as [Hcr Hcf]. pose proof (tb_free _ _ _ Ht) as HF.
  unfold irele. pose proof Hr as Hr'. unfold refs in Hr'. destruct (ients t !! ip) as [e|] eqn:He; [|done]. simpl in Hr'. injection Hr' as X1 X2.
  apply wp_bind. eapply wp_ent_at; [exact He|]. rewrite X1. apply wp_bind. destruct (Z.eqb_spec c 1) as [Ec|Ec].
  - apply wp_bind. unfold flag_or. eapply wp_set_only; [exact Hz|]. intros t1 O1. set (z1 := z<|i_flag ::= _|>) in *. pose proof (only_ip_data _ _ _ _ _ _ Hz O1) as Z1.
    assert (M1 : marked z1 = marked z) by (apply marked_ilocked; reflexivity).
    apply wp_bind. eapply wp_data_at; [exact Z1|]. change (i_nlink z1) with (i_nlink z). rewrite (proj2 (Z.leb_gt (i_nlink z) 0)) by lia. apply wp_bind, wp_ret.
    destruct (cd_fs _ _ _ _ _ HC ip c f Hi Hr) as (k & x & Ef & Hx & Hro).
    apply wp_bind. eapply (wp_IUPDAT t1 ip z1 c k A); [|exact Z1|exact (cd_usable _ _ _ _ _ HC ip z Hi Hz)|by rewrite (only_ip_refs _ _ _ _ _ _ O1), Hr, Ef| |].
    { destruct O1 as (v & -> & _ & B). fields. rewrite B. apply HC. }
    { destruct O1 as (v & -> & _ & B). by exists x. }
    intros t2 z2 s2 A2 O2 Al2 C2 W2 E2. pose proof (only_ip_data _ _ _ _ _ _ Z1 O2) as Z2. pose proof (only_ip_trans _ _ _ _ _ _ _ _ O1 O2) as O2'.
    apply wp_bind. eapply wp_iunlock_only; [exact Z2|]. intros t3 z3 O3 Al3 M3 L3. pose proof (only_ip_data _ _ _ _ _ _ Z2 O3) as Z3. pose proof (only_ip_trans _ _ _ _ _ _ _ _ O2' O3) as O3'.
    apply wp_bind. eapply wp_set_only; [exact Z3|]. intros t4 O4. pose proof (only_ip_data _ _ _ _ _ _ Z3 O4) as Z4. pose proof (only_ip_trans _ _ _ _ _ _ _ _ O3' O4) as O4'.
    assert (Eb : bst (ivol t3) = s2).
    { destruct O3 as (v3 & -> & _ & B3). fields. rewrite B3. by destruct O2 as (v2 & -> & _ & B2). }
    rewrite Eb in O4'. set (z4 := z3<|i_flag := 0|>) in *.
    assert (He4 : ients t4 = ients t ∧ ifreeh t4 = ifreeh t ∧ ifreet t4 = ifreet t) by (by destruct O4' as (v4 & -> & _)). destruct He4 as (Ee & Eh & Et).
    eapply (wp_ienqueue t4 fl ip e z4); [by rewrite Ee, Eh, Et|intros ?%Hcf; lia|by rewrite Ee|exact Z4|]. intros es h tl HF' HR'. rewrite Ee in HR'.
    set (z5 := z4<|i_lastr := 0|>). assert (O5 : only_ip t ip z5 s2 (with_data t4 ip z5)).
    { destruct O4' as (v4 & -> & I4 & B4). eexists. unfold with_data. fields. split; [by destruct t|]. fields. split; [|done]. rewrite I4. by rewrite list_insert_insert_eq. }
    assert (K2 : kin z z2) by (apply (kin_trans z z1); [done|by apply kin_alike]).
    assert (K5 : kin z z5) by (eapply kin_trans; [exact K2|]; apply (kin_trans z2 z3); [by apply kin_alike|done]).
    destruct (disk_written A2 z1 z2 ltac:(done) K2 W2 M1) as [W3 W4].
    change (with_data (with_links t4 es h tl) ip z5) with (with_links (with_data t4 ip z5) es h tl).
    eapply (released_end (with_data t4 ip z5) z5 s2 A2 es h tl (fl ++ [ip])); try done.
    { etrans; [exact E2|]. destruct O1 as (v & -> & _ & B). fields. by rewrite B. }
    by rewrite (proj2 (Z.eqb_eq c 1)).
  - apply wp_bind. eapply wp_data_at; [exact Hz|].
    assert (HX : ∀ t1 z1, only_ip t ip z1 (bst (ivol t)) t1 → alike z z1 → marked z1 = marked z → (has (i_flag z) ILOCKED = false → has (i_flag z1) ILOCKED = false) →
      wp (set_ent ip (λ e, e<|i_count ::= λ c, u32 (c - 1)|>)) (λ _ t', released (has (i_flag z) ILOCKED) t hl fl m ip z c f t') t1).
    { intros t1 z1 O1 Al M1 L1. pose proof O1 as (v1 & E1 & I1 & B1). rewrite <- (with_links_same t1).
      assert (Ee : ients t1 = ients t ∧ ifreeh t1 = ifreeh t ∧ ifreet t1 = ifreet t) by (by rewrite E1). destruct Ee as (-> & -> & ->).
      eapply (released_end t1 z1 (bst (ivol t)) A _ _ _ fl); try done; [by apply kin_alike|apply HC|by rewrite (proj2 (Z.eqb_neq c 1))|].
      intros [?|Hm]; [done|]. by eapply clean_disk. }
    destruct (has (i_flag z) ILOCKED) eqn:EL; cbn [negb].
    + apply wp_ret. apply (HX t z); try done. exists (ivol t). split; [by destruct t|]. by rewrite list_insert_id.
    + eapply wp_ITIMES; [exact Hz|]. intros t1 z1 O1 Al M1 L1. apply (HX t1 z1); try done. intros _. congruence.
Qed.

(** The inode is changed by who has it. *)
Definition put m (dev ino : Z) F : imap := λ d i, if decide ((d, i) = (dev, ino)) then F else m d i.
Lemma cached_change z1 m' t1 : only_ip t ip z1 (bst (ivol t)) t1 → i_dev z1 = i_dev z → i_number z1 = i_number z → sane z1 → (marked z1 = false → marked z = false ∧ facts z1 = facts z) →
  (∀ dev ino, m' dev ino = put m (i_dev z) (i_number z) (facts z1) dev ino) → cached t1 hl fl A m'.
Proof.
  intros HO D1 D2 Hs Hmk Hm'. pose proof (cd_table _ _ _ _ _ HC) as Ht. pose proof (table_refs _ _ _ _ _ _ Ht Hr) as [_ Hcf]. pose proof HO as (v1 & E1 & I1 & B1).
  assert (Hat : m' (i_dev z) (i_number z) = facts z1) by (rewrite Hm'; unfold put; by rewrite decide_True).
  assert (Ht1 : table t1 hl fl).
  { subst t1. apply (table_make t _ hl fl); [done|done|done| |apply Ht|apply Ht|apply Ht]. fields. rewrite I1. by eapply same_names_insert. }
  eapply (cached_update t hl fl A m t1 hl fl A m' ip z z1); try done; try (by subst t1).
  - subst t1. fields. rewrite B1. apply HC.
  - intros jp. by apply hashed_same.
  - rewrite D1, D2. by eapply (cd_usable _ _ _ _ _ HC).
  - by rewrite D1, D2.
  - intros dev ino. rewrite D1, D2. intros Hne. split; [|done]. rewrite Hm'. unfold put. by rewrite decide_False.
  - intros Hm. rewrite D1, D2, Hat. destruct (Hmk Hm) as [Hm0 ->]. rewrite (clean_disk z) by done. symmetry. by apply (cd_core _ _ _ _ _ HC ip z).
  - left. congruence.
  - tauto.
  - intros Hin. apply Hcf in Hin. lia.
  - intros c' f' Hc'. rewrite (only_ip_refs _ _ _ _ _ _ HO), Hr in Hc'. injection Hc' as <- <-. by apply (cd_fs _ _ _ _ _ HC ip c f).
Qed.
End Release.

Lemma put_same m (dev ino d i : Z) : m d i = put m dev ino (m dev ino) d i.
Proof. unfold put. by case_decide as E; [injection E as -> ->|]. Qed.
Lemma wp_iput t hl fl A m ip z c f : cached t hl fl A m → hashed hl ip → inodes (ivol t) !! ip = Some z → refs t ip = Some (c, f) → 0 < c → 0 < i_nlink z →
  wp (iput fuel ip) (λ _ t', released false t hl fl m ip z c f t') t.
Proof.
  intros HC Hi Hz Hr Hc Hn. unfold iput. apply wp_bind. eapply wp_iunlock_only; [exact Hz|]. intros t1 z1 O1 Al M1 L1. pose proof (only_ip_data _ _ _ _ _ _ Hz O1) as Z1.
  assert (HC1 : cached t1 hl fl A m).
  { destruct (kin_alike _ _ Al) as (Ef & D1 & D2). eapply (cached_change t hl fl A m ip z c f HC Hi Hz Hr Hc z1); [exact O1|done|done| |by rewrite M1|].
    - eapply sane_alike; [exact Al|by eapply (cd_sane _ _ _ _ _ HC)].
    - intros dev ino. rewrite Ef, (cd_core _ _ _ _ _ HC ip z Hi Hz). apply put_same. }
  eapply wp_mono; [apply (wp_irele t1 hl fl A m ip z1 c f HC1 Hi Z1)|].
  - by rewrite (only_ip_refs _ _ _ _ _ _ O1).
  - done.
  - destruct Al as (_ & _ & _ & _ & _ & _ & -> & _). done.
  - intros [] t' (A' & z' & R1 & R2 & R3 & R4 & R5 & R6 & R7 & R8 & R9). pose proof (kin_alike _ _ Al) as K1. exists A', z'. split_and!; try done.
    + by eapply kin_trans.
    + intros _. by apply R5.
    + intros jp Hne. destruct (R6 jp Hne) as [-> ->]. rewrite (only_ip_refs _ _ _ _ _ _ O1). destruct O1 as (v1 & -> & I1 & _). fields. rewrite I1.
      by rewrite list_lookup_insert_ne.
    + rewrite R7. by destruct O1 as (v1 & -> & _).
    + rewrite R8. destruct O1 as (v1 & -> & _ & B1). fields. by rewrite B1.
    + intros E. destruct K1 as (_ & D1 & D2). rewrite <- D1, <- D2. by apply R9.
Qed.
End Cached.
