(* ===== verification/Inodes.v ===== *)
(** * Using inodes

    What the callers of [iget] and [iput] may rely on, from the start of the
    system. *)
From stdpp Require Import functions.
From stdpp Require Import base tactics list option strings numbers gmap.
From S2P Require Import Prelude Ring Bio Cache Store Ufs Alloc Bmap Rwip Fileio Isave Itable Icache.
Open Scope Z_scope.

Notation finfo := (Z * Z * Z * Z * Z * Z * list Z)%type.
Notation imap := (Z → Z → finfo).

(** A request: the file system, device and number of an inode, and what to
    make of it ([None]: it is only looked at). *)
Record irequest := Irequest { rq_fs : nat; rq_dev : Z; rq_ino : Z; rq_new : option finfo }.
Definition with_facts (F : finfo) (z : inode) : inode :=
  match F with (mo, nl, ui, gi, sz, fg, ad) =>
    z<|i_mode := mo|><|i_nlink := nl|><|i_uid := ui|><|i_gid := gi|><|i_size := sz|><|i_flags := fg|><|i_addr := ad|><|i_flag ::= λ g, Z.lor g ICHG|> end.

Section Inodes.
Context `{Disks, Naps, NamesOnly} (fuel : nat).

Definition use_inode (q : irequest) : T (option finfo) :=
  r ← iget fuel 0 (rq_dev q) (rq_fs q) (rq_ino q);
  match r with
  | None => mret None
  | Some ip =>
      z ← data_at ip;
      match rq_new q with Some F => set_data ip (with_facts F) | None => mret tt end;;
      iput fuel ip;;
      mret (Some (facts z))
  end.
Fixpoint use_inodes (qs : list irequest) : T (list (option finfo)) :=
  match qs with [] => mret [] | q :: qs => r ← use_inode q; rs ← use_inodes qs; mret (r :: rs) end.
End Inodes.

(** The same of a map of all inodes. *)
Definition nlink_of (F : finfo) : Z := match F with (_, nl, _, _, _, _, _) => nl end.
Definition sane_facts (F : finfo) : Prop := sane (with_facts F zero_inode).
Definition apply_req (m : imap) (q : irequest) : imap :=
  match rq_new q with Some F => put m (rq_dev q) (rq_ino q) F | None => m end.
Fixpoint answers_of (m : imap) (qs : list irequest) : list (option finfo) :=
  match qs with [] => [] | q :: qs => Some (m (rq_dev q) (rq_ino q)) :: answers_of (apply_req m q) qs end.
Definition final_of (m : imap) (qs : list irequest) : imap := fold_left apply_req qs m.
(** The files that are used have a name, before and after. *)
Fixpoint lively (m : imap) (qs : list irequest) : Prop :=
  match qs with
  | [] => True
  | q :: qs => 0 < nlink_of (m (rq_dev q) (rq_ino q)) ∧ (∀ F, rq_new q = Some F → sane_facts F ∧ 0 < nlink_of F) ∧ lively (apply_req m q) qs
  end.

Section Proofs.
Context `{Disks, Naps, NamesOnly} (parts : list (list Z)) (usable : Z → Z → Prop).
Context `{!Volumes parts usable, !GoodDisks} (fuel : nat) (Hfuel : (NBUF + 2 ≤ fuel)%nat).
Notation cached := (cached parts usable).
Implicit Types (t : itable) (hl : nat → list nat) (fl : list nat) (m : imap) (A : Z → Z → block).

Lemma incore_dec t hl fl dev ino : table t hl fl → {ip | names t hl ip dev ino} + {∀ ip, ¬ names t hl ip dev ino}.
Proof.
  intros Ht. set (P := λ ip, match inodes (ivol t) !! ip with Some z => (i_dev z =? dev) && (i_number z =? ino) | None => false end).
  destruct (list_find (λ ip, P ip = true) (hl (INOHASH dev ino))) as [[i ip]|] eqn:E.
  - left. exists ip. apply list_find_Some in E as (Hl & Hp & _). split; [exists (INOHASH dev ino); split; [apply INOHASH_head|by eapply list_elem_of_lookup_2]|].
    unfold P in Hp. destruct (inodes (ivol t) !! ip) as [z|]; [|done]. exists z. apply andb_prop in Hp as [G1%Z.eqb_eq G2%Z.eqb_eq]. done.
  - right. intros ip Hnm. apply list_find_None in E. rewrite Forall_forall in E. apply (E ip); [by eapply names_chain|].
    destruct Hnm as (_ & z & Hz & <- & <-). unfold P. by rewrite Hz, !Z.eqb_refl.
Qed.

Lemma wp_iget t hl fl A m (n : nat) (dev : Z) (fs : nat) (ino : Z) :
  cached t hl fl A m → available t hl dev ino → usable dev (itod ino) → writable t fs →
  wp (iget fuel n dev fs ino) (λ r t',
    match r with
    | Some ip => gotten parts usable t hl fl A m dev ino ip t' ∧ (names t hl ip dev ino ∨ (∀ jp, ¬ names t hl jp dev ino) ∧ head fl = Some ip)
    | None => fl = [] ∧ (∀ jp, ¬ names t hl jp dev ino) ∧ cached t' hl [] A m ∧ u_error (bst (ivol t')) = ENFILE
    end) t.
Proof.
  intros HC Hav Hu Hw. destruct (incore_dec t hl fl dev ino (cd_table _ _ _ _ _ _ _ HC)) as [[ip Hnm]|Hno].
  - pose proof Hnm as (Hi & z & Hz & D1 & D2). eapply wp_mono; [by eapply (iget_found parts usable fuel n t hl fl A m dev fs ino ip z)|].
    intros r t' [-> HG]. split; [done|by left].
  - destruct fl as [|ip l2].
    + eapply wp_mono; [by apply (iget_full parts usable fuel n t hl A m dev fs ino)|]. intros r t' (-> & HC' & He). done.
    + eapply wp_mono; [by apply (iget_missing parts usable fuel Hfuel n t hl ip l2 A m dev fs ino)|]. intros r t' [-> HG]. split; [done|]. by right.
Qed.

(** *** Waiting and crossing into a mounted file system *)
Definition located t ip z dev ino : Prop := ∃ hl fl A m, cached t hl fl A m ∧ hashed hl ip ∧ inodes (ivol t) !! ip = Some z ∧ i_dev z = dev ∧ i_number z = ino.
(** The first entry of the table of mounts that is mounted on [ip]. *)
Definition covers t (k : nat) (x : mount) ip : Prop :=
  mounts t !! k = Some x ∧ m_inodp x = Some ip ∧ ∀ j y, (j < k)%nat → mounts t !! j = Some y → m_inodp y ≠ Some ip.

(** The name that is looked up in the end: of a locked inode the caller leaves
    word that it wants it, sleeps, and looks for it anew in the table it then
    finds; a mounted-on inode stands for the root of what is mounted there. *)
Inductive arrives : nat → itable → Z → nat → Z → itable → Z → nat → Z → Prop :=
| arrives_here t dev fs ino : arrives 0 t dev fs ino t dev fs ino
| arrives_wait n t dev fs ino ip z t1 t' dev' fs' ino' :
    located t ip z dev ino → has (i_flag z) ILOCKED = true →
    inap ip (with_data t ip (z<|i_flag ::= λ g, Z.lor g IWANT|>)) = Done (tt, t1) → arrives n t1 dev fs ino t' dev' fs' ino' → arrives (S n) t dev fs ino t' dev' fs' ino'
| arrives_cross n t dev fs ino ip z k x t' dev' fs' ino' :
    located t ip z dev ino → has (i_flag z) ILOCKED = false → has (i_flag z) IMOUNT = true → covers t k x ip →
    arrives n t (m_dev x) k ROOTINO t' dev' fs' ino' → arrives (S n) t dev fs ino t' dev' fs' ino'.

Lemma find_mount_spec l ip : ∀ k,
  match find_mount l ip k with
  | Some (j, x) => ∃ i, j = (k + i)%nat ∧ l !! i = Some x ∧ m_inodp x = Some ip ∧ ∀ i' y, (i' < i)%nat → l !! i' = Some y → m_inodp y ≠ Some ip
  | None => ∀ i y, l !! i = Some y → m_inodp y ≠ Some ip
  end.
Proof.
  induction l as [|y l IH]; intros k; simpl; [done|]. case_bool_decide as E.
  - exists 0%nat. split_and!; [lia|done|done|lia].
  - specialize (IH (S k)). destruct (find_mount l ip (S k)) as [[j x]|].
    + destruct IH as (i & -> & Hl & Hx & Hmin). exists (S i). split_and!; [lia|done|done|]. intros [|i'] w Hi; simpl; [by intros [= <-]|]. apply Hmin. lia.
    + intros [|i] w; simpl; [by intros [= <-]|]. apply IH.
Qed.
Lemma find_mount_covers t k x ip : covers t k x ip → find_mount (mounts t) ip 0 = Some (k, x).
Proof.
  intros (Hk & Hx & Hmin). pose proof (find_mount_spec (mounts t) ip 0) as HF. destruct (find_mount (mounts t) ip 0) as [[j y]|]; [|by destruct (HF k x)].
  destruct HF as (i & -> & Hi & Hy & Hm). simpl. destruct (Nat.lt_trichotomy i k) as [?|[->|?]]; [by destruct (Hmin i y)|congruence|by destruct (Hm k x)].
Qed.

Lemma ifind_located t ip z dev ino : located t ip z dev ino →
  ifind dev ino t = Done (Some ip, t) ∧ data_at ip t = Done (z, t) ∧ ∀ g, set_data ip g t = Done (tt, with_data t ip (g z)).
Proof.
  intros (hl & fl & A & m & HC & Hi & Hz & E1 & E2). pose proof (cd_table _ _ _ _ _ _ _ HC) as Ht. split_and!.
  - assert (HX : wp (ifind dev ino) (λ r t', r = Some ip ∧ t' = t) t).
    { eapply wp_ifind; [exact Ht|]. intros [jp|] Hnm; [|exfalso; apply (Hnm ip); split; eauto]. split; [|done].
      destruct Hnm as (Hj & y & Hy & G1 & G2). f_equal. apply (tb_unique _ _ _ Ht jp ip y z); congruence. }
    apply wp_run in HX as (r & t' & HX & -> & ->). exact HX.
  - assert (HX : wp (data_at ip) (λ r t', r = z ∧ t' = t) t) by (eapply wp_data_at; [exact Hz|done]).
    apply wp_run in HX as (r & t' & HX & -> & ->). exact HX.
  - intros g. assert (HX : wp (set_data ip g) (λ _ t', t' = with_data t ip (g z)) t) by (eapply wp_set_data; [exact Hz|done]).
    apply wp_run in HX as ([] & t' & HX & ->). exact HX.
Qed.

(** However often it starts over, it goes on as if called with the name it
    arrives at. *)
Lemma iget_arrives k t dev fs ino t' dev' fs' ino' : arrives k t dev fs ino t' dev' fs' ino' → ∀ n, (k ≤ n)%nat →
  iget fuel n dev fs ino t = iget fuel (n - k) dev' fs' ino' t'.
Proof.
  induction 1 as [t dev fs ino|k t dev fs ino ip z t1 t' dev' fs' ino' Hloc HL Hn _ IH|k t dev fs ino ip z j x t' dev' fs' ino' Hloc HL HM Hcv _ IH]; intros n Hk.
  - by rewrite Nat.sub_0_r.
  - destruct n as [|n]; [lia|]. destruct (ifind_located _ _ _ _ _ Hloc) as (F & D & W). cbn [iget]. unfold mbind, K_bind. rewrite F, D, HL. unfold flag_or. rewrite W, Hn.
    apply IH. lia.
  - destruct n as [|n]; [lia|]. destruct (ifind_located _ _ _ _ _ Hloc) as (F & D & _). cbn [iget]. unfold mbind, K_bind. rewrite F, D, HL, HM. unfold gets.
    rewrite (find_mount_covers _ _ _ _ Hcv). apply IH. lia.
Qed.

(** C10. iget of a name.  When the inode is locked it asks to be woken, sleeps
    and starts over with the table it then finds; when a file system is
    mounted on it, it goes on with the root of that one; when no entry of the
    table of mounts is found for it, it panics.  The name it so arrives at,
    with an inode that is free to be taken or not in memory, decides: iget
    returns the inode of that name, locked and with one more reference.
    If it is in memory it is that one, whether in use or on the free list,
    and is not read again; else it is read from its block into the inode that
    was released longest ago; if there is none the error is [ENFILE].  In each
    case what is known of every file stays the same, in the table and on the
    disk, no name is in the table twice, and the chains and the free list are
    intact.  The other processes that run during a sleep are assumed to leave
    a sound table; the file system of the name is mounted for writing, its
    block is one of the disk, and reads of the disk do not fail. *)
Theorem iget_correct (k : nat) t (dev : Z) (fs : nat) (ino : Z) t1 (dev1 : Z) (fs1 : nat) (ino1 : Z) (n : nat) :
  arrives k t dev fs ino t1 dev1 fs1 ino1 → (k ≤ n)%nat →
  (∀ hl fl A m, cached t1 hl fl A m → available t1 hl dev1 ino1 → usable dev1 (itod ino1) → writable t1 fs1 →
    wp (iget fuel n dev fs ino) (λ r t',
      match r with
      | Some ip => gotten parts usable t1 hl fl A m dev1 ino1 ip t' ∧
          (names t1 hl ip dev1 ino1 ∨ (∀ jp, ¬ names t1 hl jp dev1 ino1) ∧ head fl = Some ip)
      | None => fl = [] ∧ (∀ jp, ¬ names t1 hl jp dev1 ino1) ∧ cached t' hl [] A m ∧ u_error (bst (ivol t')) = ENFILE
      end) t) ∧
  (∀ ip z, located t1 ip z dev1 ino1 → has (i_flag z) ILOCKED = false → has (i_flag z) IMOUNT = true → (∀ j x, ¬ covers t1 j x ip) →
    iget fuel n dev fs ino t = Panic "no imt").
Proof.
  intros Har Hk. rewrite (iget_arrives _ _ _ _ _ _ _ _ _ Har n Hk). split.
  - intros hl fl A m HC Hav Hu Hw. unfold wp. rewrite (iget_arrives _ _ _ _ _ _ _ _ _ Har n Hk). by apply wp_iget.
  - intros ip z Hloc HL HM Hno. destruct (ifind_located _ _ _ _ _ Hloc) as (F & D & _). pose proof (find_mount_spec (mounts t1) ip 0) as HF.
    assert (E : find_mount (mounts t1) ip 0 = None).
    { destruct (find_mount (mounts t1) ip 0) as [[j x]|]; [|done]. destruct HF as (i & _ & Hi & Hx & Hm). destruct (Hno i x). by split_and!. }
    destruct (n - k)%nat; cbn [iget]; unfold mbind, K_bind; rewrite F, D, HL, HM; unfold gets; by rewrite E.
Qed.

(** Nobody uses an inode. *)
Definition resting fl : Prop := ∀ ip, (ip < NINODE)%nat → ip ∈ fl.
Definition allowed t (q : irequest) : Prop := usable (rq_dev q) (itod (rq_ino q)) ∧ writable t (rq_fs q).

Lemma with_facts_facts F z : facts (with_facts F z) = F.
Proof. by destruct F as [[[[[[mo nl] ui] gi] sz] fg] ad]. Qed.
Lemma with_facts_name F z : i_dev (with_facts F z) = i_dev z ∧ i_number (with_facts F z) = i_number z ∧ i_nlink (with_facts F z) = nlink_of F.
Proof. by destruct F as [[[[[[mo nl] ui] gi] sz] fg] ad]. Qed.
Lemma with_facts_marked F z : marked (with_facts F z) = true.
Proof. destruct F as [[[[[[mo nl] ui] gi] sz] fg] ad]. unfold marked, with_facts. fields. rewrite has_lor. apply orb_true_r. Qed.
Lemma with_facts_sane F z : sane_facts F → sane (with_facts F z).
Proof. by destruct F as [[[[[[mo nl] ui] gi] sz] fg] ad]. Qed.
Lemma nlink_facts z : nlink_of (facts z) = i_nlink z.
Proof. done. Qed.

Lemma wp_use_inode t hl fl A m q : cached t hl fl A m → resting fl → allowed t q → lively m [q] →
  wp (use_inode fuel q) (λ r t', r = Some (m (rq_dev q) (rq_ino q)) ∧ ∃ hl' fl' A', cached t' hl' fl' A' (apply_req m q) ∧ resting fl' ∧ mounts t' = mounts t) t.
Proof.
  intros HC Hrest [Hu Hw] (Hn & Hnew & _). destruct q as [fs dev ino new]. unfold use_inode, apply_req. simpl rq_dev in *. simpl rq_ino in *. simpl rq_fs in *. simpl rq_new in *.
  pose proof (cd_table _ _ _ _ _ _ _ HC) as Ht.
  assert (Hav : available t hl dev ino).
  { intros ip z Hi Hz _ _. pose proof (hashed_lt _ _ _ _ Ht Hi) as Hip. rewrite (cd_free _ _ _ _ _ _ _ HC ip z (Hrest ip Hip) Hz). split; [done|]. split; [done|].
    destruct (table_ent _ _ _ _ Ht Hip) as [e He]. exists (i_count e), (i_fs e). unfold refs. rewrite He. split; [done|].
    destruct (tb_count _ _ _ Ht ip e He) as [_ Hc]. rewrite (proj2 Hc) by auto. lia. }
  apply wp_bind. eapply wp_mono; [by apply (wp_iget t hl fl A m 0 dev fs ino)|]. intros [ip|] t1.
  2:{ intros (-> & _). exfalso. specialize (Hrest 0%nat ltac:(unfold NINODE; lia)). set_solver. }
  intros [(hl1 & fl1 & z1 & c & f & HC1 & Hi1 & Hz1 & D1 & D2 & Df & HL & Hr1 & Hc & Hoth & Hm & Hfl & _) _].
  pose proof (hashed_lt _ _ _ _ (cd_table _ _ _ _ _ _ _ HC1) Hi1) as Hip. rewrite bool_decide_eq_true_2 in Hc by auto. subst c. change (0 + 1) with 1 in Hr1.
  apply wp_bind. eapply wp_data_at; [exact Hz1|]. rewrite Df.
  assert (HX : ∀ t2 z2 m2, cached t2 hl1 fl1 A m2 → inodes (ivol t2) !! ip = Some z2 → refs t2 ip = Some (1, f) → 0 < i_nlink z2 → mounts t2 = mounts t1 →
    wp (iput fuel ip;; mret (Some (m dev ino))) (λ r t', r = Some (m dev ino) ∧ ∃ hl' fl' A', cached t' hl' fl' A' m2 ∧ resting fl' ∧ mounts t' = mounts t) t2).
  { intros t2 z2 m2 HC2 Hz2 Hr2 Hn2 Em2. apply wp_bind. eapply wp_mono; [by apply (wp_iput parts usable fuel Hfuel t2 hl1 fl1 A m2 ip z2 1 f)|].
    intros [] t3 (A3 & z3 & HC3 & _ & _ & _ & _ & _ & Em3 & _). apply wp_ret. split; [done|]. exists hl1, (fl1 ++ [ip]), A3. split; [exact HC3|]. split; [|congruence].
    intros jp Hj. destruct (decide (jp = ip)) as [->|Hne]; [set_solver|]. apply elem_of_app. left. apply Hfl. auto. }
  destruct new as [F|].
  - destruct (Hnew F eq_refl) as [Hsf Hnf]. destruct (with_facts_name F z1) as (N1 & N2 & N3). apply wp_bind. eapply wp_set_only; [exact Hz1|]. intros t2 O2.
    apply (HX t2 (with_facts F z1)).
    + eapply (cached_change parts usable fuel Hfuel t1 hl1 fl1 A m ip z1 1 f HC1 Hi1 Hz1 Hr1 ltac:(lia) (with_facts F z1)); [exact O2|done|done|by apply with_facts_sane| |].
      * by rewrite with_facts_marked.
      * intros d i. rewrite with_facts_facts. by rewrite D1, D2.
    + by eapply only_ip_data.
    + by rewrite (only_ip_refs _ _ _ _ _ _ O2).
    + by rewrite N3.
    + by destruct O2 as (v & -> & _).
  - apply wp_bind, wp_ret. apply (HX t1 z1); try done. rewrite <- nlink_facts. by rewrite Df.
Qed.

Lemma wp_use_inodes qs : ∀ t hl fl A m, cached t hl fl A m → resting fl → Forall (allowed t) qs → lively m qs →
  wp (use_inodes fuel qs) (λ out t', out = answers_of m qs ∧ ∃ hl' fl' A', cached t' hl' fl' A' (final_of m qs) ∧ resting fl') t.
Proof.
  induction qs as [|q qs IH]; intros t hl fl A m HC Hrest Hal Hlv; cbn [use_inodes].
  - apply wp_ret. split; [done|]. by exists hl, fl, A.
  - apply Forall_cons in Hal as [Hq Hal]. destruct Hlv as (L1 & L2 & L3). apply wp_bind. eapply wp_mono; [by apply (wp_use_inode t hl fl A m q)|].
    intros r t1 (-> & hl1 & fl1 & A1 & HC1 & Hr1 & Em). apply wp_bind. eapply wp_mono; [eapply (IH t1 hl1 fl1 A1); [exact HC1|done| |done]|].
    + eapply Forall_impl; [exact Hal|]. intros q' [U W]. split; [done|]. unfold writable. by rewrite Em.
    + intros rs t2 (-> & HR). apply wp_ret. by split.
Qed.

(** ** Unmounting *)

(** A free inode is taken off its chain. *)
Lemma cached_unhash t hl fl A m ip fw bk : cached t hl fl A m → ip ∈ fl → chains None fw bk (unhashed hl ip) → cached (t<|i_forw := fw|><|i_back := bk|>) (unhashed hl ip) fl A m.
Proof.
  intros [[T1 T2 T3 T4 T5 T6 T7] C2 C3 C4 C5 C6 C7 C8] Hf HCh. assert (HU : ∀ jp, hashed (unhashed hl ip) jp → hashed hl jp) by (intros jp; rewrite hashed_unhashed; tauto).
  split; try done.
  - split; try done.
    + intros d jp z Hd Hx. apply T4; [done|]. by apply list_elem_of_filter in Hx as [_ ?].
    + intros i j z y G1%HU G2%HU. by apply T5.
  - intros jp z Hj%HU. by apply C3.
  - intros jp z Hj%HU. by apply C5.
  - intros dev ino Hall. apply C6. intros jp z Hj Hz E1 E2. destruct (decide (jp = ip)) as [->|Hne]; [unfold marked; by rewrite (C7 ip z Hf Hz)|].
    apply (Hall jp z); [by rewrite hashed_unhashed|done..].
  - intros jp c f Hj%HU. by apply C8.
Qed.
(** The inode [ip] is of the device. *)
Definition of_dev t ip dev : bool := match inodes (ivol t) !! ip with Some z => i_dev z =? dev | None => false end.
Definition in_use t ip : bool := match ients t !! ip with Some e => negb (i_count e =? 0) | None => false end.
Lemma wp_iflush_loop fl A m dev n : ∀ t hl ip open, (ip + n = NINODE)%nat → cached t hl fl A m → 0 ≤ open → (∀ jp, (jp < ip)%nat → of_dev t jp dev = true → ¬ hashed hl jp) →
  wp (iflush_loop n ip dev open) (λ r t', ∃ hl', cached t' hl' fl A m ∧ inodes (ivol t') = inodes (ivol t) ∧ ients t' = ients t ∧
    if existsb (λ jp, of_dev t jp dev && in_use t jp) (seq ip n) then r = -1 else 0 ≤ r ∧ ∀ jp, of_dev t' jp dev = true → ¬ hashed hl' jp) t.
Proof.
  induction n as [|n IH]; intros t hl ip open Hn HC Ho Hb; cbn [iflush_loop].
  - apply wp_ret. exists hl. split; [done|]. split; [done|]. split; [done|]. split; [done|]. intros jp Hj Hh.
    apply (Hb jp); [|done|done]. pose proof (hashed_lt _ _ _ _ (cd_table _ _ _ _ _ _ _ HC) Hh). lia.
  - pose proof (cd_table _ _ _ _ _ _ _ HC) as Ht. assert (Hip : (ip < NINODE)%nat) by lia. destruct (table_data _ _ _ _ Ht Hip) as [z Hz], (table_ent _ _ _ _ Ht Hip) as [e He].
    assert (Eo : of_dev t ip dev = (i_dev z =? dev)) by (unfold of_dev; by rewrite Hz). assert (Eu : in_use t ip = negb (i_count e =? 0)) by (unfold in_use; by rewrite He).
    apply wp_bind. eapply wp_data_at; [exact Hz|]. apply wp_bind. eapply wp_ent_at; [exact He|].
    assert (Eseq : existsb (λ jp, of_dev t jp dev && in_use t jp) (seq ip (S n)) =
      ((i_dev z =? dev) && negb (i_count e =? 0)) || existsb (λ jp, of_dev t jp dev && in_use t jp) (seq (S ip) n)) by (simpl; by rewrite Eo, Eu).
    rewrite Eseq. clear Eseq.
    destruct (i_dev z =? dev) eqn:Ed; [destruct (i_count e =? 0) eqn:Ec|]; cbn [negb andb orb] in *.
    + assert (Hf : ip ∈ fl) by (apply (tb_count _ _ _ Ht ip e He); by apply Z.eqb_eq).
      apply wp_bind. eapply wp_remque; [apply Ht|done|]. intros fw1 bk1 C1. apply wp_assoc.
      eapply (wp_self (t<|i_forw := fw1|><|i_back := bk1|>)); [exact C1|done|by rewrite hashed_unhashed; tauto|]. intros fw bk C2.
      replace ((t<|i_forw := fw1|><|i_back := bk1|>)<|i_forw := fw|><|i_back := bk|>) with (t<|i_forw := fw|><|i_back := bk|>) by (by destruct t).
      set (t2 := t<|i_forw := fw|><|i_back := bk|>). eapply wp_mono; [apply (IH t2 (unhashed hl ip) (S ip) open); [lia|by apply cached_unhash|done|]|intros r t' HI; exact HI]. intros jp Hj Hd. change (of_dev t jp dev = true) in Hd.
      rewrite hashed_unhashed. intros [Hh Hne]. apply (Hb jp); [lia|done|done].
    + apply wp_ret. exists hl. done.
    + destruct (cd_sane _ _ _ _ _ _ _ HC ip z Hz) as (_ & _ & _ & _ & _ & Hl). destruct (lookup_lt_is_Some_2 (i_addr z) 1) as [rd Hrd]; [lia|].
      apply wp_bind. eapply wp_lift; [by apply rd_Done|]. apply (IH t hl); [lia|done|destruct (_ && _); lia|]. intros jp Hj Hd. destruct (decide (jp = ip)) as [->|]; [congruence|].
      apply Hb; [lia|done].
Qed.

(** iflush, when a file system is unmounted: if an inode of the device is in
    use it fails; else none of its inodes can be found by name any more, so
    that what is mounted there next is not taken for what was, and what is
    known of all files stays the same. *)
Theorem iflush_correct t hl fl A m dev : cached t hl fl A m →
  wp (iflush dev) (λ r t', ∃ hl', cached t' hl' fl A m ∧
    if existsb (λ jp, of_dev t jp dev && in_use t jp) (seq 0 NINODE) then r = -1 else 0 ≤ r ∧ ∀ ip ino, ¬ names t' hl' ip dev ino) t.
Proof.
  intros HC. assert (HI := wp_iflush_loop fl A m dev NINODE t hl 0 0 eq_refl HC ltac:(done) ltac:(lia)). unfold iflush. eapply wp_mono; [exact HI|]. intros r t' (hl' & HC' & _ & _ & HR). exists hl'. split; [done|].
  destruct (existsb _ _); [done|]. destruct HR as [R1 R2]. split; [done|]. intros ip ino (Hh & z & Hz & Ed & _). apply (R2 ip); [|done]. unfold of_dev. rewrite Hz. by apply Z.eqb_eq.
Qed.

(** ** The start of the system *)
Definition bss_inode : inode := Inode 0 0 0 (replicate 7 0) 0 0 0 0 0 0 0 0 0 0.
(** The table is all zeros. *)
Definition cold t : Prop :=
  i_forw t = replicate (NINODE + INOHSZ) 0%nat ∧ i_back t = replicate (NINODE + INOHSZ) 0%nat ∧ ients t = replicate NINODE (Ient 0 0 None None None) ∧
  inodes (ivol t) = replicate NINODE bss_inode.
Definition boot_ent (i : nat) : ient :=
  Ient 0 0 None (if (i <? 23)%nat then Some (S i) else None) (Some (match i with O => Ifreeh | S j => Freef j end)).
Definition boot_table t : itable :=
  Itable (ivol t) (seq 0 40) (seq 0 40) (boot_ent <$> seq 0 24) (Some 0%nat) (Some (Freef 23)) (mounts t) (nextinodeid t).
Lemma ihinit_boot t : cold t → ihinit t = Done (tt, boot_table t).
Proof. destruct t as [v fw bk es h tl ms id]. intros (E1 & E2 & E3 & _). simpl in *. subst. vm_compute. reflexivity. Qed.
Lemma boot_links : linked (boot_ent <$> seq 0 24) Ifreeh (seq 0 24) None.
Proof. vm_compute. repeat (split; [eexists; split; [reflexivity|split; reflexivity]|]). exact I. Qed.
Lemma boot_ok t : cold t → table (boot_table t) (λ _, []) (seq 0 NINODE).
Proof.
  clear fuel Hfuel. intros (_ & _ & _ & E4). assert (HN : ∀ ip : nat, ¬ hashed (λ _, []) ip) by (intros ip (d & _ & Hx); set_solver). split; try done.
  - change (length (inodes (ivol t)) = NINODE). by rewrite E4.
  - split; [|done|done|].
    + split; try set_solver.
      * intros d Hd%head_ge. change (seq 0 40 !! d = Some d ∧ True). split; [|done]. unfold NINODE, INOHSZ in Hd. apply lookup_seq. lia.
      * intros d Hd%head_ge. change (seq 0 40 !! d = Some d ∧ True). split; [|done]. unfold NINODE, INOHSZ in Hd. apply lookup_seq. lia.
      * intros d _. apply NoDup_nil_2.
    + intros ip Hip _ _. unfold NINODE in Hip. change (seq 0 40 !! ip = Some ip ∧ seq 0 40 !! ip = Some ip). split; apply lookup_seq; lia.
  - intros d ip z _ Hx. set_solver.
  - intros ip jp z y Hh. by apply HN in Hh.
  - split; [done|by intros ip [= <-]|exact boot_links|apply NoDup_seq].
  - intros ip e He. apply list_lookup_fmap_Some in He as (i & -> & [-> Hi]%lookup_seq). change (i_count (boot_ent _)) with 0. split; [lia|]. rewrite elem_of_seq. unfold NINODE. lia.
Qed.
Lemma boot_cached t A : cold t → cache_ok parts usable (bst (ivol t)) [] A → cached (boot_table t) (λ _, []) (seq 0 NINODE) A (disk_facts A).
Proof.
  clear fuel Hfuel. intros Hc HA. pose proof Hc as (_ & _ & _ & E4). assert (HN : ∀ ip : nat, ¬ hashed (λ _, []) ip) by (intros ip (d & _ & Hx); set_solver).
  assert (HZ : ∀ ip z, inodes (ivol (boot_table t)) !! ip = Some z → z = bss_inode) by (intros ip z; change (ivol (boot_table t)) with (ivol t); rewrite E4; by intros [-> _]%lookup_replicate).
  split; [by apply boot_ok|done|..].
  - intros ip z Hh. by apply HN in Hh.
  - intros ip z ->%HZ. by unfold sane.
  - intros ip z Hh. by apply HN in Hh.
  - done.
  - by intros ip z _ ->%HZ.
  - intros ip c f Hh. by apply HN in Hh.
Qed.

(** C9. The table of inodes is a cache of the inodes on the disk that writes
    them back.  From the start of the system, and for any sequence of requests
    that each get an inode by its device and number, look at it, perhaps change
    it, and release it, however often inodes are thrown out of the table in
    between, each request finds what the last change left, or what was on the
    disk; and in the end the blocks of the disk have exactly all changes.  (The
    times of a file apart; the files that are used have a name.) *)
Theorem inodes_write_back t A (qs : list irequest) :
  cold t → cache_ok parts usable (bst (ivol t)) [] A → Forall (allowed t) qs → lively (disk_facts A) qs →
  wp (ihinit;; use_inodes fuel qs) (λ out t', out = answers_of (disk_facts A) qs ∧
    ∃ A', cache_ok parts usable (bst (ivol t')) [] A' ∧ ∀ dev ino, disk_facts A' dev ino = final_of (disk_facts A) qs dev ino) t.
Proof.
  intros Hc HA Hal Hlv. apply wp_bind, wp_run. exists tt, (boot_table t). split; [by apply ihinit_boot|].
  eapply wp_mono; [eapply (wp_use_inodes qs (boot_table t) (λ _, []) (seq 0 NINODE) A (disk_facts A)); [by apply boot_cached|intros ip; rewrite elem_of_seq; lia|exact Hal|exact Hlv]|].
  intros out t' (-> & hl' & fl' & A' & HC' & Hr). split; [done|]. exists A'. split; [apply HC'|]. intros dev ino. apply (cd_disk _ _ _ _ _ _ _ HC'). intros ip z Hi Hz _ _.
  unfold marked. by rewrite (cd_free _ _ _ _ _ _ _ HC' ip z (Hr ip (hashed_lt _ _ _ _ (cd_table _ _ _ _ _ _ _ HC') Hi)) Hz).
Qed.
End Proofs.

(** ** Examples

    The file of the volume of [Alloc] has its inode, number 7, on the disk. *)
#[local] Existing Instance ex_volumes.
#[local] Existing Instance ex_good.
Definition ex_tableops : TableOps := {| inap := λ _, mret tt; cinvalall := mret tt |}.
#[local] Instance ex_names_only : @NamesOnly ex_tableops.
Proof. done. Qed.
Definition ex_imd : gmap (Z * Z) block := <[(0, 11) := replicate 96 0 ++ dinode_words ex_inode 0 ++ replicate 144 0]> ex_md.
Definition ex_itable : itable :=
  Itable (Vol (BState boot_bufs ex_data ex_imd ex_parts 0 0 0 []) ex_sb (replicate NINODE bss_inode) 0 1000 [])
    (replicate 40 0%nat) (replicate 40 0%nat) (replicate NINODE (Ient 0 0 None None None)) None None [Mount 1 ex_sb None] 0.
Definition ex_iA : Z → Z → block := on_disk ex_parts ex_imd.
Lemma ex_cold : cold ex_itable.
Proof. done. Qed.
Lemma ex_icache : cache_ok ex_parts ex_usable (bst (ivol ex_itable)) [] ex_iA.
Proof. by apply boot_cache. Qed.
Lemma ex_ifacts : disk_facts ex_iA 1 7 = facts ex_inode.
Proof. vm_compute. reflexivity. Qed.

Lemma iget_correct_witness :
  let D := ex_disks true in let N := ex_naps in let O := ex_tableops in
  wp (iget 12 0 1 0 7) (λ r t', r = Some 0%nat ∧ ∃ z, inodes (ivol t') !! 0%nat = Some z ∧ facts z = facts ex_inode) (boot_table ex_itable).
Proof.
  intros D N O. pose proof (boot_cached ex_parts ex_usable ex_itable ex_iA ex_cold ex_icache) as HC. eapply wp_mono.
  - apply (proj1 (iget_correct ex_parts ex_usable 12 ltac:(unfold NBUF; lia) 0 (boot_table ex_itable) 1 0 7 (boot_table ex_itable) 1 0 7 0
      (arrives_here ex_parts ex_usable (boot_table ex_itable) 1 0 7) (le_n 0)) (λ _, []) (seq 0 NINODE) ex_iA (disk_facts ex_iA) HC).
    + intros ip z (d & _ & Hx). set_solver.
    + split; vm_compute; (reflexivity || (split; congruence)).
    + eexists. split; reflexivity.
  - intros [ip|] t'; [|intros [E _]; discriminate E]. intros [HG [Hn|[_ Eh]]]; [destruct Hn as ((d & _ & Hx) & _); set_solver|].
    injection Eh as <-. split; [reflexivity|]. destruct HG as (hl' & fl' & z' & c & f & _ & _ & Hz & _ & _ & Hf & _). exists z'. split; [exact Hz|]. by rewrite Hf, ex_ifacts.
Defined.

(** A locked inode is waited for: here the process that has it unlocks it
    while the caller sleeps.  An inode with a file system mounted on it stands
    for the root of that. *)
Definition ex_sleepops : TableOps := {| inap := λ ip, on_ivol (iunlock ip); cinvalall := mret tt |}.
Lemma ex_iget_waits :
  let D := ex_disks true in let N := ex_naps in let O := ex_sleepops in
  match (iget 12 0 1 0 7;; iget 12 1 1 0 7) (boot_table ex_itable) with
  | Done (r, t') => r = Some 0%nat ∧ refs t' 0 = Some (2, Some 0%nat)
  | _ => False
  end.
Proof. vm_compute. split; reflexivity. Qed.
Lemma ex_iget_crosses :
  let D := ex_disks true in let N := ex_naps in let O := ex_sleepops in
  match (ip ← iget 12 0 1 0 7; on_ivol (iunlock 0);; flag_or 0 IMOUNT;; modify (λ t, t<|mounts := [Mount 1 ex_sb None; Mount 1 ex_sb (Some 0%nat)]|>);;
         iget 12 1 1 0 7) (boot_table ex_itable) with
  | Done (r, t') => r = Some 1%nat ∧ refs t' 1 = Some (1, Some 1%nat) ∧ i_number <$> inodes (ivol t') !! 1%nat = Some ROOTINO
  | _ => False
  end.
Proof. vm_compute. repeat split; reflexivity. Qed.

Definition ex_new : Z * Z * Z * Z * Z * Z * list Z := (0x81a4, 2, 0, 0, 5000, 0, [10; 0; 0; 0; 11; 0; 0]).
Lemma inodes_write_back_witness :
  let D := ex_disks true in let N := ex_naps in let O := ex_tableops in
  wp (ihinit;; use_inodes 12 [Irequest 0 1 7 None; Irequest 0 1 7 (Some ex_new); Irequest 0 1 7 None])
    (λ out t', out = [Some (facts ex_inode); Some (facts ex_inode); Some ex_new] ∧ ∃ A', cache_ok ex_parts ex_usable (bst (ivol t')) [] A' ∧ disk_facts A' 1 7 = ex_new) ex_itable.
Proof.
  intros D N O. eapply wp_mono.
  - apply (inodes_write_back ex_parts ex_usable 12 ltac:(unfold NBUF; lia) ex_itable ex_iA _ ex_cold ex_icache).
    + assert (HA : allowed ex_usable ex_itable (Irequest 0 1 7 None)) by (split; [split; vm_compute; (reflexivity || (split; congruence))|eexists; split; reflexivity]).
      repeat constructor; apply HA.
    + assert (HN : 0 < nlink_of (disk_facts ex_iA 1 7)) by (rewrite ex_ifacts; reflexivity).
      refine (conj HN (conj _ (conj HN (conj _ (conj _ (conj _ I)))))); [intros F E; discriminate E| |reflexivity|intros F E; discriminate E].
      intros F [= <-]. split; [|reflexivity]. unfold sane_facts, sane. simpl. split_and!; try done; lia.
  - intros out t' [-> (A' & HA & HF)]. split; [|exists A'; split; [exact HA|]; rewrite HF; reflexivity].
    unfold answers_of, apply_req. simpl. unfold put. simpl. by rewrite ex_ifacts.
Defined.
